(* ===== verification/_CoqProject ===== *)
-Q . S2P
Prelude.v
Bits.v
Mem.v
Checksum.v
ChecksumEcc.v
ChecksumVariants.v
PageChecksum.v
ChecksumErrors.v
ChecksumTheorems.v
Page.v
PageLayout.v
PageTags.v
PageReorg.v
PageTagArray.v
PageInsert.v
PageDelete.v
PageReplace.v
PageNew.v
PageRead.v
PageDehydrate.v
PageSpec.v
PageTheorems.v
PageAccessTheorems.v
Xpress.v
XpressDec.v
XpressEnc.v
Compression.v
CompressionBits.v
CompressionPack.v
CompressionScheme.v
CompressionCodec.v
CompressionTheorems.v
Key.v
KeyProps.v
PageChunks.v
Node.v
NodeView.v
NodeOps.v
NodeSeek.v
NodeSpec.v
NodeTheorems.v
Norm.v
NormOrder.v
NormBinary.v
NormKeys.v
NormMake.v
NormRead.v
NormTheorems.v
Conc.v
Latch.v
LatchInv.v
LatchProofs.v
LatchTheorems.v
TagFld.v
TagFldView.v
TagFldOps.v
TagFldMulti.v
TagFldSearch.v
TagFldSpec.v
TagFldSet.v
TagFldRead.v
TagFldTheorems.v
Rec.v
RecView.v
RecFixed.v
RecVar.v
RecSpec.v
RecTheorems.v
RbTree.v
RbShape.v
RbBalance.v
RbHeap.v
RbOps.v
RbMap.v
RbTheorems.v
Table.v
TableProps.v
TableTheorems.v
PageCheck.v
PageCheckProps.v
