(* ===== verification/Prelude.v ===== *)
(** * Verification of the ESE storage engine: pages, nodes, keys, records, latches, collections

    ESE (the Extensible Storage Engine, src/dev/ese) is a transactional B-tree
    store.  Its durable unit is the database page: a slotted page of 2 to 32 KB
    whose lines (B-tree nodes) are found through a tag array, protected by an
    XOR + ECC checksum that can repair a flipped bit.  On it sits the node layer,
    which reads lines as keys and data, compresses shared key prefixes and
    searches a page; B-trees, records and logging trust both.  The data of a node
    is a record: fixed columns with a null bit map, variable columns with an array
    of offsets, and tagged columns, a small sorted map in itself.  Index keys are
    made of column values by a normalisation that turns the order of values into
    the order of bytes.  Threads share pages through latches whose state is one
    machine word.  This library models all of these, the compression of column
    values, and of the engine's collections the red-black tree, arrays and
    sorted tables, from the C++ sources and proves them correct.

    ** Parts of the program and how they fit together

    - src/dev/ese/src/checksum/: the checksum of one block, in scalar and
      vector versions chosen at run time, and the decoding of a difference
      between two checksums into the position of a flipped bit.
    - src/dev/ese/src/ese/_osu/checksumu.cxx: the checksums of a page (one
      block on small pages, four on large ones), the legacy header checksum,
      verification and repair.
    - src/dev/ese/src/inc/cpage.hxx, src/dev/ese/src/ese/cpage.cxx: CPAGE, the
      slotted page.  The page header holds the free-space counters and the tag
      count; tags at the end of the buffer give offset, length and (small
      pages) flags of each line; large pages keep the flags in the line.  Its
      integrity check runs when a page is read or written.
    - src/dev/ese/src/inc/daedef.hxx: keys (a prefix shared by the nodes of a
      page and a suffix), bookmarks and their comparisons.
    - src/dev/ese/src/ese/node.cxx, src/dev/ese/src/inc/node.hxx: the nodes of
      a page: a line is the sizes of prefix and suffix, the suffix and the
      data; the prefix is in the external header, the first line of the page.
    - src/dev/ese/src/ese/fldmod.cxx, src/dev/ese/src/ese/fldext.cxx,
      src/dev/ese/src/inc/rec.hxx: the columns of a record: setting them in the
      work buffer of a cursor and reading them.
    - src/dev/ese/src/inc/tagfld.hxx, src/dev/ese/src/ese/tagfld.cxx: the tagged
      columns of a record.
    - src/dev/ese/src/ese/fldnorm.cxx, src/dev/ese/src/ese/_osu/normu.cxx: the
      normalisation of columns, search keys of a cursor, columns read back from
      a key.
    - src/dev/ese/src/ese/compression.cxx: the compression of column values;
      src/dev/ese/src/_xpress/: XPRESS, the LZ77 codec that it calls.
    - src/dev/ese/published/inc/sync.hxx: CSXWLatch, the latch with shared,
      exclusive and write owners.
    - src/dev/ese/published/inc/collection.hxx: InvasiveRedBlackTree, whose nodes
      are fields of the objects it holds; the queue of metered disk reads
      (src/dev/ese/src/os/osdisk.cxx) is such a tree; CArray and CTable, arrays
      that grow and arrays kept in the order of keys (the pages that cursors
      refer to, src/dev/ese/src/ese/bf.cxx; the contexts of threads,
      src/dev/ese/src/os/trace.cxx).

    The node layer reads and writes lines only through CPAGE and compares keys
    byte by byte, so that the order of an index is what key normalisation makes
    it.  A record is the data of a node; the fixed and variable columns come first
    and end where the tagged columns begin, so every change of the former moves
    the latter.  Column compression works on values before they become the data
    of a node.  The integrity check of a page reads its nodes with the node reader and
    compares their keys.  CPAGE calls the page checksums when it resizes a clean page; the
    page checksums call the block checksums through function pointers set by the
    processor selection.  Tagged columns call the normalisation for the check of
    unique values.  Latches and collections stand for themselves: they are
    used by the buffer manager and the layers of I/O and tracing.

    ** Files

    - Prelude, Bits, Mem: machine integers with their wrap-around, XOR sums
      and bit indices, byte memory with little-endian loads and stores.
    - Checksum: all block checksum routines of checksum.cxx,
      checksum_amd64.cxx, checksum_avx.cxx and checksum_neon.cxx, loop by loop;
      ChecksumEcc, ChecksumVariants: the mathematical code and the proofs that
      every routine computes it.
    - PageChecksum: checksumu.cxx, against the interface [ChecksumRoutines]
      (what the function pointers promise, instantiated by [routines_of] for
      each processor); ChecksumErrors: syndromes of flipped
      bits, page geometry, and what verification does to damaged pages.
      ChecksumTheorems: the properties.
    - Page: CPAGE's data, header, tags, formatting, line operations and
      compaction; [PageEnforce] and [OnErrorEnforce], which end the process,
      are the result [None].  The sort of compaction is the interface
      [StdSort] (the promises of [std::sort], which fixes no order of equal
      keys), implemented in PageSpec.
    - PageLayout: the abstract contents ([lines], [view]) and layouts of
      disjoint lines; PageTags: the effect of each field setter and the
      invariant [page_inv]; PageReorg: compaction; PageTagArray: opening and
      closing slots of the tag array, the tag counts, and storing flags and data
      of a line; PageInsert, PageDelete, PageReplace, PageNew:
      the operations; PageRead: accessors and flag walks; PageDehydrate:
      resizing.
    - PageSpec: the abstract page, a list of lines with a capacity, and the
      simulation; PageTheorems and PageAccessTheorems: the properties.
    - Compression: the codecs of compression.cxx that the build compiles;
      CompressionBits, CompressionPack: packing and
      unpacking of 7-bit values against a reference encoding;
      CompressionScheme: the choice of a scheme; CompressionCodec: the
      dispatch; CompressionTheorems: the properties.
    - Xpress: [XpressDecode] and [XpressEncode] of src/dev/ese/src/_xpress, in the
      coding and level that compression.cxx uses (CODING_DIRECT2, level 2, C code):
      the decoder as steps between its labels, fast and careful; the encoder with
      its hash chains, its match search and the writing of items and tags.  An
      access outside a buffer is the result [None].  XpressDec: the decoder stays in
      its buffers and ends on any bytes, and what it makes of a block of well-formed
      items ([coded]); XpressEnc: what the encoder writes is such a block of its
      data ([XpressEncode_spec], [XpressDecode_encode]).
    - Key: DATA, KEY, BOOKMARK and KEYDATAFLAGS as references into memory, the
      comparisons of daedef.hxx, numbers as keys; KeyProps: comparisons are
      lexicographic comparisons of bytes, and the properties.
    - Node: reading, writing and searching nodes (node.cxx), with [PageEnforce]
      as the result [None]; PageChunks: insertion and replacement with data
      that lies in the page; NodeView: the nodes of a page ([nodes],
      [node_page]) and what both readers return; NodeOps: the effect of each
      operation; NodeSeek: the searches; NodeSpec: the abstract page of nodes
      and the simulation; NodeTheorems: the properties.
    - Norm: normalisation of each column type, limits, [ErrIsamMakeKey] and
      [ErrRECIRetrieveColumnFromKey]; a segment or key is the list of its bytes,
      and a read of bytes that were not written is the result [None].  Unicode
      sort keys come from the system: [ErrNORMMapString] is a parameter, the
      interface [NormLocale] (a sort key fits the space given).  NormOrder:
      segments whose comparison is decided inside them ([ranked]), the order of
      fixed columns, IEEE 754; NormBinary: the chunked form of binary columns and
      text; NormKeys: segments and keys of columns that fit and their order;
      NormMake: what calls of [ErrIsamMakeKey] build, and the bounds of what they
      can build; NormRead: reading back; NormTheorems: the properties.
    - Conc: interleavings of processes that share a state, one atomic action a
      step; Latch: CSXWLatch, each method a sequence of reads, compare-and-swaps
      and semaphore operations; LatchInv: the meaning of the state word and the
      invariant; LatchProofs: every action of every method keeps it;
      LatchTheorems: the properties.
    - TagFld: TAGFIELDS, TWOVALUES and MULTIVALUES over the bytes of a record;
      TagFldView: what bytes stand for which columns ([rep]); TagFldOps:
      insertion, deletion, resizing and replacement of a column; TagFldMulti:
      several values in one, the conversions between the forms; TagFldSearch: the
      binary search and the lookup of a column; TagFldSpec: the abstract update of
      a sorted list of columns; TagFldSet: [ErrSetColumn] refines it; TagFldRead: reading values
      and the validation; TagFldTheorems: the properties.
    - Rec: the work buffer of a cursor (FUCB), the part of the table's schema that
      the code asks for (TDB), [ErrRECSetColumn] with what it calls, and the
      readers of columns; RecView: the record in memory against a row of values
      ([holds_record]) and the schema, and the readers; RecFixed: null bits,
      default values of skipped columns, extension of the fixed part, the cursor
      and values of fixed columns; RecVar: variable columns; RecSpec: what setting
      a fixed or variable column promises, rows, the tagged columns in their place, [ErrRECSetColumn]; RecTheorems: the properties.
    - RbTree: the red-black tree, its nodes in a store of addresses, each
      operation a computation on the store that can stop at a pointer that is
      [NULL] or at an assertion; keys are the interface [KEYOPS] with the laws
      [KeyOrder], implemented by the places of disk reads.  RbShape: shapes, the
      operations on them, ordered lists and entries; RbBalance: balance, deletion,
      searches and depth; RbHeap: shapes in the store, what a computation writes,
      rotations and repairs; RbOps: the operations in the store do what they do to
      shapes; RbMap: the interface against an ordered map, merging; RbTheorems: the properties.
    - Table: CArray and CTable, with the allocator a parameter (it may refuse) and
      the comparison of keys the interface [KEYENTRY] with the laws
      [KeyEntryLaws] for the entries a table is used with; the comparisons of the
      two tables of the program implement it.  TableProps: lists by index, growth,
      both sorts and both searches; TableTheorems: seeks, loads, sequences of
      calls and the properties.
    - PageCheck: [ErrCheckPage], the integrity check that pages pass when they are
      read and written; a check has a result, a corruption that it reports or an
      access that it must not make ([verdict]); memory for the map of bytes may be
      refused.  PageCheckProps: the map as a set of bytes, what it shows and what it
      does not, what accepted pages have, which pages are accepted, and that the
      check ends; the properties.

    ** What the theorems show

    Checksums: every implementation computes the same code; one flipped bit per
    block is located and repaired exactly; two are rejected
    (outside the stored checksum and the format bit); a checksum just
    set verifies on every processor; header pages detect any flipped bit.

    Pages: every legal sequence of operations on a well-formed page refines
    updates of a list of lines, fails exactly for lack of space, and writes
    only the free-space and tag-count fields, the data area and the tag array.
    Lines never overlap and [cbFree] is exact.  Compaction, the unrolled tag
    copy loop and resizing preserve all lines.  The checked accessor returns
    only lines inside the page and reads only the buffer, on arbitrary bytes.
    The integrity check accepts every page of nodes with a coherent header, accepts
    only pages whose space, lines, nodes and keys are in order, and ends on any
    bytes; its map of bytes finds exactly the overlaps that it marks.
    Nodes: every legal sequence of node operations refines updates of a list of
    keys, data and flags, prefix compression being invisible; both readers
    return the stored node; the binary searches return what linear searches
    return and place the cursor where a descent of the B-tree needs it, and the
    leaf search takes a logarithmic number of rounds on any page.  Key
    comparisons are lexicographic however keys are split.

    Compression: what [ErrCompress] writes, [ErrDecompress] reads back, XPRESS
    included; compression and decompression end and stay inside their buffers,
    decompression on arbitrary bytes except an XPRESS value of one or two bytes;
    the optimised packing and the scan that chooses a scheme equal their
    references.

    Key normalisation: keys that fit compare as their columns; floating-point
    columns compare as numbers; columns are read back from their keys in indexes
    without descending GUID, fixed text and Unicode text columns; search
    keys and segments stay inside their bounds for all values and options, and a
    call returns unless a number is given too few or too many bytes.

    Latches: in every interleaving of any threads a write owner is alone, shared
    and exclusive owners share as they may, no thread waits for ever while the
    others give their latches back, no count of the state word overflows, and a
    latch that all have left is as it was at the start.

    Records: sequences of updates of tagged columns refine updates of a sorted list
    of columns and values; sequences of [ErrRECSetColumn] refine updates of a row,
    with the same errors, and an error changes no column; the readers return the
    row's values, default values where the record does not reach the column; the
    comparisons of tagged columns agree, and the count of a column's values is
    the number of values it has.

    Collections: sequences of calls of a red-black tree refine calls on an ordered
    map, keep the tree balanced, write only the nodes and trip no assertion;
    searches take a logarithmic number of turns; a merge moves the entries whose
    keys are new and leaves the others.  Sequences of loads, copies and updates of
    a table refine the same on a list, leave it in order by whichever sort, and
    change nothing when memory is refused; the six seeks find what they say, from
    either search.

    Some theorems are about defects.  A column that follows fixed text in an
    index is read back as null (same direction, nulls low), and so is a descending
    GUID column.  The normalisation of a variable or tagged number reads as many
    bytes as its type has, whatever the size of the value.  Two flipped bits of a
    block are rejected unless one is the format bit or in the header's stored
    checksum.  A value of one or two bytes marked as XPRESS is read past its end,
    and an XPRESS value whose data have the size of the original is reported as
    decompressed although nothing is written.  [SeekLE] and [SeekGE] of a table find
    the first and the last of equal entries, not those their comment says.  With a maximum key
    size of 256 a limit takes one byte more than its buffer.  With a default
    record of an impossible size a variable column is set with success and the
    record gets shorter; a fixed column fails after half of the move.  The checked
    node reader of the product build accepts a key suffix that ends after its
    line.  The map of the integrity check leaves out the first word of a line that
    begins in the last three quarters of the word, so lines that overlap only
    there pass.  [IAddReservedTag] does not reserve room for its tag; a theorem gives a
    page on which it overwrites another line's tag.  [FindNode] of a red-black
    tree does not return [NULL] for an absent key unless the context is the first
    member of the objects, and [ErrFindNearest] finds a neighbour in the order, not
    the nearest key.  The comparison of referenced pages cuts
    an address difference to 32 bits and is no order beyond 2 GB, and
    [ErrLoadEntries] of an array does not count the entries it loads.

    ** Bounds and fuel

    Loops whose count the code computes are recursions on that count.
    [duff_loop] and [copy_backward] take a fuel of at least the number of tags
    to move, [fix_loop] six steps for at most five turns; the lemmas about them
    show the fuel is enough.  The binary searches take one step of fuel more than
    the page has lines, which is proved enough (for a leaf, [log2] of the
    number of lines plus two already is); the bit loops of the 7-bit codecs take the
    number of bits left; [XpressDecode] takes four steps for each byte to decode and
    eight more, the loops of the encoder one more than the bytes left; the chunk
    loops of binary columns take the size of the segment
    or of the key; the search of tagged columns takes the number of columns; a read
    of a default value takes a recursion of two, into the default record.  A
    search of a red-black tree of n nodes takes 2 log2(n + 1) + 1 steps, a
    deletion at most one for each node.  The map of the integrity check takes one
    step more than the line has bytes.  The quicksort of a table of n entries takes
    at most 2n - 1 partitions, the search by halves log2(n + 1) + 1 turns.
    Maximum key sizes are at most 2000, the limit of the engine,
    where a buffer is concerned, and below 65535 otherwise.  Pages have 2 to 32 KB, at most 4095 tags (the
    12-bit field of the header) and lines of at most 32767 bytes (the 16-bit
    signed difference in [Replace_]).  Records fit the offsets of tagged columns
    (13 or 15 bits), values have fewer than 2^30 bytes, and a maximum key size is
    at least 4.  A latch has at most 32766 contexts that use it at a time, the
    range of its counters; the actions of threads interleave in a sequentially
    consistent order, and a semaphore is a count.  Nodes of a red-black tree have
    64-bit addresses that are not zero.  A table has fewer than 2^63 entries, and
    its keys lie within 2^31 of each other where the program's comparisons are used.

    ** Not modelled

    The B-tree, the buffer manager (its buffer size and dirty bit are fields of
    the page), logging and recovery, the version store, the space manager, the
    catalog, the flush map: concurrent services on top of these parts, each with
    state spread over a whole instance and its files.  Everywhere: debug checks,
    performance counters, traces and dump code; the assertions of the red-black
    tree and the latch are modelled.

    Of CPAGE: [ErrValidatePage], the reports of [ErrCheckPage] to the event log,
    gap zeroing, the checksum of logged data, the setters of header fields.  The theorems of PageTheorems on
    [Insert_] and [Replace_] take their data from outside the page; PageChunks
    also has data that points into it.  [NDShrinkCbPrefix] and [NDSetPrefix] are
    modelled without theorems of their own.  Of the node layer: the wrappers that
    log and version an update, visibility to a cursor, the named fields of the
    external header of root pages, reserved tags, scrubbing.  Of compression: the
    caches of workspaces, statistics, and the formats behind macros that the
    build does not define.  Of key normalisation: the extraction of key columns
    from a record, the choice of the index at the start of [ErrIsamMakeKey], the
    locale's own rules (a parameter).  Of synchronisation: the other locks, the
    detection of deadlocks, the semaphore's own implementation.  Of tagged
    columns: [ErrScan], the passes of long values over a work buffer, copying and
    the iterators over columns.  Of records: separated long values, escrowed and
    versioned columns, default values computed by the user, updates of indexes.
    Of the collections: the sorts of arrays that call the C library, hash tables,
    lists, heaps, queues, the allocating facade of the red-black tree. *)

From Stdlib Require Import ZArith List Lia Bool.
Import ListNotations.
#[global] Open Scope Z_scope.

(** ** Machine integers

    A [w]-bit unsigned integer is a [Z]; every place where the C++ code
    truncates (an assignment to a [USHORT], an addition on [ULONG], ...) is
    written with one of these wrap-around functions. *)

Definition u8 (x : Z) : Z := x mod 256.
Definition u16 (x : Z) : Z := x mod 65536.
Definition u32 (x : Z) : Z := x mod 4294967296.
Definition u64 (x : Z) : Z := x mod 18446744073709551616.

(** [(SHORT) x] : the low 16 bits read as a two's complement number. *)
Definition s16 (x : Z) : Z := let y := u16 x in if y <? 32768 then y else y - 65536.

(** An [INT] result: the low 32 bits read as a two's complement number. *)
Definition s32 (x : Z) : Z := let y := u32 x in if y <? 2147483648 then y else y - 4294967296.

(** [ulMax] / [UINT_MAX]. *)
Definition ulMax : Z := 4294967295.

(** ** Tactics *)

(** Sequencing of operations that may have no result. *)
Notation "'let?' x := a 'in' b" := (match a with Some x => b | None => None end)
  (at level 10, x pattern, a at level 100, b at level 200).

(** Linear arithmetic with [/] and [mod] by constants turned into equations. *)
Ltac zlia := Z.to_euclidean_division_equations; lia.

(** Case analysis on the boolean comparisons of the goal. *)
Ltac case_cmp :=
  repeat match goal with
  | |- context [?a =? ?b] => destruct (Z.eqb_spec a b)
  | |- context [?a <? ?b] => destruct (Z.ltb_spec a b)
  | |- context [?a <=? ?b] => destruct (Z.leb_spec a b)
  end.

Ltac inv H := inversion H; subst; clear H.

Create HintDb ese.

Lemma u16_small x : 0 <= x < 65536 -> u16 x = x.
Proof. apply Z.mod_small. Qed.

Lemma u32_small x : 0 <= x < 4294967296 -> u32 x = x.
Proof. apply Z.mod_small. Qed.

Lemma u64_small x : 0 <= x < 18446744073709551616 -> u64 x = x.
Proof. apply Z.mod_small. Qed.

Lemma u8_range x : 0 <= u8 x < 256.
Proof. apply Z.mod_pos_bound; lia. Qed.

Lemma u16_range x : 0 <= u16 x < 65536.
Proof. apply Z.mod_pos_bound; lia. Qed.

Lemma u32_range x : 0 <= u32 x < 4294967296.
Proof. apply Z.mod_pos_bound; lia. Qed.

#[export] Hint Resolve u8_range u16_range u32_range : ese.

Lemma s16_small x : -32768 <= x < 32768 -> s16 x = x.
Proof. unfold s16, u16; intros; case_cmp; zlia. Qed.

Lemma s32_small x : -2147483648 <= x < 2147483648 -> s32 x = x.
Proof. unfold s32, u32; intros; case_cmp; zlia. Qed.

Lemma bool_cases (b : bool) : b = true \/ b = false.
Proof. destruct b; auto. Qed.
