(* ===== verification/Bits.v ===== *)
(** * Exclusive-or sums and bit indices

    The algebra behind the ECC checksum: XOR sums over index ranges (with
    splitting, regrouping and exchange lemmas), the parity of a word, and the
    "double index" [~j:j] that the checksum loops carry in one 32-bit word. *)

From Stdlib Require Import ZArith List Lia Bool.
From S2P Require Import Prelude.

(** ** XOR sums of booleans and of integers *)

Fixpoint xsum (n : nat) (f : nat -> bool) : bool :=
  match n with
  | O => false
  | S n' => xorb (xsum n' f) (f n')
  end.

Fixpoint zxsum (n : nat) (f : nat -> Z) : Z :=
  match n with
  | O => 0
  | S n' => Z.lxor (zxsum n' f) (f n')
  end.

Lemma xsum_ext n f g : (forall i, (i < n)%nat -> f i = g i) -> xsum n f = xsum n g.
Proof. induction n; intros H; simpl; f_equal; auto. Qed.

Lemma zxsum_ext n f g : (forall i, (i < n)%nat -> f i = g i) -> zxsum n f = zxsum n g.
Proof. induction n; intros H; simpl; f_equal; auto. Qed.

Lemma xsum_false n : xsum n (fun _ => false) = false.
Proof. induction n; simpl; [reflexivity | now rewrite IHn]. Qed.

Lemma xsum_xorb n f g : xsum n (fun i => xorb (f i) (g i)) = xorb (xsum n f) (xsum n g).
Proof. induction n; simpl; [reflexivity|]. rewrite IHn. now destruct (xsum n f), (xsum n g), (f n), (g n). Qed.

Lemma xsum_andb_l n b f : xsum n (fun i => b && f i) = b && xsum n f.
Proof. destruct b; simpl; [reflexivity | apply xsum_false]. Qed.

Lemma xsum_add n m f : xsum (n + m) f = xorb (xsum n f) (xsum m (fun i => f (n + i)%nat)).
Proof.
  induction m; simpl; [now rewrite Nat.add_0_r, xorb_false_r|].
  rewrite Nat.add_succ_r; simpl. now rewrite IHm, xorb_assoc.
Qed.

(** Regrouping a sum of [n * R] terms into [n] rows of [R] terms. *)
Lemma xsum_rows R n f :
  xsum (n * R) f = xsum n (fun j => xsum R (fun t => f (j * R + t)%nat)).
Proof.
  induction n; simpl; [reflexivity|].
  rewrite Nat.add_comm, xsum_add, IHn; f_equal.
Qed.

Lemma xsum_swap n m (f : nat -> nat -> bool) :
  xsum n (fun i => xsum m (fun j => f i j)) = xsum m (fun j => xsum n (fun i => f i j)).
Proof.
  induction n; simpl.
  - now rewrite xsum_false.
  - now rewrite IHn, xsum_xorb.
Qed.

(** Weighted sums whose weight depends only on the row, or only on the position
    in the row. *)
Lemma xsum_regroup_hi n R F f g :
  (forall j t, (t < R)%nat -> g (j * R + t)%nat = f j) ->
  xsum (n * R) (fun i => F i && g i) = xsum n (fun j => xsum R (fun t => F (j * R + t)%nat) && f j).
Proof.
  intros H. rewrite xsum_rows. apply xsum_ext; intros j _.
  rewrite andb_comm, <- xsum_andb_l. apply xsum_ext; intros t Ht. rewrite H by lia. apply andb_comm.
Qed.

Lemma xsum_regroup_lo n R F f g :
  (forall j t, (t < R)%nat -> g (j * R + t)%nat = f t) ->
  xsum (n * R) (fun i => F i && g i) = xsum R (fun t => xsum n (fun j => F (j * R + t)%nat) && f t).
Proof.
  intros H. rewrite xsum_rows, xsum_swap. apply xsum_ext; intros t Ht.
  rewrite andb_comm, <- xsum_andb_l. apply xsum_ext; intros j _. rewrite H by lia. apply andb_comm.
Qed.

(** A sum with a single non-zero term. *)
Lemma xsum_single n f k :
  (k < n)%nat -> (forall i, (i < n)%nat -> i <> k -> f i = false) -> xsum n f = f k.
Proof.
  induction n; intros Hk H; [lia|]. simpl.
  destruct (Nat.eq_dec k n) as [->|Hne].
  - rewrite (xsum_ext _ _ (fun _ => false)), xsum_false; [now destruct (f n)|].
    intros; apply H; lia.
  - rewrite IHn, (H n); try lia; [now destruct (f k)|]. intros; apply H; lia.
Qed.

Lemma testbit_zxsum n f k : Z.testbit (zxsum n f) k = xsum n (fun i => Z.testbit (f i) k).
Proof.
  induction n; simpl; [apply Z.testbit_0_l|]. now rewrite Z.lxor_spec, IHn.
Qed.

Lemma zxsum_lxor n f g : zxsum n (fun i => Z.lxor (f i) (g i)) = Z.lxor (zxsum n f) (zxsum n g).
Proof.
  apply Z.bits_inj'; intros k _.
  rewrite Z.lxor_spec, !testbit_zxsum, <- xsum_xorb. apply xsum_ext; intros; apply Z.lxor_spec.
Qed.

(** Summing by columns of a row-major array. *)
Lemma zxsum_cols n R f :
  zxsum R (fun t => zxsum n (fun j => f (j * R + t)%nat)) = zxsum (n * R) f.
Proof.
  apply Z.bits_inj'; intros k _. rewrite !testbit_zxsum, xsum_rows, xsum_swap.
  apply xsum_ext; intros; apply testbit_zxsum.
Qed.

(** ** Ranges from bits, and back *)

Lemma bits_range w a :
  0 <= w -> (forall k, w <= k -> Z.testbit a k = false) -> 0 <= a < 2 ^ w.
Proof.
  intros Hw H. replace a with (a mod 2 ^ w).
  - apply Z.mod_pos_bound; lia.
  - apply Z.bits_inj'; intros k Hk. destruct (Z.lt_ge_cases k w).
    + apply Z.mod_pow2_bits_low; lia.
    + rewrite Z.mod_pow2_bits_high by lia. symmetry; auto.
Qed.

Lemma testbit_high w a k : 0 <= a < 2 ^ w -> w <= k -> Z.testbit a k = false.
Proof.
  intros Ha Hk. destruct (Z.lt_ge_cases w 0); [rewrite Z.pow_neg_r in Ha; lia|].
  rewrite <- (Z.mod_small a (2 ^ w)) by lia. apply Z.mod_pow2_bits_high; lia.
Qed.

Lemma bits_eq32 a b :
  0 <= a < 2 ^ 32 -> 0 <= b < 2 ^ 32 ->
  (forall k, 0 <= k < 32 -> Z.testbit a k = Z.testbit b k) -> a = b.
Proof.
  intros Ha Hb H. apply Z.bits_inj'; intros k Hk.
  destruct (Z.lt_ge_cases k 32); [auto|].
  now rewrite !(testbit_high 32) by lia.
Qed.

Lemma lxor_range w a b : 0 <= a < 2 ^ w -> 0 <= b < 2 ^ w -> 0 <= Z.lxor a b < 2 ^ w.
Proof.
  intros Ha Hb. destruct (Z.lt_ge_cases w 0); [rewrite Z.pow_neg_r in *; lia|].
  apply bits_range; [lia|]. intros k Hk.
  now rewrite Z.lxor_spec, !(testbit_high w) by lia.
Qed.

Lemma land_range_l w a b : 0 <= a < 2 ^ w -> 0 <= Z.land a b < 2 ^ w.
Proof.
  intros Ha. destruct (Z.lt_ge_cases w 0); [rewrite Z.pow_neg_r in *; lia|].
  apply bits_range; [lia|]. intros k Hk.
  now rewrite Z.land_spec, (testbit_high w) by lia.
Qed.

Lemma land_range_r w a b : 0 <= b < 2 ^ w -> 0 <= Z.land a b < 2 ^ w.
Proof. rewrite Z.land_comm; apply land_range_l. Qed.

Lemma lor_range w a b : 0 <= a < 2 ^ w -> 0 <= b < 2 ^ w -> 0 <= Z.lor a b < 2 ^ w.
Proof.
  intros Ha Hb. destruct (Z.lt_ge_cases w 0); [rewrite Z.pow_neg_r in *; lia|].
  apply bits_range; [lia|]. intros k Hk.
  now rewrite Z.lor_spec, !(testbit_high w) by lia.
Qed.

Lemma zxsum_range w n f :
  (forall i, (i < n)%nat -> 0 <= f i < 2 ^ w) -> 0 <= w -> 0 <= zxsum n f < 2 ^ w.
Proof.
  intros H Hw; induction n; simpl.
  - split; [lia|]. apply Z.pow_pos_nonneg; lia.
  - apply lxor_range; auto.
Qed.

#[export] Hint Resolve lxor_range land_range_l land_range_r lor_range : ese.

(** ** Parity of a 32-bit word *)

Definition par (w : Z) : bool := xsum 32 (fun c => Z.testbit w (Z.of_nat c)).

Arguments par : simpl never.

Lemma par_lxor a b : par (Z.lxor a b) = xorb (par a) (par b).
Proof.
  unfold par. rewrite <- xsum_xorb. apply xsum_ext; intros; apply Z.lxor_spec.
Qed.

Lemma par_0 : par 0 = false.
Proof. reflexivity. Qed.

Lemma par_zxsum n f : par (zxsum n f) = xsum n (fun i => par (f i)).
Proof. induction n; simpl; [reflexivity|]. now rewrite par_lxor, IHn. Qed.

Lemma par_pow2 c : (c < 32)%nat -> par (2 ^ Z.of_nat c) = true.
Proof.
  intros Hc. unfold par. rewrite (xsum_single _ _ c Hc).
  - apply Z.pow2_bits_true; lia.
  - intros i _ Hi. apply Z.pow2_bits_false; lia.
Qed.

(** ** The double index [~j : j]

    [didx s j] has [j] at bit [s] of its low half and the complement of [j] at
    bit [s] of its high half; the checksum loops step through these values with
    a single 32-bit addition. *)

Definition didx (s : Z) (j : Z) : Z :=
  (2 ^ (16 - s) - 1 - j) * 2 ^ (s + 16) + j * 2 ^ s.

Lemma testbit_shl_add s a b k :
  0 <= s -> 0 <= b < 2 ^ s -> 0 <= k ->
  Z.testbit (a * 2 ^ s + b) k = if k <? s then Z.testbit b k else Z.testbit a (k - s).
Proof.
  intros Hs Hb Hk. destruct (Z.ltb_spec k s).
  - rewrite <- (Z.mod_pow2_bits_low _ s) by lia.
    rewrite Z.add_comm, Z.mod_add by (apply Z.pow_nonzero; lia).
    now rewrite Z.mod_small by lia.
  - replace k with ((k - s) + s) at 1 by lia.
    rewrite <- Z.shiftr_spec by lia. rewrite Z.shiftr_div_pow2 by lia.
    rewrite Z.add_comm, Z.div_add by (apply Z.pow_nonzero; lia).
    now rewrite Z.div_small, Z.add_0_l by lia.
Qed.

Lemma testbit_compl n j k :
  0 <= j < 2 ^ n -> 0 <= k < n -> Z.testbit (2 ^ n - 1 - j) k = negb (Z.testbit j k).
Proof.
  intros Hj Hk. replace (2 ^ n - 1 - j) with (Z.lnot j + 1 * 2 ^ n) by (unfold Z.lnot; lia).
  rewrite <- (Z.mod_pow2_bits_low _ n), Z.mod_add, Z.mod_pow2_bits_low
    by (try apply Z.pow_nonzero; lia).
  apply Z.lnot_spec; lia.
Qed.

Lemma didx_range s j : 0 <= s <= 16 -> 0 <= j < 2 ^ (16 - s) -> 0 <= didx s j < 2 ^ 32.
Proof.
  intros Hs Hj. unfold didx.
  assert (H1 : 2 ^ 32 = 2 ^ (16 - s) * 2 ^ (s + 16)) by (rewrite <- Z.pow_add_r by lia; f_equal; lia).
  assert (H2 : 2 ^ 16 = 2 ^ (16 - s) * 2 ^ s) by (rewrite <- Z.pow_add_r by lia; f_equal; lia).
  assert (H3 : 2 ^ (s + 16) = 2 ^ s * 65536) by (rewrite Z.pow_add_r by lia; reflexivity).
  assert (0 < 2 ^ s) by (apply Z.pow_pos_nonneg; lia).
  assert (0 < 2 ^ (16 - s)) by (apply Z.pow_pos_nonneg; lia).
  nia.
Qed.

Lemma didx_low s j k :
  0 <= s <= 16 -> 0 <= j < 2 ^ (16 - s) -> 0 <= k < 16 ->
  Z.testbit (didx s j) k = if k <? s then false else Z.testbit j (k - s).
Proof.
  intros Hs Hj Hk. unfold didx.
  assert (H2 : 2 ^ 16 = 2 ^ (16 - s) * 2 ^ s) by (rewrite <- Z.pow_add_r by lia; f_equal; lia).
  assert (H3 : 2 ^ (s + 16) = 2 ^ s * 2 ^ 16) by (rewrite Z.pow_add_r by lia; reflexivity).
  assert (0 < 2 ^ s) by (apply Z.pow_pos_nonneg; lia).
  rewrite H3, Z.mul_assoc, testbit_shl_add by nia.
  destruct (Z.ltb_spec k 16); [|lia].
  rewrite <- (Z.add_0_r (j * 2 ^ s)), testbit_shl_add by lia.
  destruct (k <? s); [apply Z.testbit_0_l | reflexivity].
Qed.

Lemma didx_high s j k :
  0 <= s <= 16 -> 0 <= j < 2 ^ (16 - s) -> 0 <= k < 16 ->
  Z.testbit (didx s j) (16 + k) = if k <? s then false else negb (Z.testbit j (k - s)).
Proof.
  intros Hs Hj Hk. unfold didx.
  assert (H2 : 2 ^ 16 = 2 ^ (16 - s) * 2 ^ s) by (rewrite <- Z.pow_add_r by lia; f_equal; lia).
  assert (H3 : 2 ^ (s + 16) = 2 ^ s * 2 ^ 16) by (rewrite Z.pow_add_r by lia; reflexivity).
  assert (0 < 2 ^ s) by (apply Z.pow_pos_nonneg; lia).
  rewrite H3, Z.mul_assoc, testbit_shl_add by nia.
  destruct (Z.ltb_spec (16 + k) 16); [lia|].
  replace (16 + k - 16) with k by lia.
  rewrite <- (Z.add_0_r (_ * 2 ^ s)), testbit_shl_add by lia.
  destruct (Z.ltb_spec k s); [apply Z.testbit_0_l |].
  apply testbit_compl; lia.
Qed.

(** Stepping the double index is one 32-bit addition. *)
Lemma didx_step s j :
  0 <= s <= 16 -> 0 <= j -> j + 1 < 2 ^ (16 - s) ->
  u32 (didx s j + (2 ^ 32 - 2 ^ (s + 16) + 2 ^ s)) = didx s (j + 1).
Proof.
  intros Hs Hj Hj1. pose proof (didx_range s (j + 1) Hs ltac:(lia)) as Hr.
  change 4294967296 with (2 ^ 32) in *. unfold u32.
  symmetry. apply Z.mod_unique with (q := 1); [left; change (2 ^ 32) with 4294967296 in Hr; lia|].
  unfold didx. change 4294967296 with (2 ^ 32). ring.
Qed.

(** The bits of a row-major index. *)
Lemma testbit_row_major R b r t k :
  0 <= b -> Z.of_nat R = 2 ^ b -> (t < R)%nat -> 0 <= k ->
  Z.testbit (Z.of_nat (r * R + t)) k
  = if k <? b then Z.testbit (Z.of_nat t) k else Z.testbit (Z.of_nat r) (k - b).
Proof.
  intros Hb HR Ht Hk. rewrite Nat2Z.inj_add, Nat2Z.inj_mul, HR. apply testbit_shl_add; lia.
Qed.
