(* ===== verification/Mem.v ===== *)
(** * Byte memory

    A buffer in memory is a total function from byte offsets (relative to the
    start of the buffer, the [pv]/[m_bfl.pv] pointer of the C++ code) to byte
    values.  Offsets outside the buffer are the surrounding memory, so that
    "the code writes only inside its buffer" is a theorem and not a
    consequence of the representation.

    All multi-byte fields of ESE's persisted structures are little endian
    ([LittleEndian<>], [UnalignedLittleEndian<>]). *)

From Stdlib Require Import ZArith List Lia Bool.
From Stdlib Require Import Setoid Morphisms.
From S2P Require Import Prelude.
Import ListNotations.

Definition mem := Z -> Z.

Definition mem_ok (m : mem) : Prop := forall a, 0 <= m a < 256.

(** Pointwise equality of memories, the equivalence all reads respect. *)
Definition mem_eq (m1 m2 : mem) : Prop := forall a, m1 a = m2 a.

(** Agreement on the half-open range [[lo, hi)]. *)
Definition mem_eq_on (lo hi : Z) (m1 m2 : mem) : Prop :=
  forall a, lo <= a < hi -> m1 a = m2 a.

#[export] Instance mem_eq_equiv : Equivalence mem_eq.
Proof.
  split; red; unfold mem_eq; intros; auto.
  now rewrite H, H0.
Qed.

(** ** Loads and stores *)

Definition load8 (m : mem) (a : Z) : Z := m a.
Definition load16 (m : mem) (a : Z) : Z := m a + 256 * m (a + 1).
Definition load32 (m : mem) (a : Z) : Z := load16 m a + 65536 * load16 m (a + 2).
Definition load64 (m : mem) (a : Z) : Z := load32 m a + 4294967296 * load32 m (a + 4).

Definition store8 (m : mem) (a v : Z) : mem := fun x => if x =? a then v mod 256 else m x.
Definition store16 (m : mem) (a v : Z) : mem := store8 (store8 m a v) (a + 1) (v / 256).
Definition store32 (m : mem) (a v : Z) : mem := store16 (store16 m a v) (a + 2) (v / 65536).
Definition store64 (m : mem) (a v : Z) : mem := store32 (store32 m a v) (a + 4) (v / 4294967296).

(** [memmove(dst, src, n)] (overlap-safe), [memset(dst, c, n)], and a copy of
    bytes from outside the buffer. *)
Definition memmove (m : mem) (dst src n : Z) : mem :=
  fun x => if (dst <=? x) && (x <? dst + n) then m (src + (x - dst)) else m x.

Definition memset (m : mem) (dst c n : Z) : mem :=
  fun x => if (dst <=? x) && (x <? dst + n) then c mod 256 else m x.

Definition store_bytes (m : mem) (dst : Z) (l : list Z) : mem :=
  fun x => if (dst <=? x) && (x <? dst + Z.of_nat (length l))
           then nth (Z.to_nat (x - dst)) l 0 mod 256 else m x.

(** The [n] bytes at [a]. *)
Definition load_bytes (m : mem) (a n : Z) : list Z :=
  map (fun i => m (a + Z.of_nat i)) (seq 0 (Z.to_nat n)).

(** ** Pointwise values *)

Ltac mem_unfold :=
  unfold store64, store32, store16, store8, load64, load32, load16, load8,
    memmove, memset, store_bytes in *.

Lemma store8_at m a v x : store8 m a v x = if x =? a then v mod 256 else m x.
Proof. reflexivity. Qed.

Lemma store16_frame m a v x : x < a \/ a + 2 <= x -> store16 m a v x = m x.
Proof. unfold store16, store8; intros; case_cmp; lia. Qed.

Lemma store32_frame m a v x : x < a \/ a + 4 <= x -> store32 m a v x = m x.
Proof. unfold store32; intros; now rewrite !store16_frame by lia. Qed.

Lemma store64_frame m a v x : x < a \/ a + 8 <= x -> store64 m a v x = m x.
Proof. unfold store64; intros; now rewrite !store32_frame by lia. Qed.

Lemma memmove_frame m d s n x : x < d \/ d + n <= x -> memmove m d s n x = m x.
Proof. unfold memmove; intros; case_cmp; simpl; lia. Qed.

Lemma memmove_in m d s n x : d <= x < d + n -> memmove m d s n x = m (s + (x - d)).
Proof. unfold memmove; intros; case_cmp; simpl; lia. Qed.

Lemma memset_frame m d c n x : x < d \/ d + n <= x -> memset m d c n x = m x.
Proof. unfold memset; intros; case_cmp; simpl; lia. Qed.

Lemma memset_in m d c n x : d <= x < d + n -> memset m d c n x = c mod 256.
Proof. unfold memset; intros; case_cmp; simpl; lia. Qed.

Lemma store_bytes_frame m d l x :
  x < d \/ d + Z.of_nat (length l) <= x -> store_bytes m d l x = m x.
Proof. unfold store_bytes; intros; case_cmp; simpl; lia. Qed.

Lemma store_bytes_in m d l x :
  d <= x < d + Z.of_nat (length l) -> store_bytes m d l x = nth (Z.to_nat (x - d)) l 0 mod 256.
Proof. unfold store_bytes; intros; case_cmp; simpl; lia. Qed.

(** ** Read over write *)

(** Loads depend only on the bytes they read. *)
Lemma load16_ext m1 m2 a : mem_eq_on a (a + 2) m1 m2 -> load16 m1 a = load16 m2 a.
Proof. intros H; unfold load16; now rewrite !H by lia. Qed.

Lemma load32_ext m1 m2 a : mem_eq_on a (a + 4) m1 m2 -> load32 m1 a = load32 m2 a.
Proof. intros H; unfold load32; now rewrite !(load16_ext m1 m2) by (intros ? ?; apply H; lia). Qed.

Lemma load64_ext m1 m2 a : mem_eq_on a (a + 8) m1 m2 -> load64 m1 a = load64 m2 a.
Proof. intros H; unfold load64; now rewrite !(load32_ext m1 m2) by (intros ? ?; apply H; lia). Qed.

Lemma load16_store16_eq m a v : load16 (store16 m a v) a = u16 v.
Proof. unfold u16. mem_unfold; case_cmp; zlia. Qed.

Lemma load32_store32_eq m a v : load32 (store32 m a v) a = u32 v.
Proof.
  unfold u32, load32, store32. rewrite load16_store16_eq.
  rewrite (load16_ext _ (store16 m a v) a), load16_store16_eq
    by (intros x Hx; apply store16_frame; lia).
  unfold u16. zlia.
Qed.

Lemma load64_store64_eq m a v : load64 (store64 m a v) a = u64 v.
Proof.
  unfold u64, load64, store64. rewrite load32_store32_eq.
  rewrite (load32_ext _ (store32 m a v) a), load32_store32_eq
    by (intros x Hx; apply store32_frame; lia).
  unfold u32. zlia.
Qed.

(** A store overwrites its bytes whatever they were. *)
Lemma store64_indep m1 m2 p v a : p <= a < p + 8 -> store64 m1 p v a = store64 m2 p v a.
Proof. intros. unfold store64, store32, store16, store8. case_cmp; reflexivity || lia. Qed.

Lemma load64_store64_ne m p v a : p + 8 <= a \/ a + 8 <= p -> load64 (store64 m p v) a = load64 m a.
Proof. intros. apply load64_ext. intros x Hx. apply store64_frame. lia. Qed.

Lemma load_bytes_ext m1 m2 a n : mem_eq_on a (a + n) m1 m2 -> load_bytes m1 a n = load_bytes m2 a n.
Proof.
  intros H; unfold load_bytes; apply map_ext_in; intros i Hi.
  apply in_seq in Hi. apply H. lia.
Qed.

Lemma length_load_bytes m a n : length (load_bytes m a n) = Z.to_nat n.
Proof. unfold load_bytes; now rewrite length_map, length_seq. Qed.

Lemma nth_load_bytes m a n i d :
  (i < Z.to_nat n)%nat -> nth i (load_bytes m a n) d = m (a + Z.of_nat i).
Proof.
  intros Hi; unfold load_bytes.
  rewrite nth_indep with (d' := (fun i => m (a + Z.of_nat i)) 0%nat)
    by (now rewrite length_map, length_seq).
  rewrite (map_nth (fun i => m (a + Z.of_nat i))), seq_nth by lia. reflexivity.
Qed.

(** ** Well-formed memories *)

Section Ok.
Variable m : mem.
Hypothesis Hm : mem_ok m.

Lemma store8_ok a v : mem_ok (store8 m a v).
Proof. intros x; unfold store8; case_cmp; [apply Z.mod_pos_bound; lia | apply Hm]. Qed.

Lemma memmove_ok d s n : mem_ok (memmove m d s n).
Proof. intros x; unfold memmove; case_cmp; simpl; apply Hm. Qed.

Lemma memset_ok d c n : mem_ok (memset m d c n).
Proof. intros x; unfold memset; case_cmp; simpl; try apply Hm; apply Z.mod_pos_bound; lia. Qed.

Lemma store_bytes_ok d l : mem_ok (store_bytes m d l).
Proof. intros x; unfold store_bytes; case_cmp; simpl; try apply Hm; apply Z.mod_pos_bound; lia. Qed.

Lemma load16_range a : 0 <= load16 m a < 65536.
Proof. unfold load16. pose proof (Hm a). pose proof (Hm (a + 1)). lia. Qed.

Lemma load32_range a : 0 <= load32 m a < 4294967296.
Proof.
  unfold load32, load16. pose proof (Hm a). pose proof (Hm (a + 1)).
  pose proof (Hm (a + 2)). pose proof (Hm (a + 2 + 1)). lia.
Qed.
End Ok.

Lemma store16_ok m a v : mem_ok m -> mem_ok (store16 m a v).
Proof. intros; unfold store16; now apply store8_ok, store8_ok. Qed.

Lemma store32_ok m a v : mem_ok m -> mem_ok (store32 m a v).
Proof. intros; unfold store32; now apply store16_ok, store16_ok. Qed.

Lemma store64_ok m a v : mem_ok m -> mem_ok (store64 m a v).
Proof. intros; unfold store64; now apply store32_ok, store32_ok. Qed.

Lemma load64_range m a : mem_ok m -> 0 <= load64 m a < 18446744073709551616.
Proof.
  intros Hm; unfold load64. pose proof (load32_range m Hm a).
  pose proof (load32_range m Hm (a + 4)). lia.
Qed.

(** Storing what is there changes nothing. *)
Lemma store16_cong m1 m2 a v1 v2 :
  mem_eq m1 m2 -> v1 mod 65536 = v2 mod 65536 -> mem_eq (store16 m1 a v1) (store16 m2 a v2).
Proof. intros Hm Hv x. unfold store16, store8. case_cmp; [zlia..| apply Hm]. Qed.

Lemma store16_load16 m a : mem_ok m -> mem_eq (store16 m a (load16 m a)) m.
Proof.
  intros Hm x. unfold store16, store8, load16. pose proof (Hm a). pose proof (Hm (a + 1)).
  case_cmp; subst; zlia.
Qed.

Lemma store32_cong m1 m2 a v1 v2 :
  mem_eq m1 m2 -> v1 mod 4294967296 = v2 mod 4294967296 -> mem_eq (store32 m1 a v1) (store32 m2 a v2).
Proof. intros Hm Hv. unfold store32. apply store16_cong; [apply store16_cong; [exact Hm|]|]; zlia. Qed.

Lemma store32_load32 m a : mem_ok m -> mem_eq (store32 m a (load32 m a)) m.
Proof.
  intros Hm. unfold store32, load32. pose proof (load16_range m Hm a). pose proof (load16_range m Hm (a + 2)).
  transitivity (store16 m (a + 2) (load16 m (a + 2))); [|now apply store16_load16].
  apply store16_cong; [|zlia]. transitivity (store16 m a (load16 m a)); [|now apply store16_load16].
  apply store16_cong; [reflexivity|zlia].
Qed.

Lemma store64_load64 m a : mem_ok m -> mem_eq (store64 m a (load64 m a)) m.
Proof.
  intros Hm. unfold store64, load64. pose proof (load32_range m Hm a). pose proof (load32_range m Hm (a + 4)).
  transitivity (store32 m (a + 4) (load32 m (a + 4))); [|now apply store32_load32].
  apply store32_cong; [|zlia]. transitivity (store32 m a (load32 m a)); [|now apply store32_load32].
  apply store32_cong; [reflexivity|zlia].
Qed.

Lemma store64_cong m1 m2 a v : mem_eq m1 m2 -> mem_eq (store64 m1 a v) (store64 m2 a v).
Proof. intros Hm. unfold store64. apply store32_cong; [apply store32_cong; [exact Hm|]|]; reflexivity. Qed.

#[export] Hint Resolve store8_ok store16_ok store32_ok store64_ok memmove_ok memset_ok
  store_bytes_ok load16_range load32_range load64_range : ese.

(** ** Lists of bytes *)

Definition bytes_ok (l : list Z) : Prop := Forall (fun b => 0 <= b < 256) l.

Lemma load_store_bytes m m' a l : mem_eq m' (store_bytes m a l) -> bytes_ok l -> load_bytes m' a (Z.of_nat (length l)) = l.
Proof.
  intros V Hl. apply nth_ext with (d := 0) (d' := 0).
  - rewrite length_load_bytes. lia.
  - intros i Hi. rewrite length_load_bytes in Hi. rewrite nth_load_bytes, V, store_bytes_in by lia.
    replace (Z.to_nat (a + Z.of_nat i - a)) with i by lia. apply Z.mod_small.
    unfold bytes_ok in Hl. rewrite Forall_forall in Hl. apply Hl, nth_In. lia.
Qed.
