(* ===== verification/Checksum.v ===== *)
(** * Block checksums

    The model of src/dev/ese/src/checksum: the "old format" XOR checksum
    (checksum.cxx, checksum_amd64.cxx), the "new format" XOR + ECC checksum in
    all of its processor-specific variants (checksum_amd64.cxx,
    avx/checksum_avx.cxx, avx/checksum_neon.cxx), the run-time selection of a
    variant, and the decoding of a checksum difference into a correctable bit.

    A block is the memory at [pb]; [pdw[i]] is the 32-bit little-endian word at
    [pb + 4 * i].  Prefetch instructions have no effect on the result and are
    not represented.  A loop of the source is a [Fixpoint] on a fuel argument
    whose exit test is the source's; ChecksumEcc.v proves the loops' closed
    forms, hence that the fuel given here is enough. *)

From Stdlib Require Import ZArith List Lia Bool.
From S2P Require Import Prelude Bits Mem.
Import ListNotations.

Notation "a ^^ b" := (Z.lxor a b) (at level 50, left associativity) : Z_scope.
Notation "a .& b" := (Z.land a b) (at level 47, left associativity) : Z_scope.
Notation "a .| b" := (Z.lor a b) (at level 51, left associativity) : Z_scope.

(** ** Words, vectors and tables *)

(** [((ULONG * )pb)[i]] and [((unsigned __int64 * )pb)[i]]. *)
Definition rgdw (m : mem) (pb i : Z) : Z := load32 m (pb + 4 * i).
Definition rgqw (m : mem) (pb i : Z) : Z := load64 m (pb + 8 * i).

(** [__m128i], [uint8x16_t]: four 32-bit lanes, lane 0 lowest. *)
Record m128i := M128 { lane0 : Z; lane1 : Z; lane2 : Z; lane3 : Z }.

Definition mm_setzero_si128 : m128i := M128 0 0 0 0.

Definition mm_xor_si128 (a b : m128i) : m128i :=
  M128 (lane0 a ^^ lane0 b) (lane1 a ^^ lane1 b) (lane2 a ^^ lane2 b) (lane3 a ^^ lane3 b).

(** [((__m128i * )pb)[i]]. *)
Definition rgdq (m : mem) (pb i : Z) : m128i :=
  M128 (rgdw m pb (4 * i)) (rgdw m pb (4 * i + 1)) (rgdw m pb (4 * i + 2)) (rgdw m pb (4 * i + 3)).

Definition mm_lane (a : m128i) (i : Z) : Z :=
  if i =? 0 then lane0 a else if i =? 1 then lane1 a else if i =? 2 then lane2 a else lane3 a.

(** [_mm_shuffle_epi32]: result lane [i] is source lane [(imm >> 2i) & 3]. *)
Definition mm_shuffle_epi32 (a : m128i) (imm : Z) : m128i :=
  M128 (mm_lane a (imm .& 3)) (mm_lane a (Z.shiftr imm 2 .& 3))
       (mm_lane a (Z.shiftr imm 4 .& 3)) (mm_lane a (Z.shiftr imm 6 .& 3)).

(** [_mm_unpackhi_epi64 a b]: the high quadwords of [a] and of [b]. *)
Definition mm_unpackhi_epi64 (a b : m128i) : m128i :=
  M128 (lane2 a) (lane3 a) (lane2 b) (lane3 b).

(** [__m256i] / the NEON port's [V256]: two 128-bit halves. *)
Record m256i := M256 { lo128 : m128i; hi128 : m128i }.

Definition mm256_setzero_si256 : m256i := M256 mm_setzero_si128 mm_setzero_si128.

Definition mm256_xor (a b : m256i) : m256i :=
  M256 (mm_xor_si128 (lo128 a) (lo128 b)) (mm_xor_si128 (hi128 a) (hi128 b)).

Definition rgqq (m : mem) (pb i : Z) : m256i :=
  M256 (rgdq m pb (2 * i)) (rgdq m pb (2 * i + 1)).

(** The eight dwords of a 256-bit value, as they are stored in memory. *)
Definition dwords256 (a : m256i) : list Z :=
  [lane0 (lo128 a); lane1 (lo128 a); lane2 (lo128 a); lane3 (lo128 a);
   lane0 (hi128 a); lane1 (hi128 a); lane2 (hi128 a); lane3 (hi128 a)].

Definition dwords128 (a : m128i) : list Z := [lane0 a; lane1 a; lane2 a; lane3 a].

(** The POPCNT instruction on an [n]-bit operand. *)
Fixpoint popcnt (n : nat) (x : Z) : Z :=
  match n with
  | O => 0
  | S n' => popcnt n' x + Z.b2z (Z.testbit x (Z.of_nat n'))
  end.

(** [_mm_popcnt_u64] of the low quadword of a vector. *)
Definition popcnt_u64 (a : m128i) : Z := popcnt 32 (lane0 a) + popcnt 32 (lane1 a).

Definition g_bParityLookupTable : list Z :=
  [0; -1; -1; 0; -1; 0; 0; -1; -1; 0; 0; -1; 0; -1; -1; 0;
   -1; 0; 0; -1; 0; -1; -1; 0; 0; -1; -1; 0; -1; 0; 0; -1;
   -1; 0; 0; -1; 0; -1; -1; 0; 0; -1; -1; 0; -1; 0; 0; -1;
   0; -1; -1; 0; -1; 0; 0; -1; -1; 0; 0; -1; 0; -1; -1; 0;
   -1; 0; 0; -1; 0; -1; -1; 0; 0; -1; -1; 0; -1; 0; 0; -1;
   0; -1; -1; 0; -1; 0; 0; -1; -1; 0; 0; -1; 0; -1; -1; 0;
   0; -1; -1; 0; -1; 0; 0; -1; -1; 0; 0; -1; 0; -1; -1; 0;
   -1; 0; 0; -1; 0; -1; -1; 0; 0; -1; -1; 0; -1; 0; 0; -1;
   -1; 0; 0; -1; 0; -1; -1; 0; 0; -1; -1; 0; -1; 0; 0; -1;
   0; -1; -1; 0; -1; 0; 0; -1; -1; 0; 0; -1; 0; -1; -1; 0;
   0; -1; -1; 0; -1; 0; 0; -1; -1; 0; 0; -1; 0; -1; -1; 0;
   -1; 0; 0; -1; 0; -1; -1; 0; 0; -1; -1; 0; -1; 0; 0; -1;
   0; -1; -1; 0; -1; 0; 0; -1; -1; 0; 0; -1; 0; -1; -1; 0;
   -1; 0; 0; -1; 0; -1; -1; 0; 0; -1; -1; 0; -1; 0; 0; -1;
   -1; 0; 0; -1; 0; -1; -1; 0; 0; -1; -1; 0; -1; 0; 0; -1;
   0; -1; -1; 0; -1; 0; 0; -1; -1; 0; 0; -1; 0; -1; -1; 0].

Definition g_bECCLookupTable : list Z :=
  [0x00; 0x70; 0x61; 0x11; 0x52; 0x22; 0x33; 0x43; 0x43; 0x33; 0x22; 0x52; 0x11; 0x61; 0x70; 0x00;
   0x34; 0x44; 0x55; 0x25; 0x66; 0x16; 0x07; 0x77; 0x77; 0x07; 0x16; 0x66; 0x25; 0x55; 0x44; 0x34;
   0x25; 0x55; 0x44; 0x34; 0x77; 0x07; 0x16; 0x66; 0x66; 0x16; 0x07; 0x77; 0x34; 0x44; 0x55; 0x25;
   0x11; 0x61; 0x70; 0x00; 0x43; 0x33; 0x22; 0x52; 0x52; 0x22; 0x33; 0x43; 0x00; 0x70; 0x61; 0x11;
   0x16; 0x66; 0x77; 0x07; 0x44; 0x34; 0x25; 0x55; 0x55; 0x25; 0x34; 0x44; 0x07; 0x77; 0x66; 0x16;
   0x22; 0x52; 0x43; 0x33; 0x70; 0x00; 0x11; 0x61; 0x61; 0x11; 0x00; 0x70; 0x33; 0x43; 0x52; 0x22;
   0x33; 0x43; 0x52; 0x22; 0x61; 0x11; 0x00; 0x70; 0x70; 0x00; 0x11; 0x61; 0x22; 0x52; 0x43; 0x33;
   0x07; 0x77; 0x66; 0x16; 0x55; 0x25; 0x34; 0x44; 0x44; 0x34; 0x25; 0x55; 0x16; 0x66; 0x77; 0x07;
   0x07; 0x77; 0x66; 0x16; 0x55; 0x25; 0x34; 0x44; 0x44; 0x34; 0x25; 0x55; 0x16; 0x66; 0x77; 0x07;
   0x33; 0x43; 0x52; 0x22; 0x61; 0x11; 0x00; 0x70; 0x70; 0x00; 0x11; 0x61; 0x22; 0x52; 0x43; 0x33;
   0x22; 0x52; 0x43; 0x33; 0x70; 0x00; 0x11; 0x61; 0x61; 0x11; 0x00; 0x70; 0x33; 0x43; 0x52; 0x22;
   0x16; 0x66; 0x77; 0x07; 0x44; 0x34; 0x25; 0x55; 0x55; 0x25; 0x34; 0x44; 0x07; 0x77; 0x66; 0x16;
   0x11; 0x61; 0x70; 0x00; 0x43; 0x33; 0x22; 0x52; 0x52; 0x22; 0x33; 0x43; 0x00; 0x70; 0x61; 0x11;
   0x25; 0x55; 0x44; 0x34; 0x77; 0x07; 0x16; 0x66; 0x66; 0x16; 0x07; 0x77; 0x34; 0x44; 0x55; 0x25;
   0x34; 0x44; 0x55; 0x25; 0x66; 0x16; 0x07; 0x77; 0x77; 0x07; 0x16; 0x66; 0x25; 0x55; 0x44; 0x34;
   0x00; 0x70; 0x61; 0x11; 0x52; 0x22; 0x33; 0x43; 0x43; 0x33; 0x22; 0x52; 0x11; 0x61; 0x70; 0x00].

(** ** Parity masks: 0 or -1 *)

Definition lParityMask (dw : Z) : Z :=
  let dw1 := Z.shiftr dw 16 in
  let dw2 := dw ^^ dw1 in
  let dw3 := Z.shiftr dw2 8 in
  let dw4 := dw2 ^^ dw3 in
  nth (Z.to_nat (dw4 .& 0xff)) g_bParityLookupTable 0.

Definition lParityMask_m128i (dq : m128i) : Z :=
  let dq1 := mm_shuffle_epi32 dq 0x4e in
  let dq2 := mm_xor_si128 dq dq1 in
  let dq3 := mm_shuffle_epi32 dq2 0x1b in
  let dq4 := mm_xor_si128 dq2 dq3 in
  lParityMask (lane0 dq4).

Definition lParityMaskPopcnt_m128i (dq : m128i) : Z :=
  let dq1 := mm_shuffle_epi32 dq 0x4e in
  let dq2 := mm_xor_si128 dq dq1 in
  - (popcnt_u64 dq2 .& 1).

Definition lParityMaskPopcnt (dw : Z) : Z := - (popcnt 32 dw .& 1).

Definition lParityMaskAVX (qq : m256i) : Z :=
  let qq1 := M256 (hi128 qq) (lo128 qq) in
  let dq2 := lo128 (mm256_xor qq1 qq) in
  let dq3 := mm_shuffle_epi32 dq2 0x4e in
  let dq4 := mm_xor_si128 dq3 dq2 in
  - (popcnt_u64 dq4 .& 1).

Definition lParityMaskNeon256 (qq : m256i) : Z :=
  let combined := mm_xor_si128 (lo128 qq) (hi128 qq) in
  let r0 := lane0 combined ^^ lane2 combined in
  let r1 := lane1 combined ^^ lane3 combined in
  - ((popcnt 32 r0 + popcnt 32 r1) .& 1).

Definition lECCLookup8bit (byte : Z) : Z := nth (Z.to_nat (byte .& 0xff)) g_bECCLookupTable 0.

Definition MakeChecksumFromECCXORAndPgno (eccChecksum xorChecksum pgno : Z) : Z :=
  let low := xorChecksum ^^ pgno in
  let high := u64 (Z.shiftl eccChecksum 32) in
  high .| low.

(** ** Old format: XOR of all dwords but the first *)

(** The exclusive or of the eight dwords at byte address [pdw]. *)
Definition xor8 (m : mem) (pdw : Z) : Z :=
  rgdw m pdw 0 ^^ rgdw m pdw 1 ^^ rgdw m pdw 2 ^^ rgdw m pdw 3
  ^^ rgdw m pdw 4 ^^ rgdw m pdw 5 ^^ rgdw m pdw 6 ^^ rgdw m pdw 7.

(** [while ( ( cbT -= cbStep ) >= 0 ) { dwChecksum ^= pdw[0] ^ ... ^ pdw[7]; pdw += 8; }] *)
Fixpoint xor_dword_loop (fuel : nat) (m : mem) (pdw cbT dwChecksum : Z) : Z :=
  match fuel with
  | O => dwChecksum
  | S fuel' =>
      let cbT := cbT - 32 in
      if 0 <=? cbT then xor_dword_loop fuel' m (pdw + 32) cbT (dwChecksum ^^ xor8 m pdw)
      else dwChecksum
  end.

Definition ChecksumOldFormatSlowly (m : mem) (pb cb : Z) : Z :=
  xor_dword_loop (S (Z.to_nat cb)) m pb cb (0x89abcdef ^^ rgdw m pb 0).

Fixpoint xor_qword_loop (fuel : nat) (m : mem) (pqw cbT qwChecksum : Z) : Z :=
  match fuel with
  | O => qwChecksum
  | S fuel' =>
      let cbT := cbT - 32 in
      if 0 <=? cbT then
        xor_qword_loop fuel' m (pqw + 32) cbT
          (qwChecksum ^^ rgqw m pqw 0 ^^ rgqw m pqw 1 ^^ rgqw m pqw 2 ^^ rgqw m pqw 3)
      else qwChecksum
  end.

Definition ChecksumOldFormat64Bit (m : mem) (pb cb : Z) : Z :=
  let qwChecksum := 0 ^^ (rgqw m pb 0 .& 0x00000000FFFFFFFF) in
  let qwChecksum := xor_qword_loop (S (Z.to_nat cb)) m pb cb qwChecksum in
  let qwUpper := Z.shiftr qwChecksum 32 in
  let qwLower := qwChecksum .& 0x00000000FFFFFFFF in
  let qwChecksum := qwUpper ^^ qwLower in
  u32 qwChecksum ^^ 0x89abcdef.

(** The SSE variant is the dword loop with a prefetch. *)
Definition ChecksumOldFormatSSE (m : mem) (pb cb : Z) : Z :=
  xor_dword_loop (S (Z.to_nat cb)) m pb cb (0x89abcdef ^^ rgdw m pb 0).

Fixpoint xor_m128i_loop (fuel : nat) (m : mem) (pow cbT : Z) (owChecksum : m128i) : m128i :=
  match fuel with
  | O => owChecksum
  | S fuel' =>
      let cbT := cbT - 128 in
      if 0 <=? cbT then
        let owChecksumT1 := mm_xor_si128 (rgdq m pow 0) (rgdq m pow 1) in
        let owChecksumT2 := mm_xor_si128 (rgdq m pow 2) (rgdq m pow 3) in
        let owChecksumT3 := mm_xor_si128 (rgdq m pow 4) (rgdq m pow 5) in
        let owChecksumT4 := mm_xor_si128 (rgdq m pow 6) (rgdq m pow 7) in
        let owChecksumT1 := mm_xor_si128 owChecksumT1 owChecksumT2 in
        let owChecksumT3 := mm_xor_si128 owChecksumT3 owChecksumT4 in
        let owChecksum := mm_xor_si128 owChecksum owChecksumT1 in
        let owChecksum := mm_xor_si128 owChecksum owChecksumT3 in
        xor_m128i_loop fuel' m (pow + 128) cbT owChecksum
      else owChecksum
  end.

Definition ChecksumOldFormatSSE2 (m : mem) (pb cb : Z) : Z :=
  let ulChecksum := 0x89abcdef ^^ rgdw m pb 0 in
  let owChecksum := xor_m128i_loop (S (Z.to_nat cb)) m pb cb mm_setzero_si128 in
  ulChecksum ^^ (lane0 owChecksum ^^ lane1 owChecksum ^^ lane2 owChecksum ^^ lane3 owChecksum).

(** ** New format on 32-bit words (Basic, Slowly, SSE) *)

Definition DwXORChecksumBasic (m : mem) (pb cb : Z) : Z :=
  xor_dword_loop (S (Z.to_nat cb)) m pb cb (rgdw m pb 0 ^^ rgdw m pb 1).

(** The loop's variables: the row part [p] of the ECC, the double index
    [idxp], and the four column accumulators. *)
Record ecc32_state := Ecc32 { e_p : Z; e_idxp : Z; e_p0 : Z; e_p1 : Z; e_p2 : Z; e_p3 : Z }.

(** One pass through the loop body from [Start:] on; [pT0], [pT1] are the
    first two dwords of the row (zero for the checksum field itself). *)
Definition ecc32_body (m : mem) (pb i pT0 pT1 : Z) (st : ecc32_state) : ecc32_state :=
  let pT2 := rgdw m pb (i + 2) in
  let pT3 := rgdw m pb (i + 3) in
  let p0 := e_p0 st ^^ pT0 in
  let p1 := e_p1 st ^^ pT1 in
  let p2 := e_p2 st ^^ pT2 in
  let p3 := e_p3 st ^^ pT3 in
  let p := e_p st ^^ (e_idxp st .& lParityMask (pT0 ^^ pT1 ^^ pT2 ^^ pT3)) in
  let idxp := u32 (e_idxp st + 0xff800080) in
  let pT4 := rgdw m pb (i + 4) in
  let pT5 := rgdw m pb (i + 5) in
  let pT6 := rgdw m pb (i + 6) in
  let pT7 := rgdw m pb (i + 7) in
  let p0 := p0 ^^ pT4 in
  let p1 := p1 ^^ pT5 in
  let p2 := p2 ^^ pT6 in
  let p3 := p3 ^^ pT7 in
  let p := p ^^ (idxp .& lParityMask (pT4 ^^ pT5 ^^ pT6 ^^ pT7)) in
  let idxp := u32 (idxp + 0xff800080) in
  Ecc32 p idxp p0 p1 p2 p3.

(** [do { ... i += 8; } while ( i < cdw );] *)
Fixpoint ecc32_loop (fuel : nat) (m : mem) (pb cdw i : Z) (st : ecc32_state) : ecc32_state :=
  match fuel with
  | O => st
  | S fuel' =>
      let st := ecc32_body m pb i (rgdw m pb (i + 0)) (rgdw m pb (i + 1)) st in
      let i := i + 8 in
      if i <? cdw then ecc32_loop fuel' m pb cdw i st else st
  end.

(** The whole row phase: with [fHeaderBlock] the first pass enters at
    [Start:] with [pT0 = pT1 = 0]. *)
Definition ecc32_rows (m : mem) (pb cb : Z) (fHeaderBlock : bool) : ecc32_state :=
  let cdw := cb / 4 in
  let st := Ecc32 0 0xff800000 0 0 0 0 in
  if fHeaderBlock then
    let st := ecc32_body m pb 0 0 0 st in
    if 8 <? cdw then ecc32_loop (Z.to_nat cdw) m pb cdw 8 st else st
  else ecc32_loop (Z.to_nat cdw) m pb cdw 0 st.

(** [for ( ULONG i = 1; i; i += i ) { mask = -!!( r2 & i ); r ^= mask & idxr; idxr += 0xffff0001; }] *)
Fixpoint ecc32_columns (fuel : nat) (r2 i r idxr : Z) : Z :=
  match fuel with
  | O => r
  | S fuel' =>
      if i =? 0 then r
      else
        let mask := if (r2 .& i) =? 0 then 0 else -1 in
        ecc32_columns fuel' r2 (u32 (i + i)) (r ^^ (mask .& idxr)) (u32 (idxr + 0xffff0001))
  end.

(** The reduction of the column accumulators and the assembly of the ECC;
    also returns the reduced column parity [r2]. *)
Definition ecc32_finish (cb : Z) (st : ecc32_state) : Z * Z :=
  let p0 := e_p0 st in let p1 := e_p1 st in let p2 := e_p2 st in let p3 := e_p3 st in
  let p := e_p st in
  let p := p .| (0x00400000 .& lParityMask (p0 ^^ p1)) in
  let p := p .| (0x00000040 .& lParityMask (p2 ^^ p3)) in
  let r0 := p0 ^^ p2 in
  let r1 := p1 ^^ p3 in
  let p := p .| (0x00200000 .& lParityMask r0) in
  let p := p .| (0x00000020 .& lParityMask r1) in
  let r2 := r0 ^^ r1 in
  let r := ecc32_columns 33 r2 1 0 0xffff0000 in
  let mask := u32 (u32 (Z.shiftl cb 19) - 1) in
  ((p .& 0xffe0ffe0 .& mask) .| (r .& 0x001f001f), r2).

Definition ChecksumNewFormatBasic (m : mem) (pb cb pgno : Z) (fHeaderBlock : bool) : Z :=
  let '(eccChecksum, _) := ecc32_finish cb (ecc32_rows m pb cb fHeaderBlock) in
  let xorChecksum := DwXORChecksumBasic m pb cb in
  MakeChecksumFromECCXORAndPgno eccChecksum xorChecksum pgno.

Definition ChecksumNewFormatSlowly (m : mem) (pb cb pgno : Z) (fHeaderBlock : bool) : Z :=
  let '(ecc, r2) := ecc32_finish cb (ecc32_rows m pb cb fHeaderBlock) in
  MakeChecksumFromECCXORAndPgno ecc r2 pgno.

(** The SSE variant is the Slowly variant with a prefetch. *)
Definition ChecksumNewFormatSSE (m : mem) (pb cb pgno : Z) (fHeaderBlock : bool) : Z :=
  let '(ecc, r2) := ecc32_finish cb (ecc32_rows m pb cb fHeaderBlock) in
  MakeChecksumFromECCXORAndPgno ecc r2 pgno.

(** ** New format, one dword per row (64Bit) *)

Record ecc64_state := Ecc64 { f_col : Z; f_p : Z; f_q : Z }.

Fixpoint ecc64_rows (fuel : nat) (m : mem) (pb cRow iRow : Z) (st : ecc64_state) : ecc64_state :=
  match fuel with
  | O => st
  | S fuel' =>
      if iRow <? cRow then
        let dwRow := rgdw m pb iRow in
        let maskRow := lParityMask dwRow in
        ecc64_rows fuel' m pb cRow (iRow + 1)
          (Ecc64 (f_col st ^^ dwRow) (f_p st ^^ (maskRow .& iRow))
                 (f_q st ^^ (maskRow .& u32 (Z.lnot iRow))))
      else st
  end.

Fixpoint ecc64_columns (fuel : nat) (dwColumnParity iColumn r s : Z) : Z * Z :=
  match fuel with
  | O => (r, s)
  | S fuel' =>
      if iColumn <? 32 then
        let maskColumn :=
          if (dwColumnParity .& u32 (Z.shiftl 1 iColumn)) =? 0 then 0 else -1 in
        ecc64_columns fuel' dwColumnParity (iColumn + 1)
          (r ^^ (maskColumn .& iColumn)) (s ^^ (maskColumn .& u32 (Z.lnot iColumn)))
      else (r, s)
  end.

Definition ChecksumNewFormat64Bit (m : mem) (pb cb pgno : Z) (fHeaderBlock : bool) : Z :=
  let cColumn := 32 in
  let cRow := cb / (cColumn / 8) in
  let iRow0 := if fHeaderBlock then 2 else 0 in
  let st := ecc64_rows (Z.to_nat cRow) m pb cRow iRow0 (Ecc64 0 0 0) in
  let '(r, s) := ecc64_columns 32 (f_col st) 0 0 0 in
  let ulEcc := u32 (Z.shiftl (f_q st .& (cRow - 1)) 21)
               .| u32 (Z.shiftl (s .& (cColumn - 1)) 16)
               .| u32 (Z.shiftl (f_p st .& (cRow - 1)) 5)
               .| u32 (Z.shiftl (r .& (cColumn - 1)) 0)
               .| 0 in
  MakeChecksumFromECCXORAndPgno ulEcc (f_col st) pgno.

(** ** New format with SSE2 vectors *)

Inductive ChecksumParityMaskFunc := ParityMaskFuncDefault | ParityMaskFuncPopcnt.

Record sse2_state := Sse2 { s_p : Z; s_idxp : Z; s_dq0 : m128i; s_dq1 : m128i; s_dq2 : m128i; s_dq3 : m128i }.

(** [if ( TParityMaskFunc == ParityMaskFuncPopcnt ) ... else ...] on a row. *)
Definition sse2_row_parity (T : ChecksumParityMaskFunc) (dq : m128i) : Z :=
  match T with
  | ParityMaskFuncPopcnt => lParityMaskPopcnt_m128i dq
  | ParityMaskFuncDefault => lParityMask_m128i dq
  end.

Definition sse2_dword_parity (T : ChecksumParityMaskFunc) (dw : Z) : Z :=
  match T with
  | ParityMaskFuncPopcnt => lParityMaskPopcnt dw
  | ParityMaskFuncDefault => lParityMask dw
  end.

Definition sse2_byte_parity (T : ChecksumParityMaskFunc) (byteT : Z) : Z :=
  match T with
  | ParityMaskFuncPopcnt => lParityMaskPopcnt (byteT .& 0xff)
  | ParityMaskFuncDefault => nth (Z.to_nat (byteT .& 0xff)) g_bParityLookupTable 0
  end.

Definition mm_xor4 (a b c d : m128i) : m128i :=
  mm_xor_si128 (mm_xor_si128 (mm_xor_si128 a b) c) d.

Definition sse2_body (T : ChecksumParityMaskFunc) (m : mem) (pb i : Z) (dqL0 : m128i) (st : sse2_state)
  : sse2_state :=
  let dqL1 := rgdq m pb (i + 1) in
  let dqL2 := rgdq m pb (i + 2) in
  let dqL3 := rgdq m pb (i + 3) in
  let dq0 := mm_xor_si128 (s_dq0 st) dqL0 in
  let dq1 := mm_xor_si128 (s_dq1 st) dqL1 in
  let dq2 := mm_xor_si128 (s_dq2 st) dqL2 in
  let dq3 := mm_xor_si128 (s_dq3 st) dqL3 in
  let dqLAcc := mm_xor4 dqL0 dqL1 dqL2 dqL3 in
  let p := s_p st ^^ (s_idxp st .& sse2_row_parity T dqLAcc) in
  let idxp := u32 (s_idxp st + 0xfe000200) in
  let dqH0 := rgdq m pb (i + 4) in
  let dqH1 := rgdq m pb (i + 5) in
  let dqH2 := rgdq m pb (i + 6) in
  let dqH3 := rgdq m pb (i + 7) in
  let dq0 := mm_xor_si128 dq0 dqH0 in
  let dq1 := mm_xor_si128 dq1 dqH1 in
  let dq2 := mm_xor_si128 dq2 dqH2 in
  let dq3 := mm_xor_si128 dq3 dqH3 in
  let dqHAcc := mm_xor4 dqH0 dqH1 dqH2 dqH3 in
  let p := p ^^ (idxp .& sse2_row_parity T dqHAcc) in
  let idxp := u32 (idxp + 0xfe000200) in
  Sse2 p idxp dq0 dq1 dq2 dq3.

Fixpoint sse2_loop (fuel : nat) (T : ChecksumParityMaskFunc) (m : mem) (pb cdq i : Z) (st : sse2_state)
  : sse2_state :=
  match fuel with
  | O => st
  | S fuel' =>
      let st := sse2_body T m pb i (rgdq m pb (i + 0)) st in
      let i := i + 8 in
      if i <? cdq then sse2_loop fuel' T m pb cdq i st else st
  end.

Definition sse2_rows (T : ChecksumParityMaskFunc) (m : mem) (pb cb : Z) (fHeaderBlock : bool) : sse2_state :=
  let cdq := cb / 16 in
  let z := mm_setzero_si128 in
  let st := Sse2 0 0xfe000000 z z z z in
  if fHeaderBlock then
    let dqL0 := mm_unpackhi_epi64 mm_setzero_si128 (rgdq m pb 0) in
    let st := sse2_body T m pb 0 dqL0 st in
    if 8 <? cdq then sse2_loop (Z.to_nat cdq) T m pb cdq 8 st else st
  else sse2_loop (Z.to_nat cdq) T m pb cdq 0 st.

(** [for ( i = 0; i < n; ++i ) { dwT = pdw[ i ]; dw0 ^= dwT; q ^= idxq & parity( dwT ); idxq += 0xffe00020; }] *)
Fixpoint dword_phase (parity : Z -> Z) (pdw : list Z) (dw0 q idxq : Z) : Z * Z :=
  match pdw with
  | [] => (dw0, q)
  | dwT :: pdw' =>
      dword_phase parity pdw' (dw0 ^^ dwT) (q ^^ (idxq .& parity dwT)) (u32 (idxq + 0xffe00020))
  end.

(** [for ( i = 0; i < 4; i++ ) { r ^= idxr & parity( byteT & 0xff ); byte0 ^= byteT; byteT >>= 8; idxr += 0xfff80008; }] *)
Fixpoint byte_phase (n : nat) (parity : Z -> Z) (byteT byte0 r idxr : Z) : Z * Z :=
  match n with
  | O => (byte0, r)
  | S n' =>
      byte_phase n' parity (Z.shiftr byteT 8) (byte0 ^^ byteT) (r ^^ (idxr .& parity byteT))
        (u32 (idxr + 0xfff80008))
  end.

(** The column part of the SSE2, AVX and NEON variants: byte parities, then the
    3-bit table lookup on the reduced byte. *)
Definition column_phase (parity : Z -> Z) (dw0 : Z) : Z :=
  let '(byte0, r) := byte_phase 4 parity dw0 0 0 0xfff80000 in
  let bits := lECCLookup8bit byte0 in
  let r := r .| (bits .& 0x07) in
  r .| (Z.shiftl bits 12 .& 0x00070000).

Definition ChecksumNewFormatSSE2 (T : ChecksumParityMaskFunc) (m : mem) (pb cb pgno : Z) (fHeaderBlock : bool) : Z :=
  let st := sse2_rows T m pb cb fHeaderBlock in
  let pdw := dwords128 (s_dq0 st) ++ dwords128 (s_dq1 st)
             ++ dwords128 (s_dq2 st) ++ dwords128 (s_dq3 st) in
  let '(dw0, q) := dword_phase (sse2_dword_parity T) pdw 0 0 0xffe00000 in
  let r := column_phase (sse2_byte_parity T) dw0 in
  let mask := u32 (u32 (Z.shiftl cb 19) - 1) in
  let ecc := (s_p st .& 0xfe00fe00 .& mask) .| (q .& 0x01e001e0) .| (r .& 0x001f001f) in
  MakeChecksumFromECCXORAndPgno ecc dw0 pgno.

(** ** New format with AVX vectors, and its NEON port *)

Record avx_state := Avx { a_p : Z; a_idxp : Z; a_qq0 : m256i; a_qq1 : m256i; a_qq2 : m256i; a_qq3 : m256i }.

Section Avx.
(** The parity mask of a 256-bit value: [lParityMaskAVX] or [lParityMaskNeon256]. *)
Variable parity256 : m256i -> Z.
(** The association of the four-way XORs, which the port changed. *)
Variable xor4 : m256i -> m256i -> m256i -> m256i -> m256i.

Definition avx_body (m : mem) (pb i : Z) (qqL0 : m256i) (st : avx_state) : avx_state :=
  let qqL1 := rgqq m pb (i + 1) in
  let qqL2 := rgqq m pb (i + 2) in
  let qqL3 := rgqq m pb (i + 3) in
  let qq0 := mm256_xor (a_qq0 st) qqL0 in
  let qq1 := mm256_xor (a_qq1 st) qqL1 in
  let qq2 := mm256_xor (a_qq2 st) qqL2 in
  let qq3 := mm256_xor (a_qq3 st) qqL3 in
  let qqLAcc := xor4 qqL0 qqL1 qqL2 qqL3 in
  let p := a_p st ^^ (a_idxp st .& parity256 qqLAcc) in
  let idxp := u32 (a_idxp st + 0xfc000400) in
  Avx p idxp qq0 qq1 qq2 qq3.

Fixpoint avx_loop (fuel : nat) (m : mem) (pb cqq i : Z) (st : avx_state) : avx_state :=
  match fuel with
  | O => st
  | S fuel' =>
      let st := avx_body m pb i (rgqq m pb (i + 0)) st in
      let i := i + 4 in
      if i <? cqq then avx_loop fuel' m pb cqq i st else st
  end.

(** [qqL0] of the first row of a header block: the low quadword is zeroed. *)
Definition avx_rows (qqHdr : m256i) (m : mem) (pb cb : Z) (fHeaderBlock : bool) : avx_state :=
  let cqq := cb / 32 in
  let z := mm256_setzero_si256 in
  let st := Avx 0 0xfc000000 z z z z in
  if fHeaderBlock then
    let st := avx_body m pb 0 qqHdr st in
    if 4 <? cqq then avx_loop (Z.to_nat cqq) m pb cqq 4 st else st
  else avx_loop (Z.to_nat cqq) m pb cqq 0 st.

Definition avx_finish (cb pgno : Z) (st : avx_state) : Z :=
  let qqAcc := xor4 (a_qq0 st) (a_qq1 st) (a_qq2 st) (a_qq3 st) in
  let idxq := 0xff000000 in
  let q := 0 ^^ (idxq .& parity256 (a_qq0 st)) in
  let idxq := u32 (idxq + 0xff000100) in
  let q := q ^^ (idxq .& parity256 (a_qq1 st)) in
  let idxq := u32 (idxq + 0xff000100) in
  let q := q ^^ (idxq .& parity256 (a_qq2 st)) in
  let idxq := u32 (idxq + 0xff000100) in
  let q := q ^^ (idxq .& parity256 (a_qq3 st)) in
  let '(dwAcc, q_) := dword_phase lParityMaskPopcnt (dwords256 qqAcc) 0 0 0xffe00000 in
  let r := column_phase (sse2_byte_parity ParityMaskFuncPopcnt) dwAcc in
  let mask := u32 (u32 (Z.shiftl cb 19) - 1) in
  let ecc := (a_p st .& 0xfc00fc00 .& mask) .| (q .& 0x03000300) .| (q_ .& 0x00e000e0)
             .| (r .& 0x001f001f) in
  MakeChecksumFromECCXORAndPgno ecc dwAcc pgno.
End Avx.

Definition avx_xor4 (a b c d : m256i) : m256i := mm256_xor (mm256_xor (mm256_xor a b) c) d.
Definition neon_xor4 (a b c d : m256i) : m256i := mm256_xor (mm256_xor a b) (mm256_xor c d).

Definition ChecksumNewFormatAVX (m : mem) (pb cb pgno : Z) (fHeaderBlock : bool) : Z :=
  let qqHdr := M256 (mm_unpackhi_epi64 mm_setzero_si128 (rgdq m pb 0)) (rgdq m pb 1) in
  avx_finish lParityMaskAVX avx_xor4 cb pgno
    (avx_rows lParityMaskAVX avx_xor4 qqHdr m pb cb fHeaderBlock).

(** The symbol of the same name that checksum_neon.cxx exports on ARM64. *)
Definition ChecksumNewFormatNEON (m : mem) (pb cb pgno : Z) (fHeaderBlock : bool) : Z :=
  let lo := rgdq m pb 0 in
  let qqHdr := M256 (M128 0 0 (lane2 lo) (lane3 lo)) (rgdq m pb 1) in
  avx_finish lParityMaskNeon256 neon_xor4 cb pgno
    (avx_rows lParityMaskNeon256 neon_xor4 qqHdr m pb cb fHeaderBlock).

(** ** Selecting a variant *)

Inductive ESE_ARCH := ArchX86 | ArchARM64 | ArchOther.

(** The processor features sysinfo reports, the compiled-for architecture and
    [sizeof( void * ) == 8]. *)
Record processor := Processor {
  arch : ESE_ARCH;
  FSSEInstructionsAvailable : bool;
  FSSE2InstructionsAvailable : bool;
  FPopcntAvailable : bool;
  FAVXEnabled : bool;
  f64BitPointers : bool
}.

Definition ChecksumSelectOldFormat (cpu : processor) : mem -> Z -> Z -> Z :=
  if FSSEInstructionsAvailable cpu then
    if FSSE2InstructionsAvailable cpu then ChecksumOldFormatSSE2 else ChecksumOldFormatSSE
  else if f64BitPointers cpu then ChecksumOldFormat64Bit
  else ChecksumOldFormatSlowly.

Definition ChecksumSelectNewFormat (cpu : processor) : mem -> Z -> Z -> Z -> bool -> Z :=
  let fallback := if f64BitPointers cpu then ChecksumNewFormat64Bit else ChecksumNewFormatSlowly in
  match arch cpu with
  | ArchX86 =>
      if FAVXEnabled cpu && FPopcntAvailable cpu then ChecksumNewFormatAVX
      else if FSSEInstructionsAvailable cpu then
        if FSSE2InstructionsAvailable cpu then
          if FPopcntAvailable cpu then ChecksumNewFormatSSE2 ParityMaskFuncPopcnt
          else ChecksumNewFormatSSE2 ParityMaskFuncDefault
        else ChecksumNewFormatSSE
      else fallback
  | ArchARM64 => ChecksumNewFormatNEON
  | ArchOther => fallback
  end.

(** ** Decoding a checksum difference *)

Definition DwECCChecksumFromXEChecksum (checksum : Z) : Z := u32 (Z.shiftr checksum 32).
Definition DwXORChecksumFromXEChecksum (checksum : Z) : Z := u32 (checksum .& 0xffffffff).

Fixpoint CbitSet_loop (fuel : nat) (dw ibit cbit : Z) : Z :=
  match fuel with
  | O => cbit
  | S fuel' =>
      if ibit <? 32 then
        CbitSet_loop fuel' dw (ibit + 1)
          (if (dw .& u32 (Z.shiftl 1 ibit)) =? 0 then cbit else cbit + 1)
      else cbit
  end.

Definition CbitSet (dw : Z) : Z := CbitSet_loop 33 dw 0 0.

Definition FECCErrorIsCorrectable_dw (cb dwECCChecksumExpected dwECCChecksumActual : Z) : bool :=
  let dwEcc := dwECCChecksumActual ^^ dwECCChecksumExpected in
  let ulMask := u32 (u32 (Z.shiftl cb 3) - 1) in
  let ulX := (Z.shiftr dwEcc 16 ^^ dwEcc) .& ulMask in
  ulMask =? ulX.

Definition FECCErrorIsCorrectable (cb xeChecksumExpected xeChecksumActual : Z) : bool :=
  let dwECCChecksumExpected := DwECCChecksumFromXEChecksum xeChecksumExpected in
  let dwECCChecksumActual := DwECCChecksumFromXEChecksum xeChecksumActual in
  if FECCErrorIsCorrectable_dw cb dwECCChecksumExpected dwECCChecksumActual then
    let dwXor := DwXORChecksumFromXEChecksum xeChecksumActual
                 ^^ DwXORChecksumFromXEChecksum xeChecksumExpected in
    1 =? CbitSet dwXor
  else false.

Definition IbitCorrupted_dw (cb dwECCChecksumExpected dwECCChecksumActual : Z) : Z :=
  let dwEcc := dwECCChecksumActual ^^ dwECCChecksumExpected in
  if dwEcc =? 0 then ulMax
  else
    let ibitCorrupted := dwEcc .& 0xffff in
    let ibCorrupted := ibitCorrupted / 8 in
    if cb <=? ibCorrupted then ulMax else ibitCorrupted.

Definition IbitCorrupted (cb xeChecksumExpected xeChecksumActual : Z) : Z :=
  IbitCorrupted_dw cb (DwECCChecksumFromXEChecksum xeChecksumExpected)
    (DwECCChecksumFromXEChecksum xeChecksumActual).
