(* ===== verification/ChecksumEcc.v ===== *)
(** * The ECC code

    [hsiao_ecc] is the code the comments of checksum_amd64.cxx describe: the
    exclusive or, over the set bits of the block, of the bit's index (low 16
    bits) and of its complement (high 16 bits).  This file characterises the
    code bit by bit, in the forms the loops of the variants accumulate it;
    ChecksumVariants.v shows that every variant computes it. *)

From Stdlib Require Import ZArith List Lia Bool.
From S2P Require Import Prelude Bits Mem Checksum.
Import ListNotations.

(** ** Specification *)

(** Bit [i] of the block at [pb]; in a header block the first 64 bits (the
    checksum itself) read as zero. *)
Definition data_bit (m : mem) (pb : Z) (fHeaderBlock : bool) (i : nat) : bool :=
  if fHeaderBlock && (i <? 64)%nat then false
  else Z.testbit (m (pb + Z.of_nat i / 8)) (Z.of_nat i mod 8).

(** The contribution of bit [i] of an [nbits]-bit block: [~i : i]. *)
Definition ecc_index (nbits i : Z) : Z := i + (nbits - 1 - i) * 65536.

Definition hsiao_ecc (nbits : nat) (bit : nat -> bool) : Z :=
  zxsum nbits (fun i => if bit i then ecc_index (Z.of_nat nbits) (Z.of_nat i) else 0).

(** Dword [j] of the block, with the checksum field zeroed in a header block. *)
Definition block_word (m : mem) (pb : Z) (fHeaderBlock : bool) (j : nat) : Z :=
  if fHeaderBlock && (j <? 2)%nat then 0 else rgdw m pb (Z.of_nat j).

Definition new_format_spec (m : mem) (pb cb pgno : Z) (fHeaderBlock : bool) : Z :=
  MakeChecksumFromECCXORAndPgno
    (hsiao_ecc (Z.to_nat (8 * cb)) (data_bit m pb fHeaderBlock))
    (zxsum (Z.to_nat (cb / 4)) (block_word m pb fHeaderBlock)) pgno.

(** The block sizes the ECC routines are asserted to work on: powers of two
    from 1k to 8k. *)
Definition block_size (cb : Z) : Prop := cb = 1024 \/ cb = 2048 \/ cb = 4096 \/ cb = 8192.

(** ** Parity masks *)

Lemma enum_lt (n : nat) (P : Z -> bool) :
  forallb P (map Z.of_nat (seq 0 n)) = true -> forall k, 0 <= k < Z.of_nat n -> P k = true.
Proof.
  intros H k Hk. rewrite forallb_forall in H. apply H.
  apply in_map_iff. exists (Z.to_nat k). rewrite in_seq. lia.
Qed.

(** The masks are 0 or all ones: [idx & mask] selects or drops [idx]. *)
Definition sel (b : bool) (x : Z) : Z := if b then x else 0.

Lemma testbit_sel b x k : Z.testbit (sel b x) k = b && Z.testbit x k.
Proof. destruct b; simpl; [reflexivity | apply Z.testbit_0_l]. Qed.

Lemma land_mask (b : bool) x : Z.land x (if b then -1 else 0) = sel b x.
Proof. destruct b; [apply Z.land_m1_r | apply Z.land_0_r]. Qed.

Lemma land_mask_l (b : bool) x : Z.land (if b then -1 else 0) x = sel b x.
Proof. rewrite Z.land_comm; apply land_mask. Qed.

Lemma g_bParityLookupTable_spec b :
  0 <= b < 256 ->
  nth (Z.to_nat b) g_bParityLookupTable 0
  = if xsum 8 (fun c => Z.testbit b (Z.of_nat c)) then -1 else 0.
Proof.
  intros Hb. apply Z.eqb_eq.
  apply (enum_lt 256 (fun b => nth (Z.to_nat b) g_bParityLookupTable 0
    =? (if xsum 8 (fun c => Z.testbit b (Z.of_nat c)) then -1 else 0))); [|exact Hb].
  vm_compute. reflexivity.
Qed.

Lemma land_0xff_range x : 0 <= x .& 0xff < 256.
Proof. change 255 with (Z.ones 8). rewrite Z.land_ones by lia. apply Z.mod_pos_bound; lia. Qed.

Lemma testbit_0xff x c : 0 <= c < 8 -> Z.testbit (x .& 0xff) c = Z.testbit x c.
Proof.
  intros Hc. change 255 with (Z.ones 8). rewrite Z.land_spec, Z.ones_spec_low by lia.
  apply andb_true_r.
Qed.

Lemma par_bytes dw :
  par dw = xsum 8 (fun c => xorb (xorb (Z.testbit dw (Z.of_nat c)) (Z.testbit dw (Z.of_nat c + 16)))
                                 (xorb (Z.testbit dw (Z.of_nat c + 8)) (Z.testbit dw (Z.of_nat c + 8 + 16)))).
Proof.
  rewrite !xsum_xorb. unfold par. change 32%nat with (8 + (8 + (8 + 8)))%nat.
  rewrite !xsum_add.
  rewrite (xsum_ext 8 (fun c => Z.testbit dw (Z.of_nat c + 16)) (fun i => Z.testbit dw (Z.of_nat (8 + (8 + i)))))
    by (intros; f_equal; lia).
  rewrite (xsum_ext 8 (fun c => Z.testbit dw (Z.of_nat c + 8)) (fun i => Z.testbit dw (Z.of_nat (8 + i))))
    by (intros; f_equal; lia).
  rewrite (xsum_ext 8 (fun c => Z.testbit dw (Z.of_nat c + 8 + 16)) (fun i => Z.testbit dw (Z.of_nat (8 + (8 + (8 + i))))))
    by (intros; f_equal; lia).
  repeat match goal with |- context [xsum 8 ?f] => generalize (xsum 8 f) end.
  intros [] [] [] []; reflexivity.
Qed.

Lemma lParityMask_spec dw : lParityMask dw = if par dw then -1 else 0.
Proof.
  unfold lParityMask. rewrite g_bParityLookupTable_spec by apply land_0xff_range.
  rewrite par_bytes.
  erewrite xsum_ext; [reflexivity|].
  intros c Hc. cbv beta.
  rewrite testbit_0xff, !Z.lxor_spec, !Z.shiftr_spec, Z.lxor_spec, Z.shiftr_spec by lia.
  reflexivity.
Qed.

Lemma popcnt_odd n x : Z.odd (popcnt n x) = xsum n (fun c => Z.testbit x (Z.of_nat c)).
Proof.
  induction n; [reflexivity|]. cbn [popcnt xsum].
  rewrite Z.odd_add, IHn. now destruct (Z.testbit x (Z.of_nat n)).
Qed.

Lemma opp_land_1 x : - (x .& 1) = if Z.odd x then -1 else 0.
Proof.
  change 1 with (Z.ones 1) at 1. rewrite Z.land_ones, Z.pow_1_r, Zmod_odd by lia.
  now destruct (Z.odd x).
Qed.

Lemma lParityMaskPopcnt_spec dw : lParityMaskPopcnt dw = if par dw then -1 else 0.
Proof. unfold lParityMaskPopcnt. now rewrite opp_land_1, popcnt_odd. Qed.

(** Parity of vectors: the parity of the XOR of their lanes. *)
Definition par128 (a : m128i) : bool := par (lane0 a ^^ lane1 a ^^ lane2 a ^^ lane3 a).
Definition par256 (a : m256i) : bool := xorb (par128 (lo128 a)) (par128 (hi128 a)).

(** Boolean identities over a few parities, by cases. *)
Ltac xorb_ring :=
  rewrite ?par_lxor;
  repeat match goal with |- context [par ?x] => generalize (par x); intros [] end;
  reflexivity.

Lemma lParityMask_m128i_spec a : lParityMask_m128i a = if par128 a then -1 else 0.
Proof.
  unfold lParityMask_m128i. rewrite lParityMask_spec.
  replace (par128 a) with (par (lane0 (mm_xor_si128 (mm_xor_si128 a (mm_shuffle_epi32 a 78))
    (mm_shuffle_epi32 (mm_xor_si128 a (mm_shuffle_epi32 a 78)) 27)))); [reflexivity|].
  cbn. unfold par128. xorb_ring.
Qed.

Lemma popcnt_u64_odd a : Z.odd (popcnt_u64 a) = xorb (par (lane0 a)) (par (lane1 a)).
Proof. unfold popcnt_u64. now rewrite Z.odd_add, !popcnt_odd. Qed.

Lemma lParityMaskPopcnt_m128i_spec a : lParityMaskPopcnt_m128i a = if par128 a then -1 else 0.
Proof.
  unfold lParityMaskPopcnt_m128i. rewrite opp_land_1, popcnt_u64_odd.
  cbn. unfold par128. xorb_ring.
Qed.

Lemma lParityMaskAVX_spec a : lParityMaskAVX a = if par256 a then -1 else 0.
Proof.
  unfold lParityMaskAVX. rewrite opp_land_1, popcnt_u64_odd.
  cbn. unfold par256, par128. xorb_ring.
Qed.

Lemma lParityMaskNeon256_spec a : lParityMaskNeon256 a = if par256 a then -1 else 0.
Proof.
  unfold lParityMaskNeon256. rewrite opp_land_1, Z.odd_add, !popcnt_odd.
  fold (par (lane0 (mm_xor_si128 (lo128 a) (hi128 a)) ^^ lane2 (mm_xor_si128 (lo128 a) (hi128 a)))).
  fold (par (lane1 (mm_xor_si128 (lo128 a) (hi128 a)) ^^ lane3 (mm_xor_si128 (lo128 a) (hi128 a)))).
  cbn [lane0 lane1 lane2 lane3 mm_xor_si128]. unfold par256, par128. xorb_ring.
Qed.

(** ** The bits of the code *)

(** Bit [k] of the index half ([c = false]) or of the complement half of a code. *)
Definition hpos (c : bool) (k : Z) : Z := if c then 16 + k else k.

Lemma bits_eq_halves a b :
  0 <= a < 2 ^ 32 -> 0 <= b < 2 ^ 32 ->
  (forall c k, 0 <= k < 16 -> Z.testbit a (hpos c k) = Z.testbit b (hpos c k)) -> a = b.
Proof.
  intros Ha Hb H. apply bits_eq32; auto. intros k Hk.
  destruct (Z.lt_ge_cases k 16); [apply (H false k); lia|].
  replace k with (hpos true (k - 16)) by (unfold hpos; lia). apply H; lia.
Qed.

Section Hsiao.
Variable L : Z.                      (* the block has [2 ^ L] bits *)
Hypothesis HL : 5 <= L <= 16.
Variable nw : nat.                   (* ... hence [nw] dwords *)
Hypothesis Hnw : Z.of_nat nw = 2 ^ (L - 5).
Variable W : nat -> Z.
Let bit (i : nat) : bool := Z.testbit (W (i / 32)) (Z.of_nat (i mod 32)).

Lemma nbits_eq : Z.of_nat (nw * 32) = 2 ^ L.
Proof.
  rewrite Nat2Z.inj_mul, Hnw. change (Z.of_nat 32) with (2 ^ 5).
  rewrite <- Z.pow_add_r by lia. f_equal; lia.
Qed.

Lemma ecc_index_range i : 0 <= i < 2 ^ L -> 0 <= ecc_index (2 ^ L) i < 2 ^ 32.
Proof.
  intros Hi. unfold ecc_index. assert (2 ^ L <= 2 ^ 16) by (apply Z.pow_le_mono_r; lia).
  change (2 ^ 16) with 65536 in *. change (2 ^ 32) with 4294967296. lia.
Qed.

Lemma hsiao_range : 0 <= hsiao_ecc (nw * 32) bit < 2 ^ 32.
Proof.
  apply zxsum_range; [|lia]. intros i Hi. rewrite nbits_eq.
  destruct (bit i); [|lia]. apply ecc_index_range. rewrite <- nbits_eq. lia.
Qed.

Lemma bit_row_major j t : (t < 32)%nat -> bit (j * 32 + t) = Z.testbit (W j) (Z.of_nat t).
Proof.
  intros Ht. unfold bit. rewrite Nat.div_add_l, (Nat.div_small t), Nat.add_0_r by lia.
  now rewrite Nat.add_comm, Nat.Div0.mod_add, Nat.mod_small by lia.
Qed.

Lemma testbit_ecc_index c i k :
  0 <= i < 2 ^ L -> 0 <= k < 16 -> (c = true -> k < L) ->
  Z.testbit (ecc_index (2 ^ L) i) (hpos c k) = xorb c (Z.testbit i k).
Proof.
  intros Hi Hk Hc. assert (2 ^ L <= 2 ^ 16) by (apply Z.pow_le_mono_r; lia).
  unfold ecc_index. rewrite (Z.add_comm i). change 65536 with (2 ^ 16).
  destruct c; unfold hpos; rewrite testbit_shl_add by lia.
  - destruct (Z.ltb_spec (16 + k) 16); [lia|]. replace (16 + k - 16) with k by lia.
    rewrite testbit_compl by lia. reflexivity.
  - destruct (Z.ltb_spec k 16); [|lia]. now destruct (Z.testbit i k).
Qed.

(** Each bit of the code is a parity of dword parities or of column parities. *)
Lemma hsiao_bit c k :
  0 <= k < 16 -> (c = true -> k < L) ->
  Z.testbit (hsiao_ecc (nw * 32) bit) (hpos c k) =
  if k <? 5 then xsum 32 (fun j => Z.testbit (zxsum nw W) (Z.of_nat j) && xorb c (Z.testbit (Z.of_nat j) k))
  else xsum nw (fun j => par (W j) && xorb c (Z.testbit (Z.of_nat j) (k - 5))).
Proof.
  intros Hk HcL. unfold hsiao_ecc. rewrite testbit_zxsum.
  rewrite (xsum_ext _ _ (fun i => bit i && xorb c (Z.testbit (Z.of_nat i) k))).
  - destruct (Z.ltb_spec k 5).
    + rewrite (xsum_regroup_lo _ _ _ (fun j => xorb c (Z.testbit (Z.of_nat j) k)))
        by (intros; rewrite (testbit_row_major 32 5) by (reflexivity || lia); case_cmp; lia || reflexivity).
      apply xsum_ext; intros t Ht. f_equal. rewrite testbit_zxsum.
      apply xsum_ext; intros; now rewrite bit_row_major.
    + rewrite (xsum_regroup_hi _ _ _ (fun j => xorb c (Z.testbit (Z.of_nat j) (k - 5))))
        by (intros; rewrite (testbit_row_major 32 5) by (reflexivity || lia); case_cmp; lia || reflexivity).
      apply xsum_ext; intros j _. f_equal. unfold par.
      apply xsum_ext; intros; now rewrite bit_row_major.
  - intros i Hi. rewrite nbits_eq. destruct (bit i); [rewrite andb_true_l|apply Z.testbit_0_l].
    apply testbit_ecc_index; auto. rewrite <- nbits_eq. lia.
Qed.

Lemma hsiao_above k : L <= k < 16 -> Z.testbit (hsiao_ecc (nw * 32) bit) (hpos true k) = false.
Proof.
  intros Hk. unfold hsiao_ecc. rewrite testbit_zxsum.
  rewrite (xsum_ext _ _ (fun _ => false)); [apply xsum_false|].
  intros i Hi. destruct (bit i); [|apply Z.testbit_0_l].
  assert (2 ^ L <= 2 ^ 16) by (apply Z.pow_le_mono_r; lia).
  pose proof nbits_eq as E. rewrite E.
  unfold ecc_index, hpos. rewrite (Z.add_comm (Z.of_nat i)). change 65536 with (2 ^ 16).
  rewrite testbit_shl_add by lia. destruct (Z.ltb_spec (16 + k) 16); [lia|].
  apply (testbit_high L); lia.
Qed.

(** Rows of [R] dwords: the parities of rows and of row-columns. *)
Section Rows.
Variables (nr R : nat).
Hypothesis Hrows : nw = (nr * R)%nat.

Variable b : Z.
Hypothesis Hb : 0 <= b.
Hypothesis HR : Z.of_nat R = 2 ^ b.

Lemma hsiao_row_bit c k :
  5 + b <= k < 16 -> (c = true -> k < L) ->
  Z.testbit (hsiao_ecc (nw * 32) bit) (hpos c k)
  = xsum nr (fun r => par (zxsum R (fun t => W (r * R + t)%nat)) && xorb c (Z.testbit (Z.of_nat r) (k - (5 + b)))).
Proof.
  intros Hk HcL. rewrite hsiao_bit by (auto; lia). destruct (Z.ltb_spec k 5); [lia|]. rewrite Hrows.
  rewrite (xsum_regroup_hi _ _ _ (fun r => xorb c (Z.testbit (Z.of_nat r) (k - (5 + b))))).
  - apply xsum_ext; intros; now rewrite par_zxsum.
  - intros. rewrite (testbit_row_major R b) by (auto; lia). case_cmp; [lia|]. do 2 f_equal. lia.
Qed.

Lemma hsiao_col_bit c k :
  5 <= k < 16 -> k < 5 + b -> (c = true -> k < L) ->
  Z.testbit (hsiao_ecc (nw * 32) bit) (hpos c k)
  = xsum R (fun t => par (zxsum nr (fun r => W (r * R + t)%nat)) && xorb c (Z.testbit (Z.of_nat t) (k - 5))).
Proof.
  intros Hk Hkb HcL. rewrite hsiao_bit by (auto; lia). destruct (Z.ltb_spec k 5); [lia|]. rewrite Hrows.
  rewrite (xsum_regroup_lo _ _ _ (fun t => xorb c (Z.testbit (Z.of_nat t) (k - 5)))).
  - apply xsum_ext; intros; now rewrite par_zxsum.
  - intros. rewrite (testbit_row_major R b) by (auto; lia). case_cmp; [reflexivity|lia].
Qed.
End Rows.

(** To identify a computed ECC with the code, compare the bits the block size
    uses and show that the rest of the complement half is clear. *)
Lemma hsiao_unique x :
  0 <= x < 2 ^ 32 ->
  (forall c k, 0 <= k < 16 -> (c = true -> k < L) ->
     Z.testbit x (hpos c k) = Z.testbit (hsiao_ecc (nw * 32) bit) (hpos c k)) ->
  (forall k, L <= k < 16 -> Z.testbit x (hpos true k) = false) ->
  x = hsiao_ecc (nw * 32) bit.
Proof.
  intros Hx H1 H2. apply bits_eq_halves; [auto|apply hsiao_range|]. intros c k Hk.
  destruct (Z.lt_ge_cases k L); [auto|]. destruct c.
  - rewrite hsiao_above by lia. apply H2; lia.
  - apply H1; [lia|discriminate].
Qed.
End Hsiao.

(** ** Row accumulation *)

(** The value of the double index after [r] steps, and the row part of the ECC
    accumulated over [r] rows with parities [P]. *)
Definition idx (s : Z) (r : nat) : Z :=
  u32 (didx s 0 + Z.of_nat r * (2 ^ 32 - 2 ^ (s + 16) + 2 ^ s)).

Definition row_ecc (s : Z) (P : nat -> bool) (r : nat) : Z :=
  zxsum r (fun j => sel (P j) (idx s j)).

Lemma idx_didx s r :
  0 <= s <= 16 -> Z.of_nat r < 2 ^ (16 - s) -> idx s r = didx s (Z.of_nat r).
Proof.
  intros Hs Hr. pose proof (didx_range s (Z.of_nat r) Hs ltac:(lia)) as H.
  unfold idx, u32. symmetry. apply Z.mod_unique with (q := Z.of_nat r).
  - left. change (2 ^ 32) with 4294967296 in H. lia.
  - unfold didx. change 4294967296 with (2 ^ 32). ring.
Qed.

Lemma idx_S s r : u32 (idx s r + (2 ^ 32 - 2 ^ (s + 16) + 2 ^ s)) = idx s (S r).
Proof.
  unfold idx, u32. rewrite Z.add_mod_idemp_l by lia. f_equal. lia.
Qed.

Lemma idx_range s r : 0 <= idx s r < 2 ^ 32.
Proof. apply u32_range. Qed.

Lemma row_ecc_range s P r : 0 <= row_ecc s P r < 2 ^ 32.
Proof.
  apply zxsum_range; [|lia]. intros i _. destruct (P i); [apply idx_range | simpl; lia].
Qed.

Lemma row_ecc_S s P r : row_ecc s P (S r) = row_ecc s P r ^^ sel (P r) (idx s r).
Proof. reflexivity. Qed.

Lemma row_ecc_bit s P r c k :
  0 <= s <= 16 -> Z.of_nat r <= 2 ^ (16 - s) -> s <= k < 16 ->
  Z.testbit (row_ecc s P r) (hpos c k) = xsum r (fun j => P j && xorb c (Z.testbit (Z.of_nat j) (k - s))).
Proof.
  intros Hs Hr Hk. unfold row_ecc. rewrite testbit_zxsum. apply xsum_ext; intros j Hj.
  rewrite testbit_sel, idx_didx by lia. f_equal.
  destruct c; unfold hpos; rewrite ?didx_high, ?didx_low by lia;
    (destruct (Z.ltb_spec k s); [lia|]); now destruct (Z.testbit _ _).
Qed.

(** Bits below the shift are zero in both halves. *)
Lemma row_ecc_zero s P r c k :
  0 <= s <= 16 -> Z.of_nat r <= 2 ^ (16 - s) -> 0 <= k < s ->
  Z.testbit (row_ecc s P r) (hpos c k) = false.
Proof.
  intros Hs Hr Hk. unfold row_ecc. rewrite testbit_zxsum.
  rewrite (xsum_ext _ _ (fun _ => false)); [apply xsum_false|]. intros j Hj.
  rewrite testbit_sel, idx_didx by lia.
  destruct c; unfold hpos; rewrite ?didx_high, ?didx_low by lia;
    (destruct (Z.ltb_spec k s); [apply andb_false_r | lia]).
Qed.

(** ** Words of a block *)

Lemma testbit_load32 m a c :
  mem_ok m -> 0 <= c < 32 -> Z.testbit (load32 m a) c = Z.testbit (m (a + c / 8)) (c mod 8).
Proof.
  intros Hm Hc. unfold load32, load16.
  pose proof (Hm a); pose proof (Hm (a + 1)); pose proof (Hm (a + 2)); pose proof (Hm (a + 2 + 1)).
  rewrite Z.add_comm, (Z.mul_comm 65536). change 65536 with (2 ^ 16).
  rewrite testbit_shl_add by lia.
  destruct (Z.ltb_spec c 16);
    rewrite (Z.add_comm (m _)), (Z.mul_comm 256); change 256 with (2 ^ 8);
    rewrite testbit_shl_add by lia; case_cmp; f_equal; try (apply f_equal); zlia.
Qed.

Section Block.
Variables (m : mem) (pb : Z) (fHeaderBlock : bool).
Hypothesis Hm : mem_ok m.
Let W := block_word m pb fHeaderBlock.

Lemma block_word_range j : 0 <= W j < 2 ^ 32.
Proof.
  unfold W, block_word. destruct (_ && _); [lia|].
  apply load32_range, Hm.
Qed.

Lemma block_word_ge j : (2 <= j)%nat -> W j = rgdw m pb (Z.of_nat j).
Proof.
  intros. unfold W, block_word. destruct (Nat.ltb_spec j 2); [lia|]. now rewrite andb_false_r.
Qed.

Lemma data_bit_word i :
  data_bit m pb fHeaderBlock i = Z.testbit (W (i / 32)) (Z.of_nat (i mod 32)).
Proof.
  unfold data_bit, W, block_word.
  pose proof (Nat.div_mod_eq i 32) as E. pose proof (Nat.mod_upper_bound i 32 ltac:(lia)) as B.
  set (j := (i / 32)%nat) in *. set (c := (i mod 32)%nat) in *. clearbody j c.
  replace (j <? 2)%nat with (i <? 64)%nat
    by (destruct (Nat.ltb_spec i 64), (Nat.ltb_spec j 2); try reflexivity; lia).
  destruct (_ && _); [now rewrite Z.testbit_0_l|].
  unfold rgdw. rewrite testbit_load32 by (auto; lia). f_equal; [apply f_equal|]; zlia.
Qed.
End Block.

Lemma hsiao_ecc_ext n b1 b2 : (forall i, (i < n)%nat -> b1 i = b2 i) -> hsiao_ecc n b1 = hsiao_ecc n b2.
Proof. intros H. apply zxsum_ext; intros i Hi. now rewrite H. Qed.

(** ** Masks *)

(** A 32-bit mask whose two halves are equal, with bit [k] of a half given by [f]. *)
Definition half_mask (x : Z) (f : Z -> bool) : Prop :=
  forall c k, 0 <= k < 16 -> Z.testbit x (hpos c k) = f k.

Lemma half_mask_check x f :
  forallb (fun k => Bool.eqb (Z.testbit x k) (f k) && Bool.eqb (Z.testbit x (16 + k)) (f k))
    (map Z.of_nat (seq 0 16)) = true -> half_mask x f.
Proof.
  intros H c k Hk. pose proof (enum_lt 16 _ H k Hk) as E. cbv beta in E.
  apply andb_true_iff in E. rewrite !eqb_true_iff in E. now destruct c, E.
Qed.

(** One bit of a constant, at a position given by a variable. *)
Lemma testbit_pow2 n k : 0 <= n -> Z.testbit (2 ^ n) k = (n =? k).
Proof. intros; now rewrite Z.pow2_bits_eqb. Qed.

Record block_params (cb L : Z) (nw : nat) : Prop := {
  bp_L : 13 <= L <= 16;
  bp_cb : cb = 2 ^ (L - 3);
  bp_nw : Z.of_nat nw = 2 ^ (L - 5);
  bp_cdw : cb / 4 = Z.of_nat nw;
  bp_8cb : Z.to_nat (8 * cb) = (nw * 32)%nat;
  bp_rows : exists a, (2 <= a)%nat /\ nw = (a * 64)%nat;
  bp_mask : forall c k, 0 <= k < 16 ->
    Z.testbit (u32 (u32 (Z.shiftl cb 19) - 1)) (hpos c k) = negb (c && (L <=? k))
}.

Lemma block_size_params cb :
  block_size cb -> exists L nw, block_params cb L nw.
Proof.
  assert (Hmask : forall L, 13 <= L <= 16 -> forall c k, 0 <= k < 16 ->
    Z.testbit (u32 (u32 (Z.shiftl (2 ^ (L - 3)) 19) - 1)) (hpos c k) = negb (c && (L <=? k))).
  { intros L HL c k Hk. apply eqb_prop. revert k Hk. change 16 with (Z.of_nat 16). apply enum_lt.
    assert (L = 13 \/ L = 14 \/ L = 15 \/ L = 16) as [->|[->|[->| ->]]] by lia; destruct c; reflexivity. }
  assert (H : forall L a, 13 <= L <= 16 -> (2 <= a)%nat -> Z.of_nat a * 256 = 2 ^ (L - 3) ->
    block_params (2 ^ (L - 3)) L (a * 64)).
  { intros L a HL Ha E. assert (E' : 2 ^ (L - 3) = 2 ^ (L - 5) * 4)
      by (replace (L - 3) with (L - 5 + 2) by lia; rewrite Z.pow_add_r by lia; reflexivity).
    split; eauto; try lia. rewrite <- E. zlia. }
  intros [->|[->|[->| ->]]];
    [ exists 13; eexists; apply (H 13 4%nat) | exists 14; eexists; apply (H 14 8%nat)
    | exists 15; eexists; apply (H 15 16%nat) | exists 16; eexists; apply (H 16 32%nat)]; reflexivity || lia.
Qed.
