(* ===== verification/ChecksumVariants.v ===== *)
(** * Every checksum variant computes the same function

    The closed forms of the loops of Checksum.v, and from them: each
    processor-specific variant of the new-format checksum computes
    [new_format_spec], each variant of the old-format checksum computes
    [old_format_spec], so the result does not depend on the run-time selection
    made by [ChecksumSelectNewFormat] / [ChecksumSelectOldFormat]. *)

From Stdlib Require Import ZArith List Lia Bool.
From S2P Require Import Prelude Bits Mem Checksum ChecksumEcc.
Import ListNotations.

(** ** Column loop of the 32-bit variants *)

Lemma land_pow2_eqb x c : 0 <= c -> (Z.land x (2 ^ c) =? 0) = negb (Z.testbit x c).
Proof.
  intros Hc. destruct (Z.testbit x c) eqn:E; simpl.
  - apply Z.eqb_neq. intros H. apply (f_equal (fun z => Z.testbit z c)) in H.
    rewrite Z.land_spec, E, Z.pow2_bits_true, Z.testbit_0_l in H by lia. discriminate.
  - apply Z.eqb_eq. apply Z.bits_inj'; intros k Hk.
    rewrite Z.land_spec, Z.testbit_0_l, testbit_pow2 by lia.
    destruct (Z.eqb_spec c k) as [<-|]; [now rewrite E | apply andb_false_r].
Qed.

Lemma ecc32_columns_spec r2 n c :
  (c + n = 32)%nat ->
  ecc32_columns (S n) r2 (u32 (2 ^ Z.of_nat c)) (row_ecc 0 (fun c => Z.testbit r2 (Z.of_nat c)) c) (idx 0 c)
  = row_ecc 0 (fun c => Z.testbit r2 (Z.of_nat c)) 32.
Proof.
  revert c; induction n; intros c Hc.
  - replace c with 32%nat by lia. reflexivity.
  - assert (Hi : u32 (2 ^ Z.of_nat c) = 2 ^ Z.of_nat c).
    { apply u32_small. split; [lia|]. change 4294967296 with (2 ^ 32).
      apply Z.pow_lt_mono_r; lia. }
    cbn [ecc32_columns]. rewrite Hi.
    destruct (Z.eqb_spec (2 ^ Z.of_nat c) 0) as [E|_]; [pose proof (Z.pow_pos_nonneg 2 (Z.of_nat c)); lia|].
    rewrite land_pow2_eqb by lia.
    specialize (IHn (S c) ltac:(lia)). rewrite <- IHn. cbn [ecc32_columns].
    rewrite row_ecc_S, <- (idx_S 0 c).
    replace (2 ^ Z.of_nat c + 2 ^ Z.of_nat c) with (2 ^ Z.of_nat (S c))
      by (rewrite Nat2Z.inj_succ, Z.pow_succ_r by lia; lia).
    rewrite Z.land_comm.
    replace (if negb (Z.testbit r2 (Z.of_nat c)) then 0 else -1)
      with (if Z.testbit r2 (Z.of_nat c) then -1 else 0) by now destruct (Z.testbit _ _).
    rewrite land_mask. reflexivity.
Qed.

(** ** The 32-bit variants compute the code *)

Section Ecc32.
Variables (m : mem) (pb cb : Z) (fHeaderBlock : bool).
Hypothesis Hm : mem_ok m.
Variables (L : Z) (nw : nat).
Hypothesis Hbp : block_params cb L nw.
Let W := block_word m pb fHeaderBlock.

Definition row32 (r : nat) : bool := par (zxsum 4 (fun t => W (r * 4 + t)%nat)).
Definition col32 (t r : nat) : Z := zxsum r (fun j => W (j * 4 + t)%nat).

(** The loop state after [r] rows. *)
Definition st32 (r : nat) : ecc32_state :=
  Ecc32 (row_ecc 7 row32 r) (idx 7 r) (col32 0 r) (col32 1 r) (col32 2 r) (col32 3 r).

Lemma ecc32_body_spec a :
  ecc32_body m pb (Z.of_nat (8 * a)) (W (8 * a)) (W (8 * a + 1)) (st32 (2 * a)) = st32 (2 * (a + 1)).
Proof.
  replace (2 * (a + 1))%nat with (S (S (2 * a))) by lia.
  unfold ecc32_body, st32. cbn [e_p e_idxp e_p0 e_p1 e_p2 e_p3].
  rewrite !lParityMask_spec, !land_mask.
  change 0xff800080 with (2 ^ 32 - 2 ^ (7 + 16) + 2 ^ 7). rewrite !idx_S.
  replace (Z.of_nat (8 * a) + 2) with (Z.of_nat (8 * a + 2)) by lia.
  replace (Z.of_nat (8 * a) + 3) with (Z.of_nat (8 * a + 3)) by lia.
  replace (Z.of_nat (8 * a) + 4) with (Z.of_nat (8 * a + 4)) by lia.
  replace (Z.of_nat (8 * a) + 5) with (Z.of_nat (8 * a + 5)) by lia.
  replace (Z.of_nat (8 * a) + 6) with (Z.of_nat (8 * a + 6)) by lia.
  replace (Z.of_nat (8 * a) + 7) with (Z.of_nat (8 * a + 7)) by lia.
  rewrite <- !(block_word_ge m pb fHeaderBlock) by lia. fold W.
  rewrite !row_ecc_S. unfold row32, col32. cbn [zxsum]. rewrite !Z.lxor_0_l.
  repeat match goal with |- context [(S ?x * 4 + ?t)%nat] =>
    replace (S x * 4 + t)%nat with (x * 4 + (4 + t))%nat by lia end.
  replace (2 * a * 4)%nat with (8 * a)%nat by lia. cbn [Nat.add].
  rewrite !Nat.add_0_r. reflexivity.
Qed.

Lemma block_word_nohdr j :
  fHeaderBlock = false \/ (2 <= j)%nat -> W j = rgdw m pb (Z.of_nat j).
Proof.
  intros [E|H]; [unfold W, block_word; now rewrite E | now apply block_word_ge].
Qed.

Lemma ecc32_loop_spec fuel a A :
  (a < A)%nat -> (A <= fuel + a)%nat -> fHeaderBlock = false \/ (1 <= a)%nat ->
  ecc32_loop fuel m pb (Z.of_nat (8 * A)) (Z.of_nat (8 * a)) (st32 (2 * a)) = st32 (2 * A).
Proof.
  revert a; induction fuel; intros a Ha Hf Hh; [lia|].
  cbn [ecc32_loop]. rewrite Z.add_0_r.
  replace (Z.of_nat (8 * a) + 1) with (Z.of_nat (8 * a + 1)) by lia.
  rewrite <- !block_word_nohdr by (destruct Hh; [now left|right; lia]).
  rewrite ecc32_body_spec.
  replace (Z.of_nat (8 * a) + 8) with (Z.of_nat (8 * (a + 1))) by lia.
  destruct (Z.ltb_spec (Z.of_nat (8 * (a + 1))) (Z.of_nat (8 * A))).
  - apply IHfuel; [lia|lia|right; lia].
  - f_equal. lia.
Qed.

Lemma ecc32_rows_spec : ecc32_rows m pb cb fHeaderBlock = st32 (nw / 4).
Proof.
  destruct Hbp as [_ _ _ Hcdw _ (a & Ha & Enw) _].
  replace (nw / 4)%nat with (2 * (8 * a))%nat
    by (subst nw; replace (a * 64)%nat with (a * 16 * 4)%nat by lia; rewrite Nat.div_mul; lia).
  unfold ecc32_rows. rewrite Hcdw.
  replace (Z.of_nat nw) with (Z.of_nat (8 * (8 * a))) by lia.
  change (Ecc32 0 0xff800000 0 0 0 0) with (st32 0).
  destruct (bool_cases fHeaderBlock) as [E|E]; rewrite E.
  - pose proof (ecc32_body_spec 0) as H0. unfold W, block_word in H0. rewrite E in H0.
    cbn [andb Nat.ltb Nat.leb Nat.mul Nat.add] in H0.
    change (Z.of_nat 0) with 0 in H0. rewrite H0.
    destruct (Z.ltb_spec 8 (Z.of_nat (8 * (8 * a)))); [|lia].
    change 8 with (Z.of_nat (8 * 1)) at 1. change (st32 2) with (st32 (2 * 1)).
    apply ecc32_loop_spec; [lia|lia|right; lia].
  - change (st32 0) with (st32 (2 * 0)). change 0 with (Z.of_nat (8 * 0)) at 1.
    apply ecc32_loop_spec; [lia|lia|now left].
Qed.

Lemma nw_rows4 : nw = (nw / 4 * 4)%nat.
Proof.
  destruct Hbp as [_ _ _ _ _ (a & _ & Enw) _].
  subst nw; replace (a * 64)%nat with (a * 16 * 4)%nat by lia; now rewrite Nat.div_mul.
Qed.

Lemma col32_sum : col32 0 (nw / 4) ^^ col32 2 (nw / 4) ^^ (col32 1 (nw / 4) ^^ col32 3 (nw / 4)) = zxsum nw W.
Proof.
  rewrite nw_rows4 at 5. rewrite <- zxsum_cols. unfold col32. cbn [zxsum].
  now rewrite Z.lxor_0_l, !Z.lxor_assoc, <- (Z.lxor_assoc (zxsum _ _) (zxsum _ _) (zxsum _ _)),
    (Z.lxor_comm (zxsum _ (fun j => W (j * 4 + 2)%nat))), !Z.lxor_assoc.
Qed.

Let bit (i : nat) : bool := Z.testbit (W (i / 32)) (Z.of_nat (i mod 32)).

Lemma ecc32_ecc_spec : fst (ecc32_finish cb (st32 (nw / 4))) = hsiao_ecc (nw * 32) bit.
Proof.
  pose proof nw_rows4 as Hrows. pose proof (bp_L _ _ _ Hbp) as HL. pose proof (bp_nw _ _ _ Hbp) as Hnw.
  assert (2 ^ (L - 5) <= 2 ^ 11) by (apply Z.pow_le_mono_r; lia).
  assert (Hr : Z.of_nat (nw / 4) <= 2 ^ (16 - 7)) by lia.
  unfold ecc32_finish, st32. cbn [e_p e_p0 e_p1 e_p2 e_p3 fst].
  rewrite col32_sum. pose proof (ecc32_columns_spec (zxsum nw W) 32 0 eq_refl) as Hcol.
  change (u32 (2 ^ Z.of_nat 0)) with 1 in Hcol. change (row_ecc 0 _ 0) with 0 in Hcol.
  change (idx 0 0) with 0xffff0000 in Hcol. rewrite Hcol. clear Hcol.
  rewrite !lParityMask_spec, !land_mask.
  apply (hsiao_unique L); auto; try lia.
  - apply lor_range; [apply land_range_r, u32_range | apply land_range_r; lia].
  - intros c k Hk HcL.
    rewrite !Z.lor_spec, !Z.land_spec, !Z.lor_spec, !testbit_sel, (bp_mask _ _ _ Hbp) by lia.
    rewrite (half_mask_check 0xffe0ffe0 (fun k => 5 <=? k) eq_refl) by lia.
    rewrite (half_mask_check 0x001f001f (fun k => k <? 5) eq_refl) by lia.
    change 0x00400000 with (2 ^ 22). change 0x00000040 with (2 ^ 6).
    change 0x00200000 with (2 ^ 21). change 0x00000020 with (2 ^ 5).
    rewrite !testbit_pow2 by lia.
    replace (negb (c && (L <=? k))) with true by (destruct c; [case_cmp; lia || reflexivity | reflexivity]).
    rewrite !andb_true_r.
    assert (k < 5 \/ k = 5 \/ k = 6 \/ 7 <= k) as [Hk5|[-> |[-> |Hk7]]] by lia.
    + destruct (Z.leb_spec 5 k), (Z.ltb_spec k 5); try lia. rewrite andb_false_r, andb_true_r, orb_false_l.
      rewrite (hsiao_bit L) by (auto; lia). destruct (Z.ltb_spec k 5); [|lia].
      rewrite row_ecc_bit by (cbn; lia). now rewrite Z.sub_0_r.
    + rewrite (hsiao_col_bit L ltac:(lia) nw Hnw W (nw / 4) 4 Hrows 2 ltac:(lia) eq_refl) by (auto; lia).
      rewrite row_ecc_zero by lia. rewrite !par_lxor. unfold col32.
      destruct c; cbn; rewrite ?andb_true_r, ?andb_false_r, ?orb_false_r; xorb_ring.
    + rewrite (hsiao_col_bit L ltac:(lia) nw Hnw W (nw / 4) 4 Hrows 2 ltac:(lia) eq_refl) by (auto; lia).
      rewrite row_ecc_zero by lia. rewrite !par_lxor. unfold col32.
      destruct c; cbn; rewrite ?andb_true_r, ?andb_false_r, ?orb_false_r; xorb_ring.
    + rewrite (hsiao_row_bit L ltac:(lia) nw Hnw W (nw / 4) 4 Hrows 2 ltac:(lia) eq_refl) by (auto; lia).
      rewrite row_ecc_bit by lia.
      destruct (Z.ltb_spec k 5), (Z.leb_spec 5 k); try lia.
      destruct (Z.eqb_spec 22 (hpos c k)), (Z.eqb_spec 6 (hpos c k)), (Z.eqb_spec 21 (hpos c k)), (Z.eqb_spec 5 (hpos c k));
        try (destruct c; unfold hpos in *; lia).
      now rewrite !andb_false_r, !orb_false_r, andb_true_r.
  - intros k Hk. rewrite Z.lor_spec, !Z.land_spec, (bp_mask _ _ _ Hbp) by lia.
    rewrite (half_mask_check 0x001f001f (fun k => k <? 5) eq_refl) by lia.
    cbn [andb]. case_cmp; try lia; now rewrite !andb_false_r.
Qed.
End Ecc32.

(** ** The 64-bit variant computes the code *)

Section Ecc64.
Variables (m : mem) (pb cb : Z) (fHeaderBlock : bool).
Hypothesis Hm : mem_ok m.
Variables (L : Z) (nw : nat).
Hypothesis Hbp : block_params cb L nw.
Let W := block_word m pb fHeaderBlock.
Let bit (i : nat) : bool := Z.testbit (W (i / 32)) (Z.of_nat (i mod 32)).

Definition st64 (r : nat) : ecc64_state :=
  Ecc64 (zxsum r W) (zxsum r (fun j => sel (par (W j)) (Z.of_nat j)))
    (zxsum r (fun j => sel (par (W j)) (u32 (Z.lnot (Z.of_nat j))))).

Lemma ecc64_rows_spec fuel r :
  (r <= nw)%nat -> (nw <= fuel + r)%nat -> fHeaderBlock = false \/ (2 <= r)%nat ->
  ecc64_rows fuel m pb (Z.of_nat nw) (Z.of_nat r) (st64 r) = st64 nw.
Proof.
  revert r; induction fuel; intros r Hr Hf Hh; cbn [ecc64_rows].
  - f_equal. lia.
  - destruct (Z.ltb_spec (Z.of_nat r) (Z.of_nat nw)); [|f_equal; lia].
    rewrite <- (IHfuel (S r)) by (try lia; destruct Hh; auto).
    replace (Z.of_nat r + 1) with (Z.of_nat (S r)) by lia. f_equal.
    rewrite <- (block_word_nohdr m pb fHeaderBlock) by auto. fold W.
    rewrite !lParityMask_spec, !land_mask_l. reflexivity.
Qed.

Lemma ecc64_columns_spec dw n c :
  (c + n = 32)%nat ->
  ecc64_columns n dw (Z.of_nat c)
    (zxsum c (fun j => sel (Z.testbit dw (Z.of_nat j)) (Z.of_nat j)))
    (zxsum c (fun j => sel (Z.testbit dw (Z.of_nat j)) (u32 (Z.lnot (Z.of_nat j)))))
  = (zxsum 32 (fun j => sel (Z.testbit dw (Z.of_nat j)) (Z.of_nat j)),
     zxsum 32 (fun j => sel (Z.testbit dw (Z.of_nat j)) (u32 (Z.lnot (Z.of_nat j))))).
Proof.
  revert c; induction n; intros c Hc; cbn [ecc64_columns].
  - now replace c with 32%nat by lia.
  - destruct (Z.ltb_spec (Z.of_nat c) 32); [|lia].
    rewrite <- (IHn (S c)) by lia. replace (Z.of_nat c + 1) with (Z.of_nat (S c)) by lia.
    rewrite Z.shiftl_1_l, u32_small by (split; [lia|]; apply (Z.pow_lt_mono_r 2 _ 32); lia).
    rewrite land_pow2_eqb by lia.
    replace (if negb (Z.testbit dw (Z.of_nat c)) then 0 else -1)
      with (if Z.testbit dw (Z.of_nat c) then -1 else 0) by now destruct (Z.testbit _ _).
    rewrite !land_mask_l. reflexivity.
Qed.

Lemma testbit_u32_lnot j k : 0 <= j -> 0 <= k < 32 -> Z.testbit (u32 (Z.lnot j)) k = negb (Z.testbit j k).
Proof.
  intros Hj Hk. unfold u32. change 4294967296 with (2 ^ 32).
  rewrite Z.mod_pow2_bits_low by lia. apply Z.lnot_spec; lia.
Qed.

Lemma testbit_sel_index n P k :
  Z.testbit (zxsum n (fun j => sel (P j) (Z.of_nat j))) k
  = xsum n (fun j => P j && xorb false (Z.testbit (Z.of_nat j) k)).
Proof.
  rewrite testbit_zxsum. apply xsum_ext; intros j _. rewrite testbit_sel. now destruct (Z.testbit _ k).
Qed.

Lemma testbit_sel_lnot n P k :
  0 <= k < 32 ->
  Z.testbit (zxsum n (fun j => sel (P j) (u32 (Z.lnot (Z.of_nat j))))) k
  = xsum n (fun j => P j && xorb true (Z.testbit (Z.of_nat j) k)).
Proof.
  intros Hk. rewrite testbit_zxsum. apply xsum_ext; intros j _.
  now rewrite testbit_sel, testbit_u32_lnot by lia.
Qed.

(** [( x & ( 2^w - 1 ) ) << n] occupies the bits [n .. n + w - 1]. *)
Lemma testbit_field x w n k :
  0 <= w -> 0 <= n -> n + w <= 32 -> 0 <= k ->
  Z.testbit (u32 (Z.shiftl (x .& (2 ^ w - 1)) n)) k
  = if (n <=? k) && (k <? n + w) then Z.testbit x (k - n) else false.
Proof.
  intros Hw Hn Hnw Hk. replace (2 ^ w - 1) with (Z.ones w) by (rewrite Z.ones_equiv; lia).
  unfold u32. change 4294967296 with (2 ^ 32).
  destruct (Z.lt_ge_cases k 32).
  - rewrite Z.mod_pow2_bits_low, Z.shiftl_spec, Z.land_spec by lia. case_cmp; cbn [andb]; try lia;
      first [ rewrite Z.ones_spec_low by lia; apply andb_true_r
            | rewrite Z.ones_spec_high by lia; apply andb_false_r
            | now rewrite Z.testbit_neg_r by lia ].
  - rewrite Z.mod_pow2_bits_high by lia. case_cmp; cbn [andb]; lia || reflexivity.
Qed.

Lemma ChecksumNewFormat64Bit_ecc pgno :
  ChecksumNewFormat64Bit m pb cb pgno fHeaderBlock
  = MakeChecksumFromECCXORAndPgno (hsiao_ecc (nw * 32) bit) (zxsum nw W) pgno.
Proof.
  pose proof (bp_L _ _ _ Hbp) as HL. pose proof (bp_nw _ _ _ Hbp) as Hnw.
  pose proof (bp_rows _ _ _ Hbp) as (a & Ha & Enw).
  unfold ChecksumNewFormat64Bit. change (32 / 8) with 4. rewrite (bp_cdw _ _ _ Hbp), Nat2Z.id.
  assert (Hrows : ecc64_rows nw m pb (Z.of_nat nw) (if fHeaderBlock then 2 else 0) (Ecc64 0 0 0) = st64 nw).
  { destruct (bool_cases fHeaderBlock) as [E|E]; rewrite E.
    - rewrite <- (ecc64_rows_spec nw 2) by (try lia; auto). f_equal.
      unfold st64. cbn [zxsum]. unfold W, block_word. rewrite E. reflexivity.
    - now rewrite <- (ecc64_rows_spec nw 0) by (try lia; auto). }
  rewrite Hrows. cbn [f_col f_p f_q st64].
  pose proof (ecc64_columns_spec (zxsum nw W) 32 0 eq_refl) as Hcol.
  change (zxsum 0 _) with 0 in Hcol. change (zxsum 0 _) with 0 in Hcol. change (Z.of_nat 0) with 0 in Hcol.
  rewrite Hcol. clear Hcol Hrows. f_equal.
  rewrite Hnw. change (32 - 1) with (2 ^ 5 - 1).
  apply (hsiao_unique L); auto; try lia.
  - repeat apply lor_range; apply u32_range || lia.
  - intros c k Hk HcL. rewrite !Z.lor_spec, Z.testbit_0_l, orb_false_r.
    rewrite !testbit_field by (destruct c; unfold hpos; lia).
    rewrite (hsiao_bit L) by (auto; lia).
    destruct (Z.ltb_spec k 5); destruct c; unfold hpos; case_cmp; try lia; cbn [andb orb];
      rewrite ?orb_false_r.
    + rewrite testbit_sel_lnot by lia. now replace (16 + k - 16) with k by lia.
    + rewrite testbit_sel_index. now rewrite Z.sub_0_r.
    + rewrite testbit_sel_lnot by lia. now replace (16 + k - 21) with (k - 5) by lia.
    + apply testbit_sel_index.
    + rewrite (xsum_ext _ _ (fun _ => false)); [now rewrite xsum_false|].
      intros j Hj. rewrite (testbit_high (L - 5)) by lia. apply andb_false_r.
  - intros k Hk. rewrite !Z.lor_spec, Z.testbit_0_l, !testbit_field by (unfold hpos; lia).
    unfold hpos. case_cmp; cbn [andb]; lia || reflexivity.
Qed.
End Ecc64.

(** ** Phases shared by the vector variants *)

Definition parity_ok (parity : Z -> Z) : Prop := forall x, parity x = if par x then -1 else 0.

Lemma dword_phase_spec parity f n r :
  parity_ok parity ->
  dword_phase parity (map f (seq r n)) (zxsum r f) (row_ecc 5 (fun t => par (f t)) r) (idx 5 r)
  = (zxsum (r + n) f, row_ecc 5 (fun t => par (f t)) (r + n)).
Proof.
  intros Hp. revert r; induction n; intros r; cbn [seq map dword_phase].
  - now rewrite Nat.add_0_r.
  - rewrite Hp, land_mask. change 0xffe00020 with (2 ^ 32 - 2 ^ (5 + 16) + 2 ^ 5).
    rewrite idx_S. specialize (IHn (S r)). rewrite row_ecc_S in IHn. cbn [zxsum] in IHn.
    rewrite IHn. f_equal; f_equal; lia.
Qed.

(** Byte [i] of a dword has parity [bpar]. *)
Definition bpar (w : Z) (i : nat) : bool := xsum 8 (fun c => Z.testbit w (Z.of_nat (i * 8 + c))).

Lemma byte_phase_spec parity w n i :
  (forall x, parity x = if xsum 8 (fun c => Z.testbit x (Z.of_nat c)) then -1 else 0) ->
  byte_phase n parity (Z.shiftr w (8 * Z.of_nat i)) (zxsum i (fun j => Z.shiftr w (8 * Z.of_nat j)))
    (row_ecc 3 (bpar w) i) (idx 3 i)
  = (zxsum (i + n) (fun j => Z.shiftr w (8 * Z.of_nat j)), row_ecc 3 (bpar w) (i + n)).
Proof.
  intros Hp. revert i; induction n; intros i; cbn [byte_phase].
  - now rewrite Nat.add_0_r.
  - rewrite Hp, land_mask. change 0xfff80008 with (2 ^ 32 - 2 ^ (3 + 16) + 2 ^ 3).
    rewrite idx_S, Z.shiftr_shiftr by lia.
    replace (8 * Z.of_nat i + 8) with (8 * Z.of_nat (S i)) by lia.
    specialize (IHn (S i)). rewrite row_ecc_S in IHn. cbn [zxsum] in IHn.
    replace (xsum 8 (fun c => Z.testbit (Z.shiftr w (8 * Z.of_nat i)) (Z.of_nat c))) with (bpar w i)
      by (apply xsum_ext; intros c _; rewrite Z.shiftr_spec by lia; f_equal; lia).
    rewrite IHn. f_equal; f_equal; lia.
Qed.

(** The 3-bit table: the code of a single byte. *)
Lemma g_bECCLookupTable_spec b c k :
  0 <= b < 256 -> 0 <= k < 3 ->
  Z.testbit (nth (Z.to_nat b) g_bECCLookupTable 0) (if c : bool then 4 + k else k)
  = xsum 8 (fun t => Z.testbit b (Z.of_nat t) && xorb c (Z.testbit (Z.of_nat t) k)).
Proof.
  intros Hb Hk. apply eqb_prop. revert k Hk. change 3 with (Z.of_nat 3). apply enum_lt.
  apply (enum_lt 256 (fun b => forallb (fun k => Bool.eqb
    (Z.testbit (nth (Z.to_nat b) g_bECCLookupTable 0) (if c : bool then 4 + k else k))
    (xsum 8 (fun t => Z.testbit b (Z.of_nat t) && xorb c (Z.testbit (Z.of_nat t) k))))
    (map Z.of_nat (seq 0 3)))); [|exact Hb].
  destruct c; vm_compute; reflexivity.
Qed.

Definition byte_parity_ok (parity : Z -> Z) : Prop :=
  forall x, parity x = if xsum 8 (fun c => Z.testbit x (Z.of_nat c)) then -1 else 0.

(** The column part, once masked, is the parity of the column bits. *)
Lemma column_phase_bit parity w c k :
  byte_parity_ok parity -> 0 <= k < 5 ->
  Z.testbit (column_phase parity w) (hpos c k)
  = xsum 32 (fun j => Z.testbit w (Z.of_nat j) && xorb c (Z.testbit (Z.of_nat j) k)).
Proof.
  intros Hp Hk. unfold column_phase.
  pose proof (byte_phase_spec parity w 4 0 Hp) as E.
  change (8 * Z.of_nat 0) with 0 in E. rewrite Z.shiftr_0_r in E.
  change (zxsum 0 _) with 0 in E. change (row_ecc 3 _ 0) with 0 in E.
  change (idx 3 0) with 0xfff80000 in E. change (0 + 4)%nat with 4%nat in E. rewrite E. clear E.
  rewrite !Z.lor_spec, !Z.land_spec. change 32%nat with (4 * 8)%nat.
  destruct (Z.lt_ge_cases k 3) as [Hk3|Hk3].
  - rewrite row_ecc_zero by (cbn; lia). rewrite orb_false_l.
    rewrite (xsum_regroup_lo _ _ _ (fun t => xorb c (Z.testbit (Z.of_nat t) k)))
      by (intros; rewrite (testbit_row_major 8 3) by (reflexivity || lia); case_cmp; lia || reflexivity).
    transitivity (Z.testbit (lECCLookup8bit (zxsum 4 (fun j => Z.shiftr w (8 * Z.of_nat j)))) (if c then 4 + k else k)).
    + set (x := lECCLookup8bit _). destruct c; unfold hpos.
      * rewrite (testbit_high 3 7), andb_false_r, orb_false_l by lia.
        rewrite Z.shiftl_spec by lia.
        assert (k = 0 \/ k = 1 \/ k = 2) as [->|[-> | ->]] by lia; cbn; apply andb_true_r.
      * assert (k = 0 \/ k = 1 \/ k = 2) as [->|[-> | ->]] by lia; cbn;
          now rewrite andb_true_r, andb_false_r, orb_false_r.
    + unfold lECCLookup8bit. rewrite g_bECCLookupTable_spec by (try apply land_0xff_range; lia).
      apply xsum_ext; intros t Ht. f_equal. rewrite testbit_0xff, testbit_zxsum by lia.
      apply xsum_ext; intros j _. rewrite Z.shiftr_spec by lia. f_equal. lia.
  - rewrite row_ecc_bit by (cbn; lia).
    rewrite (xsum_regroup_hi _ _ _ (fun j => xorb c (Z.testbit (Z.of_nat j) (k - 3))))
      by (intros; rewrite (testbit_row_major 8 3) by (reflexivity || lia); case_cmp; lia || reflexivity).
    assert (k = 3 \/ k = 4) as [-> | ->] by lia; destruct c; cbn [hpos];
      change (Z.testbit 7 (16 + 3)) with false; change (Z.testbit 7 (16 + 4)) with false;
      change (Z.testbit 7 3) with false; change (Z.testbit 7 4) with false;
      change (Z.testbit 458752 (16 + 3)) with false; change (Z.testbit 458752 (16 + 4)) with false;
      change (Z.testbit 458752 3) with false; change (Z.testbit 458752 4) with false;
      now rewrite !andb_false_r, !orb_false_r.
Qed.

Lemma sse2_dword_parity_ok T : parity_ok (sse2_dword_parity T).
Proof. intros x. destruct T; [apply lParityMask_spec | apply lParityMaskPopcnt_spec]. Qed.

Lemma sse2_byte_parity_ok T : byte_parity_ok (sse2_byte_parity T).
Proof.
  intros x. assert (E : xsum 8 (fun c => Z.testbit (x .& 255) (Z.of_nat c)) = xsum 8 (fun c => Z.testbit x (Z.of_nat c)))
    by (apply xsum_ext; intros; apply testbit_0xff; lia).
  destruct T; unfold sse2_byte_parity.
  - rewrite g_bParityLookupTable_spec by apply land_0xff_range. now rewrite E.
  - rewrite lParityMaskPopcnt_spec, <- E. unfold par. change 32%nat with (8 + 24)%nat.
    rewrite xsum_add, (xsum_ext 24 _ (fun _ => false)), xsum_false, xorb_false_r; [reflexivity|].
    intros t _. apply (testbit_high 8); [apply land_0xff_range | lia].
Qed.

Lemma par128_xor a b : par128 (mm_xor_si128 a b) = xorb (par128 a) (par128 b).
Proof. unfold par128; cbn [mm_xor_si128 lane0 lane1 lane2 lane3]. xorb_ring. Qed.

Lemma par256_xor a b : par256 (mm256_xor a b) = xorb (par256 a) (par256 b).
Proof.
  unfold par256; cbn [mm256_xor lo128 hi128]. rewrite !par128_xor.
  generalize (par128 (lo128 a)) (par128 (hi128 a)) (par128 (lo128 b)) (par128 (hi128 b)).
  now intros [] [] [] [].
Qed.

(** Vectors from their dwords. *)
Definition vec128 (f : nat -> Z) : m128i := M128 (f 0%nat) (f 1%nat) (f 2%nat) (f 3%nat).
Definition vec256 (f : nat -> Z) : m256i := M256 (vec128 f) (vec128 (fun l => f (4 + l)%nat)).

Lemma par128_vec f : par128 (vec128 f) = xsum 4 (fun l => par (f l)).
Proof. unfold par128, vec128; cbn [lane0 lane1 lane2 lane3 xsum]. xorb_ring. Qed.

Lemma par256_vec f : par256 (vec256 f) = xsum 8 (fun l => par (f l)).
Proof.
  unfold par256, vec256; cbn [lo128 hi128]. rewrite !par128_vec.
  now rewrite <- (xsum_add 4 4 (fun l => par (f l))).
Qed.

Lemma vec128_ext f g : (forall l, (l < 4)%nat -> f l = g l) -> vec128 f = vec128 g.
Proof. intros H; unfold vec128; f_equal; apply H; lia. Qed.

Lemma vec256_ext f g : (forall l, (l < 8)%nat -> f l = g l) -> vec256 f = vec256 g.
Proof. intros H; unfold vec256; f_equal; apply vec128_ext; intros; apply H; lia. Qed.

Section Sse2.
Variables (m : mem) (pb cb : Z) (fHeaderBlock : bool) (T : ChecksumParityMaskFunc).
Hypothesis Hm : mem_ok m.
Variables (L : Z) (nw : nat).
Hypothesis Hbp : block_params cb L nw.
Let W := block_word m pb fHeaderBlock.
Let bit (i : nat) : bool := Z.testbit (W (i / 32)) (Z.of_nat (i mod 32)).

Definition row512 (r : nat) : bool := par (zxsum 16 (fun t => W (r * 16 + t)%nat)).
Definition col512 (r t : nat) : Z := zxsum r (fun j => W (j * 16 + t)%nat).
Definition dqW (r t : nat) : m128i := vec128 (fun l => W (r * 16 + (t * 4 + l))%nat).
Definition dqC (r t : nat) : m128i := vec128 (fun l => col512 r (t * 4 + l)).

Definition stS (r : nat) : sse2_state :=
  Sse2 (row_ecc 9 row512 r) (idx 9 r) (dqC r 0) (dqC r 1) (dqC r 2) (dqC r 3).

Lemma sse2_row_parity_spec r :
  sse2_row_parity T (mm_xor4 (dqW r 0) (dqW r 1) (dqW r 2) (dqW r 3)) = if row512 r then -1 else 0.
Proof.
  replace (row512 r) with (par128 (mm_xor4 (dqW r 0) (dqW r 1) (dqW r 2) (dqW r 3))).
  - destruct T; [apply lParityMask_m128i_spec | apply lParityMaskPopcnt_m128i_spec].
  - unfold mm_xor4, dqW, row512. rewrite !par128_xor, !par128_vec, par_zxsum.
    change 16%nat with (4 * 4)%nat at 5. rewrite (xsum_rows 4 4). reflexivity.
Qed.

Lemma rgdq_dqW r t :
  fHeaderBlock = false \/ (1 <= r * 4 + t)%nat -> rgdq m pb (Z.of_nat (r * 4 + t)) = dqW r t.
Proof.
  intros H. unfold rgdq, dqW.
  unfold vec128, W. rewrite !(block_word_nohdr m pb fHeaderBlock) by (destruct H; [now left|right; lia]).
  f_equal; f_equal; lia.
Qed.

Lemma sse2_body_spec a :
  sse2_body T m pb (Z.of_nat (8 * a)) (dqW (2 * a) 0) (stS (2 * a)) = stS (2 * (a + 1)).
Proof.
  replace (2 * (a + 1))%nat with (S (S (2 * a))) by lia.
  unfold sse2_body, stS. cbn [s_p s_idxp s_dq0 s_dq1 s_dq2 s_dq3].
  replace (Z.of_nat (8 * a) + 1) with (Z.of_nat (2 * a * 4 + 1)) by lia.
  replace (Z.of_nat (8 * a) + 2) with (Z.of_nat (2 * a * 4 + 2)) by lia.
  replace (Z.of_nat (8 * a) + 3) with (Z.of_nat (2 * a * 4 + 3)) by lia.
  replace (Z.of_nat (8 * a) + 4) with (Z.of_nat (S (2 * a) * 4 + 0)) by lia.
  replace (Z.of_nat (8 * a) + 5) with (Z.of_nat (S (2 * a) * 4 + 1)) by lia.
  replace (Z.of_nat (8 * a) + 6) with (Z.of_nat (S (2 * a) * 4 + 2)) by lia.
  replace (Z.of_nat (8 * a) + 7) with (Z.of_nat (S (2 * a) * 4 + 3)) by lia.
  rewrite !rgdq_dqW by (right; lia).
  rewrite !sse2_row_parity_spec, !land_mask.
  change 0xfe000200 with (2 ^ 32 - 2 ^ (9 + 16) + 2 ^ 9). rewrite !idx_S. reflexivity.
Qed.

Lemma sse2_loop_spec fuel a A :
  (a < A)%nat -> (A <= fuel + a)%nat -> fHeaderBlock = false \/ (1 <= a)%nat ->
  sse2_loop fuel T m pb (Z.of_nat (8 * A)) (Z.of_nat (8 * a)) (stS (2 * a)) = stS (2 * A).
Proof.
  revert a; induction fuel; intros a Ha Hf Hh; [lia|].
  cbn [sse2_loop]. rewrite Z.add_0_r.
  replace (rgdq m pb (Z.of_nat (8 * a))) with (dqW (2 * a) 0)
    by (rewrite <- rgdq_dqW by (destruct Hh; [now left|right; lia]); do 2 f_equal; lia).
  rewrite sse2_body_spec.
  replace (Z.of_nat (8 * a) + 8) with (Z.of_nat (8 * (a + 1))) by lia.
  destruct (Z.ltb_spec (Z.of_nat (8 * (a + 1))) (Z.of_nat (8 * A))).
  - apply IHfuel; [lia|lia|right; lia].
  - f_equal. lia.
Qed.

Lemma sse2_rows_spec : sse2_rows T m pb cb fHeaderBlock = stS (nw / 16).
Proof.
  destruct Hbp as [_ _ _ Hcdw _ (a & Ha & Enw) _].
  replace (nw / 16)%nat with (2 * (2 * a))%nat
    by (subst nw; replace (a * 64)%nat with (a * 4 * 16)%nat by lia; rewrite Nat.div_mul; lia).
  unfold sse2_rows.
  replace (cb / 16) with (Z.of_nat (8 * (2 * a))) by zlia.
  change (Sse2 0 0xfe000000 _ _ _ _) with (stS 0).
  destruct (bool_cases fHeaderBlock) as [E|E]; rewrite E.
  - replace (mm_unpackhi_epi64 mm_setzero_si128 (rgdq m pb 0)) with (dqW (2 * 0) 0)
      by (unfold dqW, W, block_word, vec128; rewrite E; reflexivity).
    change 0 with (Z.of_nat (8 * 0)) at 1. change (stS 0) with (stS (2 * 0)). rewrite sse2_body_spec.
    destruct (Z.ltb_spec 8 (Z.of_nat (8 * (2 * a)))); [|lia].
    change 8 with (Z.of_nat (8 * (0 + 1))) at 1.
    apply sse2_loop_spec; [lia|lia|right; lia].
  - change (stS 0) with (stS (2 * 0)). change 0 with (Z.of_nat (8 * 0)) at 1.
    apply sse2_loop_spec; [lia|lia|now left].
Qed.

Lemma nw_rows16 : nw = (nw / 16 * 16)%nat.
Proof.
  destruct Hbp as [_ _ _ _ _ (a & _ & Enw) _].
  subst nw; replace (a * 64)%nat with (a * 4 * 16)%nat by lia; now rewrite Nat.div_mul.
Qed.

Lemma ChecksumNewFormatSSE2_ecc pgno :
  ChecksumNewFormatSSE2 T m pb cb pgno fHeaderBlock
  = MakeChecksumFromECCXORAndPgno (hsiao_ecc (nw * 32) bit) (zxsum nw W) pgno.
Proof.
  pose proof nw_rows16 as Hrows. pose proof (bp_L _ _ _ Hbp) as HL. pose proof (bp_nw _ _ _ Hbp) as Hnw.
  assert (2 ^ (L - 5) <= 2 ^ 11) by (apply Z.pow_le_mono_r; lia).
  assert (Hr : Z.of_nat (nw / 16) <= 2 ^ (16 - 9)) by lia.
  unfold ChecksumNewFormatSSE2. rewrite sse2_rows_spec. cbn [stS s_p s_dq0 s_dq1 s_dq2 s_dq3].
  change (dwords128 (dqC (nw / 16) 0) ++ _) with (map (col512 (nw / 16)) (seq 0 16)).
  pose proof (dword_phase_spec _ (col512 (nw / 16)) 16 0 (sse2_dword_parity_ok T)) as E.
  change (zxsum 0 _) with 0 in E. change (row_ecc 5 _ 0) with 0 in E.
  change (idx 5 0) with 0xffe00000 in E. change (0 + 16)%nat with 16%nat in E. rewrite E. clear E.
  replace (zxsum 16 (col512 (nw / 16))) with (zxsum nw W)
    by (rewrite Hrows at 1; symmetry; apply zxsum_cols).
  f_equal. apply (hsiao_unique L); auto; try lia.
  - repeat apply lor_range; apply land_range_r; apply u32_range || lia.
  - intros c k Hk HcL.
    rewrite !Z.lor_spec, !Z.land_spec, (bp_mask _ _ _ Hbp) by lia.
    rewrite (half_mask_check 0xfe00fe00 (fun k => 9 <=? k) eq_refl) by lia.
    rewrite (half_mask_check 0x01e001e0 (fun k => (5 <=? k) && (k <? 9)) eq_refl) by lia.
    rewrite (half_mask_check 0x001f001f (fun k => k <? 5) eq_refl) by lia.
    replace (negb (c && (L <=? k))) with true by (destruct c; [case_cmp; lia || reflexivity | reflexivity]).
    assert (k < 5 \/ 5 <= k < 9 \/ 9 <= k) as [Hk5|[Hk9|Hk9]] by lia; case_cmp; try lia;
      cbn [andb]; rewrite ?andb_true_r, ?andb_false_r, ?orb_false_r, ?orb_false_l.
    + rewrite column_phase_bit by (try apply sse2_byte_parity_ok; lia).
      rewrite (hsiao_bit L) by (auto; lia). case_cmp; [reflexivity|lia].
    + rewrite row_ecc_bit by (cbn; lia).
      now rewrite (hsiao_col_bit L ltac:(lia) nw Hnw W (nw / 16) 16 Hrows 4 ltac:(lia) eq_refl) by (auto; lia).
    + rewrite row_ecc_bit by lia.
      now rewrite (hsiao_row_bit L ltac:(lia) nw Hnw W (nw / 16) 16 Hrows 4 ltac:(lia) eq_refl) by (auto; lia).
  - intros k Hk. rewrite !Z.lor_spec, !Z.land_spec, (bp_mask _ _ _ Hbp) by lia.
    rewrite (half_mask_check 0x01e001e0 (fun k => (5 <=? k) && (k <? 9)) eq_refl) by lia.
    rewrite (half_mask_check 0x001f001f (fun k => k <? 5) eq_refl) by lia.
    case_cmp; try lia; cbn [andb negb]; now rewrite !andb_false_r.
Qed.
End Sse2.

Lemma neon_xor4_avx a b c d : neon_xor4 a b c d = avx_xor4 a b c d.
Proof.
  unfold neon_xor4, avx_xor4, mm256_xor, mm_xor_si128; cbn [lo128 hi128 lane0 lane1 lane2 lane3].
  now rewrite !Z.lxor_assoc.
Qed.

Section AvxEcc.
Variables (m : mem) (pb cb : Z) (fHeaderBlock : bool).
Variable parity256 : m256i -> Z.
Variable xor4 : m256i -> m256i -> m256i -> m256i -> m256i.
Hypothesis Hparity : forall a, parity256 a = if par256 a then -1 else 0.
Hypothesis Hxor4 : forall a b c d, xor4 a b c d = avx_xor4 a b c d.
Hypothesis Hm : mem_ok m.
Variables (L : Z) (nw : nat).
Hypothesis Hbp : block_params cb L nw.
Let W := block_word m pb fHeaderBlock.
Let bit (i : nat) : bool := Z.testbit (W (i / 32)) (Z.of_nat (i mod 32)).

Definition row1024 (r : nat) : bool := par (zxsum 32 (fun t => W (r * 32 + t)%nat)).
Definition col1024 (r t : nat) : Z := zxsum r (fun j => W (j * 32 + t)%nat).
Definition qqW (r t : nat) : m256i := vec256 (fun l => W (r * 32 + (t * 8 + l))%nat).
Definition qqC (r t : nat) : m256i := vec256 (fun l => col1024 r (t * 8 + l)).

Definition stA (r : nat) : avx_state :=
  Avx (row_ecc 10 row1024 r) (idx 10 r) (qqC r 0) (qqC r 1) (qqC r 2) (qqC r 3).

Lemma avx_row_parity_spec r :
  parity256 (xor4 (qqW r 0) (qqW r 1) (qqW r 2) (qqW r 3)) = if row1024 r then -1 else 0.
Proof.
  rewrite Hxor4, Hparity.
  replace (row1024 r) with (par256 (avx_xor4 (qqW r 0) (qqW r 1) (qqW r 2) (qqW r 3))); [reflexivity|].
  unfold avx_xor4, qqW, row1024. rewrite !par256_xor, !par256_vec, par_zxsum.
  change 32%nat with (4 * 8)%nat at 5. rewrite (xsum_rows 8 4). reflexivity.
Qed.

Lemma rgqq_qqW r t :
  fHeaderBlock = false \/ (1 <= r * 4 + t)%nat -> rgqq m pb (Z.of_nat (r * 4 + t)) = qqW r t.
Proof.
  intros H. unfold rgqq, rgdq, qqW, vec256, vec128, W.
  rewrite !(block_word_nohdr m pb fHeaderBlock) by (destruct H; [now left|right; lia]).
  do 2 f_equal; f_equal; lia.
Qed.

Lemma avx_body_spec r :
  avx_body parity256 xor4 m pb (Z.of_nat (4 * r)) (qqW r 0) (stA r) = stA (S r).
Proof.
  unfold avx_body, stA. cbn [a_p a_idxp a_qq0 a_qq1 a_qq2 a_qq3].
  replace (Z.of_nat (4 * r) + 1) with (Z.of_nat (r * 4 + 1)) by lia.
  replace (Z.of_nat (4 * r) + 2) with (Z.of_nat (r * 4 + 2)) by lia.
  replace (Z.of_nat (4 * r) + 3) with (Z.of_nat (r * 4 + 3)) by lia.
  rewrite !rgqq_qqW by (right; lia). rewrite avx_row_parity_spec, land_mask.
  change 0xfc000400 with (2 ^ 32 - 2 ^ (10 + 16) + 2 ^ 10). rewrite !idx_S. reflexivity.
Qed.

Lemma avx_loop_spec fuel r A :
  (r < A)%nat -> (A <= fuel + r)%nat -> fHeaderBlock = false \/ (1 <= r)%nat ->
  avx_loop parity256 xor4 fuel m pb (Z.of_nat (4 * A)) (Z.of_nat (4 * r)) (stA r) = stA A.
Proof.
  revert r; induction fuel; intros r Hr Hf Hh; [lia|].
  cbn [avx_loop]. rewrite Z.add_0_r.
  replace (rgqq m pb (Z.of_nat (4 * r))) with (qqW r 0)
    by (rewrite <- rgqq_qqW by (destruct Hh; [now left|right; lia]); do 2 f_equal; lia).
  rewrite avx_body_spec.
  replace (Z.of_nat (4 * r) + 4) with (Z.of_nat (4 * (S r))) by lia.
  destruct (Z.ltb_spec (Z.of_nat (4 * S r)) (Z.of_nat (4 * A))).
  - apply IHfuel; [lia|lia|right; lia].
  - f_equal. lia.
Qed.

Lemma avx_rows_spec qqHdr :
  (fHeaderBlock = true -> qqHdr = qqW 0 0) ->
  avx_rows parity256 xor4 qqHdr m pb cb fHeaderBlock = stA (nw / 32).
Proof.
  intros Hq. destruct Hbp as [_ _ _ Hcdw _ (a & Ha & Enw) _].
  replace (nw / 32)%nat with (2 * a)%nat
    by (subst nw; replace (a * 64)%nat with (a * 2 * 32)%nat by lia; rewrite Nat.div_mul; lia).
  unfold avx_rows. replace (cb / 32) with (Z.of_nat (4 * (2 * a))) by zlia.
  change (Avx 0 0xfc000000 _ _ _ _) with (stA 0).
  destruct (bool_cases fHeaderBlock) as [E|E]; rewrite E.
  - rewrite (Hq E). change 0 with (Z.of_nat (4 * 0)) at 1. rewrite avx_body_spec.
    destruct (Z.ltb_spec 4 (Z.of_nat (4 * (2 * a)))); [|lia].
    change 4 with (Z.of_nat (4 * 1)) at 1. apply avx_loop_spec; [lia|lia|right; lia].
  - change 0 with (Z.of_nat (4 * 0)) at 1. apply avx_loop_spec; [lia|lia|now left].
Qed.

Lemma nw_rows32 : nw = (nw / 32 * 32)%nat.
Proof.
  destruct Hbp as [_ _ _ _ _ (a & _ & Enw) _].
  subst nw; replace (a * 64)%nat with (a * 2 * 32)%nat by lia; now rewrite Nat.div_mul.
Qed.

(** The four-step [q] accumulation over the 256-bit accumulators. *)
Lemma avx_q_spec (f : nat -> m256i) :
  0 ^^ (0xff000000 .& parity256 (f 0%nat))
    ^^ (u32 (0xff000000 + 0xff000100) .& parity256 (f 1%nat))
    ^^ (u32 (u32 (0xff000000 + 0xff000100) + 0xff000100) .& parity256 (f 2%nat))
    ^^ (u32 (u32 (u32 (0xff000000 + 0xff000100) + 0xff000100) + 0xff000100) .& parity256 (f 3%nat))
  = row_ecc 8 (fun t => par256 (f t)) 4.
Proof.
  rewrite !Hparity, !land_mask. reflexivity.
Qed.

Lemma avx_finish_ecc pgno :
  avx_finish parity256 xor4 cb pgno (stA (nw / 32))
  = MakeChecksumFromECCXORAndPgno (hsiao_ecc (nw * 32) bit) (zxsum nw W) pgno.
Proof.
  pose proof nw_rows32 as Hrows. pose proof (bp_L _ _ _ Hbp) as HL. pose proof (bp_nw _ _ _ Hbp) as Hnw.
  assert (2 ^ (L - 5) <= 2 ^ 11) by (apply Z.pow_le_mono_r; lia).
  assert (Hr : Z.of_nat (nw / 32) <= 2 ^ (16 - 10)) by lia.
  unfold avx_finish. cbn [stA a_p a_qq0 a_qq1 a_qq2 a_qq3].
  rewrite (avx_q_spec (qqC (nw / 32))), Hxor4.
  set (acc := fun u => zxsum 4 (fun t => col1024 (nw / 32) (t * 8 + u))).
  replace (dwords256 (avx_xor4 (qqC (nw / 32) 0) (qqC (nw / 32) 1) (qqC (nw / 32) 2) (qqC (nw / 32) 3)))
    with (map acc (seq 0 8)) by (unfold acc; cbn [zxsum map seq]; rewrite !Z.lxor_0_l; reflexivity).
  pose proof (dword_phase_spec _ acc 8 0 lParityMaskPopcnt_spec) as E.
  change (zxsum 0 _) with 0 in E. change (row_ecc 5 _ 0) with 0 in E.
  change (idx 5 0) with 0xffe00000 in E. change (0 + 8)%nat with 8%nat in E. rewrite E. clear E.
  assert (Hacc : zxsum 8 acc = zxsum nw W).
  { unfold acc. rewrite (zxsum_cols 4 8 (col1024 (nw / 32))). rewrite Hrows at 2.
    apply (zxsum_cols (nw / 32) 32). }
  rewrite Hacc. f_equal. apply (hsiao_unique L); auto; try lia.
  - repeat apply lor_range; apply land_range_r; apply u32_range || lia.
  - intros c k Hk HcL.
    rewrite !Z.lor_spec, !Z.land_spec, (bp_mask _ _ _ Hbp) by lia.
    rewrite (half_mask_check 0xfc00fc00 (fun k => 10 <=? k) eq_refl) by lia.
    rewrite (half_mask_check 0x03000300 (fun k => (8 <=? k) && (k <? 10)) eq_refl) by lia.
    rewrite (half_mask_check 0x00e000e0 (fun k => (5 <=? k) && (k <? 8)) eq_refl) by lia.
    rewrite (half_mask_check 0x001f001f (fun k => k <? 5) eq_refl) by lia.
    replace (negb (c && (L <=? k))) with true by (destruct c; [case_cmp; lia || reflexivity | reflexivity]).
    assert (k < 5 \/ 5 <= k < 8 \/ 8 <= k < 10 \/ 10 <= k) as [Hk5|[Hk8|[Hk10|Hk10]]] by lia; case_cmp; try lia;
      cbn [andb]; rewrite ?andb_true_r, ?andb_false_r, ?orb_false_r, ?orb_false_l.
    + rewrite column_phase_bit by (try apply sse2_byte_parity_ok; lia).
      rewrite (hsiao_bit L) by (auto; lia). case_cmp; [reflexivity|lia].
    + rewrite row_ecc_bit by (cbn; lia).
      rewrite (hsiao_col_bit L ltac:(lia) nw Hnw W (nw / 32) 32 Hrows 5 ltac:(lia) eq_refl) by (auto; lia).
      rewrite (xsum_regroup_lo 4 8 _ (fun t => xorb c (Z.testbit (Z.of_nat t) (k - 5)))).
      * apply xsum_ext; intros u _. f_equal. unfold acc. now rewrite par_zxsum.
      * intros. rewrite (testbit_row_major 8 3) by (reflexivity || lia). case_cmp; [reflexivity|lia].
    + rewrite row_ecc_bit by (cbn; lia).
      rewrite (hsiao_col_bit L ltac:(lia) nw Hnw W (nw / 32) 32 Hrows 5 ltac:(lia) eq_refl) by (auto; lia).
      rewrite (xsum_regroup_hi 4 8 _ (fun t => xorb c (Z.testbit (Z.of_nat t) (k - 8)))).
      * apply xsum_ext; intros u _. f_equal. unfold qqC. now rewrite par256_vec.
      * intros. rewrite (testbit_row_major 8 3) by (reflexivity || lia). case_cmp; [lia|]. do 2 f_equal; lia.
    + rewrite row_ecc_bit by lia.
      now rewrite (hsiao_row_bit L ltac:(lia) nw Hnw W (nw / 32) 32 Hrows 5 ltac:(lia) eq_refl) by (auto; lia).
  - intros k Hk. rewrite !Z.lor_spec, !Z.land_spec, (bp_mask _ _ _ Hbp) by lia.
    rewrite (half_mask_check 0x03000300 (fun k => (8 <=? k) && (k <? 10)) eq_refl) by lia.
    rewrite (half_mask_check 0x00e000e0 (fun k => (5 <=? k) && (k <? 8)) eq_refl) by lia.
    rewrite (half_mask_check 0x001f001f (fun k => k <? 5) eq_refl) by lia.
    case_cmp; try lia; cbn [andb negb]; now rewrite !andb_false_r.
Qed.
End AvxEcc.

(** ** The new format *)

Section NewFormat.
Variables (m : mem) (pb cb pgno : Z) (fHeaderBlock : bool).
Hypothesis Hm : mem_ok m.
Hypothesis Hcb : block_size cb.

Lemma new_format_spec_params L nw :
  block_params cb L nw ->
  new_format_spec m pb cb pgno fHeaderBlock
  = MakeChecksumFromECCXORAndPgno
      (hsiao_ecc (nw * 32) (fun i => Z.testbit (block_word m pb fHeaderBlock (i / 32)) (Z.of_nat (i mod 32))))
      (zxsum nw (block_word m pb fHeaderBlock)) pgno.
Proof.
  intros Hbp. unfold new_format_spec. rewrite (bp_8cb _ _ _ Hbp), (bp_cdw _ _ _ Hbp), Nat2Z.id.
  f_equal. apply hsiao_ecc_ext; intros. now apply data_bit_word.
Qed.

Lemma ChecksumNewFormatSlowly_spec :
  ChecksumNewFormatSlowly m pb cb pgno fHeaderBlock = new_format_spec m pb cb pgno fHeaderBlock.
Proof.
  destruct (block_size_params cb Hcb) as (L & nw & Hbp). rewrite (new_format_spec_params L nw Hbp).
  unfold ChecksumNewFormatSlowly. rewrite (ecc32_rows_spec m pb cb fHeaderBlock L nw Hbp).
  rewrite <- (ecc32_ecc_spec m pb cb fHeaderBlock L nw Hbp), <- (col32_sum m pb cb fHeaderBlock L nw Hbp).
  reflexivity.
Qed.

Lemma ChecksumNewFormatSSE_spec :
  ChecksumNewFormatSSE m pb cb pgno fHeaderBlock = new_format_spec m pb cb pgno fHeaderBlock.
Proof. exact ChecksumNewFormatSlowly_spec. Qed.

Lemma ChecksumNewFormat64Bit_spec :
  ChecksumNewFormat64Bit m pb cb pgno fHeaderBlock = new_format_spec m pb cb pgno fHeaderBlock.
Proof.
  destruct (block_size_params cb Hcb) as (L & nw & Hbp). rewrite (new_format_spec_params L nw Hbp).
  now apply ChecksumNewFormat64Bit_ecc with (L := L).
Qed.

Lemma ChecksumNewFormatSSE2_spec T :
  ChecksumNewFormatSSE2 T m pb cb pgno fHeaderBlock = new_format_spec m pb cb pgno fHeaderBlock.
Proof.
  destruct (block_size_params cb Hcb) as (L & nw & Hbp). rewrite (new_format_spec_params L nw Hbp).
  now apply ChecksumNewFormatSSE2_ecc with (L := L).
Qed.

Lemma ChecksumNewFormatAVX_spec :
  ChecksumNewFormatAVX m pb cb pgno fHeaderBlock = new_format_spec m pb cb pgno fHeaderBlock.
Proof.
  destruct (block_size_params cb Hcb) as (L & nw & Hbp). rewrite (new_format_spec_params L nw Hbp).
  unfold ChecksumNewFormatAVX.
  rewrite (avx_rows_spec m pb cb fHeaderBlock _ _ lParityMaskAVX_spec (fun _ _ _ _ => eq_refl) L nw Hbp).
  - now apply avx_finish_ecc with (L := L); try apply lParityMaskAVX_spec.
  - intros ->. reflexivity.
Qed.

Lemma ChecksumNewFormatNEON_spec :
  ChecksumNewFormatNEON m pb cb pgno fHeaderBlock = new_format_spec m pb cb pgno fHeaderBlock.
Proof.
  destruct (block_size_params cb Hcb) as (L & nw & Hbp). rewrite (new_format_spec_params L nw Hbp).
  unfold ChecksumNewFormatNEON.
  rewrite (avx_rows_spec m pb cb fHeaderBlock _ _ lParityMaskNeon256_spec neon_xor4_avx L nw Hbp).
  - now apply avx_finish_ecc with (L := L); try apply lParityMaskNeon256_spec; try apply neon_xor4_avx.
  - intros ->. reflexivity.
Qed.

Lemma ChecksumSelectNewFormat_spec cpu :
  ChecksumSelectNewFormat cpu m pb cb pgno fHeaderBlock = new_format_spec m pb cb pgno fHeaderBlock.
Proof.
  unfold ChecksumSelectNewFormat.
  destruct (arch cpu); repeat match goal with |- context [if ?b then _ else _] => destruct b end;
    lazymatch goal with
    | |- ChecksumNewFormatAVX _ _ _ _ _ = _ => apply ChecksumNewFormatAVX_spec
    | |- ChecksumNewFormatSSE2 _ _ _ _ _ _ = _ => apply ChecksumNewFormatSSE2_spec
    | |- ChecksumNewFormatSSE _ _ _ _ _ = _ => apply ChecksumNewFormatSSE_spec
    | |- ChecksumNewFormat64Bit _ _ _ _ _ = _ => apply ChecksumNewFormat64Bit_spec
    | |- ChecksumNewFormatSlowly _ _ _ _ _ = _ => apply ChecksumNewFormatSlowly_spec
    | |- ChecksumNewFormatNEON _ _ _ _ _ = _ => apply ChecksumNewFormatNEON_spec
    end.
Qed.
End NewFormat.

(** ** The old format *)

(** The seed, exclusive or all dwords of the block but the first. *)
Definition old_format_spec (m : mem) (pb cb : Z) : Z :=
  0x89abcdef ^^ zxsum (Z.to_nat (cb / 4)) (fun j => if (j <? 1)%nat then 0 else rgdw m pb (Z.of_nat j)).

(** Adding a prefix of an XOR sum removes it. *)
Lemma zxsum_drop k n f :
  (k <= n)%nat -> zxsum k f ^^ zxsum n f = zxsum n (fun j => if (j <? k)%nat then 0 else f j).
Proof.
  induction n; intros Hk.
  - replace k with 0%nat by lia. reflexivity.
  - destruct (Nat.eq_dec k (S n)) as [->|].
    + rewrite Z.lxor_nilpotent. symmetry. apply Z.bits_inj'; intros i _. rewrite testbit_zxsum, Z.testbit_0_l.
      rewrite (xsum_ext _ _ (fun _ => false)), xsum_false; [reflexivity|].
      intros j Hj. destruct (Nat.ltb_spec j (S n)); [apply Z.testbit_0_l|lia].
    + cbn [zxsum]. rewrite <- IHn, Z.lxor_assoc by lia. destruct (Nat.ltb_spec n k); [lia|reflexivity].
Qed.

Section OldFormat.
Variables (m : mem) (pb : Z).
Hypothesis Hm : mem_ok m.
Let w (j : nat) : Z := rgdw m pb (Z.of_nat j).

Lemma rgdw_word a i j : Z.of_nat j = 8 * Z.of_nat a + i -> rgdw m (pb + 32 * Z.of_nat a) i = w j.
Proof. intros E. unfold w. rewrite E. unfold rgdw. apply f_equal. lia. Qed.

Lemma zxsum_add8 n (f : nat -> Z) :
  zxsum (n + 8) f = zxsum n f ^^ (f n ^^ f (n + 1)%nat ^^ f (n + 2)%nat ^^ f (n + 3)%nat
                                  ^^ f (n + 4)%nat ^^ f (n + 5)%nat ^^ f (n + 6)%nat ^^ f (n + 7)%nat).
Proof.
  replace (n + 8)%nat with (S (S (S (S (S (S (S (S n)))))))) by lia. cbn [zxsum].
  rewrite !Z.lxor_assoc. repeat (apply f_equal2; [first [reflexivity | apply f_equal; lia]|]).
  apply f_equal; lia.
Qed.

Lemma zxsum_add4 n (f : nat -> Z) :
  zxsum (n + 4) f = zxsum n f ^^ f (n + 0)%nat ^^ f (n + 1)%nat ^^ f (n + 2)%nat ^^ f (n + 3)%nat.
Proof.
  replace (n + 4)%nat with (S (S (S (S n)))) by lia. cbn [zxsum].
  repeat (apply f_equal2; [|apply f_equal; lia]). reflexivity.
Qed.

Lemma xor8_words a :
  zxsum (8 * a + 8) w = zxsum (8 * a) w ^^ xor8 m (pb + 32 * Z.of_nat a).
Proof.
  rewrite zxsum_add8. unfold xor8.
  now rewrite (rgdw_word a 0 (8 * a)), (rgdw_word a 1 (8 * a + 1)), (rgdw_word a 2 (8 * a + 2)),
    (rgdw_word a 3 (8 * a + 3)), (rgdw_word a 4 (8 * a + 4)), (rgdw_word a 5 (8 * a + 5)),
    (rgdw_word a 6 (8 * a + 6)), (rgdw_word a 7 (8 * a + 7)) by lia.
Qed.

Lemma xor_dword_loop_spec fuel a A acc :
  (a <= A)%nat -> (A < fuel + a)%nat ->
  xor_dword_loop fuel m (pb + 32 * Z.of_nat a) (32 * Z.of_nat A - 32 * Z.of_nat a) (acc ^^ zxsum (8 * a) w)
  = acc ^^ zxsum (8 * A) w.
Proof.
  revert a; induction fuel; intros a Ha Hf; [lia|]. cbn [xor_dword_loop].
  destruct (Z.leb_spec 0 (32 * Z.of_nat A - 32 * Z.of_nat a - 32)).
  - rewrite <- (IHfuel (a + 1)%nat) by lia. replace (8 * (a + 1))%nat with (8 * a + 8)%nat by lia.
    rewrite xor8_words, Z.lxor_assoc. f_equal; lia.
  - replace a with A by lia. reflexivity.
Qed.

Lemma xor_dword_loop_all cb acc :
  0 <= cb -> cb mod 32 = 0 ->
  xor_dword_loop (S (Z.to_nat cb)) m pb cb acc = acc ^^ zxsum (Z.to_nat (cb / 4)) w.
Proof.
  intros H0 Hcb. pose proof (xor_dword_loop_spec (S (Z.to_nat cb)) 0 (Z.to_nat (cb / 32)) acc) as H.
  change (zxsum (8 * 0) w) with 0 in H. rewrite Z.lxor_0_r in H.
  replace (pb + 32 * Z.of_nat 0) with pb in H by lia.
  replace (32 * Z.of_nat (Z.to_nat (cb / 32)) - 32 * Z.of_nat 0) with cb in H by zlia.
  rewrite H by zlia. apply f_equal. f_equal. zlia.
Qed.

Lemma ChecksumOldFormatSlowly_spec cb :
  0 < cb -> cb mod 32 = 0 -> ChecksumOldFormatSlowly m pb cb = old_format_spec m pb cb.
Proof.
  intros H0 Hcb. unfold ChecksumOldFormatSlowly, old_format_spec.
  rewrite xor_dword_loop_all, Z.lxor_assoc by lia. f_equal.
  rewrite <- (zxsum_drop 1 _ w) by zlia. reflexivity.
Qed.

(** A quadword is a pair of dwords; XOR works on the halves. *)
Definition pack (lo hi : Z) : Z := hi * 2 ^ 32 + lo.

Lemma testbit_pack lo hi k :
  0 <= lo < 2 ^ 32 -> 0 <= k -> Z.testbit (pack lo hi) k = if k <? 32 then Z.testbit lo k else Z.testbit hi (k - 32).
Proof. intros; unfold pack; apply testbit_shl_add; lia. Qed.

Lemma pack_lxor a b c d :
  0 <= a < 2 ^ 32 -> 0 <= c < 2 ^ 32 -> pack a b ^^ pack c d = pack (a ^^ c) (b ^^ d).
Proof.
  intros Ha Hc. apply Z.bits_inj'; intros k Hk.
  rewrite Z.lxor_spec, !testbit_pack by (auto; apply lxor_range; auto).
  destruct (k <? 32); now rewrite Z.lxor_spec.
Qed.

Lemma rgdw_range j : 0 <= rgdw m pb j < 2 ^ 32.
Proof. apply load32_range, Hm. Qed.

Lemma rgqw_pack a i : rgqw m (pb + 32 * Z.of_nat a) (Z.of_nat i) = pack (w (2 * (4 * a + i))) (w (2 * (4 * a + i) + 1)).
Proof.
  unfold rgqw, load64, pack, w, rgdw. rewrite Z.add_comm, Z.mul_comm. f_equal; [f_equal|]; f_equal; lia.
Qed.

Definition evens (n : nat) : Z := zxsum n (fun j => w (2 * j)).
Definition odds (n : nat) : Z := zxsum n (fun j => w (2 * j + 1)).

Lemma evens_range n : 0 <= evens n < 2 ^ 32.
Proof. apply zxsum_range; [intros; apply rgdw_range | lia]. Qed.

Lemma odds_range n : 0 <= odds n < 2 ^ 32.
Proof. apply zxsum_range; [intros; apply rgdw_range | lia]. Qed.

Lemma xor_qword_loop_spec fuel a A acc :
  0 <= acc < 2 ^ 32 -> (a <= A)%nat -> (A < fuel + a)%nat ->
  xor_qword_loop fuel m (pb + 32 * Z.of_nat a) (32 * Z.of_nat A - 32 * Z.of_nat a)
    (pack (acc ^^ evens (4 * a)) (odds (4 * a)))
  = pack (acc ^^ evens (4 * A)) (odds (4 * A)).
Proof.
  intros Hacc. revert a; induction fuel; intros a Ha Hf; [lia|]. cbn [xor_qword_loop].
  destruct (Z.leb_spec 0 (32 * Z.of_nat A - 32 * Z.of_nat a - 32)).
  - rewrite <- (IHfuel (a + 1)%nat) by lia. f_equal; [lia|lia|].
    change 0 with (Z.of_nat 0) at 1. change 1 with (Z.of_nat 1) at 1.
    change 2 with (Z.of_nat 2) at 1. change 3 with (Z.of_nat 3) at 1. rewrite !rgqw_pack.
    assert (forall j, 0 <= w j < 2 ^ 32) by (intros; apply rgdw_range).
    pose proof (evens_range (4 * a)).
    rewrite !pack_lxor by auto using lxor_range.
    replace (4 * (a + 1))%nat with (4 * a + 4)%nat by lia.
    unfold evens, odds. rewrite !zxsum_add4, !Z.lxor_assoc. reflexivity.
  - replace a with A by lia. reflexivity.
Qed.

Lemma ChecksumOldFormat64Bit_spec cb :
  0 < cb -> cb mod 32 = 0 -> ChecksumOldFormat64Bit m pb cb = old_format_spec m pb cb.
Proof.
  intros H0 Hcb. unfold ChecksumOldFormat64Bit, old_format_spec.
  rewrite Z.lxor_0_l. change 0xFFFFFFFF with (Z.ones 32).
  assert (E0 : rgqw m pb 0 .& Z.ones 32 = pack (w 0) 0).
  { rewrite Z.land_ones by lia. pose proof (rgqw_pack 0 0) as E. replace (pb + 32 * Z.of_nat 0) with pb in E by lia.
    change (Z.of_nat 0) with 0 in E. rewrite E. unfold pack. change (2 * (4 * 0 + 0))%nat with 0%nat.
    rewrite Z.add_comm, Z.mod_add, Z.mod_small by (try apply rgdw_range; lia). lia. }
  rewrite E0. set (n := Z.to_nat (cb / 32)).
  pose proof (xor_qword_loop_spec (S (Z.to_nat cb)) 0 n (w 0) (rgdw_range _) ltac:(lia) ltac:(unfold n; zlia)) as H.
  change (evens (4 * 0)) with 0 in H. change (odds (4 * 0)) with 0 in H. rewrite Z.lxor_0_r in H.
  replace (pb + 32 * Z.of_nat 0) with pb in H by lia.
  replace (32 * Z.of_nat n - 32 * Z.of_nat 0) with cb in H by (unfold n; zlia).
  rewrite H. clear H E0.
  pose proof (evens_range (4 * n)) as He. pose proof (odds_range (4 * n)) as Ho.
  assert (Hx : 0 <= w 0 ^^ evens (4 * n) < 2 ^ 32) by (apply lxor_range; auto; apply rgdw_range).
  replace (Z.shiftr (pack (w 0 ^^ evens (4 * n)) (odds (4 * n))) 32) with (odds (4 * n))
    by (unfold pack; rewrite Z.shiftr_div_pow2, Z.add_comm, Z.div_add, Z.div_small by lia; lia).
  replace (pack (w 0 ^^ evens (4 * n)) (odds (4 * n)) .& Z.ones 32) with (w 0 ^^ evens (4 * n))
    by (unfold pack; rewrite Z.land_ones, Z.add_comm, Z.mod_add, Z.mod_small by lia; lia).
  rewrite u32_small by (apply lxor_range with (w := 32); auto).
  rewrite Z.lxor_comm. f_equal. rewrite <- (zxsum_drop 1 _ w) by zlia.
  replace (Z.to_nat (cb / 4)) with (4 * n * 2)%nat by (unfold n; zlia).
  rewrite <- zxsum_cols. cbn [zxsum]. rewrite !Z.lxor_0_l, Z.lxor_comm, Z.lxor_assoc. f_equal.
  f_equal; apply zxsum_ext; intros; f_equal; lia.
Qed.

Definition lanes (n : nat) : m128i := vec128 (fun l => zxsum n (fun j => w (j * 4 + l))).

Lemma rgdq_words a i : rgdq m (pb + 128 * Z.of_nat a) (Z.of_nat i) = vec128 (fun l => w ((8 * a + i) * 4 + l)).
Proof. unfold rgdq, vec128, w, rgdw. f_equal; f_equal; lia. Qed.

Lemma xor_m128i_loop_spec fuel a A :
  (a <= A)%nat -> (A < fuel + a)%nat ->
  xor_m128i_loop fuel m (pb + 128 * Z.of_nat a) (128 * Z.of_nat A - 128 * Z.of_nat a) (lanes (8 * a))
  = lanes (8 * A).
Proof.
  revert a; induction fuel; intros a Ha Hf; [lia|]. cbn [xor_m128i_loop].
  destruct (Z.leb_spec 0 (128 * Z.of_nat A - 128 * Z.of_nat a - 128)).
  - rewrite <- (IHfuel (a + 1)%nat) by lia. f_equal; [lia|lia|].
    change 0 with (Z.of_nat 0) at 1. change 1 with (Z.of_nat 1) at 1. change 2 with (Z.of_nat 2) at 1.
    change 3 with (Z.of_nat 3) at 1. change 4 with (Z.of_nat 4) at 1. change 5 with (Z.of_nat 5) at 1.
    change 6 with (Z.of_nat 6) at 1. change 7 with (Z.of_nat 7) at 1. rewrite !rgdq_words.
    replace (8 * (a + 1))%nat with (8 * a + 8)%nat by lia.
    unfold lanes, vec128, mm_xor_si128. cbn [lane0 lane1 lane2 lane3].
    rewrite !zxsum_add8, !Z.lxor_assoc, !Nat.add_0_r. reflexivity.
  - replace a with A by lia. reflexivity.
Qed.

Lemma ChecksumOldFormatSSE2_spec cb :
  0 < cb -> cb mod 128 = 0 -> ChecksumOldFormatSSE2 m pb cb = old_format_spec m pb cb.
Proof.
  intros H0 Hcb. unfold ChecksumOldFormatSSE2, old_format_spec. set (n := Z.to_nat (cb / 128)).
  pose proof (xor_m128i_loop_spec (S (Z.to_nat cb)) 0 n ltac:(lia) ltac:(unfold n; zlia)) as H.
  change (lanes (8 * 0)) with mm_setzero_si128 in H.
  replace (pb + 128 * Z.of_nat 0) with pb in H by lia.
  replace (128 * Z.of_nat n - 128 * Z.of_nat 0) with cb in H by (unfold n; zlia).
  rewrite H, Z.lxor_assoc. f_equal. rewrite <- (zxsum_drop 1 _ w) by zlia.
  cbn [zxsum]. rewrite Z.lxor_0_l. f_equal.
  replace (Z.to_nat (cb / 4)) with (8 * n * 4)%nat by (unfold n; zlia).
  rewrite <- zxsum_cols. cbn [zxsum]. now rewrite Z.lxor_0_l.
Qed.

Lemma ChecksumSelectOldFormat_spec cpu cb :
  0 < cb -> cb mod 128 = 0 -> ChecksumSelectOldFormat cpu m pb cb = old_format_spec m pb cb.
Proof.
  intros H0 Hcb. assert (cb mod 32 = 0) by zlia. unfold ChecksumSelectOldFormat.
  destruct (FSSEInstructionsAvailable cpu), (FSSE2InstructionsAvailable cpu), (f64BitPointers cpu);
    lazymatch goal with
    | |- ChecksumOldFormatSSE2 _ _ _ = _ => now apply ChecksumOldFormatSSE2_spec
    | |- ChecksumOldFormat64Bit _ _ _ = _ => now apply ChecksumOldFormat64Bit_spec
    | |- _ => now apply ChecksumOldFormatSlowly_spec
    end.
Qed.
End OldFormat.

(** ** The reference variant [ChecksumNewFormatBasic]

    Its ECC half is the code; its XOR half always leaves out the first two
    dwords, also when the block is not a header block. *)
Lemma ChecksumNewFormatBasic_spec m pb cb pgno fHeaderBlock :
  mem_ok m -> block_size cb ->
  ChecksumNewFormatBasic m pb cb pgno fHeaderBlock
  = MakeChecksumFromECCXORAndPgno
      (hsiao_ecc (Z.to_nat (8 * cb)) (data_bit m pb fHeaderBlock))
      (zxsum (Z.to_nat (cb / 4)) (block_word m pb true)) pgno.
Proof.
  intros Hm Hcb. destruct (block_size_params cb Hcb) as (L & nw & Hbp).
  unfold ChecksumNewFormatBasic. rewrite (ecc32_rows_spec m pb cb fHeaderBlock L nw Hbp).
  destruct (ecc32_finish cb _) as [ecc r2] eqn:E. f_equal.
  - transitivity (fst (ecc, r2)); [reflexivity|]. rewrite <- E, (ecc32_ecc_spec m pb cb fHeaderBlock L nw Hbp), (bp_8cb _ _ _ Hbp).
    apply hsiao_ecc_ext; intros. symmetry. now apply data_bit_word.
  - unfold DwXORChecksumBasic. assert (0 < cb /\ cb mod 32 = 0) as [H0 H32]
      by (destruct Hcb as [->|[->|[->| ->]]]; split; reflexivity).
    rewrite (xor_dword_loop_all m pb) by lia.
    change (rgdw m pb 0 ^^ rgdw m pb 1) with (zxsum 2 (fun j => rgdw m pb (Z.of_nat j))).
    rewrite zxsum_drop by zlia. reflexivity.
Qed.
