(* ===== verification/PageChecksum.v ===== *)
(** * Page checksums

    The model of src/dev/ese/src/ese/_osu/checksumu.cxx and
    src/dev/ese/src/inc/_osu/checksumu.hxx: where a page keeps its checksums,
    how they are computed over the blocks of a page, and how a page that fails
    verification is repaired.

    The page is the memory at offset 0.  The two block checksum routines are
    reached through function pointers, here the class [ChecksumRoutines];
    [ChecksumRoutinesOk] states what this file needs of them, and
    ChecksumVariants.v provides it for every processor. *)

From Stdlib Require Import ZArith List Lia Bool.
From S2P Require Import Prelude Bits Mem Checksum ChecksumEcc ChecksumVariants.
Import ListNotations.

(** ** The block checksum interface *)

(** [pfnChecksumOldFormat] and [pfnChecksumNewFormat] of checksum.cxx. *)
Class ChecksumRoutines := {
  ChecksumOldFormat : mem -> Z -> Z -> Z;
  ChecksumNewFormat : mem -> Z -> Z -> Z -> bool -> Z
}.

Class ChecksumRoutinesOk (R : ChecksumRoutines) : Prop := {
  ChecksumOldFormat_ok m pb cb :
    mem_ok m -> 0 < cb -> cb mod 128 = 0 -> ChecksumOldFormat m pb cb = old_format_spec m pb cb;
  ChecksumNewFormat_ok m pb cb pgno fHeaderBlock :
    mem_ok m -> block_size cb ->
    ChecksumNewFormat m pb cb pgno fHeaderBlock = new_format_spec m pb cb pgno fHeaderBlock
}.

(** The routines a processor selects on the first call. *)
Definition routines_of (cpu : processor) : ChecksumRoutines :=
  {| ChecksumOldFormat := ChecksumSelectOldFormat cpu; ChecksumNewFormat := ChecksumSelectNewFormat cpu |}.

#[export] Instance routines_of_ok cpu : ChecksumRoutinesOk (routines_of cpu).
Proof.
  split; intros.
  - apply (ChecksumSelectOldFormat_spec m pb); assumption.
  - apply (ChecksumSelectNewFormat_spec m pb cb pgno fHeaderBlock); assumption.
Qed.

(** ** Bits of a page *)

Definition FGetBit (m : mem) (ibitOffset : Z) : bool :=
  let ibyte := ibitOffset / 8 in
  let ibitInByte := ibitOffset mod 8 in
  let bitMask := u8 (Z.shiftl 1 ibitInByte) in
  negb ((m ibyte .& bitMask) =? 0).

Definition SetBit (m : mem) (ibitOffset : Z) : mem :=
  let ibyte := ibitOffset / 8 in
  let ibitInByte := ibitOffset mod 8 in
  let bitMask := u8 (Z.shiftl 1 ibitInByte) in
  store8 m ibyte (m ibyte .| bitMask).

Definition FlipBit (m : mem) (ibitOffset : Z) : mem :=
  let ibyte := ibitOffset / 8 in
  let ibitInByte := ibitOffset mod 8 in
  let bitMask := u8 (Z.shiftl 1 ibitInByte) in
  store8 m ibyte (m ibyte ^^ bitMask).

(** ** Page types and the format bit *)

(** The other enumerators ([logfilePage], [flushmapDataPage], [rbsPage]) have
    the value of [databasePage]. *)
Inductive PAGETYPE := databasePage | databaseHeader | logfileHeader | flushmapHeaderPage.

Definition IbitNewChecksumFormatFlag (pagetype : PAGETYPE) : Z :=
  match pagetype with databasePage => 9 * 32 + 13 | _ => ulMax end.

Definition FPageHasNewChecksumFormat (m : mem) (pagetype : PAGETYPE) : bool :=
  match pagetype with
  | databasePage => FGetBit m (IbitNewChecksumFormatFlag pagetype)
  | _ => false
  end.

Definition SetNewChecksumFormatFlag (m : mem) (pagetype : PAGETYPE) : mem :=
  SetBit m (IbitNewChecksumFormatFlag pagetype).

Definition FPageHasLongChecksum (pagetype : PAGETYPE) : bool :=
  match pagetype with databasePage => true | _ => false end.

Definition FIsSmallPage (cbPage : Z) : bool := cbPage <=? 1024 * 8.

(** ** [PAGECHECKSUM]: an array of four checksums *)

Definition cxeChecksumPerPage : Z := 4.
Definition PAGECHECKSUM := list Z.

Definition PageChecksum1 (xe : Z) : PAGECHECKSUM := [xe; 0; 0; 0].
Definition rgChecksum (c : PAGECHECKSUM) (i : Z) : Z := nth (Z.to_nat i) c 0.

(** [a[ i ] = v] on an array; an index past the end is undefined behaviour,
    here no result. *)
Definition rg_set {A} (a : list A) (i : Z) (v : A) : option (list A) :=
  if (0 <=? i) && (i <? Z.of_nat (length a))
  then Some (firstn (Z.to_nat i) a ++ v :: skipn (S (Z.to_nat i)) a) else None.

(** [memcmp] of the two arrays. *)
Definition pgck_eqb (c1 c2 : PAGECHECKSUM) : bool :=
  if list_eq_dec Z.eq_dec c1 c2 then true else false.

(** [FlipBit( &checksum, ibit )]: bit [ibit] of the little-endian array. *)
Definition FlipChecksumBit (c : PAGECHECKSUM) (ibit : Z) : option PAGECHECKSUM :=
  rg_set c (ibit / 64) (rgChecksum c (ibit / 64) ^^ 2 ^ (ibit mod 64)).

(** ** The checksum fields of a page *)

(** [offsetof( CPAGE::PGHDR2, rgChecksum )]. *)
Definition offset_rgChecksum : Z := 40.

Definition LongChecksumFromShortChecksum (xorChecksum pgno : Z) : Z := Z.shiftl pgno 32 .| xorChecksum.

Definition ShortChecksumFromPage (m : mem) : Z := load32 m 0.
Definition SetShortChecksumOnPage (m : mem) (checksum : Z) : mem := store32 m 0 checksum.

Definition LongChecksumFromPage (m : mem) (cb : Z) : PAGECHECKSUM :=
  if FIsSmallPage cb then PageChecksum1 (load64 m 0)
  else [load64 m 0; load64 m offset_rgChecksum; load64 m (offset_rgChecksum + 8); load64 m (offset_rgChecksum + 16)].

(** [pPH2->rgChecksum[ 0..2 ] = checksum.rgChecksum[ 1..3 ]]. *)
Definition SetBlockChecksums (m : mem) (checksum : PAGECHECKSUM) : mem :=
  let m := store64 m offset_rgChecksum (rgChecksum checksum 1) in
  let m := store64 m (offset_rgChecksum + 8) (rgChecksum checksum 2) in
  store64 m (offset_rgChecksum + 16) (rgChecksum checksum 3).

Definition SetLongChecksumOnPage (m : mem) (cb : Z) (checksum : PAGECHECKSUM) : mem :=
  let m := store64 m 0 (rgChecksum checksum 0) in
  if FIsSmallPage cb then m else SetBlockChecksums m checksum.

Definition ChecksumFromPage (m : mem) (cb : Z) (pagetype : PAGETYPE) : PAGECHECKSUM :=
  if FPageHasLongChecksum pagetype then LongChecksumFromPage m cb
  else PageChecksum1 (ShortChecksumFromPage m).

Definition SetChecksumOnPage (m : mem) (cb : Z) (pagetype : PAGETYPE) (checksum : PAGECHECKSUM) : mem :=
  if FPageHasLongChecksum pagetype then SetLongChecksumOnPage m cb checksum
  else SetShortChecksumOnPage m (u32 (rgChecksum checksum 0)).

Definition CbBlockSize (cb : Z) : Z :=
  if negb (FIsSmallPage cb) then
    if cb <=? 16 * 1024 then 4096
    else if cb <=? 32 * 1024 then 8 * 1024
    else cb
  else cb.

(** ** Computing and setting checksums *)

Section Routines.
(** An operation whose [Enforce] fails, or that would index an array out of
    bounds, has no result. *)
Context `{R : ChecksumRoutines}.

(** [while( ( ibT + cbBlock ) <= cb ) { Enforce( i <= 3 ); ... }]; returns
    [ibT], [i] and the checksums. *)
Fixpoint block_loop (fuel : nat) (m : mem) (cb cbBlock pgno ibT i : Z) (c : PAGECHECKSUM)
  : option (Z * Z * PAGECHECKSUM) :=
  match fuel with
  | O => None
  | S fuel' =>
      if u32 (ibT + cbBlock) <=? cb then
        if i <=? 3 then
          let? c := rg_set c i (ChecksumNewFormat m ibT cbBlock pgno false) in
          block_loop fuel' m cb cbBlock pgno (u32 (ibT + cbBlock)) (i + 1) c
        else None
      else Some (ibT, i, c)
  end.

(** With [fNew] the page is written (a large page's block checksums). *)
Definition ComputePageChecksum (m : mem) (cb : Z) (pagetype : PAGETYPE) (pgno : Z) (fNew : bool)
  : option (mem * PAGECHECKSUM) :=
  if FPageHasLongChecksum pagetype then
    if FPageHasNewChecksumFormat m pagetype then
      let pgChecksum := PageChecksum1 0 in
      if FIsSmallPage cb then
        let? pgChecksum := rg_set pgChecksum 0 (ChecksumNewFormat m 0 cb pgno true) in
        Some (m, pgChecksum)
      else
        let cbBlock := CbBlockSize cb in
        let? (ibT, i, pgChecksum) := block_loop 6 m cb cbBlock pgno cbBlock 1 pgChecksum in
        let? pgChecksum :=
          if 0 <? u32 (cb - ibT)
          then rg_set pgChecksum i (ChecksumNewFormat m ibT (u32 (cb - ibT)) pgno false)
          else Some pgChecksum in
        let m := if fNew then SetBlockChecksums m pgChecksum else m in
        let? pgChecksum := rg_set pgChecksum 0 (ChecksumNewFormat m 0 cbBlock pgno true) in
        Some (m, pgChecksum)
    else Some (m, PageChecksum1 (LongChecksumFromShortChecksum (ChecksumOldFormat m 0 cb) pgno))
  else Some (m, PageChecksum1 (ChecksumOldFormat m 0 cb)).

Definition SetPageChecksum (m : mem) (cb : Z) (pagetype : PAGETYPE) (pgno : Z) : option mem :=
  let m := if FPageHasLongChecksum pagetype then SetNewChecksumFormatFlag m pagetype else m in
  let? (m, checksum) := ComputePageChecksum m cb pagetype pgno true in
  Some (SetChecksumOnPage m cb pagetype checksum).

(** [(checksumExpected, checksumActual)]. *)
Definition ChecksumPage (m : mem) (cb : Z) (pagetype : PAGETYPE) (pgno : Z)
  : option (PAGECHECKSUM * PAGECHECKSUM) :=
  let checksumExpected := ChecksumFromPage m cb pagetype in
  let? (_, checksumActual) := ComputePageChecksum m cb pagetype pgno false in
  Some (checksumExpected, checksumActual).

(** ** Correcting a page *)

Inductive XECHECKSUMERROR := xeChecksumNoError | xeChecksumCorrectableError | xeChecksumFatalError.

(** Returns the error and the new value of [*pibitCorrupted]. *)
Definition FTryFixBlock (cb ibitCorrupted0 xeChecksumExpected xeChecksumActual : Z) : XECHECKSUMERROR * Z :=
  if xeChecksumExpected =? xeChecksumActual then (xeChecksumNoError, ibitCorrupted0)
  else if FECCErrorIsCorrectable cb xeChecksumExpected xeChecksumActual then
    let ibitCorrupted := IbitCorrupted cb xeChecksumExpected xeChecksumActual in
    if negb (ibitCorrupted0 =? ibitCorrupted) && (ibitCorrupted <? 8 * cb)
    then (xeChecksumCorrectableError, ibitCorrupted)
    else (xeChecksumFatalError, ibitCorrupted0)
  else (xeChecksumFatalError, ibitCorrupted0).

(** How the work-out loop of [TryFixPage] ends: an early return that leaves
    the results alone, the return on a fatal error, or all blocks done with
    the first correctable bit and the bits to flip, in block order. *)
Inductive fix_plan := FixTooManyBlocks | FixFatal | FixDone (ibitCorrupted : Z) (rgFlip : list Z).

(** The loop of [TryFixPage]; [rgibit] are the entries of [rgibitCorrupted]
    not visited yet, [flips] the corrected bits of the visited blocks. *)
Fixpoint fix_loop (fuel : nat) (cb iblk ibT cbBlock ibitCorrupted : Z) (flips : list Z)
    (rgibit : list Z) (checksumExpected checksumActual : PAGECHECKSUM) : option fix_plan :=
  match fuel with
  | O => None
  | S fuel' =>
      if 0 <? cbBlock then
        if cxeChecksumPerPage <=? iblk then Some FixTooManyBlocks
        else
          let '(err, ibit) := FTryFixBlock cbBlock (hd 0 rgibit)
                                (rgChecksum checksumExpected iblk) (rgChecksum checksumActual iblk) in
          let ibit := u32 (ibit + 8 * ibT) in
          let next := fun ibitCorrupted flips checksumExpected =>
            let ibT := u32 (ibT + cbBlock) in
            fix_loop fuel' cb (iblk + 1) ibT (Z.min (u32 (cb - ibT)) cbBlock) ibitCorrupted flips
              (tl rgibit) checksumExpected checksumActual in
          match err with
          | xeChecksumNoError => next ibitCorrupted flips checksumExpected
          | xeChecksumCorrectableError =>
              if ulMax =? ibitCorrupted then
                let ibitStart := 8 * offset_rgChecksum in
                let ibitLength := 8 * 8 in
                if negb (FIsSmallPage cb) && (0 =? iblk) && (ibitStart <=? ibit)
                   && (ibit <? ibitStart + ibitLength * (cxeChecksumPerPage - 1))
                then
                  let? checksumExpected := FlipChecksumBit checksumExpected (ibitLength + (ibit - ibitStart)) in
                  next ibit (flips ++ [ibit]) checksumExpected
                else next ibit (flips ++ [ibit]) checksumExpected
              else next ibitCorrupted (flips ++ [ibit]) checksumExpected
          | xeChecksumFatalError => Some FixFatal
          end
      else Some (FixDone ibitCorrupted flips)
  end.

(** The page, [*pfCorrectableError] and [*pibitCorrupted], given their values
    on entry. *)
Definition TryFixPage (m : mem) (cb : Z) (pagetype : PAGETYPE) (fCorrectError : bool)
    (fCorrectableError : bool) (ibitCorrupted : Z) (checksumExpected checksumActual : PAGECHECKSUM)
  : option (mem * bool * Z) :=
  let? plan := fix_loop 6 cb 0 0 (CbBlockSize cb) ulMax []
                 [IbitNewChecksumFormatFlag pagetype; ulMax; ulMax; ulMax] checksumExpected checksumActual in
  match plan with
  | FixTooManyBlocks => Some (m, fCorrectableError, ibitCorrupted)
  | FixFatal => Some (m, false, ibitCorrupted)
  | FixDone ibit flips => Some (if fCorrectError then fold_left FlipBit flips m else m, true, s32 ibit)
  end.

Record fix_result := FixResult {
  fr_page : mem;
  fr_checksumExpected : PAGECHECKSUM;
  fr_checksumActual : PAGECHECKSUM;
  fr_fCorrectableError : bool;
  fr_ibitCorrupted : Z
}.

(** [errFaultInjection] is the result of [ErrFaultInjection( 35349 )], which
    is success (0) in a build without fault injection. *)
Definition ChecksumAndPossiblyFixPage (errFaultInjection : Z) (m : mem) (cb : Z) (pagetype : PAGETYPE)
    (pgno : Z) (fCorrectError : bool) : option fix_result :=
  let checksumExpected := ChecksumFromPage m cb pagetype in
  let? (_, checksumActual) := ComputePageChecksum m cb pagetype pgno false in
  let fNewChecksumFormat := FPageHasNewChecksumFormat m pagetype in
  if negb (pgck_eqb checksumActual checksumExpected) && fNewChecksumFormat then
    let? (m, fCorrectableError, ibitCorrupted) :=
      TryFixPage m cb pagetype fCorrectError false (-1) checksumExpected checksumActual in
    if fCorrectError && fCorrectableError then
      let checksumExpected := ChecksumFromPage m cb pagetype in
      let? (m, checksumActual) := ComputePageChecksum m cb pagetype pgno true in
      Some (FixResult m checksumExpected checksumActual fCorrectableError ibitCorrupted)
    else Some (FixResult m checksumExpected checksumActual fCorrectableError ibitCorrupted)
  else if negb (errFaultInjection =? 0) then
    Some (FixResult m checksumExpected checksumActual true 1066)
  else Some (FixResult m checksumExpected checksumActual false (-1)).
End Routines.
