(* ===== verification/ChecksumErrors.v ===== *)
(** * What the ECC code detects and corrects

    The new-format checksum is linear: flipping a data bit of a block changes
    it by a fixed value, [delta], whatever the rest of the block.  The verdict
    of [FECCErrorIsCorrectable] and the bit [IbitCorrupted] finds depend only
    on the difference (the syndrome) of the two checksums, so the behaviour on
    an error pattern is the behaviour on the exclusive or of its deltas. *)

From Stdlib Require Import ZArith List Lia Bool.
From S2P Require Import Prelude Bits Mem Checksum ChecksumEcc ChecksumVariants PageChecksum.
Import ListNotations.

(** ** Syndromes *)

Lemma u32_land x : u32 x = x .& Z.ones 32.
Proof. rewrite Z.land_ones by lia. reflexivity. Qed.

Lemma lxor_land_r a b c : (a .& c) ^^ (b .& c) = (a ^^ b) .& c.
Proof.
  apply Z.bits_inj'; intros k _. rewrite !Z.land_spec, !Z.lxor_spec, !Z.land_spec.
  destruct (Z.testbit a k), (Z.testbit b k), (Z.testbit c k); reflexivity.
Qed.

Lemma DwECC_lxor a b :
  DwECCChecksumFromXEChecksum a ^^ DwECCChecksumFromXEChecksum b = DwECCChecksumFromXEChecksum (a ^^ b).
Proof. unfold DwECCChecksumFromXEChecksum. now rewrite !u32_land, lxor_land_r, Z.shiftr_lxor. Qed.

Lemma DwXOR_lxor a b :
  DwXORChecksumFromXEChecksum a ^^ DwXORChecksumFromXEChecksum b = DwXORChecksumFromXEChecksum (a ^^ b).
Proof. unfold DwXORChecksumFromXEChecksum. now rewrite !u32_land, !lxor_land_r. Qed.

(** The verdict and the located bit as functions of the syndrome. *)
Definition correctable (cb s : Z) : bool := FECCErrorIsCorrectable cb 0 s.
Definition located_bit (cb s : Z) : Z := IbitCorrupted cb 0 s.

Lemma FECC_syndrome cb e a : FECCErrorIsCorrectable cb e a = correctable cb (a ^^ e).
Proof.
  unfold correctable, FECCErrorIsCorrectable, FECCErrorIsCorrectable_dw.
  now rewrite !DwECC_lxor, !DwXOR_lxor, !Z.lxor_0_r.
Qed.

Lemma Ibit_syndrome cb e a : IbitCorrupted cb e a = located_bit cb (a ^^ e).
Proof.
  unfold located_bit, IbitCorrupted, IbitCorrupted_dw. now rewrite !DwECC_lxor, Z.lxor_0_r.
Qed.

Lemma DwECC_pack lo hi : 0 <= lo < 2 ^ 32 -> 0 <= hi < 2 ^ 32 -> DwECCChecksumFromXEChecksum (pack lo hi) = hi.
Proof.
  intros Hlo Hhi. unfold DwECCChecksumFromXEChecksum, pack.
  rewrite Z.shiftr_div_pow2, Z.add_comm, Z.div_add, Z.div_small, Z.add_0_l by lia. apply u32_small; lia.
Qed.

Lemma DwXOR_pack lo hi : 0 <= lo < 2 ^ 32 -> DwXORChecksumFromXEChecksum (pack lo hi) = lo.
Proof.
  intros Hlo. unfold DwXORChecksumFromXEChecksum, pack. change 0xffffffff with (Z.ones 32).
  rewrite Z.land_ones, Z.add_comm, Z.mod_add, Z.mod_small by lia. apply u32_small; lia.
Qed.

Lemma Make_pack ecc x pgno :
  0 <= ecc < 2 ^ 32 -> 0 <= x < 2 ^ 32 -> 0 <= pgno < 2 ^ 32 ->
  MakeChecksumFromECCXORAndPgno ecc x pgno = pack (x ^^ pgno) ecc.
Proof.
  intros He Hx Hp. unfold MakeChecksumFromECCXORAndPgno.
  pose proof (lxor_range 32 x pgno Hx Hp) as Hr.
  rewrite Z.shiftl_mul_pow2, u64_small by lia. apply Z.bits_inj'; intros k Hk.
  rewrite Z.lor_spec, testbit_pack by auto. rewrite <- (Z.add_0_r (ecc * 2 ^ 32)), testbit_shl_add by lia.
  destruct (Z.ltb_spec k 32); [now rewrite Z.testbit_0_l|].
  now rewrite (testbit_high 32 (x ^^ pgno)), orb_false_r by lia.
Qed.

(** ** Flipping a bit *)

Lemma u8_shiftl1 k : 0 <= k < 8 -> u8 (Z.shiftl 1 k) = 2 ^ k.
Proof.
  intros Hk. rewrite Z.shiftl_mul_pow2, Z.mul_1_l by lia. apply Z.mod_small.
  split; [lia|]. change 256 with (2 ^ 8). apply Z.pow_lt_mono_r; lia.
Qed.

Lemma pow2_range w k : 0 <= k < w -> 0 <= 2 ^ k < 2 ^ w.
Proof. intros. split; [lia|]. apply Z.pow_lt_mono_r; lia. Qed.

Section Flip.
Variables (m : mem) (i : Z).
Hypothesis Hm : mem_ok m.
Hypothesis Hi : 0 <= i.

Lemma FlipBit_at a : FlipBit m i a = if a =? i / 8 then m a ^^ 2 ^ (i mod 8) else m a.
Proof.
  unfold FlipBit, store8. case_cmp; [|reflexivity]. subst a.
  assert (0 <= i mod 8 < 8) by (apply Z.mod_pos_bound; lia).
  rewrite u8_shiftl1 by auto. change 256 with (2 ^ 8). apply Z.mod_small.
  apply lxor_range; [apply Hm | now apply pow2_range].
Qed.

Lemma FlipBit_ok : mem_ok (FlipBit m i).
Proof. unfold FlipBit; auto with ese. Qed.

Lemma testbit_FlipBit a k :
  0 <= k < 8 -> Z.testbit (FlipBit m i a) k = xorb (Z.testbit (m a) k) (8 * a + k =? i).
Proof.
  intros Hk. rewrite FlipBit_at. destruct (Z.eqb_spec a (i / 8)).
  - rewrite Z.lxor_spec, testbit_pow2 by zlia. f_equal. case_cmp; zlia.
  - destruct (Z.eqb_spec (8 * a + k) i); [zlia|]. now rewrite xorb_false_r.
Qed.

Lemma load32_FlipBit a :
  load32 (FlipBit m i) a
  = load32 m a ^^ (if (8 * a <=? i) && (i <? 8 * a + 32) then 2 ^ (i - 8 * a) else 0).
Proof.
  assert (R : 0 <= (if (8 * a <=? i) && (i <? 8 * a + 32) then 2 ^ (i - 8 * a) else 0) < 2 ^ 32)
    by (case_cmp; cbn [andb]; try (split; [lia | reflexivity]); apply pow2_range; lia).
  apply bits_eq32; [apply load32_range, FlipBit_ok | apply lxor_range; auto; apply load32_range, Hm |].
  intros k Hk. rewrite Z.lxor_spec, !testbit_load32 by auto using FlipBit_ok.
  rewrite testbit_FlipBit by zlia. f_equal.
  destruct (Z.leb_spec (8 * a) i), (Z.ltb_spec i (8 * a + 32)); cbn [andb];
    rewrite ?testbit_pow2, ?Z.testbit_0_l by lia; case_cmp; zlia.
Qed.

Lemma load64_FlipBit a :
  load64 (FlipBit m i) a
  = load64 m a ^^ (if (8 * a <=? i) && (i <? 8 * a + 64) then 2 ^ (i - 8 * a) else 0).
Proof.
  assert (P : forall m' a', load64 m' a' = pack (load32 m' a') (load32 m' (a' + 4)))
    by (intros; unfold load64, pack; change (2 ^ 32) with 4294967296; lia).
  rewrite !P, !load32_FlipBit.
  set (b0 := if (8 * a <=? i) && (i <? 8 * a + 32) then 2 ^ (i - 8 * a) else 0).
  set (b1 := if (8 * (a + 4) <=? i) && (i <? 8 * (a + 4) + 32) then 2 ^ (i - 8 * (a + 4)) else 0).
  assert (R0 : 0 <= b0 < 2 ^ 32)
    by (unfold b0; case_cmp; cbn [andb]; try (split; [lia | reflexivity]); apply pow2_range; lia).
  rewrite <- pack_lxor by (auto; apply load32_range, Hm). f_equal.
  unfold pack, b0, b1. case_cmp; cbn [andb]; try lia.
  replace (i - 8 * a) with ((i - 8 * (a + 4)) + 32) by lia. rewrite Z.pow_add_r by lia. lia.
Qed.
End Flip.

(** Flipping the same bit again restores the memory. *)
Lemma FlipBit_invol m i : mem_ok m -> 0 <= i -> mem_eq (FlipBit (FlipBit m i) i) m.
Proof.
  intros Hm Hi a. rewrite !FlipBit_at by auto using FlipBit_ok.
  case_cmp; [|reflexivity]. now rewrite Z.lxor_assoc, Z.lxor_nilpotent, Z.lxor_0_r.
Qed.

(** ** The checksum of a flipped block *)

Lemma zxsum_single n k v : (k < n)%nat -> zxsum n (fun j => if (j =? k)%nat then v else 0) = v.
Proof.
  intros Hk. apply Z.bits_inj'; intros b _. rewrite testbit_zxsum, (xsum_single _ _ k Hk).
  - now rewrite Nat.eqb_refl.
  - intros j _ Hj. destruct (Nat.eqb_spec j k); [contradiction | apply Z.testbit_0_l].
Qed.

Lemma hsiao_ecc_flip n b k :
  (k < n)%nat ->
  hsiao_ecc n (fun j => xorb (b j) (j =? k)%nat) = hsiao_ecc n b ^^ ecc_index (Z.of_nat n) (Z.of_nat k).
Proof.
  intros Hk. unfold hsiao_ecc. rewrite <- (zxsum_single n k (ecc_index _ _) Hk), <- zxsum_lxor.
  apply zxsum_ext; intros j _. destruct (Nat.eqb_spec j k) as [->|].
  - destruct (b k); cbn [xorb]; [now rewrite Z.lxor_nilpotent | now rewrite Z.lxor_0_l].
  - now rewrite xorb_false_r, Z.lxor_0_r.
Qed.

(** The change of the checksum of an [nbits]-bit block when bit [i] flips. *)
Definition delta (nbits i : Z) : Z := pack (2 ^ (i mod 32)) (ecc_index nbits i).

(** Bit [i] of memory is a checksummed bit of the block. *)
Definition covers (pb cb : Z) (fHeaderBlock : bool) (i : Z) : Prop :=
  8 * pb <= i < 8 * (pb + cb) /\ (fHeaderBlock = true -> 64 <= i - 8 * pb).

Section Block.
Variables (m : mem) (pb cb pgno : Z) (fHeaderBlock : bool).
Hypothesis Hm : mem_ok m.
Hypothesis Hcb : block_size cb.
Hypothesis Hpgno : 0 <= pgno < 2 ^ 32.

Lemma block_xor_range (m' : mem) :
  mem_ok m' -> 0 <= zxsum (Z.to_nat (cb / 4)) (block_word m' pb fHeaderBlock) < 2 ^ 32.
Proof. intros. apply zxsum_range; [intros; now apply block_word_range | lia]. Qed.

Lemma block_ecc_range (m' : mem) :
  mem_ok m' -> 0 <= hsiao_ecc (Z.to_nat (8 * cb)) (data_bit m' pb fHeaderBlock) < 2 ^ 32.
Proof.
  intros Hm'. destruct (block_size_params cb Hcb) as (L & nw & Hbp).
  rewrite (bp_8cb _ _ _ Hbp).
  rewrite (hsiao_ecc_ext _ _ _ (fun i _ => data_bit_word m' pb fHeaderBlock Hm' i)).
  apply (hsiao_range L); [destruct Hbp; lia | apply (bp_nw _ _ _ Hbp)].
Qed.

Lemma new_format_spec_pack (m' : mem) : mem_ok m' ->
  new_format_spec m' pb cb pgno fHeaderBlock
  = pack (zxsum (Z.to_nat (cb / 4)) (block_word m' pb fHeaderBlock) ^^ pgno)
         (hsiao_ecc (Z.to_nat (8 * cb)) (data_bit m' pb fHeaderBlock)).
Proof. intros. apply Make_pack; auto using block_xor_range, block_ecc_range. Qed.

Lemma block_cb : 1024 <= cb <= 8192 /\ cb mod 4 = 0.
Proof. destruct Hcb as [->|[->|[->| ->]]]; split; (lia || reflexivity). Qed.

Variable i : Z.
Hypothesis Hi : 0 <= i.

Lemma block_word_flip j :
  covers pb cb fHeaderBlock i ->
  block_word (FlipBit m i) pb fHeaderBlock j
  = block_word m pb fHeaderBlock j
    ^^ (if (j =? Z.to_nat ((i - 8 * pb) / 32))%nat then 2 ^ ((i - 8 * pb) mod 32) else 0).
Proof.
  intros [Hin Hhdr]. unfold block_word.
  destruct (fHeaderBlock && (j <? 2)%nat) eqn:E.
  - apply andb_true_iff in E as [E1 E2]. apply Nat.ltb_lt in E2. specialize (Hhdr E1).
    destruct (Nat.eqb_spec j (Z.to_nat ((i - 8 * pb) / 32))); [zlia | reflexivity].
  - unfold rgdw. rewrite load32_FlipBit by auto. f_equal.
    destruct (Nat.eqb_spec j (Z.to_nat ((i - 8 * pb) / 32))); case_cmp; cbn [andb];
      try reflexivity; try zlia. f_equal; zlia.
Qed.

Lemma data_bit_flip j :
  covers pb cb fHeaderBlock i ->
  data_bit (FlipBit m i) pb fHeaderBlock j
  = xorb (data_bit m pb fHeaderBlock j) (j =? Z.to_nat (i - 8 * pb))%nat.
Proof.
  intros [Hin Hhdr]. unfold data_bit. destruct (fHeaderBlock && (j <? 64)%nat) eqn:E.
  - apply andb_true_iff in E as [E1 E2]. apply Nat.ltb_lt in E2. specialize (Hhdr E1).
    destruct (Nat.eqb_spec j (Z.to_nat (i - 8 * pb))); [lia | reflexivity].
  - rewrite testbit_FlipBit by (auto; zlia). f_equal.
    destruct (Nat.eqb_spec j (Z.to_nat (i - 8 * pb))); case_cmp; zlia.
Qed.

Lemma ecc_index_lt k : 0 <= k < 8 * cb -> 0 <= ecc_index (8 * cb) k < 2 ^ 32.
Proof. intros. pose proof block_cb. unfold ecc_index. change (2 ^ 32) with 4294967296. lia. Qed.

Lemma new_format_spec_flip :
  covers pb cb fHeaderBlock i ->
  new_format_spec (FlipBit m i) pb cb pgno fHeaderBlock
  = new_format_spec m pb cb pgno fHeaderBlock ^^ delta (8 * cb) (i - 8 * pb).
Proof.
  intros Hc. pose proof block_cb as [B B4]. pose proof Hc as [Hin _].
  rewrite !new_format_spec_pack by auto using FlipBit_ok. unfold delta.
  rewrite pack_lxor by (try (apply pow2_range; zlia); apply lxor_range; auto using block_xor_range).
  f_equal.
  - rewrite (zxsum_ext _ _ _ (fun j _ => block_word_flip j Hc)), zxsum_lxor, zxsum_single by zlia.
    rewrite !Z.lxor_assoc. f_equal. apply Z.lxor_comm.
  - rewrite (hsiao_ecc_ext _ _ _ (fun j _ => data_bit_flip j Hc)), hsiao_ecc_flip by lia.
    now rewrite !Z2Nat.id by lia.
Qed.
End Block.

(** A block checksum depends only on the bytes of the block, without the first
    eight in a header block. *)
Lemma new_format_spec_ext m1 m2 pb cb pgno (fHeaderBlock : bool) :
  block_size cb ->
  mem_eq_on (if fHeaderBlock then pb + 8 else pb) (pb + cb) m1 m2 ->
  new_format_spec m1 pb cb pgno fHeaderBlock = new_format_spec m2 pb cb pgno fHeaderBlock.
Proof.
  intros Hcb H. pose proof (block_cb cb Hcb) as [B B4]. unfold new_format_spec. f_equal.
  - apply hsiao_ecc_ext; intros i Hi. unfold data_bit.
    destruct (fHeaderBlock && (i <? 64)%nat) eqn:E; [reflexivity|]. rewrite H; [reflexivity|].
    destruct fHeaderBlock; cbn [andb] in E; [apply Nat.ltb_ge in E|]; zlia.
  - apply zxsum_ext; intros j Hj. unfold block_word.
    destruct (fHeaderBlock && (j <? 2)%nat) eqn:E; [reflexivity|]. apply load32_ext.
    intros a Ha. apply H. destruct fHeaderBlock; cbn [andb] in E; [apply Nat.ltb_ge in E|]; zlia.
Qed.

(** ** The old format *)

Section Old.
Variables (m : mem) (cb : Z).
Hypothesis Hm : mem_ok m.
Hypothesis H0 : 0 < cb.
Hypothesis H4 : cb mod 4 = 0.

Lemma old_format_range : 0 <= old_format_spec m 0 cb < 2 ^ 32.
Proof.
  unfold old_format_spec. apply lxor_range; [lia|]. apply zxsum_range; [|lia]. intros i _.
  destruct (i <? 1)%nat; [lia|]. apply load32_range, Hm.
Qed.

Lemma old_format_ext m2 : mem_eq_on 4 cb m m2 -> old_format_spec m 0 cb = old_format_spec m2 0 cb.
Proof.
  intros H. unfold old_format_spec. f_equal. apply zxsum_ext; intros j Hj.
  destruct (Nat.ltb_spec j 1); [reflexivity|]. apply load32_ext. intros a Ha. apply H. zlia.
Qed.

Lemma old_format_flip i : 32 <= i < 8 * cb ->
  old_format_spec (FlipBit m i) 0 cb = old_format_spec m 0 cb ^^ 2 ^ (i mod 32).
Proof.
  intros Hi. unfold old_format_spec. rewrite Z.lxor_assoc. f_equal.
  rewrite <- (zxsum_single (Z.to_nat (cb / 4)) (Z.to_nat (i / 32)) (2 ^ (i mod 32))), <- zxsum_lxor by zlia.
  apply zxsum_ext; intros j Hj. unfold rgdw. rewrite load32_FlipBit by (auto; lia).
  destruct (Nat.ltb_spec j 1), (Nat.eqb_spec j (Z.to_nat (i / 32))); case_cmp; cbn [andb]; try zlia; try reflexivity.
  - do 2 f_equal. zlia.
Qed.
End Old.

(** ** Decoding *)

Lemma CbitSet_pow2 k : 0 <= k < 32 -> CbitSet (2 ^ k) = 1.
Proof.
  intros Hk. apply Z.eqb_eq. apply (enum_lt 32 (fun k => CbitSet (2 ^ k) =? 1)); [reflexivity | exact Hk].
Qed.

(** The exclusive or of the two halves of the ECC, on the bits the block uses. *)
Definition ulX (cb s : Z) : Z :=
  let dwEcc := DwECCChecksumFromXEChecksum s in
  (Z.shiftr dwEcc 16 ^^ dwEcc) .& u32 (u32 (Z.shiftl cb 3) - 1).

Lemma ulX_lxor cb a b : ulX cb (a ^^ b) = ulX cb a ^^ ulX cb b.
Proof.
  unfold ulX. rewrite lxor_land_r, <- DwECC_lxor, Z.shiftr_lxor. f_equal.
  rewrite !Z.lxor_assoc. f_equal. rewrite <- !Z.lxor_assoc. f_equal. apply Z.lxor_comm.
Qed.

Lemma correctable_unfold cb s :
  correctable cb s = (u32 (u32 (Z.shiftl cb 3) - 1) =? ulX cb s) && (1 =? CbitSet (DwXORChecksumFromXEChecksum s)).
Proof.
  unfold correctable, FECCErrorIsCorrectable, FECCErrorIsCorrectable_dw.
  rewrite DwECC_lxor, DwXOR_lxor, !Z.lxor_0_r. fold (ulX cb s). cbv zeta.
  match goal with |- (if ?b then ?x else false) = _ => change (if b then x else false) with (b && x) end.
  reflexivity.
Qed.

(** The error pattern of the flips [l]. *)
Definition syndrome (nbits : Z) (l : list Z) : Z := fold_right (fun i s => delta nbits i ^^ s) 0 l.

Section Decode.
Variable cb : Z.
Hypothesis Hcb : block_size cb.

Lemma ulMask_eq : exists L, 13 <= L <= 16 /\ 8 * cb = 2 ^ L /\ u32 (u32 (Z.shiftl cb 3) - 1) = Z.ones L.
Proof.
  destruct Hcb as [->|[->|[->| ->]]]; [exists 13 | exists 14 | exists 15 | exists 16]; repeat split; lia.
Qed.

Lemma DwECC_delta i : 0 <= i < 8 * cb -> DwECCChecksumFromXEChecksum (delta (8 * cb) i) = ecc_index (8 * cb) i.
Proof. intros. apply DwECC_pack; [apply pow2_range; zlia | now apply ecc_index_lt]. Qed.

Lemma DwXOR_delta i : DwXORChecksumFromXEChecksum (delta (8 * cb) i) = 2 ^ (i mod 32).
Proof. apply DwXOR_pack, pow2_range; zlia. Qed.

Lemma ulX_delta i : 0 <= i < 8 * cb -> ulX cb (delta (8 * cb) i) = u32 (u32 (Z.shiftl cb 3) - 1).
Proof.
  intros Hi. unfold ulX. rewrite DwECC_delta by auto.
  destruct ulMask_eq as (L & HL & E & ->). rewrite E in *.
  assert (2 ^ L <= 2 ^ 16) by (apply Z.pow_le_mono_r; lia). change (2 ^ 16) with 65536 in *.
  apply Z.bits_inj'; intros k Hk. rewrite Z.land_spec.
  destruct (Z.lt_ge_cases k L).
  - rewrite Z.ones_spec_low, andb_true_r, Z.lxor_spec, Z.shiftr_spec by lia.
    pose proof (testbit_ecc_index L ltac:(lia) 0 true i k Hi ltac:(lia) ltac:(auto)) as H1.
    pose proof (testbit_ecc_index L ltac:(lia) 0 false i k Hi ltac:(lia) ltac:(discriminate)) as H2.
    unfold hpos in *. rewrite Z.add_comm in H1. rewrite H1, H2. now destruct (Z.testbit i k).
  - rewrite Z.ones_spec_high by lia. apply andb_false_r.
Qed.

(** A single flipped bit is correctable and is located exactly. *)
Lemma correctable_delta i : 0 <= i < 8 * cb -> correctable cb (delta (8 * cb) i) = true.
Proof.
  intros Hi. rewrite correctable_unfold, ulX_delta, DwXOR_delta, CbitSet_pow2 by (auto; zlia).
  now rewrite Z.eqb_refl.
Qed.

Lemma located_bit_delta i : 0 <= i < 8 * cb -> located_bit cb (delta (8 * cb) i) = i.
Proof.
  intros Hi. unfold located_bit, IbitCorrupted, IbitCorrupted_dw.
  rewrite DwECC_lxor, Z.lxor_0_r, DwECC_delta by auto. pose proof (block_cb cb Hcb) as [B _].
  unfold ecc_index. change 0xffff with (Z.ones 16).
  rewrite Z.land_ones by lia. change (2 ^ 16) with 65536.
  rewrite Z.mod_add, Z.mod_small by lia. case_cmp; zlia.
Qed.

Lemma ulX_syndrome l :
  Forall (fun i => 0 <= i < 8 * cb) l ->
  ulX cb (syndrome (8 * cb) l) = if Nat.odd (length l) then u32 (u32 (Z.shiftl cb 3) - 1) else 0.
Proof.
  induction 1 as [|i l Hi _ IH]; [reflexivity|]. cbn [syndrome fold_right length].
  rewrite ulX_lxor. fold (syndrome (8 * cb) l). rewrite IH, ulX_delta, Nat.odd_succ, <- Nat.negb_odd by auto.
  destruct (Nat.odd (length l)); cbn [negb]; [apply Z.lxor_nilpotent | apply Z.lxor_0_r].
Qed.

Lemma ulMask_pos : 0 < u32 (u32 (Z.shiftl cb 3) - 1).
Proof. destruct ulMask_eq as (L & HL & E & ->). rewrite Z.ones_equiv. pose proof (block_cb cb Hcb). lia. Qed.

(** An even number of flips is never taken for a single one. *)
Lemma correctable_even l :
  Forall (fun i => 0 <= i < 8 * cb) l -> Nat.even (length l) = true -> correctable cb (syndrome (8 * cb) l) = false.
Proof.
  intros Hl He. rewrite correctable_unfold, ulX_syndrome, <- Nat.negb_even, He by auto. cbn [negb].
  pose proof ulMask_pos. destruct (Z.eqb_spec (u32 (u32 (Z.shiftl cb 3) - 1)) 0); [lia | reflexivity].
Qed.

(** An odd number of flips is never missed. *)
Lemma syndrome_odd l :
  Forall (fun i => 0 <= i < 8 * cb) l -> Nat.odd (length l) = true -> syndrome (8 * cb) l <> 0.
Proof.
  intros Hl Ho E. pose proof (ulX_syndrome l Hl) as H. rewrite E, Ho in H.
  pose proof ulMask_pos as Hp. rewrite <- H in Hp. vm_compute in Hp. discriminate.
Qed.

Lemma delta_inj i j : 0 <= i < 8 * cb -> 0 <= j < 8 * cb -> delta (8 * cb) i = delta (8 * cb) j -> i = j.
Proof.
  intros Hi Hj E. rewrite <- (located_bit_delta i Hi), <- (located_bit_delta j Hj). now rewrite E.
Qed.

(** Nor are two. *)
Lemma syndrome_two i j :
  0 <= i < 8 * cb -> 0 <= j < 8 * cb -> i <> j -> syndrome (8 * cb) [i; j] <> 0.
Proof.
  intros Hi Hj Hne E. cbn in E. rewrite Z.lxor_0_r in E. apply Z.lxor_eq in E.
  now apply Hne, delta_inj.
Qed.

(** One bit of the stored checksum itself: detected, not correctable. *)
Lemma correctable_stored k : 0 <= k < 64 -> correctable cb (2 ^ k) = false.
Proof.
  intros Hk. rewrite correctable_unfold. pose proof ulMask_pos.
  destruct (Z.lt_ge_cases k 32) as [Hl|Hl].
  - assert (E : ulX cb (2 ^ k) = 0).
    { unfold ulX. replace (DwECCChecksumFromXEChecksum (2 ^ k)) with 0; [reflexivity|].
      unfold DwECCChecksumFromXEChecksum. rewrite Z.shiftr_div_pow2 by lia.
      now rewrite Z.div_small by (apply pow2_range; lia). }
    rewrite E. destruct (Z.eqb_spec (u32 (u32 (Z.shiftl cb 3) - 1)) 0); [lia | reflexivity].
  - replace (DwXORChecksumFromXEChecksum (2 ^ k)) with 0; [apply andb_false_r|].
    unfold DwXORChecksumFromXEChecksum. change 0xffffffff with (Z.ones 32). rewrite Z.land_ones by lia.
    replace k with ((k - 32) + 32) by lia. rewrite Z.pow_add_r, Z.mod_mul by lia. reflexivity.
Qed.
End Decode.

(** * Verification and repair of pages

    The blocks of a page, what [ComputePageChecksum] computes over them, and
    what [ChecksumAndPossiblyFixPage] does to a page whose bits were flipped.
    An error pattern is the list of the flipped bit offsets. *)

(** ** Error patterns *)

Definition flips (l : list Z) (m : mem) : mem := fold_left FlipBit l m.

(** Whether [x] occurs an odd number of times. *)
Fixpoint odd_in (l : list Z) (x : Z) : bool :=
  match l with [] => false | i :: l' => xorb (x =? i) (odd_in l' x) end.

Lemma odd_in_app l1 l2 x : odd_in (l1 ++ l2) x = xorb (odd_in l1 x) (odd_in l2 x).
Proof. induction l1; cbn [odd_in app]; [now rewrite xorb_false_l|]. now rewrite IHl1, xorb_assoc. Qed.

Lemma odd_in_filter P l x : odd_in (filter P l) x = P x && odd_in l x.
Proof.
  induction l as [|i l IH]; cbn [filter odd_in]; [now rewrite andb_false_r|].
  destruct (Z.eqb_spec x i) as [->|Hne].
  - destruct (P i) eqn:E; cbn [odd_in]; rewrite ?Z.eqb_refl, IH, ?E; reflexivity.
  - destruct (P i); cbn [odd_in]; [destruct (Z.eqb_spec x i); [contradiction|]|];
      now rewrite IH, ?xorb_false_l.
Qed.

Lemma odd_in_none l x : ~ In x l -> odd_in l x = false.
Proof.
  induction l; cbn [odd_in In]; intros H; [reflexivity|]. destruct (Z.eqb_spec x a); [subst; tauto|].
  rewrite IHl by tauto. reflexivity.
Qed.

Section Flips.
Variable m : mem.
Hypothesis Hm : mem_ok m.

Lemma flips_ok l : mem_ok (flips l m).
Proof. revert m Hm; induction l; intros m' Hm'; [assumption|]. apply IHl, FlipBit_ok, Hm'. Qed.

Lemma testbit_flips l a k :
  Forall (fun i => 0 <= i) l -> 0 <= k < 8 ->
  Z.testbit (flips l m a) k = xorb (Z.testbit (m a) k) (odd_in l (8 * a + k)).
Proof.
  intros Hl Hk. revert m Hm; induction Hl as [|i l Hi _ IH]; intros m' Hm'; cbn [flips fold_left odd_in].
  - now rewrite xorb_false_r.
  - unfold flips in IH. rewrite IH, testbit_FlipBit by auto using FlipBit_ok. apply xorb_assoc.
Qed.
End Flips.

Lemma byte_bits a b : 0 <= a < 256 -> 0 <= b < 256 ->
  (forall k, 0 <= k < 8 -> Z.testbit a k = Z.testbit b k) -> a = b.
Proof.
  intros Ha Hb H. apply Z.bits_inj'; intros k Hk. destruct (Z.lt_ge_cases k 8); [auto|].
  now rewrite !(testbit_high 8) by lia.
Qed.

(** Flips that agree on the bits of a byte have the same effect on it. *)
Lemma flips_agree m l1 l2 a :
  mem_ok m -> Forall (fun i => 0 <= i) l1 -> Forall (fun i => 0 <= i) l2 ->
  (forall k, 0 <= k < 8 -> odd_in l1 (8 * a + k) = odd_in l2 (8 * a + k)) -> flips l1 m a = flips l2 m a.
Proof.
  intros Hm H1 H2 H. apply byte_bits; try apply flips_ok; auto.
  intros k Hk. rewrite !testbit_flips by auto. now rewrite H.
Qed.

Lemma flips_frame m l a :
  mem_ok m -> Forall (fun i => 0 <= i) l -> Forall (fun i => i < 8 * a \/ 8 * a + 8 <= i) l -> flips l m a = m a.
Proof.
  intros Hm H1 H2. apply (flips_agree m l []); auto. intros k Hk. apply odd_in_none.
  intros Hin. rewrite Forall_forall in H2. specialize (H2 _ Hin). lia.
Qed.

(** Flips that hit every bit the same number of times undo each other. *)
Lemma flips_undo m l1 l2 :
  mem_ok m -> Forall (fun i => 0 <= i) l1 -> Forall (fun i => 0 <= i) l2 ->
  (forall x, odd_in l1 x = odd_in l2 x) -> mem_eq (flips l2 (flips l1 m)) m.
Proof.
  intros Hm H1 H2 H a. change (flips l2 (flips l1 m)) with (fold_left FlipBit l2 (fold_left FlipBit l1 m)).
  rewrite <- fold_left_app. fold (flips (l1 ++ l2) m).
  apply (flips_agree m (l1 ++ l2) []); auto; [apply Forall_app; auto|].
  intros k _. rewrite odd_in_app, H. cbn. apply xorb_nilpotent.
Qed.

Definition coversb (pb cb : Z) (fHeaderBlock : bool) (i : Z) : bool :=
  (8 * pb <=? i) && (i <? 8 * (pb + cb)) && (negb fHeaderBlock || (64 <=? i - 8 * pb)).

Lemma coversb_spec pb cb h i : coversb pb cb h i = true <-> covers pb cb h i.
Proof.
  unfold coversb, covers. rewrite !andb_true_iff, orb_true_iff, negb_true_iff, Z.leb_le, Z.ltb_lt, Z.leb_le.
  destruct h; split; intros [H1 H2]; split; auto; try discriminate.
  destruct H2; [discriminate|auto].
Qed.

(** The checksum of a block changes by the syndrome of the flips it covers. *)
Lemma new_format_spec_flips m pb cb pgno h l :
  mem_ok m -> block_size cb -> 0 <= pgno < 2 ^ 32 -> 0 <= pb -> Forall (fun i => 0 <= i) l ->
  new_format_spec (flips l m) pb cb pgno h
  = new_format_spec m pb cb pgno h ^^ syndrome (8 * cb) (map (fun i => i - 8 * pb) (filter (coversb pb cb h) l)).
Proof.
  intros Hm Hcb Hp Hpb Hl. rewrite (new_format_spec_ext _ (flips (filter (coversb pb cb h) l) m)); auto.
  - assert (Hf : Forall (fun i => 0 <= i /\ covers pb cb h i) (filter (coversb pb cb h) l)).
    { apply Forall_forall; intros i Hi. apply filter_In in Hi as [H1 H2]. apply coversb_spec in H2.
      rewrite Forall_forall in Hl. auto. }
    revert Hf. generalize (filter (coversb pb cb h) l). clear l Hl. intros l Hf.
    revert m Hm; induction Hf as [|i l [Hi Hc] _ IH]; intros m Hm; cbn; [now rewrite Z.lxor_0_r|].
    unfold flips in IH. rewrite IH, new_format_spec_flip by auto using FlipBit_ok.
    rewrite Z.lxor_assoc. reflexivity.
  - intros a Ha. apply flips_agree; auto.
    + apply Forall_forall; intros i Hi. apply filter_In in Hi as [H1 H2]. rewrite Forall_forall in Hl. auto.
    + intros k Hk. rewrite odd_in_filter. replace (coversb pb cb h (8 * a + k)) with true; [reflexivity|].
      symmetry. apply coversb_spec. unfold covers. destruct h; split; try (intros; discriminate); lia.
Qed.

(** ** The blocks of a page *)

(** The page sizes the block scheme supports. *)
Definition page_sizes : list Z := [2048; 4096; 8192; 12288; 16384; 20480; 24576; 28672; 32768].
Definition page_size (cb : Z) : Prop := In cb page_sizes.

Definition nblk (cb : Z) : Z := (cb + CbBlockSize cb - 1) / CbBlockSize cb.
Definition blk_ib (cb k : Z) : Z := k * CbBlockSize cb.
Definition blk_cb (cb k : Z) : Z := Z.min (CbBlockSize cb) (cb - blk_ib cb k).

(** The checksum of block [k], and all four. *)
Definition block_spec (m : mem) (cb pgno k : Z) : Z :=
  if k <? nblk cb then new_format_spec m (blk_ib cb k) (blk_cb cb k) pgno (k =? 0) else 0.

Definition page_spec (m : mem) (cb pgno : Z) : PAGECHECKSUM :=
  [block_spec m cb pgno 0; block_spec m cb pgno 1; block_spec m cb pgno 2; block_spec m cb pgno 3].

(** Case analysis on the page size. *)
Ltac page_cases H :=
  unfold page_size, page_sizes in H; cbn [In] in H;
  destruct H as [<-|[<-|[<-|[<-|[<-|[<-|[<-|[<-|[<-|[]]]]]]]]]].

Record page_geometry (cb : Z) : Prop := {
  pg_cb : 2048 <= cb <= 32768;
  pg_mod : cb mod 128 = 0;
  pg_B : 2048 <= CbBlockSize cb <= cb;
  pg_n : 1 <= nblk cb <= 4;
  pg_last : (nblk cb - 1) * CbBlockSize cb < cb <= nblk cb * CbBlockSize cb;
  pg_blocks : forall k, 0 <= k < nblk cb -> block_size (blk_cb cb k);
  pg_small : FIsSmallPage cb = true -> nblk cb = 1
}.

Definition geometry_check (cb : Z) : bool :=
  (2048 <=? cb) && (cb <=? 32768) && (cb mod 128 =? 0) && (2048 <=? CbBlockSize cb) && (CbBlockSize cb <=? cb)
  && (1 <=? nblk cb) && (nblk cb <=? 4) && ((nblk cb - 1) * CbBlockSize cb <? cb)
  && (cb <=? nblk cb * CbBlockSize cb)
  && forallb (fun k => existsb (Z.eqb (blk_cb cb k)) [1024; 2048; 4096; 8192])
       (map Z.of_nat (seq 0 (Z.to_nat (nblk cb))))
  && (negb (FIsSmallPage cb) || (nblk cb =? 1)).

Lemma page_size_geometry cb : page_size cb -> page_geometry cb.
Proof.
  intros H. assert (C : geometry_check cb = true).
  { revert cb H. apply forallb_forall. vm_compute. reflexivity. }
  unfold geometry_check in C. rewrite !andb_true_iff, ?Z.leb_le, ?Z.ltb_lt, Z.eqb_eq in C.
  split; try tauto.
  - intros k Hk. destruct C as [[_ C] _]. pose proof (enum_lt _ _ C k ltac:(lia)) as E. cbn in E.
    rewrite !orb_true_iff, !Z.eqb_eq in E. unfold block_size. intuition discriminate.
  - intros Hs. destruct C as [_ C]. rewrite Hs in C. now apply Z.eqb_eq in C.
Qed.

Section Page.
Context `{R : ChecksumRoutines} `{!ChecksumRoutinesOk R}.
Variables (cb pgno : Z).
Hypothesis Hcb : page_size cb.
Let G := page_size_geometry cb Hcb.

Lemma FGetBit_testbit m i : mem_ok m -> 0 <= i -> FGetBit m i = Z.testbit (m (i / 8)) (i mod 8).
Proof.
  intros Hm Hi. unfold FGetBit. assert (0 <= i mod 8 < 8) by zlia. rewrite u8_shiftl1 by auto.
  rewrite <- (Z.shiftl_1_l (i mod 8)), Z.shiftl_1_l. 
  destruct (Z.testbit (m (i / 8)) (i mod 8)) eqn:E.
  - rewrite negb_true_iff, Z.eqb_neq. intros H0.
    assert (Z.testbit (m (i / 8) .& 2 ^ (i mod 8)) (i mod 8) = true)
      by (rewrite Z.land_spec, E, testbit_pow2 by lia; apply Z.eqb_refl).
    rewrite H0, Z.testbit_0_l in H1. discriminate.
  - rewrite negb_false_iff, Z.eqb_eq. apply Z.bits_inj'; intros k Hk.
    rewrite Z.land_spec, testbit_pow2, Z.testbit_0_l by lia.
    destruct (Z.eqb_spec (i mod 8) k); [subst k; now rewrite E | apply andb_false_r].
Qed.

Lemma SetBlockChecksums_ok m c : mem_ok m -> mem_ok (SetBlockChecksums m c).
Proof. intros; unfold SetBlockChecksums; auto with ese. Qed.

Lemma SetBlockChecksums_frame m c a : a < 40 \/ 64 <= a -> SetBlockChecksums m c a = m a.
Proof.
  intros. unfold SetBlockChecksums, offset_rgChecksum. now rewrite !store64_frame by lia.
Qed.

(** The page after the computation: the block checksums of a large page are
    written when [fNew] is set. *)
Definition computed_page (m : mem) (fNew : bool) : mem :=
  if fNew && negb (FIsSmallPage cb) then SetBlockChecksums m (0 :: tl (page_spec m cb pgno)) else m.

Lemma computed_page_ok m fNew : mem_ok m -> mem_ok (computed_page m fNew).
Proof. intros; unfold computed_page; destruct (_ && _); auto using SetBlockChecksums_ok. Qed.

Lemma ComputePageChecksum_spec m fNew :
  mem_ok m -> FPageHasNewChecksumFormat m databasePage = true ->
  ComputePageChecksum m cb databasePage pgno fNew
  = Some (computed_page m fNew,
          block_spec (computed_page m fNew) cb pgno 0 :: tl (page_spec m cb pgno)).
Proof.
  intros Hm Hf. unfold ComputePageChecksum. rewrite Hf. cbn [FPageHasLongChecksum].
  unfold computed_page. assert (Hok := SetBlockChecksums_ok m).
  clear G. page_cases Hcb; destruct fNew;
    cbv -[ChecksumNewFormat new_format_spec SetBlockChecksums];
    rewrite !ChecksumNewFormat_ok by (auto; unfold block_size; lia); reflexivity.
Qed.
(** ** Setting the checksum of a page *)

(** A page with the format bit whose stored checksums are its checksums. *)
Definition page_ok (m : mem) : Prop :=
  FPageHasNewChecksumFormat m databasePage = true /\
  ChecksumFromPage m cb databasePage = page_spec m cb pgno.

Hypothesis Hpgno : 0 <= pgno < 2 ^ 32.

Lemma block_spec_range m k : mem_ok m -> 0 <= k -> 0 <= block_spec m cb pgno k < 2 ^ 64.
Proof.
  intros Hm Hk. unfold block_spec. destruct (Z.ltb_spec k (nblk cb)); [|lia].
  assert (Hb := pg_blocks _ G k ltac:(lia)).
  rewrite new_format_spec_pack by auto.
  pose proof (block_ecc_range (blk_ib cb k) (blk_cb cb k) (k =? 0) Hb m Hm).
  pose proof (lxor_range 32 _ pgno (block_xor_range (blk_ib cb k) (blk_cb cb k) (k =? 0) m Hm) Hpgno).
  unfold pack. lia.
Qed.

Lemma block_spec_ext m1 m2 k :
  0 <= k -> mem_eq_on (if k =? 0 then 8 else blk_ib cb k) cb m1 m2 -> block_spec m1 cb pgno k = block_spec m2 cb pgno k.
Proof.
  intros Hk H. unfold block_spec. destruct (Z.ltb_spec k (nblk cb)); [|reflexivity].
  apply new_format_spec_ext; [apply (pg_blocks _ G); lia|].
  intros a Ha. apply H. unfold blk_cb in Ha. destruct (Z.eqb_spec k 0); [subst; unfold blk_ib in *|]; lia.
Qed.

Lemma page_spec_ext m1 m2 : mem_eq_on 8 cb m1 m2 -> page_spec m1 cb pgno = page_spec m2 cb pgno.
Proof.
  intros H. pose proof (pg_B _ G). unfold page_spec.
  rewrite (block_spec_ext m1 m2 0), (block_spec_ext m1 m2 1), (block_spec_ext m1 m2 2), (block_spec_ext m1 m2 3);
    try reflexivity; try lia; intros a Ha; apply H; cbn [Z.eqb] in Ha; unfold blk_ib in Ha; lia.
Qed.

Lemma rgChecksum_page_spec m k : 0 <= k < 4 -> rgChecksum (page_spec m cb pgno) k = block_spec m cb pgno k.
Proof.
  intros Hk. assert (k = 0 \/ k = 1 \/ k = 2 \/ k = 3) as [->|[->|[->| ->]]] by lia; reflexivity.
Qed.

Lemma SetBlockChecksums_in m1 m2 c1 c2 a :
  40 <= a < 64 -> tl c1 = tl c2 -> SetBlockChecksums m1 c1 a = SetBlockChecksums m2 c2 a.
Proof.
  intros Ha E. unfold SetBlockChecksums, rgChecksum, offset_rgChecksum.
  assert (N : forall k, nth (S k) c1 0 = nth (S k) c2 0)
    by (intros k; destruct c1, c2; cbn in E |- *; subst; try reflexivity; now destruct k).
  change (Z.to_nat 1) with 1%nat. change (Z.to_nat 2) with 2%nat. change (Z.to_nat 3) with 3%nat.
  rewrite !N.
  destruct (Z.lt_ge_cases a 48); [|destruct (Z.lt_ge_cases a 56)].
  - rewrite !(store64_frame _ (40 + 16)), !(store64_frame _ (40 + 8)) by lia. apply store64_indep; lia.
  - rewrite !(store64_frame _ (40 + 16)) by lia. apply store64_indep; lia.
  - apply store64_indep; lia.
Qed.

Lemma LongChecksumFromPage_set m xe c :
  mem_ok m -> 0 <= xe < 2 ^ 64 -> Forall (fun x => 0 <= x < 2 ^ 64) c -> length c = 3%nat ->
  (FIsSmallPage cb = true -> c = [0; 0; 0]) ->
  LongChecksumFromPage (SetLongChecksumOnPage m cb (xe :: c)) cb = xe :: c.
Proof.
  intros Hm Hxe Hc Hl Hs. unfold LongChecksumFromPage, SetLongChecksumOnPage.
  destruct c as [|c1 [|c2 [|c3 [|]]]]; try discriminate.
  inversion_clear Hc as [|? ? H1 Hc2]. inversion_clear Hc2 as [|? ? H2 Hc3]. inversion_clear Hc3 as [|? ? H3 _].
  destruct (FIsSmallPage cb).
  - rewrite Hs by reflexivity. cbn [rgChecksum nth Z.to_nat]. unfold PageChecksum1.
    now rewrite load64_store64_eq, u64_small.
  - unfold SetBlockChecksums, rgChecksum, offset_rgChecksum.
    change (Z.to_nat 0) with 0%nat. change (Z.to_nat 1) with 1%nat.
    change (Z.to_nat 2) with 2%nat. change (Z.to_nat 3) with 3%nat. cbn [nth].
    rewrite load64_store64_eq, !(load64_store64_ne _ (40 + 16)) by lia.
    rewrite load64_store64_eq, !(load64_store64_ne _ (40 + 8)) by lia.
    rewrite load64_store64_eq, !(load64_store64_ne _ 40), load64_store64_eq by lia.
    now rewrite !u64_small.
Qed.
Lemma SetBit_format_at m a :
  mem_ok m -> SetNewChecksumFormatFlag m databasePage a = if a =? 37 then m 37 .| 32 else m a.
Proof.
  intros Hm. unfold SetNewChecksumFormatFlag, SetBit, IbitNewChecksumFormatFlag.
  change ((9 * 32 + 13) / 8) with 37. change (u8 (Z.shiftl 1 ((9 * 32 + 13) mod 8))) with 32.
  unfold store8. case_cmp; [|reflexivity]. change 256 with (2 ^ 8). apply Z.mod_small.
  apply lor_range; [apply Hm | cbn; lia].
Qed.

Lemma SetLongChecksumOnPage_frame m c a :
  8 <= a -> FIsSmallPage cb = true \/ a < 40 \/ 64 <= a -> SetLongChecksumOnPage m cb c a = m a.
Proof.
  intros Ha Hs. unfold SetLongChecksumOnPage. destruct (FIsSmallPage cb).
  - now apply store64_frame; lia.
  - destruct Hs as [|Hs]; [discriminate|]. rewrite SetBlockChecksums_frame by lia. apply store64_frame; lia.
Qed.

Lemma computed_page_frame m fNew a :
  FIsSmallPage cb = true \/ a < 40 \/ 64 <= a -> computed_page m fNew a = m a.
Proof.
  intros Hs. unfold computed_page. destruct fNew, (FIsSmallPage cb); cbn [andb negb]; try reflexivity.
  destruct Hs; [discriminate|]. apply SetBlockChecksums_frame; lia.
Qed.

Lemma FGetBit_ext m1 m2 i : m1 (i / 8) = m2 (i / 8) -> FGetBit m1 i = FGetBit m2 i.
Proof. intros E. unfold FGetBit. now rewrite E. Qed.

Lemma page_spec_tail_ext m1 m2 :
  mem_eq_on 2048 cb m1 m2 -> tl (page_spec m1 cb pgno) = tl (page_spec m2 cb pgno).
Proof.
  intros H. pose proof (pg_B _ G). cbn [page_spec tl].
  rewrite (block_spec_ext m1 m2 1), (block_spec_ext m1 m2 2), (block_spec_ext m1 m2 3);
    try reflexivity; try lia; intros a Ha; apply H; cbn [Z.eqb] in Ha; unfold blk_ib in Ha; lia.
Qed.

Lemma block_spec_small m k : FIsSmallPage cb = true -> 0 < k -> block_spec m cb pgno k = 0.
Proof.
  intros Hs Hk. unfold block_spec. rewrite (pg_small _ G Hs). destruct (Z.ltb_spec k 1); [lia|reflexivity].
Qed.

Lemma page_spec_small m : FIsSmallPage cb = true -> tl (page_spec m cb pgno) = [0; 0; 0].
Proof. intros Hs. cbn [page_spec tl]. now rewrite !block_spec_small by (auto; lia). Qed.

(** Writing the checksums of a page makes it valid. *)
Lemma SetLongChecksum_valid m :
  mem_ok m ->
  let m2 := computed_page m true in
  let c := block_spec m2 cb pgno 0 :: tl (page_spec m cb pgno) in
  ChecksumFromPage (SetLongChecksumOnPage m2 cb c) cb databasePage
  = page_spec (SetLongChecksumOnPage m2 cb c) cb pgno.
Proof.
  intros Hm m2 c. set (m3 := SetLongChecksumOnPage m2 cb c). pose proof (pg_B _ G). pose proof (pg_cb _ G).
  assert (Hm2 : mem_ok m2) by now apply computed_page_ok.
  unfold ChecksumFromPage. cbn [FPageHasLongChecksum]. unfold m3 at 1, c at 1.
  rewrite LongChecksumFromPage_set.
  - change (page_spec m3 cb pgno) with (block_spec m3 cb pgno 0 :: tl (page_spec m3 cb pgno)).
    f_equal; [apply block_spec_ext; [lia|]|apply page_spec_tail_ext].
    + intros a Ha. cbn [Z.eqb] in Ha. unfold m3.
      destruct (Z.lt_ge_cases a 40); [now rewrite SetLongChecksumOnPage_frame by lia|].
      destruct (Z.lt_ge_cases a 64); [|now rewrite SetLongChecksumOnPage_frame by lia].
      destruct (FIsSmallPage cb) eqn:Es; [now rewrite SetLongChecksumOnPage_frame by auto with zarith|].
      unfold SetLongChecksumOnPage. unfold m2 at 1, computed_page. rewrite Es. cbn [andb negb].
      apply SetBlockChecksums_in; [lia|reflexivity].
    + intros a Ha. unfold m3, m2. now rewrite SetLongChecksumOnPage_frame, computed_page_frame by lia.
  - assumption.
  - apply block_spec_range; auto; lia.
  - cbn [page_spec tl]. repeat constructor; apply block_spec_range; auto; lia.
  - reflexivity.
  - apply page_spec_small.
Qed.

Lemma SetPageChecksum_spec m :
  mem_ok m ->
  exists m', SetPageChecksum m cb databasePage pgno = Some m' /\ mem_ok m' /\ page_ok m' /\
    forall a, 8 <= a -> FIsSmallPage cb = true \/ a < 40 \/ 64 <= a ->
      m' a = if a =? 37 then m 37 .| 32 else m a.
Proof.
  intros Hm. unfold SetPageChecksum. cbn [FPageHasLongChecksum].
  set (m1 := SetNewChecksumFormatFlag m databasePage).
  assert (Hm1 : mem_ok m1) by (unfold m1, SetNewChecksumFormatFlag, SetBit; auto with ese).
  assert (Hb : FPageHasNewChecksumFormat m1 databasePage = true).
  { unfold FPageHasNewChecksumFormat. rewrite FGetBit_testbit by (auto; cbn; lia).
    change (IbitNewChecksumFormatFlag databasePage / 8) with 37.
    change (IbitNewChecksumFormatFlag databasePage mod 8) with 5.
    unfold m1. rewrite SetBit_format_at, Z.eqb_refl, Z.lor_spec by auto. apply orb_true_r. }
  rewrite ComputePageChecksum_spec by auto. eexists. split; [reflexivity|].
  unfold SetChecksumOnPage. cbn [FPageHasLongChecksum].
  pose proof (SetLongChecksum_valid m1 Hm1) as V. cbv zeta in V.
  set (c := block_spec _ cb pgno 0 :: _) in *.
  assert (F : forall a, 8 <= a -> FIsSmallPage cb = true \/ a < 40 \/ 64 <= a ->
    SetLongChecksumOnPage (computed_page m1 true) cb c a = m1 a)
    by (intros; now rewrite SetLongChecksumOnPage_frame, computed_page_frame).
  split; [|split; [split|]].
  - unfold SetLongChecksumOnPage. pose proof (computed_page_ok m1 true Hm1).
    destruct (FIsSmallPage cb); auto using SetBlockChecksums_ok with ese.
  - etransitivity; [|exact Hb]. apply FGetBit_ext.
    change (IbitNewChecksumFormatFlag databasePage / 8) with 37. apply F; lia.
  - exact V.
  - intros a Ha Hs. rewrite F by auto. now apply SetBit_format_at.
Qed.
(** ** Repairing a page *)

(** One block: no difference, one flipped bit, or a difference the code does
    not explain. *)
Lemma FTryFixBlock_same c ibit0 e : FTryFixBlock c ibit0 e e = (xeChecksumNoError, ibit0).
Proof. unfold FTryFixBlock. now rewrite Z.eqb_refl. Qed.

Lemma lxor_syndrome e d : (e ^^ d) ^^ e = d.
Proof. rewrite Z.lxor_comm, <- Z.lxor_assoc, Z.lxor_nilpotent. apply Z.lxor_0_l. Qed.

Lemma lxor_neq e d : d <> 0 -> e <> e ^^ d.
Proof. intros Hd E. apply Hd. rewrite <- (lxor_syndrome e d), <- E. apply Z.lxor_nilpotent. Qed.

Lemma FTryFixBlock_one c ibit0 e i :
  block_size c -> 0 <= i < 8 * c -> ibit0 <> i ->
  FTryFixBlock c ibit0 e (e ^^ delta (8 * c) i) = (xeChecksumCorrectableError, i).
Proof.
  intros Hc Hi Hne. unfold FTryFixBlock.
  assert (Hd : delta (8 * c) i <> 0).
  { rewrite <- (Z.lxor_0_r (delta _ _)). apply (syndrome_odd c Hc [i]); auto. }
  destruct (Z.eqb_spec e (e ^^ delta (8 * c) i)) as [E|]; [now apply lxor_neq in E|].
  rewrite FECC_syndrome, Ibit_syndrome, lxor_syndrome, correctable_delta, located_bit_delta by auto.
  destruct (Z.eqb_spec ibit0 i); [contradiction|]. destruct (Z.ltb_spec i (8 * c)); [reflexivity|lia].
Qed.

Lemma FTryFixBlock_fatal c ibit0 e s :
  s <> 0 -> correctable c s = false -> FTryFixBlock c ibit0 e (e ^^ s) = (xeChecksumFatalError, ibit0).
Proof.
  intros Hs Hc. unfold FTryFixBlock.
  destruct (Z.eqb_spec e (e ^^ s)) as [E|]; [now apply lxor_neq in E|].
  now rewrite FECC_syndrome, lxor_syndrome, Hc.
Qed.

Section Errors.
Variable l : list Z.

(** The flips in block [k], and their syndrome. *)
Definition errs (k : Z) : list Z := filter (coversb (blk_ib cb k) (blk_cb cb k) (k =? 0)) l.
Definition err_syndrome (k : Z) : Z :=
  syndrome (8 * blk_cb cb k) (map (fun i => i - 8 * blk_ib cb k) (errs k)).

(** The flips of [n] blocks from block [k] on, in block order. *)
Fixpoint errs_from (n : nat) (k : Z) : list Z :=
  match n with O => [] | S n' => errs k ++ errs_from n' (k + 1) end.

Lemma errs_in k i : In i (errs k) -> covers (blk_ib cb k) (blk_cb cb k) (k =? 0) i.
Proof. intros H. apply filter_In in H as [_ H]. now apply coversb_spec. Qed.

(** Entering the loop at block [k]. *)
Definition pos_ib (k : Z) : Z := Z.min cb (blk_ib cb k).
Definition pos_cb (k : Z) : Z := Z.max 0 (blk_cb cb k).

Lemma pos_step k : 0 <= k < nblk cb ->
  0 < blk_cb cb k /\ pos_cb k = blk_cb cb k /\ pos_ib k = blk_ib cb k /\ 0 <= blk_ib cb k /\
  u32 (blk_ib cb k + blk_cb cb k) = pos_ib (k + 1) /\
  Z.min (u32 (cb - pos_ib (k + 1))) (blk_cb cb k) = pos_cb (k + 1) /\ blk_ib cb k + blk_cb cb k <= cb.
Proof.
  intros Hk. pose proof (pg_B _ G). pose proof (pg_cb _ G). pose proof (pg_last _ G). pose proof (pg_n _ G).
  unfold pos_cb, pos_ib, blk_cb, blk_ib.
  assert (k * CbBlockSize cb <= (nblk cb - 1) * CbBlockSize cb) by nia.
  assert (k + 1 = nblk cb \/ (k + 1) * CbBlockSize cb <= (nblk cb - 1) * CbBlockSize cb) as [E|E] by nia;
    [rewrite <- E in *|]; repeat split; rewrite ?u32_small by nia; nia.
Qed.

Lemma pos_end k : k = nblk cb -> pos_cb k = 0.
Proof. intros ->. pose proof (pg_last _ G). unfold pos_cb, blk_cb, blk_ib. lia. Qed.

Definition first (ibc : Z) (fl : list Z) : Z := if ulMax =? ibc then hd ulMax fl else ibc.

Lemma fix_loop_exit fuel k ibc fl rg E A :
  (0 < fuel)%nat -> k = nblk cb ->
  fix_loop fuel cb k (pos_ib k) (pos_cb k) ibc fl rg E A = Some (FixDone ibc fl).
Proof. intros Hf Hk. destruct fuel; [lia|]. cbn [fix_loop]. now rewrite (pos_end k Hk). Qed.

Lemma blk_bit_lt k i : 0 <= k < nblk cb -> In i (errs k) ->
  0 <= i - 8 * blk_ib cb k < 8 * blk_cb cb k /\ 0 <= i < 8 * cb.
Proof.
  intros Hk Hi. apply errs_in in Hi as [Hi _]. pose proof (pos_step k Hk). lia.
Qed.

(** Blocks after the first with at most one flip each. *)
Lemma fix_loop_tail n : forall k fuel ibc fl E A,
  1 <= k -> k + Z.of_nat n = nblk cb -> (n < fuel)%nat ->
  (forall j, k <= j < nblk cb ->
     (length (errs j) <= 1)%nat /\ rgChecksum A j = rgChecksum E j ^^ err_syndrome j) ->
  fix_loop fuel cb k (pos_ib k) (pos_cb k) ibc fl (repeat ulMax (4 - Z.to_nat k)) E A
  = Some (FixDone (first ibc (errs_from n k)) (fl ++ errs_from n k)).
Proof.
  induction n as [|n IH]; intros k fuel ibc fl E A Hk Hn Hf H.
  - rewrite fix_loop_exit by lia. cbn [errs_from]. unfold first. rewrite app_nil_r.
    do 2 f_equal. now destruct (Z.eqb_spec ulMax ibc).
  - destruct fuel as [|fuel]; [lia|]. cbn [fix_loop errs_from].
    destruct (pos_step k ltac:(lia)) as (Hpos & -> & -> & Hib & -> & -> & Hle).
    pose proof (pg_n _ G) as Hn4. pose proof (pg_cb _ G) as Hcb2. unfold cxeChecksumPerPage.
    destruct (Z.ltb_spec 0 (blk_cb cb k)); [|lia]. destruct (Z.leb_spec 4 k); [lia|].
    assert (Erg : repeat ulMax (4 - Z.to_nat k) = ulMax :: repeat ulMax (4 - Z.to_nat (k + 1))).
    { replace (4 - Z.to_nat k)%nat with (S (4 - Z.to_nat (k + 1))) by lia. reflexivity. }
    rewrite Erg. cbn [hd tl].
    destruct (H k ltac:(lia)) as [Hlen HA]. rewrite HA. unfold err_syndrome.
    destruct (errs k) as [|i [|]] eqn:Ee; [| |cbn in Hlen; lia].
    + cbn [map syndrome fold_right]. rewrite Z.lxor_0_r, FTryFixBlock_same.
      apply IH; try lia. intros j Hj. apply H. lia.
    + destruct (blk_bit_lt k i ltac:(lia)) as [Hi Hi8]; [rewrite Ee; now left|].
      cbn [map syndrome fold_right]. rewrite Z.lxor_0_r, FTryFixBlock_one
        by (try (apply (pg_blocks _ G); lia); try lia; unfold ulMax; lia).
      replace (i - 8 * blk_ib cb k + 8 * blk_ib cb k) with i by lia. rewrite u32_small by lia.
      destruct (Z.eqb_spec 0 k); [lia|]. rewrite andb_false_r. cbn [andb].
      assert (Hne : (ulMax =? i) = false) by (apply Z.eqb_neq; unfold ulMax; lia).
      assert (R1 : forall ibc', fix_loop fuel cb (k + 1) (pos_ib (k + 1)) (pos_cb (k + 1)) ibc' (fl ++ [i])
        (repeat ulMax (4 - Z.to_nat (k + 1))) E A
        = Some (FixDone (first ibc' (errs_from n (k + 1))) (fl ++ i :: errs_from n (k + 1)))).
      { intros ibc'. rewrite IH; try lia; [|intros j Hj; apply H; lia]. now rewrite <- app_assoc. }
      unfold first. cbn [app hd]. destruct (ulMax =? ibc) eqn:Eu; rewrite R1; unfold first.
      * now rewrite Hne.
      * now rewrite Eu.
Qed.

(** The change of stored block checksum [s] when bit [i] of the page flips. *)
Definition hit (i s : Z) : Z :=
  if (320 + 64 * s <=? i) && (i <? 384 + 64 * s) then 2 ^ (i - (320 + 64 * s)) else 0.

Lemma FlipChecksumBit_spec e0 e1 e2 e3 i :
  320 <= i < 512 ->
  FlipChecksumBit [e0; e1; e2; e3] (64 + (i - 320)) = Some [e0; e1 ^^ hit i 0; e2 ^^ hit i 1; e3 ^^ hit i 2].
Proof.
  intros Hi. unfold FlipChecksumBit, hit.
  assert (exists s, 0 <= s < 3 /\ 320 + 64 * s <= i < 384 + 64 * s) as (s & Hs & His)
    by (exists ((i - 320) / 64); zlia).
  replace ((64 + (i - 320)) / 64) with (1 + s) by zlia.
  replace ((64 + (i - 320)) mod 64) with (i - (320 + 64 * s)) by zlia.
  assert (s = 0 \/ s = 1 \/ s = 2) as [->|[->| ->]] by lia;
    case_cmp; try lia; cbn [andb]; rewrite !Z.lxor_0_r; reflexivity.
Qed.

Variable m : mem.
Hypothesis Hm : mem_ok m.
Hypothesis Hl : Forall (fun i => 64 <= i < 8 * cb) l.

Lemma l_nonneg : Forall (fun i => 0 <= i) l.
Proof. eapply Forall_impl; [|exact Hl]. cbn beta. intros; lia. Qed.

Lemma blk0 : blk_ib cb 0 = 0 /\ blk_cb cb 0 = CbBlockSize cb.
Proof. pose proof (pg_B _ G). unfold blk_cb, blk_ib. lia. Qed.

Lemma flips_header a : 8 <= a < CbBlockSize cb -> flips l m a = flips (errs 0) m a.
Proof.
  intros Ha. destruct blk0 as [E1 E2]. apply flips_agree; auto using l_nonneg.
  - apply Forall_forall. intros i Hi. apply errs_in in Hi as [Hi _]. lia.
  - intros k Hk. unfold errs. rewrite odd_in_filter.
    replace (coversb _ _ _ _) with true; [reflexivity|]. symmetry. apply coversb_spec.
    unfold covers. rewrite E1, E2. split; intros; lia.
Qed.

Lemma stored0_flips : load64 (flips l m) 0 = load64 m 0.
Proof.
  apply load64_ext. intros a Ha. apply flips_frame; auto using l_nonneg.
  eapply Forall_impl; [|exact Hl]. cbn beta. intros; lia.
Qed.

Definition hits (s : Z) : Z := match errs 0 with [i] => hit i s | _ => 0 end.

Lemma stored_flips s :
  (length (errs 0) <= 1)%nat -> 0 <= s < 3 ->
  load64 (flips l m) (40 + 8 * s) = load64 m (40 + 8 * s) ^^ hits s.
Proof.
  intros Hlen Hs. pose proof (pg_B _ G).
  rewrite (load64_ext _ (flips (errs 0) m)) by (intros a Ha; apply flips_header; lia).
  unfold hits. destruct (errs 0) as [|i [|]] eqn:Ee; [now rewrite Z.lxor_0_r| |cbn in Hlen; lia].
  cbn [flips fold_left]. assert (Hi : In i (errs 0)) by (rewrite Ee; now left).
  apply errs_in in Hi as [Hi _]. destruct blk0 as [E1 E2]. rewrite E1 in Hi.
  rewrite load64_FlipBit by (auto; lia). unfold hit.
  replace (8 * (40 + 8 * s)) with (320 + 64 * s) by lia.
  now replace (320 + 64 * s + 64) with (384 + 64 * s) by lia.
Qed.

Lemma block_spec_flips k :
  0 <= k < nblk cb -> block_spec (flips l m) cb pgno k = block_spec m cb pgno k ^^ err_syndrome k.
Proof.
  intros Hk. unfold block_spec. destruct (Z.ltb_spec k (nblk cb)); [|lia].
  pose proof (pos_step k Hk). apply new_format_spec_flips; auto using l_nonneg; try lia.
  now apply (pg_blocks _ G).
Qed.

Hypothesis Hv : page_ok m.

Lemma stored_spec : ChecksumFromPage m cb databasePage = page_spec m cb pgno.
Proof. apply Hv. Qed.

Lemma ChecksumFromPage_flips :
  (length (errs 0) <= 1)%nat ->
  ChecksumFromPage (flips l m) cb databasePage
  = block_spec m cb pgno 0 ::
    (if FIsSmallPage cb then [0; 0; 0]
     else [block_spec m cb pgno 1 ^^ hits 0; block_spec m cb pgno 2 ^^ hits 1; block_spec m cb pgno 3 ^^ hits 2]).
Proof.
  intros Hlen. pose proof stored_spec as S. unfold ChecksumFromPage, LongChecksumFromPage, page_spec in *.
  cbn [FPageHasLongChecksum] in *. unfold offset_rgChecksum, PageChecksum1 in *. rewrite stored0_flips.
  destruct (FIsSmallPage cb); injection S as S0 S1 S2 S3; rewrite S0; [reflexivity|].
  pose proof (stored_flips 0 Hlen ltac:(lia)) as H0. pose proof (stored_flips 1 Hlen ltac:(lia)) as H1.
  pose proof (stored_flips 2 Hlen ltac:(lia)) as H2.
  cbn [Z.add Z.mul Pos.add Pos.mul Pos.succ] in *. now rewrite H0, H1, H2, S1, S2, S3.
Qed.

Lemma format_flips : ~ In 301 l -> FPageHasNewChecksumFormat (flips l m) databasePage = true.
Proof.
  intros H301. destruct Hv as [Hf _]. unfold FPageHasNewChecksumFormat, IbitNewChecksumFormatFlag in *.
  change (9 * 32 + 13) with 301 in *. rewrite FGetBit_testbit in * by (auto using flips_ok; lia).
  rewrite testbit_flips by (auto using l_nonneg; cbn; lia).
  change (8 * (301 / 8) + 301 mod 8) with 301. rewrite odd_in_none by auto. now rewrite xorb_false_r.
Qed.

(** Every flip is in a block. *)
Lemma errs_cover i : In i l -> exists k, 0 <= k < nblk cb /\ In i (errs k).
Proof.
  intros Hi. assert (Hr : 64 <= i < 8 * cb) by (rewrite Forall_forall in Hl; now apply Hl).
  pose proof (pg_B _ G) as HB. pose proof (pg_last _ G) as HL.
  pose proof (Z.div_mod (i / 8) (CbBlockSize cb) ltac:(lia)) as D.
  pose proof (Z.mod_pos_bound (i / 8) (CbBlockSize cb) ltac:(lia)) as M.
  set (k := i / 8 / CbBlockSize cb) in *. exists k.
  assert (Hk : 0 <= k < nblk cb) by (assert (0 <= i / 8 < cb) by zlia; nia).
  split; [exact Hk|]. apply filter_In; split; [exact Hi|]. apply coversb_spec.
  unfold covers, blk_cb, blk_ib. destruct (Z.eqb_spec k 0) as [E|].
  - rewrite E in *. split; intros; zlia.
  - assert (i / 8 * 8 <= i < i / 8 * 8 + 8) by zlia. split; [nia|discriminate].
Qed.

Hypothesis H301 : ~ In 301 l.
Hypothesis Hone : forall k, 0 <= k < nblk cb -> (length (errs k) <= 1)%nat.

Definition all_errs : list Z := errs_from (Z.to_nat (nblk cb)) 0.

(** The loop after block 0, from the repaired expected checksums. *)
Lemma fix_loop_rest fuel E ibc fl :
  (4 <= fuel)%nat -> tl E = tl (page_spec m cb pgno) ->
  fix_loop fuel cb 1 (pos_ib 1) (pos_cb 1) ibc fl [ulMax; ulMax; ulMax] E (page_spec (flips l m) cb pgno)
  = Some (FixDone (first ibc (errs_from (Z.to_nat (nblk cb - 1)) 1))
                  (fl ++ errs_from (Z.to_nat (nblk cb - 1)) 1)).
Proof.
  intros Hf ET. pose proof (pg_n _ G). apply (fix_loop_tail (Z.to_nat (nblk cb - 1)) 1); try lia.
  intros j Hj. split; [apply Hone; lia|]. rewrite rgChecksum_page_spec, block_spec_flips by lia. f_equal.
  rewrite <- rgChecksum_page_spec by lia. unfold rgChecksum. replace (Z.to_nat j) with (S (Z.to_nat (j - 1))) by lia.
  destruct E; cbn [tl] in ET; [discriminate|]. now rewrite ET.
Qed.

Lemma all_errs_cons : all_errs = errs 0 ++ errs_from (Z.to_nat (nblk cb - 1)) 1.
Proof.
  pose proof (pg_n _ G). unfold all_errs. replace (Z.to_nat (nblk cb)) with (S (Z.to_nat (nblk cb - 1))) by lia.
  reflexivity.
Qed.

(** The expected checksums once a flip of a stored one is undone. *)
Lemma expected_repaired i :
  errs 0 = [i] ->
  (if negb (FIsSmallPage cb) && (320 <=? i) && (i <? 512)
   then FlipChecksumBit (ChecksumFromPage (flips l m) cb databasePage) (64 + (i - 320))
   else Some (ChecksumFromPage (flips l m) cb databasePage)) = Some (page_spec m cb pgno).
Proof.
  intros Ei. rewrite ChecksumFromPage_flips by (rewrite Ei; auto). unfold hits. rewrite Ei.
  destruct (FIsSmallPage cb) eqn:Es; cbn [negb andb].
  - now rewrite <- (page_spec_small m Es).
  - destruct (Z.leb_spec 320 i), (Z.ltb_spec i 512); cbn [andb];
      [rewrite FlipChecksumBit_spec, !Z.lxor_assoc, !Z.lxor_nilpotent, !Z.lxor_0_r by lia; reflexivity|..];
      (unfold hit; case_cmp; cbn [andb]; try lia; rewrite !Z.lxor_0_r; reflexivity).
Qed.

Lemma fix_loop_spec :
  fix_loop 6 cb 0 0 (CbBlockSize cb) ulMax [] [IbitNewChecksumFormatFlag databasePage; ulMax; ulMax; ulMax]
    (ChecksumFromPage (flips l m) cb databasePage) (page_spec (flips l m) cb pgno)
  = Some (FixDone (hd ulMax all_errs) all_errs).
Proof.
  pose proof (pg_n _ G) as Hn. destruct blk0 as [E1 E2]. pose proof (pg_B _ G) as HB. pose proof (pg_cb _ G) as Hcb2.
  destruct (pos_step 0 ltac:(lia)) as (_ & _ & _ & _ & U1 & U2 & _). rewrite E1, E2 in U1. rewrite E2 in U2.
  change (0 + 1) with 1 in *. pose proof (Hone 0 ltac:(lia)) as H0.
  set (E := ChecksumFromPage (flips l m) cb databasePage).
  assert (EE : rgChecksum E 0 = block_spec m cb pgno 0)
    by (unfold E; rewrite ChecksumFromPage_flips by auto; reflexivity).
  assert (exists fuel, 6%nat = S fuel /\ (4 <= fuel)%nat) as (fuel & -> & Hf) by (exists 5%nat; lia).
  rewrite all_errs_cons. cbn [fix_loop hd tl]. unfold cxeChecksumPerPage, offset_rgChecksum.
  destruct (Z.ltb_spec 0 (CbBlockSize cb)); [|lia]. change (4 <=? 0) with false. cbv iota.
  change (0 + 1) with 1. rewrite U1, U2, EE, rgChecksum_page_spec, block_spec_flips by lia. unfold err_syndrome.
  rewrite E1, E2. destruct (errs 0) as [|i [|]] eqn:Ee; [| |cbn in H0; lia].
  - cbn [map syndrome fold_right app]. rewrite Z.lxor_0_r, FTryFixBlock_same.
    apply fix_loop_rest; [exact Hf|].
    unfold E. rewrite ChecksumFromPage_flips by (rewrite Ee; auto). unfold hits. rewrite Ee, !Z.lxor_0_r.
    destruct (FIsSmallPage cb) eqn:Es; [|reflexivity]. now rewrite (page_spec_small m Es).
  - assert (Hin : In i (errs 0)) by (rewrite Ee; now left). destruct (blk_bit_lt 0 i ltac:(lia) Hin) as [Hi8 Hi].
    rewrite E1, E2 in Hi8. cbn [map syndrome fold_right app]. rewrite Z.lxor_0_r. change (8 * 0) with 0 in *.
    rewrite Z.sub_0_r in *. assert (Hne : 301 <> i) by (intros <-; apply H301; now apply filter_In in Hin).
    rewrite FTryFixBlock_one by (try (rewrite <- E2; apply (pg_blocks _ G)); auto; lia).
    rewrite Z.add_0_r, u32_small by lia. change (ulMax =? ulMax) with true. change (0 =? 0) with true. cbv iota.
    rewrite andb_true_r. change (8 * 40) with 320. change (320 + 8 * 8 * (4 - 1)) with 512. change (8 * 8) with 64.
    pose proof (expected_repaired i Ee) as X. fold E in X.
    assert (Hu : (ulMax =? i) = false) by (apply Z.eqb_neq; unfold ulMax; lia).
    destruct (negb (FIsSmallPage cb) && (320 <=? i) && (i <? 512));
      [rewrite X | injection X as X; rewrite X]; rewrite fix_loop_rest by (exact Hf || reflexivity); unfold first; now rewrite Hu.
Qed.

Lemma odd_in_errs_from x n : forall k,
  0 <= k -> k + Z.of_nat n <= nblk cb ->
  odd_in (errs_from n k) x
  = ((if k =? 0 then 64 else 8 * blk_ib cb k) <=? x) && (x <? 8 * pos_ib (k + Z.of_nat n)) && odd_in l x.
Proof.
  pose proof (pg_B _ G). induction n as [|n IH]; intros k Hk Hn.
  - cbn [errs_from odd_in]. rewrite Z.add_0_r. unfold pos_ib, blk_ib. destruct (Z.eqb_spec k 0); case_cmp; lia || reflexivity.
  - cbn [errs_from]. rewrite odd_in_app, IH by lia. unfold errs. rewrite odd_in_filter.
    destruct (pos_step k ltac:(lia)) as (P1 & _ & _ & P2 & P3 & _ & P4).
    rewrite u32_small in P3 by (pose proof (pg_cb _ G); lia).
    replace (k + 1 + Z.of_nat n) with (k + Z.of_nat (S n)) by lia.
    assert (pos_ib (k + 1) <= pos_ib (k + Z.of_nat (S n))) by (unfold pos_ib, blk_ib; nia).
    assert (E : 8 * pos_ib (k + 1) <= 8 * blk_ib cb (k + 1)) by (unfold pos_ib; lia).
    assert (E' : blk_ib cb (k + 1) = pos_ib (k + 1) \/ pos_ib (k + Z.of_nat (S n)) = pos_ib (k + 1))
      by (unfold pos_ib, blk_ib in *; nia).
    unfold coversb. destruct (odd_in l x); rewrite ?andb_false_r, ?andb_true_r; [|reflexivity].
    destruct (Z.eqb_spec (k + 1) 0); [lia|]. destruct (Z.eqb_spec k 0); cbn [negb orb];
      unfold blk_ib in *; case_cmp; cbn; lia || reflexivity.
Qed.

Lemma all_errs_odd x : odd_in all_errs x = odd_in l x.
Proof.
  pose proof (pg_n _ G). pose proof (pg_last _ G). unfold all_errs. rewrite odd_in_errs_from by lia.
  replace (pos_ib _) with cb by (unfold pos_ib, blk_ib; nia). cbn [Z.eqb].
  destruct (odd_in l x) eqn:E; [|apply andb_false_r]. rewrite andb_true_r.
  destruct (in_dec Z.eq_dec x l) as [Hin|Hni]; [|rewrite odd_in_none in E by exact Hni; discriminate].
  rewrite Forall_forall in Hl. apply Hl in Hin. case_cmp; lia || reflexivity.
Qed.

Lemma errs_from_nonneg n : forall k, 0 <= k -> k + Z.of_nat n <= nblk cb ->
  Forall (fun i => 0 <= i < 8 * cb) (errs_from n k).
Proof.
  induction n; intros k Hk Hn; cbn [errs_from]; [constructor|]. apply Forall_app. split; [|apply IHn; lia].
  apply Forall_forall. intros i Hi. apply (blk_bit_lt k i); [lia | exact Hi].
Qed.

Lemma all_errs_range : Forall (fun i => 0 <= i < 8 * cb) all_errs.
Proof. pose proof (pg_n _ G). apply errs_from_nonneg; lia. Qed.

Lemma restored : mem_eq (flips all_errs (flips l m)) m.
Proof.
  apply flips_undo; auto using l_nonneg; [|intros; now rewrite all_errs_odd].
  eapply Forall_impl; [|apply all_errs_range]. cbn beta. intros; lia.
Qed.

Lemma mismatch : l <> [] -> pgck_eqb (page_spec (flips l m) cb pgno) (ChecksumFromPage (flips l m) cb databasePage) = false.
Proof.
  intros Hne. pose proof (pg_n _ G). unfold pgck_eqb. destruct (list_eq_dec _ _ _) as [E|]; [exfalso|reflexivity].
  assert (exists i0, In i0 l) as [i0 Hi0] by (clear - Hne; destruct l; [contradiction | eexists; now left]).
  destruct (errs_cover i0 Hi0) as (k & Hk & Hin).
  assert (A : forall j, 0 <= j < nblk cb -> errs j <> [] -> rgChecksum (page_spec (flips l m) cb pgno) j <> block_spec m cb pgno j).
  { intros j Hj Hej. rewrite rgChecksum_page_spec, block_spec_flips by lia. intros E'. symmetry in E'. revert E'.
    apply lxor_neq. pose proof (Hone j Hj) as H1. unfold err_syndrome.
    destruct (errs j) as [|i [|]] eqn:Ee; [contradiction| |cbn in H1; lia].
    apply syndrome_odd; [now apply (pg_blocks _ G)| |reflexivity]. constructor; [|constructor].
    apply blk_bit_lt; [lia|]. rewrite Ee; now left. }
  rewrite ChecksumFromPage_flips in E by (apply Hone; lia).
  destruct (errs 0) as [|i [|]] eqn:E0; [| |pose proof (Hone 0 ltac:(lia)) as H1; rewrite E0 in H1; cbn in H1; lia].
  - apply (A k Hk); [intros Ek; rewrite Ek in Hin; contradiction|]. rewrite E. unfold hits. rewrite E0, !Z.lxor_0_r.
    rewrite <- (rgChecksum_page_spec m k) by lia. f_equal.
    destruct (FIsSmallPage cb) eqn:Es; [now rewrite <- (page_spec_small m Es)|reflexivity].
  - apply (A 0); [lia|rewrite E0; discriminate|]. rewrite E. reflexivity.
Qed.

Lemma ChecksumFromPage_ext m1 m2 : mem_eq m1 m2 ->
  ChecksumFromPage m1 cb databasePage = ChecksumFromPage m2 cb databasePage.
Proof.
  intros H. unfold ChecksumFromPage, LongChecksumFromPage. cbn [FPageHasLongChecksum].
  now rewrite !(load64_ext m1 m2) by (intros a _; apply H).
Qed.

Lemma page_ok_ext m1 m2 : mem_eq m1 m2 -> page_ok m1 -> page_ok m2.
Proof.
  intros H [H1 H2]. split.
  - rewrite <- H1. unfold FPageHasNewChecksumFormat. apply FGetBit_ext. symmetry. apply H.
  - rewrite <- (ChecksumFromPage_ext m1 m2 H), H2. apply page_spec_ext. intros a _; apply H.
Qed.

(** Recomputing the checksums of a valid page leaves it as it is. *)
Lemma computed_page_valid m1 fNew : mem_ok m1 -> page_ok m1 -> mem_eq (computed_page m1 fNew) m1.
Proof.
  intros Hm1 [_ H]. unfold computed_page. destruct (fNew && _) eqn:Ec; [|reflexivity].
  apply andb_true_iff in Ec as [_ Es]. apply negb_true_iff in Es.
  unfold ChecksumFromPage, LongChecksumFromPage, page_spec in H. cbn [FPageHasLongChecksum] in H. rewrite Es in H.
  unfold SetBlockChecksums, rgChecksum, page_spec. cbn [tl]. change (Z.to_nat 1) with 1%nat.
  change (Z.to_nat 2) with 2%nat. change (Z.to_nat 3) with 3%nat. cbn [nth].
  injection H as _ <- <- <-. unfold offset_rgChecksum. cbn [Z.add Pos.add Pos.succ].
  transitivity (store64 m1 56 (load64 m1 56)); [|now apply store64_load64].
  apply store64_cong. transitivity (store64 m1 48 (load64 m1 48)); [|now apply store64_load64].
  apply store64_cong. now apply store64_load64.
Qed.

Lemma errs_from_iff i n : forall k,
  In i (errs_from n k) <-> exists j, k <= j < k + Z.of_nat n /\ In i (errs j).
Proof.
  induction n as [|n IH]; intros k; cbn [errs_from].
  - split; [contradiction|]. intros (j & Hj & _). lia.
  - rewrite in_app_iff, IH. split.
    + intros [H|(j & Hj & H)]; [exists k | exists j]; split; auto; lia.
    + intros (j & Hj & H). destruct (Z.eq_dec j k) as [->|]; [now left|]. right. exists j; split; auto; lia.
Qed.

Lemma all_errs_in i : In i all_errs <-> In i l.
Proof.
  pose proof (pg_n _ G). unfold all_errs. rewrite errs_from_iff. split.
  - intros (j & _ & H'). now apply filter_In in H'.
  - intros Hi. destruct (errs_cover i Hi) as (k & Hk & Hin). exists k; split; auto; lia.
Qed.

Lemma hd_all_errs d : l <> [] -> hd d all_errs = hd ulMax all_errs /\ In (hd d all_errs) l.
Proof.
  intros Hne. assert (In (hd d all_errs) l /\ all_errs <> []) as [H1 H2].
  { assert (exists i0, In i0 l) as [i0 Hi0] by (clear - Hne; destruct l; [contradiction | eexists; now left]).
    apply all_errs_in in Hi0. rewrite <- all_errs_in. destruct all_errs; [contradiction|]. split; [now left|discriminate]. }
  split; [|exact H1]. destruct all_errs; [contradiction|reflexivity].
Qed.

(** The page handed back, and what is reported, when every block has at
    most one flip. *)
Lemma fixed_result fCorrectError :
  l <> [] ->
  exists r, ChecksumAndPossiblyFixPage 0 (flips l m) cb databasePage pgno fCorrectError = Some r /\
    fr_fCorrectableError r = true /\ fr_ibitCorrupted r = hd 0 all_errs /\
    if fCorrectError
    then mem_eq (fr_page r) m /\ fr_checksumExpected r = page_spec m cb pgno /\ fr_checksumActual r = page_spec m cb pgno
    else fr_page r = flips l m /\ fr_checksumExpected r <> fr_checksumActual r.
Proof.
  intros Hne. unfold ChecksumAndPossiblyFixPage.
  rewrite ComputePageChecksum_spec by auto using flips_ok, format_flips.
  change (computed_page (flips l m) false) with (flips l m).
  change (block_spec (flips l m) cb pgno 0 :: tl (page_spec (flips l m) cb pgno)) with (page_spec (flips l m) cb pgno).
  pose proof (mismatch Hne) as Hmis.
  rewrite Hmis, format_flips by auto. cbn [negb andb]. unfold TryFixPage. rewrite fix_loop_spec.
  destruct (hd_all_errs 0 Hne) as [<- Hin].
  assert (Es : s32 (hd 0 all_errs) = hd 0 all_errs).
  { rewrite Forall_forall in Hl. apply Hl in Hin. pose proof (pg_cb _ G). apply s32_small. lia. }
  rewrite Es. destruct fCorrectError; cbn [andb].
  - fold (flips all_errs (flips l m)). pose proof restored as Hr. set (m2 := flips all_errs (flips l m)) in *.
    assert (Hm2 : mem_ok m2) by now apply flips_ok, flips_ok.
    assert (Hv2 : page_ok m2) by (apply (page_ok_ext m); auto; now symmetry).
    rewrite ComputePageChecksum_spec by (auto; apply Hv2). eexists. split; [reflexivity|].
    assert (S2 : page_spec m2 cb pgno = page_spec m cb pgno) by (apply page_spec_ext; intros a _; apply Hr).
    pose proof (computed_page_valid m2 true Hm2 Hv2) as Hc.
    cbn [fr_page fr_checksumExpected fr_checksumActual fr_fCorrectableError fr_ibitCorrupted].
    split; [reflexivity|split; [reflexivity|split; [|split]]].
    + now transitivity m2.
    + rewrite <- S2. apply Hv2.
    + rewrite (block_spec_ext _ m2) by (try lia; intros a _; apply Hc). exact S2.
  - eexists. split; [reflexivity|]. cbn [fr_page fr_checksumExpected fr_checksumActual fr_fCorrectableError fr_ibitCorrupted].
    repeat split; auto. intros E0. unfold pgck_eqb in Hmis. rewrite E0 in Hmis.
    destruct (list_eq_dec _ _ _); [discriminate | contradiction].
Qed.
End Errors.

(** ** Errors that are not corrected *)

Lemma fix_loop_fatal n : forall k fuel ibc fl rg E A s,
  0 <= k -> k + Z.of_nat n < nblk cb -> (n < fuel)%nat ->
  (forall j, k <= j < k + Z.of_nat n -> rgChecksum A j = rgChecksum E j) ->
  s <> 0 -> correctable (blk_cb cb (k + Z.of_nat n)) s = false ->
  rgChecksum A (k + Z.of_nat n) = rgChecksum E (k + Z.of_nat n) ^^ s ->
  fix_loop fuel cb k (pos_ib k) (pos_cb k) ibc fl rg E A = Some FixFatal.
Proof.
  induction n as [|n IH]; intros k fuel ibc fl rg E A s Hk Hn Hf He Hs Hc HA;
    (destruct fuel as [|fuel]; [lia|]); cbn [fix_loop];
    destruct (pos_step k ltac:(lia)) as (Hpos & -> & -> & Hib & Hu1 & Hu2 & Hle); rewrite ?Hu1, ?Hu2;
    pose proof (pg_n _ G) as Hn4; unfold cxeChecksumPerPage;
    (destruct (Z.ltb_spec 0 (blk_cb cb k)); [|lia]); (destruct (Z.leb_spec 4 k); [lia|]).
  - rewrite Z.add_0_r in *. rewrite HA. now rewrite FTryFixBlock_fatal.
  - rewrite He, FTryFixBlock_same by lia. apply (IH _ _ _ _ _ _ _ s); try lia; auto.
    + intros j Hj. apply He. lia.
    + now replace (k + 1 + Z.of_nat n) with (k + Z.of_nat (S n)) by lia.
    + now replace (k + 1 + Z.of_nat n) with (k + Z.of_nat (S n)) by lia.
Qed.

(** The page is handed back as it is, with the mismatch reported. *)
Definition rejected (m : mem) (r : option fix_result) : Prop :=
  exists r', r = Some r' /\ fr_page r' = m /\ fr_fCorrectableError r' = false /\ fr_ibitCorrupted r' = -1 /\
    fr_checksumExpected r' <> fr_checksumActual r'.

Lemma fatal_result m k s fCorrectError :
  mem_ok m -> FPageHasNewChecksumFormat m databasePage = true -> 0 <= k < nblk cb ->
  (forall j, 0 <= j < k -> block_spec m cb pgno j = rgChecksum (ChecksumFromPage m cb databasePage) j) ->
  s <> 0 -> correctable (blk_cb cb k) s = false ->
  block_spec m cb pgno k = rgChecksum (ChecksumFromPage m cb databasePage) k ^^ s ->
  rejected m (ChecksumAndPossiblyFixPage 0 m cb databasePage pgno fCorrectError).
Proof.
  intros Hm Hf Hk He Hs Hc HA. unfold ChecksumAndPossiblyFixPage. pose proof (pg_n _ G).
  rewrite ComputePageChecksum_spec by auto. change (computed_page m false) with m.
  change (block_spec m cb pgno 0 :: tl (page_spec m cb pgno)) with (page_spec m cb pgno).
  assert (Hne : page_spec m cb pgno <> ChecksumFromPage m cb databasePage).
  { intros E0. apply (lxor_neq (rgChecksum (ChecksumFromPage m cb databasePage) k) s Hs).
    rewrite <- HA, <- (rgChecksum_page_spec m k) by lia. now rewrite E0. }
  replace (pgck_eqb _ _) with false by (unfold pgck_eqb; destruct (list_eq_dec _ _ _); [contradiction|reflexivity]).
  rewrite Hf. cbn [negb andb]. unfold TryFixPage. destruct blk0 as [E1 E2]. pose proof (pg_B _ G). pose proof (pg_cb _ G).
  pose proof (fix_loop_fatal (Z.to_nat k) 0 6 ulMax [] [IbitNewChecksumFormatFlag databasePage; ulMax; ulMax; ulMax]
    (ChecksumFromPage m cb databasePage) (page_spec m cb pgno) s ltac:(lia) ltac:(lia) ltac:(lia)) as F.
  rewrite Z2Nat.id, Z.add_0_l in F by lia. unfold pos_ib, pos_cb in F. rewrite E1, E2, Z.min_r, Z.max_r in F by lia.
  rewrite F; auto.
  - rewrite andb_false_r. eexists. split; [reflexivity|]. cbn. repeat split; auto.
  - intros j Hj. rewrite rgChecksum_page_spec by lia. apply He; lia.
  - now rewrite rgChecksum_page_spec by lia.
Qed.

(** A non-zero even pattern in a block, none before it. *)
Lemma even_result l m k fCorrectError :
  mem_ok m -> page_ok m -> Forall (fun i => 64 <= i < 8 * cb) l -> ~ In 301 l ->
  0 <= k < nblk cb -> (forall j, 0 <= j < k -> errs l j = []) ->
  Nat.even (length (errs l k)) = true -> err_syndrome l k <> 0 ->
  rejected (flips l m) (ChecksumAndPossiblyFixPage 0 (flips l m) cb databasePage pgno fCorrectError).
Proof.
  intros Hm Hv Hl H301 Hk Hj He Hs. pose proof (pg_n _ G) as Hn.
  assert (Est : forall j, 0 <= j <= k -> rgChecksum (ChecksumFromPage (flips l m) cb databasePage) j = block_spec m cb pgno j).
  { intros j Hjk. destruct (Z.eq_dec j 0) as [->|].
    - transitivity (load64 (flips l m) 0).
      + unfold ChecksumFromPage, LongChecksumFromPage. cbn [FPageHasLongChecksum]. now destruct (FIsSmallPage cb).
      + rewrite (stored0_flips l m Hm Hl). destruct Hv as [_ Hv]. unfold page_spec in Hv.
        unfold ChecksumFromPage, LongChecksumFromPage, PageChecksum1 in Hv. cbn [FPageHasLongChecksum] in Hv.
        destruct (FIsSmallPage cb); now injection Hv.
    - rewrite (ChecksumFromPage_flips l m Hm Hl Hv) by (rewrite Hj by lia; auto). unfold hits.
      rewrite Hj, !Z.lxor_0_r, <- rgChecksum_page_spec by lia.
      destruct (FIsSmallPage cb) eqn:Es; [pose proof (pg_small _ G Es); lia|].
      assert (j = 1 \/ j = 2 \/ j = 3) as [->|[->| ->]] by lia; reflexivity. }
  apply (fatal_result _ k (err_syndrome l k)); auto using flips_ok, format_flips.
  - intros j Hjk. rewrite Est, (block_spec_flips l m Hm Hl) by lia. unfold err_syndrome. rewrite Hj by lia.
    apply Z.lxor_0_r.
  - apply correctable_even; [now apply (pg_blocks _ G)| |now rewrite length_map].
    apply Forall_map, Forall_forall. intros i Hi. now apply (blk_bit_lt l k).
  - rewrite Est by lia. now apply block_spec_flips.
Qed.

(** A flip of the first stored checksum. *)
Lemma stored_bit_result m i fCorrectError :
  mem_ok m -> page_ok m -> 0 <= i < 64 ->
  rejected (FlipBit m i) (ChecksumAndPossiblyFixPage 0 (FlipBit m i) cb databasePage pgno fCorrectError).
Proof.
  intros Hm [Hf Hv] Hi. pose proof (pg_n _ G) as Hn. pose proof (pg_B _ G). destruct blk0 as [E1 E2].
  assert (Hfr : forall a, 8 <= a -> FlipBit m i a = m a)
    by (intros a Ha; rewrite FlipBit_at by (exact Hm || lia); destruct (Z.eqb_spec a (i / 8)); [zlia|reflexivity]).
  apply (fatal_result _ 0 (2 ^ i)); auto using FlipBit_ok; try lia.
  - rewrite <- Hf. unfold FPageHasNewChecksumFormat. apply FGetBit_ext. apply Hfr. vm_compute. discriminate.
  - apply correctable_stored; [apply (pg_blocks _ G)|]; lia.
  - rewrite (block_spec_ext (FlipBit m i) m) by (try lia; intros a Ha; cbn [Z.eqb] in Ha; apply Hfr; lia).
    assert (S : forall m', rgChecksum (ChecksumFromPage m' cb databasePage) 0 = load64 m' 0)
      by (intros; unfold ChecksumFromPage, LongChecksumFromPage; cbn [FPageHasLongChecksum]; now destruct (FIsSmallPage cb)).
    rewrite S, load64_FlipBit by (auto; lia). case_cmp; try lia. cbn [andb]. rewrite Z.mul_0_r, Z.sub_0_r.
    rewrite Z.lxor_assoc, Z.lxor_nilpotent, Z.lxor_0_r, <- S, Hv. now rewrite rgChecksum_page_spec by lia.
Qed.
End Page.
