(* ===== verification/ChecksumTheorems.v ===== *)
(** * Theorems on checksums and page repair

    The properties of the checksum code, end to end: from the page operations
    of checksumu.cxx through the run-time selection of checksum.cxx to the
    processor-specific routines. *)

From Stdlib Require Import ZArith List Lia Bool.
From S2P Require Import Prelude Bits Mem Checksum ChecksumEcc ChecksumVariants PageChecksum ChecksumErrors.
Import ListNotations.

(** ** Auxiliary facts *)

(** The block of a page that holds bit [i]. *)
Definition block_of_bit (cb i : Z) : Z := i / (8 * CbBlockSize cb).

Lemma filter_le_1 {A} (f : A -> Z) (P : A -> bool) k l :
  NoDup (map f l) -> (forall i, P i = true -> f i = k) -> (length (filter P l) <= 1)%nat.
Proof.
  intros Hnd Hk. induction l as [|a l IH]; cbn; [lia|]. cbn in Hnd. inversion_clear Hnd as [|? ? Hni Hnd'].
  destruct (P a) eqn:E; [|now apply IH]. cbn.
  assert (E0 : filter P l = []); [|rewrite E0; auto].
  destruct (filter P l) as [|b t] eqn:Ef; [reflexivity|exfalso]. apply Hni.
  assert (Hb : In b (filter P l)) by (rewrite Ef; now left). apply filter_In in Hb as [Hb Pb].
  rewrite (Hk a E), <- (Hk b Pb). now apply in_map.
Qed.

Lemma covers_block cb k i h : page_size cb -> 0 <= k < nblk cb ->
  covers (blk_ib cb k) (blk_cb cb k) h i -> block_of_bit cb i = k.
Proof.
  intros Hcb Hk [Hi _]. pose proof (page_size_geometry cb Hcb) as G. pose proof (pg_B _ G).
  unfold block_of_bit, blk_cb, blk_ib in *. symmetry. apply Z.div_unique with (r := i - 8 * CbBlockSize cb * k); lia.
Qed.

Lemma errs_one cb l k : page_size cb -> 0 <= k < nblk cb ->
  NoDup (map (block_of_bit cb) l) -> (length (errs cb l k) <= 1)%nat.
Proof.
  intros Hcb Hk Hnd. apply (filter_le_1 (block_of_bit cb) _ k); auto.
  intros i Hi. apply coversb_spec in Hi. now apply covers_block with (h := (k =? 0)).
Qed.

Lemma hd_errs_from cb l d n : forall k, errs_from cb l n k <> [] ->
  exists j, k <= j < k + Z.of_nat n /\ In (hd d (errs_from cb l n k)) (errs cb l j) /\
    forall j', k <= j' < j -> errs cb l j' = [].
Proof.
  induction n as [|n IH]; intros k Hne; cbn [errs_from] in *; [contradiction|].
  destruct (errs cb l k) as [|i t] eqn:E.
  - cbn [app] in *. destruct (IH (k + 1) Hne) as (j & Hj & Hin & Hmin). exists j. repeat split; try lia; auto.
    intros j' Hj'. destruct (Z.eq_dec j' k) as [->|]; [exact E|]. apply Hmin; lia.
  - exists k. repeat split; try lia. cbn. rewrite E. now left.
Qed.

(** The first corrected bit is in the first damaged block. *)
Lemma hd_all_errs_min cb l : page_size cb -> Forall (fun i => 64 <= i < 8 * cb) l -> l <> [] ->
  In (hd 0 (all_errs cb l)) l /\
  Forall (fun j => block_of_bit cb (hd 0 (all_errs cb l)) <= block_of_bit cb j) l.
Proof.
  intros Hcb Hl Hne. assert (H0 : 0 <= 0 < 2 ^ 32) by lia.
  destruct (hd_all_errs cb 0 Hcb H0 l Hl 0 Hne) as [_ Hin]. split; [exact Hin|].
  assert (Hne' : all_errs cb l <> []).
  { destruct l as [|i l']; [contradiction|]. intros E. rewrite <- (all_errs_in cb 0 Hcb H0 _ Hl), E in Hin. exact Hin. }
  destruct (hd_errs_from cb l 0 _ 0 Hne') as (j & Hj & Hh & Hmin). fold (all_errs cb l) in Hh.
  pose proof (pg_n _ (page_size_geometry cb Hcb)).
  rewrite (covers_block cb j _ _ Hcb ltac:(lia) (errs_in cb l j _ Hh)).
  apply Forall_forall. intros i Hi. destruct (errs_cover cb 0 Hcb H0 l Hl i Hi) as (k & Hk & Hik).
  rewrite (covers_block cb k _ _ Hcb Hk (errs_in cb l k _ Hik)).
  destruct (Z.lt_ge_cases k j) as [Hlt|]; [|lia]. rewrite Hmin in Hik by lia. contradiction.
Qed.

(** A concrete processor and page, used as witnesses. *)
Definition cpu_x64 : processor := Processor ArchX86 true true true true true.
Definition page0 : mem := fun a => (a * 7 + 3) mod 256.

Lemma page0_ok : mem_ok page0.
Proof. intros a. apply Z.mod_pos_bound. lia. Qed.

(** ** Repair *)

(** C6: on every processor and page size, flip any set of bits of a valid page
    with at most one flip per checksum block (none in the stored header
    checksum, and not the format bit): verification reports a correctable
    error, names the flipped bit of the first damaged block, and with
    correction requested hands back the original page, byte for byte, with
    matching checksums; without, it leaves the page alone. *)
Theorem one_flip_per_block_is_repaired cpu m cb pgno l fCorrectError :
  page_size cb -> 0 <= pgno < 2 ^ 32 -> mem_ok m -> page_ok cb pgno m ->
  l <> [] -> Forall (fun i => 64 <= i < 8 * cb) l -> ~ In 301 l -> NoDup (map (block_of_bit cb) l) ->
  exists r,
    ChecksumAndPossiblyFixPage (R := routines_of cpu) 0 (flips l m) cb databasePage pgno fCorrectError = Some r /\
    fr_fCorrectableError r = true /\
    In (fr_ibitCorrupted r) l /\
    Forall (fun j => block_of_bit cb (fr_ibitCorrupted r) <= block_of_bit cb j) l /\
    if fCorrectError
    then mem_eq (fr_page r) m /\ fr_checksumExpected r = fr_checksumActual r
    else fr_page r = flips l m /\ fr_checksumExpected r <> fr_checksumActual r.
Proof.
  intros Hcb Hp Hm Hv Hne Hl H301 Hnd.
  destruct (fixed_result (R := routines_of cpu) cb pgno Hcb Hp l m Hm Hl Hv H301
    (fun k Hk => errs_one cb l k Hcb Hk Hnd) fCorrectError Hne) as (r & Hr & Hc & Hi & Hpage).
  destruct (hd_all_errs_min cb l Hcb Hl Hne) as [Hin Hmin].
  exists r. rewrite Hi. repeat split; auto. destruct fCorrectError; [|exact Hpage].
  destruct Hpage as (H1 & H2 & H3). split; [exact H1|]. congruence.
Qed.

(** A valid page: [page0] with its checksum set. *)
Definition page0_set : mem :=
  match SetPageChecksum (R := routines_of cpu_x64) page0 4096 databasePage 77 with Some m => m | None => page0 end.

Lemma page0_set_ok : mem_ok page0_set /\ page_ok 4096 77 page0_set.
Proof.
  destruct (SetPageChecksum_spec (R := routines_of cpu_x64) 4096 77 ltac:(cbn; tauto) ltac:(lia) page0 page0_ok)
    as (m' & E & Hm & Hv & _).
  unfold page0_set. rewrite E. now split.
Qed.

Lemma one_flip_per_block_is_repaired_witness :
  exists r,
    ChecksumAndPossiblyFixPage (R := routines_of cpu_x64) 0 (flips [5000] page0_set) 4096 databasePage 77 true = Some r /\
    fr_fCorrectableError r = true /\ In (fr_ibitCorrupted r) [5000] /\ mem_eq (fr_page r) page0_set.
Proof.
  destruct (one_flip_per_block_is_repaired cpu_x64 page0_set 4096 77 [5000] true) as (r & Hr & Hc & Hi & _ & Hp & _).
  - cbn. tauto.
  - lia.
  - apply page0_set_ok.
  - apply page0_set_ok.
  - discriminate.
  - repeat constructor; lia.
  - cbn. lia.
  - repeat constructor. cbn. tauto.
  - exists r. auto.
Defined.

(** Two distinct flips in one block. *)
Lemma errs_pair cb i j : page_size cb -> 64 <= i < 8 * cb -> 64 <= j < 8 * cb ->
  block_of_bit cb i = block_of_bit cb j ->
  exists k, 0 <= k < nblk cb /\ errs cb [i; j] k = [i; j] /\ forall k', 0 <= k' < k -> errs cb [i; j] k' = [].
Proof.
  intros Hcb Hi Hj E. assert (H0 : 0 <= 0 < 2 ^ 32) by lia.
  assert (Hl : Forall (fun i => 64 <= i < 8 * cb) [i; j]) by auto.
  destruct (errs_cover cb 0 Hcb H0 _ Hl i ltac:(cbn; auto)) as (k & Hk & Hik).
  destruct (errs_cover cb 0 Hcb H0 _ Hl j ltac:(cbn; auto)) as (k' & Hk' & Hjk).
  pose proof (covers_block cb k i _ Hcb Hk (errs_in _ _ _ _ Hik)) as Ei.
  pose proof (covers_block cb k' j _ Hcb Hk' (errs_in _ _ _ _ Hjk)) as Ej.
  assert (k' = k) as -> by congruence. exists k. split; [exact Hk|]. split.
  - unfold errs in *. apply filter_In in Hik as [_ Pi]. apply filter_In in Hjk as [_ Pj]. cbn [filter]. now rewrite Pi, Pj.
  - intros q Hq. destruct (errs cb [i; j] q) as [|x t] eqn:Eq; [reflexivity|exfalso].
    assert (Hx : In x (errs cb [i; j] q)) by (rewrite Eq; now left).
    pose proof (covers_block cb q x _ Hcb ltac:(lia) (errs_in _ _ _ _ Hx)) as Ex.
    apply filter_In in Hx as [[->|[->|[]]] _]; lia.
Qed.

(** C7: two distinct flipped bits in the same checksum block, neither of them in the
    checksum stored in the header (the first 64 bits) nor the bit that says which
    format the page has (bit 301), are detected and never mistaken for a single one:
    the page is handed back untouched, as not correctable, with a checksum mismatch,
    whether or not correction was asked for.  Verification itself reads the excluded
    bits: [flip_of_stored_bit_is_overlooked] has a flip of one of them and one of the
    data that together are taken for a single flip. *)
Theorem two_flips_in_a_block_are_rejected cpu m cb pgno i j fCorrectError :
  page_size cb -> 0 <= pgno < 2 ^ 32 -> mem_ok m -> page_ok cb pgno m ->
  64 <= i < 8 * cb -> 64 <= j < 8 * cb -> i <> j -> i <> 301 -> j <> 301 ->
  block_of_bit cb i = block_of_bit cb j ->
  rejected (flips [i; j] m)
    (ChecksumAndPossiblyFixPage (R := routines_of cpu) 0 (flips [i; j] m) cb databasePage pgno fCorrectError).
Proof.
  intros Hcb Hp Hm Hv Hi Hj Hne Hi3 Hj3 Hb.
  destruct (errs_pair cb i j Hcb Hi Hj Hb) as (k & Hk & Ek & Hlt).
  assert (Hin : forall x, In x [i; j] -> 0 <= x - 8 * blk_ib cb k < 8 * blk_cb cb k)
    by (intros x Hx; rewrite <- Ek in Hx; apply (blk_bit_lt cb Hcb [i; j] k x Hk Hx)).
  apply (even_result (R := routines_of cpu) cb pgno Hcb Hp [i; j] m k); auto.
  - cbn. lia.
  - now rewrite Ek.
  - unfold err_syndrome. rewrite Ek. apply syndrome_two.
    + apply (pg_blocks _ (page_size_geometry cb Hcb)); lia.
    + apply Hin. cbn; auto.
    + apply Hin. cbn; auto.
    + lia.
Qed.

Lemma two_flips_in_a_block_are_rejected_witness :
  rejected (flips [5000; 70] page0_set)
    (ChecksumAndPossiblyFixPage (R := routines_of cpu_x64) 0 (flips [5000; 70] page0_set) 4096 databasePage 77 true).
Proof.
  apply (two_flips_in_a_block_are_rejected cpu_x64 page0_set 4096 77 5000 70 true);
    try lia; try apply page0_set_ok; try reflexivity. cbn. tauto.
Defined.

(** The highest bit of the stored checksum, which no data bit has a part in, and one
    bit of the data: the latter is repaired as a single flip, the former stays. *)
Lemma flip_of_stored_bit_is_overlooked : exists r,
  ChecksumAndPossiblyFixPage (R := routines_of cpu_x64) 0 (flips [63; 5000] page0_set) 4096 databasePage 77 true = Some r /\
  fr_fCorrectableError r = true /\ fr_ibitCorrupted r = 5000 /\ fr_page r 7 <> page0_set 7.
Proof.
  set (c := ChecksumAndPossiblyFixPage (R := routines_of cpu_x64) 0 (flips [63; 5000] page0_set) 4096 databasePage 77 true).
  assert (E : match c with Some r => (fr_fCorrectableError r, fr_ibitCorrupted r, fr_page r 7 =? page0_set 7) | None => (false, 0, true) end = (true, 5000, false)) by (vm_compute; reflexivity).
  destruct c as [r|]; [|discriminate]. injection E as E1 E2 E3. exists r. apply Z.eqb_neq in E3. auto.
Qed.

(** A flip of a bit of the stored (header block) checksum is detected and
    never blamed on the data: nothing is corrected, the page is untouched. *)
Theorem stored_checksum_flip_is_rejected cpu m cb pgno i fCorrectError :
  page_size cb -> 0 <= pgno < 2 ^ 32 -> mem_ok m -> page_ok cb pgno m -> 0 <= i < 64 ->
  rejected (FlipBit m i)
    (ChecksumAndPossiblyFixPage (R := routines_of cpu) 0 (FlipBit m i) cb databasePage pgno fCorrectError).
Proof. intros. now apply (stored_bit_result (R := routines_of cpu)). Qed.

Lemma stored_checksum_flip_is_rejected_witness :
  rejected (FlipBit page0_set 40)
    (ChecksumAndPossiblyFixPage (R := routines_of cpu_x64) 0 (FlipBit page0_set 40) 4096 databasePage 77 false).
Proof.
  apply (stored_checksum_flip_is_rejected cpu_x64 page0_set 4096 77 40 false); try lia; try apply page0_set_ok.
  cbn. tauto.
Defined.

(** ** Setting and verifying *)

(** C36: [SetPageChecksum] succeeds on every page size and processor; it writes
    only the checksum fields and the format bit, and the page it leaves
    verifies, with equal expected and actual checksums, on every other
    processor. *)
Theorem SetPageChecksum_then_verify cpu cpu' m cb pgno :
  page_size cb -> 0 <= pgno < 2 ^ 32 -> mem_ok m ->
  exists m' c,
    SetPageChecksum (R := routines_of cpu) m cb databasePage pgno = Some m' /\
    ChecksumPage (R := routines_of cpu') m' cb databasePage pgno = Some (c, c) /\
    mem_ok m' /\ page_ok cb pgno m' /\
    forall a, 8 <= a -> FIsSmallPage cb = true \/ a < 40 \/ 64 <= a ->
      m' a = if a =? 37 then m 37 .| 32 else m a.
Proof.
  intros Hcb Hp Hm.
  destruct (SetPageChecksum_spec (R := routines_of cpu) cb pgno Hcb Hp m Hm) as (m' & E & Hm' & Hv & Hfr).
  exists m', (page_spec m' cb pgno). repeat (split; [assumption || idtac|]); auto.
  unfold ChecksumPage. destruct Hv as [Hf Hs].
  rewrite (ComputePageChecksum_spec (R := routines_of cpu')) by auto. now rewrite Hs.
Qed.

Lemma SetPageChecksum_then_verify_witness :
  exists m' c,
    SetPageChecksum (R := routines_of cpu_x64) page0 32768 databasePage 5 = Some m' /\
    ChecksumPage (R := routines_of (Processor ArchOther false false false false false)) m' 32768 databasePage 5
      = Some (c, c).
Proof.
  destruct (SetPageChecksum_then_verify cpu_x64 (Processor ArchOther false false false false false) page0 32768 5)
    as (m' & c & H1 & H2 & _); [cbn; tauto | lia | apply page0_ok |].
  exists m', c. split; assumption.
Defined.

(** A flip of the format bit turns the page into one of the old format,
    for which no correction is attempted: the page comes back untouched and is
    never reported as correctable. *)
Theorem format_bit_flip_is_not_corrected cpu m cb pgno fCorrectError :
  page_size cb -> mem_ok m -> page_ok cb pgno m ->
  exists r,
    ChecksumAndPossiblyFixPage (R := routines_of cpu) 0 (FlipBit m 301) cb databasePage pgno fCorrectError = Some r /\
    fr_page r = FlipBit m 301 /\ fr_fCorrectableError r = false /\ fr_ibitCorrupted r = -1.
Proof.
  intros Hcb Hm [Hf _].
  assert (E : FPageHasNewChecksumFormat (FlipBit m 301) databasePage = false).
  { unfold FPageHasNewChecksumFormat, IbitNewChecksumFormatFlag in *. change (9 * 32 + 13) with 301 in *.
    rewrite FGetBit_testbit in * by (auto using FlipBit_ok; lia). rewrite testbit_FlipBit by (auto; cbn; lia).
    rewrite Hf. reflexivity. }
  unfold ChecksumAndPossiblyFixPage, ComputePageChecksum. rewrite E. cbn [FPageHasLongChecksum].
  rewrite andb_false_r. change (0 =? 0) with true. cbn [negb].
  eexists. split; [reflexivity|]. cbn [fr_page fr_fCorrectableError fr_ibitCorrupted]. auto.
Qed.

Lemma format_bit_flip_is_not_corrected_witness :
  exists r,
    ChecksumAndPossiblyFixPage (R := routines_of cpu_x64) 0 (FlipBit page0_set 301) 4096 databasePage 77 true = Some r /\
    fr_page r = FlipBit page0_set 301 /\ fr_fCorrectableError r = false /\ fr_ibitCorrupted r = -1.
Proof.
  apply (format_bit_flip_is_not_corrected cpu_x64 page0_set 4096 77 true); try apply page0_set_ok. cbn. tauto.
Defined.

(** ** Header pages: the short checksum *)

Section Header.
Context `{R : ChecksumRoutines} `{!ChecksumRoutinesOk R}.
Variables (m : mem) (cb : Z) (pagetype : PAGETYPE) (pgno : Z).
Hypothesis Hlong : FPageHasLongChecksum pagetype = false.
Hypothesis Hm : mem_ok m.
Hypothesis H0 : 0 < cb.
Hypothesis H128 : cb mod 128 = 0.

Lemma header_checksum m' fNew : mem_ok m' ->
  ComputePageChecksum m' cb pagetype pgno fNew = Some (m', PageChecksum1 (old_format_spec m' 0 cb)).
Proof. intros. unfold ComputePageChecksum. rewrite Hlong. now rewrite ChecksumOldFormat_ok. Qed.

Lemma header_stored m' : ChecksumFromPage m' cb pagetype = PageChecksum1 (load32 m' 0).
Proof. unfold ChecksumFromPage. now rewrite Hlong. Qed.

Lemma header_format m' : FPageHasNewChecksumFormat m' pagetype = false.
Proof. now destruct pagetype. Qed.

Lemma header_mod4 : cb mod 4 = 0.
Proof. zlia. Qed.

Lemma header_flip_mismatch i :
  load32 m 0 = old_format_spec m 0 cb -> 0 <= i < 8 * cb ->
  load32 (FlipBit m i) 0 <> old_format_spec (FlipBit m i) 0 cb.
Proof.
  intros E Hi. rewrite load32_FlipBit by (auto; lia). pose proof header_mod4.
  destruct (Z.lt_ge_cases i 32).
  - rewrite <- (old_format_ext m cb H (FlipBit m i)).
    + case_cmp; cbn [andb]; try lia. rewrite E, Z.mul_0_r, Z.sub_0_r. apply not_eq_sym, lxor_neq.
      pose proof (Z.pow_pos_nonneg 2 i). lia.
    + intros a Ha. rewrite FlipBit_at by (auto; lia). destruct (Z.eqb_spec a (i / 8)); [zlia|reflexivity].
  - rewrite old_format_flip by (auto; lia). rewrite <- E.
    case_cmp; cbn [andb]; try lia. rewrite Z.lxor_0_r. apply lxor_neq.
    pose proof (Z.pow_pos_nonneg 2 (i mod 32)). zlia.
Qed.
End Header.

Lemma header_set_spec cpu cpu' m cb pagetype pgno :
  FPageHasLongChecksum pagetype = false -> 0 < cb -> cb mod 128 = 0 -> mem_ok m ->
  exists m' c,
    SetPageChecksum (R := routines_of cpu) m cb pagetype pgno = Some m' /\
    ChecksumPage (R := routines_of cpu') m' cb pagetype pgno = Some (c, c) /\
    mem_ok m' /\ forall a, 4 <= a -> m' a = m a.
Proof.
  intros Hl H0 H128 Hm. unfold SetPageChecksum. rewrite Hl, (header_checksum (R := routines_of cpu)) by auto.
  unfold SetChecksumOnPage, SetShortChecksumOnPage. rewrite Hl.
  pose proof (old_format_range m cb Hm) as Hr.
  change (rgChecksum (PageChecksum1 (old_format_spec m 0 cb)) 0) with (old_format_spec m 0 cb).
  rewrite u32_small by lia. set (m' := store32 m 0 (old_format_spec m 0 cb)).
  assert (Hfr : forall a, 4 <= a -> m' a = m a) by (intros; unfold m'; apply store32_frame; lia).
  assert (Hm' : mem_ok m') by (unfold m'; auto with ese).
  exists m', (PageChecksum1 (old_format_spec m 0 cb)). repeat (split; [assumption || reflexivity|]). split; auto.
  unfold ChecksumPage. rewrite (header_checksum (R := routines_of cpu')), header_stored by auto.
  unfold m' at 1. rewrite load32_store32_eq, u32_small by lia.
  rewrite (old_format_ext m cb (header_mod4 cb H128) m'); [reflexivity|].
  intros a Ha. symmetry. apply Hfr. lia.
Qed.

(** For the page types with a short checksum (database, log and flush-map
    headers), [SetPageChecksum] writes only the first four bytes and the page
    it leaves verifies on every processor. *)
Theorem header_SetPageChecksum_then_verify cpu cpu' m cb pagetype pgno :
  FPageHasLongChecksum pagetype = false -> 0 < cb -> cb mod 128 = 0 -> mem_ok m ->
  exists m' c,
    SetPageChecksum (R := routines_of cpu) m cb pagetype pgno = Some m' /\
    ChecksumPage (R := routines_of cpu') m' cb pagetype pgno = Some (c, c) /\
    mem_ok m' /\ forall a, 4 <= a -> m' a = m a.
Proof. apply header_set_spec. Qed.

Lemma header_SetPageChecksum_then_verify_witness :
  exists m' c,
    SetPageChecksum (R := routines_of cpu_x64) page0 4096 databaseHeader 0 = Some m' /\
    ChecksumPage (R := routines_of cpu_x64) m' 4096 databaseHeader 0 = Some (c, c).
Proof.
  destruct (header_SetPageChecksum_then_verify cpu_x64 cpu_x64 page0 4096 databaseHeader 0)
    as (m' & c & H1 & H2 & _); [reflexivity | lia | reflexivity | apply page0_ok |].
  exists m', c. split; assumption.
Defined.

(** Any single flipped bit of a page with a short checksum that verified is
    detected (and not corrected). *)
Theorem header_flip_is_rejected cpu cpu' m cb pagetype pgno c i fCorrectError :
  FPageHasLongChecksum pagetype = false -> 0 < cb -> cb mod 128 = 0 -> mem_ok m ->
  ChecksumPage (R := routines_of cpu) m cb pagetype pgno = Some (c, c) -> 0 <= i < 8 * cb ->
  rejected (FlipBit m i)
    (ChecksumAndPossiblyFixPage (R := routines_of cpu') 0 (FlipBit m i) cb pagetype pgno fCorrectError).
Proof.
  intros Hl H0 H128 Hm Hv Hi. unfold ChecksumPage in Hv.
  rewrite (header_checksum (R := routines_of cpu)), header_stored in Hv by auto.
  injection Hv as E1 E2. rewrite <- E2 in E1. injection E1 as E.
  pose proof (header_flip_mismatch m cb Hm H128 i E Hi) as Hne.
  unfold ChecksumAndPossiblyFixPage.
  rewrite (header_checksum (R := routines_of cpu')), header_stored, header_format, andb_false_r by auto using FlipBit_ok.
  change (0 =? 0) with true. cbn [negb]. eexists. split; [reflexivity|].
  cbn [fr_page fr_fCorrectableError fr_ibitCorrupted fr_checksumExpected fr_checksumActual].
  repeat split; auto. intros E'. injection E' as E'. contradiction.
Qed.

Lemma header_flip_is_rejected_witness :
  exists m, rejected (FlipBit m 100)
    (ChecksumAndPossiblyFixPage (R := routines_of cpu_x64) 0 (FlipBit m 100) 4096 logfileHeader 0 true).
Proof.
  destruct (header_set_spec cpu_x64 cpu_x64 page0 4096 logfileHeader 0)
    as (m' & c & H1 & H2 & H3 & _); [reflexivity | lia | reflexivity | apply page0_ok |].
  exists m'. apply (header_flip_is_rejected cpu_x64 cpu_x64 m' 4096 logfileHeader 0 c 100 true);
    [reflexivity | lia | reflexivity | exact H3 | exact H2 | lia].
Defined.

(** ** The processor-specific routines *)

Lemma block_1024 : block_size 1024.
Proof. now left. Qed.

(** C40: every implementation of the new format, scalar, SSE, SSE2 (with and
    without POPCNT), AVX and NEON, computes the same value on every block:
    the exclusive or of the dwords (and the page number) below the
    exclusive or of the indices and complemented indices of the set bits. *)
Theorem new_format_variants_compute_the_code m pb cb pgno fHeaderBlock :
  mem_ok m -> block_size cb ->
  let code := new_format_spec m pb cb pgno fHeaderBlock in
  ChecksumNewFormatSlowly m pb cb pgno fHeaderBlock = code /\
  ChecksumNewFormatSSE m pb cb pgno fHeaderBlock = code /\
  ChecksumNewFormat64Bit m pb cb pgno fHeaderBlock = code /\
  (forall T, ChecksumNewFormatSSE2 T m pb cb pgno fHeaderBlock = code) /\
  ChecksumNewFormatAVX m pb cb pgno fHeaderBlock = code /\
  ChecksumNewFormatNEON m pb cb pgno fHeaderBlock = code.
Proof.
  intros Hm Hcb. cbv zeta.
  exact (conj (ChecksumNewFormatSlowly_spec m pb cb pgno fHeaderBlock Hm Hcb)
    (conj (ChecksumNewFormatSSE_spec m pb cb pgno fHeaderBlock Hm Hcb)
    (conj (ChecksumNewFormat64Bit_spec m pb cb pgno fHeaderBlock Hm Hcb)
    (conj (fun T => ChecksumNewFormatSSE2_spec m pb cb pgno fHeaderBlock Hm Hcb T)
    (conj (ChecksumNewFormatAVX_spec m pb cb pgno fHeaderBlock Hm Hcb)
          (ChecksumNewFormatNEON_spec m pb cb pgno fHeaderBlock Hm Hcb)))))).
Qed.

Lemma new_format_variants_compute_the_code_witness :
  ChecksumNewFormatSlowly page0 0 1024 9 true = ChecksumNewFormatAVX page0 0 1024 9 true.
Proof.
  destruct (new_format_variants_compute_the_code page0 0 1024 9 true page0_ok block_1024)
    as (-> & _ & _ & _ & -> & _). reflexivity.
Defined.

(** All old-format routines compute one value, the seed exclusive or every
    dword but the first, so the selection by processor features does not show. *)
Theorem old_format_does_not_depend_on_cpu m pb cb cpu :
  mem_ok m -> 0 < cb -> cb mod 128 = 0 ->
  ChecksumOldFormatSlowly m pb cb = old_format_spec m pb cb /\
  ChecksumOldFormat64Bit m pb cb = old_format_spec m pb cb /\
  ChecksumOldFormatSSE2 m pb cb = old_format_spec m pb cb /\
  ChecksumSelectOldFormat cpu m pb cb = old_format_spec m pb cb.
Proof.
  intros Hm H0 H128. assert (H32 : cb mod 32 = 0) by zlia.
  split; [|split; [|split]].
  - now apply ChecksumOldFormatSlowly_spec.
  - now apply ChecksumOldFormat64Bit_spec.
  - now apply ChecksumOldFormatSSE2_spec.
  - now apply ChecksumSelectOldFormat_spec.
Qed.

Lemma old_format_does_not_depend_on_cpu_witness :
  ChecksumSelectOldFormat cpu_x64 page0 0 256 = ChecksumOldFormatSlowly page0 0 256.
Proof.
  destruct (old_format_does_not_depend_on_cpu page0 0 256 cpu_x64 page0_ok eq_refl eq_refl) as (-> & _ & _ & ->).
  reflexivity.
Defined.

(** The reference routine [ChecksumNewFormatBasic] agrees with the others
    on header blocks; on any other block exactly when the first two dwords of
    the block are equal, because its XOR half leaves them out there too. *)
Theorem basic_variant_agrees_iff m pb cb pgno :
  mem_ok m -> block_size cb -> 0 <= pgno < 2 ^ 32 ->
  ChecksumNewFormatBasic m pb cb pgno true = ChecksumNewFormatSlowly m pb cb pgno true /\
  (ChecksumNewFormatBasic m pb cb pgno false = ChecksumNewFormatSlowly m pb cb pgno false
   <-> rgdw m pb 0 = rgdw m pb 1).
Proof.
  intros Hm Hcb Hp. rewrite !ChecksumNewFormatBasic_spec, !ChecksumNewFormatSlowly_spec by auto.
  split; [reflexivity|]. unfold new_format_spec. rewrite !Make_pack by auto using block_ecc_range, block_xor_range.
  set (w := fun j : nat => rgdw m pb (Z.of_nat j)). pose proof (block_cb cb Hcb).
  assert (E : zxsum (Z.to_nat (cb / 4)) (block_word m pb true)
              = (w 0%nat ^^ w 1%nat) ^^ zxsum (Z.to_nat (cb / 4)) (block_word m pb false)).
  { change (w 0%nat ^^ w 1%nat) with (zxsum 2 (block_word m pb false)). rewrite zxsum_drop by zlia. reflexivity. }
  change (rgdw m pb 0) with (w 0%nat). change (rgdw m pb 1) with (w 1%nat). rewrite E. unfold pack.
  split; intros H'.
  - assert (H2 : (w 0%nat ^^ w 1%nat) ^^ zxsum (Z.to_nat (cb / 4)) (block_word m pb false) ^^ pgno
                 = zxsum (Z.to_nat (cb / 4)) (block_word m pb false) ^^ pgno) by lia.
    rewrite Z.lxor_assoc in H2. apply Z.lxor_eq.
    rewrite <- (Z.lxor_0_r (_ ^^ w 1%nat)), <- (Z.lxor_nilpotent (zxsum (Z.to_nat (cb / 4)) (block_word m pb false) ^^ pgno)).
    rewrite <- Z.lxor_assoc, H2. reflexivity.
  - now rewrite H', Z.lxor_nilpotent, Z.lxor_0_l.
Qed.

Lemma basic_variant_agrees_iff_witness :
  ChecksumNewFormatBasic page0 0 1024 9 false <> ChecksumNewFormatSlowly page0 0 1024 9 false.
Proof.
  destruct (basic_variant_agrees_iff page0 0 1024 9 page0_ok block_1024 ltac:(lia)) as [_ H].
  rewrite H. vm_compute. discriminate.
Defined.

(** ** Error patterns of one block *)

Lemma filter_all {A} (P : A -> bool) l : Forall (fun x => P x = true) l -> filter P l = l.
Proof. induction 1; cbn; [reflexivity|]. now rewrite H, IHForall. Qed.

Lemma select_flips cpu m pb cb pgno h l :
  mem_ok m -> block_size cb -> 0 <= pgno < 2 ^ 32 -> 0 <= pb -> Forall (covers pb cb h) l ->
  ChecksumSelectNewFormat cpu (flips l m) pb cb pgno h
  = ChecksumSelectNewFormat cpu m pb cb pgno h ^^ syndrome (8 * cb) (map (fun i => i - 8 * pb) l).
Proof.
  intros Hm Hcb Hp Hpb Hl. rewrite !ChecksumSelectNewFormat_spec by auto using flips_ok.
  rewrite new_format_spec_flips; auto.
  - rewrite filter_all; [reflexivity|]. eapply Forall_impl; [|exact Hl]. intros i. apply coversb_spec.
  - eapply Forall_impl; [|exact Hl]. intros i [Hi _]. lia.
Qed.

Lemma covers_range pb cb h l :
  Forall (covers pb cb h) l -> Forall (fun i => 0 <= i < 8 * cb) (map (fun i => i - 8 * pb) l).
Proof. intros Hl. apply Forall_map. eapply Forall_impl; [|exact Hl]. intros i [Hi _]. lia. Qed.

(** For one flipped data bit of a block, the difference of the two block
    checksums is judged correctable and decoded to exactly that bit. *)
Theorem single_flip_is_located cpu m pb cb pgno h i :
  mem_ok m -> block_size cb -> 0 <= pgno < 2 ^ 32 -> 0 <= pb -> covers pb cb h i ->
  let before := ChecksumSelectNewFormat cpu m pb cb pgno h in
  let after := ChecksumSelectNewFormat cpu (FlipBit m i) pb cb pgno h in
  FECCErrorIsCorrectable cb before after = true /\ IbitCorrupted cb before after = i - 8 * pb.
Proof.
  intros Hm Hcb Hp Hpb Hc. cbv zeta.
  pose proof (select_flips cpu m pb cb pgno h [i] Hm Hcb Hp Hpb ltac:(auto)) as E.
  cbn [flips fold_left map syndrome fold_right] in E. rewrite Z.lxor_0_r in E. rewrite E.
  rewrite FECC_syndrome, Ibit_syndrome, lxor_syndrome. destruct Hc as [Hi _].
  split; [apply correctable_delta | apply located_bit_delta]; auto; lia.
Qed.

Lemma single_flip_is_located_witness :
  IbitCorrupted 1024 (ChecksumSelectNewFormat cpu_x64 page0 64 1024 9 false)
    (ChecksumSelectNewFormat cpu_x64 (FlipBit page0 700) 64 1024 9 false) = 188.
Proof.
  apply (single_flip_is_located cpu_x64 page0 64 1024 9 false 700 page0_ok block_1024);
    [lia | lia |]. split; [lia | discriminate].
Defined.

(** Whatever bits of a block flip, an odd number of flips always changes the
    checksum, and an even number is never judged correctable. *)
Theorem error_pattern_parity cpu m pb cb pgno h l :
  mem_ok m -> block_size cb -> 0 <= pgno < 2 ^ 32 -> 0 <= pb -> Forall (covers pb cb h) l ->
  let before := ChecksumSelectNewFormat cpu m pb cb pgno h in
  let after := ChecksumSelectNewFormat cpu (flips l m) pb cb pgno h in
  if Nat.odd (length l) then before <> after else FECCErrorIsCorrectable cb before after = false.
Proof.
  intros Hm Hcb Hp Hpb Hl. cbv zeta. rewrite select_flips by auto. pose proof (covers_range _ _ _ _ Hl) as Hr.
  destruct (Nat.odd (length l)) eqn:E.
  - apply lxor_neq, syndrome_odd; auto. now rewrite length_map.
  - rewrite FECC_syndrome, lxor_syndrome. apply correctable_even; auto.
    rewrite length_map, <- Nat.negb_odd, E. reflexivity.
Qed.

Lemma error_pattern_parity_witness :
  FECCErrorIsCorrectable 1024 (ChecksumSelectNewFormat cpu_x64 page0 0 1024 9 true)
    (ChecksumSelectNewFormat cpu_x64 (flips [70; 700; 71; 8000] page0) 0 1024 9 true) = false.
Proof.
  apply (error_pattern_parity cpu_x64 page0 0 1024 9 true [70; 700; 71; 8000] page0_ok block_1024); try lia.
  repeat constructor; lia.
Defined.
