(* ===== verification/Page.v ===== *)
(** * Slotted pages

    The model of CPAGE, src/dev/ese/src/inc/cpage.hxx and
    src/dev/ese/src/ese/cpage.cxx: the page header, the tag array that grows
    down from the end of the buffer, and the operations on the lines (the data
    blobs) of a page.

    [pv p] is the memory at [m_bfl.pv].  A pointer into the page is its offset
    from there; [ptag] arguments are such offsets, as are [pb] values.  The
    buffer size, the page size and the dirty bit, which the code asks
    [m_platchManager] for, are fields of the record.  A [PageEnforce],
    [Enforce] or [OnErrorEnforce] that fires terminates the process: the
    operation then has no result ([None]).  [Assert] is not compiled into the
    product and has no effect. *)

From Stdlib Require Import ZArith List Lia Bool Permutation.
From S2P Require Import Prelude Bits Mem Checksum PageChecksum.
Import ListNotations.

Record CPAGE := Page {
  pv : mem;                     (* m_bfl.pv *)
  m_pgno : Z;
  m_fSmallFormat : bool;
  m_itagMicFree : Z;
  m_ctagReserved : Z;
  cbBuffer : Z;                 (* m_platchManager->CbBuffer( m_bfl ) *)
  cbPage : Z;                   (* m_platchManager->CbPage( m_bfl ) *)
  fDirty : bool;                (* m_platchManager->FDirty( m_bfl ) *)
  fRuntimeScrubbing : bool;     (* FRuntimeScrubbingEnabled_() *)
  fResvTagFormat : bool         (* FResvTagFormatEnabled() *)
}.

Definition with_pv (p : CPAGE) (m : mem) : CPAGE :=
  Page m (m_pgno p) (m_fSmallFormat p) (m_itagMicFree p) (m_ctagReserved p) (cbBuffer p) (cbPage p) (fDirty p)
    (fRuntimeScrubbing p) (fResvTagFormat p).

Definition with_itags (p : CPAGE) (itagMicFree ctagReserved : Z) : CPAGE :=
  Page (pv p) (m_pgno p) (m_fSmallFormat p) itagMicFree ctagReserved (cbBuffer p) (cbPage p) (fDirty p)
    (fRuntimeScrubbing p) (fResvTagFormat p).

(** [m_platchManager->SetBufferSize]. *)
Definition SetBufferSize (p : CPAGE) (cb : Z) : CPAGE :=
  Page (pv p) (m_pgno p) (m_fSmallFormat p) (m_itagMicFree p) (m_ctagReserved p) cb (cbPage p) (fDirty p)
    (fRuntimeScrubbing p) (fResvTagFormat p).

(** ** The header, [PGHDR] and [PGHDR2] *)

Definition sizeof_PGHDR : Z := 40.
Definition sizeof_PGHDR2 : Z := 80.
Definition sizeof_TAG : Z := 4.

Definition dbtimeDirtied (p : CPAGE) : Z := load64 (pv p) 8.
Definition pgnoPrev (p : CPAGE) : Z := load32 (pv p) 16.
Definition pgnoNext (p : CPAGE) : Z := load32 (pv p) 20.
Definition objidFDP (p : CPAGE) : Z := load32 (pv p) 24.
Definition cbFree (p : CPAGE) : Z := load16 (pv p) 28.
Definition cbUncommittedFree (p : CPAGE) : Z := load16 (pv p) 30.
Definition ibMicFree (p : CPAGE) : Z := load16 (pv p) 32.
Definition itagState (p : CPAGE) : Z := load16 (pv p) 34.
Definition fFlags (p : CPAGE) : Z := load32 (pv p) 36.

Definition set_cbFree (p : CPAGE) (v : Z) : CPAGE := with_pv p (store16 (pv p) 28 v).
Definition set_ibMicFree (p : CPAGE) (v : Z) : CPAGE := with_pv p (store16 (pv p) 32 v).
Definition set_itagState (p : CPAGE) (v : Z) : CPAGE := with_pv p (store16 (pv p) 34 v).
Definition set_fFlags (p : CPAGE) (v : Z) : CPAGE := with_pv p (store32 (pv p) 36 v).

Definition ITAG_MIC_FREE_MASK : Z := 0x0fff.
Definition CTAG_RESERVED_MASK : Z := 0x7000.
Definition SHF_CTAG_RESERVED : Z := 12.
Definition CTAG_RESERVED_MAX : Z := 7.

Definition CbPageHeader (p : CPAGE) : Z := if m_fSmallFormat p then sizeof_PGHDR else sizeof_PGHDR2.

(** ** Reserved tags and the tag count *)

(** [InitItagState], from the header in [pv p]. *)
Definition InitItagState (p : CPAGE) : CPAGE :=
  let itagMicFree := itagState p .& ITAG_MIC_FREE_MASK in
  let ctagReserved := Z.shiftr (itagState p .& CTAG_RESERVED_MASK) SHF_CTAG_RESERVED in
  with_itags p itagMicFree (Z.max 1 ctagReserved).

Definition SetITagState_ (p : CPAGE) (itagMicFree ctagReserved : Z) : CPAGE :=
  let p := with_itags p (u16 itagMicFree) (u16 ctagReserved) in
  if fResvTagFormat p || (0 <? Z.shiftr (itagState p .& CTAG_RESERVED_MASK) SHF_CTAG_RESERVED)
  then set_itagState p (u16 (Z.shiftl ctagReserved SHF_CTAG_RESERVED .| itagMicFree))
  else set_itagState p (u16 itagMicFree).

Definition SetITagMicFree_ (p : CPAGE) (itagMicFree : Z) : CPAGE := SetITagState_ p itagMicFree (m_ctagReserved p).
Definition SetCTagReserved_ (p : CPAGE) (ctagReserved : Z) : CPAGE := SetITagState_ p (m_itagMicFree p) ctagReserved.

Definition Clines (p : CPAGE) : Z := m_itagMicFree p - m_ctagReserved p.

(** ** Pointers and sizes *)

Definition PtagFromItag_ (p : CPAGE) (itag : Z) : Z := cbBuffer p - sizeof_TAG * (itag + 1).
Definition PbFromIb_ (p : CPAGE) (ib : Z) : Z := CbPageHeader p + ib.
Definition CbTagArray_ (p : CPAGE) : Z := m_itagMicFree p * sizeof_TAG.

Definition CbAdjustForPage (p : CPAGE) : Z := u16 (u16 (cbPage p) - u16 (cbBuffer p)).
Definition CbBufferData (p : CPAGE) : Z := cbBuffer p - CbPageHeader p.
Definition CbPageData (p : CPAGE) : Z := CbBufferData p + CbAdjustForPage p.
Definition CbContiguousBufferFree_ (p : CPAGE) : Z := CbBufferData p - ibMicFree p - CbTagArray_ p.
Definition CbContiguousFree_ (p : CPAGE) : Z := CbContiguousBufferFree_ p + CbAdjustForPage p.
Definition CbPageFree (p : CPAGE) : Z := u16 (cbFree p + CbAdjustForPage p).

(** ** Tags *)

Definition mskTagFlags : Z := 0xe000.
Definition shfTagFlags : Z := 13.
Definition mskLargeTagIbCb : Z := 0x7fff.
Definition mskSmallTagIbCb : Z := 0x1fff.

Definition mskTagIbCb (fSmallFormat : bool) : Z := if fSmallFormat then mskSmallTagIbCb else mskLargeTagIbCb.

Definition TAG_Cb (p : CPAGE) (ptag : Z) : Z :=
  if m_fSmallFormat p then load16 (pv p) ptag .& mskSmallTagIbCb else load16 (pv p) ptag .& mskLargeTagIbCb.

(** [ptag->Ib( fSmallFormat )] in the memory [m]. *)
Definition PtagIb (fSmallFormat : bool) (m : mem) (ptag : Z) : Z :=
  if fSmallFormat then load16 m (ptag + 2) .& mskSmallTagIbCb else load16 m (ptag + 2) .& mskLargeTagIbCb.

Definition TAG_Ib (p : CPAGE) (ptag : Z) : Z := PtagIb (m_fSmallFormat p) (pv p) ptag.

(** In the small format the flags are in the tag, otherwise in the node. *)
Definition TAG_FFlags (p : CPAGE) (ptag : Z) : Z :=
  if m_fSmallFormat p then Z.shiftr (load16 (pv p) (ptag + 2) .& mskTagFlags) shfTagFlags
  else if 2 <=? TAG_Cb p ptag
  then Z.shiftr (load16 (pv p) (PbFromIb_ p (TAG_Ib p ptag)) .& mskTagFlags) shfTagFlags
  else 0.

(** [x &= ~msk; x |= v] on the 16-bit field at [a]. *)
Definition update16 (p : CPAGE) (a msk v : Z) : CPAGE :=
  with_pv p (store16 (pv p) a ((load16 (pv p) a .& Z.lnot msk) .| v)).

Definition TAG_SetIb (p : CPAGE) (ptag ib : Z) : CPAGE := update16 p (ptag + 2) (mskTagIbCb (m_fSmallFormat p)) (u16 ib).
Definition TAG_SetCb (p : CPAGE) (ptag cb : Z) : CPAGE := update16 p ptag (mskTagIbCb (m_fSmallFormat p)) (u16 cb).

Definition TAG_SetFlags (p : CPAGE) (ptag fFlags : Z) : CPAGE :=
  if m_fSmallFormat p then update16 p (ptag + 2) mskTagFlags (Z.shiftl (u16 fFlags) shfTagFlags)
  else if negb (PtagFromItag_ p 0 =? ptag) && (2 <=? TAG_Cb p ptag)
  then update16 p (PbFromIb_ p (TAG_Ib p ptag)) mskTagFlags (Z.shiftl (u16 fFlags) shfTagFlags)
  else p.

(** ** New and loaded pages *)

Definition fPageEmpty : Z := 0x0008.
Definition fPageNewRecordFormat : Z := 0x0800.
Definition fPagePreInit : Z := 0x20000.

Definition SetFNewRecordFormat (p : CPAGE) : CPAGE := set_fFlags p (fFlags p .| fPageNewRecordFormat).

Definition PreInitializeNewPage_ (p : CPAGE) (pgno objidFDP dbtime : Z) : CPAGE :=
  let p := Page (pv p) pgno (m_fSmallFormat p) 0 0 (cbBuffer p) (cbPage p) (fDirty p)
             (fRuntimeScrubbing p) (fResvTagFormat p) in
  let p := with_pv p (memset (pv p) 0 0 (cbBuffer p)) in
  let p := set_fFlags p fPagePreInit in
  let p := with_pv p (store32 (pv p) 24 objidFDP) in
  let p := set_cbFree p (u16 (CbPageData p)) in
  let p := with_pv p (store16 (pv p) 30 0) in
  let p := set_ibMicFree p 0 in
  let p := set_itagState p 0 in
  let p := with_pv p (store32 (pv p) 20 0) in
  let p := with_pv p (store32 (pv p) 16 0) in
  let p := with_pv p (store64 (pv p) 8 dbtime) in
  let p :=
    if negb (m_fSmallFormat p) then
      let p := with_pv p (store32 (pv p) 64 pgno) in
      let p := with_pv p (store64 (pv p) 0 0xdeadbeefbaadf00d) in
      let p := with_pv p (store64 (pv p) 40 0x6570755320455345) in
      let p := with_pv p (store64 (pv p) 48 0x524f584343452072) in
      with_pv p (store64 (pv p) 56 0x6d75736b63656843)
    else p in
  SetFNewRecordFormat p.

Definition ConsumePreInitPage (p : CPAGE) (fPageFlags : Z) : CPAGE :=
  let p := SetITagState_ p 1 1 in
  let p := set_cbFree p (u16 (cbFree p - sizeof_TAG)) in
  let ptag := PtagFromItag_ p 0 in
  let p := TAG_SetIb p ptag 0 in
  let p := TAG_SetCb p ptag 0 in
  let p := TAG_SetFlags p ptag 0 in
  set_fFlags p ((fPageFlags .| fPageNewRecordFormat) .& Z.lnot fPagePreInit).

(** [LoadNewPage] on a buffer of [cb] bytes at [m]; the last two arguments are
    what the database and instance of [ifmp] enable. *)
Definition LoadNewPage (m : mem) (pgno objidFDP fFlags cb : Z) (fScrub fResvTag : bool) : CPAGE :=
  let p := Page m pgno (FIsSmallPage cb) 0 0 cb cb false fScrub fResvTag in
  let p := PreInitializeNewPage_ p pgno objidFDP 0 in
  let p := ConsumePreInitPage p fFlags in
  InitItagState p.

Definition LoadPage (m : mem) (pgno cb : Z) (fScrub fResvTag : bool) : CPAGE :=
  InitItagState (Page m pgno (FIsSmallPage cb) 0 0 cb cb false fScrub fResvTag).

Definition LoadDehydratedPage (m : mem) (pgno cb cbPage : Z) (fScrub fResvTag : bool) : CPAGE :=
  SetBufferSize (LoadPage m pgno cbPage fScrub fResvTag) cb.

(** ** [DATA] arguments *)

(** A chunk of memory outside the page, or a part of the page itself (callers
    of [Replace] may pass such pointers). *)
Inductive DATA := DataExt (bytes : list Z) | DataPage (pb cb : Z).

Definition DATA_Cb (d : DATA) : Z := match d with DataExt l => Z.of_nat (length l) | DataPage _ cb => cb end.

Definition CbDataTotal_ (rgdata : list DATA) : Z := fold_left (fun cb d => cb + DATA_Cb d) rgdata 0.

(** [memmove( pb, data.Pv(), data.Cb() )]. *)
Definition copy_from (m : mem) (pb : Z) (d : DATA) : mem :=
  match d with DataExt l => store_bytes m pb l | DataPage src cb => memmove m pb src cb end.

Fixpoint copy_loop (p : CPAGE) (pb : Z) (rgdata : list DATA) : option CPAGE :=
  match rgdata with
  | [] => Some p
  | d :: rgdata' =>
      if DATA_Cb d <? 0 then None
      else copy_loop (with_pv p (copy_from (pv p) pb d)) (pb + DATA_Cb d) rgdata'
  end.

Definition CopyData_ (p : CPAGE) (ptag : Z) (rgdata : list DATA) : option CPAGE :=
  let usFlags := TAG_FFlags p ptag in
  let? p := copy_loop p (PbFromIb_ p (TAG_Ib p ptag)) rgdata in
  Some (if negb (PtagFromItag_ p 0 =? ptag) then TAG_SetFlags p ptag usFlags else p).

(** ** Compaction *)

(** [std::sort]: some permutation of the range in which no element is less
    than an earlier one (for a strict weak order); it is not stable. *)
Class StdSort := {
  std_sort : (Z -> Z -> bool) -> list Z -> list Z;
  std_sort_perm cmp l : Permutation l (std_sort cmp l);
  std_sort_sorted (key : Z -> Z) l i j :
    (i < j)%nat -> (j < length l)%nat ->
    key (nth i (std_sort (fun a b => key a <? key b) l) 0) <= key (nth j (std_sort (fun a b => key a <? key b) l) 0)
}.

Section Sort.
Context `{Srt : StdSort}.

(** [rgptag] in tag order. *)
Definition rgptag (p : CPAGE) : list Z := map (fun i => PtagFromItag_ p (Z.of_nat i)) (seq 0 (Z.to_nat (m_itagMicFree p))).

(** [PfnCmpPtagIb()]: the format is that of the page size. *)
Definition CmpPtagIb (p : CPAGE) (ptag1 ptag2 : Z) : bool :=
  PtagIb (FIsSmallPage (cbPage p)) (pv p) ptag1 <? PtagIb (FIsSmallPage (cbPage p)) (pv p) ptag2.

(** Moving the lines down, from smallest to largest [ib]; returns [ibDest]. *)
Fixpoint reorg_loop (p : CPAGE) (rgptag : list Z) (ibDest pbDest : Z) : option (CPAGE * Z) :=
  match rgptag with
  | [] => Some (p, ibDest)
  | ptag :: rgptag' =>
      let? p :=
        if negb (TAG_Cb p ptag =? 0) then
          let pbSrc := PbFromIb_ p (TAG_Ib p ptag) in
          if pbSrc <? pbDest then None
          else Some (with_pv p (memmove (pv p) pbDest pbSrc (TAG_Cb p ptag)))
        else Some p in
      let p := TAG_SetIb p ptag ibDest in
      reorg_loop p rgptag' (u16 (ibDest + TAG_Cb p ptag)) (pbDest + TAG_Cb p ptag)
  end.

Definition chPAGEReplaceFill : Z := 82.                 (* 'R' *)
Definition chPAGEDeleteFill : Z := 68.                  (* 'D' *)
Definition chPAGEReorgContiguousFreeFill : Z := 79.     (* 'O' *)
Definition chPAGEReHydrateFill : Z := 72.               (* 'H' *)

Definition ReorganizeData_ (p : CPAGE) : option CPAGE :=
  let sorted := std_sort (CmpPtagIb p) (rgptag p) in
  let? (p, ibDest) := reorg_loop p sorted 0 (PbFromIb_ p 0) in
  let p := set_ibMicFree p ibDest in
  Some (if fRuntimeScrubbing p
        then with_pv p (memset (pv p) (PbFromIb_ p (ibMicFree p)) chPAGEReorgContiguousFreeFill (CbContiguousBufferFree_ p))
        else p).

Definition FreeSpace_ (p : CPAGE) (cb : Z) : option CPAGE :=
  let? p := if CbContiguousFree_ p <? cb then ReorganizeData_ p else Some p in
  if cb <=? CbContiguousFree_ p then Some p else None.

(** ** The tag array *)

(** [n] times [pdw[0] = pdw[1]; pdw++]. *)
Fixpoint move_dwords (n : nat) (m : mem) (pdw : Z) : mem * Z :=
  match n with
  | O => (m, pdw)
  | S n' => move_dwords n' (store32 m pdw (load32 m (pdw + 4))) (pdw + 4)
  end.

(** The unrolled loop: [case]s fall through to the end of the body, then
    [while( pdw < pdwLast )] runs whole bodies of eight. *)
Fixpoint duff_loop (fuel : nat) (n : nat) (m : mem) (pdw pdwLast : Z) : mem :=
  match fuel with
  | O => m
  | S fuel' =>
      let '(m, pdw) := move_dwords n m pdw in
      if pdw <? pdwLast then duff_loop fuel' 8 m pdw pdwLast else m
  end.

Definition ExpandTagArray_ (p : CPAGE) (itag : Z) : CPAGE :=
  let p :=
    if negb (itag =? m_itagMicFree p) then
      let pvTagDest := PtagFromItag_ p (m_itagMicFree p) in
      let cTagsToMove := m_itagMicFree p - itag in
      let entry := if cTagsToMove mod 8 =? 0 then 8%nat else Z.to_nat (cTagsToMove mod 8) in
      with_pv p (duff_loop (S (Z.to_nat cTagsToMove)) entry (pv p) pvTagDest (pvTagDest + 4 * cTagsToMove))
    else p in
  SetITagMicFree_ p (m_itagMicFree p + 1).

(** [std::copy_backward] on [TAG]s: [while( first != last ) *--d_last = *--last]. *)
Fixpoint copy_backward (fuel : nat) (m : mem) (first last d_last : Z) : mem :=
  match fuel with
  | O => m
  | S fuel' =>
      if first =? last then m
      else copy_backward fuel' (store32 m (d_last - 4) (load32 m (last - 4))) first (last - 4) (d_last - 4)
  end.

(** ** Operations on lines, by tag *)

Definition Replace_ (p : CPAGE) (itag : Z) (rgdata : list DATA) (fFlags : Z) : option CPAGE :=
  let cbTotal := u16 (CbDataTotal_ rgdata) in
  let ptag := PtagFromItag_ p itag in
  let cbDiff := s16 (TAG_Cb p ptag - cbTotal) in
  let? p :=
    if (0 <=? cbDiff)
       || ((TAG_Ib p ptag + TAG_Cb p ptag =? ibMicFree p) && (- cbDiff <=? CbContiguousFree_ p))
    then
      let p := if TAG_Ib p ptag + TAG_Cb p ptag =? ibMicFree p
               then set_ibMicFree p (u16 (ibMicFree p - cbDiff)) else p in
      Some (set_cbFree p (u16 (cbFree p + cbDiff)))
    else
      let p := if fRuntimeScrubbing p
               then with_pv p (memset (pv p) (PbFromIb_ p (TAG_Ib p ptag)) chPAGEReplaceFill (TAG_Cb p ptag)) else p in
      let p := set_cbFree p (u16 (cbFree p + TAG_Cb p ptag)) in
      let p := TAG_SetIb p ptag 0 in
      let p := TAG_SetCb p ptag 0 in
      let p := TAG_SetFlags p ptag 0 in
      let? p := FreeSpace_ p cbTotal in
      let p := TAG_SetIb p ptag (ibMicFree p) in
      let p := set_ibMicFree p (u16 (ibMicFree p + cbTotal)) in
      Some (set_cbFree p (u16 (cbFree p - cbTotal))) in
  let p := TAG_SetCb p ptag cbTotal in
  let p := TAG_SetFlags p ptag (u16 fFlags) in
  let? p := CopyData_ p ptag rgdata in
  Some (if (0 <? cbDiff) && fRuntimeScrubbing p
        then with_pv p (memset (pv p) (PbFromIb_ p (u16 (TAG_Ib p ptag + TAG_Cb p ptag))) chPAGEReplaceFill cbDiff)
        else p).

Definition ReplaceFlags_ (p : CPAGE) (itag fFlags : Z) : CPAGE := TAG_SetFlags p (PtagFromItag_ p itag) (u16 fFlags).

Definition Insert_ (p : CPAGE) (itag : Z) (rgdata : list DATA) (fFlags : Z) : option CPAGE :=
  let cbTotal := u16 (CbDataTotal_ rgdata) in
  let? p := FreeSpace_ p (cbTotal + sizeof_TAG) in
  let p := ExpandTagArray_ p itag in
  let ptag := PtagFromItag_ p itag in
  let p := TAG_SetCb p ptag 0 in
  let p := TAG_SetIb p ptag 0 in
  let p := TAG_SetFlags p ptag 0 in
  let p := TAG_SetIb p ptag (ibMicFree p) in
  let p := set_ibMicFree p (u16 (ibMicFree p + cbTotal)) in
  let p := TAG_SetCb p ptag cbTotal in
  let p := set_cbFree p (u16 (cbFree p - (cbTotal + sizeof_TAG))) in
  let p := TAG_SetFlags p ptag (u16 fFlags) in
  CopyData_ p ptag rgdata.

Definition Delete_ (p : CPAGE) (itag : Z) : CPAGE :=
  let ptag := PtagFromItag_ p itag in
  let p := if fRuntimeScrubbing p
           then with_pv p (memset (pv p) (PbFromIb_ p (TAG_Ib p ptag)) chPAGEDeleteFill (TAG_Cb p ptag)) else p in
  let p := if TAG_Cb p ptag + TAG_Ib p ptag =? ibMicFree p
           then set_ibMicFree p (u16 (ibMicFree p - TAG_Cb p ptag)) else p in
  let p := set_cbFree p (u16 (cbFree p + TAG_Cb p ptag + sizeof_TAG)) in
  let p := SetITagMicFree_ p (m_itagMicFree p - 1) in
  let p := with_pv p (copy_backward (Z.to_nat (m_itagMicFree p)) (pv p) (PtagFromItag_ p (m_itagMicFree p))
                        (PtagFromItag_ p itag) (PtagFromItag_ p (itag - 1))) in
  if cbFree p + sizeof_TAG + CbPageHeader p =? cbBuffer p then set_ibMicFree p 0 else p.

(** ** The public operations *)

Definition Replace (p : CPAGE) (iline : Z) (rgdata : list DATA) (fFlags : Z) : option CPAGE :=
  Replace_ p (iline + m_ctagReserved p) rgdata fFlags.
Definition ReplaceFlags (p : CPAGE) (iline fFlags : Z) : CPAGE := ReplaceFlags_ p (iline + m_ctagReserved p) fFlags.
Definition Insert (p : CPAGE) (iline : Z) (rgdata : list DATA) (fFlags : Z) : option CPAGE :=
  Insert_ p (iline + m_ctagReserved p) rgdata fFlags.
Definition Delete (p : CPAGE) (iline : Z) : CPAGE := Delete_ p (iline + m_ctagReserved p).
Definition SetExternalHeader (p : CPAGE) (rgdata : list DATA) (fFlags : Z) : option CPAGE := Replace_ p 0 rgdata fFlags.
Definition ReplaceReservedTag (p : CPAGE) (itag : Z) (rgdata : list DATA) : option CPAGE := Replace_ p itag rgdata 0.

(** Returns the new tag, or -1. *)
Definition IAddReservedTag (p : CPAGE) (cb fill : Z) : option (CPAGE * Z) :=
  let itag := m_ctagReserved p in
  if fResvTagFormat p && (itag <? CTAG_RESERVED_MAX) then
    let? p := FreeSpace_ p cb in
    let p := ExpandTagArray_ p itag in
    let p := SetCTagReserved_ p (itag + 1) in
    let ptag := PtagFromItag_ p itag in
    let p := TAG_SetCb p ptag 0 in
    let p := TAG_SetIb p ptag 0 in
    let p := TAG_SetFlags p ptag 0 in
    let p := TAG_SetIb p ptag (ibMicFree p) in
    let p := set_ibMicFree p (u16 (ibMicFree p + cb)) in
    let p := TAG_SetCb p ptag (u16 cb) in
    let p := set_cbFree p (u16 (cbFree p - cb - sizeof_TAG)) in
    Some (with_pv p (memset (pv p) (PbFromIb_ p (TAG_Ib p ptag)) fill (TAG_Cb p ptag)), itag)
  else Some (p, -1).
End Sort.
