(* ===== verification/PageLayout.v ===== *)
(** * Lines and layout of a page

    The abstract contents of a page, [lines]: for every tag its offset, its
    flags and its bytes; and the well-formedness of a page, [page_inv]: lines
    do not overlap each other, the header or the tag array, and the header
    counts are exact. *)

From Stdlib Require Import ZArith List Lia Bool Permutation.
From S2P Require Import Prelude Bits Mem Checksum ChecksumErrors PageChecksum Page.
Import ListNotations.

(** ** 16-bit fields *)

Lemma load16_with_byte_ext m m' a a' :
  (forall x, 0 <= x < 2 -> m' (a' + x) = m (a + x)) -> load16 m' a' = load16 m a.
Proof.
  intros H. unfold load16. pose proof (H 0 ltac:(lia)) as H0. pose proof (H 1 ltac:(lia)) as H1.
  rewrite !Z.add_0_r in H0. now rewrite H0, H1.
Qed.

Lemma load16_store16_ne m p v a : p + 2 <= a \/ a + 2 <= p -> load16 (store16 m p v) a = load16 m a.
Proof. intros. apply load16_ext. intros x Hx. apply store16_frame. lia. Qed.

(** A field of [w] bits below the flags of a 16-bit word. *)
Lemma land_low_field x v w :
  0 <= w <= 16 -> 0 <= v < 2 ^ w -> ((x .& Z.lnot (Z.ones w)) .| v) mod 65536 .& Z.ones w = v.
Proof.
  intros Hw Hv. apply Z.bits_inj'; intros k Hk. rewrite Z.land_spec. change 65536 with (2 ^ 16).
  destruct (Z.lt_ge_cases k w).
  - rewrite Z.ones_spec_low, andb_true_r, Z.mod_pow2_bits_low by lia.
    rewrite Z.lor_spec, Z.land_spec, Z.lnot_spec, Z.ones_spec_low by lia. now rewrite andb_false_r.
  - rewrite Z.ones_spec_high, andb_false_r by lia. symmetry. apply (testbit_high w); lia.
Qed.

Lemma land_high_field x v w h :
  0 <= w <= 16 -> 0 <= v < 2 ^ w -> 0 <= x < 65536 -> h .& Z.ones w = 0 ->
  ((x .& Z.lnot (Z.ones w)) .| v) mod 65536 .& h = x .& h.
Proof.
  intros Hw Hv Hx Hh. apply Z.bits_inj'; intros k Hk. rewrite !Z.land_spec. change 65536 with (2 ^ 16) in *.
  assert (Hhk : k < w -> Z.testbit h k = false).
  { intros Hkw. assert (Z.testbit (h .& Z.ones w) k = false) as E by (rewrite Hh; apply Z.testbit_0_l).
    rewrite Z.land_spec, Z.ones_spec_low, andb_true_r in E by lia. exact E. }
  destruct (Z.lt_ge_cases k 16).
  - rewrite Z.mod_pow2_bits_low, Z.lor_spec, Z.land_spec, Z.lnot_spec by lia.
    destruct (Z.lt_ge_cases k w); [now rewrite Hhk, !andb_false_r by lia|].
    rewrite Z.ones_spec_high, (testbit_high w v) by lia. now rewrite andb_true_r, orb_false_r.
  - rewrite Z.mod_pow2_bits_high by lia. now rewrite (testbit_high 16 x) by lia.
Qed.

(** ** Lines *)

(** [ib], flags and bytes of a tag. *)
Record line := Line { l_ib : Z; l_flags : Z; l_bytes : list Z }.

Definition l_cb (e : line) : Z := Z.of_nat (length (l_bytes e)).

Definition line_at (p : CPAGE) (ptag : Z) : line :=
  Line (TAG_Ib p ptag) (TAG_FFlags p ptag) (load_bytes (pv p) (PbFromIb_ p (TAG_Ib p ptag)) (TAG_Cb p ptag)).

Definition lines (p : CPAGE) : list line :=
  map (fun k => line_at p (PtagFromItag_ p (Z.of_nat k))) (seq 0 (Z.to_nat (m_itagMicFree p))).

(** What a reader of the page sees: flags and bytes. *)
Definition content (e : line) : Z * list Z := (l_flags e, l_bytes e).
Definition view (p : CPAGE) : list (Z * list Z) := map content (lines p).

Lemma TAG_Cb_range p a : 0 <= TAG_Cb p a < 65536.
Proof.
  unfold TAG_Cb. destruct (m_fSmallFormat p); apply (land_range_r 16); split; discriminate || reflexivity.
Qed.

Lemma TAG_Cb_mask p a : TAG_Cb p a <= mskTagIbCb (m_fSmallFormat p).
Proof.
  unfold TAG_Cb, mskTagIbCb. destruct (m_fSmallFormat p).
  - pose proof (land_range_r 13 (load16 (pv p) a) mskSmallTagIbCb ltac:(split; discriminate || reflexivity)) as H.
    change (2 ^ 13) with 8192 in H. change mskSmallTagIbCb with 8191 in *. lia.
  - pose proof (land_range_r 15 (load16 (pv p) a) mskLargeTagIbCb ltac:(split; discriminate || reflexivity)) as H.
    change (2 ^ 15) with 32768 in H. change mskLargeTagIbCb with 32767 in *. lia.
Qed.

Lemma TAG_Ib_range p a : 0 <= TAG_Ib p a <= mskTagIbCb (m_fSmallFormat p).
Proof.
  unfold TAG_Ib, PtagIb, mskTagIbCb. destruct (m_fSmallFormat p).
  - pose proof (land_range_r 13 (load16 (pv p) (a + 2)) mskSmallTagIbCb ltac:(split; discriminate || reflexivity)) as H.
    change (2 ^ 13) with 8192 in H. change mskSmallTagIbCb with 8191 in *. lia.
  - pose proof (land_range_r 15 (load16 (pv p) (a + 2)) mskLargeTagIbCb ltac:(split; discriminate || reflexivity)) as H.
    change (2 ^ 15) with 32768 in H. change mskLargeTagIbCb with 32767 in *. lia.
Qed.

Lemma l_cb_line_at p a : l_cb (line_at p a) = TAG_Cb p a.
Proof.
  unfold l_cb, line_at. cbn [l_bytes]. rewrite length_load_bytes. pose proof (TAG_Cb_range p a). lia.
Qed.

(** Two pages in the same format whose tag bytes and line bytes agree at a
    tag have the same line there. *)
Definition same_frame (p p' : CPAGE) : Prop := m_fSmallFormat p' = m_fSmallFormat p /\ cbBuffer p' = cbBuffer p.

Section Same.
Variables (p p' : CPAGE) (a a' : Z).
Hypothesis Hfmt : m_fSmallFormat p' = m_fSmallFormat p.
Hypothesis Htag : forall x, 0 <= x < 4 -> pv p' (a' + x) = pv p (a + x).

Lemma same_TAG_Cb : TAG_Cb p' a' = TAG_Cb p a.
Proof.
  unfold TAG_Cb. rewrite Hfmt. rewrite (load16_with_byte_ext (pv p) (pv p') a a'); [reflexivity|].
  intros x Hx. apply Htag. lia.
Qed.

Lemma same_tag_ib_word : load16 (pv p') (a' + 2) = load16 (pv p) (a + 2).
Proof.
  apply load16_with_byte_ext. intros x Hx. rewrite <- !Z.add_assoc. apply Htag. lia.
Qed.

Lemma same_TAG_Ib : TAG_Ib p' a' = TAG_Ib p a.
Proof. unfold TAG_Ib, PtagIb. rewrite Hfmt. now rewrite same_tag_ib_word. Qed.
End Same.

(** The flags and bytes of a line, from the tag's length, the flag bits kept in
    the tag (small format) and the bytes of the line. *)
Lemma line_at_eq p p' a a' :
  m_fSmallFormat p' = m_fSmallFormat p ->
  TAG_Cb p' a' = TAG_Cb p a ->
  (m_fSmallFormat p = true -> load16 (pv p') (a' + 2) .& mskTagFlags = load16 (pv p) (a + 2) .& mskTagFlags) ->
  (forall x, 0 <= x < TAG_Cb p a -> pv p' (PbFromIb_ p' (TAG_Ib p' a') + x) = pv p (PbFromIb_ p (TAG_Ib p a) + x)) ->
  content (line_at p' a') = content (line_at p a).
Proof.
  intros Hfmt Hcb Hfl Hby. unfold content, line_at. cbn [l_flags l_bytes]. f_equal.
  - unfold TAG_FFlags. rewrite Hfmt, Hcb. destruct (m_fSmallFormat p) eqn:E; [now rewrite Hfl|].
    destruct (Z.leb_spec 2 (TAG_Cb p a)); [|reflexivity]. do 2 f_equal.
    apply load16_with_byte_ext. intros x Hx. apply Hby. lia.
  - rewrite Hcb. unfold load_bytes. apply map_ext_in. intros i Hi. apply in_seq in Hi. apply Hby. lia.
Qed.

Lemma line_at_same p p' a a' :
  m_fSmallFormat p' = m_fSmallFormat p ->
  (forall x, 0 <= x < 4 -> pv p' (a' + x) = pv p (a + x)) ->
  (forall x, 0 <= x < TAG_Cb p a ->
     pv p' (PbFromIb_ p (TAG_Ib p a) + x) = pv p (PbFromIb_ p (TAG_Ib p a) + x)) ->
  line_at p' a' = line_at p a.
Proof.
  intros Hfmt Htag Hby. pose proof (same_TAG_Ib p p' a a' Hfmt Htag) as Ei.
  pose proof (same_TAG_Cb p p' a a' Hfmt Htag) as Ec.
  assert (C : content (line_at p' a') = content (line_at p a)).
  { apply line_at_eq; auto.
    - intros _. now rewrite (same_tag_ib_word p p' a a' Htag).
    - intros x Hx. rewrite Ei. unfold PbFromIb_, CbPageHeader in *. rewrite Hfmt. now apply Hby. }
  unfold content in C. injection C as C1 C2. destruct (line_at p' a') as [i1 f1 b1] eqn:E1.
  unfold line_at in E1 |- *. injection E1 as <- <- <-. cbn in C1, C2. now rewrite C1, C2, Ei.
Qed.

(** ** List updates *)

Definition insert_at {A} (k : nat) (x : A) (l : list A) : list A := firstn k l ++ x :: skipn k l.
Definition delete_at {A} (k : nat) (l : list A) : list A := firstn k l ++ skipn (S k) l.
Definition replace_at {A} (k : nat) (x : A) (l : list A) : list A := firstn k l ++ x :: skipn (S k) l.

Section ListOps.
Context {A : Type}.
Implicit Types (l : list A) (x d : A).

Lemma nth_firstn_lt k l d j : (j < k)%nat -> nth j (firstn k l) d = nth j l d.
Proof.
  revert k l; induction j; intros [|k] [|a l] H; cbn; try lia; auto. apply IHj; lia.
Qed.

Lemma nth_skipn_add k l d j : nth j (skipn k l) d = nth (k + j) l d.
Proof. revert l; induction k; intros [|a l]; cbn; auto. now destruct j. Qed.

Lemma length_insert_at k x l : (k <= length l)%nat -> length (insert_at k x l) = S (length l).
Proof. intros. unfold insert_at. rewrite length_app, length_firstn. cbn [length]. rewrite length_skipn. lia. Qed.

Lemma length_delete_at k l : (k < length l)%nat -> length (delete_at k l) = pred (length l).
Proof. intros. unfold delete_at. rewrite length_app, length_firstn, length_skipn. lia. Qed.

Lemma length_replace_at k x l : (k < length l)%nat -> length (replace_at k x l) = length l.
Proof. intros. unfold replace_at. rewrite length_app, length_firstn. cbn [length]. rewrite length_skipn. lia. Qed.

Lemma nth_insert_at k x l d j : (k <= length l)%nat ->
  nth j (insert_at k x l) d = if (j <? k)%nat then nth j l d else if (j =? k)%nat then x else nth (j - 1) l d.
Proof.
  intros Hk. unfold insert_at. destruct (Nat.ltb_spec j k).
  - rewrite app_nth1 by (rewrite length_firstn; lia). now apply nth_firstn_lt.
  - rewrite app_nth2; rewrite length_firstn, Nat.min_l by lia; [|lia].
    destruct (Nat.eqb_spec j k) as [->|]; [now rewrite Nat.sub_diag|].
    replace (j - k)%nat with (S (j - k - 1)) by lia. cbn [nth]. rewrite nth_skipn_add. f_equal. lia.
Qed.

Lemma nth_delete_at k l d j : (k < length l)%nat ->
  nth j (delete_at k l) d = if (j <? k)%nat then nth j l d else nth (S j) l d.
Proof.
  intros Hk. unfold delete_at. destruct (Nat.ltb_spec j k).
  - rewrite app_nth1 by (rewrite length_firstn; lia). now apply nth_firstn_lt.
  - rewrite app_nth2; rewrite length_firstn, Nat.min_l by lia; [|lia]. rewrite nth_skipn_add. f_equal. lia.
Qed.

Lemma nth_replace_at k x l d j : (k < length l)%nat ->
  nth j (replace_at k x l) d = if (j =? k)%nat then x else nth j l d.
Proof.
  intros Hk. unfold replace_at. destruct (Nat.ltb_spec j k).
  - rewrite app_nth1 by (rewrite length_firstn; lia). rewrite nth_firstn_lt by lia.
    destruct (Nat.eqb_spec j k); [lia|reflexivity].
  - rewrite app_nth2; rewrite length_firstn, Nat.min_l by lia; [|lia].
    destruct (Nat.eqb_spec j k) as [->|]; [now rewrite Nat.sub_diag|].
    replace (j - k)%nat with (S (j - k - 1)) by lia. cbn [nth]. rewrite nth_skipn_add. f_equal. lia.
Qed.

Lemma insert_at_perm k x l : Permutation (insert_at k x l) (x :: l).
Proof.
  unfold insert_at. rewrite <- Permutation_middle. now rewrite firstn_skipn.
Qed.

Lemma delete_at_perm k l d : (k < length l)%nat -> Permutation l (nth k l d :: delete_at k l).
Proof.
  intros Hk. unfold delete_at. rewrite <- (firstn_skipn k l) at 1.
  replace (skipn k l) with (nth k l d :: skipn (S k) l).
  - symmetry. apply Permutation_middle.
  - clear - Hk. revert k Hk; induction l; intros [|k] Hk; cbn in *; try lia; auto. apply IHl. lia.
Qed.

Lemma replace_at_perm k x l : Permutation (replace_at k x l) (x :: delete_at k l).
Proof. unfold replace_at, delete_at. symmetry. apply Permutation_middle. Qed.

Lemma delete_insert_at k x l : (k <= length l)%nat -> delete_at k (insert_at k x l) = l.
Proof.
  intros Hk. apply nth_ext with (d := x) (d' := x).
  - rewrite length_delete_at; rewrite length_insert_at by auto; lia.
  - intros j _. rewrite nth_delete_at by (rewrite length_insert_at by auto; lia). rewrite !nth_insert_at by auto.
    destruct (Nat.ltb_spec j k); [reflexivity|]. destruct (Nat.ltb_spec (S j) k); [lia|].
    destruct (Nat.eqb_spec (S j) k); [lia|]. f_equal. lia.
Qed.

Lemma insert_at_map {B} (f : A -> B) k x l : map f (insert_at k x l) = insert_at k (f x) (map f l).
Proof. unfold insert_at. now rewrite map_app, firstn_map, map_cons, skipn_map. Qed.

Lemma delete_at_map {B} (f : A -> B) k l : map f (delete_at k l) = delete_at k (map f l).
Proof. unfold delete_at. now rewrite map_app, firstn_map, skipn_map. Qed.

Lemma replace_at_map {B} (f : A -> B) k x l : map f (replace_at k x l) = replace_at k (f x) (map f l).
Proof. unfold replace_at. now rewrite map_app, firstn_map, map_cons, skipn_map. Qed.
End ListOps.

Lemma FOP_impl {A} (R S : A -> A -> Prop) l :
  (forall a b, In a l -> In b l -> R a b -> S a b) -> ForallOrdPairs R l -> ForallOrdPairs S l.
Proof.
  intros H F. induction F as [|a l F1 F2 IH]; constructor.
  - rewrite Forall_forall in *. intros b Hb. apply H; cbn; auto.
  - apply IH. intros x y Hx Hy. apply H; cbn; auto.
Qed.

(** ** Layout *)

Definition below (U : Z) (e : line) : Prop := l_bytes e = [] \/ (0 <= l_ib e /\ l_ib e + l_cb e <= U).

Definition apart (a b : line) : Prop :=
  l_bytes a = [] \/ l_bytes b = [] \/ l_ib a + l_cb a <= l_ib b \/ l_ib b + l_cb b <= l_ib a.

(** All lines end below [U] and no two share a byte. *)
Definition layout (U : Z) (l : list line) : Prop := Forall (below U) l /\ ForallOrdPairs apart l.

Definition cb_total (l : list line) : Z := fold_right (fun e s => l_cb e + s) 0 l.

Lemma l_cb_nonneg e : 0 <= l_cb e.
Proof. unfold l_cb. lia. Qed.

Lemma cb_total_nonneg l : 0 <= cb_total l.
Proof. induction l as [|e l IH]; cbn; [lia|]. pose proof (l_cb_nonneg e). fold (cb_total l). lia. Qed.

Lemma cb_total_perm l1 l2 : Permutation l1 l2 -> cb_total l1 = cb_total l2.
Proof. unfold cb_total. induction 1; cbn [fold_right]; lia. Qed.

Lemma apart_sym a b : apart a b -> apart b a.
Proof. unfold apart. tauto. Qed.

Lemma FOP_perm l1 l2 : Permutation l1 l2 -> ForallOrdPairs apart l1 -> ForallOrdPairs apart l2.
Proof.
  induction 1 as [|x l1 l2 HP IH|x y l|l1 l2 l3 HP1 IH1 HP2 IH2]; intros F; auto.
  - inversion_clear F as [|? ? H1 H2]. constructor; auto. eapply Permutation_Forall; eauto.
  - inversion_clear F as [|? ? H1 H2]. inversion_clear H1 as [|? ? H3 H4]. inversion_clear H2 as [|? ? H5 H6].
    constructor; [constructor; auto using apart_sym|]. constructor; auto.
Qed.

Lemma layout_perm U l1 l2 : Permutation l1 l2 -> layout U l1 -> layout U l2.
Proof. intros P [H1 H2]. split; [eapply Permutation_Forall; eauto | eapply FOP_perm; eauto]. Qed.

Lemma layout_mono U U' l : U <= U' -> layout U l -> layout U' l.
Proof.
  intros HU [H1 H2]. split; auto. eapply Forall_impl; [|exact H1]. unfold below. intros e [|[]]; auto. right; lia.
Qed.

(** A line placed at the end of the others. *)
Lemma layout_push U l e : layout U l -> 0 <= U -> l_ib e = U -> layout (U + l_cb e) (e :: l).
Proof.
  intros [H1 H2] HU He. pose proof (l_cb_nonneg e). split.
  - constructor; [right; lia|]. eapply Forall_impl; [|exact H1]. unfold below. intros b [|[]]; auto. right; lia.
  - constructor; auto. eapply Forall_impl; [|exact H1]. unfold below, apart. intros b [|[]]; auto. do 3 right. lia.
Qed.

Lemma layout_tail U e l : layout U (e :: l) -> layout U l.
Proof. intros [H1 H2]. inversion_clear H1. inversion_clear H2. split; auto. Qed.

(** A line shrunk in place, or emptied. *)
Lemma layout_shrink U e e' l :
  layout U (e :: l) -> l_bytes e' = [] \/ (l_ib e' = l_ib e /\ l_cb e' <= l_cb e) -> layout U (e' :: l).
Proof.
  intros [H1 H2] He. inversion_clear H1 as [|? ? B1 B2]. inversion_clear H2 as [|? ? A1 A2].
  unfold below, apart, l_cb in *.
  assert (He' : l_bytes e = [] -> l_bytes e' = []).
  { intros E. destruct He as [|[_ Hc]]; auto. rewrite E in Hc. destruct (l_bytes e'); auto. cbn in Hc. lia. }
  split; constructor; auto; unfold below, apart, l_cb.
  - destruct He as [|[Hi Hc]]; [now left|]. destruct B1 as [|[]]; [left; auto|]. right; lia.
  - eapply Forall_impl; [|exact A1]. cbn beta. intros b [|[|[|]]]; auto; destruct He as [|[Hi Hc]]; auto; right; right; lia.
Qed.

(** A line that ended at [U], grown in place. *)
Lemma layout_grow U e e' l :
  layout U (e :: l) -> 0 <= l_ib e -> l_ib e' = l_ib e -> l_ib e + l_cb e = U -> l_cb e <= l_cb e' ->
  layout (l_ib e' + l_cb e') (e' :: l).
Proof.
  intros [H1 H2] H0 Hi HU Hc. inversion_clear H1 as [|? ? B1 B2]. inversion_clear H2 as [|? ? A1 A2].
  pose proof (l_cb_nonneg e). split.
  - constructor; [right; lia|]. eapply Forall_impl; [|exact B2]. unfold below. intros b [|[]]; auto. right; lia.
  - constructor; auto. rewrite Forall_forall in *. intros b Hb. specialize (A1 b Hb). specialize (B2 b Hb).
    unfold apart, below in *. destruct B2 as [|[]]; auto. pose proof (l_cb_nonneg b).
    destruct (l_bytes b) eqn:Eb; auto. assert (0 < l_cb b) by (unfold l_cb; rewrite Eb; cbn [length]; lia).
    destruct A1 as [E|[|[|]]]; auto; do 3 right; try lia; try discriminate.
    assert (l_cb e = 0) by (unfold l_cb; now rewrite E). lia.
Qed.

(** The lines of a layout fit below its end: their bytes are distinct
    addresses below it. *)
Definition byte_addrs (e : line) : list nat := seq (Z.to_nat (l_ib e)) (length (l_bytes e)).

Lemma byte_addrs_apart a b x U :
  below U a -> below U b -> apart a b -> In x (byte_addrs a) -> In x (byte_addrs b) -> False.
Proof.
  unfold byte_addrs, below, apart, l_cb. rewrite !in_seq. intros Ha Hb Hab H1 H2.
  destruct (l_bytes a) eqn:Ea; [cbn in H1; lia|]. destruct (l_bytes b) eqn:Eb; [cbn in H2; lia|].
  rewrite <- Ea, <- Eb in *. destruct Ha as [|Ha]; [congruence|]. destruct Hb as [|Hb]; [congruence|].
  destruct Hab as [|[|Hab]]; [congruence..|]. lia.
Qed.

Lemma layout_NoDup U l : layout U l -> NoDup (flat_map byte_addrs l).
Proof.
  intros [B A]. induction l as [|e l IH]; cbn; [constructor|].
  inversion_clear B as [|? ? B1 B2]. inversion_clear A as [|? ? A1 A2]. rewrite Forall_forall in A1, B2.
  apply NoDup_app; [apply seq_NoDup | apply IH; auto; now apply Forall_forall |].
  intros x Hx Hf. apply in_flat_map in Hf as (b & Hb & Hxb).
  exact (byte_addrs_apart e b x U B1 (B2 b Hb) (A1 b Hb) Hx Hxb).
Qed.

Lemma cb_total_addrs l : cb_total l = Z.of_nat (length (flat_map byte_addrs l)).
Proof.
  induction l as [|e l IH]; cbn [flat_map]; [reflexivity|]. rewrite length_app. unfold byte_addrs at 1.
  rewrite length_seq. cbn [cb_total fold_right]. fold (cb_total l). unfold l_cb. lia.
Qed.

Lemma layout_total U l : 0 <= U -> layout U l -> cb_total l <= U.
Proof.
  intros HU L. rewrite cb_total_addrs.
  assert (length (flat_map byte_addrs l) <= length (seq 0 (Z.to_nat U)))%nat; [|rewrite length_seq in *; lia].
  apply NoDup_incl_length; [eapply layout_NoDup; eauto|]. intros x Hx. apply in_flat_map in Hx as (e & He & Hx).
  destruct L as [B _]. rewrite Forall_forall in B. specialize (B e He). unfold byte_addrs in Hx. apply in_seq in Hx.
  apply in_seq. destruct B as [E|B]; [rewrite E in Hx; cbn in Hx; lia|]. unfold l_cb in B. lia.
Qed.

Lemma layout_apart U l i j d : layout U l -> (i < length l)%nat -> (j < length l)%nat -> i <> j -> apart (nth i l d) (nth j l d).
Proof.
  intros [_ A]. revert i j. induction l as [|e l IH]; cbn [length]; intros i j Hi Hj Hij; [lia|].
  inversion_clear A as [|? ? A1 A2]. rewrite Forall_forall in A1.
  destruct i, j; cbn [nth]; try lia.
  - apply A1, nth_In. lia.
  - apply apart_sym, A1, nth_In. lia.
  - apply IH; auto; lia.
Qed.

Lemma layout_below U l i d : layout U l -> (i < length l)%nat -> below U (nth i l d).
Proof. intros [B _] Hi. rewrite Forall_forall in B. now apply B, nth_In. Qed.

(** ** The lines of a page by index *)

Lemma length_lines p : length (lines p) = Z.to_nat (m_itagMicFree p).
Proof. unfold lines. now rewrite length_map, length_seq. Qed.

Lemma nth_lines p k d : (k < Z.to_nat (m_itagMicFree p))%nat ->
  nth k (lines p) d = line_at p (PtagFromItag_ p (Z.of_nat k)).
Proof.
  intros Hk. unfold lines. set (f := fun k => line_at p (PtagFromItag_ p (Z.of_nat k))).
  rewrite nth_indep with (d' := f 0%nat) by (now rewrite length_map, length_seq).
  rewrite map_nth, seq_nth by lia. reflexivity.
Qed.

Definition tag_line (p : CPAGE) (itag : Z) : line := line_at p (PtagFromItag_ p itag).

Lemma nth_tag_line p k d : (k < Z.to_nat (m_itagMicFree p))%nat -> nth k (lines p) d = tag_line p (Z.of_nat k).
Proof. apply nth_lines. Qed.

Lemma lines_ext p p' :
  m_itagMicFree p' = m_itagMicFree p ->
  (forall k, 0 <= k < m_itagMicFree p -> tag_line p' k = tag_line p k) -> lines p' = lines p.
Proof.
  intros Hn H. unfold lines. rewrite Hn. apply map_ext_in. intros k Hk. apply in_seq in Hk. apply H. lia.
Qed.

Section LineUpdates.
Variables (p p' : CPAGE) (itag : Z).

Let d : line := Line 0 0 [].

Lemma lines_insert :
  m_itagMicFree p' = m_itagMicFree p + 1 -> 0 <= itag <= m_itagMicFree p ->
  (forall k, 0 <= k < itag -> tag_line p' k = tag_line p k) ->
  (forall k, itag <= k < m_itagMicFree p -> tag_line p' (k + 1) = tag_line p k) ->
  lines p' = insert_at (Z.to_nat itag) (tag_line p' itag) (lines p).
Proof.
  intros Hn Hi H1 H2. assert (Z.to_nat itag <= length (lines p))%nat by (rewrite length_lines; lia).
  apply nth_ext with (d := d) (d' := d).
  - rewrite length_insert_at, !length_lines by auto. lia.
  - intros k Hk. rewrite length_lines in Hk. rewrite nth_insert_at, nth_tag_line by auto.
    destruct (Nat.ltb_spec k (Z.to_nat itag)); [rewrite nth_tag_line by lia; apply H1; lia|].
    destruct (Nat.eqb_spec k (Z.to_nat itag)); [f_equal; lia|]. rewrite nth_tag_line by lia.
    rewrite <- H2 by lia. f_equal. lia.
Qed.

Lemma lines_delete :
  m_itagMicFree p' = m_itagMicFree p - 1 -> 0 <= itag < m_itagMicFree p ->
  (forall k, 0 <= k < itag -> tag_line p' k = tag_line p k) ->
  (forall k, itag < k < m_itagMicFree p -> tag_line p' (k - 1) = tag_line p k) ->
  lines p' = delete_at (Z.to_nat itag) (lines p).
Proof.
  intros Hn Hi H1 H2. assert (Z.to_nat itag < length (lines p))%nat by (rewrite length_lines; lia).
  apply nth_ext with (d := d) (d' := d).
  - rewrite length_delete_at, !length_lines by auto. lia.
  - intros k Hk. rewrite length_lines in Hk. rewrite nth_delete_at, nth_tag_line by auto.
    destruct (Nat.ltb_spec k (Z.to_nat itag)); rewrite nth_tag_line by lia; [apply H1; lia|].
    rewrite <- H2 by lia. f_equal. lia.
Qed.

Lemma lines_replace :
  m_itagMicFree p' = m_itagMicFree p -> 0 <= itag < m_itagMicFree p ->
  (forall k, 0 <= k < m_itagMicFree p -> k <> itag -> tag_line p' k = tag_line p k) ->
  lines p' = replace_at (Z.to_nat itag) (tag_line p' itag) (lines p).
Proof.
  intros Hn Hi H1. assert (Z.to_nat itag < length (lines p))%nat by (rewrite length_lines; lia).
  apply nth_ext with (d := d) (d' := d).
  - rewrite length_replace_at, !length_lines by auto. lia.
  - intros k Hk. rewrite length_lines in Hk. rewrite nth_replace_at, nth_tag_line by auto.
    destruct (Nat.eqb_spec k (Z.to_nat itag)); [f_equal; lia|]. rewrite nth_tag_line by lia. apply H1; lia.
Qed.
End LineUpdates.

(** The line removed from the end of the data area frees its bytes. *)
Lemma layout_pop U e l : layout U (e :: l) -> l_ib e + l_cb e = U -> layout (U - l_cb e) l.
Proof.
  intros [B A] HU. inversion_clear B as [|? ? B1 B2]. inversion_clear A as [|? ? A1 A2]. split; [|exact A2].
  rewrite Forall_forall in *. intros b Hb. specialize (B2 b Hb). specialize (A1 b Hb). unfold below, apart in *.
  destruct (l_bytes b) eqn:Eb; [now left|right]. assert (0 < l_cb b) by (unfold l_cb; rewrite Eb; cbn [length]; lia).
  destruct B2 as [|B2]; [discriminate|]. destruct A1 as [E|[|A1]]; [|discriminate|].
  - assert (l_cb e = 0) by (unfold l_cb; now rewrite E). lia.
  - lia.
Qed.

(** Lines without bytes fit anywhere. *)
Lemma layout_empty U l : cb_total l = 0 -> layout U l.
Proof.
  intros H. assert (E : forall e, In e l -> l_bytes e = []).
  { induction l as [|a l IH]; [easy|]. cbn [cb_total fold_right] in H. fold (cb_total l) in H.
    pose proof (l_cb_nonneg a). pose proof (cb_total_nonneg l). intros e [<-|He]; [|apply IH; auto; lia].
    assert (Z0 : l_cb a = 0) by lia. unfold l_cb in Z0. destruct (l_bytes a); [reflexivity|cbn in Z0; lia]. }
  split.
  - apply Forall_forall. intros e He. left. auto.
  - clear H. induction l as [|a l IH]; constructor.
    + apply Forall_forall. intros b Hb. left. apply E. now left.
    + apply IH. intros e He. apply E. now right.
Qed.
