(* ===== verification/PageTags.v ===== *)
(** * Effects of the primitive updates of a page

    Each setter of a header field or of a tag is described by what it stores,
    what it keeps, and the bytes it leaves alone; [page_inv], the
    well-formedness of a page; and the lemmas that give the lines of a page
    after a tag was inserted, removed or rewritten. *)

From Stdlib Require Import ZArith List Lia Bool Permutation.
From S2P Require Import Prelude Bits Mem Checksum ChecksumErrors PageChecksum Page PageLayout.
Import ListNotations.

(** ** The flag bits of a 16-bit word *)

Lemma flag_field x v :
  ((x .& Z.lnot mskTagFlags) .| Z.shiftl v shfTagFlags) mod 65536 .& mskTagFlags = Z.shiftl (v mod 8) shfTagFlags.
Proof.
  change mskTagFlags with (Z.shiftl (Z.ones 3) 13). change shfTagFlags with 13.
  apply Z.bits_inj'; intros k Hk. rewrite Z.land_spec, !Z.shiftl_spec by lia. change 65536 with (2 ^ 16).
  change 8 with (2 ^ 3). destruct (Z.lt_ge_cases k 16).
  - rewrite Z.mod_pow2_bits_low, Z.lor_spec, Z.land_spec, Z.lnot_spec, !Z.shiftl_spec by lia.
    destruct (Z.lt_ge_cases k 13).
    + now rewrite (Z.testbit_neg_r (Z.ones 3)), (Z.testbit_neg_r (v mod 2 ^ 3)), andb_false_r by lia.
    + rewrite Z.ones_spec_low, Z.mod_pow2_bits_low by lia. now rewrite andb_false_r, andb_true_r.
  - rewrite Z.mod_pow2_bits_high, (Z.mod_pow2_bits_high v) by lia. reflexivity.
Qed.

Lemma flag_field_low x v w :
  0 <= w <= 13 -> 0 <= x < 65536 ->
  ((x .& Z.lnot mskTagFlags) .| Z.shiftl v shfTagFlags) mod 65536 .& Z.ones w = x .& Z.ones w.
Proof.
  intros Hw Hx. change mskTagFlags with (Z.shiftl (Z.ones 3) 13). change shfTagFlags with 13.
  apply Z.bits_inj'; intros k Hk. rewrite !Z.land_spec. change 65536 with (2 ^ 16).
  destruct (Z.lt_ge_cases k w); [|now rewrite Z.ones_spec_high, !andb_false_r by lia].
  rewrite Z.mod_pow2_bits_low, Z.lor_spec, Z.land_spec, Z.lnot_spec, !Z.shiftl_spec by lia.
  rewrite (Z.testbit_neg_r (Z.ones 3)), (Z.testbit_neg_r v) by lia. now rewrite orb_false_r, andb_true_r.
Qed.

Lemma flags_of_field v : Z.shiftr (Z.shiftl (v mod 8) shfTagFlags) shfTagFlags = v mod 8.
Proof. rewrite Z.shiftr_shiftl_l by (vm_compute; discriminate). apply Z.shiftl_0_r. Qed.

Lemma mask_ones f : mskTagIbCb f = Z.ones (if f then 13 else 15).
Proof. now destruct f. Qed.

Lemma mask_bound f : mskTagIbCb f < 65536.
Proof. now destruct f. Qed.

Lemma mask_zero f : 0 <= 0 <= mskTagIbCb f.
Proof. now destruct f. Qed.

(** ** Memory-only updates *)

(** [p'] differs from [p] in its bytes only. *)
Definition mem_only (p p' : CPAGE) : Prop := p' = with_pv p (pv p').

(** The bytes of [p'] and [p] agree where [P] holds. *)
Definition keeps (P : Z -> Prop) (p p' : CPAGE) : Prop := forall a, P a -> pv p' a = pv p a.

Lemma mem_only_refl p : mem_only p p.
Proof. now destruct p. Qed.

Lemma mem_only_trans p1 p2 p3 : mem_only p1 p2 -> mem_only p2 p3 -> mem_only p1 p3.
Proof. unfold mem_only. intros -> ->. reflexivity. Qed.

Lemma mem_only_with p m : mem_only p (with_pv p m).
Proof. reflexivity. Qed.

Lemma update16_mem_only p a msk v : mem_only p (update16 p a msk v).
Proof. reflexivity. Qed.

Lemma TAG_SetIb_mem_only p a v : mem_only p (TAG_SetIb p a v).
Proof. reflexivity. Qed.

Lemma TAG_SetCb_mem_only p a v : mem_only p (TAG_SetCb p a v).
Proof. reflexivity. Qed.

Lemma TAG_SetFlags_mem_only p a v : mem_only p (TAG_SetFlags p a v).
Proof.
  unfold TAG_SetFlags. destruct (m_fSmallFormat p); [reflexivity|]. destruct (_ && _); [reflexivity|apply mem_only_refl].
Qed.

#[export] Hint Resolve mem_only_refl mem_only_with update16_mem_only TAG_SetIb_mem_only TAG_SetCb_mem_only
  TAG_SetFlags_mem_only : ese.

(** Equal fields of pages that differ in memory only. *)
Lemma mem_only_fields p p' : mem_only p p' ->
  m_fSmallFormat p' = m_fSmallFormat p /\ cbBuffer p' = cbBuffer p /\ cbPage p' = cbPage p /\
  m_itagMicFree p' = m_itagMicFree p /\ m_ctagReserved p' = m_ctagReserved p /\
  fRuntimeScrubbing p' = fRuntimeScrubbing p /\ fResvTagFormat p' = fResvTagFormat p /\
  m_pgno p' = m_pgno p /\ fDirty p' = fDirty p.
Proof. unfold mem_only. intros ->. cbn. tauto. Qed.

Lemma keeps_trans P p1 p2 p3 : keeps P p1 p2 -> keeps P p2 p3 -> keeps P p1 p3.
Proof. intros H1 H2 a Ha. now rewrite H2, H1. Qed.

Lemma keeps_weaken (P Q : Z -> Prop) p p' : (forall a, Q a -> P a) -> keeps P p p' -> keeps Q p p'.
Proof. firstorder. Qed.

Lemma keeps_load16 P p p' a : keeps P p p' -> P a -> P (a + 1) -> load16 (pv p') a = load16 (pv p) a.
Proof. intros K H1 H2. unfold load16. now rewrite !K. Qed.

Lemma keeps_TAG_Cb P p p' t : keeps P p p' -> mem_only p p' -> P t -> P (t + 1) -> TAG_Cb p' t = TAG_Cb p t.
Proof.
  intros K M H1 H2. unfold TAG_Cb. rewrite (keeps_load16 P p p') by auto.
  destruct (mem_only_fields _ _ M) as [-> _]. reflexivity.
Qed.

Lemma keeps_TAG_Ib P p p' t :
  keeps P p p' -> mem_only p p' -> P (t + 2) -> P (t + 2 + 1) -> TAG_Ib p' t = TAG_Ib p t.
Proof.
  intros K M H1 H2. unfold TAG_Ib, PtagIb. rewrite (keeps_load16 P p p') by auto.
  destruct (mem_only_fields _ _ M) as [-> _]. reflexivity.
Qed.

(** ** Tag setters *)

Section Setters.
Variables (p : CPAGE) (t : Z).
Hypothesis Hm : mem_ok (pv p).

Lemma update16_keeps a msk v : keeps (fun x => x < a \/ a + 2 <= x) p (update16 p a msk v).
Proof. intros x Hx. cbn. now apply store16_frame. Qed.

Lemma update16_ok a msk v : mem_ok (pv (update16 p a msk v)).
Proof. cbn. auto with ese. Qed.

Lemma TAG_SetIb_Ib v : 0 <= v <= mskTagIbCb (m_fSmallFormat p) -> TAG_Ib (TAG_SetIb p t v) t = v.
Proof.
  intros Hv. pose proof (mask_bound (m_fSmallFormat p)). unfold TAG_Ib, PtagIb, TAG_SetIb, update16. cbn.
  rewrite load16_store16_eq, (u16_small v) by lia. unfold u16. unfold mskTagIbCb in *.
  destruct (m_fSmallFormat p); [apply (land_low_field _ _ 13) | apply (land_low_field _ _ 15)]; unfold mskSmallTagIbCb, mskLargeTagIbCb in *; cbn; lia.
Qed.

Lemma TAG_SetIb_Cb v : TAG_Cb (TAG_SetIb p t v) t = TAG_Cb p t.
Proof.
  apply (keeps_TAG_Cb _ p _ t (update16_keeps _ _ _)); auto with ese; left; lia.
Qed.

Lemma TAG_SetIb_flags v : m_fSmallFormat p = true -> 0 <= v < 8192 ->
  load16 (pv (TAG_SetIb p t v)) (t + 2) .& mskTagFlags = load16 (pv p) (t + 2) .& mskTagFlags.
Proof.
  intros Hs Hv. cbn. rewrite load16_store16_eq, Hs, (u16_small v) by lia. unfold u16.
  apply (land_high_field _ _ 13); [lia|cbn; lia|auto with ese|reflexivity].
Qed.

Lemma TAG_SetCb_Cb v : 0 <= v <= mskTagIbCb (m_fSmallFormat p) -> TAG_Cb (TAG_SetCb p t v) t = v.
Proof.
  intros Hv. pose proof (mask_bound (m_fSmallFormat p)). unfold TAG_Cb, TAG_SetCb, update16. cbn.
  rewrite load16_store16_eq, (u16_small v) by lia. unfold u16. unfold mskTagIbCb in *.
  destruct (m_fSmallFormat p); [apply (land_low_field _ _ 13) | apply (land_low_field _ _ 15)]; unfold mskSmallTagIbCb, mskLargeTagIbCb in *; cbn; lia.
Qed.

Lemma TAG_SetCb_Ib v : TAG_Ib (TAG_SetCb p t v) t = TAG_Ib p t.
Proof. apply (keeps_TAG_Ib _ p _ t (update16_keeps _ _ _)); auto with ese; right; lia. Qed.

Lemma TAG_SetFlags_ok f : mem_ok (pv (TAG_SetFlags p t f)).
Proof. unfold TAG_SetFlags. destruct (m_fSmallFormat p); [|destruct (_ && _)]; auto using update16_ok. Qed.

Lemma TAG_SetFlags_Cb f :
  m_fSmallFormat p = true \/ t + 2 <= PbFromIb_ p (TAG_Ib p t) \/ PbFromIb_ p (TAG_Ib p t) + TAG_Cb p t <= t ->
  TAG_Cb (TAG_SetFlags p t f) t = TAG_Cb p t.
Proof.
  intros H. unfold TAG_SetFlags. destruct (m_fSmallFormat p) eqn:Hs.
  - apply (keeps_TAG_Cb _ p _ t (update16_keeps _ _ _)); auto with ese; left; lia.
  - destruct (negb _); cbn [andb]; [|reflexivity]. destruct (Z.leb_spec 2 (TAG_Cb p t)); [|reflexivity].
    destruct H as [|H]; [discriminate|].
    apply (keeps_TAG_Cb _ p _ t (update16_keeps _ _ _)); auto with ese; destruct H; lia.
Qed.

Lemma TAG_SetFlags_Ib f :
  m_fSmallFormat p = true \/ t + 4 <= PbFromIb_ p (TAG_Ib p t) \/ PbFromIb_ p (TAG_Ib p t) + TAG_Cb p t <= t ->
  TAG_Ib (TAG_SetFlags p t f) t = TAG_Ib p t.
Proof.
  intros H. unfold TAG_SetFlags. destruct (m_fSmallFormat p) eqn:Hs.
  - unfold TAG_Ib, PtagIb. cbn. rewrite Hs, load16_store16_eq. unfold u16.
    apply (flag_field_low _ _ 13); [lia|auto with ese].
  - destruct (negb _); cbn [andb]; [|reflexivity]. destruct (Z.leb_spec 2 (TAG_Cb p t)); [|reflexivity].
    destruct H as [|H]; [discriminate|].
    apply (keeps_TAG_Ib _ p _ t (update16_keeps _ _ _)); auto with ese; destruct H; lia.
Qed.
End Setters.

(** ** Well-formed pages *)

Record page_inv (p : CPAGE) : Prop := {
  inv_mem : mem_ok (pv p);
  inv_fmt : m_fSmallFormat p = FIsSmallPage (cbPage p);
  inv_size : 2048 <= cbPage p <= 32768;
  inv_buf : cbBuffer p = cbPage p;
  inv_tags : 1 <= m_itagMicFree p <= ITAG_MIC_FREE_MASK;
  inv_resv : 1 <= m_ctagReserved p <= CTAG_RESERVED_MAX;
  inv_resv_le : m_ctagReserved p <= m_itagMicFree p;
  inv_state : InitItagState p = p;
  inv_room : 0 <= CbContiguousBufferFree_ p;
  inv_layout : layout (ibMicFree p) (lines p);
  inv_free : cbFree p = CbBufferData p - CbTagArray_ p - cb_total (lines p)
}.

Section Inv.
Variable p : CPAGE.
Hypothesis Inv : page_inv p.

Lemma header_size : CbPageHeader p = 40 \/ CbPageHeader p = 80.
Proof. unfold CbPageHeader. destruct (m_fSmallFormat p); auto. Qed.

Lemma ibMicFree_range : 0 <= ibMicFree p < 65536.
Proof. unfold ibMicFree. apply load16_range, Inv. Qed.

Lemma cbFree_range : 0 <= cbFree p < 65536.
Proof. unfold cbFree. apply load16_range, Inv. Qed.

(** The data area ends before the tag array. *)
Lemma room : CbPageHeader p + ibMicFree p + 4 * m_itagMicFree p <= cbBuffer p.
Proof.
  pose proof (inv_room p Inv) as H. unfold CbContiguousBufferFree_, CbBufferData, CbTagArray_, sizeof_TAG in H. lia.
Qed.

Lemma mask_fits : cbBuffer p - CbPageHeader p <= mskTagIbCb (m_fSmallFormat p).
Proof.
  pose proof (inv_size p Inv). pose proof (inv_buf p Inv) as B. pose proof (inv_fmt p Inv) as F.
  unfold CbPageHeader, mskTagIbCb. destruct (m_fSmallFormat p).
  - symmetry in F. unfold FIsSmallPage in F. apply Z.leb_le in F. unfold sizeof_PGHDR, mskSmallTagIbCb. lia.
  - unfold sizeof_PGHDR2, mskLargeTagIbCb. lia.
Qed.

Lemma CbAdjust_0 : CbAdjustForPage p = 0.
Proof. unfold CbAdjustForPage. rewrite (inv_buf p Inv), Z.sub_diag. reflexivity. Qed.

Lemma CbContiguousFree_eq : CbContiguousFree_ p = cbBuffer p - CbPageHeader p - ibMicFree p - 4 * m_itagMicFree p.
Proof.
  unfold CbContiguousFree_, CbContiguousBufferFree_, CbBufferData, CbTagArray_, sizeof_TAG. rewrite CbAdjust_0. lia.
Qed.

Lemma cbFree_eq : cbFree p = cbBuffer p - CbPageHeader p - 4 * m_itagMicFree p - cb_total (lines p).
Proof. rewrite (inv_free p Inv). unfold CbBufferData, CbTagArray_, sizeof_TAG. lia. Qed.

Lemma contiguous_le_free : CbContiguousFree_ p <= cbFree p.
Proof.
  rewrite CbContiguousFree_eq, cbFree_eq. pose proof (layout_total _ _ (proj1 ibMicFree_range) (inv_layout p Inv)). lia.
Qed.

(** A tag of the page lies in the tag array. *)
Lemma ptag_range k : 0 <= k < m_itagMicFree p ->
  CbPageHeader p + ibMicFree p <= PtagFromItag_ p k /\ PtagFromItag_ p k + 4 <= cbBuffer p.
Proof. pose proof room. unfold PtagFromItag_, sizeof_TAG. lia. Qed.

Lemma line_below k : 0 <= k < m_itagMicFree p -> TAG_Cb p (PtagFromItag_ p k) = 0 \/
  (0 <= TAG_Ib p (PtagFromItag_ p k) /\
   TAG_Ib p (PtagFromItag_ p k) + TAG_Cb p (PtagFromItag_ p k) <= ibMicFree p).
Proof.
  intros Hk. pose proof (layout_below _ _ (Z.to_nat k) (Line 0 0 []) (inv_layout p Inv)) as B.
  rewrite nth_tag_line, length_lines, Z2Nat.id in B by lia. specialize (B ltac:(lia)).
  unfold below in B. rewrite <- l_cb_line_at. fold (tag_line p k). destruct B as [B|B]; [left|right; exact B].
  unfold l_cb. now rewrite B.
Qed.

Lemma lines_apart i j : 0 <= i < m_itagMicFree p -> 0 <= j < m_itagMicFree p -> i <> j ->
  let a := PtagFromItag_ p i in let b := PtagFromItag_ p j in
  TAG_Cb p a = 0 \/ TAG_Cb p b = 0 \/ TAG_Ib p a + TAG_Cb p a <= TAG_Ib p b \/ TAG_Ib p b + TAG_Cb p b <= TAG_Ib p a.
Proof.
  intros Hi Hj Hij a b.
  pose proof (layout_apart _ _ (Z.to_nat i) (Z.to_nat j) (Line 0 0 []) (inv_layout p Inv)) as A.
  rewrite !nth_tag_line, !length_lines, !Z2Nat.id in A by lia. specialize (A ltac:(lia) ltac:(lia) ltac:(lia)).
  rewrite <- !l_cb_line_at. unfold apart in A. fold a b in A. unfold tag_line in A. fold a b in A.
  destruct A as [A|[A|A]]; [left; unfold l_cb; now rewrite A | right; left; unfold l_cb; now rewrite A|].
  right; right. exact A.
Qed.
End Inv.

(** A line is unchanged when its tag and its bytes are. *)
Lemma tag_line_keeps P p p' k k' :
  mem_only p p' -> keeps P p p' -> PtagFromItag_ p' k' = PtagFromItag_ p k ->
  (forall x, 0 <= x < 4 -> P (PtagFromItag_ p k + x)) ->
  (forall x, 0 <= x < TAG_Cb p (PtagFromItag_ p k) -> P (PbFromIb_ p (TAG_Ib p (PtagFromItag_ p k)) + x)) ->
  tag_line p' k' = tag_line p k.
Proof.
  intros M K E H1 H2. unfold tag_line. rewrite E. apply line_at_same.
  - now destruct (mem_only_fields _ _ M).
  - intros x Hx. apply K, H1, Hx.
  - intros x Hx. apply K, H2, Hx.
Qed.

(** ** Rebuilding the invariant *)

Lemma inv_state_iff p : InitItagState p = p <->
  itagState p .& ITAG_MIC_FREE_MASK = m_itagMicFree p /\
  Z.max 1 (Z.shiftr (itagState p .& CTAG_RESERVED_MASK) SHF_CTAG_RESERVED) = m_ctagReserved p.
Proof.
  unfold InitItagState, with_itags, itagState. destruct p. cbn. split.
  - intros E. injection E. auto.
  - intros [-> ->]. reflexivity.
Qed.

(** The tag counts of the header are those of the record. *)
Lemma inv_mem_only p p' :
  page_inv p -> mem_only p p' -> mem_ok (pv p') -> itagState p' = itagState p ->
  CbPageHeader p + ibMicFree p' + 4 * m_itagMicFree p <= cbBuffer p -> layout (ibMicFree p') (lines p') ->
  cbFree p' = cbBuffer p - CbPageHeader p - 4 * m_itagMicFree p - cb_total (lines p') -> page_inv p'.
Proof.
  intros Inv M Ok St Rm Ly Fr. destruct (mem_only_fields _ _ M) as (F1 & F2 & F3 & F4 & F5 & F6 & F7 & F8 & F9).
  assert (FH : CbPageHeader p' = CbPageHeader p) by (unfold CbPageHeader; now rewrite F1).
  destruct Inv. constructor; rewrite ?F1, ?F2, ?F3, ?F4, ?F5; auto.
  - apply inv_state_iff. apply inv_state_iff in inv_state0. now rewrite St, F4, F5.
  - unfold CbContiguousBufferFree_, CbBufferData, CbTagArray_, sizeof_TAG. rewrite F2, F4, FH. lia.
  - unfold CbBufferData, CbTagArray_, sizeof_TAG. rewrite F2, F4, FH. lia.
Qed.

Lemma view_cb_total p p' : view p' = view p -> cb_total (lines p') = cb_total (lines p).
Proof.
  unfold view. intros E.
  assert (G : forall l, cb_total l = fold_right (fun c s => Z.of_nat (length (snd c)) + s) 0 (map content l)).
  { induction l as [|e l IH]; [reflexivity|]. cbn [cb_total fold_right map]. fold (cb_total l). now rewrite IH. }
  now rewrite !G, E.
Qed.

Lemma length_view p : length (view p) = Z.to_nat (m_itagMicFree p).
Proof. unfold view. now rewrite length_map, length_lines. Qed.

(** The lines depend only on the data area and the tag array. *)
Lemma tag_line_frame p p' U k :
  layout U (lines p) -> mem_only p p' -> 0 <= k < m_itagMicFree p ->
  keeps (fun a => CbPageHeader p <= a < CbPageHeader p + U \/ cbBuffer p - 4 * m_itagMicFree p <= a < cbBuffer p) p p' ->
  tag_line p' k = tag_line p k.
Proof.
  intros L M Hk K. apply (tag_line_keeps _ p p' k k M K).
  - unfold PtagFromItag_. now destruct (mem_only_fields _ _ M) as (_ & -> & _).
  - intros x Hx. right. unfold PtagFromItag_, sizeof_TAG. lia.
  - intros x Hx. left. pose proof (layout_below _ _ (Z.to_nat k) (Line 0 0 []) L) as B.
    rewrite nth_tag_line, length_lines, Z2Nat.id in B by lia. specialize (B ltac:(lia)).
    unfold below, tag_line in B. rewrite <- l_cb_line_at in Hx. unfold PbFromIb_. destruct B as [B|B]; [|cbn in B; lia].
    unfold l_cb in Hx. rewrite B in Hx. cbn in Hx. lia.
Qed.

Lemma lines_frame p p' U :
  layout U (lines p) -> mem_only p p' ->
  keeps (fun a => CbPageHeader p <= a < CbPageHeader p + U \/ cbBuffer p - 4 * m_itagMicFree p <= a < cbBuffer p) p p' ->
  lines p' = lines p.
Proof.
  intros L M K. apply lines_ext; [now destruct (mem_only_fields _ _ M) as (_ & _ & _ & -> & _)|].
  intros k Hk. now apply (tag_line_frame p p' U).
Qed.
