(* ===== verification/PageReorg.v ===== *)
(** * Compaction

    [reorg_loop] moves the lines of a page, in the order of their offsets, to
    the front of the data area without losing a byte, and [FreeSpace_]
    therefore succeeds exactly when the request fits in [cbFree]. *)

From Stdlib Require Import ZArith List Lia Bool Permutation.
From S2P Require Import Prelude Bits Mem Checksum ChecksumErrors PageChecksum Page PageLayout PageTags.
Import ListNotations.

Definition sum_cb (p : CPAGE) (ts : list Z) : Z := fold_right (fun t s => TAG_Cb p t + s) 0 ts.

Lemma sum_cb_nonneg p ts : 0 <= sum_cb p ts.
Proof. induction ts as [|t ts IH]; cbn [sum_cb fold_right]; [lia|]. pose proof (TAG_Cb_range p t). fold (sum_cb p ts). lia. Qed.

Lemma sum_cb_ext p p' ts : Forall (fun t => TAG_Cb p' t = TAG_Cb p t) ts -> sum_cb p' ts = sum_cb p ts.
Proof. unfold sum_cb. induction 1; cbn [fold_right]; lia. Qed.

Lemma sum_cb_perm p l1 l2 : Permutation l1 l2 -> sum_cb p l1 = sum_cb p l2.
Proof. unfold sum_cb. induction 1; cbn [fold_right]; lia. Qed.

(** ** One line moved *)

Definition reorg_move (p : CPAGE) (ptag pbDest : Z) : CPAGE :=
  if TAG_Cb p ptag =? 0 then p
  else with_pv p (memmove (pv p) pbDest (PbFromIb_ p (TAG_Ib p ptag)) (TAG_Cb p ptag)).

Section Step.
Variables (p : CPAGE) (t d T : Z).
Hypothesis Hm : mem_ok (pv p).
Hypothesis Hd : 0 <= d <= mskTagIbCb (m_fSmallFormat p).
Hypothesis Ht : T <= t.
Hypothesis Hline : TAG_Cb p t = 0 \/ (d <= TAG_Ib p t /\ PbFromIb_ p (TAG_Ib p t) + TAG_Cb p t <= T).

Let p1 := TAG_SetIb (reorg_move p t (PbFromIb_ p d)) t d.

Lemma reorg_move_keeps :
  keeps (fun a => a < PbFromIb_ p d \/ PbFromIb_ p d + TAG_Cb p t <= a) p (reorg_move p t (PbFromIb_ p d)).
Proof.
  intros a Ha. unfold reorg_move. destruct (Z.eqb_spec (TAG_Cb p t) 0); [reflexivity|]. cbn. now apply memmove_frame.
Qed.

Lemma reorg_move_ok : mem_ok (pv (reorg_move p t (PbFromIb_ p d))).
Proof. unfold reorg_move. destruct (_ =? 0); cbn; auto with ese. Qed.

Lemma reorg_move_mem_only : mem_only p (reorg_move p t (PbFromIb_ p d)).
Proof. unfold reorg_move. destruct (_ =? 0); auto with ese. Qed.

Lemma step_mem_only : mem_only p p1.
Proof. eapply mem_only_trans; [apply reorg_move_mem_only | apply TAG_SetIb_mem_only]. Qed.

Lemma step_ok : mem_ok (pv p1).
Proof. apply update16_ok, reorg_move_ok. Qed.

Lemma step_keeps :
  keeps (fun a => (a < PbFromIb_ p d \/ PbFromIb_ p d + TAG_Cb p t <= a) /\ (a < t + 2 \/ t + 4 <= a)) p p1.
Proof.
  clear Hd Hline.
  eapply keeps_trans; [eapply keeps_weaken; [|apply reorg_move_keeps]; cbv beta; tauto|].
  eapply keeps_weaken; [|apply update16_keeps]. cbv beta. intros a. lia.
Qed.

Lemma step_moved_end : TAG_Cb p t = 0 \/ PbFromIb_ p d + TAG_Cb p t <= t.
Proof. unfold PbFromIb_ in *. destruct Hline; [now left|]. right. lia. Qed.

Lemma step_Cb : TAG_Cb p1 t = TAG_Cb p t.
Proof.
  apply (keeps_TAG_Cb _ _ _ _ step_keeps step_mem_only); pose proof step_moved_end; split; lia.
Qed.

Lemma step_Ib : TAG_Ib p1 t = d.
Proof.
  apply TAG_SetIb_Ib. destruct (mem_only_fields _ _ reorg_move_mem_only) as [-> _]. exact Hd.
Qed.

Lemma step_tag_flags : m_fSmallFormat p = true ->
  load16 (pv p1) (t + 2) .& mskTagFlags = load16 (pv p) (t + 2) .& mskTagFlags.
Proof.
  intros Hs. unfold p1. rewrite TAG_SetIb_flags.
  - now rewrite (keeps_load16 _ _ _ _ reorg_move_keeps) by (pose proof step_moved_end; lia).
  - apply reorg_move_ok.
  - now destruct (mem_only_fields _ _ reorg_move_mem_only) as [-> _].
  - rewrite Hs in Hd. unfold mskTagIbCb, mskSmallTagIbCb in Hd. lia.
Qed.

Lemma step_bytes x : 0 <= x < TAG_Cb p t ->
  pv p1 (PbFromIb_ p d + x) = pv p (PbFromIb_ p (TAG_Ib p t) + x).
Proof.
  intros Hx. pose proof step_moved_end. unfold p1, TAG_SetIb.
  rewrite (update16_keeps _ (t + 2) _ _ (PbFromIb_ p d + x)) by lia.
  unfold reorg_move. destruct (Z.eqb_spec (TAG_Cb p t) 0); [lia|]. cbn. rewrite memmove_in by lia. f_equal. lia.
Qed.

Lemma step_content : content (line_at p1 t) = content (line_at p t).
Proof.
  apply line_at_eq; [|apply step_Cb|apply step_tag_flags|].
  - now destruct (mem_only_fields _ _ step_mem_only) as [-> _].
  - intros x Hx. rewrite step_Ib. unfold PbFromIb_ at 1, CbPageHeader.
    destruct (mem_only_fields _ _ step_mem_only) as [-> _]. now apply step_bytes.
Qed.
End Step.

(** ** The loop *)

Definition disjoint_tags (t t' : Z) : Prop := t + 4 <= t' \/ t' + 4 <= t.

Definition in_order (p : CPAGE) (t t' : Z) : Prop :=
  TAG_Cb p t = 0 \/ TAG_Cb p t' = 0 \/ TAG_Ib p t + TAG_Cb p t <= TAG_Ib p t'.

(** The remaining lines lie between the destination [d] and the tags at [T]. *)
Definition movable (p : CPAGE) (d T t : Z) : Prop :=
  T <= t /\ (TAG_Cb p t = 0 \/ (d <= TAG_Ib p t /\ PbFromIb_ p (TAG_Ib p t) + TAG_Cb p t <= T)).

(** A line has kept its contents and lies in [[lo, hi)]. *)
Definition moved (p p' : CPAGE) (lo hi t : Z) : Prop :=
  content (line_at p' t) = content (line_at p t) /\ TAG_Cb p' t = TAG_Cb p t /\
  lo <= TAG_Ib p' t /\ TAG_Ib p' t + TAG_Cb p' t <= hi.

Lemma reorg_loop_cons p t ts d :
  (TAG_Cb p t = 0 \/ d <= TAG_Ib p t) ->
  reorg_loop p (t :: ts) d (PbFromIb_ p d) =
  let p1 := TAG_SetIb (reorg_move p t (PbFromIb_ p d)) t d in
  reorg_loop p1 ts (u16 (d + TAG_Cb p1 t)) (PbFromIb_ p d + TAG_Cb p1 t).
Proof.
  intros H. cbn [reorg_loop]. unfold reorg_move. destruct (Z.eqb_spec (TAG_Cb p t) 0); cbn [negb]; [reflexivity|].
  destruct H; [contradiction|]. unfold PbFromIb_ at 1 2.
  destruct (Z.ltb_spec (CbPageHeader p + TAG_Ib p t) (CbPageHeader p + d)); [lia|reflexivity].
Qed.

(** What one step does to the lines still to be moved. *)
Lemma step_rest p t d T t' :
  mem_ok (pv p) -> movable p d T t -> movable p d T t' -> in_order p t t' -> disjoint_tags t t' ->
  let p1 := TAG_SetIb (reorg_move p t (PbFromIb_ p d)) t d in
  TAG_Cb p1 t' = TAG_Cb p t' /\ TAG_Ib p1 t' = TAG_Ib p t' /\ content (line_at p1 t') = content (line_at p t') /\
  movable p1 (d + TAG_Cb p t) T t'.
Proof.
  intros Hm [Ht Hl] [Ht' Hl'] Ho Hdj p1.
  pose proof (step_keeps p t d) as K. pose proof (step_mem_only p t d) as M. fold p1 in K, M.
  assert (Hend : TAG_Cb p t = 0 \/ PbFromIb_ p d + TAG_Cb p t <= T) by (unfold PbFromIb_ in *; lia).
  pose proof (TAG_Cb_range p t). pose proof (TAG_Cb_range p t'). unfold disjoint_tags in Hdj.
  assert (Ec : TAG_Cb p1 t' = TAG_Cb p t') by (apply (keeps_TAG_Cb _ _ _ _ K M); split; lia).
  assert (Ei : TAG_Ib p1 t' = TAG_Ib p t') by (apply (keeps_TAG_Ib _ _ _ _ K M); split; lia).
  destruct (mem_only_fields _ _ M) as [F _].
  assert (EH : forall i, PbFromIb_ p1 i = PbFromIb_ p i) by (intros; unfold PbFromIb_, CbPageHeader; now rewrite F).
  split; [exact Ec|]. split; [exact Ei|]. split.
  - f_equal. apply line_at_same; [exact F| |].
    + intros x Hx. apply K. split; lia.
    + intros x Hx. apply K. unfold in_order, PbFromIb_ in *. lia.
  - split; [exact Ht'|]. rewrite Ec, Ei, EH. unfold in_order, PbFromIb_ in *. lia.
Qed.

(** The state after one step: the moved line is in place, the others can still
    be moved. *)
Record stepped (p p1 : CPAGE) (t d T : Z) (ts : list Z) : Prop := {
  st_mem_only : mem_only p p1;
  st_ok : mem_ok (pv p1);
  st_keeps : keeps (fun a => (a < PbFromIb_ p d \/ PbFromIb_ p d + TAG_Cb p t <= a) /\ (a < t + 2 \/ t + 4 <= a)) p p1;
  st_Cb : TAG_Cb p1 t = TAG_Cb p t;
  st_Ib : TAG_Ib p1 t = d;
  st_content : content (line_at p1 t) = content (line_at p t);
  st_rest : forall t', In t' ts -> TAG_Cb p1 t' = TAG_Cb p t' /\ TAG_Ib p1 t' = TAG_Ib p t' /\
     content (line_at p1 t') = content (line_at p t') /\ movable p1 (d + TAG_Cb p t) T t'
}.

Lemma reorg_step p t d T ts :
  mem_ok (pv p) -> 0 <= d <= mskTagIbCb (m_fSmallFormat p) -> Forall (movable p d T) (t :: ts) ->
  Forall (in_order p t) ts -> Forall (disjoint_tags t) ts ->
  stepped p (TAG_SetIb (reorg_move p t (PbFromIb_ p d)) t d) t d T ts.
Proof.
  intros Hm Hd Hmv Ho Hj. inversion_clear Hmv as [|? ? Hmv1 Hmv2]. destruct Hmv1 as [Ht Hl] eqn:E.
  rewrite Forall_forall in Hmv2, Ho, Hj. constructor.
  - apply step_mem_only.
  - now apply step_ok.
  - apply step_keeps.
  - now apply (step_Cb p t d T).
  - now apply step_Ib.
  - now apply (step_content p t d T).
  - intros t' Hin. apply step_rest; auto.
Qed.

Lemma stepped_in_order p p1 t d T ts :
  stepped p p1 t d T ts -> ForallOrdPairs (in_order p) ts -> ForallOrdPairs (in_order p1) ts.
Proof.
  intros St. apply FOP_impl. intros a b Ha Hb. unfold in_order.
  destruct (st_rest _ _ _ _ _ _ St a Ha) as (-> & -> & _), (st_rest _ _ _ _ _ _ St b Hb) as (-> & -> & _). auto.
Qed.

Lemma stepped_sum p p1 t d T ts : stepped p p1 t d T ts -> sum_cb p1 ts = sum_cb p ts.
Proof. intros St. apply sum_cb_ext, Forall_forall. intros t' Hin. now apply (st_rest _ _ _ _ _ _ St). Qed.

Lemma stepped_Pb p p1 t d T ts i : stepped p p1 t d T ts -> PbFromIb_ p1 i = PbFromIb_ p i.
Proof.
  intros St. unfold PbFromIb_, CbPageHeader. now destruct (mem_only_fields _ _ (st_mem_only _ _ _ _ _ _ St)) as [-> _].
Qed.

(** The moved line is not touched by the steps that follow. *)
Lemma stepped_moved p p1 p' t d T hi ts :
  stepped p p1 t d T ts -> movable p d T t -> mem_only p1 p' -> Forall (disjoint_tags t) ts -> d + TAG_Cb p t <= hi ->
  keeps (fun a => (a < PbFromIb_ p1 (d + TAG_Cb p t) \/ T <= a) /\ Forall (fun t => a < t + 2 \/ t + 4 <= a) ts) p1 p' ->
  (forall t', In t' ts -> T <= t') ->
  moved p p' d hi t /\ TAG_Ib p' t + TAG_Cb p' t = d + TAG_Cb p t.
Proof.
  intros St [Ht Hl] M Hj Hhi K HT.
  assert (Htag : forall x, 0 <= x < 4 -> pv p' (t + x) = pv p1 (t + x)).
  { intros x Hx. apply K. split; [lia|]. eapply Forall_impl; [|exact Hj]. unfold disjoint_tags. intros t' ?. lia. }
  destruct (mem_only_fields _ _ M) as [F _].
  assert (L : line_at p' t = line_at p1 t).
  { apply line_at_same; auto. intros x Hx. rewrite (st_Ib _ _ _ _ _ _ St), (st_Cb _ _ _ _ _ _ St) in *.
    apply K. rewrite !(stepped_Pb _ _ _ _ _ _ _ St) in *. unfold PbFromIb_ in *. split; [left; lia|].
    apply Forall_forall. intros t' Hin. specialize (HT t' Hin). lia. }
  pose proof (same_TAG_Cb p1 p' t t F Htag) as Ec. pose proof (same_TAG_Ib p1 p' t t F Htag) as Ei.
  unfold moved. rewrite L, Ec, Ei, (st_Cb _ _ _ _ _ _ St), (st_Ib _ _ _ _ _ _ St), (st_content _ _ _ _ _ _ St).
  repeat split; lia.
Qed.

Lemma reorg_loop_spec ts : forall p d T,
  mem_ok (pv p) -> 0 <= d -> d + sum_cb p ts <= mskTagIbCb (m_fSmallFormat p) ->
  Forall (movable p d T) ts -> ForallOrdPairs (in_order p) ts -> ForallOrdPairs disjoint_tags ts ->
  exists p', reorg_loop p ts d (PbFromIb_ p d) = Some (p', d + sum_cb p ts) /\
    mem_only p p' /\ mem_ok (pv p') /\
    keeps (fun a => (a < PbFromIb_ p d \/ T <= a) /\ Forall (fun t => a < t + 2 \/ t + 4 <= a) ts) p p' /\
    Forall (moved p p' d (d + sum_cb p ts)) ts /\
    ForallOrdPairs (fun t t' => TAG_Ib p' t + TAG_Cb p' t <= TAG_Ib p' t') ts.
Proof.
  induction ts as [|t ts IH]; intros p d T Hm Hd Hs Hmv Hord Hdj.
  { exists p. cbn. rewrite Z.add_0_r. split; [reflexivity|]. split; [apply mem_only_refl|]. split; [exact Hm|].
    split; [intros a _; reflexivity|]. split; constructor. }
  inversion_clear Hord as [|? ? Ho1 Ho2]. inversion_clear Hdj as [|? ? Hj1 Hj2].
  cbn [sum_cb fold_right] in Hs |- *. fold (sum_cb p ts) in Hs |- *.
  pose proof (TAG_Cb_range p t) as Hc. pose proof (sum_cb_nonneg p ts). pose proof (mask_bound (m_fSmallFormat p)).
  pose proof (reorg_step p t d T ts Hm ltac:(lia) Hmv Ho1 Hj1) as St.
  inversion_clear Hmv as [|? ? Hmv1 Hmv2]. rewrite reorg_loop_cons by (destruct Hmv1; lia). cbv zeta.
  set (p1 := TAG_SetIb (reorg_move p t (PbFromIb_ p d)) t d) in *.
  destruct (mem_only_fields _ _ (st_mem_only _ _ _ _ _ _ St)) as [F1 _]. pose proof (stepped_sum _ _ _ _ _ _ St) as S1.
  pose proof (stepped_Pb _ _ _ _ _ _ (d + TAG_Cb p t) St) as B1.
  destruct (IH p1 (d + TAG_Cb p t) T) as (p' & E & M & Ok & K & Fm & Fo); try lia; auto.
  { apply St. }
  { rewrite S1, F1. lia. }
  { apply Forall_forall. intros t' Hin. now apply (st_rest _ _ _ _ _ _ St). }
  { eapply stepped_in_order; eauto. }
  rewrite Forall_forall in Hmv2.
  destruct (stepped_moved p p1 p' t d T (d + (TAG_Cb p t + sum_cb p ts)) ts) as [Mv End]; auto; try lia.
  { intros t' Hin. now apply Hmv2. }
  exists p'. rewrite (st_Cb _ _ _ _ _ _ St), u16_small by lia.
  replace (PbFromIb_ p d + TAG_Cb p t) with (PbFromIb_ p1 (d + TAG_Cb p t)) by (rewrite B1; unfold PbFromIb_; lia).
  rewrite E, S1, Z.add_assoc. split; [reflexivity|].
  split; [eapply mem_only_trans; [apply St|exact M]|]. split; [exact Ok|]. split; [|split].
  - eapply keeps_trans; [eapply keeps_weaken; [|apply St] | eapply keeps_weaken; [|exact K]]; cbv beta.
    + intros a [Ha Hf]. inversion_clear Hf. destruct Hmv1 as [? [|]]; unfold PbFromIb_ in *; lia.
    + intros a [Ha Hf]. inversion_clear Hf. split; auto. rewrite B1. unfold PbFromIb_ in *. lia.
  - constructor; [now rewrite <- Z.add_assoc|]. rewrite Forall_forall in *. intros t' Hin.
    destruct (st_rest _ _ _ _ _ _ St t' Hin) as (C & I & L & _). destruct (Fm t' Hin) as (L' & C' & ? & ?).
    unfold moved. rewrite L', C', L, C, S1 in *. repeat split; lia.
  - constructor; [|exact Fo]. rewrite Forall_forall in *. intros t' Hin. destruct (Fm t' Hin) as (_ & _ & ? & _). lia.
Qed.

(** ** The tags of a page *)

Lemma in_rgptag p t : In t (rgptag p) <-> exists k, 0 <= k < m_itagMicFree p /\ t = PtagFromItag_ p k.
Proof.
  unfold rgptag. rewrite in_map_iff. split.
  - intros (k & <- & Hk). apply in_seq in Hk. exists (Z.of_nat k). split; [lia|reflexivity].
  - intros (k & Hk & ->). exists (Z.to_nat k). rewrite Z2Nat.id by lia. split; [reflexivity|]. apply in_seq. lia.
Qed.

Lemma rgptag_NoDup p : NoDup (rgptag p).
Proof.
  unfold rgptag. apply NoDup_map_NoDup_ForallPairs; [|apply seq_NoDup].
  intros i j _ _ E. unfold PtagFromItag_, sizeof_TAG in E. lia.
Qed.

Lemma lines_rgptag p : lines p = map (line_at p) (rgptag p).
Proof. unfold lines, rgptag. now rewrite map_map. Qed.

Lemma sum_cb_lines p ts : sum_cb p ts = cb_total (map (line_at p) ts).
Proof.
  unfold sum_cb, cb_total. induction ts as [|t ts IH]; cbn [fold_right map]; [reflexivity|]. now rewrite IH, l_cb_line_at.
Qed.

Lemma FOP_nth {A} (R : A -> A -> Prop) (l : list A) (d : A) :
  (forall i j, (i < j)%nat -> (j < length l)%nat -> R (nth i l d) (nth j l d)) -> ForallOrdPairs R l.
Proof.
  induction l as [|a l IH]; intros H; constructor.
  - apply Forall_forall. intros b Hb. apply (In_nth l b d) in Hb as (j & Hj & <-).
    apply (H 0%nat (S j)); cbn; lia.
  - apply IH. intros i j Hi Hj. apply (H (S i) (S j)); cbn; lia.
Qed.

Lemma FOP_map {A B} (f : A -> B) (R : B -> B -> Prop) l :
  ForallOrdPairs (fun a b => R (f a) (f b)) l -> ForallOrdPairs R (map f l).
Proof. induction 1; cbn; constructor; auto. now apply Forall_map. Qed.

(** The end of [ReorganizeData_]: the new [ibMicFree], and scrubbing. *)
Definition reorg_finish (p : CPAGE) (ibDest : Z) : CPAGE :=
  let p := set_ibMicFree p ibDest in
  if fRuntimeScrubbing p
  then with_pv p (memset (pv p) (PbFromIb_ p (ibMicFree p)) chPAGEReorgContiguousFreeFill (CbContiguousBufferFree_ p))
  else p.

Section Finish.
Variables (p : CPAGE) (v : Z).
Hypothesis Hm : mem_ok (pv p).
Hypothesis Hv : 0 <= v < 65536.
Hypothesis Hn : 0 <= m_itagMicFree p.

Lemma finish_mem_only : mem_only p (reorg_finish p v).
Proof. unfold reorg_finish. cbv zeta. destruct (fRuntimeScrubbing _); reflexivity. Qed.

Lemma finish_ok : mem_ok (pv (reorg_finish p v)).
Proof. unfold reorg_finish. cbv zeta. destruct (fRuntimeScrubbing _); cbn [pv with_pv set_ibMicFree]; auto with ese. Qed.

Lemma set_ibMicFree_eq : ibMicFree (set_ibMicFree p v) = v.
Proof. unfold ibMicFree, set_ibMicFree. cbn. now rewrite load16_store16_eq, u16_small. Qed.

Lemma finish_keeps :
  keeps (fun a => a < 32 \/ 34 <= a < CbPageHeader p + v \/ cbBuffer p - 4 * m_itagMicFree p <= a /\ 34 <= a) p (reorg_finish p v).
Proof.
  intros a Ha. pose proof (header_size p). assert (E2 : pv (set_ibMicFree p v) a = pv p a) by (apply store16_frame; lia).
  rewrite <- E2. unfold reorg_finish. cbv zeta. destruct (fRuntimeScrubbing _); [|reflexivity]. cbn [pv with_pv].
  apply memset_frame. unfold CbContiguousBufferFree_. rewrite set_ibMicFree_eq.
  unfold PbFromIb_, CbBufferData, CbTagArray_, sizeof_TAG. cbn [cbBuffer m_itagMicFree set_ibMicFree with_pv].
  change (CbPageHeader (set_ibMicFree p v)) with (CbPageHeader p). lia.
Qed.

Lemma finish_ib : ibMicFree (reorg_finish p v) = v.
Proof.
  rewrite <- set_ibMicFree_eq at 2. unfold reorg_finish. cbv zeta. destruct (fRuntimeScrubbing _); [|reflexivity].
  apply load16_ext. intros a Ha. cbn [pv with_pv]. apply memset_frame. rewrite set_ibMicFree_eq.
  pose proof (header_size p). unfold PbFromIb_. change (CbPageHeader (set_ibMicFree p v)) with (CbPageHeader p). lia.
Qed.
End Finish.

Section Reorganize.
Context `{Srt : StdSort}.
Variable p : CPAGE.
Hypothesis Inv : page_inv p.

Let sorted := std_sort (CmpPtagIb p) (rgptag p).

Lemma sorted_perm : Permutation (rgptag p) sorted.
Proof. apply std_sort_perm. Qed.

Lemma in_sorted t : In t sorted <-> exists k, 0 <= k < m_itagMicFree p /\ t = PtagFromItag_ p k.
Proof.
  rewrite <- in_rgptag. split; apply Permutation_in; [symmetry|]; apply sorted_perm.
Qed.

Lemma sorted_NoDup : NoDup sorted.
Proof. eapply Permutation_NoDup; [apply sorted_perm | apply rgptag_NoDup]. Qed.

Lemma sorted_pairs (R : Z -> Z -> Prop) :
  (forall i j, 0 <= i < m_itagMicFree p -> 0 <= j < m_itagMicFree p -> i <> j ->
     TAG_Ib p (PtagFromItag_ p i) <= TAG_Ib p (PtagFromItag_ p j) -> R (PtagFromItag_ p i) (PtagFromItag_ p j)) ->
  ForallOrdPairs R sorted.
Proof.
  intros H. apply (FOP_nth _ _ 0). intros i j Hij Hj.
  assert (In (nth i sorted 0) sorted /\ In (nth j sorted 0) sorted) as [Hi1 Hj1] by (split; apply nth_In; lia).
  assert (N : nth i sorted 0 <> nth j sorted 0).
  { intros E. apply (proj1 (NoDup_nth sorted 0) sorted_NoDup) in E; lia. }
  assert (S : TAG_Ib p (nth i sorted 0) <= TAG_Ib p (nth j sorted 0)).
  { unfold TAG_Ib. rewrite (inv_fmt p Inv). unfold sorted.
    apply (std_sort_sorted (PtagIb (FIsSmallPage (cbPage p)) (pv p)) (rgptag p) i j Hij).
    now rewrite (Permutation_length sorted_perm). }
  apply in_sorted in Hi1 as (k & Hk & Ek). apply in_sorted in Hj1 as (k' & Hk' & Ek').
  rewrite Ek, Ek' in *. apply H; auto. congruence.
Qed.

Lemma sorted_in_order : ForallOrdPairs (in_order p) sorted.
Proof.
  apply sorted_pairs. intros i j Hi Hj Hij S. pose proof (lines_apart p Inv i j Hi Hj Hij) as A.
  pose proof (TAG_Cb_range p (PtagFromItag_ p j)). unfold in_order. cbv zeta in A. lia.
Qed.

Lemma sorted_disjoint : ForallOrdPairs disjoint_tags sorted.
Proof. apply sorted_pairs. intros i j Hi Hj Hij _. unfold disjoint_tags, PtagFromItag_, sizeof_TAG. lia. Qed.

Lemma sorted_movable : Forall (movable p 0 (cbBuffer p - 4 * m_itagMicFree p)) sorted.
Proof.
  apply Forall_forall. intros t Ht. apply in_sorted in Ht as (k & Hk & ->). pose proof (room p Inv).
  pose proof (line_below p Inv k Hk) as B. split; unfold PtagFromItag_, PbFromIb_, sizeof_TAG in *; lia.
Qed.

Lemma sorted_sum : sum_cb p sorted = cb_total (lines p).
Proof. rewrite lines_rgptag, <- sum_cb_lines. symmetry. apply sum_cb_perm, sorted_perm. Qed.

(** The loop applied to the whole page. *)
Lemma reorg_all : exists p1,
  reorg_loop p sorted 0 (PbFromIb_ p 0) = Some (p1, cb_total (lines p)) /\ mem_only p p1 /\ mem_ok (pv p1) /\
  keeps (fun a => a < CbPageHeader p \/ cbBuffer p <= a) p p1 /\ view p1 = view p /\ layout (cb_total (lines p)) (lines p1).
Proof.
  pose proof (cbFree_range p Inv). pose proof (cbFree_eq p Inv). pose proof (mask_fits p Inv). pose proof (inv_tags p Inv).
  destruct (reorg_loop_spec sorted p 0 (cbBuffer p - 4 * m_itagMicFree p)) as (p1 & E & M & Ok & K & Fm & Fo);
    auto using sorted_in_order, sorted_disjoint, sorted_movable; try lia.
  { apply Inv. } { rewrite sorted_sum. lia. }
  rewrite sorted_sum in *. cbn in E. exists p1. split; [exact E|]. split; [exact M|]. split; [exact Ok|].
  destruct (mem_only_fields _ _ M) as (F1 & F2 & F3 & F4 & _). rewrite Forall_forall in Fm.
  assert (R1 : rgptag p1 = rgptag p) by (unfold rgptag, PtagFromItag_; now rewrite F2, F4).
  split; [|split].
  - eapply keeps_weaken; [|exact K]. cbv beta. intros a Ha. unfold PbFromIb_. split; [lia|].
    apply Forall_forall. intros t Ht. apply in_sorted in Ht as (k & Hk & ->). unfold PtagFromItag_, sizeof_TAG.
    pose proof (room p Inv). pose proof (ibMicFree_range p Inv). lia.
  - unfold view. rewrite !lines_rgptag, R1, !map_map. apply map_ext_in. intros t Ht. apply Fm, in_sorted, in_rgptag, Ht.
  - rewrite (lines_rgptag p1), R1. apply (layout_perm _ (map (line_at p1) sorted)).
    { apply Permutation_map. symmetry. apply sorted_perm. }
    split.
    + apply Forall_map, Forall_forall. intros t Ht. destruct (Fm t Ht) as (_ & C & ? & ?). right.
      rewrite l_cb_line_at. cbn. lia.
    + apply FOP_map. revert Fo. apply FOP_impl. intros a b _ _ Hab. unfold apart. rewrite !l_cb_line_at.
      right; right. left. exact Hab.
Qed.

(** What compaction promises: the same lines, packed at the front. *)
Record compacted (p' : CPAGE) : Prop := {
  co_mem_only : mem_only p p';
  co_inv : page_inv p';
  co_view : view p' = view p;
  co_keeps : keeps (fun a => a < 32 \/ 34 <= a < CbPageHeader p \/ cbBuffer p <= a) p p'
}.

Lemma compacted_refl : compacted p.
Proof. constructor; auto with ese. intros a _. reflexivity. Qed.

Lemma ReorganizeData_spec : exists p', ReorganizeData_ p = Some p' /\ compacted p' /\ ibMicFree p' = cb_total (lines p).
Proof.
  destruct reorg_all as (p1 & E & M & Ok & K & V & L). unfold ReorganizeData_. fold sorted. rewrite E.
  pose proof (cbFree_range p Inv). pose proof (cbFree_eq p Inv). pose proof (cb_total_nonneg (lines p)).
  pose proof (inv_size p Inv). pose proof (inv_buf p Inv). pose proof (inv_tags p Inv). pose proof (header_size p).
  destruct (mem_only_fields _ _ M) as (F1 & F2 & F3 & F4 & _).
  assert (FH : CbPageHeader p1 = CbPageHeader p) by (unfold CbPageHeader; now rewrite F1).
  set (v := cb_total (lines p)) in *. exists (reorg_finish p1 v). split; [reflexivity|].
  assert (Kf := finish_keeps p1 v ltac:(lia)). rewrite FH, F2, F4 in Kf.
  assert (If := finish_ib p1 v ltac:(lia)). assert (Mf := finish_mem_only p1 v).
  assert (Lf : lines (reorg_finish p1 v) = lines p1).
  { apply (lines_frame _ _ _ L Mf). eapply keeps_weaken; [|exact Kf]. cbv beta. intros a. rewrite FH, F2, F4. lia. }
  assert (Kp : keeps (fun a => a < 32 \/ 34 <= a < CbPageHeader p \/ cbBuffer p <= a) p (reorg_finish p1 v)).
  { eapply keeps_trans; eapply keeps_weaken; [|exact K| |exact Kf]; cbv beta; intros a; lia. }
  assert (Mp : mem_only p (reorg_finish p1 v)) by (eapply mem_only_trans; eauto).
  assert (Vp : view (reorg_finish p1 v) = view p) by (unfold view; now rewrite Lf).
  split; [|exact If]. constructor; auto. apply (inv_mem_only p); auto.
  - now apply finish_ok.
  - unfold itagState. apply (keeps_load16 _ _ _ _ Kp); lia.
  - rewrite If. lia.
  - rewrite If, Lf. exact L.
  - rewrite (view_cb_total _ _ Vp). fold v. unfold cbFree. rewrite (keeps_load16 _ _ _ _ Kp) by lia. fold (cbFree p). lia.
Qed.

(** [FreeSpace_] makes room, exactly when there is room. *)
Lemma FreeSpace_some cb : cb <= cbFree p ->
  exists p', FreeSpace_ p cb = Some p' /\ compacted p' /\ cb <= CbContiguousFree_ p'.
Proof.
  intros Hcb. unfold FreeSpace_. destruct (Z.ltb_spec (CbContiguousFree_ p) cb).
  - destruct ReorganizeData_spec as (p' & -> & C & Hib). destruct C as [M I V K].
    pose proof (CbContiguousFree_eq p' I) as Ec. destruct (mem_only_fields _ _ M) as (F1 & F2 & F3 & F4 & _).
    unfold CbPageHeader in Ec. rewrite F1, F2, F4, Hib in Ec. fold (CbPageHeader p) in Ec.
    pose proof (cbFree_eq p Inv). destruct (Z.leb_spec cb (CbContiguousFree_ p')); [|lia].
    exists p'. split; [reflexivity|]. split; [constructor; auto|lia].
  - destruct (Z.leb_spec cb (CbContiguousFree_ p)); [|lia]. exists p. auto using compacted_refl.
Qed.

Lemma FreeSpace_none cb : cbFree p < cb -> FreeSpace_ p cb = None.
Proof.
  intros Hcb. pose proof (contiguous_le_free p Inv). unfold FreeSpace_.
  destruct (Z.ltb_spec (CbContiguousFree_ p) cb); [|lia].
  destruct ReorganizeData_spec as (p' & -> & [M I V K] & Hib).
  pose proof (contiguous_le_free p' I). destruct (mem_only_fields _ _ M) as (F1 & F2 & F3 & F4 & _).
  pose proof (cbFree_eq p' I) as E'. pose proof (cbFree_eq p Inv). rewrite (view_cb_total _ _ V) in E'.
  unfold CbPageHeader in E'. rewrite F1, F2, F4 in E'. fold (CbPageHeader p) in E'.
  destruct (Z.leb_spec cb (CbContiguousFree_ p')); [lia|reflexivity].
Qed.
End Reorganize.
