(* ===== verification/PageTagArray.v ===== *)
(** * The tag array

    Opening a slot in the tag array ([ExpandTagArray_], whose copy loop is
    unrolled eight times and entered in the middle), closing one (the
    [std::copy_backward] of [Delete_]) and the tag counts in the header. *)

From Stdlib Require Import ZArith List Lia Bool Permutation.
From S2P Require Import Prelude Bits Mem Checksum PageChecksum ChecksumErrors Page PageLayout PageTags.
Import ListNotations.

(** ** Copies of dwords *)

Lemma copy_dword m d s a : mem_ok m -> 
  store32 m d (load32 m s) a = if (d <=? a) && (a <? d + 4) then m (s + (a - d)) else m a.
Proof.
  intros Hm. pose proof (Hm s). pose proof (Hm (s + 1)). pose proof (Hm (s + 2)). pose proof (Hm (s + 2 + 1)).
  destruct (Z.leb_spec d a); cbn [andb]; [|now rewrite store32_frame by lia].
  destruct (Z.ltb_spec a (d + 4)); [|now rewrite store32_frame by lia].
  unfold store32, store16, store8, load32, load16.
  assert (a = d \/ a = d + 1 \/ a = d + 2 \/ a = d + 3) as [->|[->|[->| ->]]] by lia.
  - replace (s + (d - d)) with s by lia. case_cmp; zlia.
  - replace (s + (d + 1 - d)) with (s + 1) by lia. case_cmp; zlia.
  - replace (s + (d + 2 - d)) with (s + 2) by lia. case_cmp; zlia.
  - replace (s + (d + 3 - d)) with (s + 2 + 1) by lia. case_cmp; zlia.
Qed.

Lemma copy_dword_ok m d s : mem_ok m -> mem_ok (store32 m d (load32 m s)).
Proof. auto with ese. Qed.

Lemma move_dwords_spec n : forall m pdw, mem_ok m ->
  snd (move_dwords n m pdw) = pdw + 4 * Z.of_nat n /\ mem_ok (fst (move_dwords n m pdw)) /\
  forall a, fst (move_dwords n m pdw) a = if (pdw <=? a) && (a <? pdw + 4 * Z.of_nat n) then m (a + 4) else m a.
Proof.
  induction n as [|n IH]; intros m pdw Hm.
  { cbn [move_dwords fst snd]. split; [lia|]. split; [exact Hm|]. intros a. case_cmp; cbn [andb]; lia. }
  cbn [move_dwords]. destruct (IH (store32 m pdw (load32 m (pdw + 4))) (pdw + 4)) as (E & Ok & V); [auto with ese|].
  split; [rewrite E; lia|]. split; [exact Ok|]. intros a. rewrite V, !copy_dword by assumption.
  case_cmp; cbn [andb]; try lia; f_equal; lia.
Qed.

(** The loop that starts in the middle of its body moves every tag once. *)
Lemma duff_loop_spec fuel : forall n m pdw q, mem_ok m -> (Z.to_nat q < fuel)%nat -> 0 <= q ->
  let pdwLast := pdw + 4 * (Z.of_nat n + 8 * q) in
  mem_ok (duff_loop fuel n m pdw pdwLast) /\
  forall a, duff_loop fuel n m pdw pdwLast a = if (pdw <=? a) && (a <? pdwLast) then m (a + 4) else m a.
Proof.
  induction fuel as [|fuel IH]; intros n m pdw q Hm Hf Hq; [lia|]. cbv zeta. cbn [duff_loop].
  destruct (move_dwords_spec n m pdw Hm) as (E & Ok & V).
  destruct (move_dwords n m pdw) as [m1 pdw1]. cbn [fst snd] in *. subst pdw1.
  destruct (Z.ltb_spec (pdw + 4 * Z.of_nat n) (pdw + 4 * (Z.of_nat n + 8 * q))).
  - destruct (IH 8%nat m1 (pdw + 4 * Z.of_nat n) (q - 1) Ok ltac:(lia) ltac:(lia)) as [Ok2 V2].
    replace (pdw + 4 * Z.of_nat n + 4 * (Z.of_nat 8 + 8 * (q - 1))) with (pdw + 4 * (Z.of_nat n + 8 * q)) in * by lia.
    split; [exact Ok2|]. intros a. rewrite V2, !V. case_cmp; cbn [andb]; try lia; reflexivity.
  - split; [exact Ok|]. intros a. rewrite V. replace q with 0 by lia. now replace (Z.of_nat n + 8 * 0) with (Z.of_nat n) by lia.
Qed.

Lemma copy_backward_spec fuel : forall m first c, mem_ok m -> 0 <= c <= Z.of_nat fuel ->
  let m' := copy_backward fuel m first (first + 4 * c) (first + 4 * c + 4) in
  mem_ok m' /\
  forall a, m' a = if (first + 4 <=? a) && (a <? first + 4 * c + 4) then m (a - 4) else m a.
Proof.
  induction fuel as [|fuel IH]; intros m first c Hm Hc m'; subst m'; cbn [copy_backward].
  { split; [exact Hm|]. intros a. case_cmp; cbn [andb]; lia. }
  destruct (Z.eqb_spec first (first + 4 * c)).
  { split; [exact Hm|]. intros a. case_cmp; cbn [andb]; lia. }
  replace (first + 4 * c + 4 - 4) with (first + 4 * c) by lia.
  replace (first + 4 * c - 4) with (first + 4 * (c - 1)) by lia.
  set (m1 := store32 m _ _). destruct (IH m1 first (c - 1)) as [Ok V]; [subst m1; auto with ese|lia|].
  replace (first + 4 * (c - 1) + 4) with (first + 4 * c) in Ok, V by lia. split; [exact Ok|]. intros a. rewrite V. subst m1. rewrite !copy_dword by assumption.
  case_cmp; cbn [andb]; try lia; f_equal; lia.
Qed.

(** ** The tag counts *)

Lemma itag_state_fields i r : 0 <= i < 4096 -> 0 <= r <= 7 ->
  u16 (Z.shiftl r SHF_CTAG_RESERVED .| i) .& ITAG_MIC_FREE_MASK = i /\
  Z.shiftr (u16 (Z.shiftl r SHF_CTAG_RESERVED .| i) .& CTAG_RESERVED_MASK) SHF_CTAG_RESERVED = r.
Proof.
  intros Hi Hr. assert (E : Z.shiftl r SHF_CTAG_RESERVED .| i = r * 4096 + i).
  { assert (E0 : Z.shiftl r SHF_CTAG_RESERVED .& i = 0);
      [|pose proof (Z.add_lor_land (Z.shiftl r SHF_CTAG_RESERVED) i) as E; rewrite E0 in E;
        change SHF_CTAG_RESERVED with 12 in *; rewrite Z.shiftl_mul_pow2 in * by lia; change (2 ^ 12) with 4096 in *; lia].
    apply Z.bits_inj'. intros k Hk. rewrite Z.land_spec, Z.testbit_0_l, Z.shiftl_spec by lia.
    change SHF_CTAG_RESERVED with 12. destruct (Z.lt_ge_cases k 12).
    - now rewrite Z.testbit_neg_r by lia.
    - rewrite (testbit_high 12 i) by lia. apply andb_false_r. }
  rewrite E, u16_small by lia. split.
  - change ITAG_MIC_FREE_MASK with (Z.ones 12). rewrite Z.land_ones by lia. change (2 ^ 12) with 4096. zlia.
  - change CTAG_RESERVED_MASK with (Z.shiftl (Z.ones 3) 12). change SHF_CTAG_RESERVED with 12.
    rewrite Z.shiftr_land, Z.shiftr_shiftl_l by lia. change (Z.shiftl (Z.ones 3) (12 - 12)) with (Z.ones 3).
    rewrite Z.land_ones, Z.shiftr_div_pow2 by lia. change (2 ^ 12) with 4096. change (2 ^ 3) with 8. zlia.
Qed.

Section SetITag.
Variables (p : CPAGE) (i r : Z).
Hypothesis Hm : mem_ok (pv p).
Hypothesis Hi : 0 <= i <= ITAG_MIC_FREE_MASK.
Hypothesis Hr : 1 <= r <= CTAG_RESERVED_MAX.

Lemma SetITagState_fields : SetITagState_ p i r = with_itags (with_pv p (pv (SetITagState_ p i r))) i r.
Proof.
  unfold ITAG_MIC_FREE_MASK, CTAG_RESERVED_MAX in *. unfold SetITagState_. cbv zeta.
  rewrite !u16_small by lia. destruct (_ || _); reflexivity.
Qed.

Lemma SetITagState_keeps : keeps (fun a => a < 34 \/ 36 <= a) p (SetITagState_ p i r).
Proof.
  intros a Ha. unfold SetITagState_. cbv zeta. destruct (_ || _); cbn; now apply store16_frame.
Qed.

Lemma SetITagState_ok : mem_ok (pv (SetITagState_ p i r)).
Proof. unfold SetITagState_. cbv zeta. destruct (_ || _); cbn; auto with ese. Qed.

(** The header and the record agree after the update, when reserved tags are
    counted in the header or there is only the external header. *)
Lemma SetITagState_state :
  (r = 1 \/ fResvTagFormat p = true \/ 0 < Z.shiftr (itagState p .& CTAG_RESERVED_MASK) SHF_CTAG_RESERVED) ->
  InitItagState (SetITagState_ p i r) = SetITagState_ p i r.
Proof.
  intros H. apply inv_state_iff. unfold ITAG_MIC_FREE_MASK, CTAG_RESERVED_MAX in Hi, Hr.
  destruct (itag_state_fields i r) as [E1 E2]; [lia..|]. destruct (itag_state_fields i 0) as [G1 G2]; [lia..|].
  unfold SetITagState_. cbv zeta. rewrite !(u16_small i), !(u16_small r) by lia. cbn [fResvTagFormat with_itags].
  change (itagState (with_itags p i r)) with (itagState p).
  destruct (fResvTagFormat p || _) eqn:B; unfold itagState; cbn [pv set_itagState with_pv with_itags m_itagMicFree m_ctagReserved];
    rewrite load16_store16_eq.
  - rewrite (u16_small (u16 _)) by apply u16_range. rewrite E1, E2. split; lia.
  - apply orb_false_iff in B as [B1 B2]. apply Z.ltb_ge in B2. destruct H as [->|[|]]; [|congruence|lia].
    rewrite (u16_small i) by lia. rewrite Z.lor_0_l, (u16_small i) in G1, G2 by lia. now rewrite G1, G2.
Qed.
End SetITag.

(** ** Opening a slot *)

(** Only the bytes and the number of tags change. *)
Definition retagged (p p' : CPAGE) (n : Z) : Prop := p' = with_itags (with_pv p (pv p')) n (m_ctagReserved p).

Lemma retagged_fields p p' n : retagged p p' n ->
  m_fSmallFormat p' = m_fSmallFormat p /\ cbBuffer p' = cbBuffer p /\ cbPage p' = cbPage p /\
  m_itagMicFree p' = n /\ m_ctagReserved p' = m_ctagReserved p /\
  fRuntimeScrubbing p' = fRuntimeScrubbing p /\ fResvTagFormat p' = fResvTagFormat p /\
  m_pgno p' = m_pgno p /\ fDirty p' = fDirty p.
Proof. unfold retagged. intros ->. cbn. tauto. Qed.

Lemma retagged_mem_only p0 p p' n : mem_only p0 p -> retagged p p' n -> retagged p0 p' n.
Proof. unfold retagged, mem_only. intros -> ->. reflexivity. Qed.

Lemma mem_only_retagged p0 p p' n : retagged p0 p n -> mem_only p p' -> retagged p0 p' n.
Proof. unfold retagged, mem_only. intros -> ->. reflexivity. Qed.

Lemma resv_condition p : page_inv p ->
  m_ctagReserved p = 1 \/ fResvTagFormat p = true \/ 0 < Z.shiftr (itagState p .& CTAG_RESERVED_MASK) SHF_CTAG_RESERVED.
Proof. intros Inv. destruct (proj1 (inv_state_iff p) (inv_state p Inv)) as [_ E]. lia. Qed.

Section Expand.
Variables (p : CPAGE) (itag : Z).
Let n := m_itagMicFree p.
Hypothesis Hm : mem_ok (pv p).
Hypothesis Hn : 0 <= n < ITAG_MIC_FREE_MASK.
Hypothesis Hi : 0 <= itag <= n.
Hypothesis Hr : 1 <= m_ctagReserved p <= CTAG_RESERVED_MAX.
Hypothesis Hspace : 36 <= cbBuffer p - 4 * (n + 1).

Let p' := ExpandTagArray_ p itag.

(** The tags from [itag] on move down by one; slot [itag] keeps its bytes. *)
Definition opened : mem := fun a =>
  if (cbBuffer p - 4 * (n + 1) <=? a) && (a <? cbBuffer p - 4 * (itag + 1)) then pv p (a + 4) else pv p a.

Lemma expand_moved : exists m, mem_ok m /\ mem_eq m opened /\ p' = SetITagState_ (with_pv p m) (n + 1) (m_ctagReserved p).
Proof.
  unfold p', ExpandTagArray_, SetITagMicFree_. cbv zeta. fold n. destruct (Z.eqb_spec itag n) as [E|E]; cbn [negb].
  - exists (pv p). split; [exact Hm|]. split; [|now destruct p].
    intros a. unfold opened. rewrite E. case_cmp; cbn [andb]; reflexivity || lia.
  - set (c := n - itag). set (e := if c mod 8 =? 0 then 8%nat else Z.to_nat (c mod 8)).
    assert (He : exists q, 0 <= q /\ c = Z.of_nat e + 8 * q).
    { exists ((c - Z.of_nat e) / 8). unfold e. destruct (Z.eqb_spec (c mod 8) 0); subst c; zlia. }
    destruct He as (q & Hq & Hc). set (d := PtagFromItag_ p n). set (fuel := S (Z.to_nat c)).
    destruct (duff_loop_spec fuel e (pv p) d q Hm) as [Ok V]; [subst fuel; lia|exact Hq|].
    cbv zeta in Ok, V. rewrite <- Hc in Ok, V. eexists. split; [exact Ok|]. split; [|reflexivity].
    intros a. rewrite V. unfold opened, d, c, PtagFromItag_, sizeof_TAG.
    case_cmp; cbn [andb]; reflexivity || lia.
Qed.

Lemma expand_retagged : retagged p p' (n + 1).
Proof.
  destruct expand_moved as (m & _ & _ & E). unfold retagged. rewrite E at 1.
  rewrite SetITagState_fields at 1; [|lia|exact Hr]. now rewrite <- E.
Qed.

Lemma expand_ok : mem_ok (pv p').
Proof. destruct expand_moved as (m & Ok & _ & E). rewrite E. now apply SetITagState_ok. Qed.

Lemma expand_bytes a : a < 34 \/ 36 <= a -> pv p' a = opened a.
Proof.
  intros Ha. destruct expand_moved as (m & _ & V & E). rewrite E, (SetITagState_keeps _ _ _ a Ha). apply V.
Qed.

Lemma expand_state :
  m_ctagReserved p = 1 \/ fResvTagFormat p = true \/ 0 < Z.shiftr (itagState p .& CTAG_RESERVED_MASK) SHF_CTAG_RESERVED ->
  InitItagState p' = p'.
Proof.
  intros H. destruct expand_moved as (m & _ & V & E). rewrite E. apply SetITagState_state; [lia|exact Hr|].
  replace (itagState (with_pv p m)) with (itagState p); [exact H|]. symmetry. apply load16_ext. intros a Ha. cbn. rewrite V.
  unfold opened. case_cmp; cbn [andb]; reflexivity || lia.
Qed.
End Expand.

(** * Writing a line

    What [CopyData_] stores for a tag whose offset and length are set, and what
    a reader then sees: in the small format the flags are in the tag, in the
    large format they replace the top three bits of the second byte, except on
    tag 0, whose bytes are stored as they are. *)

(** ** What is stored *)

(** The flags in the top three bits of the second byte. *)
Definition stamp (flags : Z) (l : list Z) : list Z :=
  match l with
  | b0 :: b1 :: r => b0 :: b1 mod 32 + 32 * (flags mod 8) :: r
  | _ => l
  end.

Definition node_flags (l : list Z) : Z := match l with _ :: b1 :: _ => b1 / 32 | _ => 0 end.

(** Flags and bytes of a line written with [flags] and [l]. *)
Definition stored (fSmallFormat fTag0 : bool) (flags : Z) (l : list Z) : Z * list Z :=
  if fSmallFormat then (flags mod 8, l)
  else let l' := if fTag0 then l else stamp flags l in (node_flags l', l').

Lemma length_stamp f l : length (stamp f l) = length l.
Proof. now destruct l as [|b0 [|b1 r]]. Qed.

Lemma length_stored s z f l : length (snd (stored s z f l)) = length l.
Proof. unfold stored. destruct s; [reflexivity|]. destruct z; cbn; auto using length_stamp. Qed.

(** ** Flag words *)

Lemma flags_of_word w : 0 <= w < 65536 -> Z.shiftr (w .& mskTagFlags) shfTagFlags = w / 8192.
Proof.
  intros Hw. change mskTagFlags with (Z.shiftl (Z.ones 3) 13). change shfTagFlags with 13.
  rewrite Z.shiftr_land, Z.shiftr_shiftl_l by lia. change (Z.shiftl (Z.ones 3) (13 - 13)) with (Z.ones 3).
  rewrite Z.land_ones, Z.shiftr_div_pow2 by lia. change (2 ^ 13) with 8192. change (2 ^ 3) with 8. zlia.
Qed.

Lemma flag_word w v : 0 <= w < 65536 ->
  ((w .& Z.lnot mskTagFlags) .| Z.shiftl v shfTagFlags) mod 65536 = w mod 8192 + 8192 * (v mod 8).
Proof.
  intros Hw. pose proof (flag_field w v) as Hf. pose proof (flag_field_low w v 13 ltac:(lia) Hw) as Hl.
  set (Y := _ mod 65536) in *. assert (HY : 0 <= Y < 65536) by (apply Z.mod_pos_bound; lia).
  rewrite !Z.land_ones in Hl by lia. change (2 ^ 13) with 8192 in Hl.
  pose proof (flags_of_word Y HY) as Hs. rewrite Hf, flags_of_field in Hs. zlia.
Qed.

(** [update16] of the flag bits, byte by byte. *)
Lemma update_flags_bytes p a v x : mem_ok (pv p) ->
  pv (update16 p a mskTagFlags (Z.shiftl v shfTagFlags)) x =
  if x =? a + 1 then pv p (a + 1) mod 32 + 32 * (v mod 8) else pv p x.
Proof.
  intros Hm. pose proof (Hm a). pose proof (Hm (a + 1)). pose proof (load16_range (pv p) Hm a) as Hw.
  pose proof (flag_word (load16 (pv p) a) v Hw) as E. unfold update16. cbn [pv with_pv].
  set (X := _ .| _) in *. unfold store16, store8. unfold load16 in E.
  case_cmp; subst; try lia; zlia.
Qed.

Lemma FFlags_small p t : mem_ok (pv p) -> m_fSmallFormat p = true -> TAG_FFlags p t = load16 (pv p) (t + 2) / 8192.
Proof. intros Hm Hs. unfold TAG_FFlags. rewrite Hs. apply flags_of_word, load16_range, Hm. Qed.

Lemma FFlags_large p t : mem_ok (pv p) -> m_fSmallFormat p = false ->
  TAG_FFlags p t = if 2 <=? TAG_Cb p t then pv p (PbFromIb_ p (TAG_Ib p t) + 1) / 32 else 0.
Proof.
  intros Hm Hs. unfold TAG_FFlags. rewrite Hs. destruct (2 <=? TAG_Cb p t); [|reflexivity].
  rewrite flags_of_word by (apply load16_range, Hm). set (a := PbFromIb_ _ _). pose proof (Hm a). pose proof (Hm (a + 1)).
  unfold load16. zlia.
Qed.

Lemma node_flags_load m a n : node_flags (load_bytes m a n) = if 2 <=? n then m (a + 1) / 32 else 0.
Proof.
  unfold load_bytes. destruct (Z.leb_spec 2 n).
  - replace (Z.to_nat n) with (S (S (Z.to_nat (n - 2)))) by lia. reflexivity.
  - assert (Z.to_nat n = 0 \/ Z.to_nat n = 1)%nat as [-> | ->] by lia; reflexivity.
Qed.

(** In the large format the flags of a line are those of its bytes. *)
Lemma content_large p t : mem_ok (pv p) -> m_fSmallFormat p = false ->
  content (line_at p t) = (node_flags (l_bytes (line_at p t)), l_bytes (line_at p t)).
Proof.
  intros Hm Hs. unfold content, line_at. cbn [l_flags l_bytes]. f_equal.
  now rewrite node_flags_load, FFlags_large.
Qed.

(** ** Copying *)

Definition ext (ls : list (list Z)) : list DATA := map DataExt ls.

Lemma CbDataTotal_ext ls : CbDataTotal_ (ext ls) = Z.of_nat (length (concat ls)).
Proof.
  unfold CbDataTotal_, ext.
  assert (G : forall acc, fold_left (fun cb d => cb + DATA_Cb d) (map DataExt ls) acc = acc + Z.of_nat (length (concat ls))).
  { induction ls as [|l ls IH]; intros acc; cbn [fold_left map concat length DATA_Cb]; [lia|].
    rewrite IH, length_app. lia. }
  rewrite G. lia.
Qed.

Lemma copy_loop_ext ls : forall p pb, mem_ok (pv p) ->
  exists m', copy_loop p pb (ext ls) = Some (with_pv p m') /\ mem_ok m' /\ mem_eq m' (store_bytes (pv p) pb (concat ls)).
Proof.
  induction ls as [|l ls IH]; intros p pb Hm.
  { exists (pv p). cbn. split; [now destruct p|]. split; [exact Hm|]. intros a. symmetry. apply store_bytes_frame. cbn; lia. }
  cbn [ext map copy_loop DATA_Cb copy_from concat]. destruct (Z.ltb_spec (Z.of_nat (length l)) 0); [lia|].
  destruct (IH (with_pv p (store_bytes (pv p) pb l)) (pb + Z.of_nat (length l))) as (m' & E & Ok & V);
    [cbn; auto with ese|].
  exists m'. split; [exact E|]. split; [exact Ok|]. intros a. rewrite V. cbn [pv with_pv].
  destruct (Z.lt_ge_cases a pb); [now rewrite !store_bytes_frame by lia|].
  destruct (Z.lt_ge_cases a (pb + Z.of_nat (length l))).
  - rewrite store_bytes_frame, !store_bytes_in by (rewrite ?length_app; lia). rewrite app_nth1 by lia. reflexivity.
  - destruct (Z.lt_ge_cases a (pb + Z.of_nat (length (l ++ concat ls)))).
    + rewrite !store_bytes_in by (rewrite ?length_app in *; lia). rewrite app_nth2 by lia. do 2 f_equal. lia.
    + rewrite !store_bytes_frame by (rewrite ?length_app in *; lia). reflexivity.
Qed.

(** Overwriting the second byte of a line. *)
Lemma load_stamp m m' a l f :
  load_bytes m a (Z.of_nat (length l)) = l -> 2 <= Z.of_nat (length l) ->
  (forall x, m' x = if x =? a + 1 then m (a + 1) mod 32 + 32 * (f mod 8) else m x) ->
  load_bytes m' a (Z.of_nat (length l)) = stamp f l.
Proof.
  intros L Hl V. destruct l as [|b0 [|b1 r]]; cbn [length] in *; [lia..|]. set (n := length r) in *.
  unfold load_bytes in *. rewrite Nat2Z.id in *. cbn [seq map] in *. injection L as E0 E1 Er. cbn [stamp].
  change (Z.of_nat 0) with 0 in *. change (Z.of_nat 1) with 1 in *. rewrite !V. rewrite Z.eqb_refl.
  destruct (Z.eqb_spec (a + 0) (a + 1)); [lia|]. rewrite E0, E1. do 2 f_equal.
  etransitivity; [|exact Er]. apply map_ext_in. intros i Hi. apply in_seq in Hi. rewrite V.
  destruct (Z.eqb_spec (a + Z.of_nat i) (a + 1)); [lia|reflexivity].
Qed.

(** ** Setting flags *)

(** The byte whose top three bits hold the flags that [SetFlags] stores. *)
Definition flag_byte (p : CPAGE) (t : Z) : option Z :=
  if m_fSmallFormat p then Some (t + 3)
  else if negb (PtagFromItag_ p 0 =? t) && (2 <=? TAG_Cb p t) then Some (PbFromIb_ p (TAG_Ib p t) + 1) else None.

Definition set_top3 (m : mem) (oa : option Z) (f : Z) : mem :=
  match oa with Some a => fun x => if x =? a then m a mod 32 + 32 * (f mod 8) else m x | None => m end.

Lemma u16_mod8 f : u16 f mod 8 = f mod 8.
Proof. unfold u16. zlia. Qed.

Lemma TAG_SetFlags_bytes p t f : mem_ok (pv p) ->
  mem_eq (pv (TAG_SetFlags p t f)) (set_top3 (pv p) (flag_byte p t) f).
Proof.
  intros Hm x. unfold TAG_SetFlags, flag_byte. destruct (m_fSmallFormat p); [|destruct (_ && _); [|reflexivity]].
  - cbn [set_top3]. rewrite update_flags_bytes, u16_mod8 by assumption. now rewrite <- Z.add_assoc.
  - cbn [set_top3]. now rewrite update_flags_bytes, u16_mod8 by assumption.
Qed.

Lemma set_top3_twice m oa f g : mem_eq (set_top3 (set_top3 m oa f) oa g) (set_top3 m oa g).
Proof.
  intros x. destruct oa as [a|]; [|reflexivity]. unfold set_top3. rewrite Z.eqb_refl.
  destruct (Z.eqb_spec x a); [|reflexivity]. pose proof (Z.mod_pos_bound (m a) 32 ltac:(lia)).
  rewrite (Z.mul_comm 32 (f mod 8)), Z.mod_add, Z.mod_mod by lia. reflexivity.
Qed.

Lemma set_top3_frame m oa f x : oa <> Some x -> set_top3 m oa f x = m x.
Proof. intros H. destruct oa as [a|]; [|reflexivity]. cbn. destruct (Z.eqb_spec x a); congruence. Qed.

(** The flags read back are the flags set. *)
Lemma FFlags_set_top3 p p' t f a :
  mem_ok (pv p) -> mem_ok (pv p') -> mem_only p p' -> flag_byte p t = Some a -> mem_eq (pv p') (set_top3 (pv p) (Some a) f) ->
  TAG_Cb p' t = TAG_Cb p t -> TAG_Ib p' t = TAG_Ib p t -> TAG_FFlags p' t = f mod 8.
Proof.
  intros Hm Hm' M Hf V Ec Ei. destruct (mem_only_fields _ _ M) as [F _]. unfold flag_byte in Hf.
  assert (Va : pv p' a = pv p a mod 32 + 32 * (f mod 8)) by (rewrite V; cbn; now rewrite Z.eqb_refl).
  pose proof (Hm a). pose proof (Hm' (t + 2)). destruct (m_fSmallFormat p) eqn:Hs.
  - injection Hf as <-. rewrite FFlags_small by (assumption || congruence). unfold load16. replace (t + 2 + 1) with (t + 3) by lia. rewrite Va. zlia.
  - rewrite FFlags_large, Ec, Ei by (assumption || congruence). destruct (negb _); cbn [andb] in Hf; [|discriminate].
    destruct (2 <=? TAG_Cb p t); [|discriminate]. injection Hf as <-.
    unfold PbFromIb_, CbPageHeader in *. rewrite F, Hs in *. rewrite Va. zlia.
Qed.

Section Write.
Variables (p : CPAGE) (t : Z) (ls : list (list Z)) (flags : Z).
Let l := concat ls.
Let pb := PbFromIb_ p (TAG_Ib p t).
Let cb := Z.of_nat (length l).

Hypothesis Hm : mem_ok (pv p).
Hypothesis Hcb : TAG_Cb p t = cb.
Hypothesis Hapart : cb = 0 \/ pb + cb <= t.
Hypothesis Hl : bytes_ok l.

Let touched (a : Z) : Prop := (pb <= a < pb + cb) \/ t + 2 <= a < t + 4.

Lemma flag_byte_touched a : flag_byte p t = Some a -> touched a.
Proof.
  unfold flag_byte, touched. destruct (m_fSmallFormat p); [intros E; injection E as <-; lia|].
  destruct (negb _); cbn [andb]; [|discriminate]. destruct (Z.leb_spec 2 (TAG_Cb p t)); [|discriminate].
  intros E. injection E as <-. fold pb. lia.
Qed.

Lemma flag_byte_outside a : flag_byte p t = Some a -> a = t + 3 \/ pb <= a < pb + cb.
Proof.
  unfold flag_byte. destruct (m_fSmallFormat p); [intros E; injection E as <-; lia|].
  destruct (negb _); cbn [andb]; [|discriminate]. destruct (Z.leb_spec 2 (TAG_Cb p t)); [|discriminate].
  intros E. injection E as <-. fold pb. lia.
Qed.

Lemma SetFlags_Cb_Ib f : TAG_Cb (TAG_SetFlags p t f) t = TAG_Cb p t /\ TAG_Ib (TAG_SetFlags p t f) t = TAG_Ib p t.
Proof.
  destruct (Z.lt_ge_cases cb 2) as [H2|H2].
  - destruct (m_fSmallFormat p) eqn:Hs.
    + split; [apply TAG_SetFlags_Cb | apply TAG_SetFlags_Ib]; auto.
    + assert (E : TAG_SetFlags p t f = p); [|now rewrite E].
      unfold TAG_SetFlags. rewrite Hs. destruct (Z.leb_spec 2 (TAG_Cb p t)); [lia|]. now rewrite andb_false_r.
  - split; [apply TAG_SetFlags_Cb | apply TAG_SetFlags_Ib]; auto; right; right; fold pb; lia.
Qed.

(** The bytes after the flags and the data are written. *)
Definition written : mem := set_top3 (store_bytes (pv p) pb l) (flag_byte p t) flags.

Lemma store_bytes_cong m1 m2 a k : mem_eq m1 m2 -> mem_eq (store_bytes m1 a k) (store_bytes m2 a k).
Proof. intros E x. unfold store_bytes. destruct (_ && _); [reflexivity|apply E]. Qed.

(** Flags set before the copy are still there, or are set again after it. *)
Lemma written_once m' : mem_eq m' (store_bytes (set_top3 (pv p) (flag_byte p t) flags) pb l) ->
  (m_fSmallFormat p = true -> mem_eq m' written) /\ (flag_byte p t = None -> mem_eq m' written).
Proof.
  intros V. unfold written. split; intros H x; rewrite V.
  - unfold flag_byte. rewrite H. cbn [set_top3]. unfold touched in *.
    destruct (Z.eqb_spec x (t + 3)) as [->|Hx].
    + rewrite !store_bytes_frame by (fold cb; lia). now rewrite Z.eqb_refl.
    + unfold store_bytes. destruct (_ && _); [reflexivity|]. destruct (Z.eqb_spec x (t + 3)); [lia|reflexivity].
  - rewrite H. reflexivity.
Qed.

Lemma written_twice m' : mem_eq m' (store_bytes (set_top3 (pv p) (flag_byte p t) flags) pb l) ->
  mem_eq (set_top3 m' (flag_byte p t) (flags mod 8)) written.
Proof.
  intros V x. unfold written. destruct (flag_byte p t) as [a|] eqn:Ef; [|cbn; apply V]. cbn [set_top3] in *.
  rewrite Z.mod_mod, !V by lia. destruct (Z.eqb_spec x a) as [->|Hx].
  - unfold store_bytes. destruct (_ && _); [reflexivity|]. rewrite Z.eqb_refl.
    rewrite (Z.mul_comm 32 (flags mod 8)), Z.mod_add, Z.mod_mod by lia. reflexivity.
  - unfold store_bytes. destruct (_ && _); [reflexivity|]. destruct (Z.eqb_spec x a); [lia|reflexivity].
Qed.

Lemma write_mem : exists p', CopyData_ (TAG_SetFlags p t flags) t (ext ls) = Some p' /\ mem_only p p' /\
  mem_ok (pv p') /\ mem_eq (pv p') written.
Proof.
  set (pA := TAG_SetFlags p t flags). assert (MA : mem_only p pA) by apply TAG_SetFlags_mem_only.
  assert (OkA : mem_ok (pv pA)) by now apply TAG_SetFlags_ok.
  assert (VA : mem_eq (pv pA) (set_top3 (pv p) (flag_byte p t) flags)) by now apply TAG_SetFlags_bytes.
  destruct (SetFlags_Cb_Ib flags) as [CA IA]. fold pA in CA, IA. destruct (mem_only_fields _ _ MA) as (FA & BA & _).
  unfold CopyData_. replace (PbFromIb_ pA (TAG_Ib pA t)) with pb
    by (unfold pb, PbFromIb_, CbPageHeader; now rewrite IA, FA).
  destruct (copy_loop_ext ls pA pb OkA) as (m' & -> & OkB & VB). fold l in VB.
  assert (V : mem_eq m' (store_bytes (set_top3 (pv p) (flag_byte p t) flags) pb l))
    by (intros x; rewrite VB; apply store_bytes_cong, VA).
  set (pB := with_pv pA m'). assert (MB : mem_only p pB) by (eapply mem_only_trans; [exact MA|reflexivity]).
  assert (T0 : PtagFromItag_ pB 0 = PtagFromItag_ p 0) by (unfold PtagFromItag_; cbn; now rewrite BA).
  destruct (Z.eqb_spec (PtagFromItag_ pB 0) t) as [E0|E0]; cbn [negb].
  - exists pB. split; [reflexivity|]. split; [exact MB|]. split; [exact OkB|].
    destruct (written_once m' V) as [W1 W2]. destruct (m_fSmallFormat p) eqn:Hs; [auto|]. apply W2.
    unfold flag_byte. rewrite Hs, <- T0, E0, Z.eqb_refl. reflexivity.
  - exists (TAG_SetFlags pB t (TAG_FFlags pA t)). split; [reflexivity|].
    split; [eapply mem_only_trans; [exact MB|apply TAG_SetFlags_mem_only]|]. split; [now apply TAG_SetFlags_ok|].
    assert (KB : TAG_Cb pB t = TAG_Cb p t /\ TAG_Ib pB t = TAG_Ib p t).
    { assert (K : keeps (fun a => a < pb \/ pb + cb <= a) pA pB)
        by (intros a Ha; cbn [pv pB with_pv]; rewrite VB; now apply store_bytes_frame).
      rewrite <- CA, <- IA. split; [apply (keeps_TAG_Cb _ _ _ _ K) | apply (keeps_TAG_Ib _ _ _ _ K)]; try lia; reflexivity. }
    destruct KB as [CB IB]. intros x. rewrite TAG_SetFlags_bytes by exact OkB.
    assert (FB : flag_byte pB t = flag_byte p t).
    { unfold flag_byte. rewrite T0, CB, IB. unfold PbFromIb_, CbPageHeader. cbn. now rewrite FA. }
    rewrite FB. cbn [pv pB with_pv]. destruct (flag_byte p t) as [a|] eqn:Ef.
    + rewrite (FFlags_set_top3 p pA t flags a) by assumption. rewrite <- Ef in *. now apply written_twice.
    + cbn [set_top3]. rewrite <- Ef in V. now apply (proj2 (written_once m' V)).
Qed.
Lemma written_keeps x : ~ touched x -> written x = pv p x.
Proof.
  intros H. unfold written. rewrite set_top3_frame.
  - apply store_bytes_frame. unfold touched in H. fold cb. lia.
  - intros E. now apply flag_byte_touched in E.
Qed.

Lemma written_word_large x : m_fSmallFormat p = false -> t <= x -> written x = pv p x.
Proof.
  intros Hs Hx. destruct (flag_byte p t) as [a|] eqn:Ef.
  - unfold written. rewrite Ef. unfold flag_byte in Ef. rewrite Hs in Ef.
    destruct (negb _); cbn [andb] in Ef; [|discriminate]. destruct (Z.leb_spec 2 (TAG_Cb p t)); [|discriminate].
    injection Ef as <-. fold pb. rewrite set_top3_frame by (intros E; injection E as E; lia).
    apply store_bytes_frame. fold cb. lia.
  - unfold written. rewrite Ef. cbn [set_top3]. apply store_bytes_frame. fold cb. lia.
Qed.

Lemma written_word_small : m_fSmallFormat p = true ->
  load16 written (t + 2) = load16 (pv p) (t + 2) mod 8192 + 8192 * (flags mod 8).
Proof.
  intros Hs. pose proof (Hm (t + 2)). pose proof (Hm (t + 2 + 1)). unfold written, flag_byte. rewrite Hs. unfold load16.
  cbn [set_top3]. replace (t + 2 + 1) with (t + 3) in * by lia. rewrite Z.eqb_refl.
  destruct (Z.eqb_spec (t + 2) (t + 3)); [lia|]. rewrite !store_bytes_frame by (fold cb; lia). zlia.
Qed.

Lemma written_flags : m_fSmallFormat p = true -> load16 written (t + 2) / 8192 = flags mod 8.
Proof. intros Hs. rewrite written_word_small by exact Hs. zlia. Qed.

Lemma written_Ib : TAG_Ib (with_pv p written) t = TAG_Ib p t.
Proof.
  unfold TAG_Ib, PtagIb. cbn [m_fSmallFormat with_pv pv]. destruct (m_fSmallFormat p) eqn:Hs.
  - rewrite written_word_small by exact Hs. change mskSmallTagIbCb with (Z.ones 13). rewrite !Z.land_ones by lia.
    change (2 ^ 13) with 8192. zlia.
  - f_equal. apply load16_ext. intros x Hx. apply written_word_large; [exact Hs|lia].
Qed.

Lemma TAG_Ib_ext p' : mem_only p p' -> mem_eq (pv p') written -> TAG_Ib p' t = TAG_Ib (with_pv p written) t.
Proof.
  intros M V. destruct (mem_only_fields _ _ M) as (F & _). unfold TAG_Ib, PtagIb. rewrite F. cbn [m_fSmallFormat with_pv pv].
  now rewrite (load16_ext _ _ _ (fun x _ => V x)).
Qed.

Lemma stored_bytes : load_bytes (store_bytes (pv p) pb l) pb cb = l.
Proof. apply (load_store_bytes (pv p)); [reflexivity | exact Hl]. Qed.

Lemma written_bytes_small : m_fSmallFormat p = true -> load_bytes written pb cb = l.
Proof.
  intros Hs. etransitivity; [|exact stored_bytes]. apply load_bytes_ext. intros x Hx. unfold written. apply set_top3_frame.
  unfold flag_byte. rewrite Hs. intros E. injection E as E. lia.
Qed.

Lemma written_bytes_large : m_fSmallFormat p = false ->
  load_bytes written pb cb = if PtagFromItag_ p 0 =? t then l else stamp flags l.
Proof.
  intros Hs. unfold written. destruct (flag_byte p t) as [a|] eqn:Ef; unfold flag_byte in Ef; rewrite Hs, Hcb in Ef;
    destruct (PtagFromItag_ p 0 =? t) eqn:E0; cbn [negb andb] in Ef.
  - discriminate.
  - destruct (Z.leb_spec 2 cb); [|discriminate]. injection Ef as <-. fold pb.
    apply (load_stamp (store_bytes (pv p) pb l)); [apply stored_bytes|assumption|]. intros x. reflexivity.
  - apply stored_bytes.
  - destruct (Z.leb_spec 2 cb); [discriminate|]. cbn [set_top3]. rewrite stored_bytes. unfold cb in *.
    destruct l as [|b0 [|b1 r]]; cbn [length] in *; reflexivity || lia.
Qed.

Record wrote (p' : CPAGE) : Prop := {
  w_mem_only : mem_only p p';
  w_ok : mem_ok (pv p');
  w_keeps : keeps (fun a => ~ ((pb <= a < pb + cb) \/ t + 2 <= a < t + 4)) p p';
  w_Cb : TAG_Cb p' t = cb;
  w_Ib : TAG_Ib p' t = TAG_Ib p t;
  w_content : content (line_at p' t) = stored (m_fSmallFormat p) (PtagFromItag_ p 0 =? t) flags l
}.

Lemma written_wrote p' : mem_only p p' -> mem_ok (pv p') -> mem_eq (pv p') written -> wrote p'.
Proof.
  intros M Ok V.
  destruct (mem_only_fields _ _ M) as (F & _).
  assert (K : keeps (fun a => ~ touched a) p p') by (intros a Ha; rewrite V; now apply written_keeps).
  assert (Ec : TAG_Cb p' t = TAG_Cb p t) by (apply (keeps_TAG_Cb _ _ _ _ K M); unfold touched; lia).
  assert (Ei : TAG_Ib p' t = TAG_Ib p t) by (rewrite <- written_Ib; now apply TAG_Ib_ext).
  assert (Lb : l_bytes (line_at p' t) = load_bytes written pb cb).
  { cbn. rewrite Ei, Ec, Hcb. unfold PbFromIb_, CbPageHeader. rewrite F. apply load_bytes_ext. intros x _. apply V. }
  constructor; auto; [congruence|]. unfold stored. destruct (m_fSmallFormat p) eqn:Hs.
  - unfold content. rewrite Lb, written_bytes_small by exact Hs. f_equal. cbn.
    rewrite FFlags_small by (assumption || congruence). now rewrite (load16_ext _ _ _ (fun x _ => V x)), written_flags.
  - rewrite content_large by (assumption || congruence). now rewrite Lb, written_bytes_large.
Qed.

Lemma write_spec : exists p', CopyData_ (TAG_SetFlags p t flags) t (ext ls) = Some p' /\ wrote p'.
Proof. destruct write_mem as (p' & E & M & Ok & V). exists p'. split; [exact E|]. now apply written_wrote. Qed.
End Write.
