(* ===== verification/PageInsert.v ===== *)
(** * Inserting a line

    [Insert_] succeeds exactly when the line and its tag fit in the free space,
    keeps the page well formed, and inserts one line into the page's view. *)

From Stdlib Require Import ZArith List Lia Bool Permutation.
From S2P Require Import Prelude Bits Mem Checksum ChecksumErrors PageChecksum Page PageLayout PageTags PageReorg PageTagArray.
Import ListNotations.

(** The invariant of a page with a new number of tags. *)
Lemma inv_retagged p p' n :
  page_inv p -> retagged p p' n -> mem_ok (pv p') -> InitItagState p' = p' ->
  1 <= n <= ITAG_MIC_FREE_MASK -> m_ctagReserved p <= n ->
  CbPageHeader p + ibMicFree p' + 4 * n <= cbBuffer p -> layout (ibMicFree p') (lines p') ->
  cbFree p' = cbBuffer p - CbPageHeader p - 4 * n - cb_total (lines p') -> page_inv p'.
Proof.
  intros Inv M Ok St Hn Hr Rm Ly Fr. destruct (retagged_fields _ _ _ M) as (F1 & F2 & F3 & F4 & F5 & _).
  assert (FH : CbPageHeader p' = CbPageHeader p) by (unfold CbPageHeader; now rewrite F1).
  destruct Inv. constructor; rewrite ?F1, ?F2, ?F3, ?F4, ?F5; auto.
  - unfold CbContiguousBufferFree_, CbBufferData, CbTagArray_, sizeof_TAG. rewrite F2, F4, FH. lia.
  - unfold CbBufferData, CbTagArray_, sizeof_TAG. rewrite F2, F4, FH. lia.
Qed.

(** ** Giving a tag its space *)

Lemma set_cbFree_keeps p v : keeps (fun a => a < 28 \/ 30 <= a) p (set_cbFree p v).
Proof. intros a Ha. cbn. now apply store16_frame. Qed.

Lemma set_ibMicFree_keeps p v : keeps (fun a => a < 32 \/ 34 <= a) p (set_ibMicFree p v).
Proof. intros a Ha. cbn. now apply store16_frame. Qed.

Lemma set_cbFree_eq p v : 0 <= v < 65536 -> cbFree (set_cbFree p v) = v.
Proof. intros Hv. unfold cbFree. cbn. now rewrite load16_store16_eq, u16_small. Qed.

Lemma TAG_SetFlags_keeps_empty p t f : TAG_Cb p t < 2 -> keeps (fun a => a < t + 2 \/ t + 4 <= a) p (TAG_SetFlags p t f).
Proof.
  intros Hc a Ha. unfold TAG_SetFlags. destruct (m_fSmallFormat p).
  - apply (update16_keeps p (t + 2)). lia.
  - destruct (Z.leb_spec 2 (TAG_Cb p t)); [lia|]. now rewrite andb_false_r.
Qed.

(** The statements of [Insert_] between the expansion of the tag array and the
    update of [cbFree]. *)
Definition alloc (p : CPAGE) (t cb : Z) : CPAGE :=
  let p := TAG_SetCb p t 0 in
  let p := TAG_SetIb p t 0 in
  let p := TAG_SetFlags p t 0 in
  let p := TAG_SetIb p t (ibMicFree p) in
  let p := set_ibMicFree p (u16 (ibMicFree p + cb)) in
  TAG_SetCb p t cb.

Section Alloc.
Variables (p : CPAGE) (t cb : Z).
Hypothesis Hm : mem_ok (pv p).
Hypothesis Ht : 34 <= t.
Hypothesis Hcb : 0 <= cb.
Hypothesis Hmask : ibMicFree p + cb <= mskTagIbCb (m_fSmallFormat p).

Let p1 := TAG_SetIb (TAG_SetCb p t 0) t 0.
Let p2 := TAG_SetFlags p1 t 0.
Let p3 := TAG_SetIb p2 t (ibMicFree p2).
Let p4 := set_ibMicFree p3 (u16 (ibMicFree p3 + cb)).

Lemma alloc_empty : TAG_Cb p1 t = 0.
Proof. unfold p1. rewrite TAG_SetIb_Cb, TAG_SetCb_Cb; [reflexivity|apply mask_zero]. Qed.

Lemma alloc_p2_keeps : keeps (fun a => a < t \/ t + 4 <= a) p p2.
Proof.
  eapply keeps_trans; [|eapply keeps_weaken; [|apply TAG_SetFlags_keeps_empty; rewrite alloc_empty; lia]].
  - eapply keeps_trans; eapply keeps_weaken; [|apply (update16_keeps p t)| |apply update16_keeps]; cbv beta; lia.
  - cbv beta; lia.
Qed.

Lemma alloc_p2_ib : ibMicFree p2 = ibMicFree p.
Proof. apply (keeps_load16 _ _ _ _ alloc_p2_keeps); lia. Qed.

Lemma alloc_p3_keeps : keeps (fun a => a < t \/ t + 4 <= a) p p3.
Proof. eapply keeps_trans; [apply alloc_p2_keeps|]. eapply keeps_weaken; [|apply update16_keeps]. cbv beta; lia. Qed.

Lemma alloc_p3_ib : ibMicFree p3 = ibMicFree p.
Proof. apply (keeps_load16 _ _ _ _ alloc_p3_keeps); lia. Qed.

Lemma alloc_mem_only : mem_only p (alloc p t cb).
Proof.
  unfold alloc. cbv zeta. eapply mem_only_trans; [|apply TAG_SetCb_mem_only].
  eapply mem_only_trans; [|reflexivity]. eapply mem_only_trans; [|apply TAG_SetIb_mem_only].
  eapply mem_only_trans; [|apply TAG_SetFlags_mem_only]. reflexivity.
Qed.

Lemma alloc_ok : mem_ok (pv (alloc p t cb)).
Proof. apply update16_ok, store16_ok, update16_ok, TAG_SetFlags_ok, update16_ok, update16_ok, Hm. Qed.

Lemma alloc_keeps : keeps (fun a => a < 32 \/ 34 <= a < t \/ t + 4 <= a) p (alloc p t cb).
Proof.
  eapply keeps_trans; [eapply keeps_weaken; [|apply alloc_p3_keeps]; cbv beta; lia|].
  apply (keeps_trans _ _ p4); eapply keeps_weaken; [|apply set_ibMicFree_keeps| |apply (update16_keeps p4 t)]; cbv beta; lia.
Qed.

Lemma alloc_fmt : m_fSmallFormat p2 = m_fSmallFormat p.
Proof.
  assert (M : mem_only p p2) by (eapply mem_only_trans; [|apply TAG_SetFlags_mem_only]; reflexivity).
  now destruct (mem_only_fields _ _ M) as [-> _].
Qed.

Lemma alloc_Cb : TAG_Cb (alloc p t cb) t = cb.
Proof.
  apply (TAG_SetCb_Cb p4). change (m_fSmallFormat p4) with (m_fSmallFormat p2). rewrite alloc_fmt.
  pose proof (load16_range (pv p) Hm 32). unfold ibMicFree in Hmask. lia.
Qed.

Lemma alloc_Ib : TAG_Ib (alloc p t cb) t = ibMicFree p.
Proof.
  change (TAG_Ib (TAG_SetCb p4 t cb) t = ibMicFree p). rewrite TAG_SetCb_Ib.
  rewrite (keeps_TAG_Ib _ p3 p4 t (set_ibMicFree_keeps _ _)); [|reflexivity|lia..].
  unfold p3. rewrite alloc_p2_ib. apply TAG_SetIb_Ib. rewrite alloc_fmt.
  pose proof (load16_range (pv p) Hm 32). unfold ibMicFree in *. lia.
Qed.

Lemma alloc_ibMicFree : ibMicFree (alloc p t cb) = ibMicFree p + cb.
Proof.
  pose proof (mask_bound (m_fSmallFormat p)). pose proof (load16_range (pv p) Hm 32). fold (ibMicFree p) in *.
  transitivity (ibMicFree p4); [apply (keeps_load16 _ _ _ _ (update16_keeps p4 t _ _)); lia|].
  unfold p4. rewrite alloc_p3_ib, u16_small by lia. apply set_ibMicFree_eq. lia.
Qed.

Lemma alloc_cbFree : cbFree (alloc p t cb) = cbFree p.
Proof. apply (keeps_load16 _ _ _ _ alloc_keeps); lia. Qed.
End Alloc.

(** ** Insertion into contiguous free space *)

Section Placed.
Variables (p : CPAGE) (itag : Z) (ls : list (list Z)) (flags : Z).
Let l := concat ls.
Let cb := Z.of_nat (length l).
Let n := m_itagMicFree p.
Let U := ibMicFree p.
Let H := CbPageHeader p.

Hypothesis Inv : page_inv p.
Hypothesis Hi : 0 <= itag <= n.
Hypothesis Hr : m_ctagReserved p <= n + 1.
Hypothesis Hn : n < ITAG_MIC_FREE_MASK.
Hypothesis Hl : bytes_ok l.
Hypothesis Hcb : cb + sizeof_TAG <= CbContiguousFree_ p.

Ltac plia := unfold H, U, n, cb in *; lia.

Let pE := ExpandTagArray_ p itag.
Let t := PtagFromItag_ pE itag.
Let pA := alloc pE t cb.
Let pC := set_cbFree pA (u16 (cbFree pA - (cb + sizeof_TAG))).

Lemma pl_space : H + U + cb + 4 * (n + 1) <= cbBuffer p.
Proof. rewrite (CbContiguousFree_eq p Inv) in Hcb. unfold sizeof_TAG in *. plia. Qed.

Lemma pl_U : 0 <= U < 65536.
Proof. apply (ibMicFree_range p Inv). Qed.

Lemma pl_E : retagged p pE (n + 1) /\ mem_ok (pv pE) /\ InitItagState pE = pE /\
  forall a, a < 34 \/ 36 <= a -> pv pE a = opened p itag a.
Proof.
  pose proof (inv_tags p Inv). pose proof (header_size p). pose proof pl_space. pose proof pl_U.  
  assert (HS : 36 <= cbBuffer p - 4 * (n + 1)) by plia. assert (Hn' : 0 <= n < ITAG_MIC_FREE_MASK) by plia.
  split; [|split; [|split]].
  - apply expand_retagged; auto; apply Inv.
  - apply expand_ok; auto; apply Inv.
  - apply expand_state; auto using resv_condition; apply Inv.
  - apply expand_bytes; auto; apply Inv.
Qed.

Lemma pl_t : t = cbBuffer p - 4 * (itag + 1) /\ H + U + cb <= t.
Proof.
  destruct pl_E as (R & _). destruct (retagged_fields _ _ _ R) as (_ & F & _). pose proof pl_space.
  unfold t, PtagFromItag_, sizeof_TAG. rewrite F. plia.
Qed.

Lemma pl_E_ib : ibMicFree pE = U.
Proof.
  destruct pl_E as (_ & _ & _ & B). pose proof pl_space. pose proof pl_U. pose proof (header_size p). 
  pose proof (inv_tags p Inv). apply load16_ext. intros a Ha. rewrite B by plia. unfold opened.
  case_cmp; cbn [andb]; reflexivity || plia.
Qed.

Lemma pl_E_free : cbFree pE = cbFree p.
Proof.
  destruct pl_E as (_ & _ & _ & B). pose proof pl_space. pose proof pl_U. pose proof (header_size p). 
  pose proof (inv_tags p Inv). apply load16_ext. intros a Ha. rewrite B by plia. unfold opened.
  case_cmp; cbn [andb]; reflexivity || plia.
Qed.

Lemma pl_mask : U + cb <= mskTagIbCb (m_fSmallFormat pE).
Proof.
  destruct pl_E as (R & _). destruct (retagged_fields _ _ _ R) as (-> & _). pose proof (mask_fits p Inv). pose proof pl_space.
  pose proof (inv_tags p Inv).  plia.
Qed.

Lemma pl_room : 0 <= cbFree p - (cb + sizeof_TAG) < 65536.
Proof. pose proof (contiguous_le_free p Inv). pose proof (cbFree_range p Inv). unfold cb, sizeof_TAG in *. plia. Qed.

(** The page just before the data is copied. *)
Lemma pl_C : mem_only pE pC /\ mem_ok (pv pC) /\ TAG_Cb pC t = cb /\ TAG_Ib pC t = U /\ ibMicFree pC = U + cb /\
  cbFree pC = cbFree p - (cb + sizeof_TAG) /\
  keeps (fun a => a < 28 \/ 30 <= a < 32 \/ 34 <= a < t \/ t + 4 <= a) pE pC.
Proof.
  destruct pl_E as (R & Ok & _ & _). destruct pl_t as [Et Ht]. pose proof pl_U. pose proof pl_mask as Hmask. pose proof (header_size p).
   rewrite <- pl_E_ib in Hmask. assert (H34 : 34 <= t) by (unfold cb in *; plia). assert (Hcb0 : 0 <= cb) by (unfold cb; plia).
  assert (KC : keeps (fun a => a < 28 \/ 30 <= a) pA pC) by apply set_cbFree_keeps.
  assert (MC : mem_only pA pC) by reflexivity. split; [|split; [|split; [|split; [|split; [|split]]]]].
  - eapply mem_only_trans; [apply alloc_mem_only|reflexivity].
  - apply store16_ok, alloc_ok, Ok.
  - rewrite (keeps_TAG_Cb _ _ _ _ KC MC) by plia. now apply alloc_Cb.
  - rewrite (keeps_TAG_Ib _ _ _ _ KC MC), <- pl_E_ib by plia. now apply alloc_Ib.
  - transitivity (ibMicFree pA); [apply (keeps_load16 _ _ _ _ KC); plia|]. rewrite <- pl_E_ib. now apply alloc_ibMicFree.
  - unfold pC. rewrite set_cbFree_eq by apply u16_range. unfold pA. rewrite alloc_cbFree, pl_E_free by auto.
    apply u16_small, pl_room.
  - eapply keeps_trans; eapply keeps_weaken; [|apply alloc_keeps; auto| |exact KC]; cbv beta; plia.
Qed.

Section Final.
Variable p' : CPAGE.
Hypothesis W : wrote pC t ls (u16 flags) p'.

Lemma fin_mem_only : mem_only pE p'.
Proof. eapply mem_only_trans; [apply pl_C | apply W]. Qed.

Lemma fin_retagged : retagged p p' (n + 1).
Proof. eapply mem_only_retagged; [apply pl_E | apply fin_mem_only]. Qed.

Lemma fin_Pb i : PbFromIb_ pC i = H + i.
Proof.
  destruct (mem_only_fields _ _ (proj1 pl_C)) as (F1 & _). destruct (retagged_fields _ _ _ (proj1 pl_E)) as (F2 & _).
  unfold PbFromIb_, CbPageHeader. rewrite F1, F2. reflexivity.
Qed.

Lemma fin_keeps_E :
  keeps (fun a => (a < 28 \/ 30 <= a < 32 \/ 34 <= a < t \/ t + 4 <= a) /\ (a < H + U \/ H + U + cb <= a)) pE p'.
Proof.
  destruct pl_C as (M & Ok & C & I & _ & _ & K).
  eapply keeps_trans; eapply keeps_weaken; [|exact K| |apply (w_keeps _ _ _ _ _ W)]; cbv beta; [plia|].
  intros a. destruct pl_t as [Et Ht]. pose proof pl_U. pose proof (header_size p). rewrite I, fin_Pb. fold l cb. plia.
Qed.

(** The bytes of [p'] in terms of those of [p], away from the new line. *)
Lemma fin_keeps a :
  a < 28 \/ 30 <= a < 32 \/ 36 <= a < H + U \/ t + 4 <= a -> pv p' a = pv p a.
Proof.
  intros Ha. destruct pl_E as (_ & _ & _ & B). destruct pl_t as [Et Ht]. pose proof pl_U. pose proof (header_size p).
  pose proof pl_space. rewrite fin_keeps_E by plia. rewrite B by plia. unfold opened. case_cmp; cbn [andb]; reflexivity || plia.
Qed.

Lemma fin_moved a : cbBuffer p - 4 * (n + 1) <= a < t -> pv p' a = pv p (a + 4).
Proof.
  intros Ha. destruct pl_E as (_ & _ & _ & B). destruct pl_t as [Et Ht]. pose proof pl_U. pose proof (header_size p).
  pose proof pl_space. rewrite fin_keeps_E by plia. rewrite B by plia. unfold opened. case_cmp; cbn [andb]; reflexivity || plia.
Qed.

Lemma fin_data k x : 0 <= k < n -> 0 <= x < TAG_Cb p (PtagFromItag_ p k) ->
  pv p' (PbFromIb_ p (TAG_Ib p (PtagFromItag_ p k)) + x) = pv p (PbFromIb_ p (TAG_Ib p (PtagFromItag_ p k)) + x).
Proof.
  intros Hk Hx. apply fin_keeps. pose proof (line_below p Inv k Hk). pose proof (header_size p). unfold PbFromIb_. plia.
Qed.

Lemma fin_fmt : m_fSmallFormat p' = m_fSmallFormat p /\ cbBuffer p' = cbBuffer p.
Proof. destruct (retagged_fields _ _ _ fin_retagged) as (F1 & F2 & _). auto. Qed.

Lemma fin_before k : 0 <= k < itag -> tag_line p' k = tag_line p k.
Proof.
  intros Hk. destruct fin_fmt as [F1 F2]. destruct pl_t as [Et Ht]. apply line_at_same; [exact F1| |intros x Hx; apply fin_data; [plia|exact Hx]].
  intros x Hx. unfold PtagFromItag_, sizeof_TAG. rewrite F2. apply fin_keeps. plia.
Qed.

Lemma fin_after k : itag <= k < n -> tag_line p' (k + 1) = tag_line p k.
Proof.
  intros Hk. destruct fin_fmt as [F1 F2]. destruct pl_t as [Et Ht]. apply line_at_same; [exact F1| |intros x Hx; apply fin_data; [plia|exact Hx]].
  intros x Hx. unfold PtagFromItag_, sizeof_TAG. rewrite F2, fin_moved by plia. f_equal. lia.
Qed.

Lemma fin_lines : lines p' = insert_at (Z.to_nat itag) (tag_line p' itag) (lines p).
Proof.
  apply lines_insert; [|exact Hi|exact fin_before|exact fin_after].
  now destruct (retagged_fields _ _ _ fin_retagged) as (_ & _ & _ & F & _).
Qed.

Lemma fin_t : PtagFromItag_ p' itag = t.
Proof. destruct pl_t as [Et _]. rewrite Et. unfold PtagFromItag_, sizeof_TAG. now rewrite (proj2 fin_fmt). Qed.

Lemma fin_new : l_ib (tag_line p' itag) = U /\ l_cb (tag_line p' itag) = cb /\
  content (tag_line p' itag) = stored (m_fSmallFormat p) (itag =? 0) flags l.
Proof.
  unfold tag_line. rewrite fin_t. destruct pl_C as (M & _ & C & I & _). split; [|split].
  - cbn. now rewrite (w_Ib _ _ _ _ _ W).
  - rewrite l_cb_line_at. apply (w_Cb _ _ _ _ _ W).
  - rewrite (w_content _ _ _ _ _ W). destruct (mem_only_fields _ _ M) as (F1 & F2 & _).
    destruct (retagged_fields _ _ _ (proj1 pl_E)) as (G1 & G2 & _). rewrite F1, G1.
    assert (T0 : (PtagFromItag_ pC 0 =? t) = (itag =? 0)).
    { destruct pl_t as [Et _]. rewrite Et. unfold PtagFromItag_, sizeof_TAG. rewrite F2, G2. case_cmp; reflexivity || lia. }
    rewrite T0. unfold stored. now rewrite u16_mod8; unfold stamp; rewrite u16_mod8.
Qed.

Lemma fin_view :
  view p' = insert_at (Z.to_nat itag) (stored (m_fSmallFormat p) (itag =? 0) flags l) (view p).
Proof. unfold view. rewrite fin_lines, insert_at_map. now destruct fin_new as (_ & _ & ->). Qed.

Lemma fin_header : ibMicFree p' = U + cb /\ cbFree p' = cbFree p - (cb + sizeof_TAG) /\ itagState p' = itagState pE.
Proof.
  destruct pl_C as (M & _ & C & I & Eib & Efree & _). destruct pl_t as [Et Ht]. pose proof pl_U. pose proof (header_size p).
  rewrite <- Eib, <- Efree.
  assert (K : keeps (fun a => a < H + U) pC p').
  { eapply keeps_weaken; [|apply (w_keeps _ _ _ _ _ W)]. cbv beta. intros a. rewrite I, fin_Pb. fold l cb. plia. }
  split; [|split]; [apply (keeps_load16 _ _ _ _ K); plia.. |].
  apply (keeps_load16 _ _ _ _ fin_keeps_E); plia.
Qed.

Lemma fin_inv : page_inv p'.
Proof.
  destruct fin_header as (Eib & Efree & Est). destruct fin_new as (Nib & Ncb & _). pose proof pl_space. pose proof (inv_tags p Inv).
  pose proof (inv_resv p Inv).
  assert (Perm := insert_at_perm (Z.to_nat itag) (tag_line p' itag) (lines p)). rewrite <- fin_lines in Perm.
  apply (inv_retagged p p' (n + 1)); auto using fin_retagged; try plia.
  - apply W.
  - apply inv_state_iff. rewrite Est. destruct pl_E as (R & _ & S & _). apply inv_state_iff in S.
    destruct (mem_only_fields _ _ fin_mem_only) as (_ & _ & _ & -> & -> & _). exact S.
  - rewrite Eib. apply (layout_perm _ _ _ (Permutation_sym Perm)). rewrite <- Ncb. apply layout_push; auto.
    + apply Inv.
    + apply pl_U.
  - rewrite Efree, (cb_total_perm _ _ Perm), (cbFree_eq p Inv). cbn [cb_total fold_right]. fold (cb_total (lines p)).
    rewrite Ncb. unfold sizeof_TAG. plia.
Qed.
End Final.

(** The statements of [Insert_] after [FreeSpace_]. *)
Lemma placed : exists p', CopyData_ (TAG_SetFlags pC t (u16 flags)) t (ext ls) = Some p' /\
  retagged p p' (n + 1) /\ page_inv p' /\
  view p' = insert_at (Z.to_nat itag) (stored (m_fSmallFormat p) (itag =? 0) flags l) (view p) /\
  keeps (fun a => a < 28 \/ 30 <= a < 32 \/ 36 <= a < H \/ cbBuffer p <= a) p p'.
Proof.
  destruct pl_C as (M & Ok & C & I & _). destruct pl_t as [Et Ht]. pose proof pl_U.
  destruct (write_spec pC t ls (u16 flags) Ok C) as (p' & E & W); [|exact Hl|].
  { right. rewrite I, fin_Pb. exact Ht. }
  exists p'. split; [exact E|]. split; [now apply fin_retagged|]. split; [now apply fin_inv|].
  split; [now apply fin_view|]. intros a Ha. apply fin_keeps; [exact W|]. plia.
Qed.
End Placed.

Lemma Insert_unfold `{Srt : StdSort} p itag ls flags p1 :
  let cb := Z.of_nat (length (concat ls)) in
  cb < 65536 -> FreeSpace_ p (cb + sizeof_TAG) = Some p1 ->
  let pE := ExpandTagArray_ p1 itag in
  let t := PtagFromItag_ pE itag in
  let pA := alloc pE t cb in
  Insert_ p itag (ext ls) flags =
  CopyData_ (TAG_SetFlags (set_cbFree pA (u16 (cbFree pA - (cb + sizeof_TAG)))) t (u16 flags)) t (ext ls).
Proof.
  intros cb Hcb E pE t pA. unfold Insert_. rewrite CbDataTotal_ext. fold cb. rewrite (u16_small cb) by (unfold cb in *; lia).
  cbv zeta. rewrite E. reflexivity.
Qed.

Section Insert.
Context `{Srt : StdSort}.
Variables (p : CPAGE) (itag : Z) (ls : list (list Z)) (flags : Z).
Let l := concat ls.
Let cb := Z.of_nat (length l).
Hypothesis Inv : page_inv p.

Lemma Insert_some :
  0 <= itag <= m_itagMicFree p -> m_itagMicFree p < ITAG_MIC_FREE_MASK -> bytes_ok l -> cb + sizeof_TAG <= cbFree p ->
  exists p', Insert_ p itag (ext ls) flags = Some p' /\ retagged p p' (m_itagMicFree p + 1) /\ page_inv p' /\
    view p' = insert_at (Z.to_nat itag) (stored (m_fSmallFormat p) (itag =? 0) flags l) (view p) /\
    keeps (fun a => a < 28 \/ 30 <= a < 32 \/ 36 <= a < CbPageHeader p \/ cbBuffer p <= a) p p'.
Proof.
  intros Hi Hn Hl Hcb. destruct (FreeSpace_some p Inv _ Hcb) as (p1 & E & [M I V K] & Hc).
  pose proof (cbFree_range p Inv). destruct (mem_only_fields _ _ M) as (F1 & F2 & F3 & F4 & F5 & _).
  assert (FH : CbPageHeader p1 = CbPageHeader p) by (unfold CbPageHeader; now rewrite F1).
  rewrite (Insert_unfold p itag ls flags p1); [|fold l cb; unfold sizeof_TAG in *; lia|exact E].
  destruct (placed p1 itag ls flags) as (p' & E' & R & I' & V' & K'); auto.
  { now rewrite F4. } { rewrite F4, F5. pose proof (inv_resv_le p Inv). lia. } { now rewrite F4. }
  rewrite F1, V in V'. rewrite FH, F2 in K'. rewrite F4 in R. exists p'. split; [exact E'|].
  split; [now apply (retagged_mem_only p p1)|]. split; [exact I'|]. split; [exact V'|].
  eapply keeps_trans; eapply keeps_weaken; [|exact K| |exact K']; cbv beta; pose proof (header_size p); lia.
Qed.

(** A line that does not fit ends the process. *)
Lemma Insert_none : cb < 65536 -> cbFree p < cb + sizeof_TAG -> Insert_ p itag (ext ls) flags = None.
Proof.
  intros Hcb H. unfold Insert_. rewrite CbDataTotal_ext. fold l cb. rewrite u16_small by (unfold cb in *; lia).
  cbv zeta. now rewrite FreeSpace_none.
Qed.
End Insert.
