(* ===== verification/PageDelete.v ===== *)
(** * Deleting a line

    [Delete_] removes one line from the page's view, keeps the page well
    formed and gives its bytes and its tag back to the free space. *)

From Stdlib Require Import ZArith List Lia Bool Permutation.
From S2P Require Import Prelude Bits Mem Checksum ChecksumErrors PageChecksum Page PageLayout PageTags PageReorg PageTagArray PageInsert.
Import ListNotations.

Section Delete.
Variables (p : CPAGE) (itag : Z).
Let n := m_itagMicFree p.
Let U := ibMicFree p.
Let H := CbPageHeader p.
Let t := PtagFromItag_ p itag.
Let cb := TAG_Cb p t.
Let ib := TAG_Ib p t.

Hypothesis Inv : page_inv p.
Hypothesis Hi : m_ctagReserved p <= itag < n.

Ltac dlia := unfold H, U, n, cb, ib, sizeof_TAG in *; lia.

(** The successive pages of [Delete_]. *)
Let pS := if fRuntimeScrubbing p then with_pv p (memset (pv p) (PbFromIb_ p ib) chPAGEDeleteFill cb) else p.
Let U' := if cb + ib =? U then U - cb else U.
Let pI := if TAG_Cb pS t + TAG_Ib pS t =? ibMicFree pS then set_ibMicFree pS (u16 (ibMicFree pS - TAG_Cb pS t)) else pS.
Let pF := set_cbFree pI (u16 (cbFree pI + TAG_Cb pI t + sizeof_TAG)).
Let pT := SetITagMicFree_ pF (m_itagMicFree pF - 1).
Let pM := with_pv pT (copy_backward (Z.to_nat (m_itagMicFree pT)) (pv pT) (PtagFromItag_ pT (m_itagMicFree pT))
                        (PtagFromItag_ pT itag) (PtagFromItag_ pT (itag - 1))).

Lemma Delete_unfold :
  Delete_ p itag = if cbFree pM + sizeof_TAG + CbPageHeader pM =? cbBuffer pM then set_ibMicFree pM 0 else pM.
Proof. reflexivity. Qed.

Lemma de_bounds : 1 <= m_ctagReserved p <= 7 /\ 1 <= n <= 4095 /\ H + U + 4 * n <= cbBuffer p /\ (H = 40 \/ H = 80) /\
  cbBuffer p <= 32768 /\ 0 <= U /\ 0 <= cb /\ 0 <= cbFree p /\ (cb = 0 \/ 0 <= ib /\ ib + cb <= U) /\
  t = cbBuffer p - 4 * (itag + 1).
Proof.
  pose proof (inv_resv p Inv) as R. pose proof (inv_tags p Inv) as T. pose proof (room p Inv). pose proof (header_size p).
  pose proof (inv_size p Inv). pose proof (inv_buf p Inv). pose proof (ibMicFree_range p Inv). pose proof (TAG_Cb_range p t).
  pose proof (cbFree_range p Inv). pose proof (line_below p Inv itag) as B. fold t in B.
  unfold CTAG_RESERVED_MAX, ITAG_MIC_FREE_MASK in *. repeat split; try dlia.
Qed.

Ltac de := destruct de_bounds as (?Br & ?Bn & ?Bs & ?BH & ?Bb & ?BU & ?Bc & ?Bf & ?Bl & ?Et).

Lemma de_S : mem_only p pS /\ mem_ok (pv pS) /\ keeps (fun a => a < H + ib \/ H + ib + cb <= a) p pS.
Proof.
  pose proof (inv_mem p Inv). unfold pS. destruct (fRuntimeScrubbing p).
  - split; [reflexivity|]. split; [cbn; auto with ese|]. intros a Ha. cbn. apply memset_frame. exact Ha.
  - split; [apply mem_only_refl|]. split; [auto|]. intros a _. reflexivity.
Qed.

Lemma de_S_tag : TAG_Cb pS t = cb /\ TAG_Ib pS t = ib /\ ibMicFree pS = U /\ cbFree pS = cbFree p /\ itagState pS = itagState p.
Proof.
  destruct de_S as (M & Ok & K). de. split; [|split; [|split; [|split]]].
  - apply (keeps_TAG_Cb _ _ _ _ K M); dlia.
  - apply (keeps_TAG_Ib _ _ _ _ K M); dlia.
  - apply (keeps_load16 _ _ _ _ K); dlia.
  - apply (keeps_load16 _ _ _ _ K); dlia.
  - apply (keeps_load16 _ _ _ _ K); dlia.
Qed.

Lemma de_U' : 0 <= U' <= U.
Proof. de. unfold U'. destruct (Z.eqb_spec (cb + ib) U); dlia. Qed.

Lemma de_I : mem_only pS pI /\ mem_ok (pv pI) /\ keeps (fun a => a < 32 \/ 34 <= a) pS pI /\ ibMicFree pI = U'.
Proof.
  destruct de_S as (_ & Ok & _). destruct de_S_tag as (C & I & Ib & _). de. unfold pI, U'. rewrite C, I, Ib.
  destruct (Z.eqb_spec (cb + ib) U).
  - split; [reflexivity|]. split; [cbn; auto with ese|]. split; [apply set_ibMicFree_keeps|].
    rewrite u16_small by dlia. apply set_ibMicFree_eq. dlia.
  - split; [apply mem_only_refl|]. split; [exact Ok|]. split; [intros a _; reflexivity|exact Ib].
Qed.

Lemma de_F : mem_only p pF /\ mem_ok (pv pF) /\ ibMicFree pF = U' /\ cbFree pF = cbFree p + cb + sizeof_TAG /\
  itagState pF = itagState p /\
  keeps (fun a => (a < 28 \/ 30 <= a < 32 \/ 34 <= a) /\ (a < H + ib \/ H + ib + cb <= a)) p pF.
Proof.
  destruct de_S as (MS & OkS & KS). destruct de_S_tag as (C & I & Ib & Fr & St). destruct de_I as (MI & OkI & KI & II). de.
  pose proof (cbFree_eq p Inv). pose proof (cb_total_nonneg (lines p)).
  assert (KF : keeps (fun a => a < 28 \/ 30 <= a) pI pF) by apply set_cbFree_keeps.
  assert (Ec : TAG_Cb pI t = cb) by (rewrite (keeps_TAG_Cb _ _ _ _ KI MI) by dlia; exact C).
  assert (Ef : cbFree pI = cbFree p) by (rewrite <- Fr; apply (keeps_load16 _ _ _ _ KI); dlia).
  assert (Hcb : cbFree p + cb + sizeof_TAG < 65536) by (pose proof (line_below p Inv itag); dlia).
  split; [eapply mem_only_trans; [exact MS|]; eapply mem_only_trans; [exact MI|reflexivity]|].
  split; [cbn; auto with ese|]. split; [rewrite <- II; apply (keeps_load16 _ _ _ _ KF); dlia|].
  split; [unfold pF; rewrite Ec, Ef, u16_small by dlia; apply set_cbFree_eq; dlia|].
  assert (K : keeps (fun a => (a < 28 \/ 30 <= a < 32 \/ 34 <= a) /\ (a < H + ib \/ H + ib + cb <= a)) p pF).
  { eapply keeps_trans; [|eapply keeps_trans]; eapply keeps_weaken; [|exact KS| |exact KI| |exact KF]; cbv beta; dlia. }
  split; [|exact K]. apply (keeps_load16 _ _ _ _ K); dlia.
Qed.

Lemma de_T : retagged p pT (n - 1) /\ mem_ok (pv pT) /\ InitItagState pT = pT /\ keeps (fun a => a < 34 \/ 36 <= a) pF pT.
Proof.
  destruct de_F as (M & Ok & _ & _ & St & _). destruct (mem_only_fields _ _ M) as (_ & _ & _ & Fn & Fr & _ & Ff & _). de.
  assert (Hn' : 0 <= m_itagMicFree pF - 1 <= ITAG_MIC_FREE_MASK) by (rewrite Fn; unfold ITAG_MIC_FREE_MASK; dlia).
  assert (Hr' : 1 <= m_ctagReserved pF <= CTAG_RESERVED_MAX) by (rewrite Fr; exact Br).
  split; [|split; [|split]].
  - apply (retagged_mem_only p pF); [exact M|]. unfold retagged, pT, SetITagMicFree_, n. rewrite <- Fn. now apply SetITagState_fields.
  - now apply SetITagState_ok.
  - apply SetITagState_state; auto. rewrite St, Fr, Ff. now apply resv_condition.
  - apply SetITagState_keeps.
Qed.

(** The tags after [itag] move up by one slot. *)
Lemma de_M : retagged p pM (n - 1) /\ mem_ok (pv pM) /\
  forall a, pv pM a = if (cbBuffer p - 4 * (n - 1) <=? a) && (a <? t + 4) then pv pT (a - 4) else pv pT a.
Proof.
  destruct de_T as (R & Ok & _). destruct (retagged_fields _ _ _ R) as (_ & Fb & _ & Fn & _). de.
  assert (Ra : 0 <= n - 1 - itag <= Z.of_nat (Z.to_nat (m_itagMicFree pT))) by (rewrite Fn; lia).
  destruct (copy_backward_spec (Z.to_nat (m_itagMicFree pT)) (pv pT) (cbBuffer p - 4 * n) (n - 1 - itag) Ok Ra) as [OkM V].
  assert (E : copy_backward (Z.to_nat (m_itagMicFree pT)) (pv pT) (PtagFromItag_ pT (m_itagMicFree pT))
                        (PtagFromItag_ pT itag) (PtagFromItag_ pT (itag - 1)) =
              copy_backward (Z.to_nat (m_itagMicFree pT)) (pv pT) (cbBuffer p - 4 * n)
                (cbBuffer p - 4 * n + 4 * (n - 1 - itag)) (cbBuffer p - 4 * n + 4 * (n - 1 - itag) + 4)).
  { unfold PtagFromItag_, sizeof_TAG. rewrite Fb, Fn. f_equal; lia. }
  rewrite <- E in OkM, V. split; [eapply mem_only_retagged; [exact R|reflexivity]|]. split; [exact OkM|].
  intros a. cbn [pv pM with_pv]. rewrite V, Et. case_cmp; cbn [andb]; reflexivity || lia.
Qed.

Let p' := Delete_ p itag.

Lemma de_kept a : (a < 28 \/ 30 <= a < 32 \/ 36 <= a < cbBuffer p - 4 * (n - 1) \/ t + 4 <= a) ->
  (a < H + ib \/ H + ib + cb <= a) -> pv pM a = pv p a.
Proof.
  intros Ha Hd. destruct de_M as (_ & _ & V). destruct de_T as (_ & _ & _ & KT). destruct de_F as (_ & _ & _ & _ & _ & KF). de.
  rewrite V. replace ((cbBuffer p - 4 * (n - 1) <=? a) && (a <? t + 4)) with false by (case_cmp; cbn [andb]; reflexivity || dlia).
  rewrite KT, KF by dlia. reflexivity.
Qed.

Lemma de_moved a : cbBuffer p - 4 * (n - 1) <= a < t + 4 -> pv pM a = pv p (a - 4).
Proof.
  intros Ha. destruct de_M as (_ & _ & V). destruct de_T as (_ & _ & _ & KT). destruct de_F as (_ & _ & _ & _ & _ & KF). de.
  rewrite V. replace ((cbBuffer p - 4 * (n - 1) <=? a) && (a <? t + 4)) with true by (case_cmp; cbn [andb]; reflexivity || dlia).
  rewrite KT, KF by dlia. reflexivity.
Qed.

Lemma de_data k x : 0 <= k < n -> k <> itag -> 0 <= x < TAG_Cb p (PtagFromItag_ p k) ->
  pv pM (PbFromIb_ p (TAG_Ib p (PtagFromItag_ p k)) + x) = pv p (PbFromIb_ p (TAG_Ib p (PtagFromItag_ p k)) + x).
Proof.
  intros Hk Hki Hx. de. pose proof (line_below p Inv k Hk). pose proof (lines_apart p Inv k itag Hk ltac:(dlia) Hki) as A.
  cbv zeta in A. fold t cb ib in A. unfold PbFromIb_. fold H. apply de_kept; dlia.
Qed.

Lemma de_lines : lines pM = delete_at (Z.to_nat itag) (lines p).
Proof.
  destruct de_M as (R & _). destruct (retagged_fields _ _ _ R) as (F1 & F2 & _ & F4 & _). de.
  apply lines_delete; [exact F4|dlia| |].
  - intros k Hk. apply line_at_same; [exact F1| |intros x Hx; apply de_data; [dlia..|exact Hx]].
    intros x Hx. unfold PtagFromItag_, sizeof_TAG. rewrite F2. apply de_kept; dlia.
  - intros k Hk. apply line_at_same; [exact F1| |intros x Hx; apply de_data; [dlia..|exact Hx]].
    intros x Hx. unfold PtagFromItag_, sizeof_TAG. rewrite F2, de_moved by dlia. f_equal. lia.
Qed.

Lemma de_header : ibMicFree pM = U' /\ cbFree pM = cbFree p + cb + sizeof_TAG /\ itagState pM = itagState pT.
Proof.
  destruct de_M as (_ & _ & V). destruct de_T as (_ & _ & _ & KT). destruct de_F as (_ & _ & Ei & Ef & _ & _). de.
  assert (K : keeps (fun a => a < 40) pT pM).
  { intros a Ha. rewrite V. case_cmp; cbn [andb]; reflexivity || dlia. }
  rewrite <- Ei, <- Ef. split; [|split].
  - transitivity (ibMicFree pT); [apply (keeps_load16 _ _ _ _ K); dlia | apply (keeps_load16 _ _ _ _ KT); dlia].
  - transitivity (cbFree pT); [apply (keeps_load16 _ _ _ _ K); dlia | apply (keeps_load16 _ _ _ _ KT); dlia].
  - apply (keeps_load16 _ _ _ _ K); dlia.
Qed.

Lemma de_perm : Permutation (lines p) (tag_line p itag :: lines pM).
Proof.
  rewrite de_lines. pose proof (delete_at_perm (Z.to_nat itag) (lines p) (Line 0 0 [])) as P. de.
  rewrite length_lines, nth_tag_line, Z2Nat.id in P by dlia. apply P. dlia.
Qed.

Lemma de_total : cb_total (lines p) = cb + cb_total (lines pM).
Proof. rewrite (cb_total_perm _ _ de_perm). cbn [cb_total fold_right]. unfold cb. now rewrite <- l_cb_line_at. Qed.

Lemma de_layout : layout U' (lines pM).
Proof.
  pose proof (layout_perm _ _ _ de_perm (inv_layout p Inv)) as L. fold U in L. unfold U'.
  assert (Ec : l_cb (tag_line p itag) = cb) by apply l_cb_line_at.
  destruct (Z.eqb_spec (cb + ib) U) as [E|E]; [|now apply layout_tail in L].
  rewrite <- Ec. apply layout_pop; [exact L|]. rewrite Ec. cbn. fold t. dlia.
Qed.

Lemma de_inv_M : page_inv pM.
Proof.
  destruct de_M as (R & Ok & _). destruct de_header as (Ei & Ef & Es). destruct de_T as (RT & _ & S & _). pose proof de_U'. de.
  apply (inv_retagged p pM (n - 1)); auto.
  - apply inv_state_iff. apply inv_state_iff in S. rewrite Es. exact S.
  - unfold ITAG_MIC_FREE_MASK. dlia.
  - dlia.
  - rewrite Ei. dlia.
  - rewrite Ei. apply de_layout.
  - rewrite Ef. pose proof (cbFree_eq p Inv). pose proof de_total. dlia.
Qed.

(** An empty page starts again at offset 0. *)
Lemma Delete_spec : retagged p p' (n - 1) /\ page_inv p' /\ view p' = delete_at (Z.to_nat itag) (view p) /\
  keeps (fun a => a < 28 \/ 30 <= a < 32 \/ 36 <= a < H \/ cbBuffer p <= a) p p'.
Proof.
  assert (KM : keeps (fun a => a < 28 \/ 30 <= a < 32 \/ 36 <= a < H \/ cbBuffer p <= a) p pM).
  { intros a Ha. de. apply de_kept; dlia. }
  assert (VM : view pM = delete_at (Z.to_nat itag) (view p)) by (unfold view; now rewrite de_lines, delete_at_map).
  destruct de_M as (R & _ & _). pose proof de_inv_M as IM. unfold p'. rewrite Delete_unfold.
  destruct (Z.eqb_spec (cbFree pM + sizeof_TAG + CbPageHeader pM) (cbBuffer pM)) as [E|E]; [|auto].
  assert (M0 : mem_only pM (set_ibMicFree pM 0)) by reflexivity.
  assert (T0 : cb_total (lines pM) = 0).
  { pose proof (cbFree_eq pM IM). pose proof (cb_total_nonneg (lines pM)). pose proof (inv_tags pM IM). unfold sizeof_TAG in E. lia. }
  pose proof (set_ibMicFree_keeps pM 0) as K0.
  assert (I0 : ibMicFree (set_ibMicFree pM 0) = 0) by (apply set_ibMicFree_eq; lia).
  assert (L0 : lines (set_ibMicFree pM 0) = lines pM).
  { destruct (retagged_fields _ _ _ R) as (F1 & F2 & _ & F4 & _). apply (lines_frame _ _ 0 (layout_empty 0 _ T0) M0).
    eapply keeps_weaken; [|exact K0]. cbv beta. rewrite F2, F4. intros a Ha. de. dlia. }
  split; [eapply mem_only_retagged; eauto|]. split; [|split].
  - apply (inv_mem_only pM); auto.
    + apply store16_ok, IM.
    + rewrite I0. pose proof (room pM IM). pose proof (ibMicFree_range pM IM). lia.
    + rewrite L0. now apply layout_empty.
    + rewrite L0. transitivity (cbFree pM); [apply (keeps_load16 _ _ _ _ K0); lia|]. apply (cbFree_eq pM IM).
  - rewrite <- VM. unfold view. now rewrite L0.
  - eapply keeps_trans; [exact KM|]. eapply keeps_weaken; [|exact K0]. cbv beta. de. dlia.
Qed.
End Delete.
