(* ===== verification/PageReplace.v ===== *)
(** * Replacing a line

    [Replace_] shrinks a line in place, grows the last line in place, or moves
    the line to the end of the data area (compacting the page when needed);
    [ReplaceFlags_] changes the flags only.  All of them are updates of a page
    at one tag and in a data range no other line uses. *)

From Stdlib Require Import ZArith List Lia Bool Permutation.
From S2P Require Import Prelude Bits Mem Checksum ChecksumErrors PageChecksum Page PageLayout PageTags PageReorg PageTagArray PageInsert.
Import ListNotations.

(** ** Updates at one tag *)

Section OneTag.
Variables (q : CPAGE) (itag lo hi : Z).
Let n := m_itagMicFree q.
Let H := CbPageHeader q.
Let t := PtagFromItag_ q itag.

Hypothesis Inv : page_inv q.
Hypothesis Hi : 0 <= itag < n.
Hypothesis Hlo : 0 <= lo <= hi.
Hypothesis Hhi : H + hi <= cbBuffer q - 4 * n.

(** No other line has a byte in [[lo, hi)]. *)
Definition only_user : Prop := forall k, 0 <= k < n -> k <> itag ->
  hi <= lo \/ TAG_Cb q (PtagFromItag_ q k) = 0 \/ TAG_Ib q (PtagFromItag_ q k) + TAG_Cb q (PtagFromItag_ q k) <= lo \/
  hi <= TAG_Ib q (PtagFromItag_ q k).

Definition rest : list line := delete_at (Z.to_nat itag) (lines q).

Lemma rest_perm : Permutation (lines q) (tag_line q itag :: rest).
Proof.
  pose proof (delete_at_perm (Z.to_nat itag) (lines q) (Line 0 0 [])) as P.
  rewrite length_lines, nth_tag_line, Z2Nat.id in P by (fold n; lia). apply P. fold n. lia.
Qed.

Lemma rest_layout : layout (ibMicFree q) (tag_line q itag :: rest).
Proof. apply (layout_perm _ _ _ rest_perm), Inv. Qed.

Lemma rest_free : cbFree q = cbBuffer q - H - 4 * n - cb_total rest - TAG_Cb q t.
Proof.
  rewrite (cbFree_eq q Inv), (cb_total_perm _ _ rest_perm). cbn [cb_total fold_right]. fold (cb_total rest).
  unfold tag_line. rewrite l_cb_line_at. fold t. unfold n, H. lia.
Qed.

(** What such an update may touch: the free-space fields of the header, the
    tag, and the data range. *)
Definition at_one_tag (a : Z) : Prop :=
  (a < 28 \/ 30 <= a < 32 \/ 34 <= a) /\ (a < t \/ t + 4 <= a) /\ (a < H + lo \/ H + hi <= a).

Variable q' : CPAGE.
Hypothesis Only : only_user.
Hypothesis M : mem_only q q'.
Hypothesis Ok : mem_ok (pv q').
Hypothesis K : keeps at_one_tag q q'.

Lemma one_tag_lines : lines q' = replace_at (Z.to_nat itag) (tag_line q' itag) (lines q).
Proof.
  destruct (mem_only_fields _ _ M) as (_ & F2 & _ & F4 & _). pose proof (header_size q).
  apply lines_replace; [exact F4|exact Hi|]. intros k Hk Hki. pose proof (ptag_range q Inv k Hk).
  pose proof (line_below q Inv k Hk). specialize (Only k Hk Hki). pose proof (ptag_range q Inv itag Hi).
  apply (tag_line_keeps _ q q' k k M K).
  - unfold PtagFromItag_. now rewrite F2.
  - intros x Hx. unfold at_one_tag, H, t, n, PtagFromItag_, sizeof_TAG in *. lia.
  - intros x Hx. unfold at_one_tag, PbFromIb_, t, H in *. lia.
Qed.

Lemma one_tag_view c : content (tag_line q' itag) = c -> view q' = replace_at (Z.to_nat itag) c (view q).
Proof. intros <-. unfold view. now rewrite one_tag_lines, replace_at_map. Qed.

Lemma one_tag_perm : Permutation (lines q') (tag_line q' itag :: rest).
Proof. rewrite one_tag_lines. apply replace_at_perm. Qed.

Lemma one_tag_inv :
  H + ibMicFree q' <= cbBuffer q - 4 * n -> layout (ibMicFree q') (tag_line q' itag :: rest) ->
  cbFree q' = cbBuffer q - H - 4 * n - cb_total rest - TAG_Cb q' t -> page_inv q'.
Proof.
  intros HU L F. pose proof (ptag_range q Inv itag Hi). pose proof (header_size q). pose proof (ibMicFree_range q Inv).
  apply (inv_mem_only q); auto.
  - apply (keeps_load16 _ _ _ _ K); unfold at_one_tag, t, H in *; lia.
  - unfold H, n in *. lia.
  - now apply (layout_perm _ _ _ (Permutation_sym one_tag_perm)).
  - rewrite F, (cb_total_perm _ _ one_tag_perm). cbn [cb_total fold_right]. fold (cb_total rest).
    unfold tag_line. rewrite l_cb_line_at. destruct (mem_only_fields _ _ M) as (_ & F2 & _).
    replace (PtagFromItag_ q' itag) with t by (unfold t, PtagFromItag_; now rewrite F2). unfold H, n. lia.
Qed.

Lemma one_tag_keeps : keeps (fun a => a < 28 \/ 30 <= a < 32 \/ 34 <= a < H \/ cbBuffer q <= a) q q'.
Proof.
  eapply keeps_weaken; [|exact K]. pose proof (ptag_range q Inv itag Hi). pose proof (header_size q).
  pose proof (ibMicFree_range q Inv). unfold at_one_tag. pose proof (inv_tags q Inv).
  intros a Ha. unfold t, H, n, PtagFromItag_, sizeof_TAG in *. lia.
Qed.
End OneTag.

(** A line does not share its own bytes. *)
Lemma own_range q itag : page_inv q -> 0 <= itag < m_itagMicFree q ->
  let t := PtagFromItag_ q itag in only_user q itag (TAG_Ib q t) (TAG_Ib q t + TAG_Cb q t).
Proof.
  intros Inv Hi t k Hk Hki. pose proof (lines_apart q Inv k itag Hk Hi Hki) as A. cbv zeta in A. fold t in A. lia.
Qed.

(** The range above all lines. *)
Lemma top_range q itag hi : page_inv q -> only_user q itag (ibMicFree q) hi.
Proof. intros Inv k Hk _. pose proof (line_below q Inv k Hk). lia. Qed.

Lemma empty_range q itag lo : only_user q itag lo lo.
Proof. intros k Hk _. lia. Qed.

(** The data range of a line, and [0, 0) for an empty one. *)
Definition own_lo (q : CPAGE) (t : Z) : Z := if TAG_Cb q t =? 0 then 0 else TAG_Ib q t.

Lemma own_lo_range q itag : page_inv q -> 0 <= itag < m_itagMicFree q ->
  let t := PtagFromItag_ q itag in
  0 <= own_lo q t /\ CbPageHeader q + (own_lo q t + TAG_Cb q t) <= cbBuffer q - 4 * m_itagMicFree q /\
  only_user q itag (own_lo q t) (own_lo q t + TAG_Cb q t) /\
  (TAG_Cb q t = 0 \/ own_lo q t = TAG_Ib q t).
Proof.
  intros Inv Hi t. pose proof (line_below q Inv itag Hi) as B. pose proof (room q Inv). pose proof (ibMicFree_range q Inv).
  unfold own_lo. fold t in B. destruct (Z.eqb_spec (TAG_Cb q t) 0) as [E|E].
  - rewrite E. repeat split; try lia. apply empty_range.
  - repeat split; try lia. now apply own_range.
Qed.

Lemma stored_u16 s z f l : stored s z (u16 f) l = stored s z f l.
Proof. unfold stored, stamp. now rewrite u16_mod8. Qed.

(** ** Flags *)

Section Flags.
Variables (p : CPAGE) (itag flags : Z).
Let t := PtagFromItag_ p itag.
Hypothesis Inv : page_inv p.
Hypothesis Hi : 0 <= itag < m_itagMicFree p.

Let l := l_bytes (tag_line p itag).
Let p' := ReplaceFlags_ p itag flags.

Lemma load_bytes_byte m a k : mem_ok m -> bytes_ok (load_bytes m a k).
Proof. intros Hm. unfold bytes_ok, load_bytes. apply Forall_map, Forall_forall. intros i _. apply Hm. Qed.

Lemma store_load_bytes m a k : mem_ok m -> mem_eq (store_bytes m a (load_bytes m a k)) m.
Proof.
  intros Hm x. unfold store_bytes. rewrite length_load_bytes.
  destruct (Z.leb_spec a x); cbn [andb]; [|reflexivity]. destruct (Z.ltb_spec x (a + Z.of_nat (Z.to_nat k))); [|reflexivity].
  rewrite nth_load_bytes by lia. replace (a + Z.of_nat (Z.to_nat (x - a))) with x by lia. apply Z.mod_small, Hm.
Qed.

Lemma set_top3_cong m1 m2 oa f : mem_eq m1 m2 -> mem_eq (set_top3 m1 oa f) (set_top3 m2 oa f).
Proof. intros E x. destruct oa as [a|]; cbn; [|apply E]. now rewrite !E. Qed.

Lemma flags_line : tag_line p itag = line_at p t.
Proof. reflexivity. Qed.

Lemma flags_apart : TAG_Cb p t = 0 \/ PbFromIb_ p (TAG_Ib p t) + TAG_Cb p t <= t.
Proof. pose proof (line_below p Inv itag Hi). pose proof (ptag_range p Inv itag Hi). unfold PbFromIb_, t in *. lia. Qed.

Lemma ReplaceFlags_wrote : wrote p t [l] (u16 flags) p'.
Proof.
  pose proof (inv_mem p Inv) as Hm. pose proof (TAG_Cb_range p t).
  assert (El : concat [l] = load_bytes (pv p) (PbFromIb_ p (TAG_Ib p t)) (TAG_Cb p t)) by (cbn; apply app_nil_r).
  assert (Ec : Z.of_nat (length (concat [l])) = TAG_Cb p t) by (rewrite El, length_load_bytes; lia).
  apply written_wrote; rewrite ?Ec; auto.
  - apply flags_apart.
  - rewrite El. now apply load_bytes_byte.
  - apply TAG_SetFlags_mem_only.
  - now apply TAG_SetFlags_ok.
  - intros x. unfold p', ReplaceFlags_. fold t. rewrite TAG_SetFlags_bytes by exact Hm. unfold written.
    apply set_top3_cong. rewrite El. symmetry. now apply store_load_bytes.
Qed.

Lemma ReplaceFlags_spec : mem_only p p' /\ page_inv p' /\
  view p' = replace_at (Z.to_nat itag) (stored (m_fSmallFormat p) (itag =? 0) flags l) (view p) /\
  keeps (fun a => a < CbPageHeader p \/ cbBuffer p <= a) p p'.
Proof.
  pose proof ReplaceFlags_wrote as W. pose proof (TAG_Cb_range p t). destruct W as [M Ok K C I Ct].
  assert (El : concat [l] = l) by (cbn; apply app_nil_r). rewrite El in *.
  assert (Ec : Z.of_nat (length l) = TAG_Cb p t) by (unfold l; rewrite flags_line; cbn [l_bytes line_at]; rewrite length_load_bytes; lia).
  rewrite Ec in *. destruct (own_lo_range p itag Inv Hi) as (O1 & O2 & O3 & O4). fold t in O1, O2, O3, O4.
  pose proof (ptag_range p Inv itag Hi) as T. fold t in T. pose proof (header_size p). pose proof (ibMicFree_range p Inv).
  assert (K1 : keeps (at_one_tag p itag (own_lo p t) (own_lo p t + TAG_Cb p t)) p p').
  { eapply keeps_weaken; [|exact K]. unfold at_one_tag, PbFromIb_. fold t. lia. }
  assert (Et : PtagFromItag_ p' itag = t) by (unfold t, PtagFromItag_; now destruct (mem_only_fields _ _ M) as (_ & -> & _)).
  assert (L : content (tag_line p' itag) = stored (m_fSmallFormat p) (itag =? 0) flags l).
  { unfold tag_line. rewrite Et, Ct, stored_u16. f_equal. unfold t, PtagFromItag_, sizeof_TAG. case_cmp; reflexivity || lia. }
  assert (K0 : keeps (fun a => a < CbPageHeader p \/ cbBuffer p <= a) p p').
  { eapply keeps_weaken; [|exact K]. unfold PbFromIb_. pose proof (line_below p Inv itag Hi) as B. fold t in B. lia. }
  assert (Ei : ibMicFree p' = ibMicFree p) by (apply (keeps_load16 _ _ _ _ K0); lia).
  split; [exact M|]. split; [|split; [|exact K0]].
  - pose proof (room p Inv). apply (one_tag_inv p itag (own_lo p t) (own_lo p t + TAG_Cb p t)); auto; try lia.
    + rewrite Ei. apply (layout_shrink _ (tag_line p itag)); [now apply rest_layout|]. right.
      unfold tag_line. rewrite !l_cb_line_at, Et. fold t. cbn [l_ib line_at]. lia.
    + fold t. rewrite C. transitivity (cbFree p); [apply (keeps_load16 _ _ _ _ K0); lia|]. now apply rest_free.
  - apply (one_tag_view p itag (own_lo p t) (own_lo p t + TAG_Cb p t)); auto; lia.
Qed.
End Flags.

(** ** In place *)

(** What replacing the line at [itag] promises. *)
Record replaced (p : CPAGE) (itag flags : Z) (l : list Z) (p' : CPAGE) : Prop := {
  re_mem_only : mem_only p p';
  re_inv : page_inv p';
  re_view : view p' = replace_at (Z.to_nat itag) (stored (m_fSmallFormat p) (itag =? 0) flags l) (view p);
  re_keeps : keeps (fun a => a < 28 \/ 30 <= a < 32 \/ 34 <= a < CbPageHeader p \/ cbBuffer p <= a) p p'
}.

Section InPlace.
Variables (p : CPAGE) (itag : Z) (ls : list (list Z)) (flags : Z).
Let l := concat ls.
Let nb := Z.of_nat (length l).
Let t := PtagFromItag_ p itag.
Let cb := TAG_Cb p t.
Let ib := TAG_Ib p t.
Let U := ibMicFree p.
Let H := CbPageHeader p.
Let n := m_itagMicFree p.
Let diff := cb - nb.

Hypothesis Inv : page_inv p.
Hypothesis Hi : 0 <= itag < n.
Hypothesis Hl : bytes_ok l.
Hypothesis Hfit : nb <= cbFree p + cb.
Hypothesis Hin : nb <= cb \/ (ib + cb = U /\ nb - cb <= CbContiguousFree_ p).

Ltac ilia := unfold diff, nb, H, U, n, cb, ib, sizeof_TAG in *; lia.

Let pI := if ib + cb =? U then set_ibMicFree p (u16 (U - diff)) else p.
Let pF := set_cbFree pI (u16 (cbFree pI + diff)).
Let pC := TAG_SetCb pF t nb.
Let U' := if ib + cb =? U then U - diff else U.
Let lo := if ib + cb =? U then ib else own_lo p t.
Let hi := lo + Z.max cb nb.

Lemma ip_bounds : 1 <= n <= 4095 /\ H + U + 4 * n <= cbBuffer p /\ (H = 40 \/ H = 80) /\ cbBuffer p <= 32768 /\ 0 <= U /\
  0 <= cb /\ 0 <= ib /\ 0 <= nb /\ 0 <= cbFree p /\ (cb = 0 \/ ib + cb <= U) /\ H + U <= t /\ t + 4 <= cbBuffer p /\
  cbFree p + cb <= cbBuffer p - H - 4 * n /\ cbBuffer p - 4 * n <= t /\
  CbContiguousFree_ p = cbBuffer p - H - U - 4 * n.
Proof.
  pose proof (inv_tags p Inv) as T. pose proof (room p Inv). pose proof (header_size p).
  pose proof (inv_size p Inv). pose proof (inv_buf p Inv). pose proof (ibMicFree_range p Inv). pose proof (TAG_Cb_range p t).
  pose proof (TAG_Ib_range p t). pose proof (cbFree_range p Inv). pose proof (line_below p Inv itag Hi) as B. fold t in B.
  pose proof (ptag_range p Inv itag Hi) as Pt. fold t in Pt. pose proof (rest_free p itag Inv Hi) as F. fold t in F.
  pose proof (cb_total_nonneg (rest p itag)). pose proof (CbContiguousFree_eq p Inv).
  assert (cbBuffer p - 4 * n <= t) by (unfold t, PtagFromItag_, sizeof_TAG in *; lia).
  unfold ITAG_MIC_FREE_MASK in *. repeat split; ilia.
Qed.

Ltac ip := destruct ip_bounds as (?Bn & ?Bs & ?BH & ?Bb & ?BU & ?Bc & ?Bi & ?Bnb & ?Bf & ?Bl & ?Bt & ?Bt' & ?Bfit & ?Btag & ?Bcont).

Lemma ip_U' : 0 <= U' /\ H + U' + 4 * n <= cbBuffer p /\ (nb = 0 \/ ib + nb <= U').
Proof. ip. unfold U'. destruct (Z.eqb_spec (ib + cb) U); ilia. Qed.

Lemma ip_I : mem_only p pI /\ mem_ok (pv pI) /\ keeps (fun a => a < 32 \/ 34 <= a) p pI /\ ibMicFree pI = U'.
Proof.
  ip. pose proof ip_U' as HU'. pose proof (inv_mem p Inv). unfold pI, U' in *. destruct (Z.eqb_spec (ib + cb) U).
  - split; [reflexivity|]. split; [cbn; auto with ese|]. split; [apply set_ibMicFree_keeps|].
    rewrite u16_small by ilia. apply set_ibMicFree_eq. ilia.
  - split; [apply mem_only_refl|]. split; [auto|]. split; [intros a _; reflexivity|reflexivity].
Qed.

Lemma ip_C : mem_only p pC /\ mem_ok (pv pC) /\ TAG_Cb pC t = nb /\ TAG_Ib pC t = ib /\ ibMicFree pC = U' /\
  cbFree pC = cbFree p + diff /\ keeps (fun a => (a < 28 \/ 30 <= a < 32 \/ 34 <= a) /\ (a < t \/ t + 2 <= a)) p pC.
Proof.
  destruct ip_I as (MI & OkI & KI & EI). ip. pose proof (mask_fits p Inv). destruct (mem_only_fields _ _ MI) as (FI & _).
  assert (KF : keeps (fun a => a < 28 \/ 30 <= a) pI pF) by apply set_cbFree_keeps.
  assert (KC : keeps (fun a => a < t \/ t + 2 <= a) pF pC) by apply update16_keeps.
  assert (Ef : cbFree pI = cbFree p) by (apply (keeps_load16 _ _ _ _ KI); ilia).
  assert (MF : mem_only p pF) by (eapply mem_only_trans; [exact MI|reflexivity]).
  assert (KpF : keeps (fun a => a < 28 \/ 30 <= a < 32 \/ 34 <= a) p pF).
  { eapply keeps_trans; eapply keeps_weaken; [|exact KI| |exact KF]; cbv beta; lia. }
  split; [eapply mem_only_trans; [exact MF|reflexivity]|]. split; [apply update16_ok, store16_ok, OkI|].
  split; [apply TAG_SetCb_Cb; change (m_fSmallFormat pF) with (m_fSmallFormat pI); rewrite FI; ilia|].
  split; [unfold pC; rewrite TAG_SetCb_Ib; apply (keeps_TAG_Ib _ _ _ _ KpF MF); ilia|].
  split; [rewrite <- EI; transitivity (ibMicFree pF); [apply (keeps_load16 _ _ _ _ KC)|apply (keeps_load16 _ _ _ _ KF)]; ilia|].
  split.
  - transitivity (cbFree pF); [apply (keeps_load16 _ _ _ _ KC); ilia|]. unfold pF. rewrite Ef, u16_small by ilia.
    apply set_cbFree_eq. ilia.
  - eapply keeps_trans; eapply keeps_weaken; [|exact KpF| |exact KC]; cbv beta; lia.
Qed.

Lemma ip_range : 0 <= lo <= hi /\ H + hi <= cbBuffer p - 4 * n /\ only_user p itag lo hi /\ (Z.max cb nb = 0 \/ lo = ib).
Proof.
  ip. destruct (own_lo_range p itag Inv Hi) as (O1 & O2 & O3 & O4). fold t cb ib in O1, O2, O3, O4. fold H n in O2.
  unfold hi, lo. destruct (Z.eqb_spec (ib + cb) U) as [E|E].
  - repeat split; try ilia. intros k Hk Hki. pose proof (lines_apart p Inv k itag Hk Hi Hki) as A. cbv zeta in A.
    fold t cb ib in A. pose proof (line_below p Inv k Hk). pose proof (TAG_Cb_range p (PtagFromItag_ p k)). ilia.
  - replace (Z.max cb nb) with cb by ilia. repeat split; try ilia. exact O3.
Qed.

Let scrub (pW : CPAGE) : CPAGE :=
  if (0 <? diff) && fRuntimeScrubbing pW
  then with_pv pW (memset (pv pW) (PbFromIb_ pW (u16 (TAG_Ib pW t + TAG_Cb pW t))) chPAGEReplaceFill diff) else pW.

Section Final.
Variable pW : CPAGE.
Hypothesis W : wrote pC t ls (u16 flags) pW.

Lemma ip_Pb i : PbFromIb_ pC i = H + i.
Proof. destruct (mem_only_fields _ _ (proj1 ip_C)) as (F1 & _). unfold PbFromIb_, CbPageHeader. rewrite F1. reflexivity. Qed.

Lemma ip_W : mem_only p pW /\ TAG_Cb pW t = nb /\ TAG_Ib pW t = ib /\ ibMicFree pW = U' /\ cbFree pW = cbFree p + diff /\
  keeps (at_one_tag p itag lo hi) p pW.
Proof.
  destruct ip_C as (MC & OkC & C & I & EU & EF & KC). destruct ip_range as (R1 & R2 & R3 & R4). ip.
  pose proof (w_keeps _ _ _ _ _ W) as K. rewrite I, ip_Pb in K. fold l nb in K. pose proof ip_U' as HU'.
  split; [eapply mem_only_trans; [exact MC|apply W]|]. split; [apply W|].
  split; [rewrite (w_Ib _ _ _ _ _ W); exact I|].
  split; [rewrite <- EU; apply (keeps_load16 _ _ _ _ K); ilia|].
  split; [rewrite <- EF; apply (keeps_load16 _ _ _ _ K); ilia|].
  eapply keeps_trans; eapply keeps_weaken; [|exact KC| |exact K]; cbv beta; unfold at_one_tag, hi; fold t H; ilia.
Qed.

Lemma ip_scrub : mem_only pW (scrub pW) /\ mem_ok (pv (scrub pW)) /\
  keeps (fun a => a < H + ib + nb \/ H + ib + Z.max cb nb <= a) pW (scrub pW).
Proof.
  destruct ip_W as (M & C & I & _). destruct (mem_only_fields _ _ M) as (F & _). ip. pose proof ip_U'.
  assert (Ok := w_ok _ _ _ _ _ W). unfold scrub. destruct (Z.ltb_spec 0 diff); cbn [andb].
  - destruct (fRuntimeScrubbing pW); [|split; [apply mem_only_refl|split; [exact Ok|intros a _; reflexivity]]].
    split; [reflexivity|]. split; [cbn; auto with ese|]. intros a Ha. cbn [pv with_pv]. apply memset_frame.
    rewrite C, I, u16_small by ilia. unfold PbFromIb_, CbPageHeader. rewrite F. fold (CbPageHeader p). ilia.
  - split; [apply mem_only_refl|split; [exact Ok|intros a _; reflexivity]].
Qed.

Let pZ := scrub pW.

Lemma ip_Z : mem_only p pZ /\ mem_ok (pv pZ) /\ TAG_Cb pZ t = nb /\ TAG_Ib pZ t = ib /\ ibMicFree pZ = U' /\
  cbFree pZ = cbFree p + diff /\ keeps (at_one_tag p itag lo hi) p pZ /\ line_at pZ t = line_at pW t.
Proof.
  destruct ip_W as (M & C & I & EU & EF & K). destruct ip_scrub as (MS & OkS & KS). fold pZ in MS, OkS, KS.
  destruct ip_range as (R1 & R2 & R3 & R4). ip. destruct (mem_only_fields _ _ M) as (F & _).
  destruct (mem_only_fields _ _ MS) as (FS & _). pose proof ip_U'.
  assert (Ta : forall x, 0 <= x < 4 -> pv pZ (t + x) = pv pW (t + x)) by (intros x Hx; apply KS; unfold hi in *; ilia).
  split; [eapply mem_only_trans; eauto|]. split; [exact OkS|].
  split; [rewrite <- C; now apply same_TAG_Cb|]. split; [rewrite <- I; now apply same_TAG_Ib|].
  split; [rewrite <- EU; apply (keeps_load16 _ _ _ _ KS); ilia|].
  split; [rewrite <- EF; apply (keeps_load16 _ _ _ _ KS); ilia|]. split.
  - eapply keeps_trans; eapply keeps_weaken; [|exact K| |exact KS]; cbv beta; [auto|].
    unfold at_one_tag, hi in *. fold t H. ilia.
  - apply line_at_same; auto. intros x Hx. apply KS. rewrite C in Hx. rewrite I. unfold PbFromIb_, CbPageHeader. rewrite F.
    fold (CbPageHeader p). ilia.
Qed.

Lemma ip_layout e : l_ib e = ib -> l_cb e = nb -> layout U' (e :: rest p itag).
Proof.
  intros Ei Ec. pose proof (rest_layout p itag Inv Hi) as L. fold U in L. ip. unfold U'.
  assert (Oc : l_cb (tag_line p itag) = cb) by apply l_cb_line_at.
  destruct (Z.eqb_spec (ib + cb) U) as [E|E].
  - replace (U - diff) with (U - l_cb (tag_line p itag) + l_cb e) by ilia.
    apply layout_push; [|ilia|ilia]. apply layout_pop; [exact L|]. rewrite Oc. exact E.
  - apply (layout_shrink U (tag_line p itag)); [exact L|]. right. rewrite Oc. split; [exact Ei|ilia].
Qed.

Lemma ip_replaced : replaced p itag flags l pZ.
Proof.
  destruct ip_Z as (M & Ok & C & I & EU & EF & K & Lz). destruct ip_range as (R1 & R2 & R3 & R4). ip.
  destruct ip_U' as (Ua & Ub & Uc). destruct (mem_only_fields _ _ M) as (F1 & F2 & _).
  assert (Et : PtagFromItag_ pZ itag = t) by (unfold t, PtagFromItag_; now rewrite F2).
  constructor; [exact M| | |now apply (one_tag_keeps p itag lo hi)].
  - apply (one_tag_inv p itag lo hi); auto.
    + fold n H. ilia.
    + rewrite EU. unfold tag_line. rewrite Et. apply ip_layout; [exact I|]. rewrite l_cb_line_at. exact C.
    + fold t H n. rewrite EF, C. pose proof (rest_free p itag Inv Hi) as F. fold t cb n H in F. ilia.
  - apply (one_tag_view p itag lo hi); auto. unfold tag_line. rewrite Et, Lz, (w_content _ _ _ _ _ W), stored_u16.
    destruct (mem_only_fields _ _ (proj1 ip_C)) as (G1 & G2 & _). rewrite G1. f_equal.
    unfold t, PtagFromItag_, sizeof_TAG. rewrite G2. case_cmp; reflexivity || lia.
Qed.
End Final.

Lemma in_place : exists pW, CopyData_ (TAG_SetFlags pC t (u16 flags)) t (ext ls) = Some pW /\
  replaced p itag flags l (scrub pW).
Proof.
  destruct ip_C as (MC & OkC & C & I & _). ip. destruct ip_U' as (Ua & Ub & Uc).
  destruct (write_spec pC t ls (u16 flags) OkC C) as (pW & E & W); [|exact Hl|].
  { rewrite I, ip_Pb. fold l nb. ilia. }
  exists pW. split; [exact E|]. now apply ip_replaced.
Qed.
End InPlace.

(** ** Moved to the end *)

(** The statements of [Replace_] that give up the old line. *)
Definition vacate (p : CPAGE) (t : Z) : CPAGE :=
  let p := if fRuntimeScrubbing p
           then with_pv p (memset (pv p) (PbFromIb_ p (TAG_Ib p t)) chPAGEReplaceFill (TAG_Cb p t)) else p in
  let p := set_cbFree p (u16 (cbFree p + TAG_Cb p t)) in
  let p := TAG_SetIb p t 0 in
  let p := TAG_SetCb p t 0 in
  TAG_SetFlags p t 0.

Section Emptied.
Variables (p : CPAGE) (itag : Z).
Let t := PtagFromItag_ p itag.
Let cb := TAG_Cb p t.
Let ib := TAG_Ib p t.
Hypothesis Inv : page_inv p.
Hypothesis Hi : 0 <= itag < m_itagMicFree p.

(** The line given up. *)
Let p0 := if fRuntimeScrubbing p then with_pv p (memset (pv p) (PbFromIb_ p ib) chPAGEReplaceFill cb) else p.
Let pa := set_cbFree p0 (u16 (cbFree p0 + TAG_Cb p0 t)).
Let pc := TAG_SetCb (TAG_SetIb pa t 0) t 0.
Let pd := TAG_SetFlags pc t 0.

Lemma em_bounds : (CbPageHeader p = 40 \/ CbPageHeader p = 80) /\ 0 <= ibMicFree p /\ CbPageHeader p + ibMicFree p <= t /\
  (cb = 0 \/ ib + cb <= ibMicFree p) /\ 0 <= ib /\ 0 <= cb /\ 0 <= cbFree p /\ cbFree p + cb < 65536.
Proof.
  pose proof (header_size p). pose proof (ibMicFree_range p Inv). pose proof (ptag_range p Inv itag Hi) as T. fold t in T.
  pose proof (line_below p Inv itag Hi) as B. fold t cb ib in B. pose proof (TAG_Cb_range p t) as C. pose proof (TAG_Ib_range p t) as I.
  fold cb in C. fold ib in I. pose proof (cbFree_range p Inv). pose proof (rest_free p itag Inv Hi) as F. fold t cb in F.
  pose proof (cb_total_nonneg (rest p itag)). pose proof (inv_size p Inv). pose proof (inv_buf p Inv). pose proof (inv_tags p Inv).
  lia.
Qed.

Lemma em_0 : mem_only p p0 /\ mem_ok (pv p0) /\ keeps (fun a => a < CbPageHeader p + ib \/ CbPageHeader p + ib + cb <= a) p p0.
Proof.
  pose proof (inv_mem p Inv). unfold p0. destruct (fRuntimeScrubbing p).
  - split; [reflexivity|]. split; [cbn; auto with ese|]. intros a Ha. cbn. now apply memset_frame.
  - split; [apply mem_only_refl|]. split; [auto|]. intros a _. reflexivity.
Qed.

Lemma em_a : mem_only p pa /\ mem_ok (pv pa) /\ cbFree pa = cbFree p + cb /\
  keeps (fun a => (a < 28 \/ 30 <= a) /\ (a < CbPageHeader p + ib \/ CbPageHeader p + ib + cb <= a)) p pa.
Proof.
  destruct em_0 as (M & Ok & K). destruct em_bounds as (BH & BU & Bt & Bl & Bi & Bc & Bf & Bs).
  assert (Ec : TAG_Cb p0 t = cb) by (apply (keeps_TAG_Cb _ _ _ _ K M); lia).
  assert (Ef : cbFree p0 = cbFree p) by (apply (keeps_load16 _ _ _ _ K); lia).
  split; [eapply mem_only_trans; [exact M|reflexivity]|]. split; [cbn; auto with ese|].
  split; [unfold pa; rewrite Ec, Ef, u16_small by lia; apply set_cbFree_eq; lia|].
  eapply keeps_trans; eapply keeps_weaken; [|exact K| |apply set_cbFree_keeps]; cbv beta; lia.
Qed.

Lemma em_d : mem_only p pd /\ mem_ok (pv pd) /\ TAG_Cb pd t = 0 /\ cbFree pd = cbFree p + cb /\ ibMicFree pd = ibMicFree p /\
  keeps (at_one_tag p itag (own_lo p t) (own_lo p t + cb)) p pd.
Proof.
  destruct em_a as (Ma & Oka & Ea & Ka). destruct em_bounds as (BH & BU & Bt & Bl & Bi & Bc & Bf & Bs).
  destruct (own_lo_range p itag Inv Hi) as (O1 & O2 & O3 & O4). fold t cb in O4.
  assert (Ec : TAG_Cb pc t = 0) by apply TAG_SetCb_Cb, mask_zero.
  assert (Kd : keeps (fun a => a < t \/ t + 4 <= a) pa pd).
  { eapply keeps_trans; [|eapply keeps_weaken; [|apply TAG_SetFlags_keeps_empty; lia]; cbv beta; lia].
    apply (keeps_trans _ pa (TAG_SetIb pa t 0)); eapply keeps_weaken; [|apply update16_keeps| |apply update16_keeps]; cbv beta; lia. }
  split; [eapply mem_only_trans; [exact Ma|]; eapply mem_only_trans; [|apply TAG_SetFlags_mem_only]; reflexivity|].
  split; [apply TAG_SetFlags_ok, update16_ok, update16_ok, Oka|].
  split; [unfold pd; rewrite (keeps_TAG_Cb _ _ _ _ (TAG_SetFlags_keeps_empty pc t 0 ltac:(lia)) (TAG_SetFlags_mem_only _ _ _)); lia|].
  split; [rewrite <- Ea; apply (keeps_load16 _ _ _ _ Kd); lia|].
  split; [transitivity (ibMicFree pa); [apply (keeps_load16 _ _ _ _ Kd); lia|apply (keeps_load16 _ _ _ _ Ka); lia]|].
  eapply keeps_trans; eapply keeps_weaken; [|exact Ka| |exact Kd]; cbv beta; unfold at_one_tag; fold t; lia.
Qed.

Lemma emptied : let p' := vacate p t in
  mem_only p p' /\ page_inv p' /\ cbFree p' = cbFree p + cb /\ TAG_Cb p' t = 0 /\
  keeps (fun a => a < 28 \/ 30 <= a < 32 \/ 34 <= a < CbPageHeader p \/ cbBuffer p <= a) p p' /\
  exists c, view p' = replace_at (Z.to_nat itag) c (view p).
Proof.
  change (vacate p t) with pd. cbv zeta.
  destruct em_d as (M & Ok & C & Ef & Eu & K). destruct em_bounds as (BH & BU & Bt & Bl & Bi & Bc & Bf & Bs).
  destruct (own_lo_range p itag Inv Hi) as (O1 & O2 & O3 & O4). fold t cb in O1, O2, O3, O4. pose proof (room p Inv).
  assert (Et : PtagFromItag_ pd itag = t) by (unfold t, PtagFromItag_; now destruct (mem_only_fields _ _ M) as (_ & -> & _)).
  split; [exact M|]. split; [|split; [exact Ef|split; [exact C|split]]].
  - apply (one_tag_inv p itag (own_lo p t) (own_lo p t + cb)); auto; try lia.
    + rewrite Eu. apply (layout_shrink _ (tag_line p itag)); [now apply rest_layout|]. left. unfold tag_line. rewrite Et.
      cbn [l_bytes line_at]. rewrite C. reflexivity.
    + fold t. rewrite C, Ef, (rest_free p itag Inv Hi). fold t cb. lia.
  - apply (one_tag_keeps p itag (own_lo p t) (own_lo p t + cb)); auto; lia.
  - exists (content (tag_line pd itag)). apply (one_tag_view p itag (own_lo p t) (own_lo p t + cb)); auto; lia.
Qed.
End Emptied.

Section ToEnd.
Variables (p : CPAGE) (itag : Z) (ls : list (list Z)) (flags : Z).
Let l := concat ls.
Let nb := Z.of_nat (length l).
Let t := PtagFromItag_ p itag.
Let U := ibMicFree p.
Hypothesis Inv : page_inv p.
Hypothesis Hi : 0 <= itag < m_itagMicFree p.
Hypothesis Hempty : TAG_Cb p t = 0.
Hypothesis Hl : bytes_ok l.
Hypothesis Hfit : nb <= CbContiguousFree_ p.

Let pf := TAG_SetIb p t (ibMicFree p).
Let pg := set_ibMicFree pf (u16 (ibMicFree pf + nb)).
Let ph := set_cbFree pg (u16 (cbFree pg - nb)).
Let pC := TAG_SetCb ph t nb.

Lemma te_bounds : (CbPageHeader p = 40 \/ CbPageHeader p = 80) /\ 0 <= U /\ 0 <= nb /\
  CbPageHeader p + U + nb <= cbBuffer p - 4 * m_itagMicFree p /\ cbBuffer p - 4 * m_itagMicFree p <= t /\ cbBuffer p <= 32768 /\
  1 <= m_itagMicFree p /\ nb <= cbFree p < 65536 /\ cbBuffer p - CbPageHeader p <= mskTagIbCb (m_fSmallFormat p).
Proof.
  pose proof (header_size p). pose proof (ibMicFree_range p Inv). pose proof (CbContiguousFree_eq p Inv). pose proof (inv_tags p Inv).
  pose proof (inv_size p Inv). pose proof (inv_buf p Inv). pose proof (contiguous_le_free p Inv). pose proof (cbFree_range p Inv).
  pose proof (mask_fits p Inv). unfold t, PtagFromItag_, sizeof_TAG, U, nb in *. lia.
Qed.

Lemma te_C : mem_only p pC /\ mem_ok (pv pC) /\ TAG_Cb pC t = nb /\ TAG_Ib pC t = U /\ ibMicFree pC = U + nb /\
  cbFree pC = cbFree p - nb /\ keeps (fun a => (a < 28 \/ 30 <= a < 32 \/ 34 <= a) /\ (a < t \/ t + 4 <= a)) p pC.
Proof.
  destruct te_bounds as (BH & BU & Bn & Bs & Bt & Bb & Bg & Bf & Bm).
  assert (Kf : keeps (fun a => a < t + 2 \/ t + 4 <= a) p pf)
    by (eapply keeps_weaken; [|apply update16_keeps]; cbv beta; lia).
  assert (Uf : ibMicFree pf = U) by (apply (keeps_load16 _ _ _ _ Kf); lia).
  assert (Kg : keeps (fun a => a < 32 \/ 34 <= a) pf pg) by apply set_ibMicFree_keeps.
  assert (Kh : keeps (fun a => a < 28 \/ 30 <= a) pg ph) by apply set_cbFree_keeps.
  assert (KC : keeps (fun a => a < t \/ t + 2 <= a) ph pC) by apply update16_keeps.
  assert (Ug : ibMicFree pg = U + nb) by (unfold pg; rewrite Uf, u16_small by lia; apply set_ibMicFree_eq; lia).
  assert (Fg : cbFree pg = cbFree p).
  { transitivity (cbFree pf); [apply (keeps_load16 _ _ _ _ Kg); lia|apply (keeps_load16 _ _ _ _ Kf); lia]. }
  assert (Fh : cbFree ph = cbFree p - nb) by (unfold ph; rewrite Fg, u16_small by lia; apply set_cbFree_eq; lia).
  split; [reflexivity|]. split; [apply update16_ok, store16_ok, store16_ok, update16_ok, Inv|].
  split; [apply TAG_SetCb_Cb; change (m_fSmallFormat ph) with (m_fSmallFormat p); lia|]. split.
  { unfold pC. rewrite TAG_SetCb_Ib. rewrite (keeps_TAG_Ib _ pg ph t Kh eq_refl) by lia.
    rewrite (keeps_TAG_Ib _ pf pg t Kg eq_refl) by lia. apply TAG_SetIb_Ib. fold U. lia. }
  split; [transitivity (ibMicFree ph); [apply (keeps_load16 _ _ _ _ KC); lia|];
    rewrite <- Ug; apply (keeps_load16 _ _ _ _ Kh); lia|].
  split; [rewrite <- Fh; apply (keeps_load16 _ _ _ _ KC); lia|].
  apply (keeps_trans _ p pf); [eapply keeps_weaken; [|exact Kf]; cbv beta; lia|].
  apply (keeps_trans _ pf pg); [eapply keeps_weaken; [|exact Kg]; cbv beta; lia|].
  apply (keeps_trans _ pg ph); [eapply keeps_weaken; [|exact Kh]; cbv beta; lia|].
  eapply keeps_weaken; [|exact KC]; cbv beta; lia.
Qed.

Lemma to_end : exists pW, CopyData_ (TAG_SetFlags pC t (u16 flags)) t (ext ls) = Some pW /\ replaced p itag flags l pW.
Proof.
  destruct te_bounds as (BH & BU & Bn & Bs & Bt & Bb & Bg & Bf & Bm). destruct te_C as (MC & OkC & C & I & EU & EF & KC).
  assert (Pb : forall i, PbFromIb_ pC i = CbPageHeader p + i) by reflexivity.
  destruct (write_spec pC t ls (u16 flags) OkC C) as (pW & E & W); [|exact Hl|].
  { rewrite I, Pb. fold l nb. lia. }
  exists pW. split; [exact E|]. destruct W as [MW OkW KW CW IW LW]. rewrite I, Pb in KW. fold l nb in KW, CW.
  assert (M : mem_only p pW) by exact (mem_only_trans _ _ _ MC MW).
  assert (K : keeps (at_one_tag p itag U (U + nb)) p pW).
  { eapply keeps_trans; eapply keeps_weaken; [|exact KC| |exact KW]; cbv beta; unfold at_one_tag; fold t; lia. }
  assert (Et : PtagFromItag_ pW itag = t) by (unfold t, PtagFromItag_; now destruct (mem_only_fields _ _ M) as (_ & -> & _)).
  assert (UW : ibMicFree pW = U + nb) by (rewrite <- EU; apply (keeps_load16 _ _ _ _ KW); lia).
  assert (FW : cbFree pW = cbFree p - nb) by (rewrite <- EF; apply (keeps_load16 _ _ _ _ KW); lia).
  pose proof (top_range p itag (U + nb) Inv) as Only.
  constructor; [exact M| | |apply (one_tag_keeps p itag U (U + nb)); auto; lia].
  - apply (one_tag_inv p itag U (U + nb)); auto; try lia.
    + rewrite UW. unfold tag_line. rewrite Et. replace nb with (l_cb (line_at pW t)) by (rewrite l_cb_line_at; exact CW).
      apply layout_push; [|exact BU|]; [|cbn; now rewrite IW, I]. apply (layout_tail _ (tag_line p itag)), rest_layout; auto.
    + fold t. rewrite CW, FW, (rest_free p itag Inv Hi). fold t. lia.
  - apply (one_tag_view p itag U (U + nb)); auto; try lia. unfold tag_line. rewrite Et, LW, stored_u16. f_equal.
    unfold t, PtagFromItag_, sizeof_TAG. change (cbBuffer pC) with (cbBuffer p). case_cmp; reflexivity || lia.
Qed.
End ToEnd.

(** ** [Replace_] *)

Lemma replace_at_twice {A} k (x y : A) l : (k < length l)%nat -> replace_at k x (replace_at k y l) = replace_at k x l.
Proof.
  intros Hk. apply nth_ext with (d := x) (d' := x); [now rewrite !length_replace_at by (rewrite ?length_replace_at; auto)|].
  intros j _. rewrite !nth_replace_at by (rewrite ?length_replace_at; auto). now destruct (j =? k)%nat.
Qed.

Lemma view_Cb p p' k : view p' = view p -> mem_only p p' -> 0 <= k < m_itagMicFree p ->
  TAG_Cb p' (PtagFromItag_ p k) = TAG_Cb p (PtagFromItag_ p k).
Proof.
  intros V M Hk. destruct (mem_only_fields _ _ M) as (_ & F2 & _ & F4 & _).
  assert (E : content (tag_line p' k) = content (tag_line p k)).
  { set (d := Line 0 0 []). transitivity (nth (Z.to_nat k) (view p') (content d)).
    - unfold view. rewrite map_nth, nth_tag_line, Z2Nat.id by (rewrite ?F4; lia). reflexivity.
    - rewrite V. unfold view. rewrite map_nth, nth_tag_line, Z2Nat.id by lia. reflexivity. }
  unfold content in E. injection E as _ E. apply (f_equal (@length Z)) in E. cbn in E. rewrite !length_load_bytes in E.
  pose proof (TAG_Cb_range p' (PtagFromItag_ p' k)). pose proof (TAG_Cb_range p (PtagFromItag_ p k)).
  unfold PtagFromItag_ in *. rewrite F2 in *. lia.
Qed.

Section Replace.
Context `{Srt : StdSort}.
Variables (p : CPAGE) (itag : Z) (ls : list (list Z)) (flags : Z).
Let l := concat ls.
Let nb := Z.of_nat (length l).
Let t := PtagFromItag_ p itag.
Hypothesis Inv : page_inv p.
Hypothesis Hi : 0 <= itag < m_itagMicFree p.
Hypothesis Hnb : nb < 32768.

(** The statements after it, when the line is placed at the end. *)
Definition put_back (p : CPAGE) (t : Z) : CPAGE :=
  let p := TAG_SetIb p t (ibMicFree p) in
  let p := set_ibMicFree p (u16 (ibMicFree p + nb)) in
  set_cbFree p (u16 (cbFree p - nb)).

Lemma diff_exact : s16 (TAG_Cb p t - nb) = TAG_Cb p t - nb.
Proof.
  pose proof (TAG_Cb_mask p t). pose proof (TAG_Cb_range p t). apply s16_small.
  assert (mskTagIbCb (m_fSmallFormat p) <= 32767) by (destruct (m_fSmallFormat p); discriminate). unfold nb in *. lia.
Qed.

Lemma Replace_in_place :
  nb <= TAG_Cb p t \/ (TAG_Ib p t + TAG_Cb p t = ibMicFree p /\ nb - TAG_Cb p t <= CbContiguousFree_ p) ->
  bytes_ok l -> nb <= cbFree p + TAG_Cb p t ->
  exists p', Replace_ p itag (ext ls) flags = Some p' /\ replaced p itag flags l p'.
Proof.
  intros Hin Hl Hfit. destruct (in_place p itag ls flags Inv Hi Hl Hfit Hin) as (pW & E & R). fold t l nb in E, R.
  eexists. split; [|exact R]. unfold Replace_. rewrite CbDataTotal_ext. fold l nb. rewrite (u16_small nb) by (unfold nb in *; lia).
  cbv zeta. fold t. rewrite diff_exact.
  replace ((0 <=? TAG_Cb p t - nb) || (TAG_Ib p t + TAG_Cb p t =? ibMicFree p) && (- (TAG_Cb p t - nb) <=? CbContiguousFree_ p))
    with true by (symmetry; case_cmp; cbn [orb andb]; reflexivity || lia).
  cbv beta iota. rewrite E. reflexivity.
Qed.

Lemma Replace_move_unfold :
  ~ (nb <= TAG_Cb p t \/ (TAG_Ib p t + TAG_Cb p t = ibMicFree p /\ nb - TAG_Cb p t <= CbContiguousFree_ p)) ->
  Replace_ p itag (ext ls) flags =
  let? p2 := FreeSpace_ (vacate p t) nb in
  CopyData_ (TAG_SetFlags (TAG_SetCb (put_back p2 t) t nb) t (u16 flags)) t (ext ls).
Proof.
  intros Hin. unfold Replace_. rewrite CbDataTotal_ext. fold l nb. rewrite (u16_small nb) by (unfold nb in *; lia).
  cbv zeta. fold t. rewrite diff_exact.
  replace ((0 <=? TAG_Cb p t - nb) || (TAG_Ib p t + TAG_Cb p t =? ibMicFree p) && (- (TAG_Cb p t - nb) <=? CbContiguousFree_ p))
    with false by (symmetry; case_cmp; cbn [orb andb]; reflexivity || lia).
  cbv beta iota. fold (vacate p t). destruct (FreeSpace_ (vacate p t) nb) as [p2|]; [|reflexivity].
  fold (put_back p2 t). destruct (CopyData_ _ t (ext ls)) as [p3|]; [|reflexivity].
  destruct (Z.ltb_spec 0 (TAG_Cb p t - nb)); [lia|reflexivity].
Qed.

Lemma Replace_some : bytes_ok l -> nb <= cbFree p + TAG_Cb p t ->
  exists p', Replace_ p itag (ext ls) flags = Some p' /\ replaced p itag flags l p'.
Proof.
  intros Hl Hfit.
  assert (D : {nb <= TAG_Cb p t \/ (TAG_Ib p t + TAG_Cb p t = ibMicFree p /\ nb - TAG_Cb p t <= CbContiguousFree_ p)} +
    {~ (nb <= TAG_Cb p t \/ (TAG_Ib p t + TAG_Cb p t = ibMicFree p /\ nb - TAG_Cb p t <= CbContiguousFree_ p))}).
  { destruct (Z_le_dec nb (TAG_Cb p t)); [left; lia|]. destruct (Z.eq_dec (TAG_Ib p t + TAG_Cb p t) (ibMicFree p)); [|right; lia].
    destruct (Z_le_dec (nb - TAG_Cb p t) (CbContiguousFree_ p)); [left; lia|right; lia]. }
  destruct D as [D|D]; [now apply Replace_in_place|]. rewrite Replace_move_unfold by exact D.
  destruct (emptied p itag Inv Hi) as (M1 & I1 & F1 & C1 & K1 & c & V1). cbv zeta in *.
  fold t in M1, I1, F1, C1, K1, V1. destruct (FreeSpace_some (vacate p t) I1 nb) as (p2 & E2 & [M2 I2 V2 K2] & Hc); [lia|]. rewrite E2.
  destruct (mem_only_fields _ _ M1) as (G1 & G2 & _ & G4 & _). destruct (mem_only_fields _ _ M2) as (G1' & G2' & _ & G4' & _).
  assert (T1 : PtagFromItag_ (vacate p t) itag = t) by (unfold PtagFromItag_; rewrite G2; reflexivity).
  assert (T2 : PtagFromItag_ p2 itag = t) by (unfold PtagFromItag_; rewrite G2', G2; reflexivity).
  assert (C2 : TAG_Cb p2 t = 0) by (rewrite <- T1 at 1; rewrite (view_Cb _ _ itag V2 M2), T1 by (rewrite G4; exact Hi); exact C1).
  destruct (to_end p2 itag ls flags I2) as (pW & EW & RW); auto; try (rewrite T2; assumption); [now rewrite G4', G4|].
  rewrite T2 in EW. exists pW. split; [exact EW|]. destruct RW as [MW IW VW KW].
  assert (FH : CbPageHeader p2 = CbPageHeader p /\ CbPageHeader (vacate p t) = CbPageHeader p)
    by (unfold CbPageHeader; now rewrite G1', G1).
  destruct FH as [FH FH1]. rewrite FH, G2', G2 in KW. rewrite FH1, G2 in K2.
  constructor; [eapply mem_only_trans; [exact M1|]; eapply mem_only_trans; eauto|exact IW| |].
  - rewrite VW, V2, V1, G1', G1. apply replace_at_twice. rewrite length_view. lia.
  - apply (keeps_trans _ p (vacate p t)); [exact K1|]. apply (keeps_trans _ _ p2); [|exact KW].
    eapply keeps_weaken; [|exact K2]; cbv beta. pose proof (header_size p). lia.
Qed.

(** A line that does not fit ends the process. *)
Lemma Replace_none : cbFree p + TAG_Cb p t < nb -> Replace_ p itag (ext ls) flags = None.
Proof.
  intros Hfit. pose proof (contiguous_le_free p Inv). pose proof (cbFree_range p Inv). rewrite Replace_move_unfold by lia.
  destruct (emptied p itag Inv Hi) as (M1 & I1 & F1 & C1 & K1 & c & V1). cbv zeta in *.
  fold t in M1, I1, F1, C1, K1, V1. now rewrite (FreeSpace_none (vacate p t) I1) by lia.
Qed.
End Replace.
