(* ===== verification/PageNew.v ===== *)
(** * New pages

    [LoadNewPage] formats any buffer into a well-formed page with one empty
    line, the external header, and writes only inside the buffer. *)

From Stdlib Require Import ZArith List Lia Bool Permutation.
From S2P Require Import Prelude Bits Mem Checksum ChecksumErrors PageChecksum Page PageLayout PageTags PageReorg PageTagArray PageInsert.
Import ListNotations.

Lemma load16_store32_ne m a v b : b + 2 <= a \/ a + 4 <= b -> load16 (store32 m a v) b = load16 m b.
Proof. intros. apply load16_ext. intros x Hx. apply store32_frame. lia. Qed.

Lemma load16_store64_ne m a v b : b + 2 <= a \/ a + 8 <= b -> load16 (store64 m a v) b = load16 m b.
Proof. intros. apply load16_ext. intros x Hx. apply store64_frame. lia. Qed.

Create Rewrite HintDb ese_loads.

#[export] Hint Rewrite load16_store16_eq : ese_loads.
#[export] Hint Rewrite load16_store16_ne load16_store32_ne load16_store64_ne using lia : ese_loads.
#[export] Hint Rewrite store16_frame store32_frame store64_frame using lia : ese_loads.

(** ** The blank page *)

Section PreInit.
Variables (p : CPAGE) (pgno objid dbtime : Z).
Hypothesis Hm : mem_ok (pv p).
Hypothesis Hcb : 2048 <= cbBuffer p <= 32768.
Hypothesis Hpg : cbPage p = cbBuffer p.

Let p' := PreInitializeNewPage_ p pgno objid dbtime.

Lemma preinit_fields : p' = Page (pv p') pgno (m_fSmallFormat p) 0 0 (cbBuffer p) (cbPage p) (fDirty p)
  (fRuntimeScrubbing p) (fResvTagFormat p).
Proof. unfold p', PreInitializeNewPage_, SetFNewRecordFormat. cbn. destruct (m_fSmallFormat p); reflexivity. Qed.

Lemma preinit_ok : mem_ok (pv p').
Proof.
  unfold p', PreInitializeNewPage_, SetFNewRecordFormat. cbn. destruct (m_fSmallFormat p); cbn; auto 20 with ese.
Qed.

Lemma preinit_zero a : CbPageHeader p <= a < cbBuffer p -> pv p' a = 0.
Proof.
  intros Ha. pose proof (header_size p). unfold p', PreInitializeNewPage_, SetFNewRecordFormat, set_fFlags, set_cbFree,
    set_ibMicFree, set_itagState. unfold CbPageHeader in Ha. cbn.
  destruct (m_fSmallFormat p) eqn:E; cbn; unfold sizeof_PGHDR, sizeof_PGHDR2 in Ha; autorewrite with ese_loads;
    rewrite memset_in by lia; reflexivity.
Qed.

Lemma preinit_outside a : a < 0 \/ cbBuffer p <= a -> pv p' a = pv p a.
Proof.
  intros Ha. unfold p', PreInitializeNewPage_, SetFNewRecordFormat, set_fFlags, set_cbFree, set_ibMicFree, set_itagState. cbn.
  destruct (m_fSmallFormat p) eqn:E; cbn; autorewrite with ese_loads; apply memset_frame; lia.
Qed.

Lemma preinit_header : cbFree p' = cbBuffer p - CbPageHeader p /\ ibMicFree p' = 0 /\ itagState p' = 0.
Proof.
  pose proof (header_size p). unfold cbFree, ibMicFree, itagState.
  assert (E : u16 (CbPageData (set_fFlags (with_pv p (memset (pv p) 0 0 (cbBuffer p))) fPagePreInit)) = cbBuffer p - CbPageHeader p).
  { unfold CbPageData, CbAdjustForPage, CbBufferData. cbn. rewrite Hpg, Z.sub_diag. unfold CbPageHeader. cbn.
    unfold CbPageHeader in *. rewrite u16_small; [cbn; lia|]. change (u16 0) with 0. lia. }
  unfold p', PreInitializeNewPage_, SetFNewRecordFormat, set_fFlags, set_cbFree, set_ibMicFree, set_itagState in *.
  cbn [pv with_pv m_fSmallFormat] in *. unfold CbPageData, CbBufferData, CbAdjustForPage, CbPageHeader in *.
  cbn [pv with_pv m_fSmallFormat cbBuffer cbPage] in *.
  destruct (m_fSmallFormat p) eqn:Es; cbn [negb pv with_pv]; autorewrite with ese_loads; rewrite E;
    (split; [apply u16_small; lia|split; reflexivity]).
Qed.
End PreInit.

(** ** The first tag *)

Section Consume.
Variables (p : CPAGE) (fPageFlags : Z).
Hypothesis Hm : mem_ok (pv p).
Hypothesis Hcb : 2048 <= cbBuffer p <= 32768.
Hypothesis Hpg : cbPage p = cbBuffer p.
Hypothesis Hfmt : m_fSmallFormat p = FIsSmallPage (cbPage p).
Hypothesis Hfree : cbFree p = cbBuffer p - CbPageHeader p.
Hypothesis Hib : ibMicFree p = 0.

Let t := PtagFromItag_ p 0.
Let p1 := SetITagState_ p 1 1.
Let p2 := set_cbFree p1 (u16 (cbFree p1 - sizeof_TAG)).
Let p4 := TAG_SetCb (TAG_SetIb p2 t 0) t 0.
Let p5 := TAG_SetFlags p4 t 0.
Let p' := ConsumePreInitPage p fPageFlags.

Lemma co_unfold : p' = set_fFlags p5 ((fPageFlags .| fPageNewRecordFormat) .& Z.lnot fPagePreInit).
Proof.
  unfold p', ConsumePreInitPage. cbv zeta. fold p1 p2. replace (PtagFromItag_ p2 0) with t; [reflexivity|].
  unfold t, PtagFromItag_, p2, p1, SetITagState_. cbv zeta. destruct (_ || _); reflexivity.
Qed.

Lemma co_1 : p1 = with_itags (with_pv p (pv p1)) 1 1 /\ mem_ok (pv p1) /\ InitItagState p1 = p1 /\
  keeps (fun a => a < 34 \/ 36 <= a) p p1.
Proof.
  split; [|split; [|split]].
  - apply SetITagState_fields; vm_compute; split; discriminate.
  - now apply SetITagState_ok.
  - apply SetITagState_state; [vm_compute; split; discriminate..|]. now left.
  - apply SetITagState_keeps.
Qed.

Lemma co_5 : mem_only p1 p5 /\ mem_ok (pv p5) /\ cbFree p5 = cbBuffer p - CbPageHeader p - 4 /\ ibMicFree p5 = 0 /\
  TAG_Cb p5 t = 0 /\ TAG_FFlags p5 t = 0 /\ keeps (fun a => (a < 28 \/ 30 <= a) /\ (a < t \/ t + 4 <= a)) p1 p5.
Proof.
  destruct co_1 as (E1 & Ok1 & _ & K1). pose proof (header_size p). assert (Et : t = cbBuffer p - 4) by (unfold t, PtagFromItag_, sizeof_TAG; lia).
  assert (F1 : cbFree p1 = cbBuffer p - CbPageHeader p) by (rewrite <- Hfree; apply (keeps_load16 _ _ _ _ K1); lia).
  assert (U1 : ibMicFree p1 = 0) by (rewrite <- Hib; apply (keeps_load16 _ _ _ _ K1); lia).
  assert (Ok4 : mem_ok (pv p4)) by apply update16_ok, update16_ok, store16_ok, Ok1.
  assert (C4 : TAG_Cb p4 t = 0) by apply TAG_SetCb_Cb, mask_zero.
  assert (K2 : keeps (fun a => a < 28 \/ 30 <= a) p1 p2) by apply set_cbFree_keeps.
  assert (K5 : keeps (fun a => a < t \/ t + 4 <= a) p2 p5).
  { apply (keeps_trans _ p2 (TAG_SetIb p2 t 0)); [eapply keeps_weaken; [|apply update16_keeps]; cbv beta; lia|].
    apply (keeps_trans _ _ p4); eapply keeps_weaken; [|apply update16_keeps| |apply TAG_SetFlags_keeps_empty; lia]; cbv beta; lia. }
  assert (M45 : mem_only p4 p5) by apply TAG_SetFlags_mem_only.
  assert (C5 : TAG_Cb p5 t = 0) by (rewrite <- C4; apply (keeps_TAG_Cb _ _ _ _ (TAG_SetFlags_keeps_empty p4 t 0 ltac:(lia)) M45); lia).
  assert (Ok5 : mem_ok (pv p5)) by now apply TAG_SetFlags_ok.
  split; [eapply mem_only_trans; [|exact M45]; reflexivity|]. split; [exact Ok5|].
  split; [transitivity (cbFree p2); [apply (keeps_load16 _ _ _ _ K5); lia|];
    unfold p2; rewrite F1, u16_small by (unfold sizeof_TAG; lia); apply set_cbFree_eq; unfold sizeof_TAG; lia|].
  split; [rewrite <- U1; transitivity (ibMicFree p2); [apply (keeps_load16 _ _ _ _ K5); lia|apply (keeps_load16 _ _ _ _ K2); lia]|].
  split; [exact C5|]. split.
  - destruct (m_fSmallFormat p4) eqn:Es.
    + rewrite FFlags_small; [|exact Ok5|now destruct (mem_only_fields _ _ M45) as (-> & _)].
      rewrite (load16_ext _ _ _ (fun x _ => TAG_SetFlags_bytes p4 t 0 Ok4 x)). unfold flag_byte. rewrite Es. unfold load16, set_top3.
      replace (t + 2 + 1) with (t + 3) by lia. rewrite Z.eqb_refl. destruct (Z.eqb_spec (t + 2) (t + 3)); [lia|].
      pose proof (Ok4 (t + 2)). zlia.
    + rewrite FFlags_large; [|exact Ok5|now destruct (mem_only_fields _ _ M45) as (-> & _)]. now rewrite C5.
  - eapply keeps_trans; eapply keeps_weaken; [|exact K2| |exact K5]; cbv beta; lia.
Qed.

Lemma set_fFlags_keeps q v : keeps (fun a => a < 36 \/ 40 <= a) q (set_fFlags q v).
Proof. intros a Ha. cbn. now apply store32_frame. Qed.

Lemma consume_spec : p' = with_itags (with_pv p (pv p')) 1 1 /\ page_inv p' /\ view p' = [(0, [])] /\
  keeps (fun a => a < 28 \/ 30 <= a < 34 \/ 40 <= a < t \/ t + 4 <= a) p p'.
Proof.
  destruct co_1 as (E1 & Ok1 & S1 & K1). destruct co_5 as (M5 & Ok5 & F5 & U5 & C5 & L5 & K5). pose proof (header_size p).
  assert (Et : t = cbBuffer p - 4) by (unfold t, PtagFromItag_, sizeof_TAG; lia).
  assert (M' : mem_only p5 p') by (rewrite co_unfold; reflexivity).
  assert (K' : keeps (fun a => a < 36 \/ 40 <= a) p5 p') by (rewrite co_unfold; apply set_fFlags_keeps).
  assert (R : p' = with_itags (with_pv p (pv p')) 1 1).
  { rewrite (mem_only_trans _ _ _ M5 M'). rewrite E1 at 1. reflexivity. }
  assert (Fn : m_itagMicFree p' = 1) by (rewrite R; reflexivity). assert (Fb : cbBuffer p' = cbBuffer p) by (rewrite R; reflexivity).
  assert (FH : CbPageHeader p' = CbPageHeader p) by (unfold CbPageHeader; rewrite R; reflexivity).
  assert (Line : lines p' = [tag_line p' 0]) by (unfold lines; rewrite Fn; reflexivity).
  assert (Lz : line_at p' t = line_at p5 t).
  { apply line_at_same; [now destruct (mem_only_fields _ _ M') as (-> & _)| |].
    - intros x Hx. apply K'. lia.
    - intros x Hx. rewrite C5 in Hx. lia. }
  assert (T0 : tag_line p' 0 = line_at p5 t) by (rewrite <- Lz; unfold tag_line, PtagFromItag_; rewrite Fb; reflexivity).
  assert (Lb : l_bytes (line_at p5 t) = []) by (cbn [l_bytes line_at]; now rewrite C5).
  assert (Ct : cb_total (lines p') = 0) by (rewrite Line, T0; cbn [cb_total fold_right]; unfold l_cb; now rewrite Lb).
  assert (Kall : keeps (fun a => a < 28 \/ 30 <= a < 34 \/ 40 <= a < t \/ t + 4 <= a) p p').
  { apply (keeps_trans _ p p1); [eapply keeps_weaken; [|exact K1]; cbv beta; lia|].
    apply (keeps_trans _ _ p5); eapply keeps_weaken; [|exact K5| |exact K']; cbv beta; lia. }
  split; [exact R|]. split; [|split; [|exact Kall]].
  - assert (U' : ibMicFree p' = 0) by (rewrite <- U5; apply (keeps_load16 _ _ _ _ K'); lia).
    constructor; rewrite ?Fn, ?Fb; try (rewrite R; cbn; first [exact Hfmt | lia]).
    + rewrite co_unfold. cbn. auto with ese.
    + vm_compute; split; discriminate.
    + rewrite R; vm_compute; split; discriminate.
    + apply inv_state_iff. apply inv_state_iff in S1. rewrite R. cbn [m_itagMicFree m_ctagReserved with_itags].
      rewrite <- R. assert (Es : itagState p' = itagState p1).
      { transitivity (itagState p5); [apply (keeps_load16 _ _ _ _ K'); lia|apply (keeps_load16 _ _ _ _ K5); lia]. }
      rewrite Es. destruct S1 as [S1 S2]. rewrite S1, S2, E1. auto.
    + unfold CbContiguousBufferFree_, CbBufferData, CbTagArray_, sizeof_TAG. rewrite U', Fn, Fb, FH. lia.
    + apply layout_empty, Ct.
    + rewrite Ct. unfold CbBufferData, CbTagArray_, sizeof_TAG. rewrite Fn, Fb, FH.
      transitivity (cbFree p5); [apply (keeps_load16 _ _ _ _ K'); lia|]. lia.
  - unfold view. rewrite Line, T0. cbn [map]. unfold content. rewrite Lb. cbn [l_flags line_at]. now rewrite L5.
Qed.
End Consume.

Section New.
Variables (m : mem) (pgno objid flags cb : Z) (fScrub fResvTag : bool).
Hypothesis Hm : mem_ok m.
Hypothesis Hcb : 2048 <= cb <= 32768.

Let p0 := Page m pgno (FIsSmallPage cb) 0 0 cb cb false fScrub fResvTag.
Let p' := LoadNewPage m pgno objid flags cb fScrub fResvTag.

Lemma new_page : page_inv p' /\ view p' = [(0, [])] /\
  p' = Page (pv p') pgno (FIsSmallPage cb) 1 1 cb cb false fScrub fResvTag /\
  forall a, a < 0 \/ cb <= a -> pv p' a = m a.
Proof.
  set (p1 := PreInitializeNewPage_ p0 pgno objid 0).
  assert (E1 := preinit_fields p0 pgno objid 0). fold p1 in E1. cbn [m_fSmallFormat cbBuffer cbPage fDirty fRuntimeScrubbing fResvTagFormat p0] in E1.
  assert (FH : CbPageHeader p1 = CbPageHeader p0) by (unfold CbPageHeader; rewrite E1; reflexivity).
  assert (Fb : cbBuffer p1 = cb) by (rewrite E1; reflexivity).
  destruct (preinit_header p0 pgno objid 0 Hcb eq_refl) as (F & I & _). fold p1 in F, I.
  destruct (consume_spec p1 flags) as (R & Inv & V & K).
  - now apply preinit_ok.
  - rewrite Fb. exact Hcb.
  - rewrite E1. reflexivity.
  - rewrite E1. reflexivity.
  - rewrite Fb, FH. exact F.
  - exact I.
  - assert (E : p' = ConsumePreInitPage p1 flags) by (apply (inv_state _ Inv)). rewrite E.
    split; [exact Inv|]. split; [exact V|]. split.
    + etransitivity; [exact R|]. generalize (pv (ConsumePreInitPage p1 flags)). intros mm. rewrite E1.
      generalize (pv p1). reflexivity.
    + intros a Ha. rewrite K by (unfold PtagFromItag_, sizeof_TAG; rewrite Fb; lia).
      apply (preinit_outside p0); cbn; auto.
Qed.
End New.
