(* ===== verification/PageRead.v ===== *)
(** * Reading lines

    [GetPtr_], the accessor behind every read of a node, in its unchecked form
    and in the form that validates the tag of a possibly corrupt page; and the
    walks over all lines, [ResetAllFlags] and [FAnyLineHasFlagSet].

    Addresses are offsets from the page buffer, which is not at either end of
    the address space, so that comparing pointers is comparing offsets. *)

From Stdlib Require Import ZArith List Lia Bool Permutation.
From S2P Require Import Prelude Bits Mem Checksum ChecksumErrors PageChecksum Page PageLayout PageTags PageTagArray PageInsert PageReplace.
Import ListNotations.

(** What [LINE::pv] is set to. *)
Inductive line_ptr := PvNull | PvBogus (* (VOID * )-29 *) | PvPage (pb : Z).

Record LINE := Line_ { ln_pv : line_ptr; ln_cb : Z; ln_fFlags : Z }.

Definition JET_errSuccess : Z := 0.
Definition JET_errPageTagCorrupted : Z := -357.

Definition PbDataStart_ (p : CPAGE) : Z := if m_fSmallFormat p then sizeof_PGHDR else sizeof_PGHDR2.
(** The last byte a line may use. *)
Definition PbDataEnd_ (p : CPAGE) : Z := cbBuffer p - CbTagArray_ p - 1.

(** [GetPtr_< pgnbcNoChecks >]. *)
Definition GetPtr_NoChecks (p : CPAGE) (itag : Z) : LINE :=
  let ptag := PtagFromItag_ p itag in
  let cb := TAG_Cb p ptag in
  let pv := if cb =? 0 then PvBogus else PvPage (PbFromIb_ p (TAG_Ib p ptag)) in
  Line_ pv cb (TAG_FFlags p ptag).

(** [GetPtr_< pgnbcChecked >] with an error to set. *)
Definition GetPtr_Checked (p : CPAGE) (itag : Z) : LINE * Z :=
  let ptag := PtagFromItag_ p itag in
  if (ptag <? PbDataStart_ p) || (cbBuffer p <? ptag + sizeof_TAG - 1)
  then (Line_ PvNull 0 0, JET_errPageTagCorrupted)
  else
    let cb := TAG_Cb p ptag in
    if cb =? 0 then
      (Line_ PvBogus cb (TAG_FFlags p ptag),
       if m_ctagReserved p <=? itag then JET_errPageTagCorrupted else JET_errSuccess)
    else
      let pbLine := PbFromIb_ p (TAG_Ib p ptag) in
      let pbLineLastByte := pbLine + cb - 1 in
      if (PbDataEnd_ p <? pbLineLastByte) || (pbLine <? PbDataStart_ p) || (PbDataEnd_ p <=? pbLine)
         || (pbLineLastByte <? PbDataStart_ p)
      then
        let fFlagsOnPage := m_fSmallFormat p || (pbLine + 1 <? PbDataEnd_ p) in
        (Line_ (PvPage pbLine) cb (if fFlagsOnPage then TAG_FFlags p ptag else 0), JET_errPageTagCorrupted)
      else (Line_ (PvPage pbLine) cb (TAG_FFlags p ptag), JET_errSuccess).

Definition GetPtr (p : CPAGE) (iline : Z) : LINE := GetPtr_NoChecks p (iline + m_ctagReserved p).
Definition ErrGetPtr (p : CPAGE) (iline : Z) : LINE * Z := GetPtr_Checked p (iline + m_ctagReserved p).
Definition GetPtrExternalHeader (p : CPAGE) : LINE := GetPtr_NoChecks p 0.
Definition ErrGetPtrExternalHeader (p : CPAGE) : LINE * Z := GetPtr_Checked p 0.
Definition GetPtrReservedTag (p : CPAGE) (itag : Z) : LINE := GetPtr_NoChecks p itag.
Definition ErrGetPtrReservedTag (p : CPAGE) (itag : Z) : LINE * Z := GetPtr_Checked p itag.

(** ** Walks over the lines *)

(** [n] steps of the loop of [ResetAllFlags], from [itag] down. *)
Fixpoint reset_loop (n : nat) (p : CPAGE) (itag fFlags : Z) : CPAGE :=
  match n with
  | O => p
  | S n' =>
      let ptag := PtagFromItag_ p itag in
      reset_loop n' (TAG_SetFlags p ptag (u16 (TAG_FFlags p ptag .& Z.lnot fFlags))) (itag - 1) fFlags
  end.

Definition ResetAllFlags (p : CPAGE) (fFlags : Z) : CPAGE :=
  reset_loop (Z.to_nat (m_itagMicFree p - m_ctagReserved p)) p (m_itagMicFree p - 1) fFlags.

Fixpoint any_flag_loop (n : nat) (p : CPAGE) (itag fFlags : Z) : bool :=
  match n with
  | O => false
  | S n' =>
      if negb (TAG_FFlags p (PtagFromItag_ p itag) .& fFlags =? 0) then true
      else any_flag_loop n' p (itag - 1) fFlags
  end.

Definition FAnyLineHasFlagSet (p : CPAGE) (fFlags : Z) : bool :=
  any_flag_loop (Z.to_nat (m_itagMicFree p - m_ctagReserved p)) p (m_itagMicFree p - 1) fFlags.

(** ** Lemmas *)

Lemma PbDataStart_eq p : PbDataStart_ p = CbPageHeader p.
Proof. reflexivity. Qed.

Lemma TAG_FFlags_tag_line p k : TAG_FFlags p (PtagFromItag_ p k) = fst (content (tag_line p k)).
Proof. reflexivity. Qed.

(** A successful check gives a line inside the data area, or an empty reserved
    tag; nothing is assumed of the page. *)
Lemma Checked_inside p itag l :
  GetPtr_Checked p itag = (l, JET_errSuccess) ->
  (ln_cb l = 0 /\ ln_pv l = PvBogus /\ itag < m_ctagReserved p) \/
  (exists pb, ln_pv l = PvPage pb /\ 0 < ln_cb l /\ CbPageHeader p <= pb /\ pb + ln_cb l <= cbBuffer p - CbTagArray_ p).
Proof.
  unfold GetPtr_Checked. cbv zeta. rewrite !PbDataStart_eq. pose proof (TAG_Cb_range p (PtagFromItag_ p itag)).
  destruct ((PtagFromItag_ p itag <? CbPageHeader p) || _); [discriminate|].
  destruct (Z.eqb_spec (TAG_Cb p (PtagFromItag_ p itag)) 0) as [E|E].
  - destruct (Z.leb_spec (m_ctagReserved p) itag); [discriminate|]. intros Hl. injection Hl as <-. left. cbn. auto.
  - destruct (Z.ltb_spec (PbDataEnd_ p) (PbFromIb_ p (TAG_Ib p (PtagFromItag_ p itag)) + TAG_Cb p (PtagFromItag_ p itag) - 1)) as [|L1];
      cbn [orb]; [discriminate|].
    destruct (Z.ltb_spec (PbFromIb_ p (TAG_Ib p (PtagFromItag_ p itag))) (CbPageHeader p)) as [|L2]; cbn [orb]; [discriminate|].
    destruct (_ || _); [discriminate|]. intros Hl. injection Hl as <-. right. eexists. cbn. split; [reflexivity|].
    unfold PbDataEnd_ in L1. lia.
Qed.

(** The tag of an accepted position lies in the buffer. *)
Lemma Checked_ext p m itag :
  0 <= itag -> CbPageHeader p <= cbBuffer p -> 0 <= m_itagMicFree p -> mem_eq_on 0 (cbBuffer p) m (pv p) ->
  GetPtr_Checked (with_pv p m) itag = GetPtr_Checked p itag.
Proof.
  intros Hi HH Hn V. set (q := with_pv p m). assert (M : mem_only p q) by reflexivity.
  unfold GetPtr_Checked. cbv zeta. change (PtagFromItag_ q itag) with (PtagFromItag_ p itag).
  change (PbDataStart_ q) with (CbPageHeader p). change (PbDataEnd_ q) with (PbDataEnd_ p). change (PbDataStart_ p) with (CbPageHeader p).
  change (cbBuffer q) with (cbBuffer p). change (m_ctagReserved q) with (m_ctagReserved p). change (m_fSmallFormat q) with (m_fSmallFormat p).
  set (t := PtagFromItag_ p itag). pose proof (header_size p).
  destruct (Z.ltb_spec t (CbPageHeader p)) as [|T1]; cbn [orb]; [reflexivity|].
  assert (T2 : t + 4 <= cbBuffer p) by (unfold t, PtagFromItag_, sizeof_TAG; lia).
  destruct (Z.ltb_spec (cbBuffer p) (t + sizeof_TAG - 1)) as [|_]; [reflexivity|].
  assert (K : keeps (fun a => 0 <= a < cbBuffer p) p q) by (intros a Ha; now apply V).
  assert (Ec : TAG_Cb q t = TAG_Cb p t) by (apply (keeps_TAG_Cb _ _ _ _ K M); lia).
  assert (Ei : TAG_Ib q t = TAG_Ib p t) by (apply (keeps_TAG_Ib _ _ _ _ K M); lia).
  rewrite Ec, Ei. change (PbFromIb_ q (TAG_Ib p t)) with (PbFromIb_ p (TAG_Ib p t)). set (pb := PbFromIb_ p (TAG_Ib p t)).
  pose proof (TAG_Ib_range p t). assert (Hpb : 0 <= pb) by (unfold pb, PbFromIb_; lia).
  assert (Ef : m_fSmallFormat p = true \/ TAG_Cb p t < 2 \/ pb + 1 < cbBuffer p -> TAG_FFlags q t = TAG_FFlags p t).
  { intros Hf. unfold TAG_FFlags. rewrite Ec, Ei. change (m_fSmallFormat q) with (m_fSmallFormat p). destruct (m_fSmallFormat p) eqn:Es.
    - rewrite (keeps_load16 _ _ _ (t + 2) K); [reflexivity|lia|lia].
    - destruct (Z.leb_spec 2 (TAG_Cb p t)); [|reflexivity]. destruct Hf as [|Hf]; [discriminate|].
      change (PbFromIb_ q (TAG_Ib p t)) with pb. fold pb. rewrite (keeps_load16 _ _ _ pb K); [reflexivity|lia|lia]. }
  destruct (Z.eqb_spec (TAG_Cb p t) 0) as [E0|E0].
  { rewrite Ef by lia. reflexivity. }
  unfold PbDataEnd_, CbTagArray_, sizeof_TAG in *.
  destruct (Z.ltb_spec (cbBuffer p - m_itagMicFree p * 4 - 1) (pb + TAG_Cb p t - 1)) as [L1|L1]; cbn [orb].
  { destruct (bool_cases (m_fSmallFormat p || (pb + 1 <? cbBuffer p - m_itagMicFree p * 4 - 1))) as [B|B]; rewrite B; [|reflexivity].
    rewrite Ef; [reflexivity|]. destruct (m_fSmallFormat p); [now left|]. cbn [orb] in B. apply Z.ltb_lt in B. lia. }
  destruct (Z.ltb_spec pb (CbPageHeader p)); cbn [orb].
  { unfold pb, PbFromIb_ in *. lia. }
  destruct (Z.leb_spec (cbBuffer p - m_itagMicFree p * 4 - 1) pb) as [L3|L3]; cbn [orb].
  { destruct (bool_cases (m_fSmallFormat p || (pb + 1 <? cbBuffer p - m_itagMicFree p * 4 - 1))) as [B|B]; rewrite B; [|reflexivity].
    rewrite Ef; [reflexivity|]. destruct (m_fSmallFormat p); [now left|]. cbn [orb] in B. apply Z.ltb_lt in B. lia. }
  pose proof (TAG_Cb_range p t). destruct (Z.ltb_spec (pb + TAG_Cb p t - 1) (CbPageHeader p)); [lia|]. rewrite Ef by (right; lia). reflexivity.
Qed.

(** On a well-formed page the check accepts every line of two bytes or more and
    agrees with the unchecked accessor. *)
Lemma Checked_complete p itag :
  page_inv p -> 0 <= itag < m_itagMicFree p -> 2 <= TAG_Cb p (PtagFromItag_ p itag) ->
  GetPtr_Checked p itag = (GetPtr_NoChecks p itag, JET_errSuccess).
Proof.
  intros Inv Hi Hc. pose proof (ptag_range p Inv itag Hi) as T. pose proof (line_below p Inv itag Hi) as B.
  pose proof (room p Inv) as R. pose proof (ibMicFree_range p Inv). pose proof (header_size p). pose proof (TAG_Ib_range p (PtagFromItag_ p itag)).
  unfold GetPtr_Checked, GetPtr_NoChecks. cbv zeta. rewrite !PbDataStart_eq. set (t := PtagFromItag_ p itag) in *.
  destruct (Z.ltb_spec t (CbPageHeader p)); [lia|]. unfold sizeof_TAG. destruct (Z.ltb_spec (cbBuffer p) (t + 4 - 1)); [lia|]. cbn [orb].
  destruct (Z.eqb_spec (TAG_Cb p t) 0); [lia|]. unfold PbDataEnd_, CbTagArray_, sizeof_TAG, PbFromIb_.
  replace (_ || _ || _ || _) with false; [reflexivity|]. symmetry. rewrite !orb_false_iff.
  repeat split; [apply Z.ltb_ge|apply Z.ltb_ge|apply Z.leb_gt|apply Z.ltb_ge]; lia.
Qed.

(** ** Clearing flags *)

Definition no_line : Z * list Z := (0, []).

Lemma nth_view p k : 0 <= k < m_itagMicFree p -> nth (Z.to_nat k) (view p) no_line = content (tag_line p k).
Proof.
  intros Hk. unfold view. change no_line with (content (Line 0 0 [])). rewrite map_nth, nth_tag_line, Z2Nat.id by lia. reflexivity.
Qed.

(** The line with [fFlags] cleared. *)
Definition cleared (fSmall : bool) (fFlags : Z) (c : Z * list Z) : Z * list Z :=
  stored fSmall false (fst c .& Z.lnot fFlags) (snd c).

Lemma reset_step p itag f : page_inv p -> 1 <= itag < m_itagMicFree p ->
  let t := PtagFromItag_ p itag in
  let p1 := TAG_SetFlags p t (u16 (TAG_FFlags p t .& Z.lnot f)) in
  mem_only p p1 /\ page_inv p1 /\
  view p1 = replace_at (Z.to_nat itag) (cleared (m_fSmallFormat p) f (nth (Z.to_nat itag) (view p) no_line)) (view p) /\
  keeps (fun a => a < CbPageHeader p \/ cbBuffer p <= a) p p1.
Proof.
  intros Inv Hi t p1. destruct (ReplaceFlags_spec p itag (TAG_FFlags p t .& Z.lnot f) Inv ltac:(lia)) as (M & I & V & K).
  fold p1 in M, I, V, K. split; [exact M|]. split; [exact I|]. split; [|exact K].
  rewrite nth_view by lia. unfold cleared. rewrite <- TAG_FFlags_tag_line. fold t. cbn [content snd].
  etransitivity; [exact V|]. do 2 f_equal. lia.
Qed.

Lemma reset_loop_spec n : forall p itag f, page_inv p -> itag < m_itagMicFree p -> 1 <= itag - Z.of_nat n + 1 ->
  let p' := reset_loop n p itag f in
  mem_only p p' /\ page_inv p' /\ keeps (fun a => a < CbPageHeader p \/ cbBuffer p <= a) p p' /\
  forall k, 0 <= k < m_itagMicFree p ->
    nth (Z.to_nat k) (view p') no_line =
    if (itag - Z.of_nat n <? k) && (k <=? itag) then cleared (m_fSmallFormat p) f (nth (Z.to_nat k) (view p) no_line)
    else nth (Z.to_nat k) (view p) no_line.
Proof.
  induction n as [|n IH]; intros p itag f Inv Hi Hn p'; subst p'; cbn [reset_loop].
  { split; [apply mem_only_refl|]. split; [exact Inv|]. split; [intros a _; reflexivity|].
    intros k Hk. destruct (Z.ltb_spec (itag - Z.of_nat 0) k), (Z.leb_spec k itag); cbn [andb]; reflexivity || lia. }
  destruct (reset_step p itag f Inv ltac:(lia)) as (M & I & V & K). set (p1 := TAG_SetFlags p _ _) in *.
  destruct (mem_only_fields _ _ M) as (F1 & F2 & _ & F4 & _).
  destruct (IH p1 (itag - 1) f I ltac:(lia) ltac:(lia)) as (M' & I' & K' & V').
  assert (FH : CbPageHeader p1 = CbPageHeader p) by (unfold CbPageHeader; now rewrite F1). rewrite FH, F2 in K'.
  split; [eapply mem_only_trans; eauto|]. split; [exact I'|]. split; [eapply keeps_trans; eauto|].
  intros k Hk. rewrite V', F1, V by (rewrite F4; exact Hk). rewrite nth_replace_at by (rewrite length_view; lia).
  destruct (Nat.eqb_spec (Z.to_nat k) (Z.to_nat itag)) as [E|E].
  - assert (k = itag) as -> by lia. destruct (Z.ltb_spec (itag - 1 - Z.of_nat n) itag), (Z.leb_spec itag (itag - 1)),
      (Z.ltb_spec (itag - Z.of_nat (S n)) itag), (Z.leb_spec itag itag); cbn [andb]; reflexivity || lia.
  - destruct (Z.ltb_spec (itag - 1 - Z.of_nat n) k), (Z.leb_spec k (itag - 1)),
      (Z.ltb_spec (itag - Z.of_nat (S n)) k), (Z.leb_spec k itag); cbn [andb]; reflexivity || lia.
Qed.

Lemma clear_bits x f : ((x .& Z.lnot f) mod 8) .& f = 0.
Proof.
  apply Z.bits_inj'. intros k Hk. rewrite Z.land_spec, Z.testbit_0_l. change 8 with (2 ^ 3). destruct (Z.lt_ge_cases k 3).
  - rewrite Z.mod_pow2_bits_low, Z.land_spec, Z.lnot_spec by lia. destruct (Z.testbit f k); [apply andb_false_intro1, andb_false_r|apply andb_false_r].
  - now rewrite Z.mod_pow2_bits_high by lia.
Qed.

Lemma stamp_flags f b0 b1 r : node_flags (stamp f (b0 :: b1 :: r)) = f mod 8.
Proof.
  unfold stamp, node_flags. rewrite (Z.mul_comm 32), Z.div_add, Z.div_small by (try apply Z.mod_pos_bound; lia). reflexivity.
Qed.

Lemma cleared_flags s f c : fst (cleared s f c) .& f = 0.
Proof.
  unfold cleared, stored. destruct s; cbn [fst]; [apply clear_bits|].
  destruct (snd c) as [|b0 [|b1 r]]; [reflexivity|reflexivity|]. rewrite stamp_flags. apply clear_bits.
Qed.

Lemma any_flag_false p f : forall n itag,
  (forall k, itag - Z.of_nat n < k <= itag -> TAG_FFlags p (PtagFromItag_ p k) .& f = 0) -> any_flag_loop n p itag f = false.
Proof.
  induction n as [|n IH]; intros itag H; [reflexivity|]. cbn [any_flag_loop]. rewrite H by lia. cbn [Z.eqb negb].
  apply IH. intros k Hk. apply H. lia.
Qed.

Lemma any_flag_true p f : forall n itag,
  any_flag_loop n p itag f = true <-> exists k, itag - Z.of_nat n < k <= itag /\ TAG_FFlags p (PtagFromItag_ p k) .& f <> 0.
Proof.
  induction n as [|n IH]; intros itag; cbn [any_flag_loop].
  { split; [discriminate|]. intros (k & Hk & _). lia. }
  destruct (Z.eqb_spec (TAG_FFlags p (PtagFromItag_ p itag) .& f) 0) as [E|E]; cbn [negb].
  - rewrite IH. split; intros (k & Hk & N).
    + exists k. split; [lia|exact N].
    + exists k. split; [|exact N]. destruct (Z.eq_dec k itag) as [->|]; [contradiction|lia].
  - split; [|reflexivity]. intros _. exists itag. split; [lia|exact E].
Qed.
