(* ===== verification/PageDehydrate.v ===== *)
(** * Dehydration

    Shrinking the buffer of a page that is mostly free space, by moving the tag
    array down, and growing it again (cpage.cxx).  A page that is not dirty
    keeps a valid checksum, so both end with [SetPageChecksum] then. *)

From Stdlib Require Import ZArith List Lia Bool Permutation.
From S2P Require Import Prelude Bits Mem Checksum ChecksumErrors PageChecksum Page PageLayout PageTags PageReorg PageTagArray PageInsert.
Import ListNotations.

Definition roundup (cb cbAlign : Z) : Z := (cb + cbAlign - 1) / cbAlign * cbAlign.

Definition g_cbPageMax : Z := 1024 * 32.

Definition CbContiguousDehydrateRequired_ (p : CPAGE) : Z := roundup (CbPageHeader p + ibMicFree p + CbTagArray_ p) 2.
Definition CbReorganizedDehydrateRequired_ (p : CPAGE) : Z := roundup (cbBuffer p - cbFree p) 2.

(** Returns the answer and [*pcbMinimumSize]; [cbCommitGranularity] is
    [OSMemoryPageCommitGranularity()]. *)
Definition FPageIsDehydratable (cbCommitGranularity : Z) (p : CPAGE) : bool * Z :=
  if (load64 (pv p) 0 =? 0) && (dbtimeDirtied p =? 0) && (objidFDP p =? 0) && (cbFree p =? 0) then (false, cbPage p)
  else
    let cbMinimumSize :=
      if (cbCommitGranularity <=? CbContiguousBufferFree_ p)
         && (CbPageHeader p + ibMicFree p + CbTagArray_ p <? u32 (cbBuffer p - 4 * 1024))
      then CbContiguousDehydrateRequired_ p else cbPage p in
    (cbMinimumSize <? u32 (cbBuffer p - cbCommitGranularity), cbMinimumSize).

Section Routines.
Context {R : ChecksumRoutines}.

(** [if ( !FDirty ) SetPageChecksum( pv, cb, databasePage, m_pgno )]. *)
Definition checksum_if_clean (p : CPAGE) (cb : Z) : option CPAGE :=
  if fDirty p then Some p
  else let? m := SetPageChecksum (pv p) cb databasePage (m_pgno p) in Some (with_pv p m).

Definition DehydratePageUnadjusted_ (p : CPAGE) (cbNewSize : Z) : option CPAGE :=
  let cbShrinkage := u32 (cbBuffer p - cbNewSize) in
  if negb (cbShrinkage <? cbPage p) then None
  else if negb (cbShrinkage <? 65536) then None
  else if negb (cbShrinkage <=? cbFree p) then None
  else if negb (ibMicFree p <? u32 (cbBuffer p - cbShrinkage)) then None
  else
    let p := with_pv p (memmove (pv p) (cbNewSize - CbTagArray_ p) (cbBuffer p - CbTagArray_ p) (CbTagArray_ p)) in
    let p := set_cbFree p (u16 (cbFree p - u16 cbShrinkage)) in
    let p := SetBufferSize p cbNewSize in
    checksum_if_clean p (cbBuffer p).

Definition DehydratePage (cbCommitGranularity : Z) (p : CPAGE) (cbNewSize : Z) : option CPAGE :=
  if negb (fst (FPageIsDehydratable cbCommitGranularity p)) then Some p
  else DehydratePageUnadjusted_ p cbNewSize.

Definition RehydratePage (p : CPAGE) : option CPAGE :=
  let cbBufferOrigSize := cbBuffer p in
  if negb (cbBufferOrigSize <=? g_cbPageMax) then None
  else
    let cbBufferNewSizeTarget := cbPage p in
    if negb (cbBufferNewSizeTarget <=? g_cbPageMax) then None
    else
      let p := SetBufferSize p cbBufferNewSizeTarget in
      let cbBufferNewSize := cbBuffer p in
      if negb (cbBufferOrigSize <? cbBufferNewSize) then None
      else
        let cbGrowth := cbBufferNewSize - cbBufferOrigSize in
        let cbTagArray := CbTagArray_ p in
        let pvSource := cbBufferOrigSize - cbTagArray in
        let pvTarget := cbBufferNewSize - cbTagArray in
        if negb (0 <=? pvSource) then None
        else if negb (pvTarget + cbTagArray <=? cbBufferNewSize) then None
        else
          let p := with_pv p (memmove (pv p) pvTarget pvSource cbTagArray) in
          if negb (cbFree p + cbGrowth <=? g_cbPageMax) then None
          else
            let p := set_cbFree p (u16 (cbFree p + u16 cbGrowth)) in
            let p := if fRuntimeScrubbing p
                     then with_pv p (memset (pv p) (PbFromIb_ p (ibMicFree p)) chPAGEReHydrateFill (CbContiguousBufferFree_ p))
                     else p in
            checksum_if_clean p (cbPage p).

(** ** Dirty pages *)

Section Dehydrate.
Variables (p : CPAGE) (cbNew : Z).
Let n := m_itagMicFree p.
Let U := ibMicFree p.
Let H := CbPageHeader p.
Hypothesis Inv : page_inv p.
Hypothesis Hdirty : fDirty p = true.
Hypothesis Hnew : H + U + 4 * n <= cbNew < cbBuffer p.

Ltac hlia := unfold H, U, n in *; lia.

Lemma dh_bounds : 1 <= n <= 4095 /\ (H = 40 \/ H = 80) /\ 0 <= U /\ cbPage p = cbBuffer p /\ cbBuffer p <= 32768 /\
  cbBuffer p - cbNew <= cbFree p < 65536 /\ cbFree p <= cbBuffer p.
Proof.
  pose proof (inv_tags p Inv) as T. unfold ITAG_MIC_FREE_MASK in T. pose proof (header_size p). pose proof (ibMicFree_range p Inv).
  pose proof (inv_size p Inv). pose proof (inv_buf p Inv). pose proof (contiguous_le_free p Inv). pose proof (CbContiguousFree_eq p Inv).
  pose proof (cbFree_range p Inv). pose proof (cbFree_eq p Inv). pose proof (cb_total_nonneg (lines p)). unfold n, H, U in *. lia.
Qed.

(** The shrunk page. *)
Let m1 := store16 (memmove (pv p) (cbNew - 4 * n) (cbBuffer p - 4 * n) (4 * n)) 28 (cbFree p - (cbBuffer p - cbNew)).
Let p1 := SetBufferSize (with_pv p m1) cbNew.

Lemma dh_run : DehydratePageUnadjusted_ p cbNew = Some p1.
Proof.
  destruct dh_bounds as (Bn & BH & BU & Bp & Bb & Bf & _). unfold DehydratePageUnadjusted_. cbv zeta.
  rewrite (u32_small (cbBuffer p - cbNew)) by (unfold H, U, n in *; lia). rewrite u32_small by (unfold H, U, n in *; lia).
  destruct (Z.ltb_spec (cbBuffer p - cbNew) (cbPage p)); [|unfold H, U, n in *; lia]. cbn [negb].
  destruct (Z.ltb_spec (cbBuffer p - cbNew) 65536); [|lia]. cbn [negb].
  destruct (Z.leb_spec (cbBuffer p - cbNew) (cbFree p)); [|lia]. cbn [negb].
  destruct (Z.ltb_spec (ibMicFree p) (cbBuffer p - (cbBuffer p - cbNew))); [|unfold H, U, n in *; lia]. cbn [negb].
  unfold checksum_if_clean. cbn [fDirty SetBufferSize set_cbFree with_pv]. rewrite Hdirty. unfold p1, m1, set_cbFree.
  assert (Ef : cbFree (with_pv p (memmove (pv p) (cbNew - CbTagArray_ p) (cbBuffer p - CbTagArray_ p) (CbTagArray_ p))) = cbFree p).
  { apply load16_ext. intros a Ha. cbn. apply memmove_frame. unfold CbTagArray_, sizeof_TAG. unfold H, U, n in *. lia. }
  rewrite Ef, (u16_small (cbBuffer p - cbNew)), u16_small by lia. unfold CbTagArray_, sizeof_TAG. fold n.
  now rewrite (Z.mul_comm n 4).
Qed.

Lemma dh_moved a : cbNew - 4 * n <= a < cbNew -> m1 a = pv p (a + (cbBuffer p - cbNew)).
Proof.
  intros Ha. destruct dh_bounds as (Bn & BH & BU & _). unfold m1.
  rewrite store16_frame, memmove_in by (unfold H, U, n in *; lia). f_equal. lia.
Qed.

Lemma dh_keep a : a < 28 \/ 30 <= a < cbNew - 4 * n \/ cbNew <= a -> m1 a = pv p a.
Proof. intros Ha. destruct dh_bounds as (Bn & BH & BU & _). unfold m1. rewrite store16_frame, memmove_frame; unfold H, U, n in *; lia. Qed.

Lemma dh_line k : 0 <= k < n -> tag_line p1 k = tag_line p k.
Proof.
  intros Hk. destruct dh_bounds as (Bn & BH & BU & _). pose proof (line_below p Inv k Hk). apply line_at_same; [reflexivity| |].
  - intros x Hx. unfold PtagFromItag_, sizeof_TAG. cbn [pv p1 SetBufferSize with_pv cbBuffer]. rewrite dh_moved by (unfold n in *; lia). f_equal. lia.
  - intros x Hx. cbn [pv p1 SetBufferSize with_pv]. apply dh_keep. unfold PbFromIb_. unfold H, U, n in *. lia.
Qed.

Lemma dh_header : ibMicFree p1 = U /\ cbFree p1 = cbFree p - (cbBuffer p - cbNew).
Proof.
  destruct dh_bounds as (Bn & BH & BU & Bp & Bb & Bf & _). split.
  - apply load16_ext. intros a Ha. apply dh_keep. unfold H, U, n in *. lia.
  - unfold cbFree at 1. cbn. unfold m1. rewrite load16_store16_eq. apply u16_small. lia.
Qed.

(** The page grown back. *)
Let m2 := store16 (memmove m1 (cbBuffer p - 4 * n) (cbNew - 4 * n) (4 * n)) 28 (cbFree p).
Let p2 := with_pv p m2.
Let p3 := if fRuntimeScrubbing p2
          then with_pv p2 (memset m2 (PbFromIb_ p2 (ibMicFree p2)) chPAGEReHydrateFill (CbContiguousBufferFree_ p2)) else p2.

Lemma dh_ok1 : mem_ok m1.
Proof. apply store16_ok, memmove_ok, Inv. Qed.

Lemma rh_keep a : a < 28 \/ 30 <= a < H + U \/ cbBuffer p - 4 * n <= a < cbBuffer p \/ cbBuffer p <= a -> m2 a = pv p a.
Proof.
  intros Ha. destruct dh_bounds as (Bn & BH & BU & _). unfold m2. rewrite store16_frame by hlia.
  destruct (Z.lt_ge_cases a (cbBuffer p - 4 * n)); [rewrite memmove_frame by hlia; apply dh_keep; hlia|].
  destruct (Z.lt_ge_cases a (cbBuffer p)); [|rewrite memmove_frame by hlia; apply dh_keep; hlia].
  rewrite memmove_in, dh_moved by hlia. f_equal. hlia.
Qed.

Lemma rh_free : ibMicFree p2 = U /\ cbFree p2 = cbFree p.
Proof.
  destruct dh_bounds as (Bn & BH & BU & Bp & Bb & Bf & _). split.
  - apply load16_ext. intros a Ha. apply rh_keep. hlia.
  - unfold cbFree at 1. cbn. unfold m2. rewrite load16_store16_eq. apply u16_small. hlia.
Qed.

Lemma rh_run : RehydratePage p1 = Some p3.
Proof.
  destruct dh_bounds as (Bn & BH & BU & Bp & Bb & Bf & Bt). destruct dh_header as [Ei Ef]. unfold RehydratePage, g_cbPageMax. cbv zeta.
  change (cbBuffer p1) with cbNew. change (cbPage p1) with (cbPage p).
  destruct (Z.leb_spec cbNew (1024 * 32)); [|hlia]. destruct (Z.leb_spec (cbPage p) (1024 * 32)); [|hlia]. cbn [negb].
  change (cbBuffer (SetBufferSize p1 (cbPage p))) with (cbPage p). destruct (Z.ltb_spec cbNew (cbPage p)); [|hlia]. cbn [negb].
  assert (Ea : CbTagArray_ (SetBufferSize p1 (cbPage p)) = 4 * n) by apply (Z.mul_comm n 4).
  rewrite Ea. destruct (Z.leb_spec 0 (cbNew - 4 * n)); [|hlia]. cbn [negb].
  destruct (Z.leb_spec (cbPage p - 4 * n + 4 * n) (cbPage p)); [|hlia]. cbn [negb].
  set (q := with_pv (SetBufferSize p1 (cbPage p)) _).
  assert (Eq : q = with_pv p (memmove m1 (cbBuffer p - 4 * n) (cbNew - 4 * n) (4 * n))).
  { unfold q, p1. rewrite Bp. clear. destruct p; reflexivity. }
  assert (Efq : cbFree q = cbFree p1).
  { rewrite Eq. apply load16_ext. intros a Ha. apply memmove_frame. unfold H, U, n in *. hlia. }
  rewrite Efq, Ef, Bp. destruct (Z.leb_spec (cbFree p - (cbBuffer p - cbNew) + (cbBuffer p - cbNew)) (1024 * 32)); [|hlia]. cbn [negb].
  rewrite (u16_small (cbBuffer p - cbNew)), u16_small by hlia.
  replace (cbFree p - (cbBuffer p - cbNew) + (cbBuffer p - cbNew)) with (cbFree p) by hlia.
  replace (set_cbFree q (cbFree p)) with p2 by (rewrite Eq; reflexivity).
  assert (Ed : fDirty p3 = true) by (unfold p3; destruct (fRuntimeScrubbing p2); exact Hdirty).
  change (checksum_if_clean p3 (cbPage p3) = Some p3). unfold checksum_if_clean. now rewrite Ed.
Qed.

Lemma rh_spec : mem_only p p3 /\ page_inv p3 /\ lines p3 = lines p /\
  keeps (fun a => a < 28 \/ 30 <= a < H + U \/ cbBuffer p - 4 * n <= a) p p3.
Proof.
  destruct dh_bounds as (Bn & BH & BU & Bp & Bb & Bf & Bt). destruct rh_free as [Ei Ef].
  assert (M : mem_only p p3) by (unfold p3; destruct (fRuntimeScrubbing p2); reflexivity).
  assert (Ec : CbContiguousBufferFree_ p2 = cbBuffer p - H - U - 4 * n).
  { unfold CbContiguousBufferFree_, CbBufferData, CbTagArray_, sizeof_TAG. rewrite Ei.
    change (cbBuffer p2) with (cbBuffer p). change (m_itagMicFree p2) with n. change (CbPageHeader p2) with H. lia. }
  assert (K23 : keeps (fun a => a < H + U \/ cbBuffer p - 4 * n <= a) p2 p3).
  { intros a Ha. unfold p3. destruct (fRuntimeScrubbing p2); [|reflexivity]. cbn [pv with_pv]. apply memset_frame.
    rewrite Ec, Ei. unfold PbFromIb_. change (CbPageHeader p2) with H. hlia. }
  assert (K : keeps (fun a => a < 28 \/ 30 <= a < H + U \/ cbBuffer p - 4 * n <= a) p p3).
  { apply (keeps_trans _ p p2); [intros a Ha; apply rh_keep; hlia|]. eapply keeps_weaken; [|exact K23]. cbv beta. hlia. }
  assert (L : lines p3 = lines p).
  { apply (lines_frame p p3 U (inv_layout p Inv) M). eapply keeps_weaken; [|exact K]. cbv beta. fold H n. hlia. }
  assert (Ei3 : ibMicFree p3 = U) by (apply (keeps_load16 _ _ _ _ K); hlia).
  split; [exact M|]. split; [|split; [exact L|exact K]]. apply (inv_mem_only p); auto.
  - unfold p3. destruct (fRuntimeScrubbing p2); cbn [pv with_pv p2]; [apply memset_ok|]; apply store16_ok, memmove_ok, dh_ok1.
  - apply (keeps_load16 _ _ _ _ K); hlia.
  - rewrite Ei3. fold H n. hlia.
  - rewrite Ei3, L. apply Inv.
  - rewrite L, <- (cbFree_eq p Inv), <- Ef. apply (keeps_load16 _ _ _ _ K23); hlia.
Qed.

Lemma dehydrate_rehydrate : exists q, DehydratePageUnadjusted_ p cbNew = Some q /\ cbBuffer q = cbNew /\
  lines q = lines p /\ cbFree q = cbFree p - (cbBuffer p - cbNew) /\ keeps (fun a => a < 28 \/ cbNew <= a) p q /\
  exists r, RehydratePage q = Some r /\ page_inv r /\ lines r = lines p /\ cbFree r = cbFree p /\
    keeps (fun a => a < 28 \/ 30 <= a < H + U \/ cbBuffer p - 4 * n <= a) p r.
Proof.
  destruct dh_bounds as (Bn & BH & BU & _). destruct rh_spec as (M & I & L & K). destruct dh_header as [_ Ef].
  exists p1. split; [apply dh_run|]. split; [reflexivity|]. split; [apply lines_ext; [reflexivity|apply dh_line]|].
  split; [exact Ef|]. split; [intros a Ha; apply dh_keep; hlia|].
  exists p3. split; [apply rh_run|]. split; [exact I|]. split; [exact L|]. split; [|exact K].
  destruct (mem_only_fields _ _ M) as (F1 & F2 & _ & F4 & _).
  rewrite (cbFree_eq p3 I), (cbFree_eq p Inv), L. unfold CbPageHeader. now rewrite F1, F2, F4.
Qed.
End Dehydrate.
End Routines.
