(* ===== verification/PageSpec.v ===== *)
(** * The abstract page

    What a page promises to the B-tree code above it: a list of lines, each
    with flags and bytes, and a capacity.  The operations are list updates; an
    update that does not fit has no result.  [run_simulates] is the refinement:
    the byte-level operations of a well-formed page, in any order, do exactly
    this. *)

From Stdlib Require Import ZArith List Lia Bool Permutation.
From S2P Require Import Prelude Bits Mem Checksum PageChecksum ChecksumErrors Page PageLayout PageTags PageReorg PageTagArray PageInsert PageDelete PageReplace PageNew.
Import ListNotations.

(** ** Operations *)

(** The public operations, by line; data is given as chunks outside the page. *)
Inductive page_op :=
  | OpInsert (iline : Z) (ls : list (list Z)) (flags : Z)
  | OpDelete (iline : Z)
  | OpReplace (iline : Z) (ls : list (list Z)) (flags : Z)
  | OpReplaceFlags (iline flags : Z)
  | OpSetExternalHeader (ls : list (list Z)) (flags : Z).

Section Spec.
(** The format, the size of the data area and the number of reserved tags. *)
Variables (fSmall : bool) (capacity reserved : Z).

Definition aview := list (Z * list Z).

(** Bytes used by the lines and their tags. *)
Definition used (v : aview) : Z := fold_right (fun c s => 4 + Z.of_nat (length (snd c)) + s) 0 v.

Definition line_bytes (v : aview) (itag : Z) : list Z := snd (nth (Z.to_nat itag) v (0, [])).

Definition a_replace (v : aview) (itag : Z) (l : list Z) (flags : Z) : option aview :=
  if used v - Z.of_nat (length (line_bytes v itag)) + Z.of_nat (length l) <=? capacity
  then Some (replace_at (Z.to_nat itag) (stored fSmall (itag =? 0) flags l) v) else None.

Definition a_exec (v : aview) (o : page_op) : option aview :=
  match o with
  | OpInsert iline ls flags =>
      if used v + (4 + Z.of_nat (length (concat ls))) <=? capacity
      then Some (insert_at (Z.to_nat (iline + reserved)) (stored fSmall false flags (concat ls)) v) else None
  | OpDelete iline => Some (delete_at (Z.to_nat (iline + reserved)) v)
  | OpReplace iline ls flags => a_replace v (iline + reserved) (concat ls) flags
  | OpReplaceFlags iline flags =>
      Some (replace_at (Z.to_nat (iline + reserved)) (stored fSmall false flags (line_bytes v (iline + reserved))) v)
  | OpSetExternalHeader ls flags => a_replace v 0 (concat ls) flags
  end.

Definition byteb (b : Z) : bool := (0 <=? b) && (b <? 256).

(** What callers must respect: lines that exist, data of at most 32767 bytes,
    and at most 4095 tags. *)
Definition legal (v : aview) (o : page_op) : bool :=
  let clines := Z.of_nat (length v) - reserved in
  let data ls := forallb byteb (concat ls) && (Z.of_nat (length (concat ls)) <? 32768) in
  match o with
  | OpInsert iline ls _ => (0 <=? iline) && (iline <=? clines) && (Z.of_nat (length v) <? ITAG_MIC_FREE_MASK) && data ls
  | OpDelete iline | OpReplaceFlags iline _ => (0 <=? iline) && (iline <? clines)
  | OpReplace iline ls _ => (0 <=? iline) && (iline <? clines) && data ls
  | OpSetExternalHeader ls _ => data ls
  end.

Fixpoint a_run (v : aview) (ops : list page_op) : option aview :=
  match ops with
  | [] => Some v
  | o :: ops' => let? v' := a_exec v o in a_run v' ops'
  end.

Fixpoint legal_run (v : aview) (ops : list page_op) : bool :=
  match ops with
  | [] => true
  | o :: ops' => legal v o && match a_exec v o with Some v' => legal_run v' ops' | None => true end
  end.
End Spec.

Lemma used_perm v1 v2 : Permutation v1 v2 -> used v1 = used v2.
Proof. unfold used. induction 1; cbn [fold_right]; lia. Qed.

Lemma used_insert k c v : used (insert_at k c v) = used v + 4 + Z.of_nat (length (snd c)).
Proof. rewrite (used_perm _ _ (insert_at_perm k c v)). unfold used. cbn [fold_right]. lia. Qed.

Lemma used_delete k d v : (k < length v)%nat ->
  used (delete_at k v) = used v - 4 - Z.of_nat (length (snd (nth k v d))).
Proof. intros Hk. rewrite (used_perm _ _ (delete_at_perm k v d Hk)). unfold used. cbn [fold_right]. lia. Qed.

Lemma used_replace k d c v : (k < length v)%nat ->
  used (replace_at k c v) = used v - Z.of_nat (length (snd (nth k v d))) + Z.of_nat (length (snd c)).
Proof.
  intros Hk. rewrite (used_perm _ _ (replace_at_perm k c v)). pose proof (used_delete k d v Hk) as E. unfold used in *.
  cbn [fold_right]. lia.
Qed.

(** ** The page operations *)

Section Run.
Context `{Srt : StdSort}.

Definition exec (p : CPAGE) (o : page_op) : option CPAGE :=
  match o with
  | OpInsert iline ls flags => Insert p iline (ext ls) flags
  | OpDelete iline => Some (Delete p iline)
  | OpReplace iline ls flags => Replace p iline (ext ls) flags
  | OpReplaceFlags iline flags => Some (ReplaceFlags p iline flags)
  | OpSetExternalHeader ls flags => SetExternalHeader p (ext ls) flags
  end.

Fixpoint run (p : CPAGE) (ops : list page_op) : option CPAGE :=
  match ops with
  | [] => Some p
  | o :: ops' => let? p' := exec p o in run p' ops'
  end.

(** ** Refinement *)

Lemma used_cb_total l : used (map content l) = 4 * Z.of_nat (length l) + cb_total l.
Proof.
  induction l as [|e l IH]; [reflexivity|]. cbn [map used fold_right cb_total length]. fold (used (map content l)).
  fold (cb_total l). rewrite IH. unfold content, l_cb. cbn [snd]. lia.
Qed.

Lemma cbFree_used p : page_inv p -> cbFree p = CbBufferData p - used (view p).
Proof.
  intros Inv. unfold view. rewrite used_cb_total, length_lines. pose proof (cbFree_eq p Inv). pose proof (inv_tags p Inv).
  unfold CbBufferData. lia.
Qed.

Lemma line_bytes_Cb p itag : 0 <= itag < m_itagMicFree p ->
  line_bytes (view p) itag = l_bytes (tag_line p itag) /\
  Z.of_nat (length (line_bytes (view p) itag)) = TAG_Cb p (PtagFromItag_ p itag).
Proof.
  intros Hi. assert (E : line_bytes (view p) itag = l_bytes (tag_line p itag)).
  { unfold line_bytes, view. change (0, []) with (content (Line 0 0 [])). rewrite map_nth, nth_tag_line, Z2Nat.id by lia. reflexivity. }
  split; [exact E|]. rewrite E. apply l_cb_line_at.
Qed.

Lemma forallb_bytes l : forallb byteb l = true -> bytes_ok l.
Proof.
  rewrite forallb_forall. intros H. apply Forall_forall. intros b Hb. specialize (H b Hb). unfold byteb in H. lia.
Qed.

(** What stays fixed: format, size, reserved tags. *)
Definition same_page (p p' : CPAGE) : Prop :=
  m_fSmallFormat p' = m_fSmallFormat p /\ cbBuffer p' = cbBuffer p /\ m_ctagReserved p' = m_ctagReserved p.

Lemma same_page_data p p' : same_page p p' -> CbBufferData p' = CbBufferData p.
Proof. intros (F1 & F2 & _). unfold CbBufferData, CbPageHeader. now rewrite F1, F2. Qed.

(** Nothing but the free-space and tag-count fields of the header, the data
    area and the tag array is written. *)
Definition untouched (p p' : CPAGE) : Prop :=
  keeps (fun a => a < 28 \/ 30 <= a < 32 \/ 36 <= a < CbPageHeader p \/ cbBuffer p <= a) p p'.

Definition refines (p : CPAGE) (r : option aview) (c : option CPAGE) : Prop :=
  match r with
  | Some v' => exists p', c = Some p' /\ page_inv p' /\ view p' = v' /\ same_page p p' /\ untouched p p'
  | None => c = None
  end.

Lemma replace_refines p itag ls flags :
  page_inv p -> 0 <= itag < m_itagMicFree p -> forallb byteb (concat ls) = true -> Z.of_nat (length (concat ls)) < 32768 ->
  refines p (a_replace (m_fSmallFormat p) (CbBufferData p) (view p) itag (concat ls) flags) (Replace_ p itag (ext ls) flags).
Proof.
  intros Inv Hi Hb Hl. unfold a_replace, refines. destruct (line_bytes_Cb p itag Hi) as [_ ->]. pose proof (cbFree_used p Inv).
  destruct (Z.leb_spec (used (view p) - TAG_Cb p (PtagFromItag_ p itag) + Z.of_nat (length (concat ls))) (CbBufferData p)).
  - destruct (Replace_some p itag ls flags Inv Hi Hl (forallb_bytes _ Hb)) as (p' & E & [M I V K]); [lia|].
    exists p'. split; [exact E|]. split; [exact I|]. split; [exact V|].
    destruct (mem_only_fields _ _ M) as (F1 & F2 & _ & _ & F5 & _). split; [now split|].
    eapply keeps_weaken; [|exact K]. cbv beta. lia.
  - apply Replace_none; auto. lia.
Qed.

Ltac legal_facts H :=
  cbn [legal] in H; repeat (apply andb_prop in H; let H' := fresh "L" in destruct H as [H H']);
  repeat match goal with
  | K : (_ <=? _) = true |- _ => apply Z.leb_le in K
  | K : (_ <? _) = true |- _ => apply Z.ltb_lt in K
  end.

Lemma insert_refines p iline ls flags :
  page_inv p -> legal (m_ctagReserved p) (view p) (OpInsert iline ls flags) = true ->
  refines p (a_exec (m_fSmallFormat p) (CbBufferData p) (m_ctagReserved p) (view p) (OpInsert iline ls flags))
    (Insert p iline (ext ls) flags).
Proof.
  intros Inv L. legal_facts L. pose proof (inv_resv p Inv). pose proof (inv_tags p Inv). pose proof (cbFree_used p Inv).
  rewrite length_view in *. apply andb_prop in L0 as [Lb Ll]. apply Z.ltb_lt in Ll. unfold a_exec, refines, Insert.
  destruct (Z.leb_spec (used (view p) + (4 + Z.of_nat (length (concat ls)))) (CbBufferData p)).
  - destruct (Insert_some p (iline + m_ctagReserved p) ls flags Inv) as (p' & E & R & I & V & K);
      [lia|lia|now apply forallb_bytes|unfold sizeof_TAG; lia|].
    exists p'. split; [exact E|]. split; [exact I|]. split; [rewrite V; do 2 f_equal; lia|].
    destruct (retagged_fields _ _ _ R) as (F1 & F2 & _ & _ & F5 & _). split; [now split|]. exact K.
  - apply Insert_none; auto; [lia|unfold sizeof_TAG; lia].
Qed.
Lemma exec_refines p o :
  page_inv p -> legal (m_ctagReserved p) (view p) o = true ->
  refines p (a_exec (m_fSmallFormat p) (CbBufferData p) (m_ctagReserved p) (view p) o) (exec p o).
Proof.
  intros Inv L. pose proof (inv_resv p Inv) as Hr. pose proof (inv_tags p Inv) as Hn. pose proof (length_view p) as Hv.
  destruct o as [iline ls flags|iline|iline ls flags|iline flags|ls flags].
  - now apply insert_refines.
  - legal_facts L. rewrite Hv in *. cbn [a_exec refines exec]. exists (Delete p iline). split; [reflexivity|].
    destruct (Delete_spec p (iline + m_ctagReserved p) Inv) as (R & I & V & K); [lia|].
    split; [exact I|]. split; [exact V|]. destruct (retagged_fields _ _ _ R) as (F1 & F2 & _ & _ & F5 & _). split; [now split|exact K].
  - legal_facts L. rewrite Hv in *. apply andb_prop in L0 as [Lb Ll]. apply Z.ltb_lt in Ll.
    apply replace_refines; auto. lia.
  - legal_facts L. rewrite Hv in *. cbn [a_exec refines exec]. exists (ReplaceFlags p iline flags). split; [reflexivity|].
    assert (Hi : 0 <= iline + m_ctagReserved p < m_itagMicFree p) by lia.
    destruct (ReplaceFlags_spec p (iline + m_ctagReserved p) flags Inv Hi) as (M & I & V & K).
    split; [exact I|]. split; [rewrite (proj1 (line_bytes_Cb p _ Hi)); rewrite V at 1; do 2 f_equal; lia|].
    destruct (mem_only_fields _ _ M) as (F1 & F2 & _ & _ & F5 & _). split; [now split|].
    eapply keeps_weaken; [|exact K]. cbv beta. pose proof (header_size p). lia.
  - legal_facts L. apply replace_refines; auto. lia.
Qed.

Lemma same_page_trans p1 p2 p3 : same_page p1 p2 -> same_page p2 p3 -> same_page p1 p3.
Proof. unfold same_page. intuition congruence. Qed.

Lemma untouched_trans p1 p2 p3 : same_page p1 p2 -> untouched p1 p2 -> untouched p2 p3 -> untouched p1 p3.
Proof.
  intros (F1 & F2 & _) K1 K2. unfold untouched, CbPageHeader in *. rewrite F1, F2 in K2. eapply keeps_trans; eauto.
Qed.

Lemma refines_trans p p' r c : same_page p p' -> untouched p p' -> refines p' r c -> refines p r c.
Proof.
  intros S U. destruct r as [v|]; [|auto]. intros (q & E & I & V & S' & U'). exists q.
  split; [exact E|]. split; [exact I|]. split; [exact V|]. split; [eapply same_page_trans; eauto|eapply untouched_trans; eauto].
Qed.

Lemma run_simulates ops : forall p, page_inv p -> 
  legal_run (m_fSmallFormat p) (CbBufferData p) (m_ctagReserved p) (view p) ops = true ->
  refines p (a_run (m_fSmallFormat p) (CbBufferData p) (m_ctagReserved p) (view p) ops) (run p ops).
Proof.
  induction ops as [|o ops IH]; intros p Inv L.
  { cbn. exists p. split; [reflexivity|]. split; [exact Inv|]. split; [reflexivity|]. split; [repeat split|]. intros a _. reflexivity. }
  cbn [legal_run a_run run] in *. apply andb_prop in L as [L1 L2]. pose proof (exec_refines p o Inv L1) as R.
  destruct (a_exec _ _ _ _ o) as [v'|]; cbn [refines] in R; [|now rewrite R].
  destruct R as (p' & E & I & V & S & U). rewrite E. apply (refines_trans p p'); auto.
  destruct S as (F1 & F2 & F3). rewrite <- F1, <- F3, <- V, <- (same_page_data p p') in * by (repeat split; auto). now apply IH.
Qed.

(** The page after a run, or the page before one that does not fit. *)
Lemma run_inv p ops : page_inv p ->
  legal_run (m_fSmallFormat p) (CbBufferData p) (m_ctagReserved p) (view p) ops = true ->
  page_inv (match run p ops with Some p' => p' | None => p end).
Proof.
  intros Inv L. pose proof (run_simulates ops p Inv L) as R. destruct (a_run _ _ _ _ ops) as [v|]; unfold refines in R.
  - now destruct R as (p' & -> & I & _).
  - now rewrite R.
Qed.
End Run.

(** * An implementation of the sort interface

    Compaction is verified against [StdSort], what the language promises of
    [std::sort]; insertion sort is one implementation of it, used to run the
    model on concrete pages. *)

Fixpoint insert_sorted (cmp : Z -> Z -> bool) (x : Z) (l : list Z) : list Z :=
  match l with
  | [] => [x]
  | y :: l' => if cmp y x then y :: insert_sorted cmp x l' else x :: l
  end.

Definition insertion_sort (cmp : Z -> Z -> bool) (l : list Z) : list Z := fold_right (insert_sorted cmp) [] l.

Lemma insert_sorted_perm cmp x l : Permutation (x :: l) (insert_sorted cmp x l).
Proof.
  induction l as [|y l IH]; cbn; [reflexivity|]. destruct (cmp y x); [|reflexivity].
  rewrite perm_swap. now constructor.
Qed.

Lemma insertion_sort_perm cmp l : Permutation l (insertion_sort cmp l).
Proof.
  induction l as [|x l IH]; cbn; [reflexivity|]. rewrite <- insert_sorted_perm. now constructor.
Qed.

Section Key.
Variable key : Z -> Z.
Let cmp a b := key a <? key b.
Let le a b := key a <= key b.

Lemma insert_sorted_ordered x l : ForallOrdPairs le l -> ForallOrdPairs le (insert_sorted cmp x l).
Proof.
  induction 1 as [|y l Hy Hl IH]; cbn; [repeat constructor|]. unfold cmp at 1. destruct (Z.ltb_spec (key y) (key x)).
  - constructor; [|exact IH]. rewrite Forall_forall in *. intros z Hz.
    apply (Permutation_in z (Permutation_sym (insert_sorted_perm cmp x l))) in Hz as [<-|Hz]; [unfold le; lia|auto].
  - constructor; [|constructor; auto]. constructor; [unfold le; lia|]. eapply Forall_impl; [|exact Hy]. unfold le. lia.
Qed.

Lemma insertion_sort_ordered l : ForallOrdPairs le (insertion_sort cmp l).
Proof. induction l as [|x l IH]; cbn; [constructor|]. now apply insert_sorted_ordered. Qed.

Lemma FOP_nth_inv {A} (R : A -> A -> Prop) l d i j :
  ForallOrdPairs R l -> (i < j)%nat -> (j < length l)%nat -> R (nth i l d) (nth j l d).
Proof.
  intros F. revert i j. induction F as [|a l Ha Hl IH]; cbn [length]; intros i j Hij Hj; [lia|].
  destruct j as [|j]; [lia|]. destruct i as [|i]; cbn [nth].
  - rewrite Forall_forall in Ha. apply Ha, nth_In. lia.
  - apply IH; lia.
Qed.

Lemma insertion_sort_sorted l i j : (i < j)%nat -> (j < length l)%nat ->
  key (nth i (insertion_sort cmp l) 0) <= key (nth j (insertion_sort cmp l) 0).
Proof.
  intros Hij Hj. apply (FOP_nth_inv le); [apply insertion_sort_ordered|exact Hij|].
  now rewrite <- (Permutation_length (insertion_sort_perm cmp l)).
Qed.
End Key.

#[export] Instance StdSort_insertion : StdSort := {
  std_sort := insertion_sort;
  std_sort_perm := insertion_sort_perm;
  std_sort_sorted := insertion_sort_sorted
}.
