(* ===== verification/PageTheorems.v ===== *)
(** * Theorems about slotted pages

    The properties of the CPAGE operations, each with a witness on a concrete
    page. *)

From Stdlib Require Import ZArith List Lia Bool Permutation.
From S2P Require Import Prelude Bits Mem Checksum ChecksumErrors PageChecksum Page PageLayout PageTags PageReorg PageTagArray PageInsert PageDelete PageReplace PageNew PageSpec.
Import ListNotations.

(** A page formatted in a 4 KB and in a 16 KB buffer of arbitrary bytes. *)
Definition junk : mem := fun a => (a * 7 + 3) mod 256.

Lemma junk_ok : mem_ok junk.
Proof. intros a. apply Z.mod_pos_bound. lia. Qed.

Definition page4k : CPAGE := LoadNewPage junk 17 9 2 4096 true true.
Definition page16k : CPAGE := LoadNewPage junk 17 9 2 16384 false true.

Lemma page4k_new : page_inv page4k /\ view page4k = [(0, [])].
Proof. destruct (new_page junk 17 9 2 4096 true true junk_ok ltac:(lia)) as (I & V & _). now split. Qed.

Lemma page16k_new : page_inv page16k /\ view page16k = [(0, [])].
Proof. destruct (new_page junk 17 9 2 16384 false true junk_ok ltac:(lia)) as (I & V & _). now split. Qed.

Section Claims.
Context `{Srt : StdSort}.

(** ** The page as a list of lines *)

(** C1: refinement.  On a well-formed page, any sequence of insertions,
    deletions, replacements, flag changes and external-header updates that
    respects the line numbers gives exactly the list of lines the abstract
    page gives, on a well-formed page again, and fails exactly when the
    abstract page runs out of space; no byte outside the page, and none of the
    other header fields, changes. *)
Theorem page_operations_refine_list p ops :
  page_inv p -> legal_run (m_fSmallFormat p) (CbBufferData p) (m_ctagReserved p) (view p) ops = true ->
  match a_run (m_fSmallFormat p) (CbBufferData p) (m_ctagReserved p) (view p) ops with
  | Some v => exists p', run p ops = Some p' /\ page_inv p' /\ view p' = v /\ untouched p p'
  | None => run p ops = None
  end.
Proof.
  intros Inv L. pose proof (run_simulates ops p Inv L) as R. destruct (a_run _ _ _ _ ops) as [v|]; [|exact R].
  destruct R as (p' & E & I & V & _ & U). eauto.
Qed.

(** A buffer of any contents and of 2 to 32 KB, formatted by
    [LoadNewPage], is a well-formed page whose only line is the empty external
    header, whose free space is everything but the header and that tag, and
    no byte outside the buffer is written. *)
Theorem LoadNewPage_makes_empty_page m pgno objid flags cb fScrub fResvTag :
  mem_ok m -> 2048 <= cb <= 32768 ->
  let p := LoadNewPage m pgno objid flags cb fScrub fResvTag in
  page_inv p /\ view p = [(0, [])] /\ Clines p = 0 /\ cbFree p = cb - CbPageHeader p - 4 /\
  forall a, a < 0 \/ cb <= a -> pv p a = m a.
Proof.
  intros Hm Hcb p. destruct (new_page m pgno objid flags cb fScrub fResvTag Hm Hcb) as (I & V & E & K). fold p in I, V, E, K.
  assert (Fb : cbBuffer p = cb) by (rewrite E; reflexivity).
  split; [exact I|]. split; [exact V|]. split; [unfold Clines; rewrite E; reflexivity|]. split; [|exact K].
  rewrite (cbFree_used p I), V. unfold CbBufferData. rewrite Fb. cbn. lia.
Qed.

(** C29: on every page reached from a well-formed one by legal operations, two
    different lines share no byte, every line lies between the header and the
    tag array, and [cbFree] is exactly the space no line and no tag uses. *)
Theorem reached_pages_have_disjoint_lines p ops p' :
  page_inv p -> legal_run (m_fSmallFormat p) (CbBufferData p) (m_ctagReserved p) (view p) ops = true -> run p ops = Some p' ->
  (forall i j x, 0 <= i < m_itagMicFree p' -> 0 <= j < m_itagMicFree p' -> i <> j ->
     let ti := PtagFromItag_ p' i in let tj := PtagFromItag_ p' j in
     TAG_Ib p' ti <= x < TAG_Ib p' ti + TAG_Cb p' ti -> ~ (TAG_Ib p' tj <= x < TAG_Ib p' tj + TAG_Cb p' tj)) /\
  (forall i x, 0 <= i < m_itagMicFree p' -> let t := PtagFromItag_ p' i in
     TAG_Ib p' t <= x < TAG_Ib p' t + TAG_Cb p' t ->
     CbPageHeader p' <= PbFromIb_ p' x < PtagFromItag_ p' (m_itagMicFree p' - 1)) /\
  cbFree p' = CbBufferData p' - used (view p').
Proof.
  intros Inv L E. pose proof (run_simulates ops p Inv L) as R. rewrite E in R.
  destruct (a_run _ _ _ _ ops) as [v|]; cbn in R; [|discriminate]. destruct R as (q & Eq & I & _). injection Eq as <-.
  split; [|split; [|now apply cbFree_used]].
  - intros i j x Hi Hj Hij ti tj Hx Hy. pose proof (lines_apart p' I i j Hi Hj Hij) as A. cbv zeta in A. fold ti tj in A. lia.
  - intros i x Hi t Hx. pose proof (line_below p' I i Hi) as B. fold t in B. pose proof (room p' I). pose proof (ibMicFree_range p' I).
    unfold PbFromIb_, PtagFromItag_, sizeof_TAG. lia.
Qed.

(** ** Single operations *)

(** [Insert_] puts a line that fits at its tag and shifts the later lines
    by one, whatever compaction this needs; a line that does not fit, with its
    tag, in the free space is never inserted: the process is stopped. *)
Theorem Insert_inserts_or_stops p itag ls flags :
  page_inv p -> 0 <= itag <= m_itagMicFree p -> m_itagMicFree p < ITAG_MIC_FREE_MASK ->
  bytes_ok (concat ls) -> Z.of_nat (length (concat ls)) < 65536 ->
  let cb := Z.of_nat (length (concat ls)) in
  if cb + sizeof_TAG <=? cbFree p
  then exists p', Insert_ p itag (ext ls) flags = Some p' /\ page_inv p' /\
    view p' = insert_at (Z.to_nat itag) (stored (m_fSmallFormat p) (itag =? 0) flags (concat ls)) (view p) /\
    cbFree p' = cbFree p - cb - sizeof_TAG /\ untouched p p'
  else Insert_ p itag (ext ls) flags = None.
Proof.
  intros Inv Hi Hn Hb Hl cb. destruct (Z.leb_spec (cb + sizeof_TAG) (cbFree p)) as [Hf|Hf]; [|now apply Insert_none].
  destruct (Insert_some p itag ls flags Inv Hi Hn Hb Hf) as (p' & E & R & I & V & K). exists p'.
  split; [exact E|]. split; [exact I|]. split; [exact V|]. split; [|exact K].
  destruct (retagged_fields _ _ _ R) as (F1 & F2 & _ & _ & F5 & _).
  rewrite (cbFree_used p' I), (cbFree_used p Inv), (same_page_data p p') by now repeat split.
  rewrite V, used_insert, length_stored. unfold sizeof_TAG. fold cb. lia.
Qed.

(** [Delete_] removes the line at a tag after the reserved ones, moves the
    later lines up by one and gives its bytes and its tag back. *)
Theorem Delete_removes_line p itag :
  page_inv p -> m_ctagReserved p <= itag < m_itagMicFree p ->
  let p' := Delete_ p itag in
  page_inv p' /\ view p' = delete_at (Z.to_nat itag) (view p) /\
  cbFree p' = cbFree p + TAG_Cb p (PtagFromItag_ p itag) + sizeof_TAG /\ untouched p p'.
Proof.
  intros Inv Hi p'. destruct (Delete_spec p itag Inv Hi) as (R & I & V & K). fold p' in R, I, V, K.
  split; [exact I|]. split; [exact V|]. split; [|exact K]. pose proof (inv_resv p Inv).
  destruct (retagged_fields _ _ _ R) as (F1 & F2 & _ & _ & F5 & _).
  rewrite (cbFree_used p' I), (cbFree_used p Inv), (same_page_data p p') by now repeat split.
  rewrite V, (used_delete _ (0, [])) by (rewrite length_view; lia).
  pose proof (proj2 (line_bytes_Cb p itag ltac:(lia))) as C. unfold line_bytes in C. unfold sizeof_TAG. lia.
Qed.

(** [Replace_] (in place, grown at the end of the data area, or moved,
    with compaction when needed) leaves every other line alone and stores the
    new one; it stops the process exactly when the new line does not fit in
    the free space together with the space of the old one. *)
Theorem Replace_replaces_or_stops p itag ls flags :
  page_inv p -> 0 <= itag < m_itagMicFree p -> bytes_ok (concat ls) -> Z.of_nat (length (concat ls)) < 32768 ->
  let cb := Z.of_nat (length (concat ls)) in
  let cbOld := TAG_Cb p (PtagFromItag_ p itag) in
  if cb <=? cbFree p + cbOld
  then exists p', Replace_ p itag (ext ls) flags = Some p' /\ page_inv p' /\
    view p' = replace_at (Z.to_nat itag) (stored (m_fSmallFormat p) (itag =? 0) flags (concat ls)) (view p) /\
    cbFree p' = cbFree p + cbOld - cb /\ untouched p p'
  else Replace_ p itag (ext ls) flags = None.
Proof.
  intros Inv Hi Hb Hl cb cbOld. destruct (Z.leb_spec cb (cbFree p + cbOld)) as [Hf|Hf]; [|now apply Replace_none].
  destruct (Replace_some p itag ls flags Inv Hi Hl Hb Hf) as (p' & E & [M I V K]). exists p'.
  split; [exact E|]. split; [exact I|]. split; [exact V|].
  destruct (mem_only_fields _ _ M) as (F1 & F2 & _ & _ & F5 & _). split.
  - rewrite (cbFree_used p' I), (cbFree_used p Inv), (same_page_data p p') by now repeat split.
    rewrite V, (used_replace _ (0, [])), length_stored by (rewrite length_view; lia).
    pose proof (proj2 (line_bytes_Cb p itag Hi)) as C. unfold line_bytes in C. fold cbOld in C. fold cb. lia.
  - eapply keeps_weaken; [|exact K]. cbv beta. lia.
Qed.

(** [ReplaceFlags_] changes the flags of one line (kept in the tag on small
    pages, in the top bits of the line's second byte on large ones) and
    nothing else: no header byte, no other line, no offset or length. *)
Theorem ReplaceFlags_changes_flags_only p itag flags :
  page_inv p -> 0 <= itag < m_itagMicFree p ->
  let p' := ReplaceFlags_ p itag flags in
  page_inv p' /\
  view p' = replace_at (Z.to_nat itag)
    (stored (m_fSmallFormat p) (itag =? 0) flags (l_bytes (tag_line p itag))) (view p) /\
  forall a, a < CbPageHeader p \/ cbBuffer p <= a -> pv p' a = pv p a.
Proof.
  intros Inv Hi p'. destruct (ReplaceFlags_spec p itag flags Inv Hi) as (_ & I & V & K). auto.
Qed.

(** ** Space *)

(** Compaction.  Whatever order [std::sort] leaves equal offsets in,
    [ReorganizeData_] succeeds, packs the lines without gaps at the front of
    the data area, and keeps every line's flags and bytes and the free
    space. *)
Theorem ReorganizeData_packs_lines p :
  page_inv p ->
  exists p', ReorganizeData_ p = Some p' /\ page_inv p' /\ view p' = view p /\
    ibMicFree p' = cb_total (lines p) /\ cbFree p' = cbFree p /\ CbContiguousFree_ p' = cbFree p' /\ untouched p p'.
Proof.
  intros Inv. destruct (ReorganizeData_spec p Inv) as (p' & E & [M I V K] & U). exists p'.
  destruct (mem_only_fields _ _ M) as (F1 & F2 & _ & F4 & F5 & _).
  assert (EF : cbFree p' = cbFree p).
  { rewrite (cbFree_used p' I), (cbFree_used p Inv), (same_page_data p p'), V by now repeat split. reflexivity. }
  split; [exact E|]. split; [exact I|]. split; [exact V|]. split; [exact U|]. split; [exact EF|]. split.
  - rewrite (CbContiguousFree_eq p' I), (cbFree_eq p' I), U, (view_cb_total _ _ V). lia.
  - eapply keeps_weaken; [|exact K]. cbv beta. pose proof (header_size p). lia.
Qed.

(** [FreeSpace_] makes the requested space contiguous exactly when the
    page has that much free space in total. *)
Theorem FreeSpace_succeeds_iff_space p cb :
  page_inv p ->
  if cb <=? cbFree p
  then exists p', FreeSpace_ p cb = Some p' /\ page_inv p' /\ view p' = view p /\ cb <= CbContiguousFree_ p'
  else FreeSpace_ p cb = None.
Proof.
  intros Inv. destruct (Z.leb_spec cb (cbFree p)) as [H|H]; [|now apply FreeSpace_none].
  destruct (FreeSpace_some p Inv cb H) as (p' & E & [M I V K] & C). eauto.
Qed.

(** Inserting a line and deleting it again gives back the same lines and
    the same free space. *)
Theorem insert_then_delete p iline ls flags p' :
  page_inv p -> 0 <= iline <= Clines p -> m_itagMicFree p < ITAG_MIC_FREE_MASK ->
  bytes_ok (concat ls) -> Z.of_nat (length (concat ls)) < 65536 ->
  Insert p iline (ext ls) flags = Some p' ->
  view (Delete p' iline) = view p /\ cbFree (Delete p' iline) = cbFree p /\ page_inv (Delete p' iline).
Proof.
  intros Inv Hi Hn Hb Hl E. unfold Clines in Hi. pose proof (inv_resv p Inv). set (itag := iline + m_ctagReserved p).
  destruct (Z.lt_ge_cases (cbFree p) (Z.of_nat (length (concat ls)) + sizeof_TAG)) as [H0|H0].
  { unfold Insert in E. now rewrite Insert_none in E. }
  destruct (Insert_some p itag ls flags Inv ltac:(unfold itag; lia) Hn Hb H0) as (q & Eq & R & I & V & K).
  unfold Insert in E. fold itag in E. rewrite Eq in E. injection E as <-.
  destruct (retagged_fields _ _ _ R) as (F1 & F2 & _ & F4 & F5 & _). unfold Delete. rewrite F5. fold itag.
  destruct (Delete_spec q itag I ltac:(rewrite F4, F5; unfold itag; lia)) as (R2 & I2 & V2 & K2).
  destruct (retagged_fields _ _ _ R2) as (G1 & G2 & _ & G4 & G5 & _).
  assert (EV : view (Delete_ q itag) = view p).
  { rewrite V2, V. apply delete_insert_at. rewrite length_view. unfold itag. lia. }
  split; [exact EV|]. split; [|exact I2].
  rewrite (cbFree_used _ I2), (cbFree_used p Inv), EV, (same_page_data p (Delete_ q itag)); [reflexivity|].
  repeat split; congruence.
Qed.

(** The unrolled copy loop of [ExpandTagArray_], entered in the middle of
    its body, moves every tag from the given one on by exactly one slot and
    changes no other byte of the page but the tag count. *)
Theorem ExpandTagArray_opens_slot p itag :
  page_inv p -> 0 <= itag <= m_itagMicFree p -> m_itagMicFree p < ITAG_MIC_FREE_MASK -> sizeof_TAG <= CbContiguousFree_ p ->
  let p' := ExpandTagArray_ p itag in
  m_itagMicFree p' = m_itagMicFree p + 1 /\ m_ctagReserved p' = m_ctagReserved p /\ InitItagState p' = p' /\
  (forall k x, itag <= k < m_itagMicFree p -> 0 <= x < 4 ->
     pv p' (PtagFromItag_ p' (k + 1) + x) = pv p (PtagFromItag_ p k + x)) /\
  forall a, a < 34 \/ 36 <= a < PtagFromItag_ p (m_itagMicFree p) \/ PtagFromItag_ p itag <= a -> pv p' a = pv p a.
Proof.
  intros Inv Hi Hn Hc p'. pose proof (CbContiguousFree_eq p Inv) as Ec. pose proof (header_size p). pose proof (ibMicFree_range p Inv).
  pose proof (inv_tags p Inv). pose proof (inv_resv p Inv). unfold sizeof_TAG in Hc.
  assert (Hs : 36 <= cbBuffer p - 4 * (m_itagMicFree p + 1)) by lia. assert (Hn' : 0 <= m_itagMicFree p < ITAG_MIC_FREE_MASK) by lia.
  pose proof (expand_retagged p itag (inv_mem p Inv) Hn' Hi (inv_resv p Inv) Hs) as R. fold p' in R.
  destruct (retagged_fields _ _ _ R) as (_ & F2 & _ & F4 & F5 & _).
  assert (B : forall a, a < 34 \/ 36 <= a -> pv p' a = opened p itag a)
    by (intros a Ha; apply expand_bytes; auto; apply Inv).
  split; [exact F4|]. split; [exact F5|]. split; [apply expand_state; auto using resv_condition; apply Inv|]. split.
  - intros k x Hk Hx. unfold PtagFromItag_, sizeof_TAG. rewrite F2, B by lia. unfold opened.
    case_cmp; cbn [andb]; try lia. f_equal. lia.
  - intros a Ha. unfold PtagFromItag_, sizeof_TAG in Ha. rewrite B by lia. unfold opened. case_cmp; cbn [andb]; reflexivity || lia.
Qed.
End Claims.

(** ** Witnesses *)

Definition some_ops : list page_op :=
  [OpInsert 0 [[1; 2; 3]; [4]] 5; OpInsert 1 [[9; 9; 9; 9; 9; 9]] 2; OpReplace 0 [[7; 7; 7; 7; 7; 7; 7; 7]] 1;
   OpSetExternalHeader [[11; 12]] 0; OpReplaceFlags 1 6; OpDelete 0].

Lemma some_ops_result :
  a_run (m_fSmallFormat page4k) (CbBufferData page4k) (m_ctagReserved page4k) [(0, [])] some_ops =
  Some [(0, [11; 12]); (6, [9; 9; 9; 9; 9; 9])].
Proof. vm_compute. reflexivity. Qed.

Lemma page_operations_refine_list_witness :
  exists p', run page4k some_ops = Some p' /\ view p' = [(0, [11; 12]); (6, [9; 9; 9; 9; 9; 9])].
Proof.
  destruct page4k_new as [I V].
  assert (L : legal_run (m_fSmallFormat page4k) (CbBufferData page4k) (m_ctagReserved page4k) (view page4k) some_ops = true)
    by (rewrite V; vm_compute; reflexivity).
  pose proof (page_operations_refine_list page4k some_ops I L) as R. rewrite V, some_ops_result in R.
  destruct R as (p' & Er & _ & Vr & _). exists p'. split; [exact Er|exact Vr].
Defined.

Lemma LoadNewPage_makes_empty_page_witness : view page16k = [(0, [])] /\ cbFree page16k = 16300.
Proof.
  destruct (LoadNewPage_makes_empty_page junk 17 9 2 16384 false true junk_ok ltac:(lia)) as (_ & V & _ & F & _).
  split; [exact V|]. exact F.
Defined.

Lemma reached_pages_have_disjoint_lines_witness :
  match run page4k some_ops with Some p' => cbFree p' = CbBufferData p' - 16 | None => False end.
Proof.
  destruct page4k_new as [I V].
  assert (L : legal_run (m_fSmallFormat page4k) (CbBufferData page4k) (m_ctagReserved page4k) (view page4k) some_ops = true)
    by (rewrite V; vm_compute; reflexivity).
  pose proof (run_simulates some_ops page4k I L) as R. rewrite V, some_ops_result in R. destruct R as (p' & E & _ & Vp & _).
  rewrite E. destruct (reached_pages_have_disjoint_lines page4k some_ops p' I L E) as (_ & _ & F). rewrite F, Vp. reflexivity.
Defined.

Lemma bytes_ok_check l : forallb byteb l = true -> bytes_ok l.
Proof. apply forallb_bytes. Qed.

Lemma Insert_inserts_or_stops_witness : 
  exists p', Insert_ page16k 1 (ext [[200; 255; 3]]) 5 = Some p' /\ view p' = [(0, []); (5, [200; 191; 3])].
Proof.
  destruct page16k_new as [I V].
  pose proof (Insert_inserts_or_stops page16k 1 [[200; 255; 3]] 5 I ltac:(vm_compute; split; discriminate)
    ltac:(vm_compute; reflexivity) (bytes_ok_check (concat [[200; 255; 3]]) eq_refl) ltac:(reflexivity)) as R. cbv zeta in R.
  destruct (Z.leb_spec (Z.of_nat (length (concat [[200; 255; 3]])) + sizeof_TAG) (cbFree page16k)) as [H|H]; [|vm_compute in H; discriminate].
  destruct R as (p' & E & _ & Vp & _). exists p'. split; [exact E|]. rewrite Vp, V. reflexivity.
Defined.

(** A page with two lines, for the operations that need some. *)
Lemma two_lines : exists p', run page4k [OpInsert 0 [[1; 2; 3]] 5; OpInsert 1 [[4; 5]] 2] = Some p' /\ page_inv p' /\
  view p' = [(0, []); (5, [1; 2; 3]); (2, [4; 5])] /\ m_itagMicFree p' = 3 /\ m_ctagReserved p' = 1 /\ m_fSmallFormat p' = true.
Proof.
  destruct page4k_new as [I V].
  assert (L : legal_run (m_fSmallFormat page4k) (CbBufferData page4k) (m_ctagReserved page4k) (view page4k)
    [OpInsert 0 [[1; 2; 3]] 5; OpInsert 1 [[4; 5]] 2] = true) by (rewrite V; vm_compute; reflexivity).
  assert (A : a_run (m_fSmallFormat page4k) (CbBufferData page4k) (m_ctagReserved page4k) [(0, [])]
    [OpInsert 0 [[1; 2; 3]] 5; OpInsert 1 [[4; 5]] 2] = Some [(0, []); (5, [1; 2; 3]); (2, [4; 5])]) by (vm_compute; reflexivity).
  pose proof (run_simulates _ page4k I L) as R. rewrite V, A in R.
  destruct R as (p' & Er & Ip & Vr & (S1 & _ & S3) & _). exists p'. split; [exact Er|]. split; [exact Ip|]. split; [exact Vr|].
  pose proof (length_view p') as Hv. rewrite Vr in Hv. pose proof (inv_tags p' Ip). cbn in Hv.
  split; [lia|]. rewrite S1, S3. split; reflexivity.
Qed.

Lemma Delete_removes_line_witness : exists p, page_inv p /\ view (Delete_ p 1) = [(0, []); (2, [4; 5])].
Proof.
  destruct two_lines as (p & _ & I & V & N & C & _). exists p. split; [exact I|].
  destruct (Delete_removes_line p 1 I ltac:(lia)) as (_ & Vd & _). rewrite Vd, V. reflexivity.
Defined.

Lemma Replace_replaces_or_stops_witness :
  exists p', Replace_ page16k 0 (ext [[1; 2]; [3]]) 7 = Some p' /\ view p' = [(0, [1; 2; 3])].
Proof.
  destruct page16k_new as [I V].
  pose proof (Replace_replaces_or_stops page16k 0 [[1; 2]; [3]] 7 I ltac:(vm_compute; split; [discriminate|reflexivity])
    (bytes_ok_check (concat [[1; 2]; [3]]) eq_refl) ltac:(reflexivity)) as R. cbv zeta in R.
  destruct (Z.leb_spec (Z.of_nat (length (concat [[1; 2]; [3]]))) (cbFree page16k + TAG_Cb page16k (PtagFromItag_ page16k 0))) as [H|H];
    [|vm_compute in H; discriminate].
  destruct R as (p' & E & _ & Vp & _). exists p'. split; [exact E|]. rewrite Vp, V. reflexivity.
Defined.

Lemma ReplaceFlags_changes_flags_only_witness :
  exists p, page_inv p /\ view (ReplaceFlags_ p 1 3) = [(0, []); (3, [1; 2; 3]); (2, [4; 5])].
Proof.
  destruct two_lines as (p & _ & I & V & N & _ & S). exists p. split; [exact I|].
  destruct (ReplaceFlags_changes_flags_only p 1 3 I ltac:(lia)) as (_ & Vd & _).
  rewrite Vd, <- (proj1 (line_bytes_Cb p 1 ltac:(lia))), V, S. reflexivity.
Defined.

Lemma ReorganizeData_packs_lines_witness :
  exists p p', view p = [(0, []); (2, [4; 5])] /\ ReorganizeData_ p = Some p' /\ ibMicFree p' = 2.
Proof.
  destruct two_lines as (p & _ & I & V & N & C & _).
  destruct (Delete_spec p 1 I ltac:(lia)) as (_ & Id & Vd & _). rewrite V in Vd.
  destruct (ReorganizeData_packs_lines (Delete_ p 1) Id) as (p' & E & _ & _ & U & _).
  exists (Delete_ p 1), p'. split; [exact Vd|]. split; [exact E|]. rewrite U.
  assert (T : used (view (Delete_ p 1)) = 4 * Z.of_nat (length (view (Delete_ p 1))) + cb_total (lines (Delete_ p 1)))
    by (unfold view; rewrite length_map; apply used_cb_total).
  rewrite Vd in T. change (used _) with 10 in T. change (Z.of_nat _) with 2 in T. lia.
Defined.

Lemma FreeSpace_succeeds_iff_space_witness : FreeSpace_ page4k 4053 = None.
Proof.
  destruct page4k_new as [I V]. pose proof (FreeSpace_succeeds_iff_space page4k 4053 I) as R.
  destruct (Z.leb_spec 4053 (cbFree page4k)) as [H|H]; [vm_compute in H; exfalso; now apply H|exact R].
Defined.

Lemma insert_then_delete_witness :
  match Insert page16k 0 (ext [[1; 2; 3]]) 1 with Some p' => view (Delete p' 0) = [(0, [])] | None => False end.
Proof.
  destruct page16k_new as [I V]. destruct (Insert page16k 0 (ext [[1; 2; 3]]) 1) as [p'|] eqn:E; [|vm_compute in E; discriminate].
  rewrite <- V. apply (insert_then_delete page16k 0 [[1; 2; 3]] 1 p' I); auto.
  - vm_compute; split; discriminate.
  - vm_compute; reflexivity.
  - now apply bytes_ok_check.
  - reflexivity.
Defined.

Lemma ExpandTagArray_opens_slot_witness :
  exists p, page_inv p /\ m_itagMicFree (ExpandTagArray_ p 1) = 4 /\
    pv (ExpandTagArray_ p 1) (PtagFromItag_ (ExpandTagArray_ p 1) 3) = pv p (PtagFromItag_ p 2).
Proof.
  destruct two_lines as (p & E & I & V & N & C & _). exists p. split; [exact I|].
  assert (Hc : sizeof_TAG <= CbContiguousFree_ p).
  { assert (Ep : match run page4k [OpInsert 0 [[1; 2; 3]] 5; OpInsert 1 [[4; 5]] 2] with Some q => 4 <=? CbContiguousFree_ q | None => false end = true)
      by (vm_compute; reflexivity). rewrite E in Ep. now apply Z.leb_le. }
  destruct (ExpandTagArray_opens_slot p 1 I ltac:(lia) ltac:(rewrite N; reflexivity) Hc) as (Hn & _ & _ & Ht & _).
  split; [rewrite Hn, N; reflexivity|]. specialize (Ht 2 0 ltac:(lia) ltac:(lia)). rewrite !Z.add_0_r in Ht. exact Ht.
Defined.
