(* ===== verification/PageAccessTheorems.v ===== *)
(** * Theorems about reading, walking and resizing pages *)

From Stdlib Require Import ZArith List Lia Bool Permutation.
From S2P Require Import Prelude Bits Mem Checksum ChecksumErrors PageChecksum Page PageLayout PageTags PageReorg PageTagArray PageInsert PageDelete PageReplace PageNew PageRead PageDehydrate PageSpec ChecksumTheorems PageTheorems.
Import ListNotations.

(** ** Reading a possibly corrupt page *)

(** [ErrGetPtr] trusts nothing on the page: whatever the tag bytes are, a
    line returned with success is either an empty reserved tag or lies
    entirely between the page header and the tag array. *)
Theorem checked_line_is_on_page p iline l :
  ErrGetPtr p iline = (l, JET_errSuccess) ->
  (ln_cb l = 0 /\ ln_pv l = PvBogus /\ iline < 0) \/
  (exists pb, ln_pv l = PvPage pb /\ 0 < ln_cb l /\ CbPageHeader p <= pb /\ pb + ln_cb l <= cbBuffer p - CbTagArray_ p).
Proof.
  intros E. destruct (Checked_inside p _ l E) as [(H1 & H2 & H3)|H]; [left|right; exact H].
  split; [exact H1|]. split; [exact H2|lia].
Qed.

(** The checked accessor never reads outside the page buffer, even for a
    tag number far beyond the tag array of a corrupt page: its result is the
    same whatever the memory around the buffer holds. *)
Theorem checked_access_reads_buffer_only p m itag :
  0 <= itag -> CbPageHeader p <= cbBuffer p -> 0 <= m_itagMicFree p ->
  (forall a, 0 <= a < cbBuffer p -> m a = pv p a) ->
  GetPtr_Checked (with_pv p m) itag = GetPtr_Checked p itag.
Proof. intros H1 H2 H3 V. now apply Checked_ext. Qed.

(** On a well-formed page every line of two bytes or more passes the check,
    and the pointer, length and flags returned are those of the page's view:
    reading the returned bytes gives the line that was stored. *)
Theorem checked_access_returns_stored_line p iline :
  page_inv p -> 0 <= iline < Clines p ->
  2 <= Z.of_nat (length (snd (nth (Z.to_nat (iline + m_ctagReserved p)) (view p) no_line))) ->
  exists pb cb fl, ErrGetPtr p iline = (Line_ (PvPage pb) cb fl, JET_errSuccess) /\
    nth (Z.to_nat (iline + m_ctagReserved p)) (view p) no_line = (fl, load_bytes (pv p) pb cb).
Proof.
  intros Inv Hi Hc. pose proof (inv_resv p Inv). unfold Clines in Hi. set (itag := iline + m_ctagReserved p) in *.
  assert (Hi' : 0 <= itag < m_itagMicFree p) by (unfold itag; lia). rewrite nth_view in * by exact Hi'.
  pose proof (l_cb_line_at p (PtagFromItag_ p itag)) as Ec. unfold l_cb in Ec.
  change (Z.of_nat (length (snd (content (tag_line p itag))))) with (Z.of_nat (length (l_bytes (line_at p (PtagFromItag_ p itag))))) in Hc.
  rewrite Ec in Hc. unfold ErrGetPtr. fold itag. rewrite Checked_complete by assumption. unfold GetPtr_NoChecks.
  destruct (Z.eqb_spec (TAG_Cb p (PtagFromItag_ p itag)) 0); [lia|]. do 3 eexists. split; reflexivity.
Qed.

(** ** Clearing flags on all lines *)

(** [ResetAllFlags] clears the given flags on every line, leaves the other
    flags, all bytes (up to the flag bits large pages keep in them), the
    reserved tags and the header alone, and [FAnyLineHasFlagSet] then finds
    none of them. *)
Theorem ResetAllFlags_clears_flags p f :
  page_inv p ->
  let p' := ResetAllFlags p f in
  page_inv p' /\ FAnyLineHasFlagSet p' f = false /\
  (forall k, 0 <= k < m_itagMicFree p ->
     nth (Z.to_nat k) (view p') no_line =
     if m_ctagReserved p <=? k then cleared (m_fSmallFormat p) f (nth (Z.to_nat k) (view p) no_line)
     else nth (Z.to_nat k) (view p) no_line) /\
  forall a, a < CbPageHeader p \/ cbBuffer p <= a -> pv p' a = pv p a.
Proof.
  intros Inv p'. pose proof (inv_resv p Inv). pose proof (inv_resv_le p Inv).
  destruct (reset_loop_spec (Z.to_nat (m_itagMicFree p - m_ctagReserved p)) p (m_itagMicFree p - 1) f Inv ltac:(lia) ltac:(lia))
    as (M & I & K & V). fold (ResetAllFlags p f) in M, I, K, V. fold p' in M, I, K, V.
  assert (V' : forall k, 0 <= k < m_itagMicFree p -> nth (Z.to_nat k) (view p') no_line =
     if m_ctagReserved p <=? k then cleared (m_fSmallFormat p) f (nth (Z.to_nat k) (view p) no_line)
     else nth (Z.to_nat k) (view p) no_line).
  { intros k Hk. rewrite V by exact Hk. destruct (Z.ltb_spec (m_itagMicFree p - 1 - Z.of_nat (Z.to_nat (m_itagMicFree p - m_ctagReserved p))) k),
      (Z.leb_spec k (m_itagMicFree p - 1)), (Z.leb_spec (m_ctagReserved p) k); cbn [andb]; reflexivity || lia. }
  destruct (mem_only_fields _ _ M) as (_ & _ & _ & F4 & F5 & _).
  split; [exact I|]. split; [|split; [exact V'|exact K]].
  apply any_flag_false. intros k Hk. rewrite F4, F5 in Hk. rewrite TAG_FFlags_tag_line, <- nth_view, V' by (rewrite ?F4; lia).
  destruct (Z.leb_spec (m_ctagReserved p) k); [apply cleared_flags|lia].
Qed.

(** [FAnyLineHasFlagSet] is exact: it answers true if and only if some line
    after the reserved tags has one of the flags. *)
Theorem FAnyLineHasFlagSet_iff p f :
  FAnyLineHasFlagSet p f = true <->
  exists k, m_ctagReserved p <= k < m_itagMicFree p /\ fst (content (tag_line p k)) .& f <> 0.
Proof.
  unfold FAnyLineHasFlagSet. rewrite any_flag_true. split; intros (k & Hk & N); exists k; (split; [lia|exact N]).
Qed.

(** ** Resizing *)

(** A dirty page shrunk to any size that holds its data and tags keeps its
    lines, writes nothing outside the smaller buffer, and grown back is the
    same well-formed page: same lines at the same offsets, same free space,
    and the same bytes outside the free area. *)
Theorem dehydrate_then_rehydrate (R : ChecksumRoutines) p cbNew :
  page_inv p -> fDirty p = true -> CbPageHeader p + ibMicFree p + 4 * m_itagMicFree p <= cbNew < cbBuffer p ->
  exists q r, DehydratePageUnadjusted_ p cbNew = Some q /\ RehydratePage q = Some r /\
    cbBuffer q = cbNew /\ lines q = lines p /\ (forall a, a < 0 \/ cbNew <= a -> pv q a = pv p a) /\
    page_inv r /\ lines r = lines p /\ cbFree r = cbFree p /\
    forall a, a < 28 \/ 30 <= a < CbPageHeader p + ibMicFree p \/ cbBuffer p - 4 * m_itagMicFree p <= a -> pv r a = pv p a.
Proof.
  intros Inv Hd Hn. destruct (dehydrate_rehydrate p cbNew Inv Hd Hn) as (q & E & B & L & _ & K & r & E' & I & L' & F & K').
  exists q, r. split; [exact E|]. split; [exact E'|]. split; [exact B|]. split; [exact L|]. split; [intros a Ha; apply K; lia|]. auto.
Qed.

(** ** Reserved tags *)

(** The page of the next theorem: two lines that leave 20 free bytes. *)
Definition full_ops : list page_op := [OpInsert 0 [repeat 7 1000] 0; OpInsert 1 [repeat 9 976] 0].
Definition page2k : CPAGE := LoadNewPage junk 17 9 2 2048 false true.
Definition full_page : CPAGE := match run page2k full_ops with Some p => p | None => page2k end.

(** [IAddReservedTag] asks [FreeSpace_] for the data of the new tag only,
    not for the tag: on a well-formed page with 20 free bytes it accepts a tag
    of 20 bytes, the fill overwrites the tag of the last line, whose length
    becomes 1092 instead of 976, and [cbFree] wraps around to 65532. *)
Theorem IAddReservedTag_overwrites_tag :
  page_inv full_page /\ cbFree full_page = 20 /\ TAG_Cb full_page (PtagFromItag_ full_page 2) = 976 /\
  match IAddReservedTag full_page 20 68 with
  | Some (p', itag) => itag = 1 /\ cbFree p' = 65532 /\ TAG_Cb p' (PtagFromItag_ p' 3) = 1092 /\ m_itagMicFree p' = 4
  | None => False
  end.
Proof.
  split; [|vm_compute; repeat split].
  destruct (new_page junk 17 9 2 2048 false true junk_ok ltac:(lia)) as (I & V & _). fold page2k in I, V.
  apply run_inv; [exact I|]. rewrite V. vm_compute. reflexivity.
Qed.


(** ** Witnesses *)

Lemma checked_line_is_on_page_witness :
  exists l pb, ErrGetPtr full_page 1 = (l, JET_errSuccess) /\ ln_pv l = PvPage pb /\ pb + ln_cb l <= 2048 - 12.
Proof.
  destruct (ErrGetPtr full_page 1) as [l e] eqn:E. assert (Ee : e = JET_errSuccess) by (vm_compute in E; injection E as _ <-; reflexivity). subst e.
  destruct (checked_line_is_on_page full_page 1 l E) as [(_ & _ & H)|(pb & H1 & _ & _ & H2)]; [discriminate|].
  exists l, pb. split; [reflexivity|]. split; [exact H1|]. vm_compute (cbBuffer full_page - CbTagArray_ full_page) in H2. exact H2.
Defined.

(** A page of arbitrary bytes, and the same page in other surroundings. *)
Definition corrupt : CPAGE := LoadPage junk 17 4096 false true.
Definition elsewhere : mem := fun a => if (0 <=? a) && (a <? 4096) then junk a else 0.

Lemma checked_access_reads_buffer_only_witness :
  GetPtr_Checked (with_pv corrupt elsewhere) 5000 = GetPtr_Checked corrupt 5000.
Proof.
  apply (checked_access_reads_buffer_only corrupt elsewhere 5000); try (vm_compute; discriminate).
  intros a Ha. change (cbBuffer corrupt) with 4096 in Ha. unfold elsewhere.
  destruct (Z.leb_spec 0 a), (Z.ltb_spec a 4096); cbn [andb]; reflexivity || lia.
Defined.

Lemma checked_access_returns_stored_line_witness :
  exists p pb, page_inv p /\ ErrGetPtr p 0 = (Line_ (PvPage pb) 3 5, JET_errSuccess) /\ load_bytes (pv p) pb 3 = [1; 2; 3].
Proof.
  destruct two_lines as (p & _ & I & V & N & C & _). exists p.
  assert (Hc : 2 <= Z.of_nat (length (snd (nth (Z.to_nat (0 + m_ctagReserved p)) (view p) no_line)))) by (rewrite V, C; discriminate).
  destruct (checked_access_returns_stored_line p 0 I ltac:(unfold Clines; lia) Hc) as (pb & cb & fl & E & S).
  rewrite V, C in S. injection S as S1 S2. pose proof (length_load_bytes (pv p) pb cb) as Hl. rewrite <- S2 in Hl. cbn in Hl.
  assert (cb = 3) as -> by lia. exists pb. rewrite E, <- S1. split; [exact I|]. split; [reflexivity|]. now rewrite <- S2.
Defined.

Lemma ResetAllFlags_clears_flags_witness :
  exists p, page_inv p /\ nth 1 (view p) no_line = (5, [1; 2; 3]) /\ nth 1 (view (ResetAllFlags p 4)) no_line = (1, [1; 2; 3]).
Proof.
  destruct two_lines as (p & _ & I & V & N & C & S). exists p. split; [exact I|]. split; [now rewrite V|].
  destruct (ResetAllFlags_clears_flags p 4 I) as (_ & _ & V' & _). specialize (V' 1 ltac:(lia)).
  rewrite V, C, S in V'. exact V'.
Defined.

(** The page with its dirty bit set. *)
Definition dirtied (p : CPAGE) : CPAGE :=
  Page (pv p) (m_pgno p) (m_fSmallFormat p) (m_itagMicFree p) (m_ctagReserved p) (cbBuffer p) (cbPage p) true
    (fRuntimeScrubbing p) (fResvTagFormat p).

Lemma dirtied_inv p : page_inv p -> page_inv (dirtied p).
Proof.
  intros [I1 I2 I3 I4 I5 I6 I7 I8 I9 I10 I11]. constructor; auto. apply inv_state_iff. apply inv_state_iff in I8. exact I8.
Qed.

Lemma dehydrate_then_rehydrate_witness :
  exists q r, DehydratePageUnadjusted_ (R := routines_of cpu_x64) (dirtied page16k) 4096 = Some q /\
    RehydratePage (R := routines_of cpu_x64) q = Some r /\ lines r = lines (dirtied page16k).
Proof.
  assert (I : page_inv (dirtied page16k)) by (apply dirtied_inv, page16k_new).
  assert (B : CbPageHeader (dirtied page16k) + ibMicFree (dirtied page16k) + 4 * m_itagMicFree (dirtied page16k) <= 4096 < cbBuffer (dirtied page16k))
    by (vm_compute; split; [discriminate|reflexivity]).
  destruct (dehydrate_then_rehydrate (routines_of cpu_x64) (dirtied page16k) 4096 I eq_refl B) as (q & r & E1 & E2 & _ & _ & _ & _ & L & _).
  exists q, r. auto.
Defined.
