(* ===== verification/Xpress.v ===== *)
(** * The XPRESS codec (src/dev/ese/src/_xpress)

    The LZ77 codec of the compressor: [XpressDecode] (xdecode.c and xdecode.i)
    and [XpressEncode] with the level the compressor asks for, 2 (xencode.c and
    xencode.i), in the configuration of the build: CODING_ALG 1, so the coding
    is CODING_DIRECT2, C code instead of i386 assembler, no ARM.

    A compressed block is a sequence of items, literal bytes and pointers back
    into the output, in groups of 32 behind a word of 32 tags.  Pointers are
    two bytes, 13 bits of distance and three of length; longer lengths take half
    a byte, which two pointers share, and then one or three bytes more.

    Memory is accessed through [xget] and [xput], which have no result outside
    the region that belongs to the code: a function without a result here has
    left its buffers. *)

From Stdlib Require Import ZArith List Lia Bool.
From S2P Require Import Prelude Mem.
Import ListNotations.

(** ** Memory regions *)

Definition xget (m : mem) (lo hi a : Z) : option Z := if (lo <=? a) && (a <? hi) then Some (m a) else None.
Definition xput (m : mem) (lo hi a v : Z) : option mem := if (lo <=? a) && (a <? hi) then Some (store8 m a v) else None.
Definition xget16 (m : mem) (lo hi a : Z) : option Z := if (lo <=? a) && (a + 2 <=? hi) then Some (load16 m a) else None.
Definition xget32 (m : mem) (lo hi a : Z) : option Z := if (lo <=? a) && (a + 4 <=? hi) then Some (load32 m a) else None.
Definition xput32 (m : mem) (lo hi a v : Z) : option mem := if (lo <=? a) && (a + 4 <=? hi) then Some (store32 m a v) else None.

(** ** Configuration *)

Definition BUFF_SIZE : Z := 65536.
Definition MAX_OFFSET : Z := 13.
Definition DIRECT2_LEN_LOG : Z := 16 - MAX_OFFSET.
Definition DIRECT2_MAX_LEN : Z := Z.shiftl 1 DIRECT2_LEN_LOG - 1.
Definition MIN_MATCH : Z := 3.
Definition MIN_SIZE : Z := 8.
Definition sizeof_tag : Z := 4.
Definition RESERVE_DST : Z := (8 * 8 + 2) * sizeof_tag.
Definition RESERVE_SRC : Z := (7 * 8 + 2) * sizeof_tag.

(** ** Decoding *)

(** The variables of [do_decode]; a null [ptr] is [None]. *)
Record dregs := Dregs { dg_bmask : Z; dg_dst : Z; dg_src : Z; dg_ptr : option Z; dg_out : mem }.

(** The labels of [do_decode]; each exists in a fast and in a careful copy of
    the code.  [L_pointer] follows the test of the tag bit, without a label of
    its own in the source. *)
Inductive dlabel := L_copy_byte | L_next | L_start | L_pointer.

(** [goto], [RET_OK] (with [info->eof]) and [RET_ERR]. *)
Inductive dstep := Goto (careful : bool) (l : dlabel) (s : dregs) | RetOk (eof : bool) (s : dregs) | RetErr (s : dregs).

(** [dst[0] = src[0]; dst[1] = src[1]; ...], in this order: the blocks may overlap. *)
Fixpoint copy_bytes (n : nat) (lo hi : Z) (out : mem) (dst src : Z) : option mem :=
  match n with
  | O => Some out
  | S n => let? b := xget out lo hi src in let? out := xput out lo hi dst b in copy_bytes n lo hi out (dst + 1) (src + 1)
  end.

(** [COPY_BLOCK_SLOW]; the last loop is a [do ... while] and never ends well
    when there is nothing to copy. *)
Fixpoint copy_block_slow (fuel : nat) (lo hi : Z) (out : mem) (dst src len : Z) : option mem :=
  match fuel with
  | O => None
  | S fuel =>
      if 8 <? len then let? out := copy_bytes 8 lo hi out dst src in copy_block_slow fuel lo hi out (dst + 8) (src + 8) (len - 8)
      else if len <=? 0 then None
      else copy_bytes (Z.to_nat len) lo hi out dst src
  end.

Section Decode.
(** The compressed bytes and the fields of [decode_info]. *)
Variables (comp : mem) (src_beg src_end src_careful : Z) (dst_beg dst_stop dst_end dst_careful : Z).

Definition src_end_1 : Z := src_end - 1.
Definition src_end_tag : Z := src_end - (sizeof_tag - 1).

Definition dec_copy_byte (careful : bool) (s : dregs) : option dstep :=
  if careful && (dst_stop <=? dg_dst s) then Some (RetOk false s)
  else if careful && (src_end <=? dg_src s) then Some (RetErr s)
  else
    let? b := xget comp src_beg src_end (dg_src s) in
    let? out := xput (dg_out s) dst_beg dst_stop (dg_dst s) b in
    Some (Goto careful L_next (Dregs (dg_bmask s) (dg_dst s + 1) (dg_src s + 1) (dg_ptr s) out)).

(** One turn of the loop over literals, or the test of the next tag. *)
Definition dec_next (careful : bool) (s : dregs) : option dstep :=
  let s' := Dregs (s32 (2 * dg_bmask s)) (dg_dst s) (dg_src s) (dg_ptr s) (dg_out s) in
  if 0 <=? dg_bmask s then dec_copy_byte careful s'
  else Some (Goto careful (if dg_bmask s' =? 0 then L_start else L_pointer) s').

Definition dec_start (careful : bool) (s : dregs) : option dstep :=
  if negb careful && ((src_careful <=? dg_src s) || (dst_careful <=? dg_dst s)) then Some (Goto true L_start s)
  else if careful && (src_end_tag <=? dg_src s) then Some (RetErr s)
  else
    let? tag := xget32 comp src_beg src_end (dg_src s) in
    let s' := Dregs (s32 (2 * s32 tag + 1)) (dg_dst s) (dg_src s + sizeof_tag) (dg_ptr s) (dg_out s) in
    Some (Goto careful (if 0 <=? s32 tag then L_copy_byte else L_pointer) s').

(** The length of a pointer whose three bits are [len]: [Some None] is an error,
    else the length, [src] and [ptr]. *)
Definition dec_length (careful : bool) (len src : Z) (ptr : option Z) : option (option (Z * Z * option Z)) :=
  if negb (len =? DIRECT2_MAX_LEN) then Some (Some (len + MIN_MATCH, src, ptr))
  else
    let? nibble :=
      match ptr with
      | None =>
          if careful && (src_end <=? src) then Some None
          else let? b := xget comp src_beg src_end src in Some (Some (Z.land b 15, src + 1, Some src))
      | Some p => let? b := xget comp src_beg src_end p in Some (Some (Z.shiftr b 4, src, None))
      end in
    match nibble with
    | None => Some None
    | Some (len, src, ptr) =>
        if negb (len =? 15) then Some (Some (len + (DIRECT2_MAX_LEN + MIN_MATCH), src, ptr))
        else if careful && (src_end <=? src) then Some None
        else
          let? len := xget comp src_beg src_end src in
          let src := src + 1 in
          if negb (len =? 255) then Some (Some (len + 15 + (DIRECT2_MAX_LEN + MIN_MATCH), src, ptr))
          else if careful && (src_end_1 <=? src) then Some None
          else
            let? len := xget16 comp src_beg src_end src in
            if len <? 255 + 15 + DIRECT2_MAX_LEN then Some None
            else Some (Some (len + MIN_MATCH, src + 2, ptr))
    end.

Definition dec_pointer (careful : bool) (s : dregs) : option dstep :=
  if careful && (dst_stop <=? dg_dst s) then Some (RetOk (dg_dst s =? dst_end) s)
  else if careful && (src_end_1 <=? dg_src s) then Some (RetErr s)
  else
    let? w := xget16 comp src_beg src_end (dg_src s) in
    let len := Z.land w DIRECT2_MAX_LEN in
    let ofs := Z.lnot (Z.shiftr w DIRECT2_LEN_LOG) in
    let dst := dg_dst s in
    let from := dst + ofs in
    if negb careful && (len <=? 8 - MIN_MATCH) then
      if from <? dst_beg then Some (RetErr s)
      else
        let? out := copy_bytes 8 dst_beg dst_stop (dg_out s) dst from in
        Some (Goto careful L_next (Dregs (dg_bmask s) (dst + (len + MIN_MATCH)) (dg_src s + 2) (dg_ptr s) out))
    else
      let? decoded := dec_length careful len (dg_src s + 2) (dg_ptr s) in
      match decoded with
      | None => Some (RetErr s)
      | Some (len, src, ptr) =>
          let careful := careful || (dst_careful <=? dst + len) in
          if careful && (dst_stop <? dst + len) then
            if from <? dst_beg then Some (RetErr s)
            else
              let len := dst_stop - dst in
              let? out := copy_block_slow (S (Z.to_nat len)) dst_beg dst_stop (dg_out s) dst from len in
              Some (RetOk false (Dregs (dg_bmask s) (dst + len) src ptr out))
          else if from <? dst_beg then Some (RetErr s)
          else
            let? out := copy_block_slow (S (Z.to_nat len)) dst_beg dst_stop (dg_out s) dst from len in
            Some (Goto careful L_next (Dregs (dg_bmask s) (dst + len) src ptr out))
      end.

Definition dec_step (careful : bool) (l : dlabel) (s : dregs) : option dstep :=
  match l with
  | L_copy_byte => dec_copy_byte careful s
  | L_next => dec_next careful s
  | L_start => dec_start careful s
  | L_pointer => dec_pointer careful s
  end.

(** [info->result], [info->eof] and the variables at the end. *)
Fixpoint do_decode (fuel : nat) (careful : bool) (l : dlabel) (s : dregs) : option (bool * bool * dregs) :=
  match fuel with
  | O => None
  | S fuel =>
      let? r := dec_step careful l s in
      match r with
      | Goto careful l s => do_decode fuel careful l s
      | RetOk eof s => Some (true, eof, s)
      | RetErr s => Some (false, false, s)
      end
  end.
End Decode.

(** [info->src.beg] is still the number of the stream, 1, when [src.careful] is
    computed, so that the end of the data is always more than [RESERVE_SRC]
    bytes away from it.  [out], [orig]: the output buffer; [comp], [cbeg]: the
    compressed block.  Returns the size and the output buffer.  Each turn moves
    the output or is one of three that go on to the next. *)
Definition XpressDecode (out : mem) (orig orig_size decode_size : Z) (comp : mem) (cbeg comp_size : Z) : option (Z * mem) :=
  let decode_size := if orig_size <? decode_size then orig_size else decode_size in
  if (comp_size =? orig_size) || (decode_size =? 0) then Some (decode_size, out)
  else if (orig_size <? comp_size) || (comp_size <? 0) || (orig_size <=? MIN_SIZE) || (comp_size <? MIN_SIZE)
          || (BUFF_SIZE <? orig_size) || (decode_size <? 0)
  then Some (-1, out)
  else
    let src_end := cbeg + comp_size in
    let dst_end := orig + orig_size in
    let dst_stop := orig + decode_size in
    let dst_careful := if RESERVE_DST <? decode_size then dst_stop - RESERVE_DST else orig in
    let src_careful := src_end - RESERVE_SRC in
    let? (result, eof, s) :=
      do_decode comp cbeg src_end src_careful orig dst_stop dst_end dst_careful (4 * Z.to_nat decode_size + 8) false L_start
        (Dregs 0 orig cbeg None out) in
    if negb result || (dst_stop <? dg_dst s) || (src_end <? dg_src s) || ((dst_stop =? dst_end) && negb eof)
    then Some (-1, dg_out s) else Some (decode_size, dg_out s).

(** ** Encoding: the output *)

(** [v.temp] and [v.stat.ptr] (null: [None]).  [tag_write], [write_lit] and
    [write_ptr] take the output pointer along as [ptr]; here it is [w_ptr]. *)
Record writer := Writer { w_out : mem; w_ptr : Z; w_tag_ptr : Z; w_tag_mask : Z; w_stat : option Z }.

Definition tag_write_start (out : mem) (ptr : Z) : writer := Writer out (ptr + sizeof_tag) ptr 1 None.

Section Writer.
(** The output region. *)
Variables comp_beg comp_end : Z.

Definition tag_write (w : writer) (n : Z) : option writer :=
  let __n := s32 (Z.lor n (2 * w_tag_mask w)) in
  if w_tag_mask w <? 0 then
    let? out := xput32 (w_out w) comp_beg comp_end (w_tag_ptr w) __n in
    Some (Writer out (w_ptr w + sizeof_tag) (w_ptr w) 1 (w_stat w))
  else Some (Writer (w_out w) (w_ptr w) (w_tag_ptr w) __n (w_stat w)).

(** Tags of 1 until the word is written; it keeps [v.temp.ptr]. *)
Fixpoint tag_write_until (fuel : nat) (w : writer) : option writer :=
  match fuel with
  | O => None
  | S fuel =>
      let? w' := tag_write w 1 in
      if w_ptr w' =? w_ptr w then tag_write_until fuel w' else Some w'
  end.

Definition tag_write_finish (w : writer) : option writer :=
  let? w' := tag_write_until 32 w in
  Some (Writer (w_out w') (w_ptr w) (w_tag_ptr w') (w_tag_mask w') (w_stat w')).

(** [*ptr++ = v]. *)
Definition put_byte (w : writer) (v : Z) : option writer :=
  let? out := xput (w_out w) comp_beg comp_end (w_ptr w) v in
  Some (Writer out (w_ptr w + 1) (w_tag_ptr w) (w_tag_mask w) (w_stat w)).

Definition set_stat (w : writer) (p : option Z) : writer := Writer (w_out w) (w_ptr w) (w_tag_ptr w) (w_tag_mask w) p.

(** [ptr[0] = (uchar) v; ptr[1] = (uchar) (v >>= 8); ptr += 2]. *)
Definition put_word (w : writer) (v : Z) : option writer := let? w := put_byte w v in put_byte w (Z.shiftr v 8).

Definition write_lit (w : writer) (ch : Z) : option writer := let? w := put_byte w ch in tag_write w 0.

(** The half byte of a long length: in a new byte, or in the upper half of
    the last one. *)
Definition put_nibble (w : writer) (length : Z) : option writer :=
  let nibble := if length <? 15 then length else 15 in
  match w_stat w with
  | None => put_byte (set_stat w (Some (w_ptr w))) nibble
  | Some p =>
      let? b := xget (w_out w) comp_beg comp_end p in
      let? out := xput (w_out w) comp_beg comp_end p (Z.lor b (Z.shiftl nibble 4)) in
      Some (Writer out (w_ptr w) (w_tag_ptr w) (w_tag_mask w) None)
  end.

(** One byte, or 255 and a word. *)
Definition put_long (w : writer) (length : Z) : option writer :=
  let length := length - 15 in
  if 0 <=? length then
    if 255 <=? length then
      let? w := put_byte w 255 in put_word w (length + (DIRECT2_MAX_LEN + 15))
    else put_byte w length
  else Some w.

(** The bytes of a pointer. *)
Definition put_pointer (w : writer) (offset length : Z) : option writer :=
  let length := length - MIN_MATCH in
  let offset := Z.shiftl (offset - 1) DIRECT2_LEN_LOG in
  if length <? DIRECT2_MAX_LEN then put_word w (Z.lor offset length)
  else
    let length := length - DIRECT2_MAX_LEN in
    let? w := put_word w (Z.lor offset DIRECT2_MAX_LEN) in
    let? w := put_nibble w length in
    put_long w length.

Definition write_ptr (w : writer) (offset length : Z) : option writer :=
  let? w := put_pointer w offset length in tag_write w 1.
End Writer.

(** ** Encoding: hashes *)

Definition Z_HASH_SIZE : Z := 32768.

(** An array of [n] 16-bit numbers. *)
Definition aget (f : Z -> Z) (n i : Z) : option Z := if (0 <=? i) && (i <? n) then Some (f i) else None.
Definition aput (f : Z -> Z) (n i v : Z) : option (Z -> Z) :=
  if (0 <=? i) && (i <? n) then Some (fun x => if x =? i then u16 v else f x) else None.

(** [z_hash_map_init].  [long] has 64 bits and is taken to wrap around; nothing
    else depends on the numbers, only on their being below [Z_HASH_SIZE]. *)
Definition s64 (x : Z) : Z := let y := Z.land x 0xffffffffffffffff in if y <? 0x8000000000000000 then y else y - 0x10000000000000000.

Fixpoint hash_rounds (n : nat) (v1 v2 vv1 vv2 d : Z) : Z * Z :=
  match n with
  | O => (v1, v2)
  | S n =>
      let d := d + 0x9e3779b9 in
      let vv1 := s64 (vv1 + d) in
      let vv2 := s64 (vv2 + d) in
      let v1 := s64 (v1 + Z.lxor (Z.lxor (s64 (Z.shiftl v2 3 + vv1)) (s64 (v2 + d))) (s64 (Z.shiftr v2 5 + vv2))) in
      let v2 := s64 (v2 + Z.lxor (Z.lxor (s64 (Z.shiftl v1 3 + vv2)) (s64 (v1 + d))) (s64 (Z.shiftr v1 5 + vv1))) in
      hash_rounds n v1 v2 vv1 vv2 d
  end.

Fixpoint hash_map_from (n : nat) (v1 v2 : Z) : list Z :=
  match n with
  | O => []
  | S n =>
      let '(v1, v2) := hash_rounds 32 v1 v2 v2 v1 0 in
      let v1 := s64 (v1 + v2) in
      Z.land v1 (Z_HASH_SIZE - 1) :: hash_map_from n v1 v2
  end.

(** [z_hash_map[MIN_MATCH][256]], row after row. *)
Definition z_hash_map : list Z := hash_map_from 768 0x13579bdf 0x87654321.

Section Match.
(** The data: [size] bytes at [beg]. *)
Variables (orig : mem) (beg size : Z).

Definition ob (i : Z) : option Z := xget orig beg (beg + size) (beg + i).

Definition Z_HASH_SUM (i : Z) : option Z :=
  let? b0 := ob i in let? b1 := ob (i + 1) in let? b2 := ob (i + 2) in
  Some (Z.lxor (Z.lxor (nth (Z.to_nat b0) z_hash_map 0) (nth (256 + Z.to_nat b1) z_hash_map 0)) (nth (512 + Z.to_nat b2) z_hash_map 0)).

(** [z_next] and [z_hash] after the [n] positions from [i] on; [max_size]: the
    length of [z_next]. *)
Fixpoint hash_insert_loop (n : nat) (max_size i : Z) (z_next z_hash : Z -> Z) : option ((Z -> Z) * (Z -> Z)) :=
  match n with
  | O => Some (z_next, z_hash)
  | S n =>
      let? h := Z_HASH_SUM i in
      let? last := aget z_hash Z_HASH_SIZE h in
      let? z_next := aput z_next max_size i last in
      let? z_hash := aput z_hash Z_HASH_SIZE h i in
      hash_insert_loop n max_size (i + 1) z_next z_hash
  end.

Fixpoint hash_clear_loop (n : nat) (max_size i : Z) (z_next : Z -> Z) : option (Z -> Z) :=
  match n with
  | O => Some z_next
  | S n => let? z_next := aput z_next max_size i 0 in hash_clear_loop n max_size (i + 1) z_next
  end.

Definition z_hash_insert (max_size : Z) (z_next : Z -> Z) : option (Z -> Z) :=
  let n := Z.to_nat (size - (MIN_MATCH - 1)) in
  let? (z_next, _) := hash_insert_loop n max_size 0 z_next (fun _ => 0) in
  hash_clear_loop (Z.to_nat (MIN_MATCH - 1)) max_size (Z.of_nat n) z_next.

(** ** Encoding: matches *)

(** [p0[m] == c0 && p1[m] == c1]. *)
Definition same_end (m c0 c1 : Z) : option bool :=
  let? b0 := ob (m + 2) in
  if b0 =? c0 then let? b1 := ob (m + 1) in Some (b1 =? c1) else Some false.

(** [n] steps along the chain and the test of the last position. *)
Fixpoint chain_search (n : nat) (max_size : Z) (z_next : Z -> Z) (m c0 c1 : Z) : option (option Z) :=
  match n with
  | O => let? hit := same_end m c0 c1 in Some (if hit : bool then Some m else None)
  | S n =>
      let? k := aget z_next max_size m in
      let? hit := same_end m c0 c1 in
      if hit : bool then Some (Some m) else chain_search n max_size z_next k c0 c1
  end.

(** Compares [n] bytes: whether all are equal, and the positions reached. *)
Fixpoint compare_bytes (n : nat) (p1 p2 : Z) : option (bool * Z * Z) :=
  match n with
  | O => Some (true, p1, p2)
  | S n =>
      let? b1 := ob p1 in let? b2 := ob p2 in
      if b1 =? b2 then compare_bytes n (p1 + 1) (p2 + 1) else Some (false, p1, p2)
  end.

Definition end_16 : Z := size - 16.

Fixpoint compare_blocks (fuel : nat) (p1 p2 : Z) : option (bool * Z * Z) :=
  match fuel with
  | O => None
  | S fuel =>
      if p1 <=? end_16 then
        let? (eq, p1, p2) := compare_bytes 16 p1 p2 in
        if eq : bool then compare_blocks fuel p1 p2 else Some (false, p1, p2)
      else Some (true, p1, p2)
  end.

(** Where a match whose first four bytes are equal ends: 12 bytes, then blocks
    of 16 as long as they fit, then the bytes that are left. *)
Definition match_end (p1 p2 : Z) : option Z :=
  let? (eq, p1, p2) :=
    if p1 <=? end_16 then
      let? (eq, p1, p2) := compare_bytes 12 (p1 + 4) (p2 + 4) in
      if eq : bool then compare_blocks (S (Z.to_nat (size - p1))) p1 p2 else Some (false, p1, p2)
    else Some (true, p1, p2) in
  if eq : bool then let? (_, p1, _) := compare_bytes (Z.to_nat (size - p1)) p1 p2 in Some p1 else Some p1.

(** [find_match2]: [v.match.len] and [v.match.pos] if there is a match, and
    [z_next], whose first element ends the chains. *)
Definition find_match (max_size pos : Z) (z_next : Z -> Z) : option (option (Z * Z) * (Z -> Z)) :=
  let? z_next := aput z_next max_size 0 pos in
  let n := pos in
  let? m := aget z_next max_size n in
  let? c0 := ob (n + (MIN_MATCH - 1)) in
  let? c1 := ob (n + (MIN_MATCH - 2)) in
  let? found := chain_search 8 max_size z_next m c0 c1 in
  match found with
  | None => Some (None, z_next)
  | Some k =>
      if Z.shiftl 1 MAX_OFFSET - 1 <=? u32 (n - k - 1) then Some (None, z_next)
      else
        let? a0 := ob n in let? b0 := ob k in
        if negb (a0 =? b0) then Some (None, z_next)
        else
          let? a1 := ob (n + 1) in let? b1 := ob (k + 1) in
          if negb (a1 =? b1) then Some (None, z_next)
          else
            let? a3 := ob (n + 3) in let? b3 := ob (k + 3) in
            if negb (a3 =? b3) then Some (Some (3, k), z_next)
            else let? p1 := match_end n k in Some (Some (p1 - n, k), z_next)
  end.

(** ** Encoding: the loops *)

(** [v.orig.pos], the chains and the output. *)
Record encoder := Encoder { en_pos : Z; en_next : Z -> Z; en_w : writer }.

Section Encode.
Variables (max_size comp_beg comp_end : Z).

Definition encode_literal (e : encoder) : option encoder :=
  let? b := ob (en_pos e) in
  let? w := write_lit comp_beg comp_end (en_w e) b in
  Some (Encoder (en_pos e + 1) (en_next e) w).

(** The body of the loop of [encode2_pass1]. *)
Definition encode_item (e : encoder) : option encoder :=
  let? z := aget (en_next e) max_size (en_pos e) in
  if z =? 0 then encode_literal e
  else
    let? (found, z_next) := find_match max_size (en_pos e) (en_next e) in
    match found with
    | None => encode_literal (Encoder (en_pos e) z_next (en_w e))
    | Some (len, pos) =>
        let? w := write_ptr comp_beg comp_end (en_w e) (en_pos e - pos) len in
        Some (Encoder (en_pos e + len) z_next w)
    end.

Fixpoint encode2_pass1 (fuel : nat) (stop : Z) (e : encoder) : option encoder :=
  match fuel with
  | O => None
  | S fuel =>
      let? e := encode_item e in
      if en_pos e <? stop then encode2_pass1 fuel stop e else Some e
  end.

(** The [for (;;)] loop of [XpressEncodeEx2]; [false]: [goto no_compression]. *)
Fixpoint encode_loop (fuel : nat) (comp_size : Z) (e : encoder) : option (bool * encoder) :=
  match fuel with
  | O => None
  | S fuel =>
      let rest := comp_size - (w_ptr (en_w e) - comp_beg) - 2 * sizeof_tag in
      let rest := rest - Z.shiftr (rest + 7) 3 in
      if rest <=? 2 * sizeof_tag + 8 then Some (false, e)
      else if size <=? en_pos e then Some (true, e)
      else
        let stop := en_pos e + rest in
        let clipped := size - 8 <? stop in
        let stop := if clipped then size - 8 else stop in
        if clipped && (stop <=? en_pos e) then Some (true, e)
        else
          let? e := encode2_pass1 (S (Z.to_nat (stop - en_pos e))) stop e in
          encode_loop fuel comp_size e
  end.

(** [while (v.orig.pos < v.orig.size)]. *)
Fixpoint encode_rest (fuel : nat) (e : encoder) : option encoder :=
  match fuel with
  | O => None
  | S fuel => if en_pos e <? size then let? e := encode_literal e in encode_rest fuel e else Some e
  end.
End Encode.
End Match.

(** [XpressEncodeEx2] with level 2, without a progress callback, for a stream
    made for [max_orig_size] bytes: the result, [*pEncodedSize] if it is set,
    and the output buffer, of [comp_size] bytes at [comp]. *)
Definition XpressEncodeEx2 (max_orig_size : Z) (out : mem) (comp comp_size0 : Z) (orig : mem) (obeg orig_size : Z)
    : option (Z * option Z * mem) :=
  let comp_size := if orig_size <=? comp_size0 then orig_size - 1 else comp_size0 in
  if (max_orig_size - 1 <? u32 (orig_size - 1)) || (orig_size <=? MIN_SIZE) || (comp_size <? MIN_SIZE)
  then Some (orig_size, None, out)
  else
    let comp_end := comp + comp_size0 in
    let? z_next := z_hash_insert orig obeg orig_size max_orig_size (fun _ => 0) in
    let? (through, e) := encode_loop orig obeg orig_size max_orig_size comp comp_end (S (Z.to_nat orig_size)) comp_size
      (Encoder 0 z_next (tag_write_start out comp)) in
    let? e := if through : bool then encode_rest orig obeg orig_size comp comp_end (S (Z.to_nat orig_size)) e else Some e in
    let? w := tag_write_finish comp comp_end (en_w e) in
    let c_size := w_ptr w - comp in
    Some (if comp_size <=? c_size then orig_size else c_size, Some (en_pos e), w_out w).

(** [XpressEncodeCreate] refuses other sizes: [(unsigned) (max_orig_size - 1) > BUFF_SIZE - 1],
    for an [int]. *)
Definition XpressEncodeCreate_accepts (max_orig_size : Z) : bool := (0 <=? max_orig_size - 1) && (max_orig_size - 1 <=? BUFF_SIZE - 1).

Definition XpressEncode (max_orig_size : Z) (out : mem) (comp comp_size : Z) (orig : mem) (obeg orig_size : Z) : option (Z * mem) :=
  let? (OutputSize, EncodedSize, out) := XpressEncodeEx2 max_orig_size out comp comp_size orig obeg orig_size in
  let all := match EncodedSize with Some n => n =? orig_size | None => -1 =? orig_size end in
  Some (if negb (OutputSize =? 0) && negb all then orig_size else OutputSize, out).
