(* ===== verification/XpressDec.v ===== *)
(** * The XPRESS decoder stays in its buffers

    The register of tags as a list of bits, the invariant of the fast and of the
    careful phase, and that decoding ends, whatever the compressed bytes. *)

From Stdlib Require Import ZArith List Lia Bool.
From S2P Require Import Prelude Bits Mem Xpress.
Import ListNotations.

(** ** Tags *)

(** The number a list of bits stands for, the highest bit first. *)
Fixpoint tval (bits : list bool) : Z :=
  match bits with [] => 0 | c :: bits => Z.b2z c * 2 ^ Z.of_nat (length bits) + tval bits end.

Fixpoint tag_bits (n : nat) (t : Z) : list bool :=
  match n with O => [] | S n => Z.testbit t (Z.of_nat n) :: tag_bits n t end.

Lemma length_tag_bits n t : length (tag_bits n t) = n.
Proof. induction n; cbn; congruence. Qed.

Lemma tval_range bits : 0 <= tval bits < 2 ^ Z.of_nat (length bits).
Proof.
  induction bits as [|c bits IH]; cbn [tval length]; [cbn; lia|]. rewrite Nat2Z.inj_succ, Z.pow_succ_r by lia. destruct c; cbn [Z.b2z]; lia.
Qed.

Lemma tval_tag_bits n t : tval (tag_bits n t) = t mod 2 ^ Z.of_nat n.
Proof.
  induction n as [|n IH]; [cbn; now rewrite Z.mod_1_r|]. cbn [tag_bits tval]. rewrite length_tag_bits, IH. rewrite Nat2Z.inj_succ, Z.pow_succ_r by lia.
  rewrite Z.testbit_spec' by lia. rewrite (Z.mul_comm 2), Z.rem_mul_r by lia. lia.
Qed.

(** The register when [bits] are still to come. *)
Definition bm (bits : list bool) : Z := s32 ((2 * tval bits + 1) * 2 ^ (31 - Z.of_nat (length bits))).

Lemma bmu_range bits : (length bits <= 31)%nat -> 0 < (2 * tval bits + 1) * 2 ^ (31 - Z.of_nat (length bits)) < 4294967296.
Proof.
  intros H. pose proof (tval_range bits) as R. set (k := Z.of_nat (length bits)) in *. assert (P : 2 ^ k * 2 ^ (31 - k) = 2147483648) by (rewrite <- Z.pow_add_r by lia; now replace (k + (31 - k)) with 31 by lia).
  assert (0 < 2 ^ (31 - k)) by (apply Z.pow_pos_nonneg; lia). nia.
Qed.

Lemma s32_sign x : 0 <= x < 4294967296 -> (0 <=? s32 x) = (x <? 2147483648).
Proof. intros H. unfold s32, u32. rewrite Z.mod_small by lia. case_cmp; lia. Qed.

Lemma s32_u32 x y : u32 x = u32 y -> s32 x = s32 y.
Proof. unfold s32. now intros ->. Qed.

Lemma u32_s32 x : u32 (s32 x) = u32 x.
Proof. unfold s32, u32. destruct (Z.ltb_spec (x mod 4294967296) 2147483648); zlia. Qed.

Lemma u32_twice x y : u32 x = u32 y -> u32 (2 * x) = u32 (2 * y).
Proof. unfold u32. intros H. zlia. Qed.

Lemma pow_split k : 0 <= k <= 31 -> 2 ^ k * 2 ^ (31 - k) = 2147483648.
Proof. intros H. rewrite <- Z.pow_add_r by lia. now replace (k + (31 - k)) with 31 by lia. Qed.

Lemma bm_nil : bm [] = -2147483648 /\ (0 <=? bm []) = false /\ s32 (2 * bm []) = 0.
Proof. now vm_compute. Qed.

(** The next bit is the sign, and a shift takes it away. *)
Lemma bm_cons c bits : (length bits < 31)%nat ->
  (0 <=? bm (c :: bits)) = negb c /\ s32 (2 * bm (c :: bits)) = bm bits /\ bm bits <> 0.
Proof.
  intros H. unfold bm. pose proof (bmu_range (c :: bits) ltac:(cbn [length]; lia)) as R1. pose proof (bmu_range bits ltac:(lia)) as R2.
  set (k := Z.of_nat (length bits)) in *. pose proof (tval_range bits) as R. fold k in R. cbn [length tval] in *. rewrite Nat2Z.inj_succ in *. fold k in R1 |- *.
  assert (E : 2 ^ (31 - k) = 2 * 2 ^ (31 - Z.succ k)) by (rewrite <- Z.pow_succ_r by lia; f_equal; lia).
  pose proof (pow_split k ltac:(lia)) as P. set (h := 2 ^ (31 - Z.succ k)) in *. set (g := 2 ^ k) in *. rewrite E in *.
  set (u := (2 * (Z.b2z c * g + tval bits) + 1) * h) in *. assert (U : u = Z.b2z c * 2147483648 + (2 * tval bits + 1) * h) by (unfold u; nia).
  assert (Hl : 0 < (2 * tval bits + 1) * h < 2147483648) by nia. split; [|split].
  - rewrite s32_sign by lia. destruct c; cbn [Z.b2z negb] in *; case_cmp; lia.
  - apply s32_u32. rewrite (u32_twice _ u) by apply u32_s32. unfold u32. rewrite U. destruct c; cbn [Z.b2z]; zlia.
  - unfold s32, u32. rewrite Z.mod_small by lia. case_cmp; lia.
Qed.

(** A word that is loaded: its first bit is the sign, the others go to the register. *)
Lemma bm_load t : 0 <= t < 4294967296 -> exists c bits, tag_bits 32 t = c :: bits /\ length bits = 31%nat /\
  (0 <=? s32 t) = negb c /\ s32 (2 * s32 t + 1) = bm bits.
Proof.
  intros H. pose proof (tval_tag_bits 32 t) as E. change (2 ^ Z.of_nat 32) with 4294967296 in E. rewrite Z.mod_small in E by lia.
  destruct (tag_bits 32 t) as [|c bits] eqn:Et; [pose proof (length_tag_bits 32 t); now rewrite Et in *|]. assert (L : length bits = 31%nat) by (pose proof (length_tag_bits 32 t) as L; rewrite Et in L; now injection L).
  exists c, bits. split; [reflexivity|]. split; [exact L|]. cbn [tval] in E. pose proof (tval_range bits) as R. unfold bm. rewrite L in *. change (2 ^ Z.of_nat 31) with 2147483648 in *. change (2 ^ (31 - Z.of_nat 31)) with 1.
  split; [rewrite s32_sign by lia; destruct c; cbn [Z.b2z negb] in *; case_cmp; lia|]. apply s32_u32. unfold s32, u32. rewrite (Z.mod_small t) by lia.
  destruct c; cbn [Z.b2z] in *; case_cmp; zlia.
Qed.

(** ** Accesses *)

Lemma xget_in m lo hi a : lo <= a < hi -> xget m lo hi a = Some (m a).
Proof. intros H. unfold xget. now replace ((lo <=? a) && (a <? hi)) with true by (case_cmp; cbn; lia). Qed.

Lemma xget_inv m lo hi a b : xget m lo hi a = Some b -> lo <= a < hi /\ b = m a.
Proof. unfold xget. destruct (Z.leb_spec lo a), (Z.ltb_spec a hi); cbn [andb]; try discriminate. intros [= <-]. auto. Qed.

Lemma xput_in m lo hi a v : lo <= a < hi -> xput m lo hi a v = Some (store8 m a v).
Proof. intros H. unfold xput. now replace ((lo <=? a) && (a <? hi)) with true by (case_cmp; cbn; lia). Qed.

Lemma xget16_in m lo hi a : lo <= a -> a + 2 <= hi -> xget16 m lo hi a = Some (load16 m a).
Proof. intros H1 H2. unfold xget16. now replace ((lo <=? a) && (a + 2 <=? hi)) with true by (case_cmp; cbn; lia). Qed.

Lemma xget32_in m lo hi a : lo <= a -> a + 4 <= hi -> xget32 m lo hi a = Some (load32 m a).
Proof. intros H1 H2. unfold xget32. now replace ((lo <=? a) && (a + 4 <=? hi)) with true by (case_cmp; cbn; lia). Qed.

Lemma xput32_in m lo hi a v : lo <= a -> a + 4 <= hi -> xput32 m lo hi a v = Some (store32 m a v).
Proof. intros H1 H2. unfold xput32. now replace ((lo <=? a) && (a + 4 <=? hi)) with true by (case_cmp; cbn; lia). Qed.

(** A copy of [n] bytes inside the region, from a smaller address: the bytes
    before the copy stay, and each new byte is the one at its distance. *)
Definition copied (out out' : mem) (dst src n : Z) : Prop :=
  (forall x, x < dst \/ dst + n <= x -> out' x = out x) /\ (forall i, 0 <= i < n -> out' (dst + i) = out' (src + i) mod 256).

Lemma copied_zero out dst src : copied out out dst src 0.
Proof. split; intros; auto; lia. Qed.

Lemma copied_trans o1 o2 o3 dst src n k : 0 <= n -> 0 <= k -> src < dst -> copied o1 o2 dst src n -> copied o2 o3 (dst + n) (src + n) k -> copied o1 o3 dst src (n + k).
Proof.
  intros Hn Hk Hs (F1 & C1) (F2 & C2). split; [intros x Hx; rewrite F2, F1 by lia; reflexivity|]. intros i Hi. destruct (Z.lt_ge_cases i n) as [L|L].
  - rewrite !F2 by lia. now apply C1.
  - specialize (C2 (i - n) ltac:(lia)). now replace (dst + n + (i - n)) with (dst + i) in C2 by lia; replace (src + n + (i - n)) with (src + i) in C2 by lia.
Qed.

Lemma copy_bytes_spec n : forall lo hi out dst src, lo <= src < dst -> dst + Z.of_nat n <= hi ->
  exists out', copy_bytes n lo hi out dst src = Some out' /\ copied out out' dst src (Z.of_nat n).
Proof.
  induction n as [|n IH]; intros lo hi out dst src Hs Hd; cbn [copy_bytes]; [eexists; split; [reflexivity|apply copied_zero]|].
  rewrite xget_in, xput_in by lia. destruct (IH lo hi (store8 out dst (out src)) (dst + 1) (src + 1)) as (out' & E & C); [lia|lia|]. exists out'. split; [exact E|].
  replace (Z.of_nat (S n)) with (1 + Z.of_nat n) by lia. apply (copied_trans _ (store8 out dst (out src))); try lia; auto. split; intros.
  - rewrite store8_at. replace (x =? dst) with false by lia. reflexivity.
  - replace i with 0 by lia. rewrite !Z.add_0_r, !store8_at, Z.eqb_refl. now replace (src =? dst) with false by lia.
Qed.

Lemma copy_block_slow_spec fuel : forall lo hi out dst src len, lo <= src < dst -> 0 < len -> dst + len <= hi -> (Z.to_nat len < fuel)%nat ->
  exists out', copy_block_slow fuel lo hi out dst src len = Some out' /\ copied out out' dst src len.
Proof.
  induction fuel as [|fuel IH]; intros lo hi out dst src len Hs Hl Hd Hf; [lia|]. cbn [copy_block_slow]. destruct (Z.ltb_spec 8 len).
  - destruct (copy_bytes_spec 8 lo hi out dst src) as (o1 & -> & C1); [lia|lia|]. destruct (IH lo hi o1 (dst + 8) (src + 8) (len - 8)) as (o2 & E & C2); try lia.
    exists o2. split; [exact E|]. replace len with (8 + (len - 8)) by lia. now apply (copied_trans _ o1); try lia.
  - destruct (Z.leb_spec len 0); [lia|]. destruct (copy_bytes_spec (Z.to_nat len) lo hi out dst src) as (o1 & E & C1); [lia|lia|]. exists o1. rewrite Z2Nat.id in C1 by lia. auto.
Qed.

(** ** The invariant *)

Section Safety.
Variables (comp : mem) (src_beg src_end : Z) (dst_beg dst_stop dst_end : Z).
Hypothesis Hcomp : mem_ok comp.

Definition the_src_careful : Z := src_end - RESERVE_SRC.
Definition the_dst_careful : Z := if RESERVE_DST <? dst_stop - dst_beg then dst_stop - RESERVE_DST else dst_beg.

Abbreviation dec_step := (dec_step comp src_beg src_end the_src_careful dst_beg dst_stop dst_end the_dst_careful).
Abbreviation do_decode := (do_decode comp src_beg src_end the_src_careful dst_beg dst_stop dst_end the_dst_careful).

Definition ptr_ok (p : option Z) : Prop := match p with Some q => src_beg <= q < src_end | None => True end.

(** In the fast phase the tags that are left limit what can be read and written
    before the bounds are tested again: at most six bytes read and eight written
    for each. *)
Definition fast_room (l : dlabel) (s : dregs) : Prop :=
  match l with
  | L_start => True
  | L_next => exists bits, (length bits <= 31)%nat /\ dg_bmask s = bm bits /\
      dg_src s + 6 * Z.of_nat (length bits) <= src_end /\ dg_dst s + 8 * Z.of_nat (length bits) <= dst_stop
  | L_copy_byte | L_pointer => exists bits, (length bits <= 31)%nat /\ dg_bmask s = bm bits /\
      dg_src s + 6 * (Z.of_nat (length bits) + 1) <= src_end /\ dg_dst s + 8 * (Z.of_nat (length bits) + 1) <= dst_stop
  end.

Definition dinv (careful : bool) (l : dlabel) (s : dregs) : Prop :=
  src_beg <= dg_src s <= src_end /\ dst_beg <= dg_dst s <= dst_stop /\ ptr_ok (dg_ptr s) /\ (careful = false -> fast_room l s).

(** What the rest of the run can still move. *)
Definition dmeasure (careful : bool) (l : dlabel) (s : dregs) : Z :=
  4 * (dst_stop - dg_dst s)
  + match l with L_next => 3 | L_start => if careful then 1 else 2 | L_copy_byte | L_pointer => 0 end.

(** The output changes only behind the position and inside its region. *)
Definition keeps_before (s s' : dregs) : Prop :=
  forall x, x < dg_dst s \/ dst_stop <= x -> dg_out s' x = dg_out s x.

Definition step_ok (careful : bool) (l : dlabel) (s : dregs) (r : dstep) : Prop :=
  match r with
  | Goto careful' l' s' => dinv careful' l' s' /\ dmeasure careful' l' s' < dmeasure careful l s /\ dg_dst s <= dg_dst s' /\ keeps_before s s'
  | RetOk _ s' => keeps_before s s' /\ dg_dst s' <= dst_stop /\ dg_src s' <= src_end
  | RetErr s' => keeps_before s s'
  end.

Lemma keeps_same s b d p q : keeps_before s (Dregs b d p q (dg_out s)).
Proof. intros x _. reflexivity. Qed.

Lemma copy_byte_ok careful s : dinv careful L_copy_byte s -> exists r, dec_step careful L_copy_byte s = Some r /\ step_ok careful L_copy_byte s r.
Proof.
  intros (S1 & D1 & P1 & F). unfold Xpress.dec_step, dec_copy_byte. destruct (careful && (dst_stop <=? dg_dst s)) eqn:E1.
  { eexists; split; [reflexivity|]. split; [intros x _; reflexivity|lia]. }
  destruct (careful && (src_end <=? dg_src s)) eqn:E2; [eexists; split; [reflexivity|]; intros x _; reflexivity|].
  assert (R : dg_dst s < dst_stop /\ dg_src s < src_end /\ (careful = false -> exists bits, (length bits <= 31)%nat /\ dg_bmask s = bm bits /\
      dg_src s + 6 * (Z.of_nat (length bits) + 1) <= src_end /\ dg_dst s + 8 * (Z.of_nat (length bits) + 1) <= dst_stop)).
  { destruct careful; cbn [andb] in *; [split; [lia|]; split; [lia|discriminate]|]. destruct (F eq_refl) as (bits & L & B & H1 & H2). split; [lia|]. split; [lia|]. intros _. now exists bits. }
  destruct R as (R1 & R2 & R3). rewrite xget_in, xput_in by lia. eexists; split; [reflexivity|]. unfold step_ok, dinv, dmeasure, keeps_before. cbn [dg_src dg_dst dg_ptr dg_out dg_bmask fast_room].
  split; [split; [lia|]; split; [lia|]; split; [exact P1|]|]; [intros Ec; destruct (R3 Ec) as (bits & L & B & H1 & H2); exists bits; split; [exact L|]; split; [exact B|]; lia|].
  split; [lia|]. split; [lia|]. intros x Hx. rewrite store8_at. now replace (x =? dg_dst s) with false by lia.
Qed.

(** The state after the shift of the next tag. *)
Definition shifted (s : dregs) : dregs := Dregs (s32 (2 * dg_bmask s)) (dg_dst s) (dg_src s) (dg_ptr s) (dg_out s).

Lemma fast_next s : fast_room L_next s ->
  (exists c bits, (length bits < 31)%nat /\ dg_bmask s = bm (c :: bits) /\ (0 <=? dg_bmask s) = negb c /\ s32 (2 * dg_bmask s) = bm bits /\ bm bits <> 0 /\
     dg_src s + 6 * (Z.of_nat (length bits) + 1) <= src_end /\ dg_dst s + 8 * (Z.of_nat (length bits) + 1) <= dst_stop)
  \/ (0 <=? dg_bmask s) = false /\ s32 (2 * dg_bmask s) = 0.
Proof.
  intros (bits & L & B & H1 & H2). rewrite B. destruct bits as [|c bits]; [right; apply bm_nil|]. cbn [length] in *. destruct (bm_cons c bits ltac:(lia)) as (B1 & B2 & B3).
  left. exists c, bits. repeat split; auto; lia.
Qed.

Lemma next_literal_inv careful s : dinv careful L_next s -> (0 <=? dg_bmask s) = true -> dinv careful L_copy_byte (shifted s).
Proof.
  intros (S1 & D1 & P1 & F) Eb. split; [exact S1|]. split; [exact D1|]. split; [exact P1|]. intros Ec. destruct (fast_next s (F Ec)) as [(c & bits & L & _ & _ & E & _ & H1 & H2)|[Q _]]; [|congruence].
  exists bits. cbn [dg_bmask dg_src dg_dst shifted]. repeat split; auto; lia.
Qed.

Lemma next_ok careful s : dinv careful L_next s -> exists r, dec_step careful L_next s = Some r /\ step_ok careful L_next s r.
Proof.
  intros Hi. cbn [Xpress.dec_step]. unfold dec_next. fold (shifted s). destruct (0 <=? dg_bmask s) eqn:Eb.
  - destruct (copy_byte_ok careful (shifted s) (next_literal_inv careful s Hi Eb)) as (r & E & K). exists r. split; [exact E|]. unfold step_ok, dmeasure, keeps_before in *. cbn [dg_dst dg_out shifted] in K.
    destruct r as [c' l' t|eof t|t]; [|exact K|exact K]. destruct K as (K1 & K2 & K3). split; [exact K1|]. split; [lia|exact K3].
  - destruct Hi as (S1 & D1 & P1 & F). eexists; split; [reflexivity|]. unfold step_ok. split; [|split; [unfold dmeasure; destruct (_ =? 0), careful; cbn [dg_dst shifted]; lia|split; [cbn [dg_dst shifted]; lia|intros x _; reflexivity]]].
    split; [exact S1|]. split; [exact D1|]. split; [exact P1|]. intros Ec. cbn [dg_bmask dg_src dg_dst shifted]. destruct (fast_next s (F Ec)) as [(c & bits & L & _ & _ & E & N & H1 & H2)|[_ Q]].
    + rewrite E. replace (bm bits =? 0) with false by lia. exists bits. cbn [dg_bmask dg_src dg_dst shifted]. repeat split; auto; lia.
    + rewrite Q. exact I.
Qed.

Lemma start_ok careful s : dinv careful L_start s -> exists r, dec_step careful L_start s = Some r /\ step_ok careful L_start s r.
Proof.
  intros (S1 & D1 & P1 & F). cbn [Xpress.dec_step]. unfold dec_start. destruct (negb careful && _) eqn:E1.
  { destruct careful; [discriminate|]. eexists; split; [reflexivity|]. unfold step_ok, dmeasure. split; [|split; [lia|split; [lia|intros x _; reflexivity]]].
    split; [exact S1|]. split; [exact D1|]. split; [exact P1|discriminate]. }
  destruct (careful && _) eqn:E2; [eexists; split; [reflexivity|]; intros x _; reflexivity|]. unfold src_end_tag, sizeof_tag in *.
  assert (R : dg_src s + 4 <= src_end /\ (careful = false -> dg_src s + 4 + 6 * 32 <= src_end /\ dg_dst s + 8 * 32 <= dst_stop)).
  { destruct careful; cbn [negb andb orb] in *; [split; [lia|discriminate]|]. apply orb_false_iff in E1 as [A B].
    unfold the_src_careful, the_dst_careful, RESERVE_SRC, RESERVE_DST, sizeof_tag in *. apply Z.leb_gt in A, B. destruct (Z.ltb_spec ((8 * 8 + 2) * 4) (dst_stop - dst_beg)); [split; [lia|intros _; split; lia]|exfalso; lia]. }
  destruct R as (R1 & R2). rewrite xget32_in by lia. pose proof (load32_range comp Hcomp (dg_src s)) as Ht.
  destruct (bm_load _ Ht) as (c & bits & _ & L & B1 & B2). eexists; split; [reflexivity|]. rewrite B1. unfold step_ok, dmeasure. cbn [dg_dst]. split; [|split; [destruct c, careful; cbn [negb]; lia|split; [lia|intros x _; reflexivity]]].
  split; [cbn [dg_src]; lia|]. split; [exact D1|]. split; [exact P1|]. intros Ec. destruct (R2 Ec) as (H1 & H2).
  assert (Q : exists bits, (length bits <= 31)%nat /\ s32 (2 * s32 (load32 comp (dg_src s)) + 1) = bm bits /\ dg_src s + 4 + 6 * (Z.of_nat (length bits) + 1) <= src_end /\ dg_dst s + 8 * (Z.of_nat (length bits) + 1) <= dst_stop).
  { exists bits. rewrite L. split; [lia|]. split; [exact B2|]. lia. }
  destruct c; exact Q.
Qed.

Lemma byte_land b : 0 <= b < 256 -> 0 <= Z.land b 15 < 16 /\ 0 <= Z.shiftr b 4 < 16.
Proof. intros H. change 15 with (Z.ones 4). rewrite Z.land_ones, Z.shiftr_div_pow2 by lia. change (2 ^ 4) with 16. split; zlia. Qed.

Lemma dec_length_ok careful len src ptr : 0 <= len <= 7 -> src_beg <= src <= src_end -> ptr_ok ptr -> (careful = false -> src + 4 <= src_end) ->
  exists r, dec_length comp src_beg src_end careful len src ptr = Some r /\
    match r with Some (len', src', ptr') => 3 <= len' /\ src <= src' <= src_end /\ src' <= src + 4 /\ ptr_ok ptr' | None => True end.
Proof.
  intros Hl Hs Hp Hc. unfold dec_length. change DIRECT2_MAX_LEN with 7. change MIN_MATCH with 3. destruct (len =? 7) eqn:E7; cbn [negb].
  2:{ eexists; split; [reflexivity|]. cbv beta iota. repeat split; auto; lia. }
  assert (N : exists n, (match ptr with
      | None => if careful && (src_end <=? src) then Some None else let? b := xget comp src_beg src_end src in Some (Some (Z.land b 15, src + 1, Some src))
      | Some p => let? b := xget comp src_beg src_end p in Some (Some (Z.shiftr b 4, src, None)) end) = Some n /\
      match n with Some (l, s, p) => 0 <= l < 16 /\ src <= s <= src_end /\ s <= src + 1 /\ ptr_ok p | None => True end).
  { destruct ptr as [p|].
    - rewrite xget_in by exact Hp. eexists; split; [reflexivity|]. cbv beta iota. pose proof (byte_land _ (Hcomp p)). repeat split; try lia.
    - destruct (careful && (src_end <=? src)) eqn:E; [eexists; split; [reflexivity|]; exact I|]. assert (src < src_end) by (destruct careful; cbn [andb] in E; [lia|specialize (Hc eq_refl); lia]).
      rewrite xget_in by lia. eexists; split; [reflexivity|]. cbv beta iota. pose proof (byte_land _ (Hcomp src)). cbn [ptr_ok]. repeat split; lia. }
  destruct N as (n & -> & Hn). destruct n as [[[l s] p]|]; [|eexists; split; [reflexivity|]; exact I]. destruct Hn as (Hl2 & Hs2 & Hs3 & Hp2).
  destruct (l =? 15); cbn [negb]; [|eexists; split; [reflexivity|]; cbv beta iota; repeat split; auto; lia].
  destruct (careful && (src_end <=? s)) eqn:E1; [eexists; split; [reflexivity|]; exact I|]. assert (s < src_end) by (destruct careful; cbn [andb] in E1; [lia|specialize (Hc eq_refl); lia]).
  rewrite xget_in by lia. pose proof (Hcomp s) as Hb. destruct (comp s =? 255); cbn [negb]; [|eexists; split; [reflexivity|]; cbv beta iota; repeat split; auto; lia].
  destruct (careful && (src_end_1 src_end <=? s + 1)) eqn:E2; [eexists; split; [reflexivity|]; exact I|]. unfold src_end_1 in E2. assert (s + 3 <= src_end) by (destruct careful; cbn [andb] in E2; [lia|specialize (Hc eq_refl); lia]).
  rewrite xget16_in by lia. destruct (Z.ltb_spec (load16 comp (s + 1)) (255 + 15 + 7)); [eexists; split; [reflexivity|]; exact I|].
  eexists; split; [reflexivity|]. cbv beta iota. repeat split; auto; lia.
Qed.

Lemma pointer_word w : 0 <= w < 65536 -> 0 <= Z.land w DIRECT2_MAX_LEN <= 7 /\ Z.lnot (Z.shiftr w DIRECT2_LEN_LOG) = - (w / 8) - 1.
Proof.
  intros H. change DIRECT2_MAX_LEN with (Z.ones 3). change DIRECT2_LEN_LOG with 3. rewrite Z.land_ones, Z.shiftr_div_pow2 by lia. change (2 ^ 3) with 8. split; [zlia|]. unfold Z.lnot. lia.
Qed.

Lemma pointer_ok careful s : dinv careful L_pointer s -> exists r, dec_step careful L_pointer s = Some r /\ step_ok careful L_pointer s r.
Proof.
  intros (S1 & D1 & P1 & F). cbn [Xpress.dec_step]. unfold dec_pointer. destruct (careful && (dst_stop <=? dg_dst s)) eqn:E1.
  { eexists; split; [reflexivity|]. split; [intros x _; reflexivity|lia]. }
  destruct (careful && (src_end_1 src_end <=? dg_src s)) eqn:E2; [eexists; split; [reflexivity|]; intros x _; reflexivity|]. unfold src_end_1 in E2.
  assert (R : dg_dst s < dst_stop /\ dg_src s + 2 <= src_end /\ (careful = false -> exists bits, (length bits <= 31)%nat /\ dg_bmask s = bm bits /\
      dg_src s + 6 * (Z.of_nat (length bits) + 1) <= src_end /\ dg_dst s + 8 * (Z.of_nat (length bits) + 1) <= dst_stop)).
  { destruct careful; cbn [andb] in *; [split; [lia|]; split; [lia|discriminate]|]. destruct (F eq_refl) as (bits & L & B & H1 & H2). split; [lia|]. split; [lia|]. intros _. now exists bits. }
  destruct R as (R1 & R2 & R3). rewrite xget16_in by lia. pose proof (load16_range comp Hcomp (dg_src s)) as Hw. destruct (pointer_word _ Hw) as (Hlen & ->).
  set (w := load16 comp (dg_src s)) in *. set (len := Z.land w DIRECT2_MAX_LEN) in *. set (from := dg_dst s + (- (w / 8) - 1)). assert (Hfrom : from < dg_dst s) by (unfold from; zlia). clearbody from len w.
  destruct (negb careful && (len <=? 8 - MIN_MATCH)) eqn:E3.
  - destruct careful; [discriminate|]. destruct (R3 eq_refl) as (bits & L & B & H1 & H2). unfold MIN_MATCH in *. cbn [negb andb] in E3. destruct (Z.ltb_spec from dst_beg); [eexists; split; [reflexivity|]; intros x _; reflexivity|].
    destruct (copy_bytes_spec 8 dst_beg dst_stop (dg_out s) (dg_dst s) from) as (out & -> & C & _); [lia|lia|]. eexists; split; [reflexivity|]. unfold step_ok, dinv, dmeasure, keeps_before. cbn [dg_dst dg_src dg_ptr dg_out fast_room dg_bmask].
    split; [split; [lia|]; split; [lia|]; split; [exact P1|]; intros _; exists bits; repeat split; auto; lia|]. split; [lia|]. split; [lia|]. intros x Hx. apply C. lia.
  - destruct (dec_length_ok careful len (dg_src s + 2) (dg_ptr s)) as (r & -> & Hr); [lia|lia|exact P1|intros Ec; destruct (R3 Ec) as (bits & L & B & H1 & H2); lia|].
    destruct r as [[[len' src'] ptr']|]; [|eexists; split; [reflexivity|]; intros x _; reflexivity]. destruct Hr as (Hl & Hs & Hs2 & Hp). cbv zeta.
    destruct ((careful || (the_dst_careful <=? dg_dst s + len')) && (dst_stop <? dg_dst s + len')) eqn:E4.
    + destruct (Z.ltb_spec from dst_beg); [eexists; split; [reflexivity|]; intros x _; reflexivity|].
      destruct (copy_block_slow_spec (S (Z.to_nat (dst_stop - dg_dst s))) dst_beg dst_stop (dg_out s) (dg_dst s) from (dst_stop - dg_dst s)) as (out & -> & C & _); try lia.
      eexists; split; [reflexivity|]. unfold step_ok, keeps_before. cbn [dg_dst dg_src dg_out]. split; [intros x Hx; apply C; lia|lia].
    + assert (Hroom : dg_dst s + len' <= dst_stop /\ (careful || (the_dst_careful <=? dg_dst s + len') = false -> dg_dst s + len' + 8 * 31 <= dst_stop)).
      { apply andb_false_iff in E4 as [E4|E4].
        - rewrite E4. apply orb_false_iff in E4 as [_ E4]. unfold the_dst_careful, RESERVE_DST, sizeof_tag in E4. destruct (Z.ltb_spec ((8 * 8 + 2) * 4) (dst_stop - dst_beg)); [split; [lia|intros _; lia]|exfalso; lia].
        - split; [lia|]. intros E5. apply orb_false_iff in E5 as [_ E5]. unfold the_dst_careful, RESERVE_DST, sizeof_tag in E5. destruct (Z.ltb_spec ((8 * 8 + 2) * 4) (dst_stop - dst_beg)); [lia|exfalso; lia]. }
      destruct Hroom as (Hr1 & Hr2). destruct (Z.ltb_spec from dst_beg); [eexists; split; [reflexivity|]; intros x _; reflexivity|].
      destruct (copy_block_slow_spec (S (Z.to_nat len')) dst_beg dst_stop (dg_out s) (dg_dst s) from len') as (out & -> & C & _); try lia.
      eexists; split; [reflexivity|]. unfold step_ok, dinv, dmeasure, keeps_before. cbn [dg_dst dg_src dg_ptr dg_out fast_room dg_bmask].
      split; [|split; [lia|split; [lia|intros x Hx; apply C; lia]]]. split; [lia|]. split; [lia|]. split; [exact Hp|]. intros Ec. specialize (Hr2 Ec). apply orb_false_iff in Ec as [Ec _].
      destruct (R3 Ec) as (bits & L & B & H1 & H2). exists bits. repeat split; auto; lia.
Qed.

Lemma dec_step_ok careful l s : dinv careful l s -> exists r, dec_step careful l s = Some r /\ step_ok careful l s r.
Proof. destruct l; [apply copy_byte_ok|apply next_ok|apply start_ok|apply pointer_ok]. Qed.

(** Decoding ends, keeps the output outside its region, and on success has
    passed neither end. *)
Lemma do_decode_ok fuel : forall careful l s, dinv careful l s -> dmeasure careful l s < Z.of_nat fuel ->
  exists ok eof s', do_decode fuel careful l s = Some (ok, eof, s') /\
    (forall x, x < dst_beg \/ dst_stop <= x -> dg_out s' x = dg_out s x) /\ (ok = true -> dg_dst s' <= dst_stop /\ dg_src s' <= src_end).
Proof.
  induction fuel as [|fuel IH]; intros careful l s Hi Hm.
  { exfalso. destruct Hi as (_ & D & _). unfold dmeasure in Hm. destruct l, careful; lia. }
  cbn [Xpress.do_decode]. destruct (dec_step_ok careful l s Hi) as (r & -> & Hr). destruct Hi as (_ & D & _). destruct r as [c l' s'|eof s'|s'].
  - destruct Hr as (Hi' & Hm' & Hd & K). destruct (IH c l' s' Hi' ltac:(lia)) as (ok & eof & t & E & K' & Hok). exists ok, eof, t. split; [exact E|]. split; [|exact Hok]. intros x Hx. rewrite K' by exact Hx. apply K. lia.
  - destruct Hr as (K & H1 & H2). exists true, eof, s'. split; [reflexivity|]. split; [intros x Hx; apply K; lia|]. auto.
  - exists false, false, s'. split; [reflexivity|]. split; [intros x Hx; apply Hr; lia|discriminate].
Qed.
End Safety.

(** ** The whole decoder *)

Definition decoded_size (orig_size decode_size : Z) : Z := if orig_size <? decode_size then orig_size else decode_size.

Lemma XpressDecode_safe out orig orig_size decode_size comp cbeg comp_size : mem_ok comp ->
  exists n out', XpressDecode out orig orig_size decode_size comp cbeg comp_size = Some (n, out') /\
    (n = -1 \/ n = decoded_size orig_size decode_size) /\
    (forall x, x < orig \/ orig + decoded_size orig_size decode_size <= x -> out' x = out x).
Proof.
  intros Hc. unfold XpressDecode. fold (decoded_size orig_size decode_size). cbv zeta. set (n := decoded_size orig_size decode_size).
  destruct ((comp_size =? orig_size) || (n =? 0)) eqn:E1; [exists n, out; auto|]. destruct (_ || (n <? 0)) eqn:E2; [exists (-1), out; auto|].
  apply orb_false_iff in E1 as [_ E1]. apply orb_false_iff in E2 as [E2 E3]. repeat (apply orb_false_iff in E2 as [E2 ?]). unfold MIN_SIZE in *.
  destruct (do_decode_ok comp cbeg (cbeg + comp_size) orig (orig + n) (orig + orig_size) Hc (4 * Z.to_nat n + 8) false L_start (Dregs 0 orig cbeg None out)) as (ok & eof & s & E & K & _).
  - split; [cbn [dg_src]; lia|]. split; [cbn [dg_dst]; lia|]. split; [exact I|]. intros _. exact I.
  - unfold dmeasure. cbn [dg_dst]. lia.
  - unfold the_src_careful, the_dst_careful in E. replace (orig + n - orig) with n in E by lia. rewrite E. destruct (_ || _); eexists _, _; (split; [reflexivity|]); auto.
Qed.

(** ** What the decoder reads *)

Section Ext.
Variables (comp comp' : mem) (lo hi : Z).
Hypothesis H : mem_eq_on lo hi comp comp'.

Lemma xget_ext a : xget comp' lo hi a = xget comp lo hi a.
Proof. unfold xget. destruct (Z.leb_spec lo a), (Z.ltb_spec a hi); cbn [andb]; try reflexivity. now rewrite H by lia. Qed.

Lemma xget16_ext a : xget16 comp' lo hi a = xget16 comp lo hi a.
Proof. unfold xget16. destruct (Z.leb_spec lo a), (Z.leb_spec (a + 2) hi); cbn [andb]; try reflexivity. f_equal. symmetry. apply load16_ext. intros x Hx. apply H. lia. Qed.

Lemma xget32_ext a : xget32 comp' lo hi a = xget32 comp lo hi a.
Proof. unfold xget32. destruct (Z.leb_spec lo a), (Z.leb_spec (a + 4) hi); cbn [andb]; try reflexivity. f_equal. symmetry. apply load32_ext. intros x Hx. apply H. lia. Qed.

Lemma dec_length_ext careful len src ptr : dec_length comp' lo hi careful len src ptr = dec_length comp lo hi careful len src ptr.
Proof.
  unfold dec_length. destruct (negb _); [reflexivity|]. replace (match ptr with None => if careful && (hi <=? src) then Some None else let? b := xget comp' lo hi src in Some (Some (Z.land b 15, src + 1, Some src)) | Some p => let? b := xget comp' lo hi p in Some (Some (Z.shiftr b 4, src, None)) end)
    with (match ptr with None => if careful && (hi <=? src) then Some None else let? b := xget comp lo hi src in Some (Some (Z.land b 15, src + 1, Some src)) | Some p => let? b := xget comp lo hi p in Some (Some (Z.shiftr b 4, src, None)) end)
    by (destruct ptr; now rewrite xget_ext).
  destruct (match ptr with None => _ | Some _ => _ end) as [[[[l s] p]|]|]; [|reflexivity|reflexivity]. now rewrite xget_ext, xget16_ext.
Qed.

Lemma dec_step_ext sc db ds de dc careful l s : dec_step comp' lo hi sc db ds de dc careful l s = dec_step comp lo hi sc db ds de dc careful l s.
Proof.
  destruct l; cbn [dec_step]; unfold dec_next, dec_copy_byte, dec_start, dec_pointer; rewrite ?xget_ext, ?xget16_ext, ?xget32_ext; try reflexivity.
  destruct (careful && _); [reflexivity|]. destruct (careful && _); [reflexivity|]. destruct (xget16 comp lo hi (dg_src s)); [|reflexivity]. now rewrite dec_length_ext.
Qed.

Lemma do_decode_ext sc db ds de dc fuel : forall careful l s, do_decode comp' lo hi sc db ds de dc fuel careful l s = do_decode comp lo hi sc db ds de dc fuel careful l s.
Proof.
  induction fuel as [|fuel IH]; intros careful l s; [reflexivity|]. cbn [do_decode]. rewrite dec_step_ext. destruct (dec_step _ _ _ _ _ _ _ _ _ _ _) as [[c l' s'|eof s'|s']|]; try reflexivity. apply IH.
Qed.
End Ext.

Lemma XpressDecode_ext out orig orig_size decode_size comp comp' cbeg comp_size : mem_eq_on cbeg (cbeg + comp_size) comp comp' ->
  XpressDecode out orig orig_size decode_size comp' cbeg comp_size = XpressDecode out orig orig_size decode_size comp cbeg comp_size.
Proof. intros H. unfold XpressDecode. cbv zeta. now rewrite (do_decode_ext comp comp' cbeg (cbeg + comp_size) H). Qed.

(** * What the XPRESS decoder makes of a well-formed block

    A block is well formed for some data if its items, read one after another,
    stand for the bytes of the data.  The fast and the careful phase decode it,
    to the end or to any size before. *)

Section Coded.
(** The block and the data it stands for. *)
Variables (comp : mem) (src_beg src_end : Z) (data : Z -> Z) (size : Z).

(** The rest of a block: the address of the next byte, the position in the data,
    the tags that are left of the last word, and the byte with a free half. *)
Inductive coded : Z -> Z -> list bool -> option Z -> Prop :=
| coded_end src bits p : src_beg <= src <= src_end -> coded src size (true :: bits) p
| coded_tag src pos p : src_beg <= src -> src + 4 <= src_end ->
    coded (src + 4) pos (tag_bits 32 (load32 comp src)) p -> coded src pos [] p
| coded_lit src pos bits p : src_beg <= src < src_end -> 0 <= pos < size -> comp src = data pos ->
    coded (src + 1) (pos + 1) bits p -> coded src pos (false :: bits) p
| coded_ptr src pos bits p len src' p' : src_beg <= src -> src + 2 <= src_end ->
    (let w := load16 comp src in
     dec_length comp src_beg src_end true (Z.land w DIRECT2_MAX_LEN) (src + 2) p = Some (Some (len, src', p')) /\
     w / 8 + 1 <= pos /\ pos + len <= size /\
     (forall i, 0 <= i < len -> data (pos + i) = data (pos + i - (w / 8 + 1)))) ->
    coded src' (pos + len) bits p' -> coded src pos (true :: bits) p.

Variables (dst_beg n : Z).
Hypothesis Hcomp : mem_ok comp.
Hypothesis Hdata : forall i, 0 <= i < size -> 0 <= data i < 256.
Hypothesis Hn : 0 < n <= size.

Abbreviation dst_stop := (dst_beg + n).
Abbreviation dst_end := (dst_beg + size).
Abbreviation dec_step := (dec_step comp src_beg src_end (the_src_careful src_end) dst_beg dst_stop dst_end (the_dst_careful dst_beg dst_stop)).
Abbreviation do_decode := (do_decode comp src_beg src_end (the_src_careful src_end) dst_beg dst_stop dst_end (the_dst_careful dst_beg dst_stop)).
Abbreviation dinv := (dinv src_beg src_end dst_beg dst_stop).

(** Where the decoder is when [bits] are left, and what its register holds: the
    first bit has been looked at. *)
Definition item_label (bits : list bool) : dlabel := match bits with [] => L_start | c :: _ => if c then L_pointer else L_copy_byte end.
Definition item_mask (bits : list bool) (b : Z) : Prop := match bits with [] => True | _ :: bits => b = bm bits /\ (length bits <= 31)%nat end.

Definition holds (pos : Z) (s : dregs) : Prop := dg_dst s = dst_beg + pos /\ forall x, 0 <= x < pos -> dg_out s (dst_beg + x) = data x.

(** The run ends well, with the first [n] bytes of the data. *)
Definition decodes (careful : bool) (l : dlabel) (s : dregs) : Prop :=
  exists fuel eof s', do_decode fuel careful l s = Some (true, eof, s') /\ holds n s' /\ (n = size -> eof = true).

Lemma decodes_step careful l s careful' l' s' : dec_step careful l s = Some (Goto careful' l' s') -> decodes careful' l' s' -> decodes careful l s.
Proof. intros E (fuel & eof & t & R & H). exists (S fuel), eof, t. split; [|exact H]. cbn [Xpress.do_decode]. now rewrite E. Qed.

Lemma decodes_ok careful l s eof s' : dec_step careful l s = Some (RetOk eof s') -> holds n s' -> (n = size -> eof = true) -> decodes careful l s.
Proof. intros E H1 H2. exists 1%nat, eof, s'. split; [|auto]. cbn [Xpress.do_decode]. now rewrite E. Qed.

Lemma goto_inv careful l s careful' l' s' : dinv careful l s -> dec_step careful l s = Some (Goto careful' l' s') -> dinv careful' l' s'.
Proof. intros Hi E. destruct (dec_step_ok comp src_beg src_end dst_beg dst_stop dst_end Hcomp careful l s Hi) as (r & E' & K). rewrite E in E'. injection E' as <-. apply K. Qed.

(** From the test of the next tag to the next item. *)
Lemma decodes_next careful s bits : dg_bmask s = bm bits -> (length bits <= 31)%nat -> dinv careful L_next s ->
  (forall s', dg_src s' = dg_src s -> dg_dst s' = dg_dst s -> dg_ptr s' = dg_ptr s -> dg_out s' = dg_out s -> item_mask bits (dg_bmask s') ->
     dinv careful (item_label bits) s' -> decodes careful (item_label bits) s') ->
  decodes careful L_next s.
Proof.
  intros B L Hi Hk. specialize (Hk (shifted s) eq_refl eq_refl eq_refl eq_refl). destruct bits as [|c bits].
  - destruct bm_nil as (_ & E1 & E2). assert (E : dec_step careful L_next s = Some (Goto careful L_start (shifted s))) by (cbn [Xpress.dec_step]; unfold dec_next; rewrite B, E1; fold (shifted s); unfold shifted; rewrite B, E2; reflexivity).
    apply (decodes_step _ _ _ _ _ _ E), Hk; [exact I|]. exact (goto_inv _ _ _ _ _ _ Hi E).
  - cbn [length] in L. destruct (bm_cons c bits ltac:(lia)) as (E1 & E2 & E3). rewrite <- B in E1, E2.
    assert (M : item_mask (c :: bits) (dg_bmask (shifted s))) by (split; [exact E2|lia]). specialize (Hk M). destruct c; cbn [item_label negb] in *.
    + assert (E : dec_step careful L_next s = Some (Goto careful L_pointer (shifted s))).
      { cbn [Xpress.dec_step]. unfold dec_next. rewrite E1. fold (shifted s). cbn [dg_bmask shifted]. rewrite E2. now replace (bm bits =? 0) with false by lia. }
      apply (decodes_step _ _ _ _ _ _ E), Hk. exact (goto_inv _ _ _ _ _ _ Hi E).
    + destruct (Hk (next_literal_inv _ _ _ _ _ _ Hi E1)) as (fuel & eof & t & R & H). destruct fuel as [|fuel]; [discriminate|]. exists (S fuel), eof, t. split; [|exact H].
      rewrite <- R. cbn [Xpress.do_decode Xpress.dec_step]. unfold dec_next. rewrite E1. reflexivity.
Qed.

Lemma data_mod i : 0 <= i < size -> data i mod 256 = data i.
Proof. intros H. apply Z.mod_small. now apply Hdata. Qed.

(** A copy of bytes that repeat at a distance extends what the output holds. *)
Lemma holds_copied pos out out' off len : (forall x, 0 <= x < pos -> out (dst_beg + x) = data x) -> 1 <= off <= pos -> 0 <= pos -> pos + len <= size ->
  (forall i, 0 <= i < len -> data (pos + i) = data (pos + i - off)) ->
  (forall x, x < dst_beg + pos -> out' x = out x) -> (forall i, 0 <= i < len -> out' (dst_beg + pos + i) = out' (dst_beg + pos - off + i) mod 256) ->
  forall m x, 0 <= x < pos + m -> m <= len -> out' (dst_beg + x) = data x.
Proof.
  intros Ho Hoff Hp Hs Hd F C k. assert (Old : forall x, 0 <= x < pos -> out' (dst_beg + x) = data x) by (intros x Hx; rewrite F by lia; now apply Ho).
  assert (New : forall m : nat, forall i, 0 <= i < len -> i <= Z.of_nat m -> out' (dst_beg + pos + i) = data (pos + i)).
  { induction m as [m IH] using (well_founded_induction lt_wf). intros i Hi Hm. rewrite C by exact Hi. rewrite Hd by lia. destruct (Z.lt_ge_cases (pos + i - off) pos) as [L|L].
    - replace (dst_beg + pos - off + i) with (dst_beg + (pos + i - off)) by lia. rewrite Old by lia. apply data_mod. lia.
    - replace (dst_beg + pos - off + i) with (dst_beg + pos + (i - off)) by lia. rewrite (IH (Z.to_nat (i - off))) by lia. replace (pos + (i - off)) with (pos + i - off) by lia. apply data_mod. lia. }
  intros x Hx Hk. destruct (Z.lt_ge_cases x pos); [now apply Old|]. replace (dst_beg + x) with (dst_beg + pos + (x - pos)) by lia. rewrite (New (Z.to_nat (x - pos))) by lia. f_equal. lia.
Qed.
Lemma dec_length_fast careful len src p r : dec_length comp src_beg src_end true len src p = Some (Some r) -> dec_length comp src_beg src_end careful len src p = Some (Some r).
Proof.
  destruct careful; [auto|]. unfold dec_length. destruct (negb (len =? _)); [auto|]. destruct p as [q|]; cbn [andb].
  - destruct (xget comp src_beg src_end q) as [b|]; [|discriminate]. destruct (negb _); [auto|]. destruct (src_end <=? src); [discriminate|]. destruct (xget comp src_beg src_end src) as [c|]; [|discriminate].
    destruct (negb _); [auto|]. now destruct (src_end_1 src_end <=? src + 1).
  - destruct (src_end <=? src); [discriminate|]. destruct (xget comp src_beg src_end src) as [b|]; [|discriminate]. destruct (negb _); [auto|]. destruct (src_end <=? src + 1); [discriminate|].
    destruct (xget comp src_beg src_end (src + 1)) as [c|]; [|discriminate]. destruct (negb _); [auto|]. now destruct (src_end_1 src_end <=? src + 1 + 1).
Qed.

Lemma dec_length_pos careful len src p len' src' p' : 0 <= len -> ptr_ok src_beg src_end p -> dec_length comp src_beg src_end careful len src p = Some (Some (len', src', p')) -> 3 <= len'.
Proof.
  intros Hl Hp. unfold dec_length. change DIRECT2_MAX_LEN with 7. change MIN_MATCH with 3. destruct (negb (len =? 7)); [intros [= <- _ _]; lia|].
  assert (N : forall n, (match p with None => if careful && (src_end <=? src) then Some None else let? b := xget comp src_beg src_end src in Some (Some (Z.land b 15, src + 1, Some src))
      | Some p => let? b := xget comp src_beg src_end p in Some (Some (Z.shiftr b 4, src, None)) end) = Some (Some n) -> 0 <= fst (fst n)).
  { intros [[l s] q]. destruct p as [q'|].
    - destruct (xget comp src_beg src_end q') as [b|] eqn:E; [|discriminate]. apply xget_inv in E as [_ ->]. intros [= <- _ _]. apply (byte_land _ (Hcomp q')).
    - destruct (careful && _); [discriminate|]. destruct (xget comp src_beg src_end src) as [b|] eqn:E; [|discriminate]. apply xget_inv in E as [_ ->]. intros [= <- _ _]. apply (byte_land _ (Hcomp src)). }
  destruct (match p with None => _ | Some _ => _ end) as [[[[l s] q]|]|]; try discriminate. specialize (N _ eq_refl). cbn [fst] in N.
  destruct (negb (l =? 15)); [intros [= <- _ _]; lia|]. destruct (careful && _); [discriminate|]. destruct (xget comp src_beg src_end s) as [b|] eqn:E; [|discriminate]. apply xget_inv in E as [_ ->]. pose proof (Hcomp s).
  destruct (negb (comp s =? 255)); [intros [= <- _ _]; lia|]. destruct (careful && _); [discriminate|]. destruct (xget16 comp src_beg src_end (s + 1)) as [w|]; [|discriminate]. destruct (Z.ltb_spec w (255 + 15 + 7)); [discriminate|]. intros [= <- _ _]. lia.
Qed.

(** ** A well-formed block is decoded *)

Lemma item_lit src pos bits p careful s : 0 <= pos < size -> src_beg <= src < src_end -> comp src = data pos -> pos <= n ->
  dg_src s = src -> dg_ptr s = p -> dg_bmask s = bm bits -> (length bits <= 31)%nat -> holds pos s -> dinv careful L_copy_byte s ->
  (forall careful s, pos + 1 <= n -> dg_src s = src + 1 -> dg_ptr s = p -> item_mask bits (dg_bmask s) -> holds (pos + 1) s -> dinv careful (item_label bits) s -> decodes careful (item_label bits) s) ->
  decodes careful L_copy_byte s.
Proof.
  intros Hpos Hsrc Hb Hle Es Ep Em L (Hd & Ho) Hi Hk. destruct (careful && (dst_stop <=? dg_dst s)) eqn:E1.
  - apply andb_prop in E1 as [-> E1]. assert (pos = n) by lia. subst pos. apply (decodes_ok _ _ _ false s); [|now split|lia]. cbn [Xpress.dec_step]. unfold dec_copy_byte. cbn [andb]. now rewrite E1.
  - assert (Hlt : pos < n). { destruct careful; cbn [andb] in E1; [lia|]. destruct Hi as (_ & _ & _ & F). destruct (F eq_refl) as (b & _ & _ & _ & F2). lia. }
    set (s1 := Dregs (dg_bmask s) (dg_dst s + 1) (src + 1) p (store8 (dg_out s) (dg_dst s) (comp src))).
    assert (E : dec_step careful L_copy_byte s = Some (Goto careful L_next s1)).
    { cbn [Xpress.dec_step]. unfold dec_copy_byte. rewrite E1, Es, Ep. replace (careful && (src_end <=? src)) with false by (destruct careful; cbn [andb]; lia). now rewrite xget_in, xput_in by lia. }
    apply (decodes_step _ _ _ _ _ _ E). apply (decodes_next _ _ bits); [exact Em|exact L|exact (goto_inv _ _ _ _ _ _ Hi E)|]. intros s' Q1 Q2 Q3 Q4 Hm Hi'. apply Hk; auto; [lia|].
    split; [rewrite Q2; cbn [dg_dst s1]; lia|]. intros x Hx. rewrite Q4. cbn [dg_out s1]. rewrite store8_at. destruct (Z.eqb_spec (dst_beg + x) (dg_dst s)); [|apply Ho; lia].
    rewrite Hb. rewrite data_mod by lia. f_equal. lia.
Qed.

Lemma item_ptr src pos bits p len src' p' careful s : src_beg <= src -> src + 2 <= src_end -> 0 <= pos ->
  (let w := load16 comp src in
   dec_length comp src_beg src_end true (Z.land w DIRECT2_MAX_LEN) (src + 2) p = Some (Some (len, src', p')) /\
   w / 8 + 1 <= pos /\ pos + len <= size /\ (forall i, 0 <= i < len -> data (pos + i) = data (pos + i - (w / 8 + 1)))) ->
  pos <= n -> dg_src s = src -> dg_ptr s = p -> dg_bmask s = bm bits -> (length bits <= 31)%nat -> holds pos s -> dinv careful L_pointer s ->
  (forall careful s, pos + len <= n -> dg_src s = src' -> dg_ptr s = p' -> item_mask bits (dg_bmask s) -> holds (pos + len) s -> dinv careful (item_label bits) s -> decodes careful (item_label bits) s) ->
  decodes careful L_pointer s.
Proof.
  cbv zeta. intros Hsrc Hsrc2 Hpos (El & Hoff & Hsize & Hd) Hle Es Ep Em L Hh Hi Hk. pose proof Hh as (Hdst & Ho). pose proof Hi as (_ & _ & P & F). rewrite Ep in P.
  pose proof (load16_range comp Hcomp src) as Hw. destruct (pointer_word _ Hw) as (Hlen & Eo). pose proof (dec_length_pos _ _ _ _ _ _ _ ltac:(apply Hlen) P El) as Hl3.
  destruct (careful && (dst_stop <=? dg_dst s)) eqn:E1.
  { apply andb_prop in E1 as [-> E1]. assert (pos = n) by lia. subst pos. apply (decodes_ok _ _ _ (dg_dst s =? dst_end) s); [|exact Hh|lia]. cbn [Xpress.dec_step]. unfold dec_pointer. cbn [andb]. now rewrite E1. }
  assert (Hlt : pos < n). { destruct careful; cbn [andb] in E1; [lia|]. destruct (F eq_refl) as (b & _ & _ & _ & F2). lia. }
  set (w := load16 comp src) in *. set (off := w / 8 + 1) in *. assert (Ho1 : 1 <= off) by (unfold off; zlia). set (l3 := Z.land w DIRECT2_MAX_LEN) in *.
  assert (Step : dec_step careful L_pointer s = (let from := dg_dst s - off in
      if negb careful && (l3 <=? 8 - MIN_MATCH) then
        if from <? dst_beg then Some (RetErr s) else let? out := copy_bytes 8 dst_beg dst_stop (dg_out s) (dg_dst s) from in
        Some (Goto careful L_next (Dregs (dg_bmask s) (dg_dst s + (l3 + MIN_MATCH)) (src + 2) p out))
      else
        let careful := careful || (the_dst_careful dst_beg dst_stop <=? dg_dst s + len) in
        if careful && (dst_stop <? dg_dst s + len) then
          if from <? dst_beg then Some (RetErr s) else let len := dst_stop - dg_dst s in
          let? out := copy_block_slow (S (Z.to_nat len)) dst_beg dst_stop (dg_out s) (dg_dst s) from len in Some (RetOk false (Dregs (dg_bmask s) (dg_dst s + len) src' p' out))
        else if from <? dst_beg then Some (RetErr s) else
          let? out := copy_block_slow (S (Z.to_nat len)) dst_beg dst_stop (dg_out s) (dg_dst s) from len in Some (Goto careful L_next (Dregs (dg_bmask s) (dg_dst s + len) src' p' out)))).
  { cbn [Xpress.dec_step]. unfold dec_pointer. rewrite E1, Es, Ep. unfold src_end_1. replace (careful && (src_end - 1 <=? src)) with false by (destruct careful; cbn [andb]; lia).
    rewrite xget16_in by lia. fold w l3. rewrite Eo. replace (dg_dst s + (- (w / 8) - 1)) with (dg_dst s - off) by (unfold off; lia). now rewrite (dec_length_fast _ _ _ _ _ El). }
  cbv zeta in Step. replace (dg_dst s - off <? dst_beg) with false in Step by lia.
  assert (Go : forall out m, (forall x, x < dst_beg + pos -> out x = dg_out s x) -> (forall i, 0 <= i < m -> out (dst_beg + pos + i) = out (dst_beg + pos - off + i) mod 256) -> 0 <= m <= len ->
    forall x, 0 <= x < pos + m -> out (dst_beg + x) = data x).
  { intros out m C1 C2 Hm x Hx. apply (holds_copied pos (dg_out s) out off m Ho) with (m := m); auto; try lia. intros i Hi'. apply Hd. lia. }
  assert (Next : forall careful' out, dec_step careful L_pointer s = Some (Goto careful' L_next (Dregs (dg_bmask s) (dg_dst s + len) src' p' out)) -> pos + len <= n ->
    (forall x, 0 <= x < pos + len -> out (dst_beg + x) = data x) -> decodes careful L_pointer s).
  { intros careful' out E Hn2 Hout. apply (decodes_step _ _ _ _ _ _ E). apply (decodes_next _ _ bits); [exact Em|exact L|exact (goto_inv _ _ _ _ _ _ Hi E)|].
    intros s' Q1 Q2 Q3 Q4 Hm Hi'. apply Hk; auto. split; [rewrite Q2; cbn [dg_dst]; lia|]. intros x Hx. rewrite Q4. now apply Hout. }
  rewrite Hdst in *. destruct (negb careful && (l3 <=? 8 - MIN_MATCH)) eqn:E3.
  - destruct careful; [discriminate|]. cbn [negb andb] in E3. unfold MIN_MATCH in *. destruct (F eq_refl) as (b & _ & _ & _ & F2). rewrite Hdst in F2.
    assert (Q : len = l3 + 3 /\ src' = src + 2 /\ p' = p). { revert El. unfold dec_length. change DIRECT2_MAX_LEN with 7. change MIN_MATCH with 3. replace (negb (l3 =? 7)) with true by lia. intros [= <- <- <-]. auto. }
    destruct Q as (-> & -> & ->). destruct (copy_bytes_spec 8 dst_beg dst_stop (dg_out s) (dst_beg + pos) (dst_beg + pos - off)) as (out & Ec & C1 & C2); [lia|lia|]. rewrite Ec in Step.
    apply (Next _ _ Step); [lia|]. apply Go; [intros x Hx; apply C1; lia|intros i Hi'; apply C2; lia|lia].
  - destruct ((careful || (the_dst_careful dst_beg dst_stop <=? dst_beg + pos + len)) && (dst_stop <? dst_beg + pos + len)) eqn:E4.
    + apply andb_prop in E4 as [_ E4]. set (k := dst_stop - (dst_beg + pos)) in *.
      destruct (copy_block_slow_spec (S (Z.to_nat k)) dst_beg dst_stop (dg_out s) (dst_beg + pos) (dst_beg + pos - off) k) as (out & Ec & C1 & C2); try lia. rewrite Ec in Step.
      apply (decodes_ok _ _ _ _ _ Step); [|lia]. split; [cbn [dg_dst]; lia|]. cbn [dg_out]. intros x Hx. apply (Go out k); [intros y Hy; apply C1; lia|intros i Hi'; apply C2; lia|lia|lia].
    + assert (Hroom : pos + len <= n).
      { apply andb_false_iff in E4 as [E4|E4]; [|lia]. apply orb_false_iff in E4 as [_ E4]. unfold the_dst_careful, RESERVE_DST, sizeof_tag in E4. destruct (Z.ltb_spec ((8 * 8 + 2) * 4) (dst_stop - dst_beg)); lia. }
      destruct (copy_block_slow_spec (S (Z.to_nat len)) dst_beg dst_stop (dg_out s) (dst_beg + pos) (dst_beg + pos - off) len) as (out & Ec & C1 & C2); try lia. rewrite Ec in Step.
      apply (Next _ _ Step); [lia|]. apply Go; [intros y Hy; apply C1; lia|intros i Hi'; apply C2; lia|lia].
Qed.

Lemma item_tag src pos p careful s : src_beg <= src -> src + 4 <= src_end -> dg_src s = src -> dg_ptr s = p -> holds pos s -> dinv careful L_start s ->
  (forall careful s bits, bits = tag_bits 32 (load32 comp src) -> dg_src s = src + 4 -> dg_ptr s = p -> item_mask bits (dg_bmask s) -> holds pos s -> dinv careful (item_label bits) s -> decodes careful (item_label bits) s) ->
  decodes careful L_start s.
Proof.
  intros Hs Hs4 Es Ep Hh Hi Hk.
  assert (One : forall careful, (negb careful && ((the_src_careful src_end <=? dg_src s) || (the_dst_careful dst_beg dst_stop <=? dg_dst s))) = false -> dinv careful L_start s -> decodes careful L_start s).
  { clear careful Hi. intros careful E1 Hi. destruct (bm_load (load32 comp src) (load32_range comp Hcomp src)) as (c & bits & Eb & L & B1 & B2).
    assert (E : dec_step careful L_start s = Some (Goto careful (item_label (c :: bits)) (Dregs (bm bits) (dg_dst s) (src + 4) p (dg_out s)))).
    { cbn [Xpress.dec_step]. unfold dec_start. rewrite E1, Es, Ep. unfold src_end_tag, sizeof_tag. replace (careful && (src_end - (4 - 1) <=? src)) with false by (destruct careful; cbn [andb]; lia).
      rewrite xget32_in by lia. rewrite B1, B2. now destruct c. }
    apply (decodes_step _ _ _ _ _ _ E). apply Hk; [now symmetry|reflexivity|reflexivity|split; [reflexivity|lia]|exact Hh|]. exact (goto_inv _ _ _ _ _ _ Hi E). }
  destruct (negb careful && ((the_src_careful src_end <=? dg_src s) || (the_dst_careful dst_beg dst_stop <=? dg_dst s))) eqn:E1; [|now apply One]. destruct careful; [discriminate|].
  assert (E : dec_step false L_start s = Some (Goto true L_start s)) by (cbn [Xpress.dec_step]; unfold dec_start; now rewrite E1).
  apply (decodes_step _ _ _ _ _ _ E), One; [reflexivity|]. exact (goto_inv _ _ _ _ _ _ Hi E).
Qed.

(** From any point of a well-formed block. *)
Lemma coded_decodes src pos bits p : coded src pos bits p -> forall careful s, pos <= n -> 0 <= pos -> dg_src s = src -> dg_ptr s = p ->
  item_mask bits (dg_bmask s) -> holds pos s -> dinv careful (item_label bits) s -> decodes careful (item_label bits) s.
Proof.
  induction 1 as [src bits p Hs|src pos p Hs Hs4 Hc IH|src pos bits p Hs Hp Hb Hc IH|src pos bits p len src' p' Hs Hs2 Hw Hc IH]; intros careful s Hle H0 Es Ep Hm Hh Hi; cbn [item_label item_mask] in *.
  - assert (n = size) by lia. destruct careful.
    + apply (decodes_ok _ _ _ (dg_dst s =? dst_end) s); [|now replace n with size by lia|intros _; destruct Hh; lia]. cbn [Xpress.dec_step]. unfold dec_pointer. destruct Hh as (Hd & _). now replace (true && (dst_stop <=? dg_dst s)) with true by lia.
    + destruct Hi as (_ & _ & _ & F). destruct (F eq_refl) as (b & _ & _ & _ & F2). destruct Hh as (Hd & _). lia.
  - apply (item_tag src pos p); auto. intros careful' s' bits -> Es' Ep' Hm' Hh' Hi'. apply IH; auto.
  - destruct Hm as (Em & L). apply (item_lit src pos bits p); auto. intros careful' s' Hle' Es' Ep' Hm' Hh' Hi'. apply IH; auto; lia.
  - destruct Hm as (Em & L). pose proof Hi as (_ & _ & P & _). rewrite Ep in P. pose proof (load16_range comp Hcomp src) as Hr. destruct (pointer_word _ Hr) as (Hlen & _).
    pose proof Hw as (El & _). pose proof (dec_length_pos _ _ _ _ _ _ _ ltac:(apply Hlen) P El). apply (item_ptr src pos bits p len src' p'); auto. intros careful' s' Hle' Es' Ep' Hm' Hh' Hi'. apply IH; auto; lia.
Qed.
End Coded.

Lemma do_decode_more comp sb se sc db ds de dc fuel : forall k careful l s r, do_decode comp sb se sc db ds de dc fuel careful l s = Some r -> do_decode comp sb se sc db ds de dc (fuel + k) careful l s = Some r.
Proof.
  induction fuel as [|fuel IH]; intros k careful l s r; [discriminate|]. cbn [do_decode Nat.add]. destruct (dec_step _ _ _ _ _ _ _ _ _ _ _) as [[c l' s'|eof s'|s']|]; auto.
Qed.

(** [XpressDecode] returns the first bytes of the data a block stands for. *)
Lemma XpressDecode_coded comp cbeg comp_size data size out orig decode_size : mem_ok comp -> (forall i, 0 <= i < size -> 0 <= data i < 256) ->
  MIN_SIZE <= comp_size < size -> size <= BUFF_SIZE -> 0 <= decode_size <= size ->
  coded comp cbeg (cbeg + comp_size) data size cbeg 0 [] None ->
  exists out', XpressDecode out orig size decode_size comp cbeg comp_size = Some (decode_size, out') /\
    (forall x, 0 <= x < decode_size -> out' (orig + x) = data x) /\ (forall x, x < orig \/ orig + decode_size <= x -> out' x = out x).
Proof.
  intros Hc Hd Hs Hb Hn Hcode. unfold MIN_SIZE, BUFF_SIZE in *. unfold XpressDecode. cbv zeta. replace (if size <? decode_size then size else decode_size) with decode_size by (case_cmp; lia).
  replace (comp_size =? size) with false by lia. cbn [orb]. destruct (Z.eqb_spec decode_size 0); [exists out; split; [reflexivity|]; split; [lia|reflexivity]|].
  replace (_ || (decode_size <? 0)) with false by (unfold MIN_SIZE, BUFF_SIZE; repeat (case_cmp; cbn [orb]; try lia)).
  set (s0 := Dregs 0 orig cbeg None out). assert (I0 : dinv cbeg (cbeg + comp_size) orig (orig + decode_size) false L_start s0).
  { split; [cbn [dg_src s0]; lia|]. split; [cbn [dg_dst s0]; lia|]. split; [exact I|]. intros _. exact I. }
  destruct (coded_decodes comp cbeg (cbeg + comp_size) data size orig decode_size Hc Hd ltac:(lia) cbeg 0 [] None Hcode false s0) as (f1 & eof & t & R & (Ht & Ho) & He); try reflexivity; try lia; [split; [cbn [dg_dst s0]; lia|lia]|exact I0|].
  destruct (do_decode_ok comp cbeg (cbeg + comp_size) orig (orig + decode_size) (orig + size) Hc (4 * Z.to_nat decode_size + 8) false L_start s0 I0) as (ok & eof' & t' & R' & K & Hok); [unfold dmeasure; cbn [dg_dst s0]; lia|].
  assert (E : Some (true, eof, t) = Some (ok, eof', t')) by (rewrite <- (do_decode_more _ _ _ _ _ _ _ _ _ (4 * Z.to_nat decode_size + 8) _ _ _ _ R), <- (do_decode_more _ _ _ _ _ _ _ _ _ f1 _ _ _ _ R'); f_equal; lia).
  injection E as <- <- <-. unfold the_src_careful, the_dst_careful in R'. replace (orig + decode_size - orig) with decode_size in R' by lia. rewrite R'. destruct (Hok eq_refl).
  replace (negb true || (orig + decode_size <? dg_dst t) || (cbeg + comp_size <? dg_src t) || ((orig + decode_size =? orig + size) && negb eof)) with false.
  - exists (dg_out t). auto.
  - symmetry. cbn [negb orb]. replace (orig + decode_size <? dg_dst t) with false by lia. replace (cbeg + comp_size <? dg_src t) with false by lia. destruct (Z.eqb_spec (orig + decode_size) (orig + size)); [|reflexivity]. rewrite He by lia. reflexivity.
Qed.
