(* ===== verification/XpressEnc.v ===== *)
(** * The output of the XPRESS encoder

    What [write_lit] and [write_ptr] leave in the output: they stay inside it as
    long as the room is paid for, and a reader who knows the bytes that follow
    finds the item again. *)

From Stdlib Require Import ZArith List Lia Bool.
From S2P Require Import Prelude Bits Mem Xpress XpressDec.
Import ListNotations.

(** ** The tags of the word under construction *)

Lemma tval_snoc bits c : tval (bits ++ [c]) = 2 * tval bits + Z.b2z c.
Proof.
  induction bits as [|b bits IH]; cbn [app tval]; [cbn; lia|]. rewrite IH, length_app. cbn [length]. rewrite Nat.add_1_r, Nat2Z.inj_succ, Z.pow_succ_r by lia. lia.
Qed.

Lemma tag_bits_tval l : tag_bits (length l) (tval l) = l.
Proof.
  assert (G : forall l k, 0 <= k -> tag_bits (length l) (tval l + k * 2 ^ Z.of_nat (length l)) = l).
  { clear l. induction l as [|c l IH]; intros k Hk; [reflexivity|]. cbn [length tag_bits tval]. rewrite Nat2Z.inj_succ, Z.pow_succ_r by lia. set (g := 2 ^ Z.of_nat (length l)).
    replace (Z.b2z c * g + tval l + k * (2 * g)) with (tval l + (Z.b2z c + 2 * k) * g) by lia. f_equal; [|apply IH; destruct c; cbn [Z.b2z]; lia].
    pose proof (tval_range l) as R. fold g in R. assert (0 < g) by (apply Z.pow_pos_nonneg; lia).
    rewrite Z.testbit_eqb by lia. fold g. rewrite Z.div_add, Z.div_small, Z.add_0_l by lia. rewrite (Z.mul_comm 2 k), Z.mod_add by lia. now destruct c. }
  specialize (G l 0 ltac:(lia)). now rewrite Z.mul_0_l, Z.add_0_r in G.
Qed.

(** [tag_mask] after [bits]. *)
Definition tm (bits : list bool) : Z := s32 (2 ^ Z.of_nat (length bits) + tval bits).

Lemma lor_bit c m : Z.lor (Z.b2z c) (2 * m) = 2 * m + Z.b2z c.
Proof.
  assert (E : Z.land (Z.b2z c) (2 * m) = 0).
  { destruct c; cbn [Z.b2z]; [|apply Z.land_0_l]. rewrite Z.land_comm. change 1 with (Z.ones 1). rewrite Z.land_ones by lia. change (2 ^ 1) with 2. rewrite Z.mul_comm. apply Z.mod_mul. lia. }
  rewrite <- Z.lxor_lor, <- Z.add_nocarry_lxor by exact E. lia.
Qed.

Lemma tm_sign bits : (length bits <= 31)%nat -> (tm bits <? 0) = (length bits =? 31)%nat.
Proof.
  intros H. unfold tm. pose proof (tval_range bits) as R. destruct (Nat.eqb_spec (length bits) 31) as [E|E].
  - rewrite E in *. change (2 ^ Z.of_nat 31) with 2147483648 in *. unfold s32, u32. rewrite Z.mod_small by lia. destruct (Z.ltb_spec (2147483648 + tval bits) 2147483648); lia.
  - assert (L : 2 ^ Z.of_nat (length bits) <= 2 ^ 30) by (apply Z.pow_le_mono_r; lia). change (2 ^ 30) with 1073741824 in L. unfold s32, u32. rewrite Z.mod_small by lia. destruct (Z.ltb_spec (2 ^ Z.of_nat (length bits) + tval bits) 2147483648); lia.
Qed.

Lemma tm_next bits c : u32 (s32 (Z.lor (Z.b2z c) (2 * tm bits))) = u32 (2 ^ Z.of_nat (S (length bits)) + tval (bits ++ [c])).
Proof.
  rewrite u32_s32, lor_bit, tval_snoc. rewrite Nat2Z.inj_succ, Z.pow_succ_r by lia. unfold tm. pose proof (u32_s32 (2 ^ Z.of_nat (length bits) + tval bits)) as E. set (x := s32 _) in *. set (y := _ + tval bits) in *.
  replace (2 * 2 ^ Z.of_nat (length bits) + (2 * tval bits + Z.b2z c)) with (2 * y + Z.b2z c) by (unfold y; lia). clearbody x y. unfold u32 in *. destruct c; cbn [Z.b2z]; zlia.
Qed.

Lemma tm_more bits c : s32 (Z.lor (Z.b2z c) (2 * tm bits)) = tm (bits ++ [c]).
Proof.
  unfold tm at 2. rewrite length_app. cbn [length]. rewrite Nat.add_1_r. assert (E := tm_next bits c). rewrite u32_s32 in E. now apply s32_u32.
Qed.

Section Output.
(** The output region. *)
Variables lo hi : Z.

(** The word of tags lies before the position, and so does the byte with a free
    half, outside that word. *)
Definition winv (w : writer) (bits : list bool) : Prop :=
  lo <= w_tag_ptr w /\ w_tag_ptr w + 4 <= w_ptr w /\ w_tag_mask w = tm bits /\ (length bits <= 31)%nat /\
  match w_stat w with
  | None => True
  | Some p => lo <= p < w_ptr w /\ (p < w_tag_ptr w \/ w_tag_ptr w + 4 <= p) /\ 0 <= w_out w p < 16
  end.

(** Bytes written, and tags of which 32 take four bytes, in eighths of a byte. *)
Definition paid (w : writer) (bits : list bool) : Z := 8 * w_ptr w + Z.of_nat (length bits).

Definition stays_inside (w w' : writer) : Prop := forall x, x < lo \/ hi <= x -> w_out w' x = w_out w x.

(** A final output [m] that agrees with what is written, where the rest of the
    current word of tags is [rest]. *)
Definition completes (m : mem) (w : writer) (bits rest : list bool) : Prop :=
  (forall a, lo <= a < w_ptr w -> a < w_tag_ptr w \/ w_tag_ptr w + 4 <= a -> w_stat w <> Some a -> m a = w_out w a) /\
  tag_bits 32 (load32 m (w_tag_ptr w)) = bits ++ rest /\
  (forall p, w_stat w = Some p -> m p mod 16 = w_out w p).

Section Rest.
Variables (m : mem) (mhi : Z) (data : Z -> Z) (size : Z).

(** From the position on, [m] is well formed for the rest of the data. *)
Definition well_formed (w : writer) (bits : list bool) (pos : Z) : Prop :=
  exists rest, completes m w bits rest /\ coded m lo mhi data size (w_ptr w) pos rest (w_stat w).

Definition well_tagged (w : writer) (bits : list bool) (pos : Z) (c : bool) : Prop :=
  exists rest, completes m w bits (c :: rest) /\ coded m lo mhi data size (w_ptr w) pos rest (w_stat w).
End Rest.

Lemma coded_range m mhi data size src pos bits p : coded m lo mhi data size src pos bits p -> lo <= src <= mhi.
Proof. destruct 1; lia. Qed.

(** ** Writing a tag *)

Lemma tag_write_spec w bits (c : bool) : winv w bits -> w_ptr w <= hi ->
  exists w' bits', tag_write lo hi w (Z.b2z c) = Some w' /\ winv w' bits' /\ paid w' bits' = paid w bits + 1 /\ w_ptr w <= w_ptr w' /\ stays_inside w w' /\ w_stat w' = w_stat w /\
    (forall m mhi data size pos, mem_ok m -> well_formed m mhi data size w' bits' pos -> well_tagged m mhi data size w bits pos c).
Proof.
  intros (I1 & I2 & I3 & I4 & I5) Hhi. unfold tag_write. rewrite I3, tm_sign by exact I4. destruct (Nat.eqb_spec (length bits) 31) as [E|E].
  - rewrite xput32_in by lia. set (v := s32 _). eexists _, []. split; [reflexivity|]. assert (V : u32 v = tval (bits ++ [c])).
    { unfold v. rewrite tm_next, E. change (2 ^ Z.of_nat 32) with 4294967296. pose proof (tval_range (bits ++ [c])) as R. rewrite length_app, E in R. cbn [length] in R. change (2 ^ Z.of_nat (31 + 1)) with 4294967296 in R. unfold u32. zlia. }
    split; [|split; [|split; [|split; [|split; [reflexivity|]]]]].
    + unfold winv. cbn [w_tag_ptr w_ptr w_tag_mask w_stat w_out]. unfold sizeof_tag. split; [lia|]. split; [lia|]. split; [reflexivity|]. split; [cbn; lia|]. destruct (w_stat w) as [p|]; [|exact I]. rewrite store32_frame by lia. repeat split; try lia.
    + unfold paid, sizeof_tag. cbn [w_ptr length]. lia.
    + unfold sizeof_tag. cbn [w_ptr]. lia.
    + intros x Hx. cbn [w_out]. apply store32_frame. lia.
    + intros m mhi data size pos Hm (rest & (C1 & C2 & C3) & Hc). cbn [w_tag_ptr w_ptr w_stat w_out] in *. unfold sizeof_tag in *. exists []. split.
      * split; [|split].
        -- intros a Ha Ha2 Hst. rewrite C1 by lia || auto. apply store32_frame. lia.
        -- assert (EL : load32 m (w_tag_ptr w) = tval (bits ++ [c])).
           { rewrite <- V, <- (load32_store32_eq (w_out w) (w_tag_ptr w) v). apply load32_ext. intros a Ha. apply C1; [lia|lia|]. intros Es. rewrite Es in I5. lia. }
           rewrite EL. change 32%nat with (31 + 1)%nat. rewrite <- E. change 1%nat with (length [c]). rewrite <- length_app. apply tag_bits_tval.
        -- intros p Hp. rewrite (C3 p Hp). rewrite Hp in I5. apply store32_frame. lia.
      * pose proof (coded_range _ _ _ _ _ _ _ _ Hc). apply coded_tag; [lia|lia|]. cbn [app] in C2. now rewrite C2.
  - eexists _, (bits ++ [c]). split; [reflexivity|]. split; [|split; [|split; [|split; [|split; [reflexivity|]]]]].
    + unfold winv. cbn [w_tag_ptr w_ptr w_tag_mask w_stat w_out]. repeat split; try lia; [apply tm_more|rewrite length_app; cbn [length]; lia|exact I5].
    + unfold paid. cbn [w_ptr]. rewrite length_app. cbn [length]. lia.
    + cbn [w_ptr]. lia.
    + intros x _. reflexivity.
    + intros m mhi data size pos _ (rest & (C1 & C2 & C3) & Hc). exists rest. split; [|exact Hc]. split; [exact C1|]. split; [|exact C3]. cbn [w_tag_ptr] in C2. rewrite C2, <- app_assoc. reflexivity.
Qed.

(** ** Bytes *)

Lemma put_byte_eq w v : lo <= w_ptr w < hi -> put_byte lo hi w v = Some (Writer (store8 (w_out w) (w_ptr w) v) (w_ptr w + 1) (w_tag_ptr w) (w_tag_mask w) (w_stat w)).
Proof. intros H. unfold put_byte. now rewrite xput_in by exact H. Qed.

Lemma put_word_eq w v : lo <= w_ptr w -> w_ptr w + 2 <= hi -> put_word lo hi w v =
  Some (Writer (store8 (store8 (w_out w) (w_ptr w) v) (w_ptr w + 1) (v / 256)) (w_ptr w + 2) (w_tag_ptr w) (w_tag_mask w) (w_stat w)).
Proof.
  intros H1 H2. unfold put_word. rewrite put_byte_eq by lia. rewrite put_byte_eq by (cbn [w_ptr]; lia). cbn [w_out w_ptr w_tag_ptr w_tag_mask w_stat]. rewrite Z.shiftr_div_pow2 by lia. change (2 ^ 8) with 256. do 2 f_equal. lia.
Qed.

(** What an item adds behind the position: the bytes before it stay, apart from
    the upper half of the byte that was free. *)
Definition appended (w w1 : writer) : Prop :=
  w_tag_ptr w1 = w_tag_ptr w /\ w_tag_mask w1 = w_tag_mask w /\ w_ptr w <= w_ptr w1 /\
  (forall a, a < w_ptr w -> w_stat w <> Some a -> w_out w1 a = w_out w a) /\
  match w_stat w with
  | Some p => w_stat w1 = Some p /\ w_out w1 p = w_out w p \/ w_stat w1 <> Some p /\ w_out w1 p mod 16 = w_out w p
  | None => True
  end /\
  match w_stat w1 with Some q => w_stat w = Some q \/ w_ptr w <= q | None => True end.

Lemma completes_back m w w1 bits rest : winv w bits -> appended w w1 -> completes m w1 bits rest -> completes m w bits rest.
Proof.
  intros (I1 & I2 & I3 & I4 & I5) (A1 & A2 & A3 & A4 & A5 & A6) (C1 & C2 & C3). rewrite A1 in *. split; [|split; [exact C2|]].
  - intros a Ha Ha2 Hs. rewrite C1, A4 by (auto; lia || (intros Es; rewrite Es in A6; destruct A6 as [A6|A6]; [congruence|lia])). reflexivity.
  - intros p Hp. rewrite Hp in *. destruct A5 as [(E1 & E2)|(E1 & E2)]; [rewrite (C3 p E1); exact E2|]. rewrite C1; [exact E2|lia|lia|exact E1].
Qed.

Lemma completes_byte m w1 bits rest a : completes m w1 bits rest -> lo <= w_tag_ptr w1 -> w_tag_ptr w1 + 4 <= a -> a < w_ptr w1 -> w_stat w1 <> Some a -> m a = w_out w1 a.
Proof. intros (C1 & _) H1 H2 H3 H4. apply C1; [lia|lia|exact H4]. Qed.

(** ** Literals *)

Lemma write_lit_spec w bits ch : winv w bits -> w_ptr w + 1 <= hi -> 0 <= ch < 256 ->
  exists w' bits', write_lit lo hi w ch = Some w' /\ winv w' bits' /\ paid w' bits' = paid w bits + 9 /\ w_ptr w + 1 <= w_ptr w' /\ stays_inside w w' /\
    (forall m mhi data size pos, mem_ok m -> data pos = ch -> 0 <= pos < size -> well_formed m mhi data size w' bits' (pos + 1) -> well_formed m mhi data size w bits pos).
Proof.
  intros Hi Hhi Hch. pose proof Hi as (I1 & I2 & I3 & I4 & I5). unfold write_lit. rewrite put_byte_eq by lia. set (w1 := Writer _ _ _ _ _).
  assert (Hi1 : winv w1 bits).
  { unfold winv, w1. cbn [w_tag_ptr w_ptr w_tag_mask w_stat w_out]. repeat split; try lia; auto. destruct (w_stat w) as [p|]; [|exact I]. rewrite store8_at. replace (p =? w_ptr w) with false by lia. repeat split; lia. }
  destruct (tag_write_spec w1 bits false Hi1) as (w' & bits' & E & Hi' & Hp & Hle & Hin & _ & Hback); [cbn; lia|]. change (Z.b2z false) with 0 in E. rewrite E. exists w', bits'. split; [reflexivity|]. split; [exact Hi'|].
  split; [rewrite Hp; unfold paid, w1; cbn [w_ptr]; lia|]. split; [cbn [w1 w_ptr] in Hle; lia|]. split.
  { intros x Hx. rewrite Hin by exact Hx. unfold w1. cbn [w_out]. rewrite store8_at. now replace (x =? w_ptr w) with false by lia. }
  intros m mhi data size pos Hm Hd Hpos Hw. destruct (Hback m mhi data size (pos + 1) Hm Hw) as (rest & C & Hc). exists (false :: rest). split.
  - apply (completes_back m w w1 bits); [exact Hi| |exact C]. unfold appended, w1. cbn [w_tag_ptr w_ptr w_tag_mask w_stat w_out]. repeat split; try lia.
    + intros a Ha _. rewrite store8_at. now replace (a =? w_ptr w) with false by lia.
    + destruct (w_stat w) as [p|]; [|exact I]. left. split; [reflexivity|]. rewrite store8_at. now replace (p =? w_ptr w) with false by lia.
    + destruct (w_stat w); auto.
  - pose proof (coded_range _ _ _ _ _ _ _ _ Hc) as Hr. cbn [w1 w_ptr w_stat] in Hc, Hr. apply coded_lit; [lia|exact Hpos| |exact Hc].
    rewrite (completes_byte m w1 bits _ (w_ptr w) C); cbn [w1 w_tag_ptr w_ptr w_stat w_out]; try lia; [rewrite store8_at, Z.eqb_refl, Hd; apply Z.mod_small; lia|]. intros Es. rewrite Es in I5. lia.
Qed.

(** ** Pointers *)

Lemma appended_trans w w1 w2 bits : winv w bits -> appended w w1 -> appended w1 w2 -> appended w w2.
Proof.
  intros (I1 & I2 & I3 & I4 & I5) (A1 & A2 & A3 & A4 & A5 & A6) (B1 & B2 & B3 & B4 & B5 & B6). unfold appended. split; [congruence|]. split; [congruence|]. split; [lia|]. split; [|split].
  - intros a Ha Hs. rewrite B4, A4; auto; [lia|]. intros Es. rewrite Es in A6. destruct A6 as [A6|A6]; [congruence|lia].
  - destruct (w_stat w) as [p|]; [|exact I]. destruct A5 as [(E1 & E2)|(E1 & E2)].
    + rewrite E1 in B5. destruct B5 as [(F1 & F2)|(F1 & F2)]; [left; split; congruence|right; split; congruence].
    + right. split; [|rewrite B4; [exact E2|lia|exact E1]]. intros Es. rewrite Es in B6. destruct B6 as [B6|B6]; [congruence|lia].
  - destruct (w_stat w2) as [q|]; [|exact I]. destruct B6 as [B6|B6]; [rewrite B6 in A6|]; [exact A6|right; lia].
Qed.

(** A step of [write_ptr]: [k] bytes more, the tags as before. *)
Definition emits (w w1 : writer) (bits : list bool) (k : Z) : Prop :=
  winv w1 bits /\ w_ptr w1 = w_ptr w + k /\ stays_inside w w1 /\ appended w w1.

Lemma emits_trans w w1 w2 bits k1 k2 : winv w bits -> emits w w1 bits k1 -> emits w1 w2 bits k2 -> emits w w2 bits (k1 + k2).
Proof.
  intros Hi (A1 & A2 & A3 & A4) (B1 & B2 & B3 & B4). split; [exact B1|]. split; [lia|]. split; [intros x Hx; now rewrite B3, A3|]. now apply (appended_trans _ w1 _ bits).
Qed.

Lemma store8_emits w bits v : winv w bits -> w_ptr w < hi ->
  emits w (Writer (store8 (w_out w) (w_ptr w) v) (w_ptr w + 1) (w_tag_ptr w) (w_tag_mask w) (w_stat w)) bits 1.
Proof.
  intros (I1 & I2 & I3 & I4 & I5) Hhi. unfold emits, winv, appended, stays_inside. cbn [w_tag_ptr w_ptr w_tag_mask w_stat w_out].
  assert (F : forall a, a <> w_ptr w -> store8 (w_out w) (w_ptr w) v a = w_out w a) by (intros a Ha; rewrite store8_at; now replace (a =? w_ptr w) with false by lia).
  repeat split; try lia; auto.
  - destruct (w_stat w) as [p|]; [|exact I]. rewrite F by lia. repeat split; lia.
  - intros x Hx. apply F. lia.
  - intros a Ha _. apply F. lia.
  - destruct (w_stat w) as [p|]; [|exact I]. left. split; [reflexivity|]. apply F. lia.
  - destruct (w_stat w); auto.
Qed.

Lemma put_byte_emits w bits v : winv w bits -> w_ptr w < hi -> exists w1, put_byte lo hi w v = Some w1 /\ emits w w1 bits 1 /\ w_stat w1 = w_stat w /\ w_out w1 (w_ptr w) = v mod 256.
Proof.
  intros Hi Hhi. pose proof Hi as (I1 & I2 & _). rewrite put_byte_eq by lia. eexists. split; [reflexivity|]. split; [now apply store8_emits|]. split; [reflexivity|]. cbn [w_out]. now rewrite store8_at, Z.eqb_refl.
Qed.

(** A byte behind the position that a later step starts from. *)
Lemma emits_byte w w1 bits k a : emits w w1 bits k -> a < w_ptr w -> w_stat w <> Some a -> w_out w1 a = w_out w a.
Proof. intros (_ & _ & _ & (_ & _ & _ & A & _)). apply A. Qed.

Lemma put_word_emits w bits v : winv w bits -> w_ptr w + 2 <= hi -> exists w1, put_word lo hi w v = Some w1 /\ emits w w1 bits 2 /\ w_stat w1 = w_stat w /\
  w_out w1 (w_ptr w) = v mod 256 /\ w_out w1 (w_ptr w + 1) = v / 256 mod 256.
Proof.
  intros Hi Hhi. pose proof Hi as (_ & _ & _ & _ & I5). destruct (put_byte_emits w bits v Hi ltac:(lia)) as (w1 & E1 & M1 & S1 & O1). pose proof M1 as (Hi1 & P1 & _).
  destruct (put_byte_emits w1 bits (Z.shiftr v 8) Hi1 ltac:(lia)) as (w2 & E2 & M2 & S2 & O2). exists w2. unfold put_word. rewrite E1. split; [exact E2|].
  split; [exact (emits_trans _ _ _ _ _ _ Hi M1 M2)|]. split; [congruence|]. rewrite P1 in O2. rewrite (emits_byte _ _ _ _ _ M2); [|lia|rewrite S1; intros Es; rewrite Es in I5; lia].
  split; [exact O1|]. rewrite O2, Z.shiftr_div_pow2 by lia. reflexivity.
Qed.

Lemma nibble_or b v : 0 <= b < 16 -> 0 <= v < 16 -> Z.lor b (Z.shiftl v 4) = b + 16 * v.
Proof.
  intros Hb Hv. rewrite Z.shiftl_mul_pow2 by lia. change (2 ^ 4) with 16. assert (E : Z.land b (v * 16) = 0).
  { apply Z.bits_inj'. intros k Hk. rewrite Z.land_spec, Z.bits_0. destruct (Z.lt_ge_cases k 4).
    - change 16 with (2 ^ 4). rewrite Z.mul_pow2_bits_low by lia. apply andb_false_r.
    - rewrite (testbit_high 4 b k) by (change (2 ^ 4) with 16; lia). reflexivity. }
  rewrite <- Z.lxor_lor, <- Z.add_nocarry_lxor by exact E. lia.
Qed.

Lemma put_nibble_emits w bits L : winv w bits -> 0 <= L -> w_ptr w + 1 <= hi ->
  let nv := if L <? 15 then L else 15 in
  exists w1 k, put_nibble lo hi w L = Some w1 /\ emits w w1 bits k /\
    match w_stat w with
    | None => k = 1 /\ w_stat w1 = Some (w_ptr w) /\ w_out w1 (w_ptr w) = nv
    | Some p => k = 0 /\ w_stat w1 = None /\ w_out w1 p = w_out w p + 16 * nv
    end.
Proof.
  intros Hi HL Hhi nv. pose proof Hi as (I1 & I2 & I3 & I4 & I5). assert (Hnv : 0 <= nv < 16) by (unfold nv; case_cmp; lia). unfold put_nibble. fold nv. clearbody nv. destruct (w_stat w) as [p|] eqn:Es.
  - destruct I5 as (Hp & Hs & Hb). rewrite xget_in, xput_in by lia. rewrite nibble_or by lia. eexists _, 0. split; [reflexivity|]. set (v := w_out w p + 16 * nv).
    assert (F : forall a, a <> p -> store8 (w_out w) p v a = w_out w a) by (intros a Ha; rewrite store8_at; now replace (a =? p) with false by lia).
    assert (Fp : store8 (w_out w) p v p = v) by (rewrite store8_at, Z.eqb_refl; apply Z.mod_small; unfold v; lia).
    split; [|cbn [w_stat w_out]; auto]. unfold emits, winv, appended, stays_inside. rewrite Es. cbn [w_tag_ptr w_ptr w_tag_mask w_stat w_out]. repeat split; try lia; auto.
    + intros x Hx. apply F. lia.
    + intros a Ha Hs2. apply F. congruence.
    + right. split; [discriminate|]. rewrite Fp. unfold v. zlia.
  - unfold put_byte, set_stat. cbn [w_out w_ptr w_tag_ptr w_tag_mask w_stat]. rewrite xput_in by lia. eexists _, 1. split; [reflexivity|].
    assert (F : forall a, a <> w_ptr w -> store8 (w_out w) (w_ptr w) nv a = w_out w a) by (intros a Ha; rewrite store8_at; now replace (a =? w_ptr w) with false by lia).
    assert (Fp : store8 (w_out w) (w_ptr w) nv (w_ptr w) = nv) by (rewrite store8_at, Z.eqb_refl; apply Z.mod_small; lia).
    split; [|cbn [w_stat w_out]; auto]. unfold emits, winv, appended, stays_inside. rewrite Es. cbn [w_tag_ptr w_ptr w_tag_mask w_stat w_out]. rewrite Fp. repeat split; try lia; auto.
    + intros x Hx. apply F. lia.
    + intros a Ha Hs2. apply F. lia.
Qed.

Lemma put_long_emits w bits L : winv w bits -> 0 <= L <= 65525 -> w_ptr w + (if L <? 15 then 0 else if L <? 270 then 1 else 3) <= hi ->
  exists w1 k, put_long lo hi w L = Some w1 /\ emits w w1 bits k /\ w_stat w1 = w_stat w /\
    (L < 15 /\ k = 0 \/ 15 <= L < 270 /\ k = 1 /\ w_out w1 (w_ptr w) = L - 15 \/
     270 <= L /\ k = 3 /\ w_out w1 (w_ptr w) = 255 /\ w_out w1 (w_ptr w + 1) = (L + 7) mod 256 /\ w_out w1 (w_ptr w + 2) = (L + 7) / 256).
Proof.
  intros Hi HL Hhi. pose proof Hi as (I1 & I2 & I3 & I4 & I5). unfold put_long. destruct (Z.leb_spec 0 (L - 15)).
  - destruct (Z.leb_spec 255 (L - 15)).
    + assert (w_ptr w + 3 <= hi) by (revert Hhi; case_cmp; lia). destruct (put_byte_emits w bits 255 Hi ltac:(lia)) as (w1 & E1 & M1 & S1 & O1). rewrite E1. pose proof M1 as (Hi1 & P1 & _).
      change (DIRECT2_MAX_LEN + 15) with 22. destruct (put_word_emits w1 bits (L - 15 + 22) Hi1 ltac:(lia)) as (w2 & E2 & M2 & S2 & O2 & O3). exists w2, 3. split; [exact E2|]. split; [exact (emits_trans _ _ _ _ 1 2 Hi M1 M2)|].
      split; [congruence|]. right. right. split; [lia|]. split; [reflexivity|]. rewrite P1 in *. rewrite (emits_byte _ _ _ _ _ M2); [|lia|rewrite S1; intros Es; rewrite Es in I5; lia]. split; [exact O1|].
      replace (w_ptr w + 2) with (w_ptr w + 1 + 1) by lia. rewrite O2, O3. split; [f_equal; lia|]. zlia.
    + assert (w_ptr w + 1 <= hi) by (revert Hhi; case_cmp; lia). destruct (put_byte_emits w bits (L - 15) Hi ltac:(lia)) as (w1 & E1 & M1 & S1 & O1). exists w1, 1. split; [exact E1|]. split; [exact M1|]. split; [exact S1|].
      right. left. split; [lia|]. split; [reflexivity|]. rewrite O1. apply Z.mod_small. lia.
  - exists w, 0. split; [reflexivity|]. split; [|split; [reflexivity|left; lia]]. split; [exact Hi|]. split; [lia|]. split; [intros x _; reflexivity|]. unfold appended. repeat split; try lia; auto; destruct (w_stat w); auto.
Qed.

(** ** A pointer is read back *)

Lemma byte_nibbles b : 0 <= b < 256 -> Z.land b 15 = b mod 16 /\ Z.shiftr b 4 = b / 16.
Proof. intros H. change 15 with (Z.ones 4). rewrite Z.land_ones, Z.shiftr_div_pow2 by lia. now change (2 ^ 4) with 16. Qed.

(** The half byte of a length [L + 10], and where it leaves the reader. *)
Definition nibble_at (m : mem) (mhi src : Z) (p : option Z) (L s : Z) (p' : option Z) : Prop :=
  let nv := if L <? 15 then L else 15 in
  match p with
  | None => lo <= src < mhi /\ m src mod 16 = nv /\ s = src + 1 /\ p' = Some src
  | Some q => lo <= q < mhi /\ m q / 16 = nv /\ s = src /\ p' = None
  end.

(** The bytes of it that follow. *)
Definition tail_at (m : mem) (L s e : Z) : Prop :=
  L < 15 /\ e = s \/ 15 <= L < 270 /\ e = s + 1 /\ m s = L - 15 \/ 270 <= L /\ e = s + 3 /\ m s = 255 /\ load16 m (s + 1) = L + 7.

Lemma dec_length_long m mhi src p L s p' e : mem_ok m -> 0 <= L -> nibble_at m mhi src p L s p' -> lo <= s -> e <= mhi -> tail_at m L s e ->
  dec_length m lo mhi true 7 src p = Some (Some (L + 10, e, p')).
Proof.
  intros Hm HL Hn Hs He Ht. unfold dec_length. change DIRECT2_MAX_LEN with 7. change MIN_MATCH with 3. change (7 =? 7) with true. cbn [negb andb].
  set (nv := if L <? 15 then L else 15). match goal with |- context [let? x := ?t in _] => replace t with (Some (Some (nv, s, p'))) end.
  2:{ unfold nibble_at in Hn. cbv zeta in Hn. fold nv in Hn. destruct p as [q|]; destruct Hn as (Hq & Hb & -> & ->).
      - rewrite xget_in by lia. destruct (byte_nibbles _ (Hm q)) as [_ ->]. now rewrite Hb.
      - replace (mhi <=? src) with false by lia. rewrite xget_in by lia. destruct (byte_nibbles _ (Hm src)) as [-> _]. now rewrite Hb. }
  unfold nv. destruct Ht as [(H1 & ->)|[(H1 & -> & H2)|(H1 & -> & H2 & H3)]].
  - replace (L <? 15) with true by lia. replace (L =? 15) with false by lia. cbn [negb]. reflexivity.
  - replace (L <? 15) with false by lia. change (15 =? 15) with true. cbn [negb]. replace (mhi <=? s) with false by lia. rewrite xget_in by lia. rewrite H2. replace (L - 15 =? 255) with false by lia. cbn [negb]. do 4 f_equal. lia.
  - replace (L <? 15) with false by lia. change (15 =? 15) with true. cbn [negb]. replace (mhi <=? s) with false by lia. rewrite xget_in by lia. rewrite H2. change (255 =? 255) with true. cbn [negb]. unfold src_end_1.
    replace (mhi - 1 <=? s + 1) with false by lia. rewrite xget16_in by lia. rewrite H3. replace (L + 7 <? 255 + 15 + 7) with false by lia. do 4 f_equal; lia.
Qed.

Lemma pointer_bits off l : 1 <= off <= 8192 -> 0 <= l <= 7 -> let v := Z.lor (Z.shiftl (off - 1) DIRECT2_LEN_LOG) l in
  v = 8 * (off - 1) + l /\ 0 <= v < 65536.
Proof.
  intros Ho Hl v. assert (E : v = 8 * (off - 1) + l); [|lia]. unfold v. change DIRECT2_LEN_LOG with 3. rewrite Z.shiftl_mul_pow2 by lia. change (2 ^ 3) with 8.
  assert (N : Z.land ((off - 1) * 8) l = 0).
  { apply Z.bits_inj'. intros k Hk. rewrite Z.land_spec, Z.bits_0. destruct (Z.lt_ge_cases k 3).
    - change 8 with (2 ^ 3). rewrite Z.mul_pow2_bits_low by lia. reflexivity.
    - rewrite (testbit_high 3 l k) by (change (2 ^ 3) with 8; lia). apply andb_false_r. }
  rewrite <- Z.lxor_lor, <- Z.add_nocarry_lxor by exact N. lia.
Qed.

Lemma load16_bytes m a v : 0 <= v < 65536 -> m a = v mod 256 -> m (a + 1) = v / 256 mod 256 -> load16 m a = v.
Proof. intros Hv E1 E2. unfold load16. rewrite E1, E2. zlia. Qed.

(** What a reader of the final output finds at the position. *)
Definition pointer_read (m : mem) (mhi : Z) (w w1 : writer) (off len : Z) : Prop :=
  load16 m (w_ptr w) / 8 + 1 = off /\
  dec_length m lo mhi true (Z.land (load16 m (w_ptr w)) DIRECT2_MAX_LEN) (w_ptr w + 2) (w_stat w) = Some (Some (len, w_ptr w1, w_stat w1)).

Lemma put_pointer_emits w bits off len : winv w bits -> 1 <= off <= 8192 -> 3 <= len <= 65535 -> w_ptr w + Z.min len 6 <= hi ->
  exists w1 k, put_pointer lo hi w off len = Some w1 /\ emits w w1 bits k /\ 2 <= k <= 6 /\ k <= len /\ (24 < len -> 3 <= k) /\
    (forall m mhi rest, mem_ok m -> completes m w1 bits rest -> w_ptr w1 <= mhi -> pointer_read m mhi w w1 off len).
Proof.
  intros Hi Hoff Hlen Hhi. pose proof Hi as (I1 & I2 & I3 & I4 & I5). unfold put_pointer. change MIN_MATCH with 3. change DIRECT2_MAX_LEN with 7. cbv zeta. destruct (Z.ltb_spec (len - 3) 7).
  - destruct (pointer_bits off (len - 3) Hoff ltac:(lia)) as (Ev & Rv). set (v := Z.lor _ _) in *. destruct (put_word_emits w bits v Hi ltac:(lia)) as (w1 & -> & M & S & O1 & O2). exists w1, 2. split; [reflexivity|]. split; [exact M|].
    split; [lia|]. split; [lia|]. split; [lia|]. intros m mhi rest Hm C Hmhi. pose proof M as (_ & P & _ & A1 & _).
    assert (B : load16 m (w_ptr w) = v). { apply load16_bytes; [exact Rv| |]; rewrite (completes_byte m w1 bits rest _ C); auto; try lia; rewrite ?S; intros Es; rewrite Es in I5; lia. }
    unfold pointer_read. rewrite B, Ev. split; [zlia|]. unfold dec_length. replace (Z.land (8 * (off - 1) + (len - 3)) DIRECT2_MAX_LEN) with (len - 3) by (change DIRECT2_MAX_LEN with (Z.ones 3); rewrite Z.land_ones by lia; change (2 ^ 3) with 8; zlia).
    change DIRECT2_MAX_LEN with 7. change MIN_MATCH with 3. replace (len - 3 =? 7) with false by lia. cbn [negb]. rewrite P, S. do 4 f_equal. lia.
  - replace (len - 3 - 7) with (len - 10) by lia. set (L := len - 10) in *. destruct (pointer_bits off 7 Hoff ltac:(lia)) as (Ev & Rv). set (v := Z.lor _ _) in *.
    destruct (put_word_emits w bits v Hi ltac:(lia)) as (w1 & -> & M1 & S1 & O1 & O2). pose proof M1 as (Hi1 & P1 & _ & A1 & _).
    destruct (put_nibble_emits w1 bits L Hi1 ltac:(lia) ltac:(lia)) as (w2 & k2 & -> & M2 & N2). pose proof M2 as (Hi2 & P2 & _ & A2 & _). assert (K2 : 0 <= k2 <= 1) by (destruct (w_stat w1); lia).
    destruct (put_long_emits w2 bits L Hi2 ltac:(lia)) as (w3 & k3 & -> & M3 & S3 & N3); [case_cmp; lia|]. pose proof M3 as (Hi3 & P3 & _ & A3 & _ & _ & A3' & _).
    exists w3, (2 + k2 + k3). assert (M : emits w w3 bits (2 + k2 + k3)) by (eapply emits_trans; [exact Hi|eapply emits_trans; [exact Hi|exact M1|exact M2]|exact M3]).
    split; [reflexivity|]. split; [exact M|]. split; [lia|]. split; [lia|]. split; [lia|]. intros m mhi rest Hm C Hmhi. pose proof M as (_ & P & _ & A & _).
    assert (G : forall a, w_ptr w <= a < w_ptr w3 -> w_stat w3 <> Some a -> m a = w_out w3 a) by (intros a Ha Hs; apply (completes_byte m w3 bits rest _ C); auto; lia).
    assert (B : load16 m (w_ptr w) = v).
    { assert (S3' : forall a, a < w_ptr w + 2 -> w_stat w1 <> Some a -> w_stat w3 <> Some a) by (intros a Ha Hs; rewrite S3; destruct (w_stat w1) as [p|]; destruct N2 as (_ & N2 & _); rewrite N2; [discriminate|intros [= E]; lia]).
      assert (Sw : forall a, w_ptr w <= a -> w_stat w1 <> Some a) by (intros a Ha Es; rewrite S1 in Es; rewrite Es in I5; lia).
      apply load16_bytes; [exact Rv| |]; rewrite G by (auto with zarith || (apply S3'; [lia|apply Sw; lia])).
      - rewrite (emits_byte _ _ _ _ _ M3), (emits_byte _ _ _ _ _ M2); auto; try lia; [apply Sw; lia|]. rewrite <- S3. apply S3'; [lia|apply Sw; lia].
      - rewrite (emits_byte _ _ _ _ _ M3), (emits_byte _ _ _ _ _ M2); auto; try lia; [apply Sw; lia|]. rewrite <- S3. apply S3'; [lia|apply Sw; lia]. }
    unfold pointer_read. rewrite B, Ev. split; [zlia|]. replace (Z.land (8 * (off - 1) + 7) DIRECT2_MAX_LEN) with 7 by (change DIRECT2_MAX_LEN with (Z.ones 3); rewrite Z.land_ones by lia; change (2 ^ 3) with 8; zlia).
    replace len with (L + 10) by (unfold L; lia). rewrite <- S1. destruct C as (C1 & _ & C3). apply (dec_length_long m mhi (w_ptr w + 2) (w_stat w1) L (w_ptr w2)); [exact Hm|lia| |lia|exact Hmhi|].
    + unfold nibble_at. cbv zeta. rewrite S3. destruct (w_stat w1) as [q|] eqn:Eq.
      * destruct N2 as (-> & N2 & N2'). rewrite N2. pose proof Hi1 as (J1 & J2 & _ & _ & J5). rewrite Eq in J5. destruct J5 as (Hq & Hq2 & Hq3). split; [lia|]. split; [|split; [lia|reflexivity]].
        assert (S3q : w_stat w3 <> Some q) by (rewrite S3, N2; discriminate). rewrite C1; [|lia|rewrite A; rewrite <- A1; lia|exact S3q]. rewrite (emits_byte _ _ _ _ _ M3), N2'; [|lia|rewrite N2; discriminate]. zlia.
      * destruct N2 as (-> & N2 & N2'). split; [lia|]. split; [|split; [lia|rewrite N2; f_equal; lia]]. rewrite P1 in N2, N2'. rewrite (C3 (w_ptr w + 2)) by (rewrite S3; exact N2). 
        rewrite <- N2'. pose proof M3 as (_ & _ & _ & (_ & _ & _ & _ & Q & _)). rewrite N2 in Q. destruct Q as [(_ & Q)|(Q & _)]; [exact Q|]. exfalso. apply Q. now rewrite S3.
    + unfold tail_at. assert (G2 : forall a, w_ptr w2 <= a < w_ptr w3 -> m a = w_out w3 a) by (intros a Ha; apply G; [lia|]; rewrite S3; destruct (w_stat w1) as [p|]; destruct N2 as (N2a & N2 & _); rewrite N2; [discriminate|intros [= E]; lia]).
      destruct N3 as [(H1 & ->)|[(H1 & -> & H2)|(H1 & -> & H2 & H3 & H4)]]; [left; lia|right; left; rewrite G2 by lia; lia|right; right]. split; [lia|]. split; [lia|]. rewrite G2 by lia. split; [exact H2|].
      apply load16_bytes; [lia| |]; rewrite G2 by lia; [exact H3|]. replace (w_ptr w2 + 1 + 1) with (w_ptr w2 + 2) by lia. rewrite H4. zlia.
Qed.

Lemma write_ptr_spec w bits off len : winv w bits -> 1 <= off <= 8192 -> 3 <= len <= 65535 -> w_ptr w + Z.min len 6 <= hi ->
  exists w' bits' k, write_ptr lo hi w off len = Some w' /\ winv w' bits' /\ paid w' bits' = paid w bits + 8 * k + 1 /\ 2 <= k <= Z.min len 6 /\ (24 < len -> 3 <= k) /\ w_ptr w + k <= w_ptr w' /\ stays_inside w w' /\
    (forall m mhi data size pos, mem_ok m -> off <= pos -> pos + len <= size -> (forall i, 0 <= i < len -> data (pos + i) = data (pos + i - off)) ->
       well_formed m mhi data size w' bits' (pos + len) -> well_formed m mhi data size w bits pos).
Proof.
  intros Hi Hoff Hlen Hhi. pose proof Hi as (I1 & I2 & _). destruct (put_pointer_emits w bits off len Hi Hoff Hlen Hhi) as (w1 & k & E1 & (Hi1 & P1 & In1 & A1) & Hk & Hk2 & Hk3 & Hread). unfold write_ptr. rewrite E1.
  destruct (tag_write_spec w1 bits true Hi1) as (w' & bits' & E & Hi' & Hp & Hle & Hin & _ & Hback); [lia|]. change (Z.b2z true) with 1 in E. rewrite E. exists w', bits', k. split; [reflexivity|]. split; [exact Hi'|].
  split; [rewrite Hp; unfold paid; lia|]. split; [lia|]. split; [exact Hk3|]. split; [lia|]. split; [intros x Hx; now rewrite Hin, In1|].
  intros m mhi data size pos Hm Ho Hs Hd Hw. destruct (Hback m mhi data size (pos + len) Hm Hw) as (rest & C & Hc). exists (true :: rest). split; [exact (completes_back m w w1 bits _ Hi A1 C)|].
  pose proof (coded_range _ _ _ _ _ _ _ _ Hc) as Hr. destruct (Hread m mhi _ Hm C ltac:(lia)) as (R1 & R2). apply (coded_ptr m lo mhi data size _ _ _ _ len (w_ptr w1) (w_stat w1)); [lia|lia| |exact Hc].
  cbv zeta. rewrite R1. auto.
Qed.

(** ** The last word of tags *)

Lemma tag_write_until_spec fuel : forall w bits, winv w bits -> w_ptr w <= hi -> (32 - length bits <= fuel)%nat ->
  exists w' v, tag_write_until lo hi fuel w = Some w' /\ w_out w' = store32 (w_out w) (w_tag_ptr w) v /\ u32 v = tval (bits ++ repeat true (32 - length bits)).
Proof.
  induction fuel as [|fuel IH]; intros w bits Hi Hhi Hf; pose proof Hi as (I1 & I2 & I3 & I4 & I5); [lia|]. cbn [tag_write_until]. unfold tag_write at 1. change 1 with (Z.b2z true). rewrite I3, tm_sign by exact I4.
  destruct (Nat.eqb_spec (length bits) 31) as [E|E].
  - rewrite xput32_in by lia. cbn [w_ptr]. unfold sizeof_tag. replace (w_ptr w + 4 =? w_ptr w) with false by lia. eexists _, _. split; [reflexivity|]. split; [reflexivity|].
    rewrite tm_next, E. change (2 ^ Z.of_nat 32) with 4294967296. change (repeat true (32 - 31)) with [true]. pose proof (tval_range (bits ++ [true])) as R. rewrite length_app, E in R. cbn [length] in R. change (2 ^ Z.of_nat (31 + 1)) with 4294967296 in R. unfold u32. zlia.
  - cbn [w_ptr]. rewrite Z.eqb_refl. set (w1 := Writer _ _ _ _ _). destruct (IH w1 (bits ++ [true])) as (w' & v & E1 & E2 & E3).
    + unfold winv, w1. cbn [w_tag_ptr w_ptr w_tag_mask w_stat w_out]. split; [lia|]. split; [lia|]. split; [apply tm_more|]. split; [rewrite length_app; cbn [length]; lia|exact I5].
    + exact Hhi.
    + rewrite length_app. cbn [length]. lia.
    + exists w', v. split; [exact E1|]. split; [exact E2|]. rewrite E3, length_app, <- app_assoc. cbn [length]. do 2 f_equal. replace (32 - length bits)%nat with (S (32 - (length bits + 1))) by lia. reflexivity.
Qed.

(** The output that [tag_write_finish] leaves is well formed for data that end here. *)
Lemma tag_write_finish_spec w bits : winv w bits -> w_ptr w <= hi ->
  exists w', tag_write_finish lo hi w = Some w' /\ w_ptr w' = w_ptr w /\ stays_inside w w' /\ (mem_ok (w_out w) -> mem_ok (w_out w')) /\
    (forall mhi data size, w_ptr w <= mhi -> well_formed (w_out w') mhi data size w bits size).
Proof.
  intros Hi Hhi. pose proof Hi as (I1 & I2 & _ & I4 & I5). destruct (tag_write_until_spec 32 w bits Hi Hhi ltac:(lia)) as (w1 & v & E & Eo & Ev). unfold tag_write_finish. rewrite E. eexists. split; [reflexivity|].
  split; [reflexivity|]. cbn [w_out]. split; [intros x Hx; rewrite Eo; apply store32_frame; lia|]. split; [rewrite Eo; intros; now apply store32_ok|].
  intros mhi data size Hm. exists (repeat true (32 - length bits)). split.
  - rewrite Eo. split; [intros a Ha Ha2 _; apply store32_frame; lia|]. split.
    + rewrite load32_store32_eq, Ev. set (l := bits ++ _). replace 32%nat with (length l); [apply tag_bits_tval|]. unfold l. rewrite length_app, repeat_length. lia.
    + intros p Hp. rewrite Hp in I5. rewrite store32_frame by lia. apply Z.mod_small. lia.
  - replace (32 - length bits)%nat with (S (31 - length bits)) by lia. cbn [repeat]. apply coded_end. lia.
Qed.

(** The start: an empty word of tags. *)
Lemma tag_write_start_inv out : winv (tag_write_start out lo) [].
Proof. unfold winv, tag_write_start, sizeof_tag. cbn [w_tag_ptr w_ptr w_tag_mask w_stat]. repeat split; cbn; lia. Qed.

Lemma start_coded m mhi data size out : well_formed m mhi data size (tag_write_start out lo) [] 0 -> coded m lo mhi data size lo 0 [] None.
Proof.
  intros (rest & (_ & C & _) & Hc). cbn [tag_write_start w_tag_ptr w_ptr w_stat app] in *. unfold sizeof_tag in *. pose proof (coded_range _ _ _ _ _ _ _ _ Hc). apply coded_tag; [lia|lia|]. now rewrite C.
Qed.

(** ** Bytes stay bytes *)

Lemma xput_ok m a v m' : xput m lo hi a v = Some m' -> mem_ok m -> mem_ok m'.
Proof. unfold xput. destruct (_ && _); [|discriminate]. intros [= <-] H. now apply store8_ok. Qed.

Lemma put_byte_ok w v w' : put_byte lo hi w v = Some w' -> mem_ok (w_out w) -> mem_ok (w_out w').
Proof. unfold put_byte. destruct (xput _ _ _ _ _) as [m|] eqn:E; [|discriminate]. intros [= <-]. exact (xput_ok _ _ _ _ E). Qed.

Lemma put_word_ok w v w' : put_word lo hi w v = Some w' -> mem_ok (w_out w) -> mem_ok (w_out w').
Proof. unfold put_word. destruct (put_byte lo hi w v) as [w1|] eqn:E; [|discriminate]. intros E2 H. exact (put_byte_ok _ _ _ E2 (put_byte_ok _ _ _ E H)). Qed.

Lemma put_nibble_ok w L w' : put_nibble lo hi w L = Some w' -> mem_ok (w_out w) -> mem_ok (w_out w').
Proof.
  unfold put_nibble. destruct (w_stat w) as [p|]; [|intros E; exact (put_byte_ok _ _ _ E)]. destruct (xget _ _ _ _); [|discriminate]. destruct (xput _ _ _ _ _) as [m|] eqn:E; [|discriminate].
  intros [= <-]. exact (xput_ok _ _ _ _ E).
Qed.

Lemma put_long_ok w L w' : put_long lo hi w L = Some w' -> mem_ok (w_out w) -> mem_ok (w_out w').
Proof.
  unfold put_long. destruct (0 <=? L - 15); [|now intros [= <-]]. destruct (255 <=? L - 15); [|apply put_byte_ok]. destruct (put_byte lo hi w 255) as [w1|] eqn:E; [|discriminate].
  intros E2 H. exact (put_word_ok _ _ _ E2 (put_byte_ok _ _ _ E H)).
Qed.

Lemma tag_write_ok w n w' : tag_write lo hi w n = Some w' -> mem_ok (w_out w) -> mem_ok (w_out w').
Proof.
  unfold tag_write. destruct (_ <? 0); [|now intros [= <-]]. unfold xput32. destruct (_ && _); [|discriminate]. intros [= <-] H. now apply store32_ok.
Qed.

Lemma write_lit_ok w ch w' : write_lit lo hi w ch = Some w' -> mem_ok (w_out w) -> mem_ok (w_out w').
Proof. unfold write_lit. destruct (put_byte lo hi w ch) as [w1|] eqn:E; [|discriminate]. intros E2 H. exact (tag_write_ok _ _ _ E2 (put_byte_ok _ _ _ E H)). Qed.

Lemma write_ptr_ok w off len w' : write_ptr lo hi w off len = Some w' -> mem_ok (w_out w) -> mem_ok (w_out w').
Proof.
  unfold write_ptr. destruct (put_pointer lo hi w off len) as [w1|] eqn:E; [|discriminate]. intros E2 H. apply (tag_write_ok _ _ _ E2). clear E2. revert E. unfold put_pointer. cbv zeta. destruct (_ <? _).
  - intros E. exact (put_word_ok _ _ _ E H).
  - destruct (put_word _ _ _ _) as [wa|] eqn:Ea; [|discriminate]. destruct (put_nibble _ _ _ _) as [wb|] eqn:Eb; [|discriminate]. intros E. exact (put_long_ok _ _ _ E (put_nibble_ok _ _ _ Eb (put_word_ok _ _ _ Ea H))).
Qed.
End Output.

(** * The XPRESS encoder: matches and loops

    The hash chains stay inside the data, a match is one, and the loops of
    [XpressEncodeEx2] end with a well-formed block or give up. *)

(** ** Hashes *)

Lemma hash_map_range n : forall v1 v2, Forall (fun x => 0 <= x < Z_HASH_SIZE) (hash_map_from n v1 v2).
Proof.
  induction n as [|n IH]; intros v1 v2; cbn [hash_map_from]; [constructor|]. destruct (hash_rounds 32 v1 v2 v2 v1 0) as [a b]. constructor; [|apply IH].
  change Z_HASH_SIZE with (2 ^ 15). apply land_range_r. cbn. lia.
Qed.

Lemma nth_in_range l bound i : 0 < bound -> Forall (fun x => 0 <= x < bound) l -> 0 <= nth i l 0 < bound.
Proof.
  intros Hb H. revert i. induction H as [|x l Hx _ IH]; intros [|i]; cbn [nth]; auto; lia.
Qed.

Lemma z_hash_nth i : 0 <= nth i z_hash_map 0 < Z_HASH_SIZE.
Proof. apply nth_in_range; [reflexivity|]. unfold z_hash_map. apply hash_map_range. Qed.

Lemma aget_in f n i : 0 <= i < n -> aget f n i = Some (f i).
Proof. intros H. unfold aget. now replace ((0 <=? i) && (i <? n)) with true by (case_cmp; cbn; lia). Qed.

Lemma aput_in f n i v : 0 <= i < n -> aput f n i v = Some (fun x => if x =? i then u16 v else f x).
Proof. intros H. unfold aput. now replace ((0 <=? i) && (i <? n)) with true by (case_cmp; cbn; lia). Qed.

Section Match.
Variables (orig : mem) (beg size max_size : Z).
Hypothesis Hsize : MIN_SIZE < size <= max_size.
Hypothesis Hbuff : size <= BUFF_SIZE.

Abbreviation ob := (ob orig beg size).
Definition the_data (i : Z) : Z := orig (beg + i).

Lemma ob_in i : 0 <= i < size -> ob i = Some (the_data i).
Proof. intros H. unfold Xpress.ob. now rewrite xget_in by lia. Qed.

(** The chains lead to positions at which three bytes can be read. *)
Definition chains_ok (n : Z) (z : Z -> Z) : Prop := forall i, 0 <= i < n -> 0 <= z i <= size - 3.

Lemma Z_HASH_SUM_in i : 0 <= i -> i + 2 < size -> exists h, Z_HASH_SUM orig beg size i = Some h /\ 0 <= h < Z_HASH_SIZE.
Proof.
  intros H1 H2. unfold Z_HASH_SUM. rewrite !ob_in by lia. pose proof (z_hash_nth (Z.to_nat (the_data i))) as B0. pose proof (z_hash_nth (256 + Z.to_nat (the_data (i + 1)))) as B1. pose proof (z_hash_nth (512 + Z.to_nat (the_data (i + 2)))) as B2.
  revert B0 B1 B2. generalize (nth (Z.to_nat (the_data i)) z_hash_map 0), (nth (256 + Z.to_nat (the_data (i + 1))) z_hash_map 0), (nth (512 + Z.to_nat (the_data (i + 2))) z_hash_map 0).
  intros h0 h1 h2 B0 B1 B2. eexists. split; [reflexivity|]. change Z_HASH_SIZE with (2 ^ 15) in *. apply lxor_range; [apply lxor_range|]; assumption.
Qed.

Lemma hash_insert_loop_spec n : forall i z h, 0 <= i -> i + Z.of_nat n = size - 2 -> chains_ok i z -> (forall k, 0 <= h k <= size - 3) ->
  exists z' h', hash_insert_loop orig beg size n max_size i z h = Some (z', h') /\ chains_ok (size - 2) z'.
Proof.
  induction n as [|n IH]; intros i z h Hi Hn Hz Hh; cbn [hash_insert_loop]; [exists z, h; split; [reflexivity|]; intros j Hj; apply Hz; lia|].
  unfold MIN_SIZE, BUFF_SIZE in *. destruct (Z_HASH_SUM_in i) as (hv & -> & Hr); [lia|lia|]. rewrite aget_in, aput_in, aput_in by lia. apply IH; [lia|lia| |].
  - intros j Hj. destruct (Z.eqb_spec j i); [|apply Hz; lia]. rewrite u16_small; [apply Hh|]. specialize (Hh hv). lia.
  - intros k. destruct (k =? hv); [|apply Hh]. rewrite u16_small by lia. lia.
Qed.

Lemma hash_clear_loop_spec n : forall i z, 0 <= i -> i + Z.of_nat n <= size -> chains_ok i z -> exists z', hash_clear_loop n max_size i z = Some z' /\ chains_ok (i + Z.of_nat n) z'.
Proof.
  induction n as [|n IH]; intros i z Hi Hn Hz; cbn [hash_clear_loop]; [exists z; split; [reflexivity|]; now rewrite Z.add_0_r|]. unfold MIN_SIZE in *.
  rewrite aput_in by lia. destruct (IH (i + 1) (fun x => if x =? i then u16 0 else z x)) as (z' & E & C); [lia|lia| |exists z'; split; [exact E|]; replace (i + Z.of_nat (S n)) with (i + 1 + Z.of_nat n) by lia; exact C].
  intros j Hj. destruct (Z.eqb_spec j i); [unfold u16; cbn; lia|apply Hz; lia].
Qed.

Lemma z_hash_insert_spec z : exists z', z_hash_insert orig beg size max_size z = Some z' /\ chains_ok size z'.
Proof.
  unfold z_hash_insert. change MIN_MATCH with 3. unfold MIN_SIZE in *. destruct (hash_insert_loop_spec (Z.to_nat (size - (3 - 1))) 0 z (fun _ => 0)) as (z1 & h1 & -> & C1); [lia|lia|intros j Hj; lia|intros k; lia|].
  rewrite Z2Nat.id by lia. destruct (hash_clear_loop_spec (Z.to_nat (3 - 1)) (size - (3 - 1)) z1) as (z2 & E & C2); [lia|lia|exact C1|]. exists z2. split; [exact E|]. now replace size with (size - (3 - 1) + Z.of_nat (Z.to_nat (3 - 1))) at 1 by lia.
Qed.

(** ** Matches *)

Lemma same_end_spec m c0 c1 : 0 <= m <= size - 3 -> exists b, same_end orig beg size m c0 c1 = Some b /\ (b = true -> the_data (m + 2) = c0 /\ the_data (m + 1) = c1).
Proof.
  intros H. unfold same_end. rewrite !ob_in by lia. destruct (Z.eqb_spec (the_data (m + 2)) c0); eexists; (split; [reflexivity|]); [|discriminate]. intros E. apply Z.eqb_eq in E. auto.
Qed.

Lemma chain_search_spec n z c0 c1 : chains_ok size z -> forall m, 0 <= m <= size - 3 ->
  exists r, chain_search orig beg size n max_size z m c0 c1 = Some r /\
    match r with Some k => 0 <= k <= size - 3 /\ the_data (k + 2) = c0 /\ the_data (k + 1) = c1 | None => True end.
Proof.
  intros Hz. unfold MIN_SIZE in *. induction n as [|n IH]; intros m Hm; cbn [chain_search]; destruct (same_end_spec m c0 c1 Hm) as (b & E & Hb).
  - rewrite E. eexists. split; [reflexivity|]. destruct b; [|exact I]. destruct (Hb eq_refl). auto.
  - rewrite aget_in, E by lia. destruct b; [eexists; split; [reflexivity|]; destruct (Hb eq_refl); auto|]. apply IH, Hz. lia.
Qed.

(** [q] bytes are equal, and either these are all or the next differ. *)
Definition equal_run (p1 p2 q : Z) : Prop := forall i, 0 <= i < q -> the_data (p1 + i) = the_data (p2 + i).

Lemma equal_run_app p1 p2 q1 q2 : 0 <= q1 -> equal_run p1 p2 q1 -> equal_run (p1 + q1) (p2 + q1) q2 -> equal_run p1 p2 (q1 + q2).
Proof.
  intros H0 H1 H2 i Hi. destruct (Z.lt_ge_cases i q1); [apply H1; lia|]. specialize (H2 (i - q1) ltac:(lia)). now replace (p1 + q1 + (i - q1)) with (p1 + i) in H2 by lia; replace (p2 + q1 + (i - q1)) with (p2 + i) in H2 by lia.
Qed.

Definition compared (p1 p2 limit : Z) (r : bool * Z * Z) : Prop :=
  let '(eq, q1, q2) := r in exists q, 0 <= q <= limit /\ q1 = p1 + q /\ q2 = p2 + q /\ equal_run p1 p2 q /\ (eq = false -> the_data q1 <> the_data q2).

Lemma compare_bytes_spec n : forall p1 p2, 0 <= p2 <= p1 -> p1 + Z.of_nat n <= size ->
  exists r, compare_bytes orig beg size n p1 p2 = Some r /\ compared p1 p2 (Z.of_nat n) r /\ (fst (fst r) = true -> snd (fst r) = p1 + Z.of_nat n).
Proof.
  induction n as [|n IH]; intros p1 p2 Hp Hn; cbn [compare_bytes].
  { eexists. split; [reflexivity|]. split; [|cbn; lia]. exists 0. repeat split; try lia; try discriminate; try (intros i Hi; lia). }
  rewrite !ob_in by lia. destruct (Z.eqb_spec (the_data p1) (the_data p2)) as [E|E].
  - destruct (IH (p1 + 1) (p2 + 1)) as (r & -> & C & Hr); [lia|lia|]. exists r. split; [reflexivity|]. destruct r as [[eq q1] q2]. cbn [fst snd] in *. split; [|intros H; rewrite (Hr H); lia].
    destruct C as (q & H1 & H2 & H3 & H4 & H5). exists (1 + q). split; [lia|]. split; [lia|]. split; [lia|]. split; [|exact H5]. apply equal_run_app; [lia| |exact H4]. intros i Hi. replace i with 0 by lia. now rewrite !Z.add_0_r.
  - eexists. split; [reflexivity|]. split; [|discriminate]. exists 0. repeat split; try lia; auto; try (intros i Hi; lia).
Qed.

Lemma compare_blocks_spec fuel : forall p1 p2, 0 <= p2 <= p1 -> p1 <= size -> size - p1 < Z.of_nat fuel ->
  exists r, compare_blocks orig beg size fuel p1 p2 = Some r /\ compared p1 p2 (size - p1) r.
Proof.
  induction fuel as [|fuel IH]; intros p1 p2 Hp Hs Hf; [lia|]. cbn [compare_blocks]. unfold end_16. destruct (Z.leb_spec p1 (size - 16)).
  - destruct (compare_bytes_spec 16 p1 p2) as ([[eq q1] q2] & -> & (q & H1 & H2 & H3 & H4 & H5) & Hr); [lia|lia|]. cbn [fst snd] in Hr. destruct eq.
    + specialize (Hr eq_refl). assert (q = 16) by lia. subst q. destruct (IH q1 q2) as (r & -> & C); [lia|lia|lia|]. eexists. split; [reflexivity|]. destruct r as [[eq' r1] r2]. destruct C as (q & K1 & K2 & K3 & K4 & K5).
      exists (16 + q). split; [lia|]. split; [lia|]. split; [lia|]. split; [|exact K5]. apply equal_run_app; [lia|exact H4|]. now rewrite <- H2, <- H3.
    + eexists. split; [reflexivity|]. exists q. repeat split; auto; lia.
  - eexists. split; [reflexivity|]. exists 0. repeat split; try lia; try discriminate; try (intros i Hi; lia).
Qed.

Lemma match_end_spec n k : 0 <= k < n -> n + 4 <= size -> equal_run n k 4 -> exists p, match_end orig beg size n k = Some p /\ n + 4 <= p <= size /\ equal_run n k (p - n).
Proof.
  intros Hk Hn H4. unfold match_end, end_16.
  assert (A : exists eq p1 p2, (if n <=? size - 16 then
      let? (eq, p1, p2) := compare_bytes orig beg size 12 (n + 4) (k + 4) in if eq : bool then compare_blocks orig beg size (S (Z.to_nat (size - p1))) p1 p2 else Some (false, p1, p2)
    else Some (true, n, k)) = Some (eq, p1, p2) /\ exists q, 0 <= q /\ p1 = n + q /\ p2 = k + q /\ p1 <= size /\ equal_run n k q /\ (eq = false -> the_data p1 <> the_data p2)).
  { destruct (Z.leb_spec n (size - 16)).
    - destruct (compare_bytes_spec 12 (n + 4) (k + 4)) as ([[eq q1] q2] & -> & (q & H1 & H2 & H3 & H5 & H6) & Hr); [lia|lia|]. cbn [fst snd] in Hr. destruct eq.
      + destruct (compare_blocks_spec (S (Z.to_nat (size - q1))) q1 q2) as ([[eq' r1] r2] & -> & (q' & K1 & K2 & K3 & K4 & K5)); [lia|lia|lia|]. exists eq', r1, r2. split; [reflexivity|]. exists (4 + q + q').
        split; [lia|]. split; [lia|]. split; [lia|]. split; [lia|]. split; [|exact K5]. apply equal_run_app; [lia|apply equal_run_app; [lia|exact H4|exact H5]|]. replace (n + (4 + q)) with q1 by lia. now replace (k + (4 + q)) with q2 by lia.
      + exists false, q1, q2. split; [reflexivity|]. exists (4 + q). split; [lia|]. split; [lia|]. split; [lia|]. split; [lia|]. split; [apply equal_run_app; [lia|exact H4|exact H5]|exact H6].
    - exists true, n, k. split; [reflexivity|]. exists 0. repeat split; try lia; try discriminate; try (intros i Hi; lia). }
  destruct A as (eq & p1 & p2 & -> & q & Q1 & -> & -> & Q4 & Q5 & Q6).
  assert (Far : forall q, 0 <= q -> n + q <= size -> the_data (n + q) <> the_data (k + q) \/ n + q = size -> 4 <= q).
  { intros r R1 R2 [R|R]; [|lia]. destruct (Z.lt_ge_cases r 4); [|lia]. exfalso. apply R, H4. lia. }
  destruct eq.
  - destruct (compare_bytes_spec (Z.to_nat (size - (n + q))) (n + q) (k + q)) as ([[eq' r1] r2] & -> & (q' & K1 & K2 & K3 & K4 & K5) & Hr); [lia|lia|]. cbn [fst snd] in Hr. exists r1. split; [reflexivity|].
    assert (4 <= q + q'). { apply Far; [lia|lia|]. destruct eq'; [right; specialize (Hr eq_refl); lia|left]. specialize (K5 eq_refl). now replace (n + (q + q')) with r1 by lia; replace (k + (q + q')) with r2 by lia. }
    split; [lia|]. replace (r1 - n) with (q + q') by lia. apply equal_run_app; [lia|exact Q5|exact K4].
  - exists (n + q). split; [reflexivity|]. assert (4 <= q) by (apply Far; auto). split; [lia|]. now replace (n + q - n) with q by lia.
Qed.

Lemma find_match_spec pos z : chains_ok size z -> 0 <= pos < size - 8 ->
  exists r z', find_match orig beg size max_size pos z = Some (r, z') /\ chains_ok size z' /\
    match r with
    | Some (len, k) => 0 <= k < pos /\ pos - k <= 8191 /\ 3 <= len /\ pos + len <= size /\ equal_run pos k len
    | None => True
    end.
Proof.
  intros Hz Hp. unfold MIN_SIZE, BUFF_SIZE in *. unfold find_match. rewrite aput_in by lia. change MIN_MATCH with 3. cbv zeta. set (z1 := fun x : Z => if x =? 0 then u16 pos else z x).
  assert (Hz1 : chains_ok size z1). { intros i Hi. unfold z1. destruct (i =? 0); [|now apply Hz]. rewrite u16_small by lia. lia. }
  rewrite aget_in, !ob_in by lia. change (pos + (3 - 1)) with (pos + 2). change (pos + (3 - 2)) with (pos + 1).
  destruct (chain_search_spec 8 z1 (the_data (pos + 2)) (the_data (pos + 1)) Hz1 (z1 pos)) as (r & -> & Hr); [apply Hz1; lia|]. destruct r as [k|]; [|exists None, z1; auto]. destruct Hr as (Hk & E2 & E1).
  change (Z.shiftl 1 MAX_OFFSET - 1) with 8191. destruct (Z.leb_spec 8191 (u32 (pos - k - 1))) as [|Hu]; [exists None, z1; auto|]. assert (Hk2 : k < pos /\ pos - k <= 8191) by (unfold u32 in Hu; zlia).
  rewrite !ob_in by lia. destruct (Z.eqb_spec (the_data pos) (the_data k)) as [E0|]; cbn [negb]; [|exists None, z1; auto].
  destruct (Z.eqb_spec (the_data (pos + 1)) (the_data (k + 1))); cbn [negb]; [|exists None, z1; auto].
  assert (R3 : equal_run pos k 3). { intros i Hi. assert (i = 0 \/ i = 1 \/ i = 2) as [-> | [-> | ->]] by lia; rewrite ?Z.add_0_r; congruence. }
  destruct (Z.eqb_spec (the_data (pos + 3)) (the_data (k + 3))) as [E3|]; cbn [negb].
  - assert (R4 : equal_run pos k 4) by (intros i Hi; destruct (Z.eqb_spec i 3) as [->|]; [exact E3|apply R3; lia]). destruct (match_end_spec pos k) as (p & -> & Hp1 & Hp2); [lia|lia|exact R4|].
    eexists _, z1. split; [reflexivity|]. split; [exact Hz1|]. cbv beta iota. repeat split; try lia. exact Hp2.
  - eexists _, z1. split; [reflexivity|]. split; [exact Hz1|]. cbv beta iota. repeat split; try lia. exact R3.
Qed.

(** ** The loops *)

Variables (lo hi lim : Z).
Hypothesis Horig : mem_ok orig.
Hypothesis Hlim : lim <= hi.

(** The encoder between two items, at [bits] in the word of tags.  The last clause
    counts how much the first bytes of the output can stand for. *)
Definition einv (e : encoder) (bits : list bool) : Prop :=
  winv lo (en_w e) bits /\ chains_ok size (en_next e) /\ 0 <= en_pos e <= size /\
  (let b := w_ptr (en_w e) - lo - sizeof_tag in
   0 <= b /\ (b = 0 -> en_pos e = 0) /\ (b = 1 -> en_pos e <= 1) /\ (b = 2 -> en_pos e <= 2) /\ (b = 3 -> en_pos e <= 25)).

(** From [e] to [e']: nothing is written outside, bytes stay bytes, and a final
    output that is well formed from [e'] on is so from [e] on. *)
Definition goes (e : encoder) (bits : list bool) (e' : encoder) (bits' : list bool) : Prop :=
  einv e' bits' /\ en_pos e <= en_pos e' /\ w_ptr (en_w e) <= w_ptr (en_w e') /\ stays_inside lo hi (en_w e) (en_w e') /\
  (mem_ok (w_out (en_w e)) -> mem_ok (w_out (en_w e'))) /\
  (forall m mhi, mem_ok m -> well_formed lo m mhi the_data size (en_w e') bits' (en_pos e') -> well_formed lo m mhi the_data size (en_w e) bits (en_pos e)).

Lemma goes_refl e bits : einv e bits -> goes e bits e bits.
Proof. intros H. split; [exact H|]. split; [lia|]. split; [lia|]. split; [intros x _; reflexivity|]. auto. Qed.

Lemma goes_trans e1 b1 e2 b2 e3 b3 : goes e1 b1 e2 b2 -> goes e2 b2 e3 b3 -> goes e1 b1 e3 b3.
Proof.
  intros (A1 & A2 & A3 & A4 & A5 & A6) (B1 & B2 & B3 & B4 & B5 & B6). split; [exact B1|]. split; [lia|]. split; [lia|]. split; [intros x Hx; now rewrite B4, A4|]. split; [auto|]. intros m mhi Hm Hw. auto.
Qed.

Lemma encode_literal_spec e bits : einv e bits -> en_pos e < size -> w_ptr (en_w e) + 1 <= hi ->
  exists e' bits', encode_literal orig beg size lo hi e = Some e' /\ goes e bits e' bits' /\ en_pos e' = en_pos e + 1 /\ paid (en_w e') bits' = paid (en_w e) bits + 9.
Proof.
  intros (Hw & Hz & Hp & Hc) Hlt Hhi. unfold encode_literal. rewrite ob_in by lia.
  destruct (write_lit_spec lo hi (en_w e) bits (the_data (en_pos e)) Hw Hhi (Horig _)) as (w' & bits' & E & Hw' & Hpaid & Hle & Hin & Hback). rewrite E. eexists _, bits'. split; [reflexivity|].
  split; [|split; [reflexivity|exact Hpaid]]. unfold goes, einv. cbn [en_w en_next en_pos]. split; [|split; [lia|split; [lia|split; [exact Hin|split; [exact (write_lit_ok _ _ _ _ _ E)|]]]]].
  - split; [exact Hw'|]. split; [exact Hz|]. split; [lia|]. cbv zeta in *. unfold sizeof_tag in *. lia.
  - intros m mhi Hm Hf. apply (Hback m mhi the_data size (en_pos e) Hm); [reflexivity|lia|exact Hf].
Qed.

Lemma encode_item_spec e bits : einv e bits -> en_pos e < size - 8 -> w_ptr (en_w e) + 6 <= hi ->
  exists e' bits', encode_item orig beg size max_size lo hi e = Some e' /\ goes e bits e' bits' /\
    exists k, 1 <= k /\ en_pos e' = en_pos e + k /\ paid (en_w e') bits' <= paid (en_w e) bits + 8 * Z.min k 6 + 1.
Proof.
  intros He Hlt Hhi. pose proof He as (Hw & Hz & Hp & Hc). unfold MIN_SIZE, BUFF_SIZE in *. unfold encode_item. rewrite aget_in by lia.
  assert (Lit : forall z', chains_ok size z' -> exists e' bits', encode_literal orig beg size lo hi (Encoder (en_pos e) z' (en_w e)) = Some e' /\ goes e bits e' bits' /\
    exists k, 1 <= k /\ en_pos e' = en_pos e + k /\ paid (en_w e') bits' <= paid (en_w e) bits + 8 * Z.min k 6 + 1).
  { intros z' Hz'. destruct (encode_literal_spec (Encoder (en_pos e) z' (en_w e)) bits) as (e' & bits' & E & G & P1 & P2); [exact (conj Hw (conj Hz' (conj Hp Hc)))|cbn [en_pos]; lia|cbn [en_w]; lia|].
    exists e', bits'. split; [exact E|]. split; [exact G|]. exists 1. cbn [en_pos en_w] in *. lia. }
  destruct (en_next e (en_pos e) =? 0); [replace e with (Encoder (en_pos e) (en_next e) (en_w e)) at 1 by (now destruct e); apply Lit; exact Hz|].
  destruct (find_match_spec (en_pos e) (en_next e) Hz) as (r & z' & -> & Hz' & Hr); [lia|]. destruct r as [[len k]|]; [|now apply Lit]. destruct Hr as (Hk & Hoff & Hlen & Hend & Hrun).
  destruct (write_ptr_spec lo hi (en_w e) bits (en_pos e - k) len Hw) as (w' & bits' & kb & E & Hw' & Hpaid & Hkb & Hkl & Hle & Hin & Hback); [lia|lia|lia|]. rewrite E. eexists _, bits'. split; [reflexivity|].
  split; [|exists len; cbn [en_pos en_w]; split; [lia|]; split; [reflexivity|]; lia]. unfold goes, einv. cbn [en_w en_next en_pos]. split; [|split; [lia|split; [lia|split; [exact Hin|split; [exact (write_ptr_ok _ _ _ _ _ _ E)|]]]]].
  - split; [exact Hw'|]. split; [exact Hz'|]. split; [lia|]. cbv zeta in *. unfold sizeof_tag in *. lia.
  - intros m mhi Hm Hf. apply (Hback m mhi the_data size (en_pos e) Hm); [lia|lia| |exact Hf]. intros i Hi. rewrite Hrun by exact Hi. f_equal. lia.
Qed.

(** A pass from [en_pos e] to [stop], paid for with nine eighths of a byte for each
    byte of the data, and one item that may go on behind [stop]. *)
Lemma encode2_pass1_spec fuel : forall stop e bits, einv e bits -> en_pos e < stop -> stop <= size - 8 -> (Z.to_nat (stop - en_pos e) < fuel)%nat ->
  paid (en_w e) bits + 9 * (stop - en_pos e) + 40 <= 8 * lim + 7 ->
  exists e' bits', encode2_pass1 orig beg size max_size lo hi fuel stop e = Some e' /\ goes e bits e' bits' /\ stop <= en_pos e' /\ w_ptr (en_w e') <= lim.
Proof.
  induction fuel as [|fuel IH]; intros stop e bits He Hlt Hstop Hf Hb; [lia|]. cbn [encode2_pass1]. assert (Hpd : 8 * w_ptr (en_w e) <= paid (en_w e) bits) by (unfold paid; lia).
  destruct (encode_item_spec e bits He) as (e1 & b1 & -> & G & k & K1 & K2 & K3); [lia|lia|]. pose proof G as (He1 & _). assert (Hpd1 : 8 * w_ptr (en_w e1) <= paid (en_w e1) b1) by (unfold paid; lia).
  destruct (Z.ltb_spec (en_pos e1) stop).
  - destruct (IH stop e1 b1 He1) as (e2 & b2 & E & G2 & P1 & P2); [lia|lia|lia|lia|]. exists e2, b2. split; [exact E|]. split; [exact (goes_trans _ _ _ _ _ _ G G2)|]. auto.
  - exists e1, b1. split; [reflexivity|]. split; [exact G|]. split; lia.
Qed.

Variable comp_size : Z.
Hypothesis Hcomp_size : lim = lo + comp_size.
Hypothesis Hsmall : comp_size < size.

Lemma encode_loop_spec fuel : forall e bits, einv e bits -> w_ptr (en_w e) <= lim -> (Z.to_nat (size - en_pos e) < fuel)%nat ->
  exists through e' bits', encode_loop orig beg size max_size lo hi fuel comp_size e = Some (through, e') /\ goes e bits e' bits' /\ w_ptr (en_w e') <= lim /\
    (through = true -> size <= en_pos e' \/ size - 8 <= en_pos e' /\ w_ptr (en_w e') + 12 <= lim) /\
    (through = false /\ en_pos e' = en_pos e \/ 33 <= size).
Proof.
  induction fuel as [|fuel IH]; intros e bits He Hl Hf; [lia|]. cbn [encode_loop]. cbv zeta. unfold sizeof_tag. change (2 * 4 + 8) with 16. set (r := comp_size - (w_ptr (en_w e) - lo) - 2 * 4).
  rewrite Z.shiftr_div_pow2 by lia. change (2 ^ 3) with 8. set (rest := r - (r + 7) / 8). destruct (Z.leb_spec rest 16) as [L|L]; [exists false, e, bits; split; [reflexivity|]; split; [now apply goes_refl|]; split; [lia|]; split; [discriminate|left; auto]|].
  assert (R : 20 <= r /\ 8 * rest <= 7 * r) by (unfold rest in *; zlia). assert (Hr : lim = w_ptr (en_w e) + r + 8) by (unfold r; lia). pose proof He as (Hw & _ & Hp & Hc). cbv zeta in Hc. unfold sizeof_tag in Hc.
  assert (H33 : 33 <= size) by lia. destruct (Z.leb_spec size (en_pos e)); [exists true, e, bits; split; [reflexivity|]; split; [now apply goes_refl|]; split; [lia|]; auto|].
  set (clipped := size - 8 <? en_pos e + rest). set (stop := if clipped then size - 8 else en_pos e + rest). assert (Hstop : stop <= size - 8 /\ stop <= en_pos e + rest /\ (clipped = false -> stop = en_pos e + rest)) by (unfold stop, clipped; case_cmp; lia).
  destruct (clipped && (stop <=? en_pos e)) eqn:Ec.
  - exists true, e, bits. split; [reflexivity|]. split; [now apply goes_refl|]. split; [lia|]. split; [|right; exact H33]. intros _. right. apply andb_prop in Ec as [E1 E2]. unfold stop in E2. rewrite E1 in E2. lia.
  - assert (Hps : en_pos e < stop) by (apply andb_false_iff in Ec as [Ec|Ec]; [rewrite (proj2 (proj2 Hstop) Ec); lia|lia]).
    destruct (encode2_pass1_spec (S (Z.to_nat (stop - en_pos e))) stop e bits He Hps) as (e1 & b1 & -> & G & P1 & P2); [lia|lia| |].
    { destruct Hw as (_ & _ & _ & L31 & _). unfold paid. lia. }
    pose proof G as (He1 & _). destruct (IH e1 b1 He1 P2) as (th & e2 & b2 & -> & G2 & Q1 & Q2 & Q3); [lia|]. exists th, e2, b2. split; [reflexivity|]. split; [exact (goes_trans _ _ _ _ _ _ G G2)|]. auto.
Qed.

Lemma encode_rest_spec fuel : forall e bits, einv e bits -> w_ptr (en_w e) <= lim -> (Z.to_nat (size - en_pos e) < fuel)%nat ->
  size <= en_pos e \/ paid (en_w e) bits + 9 * (size - en_pos e) <= 8 * lim + 7 ->
  exists e' bits', encode_rest orig beg size lo hi fuel e = Some e' /\ goes e bits e' bits' /\ en_pos e' = size /\ w_ptr (en_w e') <= lim.
Proof.
  induction fuel as [|fuel IH]; intros e bits He Hl Hf Hb; [lia|]. cbn [encode_rest]. pose proof He as (_ & _ & Hp & _). assert (Hpd : 8 * w_ptr (en_w e) <= paid (en_w e) bits) by (unfold paid; lia).
  destruct (Z.ltb_spec (en_pos e) size); [|exists e, bits; split; [reflexivity|]; split; [now apply goes_refl|]; lia].
  destruct (encode_literal_spec e bits He) as (e1 & b1 & -> & G & P1 & P2); [lia|lia|]. pose proof G as (He1 & _). assert (Hpd1 : 8 * w_ptr (en_w e1) <= paid (en_w e1) b1) by (unfold paid; lia).
  destruct (IH e1 b1 He1) as (e2 & b2 & E & G2 & Q1 & Q2); [lia|lia|lia|]. exists e2, b2. split; [exact E|]. split; [exact (goes_trans _ _ _ _ _ _ G G2)|]. auto.
Qed.
End Match.

(** ** The whole encoder *)

Lemma XpressEncode_spec max_orig_size out comp comp_size orig obeg size :
  mem_ok orig -> 0 <= size < 2147483648 -> max_orig_size <= BUFF_SIZE ->
  exists r out', XpressEncode max_orig_size out comp comp_size orig obeg size = Some (r, out') /\ 0 <= r <= size /\
    (forall x, x < comp \/ comp + comp_size <= x -> out' x = out x) /\ (mem_ok out -> mem_ok out') /\
    (0 < r < size -> r <= comp_size /\ (mem_ok out -> MIN_SIZE <= r /\ size <= BUFF_SIZE /\ coded out' comp (comp + r) (the_data orig obeg) size comp 0 [] None)).
Proof.
  intros Ho Hs Hmax. unfold BUFF_SIZE in *. unfold XpressEncode, XpressEncodeEx2. cbv zeta. set (cs := if size <=? comp_size then size - 1 else comp_size). assert (Hcs : cs <= comp_size /\ cs < size) by (unfold cs; case_cmp; lia).
  destruct ((max_orig_size - 1 <? u32 (size - 1)) || (size <=? MIN_SIZE) || (cs <? MIN_SIZE)) eqn:Eg.
  { exists size, out. split; [replace (-1 =? size) with false by lia; now destruct (negb (size =? 0) && _)|]. split; [lia|]. split; [reflexivity|]. split; [auto|lia]. }
  apply orb_false_iff in Eg as [Eg E3]. apply orb_false_iff in Eg as [E1 E2]. unfold MIN_SIZE in *. assert (E1' : size <= max_orig_size) by (unfold u32 in E1; rewrite Z.mod_small in E1; lia).
  set (hi := comp + comp_size). set (lim := comp + cs). assert (Hlim : lim <= hi) by (unfold lim, hi; lia). assert (Hsize : MIN_SIZE < size <= max_orig_size) by (unfold MIN_SIZE; lia). assert (Hbuff : size <= BUFF_SIZE) by (unfold BUFF_SIZE; lia).
  destruct (z_hash_insert_spec orig obeg size max_orig_size Hsize Hbuff (fun _ => 0)) as (z & -> & Hz). set (e0 := Encoder 0 z (tag_write_start out comp)).
  assert (I0 : einv size comp e0 []). { split; [apply tag_write_start_inv|]. split; [exact Hz|]. cbn [e0 en_pos en_w tag_write_start w_ptr]. unfold sizeof_tag. lia. }
  destruct (encode_loop_spec orig obeg size max_orig_size Hsize Hbuff comp hi lim Ho Hlim cs eq_refl ltac:(lia) (S (Z.to_nat size)) e0 [] I0) as (th & e1 & b1 & -> & G1 & P1 & Q1 & R1); [cbn [e0 en_w tag_write_start w_ptr]; unfold sizeof_tag, lim; lia|cbn [e0 en_pos]; lia|].
  pose proof G1 as (I1 & _).
  assert (A : exists e2 b2, (if th : bool then encode_rest orig obeg size comp hi (S (Z.to_nat size)) e1 else Some e1) = Some e2 /\ goes orig obeg size comp hi e1 b1 e2 b2 /\ w_ptr (en_w e2) <= lim /\ (th = false -> e2 = e1)).
  { destruct th; [|exists e1, b1; split; [reflexivity|]; split; [now apply goes_refl|auto]].
    destruct (encode_rest_spec orig obeg size comp hi lim Ho Hlim (S (Z.to_nat size)) e1 b1 I1 P1) as (e2 & b2 & E & G & _ & P2); [destruct I1 as (_ & _ & X & _); lia| |exists e2, b2; split; [exact E|]; split; [exact G|]; split; [exact P2|discriminate]].
    destruct (Q1 eq_refl) as [Q|(Qa & Qb)]; [now left|right]. destruct I1 as ((_ & _ & _ & L31 & _) & _). unfold paid. lia. }
  destruct A as (e2 & b2 & -> & G2 & P2 & Same). pose proof (goes_trans _ _ _ _ _ _ _ _ _ _ _ G1 G2) as G. clear G2. destruct G as (I2 & _ & _ & Gin & Gok & Gback). pose proof I2 as (Hw2 & _ & Hp2 & Hc2).
  destruct (tag_write_finish_spec comp hi (en_w e2) b2 Hw2 ltac:(lia)) as (w & -> & Pw & Win & Wok & Wfin). rewrite Pw. set (c := w_ptr (en_w e2) - comp) in *. cbn [e0 en_w tag_write_start w_out] in Gin, Gok.
  assert (Hc : 4 <= c <= cs) by (destruct Hw2 as (W1 & W2 & _); unfold c; unfold lim in P2; lia).
  assert (Frame : forall x, x < comp \/ comp + comp_size <= x -> w_out w x = out x) by (intros x Hx; now rewrite Win, Gin by (unfold hi; lia)).
  exists (if negb ((if cs <=? c then size else c) =? 0) && negb (en_pos e2 =? size) then size else if cs <=? c then size else c), (w_out w).
  split; [reflexivity|]. split; [case_cmp; cbn [negb andb]; lia|]. split; [exact Frame|]. split; [intros H; apply Wok, Gok, H|]. intros Hr.
  assert (V : en_pos e2 = size /\ c < cs). { revert Hr. destruct (Z.leb_spec cs c); [replace (size =? 0) with false by lia; destruct (en_pos e2 =? size); cbn [negb andb]; lia|]. replace (c =? 0) with false by lia. destruct (Z.eqb_spec (en_pos e2) size); cbn [negb andb]; lia. }
  destruct V as (V1 & V2). replace (cs <=? c) with false by lia. rewrite V1, Z.eqb_refl. cbn [negb]. rewrite andb_false_r. split; [lia|]. intros Hok. split; [|split; [unfold BUFF_SIZE; lia|]].
  - assert (33 <= size). { destruct R1 as [(-> & R1)|R1]; [|exact R1]. exfalso. cbn [e0 en_pos] in R1. rewrite (Same eq_refl) in V1. lia. }
    cbv zeta in Hc2. unfold sizeof_tag in Hc2. lia.
  - apply (start_coded comp (w_out w) (comp + c) (the_data orig obeg) size out). apply (Gback (w_out w) (comp + c)); [apply Wok, Gok, Hok|]. rewrite V1. apply Wfin. unfold c. lia.
Qed.

(** What is encoded is decoded again, to any size and wherever the block is moved
    from: [m] holds the block at [comp]. *)
Lemma XpressDecode_encode max_orig_size out comp comp_size orig obeg size r out' m mo base decode_size :
  mem_ok orig -> mem_ok out -> 0 <= size < 2147483648 -> max_orig_size <= BUFF_SIZE ->
  XpressEncode max_orig_size out comp comp_size orig obeg size = Some (r, out') -> 0 < r < size ->
  mem_eq_on comp (comp + r) out' m -> 0 <= decode_size <= size ->
  exists mo', XpressDecode mo base size decode_size m comp r = Some (decode_size, mo') /\
    (forall x, 0 <= x < decode_size -> mo' (base + x) = orig (obeg + x)) /\ (forall x, x < base \/ base + decode_size <= x -> mo' x = mo x).
Proof.
  intros Ho Hout Hs Hmax E Hr Hm Hd. destruct (XpressEncode_spec max_orig_size out comp comp_size orig obeg size Ho Hs Hmax) as (r' & o & E' & _ & _ & Hok & H). rewrite E in E'. injection E' as <- <-.
  destruct (H Hr) as (_ & H2). destruct (H2 Hout) as (M & B & C). rewrite (XpressDecode_ext mo base size decode_size out' m comp r Hm).
  apply (XpressDecode_coded out' comp r (the_data orig obeg) size mo base decode_size); auto; [intros i _; apply Ho|lia].
Qed.
