(* ===== verification/Compression.v ===== *)
(** * Column data compression (src/dev/ese/src/ese/compression.cxx)

    The persisted formats of compressed column data.  The 7-bit formats pack
    the low seven bits of each byte (ASCII) or 16-bit word (Unicode) behind a
    header byte that names the format and the number of bits used in the last
    byte.  XPRESS is an LZ77 codec in a library of its own
    (src/dev/ese/src/_xpress), the file Xpress.
    Scrubbed data has a header byte of its own and carries no data.

    The build compiles the code without XPRESS9_COMPRESSION,
    XPRESS10_COMPRESSION and LZ4_COMPRESSION: none of the macros is defined in
    the repository.

    Input is a [CDATA] (pointer and length), output buffers are memories, so
    that writes outside a buffer are visible.  A null output pointer is [None].
    Lengths are [INT]s: the one multiplication that can leave the range is
    written with its wrap-around. *)

From Stdlib Require Import ZArith List Lia Bool.
From S2P Require Import Prelude Mem Xpress.
Import ListNotations.

(** ** Errors *)

Definition JET_errSuccess : Z := 0.
Definition JET_errBufferTooSmall : Z := -1038.
Definition JET_errOutOfMemory : Z := -1011.
Definition JET_errDecompressionFailed : Z := -1620.
Definition JET_wrnBufferTruncated : Z := 1006.
Definition errRECCannotCompress : Z := -418.
Definition wrnRECCompressionScrubDetected : Z := 420.

(** ** Data *)

Record CDATA := { Pv : mem; Cb : Z }.

(** The bytes a [CDATA] points to. *)
Definition bytes_of (d : CDATA) : list Z := load_bytes (Pv d) 0 (Cb d).

(** Return value, output buffer and [*pcb...Actual]. *)
Record compressed := { r_err : Z; r_buf : mem; r_cb : Z }.
Record decompressed := { d_err : Z; d_buf : option mem; d_cb : Z }.

Inductive COMPRESSION_SCHEME :=
| COMPRESS_NONE | COMPRESS_7BITASCII | COMPRESS_7BITUNICODE | COMPRESS_XPRESS | COMPRESS_SCRUB.

(** The persisted numbers of the schemes. *)
Definition scheme_id (s : COMPRESSION_SCHEME) : Z :=
  match s with
  | COMPRESS_NONE => 0 | COMPRESS_7BITASCII => 1 | COMPRESS_7BITUNICODE => 2
  | COMPRESS_XPRESS => 3 | COMPRESS_SCRUB => 4
  end.

Definition compress7Bit : Z := 4.
Definition compressXpress : Z := 8.

(** ** Choice of the 7-bit scheme *)

Definition CbCompressed7BitAscii_ (cb : Z) : Z := Z.quot (s32 (s32 (cb * 7) + 7)) 8 + 1.

Definition CbCompressed7BitUnicode_ (cb : Z) : Z := (cb / 2 * 7 + 7) / 8 + 1.

(** One [DWORD] of the scan: [None] is the early [return COMPRESS_NONE], the
    state is [idw] and [fUnicodePossible]. *)
Definition scan_dword (m : mem) (dwMaskAscii dwMaskUnicode : Z) (s : option (Z * bool)) : option (Z * bool) :=
  let? (idw, fUnicodePossible) := s in
  let dw := load32 m (4 * idw) in
  if negb (Z.land dw (Z.lnot dwMaskAscii) =? 0) then None
  else Some (idw + 1, fUnicodePossible && (Z.land dw (Z.lnot dwMaskUnicode) =? 0)).

(** The [while] loop entered through the [switch]: eight [DWORD]s a turn. *)
Fixpoint scan_while (fuel : nat) (m : mem) (maskA maskU cdw : Z) (s : option (Z * bool)) : option (Z * bool) :=
  match fuel with
  | O => s
  | S fuel =>
      let? (idw, _) := s in
      if idw <? cdw then scan_while fuel m maskA maskU cdw (Nat.iter 8 (scan_dword m maskA maskU) s) else s
  end.

Definition scan_dwords (m : mem) (maskA maskU cdw : Z) (fUnicodePossible : bool) : option (Z * bool) :=
  scan_while (Z.to_nat cdw) m maskA maskU cdw
    (Nat.iter (Z.to_nat (cdw mod 8)) (scan_dword m maskA maskU) (Some (0, fUnicodePossible))).

(** The remaining bytes. *)
Fixpoint scan_bytes (n : nat) (m : mem) (ib : Z) (fUnicodePossible : bool) : option bool :=
  match n with
  | O => Some fUnicodePossible
  | S n =>
      if 127 <? m ib then None
      else scan_bytes n m (ib + 1)
             (if fUnicodePossible && (ib mod 2 =? 0) && (127 <? load16 m ib) then false else fUnicodePossible)
  end.

Definition Calculate7BitCompressionScheme_ (data : CDATA) (fUnicodeOnly : bool) : COMPRESSION_SCHEME :=
  let fUnicodePossible := Cb data mod 2 =? 0 in
  if fUnicodeOnly && negb fUnicodePossible then COMPRESS_NONE else
  let dwMaskAscii := if fUnicodeOnly then 8323199 else 2139062143 in
  let dwMaskUnicode := 8323199 in
  let cdw := Cb data / 4 in
  match scan_dwords (Pv data) dwMaskAscii dwMaskUnicode cdw fUnicodePossible with
  | None => COMPRESS_NONE
  | Some (_, fUnicodePossible) =>
      match scan_bytes (Z.to_nat (Cb data - cdw * 4)) (Pv data) (cdw * 4) fUnicodePossible with
      | None => COMPRESS_NONE
      | Some fUnicodePossible =>
          if fUnicodePossible
          then if CbCompressed7BitUnicode_ (Cb data) <? Cb data then COMPRESS_7BITUNICODE else COMPRESS_NONE
          else if fUnicodeOnly then COMPRESS_NONE
          else if CbCompressed7BitAscii_ (Cb data) <? Cb data then COMPRESS_7BITASCII else COMPRESS_NONE
      end
  end.

(** ** Packing eight bytes at once *)

Definition NBITMASK (n : Z) : Z := u64 (u64 (Z.shiftl 1 n) - 1).

Definition ASCII7BITMASKANDSHIFT (qw mask : Z) : Z :=
  Z.lor (Z.land qw mask) (Z.land (Z.shiftr qw 1) (Z.lnot mask)).

(** [__builtin_bswap64], which [ReverseEightBytes] is on the compilers of the
    build. *)
Definition ReverseEightBytes (qw : Z) : Z :=
  let byte k := Z.land (Z.shiftr qw (8 * k)) 255 in
  fold_left (fun r k => Z.lor (Z.shiftl r 8) (byte k)) [0; 1; 2; 3; 4; 5; 6; 7] 0.

(** [ReverseEightBytes] of other compilers. *)
Definition ReverseEightBytes_portable (qw : Z) : Z :=
  let qw2 := Z.lor (Z.shiftr (Z.land qw 0xFF00FF00FF00FF00) 8) (u64 (Z.shiftl (Z.land qw 0x00FF00FF00FF00FF) 8)) in
  let qw3 := Z.lor (Z.shiftr (Z.land qw2 0xFFFF0000FFFF0000) 16) (u64 (Z.shiftl (Z.land qw2 0x0000FFFF0000FFFF) 16)) in
  Z.lor (Z.shiftr (Z.land qw3 0xFFFFFFFF00000000) 32) (u64 (Z.shiftl (Z.land qw3 0x00000000FFFFFFFF) 32)).

(** The union of the 7-bit groups at four bit positions. *)
Definition mask7 (a b c d : Z) : Z :=
  let g s := u64 (Z.shiftl (NBITMASK 7) s) in Z.lor (Z.lor (Z.lor (g a) (g b)) (g c)) (g d).

Definition ReverseEightCompressedBytes (qw : Z) : Z :=
  let qwMask1 := mask7 0 14 28 42 in
  let qwMask2 := mask7 7 21 35 49 in
  let shf1 := 7 in
  let qwMask3 := mask7 0 7 28 35 in
  let qwMask4 := mask7 14 21 42 49 in
  let shf2 := 14 in
  let qwMask5 := mask7 0 7 14 21 in
  let qwMask6 := mask7 28 35 42 49 in
  let shf3 := 28 in
  let qw2 := Z.lor (Z.shiftr (Z.land qw qwMask2) shf1) (u64 (Z.shiftl (Z.land qw qwMask1) shf1)) in
  let qw3 := Z.lor (Z.shiftr (Z.land qw2 qwMask4) shf2) (u64 (Z.shiftl (Z.land qw2 qwMask3) shf2)) in
  Z.lor (Z.shiftr (Z.land qw3 qwMask6) shf3) (u64 (Z.shiftl (Z.land qw3 qwMask5) shf3)).

(** The seven shifts that close the gaps between the 7-bit values. *)
Definition pack_qword (qw : Z) : Z :=
  ReverseEightCompressedBytes
    (fold_left (fun qw n => ASCII7BITMASKANDSHIFT qw (NBITMASK n)) [7; 14; 21; 28; 35; 42; 49]
       (ReverseEightBytes qw)).

(** The 64-bit loop: output buffer, [ibInput] and [ibOutput]. *)
Fixpoint qword_loop (n : nat) (pv m : mem) (ibInput ibOutput : Z) : mem * Z * Z :=
  match n with
  | O => (m, ibInput, ibOutput)
  | S n => qword_loop n pv (store64 m ibOutput (pack_qword (load64 pv ibInput))) (ibInput + 8) (ibOutput + 7)
  end.

(** ** Packing value by value

    The bit writer: output buffer, position of the next [DWORD] (a byte offset
    for ASCII, an index for Unicode), the [DWORD] being filled and the number
    of its bits in use. *)
Record writer := { w_buf : mem; w_pos : Z; dwOutput : Z; ibitOutputCurr : Z }.

Section Writer.

(** How a full [DWORD] is stored and the position advanced. *)
Variable flush : mem -> Z -> Z -> mem * Z.

(** The [while( true )] loop that copies the bits of one value [i]; each turn
    copies what fits into the current [DWORD].  [None]: out of fuel. *)
Fixpoint copy_bits (fuel : nat) (w : writer) (i cbitsRemaining : Z) : option writer :=
  match fuel with
  | O => None
  | S fuel =>
      let cbitsToCopy := Z.min cbitsRemaining (32 - ibitOutputCurr w) in
      let ulBitMask := u32 (Z.shiftl 1 cbitsToCopy - 1) in
      let dw := Z.lor (dwOutput w) (u32 (Z.shiftl (Z.land i ulBitMask) (ibitOutputCurr w))) in
      let ibit := ibitOutputCurr w + cbitsToCopy in
      let w :=
        if 32 =? ibit then
          let (m, pos) := flush (w_buf w) (w_pos w) dw in
          {| w_buf := m; w_pos := pos; dwOutput := 0; ibitOutputCurr := 0 |}
        else {| w_buf := w_buf w; w_pos := w_pos w; dwOutput := dw; ibitOutputCurr := ibit |} in
      let cbitsRemaining := cbitsRemaining - cbitsToCopy in
      if 0 =? cbitsRemaining then Some w
      else copy_bits fuel w (Z.shiftr i cbitsToCopy) cbitsRemaining
  end.

(** The loop over the values that [value] reads at consecutive indices. *)
Fixpoint copy_values (n : nat) (value : Z -> Z) (w : writer) (ix : Z) : option writer :=
  match n with
  | O => Some w
  | S n => let? w := copy_bits 7 w (value ix) 7 in copy_values n value w (ix + 1)
  end.

End Writer.

(** The bytes of the last, incomplete [DWORD]. *)
Fixpoint write_tail (n : nat) (m : mem) (pb dw : Z) : mem :=
  match n with
  | O => m
  | S n => write_tail n (store8 m pb (Z.land dw 255)) (pb + 1) (Z.shiftr dw 8)
  end.

Definition flush_ascii (m : mem) (ibOutput dw : Z) : mem * Z := (store32 m ibOutput dw, ibOutput + 4).
Definition flush_unicode (m : mem) (idwOutput dw : Z) : mem * Z := (store32 m (1 + 4 * idwOutput) dw, idwOutput + 1).

(** The header byte. *)
Definition signature (s : COMPRESSION_SCHEME) (cbitFinalByte : Z) : Z :=
  Z.lor (Z.shiftl (scheme_id s) 3) cbitFinalByte.

Definition ErrCompress7BitAscii_ (data : CDATA) (pbDataCompressed : mem) (cbDataCompressedMax : Z) : option compressed :=
  let cbData := Cb data in
  if cbDataCompressedMax <? CbCompressed7BitAscii_ cbData
  then Some {| r_err := JET_errBufferTooSmall; r_buf := pbDataCompressed; r_cb := 0 |}
  else
    let cqwInput := cbData / 8 in
    let cqwOutput := Z.quot (cbDataCompressedMax - 1 - 1) 7 in
    let '(m, ibInput, ibOutput) := qword_loop (Z.to_nat (Z.min cqwInput cqwOutput)) (Pv data) pbDataCompressed 0 1 in
    let? w := copy_values flush_ascii (Z.to_nat (cbData - ibInput)) (Pv data)
                {| w_buf := m; w_pos := ibOutput; dwOutput := 0; ibitOutputCurr := 0 |} ibInput in
    let cbTail := (ibitOutputCurr w + 7) / 8 in
    let m := write_tail (Z.to_nat cbTail) (w_buf w) (w_pos w) (dwOutput w) in
    let ibOutput := w_pos w + cbTail in
    let ibit := if 0 =? ibitOutputCurr w then 32 else ibitOutputCurr w in
    let cbitFinalByte := (ibit - 1) mod 8 in
    Some {| r_err := JET_errSuccess;
            r_buf := store8 m 0 (signature COMPRESS_7BITASCII cbitFinalByte);
            r_cb := ibOutput |}.

Definition ErrCompress7BitUnicode_ (data : CDATA) (pbDataCompressed : mem) (cbDataCompressedMax : Z) : option compressed :=
  if cbDataCompressedMax <? CbCompressed7BitUnicode_ (Cb data)
  then Some {| r_err := JET_errBufferTooSmall; r_buf := pbDataCompressed; r_cb := 0 |}
  else
    let? w := copy_values flush_unicode (Z.to_nat (Cb data / 2)) (fun iw => load16 (Pv data) (2 * iw))
                {| w_buf := pbDataCompressed; w_pos := 0; dwOutput := 0; ibitOutputCurr := 0 |} 0 in
    let m := write_tail (Z.to_nat ((ibitOutputCurr w + 7) / 8)) (w_buf w) (1 + 4 * w_pos w) (dwOutput w) in
    let (ibit, idwOutput) := if 0 =? ibitOutputCurr w then (32, w_pos w - 1) else (ibitOutputCurr w, w_pos w) in
    let cbOutput := 1 + idwOutput * 4 + (ibit + 7) / 8 in
    let cbitFinalByte := (ibit - 1) mod 8 in
    Some {| r_err := JET_errSuccess;
            r_buf := store8 m 0 (signature COMPRESS_7BITUNICODE cbitFinalByte);
            r_cb := cbOutput |}.

(** ** Unpacking *)

(** The seven bits at bit [ibitCompressed] of byte [ibCompressed]. *)
Definition read7 (m : mem) (ibCompressed ibitCompressed : Z) : Z :=
  if ibitCompressed <=? 1
  then Z.land (Z.shiftr (m ibCompressed) ibitCompressed) 127
  else let wCompressed := Z.lor (m ibCompressed) (u16 (Z.shiftl (m (ibCompressed + 1)) 8)) in
       Z.land (Z.shiftr wCompressed ibitCompressed) 127.

(** Advance by seven bits. *)
Definition next7 (ibCompressed ibitCompressed : Z) : Z * Z :=
  let ibit := ibitCompressed + 7 in
  if 8 <=? ibit then (ibCompressed + 1, ibit mod 8) else (ibCompressed, ibit).

Fixpoint unpack_ascii (n : nat) (pb m : mem) (ibData ibCompressed ibitCompressed : Z) : mem :=
  match n with
  | O => m
  | S n =>
      let m := store8 m ibData (read7 pb ibCompressed ibitCompressed) in
      let (ib, ibit) := next7 ibCompressed ibitCompressed in
      unpack_ascii n pb m (ibData + 1) ib ibit
  end.

(** The loop that writes a byte and the following null; it may stop between
    the two. *)
Fixpoint unpack_unicode (fuel : nat) (pb m : mem) (ibData ibDataMax ibCompressed ibitCompressed : Z) : mem :=
  match fuel with
  | O => m
  | S fuel =>
      if ibData <? ibDataMax then
        let m := store8 m ibData (read7 pb ibCompressed ibitCompressed) in
        let ibData := ibData + 1 in
        if ibDataMax <=? ibData then m else
        let m := store8 m ibData 0 in
        let ibData := ibData + 1 in
        if ibDataMax <=? ibData then m else
        let (ib, ibit) := next7 ibCompressed ibitCompressed in
        unpack_unicode fuel pb m ibData ibDataMax ib ibit
      else m
  end.

(** [cbitTotal]: the data bits of a compressed value. *)
Definition cbitTotal (d : CDATA) : Z :=
  let bHeader := Pv d 0 in
  let cbitFinal := Z.land bHeader 7 + 1 in
  (Cb d - 2) * 8 + cbitFinal.

Definition ErrDecompress7BitAscii_ (dataCompressed : CDATA) (pbData : option mem) (cbDataMax : Z) : decompressed :=
  let cbTotal := Z.quot (cbitTotal dataCompressed) 7 in
  let err := if cbDataMax <? cbTotal then JET_wrnBufferTruncated else JET_errSuccess in
  match pbData with
  | Some m =>
      if 0 =? cbDataMax then {| d_err := err; d_buf := pbData; d_cb := cbTotal |}
      else
        let ibDataMax := Z.min cbTotal cbDataMax in
        {| d_err := err; d_buf := Some (unpack_ascii (Z.to_nat ibDataMax) (Pv dataCompressed) m 0 1 0); d_cb := cbTotal |}
  | None => {| d_err := err; d_buf := None; d_cb := cbTotal |}
  end.

Definition ErrDecompress7BitUnicode_ (dataCompressed : CDATA) (pbData : option mem) (cbDataMax : Z) : decompressed :=
  let cwTotal := Z.quot (cbitTotal dataCompressed) 7 in
  let cbActual := cwTotal * 2 in
  let err := if cbDataMax <? cbActual then JET_wrnBufferTruncated else JET_errSuccess in
  match pbData with
  | Some m =>
      if 0 =? cbDataMax then {| d_err := err; d_buf := pbData; d_cb := cbActual |}
      else
        let ibDataMax := Z.min cbActual cbDataMax in
        {| d_err := err;
           d_buf := Some (unpack_unicode (Z.to_nat ibDataMax) (Pv dataCompressed) m 0 ibDataMax 1 0);
           d_cb := cbActual |}
  | None => {| d_err := err; d_buf := None; d_cb := cbActual |}
  end.

(** ** XPRESS *)

Section Compressor.
(** [m_cbMin]: smaller data are not given to XPRESS; [m_cbMax]: the size its
    encoders are made for. *)
Variables m_cbMin m_cbMax : Z.

(** Header byte, [WORD] with the original size, compressed block.
    [fOpen]: [ErrXpressEncodeOpen_] found an encoder or had the memory to create
    one; [cbActual0]: what [*pcbDataCompressedActual] held before, kept when there
    is no block. *)
Definition ErrCompressXpress_ (fOpen : bool) (data : CDATA) (pbDataCompressed : mem)
    (cbDataCompressedMax cbActual0 : Z) : option compressed :=
  if negb (fOpen && XpressEncodeCreate_accepts m_cbMax)
  then Some {| r_err := JET_errOutOfMemory; r_buf := pbDataCompressed; r_cb := cbActual0 |} else
  let cbReserved := 1 + 2 in
  let? (cbCompressed, m) :=
    XpressEncode m_cbMax pbDataCompressed cbReserved (cbDataCompressedMax - cbReserved) (Pv data) 0 (Cb data) in
  if (cbCompressed =? 0) || (Cb data <=? cbCompressed + cbReserved)
  then Some {| r_err := errRECCannotCompress; r_buf := m; r_cb := cbActual0 |}
  else
    let m := store8 m 0 (Z.shiftl (scheme_id COMPRESS_XPRESS) 3) in
    let m := store16 m 1 (u16 (Cb data)) in
    Some {| r_err := JET_errSuccess; r_buf := m; r_cb := cbCompressed + cbReserved |}.

(** [data] is scrubbed in place. *)
Definition ErrScrub (data : CDATA) (chScrub : Z) : CDATA :=
  let m := store8 (Pv data) 0 (Z.shiftl (scheme_id COMPRESS_SCRUB) 3) in
  {| Pv := memset m 1 chScrub (Cb data - 1); Cb := Cb data |}.

(** The size is read before anything is known of the length of the value: no
    result when it lies behind its end. *)
Definition ErrDecompressXpress_ (fOpen : bool) (dataCompressed : CDATA) (pbData : option mem) (cbDataMax : Z) : option decompressed :=
  let? cbUncompressed := xget16 (Pv dataCompressed) 0 (Cb dataCompressed) 1 in
  let cbHeader := 1 + 2 in
  let cbCompressedData := Cb dataCompressed - cbHeader in
  let cbWanted := Z.min cbUncompressed cbDataMax in
  match pbData with
  | None => Some {| d_err := JET_wrnBufferTruncated; d_buf := None; d_cb := cbUncompressed |}
  | Some m =>
      if 0 =? cbDataMax then Some {| d_err := JET_wrnBufferTruncated; d_buf := pbData; d_cb := cbUncompressed |}
      else if negb fOpen then Some {| d_err := JET_errOutOfMemory; d_buf := pbData; d_cb := cbUncompressed |}
      else
        let? (cbDecoded, m) := XpressDecode m 0 cbUncompressed cbWanted (Pv dataCompressed) cbHeader cbCompressedData in
        let err :=
          if -1 =? cbDecoded then JET_errDecompressionFailed
          else if cbDataMax <? cbUncompressed then JET_wrnBufferTruncated else JET_errSuccess in
        Some {| d_err := err; d_buf := Some m; d_cb := cbUncompressed |}
  end.

Definition ErrDecompressScrub_ : Z := wrnRECCompressionScrubDetected.

(** ** The entry points *)

(** From the label [Try7bitCompression] on; [r] holds what the XPRESS attempt
    left: error, buffer and size. *)
Definition Try7bitCompression (data : CDATA) (compressFlags : Z) (fCompressed : bool) (r : compressed)
    (cbDataCompressedMax : Z) : option compressed :=
  let err := r_err r in
  if negb (err =? JET_errSuccess) && negb (err =? errRECCannotCompress) && negb (err =? JET_errOutOfMemory)
  then Some r
  else
    let not_packed :=
      Some (if fCompressed then {| r_err := JET_errSuccess; r_buf := r_buf r; r_cb := r_cb r |}
            else {| r_err := errRECCannotCompress; r_buf := r_buf r; r_cb := r_cb r |}) in
    if Z.land compressFlags compress7Bit =? 0 then not_packed
    else
      match Calculate7BitCompressionScheme_ data fCompressed with
      | COMPRESS_7BITASCII => ErrCompress7BitAscii_ data (r_buf r) cbDataCompressedMax
      | COMPRESS_7BITUNICODE => ErrCompress7BitUnicode_ data (r_buf r) cbDataCompressedMax
      | _ => not_packed
      end.

Definition ErrCompress (fOpen : bool) (data : CDATA) (compressFlags : Z) (pbDataCompressed : mem)
    (cbDataCompressedMax cbActual0 : Z) : option compressed :=
  let r0 := {| r_err := JET_errSuccess; r_buf := pbDataCompressed; r_cb := cbActual0 |} in
  if m_cbMin <=? Cb data then
    if negb (Z.land compressFlags compressXpress =? 0) then
      let? r := ErrCompressXpress_ fOpen data pbDataCompressed cbDataCompressedMax cbActual0 in
      if r_err r <? 0 then Try7bitCompression data compressFlags false r cbDataCompressedMax
      else if r_cb r <=? CbCompressed7BitUnicode_ (Cb data)
      then Some {| r_err := JET_errSuccess; r_buf := r_buf r; r_cb := r_cb r |}
      else Try7bitCompression data compressFlags true r cbDataCompressedMax
    else Try7bitCompression data compressFlags false r0 cbDataCompressedMax
  else Try7bitCompression data compressFlags false r0 cbDataCompressedMax.

(** The header byte is read first: no result for an empty value. *)
Definition ErrDecompress (fOpen : bool) (dataCompressed : CDATA) (pbData : option mem) (cbDataMax : Z) : option decompressed :=
  let? bHeader := xget (Pv dataCompressed) 0 (Cb dataCompressed) 0 in
  let bIdentifier := Z.shiftr bHeader 3 in
  if bIdentifier =? scheme_id COMPRESS_7BITASCII then Some (ErrDecompress7BitAscii_ dataCompressed pbData cbDataMax)
  else if bIdentifier =? scheme_id COMPRESS_7BITUNICODE then Some (ErrDecompress7BitUnicode_ dataCompressed pbData cbDataMax)
  else if bIdentifier =? scheme_id COMPRESS_XPRESS then ErrDecompressXpress_ fOpen dataCompressed pbData cbDataMax
  else if bIdentifier =? scheme_id COMPRESS_SCRUB
  then Some {| d_err := ErrDecompressScrub_; d_buf := pbData; d_cb := 0 |}
  else Some {| d_err := JET_errDecompressionFailed; d_buf := pbData; d_cb := 0 |}.

End Compressor.
