(* ===== verification/CompressionBits.v ===== *)
(** * Bit streams and the eight-at-a-time packing

    [digits w n f] is the number whose [w]-bit digits are [f 0 .. f (n-1)]: the
    bytes of a buffer are its 8-bit digits, a packed text its 7-bit digits.
    The 64-bit packing of [ErrCompress7BitAscii_] is shown to turn the 8-bit
    digits of a [QWORD] into 7-bit digits. *)

From Stdlib Require Import ZArith List Lia Bool.
From S2P Require Import Prelude Bits Mem Compression.
Import ListNotations.

(** ** Digits *)

Fixpoint digits (w : Z) (n : nat) (f : Z -> Z) : Z :=
  match n with
  | O => 0
  | S n => f (Z.of_nat n) * 2 ^ (w * Z.of_nat n) + digits w n f
  end.

Lemma digits_ext w n f g : (forall i, 0 <= i < Z.of_nat n -> f i = g i) -> digits w n f = digits w n g.
Proof. induction n; intros H; cbn [digits]; [reflexivity|]. rewrite IHn, H; auto; intros; try apply H; lia. Qed.

Lemma digits_range w n f :
  0 <= w -> (forall i, 0 <= i < Z.of_nat n -> 0 <= f i < 2 ^ w) -> 0 <= digits w n f < 2 ^ (w * Z.of_nat n).
Proof.
  intros Hw; induction n; intros H; cbn [digits]; [rewrite Z.mul_0_r; lia|].
  specialize (IHn ltac:(intros; apply H; lia)). pose proof (H (Z.of_nat n) ltac:(lia)).
  replace (w * Z.of_nat (S n)) with (w + w * Z.of_nat n) by lia.
  rewrite Z.pow_add_r by lia. nia.
Qed.

Lemma testbit_digits w n f i b :
  0 <= b < w -> 0 <= i < Z.of_nat n -> (forall j, 0 <= j < Z.of_nat n -> 0 <= f j < 2 ^ w) ->
  Z.testbit (digits w n f) (w * i + b) = Z.testbit (f i) b.
Proof.
  intros Hb; induction n; intros Hi H; [lia|]; cbn [digits].
  rewrite testbit_shl_add by (try (apply digits_range; [|intros; apply H]); nia).
  destruct (Z.eq_dec i (Z.of_nat n)) as [->|].
  - replace (_ <? _) with false by lia. f_equal; lia.
  - replace (_ <? _) with true by nia. apply IHn; [lia|]. intros; apply H; lia.
Qed.

(** Numbers given by digits are equal when their bits are. *)
Lemma digits_bits w n f x :
  0 < w -> (forall j, 0 <= j < Z.of_nat n -> 0 <= f j < 2 ^ w) -> 0 <= x < 2 ^ (w * Z.of_nat n) ->
  (forall i b, 0 <= i < Z.of_nat n -> 0 <= b < w -> Z.testbit x (w * i + b) = Z.testbit (f i) b) ->
  x = digits w n f.
Proof.
  intros Hw Hf Hx H. apply Z.bits_inj'; intros k Hk.
  pose proof (digits_range w n f ltac:(lia) Hf).
  destruct (Z.lt_ge_cases k (w * Z.of_nat n)).
  - pose proof (Z.div_mod k w ltac:(lia)). pose proof (Z.mod_pos_bound k w ltac:(lia)).
    replace k with (w * (k / w) + k mod w) by lia.
    assert (0 <= k / w < Z.of_nat n) by nia.
    rewrite H, testbit_digits; auto.
  - now rewrite !(testbit_high (w * Z.of_nat n)) by lia.
Qed.

Lemma digits_app w n k f :
  0 <= w -> digits w (n + k) f = digits w n f + digits w k (fun i => f (Z.of_nat n + i)) * 2 ^ (w * Z.of_nat n).
Proof.
  intros Hw; induction k; cbn [digits]; [rewrite Nat.add_0_r; lia|].
  rewrite Nat.add_succ_r; cbn [digits]. rewrite IHk, Nat2Z.inj_add.
  rewrite Z.mul_add_distr_l, Z.pow_add_r by lia. ring.
Qed.

Lemma digits_shift w n f :
  0 <= w -> digits w (S n) f = f 0 + digits w n (fun i => f (1 + i)) * 2 ^ w.
Proof.
  intros; rewrite (digits_app w 1 n) by lia. cbn [digits].
  replace (w * Z.of_nat 1) with w by lia. replace (w * Z.of_nat 0) with 0 by lia.
  change (2 ^ 0) with 1. change (Z.of_nat 0) with 0. rewrite Z.mul_1_r, Z.add_0_r. reflexivity.
Qed.

(** The bytes of a number are its 8-bit digits. *)
Lemma load32_digits m a : load32 m a = digits 8 4 (fun i => m (a + i)).
Proof.
  unfold load32, load16. cbn [digits].
  change (Z.of_nat 3) with 3. change (Z.of_nat 2) with 2. change (Z.of_nat 1) with 1. change (Z.of_nat 0) with 0.
  change (2 ^ (8 * 0)) with 1. change (2 ^ (8 * 1)) with 256.
  change (2 ^ (8 * 2)) with 65536. change (2 ^ (8 * 3)) with 16777216.
  replace (a + 2 + 1) with (a + 3) by lia. replace (a + 0) with a by lia. lia.
Qed.

Lemma load64_digits m a : load64 m a = digits 8 8 (fun i => m (a + i)).
Proof.
  unfold load64. rewrite !load32_digits, (digits_app 8 4 4) by lia.
  rewrite (digits_ext 8 4 (fun i => m (a + 4 + i)) (fun i => m (a + (Z.of_nat 4 + i)))) by (intros; f_equal; lia).
  change (2 ^ (8 * Z.of_nat 4)) with 4294967296. lia.
Qed.

(** ** The index maps of the packing steps *)

(** A test over all indices below a bound. *)
Lemma forall_below (n : nat) (P : Z -> bool) :
  forallb P (map Z.of_nat (seq 0 n)) = true -> forall i, 0 <= i < Z.of_nat n -> P i = true.
Proof.
  intros H i Hi. apply (proj1 (forallb_forall P _) H).
  rewrite <- (Z2Nat.id i) by lia. apply in_map, in_seq. lia.
Qed.

Lemma lor_shiftl_add r b s : 0 <= s -> 0 <= b < 2 ^ s -> Z.lor (Z.shiftl r s) b = r * 2 ^ s + b.
Proof.
  intros Hs Hb. rewrite Z.shiftl_mul_pow2 by lia. apply Z.bits_inj'; intros k Hk.
  rewrite Z.lor_spec, testbit_shl_add, Z.mul_pow2_bits by lia.
  destruct (Z.ltb_spec k s).
  - now rewrite Z.testbit_neg_r by lia.
  - rewrite (testbit_high s b) by lia. apply orb_false_r.
Qed.

Lemma testbit_255 x k : 0 <= k < 8 -> Z.testbit (Z.land x 255) k = Z.testbit x k.
Proof. intros; change 255 with (Z.ones 8). rewrite Z.land_ones by lia. apply Z.mod_pow2_bits_low; lia. Qed.

Lemma land_255_range x : 0 <= Z.land x 255 < 2 ^ 8.
Proof. apply land_range_r; lia. Qed.

Lemma ReverseEightBytes_digits qw :
  ReverseEightBytes qw = digits 8 8 (fun j => Z.land (Z.shiftr qw (8 * (7 - j))) 255).
Proof.
  unfold ReverseEightBytes. cbn [fold_left].
  rewrite !lor_shiftl_add by (try apply land_255_range; lia).
  cbn [digits Z.of_nat Pos.of_succ_nat Pos.succ].
  change (7 - 7) with 0. change (7 - 6) with 1. change (7 - 5) with 2. change (7 - 4) with 3.
  change (7 - 3) with 4. change (7 - 2) with 5. change (7 - 1) with 6. change (7 - 0) with 7.
  repeat match goal with
  | |- context [2 ^ ?e] => let v := eval compute in (2 ^ e) in change (2 ^ e) with v
  end.
  lia.
Qed.

Lemma ReverseEightBytes_bit qw i :
  0 <= i < 64 -> Z.testbit (ReverseEightBytes qw) i = Z.testbit qw (8 * (7 - i / 8) + i mod 8).
Proof.
  intros Hi. rewrite ReverseEightBytes_digits.
  replace i with (8 * (i / 8) + i mod 8) at 1 by zlia.
  rewrite testbit_digits by (intros; try apply land_255_range; zlia).
  rewrite testbit_255, Z.shiftr_spec by zlia. f_equal; zlia.
Qed.

(** A mask keeps the bits below [n] and drops the bit at [n]. *)
Definition close_gap (n i : Z) : Z := if i <? n then i else i + 1.

Lemma close_gap_nonneg n i : 0 <= i -> 0 <= close_gap n i.
Proof. unfold close_gap; case_cmp; lia. Qed.

Lemma NBITMASK_ones n : 0 <= n < 64 -> NBITMASK n = Z.ones n.
Proof.
  intros Hn. unfold NBITMASK, Z.ones. rewrite Z.shiftl_1_l.
  assert (0 < 2 ^ n < 2 ^ 64) by (split; [apply Z.pow_pos_nonneg | apply Z.pow_lt_mono_r]; lia).
  change (2 ^ 64) with 18446744073709551616 in *.
  rewrite (u64_small (2 ^ n)), u64_small by lia. lia.
Qed.

Lemma maskandshift_bit qw n i :
  0 <= n < 64 -> 0 <= i -> Z.testbit (ASCII7BITMASKANDSHIFT qw (NBITMASK n)) i = Z.testbit qw (close_gap n i).
Proof.
  intros Hn Hi. unfold ASCII7BITMASKANDSHIFT, close_gap. rewrite NBITMASK_ones by lia.
  rewrite Z.lor_spec, !Z.land_spec, Z.lnot_spec, Z.shiftr_spec by lia.
  destruct (Z.ltb_spec i n).
  - rewrite Z.ones_spec_low by lia. simpl. now rewrite andb_true_r, andb_false_r, orb_false_r.
  - rewrite Z.ones_spec_high by lia. simpl. now rewrite andb_true_r, andb_false_r.
Qed.

(** A step of [ReverseEightCompressedBytes]: bits under one mask move down by
    [s], bits under the other up by [s]. *)
Definition swap_step (lo hi s qw : Z) : Z :=
  Z.lor (Z.shiftr (Z.land qw hi) s) (u64 (Z.shiftl (Z.land qw lo) s)).

Definition swap_maps (W lo hi s : Z) (pi : Z -> Z) (i : Z) : bool :=
  let down := Z.testbit hi (i + s) in
  let up := (s <=? i) && Z.testbit lo (i - s) in
  if i <? W then xorb down up && (pi i =? if down then i + s else i - s) else negb down && negb up.

Lemma swap_step_bit W lo hi s pi qw i :
  0 <= s -> W <= 64 -> 0 <= hi < 2 ^ 64 ->
  (forall i, 0 <= i < 64 -> swap_maps W lo hi s pi i = true) -> 0 <= i ->
  Z.testbit (swap_step lo hi s qw) i = (i <? W) && Z.testbit qw (pi i).
Proof.
  intros Hs HW Hhi H Hi. unfold swap_step.
  rewrite Z.lor_spec, Z.shiftr_spec, Z.land_spec by lia.
  unfold u64. change 18446744073709551616 with (2 ^ 64).
  destruct (Z.ltb_spec i 64).
  - rewrite Z.mod_pow2_bits_low, Z.shiftl_spec, Z.land_spec by lia.
    specialize (H i ltac:(lia)). unfold swap_maps in H.
    destruct (Z.leb_spec s i); [|rewrite !(Z.testbit_neg_r _ (i - s)) by lia];
    destruct (Z.testbit hi (i + s)), (Z.testbit lo (i - s)), (Z.ltb_spec i W); simpl in H; try discriminate;
      rewrite ?andb_true_r, ?andb_false_r, ?orb_false_r; try apply Z.eqb_eq in H; now rewrite ?H.
  - rewrite Z.mod_pow2_bits_high by lia.
    rewrite (testbit_high 64 hi) by lia. replace (i <? W) with false by lia. now rewrite andb_false_r.
Qed.

(** Group [g] of seven bits goes to group [g] XOR [k]. *)
Definition swap7 (k i : Z) : Z := 7 * Z.lxor (i / 7) k + i mod 7.

Ltac swap_table := apply (forall_below 64); vm_compute; reflexivity.

Lemma ReverseEightCompressedBytes_bit qw i :
  0 <= i -> Z.testbit (ReverseEightCompressedBytes qw) i = (i <? 56) && Z.testbit qw (7 * (7 - i / 7) + i mod 7).
Proof.
  intros Hi. unfold ReverseEightCompressedBytes.
  fold (swap_step (mask7 0 14 28 42) (mask7 7 21 35 49) 7 qw).
  fold (swap_step (mask7 0 7 28 35) (mask7 14 21 42 49) 14 (swap_step (mask7 0 14 28 42) (mask7 7 21 35 49) 7 qw)).
  fold (swap_step (mask7 0 7 14 21) (mask7 28 35 42 49) 28
    (swap_step (mask7 0 7 28 35) (mask7 14 21 42 49) 14 (swap_step (mask7 0 14 28 42) (mask7 7 21 35 49) 7 qw))).
  rewrite (swap_step_bit 56 _ _ 28 (swap7 4)) by (first [lia | (vm_compute; intuition congruence) | swap_table]).
  destruct (Z.ltb_spec i 56); [|reflexivity]; rewrite ?andb_true_l.
  assert (Hs : swap7 1 (swap7 2 (swap7 4 i)) = 7 * (7 - i / 7) + i mod 7 /\ 0 <= swap7 4 i < 56 /\ 0 <= swap7 2 (swap7 4 i) < 56).
  { enough (E : (swap7 1 (swap7 2 (swap7 4 i)) =? 7 * (7 - i / 7) + i mod 7) && (0 <=? swap7 4 i) && (swap7 4 i <? 56)
         && (0 <=? swap7 2 (swap7 4 i)) && (swap7 2 (swap7 4 i) <? 56) = true) by lia.
    apply (forall_below 56 (fun i => (swap7 1 (swap7 2 (swap7 4 i)) =? 7 * (7 - i / 7) + i mod 7) && (0 <=? swap7 4 i)
         && (swap7 4 i <? 56) && (0 <=? swap7 2 (swap7 4 i)) && (swap7 2 (swap7 4 i) <? 56))); [vm_compute; reflexivity | lia]. }
  rewrite (swap_step_bit 56 _ _ 14 (swap7 2)) by (first [lia | (vm_compute; intuition congruence) | swap_table]).
  rewrite (swap_step_bit 56 _ _ 7 (swap7 1)) by (first [lia | (vm_compute; intuition congruence) | swap_table]).
  replace (swap7 4 i <? 56) with true by lia. replace (swap7 2 (swap7 4 i) <? 56) with true by lia.
  rewrite !andb_true_l. f_equal; apply Hs.
Qed.

(** The portable [ReverseEightBytes] is the byte swap. *)
Definition swap8 (k i : Z) : Z := 8 * Z.lxor (i / 8) k + i mod 8.

Lemma ReverseEightBytes_portable_eq qw :
  0 <= qw < 2 ^ 64 -> ReverseEightBytes_portable qw = ReverseEightBytes qw.
Proof.
  intros Hq. apply Z.bits_inj'; intros i Hi. unfold ReverseEightBytes_portable.
  fold (swap_step 0x00FF00FF00FF00FF 0xFF00FF00FF00FF00 8 qw).
  fold (swap_step 0x0000FFFF0000FFFF 0xFFFF0000FFFF0000 16 (swap_step 0x00FF00FF00FF00FF 0xFF00FF00FF00FF00 8 qw)).
  fold (swap_step 0x00000000FFFFFFFF 0xFFFFFFFF00000000 32
    (swap_step 0x0000FFFF0000FFFF 0xFFFF0000FFFF0000 16 (swap_step 0x00FF00FF00FF00FF 0xFF00FF00FF00FF00 8 qw))).
  rewrite (swap_step_bit 64 _ _ 32 (swap8 4)) by (first [lia | swap_table]).
  destruct (Z.ltb_spec i 64).
  - rewrite andb_true_l, ReverseEightBytes_bit by lia.
    assert (Hs : swap8 1 (swap8 2 (swap8 4 i)) = 8 * (7 - i / 8) + i mod 8 /\ 0 <= swap8 4 i < 64 /\ 0 <= swap8 2 (swap8 4 i) < 64).
    { enough (E : (swap8 1 (swap8 2 (swap8 4 i)) =? 8 * (7 - i / 8) + i mod 8) && (0 <=? swap8 4 i) && (swap8 4 i <? 64)
           && (0 <=? swap8 2 (swap8 4 i)) && (swap8 2 (swap8 4 i) <? 64) = true) by lia.
      apply (forall_below 64 (fun i => (swap8 1 (swap8 2 (swap8 4 i)) =? 8 * (7 - i / 8) + i mod 8) && (0 <=? swap8 4 i)
           && (swap8 4 i <? 64) && (0 <=? swap8 2 (swap8 4 i)) && (swap8 2 (swap8 4 i) <? 64))); [vm_compute; reflexivity | lia]. }
    rewrite (swap_step_bit 64 _ _ 16 (swap8 2)) by (first [lia | swap_table]).
    rewrite (swap_step_bit 64 _ _ 8 (swap8 1)) by (first [lia | swap_table]).
    replace (swap8 4 i <? 64) with true by lia. replace (swap8 2 (swap8 4 i) <? 64) with true by lia.
    rewrite !andb_true_l. f_equal; apply Hs.
  - rewrite andb_false_l. symmetry. apply (testbit_high 64); [|lia].
    rewrite ReverseEightBytes_digits. apply (digits_range 8 8); intros; try apply land_255_range; lia.
Qed.

(** Bit [r] of the [g]-th 7-bit group is bit [r] of the [g]-th byte. *)
Lemma pack_qword_bit qw i :
  0 <= i -> Z.testbit (pack_qword qw) i = (i <? 56) && Z.testbit qw (8 * (i / 7) + i mod 7).
Proof.
  intros Hi. unfold pack_qword. rewrite ReverseEightCompressedBytes_bit by lia.
  destruct (Z.ltb_spec i 56); [|reflexivity]; rewrite ?andb_true_l.
  assert (Hj : 0 <= 7 * (7 - i / 7) + i mod 7 < 56) by zlia.
  remember (7 * (7 - i / 7) + i mod 7) as j eqn:Ej.
  cbn [fold_left]. rewrite 7!maskandshift_bit by (try lia; repeat apply close_gap_nonneg; lia).
  assert (Hc : close_gap 7 (close_gap 14 (close_gap 21 (close_gap 28 (close_gap 35 (close_gap 42 (close_gap 49 j)))))) = 8 * (j / 7) + j mod 7).
  { apply Z.eqb_eq. apply (forall_below 56 (fun j => close_gap 7 (close_gap 14 (close_gap 21 (close_gap 28 (close_gap 35 (close_gap 42 (close_gap 49 j)))))) =? 8 * (j / 7) + j mod 7)); [vm_compute; reflexivity | lia]. }
  rewrite Hc, ReverseEightBytes_bit by zlia.
  assert (j / 7 = 7 - i / 7) as -> by zlia. assert (j mod 7 = i mod 7) as -> by zlia.
  pose proof (Z.mod_pos_bound i 7 ltac:(lia)).
  replace ((8 * (7 - i / 7) + i mod 7) / 8) with (7 - i / 7) by (apply Z.div_unique with (i mod 7); lia).
  replace ((8 * (7 - i / 7) + i mod 7) mod 8) with (i mod 7) by (apply Z.mod_unique with (7 - i / 7); lia).
  f_equal; lia.
Qed.

(** Eight bytes below 128 become eight 7-bit digits. *)
Lemma pack_qword_digits pv a :
  (forall i, 0 <= i < 8 -> 0 <= pv (a + i) < 128) ->
  pack_qword (load64 pv a) = digits 7 8 (fun i => pv (a + i)).
Proof.
  intros H. apply digits_bits; [lia | intros; apply H; lia | |].
  - apply bits_range; [lia|]. intros k Hk. rewrite pack_qword_bit by lia.
    change (7 * Z.of_nat 8) with 56 in Hk. now replace (k <? 56) with false by lia.
  - intros i b Hi Hb. rewrite pack_qword_bit by lia. change (Z.of_nat 8) with 8 in Hi.
    replace (_ <? _) with true by lia. rewrite andb_true_l.
    replace (8 * ((7 * i + b) / 7) + (7 * i + b) mod 7) with (8 * i + b) by zlia.
    rewrite load64_digits. rewrite (testbit_digits 8 8 (fun i => pv (a + i))); [reflexivity | lia | lia |].
    intros j Hj. pose proof (H j ltac:(lia)). lia.
Qed.

Lemma pack_qword_range qw : 0 <= pack_qword qw < 2 ^ 56.
Proof.
  apply bits_range; [lia|]. intros k Hk. rewrite pack_qword_bit by lia.
  now replace (k <? 56) with false by lia.
Qed.
