(* ===== verification/CompressionPack.v ===== *)
(** * Packing and unpacking of 7-bit values

    The bytes behind the header of a packed buffer, read as one little-endian
    number, are the number with the values as 7-bit digits.  Both compression
    routines establish this, whatever the mixture of 64-bit and bitwise steps,
    and the decompression loops read the digits back. *)

From Stdlib Require Import ZArith List Lia Bool.
From S2P Require Import Prelude Bits Mem Compression CompressionBits.
Import ListNotations.

(** The [p] bytes behind the header byte as a number. *)
Definition le (m : mem) (p : Z) : Z := digits 8 (Z.to_nat p) (fun i => m (1 + i)).

(** The values [f 0 .. f (n-1)] reduced to seven bits and packed. *)
Definition packed (n : Z) (f : Z -> Z) : Z := digits 7 (Z.to_nat n) (fun i => f i mod 128).

Lemma le_ext m m' p : mem_eq_on 1 (1 + p) m m' -> le m p = le m' p.
Proof. intros H; apply digits_ext; intros; apply H; lia. Qed.

Lemma le_0 m : le m 0 = 0.
Proof. reflexivity. Qed.

Lemma le_app m p k : 0 <= p -> 0 <= k ->
  le m (p + k) = le m p + digits 8 (Z.to_nat k) (fun i => m (1 + p + i)) * 2 ^ (8 * p).
Proof.
  intros. unfold le. rewrite Z2Nat.inj_add, digits_app, Z2Nat.id by lia. do 2 f_equal.
  apply digits_ext; intros; f_equal; lia.
Qed.

Lemma packed_S n f : 0 <= n -> packed (n + 1) f = packed n f + f n mod 128 * 2 ^ (7 * n).
Proof.
  intros. unfold packed. replace (Z.to_nat (n + 1)) with (S (Z.to_nat n)) by lia. cbn [digits].
  rewrite Z2Nat.id by lia. lia.
Qed.

(** ** Stores behind the bytes already written *)

Lemma le_store32 m p dw :
  0 <= p -> 0 <= dw < 2 ^ 32 -> le (store32 m (1 + p) dw) (p + 4) = le m p + dw * 2 ^ (8 * p).
Proof.
  intros. rewrite le_app by lia. f_equal.
  - apply le_ext; intros x Hx; apply store32_frame; lia.
  - f_equal. change (Z.to_nat 4) with 4%nat.
    rewrite <- load32_digits, load32_store32_eq. apply u32_small. lia.
Qed.

Lemma store64_bytes m a v x : a <= x < a + 8 -> 0 <= store64 m a v x < 256.
Proof.
  intros. rewrite (store64_indep m (fun _ => 0)) by lia.
  now apply (store64_ok (fun _ => 0)).
Qed.

(** Eight bytes stored, seven of them used. *)
Lemma le_store64 m p v :
  0 <= p -> 0 <= v < 2 ^ 56 -> le (store64 m (1 + p) v) (p + 7) = le m p + v * 2 ^ (8 * p).
Proof.
  intros Hp Hv. rewrite le_app by lia. f_equal; [apply le_ext; intros x Hx; apply store64_frame; lia|]. f_equal.
  change (Z.to_nat 7) with 7%nat. pose proof (load64_store64_eq m (1 + p) v) as E.
  change (2 ^ 56) with 72057594037927936 in Hv.
  rewrite u64_small, load64_digits in E by lia.
  change 8%nat with (7 + 1)%nat in E. rewrite digits_app in E by lia.
  assert (HD : 0 <= digits 8 7 (fun i => store64 m (1 + p) v (1 + p + i)) < 2 ^ (8 * Z.of_nat 7))
    by (apply digits_range; [lia|]; intros; apply store64_bytes; lia).
  change (2 ^ (8 * Z.of_nat 7)) with 72057594037927936 in *.
  unfold digits at 2 in E. change (2 ^ (8 * Z.of_nat 0)) with 1 in E.
  pose proof (store64_bytes m (1 + p) v (1 + p + (Z.of_nat 7 + Z.of_nat 0)) ltac:(lia)). lia.
Qed.

(** ** The bit writer *)

Lemma pow2_le a b : 0 <= a <= b -> 2 ^ a <= 2 ^ b.
Proof. intros; apply Z.pow_le_mono_r; lia. Qed.

(** The low [c] bits of [i] placed behind the [k] bits of [dw]. *)
Lemma or_bits dw i c k :
  0 <= dw < 2 ^ k -> 0 <= k -> 0 <= c -> k + c <= 32 ->
  Z.lor dw (u32 (Z.shiftl (Z.land i (u32 (Z.shiftl 1 c - 1))) k)) = dw + i mod 2 ^ c * 2 ^ k
  /\ 0 <= dw + i mod 2 ^ c * 2 ^ k < 2 ^ (k + c).
Proof.
  intros Hdw Hk Hc Hkc. rewrite Z.shiftl_1_l.
  assert (Hp : 0 < 2 ^ c <= 2 ^ 32) by (split; [apply Z.pow_pos_nonneg | apply pow2_le]; lia).
  change (2 ^ 32) with 4294967296 in Hp. rewrite (u32_small (2 ^ c - 1)) by lia.
  replace (2 ^ c - 1) with (Z.ones c) by (unfold Z.ones; rewrite Z.shiftl_1_l; lia).
  rewrite Z.land_ones by lia.
  pose proof (Z.mod_pos_bound i (2 ^ c) ltac:(lia)) as Hi.
  assert (Hr : 0 <= dw + i mod 2 ^ c * 2 ^ k < 2 ^ (k + c)) by (rewrite Z.pow_add_r by lia; nia).
  split; [|exact Hr].
  rewrite u32_small.
  - rewrite Z.lor_comm, lor_shiftl_add by lia. lia.
  - rewrite Z.shiftl_mul_pow2 by lia. pose proof (pow2_le (k + c) 32 ltac:(lia)).
    change (2 ^ 32) with 4294967296 in *. nia.
Qed.

Section WriterSpec.
Variable flush : mem -> Z -> Z -> mem * Z.

(** Number of bytes written when the position is [pos]. *)
Variable bytes_at : Z -> Z.
Hypothesis flush_spec : forall m pos dw,
  fst (flush m pos dw) = store32 m (1 + bytes_at pos) dw
  /\ bytes_at (snd (flush m pos dw)) = bytes_at pos + 4.

(** The writer has written [B] bits, which form the number [N]. *)
Definition writer_ok (w : writer) (B N : Z) : Prop :=
  let p := bytes_at (w_pos w) in
  0 <= p /\ B = 8 * p + ibitOutputCurr w /\ 0 <= ibitOutputCurr w < 32
  /\ 0 <= dwOutput w < 2 ^ ibitOutputCurr w
  /\ le (w_buf w) p + dwOutput w * 2 ^ (8 * p) = N.

(** Only the bytes counted by the position have changed. *)
Definition writer_frame (w w' : writer) : Prop :=
  bytes_at (w_pos w) <= bytes_at (w_pos w') /\
  forall x, x < 1 \/ 1 + bytes_at (w_pos w') <= x -> w_buf w' x = w_buf w x.

Lemma writer_frame_refl w : writer_frame w w.
Proof. split; [lia | auto]. Qed.

Lemma writer_frame_trans w1 w2 w3 : writer_frame w1 w2 -> writer_frame w2 w3 -> writer_frame w1 w3.
Proof. intros [H1 F1] [H2 F2]; split; [lia|]. intros x Hx. rewrite F2, F1; auto; lia. Qed.

(** One turn of the copy loop. *)
Lemma copy_step w i c B N :
  writer_ok w B N -> 0 < c -> c <= 32 - ibitOutputCurr w ->
  let dw := Z.lor (dwOutput w) (u32 (Z.shiftl (Z.land i (u32 (Z.shiftl 1 c - 1))) (ibitOutputCurr w))) in
  let ibit := ibitOutputCurr w + c in
  let w' := if 32 =? ibit then
              let (m, pos) := flush (w_buf w) (w_pos w) dw in
              {| w_buf := m; w_pos := pos; dwOutput := 0; ibitOutputCurr := 0 |}
            else {| w_buf := w_buf w; w_pos := w_pos w; dwOutput := dw; ibitOutputCurr := ibit |} in
  writer_ok w' (B + c) (N + i mod 2 ^ c * 2 ^ B) /\ writer_frame w w'.
Proof.
  intros (Hp & HB & Hib & Hdw & HN) Hc Hle.
  destruct (or_bits (dwOutput w) i c (ibitOutputCurr w)) as [E Hr]; try lia. rewrite E. clear E.
  set (dw := dwOutput w + i mod 2 ^ c * 2 ^ ibitOutputCurr w) in *.
  assert (HN' : le (w_buf w) (bytes_at (w_pos w)) + dw * 2 ^ (8 * bytes_at (w_pos w)) = N + i mod 2 ^ c * 2 ^ B)
    by (subst dw; rewrite HB, (Z.add_comm (8 * _)), Z.pow_add_r by lia; rewrite <- HN; ring).
  cbv zeta. destruct (Z.eqb_spec 32 (ibitOutputCurr w + c)) as [E|E].
  - rewrite <- E in Hr. pose proof (flush_spec (w_buf w) (w_pos w) dw) as [F1 F2].
    destruct (flush (w_buf w) (w_pos w) dw) as [m pos]; cbn [fst snd] in F1, F2; subst m.
    split.
    + red; cbn [w_pos w_buf dwOutput ibitOutputCurr]. rewrite F2.
      repeat split; try lia. rewrite le_store32 by lia. lia.
    + split; cbn [w_pos w_buf]; [lia|]. intros x Hx. apply store32_frame. lia.
  - split; [|split; cbn [w_pos w_buf]; [lia | auto]].
    red; cbn [w_pos w_buf dwOutput ibitOutputCurr]. repeat split; try lia.
Qed.

(** The loop copies all bits of a value, with fuel for one bit a turn. *)
Lemma copy_bits_spec fuel : forall w i rem B N,
  writer_ok w B N -> 0 <= B -> 0 < rem <= Z.of_nat fuel ->
  exists w', copy_bits flush fuel w i rem = Some w'
    /\ writer_ok w' (B + rem) (N + i mod 2 ^ rem * 2 ^ B) /\ writer_frame w w'.
Proof.
  induction fuel as [|fuel IH]; intros w i rem B N Hw HB Hrem; [lia|]. cbn [copy_bits].
  set (c := Z.min rem (32 - ibitOutputCurr w)).
  assert (Hib : 0 <= ibitOutputCurr w < 32) by (destruct Hw; tauto).
  pose proof (copy_step w i c B N Hw ltac:(lia) ltac:(lia)) as Hs. cbv zeta in Hs.
  match type of Hs with writer_ok ?x _ _ /\ _ => set (w1 := x) in * end.
  change (writer_ok w1 (B + c) (N + i mod 2 ^ c * 2 ^ B) /\ writer_frame w w1) in Hs. destruct Hs as [Hok Hfr].
  destruct (Z.eqb_spec 0 (rem - c)).
  - exists w1. replace rem with c by lia. auto.
  - destruct (IH w1 (Z.shiftr i c) (rem - c) (B + c) _ Hok) as (w2 & E & Hok2 & Hfr2); [lia | lia |].
    exists w2; split; [exact E|]. split; [|eapply writer_frame_trans; eauto].
    replace (B + c + (rem - c)) with (B + rem) in Hok2 by lia.
    rewrite Z.shiftr_div_pow2 in Hok2 by lia.
    replace (i mod 2 ^ rem) with (i mod 2 ^ c + 2 ^ c * ((i / 2 ^ c) mod 2 ^ (rem - c))).
    + match type of Hok2 with writer_ok _ _ ?a => match goal with |- writer_ok _ _ ?b => replace b with a; [exact Hok2|] end end.
      rewrite (Z.pow_add_r 2 B c) by lia. ring.
    + replace rem with (c + (rem - c)) at 2 by lia. rewrite Z.pow_add_r by lia.
      symmetry; apply Z.rem_mul_r; lia.
Qed.

Lemma copy_values_spec n : forall f w k,
  0 <= k -> writer_ok w (7 * k) (packed k f) ->
  exists w', copy_values flush n f w k = Some w'
    /\ writer_ok w' (7 * (k + Z.of_nat n)) (packed (k + Z.of_nat n) f) /\ writer_frame w w'.
Proof.
  induction n as [|n IH]; intros f w k Hk Hw; cbn [copy_values].
  - exists w. rewrite Z.add_0_r. auto using writer_frame_refl.
  - destruct (copy_bits_spec 7 w (f k) 7 (7 * k) _ Hw) as (w1 & E & Hok & Hfr); [lia | lia |].
    rewrite E. change (2 ^ 7) with 128 in Hok. rewrite <- packed_S in Hok by lia.
    replace (7 * k + 7) with (7 * (k + 1)) in Hok by lia.
    destruct (IH f w1 (k + 1)) as (w2 & E2 & Hok2 & Hfr2); [lia | exact Hok |].
    exists w2; split; [exact E2|].
    replace (k + Z.of_nat (S n)) with (k + 1 + Z.of_nat n) by lia.
    split; [exact Hok2 | eapply writer_frame_trans; eauto].
Qed.

End WriterSpec.

(** ** The last bytes and the header *)

Lemma write_tail_frame n : forall m pb dw x,
  x < pb \/ pb + Z.of_nat n <= x -> write_tail n m pb dw x = m x.
Proof.
  induction n as [|n IH]; intros m pb dw x Hx; cbn [write_tail]; [reflexivity|].
  rewrite IH by lia. rewrite store8_at. case_cmp; lia.
Qed.

Lemma le_write_tail n : forall m p dw,
  0 <= p -> 0 <= dw ->
  le (write_tail n m (1 + p) dw) (p + Z.of_nat n) = le m p + dw mod 2 ^ (8 * Z.of_nat n) * 2 ^ (8 * p).
Proof.
  induction n as [|n IH]; intros m p dw Hp Hdw; cbn [write_tail].
  - change (2 ^ (8 * Z.of_nat 0)) with 1. rewrite Z.mod_1_r. replace (p + Z.of_nat 0) with p by lia. lia.
  - replace (p + Z.of_nat (S n)) with (p + 1 + Z.of_nat n) by lia.
    replace (1 + p + 1) with (1 + (p + 1)) by lia.
    rewrite IH by (try apply Z.shiftr_nonneg; lia).
    rewrite le_app by lia. change (Z.to_nat 1) with 1%nat. cbn [digits].
    replace (8 * Z.of_nat 0) with 0 by lia. change (2 ^ 0) with 1.
    replace (1 + p + Z.of_nat 0) with (1 + p) by lia.
    rewrite (le_ext (store8 m (1 + p) _) m) by (intros x Hx; rewrite store8_at; case_cmp; lia).
    rewrite store8_at, Z.eqb_refl.
    change 255 with (Z.ones 8). rewrite Z.land_ones, Z.shiftr_div_pow2 by lia.
    change (2 ^ 8) with 256. rewrite Z.mod_mod by lia.
    replace (8 * Z.of_nat (S n)) with (8 + 8 * Z.of_nat n) by lia.
    rewrite (Z.pow_add_r 2 8) by lia. rewrite Z.rem_mul_r by lia.
    replace (8 * (p + 1)) with (8 + 8 * p) by lia. rewrite (Z.pow_add_r 2 8) by lia.
    change (2 ^ 8) with 256. ring.
Qed.

(** The format: header byte, then [n] values of seven bits in [(7n + 7) / 8]
    bytes. *)
Definition holds_packed (s : COMPRESSION_SCHEME) (m : mem) (cb n : Z) (f : Z -> Z) : Prop :=
  m 0 = 8 * scheme_id s + (7 * n - 1) mod 8
  /\ cb = 1 + (7 * n + 7) / 8
  /\ le m (cb - 1) = packed n f.

Lemma signature_value s c : 0 <= c < 8 -> signature s c = 8 * scheme_id s + c.
Proof. intros. unfold signature. rewrite lor_shiftl_add by lia. lia. Qed.

Lemma scheme_id_range s : 0 <= scheme_id s <= 4.
Proof. destruct s; cbn; lia. Qed.

(** Writing the last bytes and the header completes the format. *)
Lemma finish_packed bytes_at w s n f :
  0 <= n -> writer_ok bytes_at w (7 * n) (packed n f) ->
  let cbTail := (ibitOutputCurr w + 7) / 8 in
  let ibit := if 0 =? ibitOutputCurr w then 32 else ibitOutputCurr w in
  let p := bytes_at (w_pos w) in
  let m := store8 (write_tail (Z.to_nat cbTail) (w_buf w) (1 + p) (dwOutput w)) 0 (signature s ((ibit - 1) mod 8)) in
  p + cbTail = (7 * n + 7) / 8
  /\ holds_packed s m (1 + (p + cbTail)) n f
  /\ (forall x, x < 0 \/ 1 + (p + cbTail) <= x -> m x = w_buf w x).
Proof.
  intros Hn (Hp & HB & Hib & Hdw & HN) cbTail ibit p m.
  fold p in Hp, HB, HN.
  assert (Ht : 0 <= cbTail <= 4) by (unfold cbTail; zlia).
  assert (E : p + cbTail = (7 * n + 7) / 8) by (rewrite HB; unfold cbTail; zlia).
  split; [exact E|]. split.
  - split; [|split; [lia|]].
    + unfold m. rewrite store8_at, Z.eqb_refl, signature_value by (apply Z.mod_pos_bound; lia).
      pose proof (scheme_id_range s). pose proof (Z.mod_pos_bound (ibit - 1) 8 ltac:(lia)).
      rewrite Z.mod_small by lia. f_equal. rewrite HB. unfold ibit. case_cmp; zlia.
    + replace (1 + (p + cbTail) - 1) with (p + Z.of_nat (Z.to_nat cbTail)) by lia.
      unfold m. rewrite (le_ext (store8 _ _ _) (write_tail (Z.to_nat cbTail) (w_buf w) (1 + p) (dwOutput w)))
        by (intros x Hx; rewrite store8_at; case_cmp; lia).
      rewrite le_write_tail by lia. rewrite Z.mod_small; [exact HN|].
      split; [lia|]. apply Z.lt_le_trans with (2 ^ ibitOutputCurr w); [lia|]. apply pow2_le. unfold cbTail. zlia.
  - intros x Hx. unfold m. rewrite store8_at. replace (x =? 0) with false by lia.
    apply write_tail_frame. lia.
Qed.

(** ** The 64-bit loop *)

Lemma packed_qword q f :
  0 <= q -> (forall i, 0 <= i < 8 -> 0 <= f (8 * q + i) < 128) ->
  packed (8 * (q + 1)) f = packed (8 * q) f + digits 7 8 (fun i => f (8 * q + i)) * 2 ^ (56 * q).
Proof.
  intros Hq H. unfold packed. replace (Z.to_nat (8 * (q + 1))) with (Z.to_nat (8 * q) + 8)%nat by lia.
  rewrite digits_app, Z2Nat.id by lia. do 2 f_equal; [|f_equal; lia].
  apply digits_ext; intros i Hi. apply Z.mod_small, H. lia.
Qed.

Lemma qword_loop_spec n : forall pv m q,
  0 <= q -> (forall i, 8 * q <= i < 8 * (q + Z.of_nat n) -> 0 <= pv i < 128) ->
  le m (7 * q) = packed (8 * q) pv ->
  exists m', qword_loop n pv m (8 * q) (1 + 7 * q) = (m', 8 * (q + Z.of_nat n), 1 + 7 * (q + Z.of_nat n))
    /\ le m' (7 * (q + Z.of_nat n)) = packed (8 * (q + Z.of_nat n)) pv
    /\ (forall x, x < 1 \/ (0 < n)%nat /\ 2 + 7 * (q + Z.of_nat n) <= x \/ n = O -> m' x = m x).
Proof.
  induction n as [|n IH]; intros pv m q Hq Hb Hm; cbn [qword_loop].
  - exists m. replace (q + Z.of_nat 0) with q by lia. auto.
  - destruct (IH pv (store64 m (1 + 7 * q) (pack_qword (load64 pv (8 * q)))) (q + 1)) as (m' & E & Hle & Hfr).
    + lia.
    + intros; apply Hb; lia.
    + replace (7 * (q + 1)) with (7 * q + 7) by lia.
      rewrite le_store64, Hm, packed_qword by (try apply pack_qword_range; intros; try apply Hb; lia).
      rewrite pack_qword_digits by (intros; apply Hb; lia). do 3 f_equal; lia.
    + exists m'. replace (8 * q + 8) with (8 * (q + 1)) by lia. replace (1 + 7 * q + 7) with (1 + 7 * (q + 1)) by lia.
      replace (q + Z.of_nat (S n)) with (q + 1 + Z.of_nat n) by lia.
      split; [exact E|]. split; [exact Hle|]. intros x Hx.
      rewrite Hfr by lia. apply store64_frame. lia.
Qed.

(** ** The two compression routines *)

(** An output buffer is written inside its bounds only. *)
Definition writes_within (lo hi : Z) (m m' : mem) : Prop := forall x, x < lo \/ hi <= x -> m' x = m x.

Lemma CbCompressed7BitAscii_value cb :
  0 <= cb -> 7 * cb + 7 < 2147483648 -> CbCompressed7BitAscii_ cb = 1 + (7 * cb + 7) / 8.
Proof.
  intros. unfold CbCompressed7BitAscii_. rewrite (s32_small (cb * 7)), s32_small by lia.
  rewrite Z.quot_div_nonneg by lia. rewrite (Z.mul_comm cb). lia.
Qed.

Lemma flush_ascii_spec m pos dw :
  fst (flush_ascii m pos dw) = store32 m (1 + (pos - 1)) dw
  /\ snd (flush_ascii m pos dw) - 1 = pos - 1 + 4.
Proof. unfold flush_ascii; cbn [fst snd]. split; [f_equal|]; lia. Qed.

Lemma flush_unicode_spec m pos dw :
  fst (flush_unicode m pos dw) = store32 m (1 + 4 * pos) dw
  /\ 4 * snd (flush_unicode m pos dw) = 4 * pos + 4.
Proof. unfold flush_unicode; cbn [fst snd]. split; [reflexivity | lia]. Qed.

Lemma writer_start bytes_at m pos k f :
  0 <= bytes_at pos -> 7 * k = 8 * bytes_at pos -> le m (bytes_at pos) = packed k f ->
  writer_ok bytes_at {| w_buf := m; w_pos := pos; dwOutput := 0; ibitOutputCurr := 0 |} (7 * k) (packed k f).
Proof. intros. red; cbn [w_buf w_pos dwOutput ibitOutputCurr]. change (2 ^ 0) with 1. repeat split; lia. Qed.

Lemma compress_ascii_spec data m cbMax :
  0 <= Cb data -> 7 * Cb data + 7 < 2147483648 ->
  (forall i, 0 <= i < Cb data -> 0 <= Pv data i < 128) ->
  CbCompressed7BitAscii_ (Cb data) <= cbMax ->
  exists r, ErrCompress7BitAscii_ data m cbMax = Some r
    /\ r_err r = JET_errSuccess
    /\ r_cb r = CbCompressed7BitAscii_ (Cb data)
    /\ holds_packed COMPRESS_7BITASCII (r_buf r) (r_cb r) (Cb data) (Pv data)
    /\ writes_within 0 cbMax m (r_buf r).
Proof.
  intros Hcb Hint Hb Hmax. unfold ErrCompress7BitAscii_.
  pose proof (CbCompressed7BitAscii_value (Cb data) Hcb Hint) as Hsize.
  replace (cbMax <? _) with false by lia.
  set (q := Z.min (Cb data / 8) (Z.quot (cbMax - 1 - 1) 7)).
  assert (Hq : 0 <= q /\ 8 * q <= Cb data /\ (0 < q -> 2 + 7 * q <= cbMax)).
  { unfold q. destruct (Z.lt_ge_cases cbMax 2).
    - assert (cbMax = 1) as -> by zlia. change (Z.quot (1 - 1 - 1) 7) with 0. zlia.
    - rewrite Z.quot_div_nonneg by lia. zlia. }
  destruct (qword_loop_spec (Z.to_nat q) (Pv data) m 0) as (m1 & E1 & Hle1 & Hfr1);
    [lia | intros; apply Hb; lia | reflexivity |].
  rewrite Z2Nat.id, Z.add_0_l in E1, Hle1, Hfr1 by lia.
  replace (qword_loop _ _ _ 0 1) with (m1, 8 * q, 1 + 7 * q) by (symmetry; exact E1).
  destruct (copy_values_spec flush_ascii (fun pos => pos - 1) flush_ascii_spec (Z.to_nat (Cb data - 8 * q)) (Pv data)
              {| w_buf := m1; w_pos := 1 + 7 * q; dwOutput := 0; ibitOutputCurr := 0 |} (8 * q))
    as (w & Ew & Hw & _ & Hfr); [lia | |].
  { apply writer_start; [lia | lia |]. replace (1 + 7 * q - 1) with (7 * q) by lia. exact Hle1. }
  rewrite Ew. replace (8 * q + Z.of_nat (Z.to_nat (Cb data - 8 * q))) with (Cb data) in Hw by lia.
  destruct (finish_packed _ w COMPRESS_7BITASCII (Cb data) (Pv data) Hcb Hw) as (E & Hpk & Hfr2).
  cbv zeta beta in E, Hpk, Hfr2. replace (1 + (w_pos w - 1)) with (w_pos w) in Hpk, Hfr2 by lia.
  replace (1 + (w_pos w - 1 + (ibitOutputCurr w + 7) / 8)) with (w_pos w + (ibitOutputCurr w + 7) / 8) in Hpk, Hfr2 by lia.
  eexists; split; [reflexivity|]. cbn [r_err r_cb r_buf].
  split; [reflexivity|]. split; [lia|]. split; [exact Hpk|].
  intros x Hx. assert (0 <= (ibitOutputCurr w + 7) / 8) by (destruct Hw as (? & ? & ? & _); zlia).
  rewrite Hfr2 by lia. cbn [w_pos w_buf] in Hfr. rewrite Hfr by lia. apply Hfr1. lia.
Qed.

Lemma compress_unicode_spec data m cbMax :
  0 <= Cb data -> CbCompressed7BitUnicode_ (Cb data) <= cbMax ->
  exists r, ErrCompress7BitUnicode_ data m cbMax = Some r
    /\ r_err r = JET_errSuccess
    /\ r_cb r = CbCompressed7BitUnicode_ (Cb data)
    /\ holds_packed COMPRESS_7BITUNICODE (r_buf r) (r_cb r) (Cb data / 2) (fun iw => load16 (Pv data) (2 * iw))
    /\ writes_within 0 cbMax m (r_buf r).
Proof.
  intros Hcb Hmax. unfold ErrCompress7BitUnicode_. replace (cbMax <? _) with false by lia.
  unfold CbCompressed7BitUnicode_ in *. set (n := Cb data / 2) in *. assert (Hn : 0 <= n) by (unfold n; zlia).
  destruct (copy_values_spec flush_unicode (fun pos => 4 * pos) flush_unicode_spec (Z.to_nat n)
              (fun iw => load16 (Pv data) (2 * iw))
              {| w_buf := m; w_pos := 0; dwOutput := 0; ibitOutputCurr := 0 |} 0)
    as (w & Ew & Hw & _ & Hfr); [lia | apply writer_start; [lia | lia | reflexivity] |].
  rewrite Ew. replace (0 + Z.of_nat (Z.to_nat n)) with n in Hw by lia.
  destruct (finish_packed _ w COMPRESS_7BITUNICODE n _ Hn Hw) as (E & Hpk & Hfr2).
  cbv zeta beta in E, Hpk, Hfr2. destruct Hw as (Hp & HB & Hib & _).
  assert (Ecb : (if 0 =? ibitOutputCurr w then 1 + (w_pos w - 1) * 4 + (32 + 7) / 8
                 else 1 + w_pos w * 4 + (ibitOutputCurr w + 7) / 8) = 1 + (4 * w_pos w + (ibitOutputCurr w + 7) / 8))
    by (change ((32 + 7) / 8) with 4; case_cmp; [|lia]; replace (ibitOutputCurr w) with 0 by lia; change ((0 + 7) / 8) with 0; lia).
  rewrite <- Ecb in Hpk, Hfr2. rewrite (Z.mul_comm n 7) in *.
  assert (0 <= (ibitOutputCurr w + 7) / 8) by zlia.
  destruct (Z.eqb_spec 0 (ibitOutputCurr w)); (eexists; split; [reflexivity|]; cbn [r_err r_cb r_buf];
    split; [reflexivity|]; split; [lia|]; split; [exact Hpk|];
    intros x Hx; rewrite Hfr2 by lia; cbn [w_pos w_buf] in Hfr; apply Hfr; lia).
Qed.

(** ** Buffers keep holding bytes *)

Lemma flush_ascii_ok m pos dw : mem_ok m -> mem_ok (fst (flush_ascii m pos dw)).
Proof. apply store32_ok. Qed.

Lemma flush_unicode_ok m pos dw : mem_ok m -> mem_ok (fst (flush_unicode m pos dw)).
Proof. apply store32_ok. Qed.

Lemma copy_bits_ok flush (Hf : forall m pos dw, mem_ok m -> mem_ok (fst (flush m pos dw))) fuel : forall w i rem w',
  mem_ok (w_buf w) -> copy_bits flush fuel w i rem = Some w' -> mem_ok (w_buf w').
Proof.
  induction fuel as [|fuel IH]; intros w i rem w' Hw E; cbn [copy_bits] in E; [discriminate|].
  cbv zeta in E.
  match type of E with (if _ then Some ?x else _) = _ => set (w1 := x) in E end.
  assert (H1 : mem_ok (w_buf w1)).
  { unfold w1. destruct (32 =? _); [|exact Hw].
    match goal with |- context [flush ?a ?b ?c] => pose proof (Hf a b c Hw); destruct (flush a b c) end. assumption. }
  destruct (0 =? _); [injection E as <-; exact H1 | eapply IH; eauto].
Qed.

Lemma copy_values_S flush n f w k :
  copy_values flush (S n) f w k = let? w := copy_bits flush 7 w (f k) 7 in copy_values flush n f w (k + 1).
Proof. reflexivity. Qed.

Lemma copy_values_ok flush (Hf : forall m pos dw, mem_ok m -> mem_ok (fst (flush m pos dw))) n : forall f w k w',
  mem_ok (w_buf w) -> copy_values flush n f w k = Some w' -> mem_ok (w_buf w').
Proof.
  induction n as [|n IH]; intros f w k w' Hw E; [injection E as <-; exact Hw|].
  rewrite copy_values_S in E. pose proof (copy_bits_ok flush Hf 7 w (f k) 7) as H1.
  destruct (copy_bits flush 7 w (f k) 7) as [w1|]; [|discriminate].
  exact (IH f w1 (k + 1) w' (H1 w1 Hw eq_refl) E).
Qed.

Lemma write_tail_ok n : forall m pb dw, mem_ok m -> mem_ok (write_tail n m pb dw).
Proof. induction n as [|n IH]; intros; cbn [write_tail]; [assumption|]. apply IH, store8_ok; assumption. Qed.

Lemma qword_loop_ok n : forall pv m i o, mem_ok m -> mem_ok (fst (fst (qword_loop n pv m i o))).
Proof. induction n as [|n IH]; intros; cbn [qword_loop]; [assumption|]. apply IH, store64_ok; assumption. Qed.

Lemma compress_ascii_ok data m cbMax r :
  mem_ok m -> ErrCompress7BitAscii_ data m cbMax = Some r -> mem_ok (r_buf r).
Proof.
  intros Hm. unfold ErrCompress7BitAscii_. destruct (_ <? _); [intros [= <-]; exact Hm|].
  match goal with |- context [qword_loop ?a ?b ?c ?d ?e] =>
    pose proof (qword_loop_ok a b c d e Hm) as H1; destruct (qword_loop a b c d e) as [[m1 ii] io] end.
  cbn [fst] in H1. destruct (copy_values _ _ _ _ _) as [w|] eqn:E; [|discriminate]. intros [= <-].
  cbn [r_buf]. apply store8_ok, write_tail_ok. apply (copy_values_ok _ flush_ascii_ok) in E; [exact E | exact H1].
Qed.

Lemma compress_unicode_ok data m cbMax r :
  mem_ok m -> ErrCompress7BitUnicode_ data m cbMax = Some r -> mem_ok (r_buf r).
Proof.
  intros Hm. unfold ErrCompress7BitUnicode_. destruct (_ <? _); [intros [= <-]; exact Hm|].
  destruct (copy_values _ _ _ _ _) as [w|] eqn:E; [|discriminate].
  assert (Hw : mem_ok (w_buf w)) by (apply (copy_values_ok _ flush_unicode_ok) in E; [exact E | exact Hm]).
  destruct (if 0 =? _ then _ else _) as [ibit idw]. intros [= <-]. cbn [r_buf]. now apply store8_ok, write_tail_ok.
Qed.

(** * Unpacking: what the decompression loops read and write *)

(** ** Reading one value *)

(** The value at index [k]: its first bit is bit [7k mod 8] of byte [7k / 8]. *)
Definition value7 (pb : mem) (k : Z) : Z := read7 pb (1 + 7 * k / 8) ((7 * k) mod 8).

Lemma read7_range m ib ibit : 0 <= read7 m ib ibit < 128.
Proof. unfold read7. destruct (_ <=? _); apply (land_range_r 7); lia. Qed.

Lemma land_127_bit x b : 0 <= b < 7 -> Z.testbit (Z.land x 127) b = Z.testbit x b.
Proof. intros; change 127 with (Z.ones 7). rewrite Z.land_ones by lia. apply Z.mod_pow2_bits_low; lia. Qed.

Lemma value7_bit m k b :
  0 <= k -> 0 <= b < 7 ->
  0 <= m (1 + 7 * k / 8) < 256 -> 0 <= m (1 + 7 * k / 8 + 1) < 256 ->
  Z.testbit (value7 m k) b = Z.testbit (m (1 + (7 * k + b) / 8)) ((7 * k + b) mod 8).
Proof.
  intros Hk Hb H0 H1. unfold value7, read7.
  assert (Hc : 0 <= (7 * k) mod 8 < 8) by (apply Z.mod_pos_bound; lia).
  destruct (Z.leb_spec ((7 * k) mod 8) 1).
  - rewrite land_127_bit, Z.shiftr_spec by lia. f_equal; [f_equal|]; zlia.
  - rewrite land_127_bit, Z.shiftr_spec by lia.
    rewrite Z.shiftl_mul_pow2 by lia. change (2 ^ 8) with 256. rewrite u16_small by lia.
    rewrite Z.lor_comm, <- (Z.shiftl_mul_pow2 _ 8), lor_shiftl_add by lia.
    rewrite testbit_shl_add by lia.
    destruct (Z.ltb_spec (b + (7 * k) mod 8) 8).
    + f_equal; [f_equal|]; zlia.
    + f_equal; [f_equal|]; zlia.
Qed.

(** A value reads at most the bytes its seven bits lie in. *)
Lemma value7_ext m m' k p :
  0 <= k -> 7 * k + 7 <= 8 * p -> mem_eq_on 1 (1 + p) m m' -> value7 m k = value7 m' k.
Proof.
  intros Hk Hp H. unfold value7, read7.
  assert (E : m (1 + 7 * k / 8) = m' (1 + 7 * k / 8)) by (apply H; zlia). rewrite E.
  destruct (Z.leb_spec ((7 * k) mod 8) 1); [reflexivity|].
  assert (E' : m (1 + 7 * k / 8 + 1) = m' (1 + 7 * k / 8 + 1)) by (apply H; zlia). now rewrite E'.
Qed.

(** Values read from a packed buffer are its 7-bit digits. *)
Lemma value7_packed m p n f k :
  (forall a, 1 <= a < 1 + p -> 0 <= m a < 256) -> le m p = packed n f ->
  0 <= k < n -> 7 * n <= 8 * p -> value7 m k = f k mod 128.
Proof.
  intros Hm E Hk Hp.
  set (m' := fun a => if (1 <=? a) && (a <? 1 + p) then m a else 0).
  assert (Heq : mem_eq_on 1 (1 + p) m m')
    by (intros a Ha; unfold m'; replace (1 <=? a) with true by lia; replace (a <? 1 + p) with true by lia; reflexivity).
  assert (Hok : forall a, 0 <= m' a < 256)
    by (intros a; unfold m'; destruct (Z.leb_spec 1 a), (Z.ltb_spec a (1 + p)); cbn [andb]; try lia; apply Hm; lia).
  rewrite (value7_ext m m' k p) by (auto; lia). rewrite (le_ext m m' p Heq) in E.
  apply Z.bits_inj'; intros b Hb. destruct (Z.lt_ge_cases b 7).
  - rewrite value7_bit by (auto; lia). unfold packed, le in E.
    rewrite <- (testbit_digits 7 (Z.to_nat n) (fun i => f i mod 128)) by (try lia; intros; apply Z.mod_pos_bound; lia).
    rewrite <- E. remember (7 * k + b) as t eqn:Et.
    replace t with (8 * (t / 8) + t mod 8) at 3 by zlia.
    rewrite testbit_digits; [reflexivity | apply Z.mod_pos_bound; lia | rewrite Z2Nat.id; zlia |].
    intros; apply Hok.
  - rewrite !(testbit_high 7); try lia.
    + apply Z.mod_pos_bound; lia.
    + apply read7_range.
Qed.

(** ** The loops *)

Lemma next7_value k : 0 <= k ->
  next7 (1 + 7 * k / 8) ((7 * k) mod 8) = (1 + 7 * (k + 1) / 8, (7 * (k + 1)) mod 8).
Proof.
  intros. unfold next7. destruct (Z.leb_spec 8 ((7 * k) mod 8 + 7)); f_equal; zlia.
Qed.

Lemma unpack_ascii_spec n : forall pb m k x,
  0 <= k ->
  unpack_ascii n pb m k (1 + 7 * k / 8) ((7 * k) mod 8) x
  = if (k <=? x) && (x <? k + Z.of_nat n) then value7 pb x else m x.
Proof.
  induction n as [|n IH]; intros pb m k x Hk; cbn [unpack_ascii].
  - replace (k + Z.of_nat 0) with k by lia. case_cmp; cbn [andb]; lia.
  - rewrite next7_value by lia. cbn [fst snd]. rewrite IH by lia. rewrite store8_at.
    fold (value7 pb k). assert (Hr : value7 pb k mod 256 = value7 pb k)
      by (apply Z.mod_small; pose proof (read7_range pb (1 + 7 * k / 8) ((7 * k) mod 8)); unfold value7; lia).
    rewrite Hr. destruct (Z.eqb_spec x k) as [->|].
    + replace (k + 1 <=? k) with false by lia. replace (k <=? k) with true by lia.
      rewrite (proj2 (Z.ltb_lt k (k + Z.of_nat (S n)))) by lia. reflexivity.
    + case_cmp; cbn [andb]; try lia; reflexivity.
Qed.

Lemma unpack_unicode_spec fuel : forall pb m k N x,
  0 <= k -> 2 * k <= N -> N - 2 * k <= 2 * Z.of_nat fuel ->
  unpack_unicode fuel pb m (2 * k) N (1 + 7 * k / 8) ((7 * k) mod 8) x
  = if (2 * k <=? x) && (x <? N) then if x mod 2 =? 0 then value7 pb (x / 2) else 0 else m x.
Proof.
  induction fuel as [|fuel IH]; intros pb m k N x Hk HN Hf; cbn [unpack_unicode].
  - replace N with (2 * k) by lia. case_cmp; cbn [andb]; lia.
  - fold (value7 pb k). assert (Hr : value7 pb k mod 256 = value7 pb k)
      by (apply Z.mod_small; pose proof (read7_range pb (1 + 7 * k / 8) ((7 * k) mod 8)); unfold value7; lia).
    assert (Hx0 : x = 2 * k -> x mod 2 = 0 /\ x / 2 = k) by (intros ->; zlia).
    assert (Hx1 : x = 2 * k + 1 -> x mod 2 = 1) by (intros ->; zlia).
    assert (Hs : forall m', store8 m' (2 * k) (value7 pb k) x = if x =? 2 * k then value7 pb k else m' x)
      by (intros; rewrite store8_at, Hr; reflexivity).
    destruct (Z.ltb_spec (2 * k) N); [|case_cmp; cbn [andb]; lia].
    destruct (Z.leb_spec N (2 * k + 1)).
    { rewrite Hs. destruct (Z.eqb_spec x (2 * k)) as [e|e].
      - destruct (Hx0 e) as [-> ->]. case_cmp; cbn [andb]; lia.
      - case_cmp; cbn [andb]; lia. }
    destruct (Z.leb_spec N (2 * k + 1 + 1)).
    { rewrite store8_at, Hs. destruct (Z.eqb_spec x (2 * k + 1)) as [e1|e1].
      - rewrite (Hx1 e1). change (1 =? 0) with false. change (0 mod 256) with 0. case_cmp; cbn [andb]; lia.
      - destruct (Z.eqb_spec x (2 * k)) as [e|e].
        + destruct (Hx0 e) as [-> ->]. case_cmp; cbn [andb]; lia.
        + case_cmp; cbn [andb]; lia. }
    rewrite next7_value by lia. replace (2 * k + 1 + 1) with (2 * (k + 1)) by lia.
    rewrite IH by lia. rewrite store8_at, Hs.
    destruct (Z.eqb_spec x (2 * k + 1)) as [e1|e1]; [|destruct (Z.eqb_spec x (2 * k)) as [e|e]].
    + replace (2 * (k + 1) <=? x) with false by lia. rewrite (Hx1 e1). change (1 =? 0) with false.
      change (0 mod 256) with 0. case_cmp; cbn [andb]; lia.
    + replace (2 * (k + 1) <=? x) with false by lia. destruct (Hx0 e) as [-> ->]. case_cmp; cbn [andb]; lia.
    + replace (2 * (k + 1) <=? x) with (2 * k <=? x) by (case_cmp; lia). reflexivity.
Qed.

(** ** Decompression of packed data *)

Lemma cbitTotal_packed s dc n f :
  0 <= n -> holds_packed s (Pv dc) (Cb dc) n f -> cbitTotal dc = 7 * n.
Proof.
  intros Hn (H0 & Hcb & _). unfold cbitTotal. rewrite H0, Hcb.
  pose proof (Z.mod_pos_bound (7 * n - 1) 8 ltac:(lia)).
  replace (Z.land (8 * scheme_id s + (7 * n - 1) mod 8) 7) with ((7 * n - 1) mod 8); [zlia|].
  generalize dependent ((7 * n - 1) mod 8). intros c Hc. change 7 with (Z.ones 3). rewrite Z.land_ones by lia.
  change (2 ^ 3) with 8. symmetry; rewrite Z.add_comm, Z.mul_comm, Z.mod_add, Z.mod_small by lia. reflexivity.
Qed.

(** What a decompression returns: the length, the warning when the buffer is
    too small, and the values that fit, nothing else being written. *)
Definition returns (r : decompressed) (mo : mem) (cbMax n : Z) (f : Z -> Z) : Prop :=
  d_cb r = n
  /\ d_err r = (if cbMax <? n then JET_wrnBufferTruncated else JET_errSuccess)
  /\ exists m', d_buf r = Some m' /\ forall x, m' x = if (0 <=? x) && (x <? Z.min n cbMax) then f x else mo x.

Lemma quot_7 n : Z.quot (7 * n) 7 = n.
Proof. rewrite Z.mul_comm. apply Z.quot_mul. lia. Qed.

Section Decompress.
Variables (dc : CDATA) (n : Z) (f : Z -> Z) (mo : mem) (cbMax : Z).
Hypothesis Hn : 0 <= n.
Hypothesis Hbytes : mem_ok (Pv dc).
Hypothesis HcbMax : 0 < cbMax.

Lemma packed_value s k :
  holds_packed s (Pv dc) (Cb dc) n f -> 0 <= k < n -> value7 (Pv dc) k = f k mod 128.
Proof.
  intros (_ & Hcb & Hle) Hk. apply (value7_packed _ (Cb dc - 1) n); auto. rewrite Hcb. zlia.
Qed.

Lemma decompress_ascii_spec :
  holds_packed COMPRESS_7BITASCII (Pv dc) (Cb dc) n f ->
  returns (ErrDecompress7BitAscii_ dc (Some mo) cbMax) mo cbMax n (fun i => f i mod 128).
Proof.
  intros Hp. unfold ErrDecompress7BitAscii_. rewrite (cbitTotal_packed _ _ _ _ Hn Hp), quot_7.
  replace (0 =? cbMax) with false by lia. split; [reflexivity|]. split; [reflexivity|].
  eexists; split; [reflexivity|]. intros x.
  pose proof (unpack_ascii_spec (Z.to_nat (Z.min n cbMax)) (Pv dc) mo 0 x ltac:(lia)) as E.
  change (1 + 7 * 0 / 8) with 1 in E. change ((7 * 0) mod 8) with 0 in E. rewrite E, Z.add_0_l, Z2Nat.id by lia.
  destruct (Z.leb_spec 0 x), (Z.ltb_spec x (Z.min n cbMax)); cbn [andb]; try reflexivity.
  apply (packed_value _ _ Hp). lia.
Qed.

Lemma decompress_unicode_spec :
  holds_packed COMPRESS_7BITUNICODE (Pv dc) (Cb dc) n f ->
  returns (ErrDecompress7BitUnicode_ dc (Some mo) cbMax) mo cbMax (n * 2)
    (fun i => if i mod 2 =? 0 then f (i / 2) mod 128 else 0).
Proof.
  intros Hp. unfold ErrDecompress7BitUnicode_. rewrite (cbitTotal_packed _ _ _ _ Hn Hp), quot_7.
  replace (0 =? cbMax) with false by lia. split; [reflexivity|]. split; [reflexivity|].
  eexists; split; [reflexivity|]. intros x.
  pose proof (unpack_unicode_spec (Z.to_nat (Z.min (n * 2) cbMax)) (Pv dc) mo 0 (Z.min (n * 2) cbMax) x
                ltac:(lia) ltac:(lia) ltac:(lia)) as E.
  change (2 * 0) with 0 in E. change (1 + 7 * 0 / 8) with 1 in E. change ((7 * 0) mod 8) with 0 in E. rewrite E.
  destruct (Z.leb_spec 0 x), (Z.ltb_spec x (Z.min (n * 2) cbMax)); cbn [andb]; try reflexivity.
  destruct (x mod 2 =? 0); [|reflexivity]. apply (packed_value _ _ Hp). zlia.
Qed.

End Decompress.

(** ** Arbitrary input *)

(** The count of values computed from the header fits the data. *)
Lemma cbitTotal_bound dc : 1 <= Cb dc -> 7 * Z.quot (cbitTotal dc) 7 <= 8 * (Cb dc - 1).
Proof.
  intros H. assert (Ht : cbitTotal dc <= 8 * (Cb dc - 1)).
  { unfold cbitTotal. pose proof (land_range_r 3 (Pv dc 0) 7 ltac:(lia)). change (2 ^ 3) with 8 in *. lia. }
  destruct (Z.lt_ge_cases (cbitTotal dc) 0) as [Hneg|Hpos].
  - pose proof (Z.quot_opp_l (- cbitTotal dc) 7 ltac:(lia)) as E. rewrite Z.opp_involutive in E.
    rewrite E, Z.quot_div_nonneg by lia. zlia.
  - rewrite Z.quot_div_nonneg by lia. zlia.
Qed.

Lemma unpack_ascii_ext n pb pb' m p :
  7 * Z.of_nat n <= 8 * p -> mem_eq_on 1 (1 + p) pb pb' ->
  mem_eq (unpack_ascii n pb m 0 1 0) (unpack_ascii n pb' m 0 1 0).
Proof.
  intros Hp H x. pose proof (unpack_ascii_spec n pb m 0 x ltac:(lia)) as E.
  pose proof (unpack_ascii_spec n pb' m 0 x ltac:(lia)) as E'.
  change (1 + 7 * 0 / 8) with 1 in *. change ((7 * 0) mod 8) with 0 in *. rewrite E, E', Z.add_0_l.
  destruct (Z.leb_spec 0 x), (Z.ltb_spec x (Z.of_nat n)); cbn [andb]; try reflexivity.
  apply (value7_ext _ _ _ p); auto; lia.
Qed.

Lemma unpack_unicode_ext pb pb' m N p :
  0 <= N -> 7 * ((N + 1) / 2) <= 8 * p -> mem_eq_on 1 (1 + p) pb pb' ->
  mem_eq (unpack_unicode (Z.to_nat N) pb m 0 N 1 0) (unpack_unicode (Z.to_nat N) pb' m 0 N 1 0).
Proof.
  intros HN Hp H x.
  pose proof (unpack_unicode_spec (Z.to_nat N) pb m 0 N x ltac:(lia) ltac:(lia) ltac:(lia)) as E.
  pose proof (unpack_unicode_spec (Z.to_nat N) pb' m 0 N x ltac:(lia) ltac:(lia) ltac:(lia)) as E'.
  change (2 * 0) with 0 in *. change (1 + 7 * 0 / 8) with 1 in *. change ((7 * 0) mod 8) with 0 in *. rewrite E, E'.
  destruct (Z.leb_spec 0 x), (Z.ltb_spec x N); cbn [andb]; try reflexivity.
  destruct (Z.eqb_spec (x mod 2) 0); [|reflexivity]. apply (value7_ext _ _ _ p); auto; zlia.
Qed.
