(* ===== verification/CompressionScheme.v ===== *)
(** * The scan that chooses the 7-bit scheme

    The unrolled scan of [Calculate7BitCompressionScheme_] (masks on [DWORD]s,
    then the remaining bytes) decides whether all bytes, or all words, are
    below 128. *)

From Stdlib Require Import ZArith List Lia Bool.
From S2P Require Import Prelude Bits Mem Compression CompressionBits.
Import ListNotations.

(** ** Reference definitions *)

Fixpoint all_from (n : nat) (P : Z -> bool) (k : Z) : bool :=
  match n with
  | O => true
  | S n => P k && all_from n P (k + 1)
  end.

(** Every byte, or every word, of the data is a 7-bit character. *)
Definition all_bytes7 (d : CDATA) : bool := all_from (Z.to_nat (Cb d)) (fun i => Pv d i <=? 127) 0.
Definition all_words7 (d : CDATA) : bool :=
  (Cb d mod 2 =? 0) && all_from (Z.to_nat (Cb d / 2)) (fun iw => load16 (Pv d) (2 * iw) <=? 127) 0.

Definition best_scheme (d : CDATA) (fUnicodeOnly : bool) : COMPRESSION_SCHEME :=
  if all_words7 d
  then if CbCompressed7BitUnicode_ (Cb d) <? Cb d then COMPRESS_7BITUNICODE else COMPRESS_NONE
  else if negb fUnicodeOnly && all_bytes7 d && (CbCompressed7BitAscii_ (Cb d) <? Cb d)
  then COMPRESS_7BITASCII else COMPRESS_NONE.

Lemma all_from_iff n P : forall k, all_from n P k = true <-> forall i, k <= i < k + Z.of_nat n -> P i = true.
Proof.
  induction n as [|n IH]; intros k; cbn [all_from].
  - split; [intros _ i Hi; lia | auto].
  - rewrite andb_true_iff, IH. split.
    + intros [H0 H] i Hi. destruct (Z.eq_dec i k) as [->|]; [auto|]. apply H; lia.
    + intros H; split; [apply H; lia|]. intros; apply H; lia.
Qed.

Lemma all_from_S n P k : all_from (S n) P k = P k && all_from n P (k + 1).
Proof. reflexivity. Qed.

Lemma all_from_app n P : forall m k, all_from (n + m) P k = all_from n P k && all_from m P (k + Z.of_nat n).
Proof.
  induction n as [|n IH]; intros m k; cbn [all_from Nat.add]; [now replace (k + Z.of_nat 0) with k by lia|].
  rewrite IH, andb_assoc. do 2 f_equal. lia.
Qed.

(** ** Masks *)

(** The bits outside a byte-wise mask. *)
Lemma outside_mask_digits f g :
  (forall i, 0 <= i < 4 -> 0 <= f i < 256) -> (forall i, 0 <= i < 4 -> 0 <= g i < 256) ->
  Z.ldiff (digits 8 4 f) (digits 8 4 g) = digits 8 4 (fun i => Z.ldiff (f i) (g i)).
Proof.
  intros Hf Hg.
  assert (Hd : forall w a b, 0 <= w -> 0 <= a < 2 ^ w -> 0 <= Z.ldiff a b < 2 ^ w)
    by (intros w a b Hw Ha; rewrite Z.ldiff_land; now apply land_range_l).
  apply digits_bits; [lia | intros; apply (Hd 8); [lia | now apply Hf] | |].
  - apply Hd; [lia|]. apply digits_range; [lia | exact Hf].
  - intros i b Hi Hb. rewrite !Z.ldiff_spec, !testbit_digits by auto. reflexivity.
Qed.

Lemma digits_0 n f : (forall i, 0 <= i < Z.of_nat n -> 0 <= f i) ->
  digits 8 n f = 0 <-> forall i, 0 <= i < Z.of_nat n -> f i = 0.
Proof.
  induction n as [|n IH]; intros H; cbn [digits]; [split; [intros; lia | reflexivity]|].
  assert (0 < 2 ^ (8 * Z.of_nat n)) by (apply Z.pow_pos_nonneg; lia).
  assert (Hpos : 0 <= digits 8 n f).
  { clear IH. induction n as [|n IH]; cbn [digits]; [lia|].
    specialize (H (Z.of_nat n) ltac:(lia)) as Hn. assert (0 < 2 ^ (8 * Z.of_nat n)) by (apply Z.pow_pos_nonneg; lia).
    assert (0 <= digits 8 n f) by (apply IH; [intros; apply H; lia | lia]). nia. }
  pose proof (H (Z.of_nat n) ltac:(lia)). split.
  - intros E. assert (f (Z.of_nat n) = 0) by nia. assert (E' : digits 8 n f = 0) by nia.
    intros i Hi. destruct (Z.eq_dec i (Z.of_nat n)) as [->|]; [assumption|].
    apply IH; [intros; apply H; lia | exact E' | lia].
  - intros H0'. rewrite (H0' (Z.of_nat n)) by lia. apply IH; [intros; apply H; lia|]. intros; apply H0'; lia.
Qed.

Lemma ldiff_127 b : 0 <= b < 256 -> Z.ldiff b 127 = 0 <-> b <= 127.
Proof.
  intros Hb. enough (E : (Z.ldiff b 127 =? 0) = (b <=? 127)) by lia.
  apply eqb_prop. apply (forall_below 256 (fun b => Bool.eqb (Z.ldiff b 127 =? 0) (b <=? 127))); [vm_compute; reflexivity | lia].
Qed.

Section Masks.
Variable m : mem.
Variable idw : Z.
Hypothesis Hm : forall i, 4 * idw <= i < 4 * idw + 4 -> 0 <= m i < 256.

Lemma mask_zero_iff g :
  (forall i, 0 <= i < 4 -> 0 <= g i < 256) ->
  (Z.land (load32 m (4 * idw)) (Z.lnot (digits 8 4 g)) =? 0) = true
  <-> forall i, 0 <= i < 4 -> Z.ldiff (m (4 * idw + i)) (g i) = 0.
Proof.
  intros Hg. rewrite Z.eqb_eq, <- Z.ldiff_land, load32_digits.
  rewrite outside_mask_digits by (intros; try apply Hm; auto; lia).
  rewrite digits_0; [reflexivity|]. intros i Hi. rewrite Z.ldiff_land. apply Z.land_nonneg. left. apply Hm; lia.
Qed.

Lemma mask_ascii_iff :
  (Z.land (load32 m (4 * idw)) (Z.lnot 2139062143) =? 0) = true <-> forall i, 4 * idw <= i < 4 * idw + 4 -> m i <= 127.
Proof.
  change 2139062143 with (digits 8 4 (fun _ => 127)). rewrite mask_zero_iff by (intros; lia). split.
  - intros H i Hi. specialize (H (i - 4 * idw) ltac:(lia)). replace (4 * idw + (i - 4 * idw)) with i in H by lia.
    apply ldiff_127; [apply Hm|]; auto.
  - intros H i Hi. apply ldiff_127; [apply Hm | apply H]; lia.
Qed.

Lemma mask_unicode_iff :
  (Z.land (load32 m (4 * idw)) (Z.lnot 8323199) =? 0) = true
  <-> load16 m (2 * (2 * idw)) <= 127 /\ load16 m (2 * (2 * idw + 1)) <= 127.
Proof.
  set (g := fun i => if i mod 2 =? 0 then 127 else 0). change 8323199 with (digits 8 4 g).
  rewrite mask_zero_iff by (intros; unfold g; case_cmp; lia). unfold load16.
  pose proof (Hm (4 * idw) ltac:(lia)). pose proof (Hm (4 * idw + 1) ltac:(lia)).
  pose proof (Hm (4 * idw + 2) ltac:(lia)). pose proof (Hm (4 * idw + 3) ltac:(lia)).
  replace (2 * (2 * idw)) with (4 * idw) by lia. replace (2 * (2 * idw + 1)) with (4 * idw + 2) by lia.
  replace (4 * idw + 2 + 1) with (4 * idw + 3) by lia. split.
  - intros Hd.
    pose proof (Hd 0 ltac:(lia)) as D0. pose proof (Hd 1 ltac:(lia)) as D1.
    pose proof (Hd 2 ltac:(lia)) as D2. pose proof (Hd 3 ltac:(lia)) as D3.
    change (g 0) with 127 in D0. change (g 1) with 0 in D1. change (g 2) with 127 in D2. change (g 3) with 0 in D3.
    rewrite Z.ldiff_0_r in D1, D3. rewrite Z.add_0_r in D0.
    apply ldiff_127 in D0; [|lia]. apply ldiff_127 in D2; [|lia]. lia.
  - intros [W0 W1] i Hi. assert (i = 0 \/ i = 1 \/ i = 2 \/ i = 3) as [->|[->|[->| ->]]] by lia;
      change (g 0) with 127; change (g 1) with 0; change (g 2) with 127; change (g 3) with 0;
      rewrite ?Z.ldiff_0_r, ?Z.add_0_r; try (apply ldiff_127); lia.
Qed.

End Masks.

(** ** The scans *)

Section Scan.
Variables (m : mem) (maskA maskU : Z).

Let okA (idw : Z) : bool := Z.land (load32 m (4 * idw)) (Z.lnot maskA) =? 0.
Let okU (idw : Z) : bool := Z.land (load32 m (4 * idw)) (Z.lnot maskU) =? 0.

Lemma scan_none n : Nat.iter n (scan_dword m maskA maskU) None = None.
Proof. induction n as [|n IH]; [reflexivity|]. cbn [Nat.iter nat_rect]. unfold Nat.iter in IH. now rewrite IH. Qed.

Lemma iter_r {A} (f : A -> A) n x : Nat.iter (S n) f x = Nat.iter n f (f x).
Proof. induction n as [|n IH]; [reflexivity|]. unfold Nat.iter in *. cbn [nat_rect] in *. now rewrite IH. Qed.

Lemma scan_iter n : forall k f,
  Nat.iter n (scan_dword m maskA maskU) (Some (k, f))
  = if all_from n okA k then Some (k + Z.of_nat n, f && all_from n okU k) else None.
Proof.
  induction n as [|n IH]; intros k f.
  - cbn [Nat.iter nat_rect all_from]. now replace (k + Z.of_nat 0) with k by lia; rewrite andb_true_r.
  - rewrite iter_r. unfold scan_dword at 2. rewrite !all_from_S. unfold okA at 1, okU at 1.
    destruct (Z.land (load32 m (4 * k)) (Z.lnot maskA) =? 0); cbn [negb andb]; [|apply scan_none].
    rewrite IH. destruct (all_from n okA (k + 1)); [|reflexivity].
    rewrite andb_assoc. do 2 f_equal. lia.
Qed.

Lemma scan_while_none fuel cdw : scan_while fuel m maskA maskU cdw None = None.
Proof. destruct fuel; reflexivity. Qed.

Lemma scan_while_spec fuel : forall cdw k f,
  k <= cdw -> (cdw - k) mod 8 = 0 -> cdw - k <= 8 * Z.of_nat fuel ->
  scan_while fuel m maskA maskU cdw (Some (k, f))
  = if all_from (Z.to_nat (cdw - k)) okA k then Some (cdw, f && all_from (Z.to_nat (cdw - k)) okU k) else None.
Proof.
  induction fuel as [|fuel IH]; intros cdw k f Hk H8 Hf; cbn [scan_while].
  - replace (cdw - k) with 0 by lia. cbn [Z.to_nat all_from]. rewrite andb_true_r. do 2 f_equal. lia.
  - destruct (Z.ltb_spec k cdw).
    + rewrite scan_iter. assert (8 <= cdw - k) by zlia.
      replace (Z.to_nat (cdw - k)) with (8 + Z.to_nat (cdw - (k + 8)))%nat by lia.
      rewrite !all_from_app. change (Z.of_nat 8) with 8.
      destruct (all_from 8 okA k); cbn [andb]; [|apply scan_while_none].
      rewrite IH by zlia. now rewrite andb_assoc.
    + replace (cdw - k) with 0 by lia. cbn [Z.to_nat all_from]. rewrite andb_true_r. do 2 f_equal. lia.
Qed.

(** The unrolled loop looks at every [DWORD] once. *)
Lemma scan_dwords_spec cdw f :
  0 <= cdw ->
  scan_dwords m maskA maskU cdw f
  = if all_from (Z.to_nat cdw) okA 0 then Some (cdw, f && all_from (Z.to_nat cdw) okU 0) else None.
Proof.
  intros Hc. unfold scan_dwords. rewrite scan_iter, Z.add_0_l.
  pose proof (Z.mod_pos_bound cdw 8 ltac:(lia)). assert (cdw mod 8 <= cdw) by (apply Z.mod_le; lia).
  assert (Happ : forall P, all_from (Z.to_nat cdw) P 0
    = all_from (Z.to_nat (cdw mod 8)) P 0 && all_from (Z.to_nat (cdw - cdw mod 8)) P (cdw mod 8)).
  { intros P. replace (Z.to_nat cdw) with (Z.to_nat (cdw mod 8) + Z.to_nat (cdw - cdw mod 8))%nat by lia.
    rewrite all_from_app, Z2Nat.id by lia. now rewrite Z.add_0_l. }
  rewrite !Happ, Z2Nat.id by lia.
  destruct (all_from (Z.to_nat (cdw mod 8)) okA 0); cbn [andb]; [|apply scan_while_none].
  rewrite scan_while_spec by zlia. now rewrite andb_assoc.
Qed.

End Scan.

Lemma scan_bytes_spec n m : forall ib f,
  scan_bytes n m ib f
  = if all_from n (fun i => m i <=? 127) ib
    then Some (f && all_from n (fun i => negb (i mod 2 =? 0) || (load16 m i <=? 127)) ib) else None.
Proof.
  induction n as [|n IH]; intros ib f; cbn [scan_bytes]; [cbn [all_from]; now rewrite andb_true_r|].
  rewrite !all_from_S, Z.ltb_antisym. destruct (m ib <=? 127); cbn [negb andb]; [|reflexivity].
  rewrite IH. destruct (all_from n _ (ib + 1)); [|reflexivity]. f_equal.
  rewrite Z.ltb_antisym. destruct f, (ib mod 2 =? 0), (load16 m ib <=? 127); reflexivity.
Qed.

(** ** The scheme chosen *)

Section Choice.
Variable d : CDATA.
Hypothesis Hcb : 0 <= Cb d.
Hypothesis Hbytes : forall i, 0 <= i < Cb d -> 0 <= Pv d i < 256.

Lemma all_bytes7_iff : all_bytes7 d = true <-> forall i, 0 <= i < Cb d -> Pv d i <= 127.
Proof.
  unfold all_bytes7. rewrite all_from_iff, Z2Nat.id by lia. split; intros H i Hi; specialize (H i Hi); lia.
Qed.

Lemma all_words7_iff :
  all_words7 d = true <-> Cb d mod 2 = 0 /\ forall iw, 0 <= iw < Cb d / 2 -> load16 (Pv d) (2 * iw) <= 127.
Proof.
  unfold all_words7. rewrite andb_true_iff, Z.eqb_eq, all_from_iff, Z2Nat.id by zlia.
  split; intros [E H]; (split; [exact E|]); intros i Hi; specialize (H i Hi); lia.
Qed.

Lemma words7_bytes7 : all_words7 d = true -> all_bytes7 d = true.
Proof.
  rewrite all_words7_iff, all_bytes7_iff. intros [E H] i Hi.
  specialize (H (i / 2) ltac:(zlia)). unfold load16 in H.
  pose proof (Hbytes (2 * (i / 2)) ltac:(zlia)). pose proof (Hbytes (2 * (i / 2) + 1) ltac:(zlia)).
  assert (i = 2 * (i / 2) \/ i = 2 * (i / 2) + 1) as [->| ->] by zlia; lia.
Qed.

Let cdw := Cb d / 4.
Let okA idw := Z.land (load32 (Pv d) (4 * idw)) (Z.lnot 2139062143) =? 0.
Let okU idw := Z.land (load32 (Pv d) (4 * idw)) (Z.lnot 8323199) =? 0.
Let tailA := all_from (Z.to_nat (Cb d - cdw * 4)) (fun i => Pv d i <=? 127) (cdw * 4).
Let tailU := all_from (Z.to_nat (Cb d - cdw * 4)) (fun i => negb (i mod 2 =? 0) || (load16 (Pv d) i <=? 127)) (cdw * 4).

Lemma dwords_ascii : all_from (Z.to_nat cdw) okA 0 && tailA = all_bytes7 d.
Proof.
  apply eq_true_iff_eq. rewrite andb_true_iff, all_bytes7_iff. unfold tailA.
  rewrite !all_from_iff. unfold cdw. rewrite !Z2Nat.id by zlia. split.
  - intros [HA HT] i Hi. destruct (Z.lt_ge_cases i (Cb d / 4 * 4)).
    + specialize (HA (i / 4) ltac:(zlia)). unfold okA in HA; rewrite mask_ascii_iff in HA by (intros; apply Hbytes; zlia). apply HA. zlia.
    + specialize (HT i ltac:(lia)). cbv beta in HT. lia.
  - intros H; split; intros i Hi.
    + unfold okA; rewrite mask_ascii_iff by (intros; apply Hbytes; zlia). intros; apply H; zlia.
    + apply Z.leb_le, H. zlia.
Qed.

Lemma dwords_unicode :
  (Cb d mod 2 =? 0) && all_from (Z.to_nat cdw) okU 0 && tailU = all_words7 d.
Proof.
  apply eq_true_iff_eq. rewrite !andb_true_iff, Z.eqb_eq, all_words7_iff. unfold tailU.
  rewrite !all_from_iff. unfold cdw. rewrite !Z2Nat.id by zlia. split.
  - intros [[E HU] HT]. split; [exact E|]. intros iw Hi. destruct (Z.lt_ge_cases (2 * iw) (Cb d / 4 * 4)).
    + specialize (HU (iw / 2) ltac:(zlia)). unfold okU in HU; rewrite mask_unicode_iff in HU by (intros; apply Hbytes; zlia).
      assert (iw = 2 * (iw / 2) \/ iw = 2 * (iw / 2) + 1) as [->| ->] by zlia; tauto.
    + specialize (HT (2 * iw) ltac:(zlia)). cbv beta in HT. replace ((2 * iw) mod 2) with 0 in HT by zlia.
      rewrite Z.eqb_refl in HT. cbn [negb orb] in HT. lia.
  - intros [E H]. split; [split; [exact E|]|]; intros i Hi.
    + unfold okU; rewrite mask_unicode_iff by (intros; apply Hbytes; zlia). split; apply H; zlia.
    + destruct (Z.eqb_spec (i mod 2) 0) as [e|e]; cbn [negb orb]; [|reflexivity].
      apply Z.leb_le. replace i with (2 * (i / 2)) by zlia. apply H. zlia.
Qed.

(** The scan of the code makes the choice of the reference definition. *)
Lemma Calculate7BitCompressionScheme_best fUnicodeOnly :
  Calculate7BitCompressionScheme_ d fUnicodeOnly = best_scheme d fUnicodeOnly.
Proof.
  unfold Calculate7BitCompressionScheme_, best_scheme. fold cdw.
  pose proof dwords_ascii as EA. pose proof dwords_unicode as EU. pose proof words7_bytes7 as WB.
  assert (Hc : 0 <= cdw) by (unfold cdw; zlia).
  destruct (fUnicodeOnly && negb (Cb d mod 2 =? 0)) eqn:Efirst.
  { apply andb_true_iff in Efirst as [-> Eo]. apply negb_true_iff in Eo. rewrite Eo in EU. cbn [andb] in EU.
    rewrite <- EU. reflexivity. }
  rewrite scan_dwords_spec by exact Hc.
  change (fun idw => Z.land (load32 (Pv d) (4 * idw)) (Z.lnot 8323199) =? 0) with okU.
  destruct fUnicodeOnly.
  - cbn [andb] in Efirst. apply negb_false_iff in Efirst. rewrite Efirst in *. cbn [andb negb] in *.
    change (fun idw => Z.land (load32 (Pv d) (4 * idw)) (Z.lnot 8323199) =? 0) with okU.
    destruct (all_from (Z.to_nat cdw) okU 0) eqn:EO; cbn [andb] in EU.
    + rewrite scan_bytes_spec. fold tailA tailU. rewrite <- EU. destruct tailA eqn:ET; cbn [andb].
      * destruct tailU; reflexivity.
      * destruct tailU eqn:ETU; [|reflexivity]. exfalso.
        rewrite <- EU, <- EA, andb_false_r in WB. discriminate WB; reflexivity.
    + rewrite <- EU. reflexivity.
  - change (fun idw => Z.land (load32 (Pv d) (4 * idw)) (Z.lnot 2139062143) =? 0) with okA.
    destruct (all_from (Z.to_nat cdw) okA 0) eqn:EO; cbn [andb] in EA.
    + rewrite scan_bytes_spec. fold tailA tailU. rewrite EA. rewrite EU.
      destruct (all_bytes7 d) eqn:EB; [destruct (all_words7 d); reflexivity|].
      destruct (all_words7 d); [discriminate WB; reflexivity | reflexivity].
    + rewrite <- EA in *. destruct (all_words7 d); [discriminate WB; reflexivity | reflexivity].
Qed.

End Choice.
