(* ===== verification/CompressionCodec.v ===== *)
(** * The entry points of the compressor

    What [ErrCompress] leaves in its buffer, case by case, and what
    [ErrDecompress] makes of it. *)

From Stdlib Require Import ZArith List Lia Bool.
From S2P Require Import Prelude Bits Mem Xpress XpressDec XpressEnc Compression CompressionBits CompressionPack CompressionScheme.
Import ListNotations.

(** ** The packed format as a list of bytes *)

(** The number with the 7-bit digits [l], least significant first. *)
Definition number7 (l : list Z) : Z := fold_right (fun v acc => v + 128 * acc) 0 l.

Definition encode7 (s : COMPRESSION_SCHEME) (l : list Z) : list Z :=
  let n := Z.of_nat (length l) in
  (8 * scheme_id s + (7 * n - 1) mod 8)
  :: map (fun j => number7 l / 256 ^ Z.of_nat j mod 256) (seq 0 (Z.to_nat ((7 * n + 7) / 8))).

Lemma digits_number7 n : forall f, number7 (map (fun i => f (Z.of_nat i)) (seq 0 n)) = digits 7 n f.
Proof.
  induction n as [|n IH]; intros f; [reflexivity|].
  rewrite digits_shift by lia. rewrite <- (IH (fun i => f (1 + i))).
  cbn [seq map number7 fold_right]. change (2 ^ 7) with 128. unfold number7.
  rewrite <- seq_shift, map_map. rewrite Z.mul_comm. do 3 f_equal.
  apply map_ext; intros i. f_equal. lia.
Qed.

Lemma digit_of n f j :
  0 <= j < Z.of_nat n -> (forall i, 0 <= i < Z.of_nat n -> 0 <= f i < 256) ->
  digits 8 n f / 256 ^ j mod 256 = f j.
Proof.
  intros Hj Hf. change 256 with (2 ^ 8) at 1. rewrite <- Z.pow_mul_r by lia. change 256 with (2 ^ 8).
  apply Z.bits_inj'; intros b Hb. destruct (Z.lt_ge_cases b 8).
  - rewrite Z.mod_pow2_bits_low, Z.div_pow2_bits, Z.add_comm by lia. apply testbit_digits; auto; lia.
  - rewrite Z.mod_pow2_bits_high, (testbit_high 8) by (try apply Hf; lia). reflexivity.
Qed.

Lemma holds_packed_encode7 s m cb n f :
  0 <= n -> mem_ok m -> (forall i, 0 <= i < n -> 0 <= f i < 128) -> holds_packed s m cb n f ->
  load_bytes m 0 cb = encode7 s (map (fun i => f (Z.of_nat i)) (seq 0 (Z.to_nat n))).
Proof.
  intros Hn Hm Hf (H0 & Hcb & Hle). unfold load_bytes, encode7.
  rewrite length_map, length_seq, Z2Nat.id by lia. rewrite Hcb.
  assert (Hp : 0 <= (7 * n + 7) / 8) by zlia.
  replace (Z.to_nat (1 + (7 * n + 7) / 8)) with (S (Z.to_nat ((7 * n + 7) / 8))) by lia.
  cbn [seq map]. rewrite <- seq_shift, map_map. f_equal; [exact H0|].
  apply map_ext_in; intros j Hj. apply in_seq in Hj.
  rewrite digits_number7.
  replace (digits 7 (Z.to_nat n) f) with (le m ((7 * n + 7) / 8)).
  - unfold le. rewrite digit_of; [f_equal; lia | lia | intros; apply Hm].
  - replace ((7 * n + 7) / 8) with (cb - 1) by lia. rewrite Hle. apply digits_ext; intros. apply Z.mod_small, Hf. lia.
Qed.

(** ** What [ErrCompress] leaves *)

Section Codec.
Variable data : CDATA.
Hypothesis Hcb : 0 <= Cb data.
Hypothesis Hint : 7 * Cb data + 7 < 2147483648.
Hypothesis Hdata : mem_ok (Pv data).

(** The compressed forms of [data]. *)
Inductive compressed_form (m : mem) (cb : Z) : Prop :=
| form_ascii : all_bytes7 data = true -> CbCompressed7BitAscii_ (Cb data) < Cb data ->
    cb = CbCompressed7BitAscii_ (Cb data) ->
    holds_packed COMPRESS_7BITASCII m cb (Cb data) (Pv data) -> compressed_form m cb
| form_unicode : all_words7 data = true -> CbCompressed7BitUnicode_ (Cb data) < Cb data ->
    cb = CbCompressed7BitUnicode_ (Cb data) ->
    holds_packed COMPRESS_7BITUNICODE m cb (Cb data / 2) (fun iw => load16 (Pv data) (2 * iw)) ->
    compressed_form m cb
| form_xpress : 3 < cb < Cb data -> m 0 = 24 -> load16 m 1 = u16 (Cb data) ->
    (forall mo base n, 0 <= n <= Cb data ->
       exists mo', XpressDecode mo base (Cb data) n m 3 (cb - 3) = Some (n, mo') /\
         (forall x, 0 <= x < n -> mo' (base + x) = Pv data x) /\ (forall x, x < base \/ base + n <= x -> mo' x = mo x)) ->
    compressed_form m cb.

(** The results of [ErrCompress] on a buffer [pb] of [cbMax] bytes. *)
Definition compress_result (pb : mem) (cbMax : Z) (r : compressed) : Prop :=
  writes_within 0 cbMax pb (r_buf r) /\ (mem_ok pb -> mem_ok (r_buf r)) /\
  (r_err r = JET_errSuccess /\ 0 < r_cb r <= cbMax /\ (mem_ok pb -> compressed_form (r_buf r) (r_cb r))
   \/ r_err r = errRECCannotCompress
   \/ r_err r = JET_errBufferTooSmall /\ r_cb r = 0
      /\ cbMax < (if all_words7 data then CbCompressed7BitUnicode_ (Cb data) else CbCompressed7BitAscii_ (Cb data))).

Lemma length_bytes_of : length (bytes_of data) = Z.to_nat (Cb data).
Proof. apply length_load_bytes. Qed.

Lemma store_bytes_within m d l cbMax :
  0 <= d -> d + Z.of_nat (length l) <= cbMax \/ l = [] -> writes_within 0 cbMax m (store_bytes m d l).
Proof. intros Hd Hl x Hx. apply store_bytes_frame. destruct Hl as [Hl| ->]; cbn [length]; lia. Qed.

Lemma writes_within_trans lo hi m1 m2 m3 :
  writes_within lo hi m1 m2 -> writes_within lo hi m2 m3 -> writes_within lo hi m1 m3.
Proof. intros H1 H2 x Hx. rewrite H2, H1; auto. Qed.

(** The XPRESS attempt: a block, or nothing usable. *)
Lemma ErrCompressXpress_spec m_cbMax fOpen pb cbMax cb0 :
  exists r, ErrCompressXpress_ m_cbMax fOpen data pb cbMax cb0 = Some r /\
  writes_within 0 cbMax pb (r_buf r) /\ (mem_ok pb -> mem_ok (r_buf r)) /\
  (r_err r = JET_errSuccess /\ 0 < r_cb r <= cbMax /\ (mem_ok pb -> compressed_form (r_buf r) (r_cb r))
   \/ r_err r = errRECCannotCompress \/ r_err r = JET_errOutOfMemory).
Proof.
  unfold ErrCompressXpress_. destruct (fOpen && XpressEncodeCreate_accepts m_cbMax) eqn:Ea; cbn [negb].
  2:{ eexists. split; [reflexivity|]. cbn [r_buf r_err]. split; [intros x _; reflexivity|]. auto. }
  apply andb_prop in Ea as [_ Ea]. assert (Hmax : m_cbMax <= BUFF_SIZE) by (unfold XpressEncodeCreate_accepts in Ea; lia). change (1 + 2) with 3.
  destruct (XpressEncode_spec m_cbMax pb 3 (cbMax - 3) (Pv data) 0 (Cb data) Hdata ltac:(lia) Hmax) as (cb & m & E & Hsz & Hfr & Hok & Hblk). rewrite E.
  assert (Hw : writes_within 0 cbMax pb m) by (intros x Hx; apply Hfr; lia).
  destruct (Z.eqb_spec cb 0) as [->|Hne]; cbn [orb]; [eexists; split; [reflexivity|]; split; [exact Hw|]; auto|].
  destruct (Z.leb_spec (Cb data) (cb + 3)); [eexists; split; [reflexivity|]; split; [exact Hw|]; auto|].
  destruct (Hblk ltac:(lia)) as (Hfit & _). eexists. split; [reflexivity|]. cbn [r_buf r_err r_cb].
  split; [|split; [intros; now apply store16_ok, store8_ok, Hok|]].
  - intros x Hx. rewrite store16_frame by lia. rewrite store8_at. replace (x =? 0) with false by lia. apply Hw. lia.
  - left. split; [reflexivity|]. split; [lia|]. intros Hpb. apply form_xpress; [lia| | |].
    + rewrite store16_frame by lia. reflexivity.
    + rewrite load16_store16_eq. unfold u16. apply Z.mod_mod. lia.
    + intros mo base n Hn. replace (cb + 3 - 3) with cb by lia.
      apply (XpressDecode_encode m_cbMax pb 3 (cbMax - 3) (Pv data) 0 (Cb data) cb m); auto; try lia.
      intros x Hx. rewrite store16_frame by lia. rewrite store8_at. now replace (x =? 0) with false by lia.
Qed.

Lemma data_bytes i : 0 <= i < Cb data -> 0 <= Pv data i < 256.
Proof. intros; apply Hdata. Qed.

(** The 7-bit attempt that [best_scheme] selects. *)
Lemma compress7_spec fUnicodeOnly pb cbMax :
  match best_scheme data fUnicodeOnly with
  | COMPRESS_7BITASCII => exists r, ErrCompress7BitAscii_ data pb cbMax = Some r /\ compress_result pb cbMax r
  | COMPRESS_7BITUNICODE => exists r, ErrCompress7BitUnicode_ data pb cbMax = Some r /\ compress_result pb cbMax r
  | s => s = COMPRESS_NONE
  end.
Proof.
  unfold best_scheme. destruct (all_words7 data) eqn:EW.
  - destruct (Z.ltb_spec (CbCompressed7BitUnicode_ (Cb data)) (Cb data)); [|reflexivity].
    destruct (Z.lt_ge_cases cbMax (CbCompressed7BitUnicode_ (Cb data))) as [Hlt|Hge].
    + unfold ErrCompress7BitUnicode_. rewrite (proj2 (Z.ltb_lt _ _) Hlt).
      eexists; split; [reflexivity|]. split; [intros x _; reflexivity|]. split; [auto|].
      right; right. rewrite EW. auto.
    + destruct (compress_unicode_spec data pb cbMax Hcb Hge) as (r & E & Herr & Hr & Hp & Hw).
      exists r; split; [exact E|]. split; [exact Hw|]. split; [intros; eapply compress_unicode_ok; eauto|].
      left. split; [exact Herr|]. split; [rewrite Hr; unfold CbCompressed7BitUnicode_ in *; zlia|].
      intros _. now apply form_unicode.
  - destruct (negb fUnicodeOnly && all_bytes7 data) eqn:EB; cbn [andb]; [|reflexivity].
    apply andb_true_iff in EB as [_ EB].
    destruct (Z.ltb_spec (CbCompressed7BitAscii_ (Cb data)) (Cb data)); [|reflexivity].
    destruct (Z.lt_ge_cases cbMax (CbCompressed7BitAscii_ (Cb data))) as [Hlt|Hge].
    + unfold ErrCompress7BitAscii_. rewrite (proj2 (Z.ltb_lt _ _) Hlt).
      eexists; split; [reflexivity|]. split; [intros x _; reflexivity|]. split; [auto|].
      right; right. rewrite EW. auto.
    + assert (Hb : forall i, 0 <= i < Cb data -> 0 <= Pv data i < 128).
      { intros i Hi. pose proof (Hdata i). rewrite all_bytes7_iff in EB by exact Hcb. specialize (EB i Hi). lia. }
      destruct (compress_ascii_spec data pb cbMax Hcb Hint Hb Hge) as (r & E & Herr & Hr & Hp & Hw).
      exists r; split; [exact E|]. split; [exact Hw|]. split; [intros; eapply compress_ascii_ok; eauto|].
      left. split; [exact Herr|]. split; [rewrite Hr; rewrite CbCompressed7BitAscii_value in * by lia; zlia|].
      intros _. now apply form_ascii.
Qed.

Lemma compress_result_trans pb m cbMax r :
  writes_within 0 cbMax pb m -> (mem_ok pb -> mem_ok m) -> compress_result m cbMax r -> compress_result pb cbMax r.
Proof.
  intros Hw Hok (Hw' & Hok' & H). split; [eapply writes_within_trans; eauto|]. split; [tauto|]. tauto.
Qed.

Lemma Try7bitCompression_spec flags (fCompressed : bool) pb cbMax r0 :
  writes_within 0 cbMax pb (r_buf r0) -> (mem_ok pb -> mem_ok (r_buf r0)) ->
  (if fCompressed then r_err r0 = JET_errSuccess /\ 0 < r_cb r0 <= cbMax /\ (mem_ok pb -> compressed_form (r_buf r0) (r_cb r0))
   else r_err r0 = JET_errSuccess \/ r_err r0 = errRECCannotCompress \/ r_err r0 = JET_errOutOfMemory) ->
  exists r, Try7bitCompression data flags fCompressed r0 cbMax = Some r /\ compress_result pb cbMax r.
Proof.
  intros Hw Hok H0. unfold Try7bitCompression.
  replace (negb (r_err r0 =? JET_errSuccess) && negb (r_err r0 =? errRECCannotCompress)
           && negb (r_err r0 =? JET_errOutOfMemory)) with false
    by (destruct fCompressed; [destruct H0 as (-> & _)|destruct H0 as [->|[->| ->]]]; reflexivity).
  assert (Hnone : exists r, Some (if fCompressed then {| r_err := JET_errSuccess; r_buf := r_buf r0; r_cb := r_cb r0 |}
      else {| r_err := errRECCannotCompress; r_buf := r_buf r0; r_cb := r_cb r0 |}) = Some r /\ compress_result pb cbMax r).
  { eexists; split; [reflexivity|]. destruct fCompressed; (split; [exact Hw|]; split; [exact Hok|]); cbn [r_err r_cb r_buf]; tauto. }
  destruct (_ =? 0); [exact Hnone|].
  rewrite Calculate7BitCompressionScheme_best by (auto using data_bytes).
  pose proof (compress7_spec fCompressed (r_buf r0) cbMax) as H7.
  destruct (best_scheme data fCompressed); try exact Hnone; try discriminate H7;
    destruct H7 as (r & E & Hr); exists r; (split; [exact E|]); eapply compress_result_trans; eauto.
Qed.

Lemma ErrCompress_spec m_cbMin m_cbMax fOpen flags pb cbMax cb0 :
  exists r, ErrCompress m_cbMin m_cbMax fOpen data flags pb cbMax cb0 = Some r /\ compress_result pb cbMax r.
Proof.
  unfold ErrCompress.
  assert (H0 : exists r, Try7bitCompression data flags false
      {| r_err := JET_errSuccess; r_buf := pb; r_cb := cb0 |} cbMax = Some r /\ compress_result pb cbMax r)
    by (apply Try7bitCompression_spec; cbn [r_buf r_err]; [intros x _; reflexivity | auto | auto]).
  destruct (m_cbMin <=? Cb data); [|exact H0]. destruct (negb _); [|exact H0].
  destruct (ErrCompressXpress_spec m_cbMax fOpen pb cbMax cb0) as (r & -> & Hw & Hok & H).
  destruct H as [(He & Hb & Hf)|H].
  - rewrite He. change (JET_errSuccess <? 0) with false. cbv iota.
    destruct (_ <=? _).
    + eexists; split; [reflexivity|]. split; [exact Hw|]. split; [exact Hok|]. left. auto.
    + now apply Try7bitCompression_spec.
  - replace (r_err r <? 0) with true by (destruct H as [->| ->]; reflexivity).
    apply Try7bitCompression_spec; auto.
Qed.

(** ** Decompressing it *)

(** The calls that have a result. *)
Definition returns_some (r : option decompressed) (mo : mem) (cbMax n : Z) (f : Z -> Z) : Prop :=
  exists r', r = Some r' /\ returns r' mo cbMax n f.

Lemma returns_ext r mo cbMax n f g :
  (forall i, 0 <= i < n -> f i = g i) -> returns r mo cbMax n f -> returns r mo cbMax n g.
Proof.
  intros H (Hc & He & m' & Hb & Hm). split; [exact Hc|]. split; [exact He|].
  exists m'; split; [exact Hb|]. intros x. rewrite Hm.
  destruct (Z.leb_spec 0 x), (Z.ltb_spec x (Z.min n cbMax)); cbn [andb]; auto. apply H; lia.
Qed.

(** The identifier in the top five bits of the header byte. *)
Lemma header_id s c : 0 <= c < 8 -> Z.shiftr (8 * scheme_id s + c) 3 = scheme_id s.
Proof. intros. rewrite Z.shiftr_div_pow2 by lia. change (2 ^ 3) with 8. zlia. Qed.

Lemma packed_id s m cb n f : holds_packed s m cb n f -> Z.shiftr (m 0) 3 = scheme_id s.
Proof. intros (H & _). rewrite H. apply header_id, Z.mod_pos_bound; lia. Qed.

Lemma nth_bytes_of i : 0 <= i < Cb data -> nth (Z.to_nat i) (bytes_of data) 0 = Pv data i.
Proof. intros. unfold bytes_of. rewrite nth_load_bytes by lia. f_equal. lia. Qed.

Lemma decompress_form m cb mo cbMax :
  mem_ok m -> compressed_form m cb -> 0 < cbMax ->
  Cb data <= 65535 ->
  cb < Cb data /\ returns_some (ErrDecompress true {| Pv := m; Cb := cb |} (Some mo) cbMax) mo cbMax (Cb data) (Pv data).
Proof.
  intros Hm Hf HcbMax Hle. unfold ErrDecompress. cbn [Pv Cb].
  assert (Hcb0 : 0 < cb) by (destruct Hf as [? ? -> ?|? ? -> ?|? ? ?]; [rewrite CbCompressed7BitAscii_value by lia; zlia|unfold CbCompressed7BitUnicode_; zlia|lia]).
  rewrite xget_in by lia. destruct Hf as [Hb Hlt Hc Hp|Hw Hlt Hc Hp|Hlt H0 H1 Hblk].
  - split; [lia|]. rewrite (packed_id _ _ _ _ _ Hp). rewrite Z.eqb_refl. eexists. split; [reflexivity|].
    eapply returns_ext; [|apply (decompress_ascii_spec {| Pv := m; Cb := cb |} _ _ mo cbMax Hcb Hm HcbMax Hp)].
    intros i Hi. cbv beta. rewrite all_bytes7_iff in Hb by exact Hcb. specialize (Hb i Hi).
    apply Z.mod_small. pose proof (Hdata i). lia.
  - split; [lia|]. rewrite (packed_id _ _ _ _ _ Hp).
    change (scheme_id COMPRESS_7BITUNICODE =? scheme_id COMPRESS_7BITASCII) with false. rewrite Z.eqb_refl. cbv iota.
    rewrite all_words7_iff in Hw by exact Hcb. destruct Hw as [Heven Hw].
    assert (Hn : 0 <= Cb data / 2) by zlia.
    pose proof (decompress_unicode_spec {| Pv := m; Cb := cb |} _ _ mo cbMax Hn Hm HcbMax Hp) as Hr.
    replace (Cb data / 2 * 2) with (Cb data) in Hr by zlia.
    eexists. split; [reflexivity|]. eapply returns_ext; [|exact Hr]. intros i Hi. cbv beta.
    specialize (Hw (i / 2) ltac:(zlia)). unfold load16 in *.
    pose proof (Hdata (2 * (i / 2))). pose proof (Hdata (2 * (i / 2) + 1)).
    destruct (Z.eqb_spec (i mod 2) 0).
    + replace (2 * (i / 2)) with i in * by zlia. rewrite Z.mod_small by lia. lia.
    + replace i with (2 * (i / 2) + 1) by zlia. lia.
  - split; [lia|]. rewrite H0. change (Z.shiftr 24 3) with 3. cbn [scheme_id]. change (3 =? 1) with false.
    change (3 =? 2) with false. change (3 =? 3) with true. cbv iota.
    unfold ErrDecompressXpress_. cbn [Pv Cb negb]. rewrite xget16_in by lia. rewrite H1. rewrite u16_small by lia.
    replace (0 =? cbMax) with false by lia. change (1 + 2) with 3.
    destruct (Hblk mo 0 (Z.min (Cb data) cbMax) ltac:(lia)) as (mo' & -> & Hin & Hout).
    replace (-1 =? Z.min (Cb data) cbMax) with false by lia. eexists. split; [reflexivity|].
    split; [reflexivity|]. split; [reflexivity|]. eexists; split; [reflexivity|]. intros x.
    destruct (Z.leb_spec 0 x), (Z.ltb_spec x (Z.min (Cb data) cbMax)); cbn [andb]; try (apply Hout; lia). now apply (Hin x).
Qed.

End Codec.
