(* ===== verification/CompressionTheorems.v ===== *)
(** * Properties of the column compression *)

From Stdlib Require Import ZArith List Lia Bool.
From S2P Require Import Prelude Bits Mem Xpress XpressDec XpressEnc Compression CompressionBits CompressionPack CompressionScheme CompressionCodec.
Import ListNotations.

(** ** Sample data *)

Definition text_bytes : list Z := [69; 120; 116; 101; 110; 115; 105; 98; 108; 101; 32; 83; 116; 111; 114; 97; 103; 101; 33].
Definition sample : CDATA := {| Pv := store_bytes (fun _ => 0) 0 text_bytes; Cb := 19 |}.
Definition blank : mem := fun _ => 170.

(** Bytes that XPRESS compresses: not 7-bit characters, with long and short
    repetitions. *)
Definition run_bytes : list Z := concat (repeat [197; 120; 116; 101; 110; 115; 105; 98; 108; 101] 6) ++ [1; 2; 3] ++ concat (repeat [197; 120; 116; 101; 110; 115] 3).
Definition sample_run : CDATA := {| Pv := store_bytes (fun _ => 0) 0 run_bytes; Cb := 81 |}.

Lemma sample_ok : mem_ok (Pv sample).
Proof. apply store_bytes_ok. intros x; lia. Qed.

Lemma sample_run_ok : mem_ok (Pv sample_run).
Proof. apply store_bytes_ok. intros x; lia. Qed.

Lemma blank_ok : mem_ok blank.
Proof. intros x; unfold blank; lia. Qed.

(** ** Properties *)

(** C28: Round trip.  Whenever [ErrCompress] succeeds, in whichever format, the
    compressed data are smaller than the data, and [ErrDecompress] into a
    buffer of any positive size reports the original length, fills the buffer
    with the original bytes (as many as fit, with [JET_wrnBufferTruncated]
    when not all do) and changes nothing else. *)
Theorem compress_then_decompress m_cbMin m_cbMax fOpen data compressFlags pb cbMax cb0 mo cbDataMax :
  mem_ok (Pv data) -> mem_ok pb -> 0 <= Cb data <= 65535 -> 0 < cbDataMax ->
  exists r, ErrCompress m_cbMin m_cbMax fOpen data compressFlags pb cbMax cb0 = Some r
    /\ (r_err r = JET_errSuccess ->
        r_cb r < Cb data
        /\ exists r', ErrDecompress true {| Pv := r_buf r; Cb := r_cb r |} (Some mo) cbDataMax = Some r'
             /\ returns r' mo cbDataMax (Cb data) (Pv data)).
Proof.
  intros Hd Hpb Hcb Hmax.
  destruct (ErrCompress_spec data ltac:(lia) ltac:(lia) Hd m_cbMin m_cbMax fOpen compressFlags pb cbMax cb0) as (r & E & _ & Hok & H).
  exists r; split; [exact E|]. intros He.
  destruct H as [(_ & _ & Hf)|[H|(H & _)]]; [|rewrite He in H; discriminate..].
  apply (decompress_form data); auto; lia.
Qed.

(** C39: [ErrCompress] always returns (its bit-copying loops end), with
    success, [errRECCannotCompress] or [JET_errBufferTooSmall]; the last only
    if the 7-bit form does not fit.  It writes only inside the output buffer
    of [cbMax] bytes, although the 64-bit loop stores a byte more than it
    uses, and a successful result fits the buffer. *)
Theorem compress_returns m_cbMin m_cbMax fOpen data compressFlags pb cbMax cb0 :
  mem_ok (Pv data) -> 0 <= Cb data -> 7 * Cb data + 7 < 2147483648 ->
  exists r, ErrCompress m_cbMin m_cbMax fOpen data compressFlags pb cbMax cb0 = Some r
    /\ writes_within 0 cbMax pb (r_buf r)
    /\ (r_err r = JET_errSuccess /\ 0 < r_cb r <= cbMax
        \/ r_err r = errRECCannotCompress
        \/ r_err r = JET_errBufferTooSmall /\ r_cb r = 0
           /\ cbMax < (if all_words7 data then CbCompressed7BitUnicode_ (Cb data) else CbCompressed7BitAscii_ (Cb data))).
Proof.
  intros Hd Hcb Hint.
  destruct (ErrCompress_spec data Hcb Hint Hd m_cbMin m_cbMax fOpen compressFlags pb cbMax cb0) as (r & E & Hw & _ & H).
  exists r; split; [exact E|]. split; [exact Hw|]. tauto.
Qed.

(** ** The 7-bit decoders stay in bounds *)

(** Two results that differ in nothing, the first of which has kept its output
    inside the buffer. *)
Definition same_results (mo : mem) (cbDataMax : Z) (r r' : decompressed) : Prop :=
  (exists r'', Some r' = Some r'' /\ d_err r'' = d_err r /\ d_cb r'' = d_cb r /\ exists b b', d_buf r = Some b /\ d_buf r'' = Some b' /\ mem_eq b b')
  /\ exists b, d_buf r = Some b /\ writes_within 0 cbDataMax mo b.

Lemma same_results_intro mo cbDataMax e c b b' : mem_eq b b' -> writes_within 0 cbDataMax mo b ->
  same_results mo cbDataMax {| d_err := e; d_buf := Some b; d_cb := c |} {| d_err := e; d_buf := Some b'; d_cb := c |}.
Proof.
  intros He Hw. split; [|exists b; auto]. eexists. split; [reflexivity|]. split; [reflexivity|]. split; [reflexivity|]. exists b, b'. auto.
Qed.

Lemma same_results_untouched mo cbDataMax e c : same_results mo cbDataMax {| d_err := e; d_buf := Some mo; d_cb := c |} {| d_err := e; d_buf := Some mo; d_cb := c |}.
Proof. apply same_results_intro; intros x; reflexivity. Qed.

Section SevenBit.
Variables (dc dc' : CDATA) (mo : mem) (cbDataMax : Z).
Hypothesis H1 : 1 <= Cb dc.
Hypothesis Hcb : Cb dc' = Cb dc.
Hypothesis Heq : mem_eq_on 0 (Cb dc) (Pv dc) (Pv dc').

Lemma cbitTotal_same : cbitTotal dc' = cbitTotal dc.
Proof. unfold cbitTotal. now rewrite Hcb, (Heq 0) by lia. Qed.

Lemma value_same : mem_eq_on 1 (1 + (Cb dc - 1)) (Pv dc) (Pv dc').
Proof. intros x Hx. apply Heq. lia. Qed.

Lemma ascii_in_bounds : same_results mo cbDataMax (ErrDecompress7BitAscii_ dc (Some mo) cbDataMax) (ErrDecompress7BitAscii_ dc' (Some mo) cbDataMax).
Proof.
  pose proof (cbitTotal_bound dc H1) as Hbound. unfold ErrDecompress7BitAscii_. rewrite cbitTotal_same. destruct (0 =? cbDataMax); [apply same_results_untouched|].
  set (N := Z.min _ _). apply same_results_intro; [apply (unpack_ascii_ext _ _ _ _ (Cb dc - 1)); [lia|exact value_same]|].
  intros x Hx. pose proof (unpack_ascii_spec (Z.to_nat N) (Pv dc) mo 0 x ltac:(lia)) as E.
  change (1 + 7 * 0 / 8) with 1 in E. change ((7 * 0) mod 8) with 0 in E. rewrite E.
  destruct (Z.leb_spec 0 x), (Z.ltb_spec x (0 + Z.of_nat (Z.to_nat N))); cbn [andb]; lia.
Qed.

Lemma unicode_in_bounds : same_results mo cbDataMax (ErrDecompress7BitUnicode_ dc (Some mo) cbDataMax) (ErrDecompress7BitUnicode_ dc' (Some mo) cbDataMax).
Proof.
  pose proof (cbitTotal_bound dc H1) as Hbound. unfold ErrDecompress7BitUnicode_. rewrite cbitTotal_same. destruct (0 =? cbDataMax); [apply same_results_untouched|].
  set (N := Z.min _ _). destruct (Z.lt_ge_cases N 0) as [Hneg|Hpos].
  - replace (Z.to_nat N) with O by lia. apply same_results_intro; intros x; reflexivity.
  - apply same_results_intro; [apply (unpack_unicode_ext _ _ _ _ (Cb dc - 1)); [exact Hpos | zlia | exact value_same]|].
    intros x Hx. pose proof (unpack_unicode_spec (Z.to_nat N) (Pv dc) mo 0 N x ltac:(lia) ltac:(lia) ltac:(lia)) as E.
    change (2 * 0) with 0 in E. change (1 + 7 * 0 / 8) with 1 in E. change ((7 * 0) mod 8) with 0 in E. rewrite E.
    destruct (Z.leb_spec 0 x), (Z.ltb_spec x N); cbn [andb]; lia.
Qed.
End SevenBit.

(** C38: Decompression of arbitrary bytes is memory safe, the XPRESS decoder
    included: whatever a value of at least one byte holds, the call returns, what
    it returns depends only on the bytes of the value, and it writes only inside
    the output buffer, whether it succeeds or fails.  The one exception is a value of
    one or two bytes that is marked as XPRESS: the size that follows the mark is
    read from behind the end of the value. *)
Theorem decompress_stays_in_bounds fOpen dc dc' mo cbDataMax :
  mem_ok (Pv dc) -> 1 <= Cb dc -> Cb dc' = Cb dc -> mem_eq_on 0 (Cb dc) (Pv dc) (Pv dc') ->
  match ErrDecompress fOpen dc (Some mo) cbDataMax with
  | Some r =>
      (exists r', ErrDecompress fOpen dc' (Some mo) cbDataMax = Some r' /\ d_err r' = d_err r /\ d_cb r' = d_cb r
       /\ exists b b', d_buf r = Some b /\ d_buf r' = Some b' /\ mem_eq b b')
      /\ exists b, d_buf r = Some b /\ writes_within 0 cbDataMax mo b
  | None => Z.shiftr (Pv dc 0) 3 = scheme_id COMPRESS_XPRESS /\ Cb dc < 3
  end.
Proof.
  intros Hok H1 Hcb Heq.
  assert (E0 : Pv dc' 0 = Pv dc 0) by (symmetry; apply Heq; lia).
  unfold ErrDecompress. rewrite !xget_in, E0 by lia.
  destruct (Z.eqb_spec (Z.shiftr (Pv dc 0) 3) (scheme_id COMPRESS_7BITASCII)); [now apply ascii_in_bounds|].
  destruct (Z.eqb_spec (Z.shiftr (Pv dc 0) 3) (scheme_id COMPRESS_7BITUNICODE)); [now apply unicode_in_bounds|].
  destruct (Z.eqb_spec (Z.shiftr (Pv dc 0) 3) (scheme_id COMPRESS_XPRESS)) as [e|]; [|destruct (_ =? _); apply same_results_untouched].
  unfold ErrDecompressXpress_. rewrite Hcb, (xget16_ext (Pv dc) (Pv dc') 0 (Cb dc) Heq). unfold xget16.
  destruct (Z.leb_spec (1 + 2) (Cb dc)); [|split; [exact e|lia]]. change ((0 <=? 1) && true) with true. cbv iota.
  destruct (0 =? cbDataMax); [apply same_results_untouched|]. destruct (negb fOpen); [apply same_results_untouched|].
  rewrite (XpressDecode_ext mo 0 _ _ (Pv dc) (Pv dc')) by (intros x Hx; apply Heq; lia).
  destruct (XpressDecode_safe mo 0 (load16 (Pv dc) 1) (Z.min (load16 (Pv dc) 1) cbDataMax) (Pv dc) (1 + 2) (Cb dc - (1 + 2)) Hok) as (cb & m' & -> & _ & Hfr).
  apply same_results_intro; [intros x; reflexivity|]. intros x Hx. apply Hfr. unfold decoded_size. case_cmp; lia.
Qed.

(** The unrolled scan with 32-bit masks chooses the scheme of the reference
    definition: Unicode when every word is a 7-bit character and that saves
    space, otherwise ASCII when every byte is and that saves space. *)
Theorem scheme_choice_is_best data fUnicodeOnly :
  0 <= Cb data -> mem_ok (Pv data) ->
  Calculate7BitCompressionScheme_ data fUnicodeOnly = best_scheme data fUnicodeOnly.
Proof. intros Hcb Hd. apply Calculate7BitCompressionScheme_best; [exact Hcb|]. intros; apply Hd. Qed.

(** The persisted format: whatever the size of the output buffer, and so
    whatever the mixture of the 64-bit loop and the bitwise loop,
    [ErrCompress7BitAscii_] writes exactly the header and the little-endian
    bytes of the number whose 7-bit digits are the characters. *)
Theorem ascii_format_is_reference data pb cbMax :
  mem_ok pb -> 0 <= Cb data -> 7 * Cb data + 7 < 2147483648 ->
  (forall i, 0 <= i < Cb data -> 0 <= Pv data i < 128) ->
  CbCompressed7BitAscii_ (Cb data) <= cbMax ->
  exists r, ErrCompress7BitAscii_ data pb cbMax = Some r /\ r_err r = JET_errSuccess
    /\ load_bytes (r_buf r) 0 (r_cb r) = encode7 COMPRESS_7BITASCII (bytes_of data).
Proof.
  intros Hpb Hcb Hint Hb Hmax.
  destruct (compress_ascii_spec data pb cbMax Hcb Hint Hb Hmax) as (r & E & He & _ & Hp & _).
  exists r; split; [exact E|]. split; [exact He|].
  apply holds_packed_encode7 with (n := Cb data) (f := Pv data); auto.
  eapply compress_ascii_ok; eauto.
Qed.

(** ** Witnesses *)

(** With XPRESS: 81 bytes in 29. *)
Lemma compress_then_decompress_witness :
  (match ErrCompress 2 4096 true sample_run 12 blank 90 0 with Some r => (r_err r, r_buf r 0, r_cb r) | None => (1, 0, 0) end) = (JET_errSuccess, 24, 29) /\
  exists r, ErrCompress 2 4096 true sample_run 12 blank 90 0 = Some r
    /\ (r_err r = JET_errSuccess ->
        r_cb r < Cb sample_run
        /\ exists r', ErrDecompress true {| Pv := r_buf r; Cb := r_cb r |} (Some blank) 50 = Some r' /\ returns r' blank 50 (Cb sample_run) (Pv sample_run)).
Proof.
  split; [vm_compute; reflexivity|].
  apply (compress_then_decompress 2 4096 true sample_run 12 blank 90 0 blank 50);
    [exact sample_run_ok | exact blank_ok | cbn; lia | lia].
Defined.

Lemma compress_returns_witness :
  exists r, ErrCompress 2 4096 false sample 4 blank 7 0 = Some r
    /\ writes_within 0 7 blank (r_buf r)
    /\ (r_err r = JET_errSuccess /\ 0 < r_cb r <= 7
        \/ r_err r = errRECCannotCompress
        \/ r_err r = JET_errBufferTooSmall /\ r_cb r = 0
           /\ 7 < (if all_words7 sample then CbCompressed7BitUnicode_ (Cb sample) else CbCompressed7BitAscii_ (Cb sample))).
Proof. apply (compress_returns 2 4096 false sample 4 blank 7 0); [exact sample_ok | cbn; lia | cbn; lia]. Defined.

(** A damaged XPRESS value: a literal, and a pointer to before the output. *)
Lemma decompress_stays_in_bounds_witness :
  let l := [24; 20; 0; 0; 0; 0; 64; 7; 255; 255; 9; 9] in
  let dc := {| Pv := store_bytes (fun _ => 255) 0 l; Cb := 12 |} in
  let dc' := {| Pv := store_bytes (fun _ => 0) 0 l; Cb := 12 |} in
  match ErrDecompress true dc (Some blank) 30 with
  | Some r =>
      (exists r', ErrDecompress true dc' (Some blank) 30 = Some r' /\ d_err r' = d_err r /\ d_cb r' = d_cb r
       /\ exists b b', d_buf r = Some b /\ d_buf r' = Some b' /\ mem_eq b b')
      /\ exists b, d_buf r = Some b /\ writes_within 0 30 blank b
  | None => Z.shiftr (Pv dc 0) 3 = scheme_id COMPRESS_XPRESS /\ Cb dc < 3
  end.
Proof.
  cbv zeta. apply decompress_stays_in_bounds; cbn [Cb Pv]; [apply store_bytes_ok; intros x; lia | lia | reflexivity |].
  intros x Hx. rewrite !store_bytes_in by (cbn [length]; lia). reflexivity.
Defined.

(** What comes of it: an error, with one byte written. *)
Lemma failed_decode_leaves_bytes :
  (match ErrDecompress true {| Pv := store_bytes (fun _ => 255) 0 [24; 20; 0; 0; 0; 0; 64; 7; 255; 255; 9; 9]; Cb := 12 |} (Some blank) 30 with
   | Some r => (d_err r, match d_buf r with Some b => load_bytes b 0 3 | None => [] end) | None => (0, []) end)
  = (JET_errDecompressionFailed, [7; 170; 170]).
Proof. vm_compute. reflexivity. Qed.

(** A value marked as XPRESS whose block is as long as the size it names: the decoder
    reports success and writes nothing. *)
Lemma block_of_full_size_is_not_decoded dc mo cbDataMax :
  3 < Cb dc -> Z.shiftr (Pv dc 0) 3 = scheme_id COMPRESS_XPRESS -> load16 (Pv dc) 1 = Cb dc - 3 -> Cb dc - 3 <= cbDataMax ->
  ErrDecompress true dc (Some mo) cbDataMax = Some {| d_err := JET_errSuccess; d_buf := Some mo; d_cb := Cb dc - 3 |}.
Proof.
  intros H3 Hid Hsize Hmax. unfold ErrDecompress. rewrite xget_in, Hid by lia.
  change (scheme_id COMPRESS_XPRESS =? scheme_id COMPRESS_7BITASCII) with false. change (scheme_id COMPRESS_XPRESS =? scheme_id COMPRESS_7BITUNICODE) with false. rewrite Z.eqb_refl.
  unfold ErrDecompressXpress_. rewrite xget16_in by lia. rewrite Hsize. replace (0 =? cbDataMax) with false by lia. cbn [negb]. unfold XpressDecode. cbv zeta. change (1 + 2) with 3. rewrite Z.eqb_refl. cbn [orb].
  rewrite Z.min_l by lia. rewrite Z.ltb_irrefl. replace (-1 =? Cb dc - 3) with false by lia. replace (cbDataMax <? Cb dc - 3) with false by lia. reflexivity.
Qed.

Lemma scheme_choice_is_best_witness :
  Calculate7BitCompressionScheme_ sample false = best_scheme sample false /\ best_scheme sample false = COMPRESS_7BITASCII.
Proof. split; [apply (scheme_choice_is_best sample false); [cbn; lia | exact sample_ok] | vm_compute; reflexivity]. Defined.

Lemma ascii_format_is_reference_witness :
  exists r, ErrCompress7BitAscii_ sample blank 18 = Some r /\ r_err r = JET_errSuccess
    /\ load_bytes (r_buf r) 0 (r_cb r) = encode7 COMPRESS_7BITASCII (bytes_of sample).
Proof.
  apply (ascii_format_is_reference sample blank 18); [exact blank_ok | cbn; lia | cbn; lia | | vm_compute; discriminate].
  intros i Hi. change (Cb sample) with 19 in Hi.
  enough (E : (0 <=? Pv sample i) && (Pv sample i <? 128) = true) by lia.
  apply (forall_below 19 (fun i => (0 <=? Pv sample i) && (Pv sample i <? 128))); [vm_compute; reflexivity | exact Hi].
Defined.
