(* ===== verification/Key.v ===== *)
(** * Keys (src/dev/ese/src/inc/daedef.hxx)

    A key is a prefix, shared by the nodes of a page, and a suffix.  Both are
    references into memory, so that the pointer comparisons of the code are
    comparisons of addresses.  [memcmp] promises only the sign of its result;
    the definition here returns the difference of the first two bytes that
    differ, and the theorems speak of signs. *)

From Stdlib Require Import ZArith List Lia Bool.
From S2P Require Import Prelude Mem.
Import ListNotations.

(** ** Data references *)

Record DATAREF := Dref { dPv : Z; dCb : Z }.

Definition dNull : DATAREF := Dref 0 0.
Definition dFNull (d : DATAREF) : bool := dCb d =? 0.

Record KEY := Key { prefix : DATAREF; suffix : DATAREF }.
Record BOOKMARK := Bookmark { bm_key : KEY; bm_data : DATAREF }.
Record KEYDATAFLAGS := Kdf { kdf_key : KEY; kdf_data : DATAREF; kdf_fFlags : Z }.

Definition KEY_Cb (k : KEY) : Z := dCb (prefix k) + dCb (suffix k).
Definition KEY_FNull (k : KEY) : bool := dFNull (prefix k) && dFNull (suffix k).
Definition KEY_Nullify : KEY := Key dNull dNull.

Definition KEY_Advance (k : KEY) (cb : Z) : KEY :=
  if cb <? 0 then k
  else if cb <? dCb (prefix k)
  then Key (Dref (dPv (prefix k) + cb) (dCb (prefix k) - cb)) (suffix k)
  else
    let cbPrefix := dCb (prefix k) in
    Key dNull (Dref (dPv (suffix k) + (cb - cbPrefix)) (dCb (suffix k) - (cb - cbPrefix))).

(** [key.CopyIntoBuffer( pvDest, cbMax )]. *)
Definition KEY_CopyIntoBuffer (m : mem) (k : KEY) (pvDest cbMax : Z) : mem :=
  let cbPrefix := Z.max 0 (dCb (prefix k)) in
  let cbSuffix := Z.max 0 (dCb (suffix k)) in
  let m := memmove m pvDest (dPv (prefix k)) (Z.min cbPrefix cbMax) in
  let cbCopy := Z.max 0 (Z.min cbSuffix (cbMax - cbPrefix)) in
  memmove m (pvDest + cbPrefix) (dPv (suffix k)) cbCopy.

(** ** Comparison *)

Fixpoint memcmp_loop (n : nat) (m : mem) (pb1 pb2 : Z) : Z :=
  match n with
  | O => 0
  | S n => if m pb1 =? m pb2 then memcmp_loop n m (pb1 + 1) (pb2 + 1) else m pb1 - m pb2
  end.

Definition memcmp (m : mem) (pb1 pb2 cb : Z) : Z := memcmp_loop (Z.to_nat cb) m pb1 pb2.

Definition CmpData (m : mem) (data1 data2 : DATAREF) : Z :=
  let db := dCb data1 - dCb data2 in
  let cmp := memcmp m (dPv data1) (dPv data2) (if db <? 0 then dCb data1 else dCb data2) in
  if 0 =? cmp then db else cmp.

Definition FDataEqual (m : mem) (data1 data2 : DATAREF) : bool :=
  if dCb data1 =? dCb data2 then 0 =? memcmp m (dPv data1) (dPv data2) (dCb data1) else false.

Definition CmpKeyShortest (m : mem) (key1 key2 : KEY) : Z :=
  let '(pkeySmallestPrefix, pkeyLargestPrefix, fReversed) :=
    if dCb (prefix key1) <? dCb (prefix key2) then (key1, key2, false) else (key2, key1, true) in
  let pb1 := dPv (prefix pkeySmallestPrefix) in
  let pb2 := dPv (prefix pkeyLargestPrefix) in
  let cbCompare := dCb (prefix pkeySmallestPrefix) in
  let cmp := if pb1 =? pb2 then 0 else memcmp m pb1 pb2 cbCompare in
  let cmp :=
    if (pb1 =? pb2) || (cmp =? 0) then
      let pb1 := dPv (suffix pkeySmallestPrefix) in
      let pb2 := pb2 + cbCompare in
      let cbCompare := Z.min (dCb (prefix pkeyLargestPrefix) - cbCompare) (dCb (suffix pkeySmallestPrefix)) in
      let cmp := memcmp m pb1 pb2 cbCompare in
      if 0 =? cmp then
        let pb1 := pb1 + cbCompare in
        let pb2 := dPv (suffix pkeyLargestPrefix) in
        let cbCompare := Z.min (dCb (suffix pkeySmallestPrefix) - cbCompare) (dCb (suffix pkeyLargestPrefix)) in
        memcmp m pb1 pb2 cbCompare
      else cmp
    else cmp in
  if fReversed then - cmp else cmp.

Definition CmpKey (m : mem) (key1 key2 : KEY) : Z :=
  let cmp := CmpKeyShortest m key1 key2 in
  if 0 =? cmp then KEY_Cb key1 - KEY_Cb key2 else cmp.

Definition FKeysEqual (m : mem) (key1 key2 : KEY) : bool :=
  if KEY_Cb key1 =? KEY_Cb key2 then 0 =? CmpKeyShortest m key1 key2 else false.

(** [CmpKeyData] on two bookmarks (a node is compared through its bookmark). *)
Definition CmpKeyData (m : mem) (kd1 kd2 : BOOKMARK) : Z :=
  let cmp := CmpKey m (bm_key kd1) (bm_key kd2) in
  if 0 =? cmp then CmpData m (bm_data kd1) (bm_data kd2) else cmp.

Definition CmpBM (m : mem) (bm1 bm2 : BOOKMARK) : Z := CmpKeyData m bm1 bm2.

Definition CmpKeyWithKeyData (m : mem) (key : KEY) (keydata : BOOKMARK) : Z :=
  let keySegment1 := bm_key keydata in
  let keySegment2 := Key dNull (bm_data keydata) in
  let cmp := CmpKeyShortest m key keySegment1 in
  let cmp :=
    if (0 =? cmp) && (KEY_Cb keySegment1 <? KEY_Cb key)
    then CmpKeyShortest m (KEY_Advance key (KEY_Cb keySegment1)) keySegment2
    else cmp in
  if 0 =? cmp then KEY_Cb key - (KEY_Cb (bm_key keydata) + dCb (bm_data keydata)) else cmp.

(** ** Common bytes *)

Fixpoint common_data_loop (fuel : nat) (m : mem) (pv1 pv2 ib cbMax : Z) : Z :=
  match fuel with
  | O => ib
  | S fuel => if (ib <? cbMax) && (m (pv1 + ib) =? m (pv2 + ib)) then common_data_loop fuel m pv1 pv2 (ib + 1) cbMax else ib
  end.

Definition CbCommonData (m : mem) (data1 data2 : DATAREF) : Z :=
  let cbMax := Z.min (dCb data1) (dCb data2) in
  common_data_loop (Z.to_nat cbMax) m (dPv data1) (dPv data2) 0 cbMax.

(** The loop that walks two pointers and moves each from prefix to suffix. *)
Fixpoint common_key_loop (fuel : nat) (m : mem) (key1 key2 : KEY) (pb1 pb2 ib cbMax : Z) : Z :=
  match fuel with
  | O => ib
  | S fuel =>
      if ib <? cbMax then
        let pb1 := if dCb (prefix key1) =? ib then dPv (suffix key1) else pb1 in
        let pb2 := if dCb (prefix key2) =? ib then dPv (suffix key2) else pb2 in
        if negb (m pb1 =? m pb2) then ib
        else common_key_loop fuel m key1 key2 (pb1 + 1) (pb2 + 1) (ib + 1) cbMax
      else ib
  end.

Definition CbCommonKey (m : mem) (key1 key2 : KEY) : Z :=
  let cbMax := Z.min (KEY_Cb key1) (KEY_Cb key2) in
  let pb1 := dPv (prefix key1) in
  let pb2 := dPv (prefix key2) in
  let ib := if pb1 =? pb2 then Z.min (dCb (prefix key1)) (dCb (prefix key2)) else 0 in
  common_key_loop (Z.to_nat cbMax) m key1 key2 (pb1 + ib) (pb2 + ib) ib cbMax.

(** ** Numbers as keys *)

(** [__builtin_bswap32], which [ReverseBytesOnLE] is for a [ULONG]. *)
Definition ReverseFourBytes (dw : Z) : Z :=
  let byte k := Z.land (Z.shiftr dw (8 * k)) 255 in
  Z.lor (Z.shiftl (Z.lor (Z.shiftl (Z.lor (Z.shiftl (byte 0) 8) (byte 1)) 8) (byte 2)) 8) (byte 3).

Definition KeyFromLong (m : mem) (rgbKey ul : Z) : mem := store32 m rgbKey (ReverseFourBytes ul).
Definition LongFromKey (m : mem) (rgbKey : Z) : Z := ReverseFourBytes (load32 m rgbKey).

(** ** The bytes of a key *)

Definition data_bytes (m : mem) (d : DATAREF) : list Z := load_bytes m (dPv d) (dCb d).
Definition key_bytes (m : mem) (k : KEY) : list Z := data_bytes m (prefix k) ++ data_bytes m (suffix k).

Definition data_ok (d : DATAREF) : Prop := 0 <= dCb d.
Definition key_ok (k : KEY) : Prop := data_ok (prefix k) /\ data_ok (suffix k).

(** The sign of the lexicographic comparison, a proper prefix being smaller,
    and of the comparison over the shorter length. *)
Fixpoint lex (l1 l2 : list Z) : Z :=
  match l1, l2 with
  | [], [] => 0
  | [], _ => -1
  | _, [] => 1
  | a :: l1, b :: l2 => if a =? b then lex l1 l2 else Z.sgn (a - b)
  end.

Fixpoint lex_short (l1 l2 : list Z) : Z :=
  match l1, l2 with
  | a :: l1, b :: l2 => if a =? b then lex_short l1 l2 else Z.sgn (a - b)
  | _, _ => 0
  end.

(** The length of the longest common prefix. *)
Fixpoint common (l1 l2 : list Z) : Z :=
  match l1, l2 with
  | a :: l1, b :: l2 => if a =? b then 1 + common l1 l2 else 0
  | _, _ => 0
  end.
