(* ===== verification/KeyProps.v ===== *)
(** * Key comparison is lexicographic

    However a key is split into prefix and suffix, and whether or not two
    prefixes are the same memory, the comparisons of Key.v are comparisons of
    the concatenated bytes. *)

From Stdlib Require Import ZArith List Lia Bool.
From S2P Require Import Prelude Bits Mem Key.
Import ListNotations.

(** ** Lists *)

Lemma lex_short_app a b c d :
  length a = length b -> lex_short (a ++ c) (b ++ d) = if lex_short a b =? 0 then lex_short c d else lex_short a b.
Proof.
  revert b; induction a as [|x a IH]; intros [|y b] H; cbn [app lex_short]; try discriminate; [reflexivity|].
  destruct (Z.eqb_spec x y); [apply IH; now injection H|].
  destruct (Z.eqb_spec (Z.sgn (x - y)) 0); [lia | reflexivity].
Qed.

Lemma lex_short_nil_r l : lex_short l [] = 0.
Proof. now destruct l. Qed.

Lemma lex_short_refl l : lex_short l l = 0.
Proof. induction l as [|x l IH]; cbn [lex_short]; [reflexivity|]. now rewrite Z.eqb_refl. Qed.

Lemma lex_short_sym l1 : forall l2, lex_short l2 l1 = - lex_short l1 l2.
Proof.
  induction l1 as [|a l1 IH]; intros [|b l2]; cbn [lex_short]; try reflexivity.
  rewrite (Z.eqb_sym b a). destruct (a =? b); [apply IH|]. rewrite <- Z.sgn_opp. f_equal; lia.
Qed.

Lemma lex_short_range l1 : forall l2, -1 <= lex_short l1 l2 <= 1.
Proof. induction l1 as [|a l1 IH]; intros [|b l2]; cbn [lex_short]; try lia. destruct (a =? b); [apply IH | lia]. Qed.

(** Ties of the short comparison are broken by the length. *)
Lemma lex_via_short l1 : forall l2,
  lex l1 l2 = if lex_short l1 l2 =? 0 then Z.sgn (Z.of_nat (length l1) - Z.of_nat (length l2)) else lex_short l1 l2.
Proof.
  induction l1 as [|a l1 IH]; intros [|b l2]; cbn [lex lex_short length]; try reflexivity; try (cbn; lia).
  destruct (Z.eqb_spec a b).
  - rewrite IH. destruct (lex_short l1 l2 =? 0); [f_equal; lia | reflexivity].
  - destruct (Z.eqb_spec (Z.sgn (a - b)) 0); [lia | reflexivity].
Qed.

Lemma lex_eq l1 : forall l2, lex l1 l2 = 0 <-> l1 = l2.
Proof.
  induction l1 as [|a l1 IH]; intros [|b l2]; cbn [lex]; try (split; [discriminate | intros; discriminate]); [tauto|].
  destruct (Z.eqb_spec a b) as [->|n].
  - rewrite IH. split; [now intros -> | now intros [= ->]].
  - split; [lia | intros [= ? ?]; contradiction].
Qed.

Lemma lex_sym l1 : forall l2, lex l2 l1 = - lex l1 l2.
Proof.
  induction l1 as [|a l1 IH]; intros [|b l2]; cbn [lex]; try reflexivity.
  rewrite (Z.eqb_sym b a). destruct (a =? b); [apply IH|]. rewrite <- Z.sgn_opp. f_equal; lia.
Qed.

Lemma lex_trans l1 : forall l2 l3, lex l1 l2 <= 0 -> lex l2 l3 <= 0 -> lex l1 l3 <= 0.
Proof.
  induction l1 as [|a l1 IH]; intros [|b l2] [|c l3]; cbn [lex]; try lia.
  destruct (Z.eqb_spec a b), (Z.eqb_spec b c), (Z.eqb_spec a c); subst; try lia. apply IH.
Qed.

Lemma lex_lt_trans l1 l2 l3 : lex l1 l2 < 0 -> lex l2 l3 < 0 -> lex l1 l3 < 0.
Proof.
  intros H1 H2. assert (H : lex l1 l3 <= 0) by (apply (lex_trans l1 l2 l3); lia).
  destruct (Z.eq_dec (lex l1 l3) 0) as [E|]; [|lia].
  apply lex_eq in E; subst l3. rewrite lex_sym in H2. lia.
Qed.

Lemma firstn_add_one (l : list Z) n : (n < length l)%nat -> firstn (n + 1) l = firstn n l ++ [nth n l 0].
Proof.
  revert l; induction n as [|n IH]; intros [|x l] H; cbn [length] in H; try lia; [reflexivity|].
  cbn [Nat.add firstn nth app]. f_equal. apply IH. lia.
Qed.

(** ** Memory *)

Lemma load_bytes_0 m a : load_bytes m a 0 = [].
Proof. reflexivity. Qed.

Lemma load_bytes_S m a n : 0 <= n -> load_bytes m a (1 + n) = m a :: load_bytes m (a + 1) n.
Proof.
  intros. unfold load_bytes. replace (Z.to_nat (1 + n)) with (S (Z.to_nat n)) by lia. cbn [seq map].
  rewrite <- seq_shift, map_map. f_equal; [f_equal; lia|]. apply map_ext; intros; f_equal; lia.
Qed.

Lemma load_bytes_app m a n k :
  0 <= n -> 0 <= k -> load_bytes m a (n + k) = load_bytes m a n ++ load_bytes m (a + n) k.
Proof.
  intros Hn Hk. revert a. pattern n. apply natlike_ind; [|clear n Hn; intros n Hn IH|exact Hn]; intros a.
  - rewrite load_bytes_0. cbn [app]. f_equal; lia.
  - replace (Z.succ n + k) with (1 + (n + k)) by lia. replace (Z.succ n) with (1 + n) by lia.
    rewrite !load_bytes_S by lia. rewrite IH. cbn [app]. do 3 f_equal; lia.
Qed.

Lemma length_loaded m a n : Z.of_nat (length (load_bytes m a n)) = Z.max 0 n.
Proof. rewrite length_load_bytes. lia. Qed.

Lemma length_key_bytes m k : key_ok k -> Z.of_nat (length (key_bytes m k)) = KEY_Cb k.
Proof.
  intros [H1 H2]. red in H1, H2. unfold key_bytes, data_bytes, KEY_Cb.
  rewrite length_app, Nat2Z.inj_add, !length_loaded. lia.
Qed.

Lemma memcmp_spec m cb : forall pb1 pb2,
  Z.sgn (memcmp m pb1 pb2 cb) = lex_short (load_bytes m pb1 cb) (load_bytes m pb2 cb).
Proof.
  unfold memcmp. destruct (Z.lt_ge_cases cb 0) as [Hneg|Hpos].
  - intros. unfold load_bytes. replace (Z.to_nat cb) with O by lia. reflexivity.
  - pattern cb. apply natlike_ind; [reflexivity| |exact Hpos]. clear cb Hpos. intros n Hn IH pb1 pb2.
    replace (Z.succ n) with (1 + n) by lia. rewrite !load_bytes_S by lia.
    replace (Z.to_nat (1 + n)) with (S (Z.to_nat n)) by lia. cbn [memcmp_loop lex_short].
    destruct (m pb1 =? m pb2); [apply IH | reflexivity].
Qed.

Lemma sgn_0_iff x : (0 =? x) = (Z.sgn x =? 0).
Proof. destruct x; reflexivity. Qed.

(** ** The comparisons *)

(** Comparing the prefixes, then the rest of the longer prefix with the
    suffix of the other key, then the suffixes. *)
Lemma three_parts ps ss pl sl :
  (length ps <= length pl)%nat ->
  lex_short (ps ++ ss) (pl ++ sl)
  = let c2 := Nat.min (length pl - length ps) (length ss) in
    let c3 := Nat.min (length ss - c2) (length sl) in
    let x1 := lex_short ps (firstn (length ps) pl) in
    let x2 := lex_short (firstn c2 ss) (firstn c2 (skipn (length ps) pl)) in
    let x3 := lex_short (firstn c3 (skipn c2 ss)) (firstn c3 sl) in
    if x1 =? 0 then if x2 =? 0 then x3 else x2 else x1.
Proof.
  intros Hle. cbv zeta.
  rewrite <- (firstn_skipn (length ps) pl) at 1. rewrite <- app_assoc.
  rewrite lex_short_app by (rewrite length_firstn; lia).
  destruct (_ =? 0); [|reflexivity].
  set (pl2 := skipn (length ps) pl). assert (Hpl2 : length pl2 = (length pl - length ps)%nat) by apply length_skipn.
  rewrite <- Hpl2. set (c2 := Nat.min (length pl2) (length ss)).
  rewrite <- (firstn_skipn c2 ss) at 1. rewrite <- (firstn_skipn c2 pl2) at 1. rewrite <- app_assoc.
  rewrite lex_short_app by (rewrite !length_firstn; lia).
  destruct (_ =? 0); [|reflexivity].
  destruct (Nat.le_gt_cases (length pl2) (length ss)).
  - replace (skipn c2 pl2) with (@nil Z) by (symmetry; apply skipn_all2; lia). cbn [app].
    set (s2 := skipn c2 ss). set (c3 := Nat.min (length ss - c2) (length sl)).
    assert (Hs2 : length s2 = (length ss - c2)%nat) by apply length_skipn.
    rewrite <- (firstn_skipn c3 s2) at 1. rewrite <- (firstn_skipn c3 sl) at 1.
    rewrite lex_short_app by (rewrite !length_firstn; lia).
    destruct (Z.eqb_spec (lex_short (firstn c3 s2) (firstn c3 sl)) 0) as [E|]; [|reflexivity].
    rewrite E. destruct (Nat.le_gt_cases (length s2) (length sl)).
    + replace (skipn c3 s2) with (@nil Z) by (symmetry; apply skipn_all2; lia). reflexivity.
    + replace (skipn c3 sl) with (@nil Z) by (symmetry; apply skipn_all2; lia). apply lex_short_nil_r.
  - replace (skipn c2 ss) with (@nil Z) by (symmetry; apply skipn_all2; lia). cbn [lex_short].
    replace (Nat.min (length ss - c2) (length sl)) with O by lia. reflexivity.
Qed.

Lemma firstn_load m a n k : 0 <= k <= n -> firstn (Z.to_nat k) (load_bytes m a n) = load_bytes m a k.
Proof.
  intros H. replace n with (k + (n - k)) by lia. rewrite load_bytes_app by lia.
  rewrite firstn_app, length_load_bytes, Nat.sub_diag. cbn [firstn]. rewrite app_nil_r.
  apply firstn_all2. rewrite length_load_bytes. lia.
Qed.

Lemma skipn_load m a n k : 0 <= k <= n -> skipn (Z.to_nat k) (load_bytes m a n) = load_bytes m (a + k) (n - k).
Proof.
  intros H. replace n with (k + (n - k)) at 1 by lia. rewrite load_bytes_app by lia.
  rewrite skipn_app, length_load_bytes, Nat.sub_diag. cbn [skipn].
  rewrite skipn_all2 by (rewrite length_load_bytes; lia). reflexivity.
Qed.

(** The comparison with the smaller prefix first. *)
Lemma shortest_ordered m ks kl :
  key_ok ks -> key_ok kl -> dCb (prefix ks) <= dCb (prefix kl) ->
  let pb1 := dPv (prefix ks) in let pb2 := dPv (prefix kl) in let c1 := dCb (prefix ks) in
  let cmp1 := if pb1 =? pb2 then 0 else memcmp m pb1 pb2 c1 in
  let c2 := Z.min (dCb (prefix kl) - c1) (dCb (suffix ks)) in
  let cmp2 := memcmp m (dPv (suffix ks)) (pb2 + c1) c2 in
  let c3 := Z.min (dCb (suffix ks) - c2) (dCb (suffix kl)) in
  let cmp3 := memcmp m (dPv (suffix ks) + c2) (dPv (suffix kl)) c3 in
  Z.sgn (if (pb1 =? pb2) || (cmp1 =? 0) then if 0 =? cmp2 then cmp3 else cmp2 else cmp1)
  = lex_short (key_bytes m ks) (key_bytes m kl).
Proof.
  intros [Hs1 Hs2] [Hl1 Hl2] Hle. red in Hs1, Hs2, Hl1, Hl2. cbv zeta. unfold key_bytes, data_bytes.
  rewrite three_parts by (rewrite !length_load_bytes; lia). cbv zeta. rewrite !length_load_bytes.
  set (c1 := dCb (prefix ks)) in *. set (c2 := Z.min (dCb (prefix kl) - c1) (dCb (suffix ks))).
  set (c3 := Z.min (dCb (suffix ks) - c2) (dCb (suffix kl))).
  replace (Nat.min (Z.to_nat (dCb (prefix kl)) - Z.to_nat c1) (Z.to_nat (dCb (suffix ks)))) with (Z.to_nat c2) by lia.
  replace (Nat.min (Z.to_nat (dCb (suffix ks)) - Z.to_nat c2) (Z.to_nat (dCb (suffix kl)))) with (Z.to_nat c3) by lia.
  rewrite !firstn_load, !skipn_load, !firstn_load by lia.
  rewrite <- (memcmp_spec m c2), <- (memcmp_spec m c3).
  set (cmp1 := if _ =? _ then 0 else _).
  assert (H1 : Z.sgn cmp1 = lex_short (load_bytes m (dPv (prefix ks)) c1) (load_bytes m (dPv (prefix kl)) c1)).
  { unfold cmp1. destruct (Z.eqb_spec (dPv (prefix ks)) (dPv (prefix kl))) as [->|]; [|apply memcmp_spec].
    now rewrite lex_short_refl. }
  rewrite <- H1.
  replace ((dPv (prefix ks) =? dPv (prefix kl)) || (cmp1 =? 0)) with (Z.sgn cmp1 =? 0)
    by (unfold cmp1; destruct (_ =? dPv _); cbn [orb]; [reflexivity|]; now destruct (memcmp _ _ _ _)).
  rewrite sgn_0_iff. destruct (Z.sgn cmp1 =? 0); [|reflexivity].
  destruct (Z.sgn (memcmp _ _ _ c2) =? 0); reflexivity.
Qed.

Lemma CmpKeyShortest_spec m k1 k2 :
  key_ok k1 -> key_ok k2 -> Z.sgn (CmpKeyShortest m k1 k2) = lex_short (key_bytes m k1) (key_bytes m k2).
Proof.
  intros H1 H2. unfold CmpKeyShortest. destruct (Z.ltb_spec (dCb (prefix k1)) (dCb (prefix k2))).
  - apply shortest_ordered; auto; lia.
  - rewrite Z.sgn_opp, shortest_ordered by (auto; lia). symmetry. apply lex_short_sym.
Qed.

Lemma CmpKey_spec m k1 k2 :
  key_ok k1 -> key_ok k2 -> Z.sgn (CmpKey m k1 k2) = lex (key_bytes m k1) (key_bytes m k2).
Proof.
  intros H1 H2. unfold CmpKey. rewrite lex_via_short, sgn_0_iff, CmpKeyShortest_spec by auto.
  rewrite !length_key_bytes by auto.
  destruct (_ =? 0); [reflexivity | now apply CmpKeyShortest_spec].
Qed.

Lemma lex_short_firstn l1 l2 :
  lex_short l1 l2 = lex_short (firstn (Nat.min (length l1) (length l2)) l1) (firstn (Nat.min (length l1) (length l2)) l2).
Proof.
  pose proof (three_parts [] l1 [] l2 ltac:(cbn; lia)) as H. cbn [app length Nat.min Nat.sub firstn skipn lex_short] in H.
  rewrite Nat.sub_0_r in H. exact H.
Qed.

Lemma CmpData_spec m d1 d2 :
  data_ok d1 -> data_ok d2 -> Z.sgn (CmpData m d1 d2) = lex (data_bytes m d1) (data_bytes m d2).
Proof.
  intros H1 H2. red in H1, H2. unfold CmpData, data_bytes. rewrite lex_via_short, !length_loaded, sgn_0_iff.
  set (n := if dCb d1 - dCb d2 <? 0 then dCb d1 else dCb d2).
  assert (Hn : n = Z.min (dCb d1) (dCb d2)) by (unfold n; case_cmp; lia).
  assert (E : Z.sgn (memcmp m (dPv d1) (dPv d2) n)
    = lex_short (load_bytes m (dPv d1) (dCb d1)) (load_bytes m (dPv d2) (dCb d2))).
  { rewrite memcmp_spec. symmetry. rewrite lex_short_firstn, !length_load_bytes.
    replace (Nat.min (Z.to_nat (dCb d1)) (Z.to_nat (dCb d2))) with (Z.to_nat n) by lia.
    now rewrite !firstn_load by lia. }
  rewrite E. destruct (_ =? 0); [f_equal; lia | exact E].
Qed.

Lemma CmpKeyData_spec m b1 b2 :
  key_ok (bm_key b1) -> key_ok (bm_key b2) -> data_ok (bm_data b1) -> data_ok (bm_data b2) ->
  Z.sgn (CmpKeyData m b1 b2)
  = let c := lex (key_bytes m (bm_key b1)) (key_bytes m (bm_key b2)) in
    if c =? 0 then lex (data_bytes m (bm_data b1)) (data_bytes m (bm_data b2)) else c.
Proof.
  intros. unfold CmpKeyData. cbv zeta. rewrite sgn_0_iff, CmpKey_spec by auto.
  destruct (_ =? 0); [now apply CmpData_spec | now apply CmpKey_spec].
Qed.

(** ** Advancing *)

Lemma KEY_Advance_ok k cb : key_ok k -> 0 <= cb <= KEY_Cb k -> key_ok (KEY_Advance k cb).
Proof.
  intros [H1 H2] Hc. unfold KEY_Advance, KEY_Cb in *. unfold data_ok in *.
  destruct (Z.ltb_spec cb 0); [lia|]. destruct (Z.ltb_spec cb (dCb (prefix k))); split; unfold data_ok; cbn; lia.
Qed.

Lemma KEY_Advance_bytes m k cb :
  key_ok k -> 0 <= cb <= KEY_Cb k -> key_bytes m (KEY_Advance k cb) = skipn (Z.to_nat cb) (key_bytes m k).
Proof.
  intros [H1 H2] Hc. unfold KEY_Advance, key_bytes, data_bytes, KEY_Cb in *. unfold data_ok in *.
  destruct (Z.ltb_spec cb 0); [lia|]. rewrite skipn_app, length_load_bytes.
  destruct (Z.ltb_spec cb (dCb (prefix k))); cbn [prefix suffix dPv dCb dNull].
  - rewrite skipn_load by lia. replace (Z.to_nat cb - _)%nat with O by lia. reflexivity.
  - rewrite load_bytes_0. rewrite skipn_all2 by (rewrite length_load_bytes; lia). cbn [app].
    replace (Z.to_nat cb - Z.to_nat (dCb (prefix k)))%nat with (Z.to_nat (cb - dCb (prefix k))) by lia.
    now rewrite skipn_load by lia.
Qed.

(** Comparing against a concatenation, first part first. *)
Lemma lex_short_concat k a b :
  lex_short k (a ++ b)
  = if (lex_short k a =? 0) && (length a <? length k)%nat then lex_short (skipn (length a) k) b else lex_short k a.
Proof.
  revert k; induction a as [|x a IH]; intros k; cbn [app].
  - destruct k as [|y k]; cbn [lex_short length skipn]; [now destruct b|]. reflexivity.
  - destruct k as [|y k]; cbn [lex_short length skipn]; [reflexivity|].
    destruct (Z.eqb_spec y x); [rewrite IH; reflexivity|].
    destruct (Z.eqb_spec (Z.sgn (y - x)) 0); [lia | reflexivity].
Qed.

Lemma CmpKeyWithKeyData_spec m key kd :
  key_ok key -> key_ok (bm_key kd) -> data_ok (bm_data kd) ->
  Z.sgn (CmpKeyWithKeyData m key kd)
  = lex (key_bytes m key) (key_bytes m (bm_key kd) ++ data_bytes m (bm_data kd)).
Proof.
  intros Hk Hb Hd. unfold CmpKeyWithKeyData.
  assert (Hlb : Z.of_nat (length (key_bytes m (bm_key kd))) = KEY_Cb (bm_key kd)) by now apply length_key_bytes.
  assert (Hlk : Z.of_nat (length (key_bytes m key)) = KEY_Cb key) by now apply length_key_bytes.
  set (cmp := if (0 =? _) && _ then _ else _).
  assert (Hc : Z.sgn cmp = lex_short (key_bytes m key) (key_bytes m (bm_key kd) ++ data_bytes m (bm_data kd))).
  { unfold cmp. rewrite lex_short_concat, sgn_0_iff, CmpKeyShortest_spec by auto.
    replace (length (key_bytes m (bm_key kd)) <? length (key_bytes m key))%nat with (KEY_Cb (bm_key kd) <? KEY_Cb key)
      by (destruct (Z.ltb_spec (KEY_Cb (bm_key kd)) (KEY_Cb key)); symmetry; [apply Nat.ltb_lt | apply Nat.ltb_ge]; lia).
    destruct (Z.ltb_spec (KEY_Cb (bm_key kd)) (KEY_Cb key)).
    - rewrite !andb_true_r. destruct (_ =? 0); [|now apply CmpKeyShortest_spec].
      assert (H0 : 0 <= KEY_Cb (bm_key kd)) by lia.
      rewrite CmpKeyShortest_spec;
        [| apply KEY_Advance_ok; [exact Hk | lia] | split; [unfold data_ok; cbn; lia | exact Hd]].
      rewrite KEY_Advance_bytes by (auto; lia).
      rewrite <- Hlb, Nat2Z.id. f_equal.
    - rewrite !andb_false_r. now apply CmpKeyShortest_spec. }
  rewrite lex_via_short, sgn_0_iff, Hc. destruct (_ =? 0); [|exact Hc].
  rewrite length_app, Nat2Z.inj_add, Hlb, Hlk. unfold data_bytes. rewrite length_loaded. do 2 f_equal.
  red in Hd. lia.
Qed.

(** ** Common bytes *)

(** The byte at index [i] of a key. *)
Definition key_byte (m : mem) (k : KEY) (i : Z) : Z :=
  if i <? dCb (prefix k) then m (dPv (prefix k) + i) else m (dPv (suffix k) + (i - dCb (prefix k))).

Lemma nth_key_bytes m k i :
  key_ok k -> 0 <= i < KEY_Cb k -> nth (Z.to_nat i) (key_bytes m k) 0 = key_byte m k i.
Proof.
  intros [H1 H2] Hi. unfold data_ok, KEY_Cb, key_byte, key_bytes, data_bytes in *.
  destruct (Z.ltb_spec i (dCb (prefix k))).
  - rewrite app_nth1 by (rewrite length_load_bytes; lia). rewrite nth_load_bytes by lia. f_equal; lia.
  - rewrite app_nth2 by (rewrite length_load_bytes; lia). rewrite length_load_bytes.
    rewrite nth_load_bytes by lia. f_equal; lia.
Qed.

Lemma common_app l a b : common (l ++ a) (l ++ b) = Z.of_nat (length l) + common a b.
Proof.
  induction l as [|x l IH]; cbn [app common]; [cbn; lia|]. rewrite Z.eqb_refl, IH. cbn [length]. lia.
Qed.

Lemma common_range l1 : forall l2, 0 <= common l1 l2 <= Z.min (Z.of_nat (length l1)) (Z.of_nat (length l2)).
Proof.
  induction l1 as [|a l1 IH]; intros [|b l2]; cbn [common]; try (cbn [length]; lia).
  specialize (IH l2). cbn [length]. destruct (a =? b); lia.
Qed.

Lemma firstn_common l1 : forall l2,
  firstn (Z.to_nat (common l1 l2)) l1 = firstn (Z.to_nat (common l1 l2)) l2.
Proof.
  induction l1 as [|a l1 IH]; intros [|b l2]; cbn [common]; try reflexivity.
  destruct (Z.eqb_spec a b); [|reflexivity]. subst b. pose proof (common_range l1 l2).
  replace (Z.to_nat (1 + common l1 l2)) with (S (Z.to_nat (common l1 l2))) by lia. cbn [firstn]. f_equal. apply IH.
Qed.

Lemma common_skip l1 l2 i :
  (i <= length l1)%nat -> (i <= length l2)%nat -> firstn i l1 = firstn i l2 ->
  common l1 l2 = Z.of_nat i + common (skipn i l1) (skipn i l2).
Proof.
  intros H1 H2 E. rewrite <- (firstn_skipn i l1) at 1. rewrite <- (firstn_skipn i l2) at 1. rewrite <- E.
  rewrite common_app, length_firstn. lia.
Qed.

Lemma skipn_nth_cons (l : list Z) i : (i < length l)%nat -> skipn i l = nth i l 0 :: skipn (S i) l.
Proof.
  revert l; induction i as [|i IH]; intros [|x l] H; cbn [length] in H; try lia; [reflexivity|].
  cbn [skipn nth]. apply IH. lia.
Qed.

Section CommonKey.
Variables (m : mem) (k1 k2 : KEY).
Hypothesis Hk1 : key_ok k1.
Hypothesis Hk2 : key_ok k2.
Let l1 := key_bytes m k1.
Let l2 := key_bytes m k2.
Let cbMax := Z.min (KEY_Cb k1) (KEY_Cb k2).

(** Where the walking pointer of a key is, before it is moved to the suffix. *)
Definition walks (k : KEY) (pb ib : Z) : Prop :=
  (ib <= dCb (prefix k) -> pb = dPv (prefix k) + ib) /\
  (dCb (prefix k) < ib -> pb = dPv (suffix k) + (ib - dCb (prefix k))).

Lemma walk_reads k pb ib :
  walks k pb ib ->
  let pb' := if dCb (prefix k) =? ib then dPv (suffix k) else pb in
  m pb' = key_byte m k ib /\ walks k (pb' + 1) (ib + 1).
Proof.
  intros [Hp Hs]. cbv zeta. unfold key_byte, walks. destruct (Z.eqb_spec (dCb (prefix k)) ib).
  - split; [destruct (Z.ltb_spec ib (dCb (prefix k))); [lia | f_equal; lia]|]. split; intros; lia.
  - destruct (Z.ltb_spec ib (dCb (prefix k))).
    + rewrite Hp by lia. split; [reflexivity|]. split; intros; lia.
    + rewrite Hs by lia. split; [reflexivity|]. split; intros; lia.
Qed.

Lemma common_key_loop_spec fuel : forall pb1 pb2 ib,
  0 <= ib -> ib <= cbMax -> cbMax - ib <= Z.of_nat fuel -> walks k1 pb1 ib -> walks k2 pb2 ib ->
  firstn (Z.to_nat ib) l1 = firstn (Z.to_nat ib) l2 ->
  common_key_loop fuel m k1 k2 pb1 pb2 ib cbMax = common l1 l2.
Proof.
  assert (L1 : Z.of_nat (length l1) = KEY_Cb k1) by now apply length_key_bytes.
  assert (L2 : Z.of_nat (length l2) = KEY_Cb k2) by now apply length_key_bytes.
  assert (Hdone : forall ib, 0 <= ib -> ib = cbMax -> firstn (Z.to_nat ib) l1 = firstn (Z.to_nat ib) l2 -> ib = common l1 l2).
  { intros ib H0 E Ef. unfold cbMax in E. pose proof (common_range l1 l2).
    pose proof (common_skip l1 l2 (Z.to_nat ib) ltac:(lia) ltac:(lia) Ef).
    pose proof (common_range (skipn (Z.to_nat ib) l1) (skipn (Z.to_nat ib) l2)). lia. }
  induction fuel as [|fuel IH]; intros pb1 pb2 ib H0 Hle Hf W1 W2 Ef; cbn [common_key_loop].
  - apply Hdone; auto; lia.
  - destruct (Z.ltb_spec ib cbMax); [|apply Hdone; auto; lia].
    destruct (walk_reads k1 pb1 ib W1) as [R1 W1']. destruct (walk_reads k2 pb2 ib W2) as [R2 W2'].
    cbv zeta in R1, R2, W1', W2'. rewrite R1, R2. unfold cbMax in *.
    rewrite <- (nth_key_bytes m k1), <- (nth_key_bytes m k2) by (auto; lia). fold l1 l2.
    assert (E1 : skipn (Z.to_nat ib) l1 = nth (Z.to_nat ib) l1 0 :: skipn (S (Z.to_nat ib)) l1) by (apply skipn_nth_cons; lia).
    assert (E2 : skipn (Z.to_nat ib) l2 = nth (Z.to_nat ib) l2 0 :: skipn (S (Z.to_nat ib)) l2) by (apply skipn_nth_cons; lia).
    destruct (Z.eqb_spec (nth (Z.to_nat ib) l1 0) (nth (Z.to_nat ib) l2 0)) as [Eb|Nb]; cbn [negb].
    + apply IH; auto; try lia.
      replace (Z.to_nat (ib + 1)) with (Z.to_nat ib + 1)%nat by lia.
      rewrite !firstn_add_one by lia. now rewrite Ef, Eb.
    + rewrite (common_skip l1 l2 (Z.to_nat ib)), E1, E2 by (auto; lia). cbn [common].
      destruct (Z.eqb_spec (nth (Z.to_nat ib) l1 0) (nth (Z.to_nat ib) l2 0)); [contradiction | lia].
Qed.

Lemma CbCommonKey_spec : CbCommonKey m k1 k2 = common l1 l2.
Proof.
  unfold CbCommonKey. fold cbMax. pose proof Hk1 as [P1 S1]. pose proof Hk2 as [P2 S2]. red in P1, P2, S1, S2.
  set (ib := if _ =? _ then _ else 0).
  assert (Hib : 0 <= ib <= Z.min (dCb (prefix k1)) (dCb (prefix k2))) by (unfold ib; case_cmp; lia).
  apply common_key_loop_spec; unfold cbMax, KEY_Cb; try lia; try (split; intros; lia).
  unfold ib. destruct (Z.eqb_spec (dPv (prefix k1)) (dPv (prefix k2))) as [E|]; [|reflexivity].
  set (n := Z.min _ _). unfold l1, l2, key_bytes, data_bytes.
  rewrite !firstn_app, !length_load_bytes.
  replace (Z.to_nat n - Z.to_nat (dCb (prefix k1)))%nat with O by lia.
  replace (Z.to_nat n - Z.to_nat (dCb (prefix k2)))%nat with O by lia. cbn [firstn].
  rewrite !firstn_load, E by lia. reflexivity.
Qed.

End CommonKey.

Lemma FKeysEqual_spec m k1 k2 : key_ok k1 -> key_ok k2 -> FKeysEqual m k1 k2 = true <-> key_bytes m k1 = key_bytes m k2.
Proof.
  intros H1 H2. pose proof (length_key_bytes m k1 H1) as L1. pose proof (length_key_bytes m k2 H2) as L2.
  rewrite <- lex_eq, lex_via_short, L1, L2, <- (CmpKeyShortest_spec m k1 k2) by auto. unfold FKeysEqual.
  destruct (Z.eqb_spec (KEY_Cb k1) (KEY_Cb k2)) as [->|N].
  - rewrite Z.sub_diag. cbn [Z.sgn]. destruct (Z.eqb_spec 0 (CmpKeyShortest m k1 k2)), (Z.eqb_spec (Z.sgn (CmpKeyShortest m k1 k2)) 0); split; intros; lia || easy.
  - split; [discriminate|]. destruct (Z.eqb_spec (Z.sgn (CmpKeyShortest m k1 k2)) 0); intros E; lia.
Qed.

Lemma common_differ l1 : forall l2, common l1 l2 < Z.of_nat (length l1) -> common l1 l2 < Z.of_nat (length l2) ->
  nth (Z.to_nat (common l1 l2)) l1 0 <> nth (Z.to_nat (common l1 l2)) l2 0.
Proof.
  induction l1 as [|a l1 IH]; intros [|b l2] H1 H2; cbn [common length] in *; try lia.
  pose proof (common_range l1 l2). destruct (Z.eqb_spec a b); [|exact n].
  replace (Z.to_nat (1 + common l1 l2)) with (S (Z.to_nat (common l1 l2))) by lia. cbn [nth]. apply IH; lia.
Qed.

(** ** Numbers as keys *)

Definition big_endian (x : Z) : list Z := [x / 16777216; x / 65536 mod 256; x / 256 mod 256; x mod 256].

Lemma ReverseFourBytes_eq x : 0 <= x < 4294967296 ->
  ReverseFourBytes x = x / 16777216 + 256 * (x / 65536 mod 256) + 65536 * (x / 256 mod 256) + 16777216 * (x mod 256).
Proof.
  intros Hx. unfold ReverseFourBytes.
  assert (B : forall k, 0 <= k -> Z.land (Z.shiftr x (8 * k)) 255 = x / 2 ^ (8 * k) mod 256).
  { intros k Hk. rewrite Z.shiftr_div_pow2 by lia. change 255 with (Z.ones 8). rewrite Z.land_ones by lia. reflexivity. }
  rewrite !B by lia. change (2 ^ (8 * 0)) with 1. change (2 ^ (8 * 1)) with 256. change (2 ^ (8 * 2)) with 65536. change (2 ^ (8 * 3)) with 16777216.
  assert (L : forall h l, 0 <= l < 256 -> Z.lor (Z.shiftl h 8) l = 256 * h + l).
  { intros h l Hl. rewrite Z.shiftl_mul_pow2 by lia. rewrite Z.mul_comm. rewrite <- Z.lxor_lor, <- Z.add_nocarry_lxor; [reflexivity| |];
      (apply Z.bits_inj'; intros k Hk; rewrite Z.land_spec, Z.testbit_0_l, Z.mul_comm; destruct (Z.lt_ge_cases k 8);
       [now rewrite Z.mul_pow2_bits_low by lia|rewrite (testbit_high 8 l) by (change (2 ^ 8) with 256; lia); apply andb_false_r]). }
  rewrite !L by (apply Z.mod_pos_bound; lia). rewrite Z.div_1_r. rewrite (Z.mod_small (x / 16777216) 256) by zlia. lia.
Qed.

Lemma store32_bytes m a b0 b1 b2 b3 :
  0 <= b0 < 256 -> 0 <= b1 < 256 -> 0 <= b2 < 256 -> 0 <= b3 < 256 ->
  load_bytes (store32 m a (b0 + 256 * b1 + 65536 * b2 + 16777216 * b3)) a 4 = [b0; b1; b2; b3].
Proof.
  intros. change 4 with (1 + (1 + (1 + (1 + 0)))). rewrite !load_bytes_S by lia. rewrite load_bytes_0.
  unfold store32, store16, store8.
  repeat match goal with |- context [?u =? ?v] => destruct (Z.eqb_spec u v); try lia end.
  repeat (apply (f_equal2 cons); [zlia|]). reflexivity.
Qed.

Lemma KeyFromLong_bytes m a x : 0 <= x < 4294967296 -> load_bytes (KeyFromLong m a x) a 4 = big_endian x.
Proof.
  intros Hx. unfold KeyFromLong. rewrite ReverseFourBytes_eq by assumption. now rewrite store32_bytes by zlia.
Qed.

Lemma lex_bytes4 a1 a2 a3 a4 b1 b2 b3 b4 :
  0 <= a1 < 256 -> 0 <= a2 < 256 -> 0 <= a3 < 256 -> 0 <= a4 < 256 ->
  0 <= b1 < 256 -> 0 <= b2 < 256 -> 0 <= b3 < 256 -> 0 <= b4 < 256 ->
  lex [a1; a2; a3; a4] [b1; b2; b3; b4]
  = Z.sgn (16777216 * a1 + 65536 * a2 + 256 * a3 + a4 - (16777216 * b1 + 65536 * b2 + 256 * b3 + b4)).
Proof.
  intros. cbn [lex]. repeat match goal with |- context [?u =? ?v] => destruct (Z.eqb_spec u v) end; lia.
Qed.

Lemma big_endian_value x :
  16777216 * (x / 16777216) + 65536 * (x / 65536 mod 256) + 256 * (x / 256 mod 256) + x mod 256 = x.
Proof. zlia. Qed.

Lemma lex_big_endian x y :
  0 <= x < 4294967296 -> 0 <= y < 4294967296 -> lex (big_endian x) (big_endian y) = Z.sgn (x - y).
Proof.
  intros Hx Hy. unfold big_endian. rewrite lex_bytes4 by zlia. now rewrite !big_endian_value.
Qed.

Lemma ReverseFourBytes_digits b0 b1 b2 b3 :
  0 <= b0 < 256 -> 0 <= b1 < 256 -> 0 <= b2 < 256 -> 0 <= b3 < 256 ->
  ReverseFourBytes (b0 + 256 * b1 + 65536 * b2 + 16777216 * b3) = 16777216 * b0 + 65536 * b1 + 256 * b2 + b3.
Proof.
  intros. rewrite ReverseFourBytes_eq by lia. set (x := b0 + 256 * b1 + 65536 * b2 + 16777216 * b3).
  replace (x / 16777216) with b3 by (unfold x; zlia). replace (x / 65536 mod 256) with b2 by (unfold x; zlia).
  replace (x / 256 mod 256) with b1 by (unfold x; zlia). replace (x mod 256) with b0 by (unfold x; zlia). lia.
Qed.

Lemma LongFromKey_spec m a x : 0 <= x < 4294967296 -> LongFromKey (KeyFromLong m a x) a = x.
Proof.
  intros Hx. unfold LongFromKey, KeyFromLong. rewrite (ReverseFourBytes_eq x Hx).
  rewrite load32_store32_eq. unfold u32. rewrite Z.mod_small by zlia.
  rewrite ReverseFourBytes_digits by zlia. apply big_endian_value.
Qed.

(** * Keys: the properties *)

(** Comparing keys compares their bytes: whatever the split of each key into
    prefix and suffix and whether or not prefixes are the same memory,
    [CmpKey] has the sign of the lexicographic comparison of the concatenated
    bytes (a proper prefix is smaller), [FKeysEqual] is equality of the bytes,
    [CmpBM] compares data where the keys are equal, and [CmpKeyWithKeyData]
    compares with key and data concatenated. *)
Theorem key_comparison_is_lexicographic m k bm :
  key_ok k -> key_ok (bm_key bm) -> data_ok (bm_data bm) ->
  let K := key_bytes m (bm_key bm) in let D := data_bytes m (bm_data bm) in
  Z.sgn (CmpKey m k (bm_key bm)) = lex (key_bytes m k) K /\
  (FKeysEqual m k (bm_key bm) = true <-> key_bytes m k = K) /\
  (forall d, data_ok d ->
     Z.sgn (CmpBM m (Bookmark k d) bm) = if lex (key_bytes m k) K =? 0 then lex (data_bytes m d) D else lex (key_bytes m k) K) /\
  Z.sgn (CmpKeyWithKeyData m k bm) = lex (key_bytes m k) (K ++ D).
Proof.
  intros Hk Hb Hd K D. split; [now apply CmpKey_spec|]. split; [now apply FKeysEqual_spec|].
  split; [|now apply CmpKeyWithKeyData_spec]. intros d Hd'. unfold CmpBM. now rewrite CmpKeyData_spec.
Qed.

(** [CbCommonKey], which walks both keys byte by byte across the boundary
    of prefix and suffix and skips prefixes that are the same memory, returns
    the length of the longest common prefix of the keys. *)
Theorem CbCommonKey_is_longest_prefix m k1 k2 :
  key_ok k1 -> key_ok k2 ->
  let n := CbCommonKey m k1 k2 in
  0 <= n <= Z.min (KEY_Cb k1) (KEY_Cb k2) /\
  firstn (Z.to_nat n) (key_bytes m k1) = firstn (Z.to_nat n) (key_bytes m k2) /\
  (n < Z.min (KEY_Cb k1) (KEY_Cb k2) -> nth (Z.to_nat n) (key_bytes m k1) 0 <> nth (Z.to_nat n) (key_bytes m k2) 0).
Proof.
  intros H1 H2 n. unfold n. rewrite CbCommonKey_spec by auto.
  pose proof (common_range (key_bytes m k1) (key_bytes m k2)) as R. rewrite !length_key_bytes in R by auto.
  split; [exact R|]. split; [apply firstn_common|]. intros Hlt. apply common_differ; rewrite length_key_bytes by auto; lia.
Qed.

(** [KeyFromLong] stores a number so that the order of the stored bytes is
    the order of the numbers, and [LongFromKey] reads it back. *)
Theorem KeyFromLong_keeps_order m1 m2 a b x y :
  0 <= x < 2 ^ 32 -> 0 <= y < 2 ^ 32 ->
  lex (load_bytes (KeyFromLong m1 a x) a 4) (load_bytes (KeyFromLong m2 b y) b 4) = Z.sgn (x - y) /\
  LongFromKey (KeyFromLong m1 a x) a = x.
Proof.
  intros Hx Hy. change (2 ^ 32) with 4294967296 in *. rewrite !KeyFromLong_bytes by assumption.
  split; [now apply lex_big_endian|now apply LongFromKey_spec].
Qed.

(** ** Witnesses *)

Ltac key_sizes := split; red; cbn; lia.

(** The key ABC split as AB|C at 0 and as A|BC at 10, then ABD. *)
Definition letters : mem := store_bytes (store_bytes (store_bytes (fun _ => 0) 0 [65; 66; 67]) 10 [65; 66; 67]) 20 [65; 66; 68].

Lemma key_comparison_is_lexicographic_witness :
  CmpKey letters (Key (Dref 0 2) (Dref 2 1)) (Key (Dref 10 1) (Dref 11 2)) = 0 /\
  CmpKey letters (Key (Dref 0 2) (Dref 2 1)) (Key (Dref 20 3) (Dref 0 0)) < 0.
Proof.
  destruct (key_comparison_is_lexicographic letters (Key (Dref 0 2) (Dref 2 1)) (Bookmark (Key (Dref 10 1) (Dref 11 2)) dNull)
    ltac:(key_sizes) ltac:(key_sizes) ltac:(red; cbn; lia)) as (C1 & _).
  destruct (key_comparison_is_lexicographic letters (Key (Dref 0 2) (Dref 2 1)) (Bookmark (Key (Dref 20 3) (Dref 0 0)) dNull)
    ltac:(key_sizes) ltac:(key_sizes) ltac:(red; cbn; lia)) as (C2 & _).
  cbn [bm_key] in C1, C2. split.
  - apply Z.sgn_null_iff. rewrite C1. reflexivity.
  - apply Z.sgn_neg_iff. rewrite C2. reflexivity.
Defined.

Lemma CbCommonKey_is_longest_prefix_witness :
  firstn 2 (key_bytes letters (Key (Dref 0 2) (Dref 2 1))) = firstn 2 (key_bytes letters (Key (Dref 20 1) (Dref 21 2))).
Proof.
  exact (proj1 (proj2 (CbCommonKey_is_longest_prefix letters (Key (Dref 0 2) (Dref 2 1)) (Key (Dref 20 1) (Dref 21 2))
    ltac:(key_sizes) ltac:(key_sizes)))).
Defined.

Lemma KeyFromLong_keeps_order_witness :
  lex (load_bytes (KeyFromLong letters 0 255) 0 4) (load_bytes (KeyFromLong letters 0 256) 0 4) = -1.
Proof. exact (proj1 (KeyFromLong_keeps_order letters letters 0 0 255 256 ltac:(lia) ltac:(lia))). Defined.
