(* ===== verification/PageChunks.v ===== *)
(** * Data given by pointer

    The callers of [Insert] and [Replace] pass pointers into memory, sometimes
    into the line that is being replaced.  A list of such pointers is as good
    as the bytes they point to, provided the bytes are still there when they
    are copied: [chunks_are].  Then the lemmas on [Insert_] and [Replace_], which
    speak of bytes, apply. *)

From Stdlib Require Import ZArith List Lia Bool FunctionalExtensionality.
From S2P Require Import Prelude Bits Mem Checksum PageChecksum Page PageLayout PageTags PageReorg PageTagArray PageInsert PageReplace.
Import ListNotations.

(** ** Chunks *)

(** Copying the chunks one after the other from [dst] on, in a line that starts
    at [lo], copies the bytes [ls] of memory [m]: each source is outside the
    part of the line that has been written by then.  [P] holds of all source
    addresses. *)
Fixpoint chunks_are (P : Z -> Prop) (m : mem) (lo dst : Z) (rgdata : list DATA) (ls : list (list Z)) : Prop :=
  match rgdata, ls with
  | [], [] => True
  | d :: rgdata, l :: ls =>
      match d with
      | DataExt l' => l' = l
      | DataPage src cb =>
          0 <= cb /\ l = load_bytes m src cb /\ (forall a, src <= a < src + cb -> P a) /\
          (cb = 0 \/ dst <= src \/ src + cb <= lo)
      end /\ chunks_are P m lo (dst + Z.of_nat (length l)) rgdata ls
  | _, _ => False
  end.

Lemma memmove_store m dst src cb :
  mem_ok m -> 0 <= cb -> memmove m dst src cb = store_bytes m dst (load_bytes m src cb).
Proof.
  intros Hm Hcb. apply functional_extensionality. intros x. unfold memmove, store_bytes. rewrite length_load_bytes, Z2Nat.id by lia.
  destruct (Z.leb_spec dst x), (Z.ltb_spec x (dst + cb)); cbn [andb]; try reflexivity.
  rewrite nth_load_bytes, Z2Nat.id by lia. symmetry. apply Z.mod_small, Hm.
Qed.

Lemma chunks_total P m lo rgdata : forall dst ls, chunks_are P m lo dst rgdata ls -> CbDataTotal_ rgdata = CbDataTotal_ (ext ls).
Proof.
  unfold CbDataTotal_. generalize 0 at 1 2 as acc. induction rgdata as [|d rgdata IH]; intros acc dst [|l ls] H; try easy.
  cbn [chunks_are] in H. destruct H as [Hd H]. cbn [ext map fold_left].
  replace (DATA_Cb d) with (DATA_Cb (DataExt l)); [now apply (IH _ _ _ H)|].
  destruct d as [l'|src cb]; [now subst l'|]. destruct Hd as (Hc & -> & _). cbn. rewrite length_load_bytes. lia.
Qed.

(** The source addresses may be read in any memory that agrees on them. *)
Lemma chunks_move P m m' lo rgdata : (forall a, P a -> m' a = m a) ->
  forall dst ls, chunks_are P m lo dst rgdata ls -> chunks_are P m' lo dst rgdata ls.
Proof.
  intros K. induction rgdata as [|d rgdata IH]; intros dst [|l ls] H; try easy. destruct H as [Hd H]. split; [|now apply IH].
  destruct d as [l'|src cb]; [exact Hd|]. destruct Hd as (Hc & -> & Hp & Ho). repeat split; auto.
  apply load_bytes_ext. intros a Ha. symmetry. now apply K, Hp.
Qed.

Lemma copy_loop_chunks P m lo rgdata : forall ls p dst,
  mem_ok (pv p) -> chunks_are P m lo dst rgdata ls -> lo <= dst ->
  (forall a, a < lo \/ dst <= a -> P a -> pv p a = m a) ->
  copy_loop p dst rgdata = copy_loop p dst (ext ls).
Proof.
  induction rgdata as [|d rgdata IH]; intros [|l ls] p dst Hm H Hlo K; try easy.
  destruct H as [Hd H]. cbn [ext map copy_loop].
  assert (E : DATA_Cb d = DATA_Cb (DataExt l) /\ copy_from (pv p) dst d = copy_from (pv p) dst (DataExt l)).
  { destruct d as [l'|src cb]; [now subst l'|]. destruct Hd as (Hc & -> & Hp & Ho). cbn [DATA_Cb copy_from].
    rewrite length_load_bytes. split; [lia|]. rewrite memmove_store by auto. f_equal. apply load_bytes_ext.
    intros a Ha. apply K; [lia|now apply Hp]. }
  destruct E as [-> ->]. destruct (DATA_Cb (DataExt l) <? 0); [reflexivity|]. apply IH; try (cbn [DATA_Cb]; lia).
  - cbn. auto with ese.
  - exact H.
  - intros a Ha Hp. cbn [pv with_pv copy_from]. cbn [DATA_Cb] in Ha. rewrite store_bytes_frame by lia. apply K; [lia|exact Hp].
Qed.

(** ** The copy into a line whose tag is set *)

Section Copy.
Variables (P : Z -> Prop) (p q : CPAGE) (t : Z) (rgdata : list DATA) (ls : list (list Z)) (flags : Z).
Let lo := PbFromIb_ q (TAG_Ib q t).
Let cb := Z.of_nat (length (concat ls)).
Hypothesis Ok : mem_ok (pv q).
Hypothesis Hcb : TAG_Cb q t = cb.
Hypothesis Hapart : cb = 0 \/ lo + cb <= t.
Hypothesis K : keeps P p q.
Hypothesis HP : forall a, P a -> a <> t + 3 /\ (2 <= cb -> a <> lo + 1).
Hypothesis HC : chunks_are P (pv p) lo lo rgdata ls.

Lemma CopyData_chunks : CopyData_ (TAG_SetFlags q t flags) t rgdata = CopyData_ (TAG_SetFlags q t flags) t (ext ls).
Proof.
  destruct (SetFlags_Cb_Ib q t ls Ok Hcb Hapart flags) as [_ I].
  destruct (mem_only_fields _ _ (TAG_SetFlags_mem_only q t flags)) as (F & _).
  assert (Pb : PbFromIb_ (TAG_SetFlags q t flags) (TAG_Ib (TAG_SetFlags q t flags) t) = lo)
    by (unfold lo, PbFromIb_, CbPageHeader; now rewrite I, F).
  unfold CopyData_. rewrite Pb. rewrite (copy_loop_chunks P (pv p) lo rgdata ls); [reflexivity| |exact HC|lia|].
  - now apply TAG_SetFlags_ok.
  - intros a _ Ha. rewrite TAG_SetFlags_bytes by exact Ok. destruct (HP a Ha) as [N1 N2]. rewrite set_top3_frame; [now apply K|].
    unfold flag_byte. destruct (m_fSmallFormat q); [congruence|]. destruct (negb _); cbn [andb]; [|discriminate].
    destruct (Z.leb_spec 2 (TAG_Cb q t)); [|discriminate]. fold lo. intros Eq. injection Eq as Eq. apply N2; [lia|auto].
Qed.
End Copy.

(** ** Inserting *)

Definition outside (p : CPAGE) (a : Z) : Prop := a < 0 \/ cbBuffer p <= a.

Lemma Insert_unfold_any `{Srt : StdSort} p itag rgdata flags cb p1 :
  CbDataTotal_ rgdata = cb -> 0 <= cb < 65536 -> FreeSpace_ p (cb + sizeof_TAG) = Some p1 ->
  let pE := ExpandTagArray_ p1 itag in
  let t := PtagFromItag_ pE itag in
  let pA := alloc pE t cb in
  Insert_ p itag rgdata flags =
  CopyData_ (TAG_SetFlags (set_cbFree pA (u16 (cbFree pA - (cb + sizeof_TAG)))) t (u16 flags)) t rgdata.
Proof.
  intros Ht Hcb E pE t pA. unfold Insert_. rewrite Ht, (u16_small cb) by lia. cbv zeta. rewrite E. reflexivity.
Qed.

Section Insert.
Context `{Srt : StdSort}.
Variables (p : CPAGE) (itag : Z) (rgdata : list DATA) (ls : list (list Z)) (flags : Z).
Let l := concat ls.
Let cb := Z.of_nat (length l).
Hypothesis Inv : page_inv p.
Hypothesis Hi : 0 <= itag <= m_itagMicFree p.
Hypothesis Hn : m_itagMicFree p < ITAG_MIC_FREE_MASK.
Hypothesis Hl : bytes_ok l.
Hypothesis Hcb : cb + sizeof_TAG <= cbFree p.
Hypothesis HC : forall lo, 0 <= lo -> lo + cb <= cbBuffer p -> chunks_are (outside p) (pv p) lo lo rgdata ls.

Lemma Insert_chunks : Insert_ p itag rgdata flags = Insert_ p itag (ext ls) flags.
Proof.
  destruct (FreeSpace_some p Inv _ Hcb) as (p1 & E & [M I V K] & Hc). pose proof (cbFree_range p Inv).
  destruct (mem_only_fields _ _ M) as (F1 & F2 & F3 & F4 & F5 & _). pose proof (header_size p1) as H1.
  assert (Cx := HC 0 ltac:(lia)).
  assert (Sm : cb < cbBuffer p).
  { pose proof (cbFree_eq p Inv). pose proof (cb_total_nonneg (lines p)). pose proof (inv_tags p Inv). pose proof (header_size p).
    unfold sizeof_TAG in *. lia. }
  rewrite (Insert_unfold_any p itag rgdata flags cb p1);
    [|rewrite (chunks_total _ _ _ _ _ _ (Cx ltac:(lia))), CbDataTotal_ext; reflexivity|unfold cb, sizeof_TAG in *; lia|exact E].
  rewrite (Insert_unfold p itag ls flags p1); [|fold l cb; unfold sizeof_TAG in *; lia|exact E]. fold l cb.
  assert (Hn1 : 0 <= itag <= m_itagMicFree p1) by now rewrite F4.
  assert (Hr1 : m_ctagReserved p1 <= m_itagMicFree p1 + 1) by (rewrite F4, F5; pose proof (inv_resv_le p Inv); lia).
  assert (Hm1 : m_itagMicFree p1 < ITAG_MIC_FREE_MASK) by now rewrite F4.
  destruct (pl_E p1 itag ls I Hn1 Hm1 Hc) as (RE & _ & _ & BE). destruct (retagged_fields _ _ _ RE) as (G1 & G2 & _).
  destruct (pl_C p1 itag ls I Hn1 Hm1 Hc) as (MC & OkC & CC & IC & _ & _ & KC).
  assert (Sp : CbPageHeader p1 + ibMicFree p1 + cb + 4 * (m_itagMicFree p1 + 1) <= cbBuffer p1) by (eapply pl_space; eauto).
  destruct (pl_t p1 itag ls I Hn1 Hm1 Hc) as [Et Ht].
  pose proof (fin_Pb p1 itag ls I Hn1 Hm1 Hc) as Pb.
  fold l cb in MC, OkC, CC, IC, KC, Pb, Ht. set (t := PtagFromItag_ (ExpandTagArray_ p1 itag) itag) in *.
  set (pC := set_cbFree _ _) in *. pose proof (pl_U p1 I) as HU.
  apply (CopyData_chunks (outside p) p pC t); auto.
  - rewrite IC, Pb. fold l cb. unfold cb in *. lia.
  - assert (Ke : keeps (outside p) p1 (ExpandTagArray_ p1 itag)).
    { intros a Ha. unfold outside in Ha. rewrite BE by lia. unfold opened. rewrite F2 in *.
      case_cmp; cbn [andb]; reflexivity || (unfold cb in *; lia). }
    eapply keeps_trans; [eapply keeps_weaken; [|exact K]; unfold outside; cbv beta; lia|].
    eapply keeps_trans; [exact Ke|]. eapply keeps_weaken; [|exact KC]. unfold outside. cbv beta. rewrite <- F2. lia.
  - intros a Ha. unfold outside in Ha. rewrite <- F2 in Ha. rewrite IC, Pb. unfold cb in *. lia.
  - rewrite IC, Pb. rewrite F2 in *. apply HC; unfold cb in *; lia.
Qed.
End Insert.

(** ** Replacing *)

Section Replace.
Context `{Srt : StdSort}.

(** [Replace_] up to the copy. *)
Definition replace_start (p : CPAGE) (itag cbTotal fFlags : Z) : option CPAGE :=
  let ptag := PtagFromItag_ p itag in
  let cbDiff := s16 (TAG_Cb p ptag - cbTotal) in
  let? p :=
    if (0 <=? cbDiff)
       || ((TAG_Ib p ptag + TAG_Cb p ptag =? ibMicFree p) && (- cbDiff <=? CbContiguousFree_ p))
    then
      let p := if TAG_Ib p ptag + TAG_Cb p ptag =? ibMicFree p
               then set_ibMicFree p (u16 (ibMicFree p - cbDiff)) else p in
      Some (set_cbFree p (u16 (cbFree p + cbDiff)))
    else
      let p := vacate p ptag in
      let? p := FreeSpace_ p cbTotal in
      let p := TAG_SetIb p ptag (ibMicFree p) in
      let p := set_ibMicFree p (u16 (ibMicFree p + cbTotal)) in
      Some (set_cbFree p (u16 (cbFree p - cbTotal))) in
  Some (TAG_SetFlags (TAG_SetCb p ptag cbTotal) ptag (u16 fFlags)).

Lemma Replace_same p itag rgdata rgdata' flags :
  CbDataTotal_ rgdata = CbDataTotal_ rgdata' ->
  (forall q, replace_start p itag (u16 (CbDataTotal_ rgdata)) flags = Some q ->
     CopyData_ q (PtagFromItag_ p itag) rgdata = CopyData_ q (PtagFromItag_ p itag) rgdata') ->
  Replace_ p itag rgdata flags = Replace_ p itag rgdata' flags.
Proof.
  intros E H. unfold Replace_. rewrite <- E. unfold replace_start in H. cbv zeta in *. fold (vacate p (PtagFromItag_ p itag)) in *.
  destruct (if _ || _ then _ else _) as [q|]; [|reflexivity]. now rewrite (H _ eq_refl).
Qed.

Variables (p : CPAGE) (itag : Z) (rgdata : list DATA) (ls : list (list Z)) (flags : Z).
Let l := concat ls.
Let nb := Z.of_nat (length l).
Let t := PtagFromItag_ p itag.
Let lo := PbFromIb_ p (TAG_Ib p t).
Hypothesis Inv : page_inv p.
Hypothesis Hi : 0 <= itag < m_itagMicFree p.
Hypothesis Hnb : nb < 32768.

Lemma start_in_place :
  nb <= TAG_Cb p t \/ (TAG_Ib p t + TAG_Cb p t = ibMicFree p /\ nb - TAG_Cb p t <= CbContiguousFree_ p) ->
  let pI := if TAG_Ib p t + TAG_Cb p t =? ibMicFree p then set_ibMicFree p (u16 (ibMicFree p - (TAG_Cb p t - nb))) else p in
  replace_start p itag nb flags =
  Some (TAG_SetFlags (TAG_SetCb (set_cbFree pI (u16 (cbFree pI + (TAG_Cb p t - nb)))) t nb) t (u16 flags)).
Proof.
  intros Hin pI. assert (D : s16 (TAG_Cb p t - nb) = TAG_Cb p t - nb) by apply (diff_exact p itag ls Hnb).
  unfold replace_start. fold t. cbv zeta. rewrite D.
  replace ((0 <=? TAG_Cb p t - nb) || (TAG_Ib p t + TAG_Cb p t =? ibMicFree p) && (- (TAG_Cb p t - nb) <=? CbContiguousFree_ p))
    with true by (symmetry; case_cmp; cbn [orb andb]; reflexivity || lia).
  reflexivity.
Qed.

Lemma start_moved :
  ~ (nb <= TAG_Cb p t \/ (TAG_Ib p t + TAG_Cb p t = ibMicFree p /\ nb - TAG_Cb p t <= CbContiguousFree_ p)) ->
  replace_start p itag nb flags =
  let? p2 := FreeSpace_ (vacate p t) nb in Some (TAG_SetFlags (TAG_SetCb (put_back ls p2 t) t nb) t (u16 flags)).
Proof.
  intros Hin. assert (D : s16 (TAG_Cb p t - nb) = TAG_Cb p t - nb) by apply (diff_exact p itag ls Hnb).
  unfold replace_start. fold t. cbv zeta. rewrite D.
  replace ((0 <=? TAG_Cb p t - nb) || (TAG_Ib p t + TAG_Cb p t =? ibMicFree p) && (- (TAG_Cb p t - nb) <=? CbContiguousFree_ p))
    with false by (symmetry; case_cmp; cbn [orb andb]; reflexivity || lia).
  destruct (FreeSpace_ (vacate p t) nb); reflexivity.
Qed.

(** Addresses of the line from its third byte on: the flags do not touch them. *)
Definition in_line (a : Z) : Prop := lo + 2 <= a < lo + TAG_Cb p t.

(** A line that stays where it is may be built from its own bytes. *)
Lemma Replace_chunks_in_place P :
  nb <= TAG_Cb p t \/ (TAG_Ib p t + TAG_Cb p t = ibMicFree p /\ nb - TAG_Cb p t <= CbContiguousFree_ p) ->
  nb <= cbFree p + TAG_Cb p t -> (forall a, P a -> outside p a \/ in_line a) -> chunks_are P (pv p) lo lo rgdata ls ->
  Replace_ p itag rgdata flags = Replace_ p itag (ext ls) flags.
Proof.
  intros Hin Hfit HP HC. assert (E := chunks_total _ _ _ _ _ _ HC). apply Replace_same; [exact E|].
  rewrite E, CbDataTotal_ext. fold l nb. rewrite (u16_small nb) by (unfold nb in *; lia). intros q Hq.
  rewrite start_in_place in Hq by exact Hin. injection Hq as <-. fold t.
  destruct (ip_C p itag ls Inv Hi Hfit Hin) as (MC & OkC & CC & IC & _ & _ & KC).
  fold l nb t in MC, OkC, CC, IC, KC. set (pC := TAG_SetCb _ t nb) in *.
  destruct (mem_only_fields _ _ MC) as (F1 & F2 & _). pose proof (header_size p) as HS.
  assert (Pb : PbFromIb_ pC (TAG_Ib pC t) = lo) by (unfold lo, PbFromIb_, CbPageHeader; now rewrite IC, F1).
  pose proof (ptag_range p Inv itag Hi) as T. fold t in T. pose proof (line_below p Inv itag Hi) as B. fold t in B.
  pose proof (ibMicFree_range p Inv). pose proof (TAG_Ib_range p t). pose proof (TAG_Cb_range p t).
  destruct (ip_U' p itag ls Inv Hi Hin) as (U1 & U2 & U3). fold l nb t in U1, U2, U3.
  assert (Hlo : lo = CbPageHeader p + TAG_Ib p t) by reflexivity.
  assert (Hend : nb = 0 \/ lo + nb <= t).
  { unfold t, PtagFromItag_, sizeof_TAG in *. lia. }
  apply (CopyData_chunks P p pC t); auto.
  - now rewrite Pb.
  - eapply keeps_weaken; [|exact KC]. intros a Ha. apply HP in Ha. unfold outside, in_line in Ha. cbv beta. lia.
  - intros a Ha. rewrite Pb. apply HP in Ha. unfold outside, in_line in Ha. fold l nb. lia.
  - now rewrite Pb.
Qed.

(** Any replacement may take its bytes from outside the page. *)
Lemma Replace_chunks_outside :
  nb <= cbFree p + TAG_Cb p t ->
  (forall lo, 0 <= lo -> nb = 0 \/ lo + nb <= cbBuffer p -> chunks_are (outside p) (pv p) lo lo rgdata ls) ->
  Replace_ p itag rgdata flags = Replace_ p itag (ext ls) flags.
Proof.
  intros Hfit HC. pose proof (header_size p) as HS. pose proof (inv_size p Inv). pose proof (inv_buf p Inv).
  pose proof (rest_free p itag Inv Hi) as RF. fold t in RF. pose proof (cb_total_nonneg (rest p itag)). pose proof (inv_tags p Inv).
  assert (E : CbDataTotal_ rgdata = CbDataTotal_ (ext ls)) by (apply (chunks_total _ _ _ _ _ _ (HC 0 ltac:(lia) ltac:(lia)))).
  pose proof (ptag_range p Inv itag Hi) as T. fold t in T. pose proof (TAG_Ib_range p t) as Ri.
  assert (Hlo : lo = CbPageHeader p + TAG_Ib p t) by reflexivity.
  assert (D : {nb <= TAG_Cb p t \/ (TAG_Ib p t + TAG_Cb p t = ibMicFree p /\ nb - TAG_Cb p t <= CbContiguousFree_ p)} +
    {~ (nb <= TAG_Cb p t \/ (TAG_Ib p t + TAG_Cb p t = ibMicFree p /\ nb - TAG_Cb p t <= CbContiguousFree_ p))}).
  { destruct (Z_le_dec nb (TAG_Cb p t)); [left; lia|]. destruct (Z.eq_dec (TAG_Ib p t + TAG_Cb p t) (ibMicFree p)); [|right; lia].
    destruct (Z_le_dec (nb - TAG_Cb p t) (CbContiguousFree_ p)); [left; lia|right; lia]. }
  destruct D as [D|D].
  { apply (Replace_chunks_in_place (outside p)); auto. apply HC; [lia|].
    destruct (ip_U' p itag ls Inv Hi D) as (U1 & U2 & U3). fold l nb t in U1, U2, U3. lia. }
  apply Replace_same; [exact E|]. rewrite E, CbDataTotal_ext. fold l nb. rewrite (u16_small nb) by (unfold nb in *; lia).
  rewrite start_moved by exact D. fold t. intros q Hq.
  destruct (emptied p itag Inv Hi) as (M1 & I1 & F1 & C1 & K1 & _). cbv zeta in *. fold t in M1, I1, F1, C1, K1.
  destruct (FreeSpace_some (vacate p t) I1 nb) as (p2 & E2 & [M2 I2 V2 K2] & Hc); [lia|]. rewrite E2 in Hq. injection Hq as <-.
  destruct (mem_only_fields _ _ M1) as (G1 & G2 & _ & G4 & _). destruct (mem_only_fields _ _ M2) as (G1' & G2' & _ & G4' & _).
  assert (T2 : PtagFromItag_ p2 itag = t) by (unfold PtagFromItag_; rewrite G2', G2; reflexivity).
  assert (Hi2 : 0 <= itag < m_itagMicFree p2) by now rewrite G4', G4.
  destruct (te_bounds p2 itag ls I2 Hi2 Hc) as (BH & BU & Bn & Bs & Bt & Bb & Bg & Bf & Bm). rewrite T2 in Bt. fold l nb in Bn, Bs, Bf.
  destruct (te_C p2 itag ls I2 Hi2 Hc) as (MC & OkC & CC & IC & _ & _ & KC). rewrite T2 in *. fold l nb in MC, OkC, CC, IC, KC.
  unfold put_back. fold l nb. set (pC := TAG_SetCb _ t nb) in *.
  assert (Pb : PbFromIb_ pC (TAG_Ib pC t) = CbPageHeader p2 + ibMicFree p2).
  { rewrite IC. unfold PbFromIb_, CbPageHeader. now rewrite (proj1 (mem_only_fields _ _ MC)). }
  assert (B2 : cbBuffer p2 = cbBuffer p) by now rewrite G2'.
  apply (CopyData_chunks (outside p) p pC t); auto.
  - rewrite Pb. fold l nb. lia.
  - eapply keeps_trans; [eapply keeps_weaken; [|exact K1]; unfold outside; cbv beta; lia|].
    eapply keeps_trans; [eapply keeps_weaken; [|exact K2]; unfold outside; cbv beta; rewrite G2; lia|].
    eapply keeps_weaken; [|exact KC]. unfold outside. cbv beta. lia.
  - intros a Ha. rewrite Pb. unfold outside in Ha. fold l nb. lia.
  - rewrite Pb. apply HC; lia.
Qed.
End Replace.
