(* ===== verification/Node.v ===== *)
(** * Nodes (src/dev/ese/src/ese/node.cxx, src/dev/ese/src/inc/node.hxx)

    A node is a line of a page: two bytes with the size of the key suffix,
    preceded by two bytes with the size of the key prefix when the node is
    compressed, then the suffix and the data.  The prefix itself is in the
    external header of the page, which all nodes share.

    Pointers are addresses relative to the page buffer ([pv p] is the whole
    memory), so keys and bookmarks may lie inside or outside the page.  As in
    Page.v an operation that a [PageEnforce] stops has no result; neither has
    one that follows a pointer that was never set.  [Assert], [Expected],
    [PageAssertTrack] and event reporting have no effect on the state.  What is
    modelled is the product build; the two linear searches are compiled only
    into the debug build. *)

From Stdlib Require Import ZArith List Lia Bool.
From S2P Require Import Prelude Bits Mem Checksum PageChecksum Page PageRead Key.
Import ListNotations.

(** ** Constants *)

Definition cbKeyCount : Z := 2.
Definition cbPrefixOverhead : Z := 2.
Definition usNDCbKeyMask : Z := 0x1fff.
Definition fNDVersion : Z := 1.
Definition fNDDeleted : Z := 2.
Definition fNDCompressed : Z := 4.
Definition cbNDNullKeyData : Z := cbKeyCount + sizeof_TAG.
Definition sizeof_SPLIT_BUFFER : Z := 16.
Definition sizeof_SPACE_HEADER : Z := 16.
Definition g_cbPageMax : Z := 1024 * 32.

Definition fPageRoot : Z := 1.
Definition fPageLeaf : Z := 2.
Definition fPageSpaceTree : Z := 0x20.

Definition FLeafPage (p : CPAGE) : bool := negb (fFlags p .& fPageLeaf =? 0).
Definition FRootPage (p : CPAGE) : bool := negb (fFlags p .& fPageRoot =? 0).
Definition FSpaceTree (p : CPAGE) : bool := negb (fFlags p .& fPageSpaceTree =? 0).

Definition JET_errNodeCorrupted : Z := -358.
Definition JET_errBadEmptyPage : Z := -351.
Definition JET_errBadLineCount : Z := -354.
Definition JET_errDatabaseCorrupted : Z := -1206.
Definition JET_errLogOperationInconsistentWithDatabase : Z := -626.
Definition wrnNDFoundLess : Z := 312.
Definition wrnNDFoundGreater : Z := 313.

Definition FNDVersion (kdf : KEYDATAFLAGS) : bool := negb (kdf_fFlags kdf .& fNDVersion =? 0).
Definition FNDDeleted (kdf : KEYDATAFLAGS) : bool := negb (kdf_fFlags kdf .& fNDDeleted =? 0).
Definition FNDCompressed (kdf : KEYDATAFLAGS) : bool := negb (kdf_fFlags kdf .& fNDCompressed =? 0).

Definition CbNDNodeSizeTotal (kdf : KEYDATAFLAGS) : Z := KEY_Cb (kdf_key kdf) + dCb (kdf_data kdf) + cbNDNullKeyData.
Definition CbNDNodeSizeCompressed (kdf : KEYDATAFLAGS) : Z :=
  let cbSize := dCb (suffix (kdf_key kdf)) + dCb (kdf_data kdf) + cbNDNullKeyData in
  if 0 <? dCb (prefix (kdf_key kdf)) then cbSize + cbPrefixOverhead else cbSize.

(** ** Reading a node *)

Inductive PageNodeBoundsChecking := pgnbcNoChecks | pgnbcChecked.

(** The address in a [LINE].  The bogus pointer [-29] of an empty line is kept
    as it is: like the null pointer it is never read through. *)
Definition line_addr (v : line_ptr) : Z := match v with PvNull => 0 | PvBogus => -29 | PvPage pb => pb end.

(** [pvPrefix] is what [pkdf->key.prefix] points to on entry: the function sets
    only its size.  With [pgnbcNoChecks] there is no error to set and a bad
    node is enforced; with [pgnbcChecked] the error is returned. *)
Definition NDILineToKeydataflags (pgnbc : PageNodeBoundsChecking) (p : CPAGE) (line : LINE) (pvPrefix : Z)
    : option (KEYDATAFLAGS * Z) :=
  match ln_pv line with
  | PvPage pb =>
      let fCompressed := negb (ln_fFlags line .& fNDCompressed =? 0) in
      let cbPrefix := if fCompressed then load16 (pv p) pb .& usNDCbKeyMask else 0 in
      let pb := if fCompressed then pb + cbPrefixOverhead else pb in
      let cbKeyCountTotal := if fCompressed then cbKeyCount + cbPrefixOverhead else cbKeyCount in
      let cbSuffix := load16 (pv p) pb .& usNDCbKeyMask in
      let data := Dref (pb + cbKeyCount + cbSuffix) (s32 (ln_cb line - cbSuffix - cbKeyCountTotal)) in
      let kdf := Kdf (Key (Dref pvPrefix cbPrefix) (Dref (pb + cbKeyCount) cbSuffix)) data (ln_fFlags line) in
      let fTooSmall := ln_cb line <=? cbKeyCountTotal in
      match pgnbc with
      | pgnbcNoChecks => if fTooSmall && negb (cbSuffix <? ln_cb line) then None else Some (kdf, JET_errSuccess)
      | pgnbcChecked => Some (kdf, if fTooSmall || (ln_cb line <=? cbSuffix) then JET_errNodeCorrupted else JET_errSuccess)
      end
  | _ => None
  end.

(** [cpage.FOnPage( pv, cb )] for a pointer of a [LINE]. *)
Definition FOnPage (p : CPAGE) (v : line_ptr) (cb : Z) : bool :=
  match v with
  | PvPage pb => (0 <=? pb) && (pb <? cbBuffer p) && ((cb =? 0) || (0 <=? pb + cb)) && ((cb =? 0) || (pb + cb <=? cbBuffer p))
  | _ => false
  end.

(** The prefix of a compressed node, from the external header. *)
Definition prefix_ref (p : CPAGE) (pvHeader cbPrefix : Z) : DATAREF :=
  if negb (FRootPage p) then Dref pvHeader cbPrefix
  else if FSpaceTree p then Dref (pvHeader + sizeof_SPLIT_BUFFER) cbPrefix
  else dNull.

Definition set_prefix (kdf : KEYDATAFLAGS) (d : DATAREF) : KEYDATAFLAGS :=
  Kdf (Key d (suffix (kdf_key kdf))) (kdf_data kdf) (kdf_fFlags kdf).

(** [NDIGetKeydataflags< pgnbcNoChecks >]. *)
Definition NDIGetKeydataflags (p : CPAGE) (iline : Z) : option KEYDATAFLAGS :=
  let? (kdf, _) := NDILineToKeydataflags pgnbcNoChecks p (GetPtr p iline) 0 in
  if FNDCompressed kdf
  then Some (set_prefix kdf (prefix_ref p (line_addr (ln_pv (GetPtrExternalHeader p))) (dCb (prefix (kdf_key kdf)))))
  else Some (set_prefix kdf (Dref 0 (dCb (prefix (kdf_key kdf))))).

Definition kdf_Nullify : KEYDATAFLAGS := Kdf KEY_Nullify dNull 0.

(** The first error is the one that is returned. *)
Definition first_err (err err' : Z) : Z := if err <? JET_errSuccess then err else err'.

(** [NDIGetKeydataflags< pgnbcChecked >] with an error to set. *)
Definition NDIGetKeydataflags_Checked (p : CPAGE) (iline : Z) : option (KEYDATAFLAGS * Z) :=
  let '(line, err) := ErrGetPtr p iline in
  let cbHeader := cbKeyCount + (if negb (ln_fFlags line .& fNDCompressed =? 0) then cbPrefixOverhead else 0) in
  if (err <? JET_errSuccess) && negb (FOnPage p (ln_pv line) cbHeader)
  then Some (kdf_Nullify, err)
  else
    let? (kdf, errLine) := NDILineToKeydataflags pgnbcChecked p line 0 in
    let err := first_err err errLine in
    if FNDCompressed kdf then
      let '(lineHdr, errHdr) := ErrGetPtrExternalHeader p in
      let err := first_err err errHdr in
      match ln_pv lineHdr, errHdr <? JET_errSuccess with
      | PvNull, true => Some (set_prefix kdf dNull, err)
      | _, _ =>
          let kdf := set_prefix kdf (prefix_ref p (line_addr (ln_pv lineHdr)) (dCb (prefix (kdf_key kdf)))) in
          let fBad := (ln_cb lineHdr <? dCb (prefix (kdf_key kdf))) && negb (ln_cb lineHdr =? 0) in
          Some (kdf, first_err err (if fBad then JET_errNodeCorrupted else JET_errSuccess))
      end
    else Some (set_prefix kdf (Dref 0 (dCb (prefix (kdf_key kdf)))), err).

Definition ErrNDIGetKeydataflags (p : CPAGE) (iline : Z) : option (KEYDATAFLAGS * Z) := NDIGetKeydataflags_Checked p iline.

Definition NDGetBookmarkFromKDF (kdf : KEYDATAFLAGS) (fUnique : bool) : BOOKMARK :=
  Bookmark (kdf_key kdf) (if fUnique then dNull else kdf_data kdf).

Definition NDIGetBookmark (p : CPAGE) (iline : Z) (fUnique : bool) : option BOOKMARK :=
  let? kdf := NDIGetKeydataflags p iline in Some (NDGetBookmarkFromKDF kdf fUnique).

(** ** Writing a node *)

(** A [DATA] of the node layer as an argument of the page layer. *)
Definition chunk (d : DATAREF) : DATA := DataPage (dPv d) (dCb d).

(** A [LittleEndian<USHORT>] local variable. *)
Definition le_word (v : Z) : DATA := DataExt [v mod 256; v / 256].

(** Returns [rgdata], the flags of the line and the kdf with its new suffix
    size; [le_cbPrefix] is [ple_keylen->le_cbPrefix]. *)
Definition CdataNDIPrefixAndKeydataflagsToDataflags (kdf : KEYDATAFLAGS) (le_cbPrefix : Z)
    : list DATA * Z * KEYDATAFLAGS :=
  let pre := prefix (kdf_key kdf) in
  let suf := suffix (kdf_key kdf) in
  let '(parts, cbSuffix) :=
    if dCb pre <=? le_cbPrefix then
      let cbPrefixInSuffix := le_cbPrefix - dCb pre in
      ([chunk (Dref (dPv suf + cbPrefixInSuffix) (dCb suf - cbPrefixInSuffix))], dCb suf - cbPrefixInSuffix)
    else
      ([chunk (Dref (dPv pre + le_cbPrefix) (dCb pre - le_cbPrefix)); chunk suf], dCb suf + (dCb pre - le_cbPrefix)) in
  let rgdata :=
    (if 0 <? le_cbPrefix then [le_word le_cbPrefix] else [])
    ++ [le_word (u16 cbSuffix)] ++ parts ++ [chunk (kdf_data kdf)] in
  let fFlags := if 0 <? le_cbPrefix then kdf_fFlags kdf .| fNDCompressed else kdf_fFlags kdf .& Z.lnot fNDCompressed in
  (rgdata, fFlags, Kdf (Key pre (Dref (dPv suf) cbSuffix)) (kdf_data kdf) (kdf_fFlags kdf)).

Definition CdataNDIKeydataflagsToDataflags (kdf : KEYDATAFLAGS) : list DATA * Z :=
  let pre := prefix (kdf_key kdf) in
  let suf := suffix (kdf_key kdf) in
  ((if negb (dFNull pre) then [le_word (u16 (dCb pre))] else [])
   ++ [le_word (u16 (dCb suf)); chunk suf; chunk (kdf_data kdf)], kdf_fFlags kdf).

Definition NDISetCompressed (kdf : KEYDATAFLAGS) : KEYDATAFLAGS := Kdf (kdf_key kdf) (kdf_data kdf) (kdf_fFlags kdf .| fNDCompressed).
Definition NDIResetCompressed (kdf : KEYDATAFLAGS) : KEYDATAFLAGS :=
  Kdf (kdf_key kdf) (kdf_data kdf) (kdf_fFlags kdf .& Z.lnot fNDCompressed).

Section Operations.
Context `{Srt : StdSort}.

(** [NDInsert( pfucb, pcsr, pkdf, cbPrefix )]. *)
Definition NDInsert_prefix (p : CPAGE) (iline : Z) (kdf : KEYDATAFLAGS) (cbPrefix : Z) : option CPAGE :=
  let '(rgdata, fFlagsLine, _) := CdataNDIPrefixAndKeydataflagsToDataflags kdf (u16 cbPrefix) in
  Insert p iline rgdata fFlagsLine.

(** [NDInsert( pfucb, pcsr, pkdf )], with the node it leaves in [kdfCurr]. *)
Definition NDInsert (p : CPAGE) (iline : Z) (kdf : KEYDATAFLAGS) : option (CPAGE * KEYDATAFLAGS) :=
  let '(rgdata, fFlagsLine) := CdataNDIKeydataflagsToDataflags kdf in
  let? p := Insert p iline rgdata fFlagsLine in
  let? kdfCurr := NDIGetKeydataflags p iline in
  Some (p, kdfCurr).

Definition NDReplace (p : CPAGE) (iline : Z) (data : DATAREF) : option CPAGE :=
  let? kdf := NDIGetKeydataflags p iline in
  let '(rgdata, fFlagsLine) := CdataNDIKeydataflagsToDataflags (Kdf (kdf_key kdf) data (kdf_fFlags kdf)) in
  Replace p iline rgdata fFlagsLine.

Definition NDReplaceForUpgrade (p : CPAGE) (iline : Z) (data : DATAREF) (kdfOld : KEYDATAFLAGS) : option CPAGE :=
  let '(rgdata, fFlagsLine) := CdataNDIKeydataflagsToDataflags (Kdf (kdf_key kdfOld) data (kdf_fFlags kdfOld)) in
  Replace p iline rgdata fFlagsLine.

Definition NDDelete (p : CPAGE) (iline : Z) : CPAGE := Delete p iline.

(** [n] steps of the loop, from [iline] down. *)
Fixpoint bulk_delete_loop (n : nat) (p : CPAGE) (iline : Z) : CPAGE :=
  match n with O => p | S n => bulk_delete_loop n (Delete p iline) (iline - 1) end.

Definition NDBulkDelete (p : CPAGE) (iline clines : Z) : CPAGE := bulk_delete_loop (Z.to_nat clines) p (iline + clines - 1).

Definition NDISetFlag (p : CPAGE) (iline fFlag : Z) : option CPAGE :=
  let? kdf := NDIGetKeydataflags p iline in Some (ReplaceFlags p iline (kdf_fFlags kdf .| fFlag)).
Definition NDIResetFlag (p : CPAGE) (iline fFlag : Z) : option CPAGE :=
  let? kdf := NDIGetKeydataflags p iline in Some (ReplaceFlags p iline (kdf_fFlags kdf .& Z.lnot fFlag)).

Definition ErrNDFlagVersion (p : CPAGE) (iline : Z) : option CPAGE := NDISetFlag p iline fNDVersion.
Definition NDResetFlagDelete (p : CPAGE) (iline : Z) : option CPAGE := NDIResetFlag p iline fNDDeleted.

(** The root page branch beyond the test of the key copies the old header out
    of the page first: [rgexthdr] is a local buffer. *)
Definition NDSetPrefix (p : CPAGE) (key : KEY) : option CPAGE :=
  if FRootPage p then
    if KEY_FNull key then Some p
    else
      let cbExtHdr := if FSpaceTree p then sizeof_SPLIT_BUFFER else sizeof_SPACE_HEADER in
      let line := GetPtrExternalHeader p in
      let head := if negb (ln_cb line =? 0) then [DataExt (load_bytes (pv p) (line_addr (ln_pv line)) cbExtHdr)] else [] in
      SetExternalHeader p (head ++ [chunk (prefix key); chunk (suffix key)]) 0
  else SetExternalHeader p [chunk (prefix key); chunk (suffix key)] 0.

(** [kdfCurr] is the node at [iline]. *)
Definition NDGrowCbPrefix (p : CPAGE) (iline : Z) (kdfCurr : KEYDATAFLAGS) (cbPrefixNew : Z) : option CPAGE :=
  let kdf := NDISetCompressed kdfCurr in
  let '(rgdata, fFlagsLine, _) := CdataNDIPrefixAndKeydataflagsToDataflags kdf (u16 cbPrefixNew) in
  Replace p iline rgdata fFlagsLine.

(** [rgb] is the page-sized buffer that [BFAlloc] returns. *)
Definition NDShrinkCbPrefix (p : CPAGE) (iline : Z) (kdfCurr : KEYDATAFLAGS) (pvOldPrefix cbPrefixNew rgb : Z) : option CPAGE :=
  let kdf := if 0 <? cbPrefixNew then NDISetCompressed kdfCurr else NDIResetCompressed kdfCurr in
  let pre := Dref pvOldPrefix (dCb (prefix (kdf_key kdf))) in
  let cbSuf := dCb (suffix (kdf_key kdfCurr)) in
  let p := with_pv p (memmove (pv p) rgb (dPv (suffix (kdf_key kdfCurr))) cbSuf) in
  let p := with_pv p (memmove (pv p) (rgb + cbSuf) (dPv (kdf_data kdfCurr)) (dCb (kdf_data kdfCurr))) in
  let kdf := Kdf (Key pre (Dref rgb cbSuf)) (Dref (rgb + cbSuf) (dCb (kdf_data kdfCurr))) (kdf_fFlags kdf) in
  let '(rgdata, fFlagsLine, _) := CdataNDIPrefixAndKeydataflagsToDataflags kdf (u16 cbPrefixNew) in
  Replace p iline rgdata fFlagsLine.
End Operations.

(** ** Flags of all nodes *)

Definition SetCbUncommittedFree (p : CPAGE) (cb : Z) : CPAGE := with_pv p (store16 (pv p) 30 cb).

Definition NDResetVersionInfo (p : CPAGE) : CPAGE :=
  if FLeafPage p && negb (FSpaceTree p) then SetCbUncommittedFree (ResetAllFlags p fNDVersion) 0 else p.

Definition FNDAnyNodeIsVersioned (p : CPAGE) : bool :=
  if FLeafPage p && negb (FSpaceTree p) then negb (cbUncommittedFree p =? 0) || FAnyLineHasFlagSet p fNDVersion else false.

Definition FNDAnyNodeIsCompressed (p : CPAGE) : bool := FAnyLineHasFlagSet p fNDCompressed.

(** ** Searching *)

(** The [while] loop of [IlineNDISeekGEQ]; returns [iline], [compare] and
    [bmNode].  [fDefense] is [g_fNodeMiscMemoryTrashedDefenseInDepthTemp]. *)
Fixpoint seek_loop (fuel : nat) (fDefense : bool) (p : CPAGE) (bm : BOOKMARK) (fUnique : bool)
    (ilineFirst ilineLast compare : Z) (bmNode : BOOKMARK) : option (Z * Z * BOOKMARK) :=
  match fuel with
  | O => None
  | S fuel =>
      if ilineFirst <=? ilineLast then
        let ilineMid := (ilineFirst + ilineLast) / 2 in
        let? kdfT := NDIGetKeydataflags p ilineMid in
        let bmNode := NDGetBookmarkFromKDF kdfT fUnique in
        if (0 <? dCb (kdf_data kdfT)) || negb fDefense then
          let compare := CmpKeyData (pv p) bmNode bm in
          if compare <? 0 then seek_loop fuel fDefense p bm fUnique (ilineMid + 1) ilineLast compare bmNode
          else if 0 =? compare then Some (ilineMid, compare, bmNode)
          else if ilineMid =? ilineFirst then Some (ilineMid, compare, bmNode)
          else seek_loop fuel fDefense p bm fUnique ilineFirst ilineMid compare bmNode
        else None
      else Some (-1, compare, bmNode)
  end.

(** Returns [iline] and [*plastCompare]. *)
Definition IlineNDISeekGEQ (fDefense : bool) (p : CPAGE) (bm : BOOKMARK) (fUnique : bool) : option (Z * Z) :=
  let clines := Clines p in
  let? (iline, compare, bmNode) :=
    seek_loop (S (Z.to_nat clines)) fDefense p bm fUnique 0 (clines - 1) 0 (Bookmark KEY_Nullify dNull) in
  Some (iline, if negb (0 =? compare) && (0 =? dCb (bm_data bm)) then CmpKey (pv p) (bm_key bmNode) (bm_key bm) else compare).

(** The [while] loop of [IlineNDISeekGEQInternal]; returns [ilineMid] and
    [compare]. *)
Fixpoint seek_internal_loop (fuel : nat) (p : CPAGE) (bm : BOOKMARK) (lineExternalHeader : LINE)
    (ilineFirst ilineLast ilineMid compare : Z) : option (Z * Z) :=
  match fuel with
  | O => None
  | S fuel =>
      if ilineFirst <=? ilineLast then
        let ilineMid := (ilineFirst + ilineLast) / 2 in
        let line := GetPtr p ilineMid in
        let? (kdfNode, _) := NDILineToKeydataflags pgnbcNoChecks p line (line_addr (ln_pv lineExternalHeader)) in
        if (dCb (prefix (kdf_key kdfNode)) <=? ln_cb lineExternalHeader)
           && (dCb (suffix (kdf_key kdfNode)) <? ln_cb line)
           && (line_addr (ln_pv line) + ln_cb line <? g_cbPageMax)
        then
          let compare := CmpKeyWithKeyData (pv p) (kdf_key kdfNode) bm in
          if compare <? 0 then seek_internal_loop fuel p bm lineExternalHeader (ilineMid + 1) ilineLast ilineMid compare
          else if 0 =? compare then Some (ilineMid, compare)
          else if ilineMid =? ilineFirst then Some (ilineMid, compare)
          else seek_internal_loop fuel p bm lineExternalHeader ilineFirst ilineMid ilineMid compare
        else None
      else Some (ilineMid, compare)
  end.

Definition IlineNDISeekGEQInternal (p : CPAGE) (bm : BOOKMARK) : option (Z * Z) :=
  let clines := Clines p in
  let lineExternalHeader := GetPtrExternalHeader p in
  if ln_cb lineExternalHeader <? g_cbPageMax then
    let? (ilineMid, compare) := seek_internal_loop (S (Z.to_nat clines)) p bm lineExternalHeader 0 (clines - 1) 0 0 in
    Some (ilineMid, if (0 =? compare) && negb (KEY_FNull (bm_key bm)) then 0 else 1)
  else None.

(** The linear searches.  The first leaves [*plastCompare] alone when it finds
    nothing. *)
Fixpoint seek_debug_loop (n : nat) (p : CPAGE) (bm : BOOKMARK) (fUnique : bool) (iline : Z) : option (Z * option Z) :=
  match n with
  | O => Some (-1, None)
  | S n =>
      let? bmNode := NDIGetBookmark p iline fUnique in
      let cmp := CmpKey (pv p) (bm_key bmNode) (bm_key bm) in
      if cmp <? 0 then seek_debug_loop n p bm fUnique (iline + 1)
      else if (0 <? cmp) || (dCb (bm_data bm) =? 0) then Some (iline, Some cmp)
      else
        let cmp := CmpData (pv p) (bm_data bmNode) (bm_data bm) in
        if 0 <=? cmp then Some (iline, Some cmp) else seek_debug_loop n p bm fUnique (iline + 1)
  end.

Definition IlineNDISeekGEQDebug (p : CPAGE) (bm : BOOKMARK) (fUnique : bool) : option (Z * option Z) :=
  seek_debug_loop (Z.to_nat (Clines p)) p bm fUnique 0.

Fixpoint seek_internal_debug_loop (n : nat) (p : CPAGE) (bm : BOOKMARK) (iline : Z) : option (Z * Z) :=
  match n with
  | O => Some (iline, 1)
  | S n =>
      let? kdfNode := NDIGetKeydataflags p iline in
      let compare := CmpKeyWithKeyData (pv p) (kdf_key kdfNode) bm in
      if compare <? 0 then seek_internal_debug_loop n p bm (iline + 1) else Some (iline, compare)
  end.

Definition IlineNDISeekGEQInternalDebug (p : CPAGE) (bm : BOOKMARK) : option (Z * Z) :=
  seek_internal_debug_loop (Z.to_nat (Clines p - 1)) p bm 0.

(** ** Placing the cursor *)

(** Each returns the error and the new [pcsr->ILine()], which starts as
    [iline0] and is not moved when the page is corrupt. *)
Definition ErrNDISeekInternalPage (p : CPAGE) (iline0 : Z) (bm : BOOKMARK) : option (Z * Z) :=
  let? (iline, compare) := IlineNDISeekGEQInternal p bm in
  Some (if 0 =? compare then
          if Clines p - 1 <=? iline then (JET_errDatabaseCorrupted, iline0) else (JET_errSuccess, iline + 1)
        else (wrnNDFoundGreater, iline)).

Definition ErrNDISeekLeafPage (fDefense : bool) (p : CPAGE) (bm : BOOKMARK) (fUnique : bool) : option (Z * Z) :=
  let? (iline, compare) := IlineNDISeekGEQ fDefense p bm fUnique in
  Some (if (0 <=? iline) && (0 =? compare) then (JET_errSuccess, iline)
        else if iline <? 0 then (wrnNDFoundLess, Clines p - 1)
        else (wrnNDFoundGreater, iline)).

(** The error, the line and the node left in [kdfCurr] (if the seek got one). *)
Definition ErrNDSeek (fDefense : bool) (p : CPAGE) (iline0 : Z) (bm : BOOKMARK) (fUnique : bool)
    : option (Z * Z * option KEYDATAFLAGS) :=
  if Clines p <=? 0 then Some (JET_errBadEmptyPage, iline0, None)
  else
    let? (err, iline) :=
      if negb (FLeafPage p) then ErrNDISeekInternalPage p iline0 bm else ErrNDISeekLeafPage fDefense p bm fUnique in
    if JET_errSuccess <=? err then let? kdf := NDIGetKeydataflags p iline in Some (err, iline, Some kdf)
    else Some (err, iline, None).

Definition ErrNDSeekInternal (p : CPAGE) (bm : BOOKMARK) : option (Z * Z * KEYDATAFLAGS) :=
  let? (iline, compare) := IlineNDISeekGEQInternal p bm in
  let? kdf := NDIGetKeydataflags p iline in
  Some (if compare =? 0 then JET_errSuccess else wrnNDFoundGreater, iline, kdf).

Definition ErrNDGet (p : CPAGE) (iline : Z) : option (Z * option KEYDATAFLAGS) :=
  if (iline <? 0) || (Clines p <=? iline) then Some (JET_errBadLineCount, None)
  else let? kdf := NDIGetKeydataflags p iline in Some (JET_errSuccess, Some kdf).

Definition NDMoveFirstSon (p : CPAGE) : option (Z * KEYDATAFLAGS) :=
  let? kdf := NDIGetKeydataflags p 0 in Some (0, kdf).
Definition NDMoveLastSon (p : CPAGE) : option (Z * KEYDATAFLAGS) :=
  let iline := Clines p - 1 in let? kdf := NDIGetKeydataflags p iline in Some (iline, kdf).

(** What [NDGetPrefix] leaves in [kdfCurr.key.prefix]. *)
Definition NDGetPrefix (p : CPAGE) : DATAREF :=
  let line := GetPtrExternalHeader p in
  if negb (FRootPage p) then Dref (line_addr (ln_pv line)) (ln_cb line)
  else if FSpaceTree p then
    if sizeof_SPLIT_BUFFER <=? ln_cb line
    then Dref (line_addr (ln_pv line) + sizeof_SPLIT_BUFFER) (ln_cb line - sizeof_SPLIT_BUFFER)
    else Dref (line_addr (ln_pv line)) 0
  else dNull.

Fixpoint validate_header_loop (n : nat) (p : CPAGE) (cb iline : Z) : option Z :=
  match n with
  | O => Some JET_errSuccess
  | S n =>
      let? kdfNode := NDIGetKeydataflags p iline in
      if cb <? dCb (prefix (kdf_key kdfNode)) then Some JET_errLogOperationInconsistentWithDatabase
      else validate_header_loop n p cb (iline + 1)
  end.

Definition ErrNDValidateSetExternalHeader (p : CPAGE) (cb : Z) : option Z :=
  if FSpaceTree p || FRootPage p then Some JET_errSuccess
  else validate_header_loop (Z.to_nat (Clines p)) p cb 0.
