(* ===== verification/NodeView.v ===== *)
(** * The nodes of a page

    What the lines of a page mean as nodes: [nodes p] is the list of keys, data
    and flags, with prefix compression resolved.  [node_page] says that every
    line is a node. *)

From Stdlib Require Import ZArith List Lia Bool.
From S2P Require Import Prelude Bits Mem Checksum ChecksumErrors PageChecksum Page PageLayout PageTags PageTagArray PageRead Key KeyProps Node.
Import ListNotations.

(** ** Decoding a line *)

Definition compressed (fl : Z) : bool := negb (fl .& fNDCompressed =? 0).

(** The 13 bits of a size word. *)
Definition word13 (l : list Z) : Z := match l with b0 :: b1 :: _ => (b0 + 256 * b1) .& usNDCbKeyMask | _ => 0 end.

Definition cb_prefix (c : Z * list Z) : Z := if compressed (fst c) then word13 (snd c) else 0.

(** From the suffix size word on. *)
Definition suffix_part (c : Z * list Z) : list Z := if compressed (fst c) then skipn 2 (snd c) else snd c.

Record NODE := Node { nd_key : list Z; nd_data : list Z; nd_flags : Z }.

(** [hdr] holds the shared key prefix.  The flags are those of the record:
    versioned and deleted. *)
Definition decode (hdr : list Z) (c : Z * list Z) : NODE :=
  let s := suffix_part c in
  Node (firstn (Z.to_nat (cb_prefix c)) hdr ++ firstn (Z.to_nat (word13 s)) (skipn 2 s))
    (skipn (Z.to_nat (word13 s)) (skipn 2 s)) (fst c .& (fNDVersion .| fNDDeleted)).

(** A line that holds a node: some data, and a prefix that is there, worth its
    size word if the node is marked compressed. *)
Definition node_okb (hdr : list Z) (c : Z * list Z) : bool :=
  let s := suffix_part c in
  (2 + word13 s <? Z.of_nat (length s)) && (cb_prefix c <=? Z.of_nat (length hdr))
  && (negb (compressed (fst c)) || (cbPrefixOverhead <? cb_prefix c)).

(** The bytes of a line written for a node. *)
Definition le_bytes (v : Z) : list Z := [v mod 256; v / 256].
Definition encode (cbPrefix : Z) (suf dat : list Z) : list Z :=
  (if 0 <? cbPrefix then le_bytes cbPrefix else []) ++ le_bytes (Z.of_nat (length suf)) ++ suf ++ dat.

Lemma word13_le v r : 0 <= v < 8192 -> word13 (le_bytes v ++ r) = v.
Proof.
  intros Hv. cbn [le_bytes app word13]. change usNDCbKeyMask with (Z.ones 13). rewrite Z.land_ones by lia.
  change (2 ^ 13) with 8192. zlia.
Qed.

Lemma land_pow_mod x y k : 0 <= k -> 0 <= y < 2 ^ k -> (x mod 2 ^ k) .& y = x .& y.
Proof.
  intros Hk Hy. apply Z.bits_inj'. intros i Hi. rewrite !Z.land_spec. destruct (Z.lt_ge_cases i k).
  - now rewrite Z.mod_pow2_bits_low by lia.
  - rewrite (testbit_high k y) by lia. now rewrite !andb_false_r.
Qed.

Lemma compressed_mod8 f : compressed (f mod 8) = compressed f.
Proof. unfold compressed. do 2 f_equal. apply (land_pow_mod f fNDCompressed 3); [lia | split; discriminate || reflexivity]. Qed.

Lemma record_flags_mod8 f : (f mod 8) .& (fNDVersion .| fNDDeleted) = f .& (fNDVersion .| fNDDeleted).
Proof. apply (land_pow_mod f _ 3); [lia | split; discriminate || reflexivity]. Qed.

(** Storing a line keeps its flags, its size words and everything after the
    first two bytes. *)
Lemma stored_line s f b0 b1 r : 0 <= b0 < 256 -> 0 <= b1 < 256 ->
  fst (stored s false f (b0 :: b1 :: r)) = f mod 8 /\
  word13 (snd (stored s false f (b0 :: b1 :: r))) = word13 (b0 :: b1 :: r) /\
  skipn 2 (snd (stored s false f (b0 :: b1 :: r))) = r /\
  length (snd (stored s false f (b0 :: b1 :: r))) = S (S (length r)).
Proof.
  intros H0 H1. unfold stored. destruct s; [now repeat split|]. rewrite stamp_flags. cbn [fst snd stamp word13 skipn length].
  repeat split. change usNDCbKeyMask with (Z.ones 13). rewrite !Z.land_ones by lia. change (2 ^ 13) with 8192. zlia.
Qed.

Lemma le_bytes_cons v r : le_bytes v ++ r = v mod 256 :: v / 256 :: r.
Proof. reflexivity. Qed.

Section Stored.
Variables (s : bool) (f cbPrefix : Z) (suf dat hdr : list Z).
Hypothesis Hp : 0 <= cbPrefix < 8192.
Hypothesis Hs : Z.of_nat (length suf) < 8192.
Hypothesis Hf : compressed f = (0 <? cbPrefix).
Let c := stored s false f (encode cbPrefix suf dat).

Lemma stored_parts :
  fst c = f mod 8 /\ cb_prefix c = cbPrefix /\ word13 (suffix_part c) = Z.of_nat (length suf) /\
  skipn 2 (suffix_part c) = suf ++ dat /\ length (suffix_part c) = (2 + length (suf ++ dat))%nat.
Proof.
  assert (B : forall v, 0 <= v < 8192 -> 0 <= v mod 256 < 256 /\ 0 <= v / 256 < 256) by (intros; zlia).
  unfold c, encode, cb_prefix, suffix_part. pose proof Hf as Hf1. destruct (Z.ltb_spec 0 cbPrefix) as [P|P].
  - rewrite le_bytes_cons. destruct (B cbPrefix Hp) as [B0 B1].
    destruct (stored_line s f _ _ (le_bytes (Z.of_nat (length suf)) ++ suf ++ dat) B0 B1) as (E1 & E2 & E3 & E4).
    rewrite E1, compressed_mod8, Hf1, E2, E3, <- le_bytes_cons. rewrite !word13_le by lia. now repeat split.
  - rewrite app_nil_l, le_bytes_cons. destruct (B (Z.of_nat (length suf)) ltac:(lia)) as [B0 B1].
    destruct (stored_line s f _ _ (suf ++ dat) B0 B1) as (E1 & E2 & E3 & E4).
    rewrite E1, compressed_mod8, Hf1, E2, E3, E4, <- le_bytes_cons. rewrite word13_le by lia. repeat split. lia.
Qed.

Lemma decode_stored : decode hdr c = Node (firstn (Z.to_nat cbPrefix) hdr ++ suf) dat (f .& (fNDVersion .| fNDDeleted)).
Proof.
  destruct stored_parts as (E1 & E2 & E3 & E4 & _). unfold decode. rewrite E1, E2, E3, E4, record_flags_mod8, Nat2Z.id.
  rewrite firstn_app, firstn_all, Nat.sub_diag, app_nil_r. rewrite skipn_app, skipn_all, Nat.sub_diag. reflexivity.
Qed.

Lemma node_ok_stored : dat <> [] -> cbPrefix <= Z.of_nat (length hdr) -> cbPrefix = 0 \/ cbPrefixOverhead < cbPrefix -> node_okb hdr c = true.
Proof.
  intros Hd Hh Hz. destruct stored_parts as (E1 & E2 & E3 & E4 & E5). unfold node_okb. rewrite E1, E2, E3, E5, length_app, compressed_mod8, Hf.
  rewrite !andb_true_iff. split; [split; [apply Z.ltb_lt|now apply Z.leb_le]|unfold cbPrefixOverhead in *; case_cmp; cbn [negb orb]; reflexivity || lia].
  destruct dat; [contradiction|cbn [length]; lia].
Qed.
End Stored.

(** Changing the flags of a line keeps key and data. *)
Lemma stored_flags_only hdr s f c :
  bytes_ok (snd c) -> node_okb hdr c = true -> compressed f = compressed (fst c) ->
  decode hdr (stored s false f (snd c)) = Node (nd_key (decode hdr c)) (nd_data (decode hdr c)) (f .& (fNDVersion .| fNDDeleted))
  /\ node_okb hdr (stored s false f (snd c)) = true.
Proof.
  destruct c as [fl l]. cbn [fst snd]. intros Hl Hok Hf. unfold node_okb, suffix_part in Hok. cbn [fst snd] in Hok.
  assert (Hlen : (2 <= length l)%nat).
  { apply andb_prop in Hok as [Hok _]. apply andb_prop in Hok as [Hok _]. apply Z.ltb_lt in Hok. destruct (compressed fl).
    - rewrite length_skipn in Hok. pose proof (Nat2Z.is_nonneg (length l)).
      assert (0 <= word13 (skipn 2 l)); [|lia]. unfold word13. destruct (skipn 2 l) as [|? [|? ?]]; try lia. apply Z.land_nonneg; right; easy.
    - assert (0 <= word13 l); [|lia]. unfold word13. destruct l as [|? [|? ?]]; try lia. apply Z.land_nonneg; right; easy. }
  destruct l as [|b0 [|b1 r]]; try (cbn in Hlen; lia).
  assert (B0 : 0 <= b0 < 256) by now inversion_clear Hl. assert (B1 : 0 <= b1 < 256) by (inversion_clear Hl as [|? ? _ Hl']; now inversion_clear Hl').
  destruct (stored_line s f b0 b1 r B0 B1) as (E1 & E2 & E3 & E4). set (c' := stored s false f (b0 :: b1 :: r)) in *.
  unfold decode, node_okb, cb_prefix, suffix_part. cbn [fst snd nd_key nd_data]. rewrite E1, compressed_mod8, Hf, record_flags_mod8, E2, E3.
  unfold cb_prefix in Hok. cbn [fst snd] in Hok. destruct (compressed fl); cbn [skipn length] in *.
  - now split.
  - rewrite E2, E3, E4. now split.
Qed.

(** ** The nodes of a page *)

Definition header_bytes (p : CPAGE) : list Z := snd (nth 0 (view p) no_line).

(** The bytes that nodes may use as key prefix. *)
Definition prefix_bytes (p : CPAGE) : list Z :=
  if negb (FRootPage p) then header_bytes p
  else if FSpaceTree p then skipn (Z.to_nat sizeof_SPLIT_BUFFER) (header_bytes p) else [].

Definition node_lines (p : CPAGE) : list (Z * list Z) := skipn (Z.to_nat (m_ctagReserved p)) (view p).
Definition nodes (p : CPAGE) : list NODE := map (decode (prefix_bytes p)) (node_lines p).

Definition node_page (p : CPAGE) : Prop :=
  page_inv p /\ forallb (node_okb (prefix_bytes p)) (node_lines p) = true.

Definition node_nil : NODE := Node [] [] 0.

Lemma length_node_lines p : page_inv p -> Z.of_nat (length (node_lines p)) = Clines p.
Proof.
  intros Inv. pose proof (inv_resv_le p Inv). pose proof (inv_resv p Inv). unfold node_lines, Clines.
  rewrite length_skipn, length_view. lia.
Qed.

Lemma length_nodes p : page_inv p -> Z.of_nat (length (nodes p)) = Clines p.
Proof. intros. unfold nodes. rewrite length_map. now apply length_node_lines. Qed.

Lemma nth_node_line p i : page_inv p -> 0 <= i < Clines p ->
  nth (Z.to_nat i) (node_lines p) no_line = content (tag_line p (i + m_ctagReserved p)).
Proof.
  intros Inv Hi. pose proof (inv_resv p Inv). unfold node_lines, Clines in *. rewrite nth_skipn.
  rewrite <- nth_view by lia. f_equal. lia.
Qed.

Lemma nth_nodes p i : page_inv p -> 0 <= i < Clines p ->
  nth (Z.to_nat i) (nodes p) node_nil = decode (prefix_bytes p) (content (tag_line p (i + m_ctagReserved p))).
Proof.
  intros Inv Hi. pose proof (length_node_lines p Inv). unfold nodes. rewrite <- nth_node_line by auto.
  rewrite (nth_indep _ node_nil (decode (prefix_bytes p) no_line)) by (rewrite length_map; lia). apply map_nth.
Qed.

Lemma node_page_ok p i : node_page p -> 0 <= i < Clines p ->
  node_okb (prefix_bytes p) (content (tag_line p (i + m_ctagReserved p))) = true.
Proof.
  intros [Inv H] Hi. pose proof (length_node_lines p Inv). rewrite <- nth_node_line by auto.
  rewrite forallb_forall in H. apply H, nth_In. lia.
Qed.

(** ** Reading a line as a node *)

Lemma word13_load m a n : 2 <= n -> word13 (load_bytes m a n) = load16 m a .& usNDCbKeyMask.
Proof.
  intros H. replace n with (1 + (1 + (n - 2))) by lia. rewrite !load_bytes_S by lia. reflexivity.
Qed.

Lemma word13_range l : 0 <= word13 l < 8192.
Proof.
  unfold word13. destruct l as [|b0 [|b1 r]]; try lia. change usNDCbKeyMask with (Z.ones 13). rewrite Z.land_ones by lia.
  apply Z.mod_pos_bound. lia.
Qed.

Section Line.
Variables (p : CPAGE) (itag : Z) (hdr : list Z).
Let t := PtagFromItag_ p itag.
Let pb := PbFromIb_ p (TAG_Ib p t).
Let cb := TAG_Cb p t.
Let c := content (tag_line p itag).
Let h := if compressed (TAG_FFlags p t) then 2 else 0.
Let cbS := word13 (suffix_part c).
Hypothesis Hok : node_okb hdr c = true.

Lemma line_content : c = (TAG_FFlags p t, load_bytes (pv p) pb cb).
Proof. reflexivity. Qed.

Lemma line_suffix : suffix_part c = load_bytes (pv p) (pb + h) (cb - h).
Proof.
  pose proof (TAG_Cb_range p t) as R. fold cb in R. rewrite line_content. unfold suffix_part, h. cbn [fst snd].
  destruct (compressed _); [|now rewrite Z.add_0_r, Z.sub_0_r]. destruct (Z.le_gt_cases 2 cb).
  - now rewrite <- (skipn_load (pv p) pb cb 2) by lia.
  - unfold load_bytes at 2. replace (Z.to_nat (cb - 2)) with O by lia. apply skipn_all2. rewrite length_load_bytes. lia.
Qed.

Lemma line_sizes : h + 2 + cbS < cb /\ 0 <= cbS < 8192 /\ (h = 0 \/ h = 2) /\
  cb_prefix c = (if compressed (TAG_FFlags p t) then load16 (pv p) pb .& usNDCbKeyMask else 0) /\
  cbS = load16 (pv p) (pb + h) .& usNDCbKeyMask /\ 0 <= cb_prefix c <= Z.of_nat (length hdr).
Proof.
  unfold node_okb in Hok. apply andb_prop in Hok as [H1 H3]. apply andb_prop in H1 as [H1 H2]. apply Z.ltb_lt in H1. apply Z.leb_le in H2.
  fold cbS in H1. pose proof (word13_range (suffix_part c)) as W. fold cbS in W.
  assert (Hh : h = 0 \/ h = 2) by (unfold h; destruct (compressed _); auto).
  rewrite line_suffix, length_loaded in H1.
  assert (Hcb : h + 2 + cbS < cb) by lia. split; [exact Hcb|]. split; [lia|]. split; [exact Hh|].
  assert (E : cb_prefix c = if compressed (TAG_FFlags p t) then load16 (pv p) pb .& usNDCbKeyMask else 0).
  { unfold cb_prefix. rewrite line_content. cbn [fst snd]. destruct (compressed _); [|reflexivity]. apply word13_load. lia. }
  split; [exact E|]. split; [unfold cbS; rewrite line_suffix; apply word13_load; lia|]. split; [|exact H2].
  unfold cb_prefix. destruct (compressed _); [apply word13_range|lia].
Qed.

(** Key and data, from memory. *)
Lemma line_node : decode hdr c =
  Node (firstn (Z.to_nat (cb_prefix c)) hdr ++ load_bytes (pv p) (pb + h + 2) cbS)
    (load_bytes (pv p) (pb + h + 2 + cbS) (cb - h - 2 - cbS)) (TAG_FFlags p t .& (fNDVersion .| fNDDeleted)).
Proof.
  destruct line_sizes as (S1 & S2 & S3 & _). unfold decode. fold cbS. rewrite line_suffix.
  replace 2%nat with (Z.to_nat 2) by reflexivity. rewrite skipn_load by lia.
  rewrite firstn_load, skipn_load by lia. reflexivity.
Qed.

Lemma line_read pg pvPrefix :
  NDILineToKeydataflags pg p (GetPtr_NoChecks p itag) pvPrefix =
  Some (Kdf (Key (Dref pvPrefix (cb_prefix c)) (Dref (pb + h + 2) cbS)) (Dref (pb + h + 2 + cbS) (cb - h - 2 - cbS)) (TAG_FFlags p t),
        JET_errSuccess).
Proof.
  destruct line_sizes as (S1 & S2 & S3 & S4 & S5 & S6). pose proof (TAG_Cb_range p t) as R. fold cb in R.
  unfold NDILineToKeydataflags, GetPtr_NoChecks. cbv zeta. cbn [ln_pv ln_cb ln_fFlags]. fold t. fold cb. fold pb.
  destruct (Z.eqb_spec cb 0); [lia|]. fold (compressed (TAG_FFlags p t)). rewrite <- S4.
  assert (Eh : (if compressed (TAG_FFlags p t) then pb + cbPrefixOverhead else pb) = pb + h).
  { unfold h, cbPrefixOverhead. destruct (compressed _); lia. }
  assert (Et : (if compressed (TAG_FFlags p t) then cbKeyCount + cbPrefixOverhead else cbKeyCount) = h + 2).
  { unfold h, cbPrefixOverhead, cbKeyCount. destruct (compressed _); lia. }
  rewrite Eh, Et, <- S5. change cbKeyCount with 2. rewrite s32_small by lia.
  replace (cb - cbS - (h + 2)) with (cb - h - 2 - cbS) by lia.
  destruct (Z.leb_spec cb (h + 2)); [lia|]. cbn [andb orb]. destruct (Z.leb_spec cb cbS); [lia|]. now destruct pg.
Qed.
End Line.

(** ** Reading a node *)

Lemma header_line p : page_inv p ->
  header_bytes p = load_bytes (pv p) (PbFromIb_ p (TAG_Ib p (PtagFromItag_ p 0))) (TAG_Cb p (PtagFromItag_ p 0)).
Proof.
  intros Inv. unfold header_bytes. pose proof (inv_tags p Inv). change 0%nat with (Z.to_nat 0). now rewrite nth_view by lia.
Qed.

(** The prefix pointer of a compressed node reads the shared prefix. *)
Lemma prefix_ref_bytes p n : page_inv p -> 0 <= n <= Z.of_nat (length (prefix_bytes p)) ->
  let d := prefix_ref p (line_addr (ln_pv (GetPtrExternalHeader p))) n in
  data_ok d /\ data_bytes (pv p) d = firstn (Z.to_nat n) (prefix_bytes p).
Proof.
  intros Inv Hn. set (t := PtagFromItag_ p 0). pose proof (TAG_Cb_range p t) as R. pose proof (header_line p Inv) as E. fold t in E.
  assert (A : header_bytes p <> [] -> line_addr (ln_pv (GetPtrExternalHeader p)) = PbFromIb_ p (TAG_Ib p t)).
  { intros Hne. unfold GetPtrExternalHeader, GetPtr_NoChecks. cbn [ln_pv]. fold t. destruct (Z.eqb_spec (TAG_Cb p t) 0) as [E0|]; [|reflexivity].
    rewrite E, E0 in Hne. now contradiction Hne. }
  unfold prefix_bytes, prefix_ref in *. cbv zeta. destruct (FRootPage p); cbn [negb] in *; [destruct (FSpaceTree p)|].
  - split; [unfold data_ok; cbn; lia|]. unfold data_bytes. cbn [dPv dCb]. rewrite length_skipn in Hn.
    destruct (Z.eq_dec n 0) as [->|Hn0]; [reflexivity|]. rewrite A by (intros E0; rewrite E0 in Hn; cbn in Hn; lia).
    rewrite E in *. rewrite length_load_bytes in Hn. unfold sizeof_SPLIT_BUFFER in *. rewrite skipn_load, firstn_load by lia. reflexivity.
  - cbn in *. assert (n = 0) as -> by lia. split; [unfold data_ok; cbn; lia|reflexivity].
  - split; [unfold data_ok; cbn; lia|]. unfold data_bytes. cbn [dPv dCb].
    destruct (Z.eq_dec n 0) as [->|Hn0]; [reflexivity|]. rewrite A by (intros E0; rewrite E0 in Hn; cbn in Hn; lia).
    rewrite E in *. rewrite length_load_bytes in Hn. now rewrite firstn_load by lia.
Qed.

(** What a reader promises about the node at a line. *)
Record reads_node (p : CPAGE) (kdf : KEYDATAFLAGS) (n : NODE) : Prop := {
  rn_key_ok : key_ok (kdf_key kdf);
  rn_data_ok : 0 < dCb (kdf_data kdf);
  rn_key : key_bytes (pv p) (kdf_key kdf) = nd_key n;
  rn_data : data_bytes (pv p) (kdf_data kdf) = nd_data n;
  rn_flags : kdf_fFlags kdf .& (fNDVersion .| fNDDeleted) = nd_flags n
}.

Section Read.
Variables (p : CPAGE) (iline : Z).
Hypothesis Np : node_page p.
Hypothesis Hi : 0 <= iline < Clines p.
Let itag := iline + m_ctagReserved p.
Let t := PtagFromItag_ p itag.
Let pb := PbFromIb_ p (TAG_Ib p t).
Let cb := TAG_Cb p t.
Let c := content (tag_line p itag).
Let h := if compressed (TAG_FFlags p t) then 2 else 0.
Let cbS := word13 (suffix_part c).

(** The node as the code returns it. *)
Definition read_kdf : KEYDATAFLAGS :=
  Kdf (Key (if compressed (TAG_FFlags p t) then prefix_ref p (line_addr (ln_pv (GetPtrExternalHeader p))) (cb_prefix c) else Dref 0 0)
         (Dref (pb + h + 2) cbS)) (Dref (pb + h + 2 + cbS) (cb - h - 2 - cbS)) (TAG_FFlags p t).

Lemma NDIGetKeydataflags_form : NDIGetKeydataflags p iline = Some read_kdf.
Proof.
  pose proof (node_page_ok p iline Np Hi) as Hok. unfold NDIGetKeydataflags, GetPtr. fold itag.
  rewrite (line_read p itag (prefix_bytes p) Hok). fold t. fold pb. fold c. fold cb. fold h. fold cbS.
  unfold FNDCompressed, set_prefix, read_kdf. cbn [kdf_key kdf_data kdf_fFlags prefix suffix dCb].
  fold (compressed (TAG_FFlags p t)). destruct (compressed (TAG_FFlags p t)) eqn:Ec; [reflexivity|].
  unfold cb_prefix. change (fst c) with (TAG_FFlags p t). now rewrite Ec.
Qed.

Lemma read_kdf_node : reads_node p read_kdf (nth (Z.to_nat iline) (nodes p) node_nil).
Proof.
  pose proof (node_page_ok p iline Np Hi) as Hok. destruct Np as [Inv _]. fold itag in Hok.
  destruct (line_sizes p itag (prefix_bytes p) Hok) as (S1 & S2 & S3 & S4 & S5 & S6). fold t cb c h cbS in S1, S2, S3, S5. fold c in S6.
  fold t pb c in S4. rewrite nth_nodes by auto. fold itag. rewrite (line_node p itag _ Hok). fold t pb cb c h cbS.
  destruct (prefix_ref_bytes p (cb_prefix c) Inv S6) as [D1 D2]. unfold read_kdf.
  constructor; cbn [kdf_key kdf_data kdf_fFlags nd_key nd_data nd_flags dCb].
  - split; [destruct (compressed _); [exact D1|unfold data_ok; cbn; lia]|unfold data_ok; cbn [suffix dCb]; lia].
  - lia.
  - unfold key_bytes. cbn [prefix suffix]. f_equal.
    destruct (compressed _) eqn:Ec; [exact D2|]. unfold cb_prefix. change (fst c) with (TAG_FFlags p t). rewrite Ec. reflexivity.
  - reflexivity.
  - reflexivity.
Qed.
End Read.

(** Every line of a node page is read back as its node. *)
Lemma get_node p iline : node_page p -> 0 <= iline < Clines p ->
  exists kdf, NDIGetKeydataflags p iline = Some kdf /\ reads_node p kdf (nth (Z.to_nat iline) (nodes p) node_nil).
Proof. intros Np Hi. exists (read_kdf p iline). auto using NDIGetKeydataflags_form, read_kdf_node. Qed.

(** ** The checked reader *)

Section Checked.
Variables (p : CPAGE) (iline : Z).
Hypothesis Np : node_page p.
Hypothesis Hi : 0 <= iline < Clines p.
Let itag := iline + m_ctagReserved p.
Let c := content (tag_line p itag).

(** A compressed node needs a header that holds its prefix. *)
Lemma compressed_header : compressed (fst c) = true ->
  (FRootPage p = false \/ FSpaceTree p = true) /\ 0 <= cb_prefix c <= TAG_Cb p (PtagFromItag_ p 0) /\ 2 <= TAG_Cb p (PtagFromItag_ p 0).
Proof.
  intros Hc. pose proof (node_page_ok p iline Np Hi) as Hok. fold itag c in Hok. pose proof (TAG_Cb_range p (PtagFromItag_ p 0)) as R.
  unfold node_okb in Hok. rewrite Hc in Hok. cbn [negb orb] in Hok. apply andb_prop in Hok as [Hok H2]. apply andb_prop in Hok as [_ H1].
  apply Z.leb_le in H1. apply Z.ltb_lt in H2. unfold cbPrefixOverhead in H2.
  assert (L : Z.of_nat (length (header_bytes p)) = TAG_Cb p (PtagFromItag_ p 0)) by (rewrite header_line, length_loaded by apply Np; lia).
  unfold prefix_bytes in H1. destruct (FRootPage p), (FSpaceTree p); cbn [negb] in H1; rewrite ?length_skipn in H1; cbn in H1;
    (exfalso; lia) || (split; [auto|lia]).
Qed.

Lemma checked_form : ErrNDIGetKeydataflags p iline = Some (read_kdf p iline, JET_errSuccess).
Proof.
  pose proof (node_page_ok p iline Np Hi) as Hok. pose proof (proj1 Np) as Inv. pose proof (inv_resv p Inv) as Hr. fold itag in Hok.
  destruct (line_sizes p itag (prefix_bytes p) Hok) as (S1 & S2 & S3 & _). unfold Clines in Hi.
  unfold ErrNDIGetKeydataflags, NDIGetKeydataflags_Checked, ErrGetPtr. fold itag. rewrite Checked_complete by (auto; lia).
  change (JET_errSuccess <? JET_errSuccess) with false. cbn [andb]. rewrite (line_read p itag _ Hok). fold c.
  unfold FNDCompressed. cbn [kdf_fFlags]. fold (compressed (TAG_FFlags p (PtagFromItag_ p itag))). unfold first_err at 1.
  change (JET_errSuccess <? JET_errSuccess) with false. cbn iota. unfold read_kdf. fold itag c.
  change (TAG_FFlags p (PtagFromItag_ p itag)) with (fst c) in *.
  destruct (compressed (fst c)) eqn:Ec.
  - destruct (compressed_header Ec) as (H1 & H2 & H3). unfold ErrGetPtrExternalHeader.
    rewrite Checked_complete by (auto; pose proof (inv_tags p Inv); lia). fold (GetPtrExternalHeader p).
    change (JET_errSuccess <? JET_errSuccess) with false. cbn iota.
    assert (Ep : ln_pv (GetPtrExternalHeader p) = PvPage (PbFromIb_ p (TAG_Ib p (PtagFromItag_ p 0)))).
    { unfold GetPtrExternalHeader, GetPtr_NoChecks. cbn [ln_pv]. destruct (Z.eqb_spec (TAG_Cb p (PtagFromItag_ p 0)) 0); [lia|reflexivity]. }
    rewrite Ep. unfold set_prefix. cbn [kdf_key kdf_data kdf_fFlags prefix suffix dCb line_addr].
    assert (Ecb : ln_cb (GetPtrExternalHeader p) = TAG_Cb p (PtagFromItag_ p 0)) by reflexivity. rewrite Ecb.
    assert (Ed : dCb (prefix_ref p (PbFromIb_ p (TAG_Ib p (PtagFromItag_ p 0))) (cb_prefix c)) = cb_prefix c).
    { unfold prefix_ref. destruct H1 as [->| ->]; [reflexivity|]. now destruct (FRootPage p). }
    rewrite Ed. destruct (Z.ltb_spec (TAG_Cb p (PtagFromItag_ p 0)) (cb_prefix c)); [lia|]. reflexivity.
  - unfold set_prefix. cbn [kdf_key kdf_data kdf_fFlags prefix suffix dCb]. unfold cb_prefix. now rewrite Ec.
Qed.
End Checked.
