(* ===== verification/NodeOps.v ===== *)
(** * Operations on nodes

    Inserting, deleting and replacing nodes, setting their flags and growing
    the compressed part of a key, as updates of the list [nodes]. *)

From Stdlib Require Import ZArith List Lia Bool.
From S2P Require Import Prelude Bits Mem Checksum ChecksumErrors PageChecksum Page PageLayout PageTags PageTagArray PageInsert PageDelete PageReplace PageRead PageChunks Key KeyProps Node NodeView.
Import ListNotations.

(** ** Updates of the lines and of the nodes *)

Section Lists.
Context {A : Type}.
Implicit Types (l : list A) (x : A).

Lemma skipn_cut r k l m : (r + k <= length l)%nat -> skipn r (firstn (r + k) l ++ m) = firstn k (skipn r l) ++ m.
Proof.
  intros H. rewrite skipn_app, length_firstn, Nat.min_l by lia. replace (r - (r + k))%nat with O by lia. cbn [skipn].
  rewrite skipn_firstn_comm. do 2 f_equal. lia.
Qed.

Lemma skipn_insert_at r k x l : (r + k <= length l)%nat -> skipn r (insert_at (r + k) x l) = insert_at k x (skipn r l).
Proof. intros H. unfold insert_at. now rewrite skipn_cut, skipn_skipn, (Nat.add_comm k r) by lia. Qed.

Lemma skipn_delete_at r k l : (r + k < length l)%nat -> skipn r (delete_at (r + k) l) = delete_at k (skipn r l).
Proof. intros H. unfold delete_at. rewrite skipn_cut, skipn_skipn by lia. do 2 f_equal. lia. Qed.

Lemma skipn_replace_at r k x l : (r + k < length l)%nat -> skipn r (replace_at (r + k) x l) = replace_at k x (skipn r l).
Proof. intros H. unfold replace_at. rewrite skipn_cut, skipn_skipn by lia. do 3 f_equal. lia. Qed.

Lemma forallb_skipn f k l : forallb f l = true -> forallb f (skipn k l) = true.
Proof. rewrite <- (firstn_skipn k l) at 1. rewrite forallb_app. intros H. now apply andb_prop in H. Qed.

Lemma forallb_firstn f k l : forallb f l = true -> forallb f (firstn k l) = true.
Proof. rewrite <- (firstn_skipn k l) at 1. rewrite forallb_app. intros H. now apply andb_prop in H. Qed.

Lemma forallb_insert_at f k x l : forallb f l = true -> f x = true -> forallb f (insert_at k x l) = true.
Proof. intros Hl Hx. unfold insert_at. rewrite forallb_app. cbn. now rewrite forallb_firstn, forallb_skipn, Hx. Qed.

Lemma forallb_delete_at f k l : forallb f l = true -> forallb f (delete_at k l) = true.
Proof. intros Hl. unfold delete_at. rewrite forallb_app. now rewrite forallb_firstn, forallb_skipn. Qed.

Lemma forallb_replace_at f k x l : forallb f l = true -> f x = true -> forallb f (replace_at k x l) = true.
Proof. intros Hl Hx. unfold replace_at. rewrite forallb_app. cbn [forallb]. now rewrite forallb_firstn, forallb_skipn, Hx. Qed.
End Lists.

(** [p'] is a node page with nodes [ns] and the same shared prefix, and memory
    outside the page is untouched. *)
Record updated (p p' : CPAGE) (ns : list NODE) : Prop := {
  up_page : node_page p';
  up_nodes : nodes p' = ns;
  up_prefix : prefix_bytes p' = prefix_bytes p;
  up_outside : keeps (outside p) p p';
  up_buffer : cbBuffer p' = cbBuffer p;
  up_lines : Clines p' = Z.of_nat (length ns)
}.

(** From the lines: the flags and the first line of the page stay. *)
Lemma updated_intro p p' v :
  page_inv p' -> m_ctagReserved p' = m_ctagReserved p -> cbBuffer p' = cbBuffer p ->
  keeps (fun a => 36 <= a < CbPageHeader p \/ outside p a) p p' ->
  view p' = v -> nth 0 v no_line = nth 0 (view p) no_line ->
  let ls := skipn (Z.to_nat (m_ctagReserved p)) v in
  forallb (node_okb (prefix_bytes p)) ls = true ->
  updated p p' (map (decode (prefix_bytes p)) ls).
Proof.
  intros Inv Er Eb K Ev E0 ls Hok. pose proof (header_size p) as HS.
  assert (Ef : fFlags p' = fFlags p) by (apply load32_ext; intros a Ha; apply K; lia).
  assert (Ep : prefix_bytes p' = prefix_bytes p).
  { unfold prefix_bytes, FRootPage, FSpaceTree, header_bytes. now rewrite Ef, Ev, E0. }
  assert (El : node_lines p' = ls) by (unfold node_lines, ls; now rewrite Er, Ev).
  constructor; auto.
  - split; [exact Inv|]. now rewrite Ep, El.
  - unfold nodes. now rewrite Ep, El.
  - eapply keeps_weaken; [|exact K]. cbv beta. auto.
  - rewrite length_map, <- El. symmetry. now apply length_node_lines.
Qed.

(** ** Data by pointer *)

Definition chunk_bytes (m : mem) (d : DATA) : list Z := match d with DataExt l => l | DataPage src cb => load_bytes m src cb end.

Definition chunk_outside (p : CPAGE) (d : DATA) : Prop :=
  match d with DataExt _ => True | DataPage src cb => 0 <= cb /\ (cb = 0 \/ src + cb <= 0 \/ cbBuffer p <= src) end.

Lemma chunks_outside p rgdata : Forall (chunk_outside p) rgdata ->
  forall lo dst, 0 <= lo <= dst ->
  Z.of_nat (length (concat (map (chunk_bytes (pv p)) rgdata))) = 0 \/
  dst + Z.of_nat (length (concat (map (chunk_bytes (pv p)) rgdata))) <= cbBuffer p ->
  chunks_are (outside p) (pv p) lo dst rgdata (map (chunk_bytes (pv p)) rgdata).
Proof.
  intros F. induction F as [|d rgdata Hd _ IH]; intros lo dst Hlo Hfit; [exact I|]. cbn [map concat chunks_are] in *.
  rewrite length_app, Nat2Z.inj_add in Hfit. split; [|apply IH; lia].
  destruct d as [l|src cb]; [reflexivity|]. cbn [chunk_bytes chunk_outside] in *. rewrite length_loaded in Hfit.
  destruct Hd as [Hc Hs]. repeat split; auto; [|lia]. intros a Ha. unfold outside. lia.
Qed.

(** A reference to memory outside the page. *)
Definition ref_outside (p : CPAGE) (d : DATAREF) : Prop := chunk_outside p (chunk d).
Definition kdf_outside (p : CPAGE) (kdf : KEYDATAFLAGS) : Prop :=
  ref_outside p (prefix (kdf_key kdf)) /\ ref_outside p (suffix (kdf_key kdf)) /\ ref_outside p (kdf_data kdf).

(** ** The bytes of a node *)

Lemma length_encode cbPrefix suf dat :
  Z.of_nat (length (encode cbPrefix suf dat))
  = (if 0 <? cbPrefix then cbPrefixOverhead else 0) + cbKeyCount + Z.of_nat (length suf) + Z.of_nat (length dat).
Proof.
  unfold encode. rewrite !length_app. unfold cbPrefixOverhead, cbKeyCount. destruct (0 <? cbPrefix); cbn [length le_bytes]; lia.
Qed.

Lemma compressed_lor f : compressed (f .| fNDCompressed) = true.
Proof. unfold compressed. rewrite Z.land_lor_distr_l, Z.land_diag. destruct (Z.eqb_spec (f .& fNDCompressed .| fNDCompressed) 0) as [E|]; [|reflexivity].
  apply Z.lor_eq_0_iff in E as [_ E]. discriminate. Qed.

Lemma compressed_land f : compressed (f .& Z.lnot fNDCompressed) = false.
Proof. unfold compressed. rewrite <- Z.land_assoc, (Z.land_comm (Z.lnot _)), Z.land_lnot_diag, Z.land_0_r. reflexivity. Qed.

Lemma record_flags_lor f : (f .| fNDCompressed) .& (fNDVersion .| fNDDeleted) = f .& (fNDVersion .| fNDDeleted).
Proof. rewrite Z.land_lor_distr_l. change (fNDCompressed .& (fNDVersion .| fNDDeleted)) with 0. apply Z.lor_0_r. Qed.

Lemma record_flags_land f : (f .& Z.lnot fNDCompressed) .& (fNDVersion .| fNDDeleted) = f .& (fNDVersion .| fNDDeleted).
Proof. rewrite <- Z.land_assoc. reflexivity. Qed.

Section Bytes.
Variables (p : CPAGE) (kdf : KEYDATAFLAGS) (cbPrefix : Z).
Let key := key_bytes (pv p) (kdf_key kdf).
Let dat := data_bytes (pv p) (kdf_data kdf).
Hypothesis Hk : key_ok (kdf_key kdf).
Hypothesis Hd : data_ok (kdf_data kdf).
Hypothesis Hp : 0 <= cbPrefix <= KEY_Cb (kdf_key kdf).
Hypothesis Hs : KEY_Cb (kdf_key kdf) - cbPrefix < 8192.

Lemma suffix_bytes_split :
  skipn (Z.to_nat cbPrefix) key =
  if dCb (prefix (kdf_key kdf)) <=? cbPrefix
  then load_bytes (pv p) (dPv (suffix (kdf_key kdf)) + (cbPrefix - dCb (prefix (kdf_key kdf))))
         (dCb (suffix (kdf_key kdf)) - (cbPrefix - dCb (prefix (kdf_key kdf))))
  else load_bytes (pv p) (dPv (prefix (kdf_key kdf)) + cbPrefix) (dCb (prefix (kdf_key kdf)) - cbPrefix)
       ++ data_bytes (pv p) (suffix (kdf_key kdf)).
Proof.
  destruct Hk as [K1 K2]. red in K1, K2. unfold KEY_Cb in Hp. unfold key, key_bytes, data_bytes. rewrite skipn_app, length_load_bytes.
  destruct (Z.leb_spec (dCb (prefix (kdf_key kdf))) cbPrefix).
  - rewrite skipn_all2 by (rewrite length_load_bytes; lia). cbn [app].
    replace (Z.to_nat cbPrefix - Z.to_nat (dCb (prefix (kdf_key kdf))))%nat with (Z.to_nat (cbPrefix - dCb (prefix (kdf_key kdf)))) by lia.
    now rewrite skipn_load by lia.
  - rewrite skipn_load by lia. replace (Z.to_nat cbPrefix - _)%nat with O by lia. reflexivity.
Qed.

Lemma prefix_rgdata_bytes :
  let '(rgdata, fl, _) := CdataNDIPrefixAndKeydataflagsToDataflags kdf cbPrefix in
  concat (map (chunk_bytes (pv p)) rgdata) = encode cbPrefix (skipn (Z.to_nat cbPrefix) key) dat /\
  compressed fl = (0 <? cbPrefix) /\ fl .& (fNDVersion .| fNDDeleted) = kdf_fFlags kdf .& (fNDVersion .| fNDDeleted).
Proof.
  pose proof (length_key_bytes (pv p) _ Hk) as Lk. fold key in Lk.
  assert (Ls : Z.of_nat (length (skipn (Z.to_nat cbPrefix) key)) = KEY_Cb (kdf_key kdf) - cbPrefix) by (rewrite length_skipn; lia).
  unfold CdataNDIPrefixAndKeydataflagsToDataflags, encode. rewrite Ls. rewrite suffix_bytes_split. unfold KEY_Cb in *.
  destruct (Z.leb_spec (dCb (prefix (kdf_key kdf))) cbPrefix); (split; [|destruct (0 <? cbPrefix); auto using compressed_lor, compressed_land, record_flags_lor, record_flags_land]).
  - rewrite u16_small by (destruct Hk as [K1 K2]; red in K1, K2; lia).
    replace (dCb (suffix (kdf_key kdf)) - (cbPrefix - dCb (prefix (kdf_key kdf))))
      with (dCb (prefix (kdf_key kdf)) + dCb (suffix (kdf_key kdf)) - cbPrefix) by lia.
    destruct (0 <? cbPrefix); cbn [map concat app chunk_bytes le_word chunk dPv dCb le_bytes]; now rewrite !app_nil_r.
  - rewrite u16_small by (destruct Hk as [K1 K2]; red in K1, K2; lia).
    replace (dCb (suffix (kdf_key kdf)) + (dCb (prefix (kdf_key kdf)) - cbPrefix))
      with (dCb (prefix (kdf_key kdf)) + dCb (suffix (kdf_key kdf)) - cbPrefix) by lia.
    destruct (0 <? cbPrefix); cbn [map concat app chunk_bytes le_word chunk dPv dCb le_bytes]; now rewrite !app_nil_r, <- !app_assoc.
Qed.

Lemma prefix_rgdata_outside : kdf_outside p kdf ->
  let '(rgdata, _, _) := CdataNDIPrefixAndKeydataflagsToDataflags kdf cbPrefix in Forall (chunk_outside p) rgdata.
Proof.
  intros (O1 & O2 & O3). destruct Hk as [K1 K2]. red in K1, K2. unfold KEY_Cb in Hp. unfold ref_outside, chunk_outside, chunk in *.
  unfold CdataNDIPrefixAndKeydataflagsToDataflags.
  destruct (Z.leb_spec (dCb (prefix (kdf_key kdf))) cbPrefix); destruct (0 <? cbPrefix); cbn [app];
    repeat apply Forall_cons; try apply Forall_nil; cbn [chunk chunk_outside dPv dCb le_word]; try exact I; lia.
Qed.

Lemma kdf_rgdata_bytes : dCb (prefix (kdf_key kdf)) = cbPrefix -> cbPrefix < 8192 ->
  let '(rgdata, fl) := CdataNDIKeydataflagsToDataflags kdf in
  concat (map (chunk_bytes (pv p)) rgdata) = encode cbPrefix (data_bytes (pv p) (suffix (kdf_key kdf))) dat /\ fl = kdf_fFlags kdf.
Proof.
  intros Ep Hp'. destruct Hk as [K1 K2]. red in K1, K2. unfold KEY_Cb in *.
  unfold CdataNDIKeydataflagsToDataflags, encode, dFNull. rewrite Ep. split; [|reflexivity].
  unfold data_bytes at 1. rewrite length_loaded, !u16_small by lia. replace (Z.max 0 (dCb (suffix (kdf_key kdf)))) with (dCb (suffix (kdf_key kdf))) by lia.
  destruct (Z.eqb_spec cbPrefix 0), (Z.ltb_spec 0 cbPrefix); try lia;
    cbn [negb app map concat chunk_bytes le_word chunk dPv dCb le_bytes]; now rewrite !app_nil_r.
Qed.
End Bytes.

(** ** Inserting *)

Section Insert.
Context `{Srt : StdSort}.
Variables (p : CPAGE) (iline : Z).
Hypothesis Np : node_page p.
Hypothesis Hi : 0 <= iline <= Clines p.
Hypothesis Hn : m_itagMicFree p < ITAG_MIC_FREE_MASK.

(** A line with the bytes of a node is a new node. *)
Lemma insert_node rgdata fl cbPrefix suf dat :
  Forall (chunk_outside p) rgdata ->
  concat (map (chunk_bytes (pv p)) rgdata) = encode cbPrefix suf dat -> bytes_ok (encode cbPrefix suf dat) ->
  0 <= cbPrefix < 8192 -> Z.of_nat (length suf) < 8192 -> compressed fl = (0 <? cbPrefix) -> dat <> [] ->
  cbPrefix <= Z.of_nat (length (prefix_bytes p)) -> cbPrefix = 0 \/ cbPrefixOverhead < cbPrefix ->
  Z.of_nat (length (encode cbPrefix suf dat)) + sizeof_TAG <= cbFree p ->
  exists p', Insert p iline rgdata fl = Some p' /\
    updated p p' (insert_at (Z.to_nat iline)
      (Node (firstn (Z.to_nat cbPrefix) (prefix_bytes p) ++ suf) dat (fl .& (fNDVersion .| fNDDeleted))) (nodes p)).
Proof.
  intros Ho Eb Hb Hp Hs Hf Hd Hpre Hz Hfit. destruct Np as [Inv Hok]. pose proof (inv_resv p Inv) as R. pose proof (inv_resv_le p Inv) as R2.
  unfold Clines in Hi. set (itag := iline + m_ctagReserved p) in *. set (ls := map (chunk_bytes (pv p)) rgdata) in *.
  assert (Hi' : 0 <= itag <= m_itagMicFree p) by lia.
  assert (C : Insert_ p itag rgdata fl = Insert_ p itag (ext ls) fl).
  { apply Insert_chunks; auto; [now rewrite Eb|]. intros lo H0 H1. apply chunks_outside; auto; lia. }
  destruct (Insert_some p itag ls fl Inv Hi' Hn) as (p' & E & Rt & I' & V & K); [now rewrite Eb|now rewrite Eb|].
  destruct (retagged_fields _ _ _ Rt) as (F1 & F2 & _ & F4 & F5 & _). exists p'. split; [unfold Insert; fold itag; congruence|].
  set (c := stored (m_fSmallFormat p) (itag =? 0) fl (concat ls)) in V.
  assert (Ec : c = stored (m_fSmallFormat p) false fl (encode cbPrefix suf dat)).
  { unfold c. rewrite Eb. destruct (Z.eqb_spec itag 0); [lia|reflexivity]. }
  assert (Es : skipn (Z.to_nat (m_ctagReserved p)) (view p') = insert_at (Z.to_nat iline) c (node_lines p)).
  { rewrite V. unfold itag. rewrite Z.add_comm, Z2Nat.inj_add by lia. apply skipn_insert_at. rewrite length_view. lia. }
  assert (U := updated_intro p p' (view p') I' F5 F2). cbv zeta in U. rewrite Es, insert_at_map in U.
  unfold nodes. rewrite <- (decode_stored (m_fSmallFormat p) fl cbPrefix suf dat) by auto. rewrite <- Ec. apply U; [|reflexivity| |].
  - eapply keeps_weaken; [|exact K]. unfold outside. cbv beta. lia.
  - rewrite V, nth_insert_at by (rewrite length_view; lia). destruct (Nat.ltb_spec 0 (Z.to_nat itag)); [reflexivity|lia].
  - apply forallb_insert_at; [exact Hok|]. rewrite Ec. now apply node_ok_stored.
Qed.

Lemma encode_bytes_ok cbPrefix suf dat :
  0 <= cbPrefix < 8192 -> Z.of_nat (length suf) < 8192 -> bytes_ok suf -> bytes_ok dat -> bytes_ok (encode cbPrefix suf dat).
Proof.
  intros Hp Hs H1 H2. unfold bytes_ok, encode, le_bytes in *. rewrite !Forall_app. repeat split; auto.
  - destruct (0 <? cbPrefix); [|constructor]. repeat apply Forall_cons; try apply Forall_nil; zlia.
  - repeat apply Forall_cons; try apply Forall_nil; zlia.
Qed.

Lemma load_bytes_ok m a n : mem_ok m -> bytes_ok (load_bytes m a n).
Proof. intros Hm. unfold bytes_ok, load_bytes. apply Forall_forall. intros x Hx. apply in_map_iff in Hx as (i & <- & _). apply Hm. Qed.

Lemma key_bytes_ok m k : mem_ok m -> bytes_ok (key_bytes m k).
Proof. intros Hm. unfold bytes_ok, key_bytes. apply Forall_app. split; now apply load_bytes_ok. Qed.

Lemma skipn_bytes_ok k l : bytes_ok l -> bytes_ok (skipn k l).
Proof. unfold bytes_ok. intros H. rewrite <- (firstn_skipn k l) in H. now apply Forall_app in H. Qed.

(** The node to insert: outside the page, with some data, its first [cbPrefix]
    bytes in the shared prefix, and small enough. *)
Record insertable (kdf : KEYDATAFLAGS) (cbPrefix : Z) : Prop := {
  in_key : key_ok (kdf_key kdf);
  in_data : 0 < dCb (kdf_data kdf);
  in_outside : kdf_outside p kdf;
  in_prefix : 0 <= cbPrefix < 8192;
  in_prefix_size : cbPrefix = 0 \/ cbPrefixOverhead < cbPrefix;
  in_prefix_le : cbPrefix <= KEY_Cb (kdf_key kdf);
  in_suffix : KEY_Cb (kdf_key kdf) - cbPrefix < 8192;
  in_shared : firstn (Z.to_nat cbPrefix) (key_bytes (pv p) (kdf_key kdf)) = firstn (Z.to_nat cbPrefix) (prefix_bytes p);
  in_header : cbPrefix <= Z.of_nat (length (prefix_bytes p));
  in_fits : (if 0 <? cbPrefix then cbPrefixOverhead else 0) + cbKeyCount + (KEY_Cb (kdf_key kdf) - cbPrefix)
            + dCb (kdf_data kdf) + sizeof_TAG <= cbFree p
}.

Definition node_of (m : mem) (kdf : KEYDATAFLAGS) : NODE :=
  Node (key_bytes m (kdf_key kdf)) (data_bytes m (kdf_data kdf)) (kdf_fFlags kdf .& (fNDVersion .| fNDDeleted)).

Lemma data_nonempty m d : 0 < dCb d -> data_bytes m d <> [].
Proof. intros H E. apply (f_equal (@length Z)) in E. unfold data_bytes in E. rewrite length_load_bytes in E. cbn in E. lia. Qed.

Lemma NDInsert_prefix_spec kdf cbPrefix : insertable kdf cbPrefix ->
  exists p', NDInsert_prefix p iline kdf cbPrefix = Some p' /\
    updated p p' (insert_at (Z.to_nat iline) (node_of (pv p) kdf) (nodes p)).
Proof.
  intros [Hk Hd Ho Hp Hz Hple Hs Hsh Hh Hfit]. pose proof (inv_mem p (proj1 Np)) as Hm.
  unfold NDInsert_prefix. rewrite u16_small by lia.
  pose proof (prefix_rgdata_bytes p kdf cbPrefix Hk ltac:(lia) Hs) as B. pose proof (prefix_rgdata_outside p kdf cbPrefix Hk ltac:(lia) Ho) as O.
  destruct (CdataNDIPrefixAndKeydataflagsToDataflags kdf cbPrefix) as [[rgdata fl] kdf']. destruct B as (B1 & B2 & B3).
  pose proof (length_key_bytes (pv p) _ Hk) as Lk.
  set (key := key_bytes (pv p) (kdf_key kdf)) in *. set (suf := skipn (Z.to_nat cbPrefix) key) in *.
  assert (Ls : Z.of_nat (length suf) = KEY_Cb (kdf_key kdf) - cbPrefix) by (unfold suf; rewrite length_skipn; lia).
  assert (Ld : Z.of_nat (length (data_bytes (pv p) (kdf_data kdf))) = dCb (kdf_data kdf)) by (unfold data_bytes; rewrite length_loaded; lia).
  destruct (insert_node rgdata fl cbPrefix suf (data_bytes (pv p) (kdf_data kdf))) as (p' & E & U); auto; try lia.
  - apply encode_bytes_ok; auto; [lia|apply skipn_bytes_ok, key_bytes_ok, Hm|apply load_bytes_ok, Hm].
  - apply data_nonempty. lia.
  - rewrite length_encode, Ls, Ld. lia.
  - exists p'. split; [exact E|]. unfold node_of. fold key. rewrite <- Hsh, B3 in U. unfold suf in U. now rewrite firstn_skipn in U.
Qed.

(** The overload that takes the compression from the node itself. *)
Lemma NDInsert_spec kdf : insertable kdf (dCb (prefix (kdf_key kdf))) ->
  compressed (kdf_fFlags kdf) = negb (dFNull (prefix (kdf_key kdf))) ->
  exists p' kdfCurr, NDInsert p iline kdf = Some (p', kdfCurr) /\
    updated p p' (insert_at (Z.to_nat iline) (node_of (pv p) kdf) (nodes p)) /\ reads_node p' kdfCurr (node_of (pv p) kdf).
Proof.
  intros [Hk Hd Ho Hp Hz Hple Hs Hsh Hh Hfit] Hc. pose proof (inv_mem p (proj1 Np)) as Hm. pose proof Hk as [K1 K2]. red in K1, K2.
  set (cbPrefix := dCb (prefix (kdf_key kdf))) in *. unfold NDInsert.
  pose proof (kdf_rgdata_bytes p kdf cbPrefix Hk ltac:(lia) Hs eq_refl ltac:(lia)) as B.
  assert (O : Forall (chunk_outside p) (fst (CdataNDIKeydataflagsToDataflags kdf))).
  { destruct Ho as (O1 & O2 & O3). unfold CdataNDIKeydataflagsToDataflags. destruct (negb _); cbn [fst app];
      repeat apply Forall_cons; try apply Forall_nil; try exact I; assumption. }
  destruct (CdataNDIKeydataflagsToDataflags kdf) as [rgdata fl]. cbn [fst] in O. destruct B as [B1 ->].
  set (suf := data_bytes (pv p) (suffix (kdf_key kdf))) in *. unfold KEY_Cb in *. fold cbPrefix in Hple, Hs, Hfit.
  assert (Ls : Z.of_nat (length suf) = dCb (suffix (kdf_key kdf))) by (unfold suf, data_bytes; rewrite length_loaded; lia).
  assert (Ld : Z.of_nat (length (data_bytes (pv p) (kdf_data kdf))) = dCb (kdf_data kdf)) by (unfold data_bytes; rewrite length_loaded; lia).
  destruct (insert_node rgdata (kdf_fFlags kdf) cbPrefix suf (data_bytes (pv p) (kdf_data kdf))) as (p' & E & U); auto; try lia.
  - apply encode_bytes_ok; auto; [lia|now apply load_bytes_ok|now apply load_bytes_ok].
  - rewrite Hc. unfold dFNull. fold cbPrefix. destruct (Z.eqb_spec cbPrefix 0), (Z.ltb_spec 0 cbPrefix); cbn; lia || reflexivity.
  - apply data_nonempty. lia.
  - rewrite length_encode, Ls, Ld. lia.
  - rewrite E. assert (En : firstn (Z.to_nat cbPrefix) (prefix_bytes p) ++ suf = key_bytes (pv p) (kdf_key kdf)).
    { rewrite <- Hsh. unfold key_bytes. fold suf. f_equal. unfold data_bytes. fold cbPrefix. rewrite firstn_app, length_load_bytes, Nat.sub_diag.
      cbn [firstn]. rewrite app_nil_r. apply firstn_all2. rewrite length_load_bytes. lia. }
    rewrite En in U. fold (node_of (pv p) kdf) in U. pose proof U as [U1 U2 U3 U4 U5 U6].
    assert (Ln : (Z.to_nat iline <= length (nodes p))%nat) by (pose proof (length_nodes p (proj1 Np)); lia).
    rewrite length_insert_at in U6 by exact Ln.
    destruct (get_node p' iline U1) as (kdfCurr & G & Rn); [pose proof (length_nodes p (proj1 Np)); lia|].
    rewrite G. exists p', kdfCurr. split; [reflexivity|]. split; [exact U|].
    rewrite U2, nth_insert_at, Nat.ltb_irrefl, Nat.eqb_refl in Rn by exact Ln. exact Rn.
Qed.
End Insert.

(** ** Deleting *)

Lemma updated_trans p p1 p2 ns1 ns2 : updated p p1 ns1 -> updated p1 p2 ns2 -> updated p p2 ns2.
Proof.
  intros [A1 A2 A3 A4 A5 A6] [B1 B2 B3 B4 B5 B6]. constructor; auto; try congruence.
  eapply keeps_trans; [exact A4|]. eapply keeps_weaken; [|exact B4]. intros a. unfold outside. rewrite A5. auto.
Qed.

Lemma updated_refl p : node_page p -> updated p p (nodes p).
Proof. intros Np. constructor; auto; [intros a _; reflexivity|]. symmetry. apply length_nodes, Np. Qed.

Lemma NDDelete_spec p iline : node_page p -> 0 <= iline < Clines p -> updated p (NDDelete p iline) (delete_at (Z.to_nat iline) (nodes p)).
Proof.
  intros [Inv Hok] Hi. pose proof (inv_resv p Inv) as R. unfold Clines in Hi. unfold NDDelete, Delete.
  set (itag := iline + m_ctagReserved p). destruct (Delete_spec p itag Inv) as (Rt & I' & V & K); [unfold itag; lia|].
  set (p' := Delete_ p itag) in *. destruct (retagged_fields _ _ _ Rt) as (F1 & F2 & _ & F4 & F5 & _).
  assert (Es : skipn (Z.to_nat (m_ctagReserved p)) (view p') = delete_at (Z.to_nat iline) (node_lines p)).
  { rewrite V. unfold itag. rewrite Z.add_comm, Z2Nat.inj_add by lia. apply skipn_delete_at. rewrite length_view. lia. }
  assert (U := updated_intro p p' (view p') I' F5 F2). cbv zeta in U. rewrite Es, delete_at_map in U. apply U; [|reflexivity| |].
  - eapply keeps_weaken; [|exact K]. unfold outside. cbv beta. lia.
  - rewrite V, nth_delete_at by (rewrite length_view; lia). destruct (Nat.ltb_spec 0 (Z.to_nat itag)); [reflexivity|lia].
  - now apply forallb_delete_at.
Qed.

Lemma delete_at_last {A} (l : list A) k : (k < length l)%nat -> length l = S k -> delete_at k l = firstn k l.
Proof. intros H E. unfold delete_at. rewrite skipn_all2 by lia. apply app_nil_r. Qed.

Lemma bulk_delete_loop_spec n : forall p iline, node_page p -> 0 <= iline -> iline + Z.of_nat n = Clines p ->
  updated p (bulk_delete_loop n p (iline + Z.of_nat n - 1)) (firstn (Z.to_nat iline) (nodes p)).
Proof.
  induction n as [|n IH]; intros p iline Np H0 Hn; cbn [bulk_delete_loop].
  - rewrite firstn_all2; [now apply updated_refl|]. pose proof (length_nodes p (proj1 Np)). lia.
  - pose proof (length_nodes p (proj1 Np)) as L. replace (iline + Z.of_nat (S n) - 1) with (iline + Z.of_nat n) in * by lia.
    pose proof (NDDelete_spec p (iline + Z.of_nat n) Np ltac:(lia)) as U. unfold NDDelete in U.
    rewrite delete_at_last in U by lia. eapply updated_trans; [exact U|].
    replace (firstn (Z.to_nat iline) (nodes p)) with (firstn (Z.to_nat iline) (nodes (Delete p (iline + Z.of_nat n)))).
    + apply IH; [apply U|exact H0|]. rewrite (up_lines _ _ _ U), length_firstn. lia.
    + rewrite (up_nodes _ _ _ U), firstn_firstn. f_equal. lia.
Qed.

(** ** Replacing a line *)

(** Any line that [Replace] writes with the bytes of a node. *)
Lemma replace_node `{StdSort} p iline rgdata ls fl cbPrefix suf dat :
  node_page p -> 0 <= iline < Clines p ->
  let itag := iline + m_ctagReserved p in
  Replace_ p itag rgdata fl = Replace_ p itag (ext ls) fl ->
  concat ls = encode cbPrefix suf dat -> bytes_ok (encode cbPrefix suf dat) ->
  0 <= cbPrefix < 8192 -> Z.of_nat (length suf) < 8192 -> compressed fl = (0 <? cbPrefix) -> dat <> [] ->
  cbPrefix <= Z.of_nat (length (prefix_bytes p)) -> cbPrefix = 0 \/ cbPrefixOverhead < cbPrefix ->
  Z.of_nat (length (encode cbPrefix suf dat)) <= cbFree p + TAG_Cb p (PtagFromItag_ p itag) ->
  exists p', Replace p iline rgdata fl = Some p' /\
    updated p p' (replace_at (Z.to_nat iline)
      (Node (firstn (Z.to_nat cbPrefix) (prefix_bytes p) ++ suf) dat (fl .& (fNDVersion .| fNDDeleted))) (nodes p)).
Proof.
  intros [Inv Hok] Hi itag C Eb Hb Hp Hs Hf Hd Hpre Hz Hfit. pose proof (inv_resv p Inv) as R. unfold Clines in Hi.
  assert (Hi' : 0 <= itag < m_itagMicFree p) by (unfold itag; lia).
  assert (Hsz : Z.of_nat (length (concat ls)) < 32768).
  { rewrite Eb. pose proof (rest_free p itag Inv Hi') as RF. pose proof (cb_total_nonneg (rest p itag)). pose proof (inv_size p Inv).
    pose proof (inv_buf p Inv). pose proof (inv_tags p Inv). pose proof (header_size p). lia. }
  destruct (Replace_some p itag ls fl Inv Hi' Hsz) as (p' & E & [M I' V K]); [now rewrite Eb|now rewrite Eb|].
  destruct (mem_only_fields _ _ M) as (F1 & F2 & _ & F4 & F5 & _). exists p'. split; [unfold Replace; fold itag; congruence|].
  set (c := stored (m_fSmallFormat p) (itag =? 0) fl (concat ls)) in V.
  assert (Ec : c = stored (m_fSmallFormat p) false fl (encode cbPrefix suf dat)).
  { unfold c. rewrite Eb. destruct (Z.eqb_spec itag 0); [unfold itag in *; lia|reflexivity]. }
  assert (Es : skipn (Z.to_nat (m_ctagReserved p)) (view p') = replace_at (Z.to_nat iline) c (node_lines p)).
  { rewrite V. unfold itag. rewrite Z.add_comm, Z2Nat.inj_add by lia. apply skipn_replace_at. rewrite length_view. lia. }
  assert (U := updated_intro p p' (view p') I' F5 F2). cbv zeta in U. rewrite Es, replace_at_map in U.
  unfold nodes. rewrite <- (decode_stored (m_fSmallFormat p) fl cbPrefix suf dat) by auto. rewrite <- Ec. apply U; [|reflexivity| |].
  - eapply keeps_weaken; [|exact K]. unfold outside. cbv beta. lia.
  - rewrite V, nth_replace_at by (rewrite length_view; lia). destruct (Nat.eqb_spec 0 (Z.to_nat itag)); [unfold itag in *; lia|reflexivity].
  - apply forallb_replace_at; [exact Hok|]. rewrite Ec. now apply node_ok_stored.
Qed.

Lemma replace_at_same {A} k (d : A) l : (k < length l)%nat -> replace_at k (nth k l d) l = l.
Proof.
  intros H. apply nth_ext with (d := d) (d' := d); [now apply length_replace_at|].
  intros j _. rewrite nth_replace_at by exact H. destruct (Nat.eqb_spec j k) as [->|]; reflexivity.
Qed.

Section Line.
Context `{Srt : StdSort}.
Variables (p : CPAGE) (iline : Z).
Hypothesis Np : node_page p.
Hypothesis Hi : 0 <= iline < Clines p.
Let itag := iline + m_ctagReserved p.
Let t := PtagFromItag_ p itag.
Let pb := PbFromIb_ p (TAG_Ib p t).
Let cb := TAG_Cb p t.
Let c := content (tag_line p itag).
Let h := if compressed (TAG_FFlags p t) then 2 else 0.
Let cbS := word13 (suffix_part c).
Let cbP := cb_prefix c.
Let kdf := read_kdf p iline.

Lemma line_facts :
  0 <= itag < m_itagMicFree p /\ 1 <= itag /\ h + 2 + cbS < cb /\ 0 <= cbS < 8192 /\ 0 <= cbP < 8192 /\
  h = (if 0 <? cbP then 2 else 0) /\ compressed (TAG_FFlags p t) = (0 <? cbP) /\ cbP <= Z.of_nat (length (prefix_bytes p)) /\
  dCb (prefix (kdf_key kdf)) = cbP /\ (cbP = 0 \/ cbPrefixOverhead < cbP) /\
  nth (Z.to_nat iline) (nodes p) node_nil =
    Node (firstn (Z.to_nat cbP) (prefix_bytes p) ++ load_bytes (pv p) (pb + h + 2) cbS)
      (load_bytes (pv p) (pb + h + 2 + cbS) (cb - h - 2 - cbS)) (TAG_FFlags p t .& (fNDVersion .| fNDDeleted)).
Proof.
  pose proof (node_page_ok p iline Np Hi) as Hok. fold itag in Hok. fold c in Hok. destruct Np as [Inv _].
  pose proof (inv_resv p Inv) as R. assert (Hit : 0 <= itag < m_itagMicFree p /\ 1 <= itag) by (unfold itag, Clines in *; lia).
  destruct (line_sizes p itag (prefix_bytes p) Hok) as (S1 & S2 & S3 & S4 & S5 & S6). fold t cb c h cbS in S1, S2. fold c cbP in S6.
  pose proof Hok as Hc. unfold node_okb in Hc. apply andb_prop in Hc as [_ Hc]. change (fst c) with (TAG_FFlags p t) in Hc. fold cbP in Hc.
  assert (P13 : cbP < 8192).
  { unfold cbP, cb_prefix. destruct (compressed (fst c)); [apply word13_range|lia]. }
  assert (Ez : compressed (TAG_FFlags p t) = false -> cbP = 0).
  { intros E. unfold cbP, cb_prefix. change (fst c) with (TAG_FFlags p t). now rewrite E. }
  assert (Ec : compressed (TAG_FFlags p t) = (0 <? cbP)).
  { destruct (compressed (TAG_FFlags p t)) eqn:E; [|now rewrite Ez]. cbn [negb orb] in Hc. apply Z.ltb_lt in Hc.
    unfold cbPrefixOverhead in Hc. symmetry. apply Z.ltb_lt. lia. }
  repeat split; try lia; auto.
  - unfold h. now rewrite Ec.
  - unfold kdf, read_kdf. cbn [kdf_key prefix]. fold itag. fold t. fold c. fold cbP. rewrite Ec.
    destruct (Z.ltb_spec 0 cbP); [|cbn; lia]. unfold prefix_ref, prefix_bytes in *. destruct (negb (FRootPage p)); [reflexivity|].
    destruct (FSpaceTree p); [reflexivity|]. cbn in S6. lia.
  - destruct (compressed (TAG_FFlags p t)); [right; now apply Z.ltb_lt|left; auto].
  - rewrite nth_nodes by auto. fold itag. now rewrite (line_node p itag _ Hok).
Qed.

(** The line as its own source of bytes. *)
Lemma own_chunk dst src n : pb + 2 <= src -> src + n <= pb + cb -> 0 <= n -> dst <= src ->
  0 <= n /\ load_bytes (pv p) src n = load_bytes (pv p) src n /\
  (forall a, src <= a < src + n -> outside p a \/ in_line p itag a) /\ (n = 0 \/ dst <= src \/ src + n <= pb).
Proof. intros H1 H2 H3 H4. repeat split; auto. intros a Ha. right. unfold in_line. fold t. fold pb. fold cb. lia. Qed.

Lemma kdf_parts : kdf_key kdf = Key (prefix (kdf_key kdf)) (Dref (pb + h + 2) cbS) /\
  kdf_data kdf = Dref (pb + h + 2 + cbS) (cb - h - 2 - cbS) /\ kdf_fFlags kdf = TAG_FFlags p t.
Proof. now repeat split. Qed.

Lemma line_room : 0 <= pb /\ pb + cb <= cbBuffer p /\ cb < 32768 /\ 0 <= cbFree p.
Proof.
  destruct line_facts as (I1 & _ & L1 & L2 & _ & L4 & _). pose proof (proj1 Np) as Inv.
  assert (0 <= h) by (rewrite L4; destruct (0 <? cbP); lia).
  pose proof (line_below p Inv itag I1) as B. fold t in B. fold cb in B. pose proof (ptag_range p Inv itag I1) as T. fold t in T.
  pose proof (TAG_Cb_mask p t) as Mk. assert (mskTagIbCb (m_fSmallFormat p) <= 32767) by (destruct (m_fSmallFormat p); discriminate).
  fold cb in Mk. pose proof (header_size p). pose proof (TAG_Ib_range p t). pose proof (cbFree_range p Inv). unfold pb, PbFromIb_ in *. lia.
Qed.

(** Data from outside the page as a source. *)
Lemma outside_chunk dst d : ref_outside p d -> dst + dCb d <= cbBuffer p ->
  0 <= dCb d /\ data_bytes (pv p) d = load_bytes (pv p) (dPv d) (dCb d) /\
  (forall a, dPv d <= a < dPv d + dCb d -> outside p a \/ in_line p itag a) /\
  (dCb d = 0 \/ dst <= dPv d \/ dPv d + dCb d <= pb).
Proof.
  intros Ho Hd. destruct line_room as (R1 & _). unfold ref_outside, chunk_outside, chunk in Ho.
  repeat split; try lia. intros a Ha. left. unfold outside. lia.
Qed.

(** A node rewritten in place, not larger, from its own bytes and bytes outside
    the page. *)
Lemma rewrite_node rgdata ls fl cbPrefix suf dat :
  concat ls = encode cbPrefix suf dat -> bytes_ok suf -> bytes_ok dat -> 0 <= cbPrefix < 8192 -> Z.of_nat (length suf) < 8192 ->
  compressed fl = (0 <? cbPrefix) -> dat <> [] -> cbPrefix <= Z.of_nat (length (prefix_bytes p)) ->
  cbPrefix = 0 \/ cbPrefixOverhead < cbPrefix -> Z.of_nat (length (encode cbPrefix suf dat)) <= cb ->
  chunks_are (fun a => outside p a \/ in_line p itag a) (pv p) pb pb rgdata ls ->
  exists p', Replace p iline rgdata fl = Some p' /\
    updated p p' (replace_at (Z.to_nat iline)
      (Node (firstn (Z.to_nat cbPrefix) (prefix_bytes p) ++ suf) dat (fl .& (fNDVersion .| fNDDeleted))) (nodes p)).
Proof.
  intros Eb B1 B2 Hp Hs Hf Hd Hpre Hz Hle HC. destruct line_facts as (I1 & _). destruct line_room as (_ & _ & R3 & R4).
  pose proof (proj1 Np) as Inv. apply (replace_node p iline rgdata ls fl cbPrefix suf dat Np Hi) with (2 := Eb); auto using encode_bytes_ok.
  - fold itag. apply (Replace_chunks_in_place p itag rgdata ls fl Inv I1) with (P := fun a => outside p a \/ in_line p itag a);
      rewrite ?Eb; fold t; fold cb; auto; lia.
  - fold itag t cb. lia.
Qed.

(** [NDReplace] with data that is not larger. *)
Lemma NDReplace_spec data : ref_outside p data -> 0 < dCb data <= dCb (kdf_data kdf) ->
  exists p', NDReplace p iline data = Some p' /\
    let n := nth (Z.to_nat iline) (nodes p) node_nil in
    updated p p' (replace_at (Z.to_nat iline) (Node (nd_key n) (data_bytes (pv p) data) (nd_flags n)) (nodes p)).
Proof.
  intros Ho Hd. destruct line_facts as (I1 & I2 & L1 & L2 & L3 & L4 & L5 & L6 & L7 & Lz & L8). pose proof (proj1 Np) as Inv.
  destruct kdf_parts as (K1 & K2 & K3). rewrite K2 in Hd. cbn [dCb] in Hd. pose proof (inv_mem p Inv) as Hm.
  destruct line_room as (R1 & R2 & _). assert (Hh : 0 <= h <= 2) by (rewrite L4; destruct (0 <? cbP); lia).
  unfold NDReplace. rewrite NDIGetKeydataflags_form by auto. fold kdf. cbv zeta. rewrite L8. cbn [nd_key nd_flags].
  unfold CdataNDIKeydataflagsToDataflags. cbn [kdf_key kdf_data kdf_fFlags]. rewrite K3, K1. cbn [prefix suffix]. unfold dFNull. rewrite L7.
  cbn [dCb]. set (suf := load_bytes (pv p) (pb + h + 2) cbS). set (dat := data_bytes (pv p) data).
  assert (Ls : Z.of_nat (length suf) = cbS) by (unfold suf; rewrite length_loaded; lia).
  assert (Ld : Z.of_nat (length dat) = dCb data) by (unfold dat, data_bytes; rewrite length_loaded; lia).
  assert (Eb : concat ((if negb (cbP =? 0) then [le_bytes cbP] else []) ++ [le_bytes cbS; suf; dat]) = encode cbP suf dat).
  { unfold encode. rewrite Ls. destruct (Z.eqb_spec cbP 0), (Z.ltb_spec 0 cbP); try lia; cbn [negb app concat]; now rewrite !app_nil_r. }
  pose proof (length_encode cbP suf dat) as Le. rewrite Ls, Ld in Le. unfold cbPrefixOverhead, cbKeyCount in Le. rewrite <- L4 in Le.
  apply (rewrite_node _ _ _ cbP suf dat) with (1 := Eb); auto; try (now apply load_bytes_ok); try lia; [apply data_nonempty; lia|].
  rewrite !u16_small by lia.
  destruct (Z.eqb_spec cbP 0) as [Ez|Ez]; cbn [negb app chunks_are le_word chunk dPv dCb]; unfold le_bytes; cbn [length].
  - assert (h = 0) by (rewrite L4; destruct (Z.ltb_spec 0 cbP); lia).
    split; [reflexivity|]. split; [apply own_chunk; lia|]. split; [apply outside_chunk; [exact Ho|lia]|exact I].
  - assert (h = 2) by (rewrite L4; destruct (Z.ltb_spec 0 cbP); lia).
    split; [reflexivity|]. split; [reflexivity|]. split; [apply own_chunk; lia|]. split; [apply outside_chunk; [exact Ho|lia]|exact I].
Qed.

(** [NDGrowCbPrefix] changes how the node is stored, not what it is. *)
Lemma NDGrowCbPrefix_spec cbPrefixNew :
  cbP < cbPrefixNew -> cbPrefixOverhead < cbPrefixNew < 8192 -> cbPrefixNew <= cbP + cbS ->
  cbPrefixNew <= Z.of_nat (length (prefix_bytes p)) ->
  firstn (Z.to_nat cbPrefixNew) (nd_key (nth (Z.to_nat iline) (nodes p) node_nil)) = firstn (Z.to_nat cbPrefixNew) (prefix_bytes p) ->
  exists p', NDGrowCbPrefix p iline kdf cbPrefixNew = Some p' /\ updated p p' (nodes p).
Proof.
  intros H1 H2 H3 H4 H5. destruct line_facts as (I1 & I2 & L1 & L2 & L3 & L4 & L5 & L6 & L7 & Lz & L8). pose proof (proj1 Np) as Inv.
  destruct kdf_parts as (K1 & K2 & K3). pose proof (inv_mem p Inv) as Hm. unfold cbPrefixOverhead in H2.
  destruct line_room as (R1 & R2 & _). assert (Hh : 0 <= h <= 2) by (rewrite L4; destruct (0 <? cbP); lia).
  assert (Hg : 2 - h < cbPrefixNew - cbP) by (rewrite L4; destruct (Z.ltb_spec 0 cbP); lia).
  unfold NDGrowCbPrefix, CdataNDIPrefixAndKeydataflagsToDataflags, NDISetCompressed. cbn [kdf_key kdf_data kdf_fFlags].
  rewrite K1, K2, K3. cbn [prefix suffix dPv dCb]. rewrite L7, u16_small by lia.
  destruct (Z.leb_spec cbP cbPrefixNew); [|lia]. destruct (Z.ltb_spec 0 cbPrefixNew); [|lia]. cbn [app].
  set (d := cbPrefixNew - cbP) in *. rewrite u16_small by lia.
  set (suf := load_bytes (pv p) (pb + h + 2 + d) (cbS - d)). set (dat := load_bytes (pv p) (pb + h + 2 + cbS) (cb - h - 2 - cbS)) in *.
  assert (Ls : Z.of_nat (length suf) = cbS - d) by (unfold suf; rewrite length_loaded; lia).
  assert (Ld : Z.of_nat (length dat) = cb - h - 2 - cbS) by (unfold dat; rewrite length_loaded; lia).
  assert (Eb : concat [le_bytes cbPrefixNew; le_bytes (cbS - d); suf; dat] = encode cbPrefixNew suf dat).
  { unfold encode. rewrite Ls. destruct (Z.ltb_spec 0 cbPrefixNew); [|lia]. cbn [concat app]. now rewrite app_nil_r. }
  pose proof (length_encode cbPrefixNew suf dat) as Le. rewrite Ls, Ld in Le. unfold cbPrefixOverhead, cbKeyCount in Le.
  destruct (rewrite_node [le_word cbPrefixNew; le_word (cbS - d); chunk (Dref (pb + h + 2 + d) (cbS - d)); chunk (Dref (pb + h + 2 + cbS) (cb - h - 2 - cbS))]
    _ (TAG_FFlags p t .| fNDCompressed .| fNDCompressed) cbPrefixNew suf dat Eb) as (p' & E & U);
    auto; try (now apply load_bytes_ok); try (unfold cbPrefixOverhead; lia).
  - destruct (Z.ltb_spec 0 cbPrefixNew); [apply compressed_lor|lia].
  - intros E0. rewrite E0 in Ld. cbn in Ld. lia.
  - destruct (Z.ltb_spec 0 cbPrefixNew); lia.
  - cbn [chunks_are le_word chunk dPv dCb]. unfold le_bytes. cbn [length].
    split; [reflexivity|]. split; [reflexivity|]. split; [apply own_chunk; lia|]. split; [apply own_chunk; lia|exact I].
  - exists p'. split; [exact E|]. rewrite !record_flags_lor in U.
    replace (replace_at _ _ (nodes p)) with (nodes p) in U; [exact U|]. symmetry.
    etransitivity; [|apply (replace_at_same (Z.to_nat iline) node_nil); pose proof (length_nodes p Inv); lia]. f_equal. rewrite L8. f_equal.
    rewrite <- H5, L8. cbn [nd_key].
    assert (Es : suf = skipn (Z.to_nat cbPrefixNew) (firstn (Z.to_nat cbP) (prefix_bytes p) ++ load_bytes (pv p) (pb + h + 2) cbS)).
    { rewrite skipn_app, skipn_all2 by (rewrite length_firstn; lia). rewrite length_firstn. cbn [app].
      replace (Z.to_nat cbPrefixNew - Nat.min (Z.to_nat cbP) (length (prefix_bytes p)))%nat with (Z.to_nat d) by lia. now rewrite skipn_load by lia. }
    rewrite Es. apply firstn_skipn.
Qed.

(** ** Flags *)

Lemma set_flags_spec newfl :
  compressed newfl = compressed (TAG_FFlags p t) ->
  updated p (ReplaceFlags p iline newfl) (replace_at (Z.to_nat iline)
    (let n := nth (Z.to_nat iline) (nodes p) node_nil in Node (nd_key n) (nd_data n) (newfl .& (fNDVersion .| fNDDeleted))) (nodes p)).
Proof.
  intros Hc. destruct line_facts as (I1 & I2 & _). pose proof (node_page_ok p iline Np Hi) as Hok. fold itag in Hok. fold c in Hok.
  destruct Np as [Inv Hall]. pose proof (inv_resv p Inv) as R. unfold ReplaceFlags. fold itag.
  destruct (ReplaceFlags_spec p itag newfl Inv I1) as (M & I' & V & K). set (p' := ReplaceFlags_ p itag newfl) in *.
  destruct (mem_only_fields _ _ M) as (F1 & F2 & _ & F4 & F5 & _).
  assert (Ei : (itag =? 0) = false) by (apply Z.eqb_neq; lia). rewrite Ei in V.
  change (l_bytes (tag_line p itag)) with (snd c) in V.
  destruct (stored_flags_only (prefix_bytes p) (m_fSmallFormat p) newfl c) as [D1 D2]; [apply load_bytes_ok, Inv|exact Hok|exact Hc|].
  assert (Es : skipn (Z.to_nat (m_ctagReserved p)) (view p') = replace_at (Z.to_nat iline) (stored (m_fSmallFormat p) false newfl (snd c)) (node_lines p)).
  { rewrite V. unfold itag. unfold Clines in Hi. rewrite Z.add_comm, Z2Nat.inj_add by lia. apply skipn_replace_at. rewrite length_view. lia. }
  assert (U := updated_intro p p' (view p') I' F5 F2). cbv zeta in U. rewrite Es, replace_at_map, D1 in U.
  cbv zeta. rewrite nth_nodes by auto. fold itag c. apply U; [|reflexivity| |].
  - eapply keeps_weaken; [|exact K]. unfold outside. cbv beta. pose proof (header_size p). lia.
  - rewrite V, nth_replace_at by (rewrite length_view; lia). destruct (Nat.eqb_spec 0 (Z.to_nat itag)); [lia|reflexivity].
  - now apply forallb_replace_at.
Qed.
End Line.

(** ** Setting and clearing flags *)

Lemma land_small_0 g : 0 <= g < 4 -> g .& fNDCompressed = 0.
Proof. intros H. assert (g = 0 \/ g = 1 \/ g = 2 \/ g = 3) as [->|[->|[->| ->]]] by lia; reflexivity. Qed.

Lemma land_small_record g : 0 <= g < 4 -> g .& (fNDVersion .| fNDDeleted) = g.
Proof. intros H. assert (g = 0 \/ g = 1 \/ g = 2 \/ g = 3) as [->|[->|[->| ->]]] by lia; reflexivity. Qed.

Section Flags.
Variables (p : CPAGE) (iline fFlag : Z).
Hypothesis Np : node_page p.
Hypothesis Hi : 0 <= iline < Clines p.
Hypothesis Hf : 0 <= fFlag < 4.
Let n := nth (Z.to_nat iline) (nodes p) node_nil.

Lemma NDISetFlag_spec : exists p', NDISetFlag p iline fFlag = Some p' /\
  updated p p' (replace_at (Z.to_nat iline) (Node (nd_key n) (nd_data n) (nd_flags n .| fFlag)) (nodes p)).
Proof.
  pose proof (read_kdf_node p iline Np Hi) as Rn. unfold NDISetFlag. rewrite NDIGetKeydataflags_form by auto.
  eexists. split; [reflexivity|]. pose proof (set_flags_spec p iline Np Hi (kdf_fFlags (read_kdf p iline) .| fFlag)) as U. cbv zeta in U.
  fold n in Rn, U. rewrite <- (rn_flags _ _ _ Rn). rewrite Z.land_lor_distr_l, (land_small_record fFlag Hf) in U. apply U.
  unfold compressed. now rewrite Z.land_lor_distr_l, (land_small_0 fFlag Hf), Z.lor_0_r.
Qed.

Lemma NDIResetFlag_spec : exists p', NDIResetFlag p iline fFlag = Some p' /\
  updated p p' (replace_at (Z.to_nat iline) (Node (nd_key n) (nd_data n) (nd_flags n .& Z.lnot fFlag)) (nodes p)).
Proof.
  pose proof (read_kdf_node p iline Np Hi) as Rn. unfold NDIResetFlag. rewrite NDIGetKeydataflags_form by auto.
  eexists. split; [reflexivity|]. pose proof (set_flags_spec p iline Np Hi (kdf_fFlags (read_kdf p iline) .& Z.lnot fFlag)) as U. cbv zeta in U.
  fold n in Rn, U. rewrite <- (rn_flags _ _ _ Rn), <- Z.land_assoc, (Z.land_comm (fNDVersion .| fNDDeleted)), Z.land_assoc. apply U.
  unfold compressed. rewrite <- Z.land_assoc. do 2 f_equal. f_equal.
  assert (fFlag = 0 \/ fFlag = 1 \/ fFlag = 2 \/ fFlag = 3) as [->|[->|[->| ->]]] by lia; reflexivity.
Qed.
End Flags.
