(* ===== verification/NodeSeek.v ===== *)
(** * Searching a page

    The two binary searches find the same node as a linear scan, on pages whose
    nodes are in order. *)

From Stdlib Require Import ZArith List Lia Bool.
From S2P Require Import Prelude Bits Mem Checksum ChecksumErrors PageChecksum Page PageLayout PageTags PageRead Key KeyProps Node NodeView.
Import ListNotations.

(** ** Ordering of bookmarks *)

(** Key, then data. *)
Definition pcmp (a b : list Z * list Z) : Z := let c := lex (fst a) (fst b) in if c =? 0 then lex (snd a) (snd b) else c.

Lemma pcmp_range a b : -1 <= pcmp a b <= 1.
Proof.
  unfold pcmp. assert (R : forall l1 l2, -1 <= lex l1 l2 <= 1).
  { intros l1. induction l1 as [|x l1 IH]; intros [|y l2]; cbn [lex]; try lia. destruct (x =? y); [apply IH|lia]. }
  pose proof (R (fst a) (fst b)). pose proof (R (snd a) (snd b)). destruct (_ =? 0); lia.
Qed.

(** Less, then less or equal. *)
Lemma pcmp_lt_le a b c : pcmp a b < 0 -> pcmp b c <= 0 -> pcmp a c < 0.
Proof.
  assert (E : forall l1 l2 l3, lex l1 l2 = 0 -> lex l1 l3 = lex l2 l3) by (intros l1 l2 l3 H; apply lex_eq in H; now subst).
  assert (E' : forall l1 l2 l3, lex l2 l3 = 0 -> lex l1 l2 = lex l1 l3) by (intros l1 l2 l3 H; apply lex_eq in H; now subst).
  unfold pcmp. destruct (Z.eqb_spec (lex (fst a) (fst b)) 0) as [A|A], (Z.eqb_spec (lex (fst b) (fst c)) 0) as [B|B]; intros H1 H2.
  - rewrite (E _ _ _ A), B. cbn [Z.eqb]. destruct (Z.eq_dec (lex (snd b) (snd c)) 0) as [D|D]; [now rewrite <- (E' _ _ _ D)|].
    apply (lex_lt_trans _ (snd b)); lia.
  - rewrite (E _ _ _ A). destruct (Z.eqb_spec (lex (fst b) (fst c)) 0); lia.
  - rewrite <- (E' _ _ _ B). destruct (Z.eqb_spec (lex (fst a) (fst b)) 0); lia.
  - assert (lex (fst a) (fst c) < 0) by (apply (lex_lt_trans _ (fst b)); lia).
    destruct (Z.eqb_spec (lex (fst a) (fst c)) 0); lia.
Qed.

(** What the code compares of a node: in a unique tree only the key. *)
Definition bm_of (fUnique : bool) (n : NODE) : list Z * list Z := (nd_key n, if fUnique then [] else nd_data n).
Definition bm_bytes (m : mem) (bm : BOOKMARK) : list Z * list Z := (key_bytes m (bm_key bm), data_bytes m (bm_data bm)).

Definition bm_ok (bm : BOOKMARK) : Prop := key_ok (bm_key bm) /\ data_ok (bm_data bm).

(** The nodes of a leaf page are in strict order. *)
Definition in_order (fUnique : bool) (ns : list NODE) : Prop :=
  forall i j, (i < j < length ns)%nat -> pcmp (bm_of fUnique (nth i ns node_nil)) (bm_of fUnique (nth j ns node_nil)) < 0.

(** ** The leaf search *)

Section Leaf.
Variables (p : CPAGE) (bm : BOOKMARK) (fUnique fDefense : bool).
Hypothesis Np : node_page p.
Hypothesis Hbm : bm_ok bm.
Hypothesis Hord : in_order fUnique (nodes p).
Let node_at (i : Z) : NODE := nth (Z.to_nat i) (nodes p) node_nil.
Let f (i : Z) : Z := pcmp (bm_of fUnique (node_at i)) (bm_bytes (pv p) bm).

(** The node at [i], as the loops read it. *)
Lemma read_at i : 0 <= i < Clines p ->
  exists kdf, NDIGetKeydataflags p i = Some kdf /\ 0 < dCb (kdf_data kdf) /\
    let b := NDGetBookmarkFromKDF kdf fUnique in
    Z.sgn (CmpKeyData (pv p) b bm) = f i /\ Z.sgn (CmpKey (pv p) (bm_key b) (bm_key bm)) = lex (nd_key (node_at i)) (fst (bm_bytes (pv p) bm)) /\
    Z.sgn (CmpData (pv p) (bm_data b) (bm_data bm)) = lex (snd (bm_of fUnique (node_at i))) (snd (bm_bytes (pv p) bm)).
Proof.
  intros Hi. destruct (get_node p i Np Hi) as (kdf & E & [K1 K2 K3 K4 K5]). exists kdf. split; [exact E|]. split; [exact K2|].
  destruct Hbm as [B1 B2]. fold (node_at i) in *.
  assert (Hd : data_ok (bm_data (NDGetBookmarkFromKDF kdf fUnique))) by (unfold data_ok; cbn; destruct fUnique; cbn; lia).
  assert (Ed : data_bytes (pv p) (bm_data (NDGetBookmarkFromKDF kdf fUnique)) = snd (bm_of fUnique (node_at i)))
    by (cbn; destruct fUnique; [reflexivity|exact K4]).
  cbv zeta. rewrite CmpKeyData_spec, CmpKey_spec, CmpData_spec by auto. rewrite Ed. cbn [bm_key NDGetBookmarkFromKDF]. rewrite K3. auto.
Qed.

Lemma f_before i j : 0 <= i < j -> j < Clines p -> f j <= 0 -> f i < 0.
Proof.
  intros Hi Hj Hf. apply (pcmp_lt_le _ (bm_of fUnique (node_at j))); [|exact Hf]. apply Hord.
  pose proof (length_nodes p (proj1 Np)). lia.
Qed.

(** What the loop returns: the first node not less than the bookmark, or the
    last node when there is none. *)
Definition found (iline compare : Z) (bmNode : BOOKMARK) : Prop :=
  let i := if iline <? 0 then Clines p - 1 else iline in
  (exists kdf, NDIGetKeydataflags p i = Some kdf /\ bmNode = NDGetBookmarkFromKDF kdf fUnique /\ compare = CmpKeyData (pv p) bmNode bm) /\
  (forall j, 0 <= j < (if iline <? 0 then Clines p else iline) -> f j < 0) /\
  (iline = -1 \/ 0 <= iline < Clines p /\ 0 <= f iline).

Lemma seek_loop_spec fuel : forall first last compare bmNode,
  0 <= first <= last -> last < Clines p -> last - first + 1 < Z.of_nat fuel ->
  (forall j, 0 <= j < first -> f j < 0) -> (last = Clines p - 1 \/ 0 < f last) ->
  exists iline compare' bmNode', seek_loop fuel fDefense p bm fUnique first last compare bmNode = Some (iline, compare', bmNode') /\
    found iline compare' bmNode'.
Proof.
  induction fuel as [|fuel IH]; intros first last compare bmNode Hfl Hl Hfuel Hlo Hhi; [lia|]. cbn [seek_loop].
  destruct (Z.leb_spec first last); [|lia]. set (mid := (first + last) / 2). assert (Hm : first <= mid <= last) by (unfold mid; zlia).
  destruct (read_at mid ltac:(lia)) as (kdf & E & Hd & Hc & _). cbv zeta in Hc. rewrite E. destruct (Z.ltb_spec 0 (dCb (kdf_data kdf))); [|lia].
  cbn [orb]. set (b := NDGetBookmarkFromKDF kdf fUnique) in *. set (cmp := CmpKeyData (pv p) b bm) in *.
  assert (Hhit : 0 <= f mid -> (forall j, 0 <= j < mid -> f j < 0) -> found mid cmp b).
  { intros G0 G1. unfold found. destruct (Z.ltb_spec mid 0); [lia|]. split; [now exists kdf|]. split; [exact G1|]. right. lia. }
  destruct (Z.ltb_spec cmp 0).
  - assert (Hneg : forall j, 0 <= j < mid + 1 -> f j < 0).
    { intros j Hj. destruct (Z.eq_dec j mid) as [->|]; [lia|]. apply (f_before j mid); lia. }
    destruct (Z.le_gt_cases (mid + 1) last) as [G|G].
    + apply IH; auto; lia.
    + assert (mid = last) as Em by lia. destruct fuel as [|fuel']; [lia|]. cbn [seek_loop]. destruct (Z.leb_spec (mid + 1) last); [lia|].
      exists (-1), cmp, b. split; [reflexivity|]. assert (Hlast : last = Clines p - 1) by (rewrite <- Em in *; lia).
      unfold found. cbn [Z.ltb Z.compare]. split; [exists kdf; rewrite <- Hlast, <- Em; auto|]. split; [intros j Hj; apply Hneg; lia|now left].
  - destruct (Z.eqb_spec 0 cmp) as [Ez|Ez].
    + exists mid, cmp, b. split; [reflexivity|]. apply Hhit; [lia|]. intros j Hj. apply (f_before j mid); lia.
    + destruct (Z.eqb_spec mid first) as [Ef|Ef].
      * exists mid, cmp, b. split; [reflexivity|]. apply Hhit; [lia|]. rewrite Ef. exact Hlo.
      * apply IH; auto; try lia. unfold mid in *. zlia.
Qed.

(** The comparison the search reports. *)
Definition reported (n : NODE) : Z :=
  if Z.of_nat (length (snd (bm_bytes (pv p) bm))) =? 0 then lex (nd_key n) (fst (bm_bytes (pv p) bm))
  else pcmp (bm_of fUnique n) (bm_bytes (pv p) bm).

(** The first node that is not less than the bookmark. *)
Definition first_geq (iline : Z) : Prop :=
  (iline = -1 /\ (forall j, 0 <= j < Clines p -> f j < 0)) \/
  (0 <= iline < Clines p /\ 0 <= f iline /\ (forall j, 0 <= j < iline -> f j < 0)).

Lemma first_geq_unique i j : first_geq i -> first_geq j -> i = j.
Proof.
  intros [(-> & A)|(A1 & A2 & A3)] [(-> & B)|(B1 & B2 & B3)]; try reflexivity; try (specialize (A j); lia); try (specialize (B i); lia).
  destruct (Z.lt_trichotomy i j) as [L|[->|L]]; [|reflexivity|]; [specialize (B3 i)|specialize (A3 j)]; lia.
Qed.

Lemma data_empty : (0 =? dCb (bm_data bm)) = (Z.of_nat (length (snd (bm_bytes (pv p) bm))) =? 0).
Proof.
  destruct Hbm as [_ B]. red in B. cbn [snd bm_bytes]. unfold data_bytes. rewrite length_loaded, Z.max_r by lia. apply Z.eqb_sym.
Qed.

Lemma reported_sign compare kdf i : let b := NDGetBookmarkFromKDF kdf fUnique in
  compare = CmpKeyData (pv p) b bm -> Z.sgn compare = f i ->
  Z.sgn (CmpKey (pv p) (bm_key b) (bm_key bm)) = lex (nd_key (node_at i)) (fst (bm_bytes (pv p) bm)) ->
  Z.sgn (if negb (0 =? compare) && (0 =? dCb (bm_data bm)) then CmpKey (pv p) (bm_key b) (bm_key bm) else compare) = reported (node_at i).
Proof.
  intros b Ec Hf Hk. unfold reported. rewrite data_empty. fold (f i). destruct (Z.eqb_spec (Z.of_nat (length (snd (bm_bytes (pv p) bm)))) 0) as [E|E].
  - rewrite andb_true_r. destruct (Z.eqb_spec 0 compare) as [Ez|Ez]; cbn [negb]; [|exact Hk].
    rewrite <- Ez in *. cbn [Z.sgn] in *. unfold f, pcmp in Hf. cbn [fst bm_of] in Hf.
    destruct (Z.eqb_spec (lex (nd_key (node_at i)) (fst (bm_bytes (pv p) bm))) 0); lia.
  - rewrite andb_false_r. exact Hf.
Qed.

Lemma IlineNDISeekGEQ_spec : 0 < Clines p ->
  exists iline c, IlineNDISeekGEQ fDefense p bm fUnique = Some (iline, c) /\ first_geq iline /\
    Z.sgn c = reported (node_at (if iline <? 0 then Clines p - 1 else iline)).
Proof.
  intros Hn. unfold IlineNDISeekGEQ. cbv zeta.
  destruct (seek_loop_spec (S (Z.to_nat (Clines p))) 0 (Clines p - 1) 0 (Bookmark KEY_Nullify dNull)) as (iline & cmp & b & -> & F); try lia.
  eexists _, _. split; [reflexivity|]. destruct F as ((kdf & E & -> & Ec) & Hlt & Hat). split.
  - destruct Hat as [->|[H1 H2]]; [left; split; [reflexivity|exact Hlt]|]. right. destruct (Z.ltb_spec iline 0); [lia|]. auto.
  - set (i := if iline <? 0 then Clines p - 1 else iline) in *.
    assert (Hi : 0 <= i < Clines p) by (unfold i; destruct (Z.ltb_spec iline 0); lia).
    destruct (read_at i Hi) as (kdf' & E' & _ & R1 & R2 & _). rewrite E in E'. injection E' as <-. cbv zeta in R1, R2. rewrite <- Ec in R1.
    now apply reported_sign.
Qed.

(** ** The linear scan *)

Lemma seek_debug_loop_spec n : forall i, 0 <= i -> i + Z.of_nat n = Clines p -> (forall j, 0 <= j < i -> f j < 0) ->
  exists iline oc, seek_debug_loop n p bm fUnique i = Some (iline, oc) /\ first_geq iline /\
    (0 <= iline -> exists c, oc = Some c /\ Z.sgn c = reported (node_at iline)).
Proof.
  induction n as [|n IH]; intros i H0 Hn Hlt; cbn [seek_debug_loop].
  { exists (-1), None. split; [reflexivity|]. split; [left; split; [reflexivity|]|lia]. intros j Hj. apply Hlt. lia. }
  destruct (read_at i ltac:(lia)) as (kdf & E & _ & R1 & R2 & R3). cbv zeta in R1, R2, R3. unfold NDIGetBookmark. rewrite E.
  set (b := NDGetBookmarkFromKDF kdf fUnique) in *. set (ck := CmpKey (pv p) (bm_key b) (bm_key bm)) in *. rewrite Z.eqb_sym, data_empty.
  assert (Ef : f i = if Z.sgn ck =? 0 then lex (snd (bm_of fUnique (node_at i))) (snd (bm_bytes (pv p) bm)) else Z.sgn ck)
    by (rewrite R2; reflexivity).
  assert (Hhit : 0 <= f i -> first_geq i) by (intros Hf; right; repeat split; auto; lia).
  assert (Hrec : f i < 0 -> exists iline oc, seek_debug_loop n p bm fUnique (i + 1) = Some (iline, oc) /\ first_geq iline /\
    (0 <= iline -> exists c, oc = Some c /\ Z.sgn c = reported (node_at iline))).
  { intros Hf. apply IH; [lia|lia|]. intros j Hj. destruct (Z.eq_dec j i) as [->|]; [exact Hf|apply Hlt; lia]. }
  destruct (Z.ltb_spec ck 0); [apply Hrec; destruct (Z.eqb_spec (Z.sgn ck) 0); lia|].
  assert (Hr : reported (node_at i) = if Z.of_nat (length (snd (bm_bytes (pv p) bm))) =? 0 then Z.sgn ck else f i) by (rewrite R2; reflexivity).
  destruct (Z.eqb_spec (Z.of_nat (length (snd (bm_bytes (pv p) bm)))) 0) as [De|De].
  - rewrite orb_true_r. exists i, (Some ck). split; [reflexivity|]. split; [|intros _; exists ck; auto]. apply Hhit. rewrite Ef.
    destruct (snd (bm_bytes (pv p) bm)) as [|? ?]; [|cbn in De; lia]. destruct (snd (bm_of fUnique (node_at i))) as [|? ?]; cbn [lex]; destruct (_ =? 0); lia.
  - rewrite orb_false_r. destruct (Z.ltb_spec 0 ck).
    + exists i, (Some ck). split; [reflexivity|]. assert (f i = Z.sgn ck) by (rewrite Ef; destruct (Z.eqb_spec (Z.sgn ck) 0); lia).
      split; [apply Hhit; lia|]. intros _. exists ck. split; [reflexivity|]. lia.
    + assert (ck = 0) as Ek by lia. rewrite Ek in Ef. cbn [Z.sgn Z.eqb] in Ef. rewrite <- R3 in Ef.
      destruct (Z.leb_spec 0 (CmpData (pv p) (bm_data b) (bm_data bm))); [|apply Hrec; lia].
      eexists i, (Some _). split; [reflexivity|]. split; [apply Hhit; lia|]. intros _. eexists. split; [reflexivity|]. lia.
Qed.
End Leaf.

(** ** The internal search *)

(** Nodes of an internal page: the keys of all but the last are in strict
    order; the last is the null key, which stands for infinity, or larger than
    what is sought. *)
Definition separators_in_order (ns : list NODE) : Prop :=
  forall i j, (i < j)%nat -> (S j < length ns)%nat -> lex (nd_key (nth i ns node_nil)) (nd_key (nth j ns node_nil)) < 0.

Section Internal.
Variables (p : CPAGE) (bm : BOOKMARK).
Hypothesis Np : node_page p.
Hypothesis Hroot : FRootPage p = true -> forallb (fun c => negb (compressed (fst c))) (node_lines p) = true.
Hypothesis Hbm : bm_ok bm.
Hypothesis Hn : 0 < Clines p.
Hypothesis Hord : separators_in_order (nodes p).
Let node_at (i : Z) : NODE := nth (Z.to_nat i) (nodes p) node_nil.
Let target : list Z := key_bytes (pv p) (bm_key bm) ++ data_bytes (pv p) (bm_data bm).
Let g (i : Z) : Z := lex (nd_key (node_at i)) target.
Let last_line := Clines p - 1.
Hypothesis Hlast : nd_key (node_at last_line) = [] \/ 0 < g last_line.
Hypothesis Hnull : KEY_FNull (bm_key bm) = true ->
  target = [] /\ forall i, 0 <= i < last_line -> nd_key (node_at i) <> [].

(** The prefix of a node, which the search takes from the start of the header. *)
Lemma internal_prefix i : 0 <= i < Clines p ->
  let n := cb_prefix (content (tag_line p (i + m_ctagReserved p))) in
  n <= ln_cb (GetPtrExternalHeader p) /\
  data_bytes (pv p) (Dref (line_addr (ln_pv (GetPtrExternalHeader p))) n) = firstn (Z.to_nat n) (prefix_bytes p).
Proof.
  intros Hi n. pose proof (node_page_ok p i Np Hi) as Hok. pose proof (proj1 Np) as Inv.
  destruct (line_sizes p _ _ Hok) as (_ & _ & _ & _ & _ & S6). fold n in S6. pose proof (TAG_Cb_range p (PtagFromItag_ p 0)) as R.
  destruct (prefix_ref_bytes p n Inv S6) as [_ D]. cbv zeta in D. unfold prefix_ref, prefix_bytes in *. destruct (FRootPage p) eqn:Er; cbn [negb] in *.
  - assert (En : n = 0).
    { specialize (Hroot eq_refl). rewrite forallb_forall in Hroot. pose proof (length_node_lines p Inv) as L.
      assert (Hin : In (nth (Z.to_nat i) (node_lines p) no_line) (node_lines p)) by (apply nth_In; lia).
      apply Hroot in Hin. rewrite nth_node_line in Hin by auto. unfold n, cb_prefix. now destruct (compressed _). }
    rewrite En. split; [cbn; lia|reflexivity].
  - split; [|exact D]. rewrite header_line, length_loaded in S6 by exact Inv. cbn. lia.
Qed.

Lemma internal_line i : 0 <= i < Clines p ->
  exists kdf, NDILineToKeydataflags pgnbcNoChecks p (GetPtr p i) (line_addr (ln_pv (GetPtrExternalHeader p))) = Some (kdf, JET_errSuccess) /\
    dCb (prefix (kdf_key kdf)) <= ln_cb (GetPtrExternalHeader p) /\ dCb (suffix (kdf_key kdf)) < ln_cb (GetPtr p i) /\
    line_addr (ln_pv (GetPtr p i)) + ln_cb (GetPtr p i) < g_cbPageMax /\
    Z.sgn (CmpKeyWithKeyData (pv p) (kdf_key kdf) bm) = g i.
Proof.
  intros Hi. pose proof (node_page_ok p i Np Hi) as Hok. pose proof (proj1 Np) as Inv. destruct (internal_prefix i Hi) as [P1 P2]. cbv zeta in P1, P2.
  set (itag := i + m_ctagReserved p) in *.
  set (t := PtagFromItag_ p itag). pose proof (line_read p itag _ Hok pgnbcNoChecks (line_addr (ln_pv (GetPtrExternalHeader p)))) as R.
  destruct (line_sizes p itag _ Hok) as (S1 & S2 & S3 & S4 & S5 & S6). fold t in S1, S3, S4, S5, R.
  set (c := content (tag_line p itag)) in *. set (h := if compressed (TAG_FFlags p t) then 2 else 0) in *.
  set (pb := PbFromIb_ p (TAG_Ib p t)) in *. eexists. split; [exact R|]. cbn [kdf_key prefix suffix dCb].
  pose proof (inv_resv p Inv) as Rv. assert (Hit : 0 <= itag < m_itagMicFree p) by (unfold itag, Clines in *; lia).
  pose proof (line_below p Inv itag Hit) as B. fold t in B. pose proof (ptag_range p Inv itag Hit) as T. fold t in T.
  pose proof (inv_size p Inv). pose proof (inv_buf p Inv).
  assert (Ecb : ln_cb (GetPtr p i) = TAG_Cb p t) by reflexivity. rewrite Ecb.
  assert (Epb : line_addr (ln_pv (GetPtr p i)) = pb).
  { unfold GetPtr, GetPtr_NoChecks. fold itag. fold t. cbn [ln_pv]. destruct (Z.eqb_spec (TAG_Cb p t) 0); [lia|reflexivity]. }
  rewrite Epb. split; [exact P1|]. split; [lia|]. split; [unfold g_cbPageMax, pb, PbFromIb_; lia|]. destruct Hbm as [B1 B2].
  rewrite CmpKeyWithKeyData_spec by (auto; split; unfold data_ok; cbn [prefix suffix dCb]; lia). fold target. unfold g. f_equal.
  unfold node_at. rewrite nth_nodes by auto. fold itag. rewrite (line_node p itag _ Hok). cbn [nd_key]. unfold key_bytes. cbn [prefix suffix].
  now rewrite P2.
Qed.

Lemma g_before i j : 0 <= i < j -> j < last_line -> g j <= 0 -> g i < 0.
Proof.
  intros Hi Hj Hg. unfold last_line in Hj. assert (L : lex (nd_key (node_at i)) (nd_key (node_at j)) < 0).
  { apply Hord; [lia|]. pose proof (length_nodes p (proj1 Np)). lia. }
  unfold g in *. destruct (Z.eq_dec (lex (nd_key (node_at j)) target) 0) as [E|E]; [apply lex_eq in E; now rewrite <- E|].
  apply (lex_lt_trans _ (nd_key (node_at j))); lia.
Qed.

(** What the loop returns: the first node not less than the bookmark, the last
    one standing for infinity. *)
Definition child (i compare : Z) : Prop :=
  0 <= i <= last_line /\ (forall j, 0 <= j < i -> g j < 0) /\ Z.sgn compare = g i /\ (i < last_line -> 0 <= g i).

Lemma seek_internal_loop_spec fuel : forall first last mid0 compare,
  0 <= first <= last -> last <= last_line -> last - first + 1 < Z.of_nat fuel ->
  (forall j, 0 <= j < first -> g j < 0) -> (last = last_line \/ 0 < g last) ->
  exists i compare', seek_internal_loop fuel p bm (GetPtrExternalHeader p) first last mid0 compare = Some (i, compare') /\ child i compare'.
Proof.
  induction fuel as [|fuel IH]; intros first last mid0 compare Hfl Hl Hfuel Hlo Hhi; [lia|]. cbn [seek_internal_loop].
  destruct (Z.leb_spec first last); [|lia]. set (mid := (first + last) / 2). assert (Hm : first <= mid <= last) by (unfold mid; zlia).
  destruct (internal_line mid) as (kdf & -> & E1 & E2 & E3 & Hc); [unfold last_line in *; lia|].
  destruct (Z.leb_spec (dCb (prefix (kdf_key kdf))) (ln_cb (GetPtrExternalHeader p))); [|lia].
  destruct (Z.ltb_spec (dCb (suffix (kdf_key kdf))) (ln_cb (GetPtr p mid))); [|lia].
  destruct (Z.ltb_spec (line_addr (ln_pv (GetPtr p mid)) + ln_cb (GetPtr p mid)) g_cbPageMax); [|lia]. cbn [andb].
  set (cmp := CmpKeyWithKeyData (pv p) (kdf_key kdf) bm) in *.
  assert (Hbefore : g mid <= 0 -> forall j, 0 <= j < mid -> g j < 0).
  { intros Hg j Hj. destruct (Z.lt_ge_cases j first); [now apply Hlo|]. apply (g_before j mid); try lia. unfold mid in *. zlia. }
  destruct (Z.ltb_spec cmp 0).
  - destruct (Z.le_gt_cases (mid + 1) last) as [G|G].
    + apply IH; auto; try lia. intros j Hj. destruct (Z.eq_dec j mid) as [->|]; [lia|]. apply Hbefore; lia.
    + assert (mid = last) as Em by lia. destruct fuel as [|fuel']; [lia|]. cbn [seek_internal_loop]. destruct (Z.leb_spec (mid + 1) last); [lia|].
      exists mid, cmp. split; [reflexivity|]. assert (Hlast' : last = last_line) by (rewrite <- Em in *; lia).
      repeat split; try lia. apply Hbefore. lia.
  - destruct (Z.eqb_spec 0 cmp) as [Ez|Ez].
    + exists mid, cmp. split; [reflexivity|]. repeat split; try lia. apply Hbefore. lia.
    + destruct (Z.eqb_spec mid first) as [Ef|Ef].
      * exists mid, cmp. split; [reflexivity|]. repeat split; try lia. rewrite Ef. exact Hlo.
      * apply IH; auto; try lia. unfold mid in *. zlia.
Qed.

Lemma target_null : KEY_FNull (bm_key bm) = false -> target <> [].
Proof.
  clear Hnull Hlast Hord Hroot Hn Np. intros Hk E. apply app_eq_nil in E as [E _]. destruct Hbm as [B1 _]. pose proof (length_key_bytes (pv p) _ B1) as L. rewrite E in L.
  cbn in L. destruct B1 as [B1 B2]. red in B1, B2. unfold KEY_FNull, dFNull, KEY_Cb in *.
  destruct (Z.eqb_spec (dCb (prefix (bm_key bm))) 0), (Z.eqb_spec (dCb (suffix (bm_key bm))) 0); cbn in Hk; try discriminate; lia.
Qed.

Lemma IlineNDISeekGEQInternal_spec : exists i c, IlineNDISeekGEQInternal p bm = Some (i, c) /\
  0 <= i <= last_line /\ (forall j, 0 <= j < i -> g j < 0) /\ (i < last_line -> 0 <= g i) /\
  c = if (i <? last_line) && (g i =? 0) then 0 else 1.
Proof.
  unfold IlineNDISeekGEQInternal. cbv zeta.
  assert (Hh : ln_cb (GetPtrExternalHeader p) < g_cbPageMax).
  { change (TAG_Cb p (PtagFromItag_ p 0) < 32768). pose proof (TAG_Cb_mask p (PtagFromItag_ p 0)).
    assert (mskTagIbCb (m_fSmallFormat p) <= 32767) by (destruct (m_fSmallFormat p); discriminate). lia. }
  destruct (Z.ltb_spec (ln_cb (GetPtrExternalHeader p)) g_cbPageMax); [|lia].
  destruct (seek_internal_loop_spec (S (Z.to_nat (Clines p))) 0 (Clines p - 1) 0 0) as (i & cmp & -> & C1 & C2 & C3 & C4); try (unfold last_line; lia).
  eexists i, _. split; [reflexivity|]. repeat split; auto; try lia.
  assert (Ez : (0 =? cmp) = (g i =? 0)) by (rewrite <- C3; destruct (Z.eqb_spec 0 cmp), (Z.eqb_spec (Z.sgn cmp) 0); lia || reflexivity).
  rewrite Ez. destruct (KEY_FNull (bm_key bm)) eqn:Ek; cbn [negb].
  - rewrite andb_false_r. destruct (Hnull eq_refl) as [Ht Hs]. destruct (Z.ltb_spec i last_line); [|reflexivity]. cbn [andb].
    destruct (Z.eqb_spec (g i) 0) as [E|]; [|reflexivity]. unfold g in E. rewrite Ht in E. apply lex_eq in E. now apply Hs in E.
  - rewrite andb_true_r. destruct (Z.ltb_spec i last_line); [reflexivity|]. cbn [andb]. assert (i = last_line) as -> by lia.
    destruct (Z.eqb_spec (g last_line) 0) as [E|]; [|reflexivity]. exfalso. destruct Hlast as [Hl|]; [|lia].
    unfold g in E. rewrite Hl in E. apply lex_eq in E. now apply (target_null Ek).
Qed.

(** ** The linear scan of an internal page *)

Lemma seek_internal_debug_spec n : forall i, 0 <= i -> i + Z.of_nat n = last_line -> (forall j, 0 <= j < i -> g j < 0) ->
  exists i' c, seek_internal_debug_loop n p bm i = Some (i', c) /\
    0 <= i' <= last_line /\ (forall j, 0 <= j < i' -> g j < 0) /\ (i' < last_line -> 0 <= g i') /\
    Z.sgn c = if (i' <? last_line) && (g i' =? 0) then 0 else 1.
Proof.
  induction n as [|n IH]; intros i H0 Hi Hlt; cbn [seek_internal_debug_loop].
  { exists i, 1. split; [reflexivity|]. repeat split; auto; try lia. destruct (Z.ltb_spec i last_line); [lia|reflexivity]. }
  destruct (get_node p i Np) as (kdf & -> & [K1 K2 K3 K4 K5]); [unfold last_line in *; lia|]. destruct Hbm as [B1 B2].
  pose proof (CmpKeyWithKeyData_spec (pv p) (kdf_key kdf) bm K1 B1 B2) as C. rewrite K3 in C. fold (node_at i) in C. fold target in C. fold (g i) in C.
  destruct (Z.ltb_spec (CmpKeyWithKeyData (pv p) (kdf_key kdf) bm) 0).
  - apply IH; try lia. intros j Hj. destruct (Z.eq_dec j i) as [->|]; [lia|apply Hlt; lia].
  - eexists i, _. split; [reflexivity|]. repeat split; auto; try lia. rewrite C. destruct (Z.ltb_spec i last_line); [|lia]. cbn [andb].
    destruct (Z.eqb_spec (g i) 0); lia.
Qed.

Lemma child_unique i i' :
  0 <= i <= last_line -> (forall j, 0 <= j < i -> g j < 0) -> (i < last_line -> 0 <= g i) ->
  0 <= i' <= last_line -> (forall j, 0 <= j < i' -> g j < 0) -> (i' < last_line -> 0 <= g i') -> i = i'.
Proof.
  intros A1 A2 A3 B1 B2 B3. destruct (Z.lt_trichotomy i i') as [L|[->|L]]; [|reflexivity|]; [specialize (B2 i)|specialize (A2 i')]; lia.
Qed.

(** ** Descending *)

Lemma ErrNDISeekInternalPage_spec iline0 : exists err i, ErrNDISeekInternalPage p iline0 bm = Some (err, i) /\
  (err = JET_errSuccess \/ err = wrnNDFoundGreater) /\ 0 <= i <= last_line /\
  (forall j, 0 <= j < i -> g j <= 0) /\ (i < last_line -> 0 < g i) /\
  (err = JET_errSuccess <-> 0 < i /\ g (i - 1) = 0).
Proof.
  destruct IlineNDISeekGEQInternal_spec as (i & c & E & H1 & H2 & H3 & Hc). unfold ErrNDISeekInternalPage. rewrite E. fold last_line.
  destruct (Z.ltb_spec i last_line) as [L|L]; cbn [andb] in Hc.
  - destruct (Z.eqb_spec (g i) 0) as [Eg|Eg]; subst c; cbn [Z.eqb].
    + destruct (Z.leb_spec last_line i); [lia|]. eexists _, _. split; [reflexivity|]. split; [now left|]. split; [lia|].
      split; [intros j Hj; destruct (Z.eq_dec j i) as [->|]; [lia|pose proof (H2 j); lia]|]. split.
      * intros Hi. destruct (Z.lt_ge_cases 0 (g (i + 1))); [assumption|]. pose proof (g_before i (i + 1)). lia.
      * replace (i + 1 - 1) with i by lia. split; [lia|reflexivity].
    + eexists _, _. split; [reflexivity|]. split; [now right|]. split; [lia|]. split; [intros j Hj; pose proof (H2 j); lia|]. split; [lia|].
      split; [discriminate|]. intros [Hi Hg]. pose proof (H2 (i - 1)). lia.
  - subst c. cbn [Z.eqb]. eexists _, _. split; [reflexivity|]. split; [now right|]. split; [lia|]. split; [intros j Hj; pose proof (H2 j); lia|].
    split; [lia|]. split; [discriminate|]. intros [Hi Hg]. pose proof (H2 (i - 1)). lia.
Qed.
End Internal.

(** ** The number of steps *)

(** More fuel does not change the result. *)
Lemma seek_loop_mono fDefense p bm fUnique fuel : forall fuel' first last compare b r, (fuel <= fuel')%nat ->
  seek_loop fuel fDefense p bm fUnique first last compare b = Some r ->
  seek_loop fuel' fDefense p bm fUnique first last compare b = Some r.
Proof.
  induction fuel as [|fuel IH]; intros [|fuel'] first last compare b r Hf E; cbn [seek_loop] in *; try discriminate; [lia|].
  destruct (first <=? last); [|exact E]. destruct (NDIGetKeydataflags p ((first + last) / 2)) as [kdf|]; [|discriminate].
  destruct (_ || _); [|discriminate]. destruct (_ <? 0); [apply IH; [lia|exact E]|].
  destruct (0 =? _); [exact E|]. destruct (_ =? first); [exact E|]. apply IH; [lia|exact E].
Qed.

(** The search is logarithmic: a range of at most [2 ^ k] lines takes at most
    [k + 2] rounds, whatever the order of the nodes. *)
Lemma seek_loop_steps fDefense p bm fUnique : node_page p -> forall k first last compare b,
  0 <= first -> last < Clines p -> last - first + 1 <= 2 ^ Z.of_nat k ->
  exists r, seek_loop (k + 2) fDefense p bm fUnique first last compare b = Some r.
Proof.
  intros Np. induction k as [|k IH]; intros first last compare b Hf Hl Hs.
  - cbn [Nat.add seek_loop]. change (2 ^ Z.of_nat 0) with 1 in Hs. destruct (Z.leb_spec first last); [|eauto].
    assert (last = first) as -> by lia. replace ((first + first) / 2) with first by zlia.
    destruct (get_node p first Np ltac:(lia)) as (kdf & -> & [_ K _ _ _]). destruct (Z.ltb_spec 0 (dCb (kdf_data kdf))); [|lia]. cbn [orb].
    rewrite Z.eqb_refl. destruct (Z.leb_spec (first + 1) first); [lia|]. destruct (_ <? 0); [eauto|]. destruct (0 =? _); eauto.
  - replace (2 ^ Z.of_nat (S k)) with (2 * 2 ^ Z.of_nat k) in Hs by (rewrite Nat2Z.inj_succ, Z.pow_succ_r; lia).
    cbn [Nat.add seek_loop]. destruct (Z.leb_spec first last); [|eauto]. set (mid := (first + last) / 2). assert (Hm : first <= mid <= last) by (unfold mid; zlia).
    destruct (get_node p mid Np ltac:(lia)) as (kdf & -> & [_ K _ _ _]). destruct (Z.ltb_spec 0 (dCb (kdf_data kdf))); [|lia]. cbn [orb].
    assert (H2 : last - mid <= 2 ^ Z.of_nat k /\ mid - first + 1 <= 2 ^ Z.of_nat k) by (unfold mid; zlia).
    destruct (_ <? 0); [apply IH; lia|]. destruct (0 =? _); [eauto|]. destruct (Z.eqb_spec mid first); [eauto|]. apply IH; lia.
Qed.

(** The fuel of [IlineNDISeekGEQ] is enough. *)
Lemma seek_loop_lines fDefense p bm fUnique : node_page p ->
  exists r, seek_loop (S (Z.to_nat (Clines p))) fDefense p bm fUnique 0 (Clines p - 1) 0 (Bookmark KEY_Nullify dNull) = Some r.
Proof.
  intros Np. destruct (Z.le_gt_cases (Clines p) 0) as [H|H].
  { cbn [seek_loop]. destruct (Z.leb_spec 0 (Clines p - 1)); [lia|eauto]. }
  assert (E : forall n, (1 <= n)%nat -> Z.of_nat n <= 2 ^ Z.of_nat (n - 1)).
  { intros n Hn. replace (Z.of_nat n) with (Z.succ (Z.of_nat (n - 1))) by lia. apply Z.le_succ_l, Z.pow_gt_lin_r; lia. }
  set (n := Z.to_nat (Clines p)). specialize (E n ltac:(lia)).
  destruct (seek_loop_steps fDefense p bm fUnique Np (n - 1) 0 (Clines p - 1) 0 (Bookmark KEY_Nullify dNull)) as (r & R); try lia.
  exists r. replace (S n) with (n - 1 + 2)%nat by lia. exact R.
Qed.
