(* ===== verification/NodeSpec.v ===== *)
(** * The abstract page of nodes

    A page of nodes as a list of keys, data and flags, and the operations of
    the node layer as updates of that list.  [nd_legal] is what the callers of
    the node layer guarantee: positions inside the page, data outside it, a
    prefix that the page shares, and room. *)

From Stdlib Require Import ZArith List Lia Bool.
From S2P Require Import Prelude Bits Mem Checksum ChecksumErrors PageChecksum Page PageLayout PageTags PageTagArray PageRead PageChunks Key KeyProps Node NodeView NodeOps.
Import ListNotations.

Inductive node_op :=
  | NdInsert (iline : Z) (kdf : KEYDATAFLAGS) (cbPrefix : Z)
  | NdDelete (iline : Z)
  | NdBulkDelete (iline : Z)                       (* from [iline] to the end *)
  | NdReplace (iline : Z) (data : DATAREF)
  | NdGrowCbPrefix (iline cbPrefixNew : Z)
  | NdSetFlag (iline fFlag : Z)
  | NdResetFlag (iline fFlag : Z).

Section Exec.
Context `{Srt : StdSort}.

Definition nd_exec (p : CPAGE) (o : node_op) : option CPAGE :=
  match o with
  | NdInsert iline kdf cbPrefix => NDInsert_prefix p iline kdf cbPrefix
  | NdDelete iline => Some (NDDelete p iline)
  | NdBulkDelete iline => Some (NDBulkDelete p iline (Clines p - iline))
  | NdReplace iline data => NDReplace p iline data
  | NdGrowCbPrefix iline cbPrefixNew => let? kdfCurr := NDIGetKeydataflags p iline in NDGrowCbPrefix p iline kdfCurr cbPrefixNew
  | NdSetFlag iline fFlag => NDISetFlag p iline fFlag
  | NdResetFlag iline fFlag => NDIResetFlag p iline fFlag
  end.

Fixpoint nd_run (p : CPAGE) (ops : list node_op) : option CPAGE :=
  match ops with [] => Some p | o :: ops => let? p := nd_exec p o in nd_run p ops end.
End Exec.

(** ** The same on lists; [m] is the memory outside the page *)

Definition a_node_exec (m : mem) (ns : list NODE) (o : node_op) : list NODE :=
  let at_ i := nth (Z.to_nat i) ns node_nil in
  match o with
  | NdInsert iline kdf _ => insert_at (Z.to_nat iline) (node_of m kdf) ns
  | NdDelete iline => delete_at (Z.to_nat iline) ns
  | NdBulkDelete iline => firstn (Z.to_nat iline) ns
  | NdReplace iline data => replace_at (Z.to_nat iline) (Node (nd_key (at_ iline)) (data_bytes m data) (nd_flags (at_ iline))) ns
  | NdGrowCbPrefix _ _ => ns
  | NdSetFlag iline f => replace_at (Z.to_nat iline) (Node (nd_key (at_ iline)) (nd_data (at_ iline)) (nd_flags (at_ iline) .| f)) ns
  | NdResetFlag iline f => replace_at (Z.to_nat iline) (Node (nd_key (at_ iline)) (nd_data (at_ iline)) (nd_flags (at_ iline) .& Z.lnot f)) ns
  end.

Definition a_node_run (m : mem) (ns : list NODE) (ops : list node_op) : list NODE := fold_left (a_node_exec m) ops ns.

(** ** Legal operations *)

Fixpoint bytes_eqb (l1 l2 : list Z) : bool :=
  match l1, l2 with
  | [], [] => true
  | a :: l1, b :: l2 => (a =? b) && bytes_eqb l1 l2
  | _, _ => false
  end.

Lemma bytes_eqb_eq l1 : forall l2, bytes_eqb l1 l2 = true -> l1 = l2.
Proof.
  induction l1 as [|a l1 IH]; intros [|b l2] H; cbn in H; try discriminate; [reflexivity|].
  apply andb_prop in H as [H1 H2]. apply Z.eqb_eq in H1 as ->. f_equal. now apply IH.
Qed.

Definition outsideb (p : CPAGE) (d : DATAREF) : bool :=
  (0 <=? dCb d) && ((dCb d =? 0) || (dPv d + dCb d <=? 0) || (cbBuffer p <=? dPv d)).

Definition shares_prefix (p : CPAGE) (key : list Z) (cbPrefix : Z) : bool :=
  bytes_eqb (firstn (Z.to_nat cbPrefix) key) (firstn (Z.to_nat cbPrefix) (prefix_bytes p))
  && (cbPrefix <=? Z.of_nat (length (prefix_bytes p))).

Definition insertableb (p : CPAGE) (kdf : KEYDATAFLAGS) (cbPrefix : Z) : bool :=
  let key := kdf_key kdf in
  outsideb p (prefix key) && outsideb p (suffix key) && outsideb p (kdf_data kdf) && (0 <? dCb (kdf_data kdf))
  && ((cbPrefix =? 0) || (cbPrefixOverhead <? cbPrefix)) && (cbPrefix <? 8192) && (cbPrefix <=? KEY_Cb key) && (KEY_Cb key - cbPrefix <? 8192)
  && shares_prefix p (key_bytes (pv p) key) cbPrefix
  && ((if 0 <? cbPrefix then cbPrefixOverhead else 0) + cbKeyCount + (KEY_Cb key - cbPrefix) + dCb (kdf_data kdf) + sizeof_TAG <=? cbFree p).

Definition nd_legal (p : CPAGE) (o : node_op) : bool :=
  let in_page i := (0 <=? i) && (i <? Clines p) in
  let at_ i := nth (Z.to_nat i) (nodes p) node_nil in
  match o with
  | NdInsert iline kdf cbPrefix =>
      (0 <=? iline) && (iline <=? Clines p) && (m_itagMicFree p <? ITAG_MIC_FREE_MASK) && insertableb p kdf cbPrefix
  | NdDelete iline => in_page iline
  | NdBulkDelete iline => (0 <=? iline) && (iline <=? Clines p)
  | NdReplace iline data =>
      in_page iline && outsideb p data && (0 <? dCb data) && (dCb data <=? Z.of_nat (length (nd_data (at_ iline))))
  | NdGrowCbPrefix iline cbPrefixNew =>
      in_page iline && (cb_prefix (content (tag_line p (iline + m_ctagReserved p))) <? cbPrefixNew)
      && (cbPrefixOverhead <? cbPrefixNew) && (cbPrefixNew <? 8192)
      && (cbPrefixNew <=? Z.of_nat (length (nd_key (at_ iline)))) && shares_prefix p (nd_key (at_ iline)) cbPrefixNew
  | NdSetFlag iline f | NdResetFlag iline f => in_page iline && (0 <=? f) && (f <? 4)
  end.

Section Run.
Context `{Srt : StdSort}.

Fixpoint nd_legal_run (p : CPAGE) (ops : list node_op) : bool :=
  match ops with
  | [] => true
  | o :: ops => nd_legal p o && match nd_exec p o with Some p => nd_legal_run p ops | None => true end
  end.

Ltac bools := repeat match goal with
  | H : _ && _ = true |- _ => apply andb_prop in H as [? ?]
  | H : (_ <=? _) = true |- _ => apply Z.leb_le in H
  | H : (_ <? _) = true |- _ => apply Z.ltb_lt in H
  | H : bytes_eqb _ _ = true |- _ => apply bytes_eqb_eq in H
  end.

Lemma outsideb_ref p d : outsideb p d = true -> ref_outside p d /\ data_ok d.
Proof.
  unfold outsideb, ref_outside, chunk_outside, chunk, data_ok. intros H. apply andb_prop in H as [H1 H2]. apply Z.leb_le in H1.
  rewrite !orb_true_iff, Z.eqb_eq, !Z.leb_le in H2. lia.
Qed.

Lemma insertableb_ok p kdf cbPrefix : insertableb p kdf cbPrefix = true -> insertable p kdf cbPrefix.
Proof.
  unfold insertableb, shares_prefix. intros H. bools.
  repeat match goal with H : outsideb _ _ = true |- _ => apply outsideb_ref in H as [? ?] end.
  assert (Hz : cbPrefix = 0 \/ cbPrefixOverhead < cbPrefix).
  { match goal with H : _ || _ = true |- _ => rewrite orb_true_iff, Z.eqb_eq, Z.ltb_lt in H; exact H end. }
  constructor; auto; try (unfold cbPrefixOverhead in *; lia); [now split|unfold kdf_outside; tauto].
Qed.

Lemma data_bytes_outside p p' d : keeps (outside p) p p' -> ref_outside p d -> data_bytes (pv p') d = data_bytes (pv p) d.
Proof.
  intros K H. unfold data_bytes. apply load_bytes_ext. intros a Ha. apply K. unfold ref_outside, chunk_outside, chunk, outside in *. lia.
Qed.

(** One operation. *)
Lemma nd_exec_refines p o : node_page p -> nd_legal p o = true ->
  exists p', nd_exec p o = Some p' /\ updated p p' (a_node_exec (pv p) (nodes p) o).
Proof.
  intros Np H. pose proof (length_nodes p (proj1 Np)) as L.
  destruct o as [i kdf cbP|i|i|i d|i n|i f|i f]; unfold nd_legal, shares_prefix in H; cbv zeta in H; bools; cbn [nd_exec a_node_exec].
  - apply NDInsert_prefix_spec; auto using insertableb_ok.
  - eexists. split; [reflexivity|]. now apply NDDelete_spec.
  - eexists. split; [reflexivity|]. unfold NDBulkDelete.
    replace (i + (Clines p - i) - 1) with (i + Z.of_nat (Z.to_nat (Clines p - i)) - 1) by lia. apply bulk_delete_loop_spec; auto; lia.
  - apply NDReplace_spec; auto; [now apply outsideb_ref|].
    destruct (read_kdf_node p i Np ltac:(lia)) as [K1 K2 K3 K4 K5]. split; [assumption|]. rewrite <- K4 in *. unfold data_bytes in *.
    rewrite length_loaded in *. lia.
  - rewrite NDIGetKeydataflags_form by auto.
    destruct (line_facts p i Np ltac:(lia)) as (I1 & I2 & L1 & L2 & L3 & L4 & L5 & L6 & L7 & Lz & L8).
    apply NDGrowCbPrefix_spec; auto. rewrite L8 in *. cbn [nd_key] in *. rewrite length_app, length_firstn, length_load_bytes in *. lia.
  - apply NDISetFlag_spec; auto.
  - apply NDIResetFlag_spec; auto.
Qed.

(** The abstract result depends only on memory outside the page. *)
Lemma a_node_exec_outside p p' ns o : keeps (outside p) p p' -> cbBuffer p' = cbBuffer p -> nd_legal p' o = true ->
  a_node_exec (pv p') ns o = a_node_exec (pv p) ns o.
Proof.
  intros K Eb H. assert (R : forall d, ref_outside p' d -> ref_outside p d) by (intros d; unfold ref_outside, chunk_outside; now rewrite Eb).
  destruct o as [i kdf cbP|i|i|i d|i n|i f|i f]; try reflexivity; unfold nd_legal in H; cbv zeta in H; bools; cbn [a_node_exec].
  - apply insertableb_ok in H0 as [_ _ (O1 & O2 & O3) _ _ _ _ _ _ _]. unfold node_of, key_bytes. now rewrite !(data_bytes_outside p p') by auto.
  - match goal with H : outsideb _ _ = true |- _ => apply outsideb_ref in H as [? ?] end. now rewrite (data_bytes_outside p p') by auto.
Qed.

Lemma nd_run_refines ops : forall p0 p, keeps (outside p0) p0 p -> cbBuffer p = cbBuffer p0 -> node_page p -> nd_legal_run p ops = true ->
  exists p', nd_run p ops = Some p' /\ updated p p' (a_node_run (pv p0) (nodes p) ops).
Proof.
  induction ops as [|o ops IH]; intros p0 p K Eb Np H; cbn [nd_run nd_legal_run] in *.
  { exists p. split; [reflexivity|]. now apply updated_refl. }
  apply andb_prop in H as [H1 H2]. destruct (nd_exec_refines p o Np H1) as (p1 & E & U). rewrite E in *.
  assert (K1 : keeps (outside p0) p0 p1).
  { eapply keeps_trans; [exact K|]. eapply keeps_weaken; [|apply (up_outside _ _ _ U)]. intros a. unfold outside. rewrite Eb. auto. }
  destruct (IH p0 p1 K1) as (p' & E' & U'); [rewrite (up_buffer _ _ _ U); exact Eb|apply U|exact H2|].
  exists p'. split; [exact E'|]. unfold a_node_run in *. cbn [fold_left]. rewrite (up_nodes _ _ _ U) in U'.
  rewrite (a_node_exec_outside p0 p) in U' by auto. eapply updated_trans; eauto.
Qed.
End Run.
