(* ===== verification/NodeTheorems.v ===== *)
(** * Nodes: the properties *)

From Stdlib Require Import ZArith List Lia Bool.
From S2P Require Import Prelude Bits Mem Checksum ChecksumErrors PageChecksum Page PageLayout PageTags PageReorg PageTagArray PageNew PageRead PageSpec PageTheorems PageChunks Key KeyProps Node NodeView NodeOps NodeSeek NodeSpec.
Import ListNotations.

Section Claims.
Context `{Srt : StdSort}.

(** C3: the node operations implement a list of keyed records: on a page whose
    lines are nodes, any legal sequence of insertions (with any shared
    prefix), deletions, bulk deletions, replacements of data, changes of the
    stored prefix length and changes of flags runs to its end, leaves a page
    whose lines are nodes, makes exactly the corresponding updates of the list
    of keys, data and flags, keeps the shared prefix and writes nothing
    outside the page buffer. *)
Theorem node_operations_refine_list p ops :
  node_page p -> nd_legal_run p ops = true ->
  exists p', nd_run p ops = Some p' /\ node_page p' /\ nodes p' = a_node_run (pv p) (nodes p) ops /\
    prefix_bytes p' = prefix_bytes p /\ (forall a, a < 0 \/ cbBuffer p <= a -> pv p' a = pv p a).
Proof.
  intros Np L. destruct (nd_run_refines ops p p) as (p' & E & U); auto; [now intros a|].
  exists p'. split; [exact E|]. destruct U as [U1 U2 U3 U4 _ _]. auto.
Qed.

(** C26: every line of a page of nodes is read back as its node, prefix
    compression resolved, by the unchecked reader and by the checked reader,
    which returns no error and the same pointers. *)
Theorem nodes_read_back p iline :
  node_page p -> 0 <= iline < Clines p ->
  exists kdf, NDIGetKeydataflags p iline = Some kdf /\ ErrNDIGetKeydataflags p iline = Some (kdf, JET_errSuccess) /\
    reads_node p kdf (nth (Z.to_nat iline) (nodes p) node_nil).
Proof.
  intros Np Hi. exists (read_kdf p iline). auto using NDIGetKeydataflags_form, checked_form, read_kdf_node.
Qed.

(** ** Searching a leaf *)

Section Leaf.
Variables (p : CPAGE) (bm : BOOKMARK) (fUnique fDefense : bool).
Hypothesis Np : node_page p.
Hypothesis Hbm : bm_ok bm.
Hypothesis Hord : in_order fUnique (nodes p).
Hypothesis Hn : 0 < Clines p.

(** The binary search of a leaf page ends and returns the line that the
    linear search of the debug build returns, with a comparison of the same
    sign. *)
Theorem leaf_seek_is_linear_search :
  exists iline c oc, IlineNDISeekGEQ fDefense p bm fUnique = Some (iline, c) /\ IlineNDISeekGEQDebug p bm fUnique = Some (iline, oc) /\
    (0 <= iline -> exists c', oc = Some c' /\ Z.sgn c' = Z.sgn c).
Proof.
  destruct (IlineNDISeekGEQ_spec p bm fUnique fDefense Np Hbm Hord Hn) as (i & c & E & F & S).
  destruct (seek_debug_loop_spec p bm fUnique Np Hbm Hord (Z.to_nat (Clines p)) 0) as (i' & oc & E' & F' & S'); try lia.
  rewrite (first_geq_unique p bm fUnique i i' F F') in *. exists i', c, oc. split; [exact E|]. split; [exact E'|].
  intros H. destruct (S' H) as (c' & -> & Hc). exists c'. split; [reflexivity|]. rewrite Hc, S. destruct (Z.ltb_spec i' 0); [lia|reflexivity].
Qed.

(** C11: a seek on a leaf page puts the cursor on the first node that is not
    less than the bookmark, with success when that node matches (its key
    alone, when the bookmark has no data) and a warning when it is greater;
    when all nodes are less the cursor is on the last one with the other
    warning.  The node left in the cursor is the node at that line. *)
Theorem leaf_seek_places_cursor iline0 : FLeafPage p = true ->
  exists err i kdf, ErrNDSeek fDefense p iline0 bm fUnique = Some (err, i, Some kdf) /\
    reads_node p kdf (nth (Z.to_nat i) (nodes p) node_nil) /\
    let cmp j := pcmp (bm_of fUnique (nth (Z.to_nat j) (nodes p) node_nil)) (bm_bytes (pv p) bm) in
    (err = wrnNDFoundLess /\ i = Clines p - 1 /\ (forall j, 0 <= j < Clines p -> cmp j < 0)) \/
    (0 <= i < Clines p /\ 0 <= cmp i /\ (forall j, 0 <= j < i -> cmp j < 0) /\
     err = if reported p bm fUnique (nth (Z.to_nat i) (nodes p) node_nil) =? 0 then JET_errSuccess else wrnNDFoundGreater).
Proof.
  intros Hl. destruct (IlineNDISeekGEQ_spec p bm fUnique fDefense Np Hbm Hord Hn) as (i & c & E & F & S).
  unfold ErrNDSeek, ErrNDISeekLeafPage. rewrite Hl, E. destruct (Z.leb_spec (Clines p) 0); [lia|]. cbn [negb].
  destruct F as [(-> & F)|(F1 & F2 & F3)].
  - cbn [Z.leb Z.compare andb Z.ltb]. change (JET_errSuccess <=? wrnNDFoundLess) with true. cbn iota.
    destruct (get_node p (Clines p - 1) Np ltac:(lia)) as (kdf & -> & R). do 3 eexists. split; [reflexivity|]. split; [exact R|]. left. auto.
  - destruct (get_node p i Np F1) as (kdf & Ek & R). destruct (Z.ltb_spec i 0) as [|_]; [lia|]. destruct (Z.leb_spec 0 i) as [_|]; [|lia]. cbn [andb].
    rewrite (sgn_0_iff c), S. exists (if reported p bm fUnique (nth (Z.to_nat i) (nodes p) node_nil) =? 0 then JET_errSuccess else wrnNDFoundGreater), i, kdf.
    split; [|auto 10]. destruct (_ =? 0); cbn [Z.leb]; [change (JET_errSuccess <=? JET_errSuccess) with true|change (JET_errSuccess <=? wrnNDFoundGreater) with true];
      cbn iota; now rewrite Ek.
Qed.
End Leaf.

(** The binary search of a leaf page is logarithmic and ends on every page of
    nodes, in order or not: on at most [2 ^ k] lines it returns after at most
    [k + 2] rounds of its loop. *)
Theorem leaf_seek_terminates p bm fUnique fDefense k :
  node_page p -> Clines p <= 2 ^ Z.of_nat k ->
  let loop n := seek_loop n fDefense p bm fUnique 0 (Clines p - 1) 0 (Bookmark KEY_Nullify dNull) in
  exists r, loop (k + 2)%nat = Some r /\ (forall n, (k + 2 <= n)%nat -> loop n = Some r) /\
    exists i c, IlineNDISeekGEQ fDefense p bm fUnique = Some (i, c).
Proof.
  intros Np Hk loop. destruct (seek_loop_steps fDefense p bm fUnique Np k 0 (Clines p - 1) 0 (Bookmark KEY_Nullify dNull)) as (r & E); try lia.
  exists r. split; [exact E|]. split; [intros n Hn; eapply seek_loop_mono; [exact Hn|exact E]|].
  destruct (seek_loop_lines fDefense p bm fUnique Np) as ([[i c] b] & E'). unfold IlineNDISeekGEQ. rewrite E'. eauto.
Qed.

(** ** Searching an internal page *)

(** What a B-tree promises of an internal page: no compressed node on the root,
    separators in order, the last one the null key or larger than what is
    sought; only a null bookmark has a null key, and no other separator is
    null then. *)
Record internal_page (p : CPAGE) (bm : BOOKMARK) : Prop := {
  ip_nodes : node_page p;
  ip_root : FRootPage p = true -> forallb (fun c => negb (compressed (fst c))) (node_lines p) = true;
  ip_some : 0 < Clines p;
  ip_order : separators_in_order (nodes p);
  ip_last : nd_key (nth (Z.to_nat (Clines p - 1)) (nodes p) node_nil) = [] \/
    0 < lex (nd_key (nth (Z.to_nat (Clines p - 1)) (nodes p) node_nil)) (key_bytes (pv p) (bm_key bm) ++ data_bytes (pv p) (bm_data bm));
  ip_null : KEY_FNull (bm_key bm) = true ->
    key_bytes (pv p) (bm_key bm) ++ data_bytes (pv p) (bm_data bm) = [] /\
    forall i, 0 <= i < Clines p - 1 -> nd_key (nth (Z.to_nat i) (nodes p) node_nil) <> []
}.

(** C19: a seek on an internal page ends on the child whose range holds the
    bookmark: every separator before it is at most the sought key and data
    concatenated, and its own separator is greater unless it is the last.  It
    reports success exactly when the separator before the child is equal. *)
Theorem internal_seek_finds_child p bm iline0 fDefense fUnique :
  internal_page p bm -> bm_ok bm -> FLeafPage p = false ->
  let cmp j := lex (nd_key (nth (Z.to_nat j) (nodes p) node_nil)) (key_bytes (pv p) (bm_key bm) ++ data_bytes (pv p) (bm_data bm)) in
  exists err i kdf, ErrNDSeek fDefense p iline0 bm fUnique = Some (err, i, Some kdf) /\
    reads_node p kdf (nth (Z.to_nat i) (nodes p) node_nil) /\ 0 <= i < Clines p /\
    (forall j, 0 <= j < i -> cmp j <= 0) /\ (i < Clines p - 1 -> 0 < cmp i) /\
    err = if (0 <? i) && (cmp (i - 1) =? 0) then JET_errSuccess else wrnNDFoundGreater.
Proof.
  intros [Np Hr Hn Ho Hl Hz] Hb Hleaf cmp.
  destruct (ErrNDISeekInternalPage_spec p bm Np Hr Hb Hn Ho Hl Hz iline0) as (err & i & E & He & H1 & H2 & H3 & H4).
  destruct (get_node p i Np ltac:(lia)) as (kdf & Ek & R). exists err, i, kdf. unfold ErrNDSeek. rewrite Hleaf. cbn [negb]. rewrite E.
  destruct (Z.leb_spec (Clines p) 0); [lia|]. replace (JET_errSuccess <=? err) with true by (now destruct He as [-> | ->]).
  rewrite Ek. split; [reflexivity|]. split; [exact R|]. split; [lia|]. split; [exact H2|]. split; [exact H3|].
  unfold cmp. destruct (Z.ltb_spec 0 i) as [L|L]; cbn [andb].
  - destruct (Z.eqb_spec (lex (nd_key (nth (Z.to_nat (i - 1)) (nodes p) node_nil)) (key_bytes (pv p) (bm_key bm) ++ data_bytes (pv p) (bm_data bm))) 0) as [C|C].
    + apply H4. auto.
    + destruct He as [He|He]; [|exact He]. apply H4 in He. tauto.
  - destruct He as [He|He]; [|exact He]. apply H4 in He. lia.
Qed.

(** The binary search of an internal page and the linear search of the
    debug build return the same line and comparisons of the same sign. *)
Theorem internal_seek_is_linear_search p bm :
  internal_page p bm -> bm_ok bm ->
  exists i c c', IlineNDISeekGEQInternal p bm = Some (i, c) /\ IlineNDISeekGEQInternalDebug p bm = Some (i, c') /\ Z.sgn c = Z.sgn c'.
Proof.
  intros [Np Hr Hn Ho Hl Hz] Hb.
  destruct (IlineNDISeekGEQInternal_spec p bm Np Hr Hb Hn Ho Hl Hz) as (i & c & E & A1 & A2 & A3 & Hc).
  destruct (seek_internal_debug_spec p bm Np Hb (Z.to_nat (Clines p - 1)) 0) as (i' & c' & E' & B1 & B2 & B3 & Hc'); try lia.
  assert (i = i') by (eapply (child_unique p bm); eauto). subst i'. exists i, c, c'. split; [exact E|]. split; [exact E'|].
  rewrite Hc, Hc'. now destruct (_ && _).
Qed.

End Claims.

(** ** What the checked reader lets through *)

(** The bounds check of the product build compares the size of the suffix
    with the whole line, not with what the size word leaves of it: on a
    well-formed page, a line whose suffix size lies between the two is
    accepted without error, with a suffix that ends after the line and data of
    negative size. *)
Theorem checked_reader_accepts_negative_data p iline :
  page_inv p -> 0 <= iline < Clines p ->
  let c := nth (Z.to_nat iline) (node_lines p) no_line in
  let cb := Z.of_nat (length (snd c)) in
  compressed (fst c) = false -> cbKeyCount < cb -> cb - cbKeyCount < word13 (snd c) < cb ->
  exists kdf, ErrNDIGetKeydataflags p iline = Some (kdf, JET_errSuccess) /\
    dCb (suffix (kdf_key kdf)) = word13 (snd c) /\ dCb (kdf_data kdf) < 0.
Proof.
  intros Inv Hi c. unfold c. rewrite nth_node_line by assumption. set (itag := iline + m_ctagReserved p).
  set (t := PtagFromItag_ p itag). set (pb := PbFromIb_ p (TAG_Ib p t)).
  change (content (tag_line p itag)) with (TAG_FFlags p t, load_bytes (pv p) pb (TAG_Cb p t)). cbn [fst snd].
  pose proof (TAG_Cb_range p t) as R. rewrite length_loaded, Z.max_r by lia. unfold cbKeyCount. intros Hc Hcb. rewrite word13_load by lia. intros Hs.
  unfold ErrNDIGetKeydataflags, NDIGetKeydataflags_Checked, ErrGetPtr. fold itag. pose proof (inv_resv p Inv). unfold Clines in Hi.
  rewrite Checked_complete by (auto; fold t; lia). change (JET_errSuccess <? JET_errSuccess) with false. cbn [andb].
  unfold NDILineToKeydataflags, GetPtr_NoChecks. cbv zeta. cbn [ln_pv ln_cb ln_fFlags]. fold t pb.
  destruct (Z.eqb_spec (TAG_Cb p t) 0); [lia|]. unfold compressed in Hc. rewrite Hc. change cbKeyCount with 2.
  destruct (Z.leb_spec (TAG_Cb p t) 2); [lia|]. destruct (Z.leb_spec (TAG_Cb p t) (load16 (pv p) pb .& usNDCbKeyMask)); [lia|]. cbn [orb].
  unfold FNDCompressed. cbn [kdf_fFlags]. rewrite Hc. eexists. split; [reflexivity|].
  unfold set_prefix. cbn [kdf_key kdf_data suffix dCb]. split; [reflexivity|]. rewrite s32_small by lia. lia.
Qed.

(** ** Witnesses *)

(** Keys and data outside the page, and a leaf page whose nodes share [1; 2; 3; 4]. *)
Definition scratch : mem := store_bytes junk 40000 [1; 2; 3; 5; 9; 1; 2; 3; 4; 8; 8; 1; 2; 3; 4; 9; 7; 2; 6; 6; 6; 6; 6].
Definition leaf0 : CPAGE := LoadNewPage scratch 17 9 2 4096 false true.
Definition leaf_ops : list page_op := [OpSetExternalHeader [[1; 2; 3; 4]] 0].
Definition leaf_page : CPAGE := match run leaf0 leaf_ops with Some p => p | None => leaf0 end.

Definition kdf_at (key cbKey data cbData flags : Z) : KEYDATAFLAGS := Kdf (Key dNull (Dref key cbKey)) (Dref data cbData) flags.
Definition fill : list node_op :=
  [NdInsert 0 (kdf_at 40000 4 40004 1 0) 3; NdInsert 0 (kdf_at 40005 5 40010 1 0) 4; NdInsert 1 (kdf_at 40011 5 40016 1 2) 0; NdInsert 3 (kdf_at 40017 1 40018 5 0) 0].
Definition work : list node_op := fill ++ [NdGrowCbPrefix 1 4; NdSetFlag 1 1; NdReplace 3 (Dref 40000 3); NdResetFlag 1 2].
Definition filled : CPAGE := match nd_run leaf_page fill with Some p => p | None => leaf_page end.

Lemma scratch_ok : mem_ok scratch.
Proof. apply store_bytes_ok, junk_ok. Qed.

Lemma leaf_page_inv : page_inv leaf_page.
Proof.
  destruct (new_page scratch 17 9 2 4096 false true scratch_ok ltac:(lia)) as (I & V & _). apply run_inv; [exact I|].
  fold leaf0 in V. rewrite V. vm_compute. reflexivity.
Qed.

Lemma leaf_page_nodes : node_page leaf_page.
Proof. split; [apply leaf_page_inv|]. vm_compute. reflexivity. Qed.

Lemma node_operations_refine_list_witness :
  exists p', nd_run leaf_page work = Some p' /\
    nodes p' = [Node [1; 2; 3; 4; 8] [8] 0; Node [1; 2; 3; 4; 9] [7] 1; Node [1; 2; 3; 5] [9] 0; Node [2] [1; 2; 3] 0].
Proof.
  destruct (node_operations_refine_list leaf_page work leaf_page_nodes ltac:(vm_compute; reflexivity)) as (p' & E & _ & N & _).
  exists p'. split; [exact E|]. rewrite N. vm_compute. reflexivity.
Defined.

Lemma filled_nodes : node_page filled /\ nodes filled = [Node [1; 2; 3; 4; 8] [8] 0; Node [1; 2; 3; 4; 9] [7] 2; Node [1; 2; 3; 5] [9] 0; Node [2] [6; 6; 6; 6; 6] 0].
Proof.
  split; [|vm_compute; reflexivity]. destruct (nd_run_refines fill leaf_page leaf_page) as (p' & E & U); [now intros a|reflexivity|apply leaf_page_nodes|vm_compute; reflexivity|].
  unfold filled. rewrite E. apply U.
Qed.

Lemma nodes_read_back_witness :
  exists kdf, ErrNDIGetKeydataflags filled 2 = Some (kdf, JET_errSuccess) /\ key_bytes (pv filled) (kdf_key kdf) = [1; 2; 3; 5].
Proof.
  destruct filled_nodes as [Np En]. destruct (nodes_read_back filled 2 Np ltac:(vm_compute; split; [discriminate|reflexivity])) as (kdf & _ & E & [_ _ K _ _]).
  exists kdf. split; [exact E|]. rewrite K, En. reflexivity.
Defined.

(** The key [1; 2; 3; 5] without data, and [9], which is after all nodes. *)
Definition bm_found : BOOKMARK := Bookmark (Key dNull (Dref 40000 4)) dNull.
Definition bm_after : BOOKMARK := Bookmark (Key dNull (Dref 40015 1)) dNull.

Lemma bm_found_ok : bm_ok bm_found.
Proof. repeat split; vm_compute; discriminate. Qed.

Lemma bm_after_ok : bm_ok bm_after.
Proof. repeat split; vm_compute; discriminate. Qed.

Lemma filled_order : in_order true (nodes filled).
Proof.
  rewrite (proj2 filled_nodes). intros i j H. cbn [length] in H.
  destruct i as [|[|[|[|]]]], j as [|[|[|[|]]]]; try lia; reflexivity.
Qed.

Lemma filled_lines : 0 < Clines filled.
Proof. vm_compute. reflexivity. Qed.

Lemma leaf_seek_is_linear_search_witness :
  exists i c, IlineNDISeekGEQ true filled bm_found true = Some (i, c) /\ exists oc, IlineNDISeekGEQDebug filled bm_found true = Some (i, oc).
Proof.
  destruct (leaf_seek_is_linear_search filled bm_found true true (proj1 filled_nodes) bm_found_ok filled_order filled_lines) as (i & c & oc & E & E' & _).
  exists i, c. split; [exact E|]. exists oc. exact E'.
Defined.

Lemma leaf_seek_places_cursor_witness :
  (exists kdf, ErrNDSeek true filled 0 bm_found true = Some (JET_errSuccess, 2, Some kdf)) /\
  (exists kdf, ErrNDSeek true filled 0 bm_after true = Some (wrnNDFoundLess, 3, Some kdf)).
Proof.
  destruct (leaf_seek_places_cursor filled bm_found true true (proj1 filled_nodes) bm_found_ok filled_order filled_lines 0 ltac:(vm_compute; reflexivity)) as (e & i & k & E & _).
  destruct (leaf_seek_places_cursor filled bm_after true true (proj1 filled_nodes) bm_after_ok filled_order filled_lines 0 ltac:(vm_compute; reflexivity)) as (e' & i' & k' & E' & _).
  split; [exists k; rewrite E; vm_compute in E|exists k'; rewrite E'; vm_compute in E']; [injection E|injection E']; intros; subst; reflexivity.
Defined.

Lemma leaf_seek_terminates_witness :
  exists r, seek_loop 4 true filled bm_after true 0 3 0 (Bookmark KEY_Nullify dNull) = Some r.
Proof.
  destruct (leaf_seek_terminates filled bm_after true true 2 (proj1 filled_nodes) ltac:(vm_compute; discriminate)) as (r & E & _). exists r. exact E.
Defined.

(** An internal page: separators [1; 2; 3; 4; 8], [1; 2; 3; 5] and the null key. *)
Definition internal0 : CPAGE := LoadNewPage scratch 17 9 0 4096 false true.
Definition internal_empty : CPAGE := match run internal0 leaf_ops with Some p => p | None => internal0 end.
Definition internal_fill : list node_op := [NdInsert 0 (kdf_at 40000 4 40018 4 0) 3; NdInsert 0 (kdf_at 40005 5 40018 4 0) 4; NdInsert 2 (kdf_at 0 0 40018 4 0) 0].
Definition internal : CPAGE := match nd_run internal_empty internal_fill with Some p => p | None => internal_empty end.

Lemma internal_nodes : node_page internal /\ nodes internal = [Node [1; 2; 3; 4; 8] [6; 6; 6; 6] 0; Node [1; 2; 3; 5] [6; 6; 6; 6] 0; Node [] [6; 6; 6; 6] 0].
Proof.
  split; [|vm_compute; reflexivity]. destruct (new_page scratch 17 9 0 4096 false true scratch_ok ltac:(lia)) as (I & V & _). fold internal0 in I, V.
  assert (Np : node_page internal_empty) by (split; [apply run_inv; [exact I|rewrite V]|]; vm_compute; reflexivity).
  destruct (nd_run_refines internal_fill internal_empty internal_empty) as (p' & E & U); [now intros a|reflexivity|exact Np|vm_compute; reflexivity|].
  unfold internal. rewrite E. apply U.
Qed.

Lemma internal_ok : internal_page internal bm_found.
Proof.
  destruct internal_nodes as [Np En]. constructor; [exact Np|vm_compute; discriminate|vm_compute; reflexivity| | |vm_compute; discriminate].
  - rewrite En. intros i j H1 H2. cbn [length] in H2. destruct i as [|[|[|]]], j as [|[|[|]]]; try lia; reflexivity.
  - left. rewrite En. vm_compute. reflexivity.
Qed.

Lemma internal_seek_finds_child_witness :
  exists kdf, ErrNDSeek true internal 0 bm_found false = Some (JET_errSuccess, 2, Some kdf).
Proof.
  destruct (internal_seek_finds_child internal bm_found 0 true false internal_ok bm_found_ok ltac:(vm_compute; reflexivity)) as (e & i & k & E & _).
  exists k. rewrite E. vm_compute in E. injection E; intros; subst; reflexivity.
Defined.

Lemma internal_seek_is_linear_search_witness :
  exists i c c', IlineNDISeekGEQInternal internal bm_found = Some (i, c) /\ IlineNDISeekGEQInternalDebug internal bm_found = Some (i, c').
Proof.
  destruct (internal_seek_is_linear_search internal bm_found internal_ok bm_found_ok) as (i & c & c' & E & E' & _). exists i, c, c'. auto.
Defined.

(** A line of three bytes whose size word says two. *)
Definition short_ops : list page_op := [OpInsert 0 [[2; 0; 1]] 0].
Definition short_page : CPAGE := match run leaf0 short_ops with Some p => p | None => leaf0 end.

Lemma checked_reader_accepts_negative_data_witness :
  exists kdf, ErrNDIGetKeydataflags short_page 0 = Some (kdf, JET_errSuccess) /\ dCb (kdf_data kdf) < 0.
Proof.
  destruct (new_page scratch 17 9 2 4096 false true scratch_ok ltac:(lia)) as (I & V & _). fold leaf0 in I, V.
  assert (Inv : page_inv short_page) by (apply run_inv; [exact I|rewrite V; vm_compute; reflexivity]).
  destruct (checked_reader_accepts_negative_data short_page 0 Inv) as (kdf & E & _ & D); try (vm_compute; split; reflexivity || discriminate); try reflexivity.
  exists kdf. auto.
Defined.
