(* ===== verification/Norm.v ===== *)
(** * Key normalisation (src/dev/ese/src/ese/fldnorm.cxx, src/dev/ese/src/ese/_osu/normu.cxx)

    Column values are turned into bytes whose lexicographic order is the order
    of the values; an index key is the concatenation of such segments, each
    complemented if its column is descending.  Buffers are lists of bytes: a
    segment is what the code leaves in [rgbSeg] or [plineNorm], its length
    being [*pcbSeg] or [plineNorm->Cb()].  A read of bytes that were not written
    has no result.  Machine order is little endian, so data passed by the user
    and data of a record are read alike. *)

From Stdlib Require Import ZArith List Lia Bool.
From S2P Require Import Prelude.
Import ListNotations.

(** ** Constants *)

Definition bPrefixNull : Z := 0x00.
Definition bPrefixZeroLength : Z := 0x40.
Definition bPrefixNullHigh : Z := 0xc0.
Definition bPrefixData : Z := 0x7f.
Definition bSentinel : Z := 0xff.
Definition bUnicodeSortKeySentinel : Z := 0x01.
Definition bUnicodeSortKeyTerminator : Z := 0x00.
Definition bASCIISortKeyTerminator : Z := 0x00.

Definition cbFLDBinaryChunk : Z := 8.
Definition cbFLDBinaryChunkNormalized : Z := cbFLDBinaryChunk + 1.
Definition JET_cbKeyMost_OLD : Z := 255.
Definition JET_cbKeyMost : Z := 255.
Definition JET_cbColumnMost : Z := 255.
Definition usUniCodePage : Z := 1200.

Definition JET_bitNewKey : Z := 0x1.
Definition JET_bitStrLimit : Z := 0x2.
Definition JET_bitSubStrLimit : Z := 0x4.
Definition JET_bitNormalizedKey : Z := 0x8.
Definition JET_bitKeyDataZeroLength : Z := 0x10.
Definition JET_bitKeyOverridePrimaryIndexPlaceholder : Z := 0x20.
Definition JET_bitFullColumnStartLimit : Z := 0x100.
Definition JET_bitFullColumnEndLimit : Z := 0x200.
Definition JET_bitPartialColumnStartLimit : Z := 0x400.
Definition JET_bitPartialColumnEndLimit : Z := 0x800.
Definition JET_maskLimitOptions : Z := 0xf00.

Definition errSuccess : Z := 0.
Definition wrnFLDKeyTooBig : Z := 400.
Definition JET_wrnColumnNull : Z := 1004.
Definition JET_errInvalidGrbit : Z := -900.
Definition JET_errNormInvalidParameter : Z := -1003.
Definition JET_errInvalidBufferSize : Z := -1047.
Definition JET_errIndexTuplesKeyTooSmall : Z := -1437.
Definition JET_errKeyIsMade : Z := -1516.
Definition JET_errKeyNotMade : Z := -1608.

Inductive JET_COLTYP :=
  | coltypBit | coltypUnsignedByte | coltypShort | coltypUnsignedShort | coltypLong | coltypUnsignedLong
  | coltypLongLong | coltypUnsignedLongLong | coltypCurrency | coltypIEEESingle | coltypIEEEDouble | coltypDateTime
  | coltypGUID | coltypText | coltypLongText | coltypBinary | coltypLongBinary.

Definition FRECTextColumn (coltyp : JET_COLTYP) : bool := match coltyp with coltypText | coltypLongText => true | _ => false end.
Definition FRECBinaryColumn (coltyp : JET_COLTYP) : bool := match coltyp with coltypBinary | coltypLongBinary => true | _ => false end.

Definition fbit (grbit f : Z) : bool := negb (Z.land grbit f =? 0).

(** ** Numbers in byte order *)

Definition le_number (l : list Z) : Z := fold_right (fun b v => b + 256 * v) 0 l.
Fixpoint le_bytes_of (n : nat) (v : Z) : list Z := match n with O => [] | S n => v mod 256 :: le_bytes_of n (v / 256) end.
Definition be_number (l : list Z) : Z := le_number (rev l).
Definition be_bytes_of (n : nat) (v : Z) : list Z := rev (le_bytes_of n v).

Definition wFlipHighBit (w : Z) : Z := Z.lxor w 0x8000.
Definition dwFlipHighBit (dw : Z) : Z := Z.lxor dw 0x80000000.
Definition qwFlipHighBit (qw : Z) : Z := Z.lxor qw 0x8000000000000000.
Definition maskDWordHighBit : Z := 0x80000000.
Definition maskQWordHighBit : Z := 0x8000000000000000.
Definition dwNot (dw : Z) : Z := Z.lxor dw 0xffffffff.
Definition qwNot (qw : Z) : Z := Z.lxor qw 0xffffffffffffffff.
Definition bNot (b : Z) : Z := Z.lxor b 0xff.

(** The orders in which the bytes of a GUID are stored. *)
Definition guid_order_net : list nat := [3; 2; 1; 0; 5; 4; 7; 6; 8; 9; 10; 11; 12; 13; 14; 15]%nat.
Definition guid_order : list nat := [10; 11; 12; 13; 14; 15; 8; 9; 6; 7; 4; 5; 0; 1; 2; 3]%nat.

(** ** Fixed columns *)

(** The number at [pbField], if all its bytes belong to the field. *)
Definition read_le (n : nat) (pbField : list Z) : option Z :=
  if (n <=? length pbField)%nat then Some (le_number (firstn n pbField)) else None.

(** The bytes at the given places. *)
Fixpoint read_bytes (pbField : list Z) (places : list nat) : option (list Z) :=
  match places with
  | [] => Some []
  | i :: places => let? b := nth_error pbField i in let? bs := read_bytes pbField places in Some (b :: bs)
  end.

(** The code only asserts that the field has the size of its type; it has no result
    here when it reads past the end of the field.  For text and binary, which are
    handled elsewhere, [*pcbSeg] keeps the caller's zero. *)
Definition FLDNormalizeFixedSegment (pbField : list Z) (coltyp : JET_COLTYP) (fDotNetGuid : bool) : option (list Z) :=
  match coltyp with
  | coltypBit => let? b := read_le 1 pbField in Some [bPrefixData; if b =? 0 then 0x00 else 0xff]
  | coltypUnsignedByte => let? b := read_le 1 pbField in Some [bPrefixData; b]
  | coltypShort => let? wSrc := read_le 2 pbField in Some (bPrefixData :: be_bytes_of 2 (wFlipHighBit wSrc))
  | coltypUnsignedShort => let? wSrc := read_le 2 pbField in Some (bPrefixData :: be_bytes_of 2 wSrc)
  | coltypLong => let? dwSrc := read_le 4 pbField in Some (bPrefixData :: be_bytes_of 4 (dwFlipHighBit dwSrc))
  | coltypUnsignedLong => let? dwSrc := read_le 4 pbField in Some (bPrefixData :: be_bytes_of 4 dwSrc)
  | coltypLongLong | coltypCurrency => let? qwSrc := read_le 8 pbField in Some (bPrefixData :: be_bytes_of 8 (qwFlipHighBit qwSrc))
  | coltypUnsignedLongLong => let? qwSrc := read_le 8 pbField in Some (bPrefixData :: be_bytes_of 8 qwSrc)
  | coltypIEEESingle =>
      let? dwSrc := read_le 4 pbField in
      Some (bPrefixData :: be_bytes_of 4 (if fbit dwSrc maskDWordHighBit then dwNot dwSrc else dwFlipHighBit dwSrc))
  | coltypIEEEDouble | coltypDateTime =>
      let? qwSrc := read_le 8 pbField in
      Some (bPrefixData :: be_bytes_of 8 (if fbit qwSrc maskQWordHighBit then qwNot qwSrc else qwFlipHighBit qwSrc))
  | coltypGUID =>
      let? guid := read_bytes pbField (if fDotNetGuid then guid_order_net else guid_order) in
      Some (bPrefixData :: guid)
  | coltypText | coltypLongText | coltypBinary | coltypLongBinary => Some []
  end.

Definition FLDNormalizeNullSegment (coltyp : JET_COLTYP) (fZeroLength fSortNullsHigh : bool) : list Z :=
  let bPrefixNullT := if fSortNullsHigh then bPrefixNullHigh else bPrefixNull in
  if FRECTextColumn coltyp || FRECBinaryColumn coltyp
  then [if fZeroLength then bPrefixZeroLength else bPrefixNullT]
  else [bPrefixNullT].

(** ** Binary columns *)

(** The [while] loop over chunks.  [ib] is [pbSeg - rgbSeg]; [rest] starts at
    [pbNextChunk] and has [cbFieldRemaining] bytes.  Returns the bytes written,
    the rest, [cbSegRemaining] and the delimiter. *)
Fixpoint chunk_loop (fuel : nat) (fNormalisedEntireColumn : bool) (rest : list Z) (cbSegRemaining ib delim : Z)
    : list Z * list Z * Z * Z :=
  match fuel with
  | O => ([], rest, cbSegRemaining, delim)
  | S fuel =>
      if cbFLDBinaryChunkNormalized <=? cbSegRemaining then
        let cbFieldRemaining := Z.of_nat (length rest) in
        if cbFieldRemaining <=? cbFLDBinaryChunk then
          let delim := ib + cbFieldRemaining in
          let chunk :=
            if cbFieldRemaining =? cbFLDBinaryChunk
            then rest ++ [if fNormalisedEntireColumn then cbFLDBinaryChunkNormalized - 1 else cbFLDBinaryChunkNormalized]
            else rest ++ repeat 0 (Z.to_nat (cbFLDBinaryChunk - cbFieldRemaining)) ++ [cbFieldRemaining] in
          let '(out, rest, cbLeft, delim) := chunk_loop fuel fNormalisedEntireColumn rest
            (cbSegRemaining - cbFLDBinaryChunkNormalized) (ib + cbFLDBinaryChunkNormalized) delim in
          (chunk ++ out, rest, cbLeft, delim)
        else
          let chunk := firstn (Z.to_nat cbFLDBinaryChunk) rest ++ [cbFLDBinaryChunkNormalized] in
          let '(out, rest, cbLeft, delim) := chunk_loop fuel fNormalisedEntireColumn (skipn (Z.to_nat cbFLDBinaryChunk) rest)
            (cbSegRemaining - cbFLDBinaryChunkNormalized) (ib + cbFLDBinaryChunkNormalized) delim in
          (chunk ++ out, rest, cbLeft, delim)
      else ([], rest, cbSegRemaining, delim)
  end.

(** Returns the segment, [*pfColumnTruncated] (as set here) and
    [*pibBinaryColumnDelimiter]. *)
Definition FLDNormalizeBinarySegment (pbField : list Z) (cbKeyAvail cbKeyMost cbVarSegMac : Z) (fFixedField : bool)
    : list Z * bool * Z :=
  let cbField := Z.of_nat (length pbField) in
  if fFixedField then
    let cbSeg := cbField + 1 in
    let cbSeg := if (cbVarSegMac <? cbKeyMost) && (cbVarSegMac <? cbSeg) then cbVarSegMac else cbSeg in
    let fTruncated := cbKeyAvail <? cbSeg in
    let cbSeg := if fTruncated then cbKeyAvail else cbSeg in
    (bPrefixData :: firstn (Z.to_nat (cbSeg - 1)) pbField, fTruncated, 0)
  else
    let cChunks := (cbField + (cbFLDBinaryChunk - 1)) / cbFLDBinaryChunk in
    let cbSeg := cChunks * cbFLDBinaryChunkNormalized + 1 in
    let fOverMac := (cbVarSegMac <? cbKeyMost) && (cbVarSegMac <? cbSeg) in
    let cbSeg := if fOverMac then cbVarSegMac else cbSeg in
    let fTruncated := cbKeyAvail <? cbSeg in
    let cbSeg := if fTruncated then cbKeyAvail else cbSeg in
    let '(out, rest, cbSegRemaining, delim) :=
      chunk_loop (Z.to_nat cbSeg) (negb fOverMac && negb fTruncated) pbField (cbSeg - 1) 1 0 in
    let cbFieldRemaining := Z.of_nat (length rest) in
    let '(tail, delim) :=
      if 0 <? cbSegRemaining then
        if cbSegRemaining <=? cbFieldRemaining then (firstn (Z.to_nat cbSegRemaining) rest, delim)
        else (rest ++ repeat 0 (Z.to_nat (cbSegRemaining - cbFieldRemaining)), 1 + Z.of_nat (length out) + cbFieldRemaining)
      else ([], delim) in
    (bPrefixData :: out ++ tail, fTruncated, delim).

(** ** Text columns *)

(** The bytes before the first zero: [strlen] of a terminated string. *)
Fixpoint cstr (l : list Z) : list Z := match l with [] => [] | b :: l => if b =? 0 then [] else b :: cstr l end.

(** One step of [_crt_clocale_strupr], and [_crt_clocale_toupper_broken]. *)
Definition strupr (b : Z) : Z := if (97 <=? b) && (b <=? 122) then b - 32 else b.
Definition toupper_broken (b : Z) : Z := u8 (b - 97 + 65).

(** Returns the error and [pbNorm[ 0 .. *pcbNorm - 1 ]]. *)
Definition ErrUtilNormText (pbText : list Z) (cbKeyBufLeft : Z) : Z * list Z :=
  if Z.of_nat (length pbText) <? cbKeyBufLeft then (errSuccess, map strupr (cstr pbText) ++ [0])
  else if 0 <? cbKeyBufLeft then
    let s := cstr (firstn (Z.to_nat (cbKeyBufLeft - 1)) pbText) in
    let cbTextToNormalise := Z.of_nat (length s) in
    let b := nth (length s) pbText 0 in
    if (cbKeyBufLeft =? cbTextToNormalise + 1) && negb (0 =? b)
    then (wrnFLDKeyTooBig, map strupr s ++ [toupper_broken b])
    else (errSuccess, map strupr s ++ [0])
  else (errSuccess, []).

(** What normalisation relies on of [ErrNORMMapString] (src/dev/ese/src/os/norm.cxx,
    on top of the system's Unicode tables): an error or a warning, and a sort
    key of at most [cbMax] bytes. *)
Class NormLocale := {
  ErrNORMMapString : list Z -> Z -> Z * list Z;
  ErrNORMMapString_fits : forall pbColumn cbMax, 0 <= cbMax -> Z.of_nat (length (snd (ErrNORMMapString pbColumn cbMax))) <= cbMax
}.

Section Text.
Context `{Loc : NormLocale}.

(** Returns the error and the segment; on an error there is none. *)
Definition ErrFLDNormalizeTextSegment (pbField : list Z) (cbKeyAvail cbKeyMost cbVarSegMac cp : Z) : Z * list Z :=
  let cbField := Z.of_nat (length pbField) in
  let cbT := Z.min cbKeyAvail cbVarSegMac - 1 in
  let cbChar := if cp =? usUniCodePage then 2 else 1 in
  let cbFieldT := cbField / cbChar * cbChar in
  let cbFieldT :=
    if cbKeyMost =? JET_cbKeyMost_OLD then Z.min cbFieldT ((cbKeyMost + cbChar - 1) / cbChar * cbChar) else cbFieldT in
  let text := firstn (Z.to_nat cbFieldT) pbField in
  let '(err, seg) := if cp =? usUniCodePage then ErrNORMMapString text cbT else ErrUtilNormText text cbT in
  if err <? 0 then (err, [])
  else
    let cbSeg := Z.of_nat (length seg) in
    let err :=
      if wrnFLDKeyTooBig =? err then
        if (cbKeyMost <? cbVarSegMac) || (cbSeg <? cbVarSegMac - 1) then err else errSuccess
      else err in
    (err, bPrefixData :: seg).

(** ** Tagged columns *)

(** Stands for the lack of a result where a function of the code returns an [ERR]:
    the code has read past the end of the data, and nothing is said of what it does
    then.  No [ERR] has this value, which does not fit in 32 bits. *)
Definition errReadPastData : Z := - 2 ^ 32.

(** Returns the error, [dataNorm] and [*pfDataTruncated]. *)
Definition ErrFLDNormalizeTaggedData (coltyp : JET_COLTYP) (cp : Z) (dataRaw : list Z) (fDotNetGuid : bool) : Z * list Z * bool :=
  match dataRaw with
  | [] => (errSuccess, FLDNormalizeNullSegment coltyp true false, false)
  | _ =>
      if FRECTextColumn coltyp then
        let '(err, seg) := ErrFLDNormalizeTextSegment dataRaw JET_cbKeyMost_OLD JET_cbKeyMost_OLD (JET_cbKeyMost_OLD + 1) cp in
        if err <? 0 then (err, [], false)
        else if wrnFLDKeyTooBig =? err then (errSuccess, seg, true) else (err, seg, false)
      else if FRECBinaryColumn coltyp then
        let '(seg, fTruncated, _) := FLDNormalizeBinarySegment dataRaw JET_cbKeyMost_OLD JET_cbKeyMost_OLD (JET_cbKeyMost_OLD + 1) false in
        (errSuccess, seg, fTruncated)
      else
        match FLDNormalizeFixedSegment dataRaw coltyp fDotNetGuid with
        | Some seg => (errSuccess, seg, false)
        | None => (errReadPastData, [], false)
        end
  end.
End Text.

(** ** Limits *)

Definition FLDISetFullColumnLimit (norm : list Z) (cbAvailWithSuffix : Z) (fNeedSentinel : bool) : list Z :=
  if fNeedSentinel then norm ++ repeat bSentinel (Z.to_nat (cbAvailWithSuffix - Z.of_nat (length norm))) else norm.

(** The [for] loop that looks for the delimiter; it stops at [ibSuffix] at the
    latest, and has no result when it leaves the bytes of the segment before. *)
Fixpoint delimiter_loop (fuel : nat) (norm : list Z) (bDelimiter ibT ibSuffix : Z) : option Z :=
  match fuel with
  | O => None
  | S fuel =>
      if ibT <? ibSuffix then
        let? b := nth_error norm (Z.to_nat ibT) in
        if b =? bDelimiter then Some ibT else delimiter_loop fuel norm bDelimiter (ibT + 1) ibSuffix
      else Some ibT
  end.

Definition FLDISetPartialColumnLimitOnTextColumn (norm : list Z) (cbAvailWithSuffix : Z) (fDescending fNeedSentinel : bool) (cp : Z)
    : option (list Z) :=
  let ibSuffix := cbAvailWithSuffix - 1 in
  let cb := Z.of_nat (length norm) in
  if cb <? 2 then Some (FLDISetFullColumnLimit norm cbAvailWithSuffix fNeedSentinel)
  else
    let flip b := if fDescending then bNot b else b in
    let? ibT :=
      if usUniCodePage =? cp then delimiter_loop (S (Z.to_nat ibSuffix)) norm (flip bUnicodeSortKeySentinel) 1 ibSuffix
      else Some (if flip bASCIISortKeyTerminator =? last norm 0 then cb - 1 else cb) in
    let ibT := Z.min ibT ibSuffix in
    Some (if fNeedSentinel then firstn (Z.to_nat ibT) norm ++ repeat bSentinel (Z.to_nat (ibSuffix - ibT + 1))
          else firstn (Z.to_nat ibT) norm).

Definition FLDITrySetPartialColumnLimitOnBinaryColumn (norm : list Z) (cbAvailWithSuffix ibBinaryColumnDelimiter : Z) (fNeedSentinel : bool)
    : list Z :=
  if 0 =? ibBinaryColumnDelimiter then FLDISetFullColumnLimit norm cbAvailWithSuffix fNeedSentinel
  else if fNeedSentinel then
    firstn (Z.to_nat ibBinaryColumnDelimiter) norm
    ++ repeat bSentinel (Z.to_nat (Z.of_nat (length norm) + 1 - ibBinaryColumnDelimiter))
  else firstn (Z.to_nat ibBinaryColumnDelimiter) norm.

(** ** Segments of a search key *)

(** [FIELD] and [IDXSEG]: what an index knows of one of its columns. *)
Record IDXSEG := Idxseg { seg_columnid : Z; seg_coltyp : JET_COLTYP; seg_cbMaxLen : Z; seg_cp : Z; seg_fFixed : bool; seg_fDescending : bool }.

Record IDB := Idb {
  idb_CbKeyMost : Z;
  idb_CbVarSegMac : Z;
  idb_FDotNetGuid : bool;
  idb_FSortNullsHigh : bool;
  idb_FTuples : bool;
  idb_CchTuplesLengthMin : Z;
  idb_CchTuplesLengthMax : Z;
  idb_FHasPlaceholderColumn : bool;
  idb_rgidxseg : list IDXSEG
}.

(** The status bits of a search key. *)
Record KEYSTAT := Keystat { fPrepared : bool; fTooBig : bool; fLimit : bool }.
Definition keystatNull : KEYSTAT := Keystat false false false.
Definition KSSetPrepare (k : KEYSTAT) : KEYSTAT := Keystat true (fTooBig k) (fLimit k).
Definition KSSetTooBig (k : KEYSTAT) : KEYSTAT := Keystat (fPrepared k) true (fLimit k).
Definition KSSetLimit (k : KEYSTAT) : KEYSTAT := Keystat (fPrepared k) (fTooBig k) true.

(** [cbVarSegMac] of an index that does not truncate is made larger than any key. *)
Definition CbVarSegMacT (pidb : IDB) : Z :=
  if idb_CbKeyMost pidb =? idb_CbVarSegMac pidb then idb_CbKeyMost pidb + 1 else idb_CbVarSegMac pidb.

Section Segment.
Context `{Loc : NormLocale}.

(** The normalised value before the complement and the limits: the error, the
    segment, the status and the delimiter. *)
Definition normalize_value (pidb : IDB) (column : list Z) (coltyp : JET_COLTYP) (cp cbAvail : Z) (fFixedField fTupleField : bool)
    (grbit : Z) (ks : KEYSTAT) : option (Z * list Z * KEYSTAT * Z) :=
  let cbKeyMost := idb_CbKeyMost pidb in
  let cbVarSegMac := CbVarSegMacT pidb in
  match column with
  | [] =>
      if fTupleField then Some (JET_errIndexTuplesKeyTooSmall, [], ks, 0)
      else
        let fZeroLength := fbit grbit JET_bitKeyDataZeroLength in
        if fZeroLength && (fFixedField || (negb (FRECTextColumn coltyp) && negb (FRECBinaryColumn coltyp)))
        then Some (JET_errInvalidBufferSize, [], ks, 0)
        else Some (errSuccess, FLDNormalizeNullSegment coltyp fZeroLength (idb_FSortNullsHigh pidb), ks, 0)
  | _ =>
      let cbColumn := Z.of_nat (length column) in
      if FRECTextColumn coltyp then
        let chColumn := if usUniCodePage =? cp then cbColumn / 2 else cbColumn in
        let cbColumnMax := if usUniCodePage =? cp then idb_CchTuplesLengthMax pidb * 2 else idb_CchTuplesLengthMax pidb in
        if fTupleField && (chColumn <? idb_CchTuplesLengthMin pidb) then Some (JET_errIndexTuplesKeyTooSmall, [], ks, 0)
        else
          let column := if fTupleField then firstn (Z.to_nat (Z.min cbColumn cbColumnMax)) column else column in
          let '(err, seg) := ErrFLDNormalizeTextSegment column cbAvail cbKeyMost cbVarSegMac cp in
          if err <? 0 then Some (err, [], ks, 0)
          else Some (errSuccess, seg, if wrnFLDKeyTooBig =? err then KSSetTooBig ks else ks, 0)
      else if FRECBinaryColumn coltyp then
        let '(seg, fTruncated, delim) := FLDNormalizeBinarySegment column cbAvail cbKeyMost cbVarSegMac fFixedField in
        Some (errSuccess, seg, if fTruncated then KSSetTooBig ks else ks, delim)
      else
        let? seg := FLDNormalizeFixedSegment column coltyp (idb_FDotNetGuid pidb) in
        if cbAvail <? Z.of_nat (length seg) then Some (errSuccess, firstn (Z.to_nat cbAvail) seg, KSSetTooBig ks, 0)
        else Some (errSuccess, seg, ks, 0)
  end.

(** The limit options: the segment and whether [KSSetLimit] was called. *)
Definition apply_limits (norm : list Z) (coltyp : JET_COLTYP) (cp cbAvail : Z) (fDescending : bool) (grbit delim : Z)
    : option (list Z * bool) :=
  let opt := Z.land grbit JET_maskLimitOptions in
  if (opt =? JET_bitFullColumnStartLimit) || (opt =? JET_bitFullColumnEndLimit)
  then Some (FLDISetFullColumnLimit norm (cbAvail + 1) (fbit grbit JET_bitFullColumnEndLimit), true)
  else if (opt =? JET_bitPartialColumnStartLimit) || (opt =? JET_bitPartialColumnEndLimit) then
    let fNeed := fbit grbit JET_bitPartialColumnEndLimit in
    let? norm :=
      if FRECTextColumn coltyp then FLDISetPartialColumnLimitOnTextColumn norm (cbAvail + 1) fDescending fNeed cp
      else Some (FLDITrySetPartialColumnLimitOnBinaryColumn norm (cbAvail + 1) delim fNeed) in
    Some (norm, true)
  else if fbit grbit JET_bitSubStrLimit && FRECTextColumn coltyp then
    let? norm := FLDISetPartialColumnLimitOnTextColumn norm (cbAvail + 1) fDescending true cp in
    Some (norm, true)
  else if fbit grbit JET_bitStrLimit then
    Some (FLDITrySetPartialColumnLimitOnBinaryColumn norm (cbAvail + 1) delim true, true)
  else Some (norm, false).

(** Returns the error, [plineNorm] and the status; [column] is empty for a null
    or zero-length column. *)
Definition ErrFLDNormalizeSegment (pidb : IDB) (column : list Z) (coltyp : JET_COLTYP) (cp cbAvail : Z)
    (fDescending fFixedField fTupleField : bool) (grbit : Z) (ks : KEYSTAT) : option (Z * list Z * KEYSTAT) :=
  let? (err, norm, ks, delim) := normalize_value pidb column coltyp cp cbAvail fFixedField fTupleField grbit ks in
  if err <? 0 then Some (err, [], ks)
  else
    let norm := if fDescending then map bNot norm else norm in
    let? (norm, fLim) := apply_limits norm coltyp cp cbAvail fDescending grbit delim in
    Some (errSuccess, norm, if fLim : bool then KSSetLimit ks else ks).
End Segment.

(** ** Making a search key *)

(** The search key of a cursor: [dataSearchKey], [cColumnsInSearchKey], [keystat]. *)
Record SEARCHKEY := Searchkey { sk_key : list Z; sk_cColumns : Z; sk_stat : KEYSTAT }.

(** A cursor whose buffer was just allocated. *)
Definition searchkey_new : SEARCHKEY := Searchkey [] 0 keystatNull.

Definition CbLimitKeyMost (us : Z) : Z := u16 (us + 1).

(** The size of the buffer a segment is normalised into: on the stack, or of
    the key resource (which holds a search key as well). *)
Definition cbSegStack : Z := 256.
Definition cbKeyAlloc : Z := 2000 + 1.
Definition cbSegBuffer (cbKeyMost : Z) : Z := if cbSegStack <? cbKeyMost then cbKeyAlloc else cbSegStack.

(** Pads the field to [cb] bytes with spaces. *)
Definition RECTextColumnPadding (field : list Z) (cb cp : Z) : list Z :=
  let cbField := Z.of_nat (length field) in
  field ++ map (fun i => if usUniCodePage =? cp then if (cbField + Z.of_nat i) mod 2 =? 0 then 32 else 0 else 32)
             (seq 0 (Z.to_nat (cb - cbField))).

Definition RECINormalisePlaceholder (fDescending : bool) (sk : SEARCHKEY) : SEARCHKEY :=
  Searchkey [if fDescending then bNot bPrefixData else bPrefixData; if fDescending then 0xff else 0x00] 1 (sk_stat sk).

(** The value of a key segment: fixed columns must have their size, except
    that short text is padded. *)
Definition fit_key_segment (idxseg : IDXSEG) (pvKeySeg lineKeySeg : list Z) : option (list Z) :=
  let cbKeySeg := Z.of_nat (length pvKeySeg) in
  if seg_fFixed idxseg && (0 <? cbKeySeg) && negb (cbKeySeg =? seg_cbMaxLen idxseg) then
    match seg_coltyp idxseg with
    | coltypText =>
        if (cbKeySeg <? seg_cbMaxLen idxseg) && (cbKeySeg <? JET_cbColumnMost)
        then Some (RECTextColumnPadding lineKeySeg (seg_cbMaxLen idxseg) (seg_cp idxseg)) else None
    | _ => None
    end
  else Some lineKeySeg.

Definition valid_limit_options (idxseg : IDXSEG) (grbit : Z) : bool :=
  let opt := Z.land grbit JET_maskLimitOptions in
  let coltyp := seg_coltyp idxseg in
  if (opt =? JET_bitPartialColumnStartLimit) || (opt =? JET_bitPartialColumnEndLimit)
  then negb (negb (FRECTextColumn coltyp) && (seg_fFixed idxseg || negb (FRECBinaryColumn coltyp)))
  else (opt =? 0) || (opt =? JET_bitFullColumnStartLimit) || (opt =? JET_bitFullColumnEndLimit).

Section MakeKey.
Context `{Loc : NormLocale}.

(** A key that the caller has normalised. *)
Definition make_normalized_key (sk : SEARCHKEY) (pvKeySeg : list Z) (cbKeyMost : Z) : Z * SEARCHKEY :=
  let cbKeySeg := Z.of_nat (length pvKeySeg) in
  let cbLimitKeyMost := CbLimitKeyMost cbKeyMost in
  if (cbLimitKeyMost <? cbKeySeg) && (JET_cbKeyMost <? cbKeySeg) then (JET_errNormInvalidParameter, sk)
  else
    let cbKeySeg := Z.min cbLimitKeyMost cbKeySeg in
    let stat := KSSetPrepare keystatNull in
    (errSuccess, Searchkey (firstn (Z.to_nat cbKeySeg) pvKeySeg) 1 (if cbKeyMost <? cbKeySeg then KSSetLimit stat else stat)).

(** One more column at the end of the key. *)
Definition append_key_segment (pidb : IDB) (idxseg : IDXSEG) (sk : SEARCHKEY) (lineKeySeg : list Z) (grbit : Z)
    : option (Z * SEARCHKEY) :=
  let cbKeyMost := idb_CbKeyMost pidb in
  let cbKey := Z.of_nat (length (sk_key sk)) in
  let? (err, seg, stat) :=
    if negb (fTooBig (sk_stat sk)) && (cbKey <? cbKeyMost) then
      ErrFLDNormalizeSegment pidb lineKeySeg (seg_coltyp idxseg) (seg_cp idxseg) (cbKeyMost - cbKey) (seg_fDescending idxseg)
        (seg_fFixed idxseg) ((0 =? sk_cColumns sk) && idb_FTuples pidb) grbit (sk_stat sk)
    else Some (errSuccess, [], sk_stat sk) in
  if err <? 0 then Some (err, Searchkey (sk_key sk) (sk_cColumns sk) stat)
  else
    let seg := if CbLimitKeyMost cbKeyMost <? cbKey + Z.of_nat (length seg)
               then firstn (Z.to_nat (CbLimitKeyMost cbKeyMost - cbKey)) seg else seg in
    Some (errSuccess, Searchkey (sk_key sk ++ seg) (sk_cColumns sk + 1) (KSSetPrepare stat)).

(** [ErrIsamMakeKey], once the index of the cursor is known ([None] for a
    sequential index) and its buffers are allocated. *)
Definition ErrIsamMakeKey (pidb : option IDB) (sk : SEARCHKEY) (pvKeySeg : list Z) (grbit : Z) : option (Z * SEARCHKEY) :=
  let cbKeyMost := match pidb with None => JET_cbKeyMost_OLD | Some pidb => idb_CbKeyMost pidb end in
  let lineKeySeg := if cbKeyMost =? JET_cbKeyMost_OLD then firstn (Z.to_nat JET_cbKeyMost_OLD) pvKeySeg else pvKeySeg in
  if fbit grbit JET_bitNormalizedKey then Some (make_normalized_key sk pvKeySeg cbKeyMost)
  else
    let? pidb := pidb in
    let fNew := fbit grbit JET_bitNewKey in
    if negb fNew && fLimit (sk_stat sk) then Some (JET_errKeyIsMade, sk)
    else if negb fNew && negb (fPrepared (sk_stat sk)) then Some (JET_errKeyNotMade, sk)
    else
      let sk := if fNew then searchkey_new else sk in
      let sk :=
        if negb (fPrepared (sk_stat sk)) && idb_FHasPlaceholderColumn pidb && negb (fbit grbit JET_bitKeyOverridePrimaryIndexPlaceholder)
        then RECINormalisePlaceholder (match idb_rgidxseg pidb with s :: _ => seg_fDescending s | [] => false end) sk else sk in
      match nth_error (idb_rgidxseg pidb) (Z.to_nat (sk_cColumns sk)) with
      | None => Some (JET_errKeyIsMade, sk)
      | Some idxseg =>
          match fit_key_segment idxseg pvKeySeg lineKeySeg with
          | None => Some (JET_errInvalidBufferSize, sk)
          | Some lineKeySeg =>
              if negb (valid_limit_options idxseg grbit) then Some (JET_errInvalidGrbit, sk)
              else append_key_segment pidb idxseg sk lineKeySeg grbit
          end
      end.
End MakeKey.

(** ** Reading a column back from a key *)

(** The first [n] bytes at [pbKey] and the rest. *)
Definition take_bytes (n : nat) (key : list Z) : option (list Z * list Z) :=
  if (n <=? length key)%nat then Some (firstn n key, skipn n key) else None.

(** Fixed columns of [n] bytes: [un] undoes the transformation of the number.
    Each case reads the prefix byte, which is the null prefix or assumed to be
    the data prefix. *)
Definition retrieve_number (n : nat) (mask : bool) (bPrefixNullT : Z) (un : Z -> Z) (key : list Z) : option (list Z * bool * list Z) :=
  let? (b, key) := take_bytes 1 key in
  if nth 0 b 0 =? (if mask then bNot bPrefixNullT else bPrefixNullT) then Some ([], true, key)
  else let? (v, key) := take_bytes n key in Some (le_bytes_of n (un (be_number v)), false, key).

(** Byte [i] of a GUID is byte [nth i order] of the key.  The GUID cases do not
    look at the direction of the column. *)
Definition guid_source_net : list nat := [3; 2; 1; 0; 5; 4; 7; 6; 8; 9; 10; 11; 12; 13; 14; 15]%nat.
Definition guid_source : list nat := [12; 13; 14; 15; 10; 11; 8; 9; 6; 7; 0; 1; 2; 3; 4; 5]%nat.

Definition retrieve_guid (order : list nat) (key : list Z) : option (list Z * bool * list Z) :=
  let? (b, key) := take_bytes 1 key in
  if nth 0 b 0 =? bPrefixData then
    let? (v, key) := take_bytes 16 key in
    Some (map (fun i => nth i v 0) order, false, key)
  else Some ([], true, key).

(** The [do] loop over binary chunks. *)
Fixpoint retrieve_chunks (fuel : nat) (mask : bool) (key : list Z) : option (list Z * list Z) :=
  match fuel with
  | O => None
  | S fuel =>
      let flip b := if mask then bNot b else b in
      let? (chunk, next) := take_bytes 9 key in
      let cb := flip (nth 8 chunk 0) in
      let cbChunk := if cbFLDBinaryChunkNormalized =? cb then cbFLDBinaryChunkNormalized - 1 else cb in
      let? (bytes, _) := take_bytes (Z.to_nat cbChunk) key in
      let bytes := map flip bytes in
      if nth 8 chunk 0 =? flip cbFLDBinaryChunkNormalized
      then let? (more, key) := retrieve_chunks fuel mask next in Some (bytes ++ more, key)
      else Some (bytes, next)
  end.

(** The bytes before [stop], and the key from it on. *)
Fixpoint retrieve_until (mask : bool) (stop : Z) (key : list Z) : option (list Z * list Z) :=
  match key with
  | [] => None
  | b :: rest =>
      if b =? (if mask then bNot stop else stop) then Some ([], key)
      else let? (bytes, key) := retrieve_until mask stop rest in Some ((if mask then bNot b else b) :: bytes, key)
  end.

Definition retrieve_text (mask : bool) (cp : Z) (key : list Z) : option (list Z * list Z) :=
  if cp =? usUniCodePage then
    let? (b1, key) := retrieve_until mask bUnicodeSortKeySentinel key in
    let? (b2, key) := retrieve_until mask bUnicodeSortKeyTerminator key in
    Some (b1 ++ b2, skipn 1 key)
  else
    let? (b, key) := retrieve_until mask bASCIISortKeyTerminator key in Some (b, skipn 1 key).

(** Text and binary columns. *)
Definition retrieve_bytes (idxseg : IDXSEG) (bPrefixNullT : Z) (key : list Z) : option (list Z * bool * list Z) :=
  let mask := seg_fDescending idxseg in
  let flip b := if mask then bNot b else b in
  let? (b, key) := take_bytes 1 key in
  if nth 0 b 0 =? flip bPrefixData then
    if seg_fFixed idxseg then
      let? (v, key) := take_bytes (Z.to_nat (seg_cbMaxLen idxseg)) key in Some (map flip v, false, key)
    else
      let? (v, key) :=
        if FRECBinaryColumn (seg_coltyp idxseg) then retrieve_chunks (S (length key)) mask key
        else retrieve_text mask (seg_cp idxseg) key in
      Some (v, false, key)
  else if seg_fFixed idxseg then Some ([], true, key)
  else Some ([], nth 0 b 0 =? flip bPrefixNullT, key).

(** Returns [plineColumn], [*pfNull] and the key after the column. *)
Definition RECIRetrieveColumnFromKey (pidb : IDB) (idxseg : IDXSEG) (key : list Z) : option (list Z * bool * list Z) :=
  let bPrefixNullT := if idb_FSortNullsHigh pidb then bPrefixNullHigh else bPrefixNull in
  let mask := seg_fDescending idxseg in
  let mb v := if mask then bNot v else v in
  let mw v := if mask then Z.lxor 0xffff v else v in
  let mdw v := if mask then dwNot v else v in
  let mqw v := if mask then qwNot v else v in
  match seg_coltyp idxseg with
  | coltypBit => retrieve_number 1 mask bPrefixNullT (fun v => if mb v =? 0 then 0x00 else 0xff) key
  | coltypUnsignedByte => retrieve_number 1 mask bPrefixNullT mb key
  | coltypShort => retrieve_number 2 mask bPrefixNullT (fun v => mw (wFlipHighBit v)) key
  | coltypUnsignedShort => retrieve_number 2 mask bPrefixNullT mw key
  | coltypLong => retrieve_number 4 mask bPrefixNullT (fun v => mdw (dwFlipHighBit v)) key
  | coltypUnsignedLong => retrieve_number 4 mask bPrefixNullT mdw key
  | coltypLongLong | coltypCurrency => retrieve_number 8 mask bPrefixNullT (fun v => mqw (qwFlipHighBit v)) key
  | coltypUnsignedLongLong => retrieve_number 8 mask bPrefixNullT mqw key
  | coltypIEEESingle =>
      retrieve_number 4 mask bPrefixNullT (fun v => let dwT := mdw v in if fbit dwT maskDWordHighBit then dwFlipHighBit dwT else dwNot dwT) key
  | coltypIEEEDouble | coltypDateTime =>
      retrieve_number 8 mask bPrefixNullT (fun v => let qwT := mqw v in if fbit qwT maskQWordHighBit then qwFlipHighBit qwT else qwNot qwT) key
  | coltypGUID => retrieve_guid (if idb_FDotNetGuid pidb then guid_source_net else guid_source) key
  | coltypText | coltypLongText | coltypBinary | coltypLongBinary => retrieve_bytes idxseg bPrefixNullT key
  end.

(** The loop of [ErrRECIRetrieveColumnFromKey]: [ib] is [pbKey - pbKeyAlloc] and
    [column] what the columns read so far have left. *)
Fixpoint retrieve_loop (pidb : IDB) (rgidxseg : list IDXSEG) (columnid ib : Z) (key : list Z) (column : option (list Z))
    : option (Z * list Z) :=
  match rgidxseg with
  | [] => let? column := column in Some (errSuccess, column)
  | idxseg :: rgidxseg =>
      if ib <? idb_CbKeyMost pidb then
        let? (column, fNull, rest) := RECIRetrieveColumnFromKey pidb idxseg key in
        if columnid =? seg_columnid idxseg then Some (if fNull : bool then JET_wrnColumnNull else errSuccess, column)
        else retrieve_loop pidb rgidxseg columnid (ib + Z.of_nat (length key - length rest)) rest (Some column)
      else let? column := column in Some (errSuccess, column)
  end.

Definition ErrRECIRetrieveColumnFromKey (pidb : IDB) (key : list Z) (columnid : Z) : option (Z * list Z) :=
  retrieve_loop pidb (idb_rgidxseg pidb) columnid 0 (firstn (Z.to_nat (idb_CbKeyMost pidb)) key) None.
