(* ===== verification/NormOrder.v ===== *)
(** * The order of normalised fixed columns

    Two segments are [ranked] when they are equal or differ at a position that
    both have: then the comparison of two keys that continue them is decided by
    the segments, and complementing both turns it around. *)

From Stdlib Require Import ZArith List Lia Bool SpecFloat.
From S2P Require Import Prelude Bits Mem Key KeyProps Norm.
Import ListNotations.

(** ** Ranked segments *)

Definition ranked (s1 s2 : list Z) (c : Z) : Prop :=
  (c = 0 /\ s1 = s2) \/
  (exists p a b t1 t2, s1 = p ++ a :: t1 /\ s2 = p ++ b :: t2 /\ a <> b /\ c = Z.sgn (a - b)).

Lemma ranked_refl s : ranked s s 0.
Proof. left. auto. Qed.

Lemma lex_same_head p l1 l2 : lex (p ++ l1) (p ++ l2) = lex l1 l2.
Proof. induction p as [|x p IH]; cbn [app lex]; [reflexivity|]. now rewrite Z.eqb_refl. Qed.

Lemma ranked_lex s1 s2 c r1 r2 : ranked s1 s2 c -> lex (s1 ++ r1) (s2 ++ r2) = if c =? 0 then lex r1 r2 else c.
Proof.
  intros [[-> ->]|(p & a & b & t1 & t2 & -> & -> & Hab & ->)]; [apply lex_same_head|].
  rewrite <- !app_assoc. cbn [app]. rewrite lex_same_head. cbn [lex].
  destruct (Z.eqb_spec a b); [contradiction|]. destruct (Z.eqb_spec (Z.sgn (a - b)) 0); [lia|reflexivity].
Qed.

Lemma ranked_app s1 s2 c r1 r2 d : ranked s1 s2 c -> ranked r1 r2 d -> ranked (s1 ++ r1) (s2 ++ r2) (if c =? 0 then d else c).
Proof.
  intros [[-> ->]|(p & a & b & t1 & t2 & -> & -> & Hab & ->)] Hr.
  - destruct Hr as [[-> ->]|(p & a & b & t1 & t2 & -> & -> & Hab & ->)]; [now left|].
    right. exists (s2 ++ p), a, b, t1, t2. now rewrite <- !app_assoc.
  - destruct (Z.eqb_spec (Z.sgn (a - b)) 0); [lia|]. right. exists p, a, b, (t1 ++ r1), (t2 ++ r2). now rewrite <- !app_assoc.
Qed.

Lemma ranked_one a b : ranked [a] [b] (Z.sgn (a - b)).
Proof.
  destruct (Z.eq_dec a b) as [->|H]; [left; rewrite Z.sub_diag; auto|]. right. exists [], a, b, [], []. auto.
Qed.

Lemma ranked_cons x s1 s2 c : ranked s1 s2 c -> ranked (x :: s1) (x :: s2) c.
Proof. intros H. exact (ranked_app [x] [x] 0 s1 s2 c (ranked_refl _) H). Qed.

(** Segments that begin with different bytes. *)
Lemma ranked_heads a b t1 t2 : a <> b -> ranked (a :: t1) (b :: t2) (Z.sgn (a - b)).
Proof. intros H. right. exists [], a, b, t1, t2. auto. Qed.

Lemma lxor_ones n w : 0 <= n -> 0 <= w < 2 ^ n -> Z.lxor w (Z.ones n) = 2 ^ n - 1 - w.
Proof.
  intros Hn Hw. replace (2 ^ n - 1 - w) with (Z.ones n - w) by (rewrite Z.ones_equiv; lia).
  assert (L : Z.ldiff w (Z.ones n) = 0) by (rewrite Z.ldiff_ones_r by lia; rewrite Z.shiftr_div_pow2, Z.div_small by lia; apply Z.shiftl_0_l).
  rewrite Z.sub_nocarry_ldiff by exact L. apply Z.bits_inj'. intros k Hk. rewrite Z.lxor_spec, Z.ldiff_spec.
  destruct (Z.lt_ge_cases k n).
  - rewrite Z.ones_spec_low by lia. now destruct (Z.testbit w k).
  - rewrite Z.ones_spec_high by lia. now rewrite (testbit_high n w) by lia.
Qed.

Lemma bNot_sub b : 0 <= b < 256 -> bNot b = 255 - b.
Proof. intros H. unfold bNot. change 255 with (Z.ones 8) at 1. now rewrite (lxor_ones 8) by (change (2 ^ 8) with 256; lia). Qed.

Lemma ranked_complement s1 s2 c : bytes_ok s1 -> bytes_ok s2 -> ranked s1 s2 c -> ranked (map bNot s1) (map bNot s2) (- c).
Proof.
  intros B1 B2 [[-> ->]|(p & a & b & t1 & t2 & -> & -> & Hab & ->)]; [now left|].
  apply Forall_app in B1 as [_ B1]. apply Forall_app in B2 as [_ B2]. inversion_clear B1 as [|? ? Ha _]. inversion_clear B2 as [|? ? Hb _].
  right. exists (map bNot p), (bNot a), (bNot b), (map bNot t1), (map bNot t2). rewrite !map_app. cbn [map].
  rewrite !bNot_sub by assumption. repeat split; lia.
Qed.

(** A truncated key compares as the whole, or equal. *)
Lemma lex_firstn n l1 : forall l2, lex (firstn n l1) (firstn n l2) = 0 \/ lex (firstn n l1) (firstn n l2) = lex l1 l2.
Proof.
  revert l1. induction n as [|n IH]; intros l1 l2; [now left|]. destruct l1 as [|a l1], l2 as [|b l2]; cbn [firstn lex]; auto.
  destruct (a =? b); auto.
Qed.

(** ** Big-endian numbers *)

Lemma be_bytes_S n v : be_bytes_of (S n) v = be_bytes_of n (v / 256) ++ [v mod 256].
Proof. reflexivity. Qed.

Lemma length_be_bytes n : forall v, length (be_bytes_of n v) = n.
Proof. induction n as [|n IH]; intros v; [reflexivity|]. rewrite be_bytes_S, length_app, IH. cbn. lia. Qed.

Lemma be_bytes_ok n : forall v, bytes_ok (be_bytes_of n v).
Proof.
  induction n as [|n IH]; intros v; [constructor|]. rewrite be_bytes_S. apply Forall_app. split; [apply IH|].
  constructor; [apply Z.mod_pos_bound; lia|constructor].
Qed.

Lemma pow256_S n : 256 ^ Z.of_nat (S n) = 256 * 256 ^ Z.of_nat n.
Proof. rewrite Nat2Z.inj_succ, Z.pow_succ_r; lia. Qed.

Lemma ranked_be n : forall x y, 0 <= x < 256 ^ Z.of_nat n -> 0 <= y < 256 ^ Z.of_nat n ->
  ranked (be_bytes_of n x) (be_bytes_of n y) (Z.sgn (x - y)).
Proof.
  induction n as [|n IH]; intros x y Hx Hy.
  - cbn in Hx, Hy. assert (x = y) as -> by lia. rewrite Z.sub_diag. apply ranked_refl.
  - rewrite pow256_S in *. rewrite !be_bytes_S.
    assert (Hx' : 0 <= x / 256 < 256 ^ Z.of_nat n) by zlia. assert (Hy' : 0 <= y / 256 < 256 ^ Z.of_nat n) by zlia.
    pose proof (ranked_app _ _ _ _ _ _ (IH _ _ Hx' Hy') (ranked_one (x mod 256) (y mod 256))) as R.
    destruct (Z.eqb_spec (Z.sgn (x / 256 - y / 256)) 0).
    + replace (Z.sgn (x - y)) with (Z.sgn (x mod 256 - y mod 256)); [exact R|]. f_equal. zlia.
    + replace (Z.sgn (x - y)) with (Z.sgn (x / 256 - y / 256)); [exact R|]. zlia.
Qed.

Lemma le_number_range l : bytes_ok l -> 0 <= le_number l < 256 ^ Z.of_nat (length l).
Proof.
  induction 1 as [|b l Hb Hl IH]; [cbn; lia|]. cbn [length]. rewrite pow256_S. cbn [le_number fold_right]. fold (le_number l). lia.
Qed.

Lemma le_bytes_number l : bytes_ok l -> le_bytes_of (length l) (le_number l) = l.
Proof.
  induction 1 as [|b l Hb Hl IH]; [reflexivity|]. cbn [length le_bytes_of le_number fold_right]. fold (le_number l).
  replace ((b + 256 * le_number l) mod 256) with b by zlia. replace ((b + 256 * le_number l) / 256) with (le_number l) by zlia. now rewrite IH.
Qed.

Lemma be_bytes_number l : bytes_ok l -> be_bytes_of (length l) (be_number l) = l.
Proof.
  intros H. unfold be_bytes_of, be_number. rewrite <- length_rev, le_bytes_number by (now apply Forall_rev). apply rev_involutive.
Qed.

Lemma be_number_range l : bytes_ok l -> 0 <= be_number l < 256 ^ Z.of_nat (length l).
Proof. intros H. unfold be_number. rewrite <- length_rev. now apply le_number_range, Forall_rev. Qed.

Lemma be_number_bytes n v : 0 <= v < 256 ^ Z.of_nat n -> be_number (be_bytes_of n v) = v.
Proof.
  unfold be_number, be_bytes_of. rewrite rev_involutive. revert v. induction n as [|n IH]; intros v Hv; [cbn in *; lia|].
  rewrite pow256_S in Hv. cbn [le_bytes_of le_number fold_right]. fold (le_number (le_bytes_of n (v / 256))). rewrite IH; zlia.
Qed.

(** ** Flipped bits *)

Lemma flip_high k w : 0 <= k -> 0 <= w < 2 ^ (k + 1) -> Z.lxor w (2 ^ k) = if w <? 2 ^ k then w + 2 ^ k else w - 2 ^ k.
Proof.
  intros Hk Hw. rewrite Z.pow_add_r in Hw by lia. change (2 ^ 1) with 2 in Hw.
  assert (A : forall r, 0 <= r < 2 ^ k -> Z.land r (2 ^ k) = 0).
  { intros r Hr. apply Z.bits_inj'. intros i Hi. rewrite Z.land_spec, Z.bits_0, Z.pow2_bits_eqb by lia.
    destruct (Z.eqb_spec k i) as [->|]; [rewrite (testbit_high i r) by lia|]; now rewrite ?andb_false_r. }
  destruct (Z.ltb_spec w (2 ^ k)).
  - symmetry. apply Z.add_nocarry_lxor. apply A. lia.
  - set (r := w - 2 ^ k). assert (E : w = Z.lxor r (2 ^ k)) by (rewrite <- Z.add_nocarry_lxor by (apply A; unfold r; lia); unfold r; lia).
    rewrite E at 1. rewrite Z.lxor_assoc, Z.lxor_nilpotent, Z.lxor_0_r. reflexivity.
Qed.

Lemma high_bit k w : 0 <= k -> 0 <= w < 2 ^ (k + 1) -> fbit w (2 ^ k) = (2 ^ k <=? w).
Proof.
  intros Hk Hw. unfold fbit. rewrite Z.pow_add_r in Hw by lia. change (2 ^ 1) with 2 in Hw.
  assert (E : Z.land w (2 ^ k) = if Z.testbit w k then 2 ^ k else 0).
  { apply Z.bits_inj'. intros i Hi. rewrite Z.land_spec, Z.pow2_bits_eqb by lia. destruct (Z.eqb_spec k i) as [->|Hne].
    - destruct (Z.testbit w i); [now rewrite Z.pow2_bits_true by lia|now rewrite Z.bits_0].
    - rewrite andb_false_r. destruct (Z.testbit w k); [now rewrite Z.pow2_bits_false by lia|now rewrite Z.bits_0]. }
  rewrite E, Z.testbit_eqb by lia.
  destruct (Z.leb_spec (2 ^ k) w).
  - replace (w / 2 ^ k) with 1 by (apply (Z.div_unique w (2 ^ k) 1 (w - 2 ^ k)); lia). cbn. destruct (Z.eqb_spec (2 ^ k) 0); [lia|reflexivity].
  - rewrite Z.div_small by lia. reflexivity.
Qed.

(** ** The values of fixed columns *)

Definition s64 (x : Z) : Z := let y := u64 x in if y <? 9223372036854775808 then y else y - 18446744073709551616.

(** The place of a floating-point number among all: the numbers with the sign
    bit come first, in reverse. *)
Definition ieee_rank (k w : Z) : Z := if 2 ^ k <=? w then - (w - 2 ^ k) - 1 else w.

(** The size of a fixed column and the value its bytes stand for. *)
Definition fixed_size (coltyp : JET_COLTYP) : option nat :=
  match coltyp with
  | coltypBit | coltypUnsignedByte => Some 1%nat
  | coltypShort | coltypUnsignedShort => Some 2%nat
  | coltypLong | coltypUnsignedLong | coltypIEEESingle => Some 4%nat
  | coltypLongLong | coltypUnsignedLongLong | coltypCurrency | coltypIEEEDouble | coltypDateTime => Some 8%nat
  | coltypGUID => Some 16%nat
  | _ => None
  end.

Definition fixed_value (fDotNetGuid : bool) (coltyp : JET_COLTYP) (v : list Z) : Z :=
  match coltyp with
  | coltypBit => if le_number v =? 0 then 0 else 255
  | coltypShort => s16 (le_number v)
  | coltypLong => s32 (le_number v)
  | coltypLongLong | coltypCurrency => s64 (le_number v)
  | coltypIEEESingle => ieee_rank 31 (le_number v)
  | coltypIEEEDouble | coltypDateTime => ieee_rank 63 (le_number v)
  | coltypGUID => be_number (map (fun i => nth i v 0) (if fDotNetGuid then guid_order_net else guid_order))
  | _ => le_number v
  end.

(** The number with the bits of [w], as [k + 1] bits in two's complement. *)
Definition signed (k w : Z) : Z := if w <? 2 ^ k then w else w - 2 ^ (k + 1).

Lemma flip_value k w : 0 <= k -> 0 <= w < 2 ^ (k + 1) -> Z.lxor w (2 ^ k) = signed k w + 2 ^ k /\ 0 <= signed k w + 2 ^ k < 2 ^ (k + 1).
Proof.
  intros Hk Hw. rewrite flip_high by assumption. unfold signed. rewrite Z.pow_add_r in * by lia. change (2 ^ 1) with 2 in *. case_cmp; lia.
Qed.

Lemma signed_s16 w : 0 <= w < 65536 -> s16 w = signed 15 w.
Proof. intros H. unfold s16, u16. rewrite Z.mod_small by lia. reflexivity. Qed.
Lemma signed_s32 w : 0 <= w < 4294967296 -> s32 w = signed 31 w.
Proof. intros H. unfold s32, u32. rewrite Z.mod_small by lia. reflexivity. Qed.
Lemma signed_s64 w : 0 <= w < 18446744073709551616 -> s64 w = signed 63 w.
Proof. intros H. unfold s64, u64. rewrite Z.mod_small by lia. reflexivity. Qed.

Lemma ieee_value k w : 0 <= k -> 0 <= w < 2 ^ (k + 1) ->
  (if fbit w (2 ^ k) then Z.lxor w (Z.ones (k + 1)) else Z.lxor w (2 ^ k)) = ieee_rank k w + 2 ^ k /\ 0 <= ieee_rank k w + 2 ^ k < 2 ^ (k + 1).
Proof.
  intros Hk Hw. rewrite high_bit, flip_high, lxor_ones by lia. unfold ieee_rank. rewrite Z.pow_add_r in * by lia. change (2 ^ 1) with 2 in *.
  case_cmp; lia.
Qed.

Lemma map_nth_ok v order : bytes_ok v -> bytes_ok (map (fun i => nth i v 0) order).
Proof.
  intros H. apply Forall_map, Forall_forall. intros i _. destruct (Nat.lt_ge_cases i (length v)).
  - unfold bytes_ok in H. rewrite Forall_forall in H. now apply H, nth_In.
  - rewrite nth_overflow by assumption. lia.
Qed.

Lemma one_byte v : length v = 1%nat -> bytes_ok v -> exists b, v = [b] /\ 0 <= b < 256 /\ le_number v = b.
Proof.
  intros Hl Hv. destruct v as [|b [|]]; try discriminate. exists b. inversion_clear Hv. split; [reflexivity|]. split; [assumption|]. cbn. lia.
Qed.

Lemma be_byte b : 0 <= b < 256 -> be_bytes_of 1 b = [b].
Proof. intros H. cbn. now rewrite Z.mod_small. Qed.

(** What is added to the value of a column before it is stored. *)
Definition fixed_offset (coltyp : JET_COLTYP) : Z :=
  match coltyp with
  | coltypShort => 2 ^ 15
  | coltypLong | coltypIEEESingle => 2 ^ 31
  | coltypLongLong | coltypCurrency | coltypIEEEDouble | coltypDateTime => 2 ^ 63
  | _ => 0
  end.

Lemma same_segment n x y B : y = x /\ 0 <= x < B -> bPrefixData :: be_bytes_of n y = bPrefixData :: be_bytes_of n x /\ 0 <= x < B.
Proof. now intros [-> H]. Qed.

(** The segment of a field that has the size of its type. *)
Definition fixed_segment (v : list Z) (coltyp : JET_COLTYP) (g : bool) : list Z :=
  let w := le_number v in
  match coltyp with
  | coltypBit => [bPrefixData; if w =? 0 then 0x00 else 0xff]
  | coltypUnsignedByte => [bPrefixData; w]
  | coltypShort => bPrefixData :: be_bytes_of 2 (wFlipHighBit w)
  | coltypUnsignedShort => bPrefixData :: be_bytes_of 2 w
  | coltypLong => bPrefixData :: be_bytes_of 4 (dwFlipHighBit w)
  | coltypUnsignedLong => bPrefixData :: be_bytes_of 4 w
  | coltypLongLong | coltypCurrency => bPrefixData :: be_bytes_of 8 (qwFlipHighBit w)
  | coltypUnsignedLongLong => bPrefixData :: be_bytes_of 8 w
  | coltypIEEESingle => bPrefixData :: be_bytes_of 4 (if fbit w maskDWordHighBit then dwNot w else dwFlipHighBit w)
  | coltypIEEEDouble | coltypDateTime => bPrefixData :: be_bytes_of 8 (if fbit w maskQWordHighBit then qwNot w else qwFlipHighBit w)
  | coltypGUID => bPrefixData :: map (fun i => nth i v 0) (if g then guid_order_net else guid_order)
  | _ => []
  end.

Lemma read_bytes_nth v places : Forall (fun i => (i < length v)%nat) places -> read_bytes v places = Some (map (fun i => nth i v 0) places).
Proof.
  induction 1 as [|i places H F IH]; [reflexivity|]. cbn [read_bytes map]. destruct (nth_error v i) as [b|] eqn:E; [|apply nth_error_None in E; lia]. rewrite (nth_error_nth _ _ _ E), IH. reflexivity.
Qed.

Lemma read_bytes_short v places : (exists i, In i places /\ (length v <= i)%nat) -> read_bytes v places = None.
Proof.
  intros (i & I & L). induction places as [|k places IH]; [contradiction|]. cbn [read_bytes]. destruct I as [-> | I]; [now rewrite (proj2 (nth_error_None v i) L)|]. destruct (nth_error v k); [|reflexivity]. now rewrite IH.
Qed.

(** A field is normalised if it has the bytes that its type reads; what follows them
    does not matter. *)
Lemma FLDNormalizeFixedSegment_eq v coltyp g : FLDNormalizeFixedSegment v coltyp g =
  match fixed_size coltyp with
  | Some n => if (n <=? length v)%nat then Some (fixed_segment (firstn n v) coltyp g) else None
  | None => Some []
  end.
Proof.
  destruct coltyp; try reflexivity; unfold FLDNormalizeFixedSegment, read_le; cbn [fixed_size]; try (destruct (_ <=? _)%nat; reflexivity).
  destruct (Nat.leb_spec 16 (length v)) as [L|L].
  - assert (E : forall places, Forall (fun i => (i < 16)%nat) places -> read_bytes v places = Some (map (fun i => nth i (firstn 16 v) 0) places)).
    { intros places F. rewrite read_bytes_nth by (apply Forall_forall; intros i I; rewrite Forall_forall in F; specialize (F i I); lia). f_equal. apply map_ext_in. intros i I. rewrite Forall_forall in F. now rewrite nth_firstn, (proj2 (Nat.ltb_lt i 16) (F i I)). }
    rewrite E by (apply Forall_forall; intros i I; destruct g; cbn in I; lia). reflexivity.
  - rewrite read_bytes_short; [reflexivity|]. exists 15%nat. split; [destruct g; cbn; tauto|lia].
Qed.

Lemma FLDNormalizeFixedSegment_exact v coltyp n g : fixed_size coltyp = Some n -> length v = n -> FLDNormalizeFixedSegment v coltyp g = Some (fixed_segment v coltyp g).
Proof. intros E L. rewrite FLDNormalizeFixedSegment_eq, E, L, Nat.leb_refl, firstn_all2 by lia. reflexivity. Qed.

(** The segment is the value in big-endian order, moved by the offset. *)
Lemma fixed_segment_form g coltyp n v :
  fixed_size coltyp = Some n -> length v = n -> bytes_ok v ->
  let x := fixed_value g coltyp v + fixed_offset coltyp in
  fixed_segment v coltyp g = bPrefixData :: be_bytes_of n x /\ 0 <= x < 256 ^ Z.of_nat n.
Proof.
  intros Hs Hl Hv x. pose proof (le_number_range v Hv) as R. rewrite Hl in R.
  assert (F : forall m, n = m -> firstn m v = v) by (intros m <-; apply firstn_all2; lia).
  unfold fixed_segment, x, fixed_value, fixed_offset.
  destruct coltyp; try discriminate; injection Hs as <-; cbv zeta; rewrite ?F by reflexivity;
    try (rewrite Z.add_0_r; split; [reflexivity|exact R]);
    try (apply same_segment; rewrite ?signed_s16, ?signed_s32, ?signed_s64 by exact R; (apply (flip_value 15) || apply (flip_value 31) || apply (flip_value 63) || apply (ieee_value 31) || apply (ieee_value 63)); [lia|exact R]).
  - destruct (one_byte v Hl Hv) as (b & -> & Hb & ->). cbn [nth]. rewrite Z.add_0_r. destruct (b =? 0); rewrite be_byte by lia; split; reflexivity || (cbn; lia).
  - destruct (one_byte v Hl Hv) as (b & -> & Hb & ->). cbn [nth]. rewrite Z.add_0_r, be_byte by lia. split; [reflexivity|cbn; lia].
  - set (l := map _ (if g then _ else _)). assert (Hb : bytes_ok l) by now apply map_nth_ok.
    assert (Hn : length l = 16%nat) by (unfold l; rewrite length_map; now destruct g).
    rewrite Z.add_0_r, <- Hn, be_bytes_number by exact Hb. split; [reflexivity|now apply be_number_range].
Qed.

(** Fixed columns of one type compare as their values. *)
Lemma fixed_ranked g coltyp n v1 v2 :
  fixed_size coltyp = Some n -> length v1 = n -> length v2 = n -> bytes_ok v1 -> bytes_ok v2 ->
  ranked (fixed_segment v1 coltyp g) (fixed_segment v2 coltyp g)
    (Z.sgn (fixed_value g coltyp v1 - fixed_value g coltyp v2)).
Proof.
  intros Hs L1 L2 B1 B2. destruct (fixed_segment_form g coltyp n v1 Hs L1 B1) as [-> R1]. destruct (fixed_segment_form g coltyp n v2 Hs L2 B2) as [-> R2].
  apply ranked_cons. pose proof (ranked_be n _ _ R1 R2) as R. replace (fixed_value g coltyp v1 - fixed_value g coltyp v2)
    with (fixed_value g coltyp v1 + fixed_offset coltyp - (fixed_value g coltyp v2 + fixed_offset coltyp)) by lia. exact R.
Qed.

(** ** IEEE 754 *)

Section Ieee.
(** The widths of fraction and exponent. *)
Variables (mw ew : Z).
Hypothesis Hmw : 0 < mw.
Hypothesis Hew : 2 <= ew.
Let M := 2 ^ mw.
Let k := mw + ew.
Definition ieee_emin : Z := 2 - 2 ^ (ew - 1) - mw.

(** The number a word stands for. *)
Definition ieee_decode (w : Z) : spec_float :=
  let s := 2 ^ (mw + ew) <=? w in
  let f := w mod 2 ^ mw in
  let e := w / 2 ^ mw mod 2 ^ ew in
  if e =? 0 then match f with Zpos m => S754_finite s m ieee_emin | _ => S754_zero s end
  else if e =? 2 ^ ew - 1 then if f =? 0 then S754_infinity s else S754_nan
  else match f + 2 ^ mw with Zpos m => S754_finite s m (e - 1 + ieee_emin) | _ => S754_nan end.

Definition ieee_mag (w : Z) : Z := if 2 ^ (mw + ew) <=? w then w - 2 ^ (mw + ew) else w.
Definition ieee_inf : Z := (2 ^ ew - 1) * 2 ^ mw.

Lemma ieee_fields w : 0 <= w < 2 ^ (mw + ew + 1) ->
  let f := w mod M in let e := w / M mod 2 ^ ew in
  0 <= f < M /\ 0 <= e < 2 ^ ew /\ ieee_mag w = e * M + f /\ ieee_rank (mw + ew) w = if 2 ^ (mw + ew) <=? w then - ieee_mag w - 1 else ieee_mag w.
Proof.
  intros Hw f e. assert (HM : 0 < M) by (apply Z.pow_pos_nonneg; lia). assert (HE : 0 < 2 ^ ew) by (apply Z.pow_pos_nonneg; lia).
  assert (Ek : 2 ^ (mw + ew) = M * 2 ^ ew) by (unfold M; rewrite Z.pow_add_r by lia; reflexivity).
  rewrite Z.pow_add_r in Hw by lia. change (2 ^ 1) with 2 in Hw.
  split; [apply Z.mod_pos_bound; lia|]. split; [apply Z.mod_pos_bound; lia|]. split; [|unfold ieee_rank, ieee_mag; destruct (_ <=? _); lia].
  assert (D : w = M * (w / M) + f) by (apply Z.div_mod; lia). pose proof (Z.mod_pos_bound w M HM) as Hf. fold f in Hf.
  unfold ieee_mag, e. destruct (Z.leb_spec (2 ^ (mw + ew)) w) as [L|L]; rewrite Ek in *.
  - assert (Q : 2 ^ ew <= w / M < 2 * 2 ^ ew) by nia. rewrite <- (Z.mod_unique (w / M) (2 ^ ew) 1 (w / M - 2 ^ ew)) by lia. nia.
  - assert (Q : 0 <= w / M < 2 ^ ew) by nia. rewrite Z.mod_small by lia. lia.
Qed.

(** What the decoded number says about the magnitude. *)
Lemma ieee_decode_spec w : 0 <= w < 2 ^ (mw + ew + 1) ->
  let mag := ieee_mag w in let s := 2 ^ (mw + ew) <=? w in
  match ieee_decode w with
  | S754_zero s' => s' = s /\ mag = 0
  | S754_infinity s' => s' = s /\ mag = ieee_inf
  | S754_finite s' m ex => s' = s /\ exists a, a = ex - ieee_emin /\ 0 <= a /\ mag = a * M + Zpos m /\ Zpos m < 2 * M /\ (a = 0 \/ M <= Zpos m) /\ mag < ieee_inf
  | S754_nan => True
  end.
Proof.
  intros Hw mag s. destruct (ieee_fields w Hw) as (Hf & He & Hm & _). fold mag in Hm. unfold ieee_decode, ieee_inf. cbv zeta. fold M. fold s.
  set (f := w mod M) in *. set (e := w / M mod 2 ^ ew) in *. assert (HE : 4 <= 2 ^ ew) by (change 4 with (2 ^ 2); apply Z.pow_le_mono_r; lia).
  destruct (Z.eqb_spec e 0) as [E0|E0].
  - destruct f as [|m|m] eqn:Ef; [split; [reflexivity|nia]| |lia]. split; [reflexivity|]. exists 0. repeat split; try lia; try nia.
  - destruct (Z.eqb_spec e (2 ^ ew - 1)) as [E1|E1].
    + destruct (Z.eqb_spec f 0); [|exact I]. split; [reflexivity|]. rewrite Hm, E1. lia.
    + destruct (f + M) as [|m|m] eqn:Ef; try exact I. split; [reflexivity|]. exists (e - 1). repeat split; try lia; try nia.
Qed.

(** Numbers of different exponents, then of different mantissas. *)
Lemma mag_lt a b m n : 0 <= a < b -> m < 2 * M -> M <= n -> a * M + m < b * M + n.
Proof. intros. assert (HM : 0 < M) by (apply Z.pow_pos_nonneg; lia). nia. Qed.

(** Lexicographic order of the stored words is the order of the numbers; only
    the two zeros, equal as numbers, are told apart. *)
Lemma ieee_order x y c : 0 <= x < 2 ^ (mw + ew + 1) -> 0 <= y < 2 ^ (mw + ew + 1) ->
  SFcompare (ieee_decode x) (ieee_decode y) = Some c ->
  match c with
  | Lt => ieee_rank (mw + ew) x < ieee_rank (mw + ew) y
  | Gt => ieee_rank (mw + ew) y < ieee_rank (mw + ew) x
  | Eq => x = y \/ (ieee_mag x = 0 /\ ieee_mag y = 0)
  end.
Proof.
  intros Hx Hy. pose proof (ieee_decode_spec x Hx) as Dx. pose proof (ieee_decode_spec y Hy) as Dy. cbv zeta in Dx, Dy.
  destruct (ieee_fields x Hx) as (_ & _ & Mx & Rx). destruct (ieee_fields y Hy) as (_ & _ & My & Ry). rewrite Rx, Ry. clear Rx Ry Mx My.
  assert (I0 : 0 < ieee_inf).
  { unfold ieee_inf. assert (4 <= 2 ^ ew) by (change 4 with (2 ^ 2); apply Z.pow_le_mono_r; lia). assert (0 < 2 ^ mw) by (apply Z.pow_pos_nonneg; lia). nia. }
  pose proof (eq_refl : ieee_mag x = if 2 ^ (mw + ew) <=? x then x - 2 ^ (mw + ew) else x) as Ex.
  pose proof (eq_refl : ieee_mag y = if 2 ^ (mw + ew) <=? y then y - 2 ^ (mw + ew) else y) as Ey.
  destruct (ieee_decode x) as [sx|sx| |sx mx ex], (ieee_decode y) as [sy|sy| |sy my ey]; cbn [SFcompare]; try discriminate; intros [= <-];
    destruct Dx as [-> Dx], Dy as [-> Dy];
    try (destruct Dx as (ax & Ax1 & Ax2 & Ax3 & Ax4 & Ax5 & Ax6)); try (destruct Dy as (ay & Ay1 & Ay2 & Ay3 & Ay4 & Ay5 & Ay6));
    destruct (2 ^ (mw + ew) <=? x), (2 ^ (mw + ew) <=? y); try lia; try nia.
  all: change (PosDef.Pos.compare_cont Eq mx my) with (mx ?= my)%positive; destruct (Z.compare_spec ex ey) as [E|L|L];
    [assert (ax = ay) as -> by lia; destruct (Pos.compare_spec mx my) as [->|Lm|Lm]; cbn [CompOpp]; lia
    |pose proof (mag_lt ax ay (Zpos mx) (Zpos my)); lia
    |pose proof (mag_lt ay ax (Zpos my) (Zpos mx)); lia].
Qed.
End Ieee.
