(* ===== verification/NormBinary.v ===== *)
(** * Normalised binary and text columns

    The chunked form of a binary column is compared with a reference, of which
    a truncated segment is a prefix; both forms keep the order of the values
    and no segment is a proper prefix of another. *)

From Stdlib Require Import ZArith List Lia Bool.
From S2P Require Import Prelude Bits Mem Key KeyProps Norm NormOrder.
Import ListNotations.

Lemma skipn_ok n l : bytes_ok l -> bytes_ok (skipn n l).
Proof. intros H. rewrite <- (firstn_skipn n l) in H. now apply Forall_app in H as [_ H]. Qed.

Lemma firstn_ok n l : bytes_ok l -> bytes_ok (firstn n l).
Proof. intros H. rewrite <- (firstn_skipn n l) in H. now apply Forall_app in H as [H _]. Qed.

(** ** The reference *)

(** The first [k] bytes, padded with zeros, and how many of them count. *)
Definition pad (k : nat) (l : list Z) : list Z := firstn k (l ++ repeat 0 k).
Definition cnt (k : nat) (l : list Z) : Z := if (length l <=? k)%nat then Z.of_nat (length l) else Z.of_nat k + 1.

Fixpoint chunks_fuel (fuel : nat) (l : list Z) : list Z :=
  match fuel with
  | O => []
  | S fuel => pad 8 l ++ [cnt 8 l] ++ (if (8 <? length l)%nat then chunks_fuel fuel (skipn 8 l) else [])
  end.

Definition chunks (l : list Z) : list Z := chunks_fuel (S (length l)) l.

Lemma chunks_fuel_enough f : forall g l, (length l < f)%nat -> (length l < g)%nat -> chunks_fuel f l = chunks_fuel g l.
Proof.
  induction f as [|f IH]; intros [|g] l Hf Hg; try lia. cbn [chunks_fuel]. do 2 f_equal.
  destruct (Nat.ltb_spec 8 (length l)); [|reflexivity]. apply IH; rewrite length_skipn; lia.
Qed.

Lemma chunks_unfold l : chunks l = pad 8 l ++ [cnt 8 l] ++ (if (8 <? length l)%nat then chunks (skipn 8 l) else []).
Proof.
  unfold chunks at 1. cbn [chunks_fuel]. do 2 f_equal. destruct (Nat.ltb_spec 8 (length l)); [|reflexivity].
  apply chunks_fuel_enough; rewrite length_skipn; lia.
Qed.

Lemma length_pad k l : length (pad k l) = k.
Proof. unfold pad. rewrite length_firstn, length_app, repeat_length. lia. Qed.

Lemma pad_short k l : (length l <= k)%nat -> pad k l = l ++ repeat 0 (k - length l).
Proof.
  intros H. unfold pad. rewrite firstn_app, firstn_all2 by assumption. f_equal.
  replace (repeat 0 k) with (repeat 0 (k - length l) ++ repeat 0 (length l)) by (rewrite <- repeat_app; f_equal; lia).
  rewrite firstn_app, repeat_length, Nat.sub_diag, app_nil_r. apply firstn_all2. rewrite repeat_length. lia.
Qed.

Lemma pad_long k l : (k <= length l)%nat -> pad k l = firstn k l.
Proof. intros H. unfold pad. rewrite firstn_app. replace (k - length l)%nat with O by lia. apply app_nil_r. Qed.

Lemma pad_S k a l : pad (S k) (a :: l) = a :: pad k l.
Proof.
  unfold pad. cbn [app firstn]. f_equal. change (repeat 0 (S k)) with (0 :: repeat 0 k). rewrite repeat_cons, app_assoc, firstn_app, length_app, repeat_length.
  replace (k - _)%nat with O by lia. apply app_nil_r.
Qed.

Lemma pad_nil k : pad k [] = repeat 0 k.
Proof. rewrite pad_short by (cbn; lia). cbn [length app]. f_equal. lia. Qed.

Lemma length_chunks_by n : forall l, (length l <= n)%nat -> l <> [] -> Z.of_nat (length (chunks l)) = (Z.of_nat (length l) + 7) / 8 * 9.
Proof.
  induction n as [|n IH]; intros l Hn Hne; [destruct l; [contradiction|cbn in Hn; lia]|].
  rewrite chunks_unfold, !length_app, length_pad. cbn [length]. destruct (Nat.ltb_spec 8 (length l)) as [L|L].
  - rewrite !Nat2Z.inj_add, IH; rewrite ?length_skipn; try lia.
    + zlia.
    + intros E. apply (f_equal (@length Z)) in E. rewrite length_skipn in E. cbn in E. lia.
  - destruct l; [contradiction|]. cbn [length] in *. zlia.
Qed.

Lemma length_chunks l : l <> [] -> Z.of_nat (length (chunks l)) = (Z.of_nat (length l) + 7) / 8 * 9.
Proof. now apply length_chunks_by with (n := length l). Qed.

(** The last chunk, and a chunk that is followed by another. *)
Lemma chunks_last l : (length l <= 8)%nat -> chunks l = (l ++ repeat 0 (8 - length l)) ++ [Z.of_nat (length l)].
Proof.
  intros H. rewrite chunks_unfold, pad_short by lia. unfold cnt. destruct (Nat.leb_spec (length l) 8); [|lia].
  destruct (Nat.ltb_spec 8 (length l)); [lia|]. reflexivity.
Qed.

Lemma chunks_more l : (8 < length l)%nat -> chunks l = (firstn 8 l ++ [9]) ++ chunks (skipn 8 l).
Proof.
  intros H. rewrite (chunks_unfold l), pad_long by lia. unfold cnt. destruct (Nat.leb_spec (length l) 8); [lia|].
  destruct (Nat.ltb_spec 8 (length l)); [|lia]. now rewrite <- app_assoc.
Qed.

(** ** The order *)

Lemma lex_nil_range l : lex [] l = 0 /\ l = [] \/ lex [] l = -1 /\ l <> [].
Proof. destruct l; [left|right]; now split. Qed.

(** Padding keeps the order, except that what it hides is told by the count. *)
Lemma pad_lex k : forall l1 l2, bytes_ok l1 -> bytes_ok l2 ->
  lex l1 l2 = let c := lex (pad k l1) (pad k l2) in
    if c =? 0 then
      if cnt k l1 =? cnt k l2 then if (k <? length l1)%nat then lex (skipn k l1) (skipn k l2) else 0
      else Z.sgn (cnt k l1 - cnt k l2)
    else c.
Proof.
  assert (Cn : forall k a l, cnt (S k) (a :: l) = 1 + cnt k l).
  { intros j a l. unfold cnt. cbn [length]. destruct (Nat.leb_spec (S (length l)) (S j)), (Nat.leb_spec (length l) j); lia. }
  assert (C0 : forall k, cnt k [] = 0) by reflexivity.
  assert (Cp : forall k l, 0 <= cnt k l) by (intros j l; unfold cnt; destruct (_ <=? _)%nat; lia).
  assert (Half : forall k l, bytes_ok l -> l <> [] -> lex (pad k []) (pad k l) = 0 \/ lex (pad k []) (pad k l) = -1).
  { intros j. induction j as [|j IHj]; intros l Hl Hne; [now left|]. destruct l as [|b l]; [contradiction|]. rewrite pad_S. inversion_clear Hl as [|? ? Hb Hl'].
    rewrite pad_nil. cbn [repeat lex]. destruct (Z.eqb_spec 0 b); [|right; lia]. rewrite <- pad_nil.
    destruct l as [|b' l']; [left; apply lex_eq; reflexivity|]. apply IHj; [assumption|discriminate]. }
  assert (Half' : forall k l, bytes_ok l -> l <> [] -> lex (pad k l) (pad k []) = 0 \/ lex (pad k l) (pad k []) = 1).
  { intros j l Hl Hne. rewrite lex_sym. destruct (Half j l Hl Hne); lia. }
  induction k as [|k IH]; intros l1 l2 B1 B2; cbv zeta.
  - cbn [pad firstn lex Z.eqb]. destruct l1, l2; cbn [cnt length Nat.leb Z.of_nat skipn Nat.ltb Z.eqb Z.add]; reflexivity.
  - destruct l1 as [|a l1], l2 as [|b l2].
    + rewrite (proj2 (lex_eq (pad (S k) []) _) eq_refl), C0. reflexivity.
    + rewrite C0, Cn. specialize (Cp k l2). destruct (Half (S k) (b :: l2) B2 ltac:(discriminate)) as [E|E]; rewrite E; [change (0 =? 0) with true; cbv iota|reflexivity].
      destruct (Z.eqb_spec 0 (1 + cnt k l2)); [lia|]. change (lex [] (b :: l2)) with (-1). lia.
    + rewrite C0, Cn. specialize (Cp k l1). destruct (Half' (S k) (a :: l1) B1 ltac:(discriminate)) as [E|E]; rewrite E; [change (0 =? 0) with true; cbv iota|reflexivity].
      destruct (Z.eqb_spec (1 + cnt k l1) 0); [lia|]. change (lex (a :: l1) []) with 1. lia.
    + inversion_clear B1 as [|? ? Ha B1']. inversion_clear B2 as [|? ? Hb B2']. rewrite !pad_S, !Cn. cbn [lex length skipn].
      destruct (Z.eqb_spec a b) as [->|Hab].
      * rewrite (IH l1 l2 B1' B2') at 1. cbv zeta. destruct (_ =? 0); [|reflexivity].
        replace (1 + cnt k l1 =? 1 + cnt k l2) with (cnt k l1 =? cnt k l2) by (case_cmp; lia).
        replace (S k <? S (length l1))%nat with (k <? length l1)%nat by reflexivity. destruct (cnt k l1 =? cnt k l2); [reflexivity|]. f_equal; lia.
      * destruct (Z.eqb_spec (Z.sgn (a - b)) 0); [lia|reflexivity].
Qed.

Lemma ranked_same_length l1 : forall l2, length l1 = length l2 -> ranked l1 l2 (lex l1 l2).
Proof.
  induction l1 as [|a l1 IH]; intros [|b l2] H; try discriminate; [apply ranked_refl|]. cbn [lex]. destruct (Z.eqb_spec a b) as [->|Hab].
  - apply ranked_cons, IH. now injection H.
  - now apply ranked_heads.
Qed.

Lemma ranked_decided s1 s2 c r1 r2 : c <> 0 -> ranked s1 s2 c -> ranked (s1 ++ r1) (s2 ++ r2) c.
Proof.
  intros Hc [[-> _]|(p & a & b & t1 & t2 & -> & -> & Hab & ->)]; [contradiction|]. right. exists p, a, b, (t1 ++ r1), (t2 ++ r2).
  now rewrite <- !app_assoc.
Qed.

Lemma chunks_ranked_by n : forall l1 l2, (length l1 < n)%nat -> bytes_ok l1 -> bytes_ok l2 -> ranked (chunks l1) (chunks l2) (lex l1 l2).
Proof.
  induction n as [|n IH]; intros l1 l2 Hn B1 B2; [lia|]. rewrite (chunks_unfold l1), (chunks_unfold l2), !app_assoc.
  rewrite (pad_lex 8 l1 l2 B1 B2). cbv zeta. assert (R := ranked_app _ _ _ _ _ _ (ranked_same_length (pad 8 l1) (pad 8 l2) ltac:(now rewrite !length_pad)) (ranked_one (cnt 8 l1) (cnt 8 l2))).
  destruct (Z.eqb_spec (lex (pad 8 l1) (pad 8 l2)) 0) as [E|E]; [|now apply ranked_decided].
  destruct (Z.eqb_spec (cnt 8 l1) (cnt 8 l2)) as [Ec|Ec]; [|apply ranked_decided; [lia|exact R]].
  rewrite Ec, Z.sub_diag in R. assert (Hlt : (8 <? length l1)%nat = (8 <? length l2)%nat).
  { unfold cnt in Ec. destruct (Nat.leb_spec (length l1) 8), (Nat.leb_spec (length l2) 8), (Nat.ltb_spec 8 (length l1)), (Nat.ltb_spec 8 (length l2)); lia. }
  rewrite <- Hlt. destruct (Nat.ltb_spec 8 (length l1)) as [L|L]; [|rewrite Ec; rewrite !app_nil_r; exact R].
  rewrite Ec. apply (ranked_app _ _ 0); [exact R|]. apply IH; [rewrite length_skipn; lia|now apply skipn_ok..].
Qed.

Lemma chunks_ranked l1 l2 : bytes_ok l1 -> bytes_ok l2 -> ranked (chunks l1) (chunks l2) (lex l1 l2).
Proof. apply chunks_ranked_by with (n := S (length l1)). lia. Qed.

Lemma chunks_ok_by n : forall l, (length l < n)%nat -> bytes_ok l -> bytes_ok (chunks l).
Proof.
  induction n as [|n IH]; intros l Hn Hl; [lia|]. rewrite chunks_unfold. apply Forall_app. split; [|apply Forall_app; split].
  - unfold pad. apply firstn_ok, Forall_app. split; [exact Hl|]. apply Forall_forall. intros b Hb. apply repeat_spec in Hb. lia.
  - constructor; [|constructor]. unfold cnt. destruct (Nat.leb_spec (length l) 8); lia.
  - destruct (Nat.ltb_spec 8 (length l)); [|constructor]. apply IH; [rewrite length_skipn; lia|now apply skipn_ok].
Qed.

Lemma chunks_ok l : bytes_ok l -> bytes_ok (chunks l).
Proof. apply chunks_ok_by with (n := S (length l)). lia. Qed.

(** ** The code writes a prefix of the reference *)

(** What follows the loop. *)
Definition chunk_tail (rest : list Z) (cbSegRemaining : Z) : list Z :=
  if 0 <? cbSegRemaining then
    if cbSegRemaining <=? Z.of_nat (length rest) then firstn (Z.to_nat cbSegRemaining) rest
    else rest ++ repeat 0 (Z.to_nat (cbSegRemaining - Z.of_nat (length rest)))
  else [].

Lemma firstn_app_le {A} n (a b : list A) : (n <= length a)%nat -> firstn n (a ++ b) = firstn n a.
Proof. intros H. rewrite firstn_app. replace (n - length a)%nat with O by lia. apply app_nil_r. Qed.

Lemma firstn_zeros n : forall m, (n <= m)%nat -> firstn n (repeat 0 m) = repeat 0 n.
Proof. induction n as [|n IH]; intros [|m] H; cbn [repeat firstn]; try reflexivity; [lia|]. f_equal. apply IH. lia. Qed.

Lemma chunk_tail_prefix rest n : rest <> [] -> 0 <= n < 9 -> chunk_tail rest n = firstn (Z.to_nat n) (chunks rest).
Proof.
  intros Hne Hn. rewrite chunks_unfold, firstn_app_le by (rewrite length_pad; lia). unfold chunk_tail, pad.
  rewrite firstn_firstn, Nat.min_l by lia. destruct (Z.ltb_spec 0 n) as [L|L]; [|replace (Z.to_nat n) with O by lia; reflexivity].
  destruct (Z.leb_spec n (Z.of_nat (length rest))); [now rewrite firstn_app_le by lia|].
  rewrite firstn_app, firstn_all2, firstn_zeros by lia. do 2 f_equal. lia.
Qed.

Lemma chunk_loop_spec fuel : forall entire rest n ib delim,
  rest <> [] -> 0 <= n <= Z.of_nat (length (chunks rest)) -> n < Z.of_nat fuel -> 0 <= ib ->
  entire = (n =? Z.of_nat (length (chunks rest))) ->
  exists out rest' n' delim', chunk_loop fuel entire rest n ib delim = (out, rest', n', delim') /\
    out ++ chunk_tail rest' n' = firstn (Z.to_nat n) (chunks rest) /\ (delim' = delim \/ 0 <= delim' <= ib + n) /\
    (0 < n' -> rest' <> []) /\ ib + Z.of_nat (length out) + n' = ib + n.
Proof.
  induction fuel as [|fuel IH]; intros entire rest n ib delim Hne Hn Hf Hib He; [lia|]. cbn [chunk_loop].
  unfold cbFLDBinaryChunkNormalized, cbFLDBinaryChunk. change (8 + 1) with 9. change (9 - 1) with 8.
  assert (Hlen : (0 < length rest)%nat) by (destruct rest; [contradiction|cbn; lia]).
  destruct (Z.leb_spec 9 n) as [L9|L9].
  - destruct (Z.leb_spec (Z.of_nat (length rest)) 8) as [L|L].
    + pose proof (chunks_last rest ltac:(lia)) as E1.
      assert (E2 : Z.of_nat (length (chunks rest)) = 9) by (rewrite E1, !length_app, repeat_length; cbn [length]; lia).
      rewrite E2 in *. assert (n = 9) as -> by lia. change (9 =? 9) with true in He. subst entire. change (9 - 9) with 0.
      assert (El : chunk_loop fuel true rest 0 (ib + 9) (ib + Z.of_nat (length rest)) = ([], rest, 0, ib + Z.of_nat (length rest))) by (destruct fuel; reflexivity).
      rewrite El. do 4 eexists. split; [reflexivity|]. change (chunk_tail rest 0) with (@nil Z). rewrite !app_nil_r.
      assert (Ec : (if Z.of_nat (length rest) =? 8 then rest ++ [8] else rest ++ repeat 0 (Z.to_nat (8 - Z.of_nat (length rest))) ++ [Z.of_nat (length rest)])
        = chunks rest).
      { rewrite E1, <- app_assoc. destruct (Z.eqb_spec (Z.of_nat (length rest)) 8) as [E|E].
        - replace (8 - length rest)%nat with O by lia. rewrite E. reflexivity.
        - do 3 f_equal. lia. }
      rewrite Ec. split; [rewrite firstn_all2 by lia; reflexivity|]. split; [right; lia|]. split; [lia|]. lia.
    + pose proof (chunks_more rest ltac:(lia)) as E1.
      assert (L1 : length (firstn 8 rest ++ [9]) = 9%nat) by (rewrite length_app, length_firstn; cbn [length]; lia).
      assert (E2 : Z.of_nat (length (chunks rest)) = 9 + Z.of_nat (length (chunks (skipn 8 rest)))) by (rewrite E1, length_app, L1; lia).
      destruct (IH entire (skipn 8 rest) (n - 9) (ib + 9) delim) as (out & rest' & n' & d' & E & H1 & H2 & H3 & H4); try lia.
      { intros E. apply (f_equal (@length Z)) in E. rewrite length_skipn in E. cbn in E. lia. }
      { rewrite He, E2. destruct (Z.eqb_spec n (9 + Z.of_nat (length (chunks (skipn 8 rest))))), (Z.eqb_spec (n - 9) (Z.of_nat (length (chunks (skipn 8 rest))))); lia. }
      change (Z.to_nat 8) with 8%nat. rewrite E. do 4 eexists. split; [reflexivity|]. split; [|split; [destruct H2; [now left|right; lia]|]].
      * rewrite <- app_assoc, H1, E1, firstn_app, L1, (firstn_all2 (firstn 8 rest ++ [9])) by lia. do 2 f_equal. lia.
      * split; [exact H3|]. rewrite length_app, L1. lia.
  - do 4 eexists. split; [reflexivity|]. cbn [app length]. rewrite chunk_tail_prefix by (auto; lia). split; [reflexivity|]. split; [now left|]. split; [auto|]. lia.
Qed.

(** The normalised form of a binary column, when nothing limits it. *)
Definition binary_full (v : list Z) : list Z := bPrefixData :: chunks v.

(** Its length once the maximum of the index for a segment is applied. *)
Definition binary_cb (v : list Z) (cbKeyMost cbVarSegMac : Z) : Z :=
  let cb := Z.of_nat (length (binary_full v)) in if cbVarSegMac <? cbKeyMost then Z.min cb cbVarSegMac else cb.

Lemma binary_segment_spec v cbKeyAvail cbKeyMost cbVarSegMac : v <> [] -> 0 < cbKeyAvail -> 0 < cbVarSegMac ->
  let cb := binary_cb v cbKeyMost cbVarSegMac in
  exists delim, FLDNormalizeBinarySegment v cbKeyAvail cbKeyMost cbVarSegMac false
    = (firstn (Z.to_nat (Z.min cb cbKeyAvail)) (binary_full v), cbKeyAvail <? cb, delim) /\
    0 <= delim <= Z.min cb cbKeyAvail.
Proof.
  intros Hne Ha Hm cb. pose proof (length_chunks v Hne) as Hl. unfold FLDNormalizeBinarySegment. cbv zeta.
  unfold cbFLDBinaryChunkNormalized, cbFLDBinaryChunk. change (8 - 1) with 7. change (8 + 1) with 9. rewrite <- Hl.
  set (N := Z.of_nat (length (chunks v))) in *. assert (HN : 0 < N) by (destruct v; [contradiction|]; cbn [length] in Hl; zlia).
  assert (Ecb : cb = if cbVarSegMac <? cbKeyMost then Z.min (N + 1) cbVarSegMac else N + 1) by (unfold cb, binary_cb; cbn [binary_full length]; destruct (_ <? _); lia).
  set (over := (cbVarSegMac <? cbKeyMost) && (cbVarSegMac <? N + 1)).
  assert (E1 : (if over then cbVarSegMac else N + 1) = cb) by (rewrite Ecb; unfold over; case_cmp; cbn [andb]; lia). rewrite E1.
  set (n := if cbKeyAvail <? cb then cbKeyAvail else cb). assert (En : n = Z.min cb cbKeyAvail) by (unfold n; case_cmp; lia).
  assert (Hn : 1 <= n <= N + 1) by (rewrite En, Ecb; case_cmp; lia).
  destruct (chunk_loop_spec (Z.to_nat n) (negb over && negb (cbKeyAvail <? cb)) v (n - 1) 1 0) as (out & rest & n' & d & E & H1 & H2 & H3 & H4); auto; try lia.
  { fold N. unfold over. rewrite En. clear - Ecb HN Ha. clearbody cb N.
    assert (C : (cbVarSegMac < cbKeyMost -> cb = Z.min (N + 1) cbVarSegMac) /\ (cbKeyMost <= cbVarSegMac -> cb = N + 1)) by (rewrite Ecb; case_cmp; lia).
    clear Ecb. case_cmp; cbn [andb negb]; try reflexivity; lia. }
  rewrite E. rewrite <- En. unfold chunk_tail in H1.
  assert (Ef : bPrefixData :: firstn (Z.to_nat (n - 1)) (chunks v) = firstn (Z.to_nat n) (binary_full v)).
  { unfold binary_full. replace (Z.to_nat n) with (S (Z.to_nat (n - 1))) by lia. reflexivity. }
  destruct (Z.ltb_spec 0 n') as [P|P]; [destruct (Z.leb_spec n' (Z.of_nat (length rest))) as [Q|Q]|]; rewrite H1, Ef; eexists; (split; [reflexivity|]); lia.
Qed.

(** ** Text *)

(** A terminated string without zeros: no proper prefix of another. *)
Lemma ranked_terminated s1 : forall s2, Forall (fun b => 0 < b) s1 -> Forall (fun b => 0 < b) s2 -> ranked (s1 ++ [0]) (s2 ++ [0]) (lex s1 s2).
Proof.
  induction s1 as [|a s1 IH]; intros [|b s2] H1 H2; cbn [app lex]; [apply ranked_refl| | |].
  - inversion_clear H2. replace (-1) with (Z.sgn (0 - b)) by lia. now apply ranked_heads; lia.
  - inversion_clear H1. replace 1 with (Z.sgn (a - 0)) by lia. now apply ranked_heads; lia.
  - inversion_clear H1. inversion_clear H2. destruct (Z.eqb_spec a b) as [->|Hab]; [now apply ranked_cons, IH|now apply ranked_heads].
Qed.

(** What a text column compares by: upper case, up to the first zero. *)
Definition text_key (v : list Z) : list Z := map strupr (cstr v).

Lemma text_key_pos v : bytes_ok v -> Forall (fun b => 0 < b) (text_key v) /\ bytes_ok (text_key v).
Proof.
  unfold text_key. induction 1 as [|b l Hb Hl [IH1 IH2]]; [repeat constructor|]. cbn [cstr]. destruct (Z.eqb_spec b 0); [repeat constructor|]. cbn [map].
  assert (P : 0 < strupr b < 256) by (unfold strupr; case_cmp; cbn [andb]; lia). split; (constructor; [lia|assumption]).
Qed.

Lemma length_cstr l : (length (cstr l) <= length l)%nat.
Proof. induction l as [|b l IH]; [cbn; lia|]. cbn [cstr]. destruct (b =? 0); cbn [length]; lia. Qed.

Lemma norm_text_fits v cb : Z.of_nat (length v) < cb -> ErrUtilNormText v cb = (errSuccess, text_key v ++ [0]).
Proof. intros H. unfold ErrUtilNormText. destruct (Z.ltb_spec (Z.of_nat (length v)) cb); [reflexivity|lia]. Qed.

Lemma norm_text_length v cb : 0 <= cb -> Z.of_nat (length (snd (ErrUtilNormText v cb))) <= cb.
Proof.
  intros H. unfold ErrUtilNormText. pose proof (length_cstr v). pose proof (length_cstr (firstn (Z.to_nat (cb - 1)) v)) as L2. rewrite length_firstn in L2.
  destruct (Z.ltb_spec (Z.of_nat (length v)) cb); [cbn [snd]; rewrite length_app, length_map; cbn; lia|].
  destruct (Z.ltb_spec 0 cb); [|cbn; lia]. destruct (_ && _); cbn [snd]; rewrite length_app, length_map; cbn [length]; lia.
Qed.
