(* ===== verification/NormKeys.v ===== *)
(** * Index keys

    The segment of a column that is not truncated, what it compares by, and
    the keys that a sequence of calls of [ErrIsamMakeKey] builds of them. *)

From Stdlib Require Import ZArith List Lia Bool.
From S2P Require Import Prelude Bits Mem Key KeyProps Norm NormOrder NormBinary.
Import ListNotations.

(** ** Columns *)

Definition byteb (b : Z) : bool := (0 <=? b) && (b <? 256).

(** A value that the column of an index may have; null is the empty list.
    Unicode text is left out: its sort keys come from the system. *)
Definition column_okb (s : IDXSEG) (v : list Z) : bool :=
  forallb byteb v &&
  match v with
  | [] => true
  | _ =>
      (negb (seg_fFixed s) || (Z.of_nat (length v) =? seg_cbMaxLen s)) &&
      match fixed_size (seg_coltyp s) with
      | Some n => (length v =? n)%nat
      | None => negb (FRECTextColumn (seg_coltyp s) && (seg_cp s =? usUniCodePage))
      end
  end.

Section Index.
Variable pidb : IDB.

(** The whole segment, before the complement. *)
Definition column_segment (s : IDXSEG) (v : list Z) : list Z :=
  match v with
  | [] => FLDNormalizeNullSegment (seg_coltyp s) false (idb_FSortNullsHigh pidb)
  | _ =>
      match fixed_size (seg_coltyp s) with
      | Some _ => fixed_segment v (seg_coltyp s) (idb_FDotNetGuid pidb)
      | None =>
          if FRECTextColumn (seg_coltyp s) then bPrefixData :: text_key v ++ [0]
          else if seg_fFixed s then bPrefixData :: v else binary_full v
      end
  end.

Definition key_segment (s : IDXSEG) (v : list Z) : list Z :=
  if seg_fDescending s then map bNot (column_segment s v) else column_segment s v.

(** Key space that surely suffices for the column. *)
Definition column_cb (s : IDXSEG) (v : list Z) : Z :=
  if FRECTextColumn (seg_coltyp s) then Z.of_nat (length v) + 2 else Z.of_nat (length (column_segment s v)).

(** The order of values: nulls first or last, numbers by value, binary by
    bytes, text by its upper case. *)
Definition value_cmp (s : IDXSEG) (v1 v2 : list Z) : Z :=
  match v1, v2 with
  | [], [] => 0
  | [], _ => if idb_FSortNullsHigh pidb then 1 else -1
  | _, [] => if idb_FSortNullsHigh pidb then -1 else 1
  | _, _ =>
      match fixed_size (seg_coltyp s) with
      | Some _ => Z.sgn (fixed_value (idb_FDotNetGuid pidb) (seg_coltyp s) v1 - fixed_value (idb_FDotNetGuid pidb) (seg_coltyp s) v2)
      | None => if FRECTextColumn (seg_coltyp s) then lex (text_key v1) (text_key v2) else lex v1 v2
      end
  end.

Definition column_cmp (s : IDXSEG) (v1 v2 : list Z) : Z := if seg_fDescending s then - value_cmp s v1 v2 else value_cmp s v1 v2.

(** Tuples of columns, the first column first. *)
Fixpoint tuple_cmp (segs : list IDXSEG) (vs1 vs2 : list (list Z)) : Z :=
  match segs, vs1, vs2 with
  | s :: segs, v1 :: vs1, v2 :: vs2 => let c := column_cmp s v1 v2 in if c =? 0 then tuple_cmp segs vs1 vs2 else c
  | _, _, _ => 0
  end.

Fixpoint index_key (segs : list IDXSEG) (vs : list (list Z)) : list Z :=
  match segs, vs with s :: segs, v :: vs => key_segment s v ++ index_key segs vs | _, _ => [] end.

Fixpoint key_cb (segs : list IDXSEG) (vs : list (list Z)) : Z :=
  match segs, vs with s :: segs, v :: vs => column_cb s v + key_cb segs vs | _, _ => 0 end.

Fixpoint columns_okb (segs : list IDXSEG) (vs : list (list Z)) : bool :=
  match segs, vs with
  | [], [] => true
  | s :: segs, v :: vs => column_okb s v && columns_okb segs vs
  | _, _ => false
  end.

(** ** Facts about valid columns *)

Lemma byteb_ok v : forallb byteb v = true -> bytes_ok v.
Proof.
  intros H. apply Forall_forall. intros b Hb. rewrite forallb_forall in H. specialize (H b Hb). unfold byteb in H.
  apply andb_prop in H as [H1 H2]. apply Z.leb_le in H1. apply Z.ltb_lt in H2. lia.
Qed.

Lemma column_ok_facts s v : column_okb s v = true -> v <> [] ->
  bytes_ok v /\ (seg_fFixed s = true -> Z.of_nat (length v) = seg_cbMaxLen s) /\
  match fixed_size (seg_coltyp s) with Some n => length v = n | None => FRECTextColumn (seg_coltyp s) = true -> (seg_cp s =? usUniCodePage) = false end.
Proof.
  intros H Hne. apply andb_prop in H as [H1 H2]. split; [now apply byteb_ok|]. destruct v as [|b v]; [contradiction|].
  apply andb_prop in H2 as [H2 H3]. split.
  - intros Hf. rewrite Hf in H2. cbn [negb orb] in H2. now apply Z.eqb_eq in H2.
  - destruct (fixed_size (seg_coltyp s)); [now apply Nat.eqb_eq in H3|]. intros Ht. rewrite Ht in H3. now apply negb_true_iff in H3.
Qed.

Lemma text_no_size c : FRECTextColumn c = true -> fixed_size c = None.
Proof. now destruct c. Qed.

Lemma no_size_kind c : fixed_size c = None -> FRECTextColumn c = false -> FRECBinaryColumn c = true.
Proof. now destruct c. Qed.

Lemma size_kind c n : fixed_size c = Some n -> FRECTextColumn c = false /\ FRECBinaryColumn c = false.
Proof. now destruct c. Qed.

Lemma null_segment c high : FLDNormalizeNullSegment c false high = [if high then bPrefixNullHigh else bPrefixNull].
Proof. unfold FLDNormalizeNullSegment. now destruct (_ || _). Qed.

Lemma length_fixed_segment g c n v : fixed_size c = Some n -> length (fixed_segment v c g) = S n.
Proof.
  intros H. unfold fixed_segment. destruct c; try discriminate; injection H as <-; cbv zeta;
    cbn [length]; rewrite ?length_be_bytes, ?length_map; try reflexivity. now destruct g.
Qed.

(** The segment of a value that is not null. *)
Lemma column_segment_data s v : v <> [] -> column_segment s v =
  match fixed_size (seg_coltyp s) with
  | Some _ => fixed_segment v (seg_coltyp s) (idb_FDotNetGuid pidb)
  | None =>
      if FRECTextColumn (seg_coltyp s) then bPrefixData :: text_key v ++ [0]
      else if seg_fFixed s then bPrefixData :: v else binary_full v
  end.
Proof. now destruct v. Qed.

Lemma segment_shape s v : column_okb s v = true ->
  bytes_ok (column_segment s v) /\
  ((v = [] /\ column_segment s v = [if idb_FSortNullsHigh pidb then bPrefixNullHigh else bPrefixNull]) \/
   (v <> [] /\ exists t, column_segment s v = bPrefixData :: t)).
Proof.
  intros H. destruct v as [|b v].
  { cbn [column_segment]. rewrite null_segment. split; [|left; auto]. constructor; [|constructor]. destruct (idb_FSortNullsHigh pidb); cbv; split; easy. }
  destruct (column_ok_facts s (b :: v) H ltac:(discriminate)) as (B & _ & C). set (w := b :: v) in *.
  assert (P : 0 <= bPrefixData < 256) by (cbv; split; easy).
  assert (S1 : bytes_ok (column_segment s w) /\ exists t, column_segment s w = bPrefixData :: t); [|destruct S1; split; [assumption|right; split; [discriminate|assumption]]].
  rewrite column_segment_data by discriminate. destruct (fixed_size (seg_coltyp s)) as [n|] eqn:Es.
  - destruct (fixed_segment_form (idb_FDotNetGuid pidb) _ n w Es C B) as [-> _]. split; [constructor; [exact P|apply be_bytes_ok]|eauto].
  - destruct (FRECTextColumn (seg_coltyp s)).
    + split; [|eauto]. constructor; [exact P|]. apply Forall_app. split; [now apply text_key_pos|repeat constructor; lia].
    + destruct (seg_fFixed s); (split; [|unfold binary_full; eauto]); (constructor; [exact P|]); [exact B|now apply chunks_ok].
Qed.

(** ** The order of segments *)

Lemma segment_ranked s v1 v2 : column_okb s v1 = true -> column_okb s v2 = true ->
  ranked (column_segment s v1) (column_segment s v2) (value_cmp s v1 v2).
Proof.
  intros H1 H2. destruct v1 as [|a v1], v2 as [|b v2]; [apply ranked_refl| | |].
  - destruct (segment_shape s (b :: v2) H2) as [_ [[E _]|(_ & t & E)]]; [discriminate|]. rewrite E. cbn [column_segment value_cmp]. rewrite null_segment.
    replace (if idb_FSortNullsHigh pidb then 1 else -1) with (Z.sgn ((if idb_FSortNullsHigh pidb then bPrefixNullHigh else bPrefixNull) - bPrefixData))
      by (destruct (idb_FSortNullsHigh pidb); reflexivity). apply ranked_heads. destruct (idb_FSortNullsHigh pidb); discriminate.
  - destruct (segment_shape s (a :: v1) H1) as [_ [[E _]|(_ & t & E)]]; [discriminate|]. rewrite E. cbn [column_segment value_cmp]. rewrite null_segment.
    replace (if idb_FSortNullsHigh pidb then -1 else 1) with (Z.sgn (bPrefixData - (if idb_FSortNullsHigh pidb then bPrefixNullHigh else bPrefixNull)))
      by (destruct (idb_FSortNullsHigh pidb); reflexivity). apply ranked_heads. destruct (idb_FSortNullsHigh pidb); discriminate.
  - destruct (column_ok_facts s (a :: v1) H1 ltac:(discriminate)) as (B1 & F1 & C1). destruct (column_ok_facts s (b :: v2) H2 ltac:(discriminate)) as (B2 & F2 & C2).
    cbn [column_segment value_cmp]. destruct (fixed_size (seg_coltyp s)) as [n|] eqn:Es; [now apply (fixed_ranked _ _ n)|].
    destruct (FRECTextColumn (seg_coltyp s)); [apply ranked_cons, ranked_terminated; now apply text_key_pos|].
    destruct (seg_fFixed s); apply ranked_cons; [|now apply chunks_ranked]. apply ranked_same_length. specialize (F1 eq_refl). specialize (F2 eq_refl). lia.
Qed.

Lemma key_segment_ranked s v1 v2 : column_okb s v1 = true -> column_okb s v2 = true ->
  ranked (key_segment s v1) (key_segment s v2) (column_cmp s v1 v2).
Proof.
  intros H1 H2. pose proof (segment_ranked s v1 v2 H1 H2) as R. unfold key_segment, column_cmp. destruct (seg_fDescending s); [|exact R].
  apply ranked_complement; [now apply segment_shape..|exact R].
Qed.

Lemma index_key_ranked segs : forall vs1 vs2, columns_okb segs vs1 = true -> columns_okb segs vs2 = true ->
  ranked (index_key segs vs1) (index_key segs vs2) (tuple_cmp segs vs1 vs2).
Proof.
  induction segs as [|s segs IH]; intros [|v1 vs1] [|v2 vs2] H1 H2; try discriminate; [apply ranked_refl|]. cbn [columns_okb index_key tuple_cmp] in *.
  apply andb_prop in H1 as [H1 H1']. apply andb_prop in H2 as [H2 H2']. cbv zeta. apply ranked_app; [now apply key_segment_ranked|now apply IH].
Qed.

(** The order of keys is the order of the tuples, also when the keys go on. *)
Lemma index_key_order segs vs1 vs2 : columns_okb segs vs1 = true -> columns_okb segs vs2 = true ->
  lex (index_key segs vs1) (index_key segs vs2) = tuple_cmp segs vs1 vs2.
Proof.
  intros H1 H2. pose proof (ranked_lex _ _ _ [] [] (index_key_ranked segs vs1 vs2 H1 H2)) as E. rewrite !app_nil_r in E. rewrite E. cbn [lex].
  destruct (Z.eqb_spec (tuple_cmp segs vs1 vs2) 0); congruence.
Qed.

Lemma length_key_segment s v : length (key_segment s v) = length (column_segment s v).
Proof. unfold key_segment. destruct (seg_fDescending s); [apply length_map|reflexivity]. Qed.

(** Every column needs some key space, and takes no more than it may. *)
Lemma column_cb_enough s v : column_okb s v = true ->
  1 <= Z.of_nat (length (column_segment s v)) <= column_cb s v /\ Z.of_nat (length v) <= column_cb s v.
Proof.
  intros H. unfold column_cb. destruct v as [|b v].
  { cbn [column_segment]. rewrite null_segment. cbn [length]. destruct (FRECTextColumn _); lia. }
  set (w := b :: v) in *. assert (Hw : w <> []) by discriminate. destruct (column_ok_facts s w H Hw) as (B & _ & C).
  rewrite column_segment_data by exact Hw. destruct (FRECTextColumn (seg_coltyp s)) eqn:Et.
  - rewrite (text_no_size _ Et). cbn [length]. rewrite length_app. unfold text_key. rewrite length_map. cbn [length]. pose proof (length_cstr w). lia.
  - destruct (fixed_size (seg_coltyp s)) as [n|] eqn:Es.
    + rewrite (length_fixed_segment _ _ n _ Es). lia.
    + destruct (seg_fFixed s); cbn [length binary_full]; [lia|]. pose proof (length_chunks w Hw) as L. zlia.
Qed.

Lemma key_cb_nonneg segs : forall vs, columns_okb segs vs = true -> 0 <= key_cb segs vs.
Proof.
  induction segs as [|s segs IH]; intros [|v vs] H; try discriminate; cbn [key_cb]. apply andb_prop in H as [H1 H2].
  pose proof (column_cb_enough s v H1). specialize (IH vs H2). lia.
Qed.

Lemma index_key_cb segs : forall vs, columns_okb segs vs = true -> Z.of_nat (length (index_key segs vs)) <= key_cb segs vs.
Proof.
  induction segs as [|s segs IH]; intros [|v vs] H; try discriminate; cbn [key_cb index_key]. apply andb_prop in H as [H1 H2].
  rewrite length_app, length_key_segment. pose proof (column_cb_enough s v H1). specialize (IH vs H2). lia.
Qed.
End Index.
