(* ===== verification/NormMake.v ===== *)
(** * Making keys

    What [ErrIsamMakeKey] appends for a column that fits, and how much it can
    ever append. *)

From Stdlib Require Import ZArith List Lia Bool.
From S2P Require Import Prelude Bits Mem Key KeyProps Norm NormOrder NormBinary NormKeys.
Import ListNotations.

(** An index without truncation of segments, tuples and placeholder. *)
Definition plain_index (pidb : IDB) : bool :=
  (idb_CbVarSegMac pidb =? idb_CbKeyMost pidb) && (255 <=? idb_CbKeyMost pidb) && (idb_CbKeyMost pidb <? 65535)
  && negb (idb_FTuples pidb) && negb (idb_FHasPlaceholderColumn pidb).

Section Make.
Context `{Loc : NormLocale}.

(** The calls that make a key: the first starts it, the others go on. *)
Fixpoint make_rest (pidb : IDB) (sk : SEARCHKEY) (vs : list (list Z)) : option (Z * SEARCHKEY) :=
  match vs with
  | [] => Some (errSuccess, sk)
  | v :: vs => let? (err, sk) := ErrIsamMakeKey (Some pidb) sk v 0 in if err <? 0 then Some (err, sk) else make_rest pidb sk vs
  end.

Definition make_key (pidb : IDB) (sk : SEARCHKEY) (vs : list (list Z)) : option (Z * SEARCHKEY) :=
  match vs with
  | [] => Some (errSuccess, sk)
  | v :: vs => let? (err, sk) := ErrIsamMakeKey (Some pidb) sk v JET_bitNewKey in if err <? 0 then Some (err, sk) else make_rest pidb sk vs
  end.

(** ** A column that fits *)

Lemma text_segment_fits v cbAvail cbKeyMost cp : (cp =? usUniCodePage) = false ->
  Z.of_nat (length v) + 2 <= cbAvail -> cbAvail <= cbKeyMost ->
  ErrFLDNormalizeTextSegment v cbAvail cbKeyMost (cbKeyMost + 1) cp = (errSuccess, bPrefixData :: text_key v ++ [0]).
Proof.
  intros Hcp Hl Ha. unfold ErrFLDNormalizeTextSegment. rewrite Hcp. cbv zeta. rewrite Z.div_1_r, Z.mul_1_r.
  set (n := if cbKeyMost =? _ then _ else _).
  assert (Hn : n = Z.of_nat (length v)) by (unfold n, JET_cbKeyMost_OLD; rewrite Z.div_1_r; case_cmp; lia).
  rewrite Hn, Nat2Z.id, firstn_all. rewrite norm_text_fits by lia. reflexivity.
Qed.

Lemma normalize_value_fits pidb s v cbAvail grbit ks : plain_index pidb = true -> column_okb s v = true ->
  column_cb pidb s v <= cbAvail -> cbAvail <= idb_CbKeyMost pidb -> fbit grbit JET_bitKeyDataZeroLength = false ->
  exists delim, normalize_value pidb v (seg_coltyp s) (seg_cp s) cbAvail (seg_fFixed s) false grbit ks = Some (errSuccess, column_segment pidb s v, ks, delim).
Proof.
  intros Hp Hv Hc Ha Hz. unfold normalize_value. cbv zeta.
  assert (Em : CbVarSegMacT pidb = idb_CbKeyMost pidb + 1).
  { unfold plain_index in Hp. unfold CbVarSegMacT. repeat (apply andb_prop in Hp as [Hp ?]). rewrite Z.eqb_sym, Hp. reflexivity. }
  destruct v as [|b v]; [rewrite Hz; cbn [andb]; eexists; reflexivity|]. set (w := b :: v) in *. assert (Hw : w <> []) by discriminate.
  destruct (column_ok_facts s w Hv Hw) as (B & F & C). rewrite column_segment_data, Em by exact Hw. unfold column_cb in Hc.
  destruct (FRECTextColumn (seg_coltyp s)) eqn:Et.
  - rewrite (text_no_size _ Et) in *. cbn [andb]. rewrite text_segment_fits by auto. eexists. reflexivity.
  - rewrite column_segment_data, Et in Hc by exact Hw. destruct (fixed_size (seg_coltyp s)) as [n|] eqn:Es.
    + destruct (size_kind _ _ Es) as [_ ->]. rewrite (FLDNormalizeFixedSegment_exact w _ n _ Es C). destruct (Z.ltb_spec cbAvail (Z.of_nat (length (fixed_segment w (seg_coltyp s) (idb_FDotNetGuid pidb))))); [lia|].
      eexists. reflexivity.
    + rewrite (no_size_kind _ Es Et). destruct (seg_fFixed s).
      * unfold FLDNormalizeBinarySegment. cbn [length] in Hc. destruct (Z.ltb_spec (idb_CbKeyMost pidb + 1) (idb_CbKeyMost pidb)); [lia|]. cbn [andb].
        destruct (Z.ltb_spec cbAvail (Z.of_nat (length w) + 1)); [lia|]. eexists. rewrite firstn_all2 by lia. reflexivity.
      * assert (Hcb : binary_cb w (idb_CbKeyMost pidb) (idb_CbKeyMost pidb + 1) = Z.of_nat (length (binary_full w))) by (unfold binary_cb; case_cmp; lia).
        destruct (binary_segment_spec w cbAvail (idb_CbKeyMost pidb) (idb_CbKeyMost pidb + 1) Hw) as (d & E & _); [cbn [binary_full length] in Hc; lia|..].
        { unfold plain_index in Hp. repeat (apply andb_prop in Hp as [Hp ?]). lia. }
        rewrite E, Hcb. destruct (Z.ltb_spec cbAvail (Z.of_nat (length (binary_full w)))); [lia|]. eexists. rewrite firstn_all2 by lia. reflexivity.
Qed.

(** Grbits without limits. *)
Lemma no_limits norm c cp cbAvail d delim grbit : grbit = 0 \/ grbit = JET_bitNewKey -> apply_limits norm c cp cbAvail d grbit delim = Some (norm, false).
Proof. intros [-> | ->]; reflexivity. Qed.

Lemma append_fits pidb s sk v grbit : plain_index pidb = true -> column_okb s v = true -> grbit = 0 \/ grbit = JET_bitNewKey ->
  fTooBig (sk_stat sk) = false -> Z.of_nat (length (sk_key sk)) + column_cb pidb s v <= idb_CbKeyMost pidb ->
  append_key_segment pidb s sk v grbit
  = Some (errSuccess, Searchkey (sk_key sk ++ key_segment pidb s v) (sk_cColumns sk + 1) (KSSetPrepare (sk_stat sk))).
Proof.
  intros Hp Hv Hg Hb Hc. destruct (column_cb_enough pidb s v Hv) as [L _]. unfold append_key_segment. cbv zeta. rewrite Hb. cbn [negb andb].
  set (k := Z.of_nat (length (sk_key sk))) in *. destruct (Z.ltb_spec k (idb_CbKeyMost pidb)); [|lia].
  assert (Ht : idb_FTuples pidb = false /\ idb_CbKeyMost pidb < 65535).
  { unfold plain_index in Hp. repeat (apply andb_prop in Hp as [Hp ?]). destruct (idb_FTuples pidb); [discriminate|]. split; [reflexivity|now apply Z.ltb_lt]. }
  destruct Ht as [-> Hm]. rewrite andb_false_r. unfold ErrFLDNormalizeSegment.
  destruct (normalize_value_fits pidb s v (idb_CbKeyMost pidb - k) grbit (sk_stat sk) Hp Hv) as (d & ->); try lia; [destruct Hg as [-> | ->]; reflexivity|].
  change (errSuccess <? 0) with false. cbv iota. fold (key_segment pidb s v). rewrite no_limits by exact Hg. change (errSuccess <? 0) with false. cbv iota.
  rewrite length_key_segment. unfold CbLimitKeyMost. rewrite u16_small by lia.
  destruct (Z.ltb_spec (idb_CbKeyMost pidb + 1) (k + Z.of_nat (length (column_segment pidb s v)))); [lia|]. reflexivity.
Qed.

Lemma fit_ok s v : column_okb s v = true -> fit_key_segment s v v = Some v.
Proof.
  intros Hv. unfold fit_key_segment. destruct v as [|b v]; [cbn; now rewrite andb_false_r|].
  destruct (column_ok_facts s (b :: v) Hv ltac:(discriminate)) as (_ & F & _). destruct (seg_fFixed s); [|reflexivity]. rewrite F by reflexivity.
  rewrite Z.eqb_refl. now rewrite andb_false_r.
Qed.

(** One call. *)
Lemma make_key_step pidb sk s v grbit :
  plain_index pidb = true -> column_okb s v = true -> grbit = 0 \/ grbit = JET_bitNewKey ->
  let sk0 := if fbit grbit JET_bitNewKey then searchkey_new else sk in
  (grbit = 0 -> sk_stat sk = Keystat true false false) ->
  nth_error (idb_rgidxseg pidb) (Z.to_nat (sk_cColumns sk0)) = Some s ->
  Z.of_nat (length (sk_key sk0)) + column_cb pidb s v <= idb_CbKeyMost pidb ->
  ErrIsamMakeKey (Some pidb) sk v grbit
  = Some (errSuccess, Searchkey (sk_key sk0 ++ key_segment pidb s v) (sk_cColumns sk0 + 1) (Keystat true false false)).
Proof.
  intros Hp Hv Hg sk0 Hs Hn Hc. destruct (column_cb_enough pidb s v Hv) as [_ Lv]. unfold ErrIsamMakeKey.
  assert (Eg : fbit grbit JET_bitNormalizedKey = false) by (destruct Hg as [-> | ->]; reflexivity). rewrite Eg. cbv zeta.
  assert (El : (if idb_CbKeyMost pidb =? JET_cbKeyMost_OLD then firstn (Z.to_nat JET_cbKeyMost_OLD) v else v) = v).
  { destruct (Z.eqb_spec (idb_CbKeyMost pidb) JET_cbKeyMost_OLD) as [E|]; [|reflexivity]. apply firstn_all2. rewrite <- E. lia. }
  rewrite El. assert (Hh : idb_FHasPlaceholderColumn pidb = false).
  { unfold plain_index in Hp. apply andb_prop in Hp as [_ Hp]. now destruct (idb_FHasPlaceholderColumn pidb). }
  rewrite Hh. assert (Hsk : (negb (fbit grbit JET_bitNewKey) && fLimit (sk_stat sk)) = false /\ (negb (fbit grbit JET_bitNewKey) && negb (fPrepared (sk_stat sk))) = false /\
    fTooBig (sk_stat sk0) = false /\ KSSetPrepare (sk_stat sk0) = Keystat true false false).
  { unfold sk0. destruct Hg as [-> | ->]; [change (fbit 0 JET_bitNewKey) with false; cbv iota; rewrite Hs by reflexivity|]; now repeat split. }
  destruct Hsk as (-> & -> & Hb & Hpr). fold sk0. rewrite andb_false_r. cbn [andb]. rewrite Hn, fit_ok by exact Hv.
  assert (Ev : valid_limit_options s grbit = true) by (destruct Hg as [-> | ->]; reflexivity). rewrite Ev. cbn [negb].
  rewrite append_fits by assumption. now rewrite Hpr.
Qed.

Lemma make_rest_spec pidb segs : forall sk vs, plain_index pidb = true -> sk_stat sk = Keystat true false false -> 0 <= sk_cColumns sk ->
  skipn (Z.to_nat (sk_cColumns sk)) (idb_rgidxseg pidb) = segs -> columns_okb segs vs = true ->
  Z.of_nat (length (sk_key sk)) + key_cb pidb segs vs <= idb_CbKeyMost pidb ->
  make_rest pidb sk vs = Some (errSuccess, Searchkey (sk_key sk ++ index_key pidb segs vs) (sk_cColumns sk + Z.of_nat (length vs)) (Keystat true false false)).
Proof.
  induction segs as [|s segs IH]; intros sk [|v vs] Hp Hs H0 Hseg Hv Hc; try discriminate; cbn [make_rest index_key length] in *.
  - rewrite app_nil_r, Z.add_0_r, <- Hs. now destruct sk.
  - apply andb_prop in Hv as [Hv Hvs]. cbn [key_cb] in Hc. pose proof (key_cb_nonneg pidb segs vs Hvs).
    assert (Hn : nth_error (idb_rgidxseg pidb) (Z.to_nat (sk_cColumns sk)) = Some s).
    { rewrite <- (Nat.add_0_r (Z.to_nat _)), <- nth_error_skipn, Hseg. reflexivity. }
    rewrite (make_key_step pidb sk s v 0) by (auto; cbv [fbit]; cbn; auto; lia). change (errSuccess <? 0) with false. cbv iota.
    change (fbit 0 JET_bitNewKey) with false. cbv iota. rewrite IH; cbn [sk_key sk_cColumns sk_stat]; auto; try lia.
    + rewrite <- app_assoc. do 3 f_equal. lia.
    + replace (Z.to_nat (sk_cColumns sk + 1)) with (1 + Z.to_nat (sk_cColumns sk))%nat by lia. rewrite <- skipn_skipn, Hseg. reflexivity.
    + rewrite length_app, length_key_segment. destruct (column_cb_enough pidb s v Hv). lia.
Qed.

(** Making a key of all columns of an index. *)
Lemma make_key_spec pidb sk vs : plain_index pidb = true -> columns_okb (idb_rgidxseg pidb) vs = true -> vs <> [] ->
  key_cb pidb (idb_rgidxseg pidb) vs <= idb_CbKeyMost pidb ->
  make_key pidb sk vs = Some (errSuccess, Searchkey (index_key pidb (idb_rgidxseg pidb) vs) (Z.of_nat (length vs)) (Keystat true false false)).
Proof.
  intros Hp Hv Hne Hc. destruct vs as [|v vs]; [contradiction|]. destruct (idb_rgidxseg pidb) as [|s segs] eqn:Es; [discriminate|].
  cbn [columns_okb key_cb index_key make_key length] in *. apply andb_prop in Hv as [Hv Hvs]. pose proof (key_cb_nonneg pidb segs vs Hvs).
  rewrite (make_key_step pidb sk s v JET_bitNewKey) by (auto; try discriminate; cbn; rewrite ?Es; auto; lia).
  change (errSuccess <? 0) with false. cbv iota. change (fbit JET_bitNewKey JET_bitNewKey) with true. cbv iota.
  rewrite (make_rest_spec pidb segs); cbn [sk_key sk_cColumns sk_stat searchkey_new app]; auto; try lia.
  - do 3 f_equal. lia.
  - now rewrite Es.
  - rewrite length_key_segment. destruct (column_cb_enough pidb s v Hv). lia.
Qed.

(** ** How long a segment can be *)

Lemma text_segment_length v cbAvail most mac cp : 1 <= cbAvail -> 1 <= mac ->
  Z.of_nat (length (snd (ErrFLDNormalizeTextSegment v cbAvail most mac cp))) <= cbAvail.
Proof.
  intros Ha Hm. unfold ErrFLDNormalizeTextSegment. cbv zeta. set (t := firstn _ v). set (cb := Z.min cbAvail mac - 1). assert (Hcb : 0 <= cb < cbAvail) by (unfold cb; lia). clearbody t cb.
  assert (L : forall r, r = (if cp =? usUniCodePage then ErrNORMMapString t cb else ErrUtilNormText t cb) -> Z.of_nat (length (snd r)) <= cb).
  { intros r ->. destruct (cp =? usUniCodePage); [now apply ErrNORMMapString_fits|now apply norm_text_length]. }
  specialize (L _ eq_refl). destruct (if cp =? usUniCodePage then _ else _) as [err seg]. cbn [snd] in L.
  destruct (err <? 0); cbn [snd length]; lia.
Qed.

Lemma normalize_value_length pidb v coltyp cp cbAvail fFixed fTuple grbit ks err seg ks' delim :
  1 <= cbAvail -> 1 <= idb_CbVarSegMac pidb -> 0 <= idb_CbKeyMost pidb ->
  normalize_value pidb v coltyp cp cbAvail fFixed fTuple grbit ks = Some (err, seg, ks', delim) ->
  Z.of_nat (length seg) <= cbAvail /\ 0 <= delim /\ (delim <> 0 -> delim <= Z.of_nat (length seg)).
Proof.
  intros Ha Hm Hk. assert (Hmac : 1 <= CbVarSegMacT pidb) by (unfold CbVarSegMacT; case_cmp; lia). unfold normalize_value. cbv zeta.
  assert (N : forall z, length (FLDNormalizeNullSegment coltyp z (idb_FSortNullsHigh pidb)) = 1%nat) by (intros z; unfold FLDNormalizeNullSegment; now destruct (_ || _)).
  destruct v as [|b v].
  { destruct fTuple; [intros [= <- <- <- <-]; cbn; lia|]. destruct (_ && _); intros [= <- <- <- <-]; rewrite ?N; cbn; lia. }
  set (w := b :: v). destruct (FRECTextColumn coltyp).
  - destruct (fTuple && _); [intros [= <- <- <- <-]; cbn; lia|].
    set (t := if fTuple then _ else w). pose proof (text_segment_length t cbAvail (idb_CbKeyMost pidb) (CbVarSegMacT pidb) cp Ha Hmac) as L.
    destruct (ErrFLDNormalizeTextSegment t cbAvail (idb_CbKeyMost pidb) (CbVarSegMacT pidb) cp) as [e sg]. cbn [snd] in L.
    destruct (e <? 0); intros [= <- <- <- <-]; cbn [length]; lia.
  - destruct (FRECBinaryColumn coltyp).
    + destruct fFixed.
      * unfold FLDNormalizeBinarySegment. cbv zeta. intros [= <- <- <- <-]. cbn [length]. rewrite length_firstn. case_cmp; cbn [andb] in *; lia.
      * destruct (binary_segment_spec w cbAvail (idb_CbKeyMost pidb) (CbVarSegMacT pidb) ltac:(discriminate)) as (d & -> & Hd); try lia.
        intros [= <- <- <- <-]. rewrite length_firstn. set (m := Z.min _ cbAvail) in *.
        assert (m <= Z.of_nat (length (binary_full w))) by (unfold m, binary_cb; case_cmp; lia). lia.
    + destruct (FLDNormalizeFixedSegment w coltyp (idb_FDotNetGuid pidb)) as [sg|]; [|discriminate]. destruct (Z.ltb_spec cbAvail (Z.of_nat (length sg))); intros [= <- <- <- <-];
        rewrite ?length_firstn; lia.
Qed.

Lemma normalize_value_limit pidb v coltyp cp cbAvail fFixed fTuple grbit ks err seg ks' delim :
  normalize_value pidb v coltyp cp cbAvail fFixed fTuple grbit ks = Some (err, seg, ks', delim) -> fLimit ks' = fLimit ks.
Proof.
  unfold normalize_value. cbv zeta. destruct v as [|b v].
  { destruct fTuple; [|destruct (_ && _)]; now intros [= <- <- <- <-]. }
  destruct (FRECTextColumn coltyp).
  - destruct (_ && _); [now intros [= <- <- <- <-]|]. destruct (ErrFLDNormalizeTextSegment _ _ _ _ _) as [e sg]. destruct (e <? 0); [now intros [= <- <- <- <-]|].
    intros E. injection E as _ _ <- _. now destruct (match e with Z.pos q => _ | _ => false end).
  - destruct (FRECBinaryColumn coltyp).
    + destruct (FLDNormalizeBinarySegment _ _ _ _ _) as [[sg t] d]. intros [= <- <- <- <-]. now destruct t.
    + destruct (FLDNormalizeFixedSegment _ _ _); [|discriminate]. destruct (_ <? _); now intros [= <- <- <- <-].
Qed.

Lemma full_limit_length norm cb need : Z.of_nat (length norm) <= cb -> Z.of_nat (length (FLDISetFullColumnLimit norm cb need)) <= cb.
Proof. intros H. unfold FLDISetFullColumnLimit. destruct need; [rewrite length_app, repeat_length|]; lia. Qed.

Lemma binary_limit_length norm cb delim need : Z.of_nat (length norm) < cb -> 0 <= delim -> (delim <> 0 -> delim <= Z.of_nat (length norm)) ->
  Z.of_nat (length (FLDITrySetPartialColumnLimitOnBinaryColumn norm cb delim need)) <= cb.
Proof.
  intros H H0 Hd. unfold FLDITrySetPartialColumnLimitOnBinaryColumn. destruct (Z.eqb_spec 0 delim); [apply full_limit_length; lia|].
  destruct need; [rewrite length_app, repeat_length|]; rewrite length_firstn; lia.
Qed.

Lemma delimiter_loop_from fuel : forall norm b ib n r, delimiter_loop fuel norm b ib n = Some r -> ib <= r.
Proof.
  induction fuel as [|fuel IH]; intros norm b ib n r; cbn [delimiter_loop]; [discriminate|]. destruct (ib <? n); [|intros [= <-]; lia].
  destruct (nth_error norm (Z.to_nat ib)); [|discriminate]. destruct (_ =? _); [intros [= <-]; lia|]. intros E. apply IH in E. lia.
Qed.

Lemma text_limit_length norm cb desc need cp norm' : Z.of_nat (length norm) < cb ->
  FLDISetPartialColumnLimitOnTextColumn norm cb desc need cp = Some norm' -> Z.of_nat (length norm') <= cb.
Proof.
  intros H. unfold FLDISetPartialColumnLimitOnTextColumn. cbv zeta.
  destruct (Z.ltb_spec (Z.of_nat (length norm)) 2); [intros [= <-]; apply full_limit_length; lia|].
  destruct (if usUniCodePage =? cp then _ else _) as [ib|] eqn:E; [|discriminate]. intros [= <-].
  assert (0 <= ib) by (destruct (usUniCodePage =? cp); [apply delimiter_loop_from in E; lia|injection E as <-; destruct (_ =? _); lia]).
  destruct need; rewrite ?length_app, ?repeat_length, length_firstn; lia.
Qed.

(** A normalised segment, whatever the column and the options, fits the key
    space that is left, and only a limit may take one byte more. *)
Lemma segment_length pidb v coltyp cp cbAvail desc fFixed fTuple grbit ks err seg ks' :
  1 <= cbAvail -> 1 <= idb_CbVarSegMac pidb -> 0 <= idb_CbKeyMost pidb ->
  ErrFLDNormalizeSegment pidb v coltyp cp cbAvail desc fFixed fTuple grbit ks = Some (err, seg, ks') ->
  Z.of_nat (length seg) <= cbAvail + (if fLimit ks' then 1 else 0) /\ (fLimit ks = true -> fLimit ks' = true).
Proof.
  intros Ha Hm Hk. unfold ErrFLDNormalizeSegment. destruct (normalize_value pidb v coltyp cp cbAvail fFixed fTuple grbit ks) as [[[[e n] k] d]|] eqn:E; [|discriminate].
  destruct (normalize_value_length _ _ _ _ _ _ _ _ _ _ _ _ _ Ha Hm Hk E) as (L & D0 & D). assert (Lk := normalize_value_limit _ _ _ _ _ _ _ _ _ _ _ _ _ E).
  destruct (e <? 0); [intros [= <- <- <-]; split; [destruct (fLimit k); cbn; lia|congruence]|].
  set (norm := if desc then map bNot n else n). assert (Ln : length norm = length n) by (unfold norm; destruct desc; [apply length_map|reflexivity]).
  rewrite <- Ln in *. clearbody norm. clear E Ln.
  assert (A : forall norm' f, apply_limits norm coltyp cp cbAvail desc grbit d = Some (norm', f) -> Z.of_nat (length norm') <= cbAvail + (if f : bool then 1 else 0)).
  { intros norm' f. unfold apply_limits. cbv zeta. destruct (_ || _); [intros [= <- <-]; apply full_limit_length; lia|].
    destruct (_ || _).
    - destruct (FRECTextColumn coltyp); [|intros [= <- <-]; apply binary_limit_length; auto; lia].
      destruct (FLDISetPartialColumnLimitOnTextColumn _ _ _ _ _) as [q|] eqn:Eq; [|discriminate]. intros [= <- <-]. apply text_limit_length in Eq; lia.
    - destruct (_ && _).
      + destruct (FLDISetPartialColumnLimitOnTextColumn _ _ _ _ _) as [q|] eqn:Eq; [|discriminate]. intros [= <- <-]. apply text_limit_length in Eq; lia.
      + destruct (fbit grbit JET_bitStrLimit); intros [= <- <-]; [apply binary_limit_length; auto; lia|lia]. }
  destruct (apply_limits norm coltyp cp cbAvail desc grbit d) as [[norm' f]|]; [|discriminate]. specialize (A norm' f eq_refl).
  intros [= <- <- <-]. destruct f; cbn [KSSetLimit fLimit]; [auto|]. split; [destruct (fLimit k); lia|congruence].
Qed.

(** ** The state of a search key *)

(** The key fits the index, with one byte more for a limit, and has no more
    columns than the index. *)
Definition search_key_ok (pidb : IDB) (sk : SEARCHKEY) : bool :=
  (Z.of_nat (length (sk_key sk)) <=? idb_CbKeyMost pidb + (if fLimit (sk_stat sk) then 1 else 0))
  && (0 <=? sk_cColumns sk) && (sk_cColumns sk <=? Z.of_nat (length (idb_rgidxseg pidb))).

Lemma search_key_ok_spec pidb sk : search_key_ok pidb sk = true <->
  Z.of_nat (length (sk_key sk)) <= idb_CbKeyMost pidb + (if fLimit (sk_stat sk) then 1 else 0) /\ 0 <= sk_cColumns sk <= Z.of_nat (length (idb_rgidxseg pidb)).
Proof. unfold search_key_ok. rewrite !andb_true_iff, !Z.leb_le. tauto. Qed.

(** What every index has. *)
Definition index_okb (pidb : IDB) : bool :=
  (2 <=? idb_CbKeyMost pidb) && (idb_CbKeyMost pidb <? 65535) && (1 <=? idb_CbVarSegMac pidb) && (0 <? Z.of_nat (length (idb_rgidxseg pidb))).

Lemma append_keeps_ok pidb s sk v grbit err sk' : index_okb pidb = true -> search_key_ok pidb sk = true ->
  sk_cColumns sk < Z.of_nat (length (idb_rgidxseg pidb)) -> append_key_segment pidb s sk v grbit = Some (err, sk') -> search_key_ok pidb sk' = true.
Proof.
  intros Hi Hs Hc. apply search_key_ok_spec in Hs as [L C]. unfold index_okb in Hi. rewrite !andb_true_iff, !Z.leb_le, !Z.ltb_lt in Hi. destruct Hi as (((I1 & I2) & I3) & I4).
  unfold append_key_segment. cbv zeta. unfold CbLimitKeyMost. rewrite u16_small by lia.
  assert (A : forall e sg st, (if negb (fTooBig (sk_stat sk)) && (Z.of_nat (length (sk_key sk)) <? idb_CbKeyMost pidb) then
      ErrFLDNormalizeSegment pidb v (seg_coltyp s) (seg_cp s) (idb_CbKeyMost pidb - Z.of_nat (length (sk_key sk))) (seg_fDescending s)
        (seg_fFixed s) ((0 =? sk_cColumns sk) && idb_FTuples pidb) grbit (sk_stat sk)
    else Some (errSuccess, [], sk_stat sk)) = Some (e, sg, st) ->
    Z.of_nat (length (sk_key sk)) + Z.of_nat (length sg) <= idb_CbKeyMost pidb + (if fLimit st then 1 else 0)).
  { intros e sg st. destruct (negb _ && _) eqn:B; [|intros [= <- <- <-]; cbn [length]; lia]. apply andb_prop in B as [_ B]. apply Z.ltb_lt in B.
    intros E. apply segment_length in E as [E _]; lia. }
  destruct (if negb _ && _ then _ else _) as [[[e sg] st]|]; [|discriminate]. specialize (A e sg st eq_refl).
  destruct (e <? 0); intros [= <- <-]; apply search_key_ok_spec; cbn [sk_key sk_stat sk_cColumns KSSetPrepare fLimit].
  - split; [lia|exact C].
  - split; [|lia]. rewrite length_app. destruct (Z.ltb_spec (idb_CbKeyMost pidb + 1) (Z.of_nat (length (sk_key sk)) + Z.of_nat (length sg))); [|lia].
    destruct (fLimit st); lia.
Qed.

Lemma normalized_keeps_ok pidb sk v err sk' : index_okb pidb = true -> search_key_ok pidb sk = true ->
  make_normalized_key sk v (idb_CbKeyMost pidb) = (err, sk') -> search_key_ok pidb sk' = true.
Proof.
  intros Hi Hs. unfold index_okb in Hi. rewrite !andb_true_iff, !Z.leb_le, !Z.ltb_lt in Hi. destruct Hi as (((I1 & I2) & I3) & I4).
  unfold make_normalized_key. cbv zeta. unfold CbLimitKeyMost. rewrite u16_small by lia. destruct (_ && _); intros [= <- <-]; [assumption|].
  apply search_key_ok_spec. cbn [sk_key sk_stat sk_cColumns]. rewrite length_firstn. split; [|lia].
  destruct (Z.ltb_spec (idb_CbKeyMost pidb) (Z.min (idb_CbKeyMost pidb + 1) (Z.of_nat (length v)))); cbn [KSSetLimit fLimit KSSetPrepare keystatNull]; lia.
Qed.

Lemma start_keeps_ok pidb (fNew : bool) (c : bool) d sk : index_okb pidb = true -> search_key_ok pidb sk = true ->
  let sk := if fNew then searchkey_new else sk in
  search_key_ok pidb (if c then RECINormalisePlaceholder d sk else sk) = true.
Proof.
  intros Hi Hs. unfold index_okb in Hi. rewrite !andb_true_iff, !Z.leb_le, !Z.ltb_lt in Hi. destruct Hi as (((I1 & I2) & I3) & I4).
  destruct c, fNew; try assumption; apply search_key_ok_spec; cbn [RECINormalisePlaceholder searchkey_new sk_key sk_stat sk_cColumns length keystatNull fLimit];
    try destruct (fLimit _); lia.
Qed.

Lemma make_key_keeps_ok pidb sk v grbit err sk' : index_okb pidb = true -> search_key_ok pidb sk = true ->
  ErrIsamMakeKey (Some pidb) sk v grbit = Some (err, sk') -> search_key_ok pidb sk' = true.
Proof.
  intros Hi Hs. unfold ErrIsamMakeKey. cbv zeta. destruct (fbit grbit JET_bitNormalizedKey).
  { intros [= E]. now apply normalized_keeps_ok in E. }
  destruct (_ && _); [intros [= <- <-]; exact Hs|]. destruct (_ && _); [intros [= <- <-]; exact Hs|].
  set (sk0 := if fbit grbit JET_bitNewKey then _ else _). match goal with |- context [if ?c then RECINormalisePlaceholder ?d sk0 else sk0] =>
    pose proof (start_keeps_ok pidb (fbit grbit JET_bitNewKey) c d sk Hi Hs) as H1; cbv zeta in H1; fold sk0 in H1; set (sk1 := if c then _ else sk0) in * end.
  clearbody sk1. destruct (nth_error _ _) as [s|] eqn:En; [|intros [= <- <-]; exact H1]. destruct (fit_key_segment _ _ _); [|intros [= <- <-]; exact H1].
  destruct (negb _); [intros [= <- <-]; exact H1|]. apply append_keeps_ok; auto. apply search_key_ok_spec in H1 as [_ H1].
  assert (nth_error (idb_rgidxseg pidb) (Z.to_nat (sk_cColumns sk1)) <> None) as Hn by congruence. apply nth_error_Some in Hn. lia.
Qed.

(** The value has the bytes that the type of the column reads: fixed columns have the
    size of their type, and a column of another kind is null or gets at least as
    many bytes. *)
Definition segment_readable (pvKeySeg : list Z) (s : IDXSEG) : bool :=
  match fixed_size (seg_coltyp s) with
  | None => true
  | Some n => if seg_fFixed s then seg_cbMaxLen s =? Z.of_nat n else (length pvKeySeg =? 0)%nat || (n <=? length pvKeySeg)%nat
  end.

(** Neither Unicode text, where the search for a delimiter may leave the segment, nor
    a number that is cut short. *)
Definition segment_safe (pvKeySeg : list Z) (s : IDXSEG) : bool :=
  negb (FRECTextColumn (seg_coltyp s) && (usUniCodePage =? seg_cp s)) && segment_readable pvKeySeg s.

Lemma fixed_size_most c n : fixed_size c = Some n -> (n <= 16)%nat.
Proof. destruct c; intros [= <-]; lia. Qed.

Lemma readable_line pidb s pv w : segment_readable pv s = true -> fixed_size (seg_coltyp s) <> None ->
  fit_key_segment s pv (if idb_CbKeyMost pidb =? JET_cbKeyMost_OLD then firstn (Z.to_nat JET_cbKeyMost_OLD) pv else pv) = Some w -> w <> [] ->
  FLDNormalizeFixedSegment w (seg_coltyp s) (idb_FDotNetGuid pidb) <> None.
Proof.
  unfold segment_readable. intros R N E W. destruct (fixed_size (seg_coltyp s)) as [n|] eqn:Es; [|contradiction]. pose proof (fixed_size_most _ _ Es) as Mo. destruct (size_kind _ _ Es) as [Nt _].
  set (line := if _ =? _ then _ else pv) in *. assert (L : line = pv \/ (255 <= length line)%nat \/ length line = length pv).
  { unfold line. destruct (idb_CbKeyMost pidb =? JET_cbKeyMost_OLD); [|now left]. rewrite length_firstn. change (Z.to_nat JET_cbKeyMost_OLD) with 255%nat. lia. }
  assert (Ew : w = line /\ (pv = [] \/ (n <= length line)%nat)).
  { unfold fit_key_segment in E. destruct (seg_fFixed s); cbn [andb] in E.
    - apply Z.eqb_eq in R. destruct (Z.ltb_spec 0 (Z.of_nat (length pv))) as [P|P]; cbn [andb] in E.
      + destruct (Z.eqb_spec (Z.of_nat (length pv)) (seg_cbMaxLen s)) as [Q|Q]; cbn [negb] in E; [injection E as <-; split; [reflexivity|right]; destruct L as [-> | [L | L]]; lia|]. exfalso. clear - E Nt. destruct (seg_coltyp s); discriminate.
      + injection E as <-. split; [reflexivity|left]. destruct pv; [reflexivity|cbn in P; lia].
    - injection E as <-. split; [reflexivity|]. apply orb_true_iff in R as [R|R]; [left; apply Nat.eqb_eq in R; now destruct pv|right; apply Nat.leb_le in R; destruct L as [-> | [L | L]]; lia]. }
  destruct Ew as [-> [-> | Le]]; [exfalso; apply W; unfold line; destruct (idb_CbKeyMost pidb =? JET_cbKeyMost_OLD); [now rewrite firstn_nil|reflexivity]|]. rewrite FLDNormalizeFixedSegment_eq, Es, (proj2 (Nat.leb_le _ _) Le). discriminate.
Qed.

Lemma normalize_value_returns pidb w s cbAvail fTuple grbit ks :
  (fixed_size (seg_coltyp s) <> None -> w <> [] -> FLDNormalizeFixedSegment w (seg_coltyp s) (idb_FDotNetGuid pidb) <> None) ->
  normalize_value pidb w (seg_coltyp s) (seg_cp s) cbAvail (seg_fFixed s) fTuple grbit ks <> None.
Proof.
  intros H. unfold normalize_value. cbv zeta. destruct w as [|b w]; [destruct fTuple; [discriminate|]; now destruct (_ && _)|].
  destruct (FRECTextColumn (seg_coltyp s)) eqn:Et; [destruct (_ && _); [discriminate|]; destruct (ErrFLDNormalizeTextSegment _ _ _ _ _) as [e sg]; now destruct (e <? 0)|].
  destruct (FRECBinaryColumn (seg_coltyp s)) eqn:Eb; [now destruct (FLDNormalizeBinarySegment _ _ _ _ _) as [[? ?] ?]|].
  assert (Hs : fixed_size (seg_coltyp s) <> None) by (intros Hn; rewrite (no_size_kind _ Hn Et) in Eb; discriminate). specialize (H Hs ltac:(discriminate)).
  destruct (FLDNormalizeFixedSegment _ _ _); [now destruct (_ <? _)|contradiction].
Qed.

Lemma make_key_returns pidb sk v grbit :
  forallb (segment_safe v) (idb_rgidxseg pidb) = true ->
  exists err sk', ErrIsamMakeKey (Some pidb) sk v grbit = Some (err, sk').
Proof.
  intros Ha. unfold ErrIsamMakeKey. cbv zeta. destruct (fbit grbit JET_bitNormalizedKey); [destruct (make_normalized_key _ _ _); eauto|].
  destruct (_ && _); [eauto|]. destruct (_ && _); [eauto|]. set (sk1 := if _ && _ && _ then _ else _). clearbody sk1.
  destruct (nth_error _ _) as [s|] eqn:En; [|eauto]. apply nth_error_In in En. rewrite forallb_forall in Ha. specialize (Ha s En). apply andb_prop in Ha as [Ha Hr].
  destruct (fit_key_segment _ _ _) as [w|] eqn:Ew; [|eauto]. destruct (negb (valid_limit_options s grbit)); [eauto|]. unfold append_key_segment. cbv zeta.
  assert (T : forall norm cb need, FRECTextColumn (seg_coltyp s) = true -> FLDISetPartialColumnLimitOnTextColumn norm cb (seg_fDescending s) need (seg_cp s) <> None).
  { intros norm cb need Et. rewrite Et in Ha. cbn [andb] in Ha. apply negb_true_iff in Ha. unfold FLDISetPartialColumnLimitOnTextColumn. rewrite Ha. cbv zeta.
    now destruct (_ <? 2). }
  assert (A : forall norm cbAvail delim, apply_limits norm (seg_coltyp s) (seg_cp s) cbAvail (seg_fDescending s) grbit delim <> None).
  { intros norm cbAvail delim. unfold apply_limits. cbv zeta. destruct (_ || _); [discriminate|]. destruct (FRECTextColumn (seg_coltyp s)) eqn:Et; destruct (_ || _).
    - pose proof (T norm (cbAvail + 1) (fbit grbit JET_bitPartialColumnEndLimit) eq_refl). now destruct (FLDISetPartialColumnLimitOnTextColumn _ _ _ _ _).
    - rewrite andb_true_r. destruct (fbit grbit JET_bitSubStrLimit); [|now destruct (fbit grbit JET_bitStrLimit)].
      pose proof (T norm (cbAvail + 1) true eq_refl). now destruct (FLDISetPartialColumnLimitOnTextColumn _ _ _ _ _).
    - discriminate.
    - rewrite andb_false_r. now destruct (fbit grbit JET_bitStrLimit). }
  destruct (negb _ && _); [|cbn; eauto]. unfold ErrFLDNormalizeSegment. match goal with |- context [normalize_value ?a ?b ?c ?d ?e ?f ?g ?h ?i] => pose proof (normalize_value_returns a b s e g h i ltac:(intros Hs; now apply (readable_line pidb s v w Hr Hs))) as Nr; destruct (normalize_value a b c d e f g h i) as [[[[e' n] k] d']|]; [|contradiction] end.
  destruct (e' <? 0) eqn:Ee; [rewrite Ee; eauto|]. match goal with |- context [apply_limits ?a ?b ?c ?d ?e ?f ?g] => specialize (A a d g); destruct (apply_limits a b c d e f g) as [[n' f']|]; [|contradiction] end.
  change (errSuccess <? 0) with false. cbv iota. eauto.
Qed.
End Make.
