(* ===== verification/NormRead.v ===== *)
(** * Reading columns back from keys

    What [RECIRetrieveColumnFromKey] finds in the segment of a column, and what
    [ErrRECIRetrieveColumnFromKey] finds in a whole key. *)

From Stdlib Require Import ZArith List Lia Bool.
From S2P Require Import Prelude Bits Mem Key KeyProps Norm NormOrder NormBinary NormKeys.
Import ListNotations.

(** ** Masks *)

(** A byte and a segment as the direction of the column stores them. *)
Definition mask (d : bool) (b : Z) : Z := if d then bNot b else b.

Lemma mask_twice d b : mask d (mask d b) = b.
Proof. destruct d; [|reflexivity]. cbn [mask]. unfold bNot. now rewrite Z.lxor_assoc, Z.lxor_nilpotent, Z.lxor_0_r. Qed.

Lemma mask_eqb d a b : (mask d a =? mask d b) = (a =? b).
Proof.
  destruct (Z.eqb_spec a b) as [->|H]; [apply Z.eqb_refl|]. apply Z.eqb_neq. intros E. apply H.
  now rewrite <- (mask_twice d a), E, mask_twice.
Qed.

Lemma map_mask_twice d l : map (mask d) (map (mask d) l) = l.
Proof. rewrite map_map. rewrite (map_ext _ (fun b => b)); [apply map_id|intros; apply mask_twice]. Qed.

Lemma masked (d : bool) l : (if d then map bNot l else l) = map (mask d) l.
Proof. destruct d; [reflexivity|]. symmetry. apply map_id. Qed.

Lemma key_segment_masked pidb s v : key_segment pidb s v = map (mask (seg_fDescending s)) (column_segment pidb s v).
Proof. apply masked. Qed.

Lemma take_bytes_app n a b : length a = n -> take_bytes n (a ++ b) = Some (a, b).
Proof.
  intros <-. unfold take_bytes. rewrite length_app. destruct (Nat.leb_spec (length a) (length a + length b)); [|lia].
  now rewrite firstn_app, firstn_all, Nat.sub_diag, app_nil_r, skipn_app, skipn_all, Nat.sub_diag.
Qed.

Lemma take_one b l : take_bytes 1 (b :: l) = Some ([b], l).
Proof. exact (take_bytes_app 1 [b] l eq_refl). Qed.

(** ** Numbers *)

Lemma be_bytes_complement n : forall x, 0 <= x < 256 ^ Z.of_nat n -> map bNot (be_bytes_of n x) = be_bytes_of n (256 ^ Z.of_nat n - 1 - x).
Proof.
  induction n as [|n IH]; intros x Hx; [reflexivity|]. rewrite pow256_S in *. rewrite !be_bytes_S, map_app. cbn [map].
  rewrite bNot_sub by (apply Z.mod_pos_bound; lia). rewrite IH by zlia. f_equal; [f_equal|f_equal]; zlia.
Qed.

Lemma be_number_mask (d : bool) n x : 0 <= x < 256 ^ Z.of_nat n ->
  be_number (map (mask d) (be_bytes_of n x)) = if d then Z.lxor x (Z.ones (8 * Z.of_nat n)) else x.
Proof.
  intros Hx. rewrite <- masked. destruct d; [|now apply be_number_bytes]. rewrite be_bytes_complement, be_number_bytes by lia.
  rewrite lxor_ones; rewrite ?Z.pow_mul_r by lia; change (2 ^ 8) with 256; lia.
Qed.

(** The null prefix of an index. *)
Definition null_prefix (high : bool) : Z := if high then bPrefixNullHigh else bPrefixNull.

Lemma retrieve_number_null n d high un rest : retrieve_number n d (null_prefix high) un (map (mask d) [null_prefix high] ++ rest) = Some ([], true, rest).
Proof.
  unfold retrieve_number. cbn [map app]. rewrite take_one. cbn [nth]. fold (mask d (null_prefix high)). now rewrite Z.eqb_refl.
Qed.

Lemma retrieve_number_data n (d : bool) high un x rest : 0 <= x < 256 ^ Z.of_nat n ->
  retrieve_number n d (null_prefix high) un (map (mask d) (bPrefixData :: be_bytes_of n x) ++ rest)
  = Some (le_bytes_of n (un (if d then Z.lxor x (Z.ones (8 * Z.of_nat n)) else x)), false, rest).
Proof.
  intros Hx. unfold retrieve_number. cbn [map app]. rewrite take_one. cbn [nth]. fold (mask d (null_prefix high)). rewrite mask_eqb.
  replace (bPrefixData =? null_prefix high) with false by (now destruct high). rewrite take_bytes_app by (now rewrite length_map, length_be_bytes).
  now rewrite be_number_mask.
Qed.

Lemma lxor_swap x y z : Z.lxor (Z.lxor (Z.lxor x y) z) y = Z.lxor x z.
Proof. rewrite !Z.lxor_assoc, (Z.lxor_comm z y), <- (Z.lxor_assoc y y z), Z.lxor_nilpotent, Z.lxor_0_l. reflexivity. Qed.

Lemma lxor_back x y : Z.lxor (Z.lxor x y) y = x.
Proof. now rewrite Z.lxor_assoc, Z.lxor_nilpotent, Z.lxor_0_r. Qed.

(** Both ways of storing a floating-point number, undone. *)
Lemma ieee_back k w : 0 <= k -> 0 <= w < 2 ^ (k + 1) ->
  let y := if fbit w (2 ^ k) then Z.lxor w (Z.ones (k + 1)) else Z.lxor w (2 ^ k) in
  (if fbit y (2 ^ k) then Z.lxor y (2 ^ k) else Z.lxor y (Z.ones (k + 1))) = w.
Proof.
  intros Hk Hw. cbv zeta. pose proof (ieee_value k w Hk Hw) as [E R]. cbv zeta in *. rewrite E in *. rewrite high_bit, flip_high, lxor_ones by lia.
  revert R. unfold ieee_rank. rewrite Z.pow_add_r in * by lia. change (2 ^ 1) with 2 in *. case_cmp; lia.
Qed.

(** What is found of a column: a bit is 0 or 255, text is in upper case. *)
Definition column_back (s : IDXSEG) (v : list Z) : list Z :=
  match seg_coltyp s with
  | coltypBit => map (fun b => if b =? 0 then 0 else 255) v
  | coltypText | coltypLongText => text_key v
  | _ => v
  end.

(** The columns that can be skipped or read: not a descending GUID and not
    fixed text. *)
Definition readable (s : IDXSEG) : bool :=
  match seg_coltyp s with
  | coltypGUID => negb (seg_fDescending s)
  | coltypText | coltypLongText => negb (seg_fFixed s)
  | _ => true
  end.

Lemma pow256_bits n : 256 ^ Z.of_nat n = 2 ^ (8 * Z.of_nat n).
Proof. rewrite Z.pow_mul_r by lia. reflexivity. Qed.

(** The number that is stored, and the way back from it. *)
Lemma number_back n (d : bool) high un w v rest y : length v = n -> bytes_ok v -> w = le_number v -> 0 <= y < 256 ^ Z.of_nat n ->
  un (if d then Z.lxor y (Z.ones (8 * Z.of_nat n)) else y) = w ->
  retrieve_number n d (null_prefix high) un (map (mask d) (bPrefixData :: be_bytes_of n y) ++ rest) = Some (v, false, rest).
Proof. intros Hl Hv Hw Hy Hu. rewrite retrieve_number_data, Hu, Hw by exact Hy. rewrite <- Hl at 1. now rewrite le_bytes_number. Qed.

Section Fixed.
Variables (pidb : IDB) (s : IDXSEG).

Lemma flip_range k w : 0 <= k -> 0 <= w < 2 ^ (k + 1) -> 0 <= Z.lxor w (2 ^ k) < 2 ^ (k + 1).
Proof. intros Hk Hw. now destruct (flip_value k w Hk Hw) as [-> R]. Qed.

Lemma ieee_range k w : 0 <= k -> 0 <= w < 2 ^ (k + 1) ->
  0 <= (if fbit w (2 ^ k) then Z.lxor w (Z.ones (k + 1)) else Z.lxor w (2 ^ k)) < 2 ^ (k + 1).
Proof. intros Hk Hw. now destruct (ieee_value k w Hk Hw) as [-> R]. Qed.

(** The four ways of storing a number of [n] bytes, in one: [st] on the way in
    and [un] on the way out. *)
Lemma stored_back n d high v rest (st un : Z -> Z) : length v = n -> bytes_ok v ->
  (forall w, 0 <= w < 256 ^ Z.of_nat n -> 0 <= st w < 256 ^ Z.of_nat n /\
    un (if d : bool then Z.lxor (st w) (Z.ones (8 * Z.of_nat n)) else st w) = w) ->
  retrieve_number n d (null_prefix high) un (map (mask d) (bPrefixData :: be_bytes_of n (st (le_number v))) ++ rest) = Some (v, false, rest).
Proof.
  intros Hl Hv H. pose proof (le_number_range v Hv) as R. rewrite Hl in R. destruct (H _ R) as [R1 R2].
  now apply (number_back n d high un (le_number v)).
Qed.

Lemma dword_back (d : bool) w : 0 <= w < 256 ^ Z.of_nat 4 ->
  let y := if fbit w maskDWordHighBit then dwNot w else dwFlipHighBit w in
  let dwT := if d then dwNot (if d then Z.lxor y (Z.ones (8 * Z.of_nat 4)) else y) else (if d then Z.lxor y (Z.ones (8 * Z.of_nat 4)) else y) in
  (if fbit dwT maskDWordHighBit then dwFlipHighBit dwT else dwNot dwT) = w.
Proof.
  intros Hw y dwT. assert (E : dwT = y) by (unfold dwT; destruct d; [apply lxor_back|reflexivity]). rewrite E. now apply (ieee_back 31).
Qed.

Lemma qword_back (d : bool) w : 0 <= w < 256 ^ Z.of_nat 8 ->
  let y := if fbit w maskQWordHighBit then qwNot w else qwFlipHighBit w in
  let qwT := if d then qwNot (if d then Z.lxor y (Z.ones (8 * Z.of_nat 8)) else y) else (if d then Z.lxor y (Z.ones (8 * Z.of_nat 8)) else y) in
  (if fbit qwT maskQWordHighBit then qwFlipHighBit qwT else qwNot qwT) = w.
Proof.
  intros Hw y qwT. assert (E : qwT = y) by (unfold qwT; destruct d; [apply lxor_back|reflexivity]). rewrite E. now apply (ieee_back 63).
Qed.

Lemma guid_back (g : bool) v : length v = 16%nat ->
  map (fun i => nth i (map (fun i => nth i v 0) (if g then guid_order_net else guid_order)) 0) (if g then guid_source_net else guid_source) = v.
Proof.
  intros Hl. do 16 (destruct v as [|? v]; [discriminate|]). destruct v; [|discriminate]. now destruct g.
Qed.

Lemma fixed_read_back n v rest : fixed_size (seg_coltyp s) = Some n -> length v = n -> bytes_ok v -> readable s = true ->
  RECIRetrieveColumnFromKey pidb s (map (mask (seg_fDescending s)) (fixed_segment v (seg_coltyp s) (idb_FDotNetGuid pidb)) ++ rest)
  = Some (column_back s v, false, rest).
Proof.
  intros Hs Hl Hv Hr.
  unfold RECIRetrieveColumnFromKey, fixed_segment, column_back, readable in *. fold (null_prefix (idb_FSortNullsHigh pidb)).
  destruct (seg_coltyp s) eqn:Ec; try discriminate; injection Hs as <-; cbv zeta.
  - destruct (one_byte v Hl Hv) as (b & -> & Hb & ->). cbn [nth]. set (y := if b =? 0 then 0 else 255).
    assert (Hy : 0 <= y < 256) by (unfold y; destruct (b =? 0); lia). replace [bPrefixData; y] with (bPrefixData :: be_bytes_of 1 y) by (now rewrite be_byte).
    rewrite retrieve_number_data by exact Hy. cbn [map]. fold y. unfold y. destruct (seg_fDescending s), (b =? 0); reflexivity.
  - destruct (one_byte v Hl Hv) as (b & -> & Hb & ->). cbn [nth]. replace [bPrefixData; b] with (bPrefixData :: be_bytes_of 1 b) by (now rewrite be_byte).
    rewrite retrieve_number_data by exact Hb. destruct (seg_fDescending s); cbv iota.
    + change (Z.ones (8 * Z.of_nat 1)) with 255. unfold bNot. rewrite lxor_back. cbn [le_bytes_of]. now rewrite Z.mod_small.
    + cbn [le_bytes_of]. now rewrite Z.mod_small.
  - apply (stored_back 2 _ _ _ _ wFlipHighBit); auto. intros w Hw. split; [now apply (flip_range 15)|].
    unfold wFlipHighBit. destruct (seg_fDescending s); [rewrite Z.lxor_comm, lxor_swap|]; apply lxor_back.
  - apply (stored_back 2 _ _ _ _ (fun w => w)); auto. intros w Hw. split; [exact Hw|]. destruct (seg_fDescending s); [|reflexivity]. rewrite Z.lxor_comm. apply lxor_back.
  - apply (stored_back 4 _ _ _ _ dwFlipHighBit); auto. intros w Hw. split; [now apply (flip_range 31)|].
    unfold dwFlipHighBit, dwNot. destruct (seg_fDescending s); [rewrite lxor_swap|]; apply lxor_back.
  - apply (stored_back 4 _ _ _ _ (fun w => w)); auto. intros w Hw. split; [exact Hw|]. destruct (seg_fDescending s); [apply lxor_back|reflexivity].
  - apply (stored_back 8 _ _ _ _ qwFlipHighBit); auto. intros w Hw. split; [now apply (flip_range 63)|].
    unfold qwFlipHighBit, qwNot. destruct (seg_fDescending s); [rewrite lxor_swap|]; apply lxor_back.
  - apply (stored_back 8 _ _ _ _ (fun w => w)); auto. intros w Hw. split; [exact Hw|]. destruct (seg_fDescending s); [apply lxor_back|reflexivity].
  - apply (stored_back 8 _ _ _ _ qwFlipHighBit); auto. intros w Hw. split; [now apply (flip_range 63)|].
    unfold qwFlipHighBit, qwNot. destruct (seg_fDescending s); [rewrite lxor_swap|]; apply lxor_back.
  - apply (stored_back 4 _ _ _ _ (fun w => if fbit w maskDWordHighBit then dwNot w else dwFlipHighBit w)); auto. intros w Hw. split; [now apply (ieee_range 31)|].
    now apply dword_back.
  - apply (stored_back 8 _ _ _ _ (fun w => if fbit w maskQWordHighBit then qwNot w else qwFlipHighBit w)); auto. intros w Hw. split; [now apply (ieee_range 63)|].
    now apply qword_back.
  - apply (stored_back 8 _ _ _ _ (fun w => if fbit w maskQWordHighBit then qwNot w else qwFlipHighBit w)); auto. intros w Hw. split; [now apply (ieee_range 63)|].
    now apply qword_back.
  - apply negb_true_iff in Hr. rewrite Hr, <- masked. unfold retrieve_guid. cbn [app]. rewrite take_one. cbn [nth]. rewrite Z.eqb_refl.
    rewrite take_bytes_app by (rewrite length_map; now destruct (idb_FDotNetGuid pidb)). now rewrite guid_back.
Qed.
End Fixed.

(** ** Binary and text *)

Lemma nth_mask d l i : (i < length l)%nat -> nth i (map (mask d) l) 0 = mask d (nth i l 0).
Proof. intros H. rewrite nth_indep with (d' := mask d 0) by (now rewrite length_map). apply map_nth. Qed.

Lemma chunks_read_back d : forall fuel l rest, (length l < fuel)%nat ->
  retrieve_chunks fuel d (map (mask d) (chunks l) ++ rest) = Some (l, rest).
Proof.
  induction fuel as [|fuel IH]; intros l rest Hf; [lia|].
  set (c := pad 8 l ++ [cnt 8 l]). set (more := if (8 <? length l)%nat then chunks (skipn 8 l) else []).
  assert (Ec : chunks l = c ++ more) by (unfold c, more; rewrite chunks_unfold, <- app_assoc; reflexivity).
  assert (Lc : length c = 9%nat) by (unfold c; rewrite length_app, length_pad; reflexivity).
  rewrite Ec, map_app, <- app_assoc. cbn [retrieve_chunks].
  change (fun b : Z => if d then bNot b else b) with (mask d). rewrite take_bytes_app by (now rewrite length_map).
  rewrite nth_mask by lia. fold (mask d (mask d (nth 8 c 0))) (mask d cbFLDBinaryChunkNormalized). rewrite mask_twice, mask_eqb.
  assert (E8 : nth 8 c 0 = cnt 8 l) by (unfold c; rewrite app_nth2; rewrite length_pad; [reflexivity|lia]). rewrite E8.
  unfold cbFLDBinaryChunkNormalized, cbFLDBinaryChunk. change (8 + 1) with 9. change (9 - 1) with 8. rewrite (Z.eqb_sym 9).
  assert (T : forall n, (n <= 8)%nat -> take_bytes n (map (mask d) c ++ map (mask d) more ++ rest) =
    Some (map (mask d) (firstn n (pad 8 l)), map (mask d) (skipn n c) ++ map (mask d) more ++ rest)).
  { intros n Hn. rewrite <- (firstn_skipn n c) at 1. rewrite map_app, <- app_assoc. rewrite take_bytes_app by (rewrite length_map, length_firstn; lia).
    do 3 f_equal. unfold c. apply firstn_app_le. rewrite length_pad. lia. }
  unfold more, cnt. destruct (Nat.leb_spec (length l) 8) as [L|L].
  - destruct (Z.eqb_spec (Z.of_nat (length l)) 9); [lia|]. rewrite Nat2Z.id, T, map_mask_twice by lia.
    destruct (Nat.ltb_spec 8 (length l)); [lia|]. rewrite pad_short by lia. rewrite firstn_app_le, firstn_all by lia. reflexivity.
  - change (Z.of_nat 8 + 1 =? 9) with true. cbv iota. change (Z.to_nat 8) with 8%nat. rewrite T, map_mask_twice by lia.
    destruct (Nat.ltb_spec 8 (length l)); [|lia]. rewrite IH by (rewrite length_skipn; lia).
    rewrite pad_long, firstn_firstn by lia. cbn [Nat.min]. now rewrite firstn_skipn.
Qed.

Lemma until_read_back d stop s rest : Forall (fun b => b <> stop) s ->
  retrieve_until d stop (map (mask d) s ++ mask d stop :: rest) = Some (s, mask d stop :: rest).
Proof.
  induction 1 as [|b s Hb Hs IH]; cbn [map app retrieve_until]; fold (mask d stop); [now rewrite Z.eqb_refl|].
  rewrite mask_eqb. destruct (Z.eqb_spec b stop); [contradiction|]. rewrite IH. fold (mask d (mask d b)). now rewrite mask_twice.
Qed.

Section Read.
Variable pidb : IDB.

(** ** A column *)

Lemma read_null s rest : (seg_coltyp s = coltypGUID -> seg_fDescending s = false) ->
  RECIRetrieveColumnFromKey pidb s (map (mask (seg_fDescending s)) [null_prefix (idb_FSortNullsHigh pidb)] ++ rest) = Some ([], true, rest).
Proof.
  intros Hg. unfold RECIRetrieveColumnFromKey. fold (null_prefix (idb_FSortNullsHigh pidb)). destruct (seg_coltyp s);
    try apply retrieve_number_null.
  1: { rewrite Hg by reflexivity. cbn [map app]. unfold retrieve_guid. rewrite take_one. cbn [mask nth]. now destruct (idb_FSortNullsHigh pidb). }
  all: unfold retrieve_bytes; cbn [map app]; rewrite take_one; cbn [nth]; fold (mask (seg_fDescending s) bPrefixData) (mask (seg_fDescending s) (null_prefix (idb_FSortNullsHigh pidb)));
    rewrite !mask_eqb, Z.eqb_refl; replace (null_prefix (idb_FSortNullsHigh pidb) =? bPrefixData) with false by (now destruct (idb_FSortNullsHigh pidb));
    now destruct (seg_fFixed s).
Qed.

Lemma bytes_read_back s v rest : column_okb s v = true -> v <> [] -> readable s = true -> fixed_size (seg_coltyp s) = None ->
  RECIRetrieveColumnFromKey pidb s (key_segment pidb s v ++ rest) = Some (column_back s v, false, rest).
Proof.
  intros Hv Hne Hr Hs. destruct (column_ok_facts s v Hv Hne) as (B & F & C). rewrite key_segment_masked, column_segment_data, Hs in * by exact Hne.
  set (d := seg_fDescending s).
  assert (E : retrieve_bytes s (null_prefix (idb_FSortNullsHigh pidb)) (map (mask d)
      (if FRECTextColumn (seg_coltyp s) then bPrefixData :: text_key v ++ [0] else if seg_fFixed s then bPrefixData :: v else binary_full v) ++ rest)
    = Some (column_back s v, false, rest)).
  { unfold retrieve_bytes. fold d. change (fun b : Z => if d then bNot b else b) with (mask d). destruct (FRECTextColumn (seg_coltyp s)) eqn:Et.
    - assert (Ef : seg_fFixed s = false /\ FRECBinaryColumn (seg_coltyp s) = false /\ column_back s v = text_key v)
        by (unfold readable, column_back in *; destruct (seg_coltyp s); try discriminate; apply negb_true_iff in Hr; auto).
      destruct Ef as (-> & -> & ->). cbn [map app]. rewrite take_one. cbn [nth]. fold (mask d bPrefixData). rewrite Z.eqb_refl.
      unfold retrieve_text. rewrite (C eq_refl), map_app, <- app_assoc. cbn [map app]. unfold bASCIISortKeyTerminator.
      rewrite until_read_back; [reflexivity|]. apply text_key_pos in B as [B _]. eapply Forall_impl; [|exact B]. intros b Hb. cbn in Hb. lia.
    - rewrite (no_size_kind _ Hs Et). assert (Eb : column_back s v = v) by (unfold column_back; destruct (seg_coltyp s); try discriminate; reflexivity). rewrite Eb.
      destruct (seg_fFixed s); cbn [map app binary_full]; rewrite take_one; cbn [nth]; fold (mask d bPrefixData); rewrite Z.eqb_refl.
      + rewrite take_bytes_app by (rewrite length_map; specialize (F eq_refl); lia). now rewrite map_mask_twice.
      + rewrite chunks_read_back; [reflexivity|]. rewrite length_app, length_map. pose proof (length_chunks v Hne). zlia. }
  unfold RECIRetrieveColumnFromKey. fold (null_prefix (idb_FSortNullsHigh pidb)). destruct (seg_coltyp s); try discriminate; exact E.
Qed.

(** The segment of a column, read back with what follows it left over. *)
Lemma column_read_back_any s v rest : column_okb s v = true -> readable s = true ->
  RECIRetrieveColumnFromKey pidb s (key_segment pidb s v ++ rest) = Some (column_back s v, match v with [] => true | _ => false end, rest).
Proof.
  intros Hv Hr. destruct v as [|b v].
  - replace (column_back s []) with (@nil Z) by (unfold column_back; now destruct (seg_coltyp s)).
    rewrite key_segment_masked. cbn [column_segment]. rewrite null_segment. apply read_null. intros E. unfold readable in Hr. rewrite E in Hr. now apply negb_true_iff in Hr.
  - destruct (fixed_size (seg_coltyp s)) as [n|] eqn:Es; [|apply bytes_read_back; auto; discriminate].
    destruct (column_ok_facts s (b :: v) Hv ltac:(discriminate)) as (B & _ & C). rewrite Es in C.
    rewrite key_segment_masked, column_segment_data, Es by discriminate. now apply (fixed_read_back pidb s n).
Qed.

(** ** A column of a key *)

(** Columns with one columnid, and the first of them. *)
Fixpoint find_column (segs : list IDXSEG) (vs : list (list Z)) (columnid : Z) : option (IDXSEG * list Z) :=
  match segs, vs with
  | s :: segs, v :: vs => if columnid =? seg_columnid s then Some (s, v) else find_column segs vs columnid
  | _, _ => None
  end.

Definition null_warning (v : list Z) : Z := match v with [] => JET_wrnColumnNull | _ => errSuccess end.

Lemma length_key_segment_pos s v : column_okb s v = true -> (0 < length (key_segment pidb s v))%nat.
Proof. intros H. rewrite length_key_segment. destruct (column_cb_enough pidb s v H). lia. Qed.

Lemma retrieve_loop_spec segs : forall vs columnid ib col s v, columns_okb segs vs = true -> forallb readable segs = true ->
  find_column segs vs columnid = Some (s, v) -> ib + Z.of_nat (length (index_key pidb segs vs)) <= idb_CbKeyMost pidb ->
  retrieve_loop pidb segs columnid ib (index_key pidb segs vs) col = Some (null_warning v, column_back s v).
Proof.
  induction segs as [|s segs IH]; intros [|v vs] columnid ib col s' v' Hv Hr Hf Hc; try discriminate.
  cbn [columns_okb forallb find_column index_key retrieve_loop] in *. apply andb_prop in Hv as [Hv Hvs]. apply andb_prop in Hr as [Hr Hrs].
  pose proof (length_key_segment_pos s v Hv). rewrite length_app in Hc. destruct (Z.ltb_spec ib (idb_CbKeyMost pidb)); [|lia].
  rewrite column_read_back_any by assumption. destruct (columnid =? seg_columnid s).
  - injection Hf as <- <-. now destruct v.
  - apply IH; auto. rewrite length_app. lia.
Qed.

(** Any column of a key that was not truncated. *)
Lemma retrieve_spec vs columnid s v : columns_okb (idb_rgidxseg pidb) vs = true -> forallb readable (idb_rgidxseg pidb) = true ->
  find_column (idb_rgidxseg pidb) vs columnid = Some (s, v) -> Z.of_nat (length (index_key pidb (idb_rgidxseg pidb) vs)) <= idb_CbKeyMost pidb ->
  ErrRECIRetrieveColumnFromKey pidb (index_key pidb (idb_rgidxseg pidb) vs) columnid = Some (null_warning v, column_back s v).
Proof.
  intros Hv Hr Hf Hc. unfold ErrRECIRetrieveColumnFromKey. rewrite firstn_all2 by lia. now apply retrieve_loop_spec.
Qed.

(** ** Columns that cannot be read *)

(** A descending GUID. *)
Lemma descending_guid_null s v rest : seg_coltyp s = coltypGUID -> seg_fDescending s = true -> column_okb s v = true -> v <> [] ->
  RECIRetrieveColumnFromKey pidb s (key_segment pidb s v ++ rest) = Some ([], true, skipn 1 (key_segment pidb s v) ++ rest).
Proof.
  intros Hc Hd Hv Hne. rewrite key_segment_masked, Hd. destruct (segment_shape pidb s v Hv) as [_ [[-> _]|(_ & t & ->)]]; [contradiction|].
  unfold RECIRetrieveColumnFromKey. rewrite Hc. unfold retrieve_guid. cbn [map app]. now rewrite take_one.
Qed.

(** Fixed text: the terminator is left over. *)
Lemma fixed_text_leaves_terminator s v rest : seg_coltyp s = coltypText -> seg_fFixed s = true -> column_okb s v = true -> v <> [] -> cstr v = v ->
  RECIRetrieveColumnFromKey pidb s (key_segment pidb s v ++ rest) = Some (text_key v, false, mask (seg_fDescending s) 0 :: rest).
Proof.
  intros Hc Hf Hv Hne Hz. destruct (column_ok_facts s v Hv Hne) as (_ & F & _). rewrite key_segment_masked, column_segment_data, Hc by exact Hne.
  unfold RECIRetrieveColumnFromKey. rewrite Hc. unfold retrieve_bytes. rewrite Hf. cbn [FRECTextColumn fixed_size map app].
  set (d := seg_fDescending s). change (fun b : Z => if d then bNot b else b) with (mask d). fold (mask d bPrefixData). rewrite take_one. cbn [nth]. rewrite Z.eqb_refl.
  rewrite map_app, <- app_assoc. rewrite take_bytes_app by (rewrite length_map; unfold text_key; rewrite length_map, Hz; rewrite <- (F Hf); lia).
  now rewrite map_mask_twice.
Qed.
End Read.
