(* ===== verification/NormTheorems.v ===== *)
(** * Key normalisation: the properties *)

From Stdlib Require Import ZArith List Lia Bool SpecFloat.
From S2P Require Import Prelude Bits Mem Key KeyProps Norm NormOrder NormBinary NormKeys NormMake NormRead.
Import ListNotations.

(** ** Data for the witnesses *)

(** A locale whose sort keys are the bytes themselves. *)
Lemma loc_bytes_fits (v : list Z) cb : 0 <= cb -> Z.of_nat (length (snd (errSuccess, firstn (Z.to_nat cb) v))) <= cb.
Proof. intros H. cbn [snd]. rewrite length_firstn. lia. Qed.

Definition loc_bytes : NormLocale := Build_NormLocale (fun v cb => (errSuccess, firstn (Z.to_nat cb) v)) loc_bytes_fits.

(** An index over a signed number, descending binary and text. *)
Definition sample_segs : list IDXSEG :=
  [Idxseg 1 coltypLong 4 0 true false; Idxseg 128 coltypBinary 255 0 false true; Idxseg 129 coltypText 255 1252 false false].
Definition sample_index (cbKeyMost : Z) (segs : list IDXSEG) : IDB := Idb cbKeyMost cbKeyMost false false false 0 0 false segs.

(** -2, ten bytes, "ab". *)
Definition sample_row1 : list (list Z) := [[254; 255; 255; 255]; [1; 2; 3; 4; 5; 6; 7; 8; 9; 10]; [97; 98]].
(** -2, nine bytes, null. *)
Definition sample_row2 : list (list Z) := [[254; 255; 255; 255]; [1; 2; 3; 4; 5; 6; 7; 8; 9]; []].

(** ** Order *)

Section Order.
Context `{Loc : NormLocale}.

(** C13: keys made column by column with [ErrIsamMakeKey] compare like the
    columns: as long as they fit the index, the calls succeed and the
    lexicographic order of the two keys is the order of the two tuples, where
    the first column that differs decides, a descending column the other way
    round, nulls lowest or highest as the index says, numbers by value, binary
    columns by their bytes and text by its upper case. *)
Theorem index_keys_compare_like_columns pidb sk1 sk2 vs1 vs2 :
  plain_index pidb = true -> columns_okb (idb_rgidxseg pidb) vs1 = true -> columns_okb (idb_rgidxseg pidb) vs2 = true ->
  vs1 <> [] -> vs2 <> [] ->
  key_cb pidb (idb_rgidxseg pidb) vs1 <= idb_CbKeyMost pidb -> key_cb pidb (idb_rgidxseg pidb) vs2 <= idb_CbKeyMost pidb ->
  exists k1 k2, make_key pidb sk1 vs1 = Some (errSuccess, k1) /\ make_key pidb sk2 vs2 = Some (errSuccess, k2) /\
    lex (sk_key k1) (sk_key k2) = tuple_cmp pidb (idb_rgidxseg pidb) vs1 vs2.
Proof.
  intros Hp V1 V2 N1 N2 C1 C2. do 2 eexists. split; [now apply make_key_spec|]. split; [now apply make_key_spec|]. now apply index_key_order.
Qed.

(** C27: in an index without descending GUID columns ([descending_guid_reads_null]),
    without fixed text columns ([fixed_text_hides_next_column]) and without Unicode
    text, each column of a key is read back from it, in both directions: after the
    key of a row is made, [ErrRECIRetrieveColumnFromKey] returns for the first column
    with a columnid the value that was put in, with the warning for a null, except
    that a bit is returned as 0 or 255 and text in upper case.  (The caller never
    asks for text itself, which it asserts; what the loop finds there is what it
    skips on the way to the columns behind it.) *)
Theorem made_key_reads_back pidb sk vs columnid s v :
  plain_index pidb = true -> columns_okb (idb_rgidxseg pidb) vs = true -> vs <> [] ->
  key_cb pidb (idb_rgidxseg pidb) vs <= idb_CbKeyMost pidb -> forallb readable (idb_rgidxseg pidb) = true ->
  find_column (idb_rgidxseg pidb) vs columnid = Some (s, v) ->
  exists k, make_key pidb sk vs = Some (errSuccess, k) /\
    ErrRECIRetrieveColumnFromKey pidb (sk_key k) columnid = Some (null_warning v, column_back s v).
Proof.
  intros Hp Hv Hn Hc Hr Hf. eexists. split; [now apply make_key_spec|]. cbn [sk_key]. apply retrieve_spec; auto.
  pose proof (index_key_cb pidb _ _ Hv). lia.
Qed.

(** ** Buffers *)

(** C34: an invariant of search keys: whatever is passed to [ErrIsamMakeKey],
    the key it leaves fits the maximum of the index, plus one byte if it is a
    limit, and has no more columns than the index.  The call returns whenever the
    index has no Unicode text column, its fixed numbers have the size of their type
    and no variable or tagged number is given a value that is neither null nor as
    long as its type; [short_number_is_read_past] is such a value. *)
Theorem search_key_stays_in_bounds pidb sk pvKeySeg grbit :
  index_okb pidb = true -> search_key_ok pidb sk = true ->
  (forall err sk', ErrIsamMakeKey (Some pidb) sk pvKeySeg grbit = Some (err, sk') -> search_key_ok pidb sk' = true) /\
  (forallb (segment_safe pvKeySeg) (idb_rgidxseg pidb) = true ->
   exists err sk', ErrIsamMakeKey (Some pidb) sk pvKeySeg grbit = Some (err, sk')).
Proof. intros Hi Hs. split; [intros err sk'; now apply make_key_keeps_ok|now apply make_key_returns]. Qed.

(** A tagged or variable column of a numeric type that is given too few bytes: the
    size is only asserted, and normalisation reads past the end of the value. *)
Lemma short_number_is_read_past pidb sk s v n :
  idb_rgidxseg pidb = [s] -> seg_fFixed s = false -> fixed_size (seg_coltyp s) = Some n -> (0 < length v < n)%nat ->
  2 <= idb_CbKeyMost pidb -> idb_FHasPlaceholderColumn pidb = false ->
  ErrIsamMakeKey (Some pidb) sk v JET_bitNewKey = None.
Proof.
  intros Es Hf Hn Hl Hk Hp. pose proof (fixed_size_most _ _ Hn) as Hm. destruct (size_kind _ _ Hn) as [Ht Hb]. unfold ErrIsamMakeKey. cbv zeta. change (fbit JET_bitNewKey JET_bitNormalizedKey) with false.
  change (fbit JET_bitNewKey JET_bitNewKey) with true. cbn [negb andb]. rewrite Hp, andb_false_r. cbn [andb]. rewrite Es. cbn [sk_cColumns searchkey_new nth_error Z.to_nat].
  replace (if _ =? JET_cbKeyMost_OLD then firstn _ v else v) with v by (destruct (idb_CbKeyMost pidb =? JET_cbKeyMost_OLD); [symmetry; apply firstn_all2; change (Z.to_nat JET_cbKeyMost_OLD) with 255%nat; lia|reflexivity]).
  unfold fit_key_segment. rewrite Hf. cbn [andb]. change (valid_limit_options s JET_bitNewKey) with true. cbn [negb]. unfold append_key_segment. cbv zeta.
  cbn [sk_stat sk_key searchkey_new length]. change (negb (fTooBig keystatNull)) with true. destruct (Z.ltb_spec (Z.of_nat 0) (idb_CbKeyMost pidb)); [|lia]. cbn [andb].
  unfold ErrFLDNormalizeSegment, normalize_value. cbv zeta. destruct v as [|b v]; [cbn in Hl; lia|]. rewrite Ht, Hb, FLDNormalizeFixedSegment_eq, Hn.
  destruct (Nat.leb_spec n (length (b :: v))); [lia|reflexivity].
Qed.

(** The normalised segment fits the buffer that [ErrIsamMakeKey] provides,
    for every column, value and option, when the maximum key size of the index
    is at most 2000 and not 256. *)
Theorem segment_fits_buffer pidb column coltyp cp cbKey fDescending fFixedField fTupleField grbit ks err seg ks' :
  index_okb pidb = true -> idb_CbKeyMost pidb <= 2000 -> idb_CbKeyMost pidb <> 256 -> 0 <= cbKey < idb_CbKeyMost pidb ->
  ErrFLDNormalizeSegment pidb column coltyp cp (idb_CbKeyMost pidb - cbKey) fDescending fFixedField fTupleField grbit ks = Some (err, seg, ks') ->
  Z.of_nat (length seg) <= cbSegBuffer (idb_CbKeyMost pidb).
Proof.
  intros Hi H1 H2 H3 E. unfold index_okb in Hi. rewrite !andb_true_iff, !Z.leb_le, !Z.ltb_lt in Hi.
  apply segment_length in E as [E _]; try lia. unfold cbSegBuffer, cbSegStack, cbKeyAlloc. destruct (fLimit ks'); case_cmp; lia.
Qed.
End Order.

(** The two rows, made in an index of 255 bytes: the binary column of the first
    continues that of the second, and so in descending order comes before it. *)
Lemma index_keys_compare_like_columns_witness :
  exists k1 k2, make_key (Loc := loc_bytes) (sample_index 255 sample_segs) searchkey_new sample_row1 = Some (errSuccess, k1) /\
    make_key (Loc := loc_bytes) (sample_index 255 sample_segs) searchkey_new sample_row2 = Some (errSuccess, k2) /\ lex (sk_key k1) (sk_key k2) = -1.
Proof.
  exact (index_keys_compare_like_columns (Loc := loc_bytes) (sample_index 255 sample_segs) searchkey_new searchkey_new sample_row1 sample_row2
    eq_refl eq_refl eq_refl ltac:(discriminate) ltac:(discriminate) ltac:(vm_compute; discriminate) ltac:(vm_compute; discriminate)).
Defined.

(** The binary column of the first row. *)
Lemma made_key_reads_back_witness :
  exists k, make_key (Loc := loc_bytes) (sample_index 255 sample_segs) searchkey_new sample_row1 = Some (errSuccess, k) /\
    ErrRECIRetrieveColumnFromKey (sample_index 255 sample_segs) (sk_key k) 128 = Some (errSuccess, [1; 2; 3; 4; 5; 6; 7; 8; 9; 10]).
Proof.
  exact (made_key_reads_back (Loc := loc_bytes) (sample_index 255 sample_segs) searchkey_new sample_row1 128 (nth 1 sample_segs (Idxseg 0 coltypBit 0 0 false false))
    (nth 1 sample_row1 []) eq_refl eq_refl ltac:(discriminate) ltac:(vm_compute; discriminate) eq_refl eq_refl).
Defined.

(** A limit on a new key. *)
Lemma search_key_stays_in_bounds_witness :
  exists sk', ErrIsamMakeKey (Loc := loc_bytes) (Some (sample_index 255 sample_segs)) searchkey_new [254; 255; 255; 255] (JET_bitNewKey + JET_bitFullColumnEndLimit)
    = Some (errSuccess, sk') /\ length (sk_key sk') = 256%nat /\ search_key_ok (sample_index 255 sample_segs) sk' = true.
Proof.
  destruct (search_key_stays_in_bounds (Loc := loc_bytes) (sample_index 255 sample_segs) searchkey_new [254; 255; 255; 255] (JET_bitNewKey + JET_bitFullColumnEndLimit)
    eq_refl eq_refl) as [H _].
  eexists. split; [vm_compute; reflexivity|]. split; [reflexivity|]. eapply H. vm_compute. reflexivity.
Defined.

(** The same segment in its buffer. *)
Lemma segment_fits_buffer_witness :
  exists seg ks, ErrFLDNormalizeSegment (Loc := loc_bytes) (sample_index 255 sample_segs) [254; 255; 255; 255] coltypLong 0 255 false true false JET_bitFullColumnEndLimit keystatNull
    = Some (errSuccess, seg, ks) /\ Z.of_nat (length seg) <= cbSegBuffer 255.
Proof.
  do 2 eexists. split; [vm_compute; reflexivity|].
  eapply (segment_fits_buffer (Loc := loc_bytes) (sample_index 255 sample_segs) [254; 255; 255; 255] coltypLong 0 0 false true false JET_bitFullColumnEndLimit keystatNull);
    [reflexivity|vm_compute; discriminate|discriminate|vm_compute; split; discriminate || reflexivity|vm_compute; reflexivity].
Defined.

(** ** Columns of one kind *)

(** Widths of fraction and exponent of the floating-point types. *)
Definition ieee_widths (coltyp : JET_COLTYP) : option (Z * Z) :=
  match coltyp with coltypIEEESingle => Some (23, 8) | coltypIEEEDouble | coltypDateTime => Some (52, 11) | _ => None end.

(** C35: floating-point columns sort by the numbers they stand for: when two
    words of an IEEE 754 type compare as less, greater or equal as numbers
    (none of them is a NaN), their normalised segments do lexicographically,
    infinities, denormals and negative numbers included; equal numbers have
    equal segments except the two zeros, of which the negative comes first. *)
Theorem float_columns_sort_as_numbers coltyp mw ew n g v1 v2 c :
  ieee_widths coltyp = Some (mw, ew) -> fixed_size coltyp = Some n -> length v1 = n -> length v2 = n -> bytes_ok v1 -> bytes_ok v2 ->
  SFcompare (ieee_decode mw ew (le_number v1)) (ieee_decode mw ew (le_number v2)) = Some c ->
  exists s1 s2, FLDNormalizeFixedSegment v1 coltyp g = Some s1 /\ FLDNormalizeFixedSegment v2 coltyp g = Some s2 /\
  let order := lex s1 s2 in
  match c with
  | Lt => order = -1
  | Gt => order = 1
  | Eq => (le_number v1 = le_number v2 /\ order = 0) \/ (ieee_mag mw ew (le_number v1) = 0 /\ ieee_mag mw ew (le_number v2) = 0)
  end.
Proof.
  intros Hw Hs L1 L2 B1 B2 E. exists (fixed_segment v1 coltyp g), (fixed_segment v2 coltyp g).
  split; [now apply (FLDNormalizeFixedSegment_exact _ _ n)|]. split; [now apply (FLDNormalizeFixedSegment_exact _ _ n)|]. intros order.
  assert (O : order = Z.sgn (fixed_value g coltyp v1 - fixed_value g coltyp v2)).
  { pose proof (ranked_lex _ _ _ [] [] (fixed_ranked g coltyp n v1 v2 Hs L1 L2 B1 B2)) as R. rewrite !app_nil_r in R. unfold order. rewrite R. cbn [lex]. case_cmp; lia. }
  pose proof (le_number_range v1 B1) as R1. pose proof (le_number_range v2 B2) as R2. rewrite L1 in R1. rewrite L2 in R2.
  assert (P : 0 < mw /\ 2 <= ew /\ 256 ^ Z.of_nat n = 2 ^ (mw + ew + 1) /\ (forall v, fixed_value g coltyp v = ieee_rank (mw + ew) (le_number v))).
  { destruct coltyp; try discriminate; injection Hw as <- <-; injection Hs as <-; repeat split; lia. }
  destruct P as (P1 & P2 & P3 & P4). rewrite P3 in *. rewrite !P4 in O. pose proof (ieee_order mw ew P1 P2 _ _ c R1 R2 E) as D.
  destruct c; [|lia|lia]. destruct D as [D|D]; [left|now right]. rewrite D, Z.sub_diag in O. auto.
Qed.

(** -1.5 is less than the smallest denormal. *)
Lemma float_columns_sort_as_numbers_witness :
  exists s1 s2, FLDNormalizeFixedSegment [0; 0; 192; 191] coltypIEEESingle false = Some s1 /\
    FLDNormalizeFixedSegment [1; 0; 0; 0] coltypIEEESingle false = Some s2 /\ lex s1 s2 = -1.
Proof.
  refine (float_columns_sort_as_numbers coltypIEEESingle 23 8 4 false [0; 0; 192; 191] [1; 0; 0; 0] Lt eq_refl eq_refl eq_refl eq_refl _ _ _);
    [repeat constructor; discriminate|repeat constructor; discriminate|vm_compute; reflexivity].
Defined.

(** A binary column is written as the prefix of one reference form: 9-byte
    chunks of 8 bytes padded with zeros and a count, 9 when another chunk
    follows, cut where the segment maximum of the index or the key space that
    is left says, with the flag for a truncation by the key space. *)
Theorem binary_segment_is_prefix_of_chunks v cbKeyAvail cbKeyMost cbVarSegMac :
  v <> [] -> 0 < cbKeyAvail -> 0 < cbVarSegMac ->
  let cb := binary_cb v cbKeyMost cbVarSegMac in
  exists delim, FLDNormalizeBinarySegment v cbKeyAvail cbKeyMost cbVarSegMac false
    = (firstn (Z.to_nat (Z.min cb cbKeyAvail)) (bPrefixData :: chunks v), cbKeyAvail <? cb, delim).
Proof. intros H1 H2 H3 cb. destruct (binary_segment_spec v cbKeyAvail cbKeyMost cbVarSegMac H1 H2 H3) as (d & E & _). now exists d. Qed.

(** Ten bytes in twelve. *)
Lemma binary_segment_is_prefix_of_chunks_witness : exists delim,
  FLDNormalizeBinarySegment [1; 2; 3; 4; 5; 6; 7; 8; 9; 10] 12 255 256 false = ([127; 1; 2; 3; 4; 5; 6; 7; 8; 9; 9; 10], true, delim).
Proof. exact (binary_segment_is_prefix_of_chunks [1; 2; 3; 4; 5; 6; 7; 8; 9; 10] 12 255 256 ltac:(discriminate) eq_refl eq_refl). Defined.

(** ** What the code does not do *)

(** In an index with a maximum key size of 256, a full-column end limit
    makes the segment one byte longer than the buffer on the stack. *)
Theorem limit_overruns_stack_buffer (Loc : NormLocale) segs :
  exists seg ks, ErrFLDNormalizeSegment (sample_index 256 segs) [254; 255; 255; 255] coltypLong 0 256 false true false JET_bitFullColumnEndLimit keystatNull
    = Some (errSuccess, seg, ks) /\ Z.of_nat (length seg) = cbSegBuffer 256 + 1.
Proof. do 2 eexists. split; [vm_compute; reflexivity|reflexivity]. Qed.

(** C37: in an index with nulls low whose first column is fixed text (not Unicode), the
    second column reads as null, whatever its value, when it is stored in the same
    direction and the text has no NUL: the terminator that follows the text in
    the key is not skipped, and is taken for the null prefix.  (In the opposite
    direction, or with nulls high, the terminator is not the null prefix; it is then
    taken for the data prefix.) *)
Theorem fixed_text_hides_next_column pidb s1 s2 segs v1 v2 vs :
  idb_rgidxseg pidb = s1 :: s2 :: segs -> columns_okb (idb_rgidxseg pidb) (v1 :: v2 :: vs) = true ->
  seg_coltyp s1 = coltypText -> seg_fFixed s1 = true -> v1 <> [] -> cstr v1 = v1 -> seg_columnid s1 <> seg_columnid s2 ->
  seg_fDescending s1 = seg_fDescending s2 -> (seg_coltyp s2 = coltypGUID -> seg_fDescending s2 = false) -> idb_FSortNullsHigh pidb = false ->
  Z.of_nat (length (index_key pidb (idb_rgidxseg pidb) (v1 :: v2 :: vs))) <= idb_CbKeyMost pidb ->
  ErrRECIRetrieveColumnFromKey pidb (index_key pidb (idb_rgidxseg pidb) (v1 :: v2 :: vs)) (seg_columnid s2) = Some (JET_wrnColumnNull, []).
Proof.
  intros Es Hv Ht Hf Hne Hz Hid Hd Hg Hh Hc. rewrite Es in *. cbn [columns_okb] in Hv. rewrite !andb_true_iff in Hv. destruct Hv as (Hv1 & Hv2 & _).
  unfold ErrRECIRetrieveColumnFromKey. rewrite firstn_all2, Es by lia. cbn [index_key retrieve_loop] in *. pose proof (length_key_segment_pos pidb s1 v1 Hv1) as L1.
  pose proof (length_key_segment_pos pidb s2 v2 Hv2) as L2. rewrite !length_app in Hc. destruct (Z.ltb_spec 0 (idb_CbKeyMost pidb)); [|lia].
  rewrite fixed_text_leaves_terminator by assumption. destruct (Z.eqb_spec (seg_columnid s2) (seg_columnid s1)); [congruence|].
  rewrite !length_app. cbn [length]. destruct (Z.ltb_spec (0 + Z.of_nat (length (key_segment pidb s1 v1) + (length (key_segment pidb s2 v2) + length (index_key pidb segs vs)) -
    S (length (key_segment pidb s2 v2 ++ index_key pidb segs vs)))) (idb_CbKeyMost pidb)); [|rewrite length_app in *; lia].
  pose proof (read_null pidb s2 (key_segment pidb s2 v2 ++ index_key pidb segs vs) Hg) as R. rewrite Hh in R. rewrite Hd. cbn [null_prefix map app] in R.
  change bPrefixNull with 0 in R. rewrite R. now rewrite Z.eqb_refl.
Qed.

(** Fixed text "AB" and the number 5. *)
Lemma fixed_text_hides_next_column_witness :
  let segs := [Idxseg 1 coltypText 2 1252 true false; Idxseg 2 coltypLong 4 0 true false] in
  ErrRECIRetrieveColumnFromKey (sample_index 255 segs) (index_key (sample_index 255 segs) segs [[65; 66]; [5; 0; 0; 0]]) 2 = Some (JET_wrnColumnNull, []).
Proof.
  exact (fixed_text_hides_next_column (sample_index 255 [Idxseg 1 coltypText 2 1252 true false; Idxseg 2 coltypLong 4 0 true false])
    (Idxseg 1 coltypText 2 1252 true false) (Idxseg 2 coltypLong 4 0 true false) [] [65; 66] [5; 0; 0; 0] [] eq_refl eq_refl eq_refl eq_refl ltac:(discriminate) eq_refl
    ltac:(discriminate) eq_refl ltac:(discriminate) eq_refl ltac:(vm_compute; discriminate)).
Defined.

(** A descending GUID column reads as null, whatever its value. *)
Theorem descending_guid_reads_null pidb s v rest : seg_coltyp s = coltypGUID -> seg_fDescending s = true -> column_okb s v = true -> v <> [] ->
  exists rest', RECIRetrieveColumnFromKey pidb s (key_segment pidb s v ++ rest) = Some ([], true, rest').
Proof. intros. eexists. now apply descending_guid_null. Qed.
