(* ===== verification/Conc.v ===== *)
(** * Threads that share memory

    Programs of threads as sequences of atomic actions on a shared state, their
    interleavings, and a proof method for them: an invariant over the shared
    state and one role for each thread.  A program is checked once, action by
    action, against the invariant; the roles of the other threads are arbitrary. *)

From Stdlib Require Import List Lia Arith Bool.
Import ListNotations.

Section Conc.
Context {State Val Res Loc : Type}.

(** ** Programs *)

(** [Act a k]: the atomic action [a], which blocks where it has no result, and
    what follows for each value it returns.  [InLoop cur body k]: the loop or
    call [body], of which [cur] is left to do; [Again x] starts the body over
    with [x] in its local variables, [Ret] leaves it.  [Crash]: the process has
    been ended. *)
Inductive prog :=
  | Ret (e : Res)
  | Act (a : State -> option (State * Val)) (k : Val -> prog)
  | InLoop (cur : prog) (body : Loc -> prog) (k : Res -> prog)
  | Again (x : Loc)
  | Crash.

Definition Loop (body : Loc -> prog) (x : Loc) (k : Res -> prog) : prog := InLoop (body x) body k.

(** One step of a thread. *)
Fixpoint pstep (p : prog) (s : State) : option (prog * State) :=
  match p with
  | Act a k => match a s with Some (s', v) => Some (k v, s') | None => None end
  | InLoop (Ret e) _ k => Some (k e, s)
  | InLoop (Again x) body k => Some (InLoop (body x) body k, s)
  | InLoop Crash _ _ => Some (Crash, s)
  | InLoop cur body k => match pstep cur s with Some (cur', s') => Some (InLoop cur' body k, s') | None => None end
  | _ => None
  end.

(** ** Clients *)

(** What clients know of the object ([Status]), which methods they may call then
    and what they know after a method has returned. *)
Context {Status Method : Type}.
Variables (allowed : Status -> Method -> bool) (method : Method -> prog) (after : Status -> Method -> Res -> Status).

Inductive thread := Client (c : Status) | Running (c : Status) (m : Method) (p : prog).

Record system := System { shared : State; threads : list thread }.

Definition set_nth {A} (i : nat) (x : A) (l : list A) : list A := firstn i l ++ x :: skipn (S i) l.

(** A thread calls a method, does an atomic action, or returns. *)
Inductive step (g g' : system) : Prop :=
  | StepCall i c m :
      nth_error (threads g) i = Some (Client c) -> allowed c m = true ->
      g' = System (shared g) (set_nth i (Running c m (method m)) (threads g)) -> step g g'
  | StepAct i c m p p' s' :
      nth_error (threads g) i = Some (Running c m p) -> pstep p (shared g) = Some (p', s') ->
      g' = System s' (set_nth i (Running c m p') (threads g)) -> step g g'
  | StepReturn i c m e :
      nth_error (threads g) i = Some (Running c m (Ret e)) ->
      g' = System (shared g) (set_nth i (Client (after c m e)) (threads g)) -> step g g'.

Inductive reachable (init : system) : system -> Prop :=
  | ReachInit : reachable init init
  | ReachStep g g' : reachable init g -> step g g' -> reachable init g'.

(** A scheduler: each choice names a thread and, if the thread is to call a
    method, the method. *)
Definition choose (g : system) (choice : nat * option Method) : option system :=
  let '(i, om) := choice in
  match nth_error (threads g) i, om with
  | Some (Client c), Some m => if allowed c m then Some (System (shared g) (set_nth i (Running c m (method m)) (threads g))) else None
  | Some (Running c m (Ret e)), None => Some (System (shared g) (set_nth i (Client (after c m e)) (threads g)))
  | Some (Running c m p), None =>
      match pstep p (shared g) with Some (p', s') => Some (System s' (set_nth i (Running c m p') (threads g))) | None => None end
  | _, _ => None
  end.

Fixpoint schedule (g : system) (choices : list (nat * option Method)) : option system :=
  match choices with
  | [] => Some g
  | ch :: choices => match choose g ch with Some g' => schedule g' choices | None => None end
  end.

Lemma choose_step g ch g' : choose g ch = Some g' -> step g g'.
Proof.
  destruct ch as [i om]. unfold choose. destruct (nth_error (threads g) i) as [[c|c m p]|] eqn:E; [| |discriminate].
  - destruct om as [m|]; [|discriminate]. destruct (allowed c m) eqn:A; [|discriminate]. intros [= <-]. eapply StepCall; eauto.
  - destruct p; destruct om as [m'|]; try discriminate.
    + intros [= <-]. eapply StepReturn; eauto.
    + destruct (pstep _ _) as [[p' s']|] eqn:P; [|discriminate]. intros [= <-]. eapply StepAct; eauto.
    + destruct (pstep _ _) as [[p' s']|] eqn:P; [|discriminate]. intros [= <-]. eapply StepAct; eauto.
Qed.

Lemma schedule_reachable init choices : forall g g', reachable init g -> schedule g choices = Some g' -> reachable init g'.
Proof.
  induction choices as [|ch choices IH]; intros g g' R E; cbn [schedule] in E; [now injection E as <-|].
  destruct (choose g ch) as [g1|] eqn:C; [|discriminate]. eapply IH; [|exact E]. eapply ReachStep; [exact R|]. eapply choose_step; exact C.
Qed.

(** ** Invariants *)

Context {Role : Type}.
Variable Inv : State -> list Role -> Prop.

(** [safe p again post r]: a thread with role [r] may run [p].  After each
    action the thread has a role with which the invariant holds again; where
    the action blocks, [Blk] says so of the role and the state; a crash is not
    safe. *)
Section Safe.
Variable Blk : Role -> State -> Prop.

Fixpoint safe (p : prog) (again : Loc -> Role -> Prop) (post : Res -> Role -> Prop) (r : Role) : Prop :=
  match p with
  | Ret e => post e r
  | Act a k => forall s rs1 rs2, Inv s (rs1 ++ r :: rs2) ->
      match a s with
      | Some (s', v) => exists r', Inv s' (rs1 ++ r' :: rs2) /\ safe (k v) again post r'
      | None => Blk r s
      end
  | InLoop cur body k =>
      exists J : Loc -> Role -> Prop, (forall x r', J x r' -> safe (body x) J (fun e r'' => safe (k e) again post r'') r') /\
        safe cur J (fun e r'' => safe (k e) again post r'') r
  | Again x => again x r
  | Crash => False
  end.

(** A loop with an invariant of its local variables and the role. *)
Lemma safe_loop_inv (J : Loc -> Role -> Prop) body x k again post r :
  J x r -> (forall x' r', J x' r' -> safe (body x') J (fun e r'' => safe (k e) again post r'') r') -> safe (Loop body x k) again post r.
Proof. intros H0 H. exists J. split; [exact H|now apply H]. Qed.

(** A loop without either. *)
Lemma safe_loop body x k again post r :
  (forall x', safe (body x') (fun _ r' => r' = r) (fun e r'' => safe (k e) again post r'') r) -> safe (Loop body x k) again post r.
Proof. intros H. apply (safe_loop_inv (fun _ r' => r' = r)); [reflexivity|]. now intros x' r' ->. Qed.

(** One step of a safe program. *)
Lemma safe_step p : forall again post r s rs1 rs2 p' s',
  safe p again post r -> Inv s (rs1 ++ r :: rs2) -> pstep p s = Some (p', s') ->
  exists r', Inv s' (rs1 ++ r' :: rs2) /\ safe p' again post r'.
Proof.
  induction p as [e|a k IH|cur IHc body IHb k IHk|x|]; intros again post r s rs1 rs2 p' s' Hs Hi E; try discriminate.
  - cbn [pstep safe] in *. specialize (Hs s rs1 rs2 Hi). destruct (a s) as [[s1 v]|]; [|discriminate]. now injection E as <- <-.
  - cbn [safe] in Hs. destruct Hs as (J & Hb & Hc).
    assert (D : forall c' s1, pstep cur s = Some (c', s1) -> exists r', Inv s1 (rs1 ++ r' :: rs2) /\ safe (InLoop c' body k) again post r').
    { intros c' s1 Ec. destruct (IHc _ _ _ _ _ _ _ _ Hc Hi Ec) as (r' & I' & S'). exists r'. split; [exact I'|]. now exists J. }
    cbn [pstep] in E. destruct cur as [e|a1 k1|c1 b1 k1|x|].
    + injection E as <- <-. exists r. split; [exact Hi|exact Hc].
    + destruct (pstep (Act a1 k1) s) as [[c' s1]|] eqn:Ec; [|discriminate]. injection E as <- <-. now apply D.
    + destruct (pstep (InLoop c1 b1 k1) s) as [[c' s1]|] eqn:Ec; [|discriminate]. injection E as <- <-. now apply D.
    + injection E as <- <-. exists r. split; [exact Hi|]. exists J. split; [exact Hb|]. now apply Hb.
    + contradiction.
Qed.

(** A safe program without a next step has ended or is blocked. *)
Lemma safe_blocked p : forall again post r s rs1 rs2,
  safe p again post r -> Inv s (rs1 ++ r :: rs2) -> pstep p s = None -> (exists e, p = Ret e) \/ (exists x, p = Again x /\ again x r) \/ Blk r s.
Proof.
  induction p as [e|a k IH|cur IHc body IHb k IHk| |]; intros again post r s rs1 rs2 Hs Hi E; [eauto| |right; right|eauto|contradiction].
  - cbn [pstep safe] in *. specialize (Hs s rs1 rs2 Hi). destruct (a s) as [[s1 v]|]; [discriminate|]. auto.
  - cbn [safe] in Hs. destruct Hs as (J & _ & Hc). cbn [pstep] in E. destruct cur as [e|a1 k1|c1 b1 k1|x|]; try discriminate.
    + destruct (pstep (Act a1 k1) s) as [[c' s1]|] eqn:Ec; [discriminate|].
      destruct (IHc _ _ _ _ _ _ Hc Hi Ec) as [[e X]|[(x & X & _)|X]]; [discriminate|discriminate|exact X].
    + destruct (pstep (InLoop c1 b1 k1) s) as [[c' s1]|] eqn:Ec; [discriminate|].
      destruct (IHc _ _ _ _ _ _ Hc Hi Ec) as [[e X]|[(x & X & _)|X]]; [discriminate|discriminate|exact X].
Qed.
End Safe.

(** ** Systems *)

(** Who may be blocked in a method. *)
Variable Blk : Method -> Role -> State -> Prop.
Variable role_of : Status -> Role.

(** Threads and their roles. *)
Definition thread_ok (t : thread) (r : Role) : Prop :=
  match t with
  | Client c => r = role_of c
  | Running c m p => safe (Blk m) p (fun _ _ => False) (fun e r' => r' = role_of (after c m e)) r
  end.

Definition system_ok (g : system) : Prop := exists rs, Inv (shared g) rs /\ Forall2 thread_ok (threads g) rs.

Hypothesis methods_safe : forall c m, allowed c m = true ->
  safe (Blk m) (method m) (fun _ _ => False) (fun e r' => r' = role_of (after c m e)) (role_of c).

Lemma Forall2_nth {A B} (P : A -> B -> Prop) l1 : forall l2 i x, Forall2 P l1 l2 -> nth_error l1 i = Some x ->
  exists y l2a l2b, l2 = l2a ++ y :: l2b /\ length l2a = i /\ P x y /\ (forall x' y', P x' y' -> Forall2 P (set_nth i x' l1) (l2a ++ y' :: l2b)).
Proof.
  induction l1 as [|a l1 IH]; intros l2 i x F E; [destruct i; discriminate|]. inversion F as [|? b ? l2' Hab F']; subst. destruct i as [|i].
  - injection E as <-. exists b, [], l2'. split; [reflexivity|]. split; [reflexivity|]. split; [exact Hab|]. intros x' y' H. now constructor.
  - destruct (IH _ _ _ F' E) as (y & l2a & l2b & -> & L & Hy & U). exists y, (b :: l2a), l2b. split; [reflexivity|]. split; [cbn; lia|]. split; [exact Hy|].
    intros x' y' H. cbn. constructor; [exact Hab|]. now apply U.
Qed.

Lemma system_step_ok g g' : system_ok g -> step g g' -> system_ok g'.
Proof.
  intros (rs & Hi & F) [i c m E A ->|i c m p p' s' E P ->|i c m e E ->]; destruct (Forall2_nth _ _ _ _ _ F E) as (r & rs1 & rs2 & -> & L & T & U); cbn [thread_ok] in T.
  - exists (rs1 ++ r :: rs2). split; [exact Hi|]. apply U. cbn [thread_ok]. subst r. now apply methods_safe.
  - destruct (safe_step _ _ _ _ _ _ _ _ _ _ T Hi P) as (r' & Hi' & S'). exists (rs1 ++ r' :: rs2). split; [exact Hi'|]. now apply U.
  - exists (rs1 ++ r :: rs2). split; [exact Hi|]. apply U. exact T.
Qed.

(** Every system that is reached satisfies the invariant. *)
Theorem reachable_ok init g : system_ok init -> reachable init g -> system_ok g.
Proof. intros H0. induction 1 as [|g g' R IH S]; [exact H0|]. eapply system_step_ok; eauto. Qed.

(** A thread inside a method either can go on or is blocked; it never crashes. *)
Theorem running_ok g i c m p : system_ok g -> nth_error (threads g) i = Some (Running c m p) ->
  exists rs1 r rs2, Inv (shared g) (rs1 ++ r :: rs2) /\ p <> Crash /\ ((exists e, p = Ret e) \/ pstep p (shared g) <> None \/ Blk m r (shared g)).
Proof.
  intros (rs & Hi & F) E. destruct (Forall2_nth _ _ _ _ _ F E) as (r & rs1 & rs2 & -> & _ & T & _). cbn [thread_ok] in T.
  exists rs1, r, rs2. split; [exact Hi|]. split; [intros ->; exact T|]. destruct (pstep p (shared g)) as [q|] eqn:P; [right; left; discriminate|].
  destruct (safe_blocked _ _ _ _ _ _ _ _ T Hi P) as [X|[(x & _ & [])|X]]; auto.
Qed.
End Conc.

Arguments prog : clear implicits.
Arguments thread : clear implicits.
Arguments system : clear implicits.
