(* ===== verification/Latch.v ===== *)
(** * The shared / exclusive / write latch (CSXWLatch, src/dev/ese/published/inc/sync.hxx)

    The latch of a page: any number of shared owners next to at most one owner
    of the exclusive latch, or one owner of the write latch and nobody else.
    Each method is a program of atomic actions on the control word [m_cw] (15
    bits of shared owners or waiters, the flag [fQS] that shared latches are
    quiesced, 16 bits of exclusive and write owners or waiters), the count
    [m_cQS] of quiesced shared latches and three semaphores.  A semaphore is the
    number of counts that can be acquired from it.  [OSSYNCEnforce] ends the
    process ([Crash]) when its condition does not hold.  The atomic operations
    are full barriers, and so actions are interleaved one at a time. *)

From Stdlib Require Import ZArith List Lia Bool.
From S2P Require Import Prelude Conc.
Import ListNotations.

(** ** The state *)

Record LATCH := Latch { m_cw : Z; m_cQS : Z; m_semS : Z; m_semX : Z; m_semW : Z }.

(** A new latch. *)
Definition latch_new : LATCH := Latch 0 0 0 0 0.

Inductive ERR := errSuccess | errWaitForSharedLatch | errWaitForExclusiveLatch | errWaitForWriteLatch | errLatchConflict.
Inductive iGroup := iSharedGroup | iExclusiveGroup | iWriteGroup | iNoGroup.

Definition bits (cw mask : Z) : bool := negb (Z.land cw mask =? 0).

(** ** Atomic actions *)

Definition latch_prog : Type := prog LATCH Z ERR unit.

Definition Load (l : LATCH) : option (LATCH * Z) := Some (l, m_cw l).

Definition AtomicExchangeAdd (cwDelta : Z) (l : LATCH) : option (LATCH * Z) :=
  Some (Latch (u32 (m_cw l + cwDelta)) (m_cQS l) (m_semS l) (m_semX l) (m_semW l), m_cw l).

Definition AtomicCompareExchange (cwBIExpected cwAI : Z) (l : LATCH) : option (LATCH * Z) :=
  Some (if m_cw l =? cwBIExpected then Latch cwAI (m_cQS l) (m_semS l) (m_semX l) (m_semW l) else l, m_cw l).

Definition AtomicExchangeAddQS (cQSDelta : Z) (l : LATCH) : option (LATCH * Z) :=
  Some (Latch (m_cw l) (u32 (m_cQS l + cQSDelta)) (m_semS l) (m_semX l) (m_semW l), m_cQS l).

(** [CSemaphore::Release] and [CSemaphore::Acquire], which waits for a count. *)
Definition semS_Release (c : Z) (l : LATCH) : option (LATCH * Z) := Some (Latch (m_cw l) (m_cQS l) (m_semS l + c) (m_semX l) (m_semW l), 0).
Definition semX_Release (c : Z) (l : LATCH) : option (LATCH * Z) := Some (Latch (m_cw l) (m_cQS l) (m_semS l) (m_semX l + c) (m_semW l), 0).
Definition semW_Release (c : Z) (l : LATCH) : option (LATCH * Z) := Some (Latch (m_cw l) (m_cQS l) (m_semS l) (m_semX l) (m_semW l + c), 0).
Definition semS_Acquire (l : LATCH) : option (LATCH * Z) :=
  if 0 <? m_semS l then Some (Latch (m_cw l) (m_cQS l) (m_semS l - 1) (m_semX l) (m_semW l), 0) else None.
Definition semX_Acquire (l : LATCH) : option (LATCH * Z) :=
  if 0 <? m_semX l then Some (Latch (m_cw l) (m_cQS l) (m_semS l) (m_semX l - 1) (m_semW l), 0) else None.
Definition semW_Acquire (l : LATCH) : option (LATCH * Z) :=
  if 0 <? m_semW l then Some (Latch (m_cw l) (m_cQS l) (m_semS l) (m_semX l) (m_semW l - 1), 0) else None.

(** Each condition reads the control word anew. *)
Definition OSSYNCEnforce (exp : Z -> bool) (k : latch_prog) : latch_prog := Act Load (fun cw => if exp cw then k else Crash).

Definition AssertValid (iGroupOwnsOrWaits : iGroup) (k : latch_prog) : latch_prog :=
  OSSYNCEnforce (fun cw => negb (Z.land cw 0x00007fff =? 0x00007fff))
  (OSSYNCEnforce (fun cw => negb (Z.land cw 0xffff0000 =? 0xffff0000))
  match iGroupOwnsOrWaits with
  | iSharedGroup | iNoGroup => k
  | iExclusiveGroup => OSSYNCEnforce (fun cw => bits cw 0xffff0000) k
  | iWriteGroup => OSSYNCEnforce (fun cw => bits cw 0xffff0000) (OSSYNCEnforce (fun cw => Z.land cw 0x00008000 =? 0x00008000) k)
  end).

(** ** Acquiring *)

Definition ErrAcquireSharedLatch : latch_prog :=
  AssertValid iNoGroup
  (Act (AtomicExchangeAdd 0x00000001) (fun cwBI =>
  if bits cwBI 0x00008000 then AssertValid iSharedGroup (Ret errWaitForSharedLatch)
  else AssertValid iSharedGroup (Ret errSuccess))).

Definition ErrTryAcquireSharedLatch : latch_prog :=
  Loop (fun _ => AssertValid iNoGroup
    (Act Load (fun cw =>
    let cwBIExpected := Z.land cw 0xFFFF7FFF in
    let cwAI := u32 (cwBIExpected + 0x00000001) in
    Act (AtomicCompareExchange cwBIExpected cwAI) (fun cwBI =>
    if negb (cwBI =? cwBIExpected) then
      if bits cwBI 0x00008000 then AssertValid iNoGroup (Ret errLatchConflict) else Again tt
    else AssertValid iSharedGroup (Ret errSuccess))))) tt Ret.

Definition ErrAcquireExclusiveLatch : latch_prog :=
  AssertValid iNoGroup
  (Act (AtomicExchangeAdd 0x00010000) (fun cwBI =>
  if bits cwBI 0xFFFF0000 then AssertValid iExclusiveGroup (Ret errWaitForExclusiveLatch)
  else AssertValid iExclusiveGroup (Ret errSuccess))).

Definition ErrTryAcquireExclusiveLatch : latch_prog :=
  Loop (fun _ => AssertValid iNoGroup
    (Act Load (fun cw =>
    let cwBIExpected := Z.land cw 0x0000FFFF in
    let cwAI := u32 (cwBIExpected + 0x00010000) in
    Act (AtomicCompareExchange cwBIExpected cwAI) (fun cwBI =>
    if negb (cwBI =? cwBIExpected) then
      if bits cwBI 0xFFFF0000 then AssertValid iNoGroup (Ret errLatchConflict) else Again tt
    else AssertValid iExclusiveGroup (Ret errSuccess))))) tt Ret.

Definition ErrTryAcquireWriteLatch : latch_prog :=
  AssertValid iNoGroup
  (Act (AtomicCompareExchange 0x00000000 0x00018000) (fun cwBI =>
  if negb (cwBI =? 0x00000000) then AssertValid iNoGroup (Ret errLatchConflict)
  else AssertValid iWriteGroup (Ret errSuccess))).

(** ** Upgrading *)

Definition UpdateQuiescedSharedLatchCount (cQSDelta : Z) (k : latch_prog) : latch_prog :=
  Act (AtomicExchangeAddQS cQSDelta) (fun cQSBI =>
  let cQSAI := u32 (cQSBI + cQSDelta) in
  if cQSAI =? 0 then AssertValid iWriteGroup (Act (semW_Release 1) (fun _ => k)) else k).

Definition ErrUpgradeSharedLatchToExclusiveLatch : latch_prog :=
  Loop (fun _ => AssertValid iSharedGroup
    (Act Load (fun cw =>
    let cwBIExpected := Z.land cw 0x0000FFFF in
    let cwAI := u32 (cwBIExpected + 0x0000FFFF) in
    Act (AtomicCompareExchange cwBIExpected cwAI) (fun cwBI =>
    if negb (cwBI =? cwBIExpected) then
      if bits cwBI 0xFFFF0000 then AssertValid iSharedGroup (Ret errLatchConflict) else Again tt
    else AssertValid iExclusiveGroup (Ret errSuccess))))) tt Ret.

Definition ErrUpgradeSharedLatchToWriteLatch : latch_prog :=
  Loop (fun _ => AssertValid iSharedGroup
    (Act Load (fun cw =>
    let cwBIExpected := Z.land cw 0x0000FFFF in
    let cwAI := 0x00018000 in
    Act (AtomicCompareExchange cwBIExpected cwAI) (fun cwBI =>
    if negb (cwBI =? cwBIExpected) then
      if bits cwBI 0xFFFF0000 then AssertValid iSharedGroup (Ret errLatchConflict) else Again tt
    else if negb (cwBI =? 0x00000001) then
      UpdateQuiescedSharedLatchCount (u32 (cwBI - 1)) (AssertValid iWriteGroup (Ret errWaitForWriteLatch))
    else AssertValid iWriteGroup (Ret errSuccess))))) tt Ret.

Definition ErrUpgradeExclusiveLatchToWriteLatch : latch_prog :=
  Loop (fun _ => AssertValid iExclusiveGroup
    (Act Load (fun cwBIExpected =>
    let cwAI := Z.lor (Z.land cwBIExpected 0xFFFF0000) 0x00008000 in
    Act (AtomicCompareExchange cwBIExpected cwAI) (fun cwBI =>
    if negb (cwBI =? cwBIExpected) then Again tt
    else if bits cwBI 0x00007FFF then
      UpdateQuiescedSharedLatchCount (Z.land cwBI 0x00007FFF) (AssertValid iWriteGroup (Ret errWaitForWriteLatch))
    else AssertValid iWriteGroup (Ret errSuccess))))) tt Ret.

Definition ErrTryUpgradeSharedLatchToWriteLatch : latch_prog :=
  AssertValid iSharedGroup
  (Act (AtomicCompareExchange 0x00000001 0x00018000) (fun cwBI =>
  if negb (cwBI =? 0x00000001) then AssertValid iSharedGroup (Ret errLatchConflict)
  else AssertValid iWriteGroup (Ret errSuccess))).

Definition ErrTryUpgradeExclusiveLatchToWriteLatch : latch_prog :=
  AssertValid iExclusiveGroup (AssertValid iExclusiveGroup
  (Act (AtomicCompareExchange 0x00010000 0x00018000) (fun cwBI =>
  if negb (cwBI =? 0x00010000) then AssertValid iExclusiveGroup (Ret errLatchConflict)
  else AssertValid iWriteGroup (Ret errSuccess)))).

(** ** Downgrading and releasing *)

(** What the methods that give up the write or exclusive latch do next: release
    the shared latches that wait, then a waiter for the exclusive latch. *)
Definition release_sharers (cwBI : Z) (k : latch_prog) : latch_prog :=
  if bits cwBI 0x00007FFF then AssertValid iSharedGroup (Act (semS_Release (Z.land cwBI 0x00007FFF)) (fun _ => k)) else k.

Definition release_exclusive_waiter (cwBI : Z) (k : latch_prog) : latch_prog :=
  if 0x00020000 <=? cwBI then AssertValid iExclusiveGroup (Act (semX_Release 1) (fun _ => k)) else k.

Definition DowngradeWriteLatchToExclusiveLatch : latch_prog :=
  AssertValid iWriteGroup
  (Act (AtomicExchangeAdd 0xFFFF8000) (fun cwBI =>
  release_sharers cwBI (AssertValid iExclusiveGroup (Ret errSuccess)))).

Definition DowngradeWriteLatchToSharedLatch : latch_prog :=
  AssertValid iWriteGroup
  (Act (AtomicExchangeAdd 0xFFFE8001) (fun cwBI =>
  AssertValid iNoGroup (release_sharers cwBI (release_exclusive_waiter cwBI (AssertValid iSharedGroup (Ret errSuccess)))))).

Definition DowngradeExclusiveLatchToSharedLatch : latch_prog :=
  AssertValid iExclusiveGroup
  (Act (AtomicExchangeAdd 0xFFFF0001) (fun cwBI =>
  AssertValid iNoGroup (release_exclusive_waiter cwBI (AssertValid iSharedGroup (Ret errSuccess))))).

Definition ReleaseWriteLatch : latch_prog :=
  AssertValid iWriteGroup
  (Act (AtomicExchangeAdd 0xFFFE8000) (fun cwBI => release_sharers cwBI (release_exclusive_waiter cwBI (Ret errSuccess)))).

Definition ReleaseExclusiveLatch : latch_prog :=
  AssertValid iExclusiveGroup
  (Act (AtomicExchangeAdd 0xFFFF0000) (fun cwBI => release_exclusive_waiter cwBI (Ret errSuccess))).

Definition ReleaseSharedLatch : latch_prog :=
  Loop (fun _ => AssertValid iSharedGroup
    (Act Load (fun cw =>
    let cwBIExpected := Z.land cw 0xFFFF7FFF in
    let cwAI := u32 (cwBIExpected + 0xFFFFFFFF) in
    Act (AtomicCompareExchange cwBIExpected cwAI) (fun cwBI =>
    if negb (cwBI =? cwBIExpected) then
      if bits cwBI 0x00008000 then AssertValid iWriteGroup (UpdateQuiescedSharedLatchCount 0xFFFFFFFF (Ret errSuccess)) else Again tt
    else Ret errSuccess)))) tt Ret.

Definition ReleaseLatch (igroup : iGroup) : latch_prog :=
  match igroup with
  | iSharedGroup => ReleaseSharedLatch
  | iExclusiveGroup => ReleaseExclusiveLatch
  | iWriteGroup => ReleaseWriteLatch
  | iNoGroup => Ret errSuccess
  end.

(** ** Waiting *)

Definition WaitForSharedLatch : latch_prog := AssertValid iSharedGroup (Act semS_Acquire (fun _ => AssertValid iSharedGroup (Ret errSuccess))).
Definition WaitForExclusiveLatch : latch_prog := AssertValid iExclusiveGroup (Act semX_Acquire (fun _ => AssertValid iExclusiveGroup (Ret errSuccess))).
Definition WaitForWriteLatch : latch_prog := AssertValid iWriteGroup (Act semW_Acquire (fun _ => AssertValid iWriteGroup (Ret errSuccess))).

Definition AcquireSharedLatch : latch_prog :=
  Loop (fun _ => ErrAcquireSharedLatch) tt (fun err => match err with errWaitForSharedLatch => WaitForSharedLatch | _ => Ret err end).
Definition AcquireExclusiveLatch : latch_prog :=
  Loop (fun _ => ErrAcquireExclusiveLatch) tt (fun err => match err with errWaitForExclusiveLatch => WaitForExclusiveLatch | _ => Ret err end).
Definition UpgradeExclusiveLatchToWriteLatch : latch_prog :=
  Loop (fun _ => ErrUpgradeExclusiveLatchToWriteLatch) tt (fun err => match err with errWaitForWriteLatch => WaitForWriteLatch | _ => Ret err end).
Definition AcquireWriteLatch : latch_prog := Loop (fun _ => AcquireExclusiveLatch) tt (fun _ => UpgradeExclusiveLatchToWriteLatch).

(** ** Contexts *)

(** What an execution context knows: it owns a latch, or has been told to wait
    for one. *)
Inductive CONTEXT := Free | Owns (g : iGroup) | WaitsFor (g : iGroup).

Inductive METHOD :=
  | mErrAcquireSharedLatch | mErrTryAcquireSharedLatch | mErrAcquireExclusiveLatch | mErrTryAcquireExclusiveLatch | mErrTryAcquireWriteLatch
  | mErrUpgradeSharedLatchToExclusiveLatch | mErrUpgradeSharedLatchToWriteLatch | mErrUpgradeExclusiveLatchToWriteLatch
  | mUpgradeExclusiveLatchToWriteLatch | mErrTryUpgradeSharedLatchToWriteLatch | mErrTryUpgradeExclusiveLatchToWriteLatch
  | mAcquireSharedLatch | mAcquireExclusiveLatch | mAcquireWriteLatch
  | mDowngradeWriteLatchToExclusiveLatch | mDowngradeWriteLatchToSharedLatch | mDowngradeExclusiveLatchToSharedLatch
  | mReleaseLatch (g : iGroup)
  | mWaitForSharedLatch | mWaitForExclusiveLatch | mWaitForWriteLatch.

Definition latch_method (m : METHOD) : latch_prog :=
  match m with
  | mErrAcquireSharedLatch => ErrAcquireSharedLatch
  | mErrTryAcquireSharedLatch => ErrTryAcquireSharedLatch
  | mErrAcquireExclusiveLatch => ErrAcquireExclusiveLatch
  | mErrTryAcquireExclusiveLatch => ErrTryAcquireExclusiveLatch
  | mErrTryAcquireWriteLatch => ErrTryAcquireWriteLatch
  | mErrUpgradeSharedLatchToExclusiveLatch => ErrUpgradeSharedLatchToExclusiveLatch
  | mErrUpgradeSharedLatchToWriteLatch => ErrUpgradeSharedLatchToWriteLatch
  | mErrUpgradeExclusiveLatchToWriteLatch => ErrUpgradeExclusiveLatchToWriteLatch
  | mUpgradeExclusiveLatchToWriteLatch => UpgradeExclusiveLatchToWriteLatch
  | mErrTryUpgradeSharedLatchToWriteLatch => ErrTryUpgradeSharedLatchToWriteLatch
  | mErrTryUpgradeExclusiveLatchToWriteLatch => ErrTryUpgradeExclusiveLatchToWriteLatch
  | mAcquireSharedLatch => AcquireSharedLatch
  | mAcquireExclusiveLatch => AcquireExclusiveLatch
  | mAcquireWriteLatch => AcquireWriteLatch
  | mDowngradeWriteLatchToExclusiveLatch => DowngradeWriteLatchToExclusiveLatch
  | mDowngradeWriteLatchToSharedLatch => DowngradeWriteLatchToSharedLatch
  | mDowngradeExclusiveLatchToSharedLatch => DowngradeExclusiveLatchToSharedLatch
  | mReleaseLatch g => ReleaseLatch g
  | mWaitForSharedLatch => WaitForSharedLatch
  | mWaitForExclusiveLatch => WaitForExclusiveLatch
  | mWaitForWriteLatch => WaitForWriteLatch
  end.

(** The assertions at the start of the methods: [FNotOwner], [FOwnSharedLatch],
    [FWaiter] and the like. *)
Definition latch_allowed (c : CONTEXT) (m : METHOD) : bool :=
  match c, m with
  | Free, (mErrAcquireSharedLatch | mErrTryAcquireSharedLatch | mErrAcquireExclusiveLatch | mErrTryAcquireExclusiveLatch | mErrTryAcquireWriteLatch
      | mAcquireSharedLatch | mAcquireExclusiveLatch | mAcquireWriteLatch | mReleaseLatch iNoGroup) => true
  | Owns iSharedGroup, (mErrUpgradeSharedLatchToExclusiveLatch | mErrUpgradeSharedLatchToWriteLatch | mErrTryUpgradeSharedLatchToWriteLatch
      | mReleaseLatch iSharedGroup) => true
  | Owns iExclusiveGroup, (mErrUpgradeExclusiveLatchToWriteLatch | mUpgradeExclusiveLatchToWriteLatch | mErrTryUpgradeExclusiveLatchToWriteLatch
      | mDowngradeExclusiveLatchToSharedLatch | mReleaseLatch iExclusiveGroup) => true
  | Owns iWriteGroup, (mDowngradeWriteLatchToExclusiveLatch | mDowngradeWriteLatchToSharedLatch | mReleaseLatch iWriteGroup) => true
  | WaitsFor iSharedGroup, mWaitForSharedLatch => true
  | WaitsFor iExclusiveGroup, mWaitForExclusiveLatch => true
  | WaitsFor iWriteGroup, mWaitForWriteLatch => true
  | _, _ => false
  end.

(** The latch a method is for; [iNoGroup] for one that releases. *)
Definition method_group (m : METHOD) : iGroup :=
  match m with
  | mErrAcquireSharedLatch | mErrTryAcquireSharedLatch | mAcquireSharedLatch | mWaitForSharedLatch
  | mDowngradeWriteLatchToSharedLatch | mDowngradeExclusiveLatchToSharedLatch => iSharedGroup
  | mErrAcquireExclusiveLatch | mErrTryAcquireExclusiveLatch | mErrUpgradeSharedLatchToExclusiveLatch | mAcquireExclusiveLatch
  | mWaitForExclusiveLatch | mDowngradeWriteLatchToExclusiveLatch => iExclusiveGroup
  | mErrTryAcquireWriteLatch | mErrUpgradeSharedLatchToWriteLatch | mErrUpgradeExclusiveLatchToWriteLatch | mUpgradeExclusiveLatchToWriteLatch
  | mErrTryUpgradeSharedLatchToWriteLatch | mErrTryUpgradeExclusiveLatchToWriteLatch | mAcquireWriteLatch | mWaitForWriteLatch => iWriteGroup
  | mReleaseLatch _ => iNoGroup
  end.

Definition latch_after (c : CONTEXT) (m : METHOD) (e : ERR) : CONTEXT :=
  match e with
  | errSuccess => match method_group m with iNoGroup => Free | g => Owns g end
  | errWaitForSharedLatch => WaitsFor iSharedGroup
  | errWaitForExclusiveLatch => WaitsFor iExclusiveGroup
  | errWaitForWriteLatch => WaitsFor iWriteGroup
  | errLatchConflict => c
  end.

Definition latch_system : Type := system LATCH Z ERR unit CONTEXT METHOD.

(** [n] contexts that own nothing, and a new latch. *)
Definition latch_init (n : nat) : latch_system := System latch_new (repeat (Client Free) n).

Definition latch_reachable (n : nat) : latch_system -> Prop := reachable latch_allowed latch_method latch_after (latch_init n).
