(* ===== verification/LatchInv.v ===== *)
(** * The invariant of the latch

    Every context has a role: what it owns, waits for or has yet to do.  The
    invariant ties the fields of the latch to how many contexts have each role. *)

From Stdlib Require Import ZArith List Lia Bool.
From S2P Require Import Prelude Bits Conc Latch.
Import ListNotations.

(** ** The control word *)

Definition cword (low : Z) (qs : bool) (hi : Z) : Z := low + (if qs then 32768 else 0) + 65536 * hi.

Lemma land_disjoint_add x m1 m2 : Z.land m1 m2 = 0 -> Z.land x (m1 + m2) = Z.land x m1 + Z.land x m2.
Proof.
  intros H. rewrite (Z.add_nocarry_lxor m1 m2 H). assert (D : Z.land (Z.land x m1) (Z.land x m2) = 0).
  { rewrite Z.land_assoc, (Z.land_comm (Z.land x m1) x), Z.land_assoc, Z.land_diag, <- Z.land_assoc, H. apply Z.land_0_r. }
  rewrite (Z.add_nocarry_lxor _ _ D). apply Z.bits_inj'. intros k Hk. rewrite !Z.land_spec, !Z.lxor_spec, !Z.land_spec. now destruct (Z.testbit x k).
Qed.

Section Word.
Variables (low hi : Z) (qs : bool).
Hypothesis Hl : 0 <= low < 32768.
Hypothesis Hh : 0 <= hi < 65536.
Let cw := cword low qs hi.

Lemma cword_low : Z.land cw 0x7fff = low.
Proof. change 0x7fff with (Z.ones 15). rewrite Z.land_ones by lia. change (2 ^ 15) with 32768. unfold cw, cword. destruct qs; zlia. Qed.

Lemma cword_word : Z.land cw 0xffff = low + if qs then 32768 else 0.
Proof. change 0xffff with (Z.ones 16). rewrite Z.land_ones by lia. change (2 ^ 16) with 65536. unfold cw, cword. destruct qs; zlia. Qed.

Lemma cword_flag : Z.land cw 0x8000 = if qs then 32768 else 0.
Proof.
  pose proof (land_disjoint_add cw 0x7fff 0x8000 eq_refl) as E. change (0x7fff + 0x8000) with 0xffff in E. rewrite cword_word, cword_low in E. lia.
Qed.

Lemma cword_all : Z.land cw 0xffffffff = cw.
Proof. change 0xffffffff with (Z.ones 32). rewrite Z.land_ones by lia. apply Z.mod_small. change (2 ^ 32) with 4294967296. unfold cw, cword. destruct qs; lia. Qed.

Lemma cword_high : Z.land cw 0xffff0000 = 65536 * hi.
Proof.
  pose proof (land_disjoint_add cw 0xffff 0xffff0000 eq_refl) as E. change (0xffff + 0xffff0000) with 0xffffffff in E.
  rewrite cword_word, cword_all in E. unfold cw, cword in *. lia.
Qed.

Lemma cword_bits_flag : bits cw 0x8000 = qs.
Proof. unfold bits. rewrite cword_flag. now destruct qs. Qed.

Lemma cword_bits_high : bits cw 0xffff0000 = (0 <? hi).
Proof. unfold bits. rewrite cword_high. case_cmp; cbn; try reflexivity; lia. Qed.

Lemma cword_bits_low : bits cw 0x7fff = (0 <? low).
Proof. unfold bits. rewrite cword_low. case_cmp; cbn; try reflexivity; lia. Qed.
End Word.

Lemma cword_quiesced low qs hi : 0 <= low < 32768 -> 0 <= hi < 65536 -> Z.lor (Z.land (cword low qs hi) 0xffff0000) 0x8000 = cword 0 true hi.
Proof.
  intros Hl Hh. rewrite cword_high by assumption. change (0x8000) with 32768. assert (D : Z.land (65536 * hi) 32768 = 0).
  { pose proof (cword_flag 0 hi false ltac:(lia) Hh) as E. unfold cword in E. rewrite !Z.add_0_l in E. exact E. }
  rewrite <- Z.lxor_lor, <- Z.add_nocarry_lxor by exact D. unfold cword. lia.
Qed.

(** A word without a flag or a high half, compared with the control word. *)
Lemma cword_masked low qs hi v m x : 0 <= low < 32768 -> 0 <= hi < 65536 -> cword low qs hi = Z.land v m -> Z.land m x = 0 ->
  Z.land (cword low qs hi) x = 0.
Proof. intros _ _ -> H. rewrite <- Z.land_assoc, H. apply Z.land_0_r. Qed.

Lemma cword_no_flag low qs hi v : 0 <= low < 32768 -> 0 <= hi < 65536 -> cword low qs hi = Z.land v 0xffff7fff -> qs = false.
Proof. intros Hl Hh E. pose proof (cword_masked _ _ _ _ _ 0x8000 Hl Hh E eq_refl) as H. rewrite cword_flag in H by assumption. now destruct qs. Qed.

Lemma cword_no_high low qs hi v : 0 <= low < 32768 -> 0 <= hi < 65536 -> cword low qs hi = Z.land v 0xffff -> hi = 0.
Proof. intros Hl Hh E. pose proof (cword_masked _ _ _ _ _ 0xffff0000 Hl Hh E eq_refl) as H. rewrite cword_high in H by assumption. lia. Qed.

(** ** Roles *)

(** [BRelQ]: an owner of a shared latch who is about to release it and has seen
    that shared latches are quiesced; [BQ n]: has quiesced [n] shared latches
    and has yet to count them in [m_cQS]. *)
Inductive base := BFree | BS | BRelQ | BWS | BX | BWX | BW | BQ (n : Z) | BWW.

(** And the counts it has yet to release to each semaphore. *)
Record role := Role { r_base : base; r_pS : Z; r_pX : Z; r_pW : Z }.

Definition Just (b : base) : role := Role b 0 0 0.

(** How many contexts have each role, and what they have yet to release. *)
Record totals := Totals { nS : Z; nRel : Z; nWS : Z; nX : Z; nWX : Z; nW : Z; nQ : Z; qQ : Z; nWW : Z; pS : Z; pX : Z; pW : Z; nT : Z }.

Definition tzero : totals := Totals 0 0 0 0 0 0 0 0 0 0 0 0 0.

Definition tbase (b : base) (s x w : Z) : totals :=
  match b with
  | BFree => Totals 0 0 0 0 0 0 0 0 0 s x w 1
  | BS => Totals 1 0 0 0 0 0 0 0 0 s x w 1
  | BRelQ => Totals 1 1 0 0 0 0 0 0 0 s x w 1
  | BWS => Totals 0 0 1 0 0 0 0 0 0 s x w 1
  | BX => Totals 0 0 0 1 0 0 0 0 0 s x w 1
  | BWX => Totals 0 0 0 0 1 0 0 0 0 s x w 1
  | BW => Totals 0 0 0 0 0 1 0 0 0 s x w 1
  | BQ n => Totals 0 0 0 0 0 0 1 n 0 s x w 1
  | BWW => Totals 0 0 0 0 0 0 0 0 1 s x w 1
  end.

Definition contrib (r : role) : totals := tbase (r_base r) (r_pS r) (r_pX r) (r_pW r).

Definition tadd (a b : totals) : totals :=
  Totals (nS a + nS b) (nRel a + nRel b) (nWS a + nWS b) (nX a + nX b) (nWX a + nWX b) (nW a + nW b) (nQ a + nQ b) (qQ a + qQ b) (nWW a + nWW b)
    (pS a + pS b) (pX a + pX b) (pW a + pW b) (nT a + nT b).

Fixpoint total (rs : list role) : totals := match rs with [] => tzero | r :: rs => tadd (contrib r) (total rs) end.

Lemma tadd_assoc a b c : tadd a (tadd b c) = tadd (tadd a b) c.
Proof. unfold tadd. cbn. now rewrite !Z.add_assoc. Qed.

Lemma tadd_comm a b : tadd a b = tadd b a.
Proof. unfold tadd. f_equal; apply Z.add_comm. Qed.

Lemma total_app rs1 rs2 : total (rs1 ++ rs2) = tadd (total rs1) (total rs2).
Proof.
  induction rs1 as [|r rs1 IH]; cbn [app total]; [now destruct (total rs2)|]. now rewrite IH, tadd_assoc.
Qed.

Lemma total_split rs1 r rs2 : total (rs1 ++ r :: rs2) = tadd (contrib r) (total (rs1 ++ rs2)).
Proof. rewrite !total_app. cbn [total]. now rewrite !tadd_assoc, (tadd_comm (total rs1)). Qed.

(** ** The invariant *)

Definition role_ok (r : role) : Prop := 0 <= r_pS r /\ 0 <= r_pX r /\ 0 <= r_pW r /\ match r_base r with BQ n => 0 <= n | _ => True end.

(** What holds of any totals. *)
Definition sane (t : totals) : Prop :=
  0 <= nRel t <= nS t /\ 0 <= nWS t /\ 0 <= nX t /\ 0 <= nWX t /\ 0 <= nW t /\ 0 <= nQ t /\ 0 <= qQ t /\ 0 <= nWW t /\ 0 <= pS t /\ 0 <= pX t /\ 0 <= pW t /\
  (nQ t = 0 -> qQ t = 0) /\ nS t + nWS t + nX t + nWX t + nW t + nQ t + nWW t <= nT t.

Lemma total_sane rs : Forall role_ok rs -> sane (total rs).
Proof.
  induction 1 as [|r rs (H1 & H2 & H3 & H4) _ IH]; [unfold sane; cbn; lia|]. cbn [total]. unfold sane, tadd, contrib in *. cbn [nS nRel nWS nX nWX nW nQ qQ nWW pS pX pW nT] in *.
  destruct (r_base r); cbn [tbase nS nRel nWS nX nWX nW nQ qQ nWW pS pX pW nT] in *; lia.
Qed.

(** [low], [qs], [hi] are the fields of the control word.  Of the contexts
    counted in [hi] exactly one owns the exclusive or write latch, is about to,
    or will be told so by the semaphore; a shared latch that was granted by a
    release but not yet taken counts as owned. *)
Definition granted (l : LATCH) (t : totals) : Z := nS t + m_semS l + pS t.

Definition good_fields (l : LATCH) (t : totals) (low : Z) (qs : bool) (hi : Z) : Prop :=
  m_cw l = cword low qs hi /\ 0 <= low <= nT t /\ nT t <= 32766 /\ hi = nX t + nWX t + nW t + nQ t + nWW t /\
  0 <= m_semS l /\ 0 <= m_semX l /\ 0 <= m_semW l /\
  nX t + nW t + nQ t + nWW t + m_semX l + pX t = (if 0 <? hi then 1 else 0) /\
  if qs then
    nX t = 0 /\ nW t + nQ t + nWW t = 1 /\ low + m_semS l + pS t = nWS t /\
    (nQ t = 1 -> granted l t <= qQ t /\ 0 < qQ t < 32768 /\ m_cQS l = u32 (granted l t - qQ t) /\ m_semW l = 0 /\ pW t = 0) /\
    (nWW t = 1 -> m_cQS l = granted l t /\ m_semW l + pW t = if granted l t =? 0 then 1 else 0) /\
    (nW t = 1 -> granted l t = 0 /\ m_cQS l = 0 /\ m_semW l = 0 /\ pW t = 0)
  else
    nW t = 0 /\ nQ t = 0 /\ nWW t = 0 /\ low = nS t + nWS t /\ m_semS l + pS t = nWS t /\ m_cQS l = 0 /\ m_semW l = 0 /\ pW t = 0 /\ nRel t = 0.

Definition good (l : LATCH) (t : totals) : Prop := exists low qs hi, good_fields l t low qs hi.

Definition latch_inv (l : LATCH) (rs : list role) : Prop := Forall role_ok rs /\ good l (total rs).

(** Who may be blocked, and by which semaphore. *)
Definition latch_blk (r : role) (l : LATCH) : Prop :=
  (r = Just BWS /\ m_semS l = 0) \/ (r = Just BWX /\ m_semX l = 0) \/ (r = Just BWW /\ m_semW l = 0).

Definition latch_safe : latch_prog -> (unit -> role -> Prop) -> (ERR -> role -> Prop) -> role -> Prop := safe latch_inv latch_blk.

(** ** Rules *)

(** An action, seen from one context: [o] is the total of the others. *)
Lemma act_rule a (k : Z -> latch_prog) again post r : role_ok r ->
  (forall l o, sane o -> good l (tadd (contrib r) o) ->
    match a l with
    | Some (l', v) => exists r', role_ok r' /\ good l' (tadd (contrib r') o) /\ latch_safe (k v) again post r'
    | None => latch_blk r l
    end) -> latch_safe (Act a k) again post r.
Proof.
  intros Hr H. cbn. intros l rs1 rs2 [F G]. rewrite total_split in G. apply Forall_app in F as [F1 F]. apply Forall_cons_iff in F as [_ F2].
  assert (So : sane (total (rs1 ++ rs2))) by (apply total_sane, Forall_app; auto). specialize (H l _ So G). destruct (a l) as [[l' v]|]; [|exact H].
  destruct H as (r' & R & G' & S). exists r'. split; [|exact S]. split; [|now rewrite total_split]. apply Forall_app. split; [exact F1|]. now constructor.
Qed.

Lemma enforce_rule exp k again post r : role_ok r -> (forall l o, sane o -> good l (tadd (contrib r) o) -> exp (m_cw l) = true) ->
  latch_safe k again post r -> latch_safe (OSSYNCEnforce exp k) again post r.
Proof.
  intros Hr H S. apply act_rule; [exact Hr|]. intros l o So G. cbn [Load]. exists r. rewrite (H l o So G). auto.
Qed.

(** Every control word has both of its counts below their limits. *)
Lemma good_ranges l t : good l t -> sane t -> exists low qs hi, good_fields l t low qs hi /\ 0 <= low < 32767 /\ 0 <= hi < 32767.
Proof.
  intros (low & qs & hi & G) S. exists low, qs, hi. split; [exact G|]. destruct G as (_ & G1 & G2 & G3 & _). unfold sane in S. lia.
Qed.

Lemma sane_contrib r o : role_ok r -> sane o -> sane (tadd (contrib r) o).
Proof.
  intros (H1 & H2 & H3 & H4) So. unfold sane, tadd, contrib in *. cbn [nS nRel nWS nX nWX nW nQ qQ nWW pS pX pW nT] in *.
  destruct (r_base r); cbn [tbase nS nRel nWS nX nWX nW nQ qQ nWW pS pX pW nT] in *; lia.
Qed.

(** Contexts who know that the exclusive half is not empty, or that shared
    latches are quiesced. *)
Definition knows_high (r : role) : bool :=
  match r_base r with BX | BWX | BW | BQ _ | BWW => true | _ => (0 <? r_pX r) || (0 <? r_pW r) end.
Definition knows_flag (r : role) : bool := match r_base r with BRelQ | BW | BQ _ | BWW => true | _ => 0 <? r_pW r end.

Ltac tfields := cbn [tadd contrib tbase Just r_base r_pS r_pX r_pW nS nRel nWS nX nWX nW nQ qQ nWW pS pX pW nT m_cw m_cQS m_semS m_semX m_semW] in *.

(** Opens the invariant: [low], [qs], [hi] and the facts about them. *)
Ltac open_good G So :=
  let low := fresh "low" in let qs := fresh "qs" in let hi := fresh "hi" in
  destruct G as (low & qs & hi & G); unfold good_fields, granted, sane in *; tfields.

Lemma flag_known r l o low qs hi : knows_flag r = true -> role_ok r -> sane o -> good_fields l (tadd (contrib r) o) low qs hi -> qs = true /\ 0 < hi.
Proof.
  intros K (H1 & H2 & H3 & H4) So G. unfold good_fields, granted, sane, tadd, contrib, knows_flag in *. destruct qs.
  - split; [reflexivity|]. destruct (r_base r); tfields; try discriminate; try apply Z.ltb_lt in K; lia.
  - destruct (r_base r); tfields; try discriminate; try apply Z.ltb_lt in K; lia.
Qed.

Lemma high_known r l o low qs hi : knows_high r = true -> role_ok r -> sane o -> good_fields l (tadd (contrib r) o) low qs hi -> 0 < hi.
Proof.
  intros K (H1 & H2 & H3 & H4) So G. unfold good_fields, granted, sane, tadd, contrib, knows_high in *.
  destruct (r_base r); tfields; try lia; apply orb_prop in K as [K|K]; apply Z.ltb_lt in K; destruct (Z.ltb_spec 0 hi); try lia; destruct qs; lia.
Qed.

Lemma assert_any g k again post r : role_ok r ->
  (g = iNoGroup \/ g = iSharedGroup) \/ (g = iExclusiveGroup /\ knows_high r = true) \/ (g = iWriteGroup /\ knows_flag r = true) ->
  latch_safe k again post r -> latch_safe (AssertValid g k) again post r.
Proof.
  intros Hr Hg S. assert (W : forall l o, sane o -> good l (tadd (contrib r) o) -> exists low qs hi, good_fields l (tadd (contrib r) o) low qs hi /\
      m_cw l = cword low qs hi /\ 0 <= low < 32767 /\ 0 <= hi < 32767).
  { intros l o So G. destruct (good_ranges l _ G (sane_contrib r o Hr So)) as (low & qs & hi & G' & R). exists low, qs, hi. split; [exact G'|]. split; [apply G'|exact R]. }
  unfold AssertValid. apply enforce_rule; [exact Hr| |apply enforce_rule; [exact Hr| |]].
  - intros l o So G. destruct (W l o So G) as (low & qs & hi & _ & -> & R1 & R2). rewrite cword_low by lia. case_cmp; [lia|reflexivity].
  - intros l o So G. destruct (W l o So G) as (low & qs & hi & _ & -> & R1 & R2). rewrite cword_high by lia. case_cmp; [lia|reflexivity].
  - destruct Hg as [[-> | ->]|[[-> K]|[-> K]]]; [exact S|exact S| |].
    + apply enforce_rule; [exact Hr| |exact S]. intros l o So G. destruct (W l o So G) as (low & qs & hi & G' & -> & R1 & R2).
      rewrite cword_bits_high by lia. apply Z.ltb_lt. now apply (high_known r l o low qs hi).
    + apply enforce_rule; [exact Hr| |apply enforce_rule; [exact Hr| |exact S]]; intros l o So G; destruct (W l o So G) as (low & qs & hi & G' & -> & R1 & R2);
        destruct (flag_known r l o low qs hi K Hr So G') as [-> Hi]; [rewrite cword_bits_high by lia; now apply Z.ltb_lt|now rewrite cword_flag by lia].
Qed.
