(* ===== verification/LatchProofs.v ===== *)
(** * The methods of the latch keep its invariant *)

From Stdlib Require Import ZArith List Lia Bool.
From S2P Require Import Prelude Bits Conc Latch LatchInv.
Import ListNotations.

(** All comparisons of context and goal. *)
Ltac all_cmp :=
  repeat match goal with
  | H : context [?a <? ?b] |- _ => destruct (Z.ltb_spec a b)
  | H : context [?a =? ?b] |- _ => destruct (Z.eqb_spec a b)
  | |- context [?a <? ?b] => destruct (Z.ltb_spec a b)
  | |- context [?a =? ?b] => destruct (Z.eqb_spec a b)
  end.

(** The role and the fields after an action. *)
Ltac new_state r low qs hi :=
  exists r; split; [unfold role_ok; cbn; lia|split; [exists low, qs, hi; unfold good_fields, granted, cword, u32 in *; tfields; all_cmp; repeat split; first [assumption | lia | zlia]|]].

Lemma opened r l o : role_ok r -> sane o -> good l (tadd (contrib r) o) ->
  exists low qs hi, good_fields l (tadd (contrib r) o) low qs hi /\ m_cw l = cword low qs hi /\ 0 <= low < 32767 /\ 0 <= hi < 32767.
Proof.
  intros Hr So G. destruct (good_ranges l _ G (sane_contrib r o Hr So)) as (low & qs & hi & G' & R). exists low, qs, hi. split; [exact G'|]. split; [apply G'|exact R].
Qed.

Ltac start_action :=
  apply act_rule; [unfold role_ok; cbn; lia|]; intros l o So G;
  let G0 := fresh "G0" in pose proof G as G0; apply opened in G; [|unfold role_ok; cbn; lia|exact So];
  let low := fresh "low" in let qs := fresh "qs" in let hi := fresh "hi" in let E := fresh "E" in let R1 := fresh "R1" in let R2 := fresh "R2" in
  destruct G as (low & qs & hi & G & E & R1 & R2); unfold good_fields, granted, sane in G, So; tfields; destruct G as (_ & G).

(** A failed exchange, or a read: nothing changes. *)
Ltac same_state r := exists r; split; [unfold role_ok; cbn; lia|split; [assumption|]].

Lemma load_rule (k : Z -> latch_prog) again post r : role_ok r -> (forall v, latch_safe (k v) again post r) -> latch_safe (Act Load k) again post r.
Proof. intros Hr H. apply act_rule; [exact Hr|]. intros l o _ G. cbn [Load]. exists r. auto. Qed.

Ltac assert_valid := apply assert_any; [unfold role_ok; cbn; lia|auto|].

(** ** Acquiring *)

Section Acquire.
Variables (again : unit -> role -> Prop) (post : ERR -> role -> Prop).

Lemma ErrAcquireSharedLatch_safe :
  post errSuccess (Just BS) -> post errWaitForSharedLatch (Just BWS) -> latch_safe ErrAcquireSharedLatch again post (Just BFree).
Proof.
  intros P1 P2. unfold ErrAcquireSharedLatch. assert_valid. start_action. cbn [AtomicExchangeAdd]. rewrite E, cword_bits_flag by lia. destruct qs.
  - new_state (Just BWS) (low + 1) true hi. assert_valid. exact P2.
  - new_state (Just BS) (low + 1) false hi. assert_valid. exact P1.
Qed.

Lemma ErrAcquireExclusiveLatch_safe :
  post errSuccess (Just BX) -> post errWaitForExclusiveLatch (Just BWX) -> latch_safe ErrAcquireExclusiveLatch again post (Just BFree).
Proof.
  intros P1 P2. unfold ErrAcquireExclusiveLatch. assert_valid. start_action. cbn [AtomicExchangeAdd]. rewrite E, cword_bits_high by lia.
  destruct (Z.ltb_spec 0 hi).
  - destruct qs; [new_state (Just BWX) low true (hi + 1)|new_state (Just BWX) low false (hi + 1)]; (assert_valid; exact P2).
  - destruct qs; [lia|]. new_state (Just BX) low false (hi + 1). assert_valid. exact P1.
Qed.

Lemma ErrTryAcquireSharedLatch_safe :
  post errSuccess (Just BS) -> post errLatchConflict (Just BFree) -> latch_safe ErrTryAcquireSharedLatch again post (Just BFree).
Proof.
  intros P1 P2. apply safe_loop. intros _. assert_valid. apply load_rule; [unfold role_ok; cbn; lia|]. intros v. cbv zeta. start_action.
  cbn [AtomicCompareExchange]. destruct (Z.eqb_spec (m_cw l) (Z.land v 0xFFFF7FFF)) as [C|C]; cbn [negb].
  - rewrite E in C. assert (qs = false) as -> by (eapply cword_no_flag; [..|exact C]; lia). rewrite <- C.
    new_state (Just BS) (low + 1) false hi. assert_valid. exact P1.
  - same_state (Just BFree). destruct (bits _ _); [assert_valid; exact P2|reflexivity].
Qed.

Lemma ErrTryAcquireExclusiveLatch_safe :
  post errSuccess (Just BX) -> post errLatchConflict (Just BFree) -> latch_safe ErrTryAcquireExclusiveLatch again post (Just BFree).
Proof.
  intros P1 P2. apply safe_loop. intros _. assert_valid. apply load_rule; [unfold role_ok; cbn; lia|]. intros v. cbv zeta. start_action.
  cbn [AtomicCompareExchange]. destruct (Z.eqb_spec (m_cw l) (Z.land v 0x0000FFFF)) as [C|C]; cbn [negb].
  - rewrite E in C. assert (hi = 0) as -> by (eapply cword_no_high; [..|exact C]; lia). rewrite <- C. destruct qs; [lia|].
    new_state (Just BX) low false 1. assert_valid. exact P1.
  - same_state (Just BFree). destruct (bits _ _); [assert_valid; exact P2|reflexivity].
Qed.

Lemma ErrTryAcquireWriteLatch_safe :
  post errSuccess (Just BW) -> post errLatchConflict (Just BFree) -> latch_safe ErrTryAcquireWriteLatch again post (Just BFree).
Proof.
  intros P1 P2. unfold ErrTryAcquireWriteLatch. assert_valid. start_action. cbn [AtomicCompareExchange].
  destruct (Z.eqb_spec (m_cw l) 0) as [C|C]; cbn [negb].
  - rewrite E in C. unfold cword in C. destruct qs; [lia|]. assert (low = 0) as -> by lia. assert (hi = 0) as -> by lia.
    new_state (Just BW) 0 true 1. assert_valid. exact P1.
  - same_state (Just BFree). assert_valid. exact P2.
Qed.
End Acquire.

(** ** Upgrading *)

(** The last shared latch that was quiesced lets the writer go. *)
Lemma release_writer_safe again (post : ERR -> role -> Prop) b (k : latch_prog) : match b with BQ _ => False | _ => True end ->
  latch_safe k again post (Just b) -> latch_safe (AssertValid iWriteGroup (Act (semW_Release 1) (fun _ => k))) again post (Role b 0 0 1).
Proof.
  intros Hb S. apply assert_any; [destruct b; unfold role_ok; cbn; lia || contradiction|right; right; split; [reflexivity|now destruct b]|].
  apply act_rule; [destruct b; unfold role_ok; cbn; lia || contradiction|]. intros l o So G. cbn [semW_Release]. exists (Just b).
  split; [destruct b; unfold role_ok; cbn; lia || contradiction|split; [|exact S]]. destruct G as (low & qs & hi & G). exists low, qs, hi. revert G. unfold good_fields, granted, sane in *.
  destruct qs; destruct b; try contradiction; tfields; intros (G1 & G2 & G3 & G4 & G5 & G6 & G7 & G8 & G9); repeat split; try lia; try (intros; lia).
Qed.

(** The writer counts the shared latches it has quiesced. *)
Lemma update_quiesced_safe again (post : ERR -> role -> Prop) n (k : latch_prog) : 0 < n < 32768 ->
  latch_safe k again post (Just BWW) -> latch_safe (UpdateQuiescedSharedLatchCount n k) again post (Just (BQ n)).
Proof.
  intros Hn S. unfold UpdateQuiescedSharedLatchCount. apply act_rule; [unfold role_ok; cbn; lia|]. intros l o So G. cbn [AtomicExchangeAddQS].
  apply opened in G; [|unfold role_ok; cbn; lia|exact So]. destruct G as (low & qs & hi & G & _ & _ & _). unfold good_fields, granted, sane in G, So; tfields.
  destruct qs; [|lia]. destruct G as (E & G1 & G2 & G3 & G4 & G5 & G6 & G7 & G8 & G9 & G10 & GQ & _ & _). specialize (GQ ltac:(lia)). destruct GQ as (Q1 & Q2 & Q3 & Q4 & Q5).
  assert (A : u32 (m_cQS l + n) = nS o + m_semS l + pS o) by (rewrite Q3; unfold u32; zlia). rewrite A.
  destruct (Z.eqb_spec (nS o + m_semS l + pS o) 0) as [Z0|Z0].
  - exists (Role BWW 0 0 1). split; [unfold role_ok; cbn; lia|]. split; [|now apply release_writer_safe].
    exists low, true, hi. unfold good_fields, granted; tfields. all_cmp; repeat split; lia.
  - exists (Just BWW). split; [unfold role_ok; cbn; lia|]. split; [|exact S].
    exists low, true, hi. unfold good_fields, granted; tfields. all_cmp; repeat split; lia.
Qed.

Section Upgrade.
Variables (again : unit -> role -> Prop) (post : ERR -> role -> Prop).

Lemma ErrUpgradeSharedLatchToExclusiveLatch_safe :
  post errSuccess (Just BX) -> post errLatchConflict (Just BS) -> latch_safe ErrUpgradeSharedLatchToExclusiveLatch again post (Just BS).
Proof.
  intros P1 P2. apply safe_loop. intros _. assert_valid. apply load_rule; [unfold role_ok; cbn; lia|]. intros v. cbv zeta. start_action.
  cbn [AtomicCompareExchange]. destruct (Z.eqb_spec (m_cw l) (Z.land v 0x0000FFFF)) as [C|C]; cbn [negb].
  - rewrite E in C. assert (hi = 0) as -> by (eapply cword_no_high; [..|exact C]; lia). rewrite <- C. destruct qs; [lia|].
    new_state (Just BX) (low - 1) false 1. assert_valid. exact P1.
  - same_state (Just BS). destruct (bits _ _); [assert_valid; exact P2|reflexivity].
Qed.

Lemma ErrUpgradeSharedLatchToWriteLatch_safe :
  post errSuccess (Just BW) -> post errWaitForWriteLatch (Just BWW) -> post errLatchConflict (Just BS) ->
  latch_safe ErrUpgradeSharedLatchToWriteLatch again post (Just BS).
Proof.
  intros P1 P2 P3. apply safe_loop. intros _. assert_valid. apply load_rule; [unfold role_ok; cbn; lia|]. intros v. cbv zeta. start_action.
  cbn [AtomicCompareExchange]. destruct (Z.eqb_spec (m_cw l) (Z.land v 0x0000FFFF)) as [C|C]; cbn [negb].
  - rewrite E in C. assert (hi = 0) as -> by (eapply cword_no_high; [..|exact C]; lia). destruct qs; [lia|]. rewrite E. unfold cword.
    rewrite Z.add_0_r, Z.add_0_r. destruct (Z.eqb_spec low 1) as [->|L1]; cbn [negb].
    + new_state (Just BW) 0 true 1. assert_valid. exact P1.
    + replace (u32 (low - 1)) with (low - 1) by (unfold u32; zlia). new_state (Just (BQ (low - 1))) 0 true 1. apply update_quiesced_safe; [lia|]. assert_valid. exact P2.
  - same_state (Just BS). destruct (bits _ _); [assert_valid; exact P3|reflexivity].
Qed.

Lemma ErrUpgradeExclusiveLatchToWriteLatch_safe :
  post errSuccess (Just BW) -> post errWaitForWriteLatch (Just BWW) -> latch_safe ErrUpgradeExclusiveLatchToWriteLatch again post (Just BX).
Proof.
  intros P1 P2. apply safe_loop. intros _. assert_valid. apply load_rule; [unfold role_ok; cbn; lia|]. intros v. cbv zeta. start_action.
  cbn [AtomicCompareExchange]. destruct (Z.eqb_spec (m_cw l) v) as [C|C]; cbn [negb].
  - rewrite E in C. subst v. rewrite E, cword_quiesced, cword_bits_low, cword_low by lia. destruct qs; [lia|]. destruct (Z.ltb_spec 0 low).
    + new_state (Just (BQ low)) 0 true hi. apply update_quiesced_safe; [lia|]. assert_valid. exact P2.
    + new_state (Just BW) 0 true hi. assert_valid. exact P1.
  - same_state (Just BX). reflexivity.
Qed.

Lemma ErrTryUpgradeSharedLatchToWriteLatch_safe :
  post errSuccess (Just BW) -> post errLatchConflict (Just BS) -> latch_safe ErrTryUpgradeSharedLatchToWriteLatch again post (Just BS).
Proof.
  intros P1 P2. unfold ErrTryUpgradeSharedLatchToWriteLatch. assert_valid. start_action. cbn [AtomicCompareExchange].
  destruct (Z.eqb_spec (m_cw l) 1) as [C|C]; cbn [negb].
  - rewrite E in C. unfold cword in C. destruct qs; [lia|]. assert (low = 1) as -> by lia. assert (hi = 0) as -> by lia.
    new_state (Just BW) 0 true 1. assert_valid. exact P1.
  - same_state (Just BS). assert_valid. exact P2.
Qed.

Lemma ErrTryUpgradeExclusiveLatchToWriteLatch_safe :
  post errSuccess (Just BW) -> post errLatchConflict (Just BX) -> latch_safe ErrTryUpgradeExclusiveLatchToWriteLatch again post (Just BX).
Proof.
  intros P1 P2. unfold ErrTryUpgradeExclusiveLatchToWriteLatch. assert_valid. assert_valid. start_action. cbn [AtomicCompareExchange].
  destruct (Z.eqb_spec (m_cw l) 0x10000) as [C|C]; cbn [negb].
  - rewrite E in C. unfold cword in C. destruct qs; [lia|]. assert (low = 0) as -> by lia. assert (hi = 1) as -> by lia.
    new_state (Just BW) 0 true 1. assert_valid. exact P1.
  - same_state (Just BX). assert_valid. exact P2.
Qed.
End Upgrade.

(** ** Downgrading and releasing *)

(** What may be left to do for a context that gave up the exclusive half. *)
Definition gives_up (b : base) : bool := match b with BFree | BS | BX => true | _ => false end.

Lemma gives_up_ok b s x : gives_up b = true -> 0 <= s -> 0 <= x -> role_ok (Role b s x 0).
Proof. intros Hb Hs Hx. destruct b; try discriminate; unfold role_ok; cbn; lia. Qed.

Lemma release_exclusive_waiter_safe again (post : ERR -> role -> Prop) b cwBI (k : latch_prog) : gives_up b = true ->
  latch_safe k again post (Just b) -> latch_safe (release_exclusive_waiter cwBI k) again post (Role b 0 (if 0x20000 <=? cwBI then 1 else 0) 0).
Proof.
  intros Hb S. unfold release_exclusive_waiter. destruct (0x20000 <=? cwBI); [|exact S].
  apply assert_any; [now apply gives_up_ok|right; left; split; [reflexivity|now destruct b]|].
  apply act_rule; [now apply gives_up_ok|]. intros l o So G. cbn [semX_Release]. exists (Just b).
  split; [now apply gives_up_ok|split; [|exact S]]. destruct G as (low & qs & hi & G). exists low, qs, hi. revert G. unfold good_fields, granted, sane in *.
  destruct qs; destruct b; try discriminate; tfields; intros (G1 & G2 & G3 & G4 & G5 & G6 & G7 & G8 & G9); repeat split; try lia; try (intros; lia).
Qed.

Lemma release_sharers_safe again (post : ERR -> role -> Prop) b x cwBI (k : latch_prog) : gives_up b = true -> 0 <= x -> 0 <= cwBI ->
  latch_safe k again post (Role b 0 x 0) -> latch_safe (release_sharers cwBI k) again post (Role b (Z.land cwBI 0x7fff) x 0).
Proof.
  intros Hb Hx Hc S. unfold release_sharers, bits. destruct (Z.eqb_spec (Z.land cwBI 0x7fff) 0) as [->|N]; [exact S|]. cbn [negb].
  assert (P : 0 <= Z.land cwBI 0x7fff) by (apply Z.land_nonneg; lia). set (n := Z.land cwBI 0x7fff) in *. clearbody n.
  apply assert_any; [now apply gives_up_ok|auto|]. apply act_rule; [now apply gives_up_ok|]. intros l o So G. cbn [semS_Release]. exists (Role b 0 x 0).
  split; [now apply gives_up_ok|split; [|exact S]]. destruct G as (low & qs & hi & G). exists low, qs, hi. revert G. unfold good_fields.
  assert (Eg : granted (Latch (m_cw l) (m_cQS l) (m_semS l + n) (m_semX l) (m_semW l)) (tadd (contrib (Role b 0 x 0)) o) = granted l (tadd (contrib (Role b n x 0)) o))
    by (unfold granted; destruct b; try discriminate; tfields; lia).
  rewrite Eg. clear Eg. unfold sane in So. destruct qs; destruct b; try discriminate; tfields;
    intros (G1 & G2 & G3 & G4 & G5 & G6 & G7 & G8 & G9); repeat split; try lia; try apply G9.
Qed.

Section Release.
Variables (again : unit -> role -> Prop) (post : ERR -> role -> Prop).

Lemma DowngradeWriteLatchToExclusiveLatch_safe : post errSuccess (Just BX) -> latch_safe DowngradeWriteLatchToExclusiveLatch again post (Just BW).
Proof.
  intros P. unfold DowngradeWriteLatchToExclusiveLatch. assert_valid. start_action. cbn [AtomicExchangeAdd]. destruct qs; [|lia].
  exists (Role BX (Z.land (m_cw l) 0x7fff) 0 0). rewrite E, cword_low by lia. split; [unfold role_ok; cbn; lia|]. split.
  - exists low, false, hi. unfold good_fields, granted, cword, u32 in *; tfields; all_cmp; repeat split; first [lia | zlia].
  - rewrite <- E. replace low with (Z.land (m_cw l) 0x7fff) by (now rewrite E, cword_low by lia).
    apply release_sharers_safe; [reflexivity|lia|rewrite E; unfold cword; lia|]. assert_valid. exact P.
Qed.

Lemma DowngradeWriteLatchToSharedLatch_safe : post errSuccess (Just BS) -> latch_safe DowngradeWriteLatchToSharedLatch again post (Just BW).
Proof.
  intros P. unfold DowngradeWriteLatchToSharedLatch. assert_valid. start_action. cbn [AtomicExchangeAdd]. destruct qs; [|lia].
  exists (Role BS (Z.land (m_cw l) 0x7fff) (if 0x20000 <=? m_cw l then 1 else 0) 0). split; [|split].
  - unfold role_ok; cbn; rewrite E, cword_low by lia. destruct (_ <=? _); lia.
  - exists (low + 1), false, (hi - 1). rewrite E, cword_low by lia. unfold good_fields, granted, cword, u32 in *; tfields. destruct (Z.leb_spec 0x20000 (low + 32768 + 65536 * hi)); all_cmp; repeat split; first [lia | zlia].
  - apply assert_any; [apply gives_up_ok; [reflexivity|rewrite E, cword_low by lia; lia|destruct (_ <=? _); lia]|auto|].
    apply release_sharers_safe; [reflexivity|destruct (_ <=? _); lia|rewrite E; unfold cword; lia|]. apply release_exclusive_waiter_safe; [reflexivity|]. assert_valid. exact P.
Qed.

Lemma ReleaseWriteLatch_safe : post errSuccess (Just BFree) -> latch_safe ReleaseWriteLatch again post (Just BW).
Proof.
  intros P. unfold ReleaseWriteLatch. assert_valid. start_action. cbn [AtomicExchangeAdd]. destruct qs; [|lia].
  exists (Role BFree (Z.land (m_cw l) 0x7fff) (if 0x20000 <=? m_cw l then 1 else 0) 0). split; [|split].
  - unfold role_ok; cbn; rewrite E, cword_low by lia. destruct (_ <=? _); lia.
  - exists low, false, (hi - 1). rewrite E, cword_low by lia. unfold good_fields, granted, cword, u32 in *; tfields. destruct (Z.leb_spec 0x20000 (low + 32768 + 65536 * hi)); all_cmp; repeat split; first [lia | zlia].
  - apply release_sharers_safe; [reflexivity|destruct (_ <=? _); lia|rewrite E; unfold cword; lia|]. now apply release_exclusive_waiter_safe.
Qed.

Lemma DowngradeExclusiveLatchToSharedLatch_safe : post errSuccess (Just BS) -> latch_safe DowngradeExclusiveLatchToSharedLatch again post (Just BX).
Proof.
  intros P. unfold DowngradeExclusiveLatchToSharedLatch. assert_valid. start_action. cbn [AtomicExchangeAdd]. destruct qs; [lia|].
  exists (Role BS 0 (if 0x20000 <=? m_cw l then 1 else 0) 0). split; [|split].
  - unfold role_ok; cbn. destruct (_ <=? _); lia.
  - exists (low + 1), false, (hi - 1). rewrite E. unfold good_fields, granted, cword, u32 in *; tfields. destruct (Z.leb_spec 0x20000 (low + 0 + 65536 * hi)); all_cmp; repeat split; first [lia | zlia].
  - apply assert_any; [apply gives_up_ok; [reflexivity|lia|destruct (_ <=? _); lia]|auto|]. apply release_exclusive_waiter_safe; [reflexivity|]. assert_valid. exact P.
Qed.

Lemma ReleaseExclusiveLatch_safe : post errSuccess (Just BFree) -> latch_safe ReleaseExclusiveLatch again post (Just BX).
Proof.
  intros P. unfold ReleaseExclusiveLatch. assert_valid. start_action. cbn [AtomicExchangeAdd]. destruct qs; [lia|].
  exists (Role BFree 0 (if 0x20000 <=? m_cw l then 1 else 0) 0). split; [|split].
  - unfold role_ok; cbn. destruct (_ <=? _); lia.
  - exists low, false, (hi - 1). rewrite E. unfold good_fields, granted, cword, u32 in *; tfields. destruct (Z.leb_spec 0x20000 (low + 0 + 65536 * hi)); all_cmp; repeat split; first [lia | zlia].
  - now apply release_exclusive_waiter_safe.
Qed.
End Release.

(** A quiesced shared latch is given up. *)
Lemma leave_quiesced_safe again (post : ERR -> role -> Prop) (k : latch_prog) :
  latch_safe k again post (Just BFree) -> latch_safe (UpdateQuiescedSharedLatchCount 0xFFFFFFFF k) again post (Just BRelQ).
Proof.
  intros S. unfold UpdateQuiescedSharedLatchCount. start_action. cbn [AtomicExchangeAddQS]. destruct qs; [|lia].
  destruct G as (G1 & G2 & G3 & G4 & G5 & G6 & G7 & G8 & G9 & G10 & GQ & GWW & GW).
  assert (H : nQ o = 1 \/ nWW o = 1) by lia. destruct H as [H|H].
  - specialize (GQ ltac:(lia)). destruct GQ as (Q1 & Q2 & Q3 & Q4 & Q5). assert (N : u32 (m_cQS l + 0xFFFFFFFF) = u32 (nS o + m_semS l + pS o - qQ o)) by (rewrite Q3; unfold u32; zlia).
    rewrite N. assert (Nz : u32 (nS o + m_semS l + pS o - qQ o) <> 0) by (unfold u32; zlia). destruct (Z.eqb_spec (u32 (nS o + m_semS l + pS o - qQ o)) 0); [contradiction|].
    exists (Just BFree). split; [unfold role_ok; cbn; lia|]. split; [|exact S]. exists low, true, hi. unfold good_fields, granted; tfields. all_cmp; repeat split; try lia.
  - specialize (GWW ltac:(lia)). destruct GWW as (W1 & W2). assert (N : u32 (m_cQS l + 0xFFFFFFFF) = nS o + m_semS l + pS o) by (rewrite W1; unfold u32; zlia).
    rewrite N. destruct (Z.eqb_spec (nS o + m_semS l + pS o) 0) as [Z0|Z0].
    + exists (Role BFree 0 0 1). split; [unfold role_ok; cbn; lia|]. split; [|now apply release_writer_safe].
      exists low, true, hi. unfold good_fields, granted; tfields. all_cmp; repeat split; lia.
    + exists (Just BFree). split; [unfold role_ok; cbn; lia|]. split; [|exact S]. exists low, true, hi. unfold good_fields, granted; tfields. all_cmp; repeat split; lia.
Qed.

Lemma ReleaseSharedLatch_safe again (post : ERR -> role -> Prop) : post errSuccess (Just BFree) -> latch_safe ReleaseSharedLatch again post (Just BS).
Proof.
  intros P. apply safe_loop. intros _. assert_valid. apply load_rule; [unfold role_ok; cbn; lia|]. intros v. cbv zeta. start_action.
  cbn [AtomicCompareExchange]. destruct (Z.eqb_spec (m_cw l) (Z.land v 0xFFFF7FFF)) as [C|C]; cbn [negb].
  - rewrite E in C. assert (qs = false) as -> by (eapply cword_no_flag; [..|exact C]; lia). rewrite <- C.
    new_state (Just BFree) (low - 1) false hi. exact P.
  - rewrite E, cword_bits_flag by lia. destruct qs.
    + new_state (Just BRelQ) low true hi. assert_valid. apply leave_quiesced_safe. exact P.
    + same_state (Just BS). reflexivity.
Qed.

(** ** Waiting *)

Section Wait.
Variables (again : unit -> role -> Prop) (post : ERR -> role -> Prop).

Lemma WaitForSharedLatch_safe : post errSuccess (Just BS) -> latch_safe WaitForSharedLatch again post (Just BWS).
Proof.
  intros P. unfold WaitForSharedLatch. assert_valid. start_action. unfold semS_Acquire. destruct (Z.ltb_spec 0 (m_semS l)); [|left; split; [reflexivity|lia]].
  destruct qs; [new_state (Just BS) low true hi|new_state (Just BS) low false hi]; (assert_valid; exact P).
Qed.

Lemma WaitForExclusiveLatch_safe : post errSuccess (Just BX) -> latch_safe WaitForExclusiveLatch again post (Just BWX).
Proof.
  intros P. unfold WaitForExclusiveLatch. assert_valid. start_action. unfold semX_Acquire. destruct (Z.ltb_spec 0 (m_semX l)); [|right; left; split; [reflexivity|lia]].
  destruct qs; [destruct (Z.ltb_spec 0 hi); lia|]. new_state (Just BX) low false hi. assert_valid. exact P.
Qed.

Lemma WaitForWriteLatch_safe : post errSuccess (Just BW) -> latch_safe WaitForWriteLatch again post (Just BWW).
Proof.
  intros P. unfold WaitForWriteLatch. assert_valid. start_action. unfold semW_Acquire. destruct (Z.ltb_spec 0 (m_semW l)); [|right; right; split; [reflexivity|lia]].
  destruct qs; [|lia]. new_state (Just BW) low true hi. assert_valid. exact P.
Qed.
End Wait.
