(* ===== verification/LatchTheorems.v ===== *)
(** * The latch: the properties *)

From Stdlib Require Import ZArith List Lia Bool.
From S2P Require Import Prelude Bits Conc Latch LatchInv LatchProofs.
Import ListNotations.

(** ** Every context has its role *)

Definition latch_role (c : CONTEXT) : role :=
  match c with
  | Free | Owns iNoGroup | WaitsFor iNoGroup => Just BFree
  | Owns iSharedGroup => Just BS
  | Owns iExclusiveGroup => Just BX
  | Owns iWriteGroup => Just BW
  | WaitsFor iSharedGroup => Just BWS
  | WaitsFor iExclusiveGroup => Just BWX
  | WaitsFor iWriteGroup => Just BWW
  end.

Lemma latch_methods_safe c m : latch_allowed c m = true ->
  latch_safe (latch_method m) (fun _ _ => False) (fun e r' => r' = latch_role (latch_after c m e)) (latch_role c).
Proof.
  intros A. destruct c as [|[]|[]]; destruct m as [| | | | | | | | | | | | | | | | |[]| | |]; try discriminate; cbn [latch_method latch_role ReleaseLatch].
  - now apply ErrAcquireSharedLatch_safe.
  - now apply ErrTryAcquireSharedLatch_safe.
  - now apply ErrAcquireExclusiveLatch_safe.
  - now apply ErrTryAcquireExclusiveLatch_safe.
  - now apply ErrTryAcquireWriteLatch_safe.
  - apply safe_loop; intros _. apply ErrAcquireSharedLatch_safe; [reflexivity|]. now apply WaitForSharedLatch_safe.
  - apply safe_loop; intros _. apply ErrAcquireExclusiveLatch_safe; [reflexivity|]. now apply WaitForExclusiveLatch_safe.
  - assert (U : latch_safe UpgradeExclusiveLatchToWriteLatch (fun _ _ => False) (fun e r' => r' = latch_role (latch_after Free mAcquireWriteLatch e)) (Just BX)).
    { apply safe_loop; intros _. apply ErrUpgradeExclusiveLatchToWriteLatch_safe; [reflexivity|]. now apply WaitForWriteLatch_safe. }
    apply safe_loop; intros _; apply safe_loop; intros _. apply ErrAcquireExclusiveLatch_safe; [exact U|]. now apply WaitForExclusiveLatch_safe.
  - reflexivity.
  - now apply ErrUpgradeSharedLatchToExclusiveLatch_safe.
  - now apply ErrUpgradeSharedLatchToWriteLatch_safe.
  - now apply ErrTryUpgradeSharedLatchToWriteLatch_safe.
  - now apply ReleaseSharedLatch_safe.
  - now apply ErrUpgradeExclusiveLatchToWriteLatch_safe.
  - apply safe_loop; intros _. apply ErrUpgradeExclusiveLatchToWriteLatch_safe; [reflexivity|]. now apply WaitForWriteLatch_safe.
  - now apply ErrTryUpgradeExclusiveLatchToWriteLatch_safe.
  - now apply DowngradeExclusiveLatchToSharedLatch_safe.
  - now apply ReleaseExclusiveLatch_safe.
  - now apply DowngradeWriteLatchToExclusiveLatch_safe.
  - now apply DowngradeWriteLatchToSharedLatch_safe.
  - now apply ReleaseWriteLatch_safe.
  - now apply WaitForSharedLatch_safe.
  - now apply WaitForExclusiveLatch_safe.
  - now apply WaitForWriteLatch_safe.
Qed.

Definition latch_ok : latch_system -> Prop := system_ok latch_after latch_inv (fun _ => latch_blk) latch_role.

Lemma total_free n : total (repeat (Just BFree) n) = Totals 0 0 0 0 0 0 0 0 0 0 0 0 (Z.of_nat n).
Proof. induction n as [|n IH]; [reflexivity|]. cbn [repeat total]. rewrite IH, Nat2Z.inj_succ. unfold tadd. tfields. rewrite Z.add_1_l. reflexivity. Qed.

Lemma init_ok n : Z.of_nat n <= 32766 -> latch_ok (latch_init n).
Proof.
  intros Hn. exists (repeat (Just BFree) n). split; [split|].
  - apply Forall_forall. intros r Hr. apply repeat_spec in Hr as ->. unfold role_ok; cbn; lia.
  - rewrite total_free. exists 0, false, 0. unfold good_fields, granted. cbn. repeat split; lia.
  - cbn [threads latch_init]. clear Hn. induction n; constructor; [reflexivity|assumption].
Qed.

Lemma reached_ok n g : Z.of_nat n <= 32766 -> latch_reachable n g -> latch_ok g.
Proof. intros Hn R. eapply reachable_ok; [apply latch_methods_safe|apply init_ok, Hn|exact R]. Qed.

(** ** Two contexts *)

Lemma nth_two {A} (l : list A) : forall i j a b, i <> j -> nth_error l i = Some a -> nth_error l j = Some b ->
  exists l1 l2 l3, l = l1 ++ a :: l2 ++ b :: l3 \/ l = l1 ++ b :: l2 ++ a :: l3.
Proof.
  induction l as [|x l IH]; intros i j a b Hij Ha Hb; [destruct i; discriminate|]. destruct i as [|i], j as [|j]; [contradiction| | |].
  - injection Ha as <-. cbn in Hb. apply nth_error_split in Hb as (l2 & l3 & -> & _). exists [], l2, l3. now left.
  - injection Hb as <-. cbn in Ha. apply nth_error_split in Ha as (l2 & l3 & -> & _). exists [], l2, l3. now right.
  - destruct (IH i j a b ltac:(lia) Ha Hb) as (l1 & l2 & l3 & [-> | ->]); exists (x :: l1), l2, l3; auto.
Qed.

Lemma Forall2_nth_error {A B} (P : A -> B -> Prop) l1 l2 i x : Forall2 P l1 l2 -> nth_error l1 i = Some x -> exists y, nth_error l2 i = Some y /\ P x y.
Proof.
  intros F. revert i. induction F as [|a b l1 l2 Hab _ IH]; intros [|i] E; try discriminate; [|now apply IH]. injection E as <-. now exists b.
Qed.

Lemma total_two rs i j r1 r2 : i <> j -> nth_error rs i = Some r1 -> nth_error rs j = Some r2 -> Forall role_ok rs ->
  exists o, sane o /\ total rs = tadd (contrib r1) (tadd (contrib r2) o).
Proof.
  intros Hij E1 E2 F. destruct (nth_two rs i j r1 r2 Hij E1 E2) as (l1 & l2 & l3 & [-> | ->]).
  - exists (total (l1 ++ l2 ++ l3)). split.
    + apply total_sane. apply Forall_app in F as [F1 F]. apply Forall_cons_iff in F as [_ F]. apply Forall_app in F as [F2 F]. apply Forall_cons_iff in F as [_ F3]. now rewrite !Forall_app.
    + rewrite total_split. f_equal. rewrite app_assoc, total_split, app_assoc. reflexivity.
  - exists (total (l1 ++ l2 ++ l3)). split.
    + apply total_sane. apply Forall_app in F as [F1 F]. apply Forall_cons_iff in F as [_ F]. apply Forall_app in F as [F2 F]. apply Forall_cons_iff in F as [_ F3]. now rewrite !Forall_app.
    + rewrite total_split, app_assoc, total_split, <- app_assoc, !tadd_assoc. f_equal. apply tadd_comm.
Qed.

(** Which latches two contexts may own at once. *)
Definition compatible (g1 g2 : iGroup) : bool :=
  match g1, g2 with
  | iNoGroup, _ | _, iNoGroup => true
  | iSharedGroup, (iSharedGroup | iExclusiveGroup) | iExclusiveGroup, iSharedGroup => true
  | _, _ => false
  end.

(** C9: the latch excludes: whatever up to 32766 contexts do, in any
    interleaving of their atomic actions, while one owns the write latch no
    other owns a latch, and never do two own the exclusive latch. *)
Theorem latch_excludes n g i j g1 g2 :
  Z.of_nat n <= 32766 -> latch_reachable n g -> i <> j ->
  nth_error (threads g) i = Some (Client (Owns g1)) -> nth_error (threads g) j = Some (Client (Owns g2)) -> compatible g1 g2 = true.
Proof.
  intros Hn R Hij E1 E2. destruct (reached_ok n g Hn R) as (rs & [F G] & T).
  destruct (Forall2_nth_error _ _ _ _ _ T E1) as (r1 & N1 & T1). destruct (Forall2_nth_error _ _ _ _ _ T E2) as (r2 & N2 & T2). cbn [thread_ok] in T1, T2. subst r1 r2.
  destruct (total_two _ _ _ _ _ Hij N1 N2 F) as (o & So & Et). rewrite Et in G. destruct G as (low & qs & hi & G). unfold good_fields, granted, sane in *.
  destruct g1, g2; try reflexivity; exfalso; cbn [latch_role Just] in G; tfields; destruct qs; all_cmp; lia.
Qed.

(** C30: the checks of [AssertValid] never fail: no context ever ends the
    process in a method of the latch, so the counts in the control word stay
    below their limits and the flag is set where the code relies on it. *)
Theorem latch_never_crashes n g i c m :
  Z.of_nat n <= 32766 -> latch_reachable n g -> nth_error (threads g) i <> Some (Running c m Crash).
Proof.
  intros Hn R E. destruct (reached_ok n g Hn R) as (rs & _ & T). destruct (Forall2_nth_error _ _ _ _ _ T E) as (r & _ & T1). exact T1.
Qed.

(** C33: nothing is left behind: when no context owns a latch or is in a method,
    the latch is as new, with no quiesced count and no count in a semaphore. *)
Theorem latch_returns_to_rest n g :
  Z.of_nat n <= 32766 -> latch_reachable n g -> Forall (fun t => t = Client Free) (threads g) -> shared g = latch_new.
Proof.
  intros Hn R A. destruct (reached_ok n g Hn R) as (rs & [F G] & T).
  assert (Er : rs = repeat (Just BFree) (length rs)).
  { clear F G R Hn. revert A. induction T as [|t r ts rs Ht _ IH]; intros A; [reflexivity|]. apply Forall_cons_iff in A as [-> A]. cbn in Ht. subst r. cbn. f_equal. now apply IH. }
  rewrite Er, total_free in G. destruct G as (low & qs & hi & G). unfold good_fields, granted, cword in G. tfields. destruct (shared g) as [cw cqs s x w]. cbn [m_cw m_cQS m_semS m_semX m_semW] in G.
  destruct qs; [lia|]. unfold latch_new. all_cmp; f_equal; lia.
Qed.

(** ** Progress *)

(** What a context can do: go on in a method, or release what it owns, or take
    what it was told to wait for. *)
Definition can_go_on (l : LATCH) (t : thread LATCH Z ERR unit CONTEXT METHOD) : Prop :=
  match t with
  | Client (Owns iNoGroup) | Client Free | Client (WaitsFor iNoGroup) => False
  | Client (Owns _) => True
  | Client (WaitsFor iSharedGroup) => 0 < m_semS l
  | Client (WaitsFor iExclusiveGroup) => 0 < m_semX l
  | Client (WaitsFor iWriteGroup) => 0 < m_semW l
  | Running _ _ p => (exists e, p = Ret e) \/ pstep p l <> None
  end.

(** A context that waits inside a method for a semaphore. *)
Definition is_blocked (l : LATCH) (t : thread LATCH Z ERR unit CONTEXT METHOD) : Prop :=
  match t with Running _ _ p => (forall e, p <> Ret e) /\ pstep p l = None | _ => False end.

Lemma field_positive (f : totals -> Z) rs : (forall a b, f (tadd a b) = f a + f b) -> f tzero = 0 -> 0 < f (total rs) -> exists r, In r rs /\ 0 < f (contrib r).
Proof.
  intros Ha H0. induction rs as [|r rs IH]; cbn [total]; [lia|]. rewrite Ha. intros H. destruct (Z.lt_ge_cases 0 (f (contrib r))).
  - exists r. split; [now left|assumption].
  - destruct IH as (r' & I & P); [lia|]. exists r'. split; [now right|assumption].
Qed.

(** Where a context is blocked, another has a role that is not. *)
Lemma active_role l rs r : latch_inv l rs -> In r rs -> latch_blk r l -> exists r', In r' rs /\ r' <> Just BFree /\ ~ latch_blk r' l.
Proof.
  intros [F G] I B. assert (S : sane (total rs)) by now apply total_sane. destruct G as (low & qs & hi & G).
  assert (P : 0 < nS (total rs) \/ 0 < nX (total rs) \/ 0 < nW (total rs) \/ 0 < nQ (total rs) \/ 0 < pS (total rs) \/ 0 < pX (total rs) \/ 0 < pW (total rs) \/
    (0 < nWS (total rs) /\ 0 < m_semS l) \/ (0 < nWX (total rs) /\ 0 < m_semX l) \/ (0 < nWW (total rs) /\ 0 < m_semW l)).
  { apply in_split in I as (rs1 & rs2 & ->). rewrite total_split in *. apply Forall_app in F as [F1 F]. apply Forall_cons_iff in F as [_ F2].
    assert (So : sane (total (rs1 ++ rs2))) by (apply total_sane, Forall_app; auto). set (o := total (rs1 ++ rs2)) in *. clearbody o. clear S.
    unfold good_fields, granted, sane in *. destruct B as [[-> B]|[[-> B]|[-> B]]]; tfields; destruct qs; all_cmp; lia. }
  clear S G F.
  repeat match type of P with _ \/ _ => destruct P as [P|P] end.
  1-7: match type of P with 0 < ?f (total ?l0) => destruct (field_positive f l0 ltac:(reflexivity) ltac:(reflexivity) P) as (r' & I' & P') end;
    exists r'; split; [exact I'|]; split; [intros ->; cbn in P'; lia|]; intros [[-> _]|[[-> _]|[-> _]]]; cbn in P'; lia.
  - destruct P as [P Q]. destruct (field_positive nWS rs ltac:(reflexivity) ltac:(reflexivity) P) as (r' & I' & P'). exists r'. split; [exact I'|]. split; [intros ->; cbn in P'; lia|].
    intros [[-> X]|[[-> X]|[-> X]]]; cbn in P'; lia.
  - destruct P as [P Q]. destruct (field_positive nWX rs ltac:(reflexivity) ltac:(reflexivity) P) as (r' & I' & P'). exists r'. split; [exact I'|]. split; [intros ->; cbn in P'; lia|].
    intros [[-> X]|[[-> X]|[-> X]]]; cbn in P'; lia.
  - destruct P as [P Q]. destruct (field_positive nWW rs ltac:(reflexivity) ltac:(reflexivity) P) as (r' & I' & P'). exists r'. split; [exact I'|]. split; [intros ->; cbn in P'; lia|].
    intros [[-> X]|[[-> X]|[-> X]]]; cbn in P'; lia.
Qed.

(** C10: no wakeup is lost: while a context is blocked on a semaphore of the
    latch, some context can go on: it is in the middle of a method, or owns a
    latch that it can release, or has been granted the latch it was told to
    wait for. *)
Theorem latch_never_stalls n g i t :
  Z.of_nat n <= 32766 -> latch_reachable n g -> nth_error (threads g) i = Some t -> is_blocked (shared g) t ->
  exists j t', nth_error (threads g) j = Some t' /\ can_go_on (shared g) t'.
Proof.
  intros Hn R E B. destruct t as [c|c m p]; [contradiction|]. destruct B as [B1 B2]. destruct (reached_ok n g Hn R) as (rs & I & T).
  destruct (Forall2_nth_error _ _ _ _ _ T E) as (r & N & T1). cbn [thread_ok] in T1. apply nth_error_split in N as (rs1 & rs2 & -> & _).
  assert (B : latch_blk r (shared g)).
  { destruct (safe_blocked _ _ _ _ _ _ _ _ _ T1 I B2) as [[e X]|[(x & _ & [])|X]]; [now apply B1 in X|exact X]. }
  destruct (active_role _ _ r I ltac:(apply in_elt) B) as (r' & I' & NF & NB). apply In_nth_error in I' as (j & N').
  assert (X : exists t', nth_error (threads g) j = Some t' /\ thread_ok latch_after latch_inv (fun _ => latch_blk) latch_role t' r').
  { clear - T N'. revert j N'. induction T as [|a b l1 l2 Hab _ IH]; intros [|j] N; try discriminate; [|now apply IH]. injection N as <-. now exists a. }
  destruct X as (t' & E' & T'). exists j, t'. split; [exact E'|]. destruct t' as [c'|c' m' p']; cbn [thread_ok can_go_on] in *.
  - subst r'. destruct c' as [|[]|[]]; cbn [latch_role] in *; try exact Logic.I; try contradiction; unfold latch_blk in NB.
    + destruct (Z.lt_ge_cases 0 (m_semS (shared g))); [assumption|]. exfalso. apply NB. left. split; [reflexivity|]. destruct I as [_ (low & qs & hi & G)]. unfold good_fields in G. lia.
    + destruct (Z.lt_ge_cases 0 (m_semX (shared g))); [assumption|]. exfalso. apply NB. right. left. split; [reflexivity|]. destruct I as [_ (low & qs & hi & G)]. unfold good_fields in G. lia.
    + destruct (Z.lt_ge_cases 0 (m_semW (shared g))); [assumption|]. exfalso. apply NB. right. right. split; [reflexivity|]. destruct I as [_ (low & qs & hi & G)]. unfold good_fields in G. lia.
  - destruct (pstep p' (shared g)) as [q|] eqn:P; [right; discriminate|left]. apply nth_error_split in N' as (rs1' & rs2' & Er & _). rewrite Er in I.
    destruct (safe_blocked _ _ _ _ _ _ _ _ _ T' I P) as [X|[(x & _ & [])|X]]; [exact X|contradiction].
Qed.

(** ** Runs *)

(** Context [i] calls [m] and then does [k] steps. *)
Definition calls (i : nat) (m : METHOD) (k : nat) : list (nat * option METHOD) := (i, Some m) :: repeat (i, None) k.

Definition latch_run (n : nat) (choices : list (nat * option METHOD)) : option latch_system :=
  schedule latch_allowed latch_method latch_after (latch_init n) choices.

Lemma latch_run_reachable n choices g : latch_run n choices = Some g -> latch_reachable n g.
Proof. intros E. eapply schedule_reachable; [apply ReachInit|exact E]. Qed.

(** A shared and an exclusive owner. *)
Definition run_shared_exclusive : list (nat * option METHOD) := calls 0 mAcquireSharedLatch 7 ++ calls 1 mAcquireExclusiveLatch 8.

(** The exclusive owner then waits for the write latch. *)
Definition run_writer_waits : list (nat * option METHOD) := run_shared_exclusive ++ calls 1 mUpgradeExclusiveLatchToWriteLatch 16.

(** The shared owner leaves, and the writer comes and goes. *)
Definition run_to_rest : list (nat * option METHOD) :=
  run_writer_waits ++ calls 0 (mReleaseLatch iSharedGroup) 16 ++ repeat (1%nat, None) 6 ++ calls 1 (mReleaseLatch iWriteGroup) 6.

Definition reached (n : nat) (choices : list (nat * option METHOD)) : latch_system :=
  match latch_run n choices with Some g => g | None => latch_init n end.

Lemma reached_reachable n choices : latch_reachable n (reached n choices).
Proof.
  unfold reached. destruct (latch_run n choices) as [g|] eqn:E; [now apply (latch_run_reachable n choices)|apply ReachInit].
Qed.

Lemma latch_excludes_witness :
  nth_error (threads (reached 2 run_shared_exclusive)) 0 = Some (Client (Owns iSharedGroup)) /\
  nth_error (threads (reached 2 run_shared_exclusive)) 1 = Some (Client (Owns iExclusiveGroup)) /\ compatible iSharedGroup iExclusiveGroup = true.
Proof.
  assert (E0 : nth_error (threads (reached 2 run_shared_exclusive)) 0 = Some (Client (Owns iSharedGroup))) by (vm_compute; reflexivity).
  assert (E1 : nth_error (threads (reached 2 run_shared_exclusive)) 1 = Some (Client (Owns iExclusiveGroup))) by (vm_compute; reflexivity).
  split; [exact E0|]. split; [exact E1|].
  exact (latch_excludes 2 _ 0 1 iSharedGroup iExclusiveGroup ltac:(vm_compute; discriminate) (reached_reachable 2 run_shared_exclusive) ltac:(discriminate) E0 E1).
Defined.

Lemma latch_never_crashes_witness :
  nth_error (threads (reached 2 run_writer_waits)) 1 <> Some (Running (Owns iExclusiveGroup) mUpgradeExclusiveLatchToWriteLatch Crash).
Proof. exact (latch_never_crashes 2 _ 1 _ _ ltac:(vm_compute; discriminate) (reached_reachable 2 run_writer_waits)). Defined.

Lemma latch_returns_to_rest_witness : length run_to_rest = 64%nat /\ shared (reached 2 run_to_rest) = latch_new.
Proof.
  split; [reflexivity|]. apply (latch_returns_to_rest 2); [vm_compute; discriminate|apply reached_reachable|vm_compute; repeat constructor].
Defined.

(** The writer is blocked, and the shared owner can go on. *)
Definition is_blockedb (l : LATCH) (t : thread LATCH Z ERR unit CONTEXT METHOD) : bool :=
  match t with
  | Running _ _ (Ret _) => false
  | Running _ _ p => match pstep p l with None => true | Some _ => false end
  | _ => false
  end.

Lemma is_blockedb_ok l t : is_blockedb l t = true -> is_blocked l t.
Proof.
  destruct t as [c|c m p]; [discriminate|]. cbn [is_blocked is_blockedb]. destruct p; try discriminate; intros H; (split; [intros e; discriminate|]); destruct (pstep _ l); congruence.
Qed.

Lemma latch_never_stalls_witness :
  match nth_error (threads (reached 2 run_writer_waits)) 1 with
  | Some t => is_blockedb (shared (reached 2 run_writer_waits)) t = true /\
      exists j t', nth_error (threads (reached 2 run_writer_waits)) j = Some t' /\ can_go_on (shared (reached 2 run_writer_waits)) t'
  | None => False
  end.
Proof.
  assert (B : match nth_error (threads (reached 2 run_writer_waits)) 1 with Some t => is_blockedb (shared (reached 2 run_writer_waits)) t | None => false end = true)
    by (vm_compute; reflexivity).
  destruct (nth_error (threads (reached 2 run_writer_waits)) 1) as [t|] eqn:E; [|discriminate]. split; [exact B|].
  exact (latch_never_stalls 2 (reached 2 run_writer_waits) 1 t ltac:(vm_compute; discriminate) (reached_reachable 2 run_writer_waits) E (is_blockedb_ok _ _ B)).
Defined.
