(* ===== verification/TagFld.v ===== *)
(** * Tagged columns (src/dev/ese/src/inc/tagfld.hxx, src/dev/ese/src/ese/tagfld.cxx)

    The tagged columns of a record are the last part of it: an array of TAGFLD
    entries (column identifier, offset and flags), sorted, followed by the data
    of the columns in the same order.  A column may have a header byte, and may
    hold several values: TWOVALUES and MULTIVALUES are the formats of such a
    column.  The record is a part of a buffer in memory; TAGFIELDS is the cursor
    the code keeps on it.  Pages are small (2 to 8 KB) or large, which decides
    where the flags are; the global page size is the argument [fSmallPage]. *)

From Stdlib Require Import ZArith List Lia Bool.
From S2P Require Import Prelude Mem Norm.
Import ListNotations.

Definition JET_errSuccess : Z := 0.
Definition JET_errRecordTooBig : Z := -1026.
Definition errRECCompressionNotPossible : Z := -419.
Definition JET_errMultiValuedDuplicate : Z := -1525.
Definition JET_errMultiValuedDuplicateAfterTruncation : Z := -1528.
Definition wrnRECUserDefinedDefault : Z := 409.
Definition wrnRECSeparatedLV : Z := 410.
Definition wrnRECIntrinsicLV : Z := 411.
Definition wrnRECCompressed : Z := 417.
Definition JET_wrnColumnNull : Z := 1004.

Definition JET_bitRetrieveIgnoreDefault : Z := 0x20.
Definition JET_bitSetUniqueMultiValues : Z := 0x80.
Definition JET_bitSetUniqueNormalizedMultiValues : Z := 0x100.
Definition JET_bitSetRevertToDefaultValue : Z := 0x200.
Definition grbitSetColumnUseDerivedBit : Z := 0x80000000.
Definition grbitSetColumnSeparated : Z := 0x40000000.
Definition grbitSetColumnCompressed : Z := 0x20000000.
Definition grbitSetColumnEncrypted : Z := 0x10000000.

Definition ffieldDefault : Z := 0x0010.
Definition ffieldUserDefinedDefault : Z := 0x0080.

(** What is used of the definition of a column. *)
Record FIELD := Field { coltyp : JET_COLTYP; cbMaxLen : Z; ffield : Z; ibRecordOffset : Z; cp : Z }.

Definition FFIELDDefault (ff : Z) : bool := fbit ff ffieldDefault.
Definition FFIELDUserDefinedDefault (ff : Z) : bool := fbit ff ffieldUserDefinedDefault.

Definition FRECLongValue (c : JET_COLTYP) : bool := match c with coltypLongText | coltypLongBinary => true | _ => false end.

(** A reference to data in memory; the size is an unsigned 32-bit number. *)
Record DATA := Data { pv : Z; cb : Z }.

Definition sizeof_TAGFLD : Z := 4.
Definition sizeof_TAGFLD_HEADER : Z := 1.
Definition sizeof_MVOFFSET : Z := 2.
Definition sizeof_TVLENGTH : Z := 1.

(** [FID::FTagged]. *)
Definition FTagged (fid : Z) : bool := (256 <=? fid) && (fid <=? 0xfee0).

(** ** Long value identifiers *)

Definition lidMin : Z := 0.
Definition lid64Flag : Z := 0x8000000000000000.

Definition FIsLid64 (lid : Z) : bool := fbit lid lid64Flag.
Definition LvId_Cb (lid : Z) : Z := if FIsLid64 lid then 8 else 4.

Definition LidOfSeparatedLV (m : mem) (pbData cbData : Z) : Z :=
  if cbData =? 8 then load64 m pbData else if cbData =? 4 then load32 m pbData else lidMin.

(** ** TAGFLD_HEADER *)

Module TAGFLD_HEADER.
Definition fLongValue : Z := 0x01.
Definition fCompressed : Z := 0x02.
Definition fSeparated : Z := 0x04.
Definition fMultiValues : Z := 0x08.
Definition fTwoValues : Z := 0x10.
Definition fNull : Z := 0x20.
Definition fEncrypted : Z := 0x40.
Definition maskFlags : Z := 0x7f.

Definition FLongValue (b : Z) : bool := fbit b fLongValue.
Definition FCompressed (b : Z) : bool := fbit b fCompressed.
Definition FSeparated (b : Z) : bool := fbit b fSeparated.
Definition FMultiValues (b : Z) : bool := fbit b fMultiValues.
Definition FTwoValues (b : Z) : bool := fbit b fTwoValues.
Definition FNull (b : Z) : bool := fbit b fNull.
Definition FEncrypted (b : Z) : bool := fbit b fEncrypted.
Definition FColumnCanBeSeparated (b : Z) : bool := fbit b fLongValue.

(** Setting and resetting a flag. *)
Definition Set_ (f b : Z) : Z := Z.lor b f.
Definition Reset_ (f b : Z) : Z := Z.ldiff b f.
Definition Assign_ (v : bool) (f b : Z) : Z := if v then Set_ f b else Reset_ f b.

(** [ErrRetrievalResult] and [ErrMultiValueRetrievalResult]. *)
Definition ErrRetrievalResult (b : Z) : Z :=
  if FLongValue b then if FSeparated b then wrnRECSeparatedLV else if FCompressed b then wrnRECCompressed else wrnRECIntrinsicLV
  else JET_errSuccess.

Definition ErrMultiValueRetrievalResult (b : Z) (fCompressedLV fSeparatedLV : bool) : Z :=
  if FLongValue b then if fSeparatedLV then wrnRECSeparatedLV else if fCompressedLV then wrnRECCompressed else wrnRECIntrinsicLV
  else JET_errSuccess.
End TAGFLD_HEADER.

(** ** Moving data *)

(** [RECCopyData] on a little-endian host, and [UtilMemCpy] of data from
    outside the record. *)
Definition RECCopyData (m : mem) (pbDest : Z) (data : list Z) : mem := store_bytes m pbDest data.

Definition Cb (data : list Z) : Z := Z.of_nat (length data).

Definition DeleteEntryAndData (m : mem) (pbEntry cbEntry pbData cbData pbMax : Z) : mem :=
  let pbNextEntry := pbEntry + cbEntry in
  let m := memmove m pbEntry pbNextEntry (pbMax - pbNextEntry) in
  if cbData =? 0 then m
  else
    let pbMaxNew := pbMax - cbEntry in
    let pbDataNew := pbData - cbEntry in
    let pbNextData := pbData + cbData - cbEntry in
    memmove m pbDataNew pbNextData (pbMaxNew - pbNextData).

(** ** TWOVALUES *)

Record TWOVALUES := Twovalues { tv_pheader : Z; CbFirstValue : Z; CbSecondValue : Z }.

Definition tv_PcbFirstValue (tv : TWOVALUES) : Z := tv_pheader tv + 1.
Definition tv_PbData (tv : TWOVALUES) : Z := tv_pheader tv + sizeof_TAGFLD_HEADER + sizeof_TVLENGTH.

Definition TWOVALUES_new (m : mem) (pbTwoValues cbTwoValues : Z) : TWOVALUES :=
  let cbFirst := load8 m (pbTwoValues + 1) in
  Twovalues pbTwoValues cbFirst (u8 (cbTwoValues - (sizeof_TAGFLD_HEADER + sizeof_TVLENGTH + cbFirst))).

Definition TWOVALUES_RetrieveInstance (tv : TWOVALUES) (itagSequence : Z) : DATA :=
  if itagSequence =? 1 then Data (tv_PbData tv) (CbFirstValue tv) else Data (tv_PbData tv + CbFirstValue tv) (CbSecondValue tv).

Definition TWOVALUES_UpdateInstance (m : mem) (tv : TWOVALUES) (itagSequence : Z) (dataToSet : list Z) : mem :=
  if itagSequence =? 1 then
    let m := memmove m (tv_PbData tv + Cb dataToSet) (tv_PbData tv + CbFirstValue tv) (CbSecondValue tv) in
    let m := RECCopyData m (tv_PbData tv) dataToSet in
    store8 m (tv_PcbFirstValue tv) (u8 (Cb dataToSet))
  else RECCopyData m (tv_PbData tv + CbFirstValue tv) dataToSet.

(** ** MULTIVALUES *)

Definition fSeparatedInstance : Z := 0x8000.
Definition mv_maskFlags : Z := 0x8000.
Definition mv_maskIb : Z := 0x7fff.

Record MULTIVALUES := Multivalues { mv_pheader : Z; CbMultiValues : Z; CMultiValues : Z }.

Definition mv_rgmvoffs (mv : MULTIVALUES) : Z := mv_pheader mv + sizeof_TAGFLD_HEADER.
Definition mv_pmvoffs (mv : MULTIVALUES) (imv : Z) : Z := mv_rgmvoffs mv + sizeof_MVOFFSET * imv.
Definition mv_PbMax (mv : MULTIVALUES) : Z := mv_rgmvoffs mv + CbMultiValues mv.

Definition mv_Ib (m : mem) (mv : MULTIVALUES) (imv : Z) : Z := Z.land (load16 m (mv_pmvoffs mv imv)) mv_maskIb.

Definition mv_SetIb (m : mem) (mv : MULTIVALUES) (imv ib : Z) : mem :=
  store16 m (mv_pmvoffs mv imv) (Z.lor (Z.land (load16 m (mv_pmvoffs mv imv)) mv_maskFlags) (Z.land ib mv_maskIb)).

Definition mv_DeltaIb (m : mem) (mv : MULTIVALUES) (imv delta : Z) : mem := mv_SetIb m mv imv (u16 (mv_Ib m mv imv + delta)).

Definition mv_PbData (m : mem) (mv : MULTIVALUES) (imv : Z) : Z := mv_rgmvoffs mv + mv_Ib m mv imv.
Definition mv_PbStartOfMVData (m : mem) (mv : MULTIVALUES) : Z := mv_rgmvoffs mv + mv_Ib m mv 0.

Definition mv_CbData (m : mem) (mv : MULTIVALUES) (imv : Z) : Z :=
  let ibEnd := if imv <? CMultiValues mv - 1 then mv_Ib m mv (imv + 1) else CbMultiValues mv in
  u32 (ibEnd - mv_Ib m mv imv).

Definition mv_FSeparatedInstance (m : mem) (mv : MULTIVALUES) (imv : Z) : bool := fbit (load16 m (mv_pmvoffs mv imv)) fSeparatedInstance.
Definition mv_SetFSeparatedInstance (m : mem) (mv : MULTIVALUES) (imv : Z) : mem :=
  store16 m (mv_pmvoffs mv imv) (Z.lor (load16 m (mv_pmvoffs mv imv)) fSeparatedInstance).
Definition mv_ResetFSeparatedInstance (m : mem) (mv : MULTIVALUES) (imv : Z) : mem :=
  store16 m (mv_pmvoffs mv imv) (Z.ldiff (load16 m (mv_pmvoffs mv imv)) fSeparatedInstance).

Definition MULTIVALUES_new (m : mem) (pbMultiValues cbMultiValues : Z) : MULTIVALUES :=
  let mv := Multivalues pbMultiValues (u32 (cbMultiValues - sizeof_TAGFLD_HEADER)) 0 in
  Multivalues pbMultiValues (CbMultiValues mv) (mv_Ib m mv 0 / sizeof_MVOFFSET).

(** The loops that fix up offsets: [DeltaIb] of [n] entries from [imv] on. *)
Fixpoint mv_delta_loop (n : nat) (m : mem) (mv : MULTIVALUES) (imv delta : Z) : mem :=
  match n with
  | O => m
  | S n => mv_delta_loop n (mv_DeltaIb m mv imv delta) mv (imv + 1) delta
  end.

Definition ErrRetrieveInstance (m : mem) (mv : MULTIVALUES) (itagSequence : Z) : Z * DATA :=
  let imvRetrieve := itagSequence - 1 in
  let b := load8 m (mv_pheader mv) in
  (TAGFLD_HEADER.ErrMultiValueRetrievalResult b (TAGFLD_HEADER.FCompressed b && (0 =? imvRetrieve)) (mv_FSeparatedInstance m mv imvRetrieve),
   Data (mv_PbData m mv imvRetrieve) (mv_CbData m mv imvRetrieve)).

Definition AddInstance (m : mem) (mv : MULTIVALUES) (dataToSet : list Z) (fSeparatedLV : bool) : mem * MULTIVALUES :=
  let imvAdd := CMultiValues mv in
  let pbMaxCurr := mv_PbMax mv in
  let pbStart := mv_PbStartOfMVData m mv in
  let m := memmove m (pbStart + sizeof_MVOFFSET) pbStart (pbMaxCurr - pbStart) in
  let m := mv_delta_loop (Z.to_nat (CMultiValues mv)) m mv 0 sizeof_MVOFFSET in
  let m := store16 m (mv_pmvoffs mv imvAdd) (u16 (sizeof_MVOFFSET + CbMultiValues mv)) in
  let m :=
    if fSeparatedLV then store_bytes (mv_SetFSeparatedInstance m mv imvAdd) (pbMaxCurr + sizeof_MVOFFSET) dataToSet
    else RECCopyData m (pbMaxCurr + sizeof_MVOFFSET) dataToSet in
  (m, Multivalues (mv_pheader mv) (u32 (CbMultiValues mv + (sizeof_MVOFFSET + Cb dataToSet))) (CMultiValues mv + 1)).

Definition RemoveInstance (m : mem) (mv : MULTIVALUES) (itagSequence : Z) : mem * MULTIVALUES :=
  let imvDelete := itagSequence - 1 in
  let cbDataDelete := mv_CbData m mv imvDelete in
  let m := DeleteEntryAndData m (mv_pmvoffs mv imvDelete) sizeof_MVOFFSET
             (if 0 <? cbDataDelete then mv_PbData m mv imvDelete else 0) cbDataDelete (mv_PbMax mv) in
  let mv := Multivalues (mv_pheader mv) (u32 (CbMultiValues mv - (sizeof_MVOFFSET + cbDataDelete))) (CMultiValues mv - 1) in
  let m := mv_delta_loop (Z.to_nat imvDelete) m mv 0 (- sizeof_MVOFFSET) in
  let m := mv_delta_loop (Z.to_nat (CMultiValues mv - imvDelete)) m mv imvDelete (s16 (- s16 (sizeof_MVOFFSET + cbDataDelete))) in
  let m := if 0 =? imvDelete then store8 m (mv_pheader mv) (TAGFLD_HEADER.Reset_ TAGFLD_HEADER.fCompressed (load8 m (mv_pheader mv))) else m in
  (m, mv).

Definition MULTIVALUES_UpdateInstance (m : mem) (mv : MULTIVALUES) (itagSequence : Z) (dataToSet : list Z) (fSeparatedLV fCompressedLV : bool)
    : mem * MULTIVALUES :=
  let imvReplace := itagSequence - 1 in
  let pbDataReplace := mv_PbData m mv imvReplace in
  let cbDataReplace := mv_CbData m mv imvReplace in
  let delta := s32 (Cb dataToSet - cbDataReplace) in
  let pbDataNext := pbDataReplace + cbDataReplace in
  let m :=
    if delta =? 0 then m
    else
      let m := memmove m (pbDataReplace + Cb dataToSet) pbDataNext (mv_PbMax mv - pbDataNext) in
      mv_delta_loop (Z.to_nat (CMultiValues mv - (imvReplace + 1))) m mv (imvReplace + 1) (s16 delta) in
  let mv' := Multivalues (mv_pheader mv) (u32 (CbMultiValues mv + delta)) (CMultiValues mv) in
  let m :=
    if 0 =? imvReplace then store8 m (mv_pheader mv) (TAGFLD_HEADER.Assign_ fCompressedLV TAGFLD_HEADER.fCompressed (load8 m (mv_pheader mv)))
    else m in
  let m :=
    if fSeparatedLV then store_bytes (mv_SetFSeparatedInstance m mv imvReplace) pbDataReplace dataToSet
    else RECCopyData (mv_ResetFSeparatedInstance m mv imvReplace) pbDataReplace dataToSet in
  (m, mv').

(** ** TAGFIELDS *)

(** The members of TAGFIELDS, the memory they point into, and the size of the
    record, [pfucb->dataWorkBuf.Cb()]. *)
Record TAGFIELDS := Tagfields { tf_m : mem; m_rgtagfld : Z; CbTaggedColumns : Z; CTaggedColumns : Z; dataWorkBuf_Cb : Z }.

Definition with_mem (t : TAGFIELDS) (m : mem) : TAGFIELDS :=
  Tagfields m (m_rgtagfld t) (CbTaggedColumns t) (CTaggedColumns t) (dataWorkBuf_Cb t).
Definition with_size (t : TAGFIELDS) (cbTagged cTagged : Z) : TAGFIELDS :=
  Tagfields (tf_m t) (m_rgtagfld t) cbTagged cTagged (dataWorkBuf_Cb t).
Definition DeltaCb (t : TAGFIELDS) (delta : Z) : TAGFIELDS :=
  Tagfields (tf_m t) (m_rgtagfld t) (CbTaggedColumns t) (CTaggedColumns t) (dataWorkBuf_Cb t + delta).

(** An entry: two 16-bit words. *)
Record TAGFLD := Tagfld { Fid : Z; m_ib : Z }.

Definition fDerived : Z := 0x8000.
Definition fNullSmallPage : Z := 0x2000.

Definition FDerived (f : TAGFLD) : bool := fbit (m_ib f) fDerived.

(** [TAGFLD::TAGFLD]. *)
Definition TAGFLD_new (fid : Z) (fDerivedColumn : bool) : TAGFLD := Tagfld fid (if fDerivedColumn then Z.lor 0 fDerived else 0).

Definition FIsEqual (f : TAGFLD) (fid : Z) (fd : bool) : bool :=
  (Fid f =? fid) && ((FDerived f && fd) || (negb (FDerived f) && negb fd)).
Definition FIsLessThan (f : TAGFLD) (fid : Z) (fd : bool) : bool :=
  if FDerived f then (if fd then Fid f <? fid else true) else (if fd then false else Fid f <? fid).
Definition FIsGreaterThan (f : TAGFLD) (fid : Z) (fd : bool) : bool :=
  if FDerived f then (if fd then fid <? Fid f else false) else (if fd then true else fid <? Fid f).

(** The three versions of the comparison the search uses. *)
Definition CmpTagfldSlow (f1 f2 : TAGFLD) : bool :=
  if FDerived f1 then (if FDerived f2 then Fid f1 <? Fid f2 else true) else (if FDerived f2 then false else Fid f1 <? Fid f2).

Definition CmpTagfld1 (f1 f2 : TAGFLD) : bool :=
  let dw f := u32 (Z.lor (Z.shiftl (Z.lnot (Z.land (m_ib f) fDerived)) 16) (Fid f)) in
  dw f1 <? dw f2.

Definition CmpTagfld2 (f1 f2 : TAGFLD) : bool :=
  let dwFlipDerived := u32 (Z.shiftl fDerived 16) in
  let dwMask := Z.lor dwFlipDerived (Z.shiftl 1 16 - 1) in
  let dw f := Fid f + 65536 * m_ib f in
  Z.lxor dwFlipDerived (Z.land dwMask (dw f1)) <? Z.lxor dwFlipDerived (Z.land dwMask (dw f2)).

Section TagFields.
Context `{Loc : NormLocale}.
Variable fSmallPage : bool.

(** [InitStaticMembersWithPageSize]. *)
Definition fExtendedInfo : Z := if fSmallPage then 0x4000 else 0x0000.
Definition maskIb : Z := if fSmallPage then 0x1fff else 0x7fff.

Definition cbTagHeaderDefault : Z := if fSmallPage then 0 else sizeof_TAGFLD_HEADER.

(** The header byte of a new column ([TAGFLD_HEADER::TAGFLD_HEADER]). *)
Definition TAGFLD_HEADER_new (c : JET_COLTYP) (fSeparatedLV fNullVal fCompressedLV fEncryptedLV : bool) : Z :=
  let b := 0 in
  let b := if FRECLongValue c then Z.lor b TAGFLD_HEADER.fLongValue else b in
  let b := if fSeparatedLV then Z.lor b TAGFLD_HEADER.fSeparated else b in
  let b := if fCompressedLV then Z.lor b TAGFLD_HEADER.fCompressed else b in
  let b := if fEncryptedLV then Z.lor b TAGFLD_HEADER.fEncrypted else b in
  if fNullVal && negb fSmallPage then Z.lor b TAGFLD_HEADER.fNull else b.

Definition FNeedExtendedInfo (b : Z) : bool := negb fSmallPage || negb (b =? 0).

Definition FExtendedInfo (f : TAGFLD) : bool := (fExtendedInfo =? 0) || fbit (m_ib f) fExtendedInfo.
Definition Ib (f : TAGFLD) : Z := Z.land (m_ib f) maskIb.

Definition SetIb (w ib : Z) : Z := Z.lor (Z.ldiff w maskIb) (Z.land ib maskIb).

(** ** Entries in memory *)

Definition pb_tagfld (t : TAGFIELDS) (itagfld : Z) : Z := m_rgtagfld t + sizeof_TAGFLD * itagfld.
Definition Ptagfld (t : TAGFIELDS) (itagfld : Z) : TAGFLD :=
  Tagfld (load16 (tf_m t) (pb_tagfld t itagfld)) (load16 (tf_m t) (pb_tagfld t itagfld + 2)).

(** Changing the second word of an entry. *)
Definition set_m_ib (t : TAGFIELDS) (itagfld w : Z) : TAGFIELDS := with_mem t (store16 (tf_m t) (pb_tagfld t itagfld + 2) w).

Definition DeltaIb (t : TAGFIELDS) (itagfld delta : Z) : TAGFIELDS :=
  let f := Ptagfld t itagfld in set_m_ib t itagfld (SetIb (m_ib f) (u16 (Ib f + delta))).

Definition SetFExtendedInfo (t : TAGFIELDS) (itagfld : Z) : TAGFIELDS :=
  set_m_ib t itagfld (Z.lor (m_ib (Ptagfld t itagfld)) fExtendedInfo).
Definition ResetFExtendedInfo (t : TAGFIELDS) (itagfld : Z) : TAGFIELDS :=
  set_m_ib t itagfld (Z.ldiff (m_ib (Ptagfld t itagfld)) fExtendedInfo).

Definition PbData (t : TAGFIELDS) (itagfld : Z) : Z := m_rgtagfld t + Ib (Ptagfld t itagfld).

Definition CbData (t : TAGFIELDS) (itagfld : Z) : Z :=
  let ibEnd := if itagfld <? CTaggedColumns t - 1 then Ib (Ptagfld t (itagfld + 1)) else CbTaggedColumns t in
  u32 (ibEnd - Ib (Ptagfld t itagfld)).

Definition PbMax (t : TAGFIELDS) : Z := m_rgtagfld t + CbTaggedColumns t.
Definition IbStartOfTaggedData (t : TAGFIELDS) : Z := Ib (Ptagfld t 0).

(** [Pheader]: the address of the header byte, if the column has one. *)
Definition Pheader (t : TAGFIELDS) (itagfld : Z) : option Z :=
  if FExtendedInfo (Ptagfld t itagfld) then Some (PbData t itagfld) else None.

Definition header (t : TAGFIELDS) (pheader : Z) : Z := load8 (tf_m t) pheader.
Definition set_header (t : TAGFIELDS) (pheader b : Z) : TAGFIELDS := with_mem t (store8 (tf_m t) pheader b).

(** [TAGFLD::FNull] and its setters. *)
Definition FNull (t : TAGFIELDS) (itagfld : Z) : bool :=
  if fSmallPage then fbit (m_ib (Ptagfld t itagfld)) fNullSmallPage
  else TAGFLD_HEADER.FNull (header t (PbData t itagfld)).

Definition SetFNull (t : TAGFIELDS) (itagfld : Z) : TAGFIELDS :=
  if fSmallPage then set_m_ib t itagfld (Z.lor (m_ib (Ptagfld t itagfld)) fNullSmallPage)
  else set_header t (PbData t itagfld) (TAGFLD_HEADER.Set_ TAGFLD_HEADER.fNull (header t (PbData t itagfld))).

Definition ResetFNull (t : TAGFIELDS) (itagfld : Z) : TAGFIELDS :=
  if fSmallPage then set_m_ib t itagfld (Z.ldiff (m_ib (Ptagfld t itagfld)) fNullSmallPage)
  else set_header t (PbData t itagfld) (TAGFLD_HEADER.Reset_ TAGFLD_HEADER.fNull (header t (PbData t itagfld))).

(** The loops that fix up offsets: [DeltaIb] of [n] entries from [itagfld] on. *)
Fixpoint delta_loop (n : nat) (t : TAGFIELDS) (itagfld delta : Z) : TAGFIELDS :=
  match n with
  | O => t
  | S n => delta_loop n (DeltaIb t itagfld delta) (itagfld + 1) delta
  end.

(** ** Searching *)

(** [PtagfldLowerBound]: [fuel] turns of the loop at most. *)
Fixpoint lower_bound (fuel : nat) (t : TAGFIELDS) (tagfldFind : TAGFLD) (itagfld cfldSeparation : Z) : Z :=
  match fuel with
  | O => itagfld
  | S fuel =>
      if 0 <? cfldSeparation then
        let cfldHalf := cfldSeparation / 2 in
        let itagfldMid := itagfld + cfldHalf in
        if CmpTagfld2 (Ptagfld t itagfldMid) tagfldFind
        then lower_bound fuel t tagfldFind (itagfldMid + 1) (cfldSeparation - (cfldHalf + 1))
        else lower_bound fuel t tagfldFind itagfld cfldHalf
      else itagfld
  end.

Definition ItagfldFind (t : TAGFIELDS) (tagfldFind : TAGFLD) : Z :=
  lower_bound (Z.to_nat (CTaggedColumns t)) t tagfldFind 0 (CTaggedColumns t).

(** ** Updates of the array *)

(** Makes room for an entry and [cbDataToInsert] bytes of data; also returns the
    offset of the data. *)
Definition make_room (t : TAGFIELDS) (itagfldInsert cbDataToInsert : Z) : TAGFIELDS * Z :=
  if itagfldInsert <? CTaggedColumns t then
    let ibMoveDataFrom := Ib (Ptagfld t itagfldInsert) in
    let pbMoveFrom := PbData t itagfldInsert in
    let t := with_mem t (memmove (tf_m t) (pbMoveFrom + sizeof_TAGFLD + cbDataToInsert) pbMoveFrom (PbMax t - pbMoveFrom)) in
    let pbMoveFrom := pb_tagfld t itagfldInsert in
    let t := with_mem t (memmove (tf_m t) (pbMoveFrom + sizeof_TAGFLD) pbMoveFrom (ibMoveDataFrom - itagfldInsert * sizeof_TAGFLD)) in
    (t, sizeof_TAGFLD + ibMoveDataFrom)
  else if 0 <? CTaggedColumns t then
    let pbMoveFrom := m_rgtagfld t + IbStartOfTaggedData t in
    (with_mem t (memmove (tf_m t) (pbMoveFrom + sizeof_TAGFLD) pbMoveFrom (CbTaggedColumns t - IbStartOfTaggedData t)), sizeof_TAGFLD + CbTaggedColumns t)
  else (t, sizeof_TAGFLD).

(** Stores the header byte [b], where there is one, and the data. *)
Definition insert_data (t : TAGFIELDS) (pbInsert : Z) (fExtended : bool) (cbDataToInsert : Z) (pdataToInsert : option (list Z)) (b : Z) : TAGFIELDS :=
  if 0 <? cbDataToInsert then
    let '(t, pbInsert) := if fExtended then (set_header t pbInsert b, pbInsert + sizeof_TAGFLD_HEADER) else (t, pbInsert) in
    if (if fExtended then sizeof_TAGFLD_HEADER else 0) <? cbDataToInsert
    then match pdataToInsert with Some d => with_mem t (RECCopyData (tf_m t) pbInsert d) | None => t end
    else t
  else t.

(** [tagfldInsert] comes in the format of small pages: its null flag is read
    before its offset is set.  [None] stands for a null [pdataToInsert]. *)
Definition InsertTagfld (t : TAGFIELDS) (itagfldInsert : Z) (tagfldInsert : TAGFLD) (pdataToInsert : option (list Z)) (c : JET_COLTYP)
    (fSeparatedLV fCompressedLV fEncryptedLV : bool) : TAGFIELDS :=
  let cbDataToInsert := match pdataToInsert with Some d => Cb d | None => 0 end + (if FExtendedInfo tagfldInsert then sizeof_TAGFLD_HEADER else 0) in
  let '(t, ibTagFld) := make_room t itagfldInsert cbDataToInsert in
  let fNullVal := fbit (m_ib tagfldInsert) fNullSmallPage in
  let tagfldInsert := Tagfld (Fid tagfldInsert) (SetIb (m_ib tagfldInsert) (u16 ibTagFld)) in
  let t := with_size t (u32 (CbTaggedColumns t + (sizeof_TAGFLD + cbDataToInsert))) (CTaggedColumns t + 1) in
  let t := insert_data t (m_rgtagfld t + Ib tagfldInsert) (FExtendedInfo tagfldInsert) cbDataToInsert pdataToInsert
             (TAGFLD_HEADER_new c fSeparatedLV fNullVal fCompressedLV fEncryptedLV) in
  let t := with_mem t (store16 (store16 (tf_m t) (pb_tagfld t itagfldInsert) (Fid tagfldInsert)) (pb_tagfld t itagfldInsert + 2) (m_ib tagfldInsert)) in
  let t := delta_loop (Z.to_nat itagfldInsert) t 0 sizeof_TAGFLD in
  delta_loop (Z.to_nat (CTaggedColumns t - (itagfldInsert + 1))) t (itagfldInsert + 1) (s16 (sizeof_TAGFLD + cbDataToInsert)).

Definition ResizeTagfld (t : TAGFIELDS) (itagfldResize delta : Z) : TAGFIELDS :=
  let t :=
    if itagfldResize <? CTaggedColumns t - 1 then
      let pbMoveFrom := PbData t (itagfldResize + 1) in
      with_mem t (memmove (tf_m t) (pbMoveFrom + delta) pbMoveFrom (CbTaggedColumns t - Ib (Ptagfld t (itagfldResize + 1))))
    else t in
  let t := with_size t (u32 (CbTaggedColumns t + delta)) (CTaggedColumns t) in
  delta_loop (Z.to_nat (CTaggedColumns t - (itagfldResize + 1))) t (itagfldResize + 1) (s16 delta).

Definition ReplaceTagfldData (t : TAGFIELDS) (itagfldReplace : Z) (dataNew : list Z) (c : JET_COLTYP)
    (fSeparatedLV fCompressedLV fEncryptedLV : bool) : TAGFIELDS :=
  let pheader := Pheader t itagfldReplace in
  let pbData := PbData t itagfldReplace in
  let t := ResetFNull t itagfldReplace in
  let '(t, pbData) :=
    match pheader with
    | Some p =>
        let b := header t p in
        let b := TAGFLD_HEADER.Assign_ fCompressedLV TAGFLD_HEADER.fCompressed b in
        let b := TAGFLD_HEADER.Assign_ fEncryptedLV TAGFLD_HEADER.fEncrypted b in
        let b := TAGFLD_HEADER.Assign_ fSeparatedLV TAGFLD_HEADER.fSeparated b in
        (set_header t p b, pbData + sizeof_TAGFLD_HEADER)
    | None =>
        if FRECLongValue c then
          let t := set_header t pbData (TAGFLD_HEADER_new c fSeparatedLV false fCompressedLV fEncryptedLV) in
          (SetFExtendedInfo t itagfldReplace, pbData + sizeof_TAGFLD_HEADER)
        else (t, pbData)
    end in
  with_mem t (RECCopyData (tf_m t) pbData dataNew).

Definition DeleteTagfld (t : TAGFIELDS) (itagfldDelete : Z) : TAGFIELDS :=
  let cbDataDelete := CbData t itagfldDelete in
  let m := DeleteEntryAndData (tf_m t) (pb_tagfld t itagfldDelete) sizeof_TAGFLD
             (if 0 <? cbDataDelete then PbData t itagfldDelete else 0) cbDataDelete (PbMax t) in
  let t := with_size (with_mem t m) (u32 (CbTaggedColumns t - (sizeof_TAGFLD + cbDataDelete))) (CTaggedColumns t - 1) in
  let t := delta_loop (Z.to_nat itagfldDelete) t 0 (- sizeof_TAGFLD) in
  delta_loop (Z.to_nat (CTaggedColumns t - itagfldDelete)) t itagfldDelete (s16 (- s16 (sizeof_TAGFLD + cbDataDelete))).

(** ** Several values *)

Definition ConvertTwoValuesToMultiValues (t : TAGFIELDS) (tv : TWOVALUES) (dataToSet : list Z) : TAGFIELDS :=
  let pheader := tv_pheader tv in
  let m := memmove (tf_m t) (tv_PbData tv + 3 * sizeof_MVOFFSET - sizeof_TVLENGTH) (tv_PbData tv) (CbFirstValue tv + CbSecondValue tv) in
  let rgmvoffs := tv_PcbFirstValue tv in
  let o0 := 3 * sizeof_MVOFFSET in
  let o1 := u16 (o0 + CbFirstValue tv) in
  let o2 := u16 (o1 + CbSecondValue tv) in
  let m := store16 (store16 (store16 m rgmvoffs o0) (rgmvoffs + 2) o1) (rgmvoffs + 4) o2 in
  let m := RECCopyData m (rgmvoffs + o2) dataToSet in
  with_mem t (store8 m pheader (TAGFLD_HEADER.Reset_ TAGFLD_HEADER.fTwoValues (load8 m pheader))).

Definition ConvertToTwoValues (t : TAGFIELDS) (itagfld : Z) (dataToSet : list Z) (c : JET_COLTYP) : TAGFIELDS :=
  let pbData := PbData t itagfld in
  let cbDataCurr := CbData t itagfld in
  let t := ResizeTagfld t itagfld (sizeof_TAGFLD_HEADER + sizeof_TVLENGTH + Cb dataToSet) in
  let m := memmove (tf_m t) (pbData + sizeof_TAGFLD_HEADER + sizeof_TVLENGTH) pbData cbDataCurr in
  let pcbFirstValue := pbData + sizeof_TAGFLD_HEADER in
  let b := TAGFLD_HEADER_new c false false false false in
  let b := TAGFLD_HEADER.Set_ TAGFLD_HEADER.fMultiValues b in
  let b := TAGFLD_HEADER.Set_ TAGFLD_HEADER.fTwoValues b in
  let m := store8 m pbData b in
  let m := store8 m pcbFirstValue (u8 cbDataCurr) in
  with_mem t (RECCopyData m (pcbFirstValue + sizeof_TVLENGTH + cbDataCurr) dataToSet).

Definition ConvertToMultiValues (t : TAGFIELDS) (itagfld : Z) (dataToSet : list Z) (fDataToSetIsSeparated : bool) : TAGFIELDS :=
  let pbData := PbData t itagfld in
  let cbDataCurr := CbData t itagfld in
  let cbDataCurrWithoutHeader := cbDataCurr - sizeof_TAGFLD_HEADER in
  let b := header t pbData in
  let fDataCurrIsSeparated := TAGFLD_HEADER.FSeparated b in
  let t := set_header t pbData (TAGFLD_HEADER.Set_ TAGFLD_HEADER.fMultiValues (TAGFLD_HEADER.Reset_ TAGFLD_HEADER.fSeparated b)) in
  let t := ResizeTagfld t itagfld (2 * sizeof_MVOFFSET + Cb dataToSet) in
  let rgmvoffs := pbData + sizeof_TAGFLD_HEADER in
  let m := memmove (tf_m t) (rgmvoffs + 2 * sizeof_MVOFFSET) rgmvoffs cbDataCurrWithoutHeader in
  let o0 := 2 * sizeof_MVOFFSET in
  let o1 := u16 (2 * sizeof_MVOFFSET + cbDataCurrWithoutHeader) in
  let m := store16 (store16 m rgmvoffs o0) (rgmvoffs + 2) o1 in
  let m := store_bytes m (rgmvoffs + o1) dataToSet in
  let m := if fDataCurrIsSeparated then store16 m rgmvoffs (Z.lor (load16 m rgmvoffs) fSeparatedInstance) else m in
  let m := if fDataToSetIsSeparated then store16 m (rgmvoffs + 2) (Z.lor (load16 m (rgmvoffs + 2)) fSeparatedInstance) else m in
  with_mem t m.

Definition CbConvertTwoValuesToSingleValue (t : TAGFIELDS) (itagfld itagSequence : Z) : TAGFIELDS * Z :=
  if (1 =? itagSequence) || (2 =? itagSequence) then
    let pbDataCurr := PbData t itagfld in
    let cbDataCurr := CbData t itagfld in
    let tv := TWOVALUES_new (tf_m t) pbDataCurr cbDataCurr in
    let '(pbDataRemaining, cbDataRemaining) :=
      if 1 =? itagSequence then (tv_PbData tv + CbFirstValue tv, CbSecondValue tv) else (tv_PbData tv, CbFirstValue tv) in
    let cbShrink := u32 (cbDataCurr - cbDataRemaining) in
    let t := with_mem t (memmove (tf_m t) pbDataCurr pbDataRemaining cbDataRemaining) in
    let t :=
      if itagfld <? CTaggedColumns t - 1 then
        let pbDataNextColumn := PbData t (itagfld + 1) in
        with_mem t (memmove (tf_m t) (pbDataCurr + cbDataRemaining) pbDataNextColumn (PbMax t - pbDataNextColumn))
      else t in
    let t := ResetFExtendedInfo t itagfld in
    let t := delta_loop (Z.to_nat (CTaggedColumns t - (itagfld + 1))) t (itagfld + 1) (s16 (- s16 cbShrink)) in
    (with_size t (u32 (CbTaggedColumns t - cbShrink)) (CTaggedColumns t), cbShrink)
  else (t, 0).

Definition CbDeleteMultiValue (t : TAGFIELDS) (itagfld itagSequence : Z) : TAGFIELDS * Z :=
  let mv := MULTIVALUES_new (tf_m t) (PbData t itagfld) (CbData t itagfld) in
  if (0 <? itagSequence) && (itagSequence <=? CMultiValues mv) then
    let pheader := mv_pheader mv in
    let '(t, cbDataRemaining) :=
      if 2 <? CMultiValues mv then
        let '(m, mv) := RemoveInstance (tf_m t) mv itagSequence in
        (with_mem t m, sizeof_TAGFLD_HEADER + CbMultiValues mv)
      else
        let imvRemaining := 2 - itagSequence in
        let fSeparated := mv_FSeparatedInstance (tf_m t) mv imvRemaining in
        let pbMoveFrom := mv_PbData (tf_m t) mv imvRemaining in
        let cbMove := mv_CbData (tf_m t) mv imvRemaining in
        let t := set_header t pheader (TAGFLD_HEADER.Reset_ TAGFLD_HEADER.fMultiValues (header t pheader)) in
        let '(t, pbMoveTo, cbDataRemaining) :=
          if FNeedExtendedInfo (header t pheader) then
            let t := if 1 =? itagSequence then set_header t pheader (TAGFLD_HEADER.Reset_ TAGFLD_HEADER.fCompressed (header t pheader)) else t in
            let t := set_header t pheader (TAGFLD_HEADER.Assign_ fSeparated TAGFLD_HEADER.fSeparated (header t pheader)) in
            (t, pheader + sizeof_TAGFLD_HEADER, cbMove + 1)
          else (ResetFExtendedInfo t itagfld, pheader, cbMove) in
        (with_mem t (memmove (tf_m t) pbMoveTo pbMoveFrom cbMove), cbDataRemaining) in
    let cbShrink := u32 (CbData t itagfld - cbDataRemaining) in
    let t :=
      if itagfld <? CTaggedColumns t - 1 then
        let pbDataNextColumn := PbData t (itagfld + 1) in
        with_mem t (memmove (tf_m t) (pheader + cbDataRemaining) pbDataNextColumn (PbMax t - pbDataNextColumn))
      else t in
    let t := with_size t (u32 (CbTaggedColumns t - cbShrink)) (CTaggedColumns t) in
    (delta_loop (Z.to_nat (CTaggedColumns t - (itagfld + 1))) t (itagfld + 1) (s16 (- s16 cbShrink)), cbShrink)
  else (t, 0).

(** ** Unique values *)

Definition FDataEqual (d1 d2 : list Z) : bool := (Cb d1 =? Cb d2) && forallb (fun p => fst p =? snd p) (combine d1 d2).

Definition ErrRECICheckUniqueNormalizedTaggedRecordData (pfield : FIELD) (dataFieldNorm dataRecRaw : list Z) (fNormDataFieldTruncated : bool) : Z :=
  let '(err, dataRecNorm, fNormDataRecTruncated) := ErrFLDNormalizeTaggedData (coltyp pfield) (cp pfield) dataRecRaw false in
  if err <? 0 then err
  else if FDataEqual dataFieldNorm dataRecNorm then
    if fNormDataFieldTruncated || fNormDataRecTruncated then JET_errMultiValuedDuplicateAfterTruncation else JET_errMultiValuedDuplicate
  else err.

(** [None] stands for [pfieldNil]: the data are not normalised. *)
Definition ErrRECICheckUnique (pfield : option FIELD) (dataToSet dataRec : list Z) (fNormalizedDataToSetIsTruncated : bool) : Z :=
  match pfield with
  | Some f => ErrRECICheckUniqueNormalizedTaggedRecordData f dataToSet dataRec fNormalizedDataToSetIsTruncated
  | None => if FDataEqual dataToSet dataRec then JET_errMultiValuedDuplicate else JET_errSuccess
  end.

Definition TWOVALUES_ErrCheckUnique (m : mem) (tv : TWOVALUES) (pfield : option FIELD) (dataToSet : list Z) (itagSequence : Z) (fTruncated : bool) : Z :=
  let err := if negb (1 =? itagSequence)
             then ErrRECICheckUnique pfield dataToSet (load_bytes m (tv_PbData tv) (CbFirstValue tv)) fTruncated else JET_errSuccess in
  if err <? 0 then err
  else
    let err := if negb (2 =? itagSequence)
               then ErrRECICheckUnique pfield dataToSet (load_bytes m (tv_PbData tv + CbFirstValue tv) (CbSecondValue tv)) fTruncated else JET_errSuccess in
    if err <? 0 then err else JET_errSuccess.

Fixpoint mv_unique_loop (n : nat) (m : mem) (mv : MULTIVALUES) (imv : Z) (pfield : option FIELD) (dataToSet : list Z) (itagSequence : Z)
    (fTruncated : bool) : Z :=
  match n with
  | O => JET_errSuccess
  | S n =>
      let err := if negb (itagSequence =? imv + 1)
                 then ErrRECICheckUnique pfield dataToSet (load_bytes m (mv_PbData m mv imv) (mv_CbData m mv imv)) fTruncated else JET_errSuccess in
      if err <? 0 then err else mv_unique_loop n m mv (imv + 1) pfield dataToSet itagSequence fTruncated
  end.

Definition MULTIVALUES_ErrCheckUnique (m : mem) (mv : MULTIVALUES) (pfield : option FIELD) (dataToSet : list Z) (itagSequence : Z) (fTruncated : bool) : Z :=
  mv_unique_loop (Z.to_nat (CMultiValues mv)) m mv 0 pfield dataToSet itagSequence fTruncated.

Definition ErrCheckUniqueMultiValues (t : TAGFIELDS) (pfield : option FIELD) (dataToSet : list Z) (itagfld itagSequence : Z) (fTruncated : bool) : Z :=
  match (match Pheader t itagfld with Some p => if TAGFLD_HEADER.FMultiValues (header t p) then Some p else None | None => None end) with
  | Some p =>
      if TAGFLD_HEADER.FTwoValues (header t p)
      then TWOVALUES_ErrCheckUnique (tf_m t) (TWOVALUES_new (tf_m t) (PbData t itagfld) (CbData t itagfld)) pfield dataToSet itagSequence fTruncated
      else MULTIVALUES_ErrCheckUnique (tf_m t) (MULTIVALUES_new (tf_m t) (PbData t itagfld) (CbData t itagfld)) pfield dataToSet itagSequence fTruncated
  | None =>
      if negb (1 =? itagSequence)
      then ErrRECICheckUnique pfield dataToSet (load_bytes (tf_m t) (PbData t itagfld) (CbData t itagfld)) fTruncated
      else JET_errSuccess
  end.

Definition ErrCheckUniqueNormalizedMultiValues (t : TAGFIELDS) (pfield : FIELD) (dataToSet : list Z) (itagfld itagSequence : Z) : Z :=
  let '(err, dataToSetNorm, fTruncated) := ErrFLDNormalizeTaggedData (coltyp pfield) (cp pfield) dataToSet false in
  if err <? 0 then err
  else
    let err := ErrCheckUniqueMultiValues t (Some pfield) dataToSetNorm itagfld itagSequence fTruncated in
    if err <? 0 then err else JET_errSuccess.

(** ** Setting a column *)

(** A new column.  [cbRecordMost] is [REC::CbRecordMost( pfucb )]. *)
Definition set_new_column (cbRecordMost : Z) (t : TAGFIELDS) (itagfld : Z) (tagfldNew : TAGFLD) (pfield : FIELD) (itagSequence : Z)
    (pdataToSet : option (list Z)) (grbit : Z) : Z * TAGFIELDS :=
  let cbField := if FExtendedInfo tagfldNew then sizeof_TAGFLD_HEADER else 0 in
  let insert (tagfldNew : TAGFLD) (cbField : Z) :=
    if cbRecordMost <? dataWorkBuf_Cb t + sizeof_TAGFLD + cbField then (JET_errRecordTooBig, t)
    else (JET_errSuccess, DeltaCb (InsertTagfld t itagfld tagfldNew pdataToSet (coltyp pfield)
                           (fbit grbit grbitSetColumnSeparated) (fbit grbit grbitSetColumnCompressed) (fbit grbit grbitSetColumnEncrypted))
                         (sizeof_TAGFLD + cbField)) in
  match pdataToSet with
  | None =>
      if FFIELDDefault (ffield pfield) && (1 =? itagSequence) && negb (fbit grbit JET_bitSetRevertToDefaultValue)
      then insert (Tagfld (Fid tagfldNew) (Z.lor (m_ib tagfldNew) fNullSmallPage)) cbField
      else (JET_errSuccess, t)
  | Some d =>
      let cbField := cbField + Cb d in
      if fSmallPage && negb (FExtendedInfo tagfldNew) && FRECLongValue (coltyp pfield)
      then insert (Tagfld (Fid tagfldNew) (Z.lor (m_ib tagfldNew) fExtendedInfo)) (cbField + sizeof_TAGFLD_HEADER)
      else insert tagfldNew cbField
  end.

(** The column has several values, and one is set. *)
Definition set_multi_value (cbRecordMost : Z) (t : TAGFIELDS) (itagfld pheader : Z) (itagSequence : Z) (d : list Z) (grbit : Z) : Z * TAGFIELDS :=
  let cbRec := dataWorkBuf_Cb t in
  let too_big delta := cbRecordMost <? u32 (cbRec + delta) in
  if TAGFLD_HEADER.FTwoValues (header t pheader) then
    let tv := TWOVALUES_new (tf_m t) (PbData t itagfld) (CbData t itagfld) in
    if (1 =? itagSequence) || (2 =? itagSequence) then
      let delta := Cb d - (if 1 =? itagSequence then CbFirstValue tv else CbSecondValue tv) in
      if too_big delta then (JET_errRecordTooBig, t)
      else
        let t := if 0 <? delta then ResizeTagfld t itagfld delta else t in
        let t := with_mem t (TWOVALUES_UpdateInstance (tf_m t) tv itagSequence d) in
        let t := if delta <? 0 then ResizeTagfld t itagfld delta else t in
        (JET_errSuccess, DeltaCb t delta)
    else
      let delta := Cb d + (3 * sizeof_MVOFFSET - sizeof_TVLENGTH) in
      if too_big delta then (JET_errRecordTooBig, t)
      else
        let t := ResizeTagfld t itagfld delta in
        (JET_errSuccess, DeltaCb (ConvertTwoValuesToMultiValues t tv d) delta)
  else
    let mv := MULTIVALUES_new (tf_m t) (PbData t itagfld) (CbData t itagfld) in
    if negb (1 =? itagSequence) && fbit grbit grbitSetColumnCompressed then (errRECCompressionNotPossible, t)
    else if (0 =? itagSequence) || (CMultiValues mv <? itagSequence) then
      let delta := Cb d + sizeof_MVOFFSET in
      if too_big delta then (JET_errRecordTooBig, t)
      else
        let t := ResizeTagfld t itagfld delta in
        (JET_errSuccess, DeltaCb (with_mem t (fst (AddInstance (tf_m t) mv d (fbit grbit grbitSetColumnSeparated)))) delta)
    else
      let delta := s32 (Cb d - mv_CbData (tf_m t) mv (itagSequence - 1)) in
      if too_big delta then (JET_errRecordTooBig, t)
      else
        let t := if 0 <? delta then ResizeTagfld t itagfld delta else t in
        let t := with_mem t (fst (MULTIVALUES_UpdateInstance (tf_m t) mv itagSequence d
                               (fbit grbit grbitSetColumnSeparated) (fbit grbit grbitSetColumnCompressed))) in
        let t := if delta <? 0 then ResizeTagfld t itagfld delta else t in
        (JET_errSuccess, DeltaCb t delta).

(** The column has one value, or is null, and its first value is set. *)
Definition set_single_value (cbRecordMost : Z) (t : TAGFIELDS) (itagfld : Z) (pfield : FIELD) (d : list Z) (grbit : Z) : Z * TAGFIELDS :=
  let dbFieldData := s32 (Cb d + cbTagHeaderDefault - CbData t itagfld) in
  let dbFieldData := if fSmallPage && FRECLongValue (coltyp pfield) then dbFieldData + sizeof_TAGFLD_HEADER else dbFieldData in
  if cbRecordMost <? u32 (dataWorkBuf_Cb t + dbFieldData) then (JET_errRecordTooBig, t)
  else
    let t := ResetFNull t itagfld in
    let t := if dbFieldData =? 0 then t else ResizeTagfld t itagfld dbFieldData in
    let t := ReplaceTagfldData t itagfld d (coltyp pfield)
               (fbit grbit grbitSetColumnSeparated) (fbit grbit grbitSetColumnCompressed) (fbit grbit grbitSetColumnEncrypted) in
    (JET_errSuccess, DeltaCb t dbFieldData).

(** The column has one value, and a second one is added. *)
Definition set_second_value (cbRecordMost : Z) (t : TAGFIELDS) (itagfld : Z) (pheader : option Z) (pfield : FIELD) (d : list Z) (grbit : Z)
    : Z * TAGFIELDS :=
  if fbit grbit grbitSetColumnCompressed then (errRECCompressionNotPossible, t)
  else
    match pheader with
    | Some _ =>
        let cbGrow := 2 * sizeof_MVOFFSET + Cb d in
        if cbRecordMost <? u32 (dataWorkBuf_Cb t + cbGrow) then (JET_errRecordTooBig, t)
        else (JET_errSuccess, DeltaCb (ConvertToMultiValues t itagfld d (fbit grbit grbitSetColumnSeparated)) cbGrow)
    | None =>
        let cbGrow := sizeof_TAGFLD_HEADER + sizeof_TVLENGTH + Cb d in
        if cbRecordMost <? u32 (dataWorkBuf_Cb t + cbGrow) then (JET_errRecordTooBig, t)
        else (JET_errSuccess, DeltaCb (SetFExtendedInfo (ConvertToTwoValues t itagfld d (coltyp pfield)) itagfld) cbGrow)
    end.

(** A value of a column that is not null is set to null. *)
Definition set_to_null (t : TAGFIELDS) (itagfld : Z) (pheader : option Z) (pfield : FIELD) (itagSequence grbit : Z) : TAGFIELDS :=
  match (match pheader with Some p => if TAGFLD_HEADER.FMultiValues (header t p) then Some p else None | None => None end) with
  | Some p =>
      let '(t, cbShrink) :=
        if TAGFLD_HEADER.FTwoValues (header t p) then CbConvertTwoValuesToSingleValue t itagfld itagSequence
        else CbDeleteMultiValue t itagfld itagSequence in
      DeltaCb t (- cbShrink)
  | None =>
      if 1 =? itagSequence then
        let cbTagField := CbData t itagfld in
        if FFIELDDefault (ffield pfield) && negb (fbit grbit JET_bitSetRevertToDefaultValue) then
          let cbTagFieldDiff := u32 (cbTagField - cbTagHeaderDefault) in
          let t := if 0 <? cbTagFieldDiff then ResizeTagfld t itagfld (s32 (- cbTagFieldDiff)) else t in
          let t :=
            if fSmallPage then ResetFExtendedInfo t itagfld
            else match pheader with
                 | Some p => set_header t p (TAGFLD_HEADER.Reset_ TAGFLD_HEADER.fSeparated (header t p))
                 | None => t
                 end in
          DeltaCb (SetFNull t itagfld) (- cbTagFieldDiff)
        else DeltaCb (DeleteTagfld t itagfld) (- (sizeof_TAGFLD + cbTagField))
      else t
  end.

(** [None] stands for a null [pdataToSet]. *)
Definition ErrSetColumn (cbRecordMost : Z) (t : TAGFIELDS) (pfield : FIELD) (fid itagSequence : Z) (pdataToSet : option (list Z)) (grbit : Z)
    : Z * TAGFIELDS :=
  let fUseDerivedBit := fbit grbit grbitSetColumnUseDerivedBit in
  let tagfldNew := TAGFLD_new fid fUseDerivedBit in
  let itagfld := ItagfldFind t tagfldNew in
  let fExists := (itagfld <? CTaggedColumns t) && FIsEqual (Ptagfld t itagfld) fid fUseDerivedBit in
  if negb fExists then set_new_column cbRecordMost t itagfld tagfldNew pfield itagSequence pdataToSet grbit
  else
    match pdataToSet with
    | Some d =>
        let fEnforceUniqueMultiValues :=
          fbit grbit (Z.lor JET_bitSetUniqueMultiValues JET_bitSetUniqueNormalizedMultiValues) && negb (FRECLongValue (coltyp pfield)) in
        let errT :=
          if fEnforceUniqueMultiValues && negb (FNull t itagfld) then
            if fbit grbit JET_bitSetUniqueNormalizedMultiValues then ErrCheckUniqueNormalizedMultiValues t pfield d itagfld itagSequence
            else ErrCheckUniqueMultiValues t None d itagfld itagSequence false
          else JET_errSuccess in
        if errT <? 0 then (errT, t)
        else
          let pheader := Pheader t itagfld in
          match (match pheader with Some p => if TAGFLD_HEADER.FMultiValues (header t p) then Some p else None | None => None end) with
          | Some p => set_multi_value cbRecordMost t itagfld p itagSequence d grbit
          | None =>
              if (1 =? itagSequence) || FNull t itagfld then set_single_value cbRecordMost t itagfld pfield d grbit
              else set_second_value cbRecordMost t itagfld pheader pfield d grbit
          end
    | None =>
        if negb (FNull t itagfld) then (JET_errSuccess, set_to_null t itagfld (Pheader t itagfld) pfield itagSequence grbit)
        else if fbit grbit JET_bitSetRevertToDefaultValue
        then (JET_errSuccess, DeltaCb (DeleteTagfld t itagfld) (- sizeof_TAGFLD - cbTagHeaderDefault))
        else (JET_errSuccess, t)
    end.

(** ** Retrieving a column *)

(** What is used of the table where the record has no value: whether it has
    default values, the flags of the column, and what
    [ErrRECIRetrieveTaggedDefaultValue] returns for it. *)
Record DEFAULTS := Defaults { FTableHasNonEscrowDefault : bool; df_ffield : Z; df_value : Z * list Z }.

(** [*pdataRetrieveBuffer]: data in the record or of the default record, or nothing. *)
Inductive RETRIEVED := InRecord (d : DATA) | DefaultValue (d : list Z) | Nullified.

Definition ErrRetrieveColumn (t : TAGFIELDS) (df : DEFAULTS) (fid : Z) (fUseDerivedBit : bool) (itagSequence grbit : Z) : Z * RETRIEVED :=
  let null := (JET_wrnColumnNull, Nullified) in
  let itagfld := ItagfldFind t (TAGFLD_new fid fUseDerivedBit) in
  if (itagfld <? CTaggedColumns t) && FIsEqual (Ptagfld t itagfld) fid fUseDerivedBit then
    if FNull t itagfld then null
    else
      match (match Pheader t itagfld with Some p => if TAGFLD_HEADER.FMultiValues (header t p) then Some p else None | None => None end) with
      | Some p =>
          if TAGFLD_HEADER.FTwoValues (header t p) then
            if itagSequence <=? 2 then
              (JET_errSuccess, InRecord (TWOVALUES_RetrieveInstance (TWOVALUES_new (tf_m t) (PbData t itagfld) (CbData t itagfld)) itagSequence))
            else null
          else
            let mv := MULTIVALUES_new (tf_m t) (PbData t itagfld) (CbData t itagfld) in
            if itagSequence <=? CMultiValues mv then let '(err, d) := ErrRetrieveInstance (tf_m t) mv itagSequence in (err, InRecord d) else null
      | None =>
          if 1 =? itagSequence then
            let d := Data (PbData t itagfld) (CbData t itagfld) in
            match Pheader t itagfld with
            | Some p => (TAGFLD_HEADER.ErrRetrievalResult (header t p), InRecord (Data (pv d + sizeof_TAGFLD_HEADER) (u32 (cb d - sizeof_TAGFLD_HEADER))))
            | None => (JET_errSuccess, InRecord d)
            end
          else null
      end
  else if negb (fbit grbit JET_bitRetrieveIgnoreDefault) && (1 =? itagSequence) && FTableHasNonEscrowDefault df then
    if FFIELDUserDefinedDefault (df_ffield df) then (wrnRECUserDefinedDefault, Nullified)
    else if FFIELDDefault (df_ffield df) then (fst (df_value df), DefaultValue (snd (df_value df)))
    else null
  else null.

(** [ffield]: the flags of the column in the table. *)
Definition UlColumnInstances (t : TAGFIELDS) (ff : Z) (fid : Z) (fUseDerivedBit : bool) : Z :=
  let itagfld := ItagfldFind t (TAGFLD_new fid fUseDerivedBit) in
  if (itagfld <? CTaggedColumns t) && FIsEqual (Ptagfld t itagfld) fid fUseDerivedBit then
    if FNull t itagfld then 0
    else
      match (match Pheader t itagfld with Some p => if TAGFLD_HEADER.FMultiValues (header t p) then Some p else None | None => None end) with
      | Some p => if TAGFLD_HEADER.FTwoValues (header t p) then 2 else CMultiValues (MULTIVALUES_new (tf_m t) (PbData t itagfld) (CbData t itagfld))
      | None => 1
      end
  else if FFIELDDefault ff then 1 else 0.

(** ** Validation *)

Definition FIsValidTwoValues (t : TAGFIELDS) (itagfld : Z) : bool :=
  let pheader := PbData t itagfld in
  let cb := CbData t itagfld in
  if cb <? sizeof_TAGFLD_HEADER + sizeof_TVLENGTH then false
  else if sizeof_TAGFLD_HEADER + sizeof_TVLENGTH + 2 * JET_cbColumnMost <? cb then false
  else
    let cbTwoValues := cb - sizeof_TAGFLD_HEADER - sizeof_TVLENGTH in
    let cbFirstValue := load8 (tf_m t) (pheader + 1) in
    if cbTwoValues <? cbFirstValue then false
    else if JET_cbColumnMost <? cbTwoValues - cbFirstValue then false
    else true.

Fixpoint mv_validate_loop (n : nat) (m : mem) (mv : MULTIVALUES) (imv : Z) : bool :=
  match n with
  | O => true
  | S n =>
      let b := load8 m (mv_pheader mv) in
      let ibCurr := mv_Ib m mv imv in
      let ibNext := if imv <? CMultiValues mv - 1 then mv_Ib m mv (imv + 1) else CbMultiValues mv in
      if (ibNext <? ibCurr) || (CbMultiValues mv <? ibCurr) then false
      else if negb (TAGFLD_HEADER.FLongValue b) && (JET_cbColumnMost <? ibNext - ibCurr) then false
      else if mv_FSeparatedInstance m mv imv &&
              (negb (TAGFLD_HEADER.FColumnCanBeSeparated b)
               || (let lid := LidOfSeparatedLV m (mv_PbData m mv imv) (ibNext - ibCurr) in (lid =? lidMin) || negb (ibNext - ibCurr =? LvId_Cb lid)))
      then false
      else mv_validate_loop n m mv (imv + 1)
  end.

Definition FIsValidMultiValues (t : TAGFIELDS) (itagfld : Z) : bool :=
  let pheader := PbData t itagfld in
  if CbData t itagfld <? sizeof_TAGFLD_HEADER + 2 * sizeof_MVOFFSET then false
  else
    let cbMultiValues := CbData t itagfld - sizeof_TAGFLD_HEADER in
    let ibFirstMV := Z.land (load16 (tf_m t) (pheader + 1)) mv_maskIb in
    if (ibFirstMV <? 2 * sizeof_MVOFFSET) || (cbMultiValues <? ibFirstMV) || negb (ibFirstMV mod sizeof_MVOFFSET =? 0) then false
    else
      let mv := MULTIVALUES_new (tf_m t) (PbData t itagfld) (CbData t itagfld) in
      mv_validate_loop (Z.to_nat (CMultiValues mv)) (tf_m t) mv 0.

(** The checks of one entry that come after the order of the columns. *)
Definition validate_header (t : TAGFIELDS) (itagfld ibNext : Z) : bool :=
  let f := Ptagfld t itagfld in
  if FExtendedInfo f then
    let b := header t (PbData t itagfld) in
    if negb (Z.land b (Z.ldiff 255 TAGFLD_HEADER.maskFlags) =? 0) then false
    else if negb (TAGFLD_HEADER.FLongValue b) && negb (TAGFLD_HEADER.FMultiValues b) && fSmallPage then false
    else if TAGFLD_HEADER.FTwoValues b then
      if negb (TAGFLD_HEADER.FMultiValues b) then false
      else if TAGFLD_HEADER.FLongValue b || TAGFLD_HEADER.FSeparated b then false
      else FIsValidTwoValues t itagfld
    else if TAGFLD_HEADER.FMultiValues b then
      if TAGFLD_HEADER.FSeparated b then false else FIsValidMultiValues t itagfld
    else if TAGFLD_HEADER.FSeparated b then
      if negb (TAGFLD_HEADER.FColumnCanBeSeparated b) then false
      else
        let cbLid := ibNext - Ib f - sizeof_TAGFLD_HEADER in
        let lid := LidOfSeparatedLV (tf_m t) (PbData t itagfld + sizeof_TAGFLD_HEADER) cbLid in
        negb ((lid =? lidMin) || negb (cbLid =? LvId_Cb lid))
    else true
  else negb (JET_cbColumnMost <? ibNext - Ib f).

Fixpoint validate_loop (n : nat) (t : TAGFIELDS) (itagfld : Z) (fSawNonDerived : bool) (fidPrev : Z) : bool :=
  match n with
  | O => true
  | S n =>
      let f := Ptagfld t itagfld in
      if negb (FTagged (Fid f)) then false
      else if FDerived f && (fSawNonDerived || (Fid f <=? fidPrev)) then false
      else if negb (FDerived f) && fSawNonDerived && (Fid f <=? fidPrev) then false
      else
        let fSawNonDerived := fSawNonDerived || negb (FDerived f) in
        let ibNext := if itagfld <? CTaggedColumns t - 1 then Ib (Ptagfld t (itagfld + 1)) else CbTaggedColumns t in
        if ibNext <? Ib f then false
        else if FNull t itagfld && ((FExtendedInfo f && fSmallPage) || negb (ibNext =? Ib f + cbTagHeaderDefault)) then false
        else if negb (validate_header t itagfld ibNext) then false
        else validate_loop n t (itagfld + 1) fSawNonDerived (Fid f)
  end.

Definition FValidate (t : TAGFIELDS) : bool := validate_loop (Z.to_nat (CTaggedColumns t)) t 0 false 0.

(** ** Records *)

Definition cbRecordMin : Z := 4.

(** [REC::PbTaggedData] of the record at [prec], from its header and the last
    of its offsets of variable columns. *)
Definition IbVarOffset (ibVarOffs : Z) : Z := Z.land ibVarOffs 0x7fff.
Definition FidVarLastInRec (m : mem) (prec : Z) : Z := load8 m (prec + 1).
Definition CVarColumns (m : mem) (prec : Z) : Z := FidVarLastInRec m prec - 128 + 1.
Definition IbEndOfFixedData (m : mem) (prec : Z) : Z := load16 m (prec + 2).
Definition PbVarData (m : mem) (prec : Z) : Z := prec + u16 (IbEndOfFixedData m prec + CVarColumns m prec * 2).
Definition IbEndOfVarData (m : mem) (prec : Z) : Z :=
  if FidVarLastInRec m prec =? 127 then 0
  else IbVarOffset (load16 m (prec + IbEndOfFixedData m prec + 2 * (FidVarLastInRec m prec - 128))).
Definition PbTaggedData (m : mem) (prec : Z) : Z := PbVarData m prec + IbEndOfVarData m prec.

(** [TAGFIELDS::TAGFIELDS]. *)
Definition TAGFIELDS_new (m : mem) (dataRec : DATA) : TAGFIELDS :=
  let pbRecMax := pv dataRec + cb dataRec in
  let pbStart := PbTaggedData m (pv dataRec) in
  let t := Tagfields m pbStart (u32 (pbRecMax - pbStart)) 0 (cb dataRec) in
  Tagfields m pbStart (CbTaggedColumns t) (if CbTaggedColumns t =? 0 then 0 else Ib (Ptagfld t 0) / sizeof_TAGFLD) (cb dataRec).

(** [cbRecordMostCHECK] is [REC::CbRecordMostCHECK( cbPage )]; the record is not null. *)
Definition FIsValidTagfields (cbRecordMostCHECK : Z) (m : mem) (dataRec : DATA) : bool :=
  if (cb dataRec <? cbRecordMin) || (cbRecordMostCHECK <? cb dataRec) then false
  else
    let pbRecMax := pv dataRec + cb dataRec in
    let pbStart := PbTaggedData m (pv dataRec) in
    if (pbStart <? pv dataRec + cbRecordMin) || (pbRecMax <? pbStart) then false
    else
      let cbTaggedColumns := pbRecMax - pbStart in
      let ibFirst := Z.land (load16 m (pbStart + 2)) maskIb in
      if (0 <? cbTaggedColumns) && ((ibFirst <? sizeof_TAGFLD) || (cbTaggedColumns <? ibFirst) || negb (ibFirst mod sizeof_TAGFLD =? 0)) then false
      else FValidate (TAGFIELDS_new m dataRec).
End TagFields.
