(* ===== verification/TagFldView.v ===== *)
(** * Tagged columns: the array and its data

    The tagged part of a record as a list of entries with their data, what the
    accessors of TAGFIELDS read there, and the loops that fix up offsets. *)

From Stdlib Require Import ZArith List Lia Bool.
From S2P Require Import Prelude Mem Norm TagFld.
Import ListNotations.

(** ** Bytes at an address *)

Definition zlen {A} (l : list A) : Z := Z.of_nat (length l).

Lemma zlen_nonneg {A} (l : list A) : 0 <= zlen l.
Proof. unfold zlen. lia. Qed.
Lemma zlen_nil {A} : zlen (@nil A) = 0.
Proof. reflexivity. Qed.
Lemma zlen_cons {A} (x : A) l : zlen (x :: l) = 1 + zlen l.
Proof. unfold zlen. cbn [length]. lia. Qed.
Lemma zlen_app {A} (l1 l2 : list A) : zlen (l1 ++ l2) = zlen l1 + zlen l2.
Proof. unfold zlen. rewrite length_app. lia. Qed.

Definition holds (m : mem) (a : Z) (l : list Z) : Prop := forall i, (i < length l)%nat -> m (a + Z.of_nat i) = nth i l 0.

Lemma holds_nil m a : holds m a [].
Proof. intros i Hi. cbn in Hi. lia. Qed.

Lemma holds_app m a l1 l2 : holds m a (l1 ++ l2) <-> holds m a l1 /\ holds m (a + zlen l1) l2.
Proof.
  unfold holds, zlen. split.
  - intros H. split; intros i Hi.
    + rewrite H, app_nth1 by (rewrite ?length_app; lia). reflexivity.
    + replace (a + Z.of_nat (length l1) + Z.of_nat i) with (a + Z.of_nat (length l1 + i)) by lia.
      rewrite H, app_nth2 by (rewrite ?length_app; lia). f_equal. lia.
  - intros [H1 H2] i Hi. rewrite length_app in Hi. destruct (Nat.lt_ge_cases i (length l1)).
    + rewrite app_nth1 by lia. now apply H1.
    + rewrite app_nth2 by lia. rewrite <- H2 by lia. f_equal. lia.
Qed.

Lemma holds_cons m a x l : holds m a (x :: l) <-> m a = x /\ holds m (a + 1) l.
Proof.
  change (x :: l) with ([x] ++ l). rewrite holds_app. split; intros [H1 H2]; (split; [|exact H2]).
  - specialize (H1 O ltac:(cbn; lia)). cbn in H1. now rewrite Z.add_0_r in H1.
  - intros [|i] Hi; cbn in *; [|lia]. now rewrite Z.add_0_r.
Qed.

Lemma holds_ext m m' a l : holds m a l -> mem_eq_on a (a + zlen l) m m' -> holds m' a l.
Proof. intros H E i Hi. rewrite <- E by (unfold zlen; lia). now apply H. Qed.

Lemma holds_firstn m a l n : holds m a l -> holds m a (firstn n l).
Proof. intros H i Hi. rewrite length_firstn in Hi. rewrite nth_firstn. destruct (Nat.ltb_spec i n); [|lia]. apply H. lia. Qed.

Lemma holds_load m a l : holds m a l -> load_bytes m a (zlen l) = l.
Proof.
  intros H. apply nth_ext with (d := 0) (d' := 0).
  - rewrite length_load_bytes. unfold zlen. lia.
  - intros i Hi. rewrite length_load_bytes in Hi. rewrite nth_load_bytes by exact Hi. apply H. unfold zlen in Hi. lia.
Qed.

Lemma holds_load_bytes m a n : holds m a (load_bytes m a n).
Proof. intros i Hi. rewrite length_load_bytes in Hi. now rewrite nth_load_bytes. Qed.

Lemma zlen_load_bytes m a n : 0 <= n -> zlen (load_bytes m a n) = n.
Proof. intros H. unfold zlen. rewrite length_load_bytes. lia. Qed.

Lemma load_bytes_bytes_ok m a n : mem_ok m -> bytes_ok (load_bytes m a n).
Proof. intros H. apply Forall_forall. intros b Hb. unfold load_bytes in Hb. apply in_map_iff in Hb as (i & <- & _). apply H. Qed.

Lemma holds_bytes_ok m a l : mem_ok m -> holds m a l -> bytes_ok l.
Proof. intros Hm H. rewrite <- (holds_load _ _ _ H). now apply load_bytes_bytes_ok. Qed.

Lemma holds_memmove m dst src n l : holds m src l -> n = zlen l -> holds (memmove m dst src n) dst l.
Proof.
  intros H -> i Hi. rewrite memmove_in by (unfold zlen; lia). replace (src + (dst + Z.of_nat i - dst)) with (src + Z.of_nat i) by lia. now apply H.
Qed.

Lemma holds_memmove_frame m dst src n a l : holds m a l -> a + zlen l <= dst \/ dst + n <= a -> holds (memmove m dst src n) a l.
Proof. intros H D. apply (holds_ext m); [exact H|]. intros x Hx. symmetry. apply memmove_frame. lia. Qed.

Lemma holds_store_bytes m a l : bytes_ok l -> holds (store_bytes m a l) a l.
Proof.
  intros H i Hi. rewrite store_bytes_in by lia. replace (Z.to_nat (a + Z.of_nat i - a)) with i by lia. apply Z.mod_small.
  unfold bytes_ok in H. rewrite Forall_forall in H. apply H, nth_In, Hi.
Qed.

Lemma holds_store_bytes_frame m d s a l : holds m a l -> a + zlen l <= d \/ d + zlen s <= a -> holds (store_bytes m d s) a l.
Proof. intros H D. apply (holds_ext m); [exact H|]. intros x Hx. symmetry. apply store_bytes_frame. unfold zlen in *. lia. Qed.

(** A 16-bit word. *)
Definition le16 (w : Z) : list Z := [w mod 256; w / 256 mod 256].

Lemma zlen_le16 w : zlen (le16 w) = 2.
Proof. reflexivity. Qed.

Lemma holds_le16 m a w : holds m a (le16 w) -> load16 m a = u16 w.
Proof. unfold le16. rewrite !holds_cons. intros (E1 & E2 & _). unfold load16, u16. rewrite E1, E2. zlia. Qed.

Lemma holds_le16_iff m a w : mem_ok m -> 0 <= w < 65536 -> holds m a (le16 w) <-> load16 m a = w.
Proof.
  intros Hm Hw. split; intros H.
  - rewrite (holds_le16 _ _ _ H). now apply u16_small.
  - unfold le16. rewrite !holds_cons. pose proof (Hm a). pose proof (Hm (a + 1)). unfold load16 in H. repeat split; [zlia|zlia|apply holds_nil].
Qed.

Lemma holds_store16 m a w : holds (store16 m a w) a (le16 w).
Proof.
  unfold le16. rewrite !holds_cons. unfold store16. split; [|split; [|apply holds_nil]].
  - rewrite !store8_at, (proj2 (Z.eqb_neq a (a + 1))), Z.eqb_refl by lia. reflexivity.
  - now rewrite store8_at, Z.eqb_refl.
Qed.

Lemma holds_store16_frame m d w a l : holds m a l -> a + zlen l <= d \/ d + 2 <= a -> holds (store16 m d w) a l.
Proof. intros H D. apply (holds_ext m); [exact H|]. intros x Hx. symmetry. apply store16_frame. lia. Qed.

Lemma holds_store8 m a b : 0 <= b < 256 -> holds (store8 m a b) a [b].
Proof. intros H. rewrite holds_cons. split; [|apply holds_nil]. rewrite store8_at, Z.eqb_refl. now apply Z.mod_small. Qed.

Lemma holds_store8_frame m d b a l : holds m a l -> a + zlen l <= d \/ d + 1 <= a -> holds (store8 m d b) a l.
Proof. intros H D. apply (holds_ext m); [exact H|]. intros x Hx. rewrite store8_at. destruct (Z.eqb_spec x d); [lia|reflexivity]. Qed.

(** Two memories that agree outside a range. *)
Definition same_outside (lo hi : Z) (m m' : mem) : Prop := forall a, a < lo \/ hi <= a -> m' a = m a.

Lemma same_outside_refl lo hi m : same_outside lo hi m m.
Proof. now intros a _. Qed.
Lemma same_outside_trans lo hi m1 m2 m3 : same_outside lo hi m1 m2 -> same_outside lo hi m2 m3 -> same_outside lo hi m1 m3.
Proof. intros H1 H2 a Ha. rewrite H2, H1 by exact Ha. reflexivity. Qed.
Lemma same_outside_weaken lo hi lo' hi' m m' : same_outside lo hi m m' -> lo' <= lo -> hi <= hi' -> same_outside lo' hi' m m'.
Proof. intros H L1 L2 a Ha. apply H. lia. Qed.
Lemma holds_same_outside lo hi m m' a l : holds m a l -> same_outside lo hi m m' -> a + zlen l <= lo \/ hi <= a -> holds m' a l.
Proof. intros H S D. apply (holds_ext m); [exact H|]. intros x Hx. symmetry. apply S. lia. Qed.

Lemma memmove_outside m d s n lo hi : lo <= d -> d + n <= hi -> same_outside lo hi m (memmove m d s n).
Proof. intros H1 H2 a Ha. apply memmove_frame. lia. Qed.
Lemma store_bytes_outside m d s lo hi : lo <= d -> d + zlen s <= hi -> same_outside lo hi m (store_bytes m d s).
Proof. intros H1 H2 a Ha. apply store_bytes_frame. unfold zlen in H2. lia. Qed.
Lemma store16_outside m d w lo hi : lo <= d -> d + 2 <= hi -> same_outside lo hi m (store16 m d w).
Proof. intros H1 H2 a Ha. apply store16_frame. lia. Qed.
Lemma store8_outside m d b lo hi : lo <= d -> d + 1 <= hi -> same_outside lo hi m (store8 m d b).
Proof. intros H1 H2 a Ha. rewrite store8_at. destruct (Z.eqb_spec a d); [lia|reflexivity]. Qed.

(** ** Flags and offsets in one word *)

Lemma testbit_small ib k n : 0 <= ib < 2 ^ k -> 0 <= k <= n -> Z.testbit ib n = false.
Proof. intros Hib Hk. rewrite <- (Z.mod_small ib (2 ^ k)) by exact Hib. apply Z.mod_pow2_bits_high. lia. Qed.

Lemma disjoint_add h ib k : 0 <= k -> 0 <= ib < 2 ^ k -> h * 2 ^ k + ib = Z.lor (h * 2 ^ k) ib.
Proof.
  intros Hk Hib. assert (D : Z.land (h * 2 ^ k) ib = 0).
  { apply Z.bits_inj'. intros n Hn. rewrite Z.land_spec, Z.bits_0. destruct (Z.lt_ge_cases n k).
    - now rewrite Z.mul_pow2_bits_low by lia.
    - now rewrite (testbit_small ib k), andb_false_r by lia. }
  rewrite Z.add_nocarry_lxor by exact D. now apply Z.lxor_lor.
Qed.

Lemma land_high h ib k c : 0 <= k -> 0 <= ib < 2 ^ k -> Z.land (h * 2 ^ k + ib) (c * 2 ^ k) = Z.land (h * 2 ^ k) (c * 2 ^ k).
Proof.
  intros Hk Hib. rewrite (disjoint_add h ib k Hk Hib), Z.land_lor_distr_l.
  assert (D : Z.land ib (c * 2 ^ k) = 0).
  { rewrite Z.land_comm. pose proof (disjoint_add c ib k Hk Hib) as E. pose proof (Z.add_lor_land (c * 2 ^ k) ib). lia. }
  now rewrite D, Z.lor_0_r.
Qed.

Lemma land_low h ib k : 0 <= k -> 0 <= ib < 2 ^ k -> Z.land (h * 2 ^ k + ib) (Z.ones k) = ib.
Proof. intros Hk Hib. rewrite Z.land_ones, Z.add_comm, Z.mod_add, Z.mod_small by lia. reflexivity. Qed.

Lemma ldiff_low h ib k : 0 <= k -> 0 <= ib < 2 ^ k -> Z.ldiff (h * 2 ^ k + ib) (Z.ones k) = h * 2 ^ k.
Proof.
  intros Hk Hib. rewrite Z.ldiff_ones_r by exact Hk. rewrite Z.shiftl_mul_pow2, Z.shiftr_div_pow2 by exact Hk.
  rewrite Z.add_comm, Z.div_add, Z.div_small by lia. reflexivity.
Qed.

(** ** Entries *)

Record ENTRY := Entry { e_fid : Z; e_derived : bool; e_ext : bool; e_null : bool; e_data : list Z }.

Definition set_data (e : ENTRY) (d : list Z) : ENTRY := Entry (e_fid e) (e_derived e) (e_ext e) (e_null e) d.
Definition set_flags (e : ENTRY) (ext nul : bool) : ENTRY := Entry (e_fid e) (e_derived e) ext nul (e_data e).

Definition flag (b : bool) (w : Z) : Z := if b then w else 0.
Definition e_word (e : ENTRY) : Z := flag (e_derived e) 0x8000 + flag (e_ext e) 0x4000 + flag (e_null e) 0x2000.

Section View.
Variable small : bool.

Definition kIb : Z := if small then 13 else 15.

Lemma maskIb_ones : maskIb small = Z.ones kIb.
Proof. unfold maskIb, kIb. now destruct small. Qed.

Lemma kIb_pow : maskIb small = 2 ^ kIb - 1 /\ 0 <= kIb.
Proof. unfold maskIb, kIb. now destruct small. Qed.

Definition entry_ok (e : ENTRY) : Prop :=
  0 <= e_fid e < 65536 /\ bytes_ok (e_data e) /\ (small = false -> e_ext e = false /\ e_null e = false).

Lemma e_word_high e : entry_ok e -> exists h, e_word e = h * 2 ^ kIb.
Proof.
  intros (_ & _ & H). unfold e_word, kIb. destruct small.
  - exists (flag (e_derived e) 4 + flag (e_ext e) 2 + flag (e_null e) 1). destruct (e_derived e), (e_ext e), (e_null e); reflexivity.
  - destruct (H eq_refl) as [-> ->]. exists (flag (e_derived e) 1). now destruct (e_derived e).
Qed.

Lemma e_word_range e ib : entry_ok e -> 0 <= ib <= maskIb small -> 0 <= e_word e + ib < 65536.
Proof.
  intros (_ & _ & H) Hib. unfold e_word, maskIb in *. destruct small.
  - destruct (e_derived e), (e_ext e), (e_null e); cbn [flag]; lia.
  - destruct (H eq_refl) as [-> ->]. destruct (e_derived e); cbn [flag]; lia.
Qed.

Lemma word_land e ib c : entry_ok e -> 0 <= ib <= maskIb small -> (exists c', c = c' * 2 ^ kIb) -> Z.land (e_word e + ib) c = Z.land (e_word e) c.
Proof.
  intros He Hib (c' & ->). destruct (e_word_high e He) as (h & ->). destruct kIb_pow as [E P]. apply land_high; lia.
Qed.

Lemma word_Ib e ib fid : entry_ok e -> 0 <= ib <= maskIb small -> Ib small (Tagfld fid (e_word e + ib)) = ib.
Proof.
  intros He Hib. unfold Ib. cbn [m_ib]. rewrite maskIb_ones. destruct (e_word_high e He) as (h & ->). destruct kIb_pow as [E P]. apply land_low; lia.
Qed.

Lemma word_SetIb e ib ib' : entry_ok e -> 0 <= ib <= maskIb small -> 0 <= ib' <= maskIb small -> SetIb small (e_word e + ib) ib' = e_word e + ib'.
Proof.
  intros He Hib Hib'. unfold SetIb. rewrite maskIb_ones. destruct (e_word_high e He) as (h & ->). destruct kIb_pow as [E P].
  rewrite ldiff_low by lia. replace (Z.land ib' (Z.ones kIb)) with ib' by (rewrite Z.land_ones, Z.mod_small by lia; reflexivity).
  symmetry. apply disjoint_add; lia.
Qed.

Lemma word_FDerived e ib fid : entry_ok e -> 0 <= ib <= maskIb small -> FDerived (Tagfld fid (e_word e + ib)) = e_derived e.
Proof.
  intros He Hib. unfold FDerived, fbit, fDerived. cbn [m_ib]. rewrite word_land by (first [assumption | unfold kIb; destruct small; [now exists 4|now exists 1]]).
  unfold e_word. now destruct (e_derived e), (e_ext e), (e_null e).
Qed.

Lemma word_FExtendedInfo e ib fid : entry_ok e -> 0 <= ib <= maskIb small -> FExtendedInfo small (Tagfld fid (e_word e + ib)) = negb small || e_ext e.
Proof.
  intros He Hib. unfold FExtendedInfo, fbit, fExtendedInfo. cbn [m_ib]. destruct (bool_dec small true) as [S|S].
  - rewrite S. rewrite word_land by (first [assumption | unfold kIb; rewrite S; now exists 2]). unfold e_word. now destruct (e_derived e), (e_ext e), (e_null e).
  - now apply not_true_is_false in S as ->.
Qed.

Lemma word_null e ib : small = true -> entry_ok e -> 0 <= ib <= maskIb small -> fbit (e_word e + ib) fNullSmallPage = e_null e.
Proof.
  intros S He Hib. unfold fbit, fNullSmallPage. rewrite word_land by (first [assumption | unfold kIb; rewrite S; now exists 1]).
  unfold e_word. now destruct (e_derived e), (e_ext e), (e_null e).
Qed.

(** Setting and resetting one of the flags of the word on small pages. *)
Lemma word_lor e ib c : entry_ok e -> 0 <= ib <= maskIb small -> (exists c', c = c' * 2 ^ kIb) -> Z.lor (e_word e + ib) c = Z.lor (e_word e) c + ib.
Proof.
  intros He Hib (c' & ->). destruct (e_word_high e He) as (h & ->). destruct kIb_pow as [E P].
  rewrite (disjoint_add h ib) by lia. rewrite <- Z.lor_assoc, (Z.lor_comm ib), Z.lor_assoc, <- !Z.shiftl_mul_pow2, <- Z.shiftl_lor, !Z.shiftl_mul_pow2 by lia.
  symmetry. apply disjoint_add; lia.
Qed.

Lemma word_ldiff e ib c : entry_ok e -> 0 <= ib <= maskIb small -> (exists c', c = c' * 2 ^ kIb) -> Z.ldiff (e_word e + ib) c = Z.ldiff (e_word e) c + ib.
Proof.
  intros He Hib (c' & ->). destruct (e_word_high e He) as (h & ->). destruct kIb_pow as [E P].
  rewrite (disjoint_add h ib) by lia. rewrite Z.ldiff_land, Z.land_lor_distr_l, <- !Z.ldiff_land.
  assert (D : Z.ldiff ib (c' * 2 ^ kIb) = ib).
  { apply Z.bits_inj'. intros n Hn. rewrite Z.ldiff_spec. destruct (Z.lt_ge_cases n kIb).
    - now rewrite Z.mul_pow2_bits_low, andb_true_r by lia.
    - now rewrite (testbit_small ib kIb) by lia. }
  rewrite D, <- !Z.shiftl_mul_pow2, <- Z.shiftl_ldiff, !Z.shiftl_mul_pow2 by lia. symmetry. apply disjoint_add; lia.
Qed.

Lemma word_set_ext e ib (b : bool) : small = true -> entry_ok e -> 0 <= ib <= maskIb small ->
  (if b then Z.lor (e_word e + ib) (fExtendedInfo small) else Z.ldiff (e_word e + ib) (fExtendedInfo small)) = e_word (set_flags e b (e_null e)) + ib.
Proof.
  intros S He Hib. assert (C : exists c', fExtendedInfo small = c' * 2 ^ kIb) by (unfold fExtendedInfo, kIb; rewrite S; now exists 2).
  destruct b; [rewrite word_lor by assumption|rewrite word_ldiff by assumption]; f_equal; unfold e_word, fExtendedInfo; rewrite S; cbn [set_flags e_derived e_ext e_null];
    now destruct (e_derived e), (e_ext e), (e_null e).
Qed.

Lemma word_set_null e ib (b : bool) : small = true -> entry_ok e -> 0 <= ib <= maskIb small ->
  (if b then Z.lor (e_word e + ib) fNullSmallPage else Z.ldiff (e_word e + ib) fNullSmallPage) = e_word (set_flags e (e_ext e) b) + ib.
Proof.
  intros S He Hib. assert (C : exists c', fNullSmallPage = c' * 2 ^ kIb) by (unfold fNullSmallPage, kIb; rewrite S; now exists 1).
  destruct b; [rewrite word_lor by assumption|rewrite word_ldiff by assumption]; f_equal; unfold e_word, fNullSmallPage; cbn [set_flags e_derived e_ext e_null];
    now destruct (e_derived e), (e_ext e), (e_null e).
Qed.

(** ** The tagged part of a record *)

Fixpoint entries (o : Z) (l : list ENTRY) : list Z :=
  match l with
  | [] => []
  | e :: l => le16 (e_fid e) ++ le16 (e_word e + o) ++ entries (o + zlen (e_data e)) l
  end.

Definition datas (l : list ENTRY) : list Z := concat (map e_data l).

Definition size (l : list ENTRY) : Z := 4 * zlen l + zlen (datas l).

Lemma zlen_entries l : forall o, zlen (entries o l) = 4 * zlen l.
Proof. induction l as [|e l IH]; intros o; [reflexivity|]. cbn [entries]. rewrite !zlen_app, !zlen_le16, IH, zlen_cons. lia. Qed.

Lemma datas_nil : datas [] = [].
Proof. reflexivity. Qed.
Lemma datas_cons e l : datas (e :: l) = e_data e ++ datas l.
Proof. reflexivity. Qed.
Lemma datas_app l1 l2 : datas (l1 ++ l2) = datas l1 ++ datas l2.
Proof. unfold datas. now rewrite map_app, concat_app. Qed.
Lemma entries_app l1 : forall o l2, entries o (l1 ++ l2) = entries o l1 ++ entries (o + zlen (datas l1)) l2.
Proof.
  induction l1 as [|e l1 IH]; intros o l2; cbn [entries app].
  - now rewrite Z.add_0_r.
  - rewrite IH, datas_cons, zlen_app, <- !app_assoc, Z.add_assoc. reflexivity.
Qed.
Lemma size_app l1 l2 : size (l1 ++ l2) = size l1 + size l2.
Proof. unfold size. rewrite datas_app, !zlen_app. lia. Qed.
Lemma size_cons e l : size (e :: l) = 4 + zlen (e_data e) + size l.
Proof. unfold size. rewrite datas_cons, zlen_app, zlen_cons. lia. Qed.
Lemma size_nonneg l : 0 <= size l.
Proof. unfold size. pose proof (zlen_nonneg l). pose proof (zlen_nonneg (datas l)). lia. Qed.

Record rep (t : TAGFIELDS) (l : list ENTRY) : Prop := {
  rep_mem : mem_ok (tf_m t);
  rep_ok : Forall (entry_ok) l;
  rep_c : CTaggedColumns t = zlen l;
  rep_cb : CbTaggedColumns t = size l;
  rep_fit : size l <= maskIb small;
  rep_entries : holds (tf_m t) (m_rgtagfld t) (entries (4 * zlen l) l);
  rep_datas : holds (tf_m t) (m_rgtagfld t + 4 * zlen l) (datas l)
}.

Lemma maskIb_range : 8191 <= maskIb small <= 32767.
Proof. unfold maskIb. destruct small; lia. Qed.

(** One entry in an array that starts at [a]. *)
Lemma holds_entry m a o e l : mem_ok m -> entry_ok e -> 0 <= o <= maskIb small -> holds m a (entries o (e :: l)) ->
  load16 m a = e_fid e /\ load16 m (a + 2) = e_word e + o /\ holds m (a + 4) (entries (o + zlen (e_data e)) l).
Proof.
  intros Hm He Ho H. cbn [entries] in H. rewrite !holds_app, !zlen_le16 in H. destruct H as (H1 & H2 & H3).
  rewrite (holds_le16 _ _ _ H1), (holds_le16 _ _ _ H2). split; [apply u16_small, He|]. split; [apply u16_small; now apply e_word_range|].
  replace (a + 4) with (a + 2 + 2) by lia. exact H3.
Qed.

(** ** What the accessors read *)

Section At.
Variables (t : TAGFIELDS) (l1 : list ENTRY) (e : ENTRY) (l2 : list ENTRY).
Hypothesis R : rep t (l1 ++ e :: l2).

(** The offset of the data of [e]. *)
Definition ib_of (n : Z) (l1 : list ENTRY) : Z := 4 * n + zlen (datas l1).

Let n := zlen (l1 ++ e :: l2).

Lemma at_entry_ok : entry_ok e.
Proof. pose proof (rep_ok _ _ R) as H. apply Forall_app in H as [_ H]. now apply Forall_cons_iff in H. Qed.

Lemma at_range : 0 <= ib_of n l1 /\ ib_of n l1 + zlen (e_data e) + zlen (datas l2) <= maskIb small.
Proof.
  pose proof (rep_fit _ _ R) as H. unfold size in H. rewrite datas_app, datas_cons, !zlen_app in H. unfold ib_of, n.
  pose proof (zlen_nonneg (l1 ++ e :: l2)). pose proof (zlen_nonneg (datas l1)). rewrite zlen_app in *. lia.
Qed.

Lemma at_entries : holds (tf_m t) (m_rgtagfld t) (entries (4 * n) l1) /\ holds (tf_m t) (m_rgtagfld t + 4 * zlen l1) (entries (ib_of n l1) (e :: l2)).
Proof. pose proof (rep_entries _ _ R) as H. fold n in H. now rewrite entries_app, holds_app, zlen_entries in H. Qed.

Lemma at_datas : holds (tf_m t) (m_rgtagfld t + 4 * n) (datas l1) /\ holds (tf_m t) (m_rgtagfld t + ib_of n l1) (e_data e) /\
  holds (tf_m t) (m_rgtagfld t + ib_of n l1 + zlen (e_data e)) (datas l2).
Proof.
  pose proof (rep_datas _ _ R) as H. fold n in H. rewrite datas_app, datas_cons, !holds_app in H. unfold ib_of. now rewrite !Z.add_assoc.
Qed.

Lemma at_tagfld : Ptagfld t (zlen l1) = Tagfld (e_fid e) (e_word e + ib_of n l1).
Proof.
  destruct at_entries as [_ H]. pose proof at_range. pose proof (zlen_nonneg (e_data e)). pose proof (zlen_nonneg (datas l2)).
  apply holds_entry in H as (E1 & E2 & _); [|apply (rep_mem _ _ R)|apply at_entry_ok|lia]. unfold Ptagfld, pb_tagfld, sizeof_TAGFLD. now rewrite E1, E2.
Qed.

Lemma at_Ib : Ib small (Ptagfld t (zlen l1)) = ib_of n l1.
Proof.
  rewrite at_tagfld. pose proof at_range. pose proof (zlen_nonneg (e_data e)). pose proof (zlen_nonneg (datas l2)). apply word_Ib; [apply at_entry_ok|lia].
Qed.

Lemma at_PbData : PbData small t (zlen l1) = m_rgtagfld t + ib_of n l1.
Proof. unfold PbData. now rewrite at_Ib. Qed.

Lemma at_FExtendedInfo : FExtendedInfo small (Ptagfld t (zlen l1)) = negb small || e_ext e.
Proof.
  rewrite at_tagfld. pose proof at_range. pose proof (zlen_nonneg (e_data e)). pose proof (zlen_nonneg (datas l2)). apply word_FExtendedInfo; [apply at_entry_ok|lia].
Qed.

Lemma at_Pheader : Pheader small t (zlen l1) = if negb small || e_ext e then Some (m_rgtagfld t + ib_of n l1) else None.
Proof. unfold Pheader. now rewrite at_FExtendedInfo, at_PbData. Qed.

Lemma at_header b d : e_data e = b :: d -> header t (m_rgtagfld t + ib_of n l1) = b.
Proof. intros E. destruct at_datas as (_ & H & _). rewrite E, holds_cons in H. apply H. Qed.

Lemma at_count : n = zlen l1 + 1 + zlen l2.
Proof. unfold n. rewrite zlen_app, zlen_cons. lia. Qed.
End At.

Lemma next_Ib t l1 e e' l2 : rep t (l1 ++ e :: e' :: l2) ->
  Ib small (Ptagfld t (zlen l1 + 1)) = ib_of (zlen (l1 ++ e :: e' :: l2)) l1 + zlen (e_data e).
Proof.
  intros R. assert (E : l1 ++ e :: e' :: l2 = (l1 ++ [e]) ++ e' :: l2) by (now rewrite <- app_assoc). rewrite E in R.
  replace (zlen l1 + 1) with (zlen (l1 ++ [e])) by (rewrite zlen_app, zlen_cons, zlen_nil; lia). rewrite (at_Ib _ _ _ _ R), E.
  unfold ib_of. rewrite datas_app, datas_cons, datas_nil, app_nil_r, (zlen_app (datas l1)). lia.
Qed.

Lemma at_CbData t l1 e l2 : rep t (l1 ++ e :: l2) -> CbData small t (zlen l1) = zlen (e_data e).
Proof.
  intros R. unfold CbData. rewrite (at_Ib _ _ _ _ R). pose proof (at_range _ _ _ _ R). pose proof maskIb_range. pose proof (zlen_nonneg (e_data e)). pose proof (zlen_nonneg (datas l2)).
  rewrite (rep_c _ _ R). destruct l2 as [|e' l2].
  - rewrite (proj2 (Z.ltb_ge _ _)) by (rewrite zlen_app, zlen_cons, zlen_nil; lia). rewrite (rep_cb _ _ R). unfold size, ib_of.
    rewrite datas_app, datas_cons, !zlen_app. rewrite datas_nil, zlen_nil. rewrite u32_small; lia.
  - rewrite (proj2 (Z.ltb_lt _ _)) by (rewrite zlen_app, !zlen_cons; pose proof (zlen_nonneg l2); lia). rewrite (next_Ib _ _ _ _ _ R). rewrite u32_small; lia.
Qed.
End View.
