(* ===== verification/TagFldOps.v ===== *)
(** * Tagged columns: operations on the array

    What inserting, deleting, resizing and rewriting do to the list of entries.
    [moved hi t l t' l'] says that [t'] holds [l'], in the same record, and that
    nothing was written before the tagged part or from its byte [hi] on. *)

From Stdlib Require Import ZArith List Lia Bool.
From S2P Require Import Prelude Mem Norm TagFld TagFldView.
Import ListNotations.

(** Lengths are not negative. *)
Ltac pose_zlen :=
  repeat match goal with
  | |- context [zlen ?x] => assert_fails (idtac; match goal with H : 0 <= zlen x |- _ => idtac end); pose proof (zlen_nonneg x)
  | H : context [zlen ?x] |- _ => assert_fails (idtac; match goal with H : 0 <= zlen x |- _ => idtac end); pose proof (zlen_nonneg x)
  end.
Ltac zl := rewrite ?zlen_app, ?zlen_cons, ?zlen_nil in *; pose_zlen; unfold sizeof_TAGFLD, sizeof_TAGFLD_HEADER, sizeof_MVOFFSET, sizeof_TVLENGTH in *; lia.

Lemma length_zlen {A} (l : list A) : Z.to_nat (zlen l) = length l.
Proof. unfold zlen. lia. Qed.

Lemma Cb_zlen (d : list Z) : Cb d = zlen d.
Proof. reflexivity. Qed.

Section Ops.
Variable small : bool.

(** ** The loops *)

Lemma DeltaIb_at t i e o d l : mem_ok (tf_m t) -> entry_ok small e -> 0 <= o <= maskIb small -> 0 <= o + d <= maskIb small ->
  holds (tf_m t) (pb_tagfld t i) (entries o (e :: l)) ->
  DeltaIb small t i d = with_mem t (store16 (tf_m t) (pb_tagfld t i + 2) (e_word e + (o + d))).
Proof.
  intros Hm He Ho Hd H. apply (holds_entry small) in H as (E1 & E2 & _); [|assumption..]. unfold DeltaIb, set_m_ib, Ptagfld. cbn [m_ib]. rewrite E1, E2.
  pose proof (maskIb_range small). rewrite word_Ib by assumption. rewrite u16_small by lia. now rewrite word_SetIb by assumption.
Qed.

Lemma delta_loop_spec l : forall t i o d,
  mem_ok (tf_m t) -> Forall (entry_ok small) l -> 0 <= o -> o + zlen (datas l) <= maskIb small -> 0 <= o + d -> o + d + zlen (datas l) <= maskIb small ->
  holds (tf_m t) (pb_tagfld t i) (entries o l) ->
  exists m', delta_loop small (length l) t i d = with_mem t m' /\ mem_ok m' /\ holds m' (pb_tagfld t i) (entries (o + d) l) /\
    same_outside (pb_tagfld t i) (pb_tagfld t i + 4 * zlen l) (tf_m t) m'.
Proof.
  induction l as [|e l IH]; intros t i o d Hm Hl Ho Ho2 Hd Hd2 H.
  - exists (tf_m t). split; [now destruct t|]. split; [exact Hm|]. split; [apply holds_nil|apply same_outside_refl].
  - apply Forall_cons_iff in Hl as [He Hl]. rewrite datas_cons, zlen_app in *. pose_zlen.
    cbn [delta_loop length]. rewrite (DeltaIb_at t i e o d l) by (try assumption; lia).
    set (m1 := store16 (tf_m t) (pb_tagfld t i + 2) (e_word e + (o + d))).
    assert (Hm1 : mem_ok m1) by (apply store16_ok; exact Hm).
    cbn [entries] in H. rewrite !holds_app, !zlen_le16 in H. destruct H as (X1 & X2 & X3).
    assert (P : pb_tagfld (with_mem t m1) (i + 1) = pb_tagfld t i + 2 + 2) by (unfold pb_tagfld, sizeof_TAGFLD; cbn [m_rgtagfld with_mem]; lia).
    destruct (IH (with_mem t m1) (i + 1) (o + zlen (e_data e)) d) as (m' & E & Hm' & E' & S'); try assumption; try lia.
    { rewrite P. apply holds_store16_frame; [exact X3|lia]. }
    rewrite P in E', S'. exists m'. split; [rewrite E; reflexivity|]. split; [exact Hm'|]. cbn [tf_m with_mem] in S'. split.
    + cbn [entries]. rewrite !holds_app, !zlen_le16. split; [|split].
      * eapply holds_same_outside; [|exact S'|rewrite zlen_le16; lia]. apply holds_store16_frame; [exact X1|rewrite zlen_le16; lia].
      * eapply holds_same_outside; [|exact S'|rewrite zlen_le16; lia]. apply holds_store16.
      * replace (o + d + zlen (e_data e)) with (o + zlen (e_data e) + d) by lia. exact E'.
    + rewrite zlen_cons. eapply same_outside_trans; [apply store16_outside|eapply same_outside_weaken; [exact S'|..]]; lia.
Qed.

(** ** States *)

Definition moved (hi : Z) (t t' : TAGFIELDS) (l' : list ENTRY) : Prop :=
  rep small t' l' /\ m_rgtagfld t' = m_rgtagfld t /\ dataWorkBuf_Cb t' = dataWorkBuf_Cb t /\
  same_outside (m_rgtagfld t) (m_rgtagfld t + hi) (tf_m t) (tf_m t').

Lemma moved_trans hi t t1 t2 l1 l2 : moved hi t t1 l1 -> moved hi t1 t2 l2 -> moved hi t t2 l2.
Proof.
  intros (_ & E1 & W1 & S1) (R & E2 & W2 & S2). split; [exact R|]. split; [congruence|]. split; [congruence|]. rewrite E1 in S2. eapply same_outside_trans; eassumption.
Qed.

Lemma moved_refl hi t l : rep small t l -> moved hi t t l.
Proof. intros R. split; [exact R|]. split; [reflexivity|]. split; [reflexivity|]. apply same_outside_refl. Qed.

Lemma moved_weaken hi hi' t t' l' : moved hi t t' l' -> hi <= hi' -> moved hi' t t' l'.
Proof. intros (R & E & W & S) H. split; [exact R|]. split; [exact E|]. split; [exact W|]. eapply same_outside_weaken; [exact S|lia..]. Qed.

(** Rewriting the data of one entry in place. *)
Lemma rewrite_data t l1 e l2 m' d lo : rep small t (l1 ++ e :: l2) -> mem_ok m' -> zlen d = zlen (e_data e) ->
  lo = m_rgtagfld t + ib_of (zlen (l1 ++ e :: l2)) l1 ->
  same_outside lo (lo + zlen d) (tf_m t) m' -> holds m' lo d ->
  moved (size (l1 ++ e :: l2)) t (with_mem t m') (l1 ++ set_data e d :: l2).
Proof.
  intros R Hm L -> S H. pose proof (at_entries small t l1 e l2 R) as (A1 & A2). pose proof (at_datas small t l1 e l2 R) as (D1 & D2 & D3).
  pose proof (at_range small t l1 e l2 R) as (B1 & B2). pose proof (at_count l1 e l2) as C. set (n := zlen (l1 ++ e :: l2)) in *.
  assert (N : zlen (l1 ++ set_data e d :: l2) = n) by (unfold n; zl).
  assert (Sz : size (l1 ++ set_data e d :: l2) = size (l1 ++ e :: l2)) by (rewrite !size_app, !size_cons; cbn [set_data e_data]; lia).
  assert (I : ib_of n l1 = 4 * n + zlen (datas l1)) by reflexivity.
  assert (W : size (l1 ++ e :: l2) = ib_of n l1 + zlen (e_data e) + zlen (datas l2)) by (unfold size; fold n; rewrite datas_app, datas_cons; zl).
  split; [|split; [reflexivity|split; [reflexivity|]]].
  - split; cbn [tf_m with_mem m_rgtagfld CTaggedColumns CbTaggedColumns].
    + exact Hm.
    + pose proof (rep_ok _ _ _ R) as F. apply Forall_app in F as [F1 F2]. apply Forall_cons_iff in F2 as [Fe F2]. apply Forall_app. split; [exact F1|].
      apply Forall_cons; [|exact F2]. destruct Fe as (a & b & c). split; [exact a|]. split; [now apply (holds_bytes_ok m' (m_rgtagfld t + ib_of n l1))|exact c].
    + rewrite N. apply R.
    + rewrite Sz. apply R.
    + rewrite Sz. apply R.
    + rewrite N, entries_app, holds_app, zlen_entries. fold (ib_of n l1). split.
      * eapply holds_same_outside; [exact A1|exact S|]. rewrite zlen_entries. zl.
      * replace (entries (ib_of n l1) (set_data e d :: l2)) with (entries (ib_of n l1) (e :: l2)) by (cbn [entries set_data e_fid e_data]; now rewrite L).
        eapply holds_same_outside; [exact A2|exact S|]. rewrite zlen_entries. zl.
    + rewrite N, datas_app, datas_cons, !holds_app. cbn [set_data e_data]. split; [|split].
      * eapply holds_same_outside; [exact D1|exact S|]. zl.
      * replace (m_rgtagfld t + 4 * n + zlen (datas l1)) with (m_rgtagfld t + ib_of n l1) by lia. exact H.
      * replace (m_rgtagfld t + 4 * n + zlen (datas l1) + zlen d) with (m_rgtagfld t + ib_of n l1 + zlen (e_data e)) by lia.
        eapply holds_same_outside; [exact D3|exact S|]. lia.
  - cbn [tf_m with_mem]. eapply same_outside_weaken; [exact S|zl..].
Qed.

(** Rewriting the flags of one entry. *)
Lemma rewrite_flags t l1 e l2 e' : rep small t (l1 ++ e :: l2) -> entry_ok small e' -> e_data e' = e_data e -> e_fid e' = e_fid e ->
  moved (size (l1 ++ e :: l2)) t (set_m_ib t (zlen l1) (e_word e' + ib_of (zlen (l1 ++ e :: l2)) l1)) (l1 ++ e' :: l2).
Proof.
  intros R He' Hd Hf. pose proof (at_entries small t l1 e l2 R) as (A1 & A2). pose proof (rep_datas _ _ _ R) as D.
  pose proof (at_range small t l1 e l2 R) as (B1 & B2). pose proof (at_count l1 e l2) as C. set (n := zlen (l1 ++ e :: l2)) in *.
  assert (N : zlen (l1 ++ e' :: l2) = n) by (unfold n; zl).
  assert (Dd : datas (l1 ++ e' :: l2) = datas (l1 ++ e :: l2)) by (now rewrite !datas_app, !datas_cons, Hd).
  assert (Sz : size (l1 ++ e' :: l2) = size (l1 ++ e :: l2)) by (unfold size; now rewrite N, Dd).
  assert (I : ib_of n l1 = 4 * n + zlen (datas l1)) by reflexivity.
  assert (P : pb_tagfld t (zlen l1) = m_rgtagfld t + 4 * zlen l1) by reflexivity.
  assert (W : 4 * n <= size (l1 ++ e :: l2)) by (unfold size; fold n; zl).
  split; [|split; [reflexivity|split; [reflexivity|]]].
  - split; cbn [tf_m with_mem set_m_ib m_rgtagfld CTaggedColumns CbTaggedColumns].
    + apply store16_ok, R.
    + pose proof (rep_ok _ _ _ R) as F. apply Forall_app in F as [F1 F2]. apply Forall_cons_iff in F2 as [Fe F2]. apply Forall_app. split; [exact F1|]. now apply Forall_cons.
    + rewrite N. apply R.
    + rewrite Sz. apply R.
    + rewrite Sz. apply R.
    + rewrite N, entries_app, holds_app, zlen_entries. fold (ib_of n l1). split.
      * apply holds_store16_frame; [exact A1|]. rewrite zlen_entries. zl.
      * cbn [entries] in A2 |- *. rewrite !holds_app, !zlen_le16 in *. rewrite Hd, Hf. destruct A2 as (X1 & X2 & X3). split; [|split].
        -- apply holds_store16_frame; [exact X1|rewrite zlen_le16; lia].
        -- rewrite P. apply holds_store16.
        -- apply holds_store16_frame; [exact X3|lia].
    + rewrite N, Dd. apply holds_store16_frame; [exact D|zl].
  - cbn [tf_m with_mem set_m_ib]. apply store16_outside; rewrite P; zl.
Qed.

(** ** Resizing one entry *)

Definition state_of (t : TAGFIELDS) (m : mem) (l : list ENTRY) : TAGFIELDS := Tagfields m (m_rgtagfld t) (size l) (zlen l) (dataWorkBuf_Cb t).

(** The entries behind a resized one get their new offsets.  [t1] is the state
    in which the data have been moved. *)
Lemma finish_resize t l1 e l2 t1 e' hi : rep small t (l1 ++ e :: l2) -> mem_ok (tf_m t1) -> entry_ok small e' -> m_rgtagfld t1 = m_rgtagfld t ->
  let n := zlen (l1 ++ e :: l2) in let ib := ib_of n l1 in let rg := m_rgtagfld t in let delta := zlen (e_data e') - zlen (e_data e) in
  holds (tf_m t1) rg (entries (4 * n) l1) -> holds (tf_m t1) (rg + 4 * zlen l1) (le16 (e_fid e') ++ le16 (e_word e' + ib)) ->
  holds (tf_m t1) (rg + 4 * (zlen l1 + 1)) (entries (ib + zlen (e_data e)) l2) ->
  holds (tf_m t1) (rg + 4 * n) (datas l1) -> holds (tf_m t1) (rg + ib) (e_data e') -> holds (tf_m t1) (rg + ib + zlen (e_data e')) (datas l2) ->
  size (l1 ++ e' :: l2) <= maskIb small -> same_outside rg (rg + hi) (tf_m t) (tf_m t1) -> 4 * n <= hi ->
  exists m', delta_loop small (length l2) t1 (zlen l1 + 1) delta = with_mem t1 m' /\ moved hi t (state_of t m' (l1 ++ e' :: l2)) (l1 ++ e' :: l2).
Proof.
  intros R Hm He' Erg n ib rg delta A1 A2 A3 D1 D2 D3 Fit S Hhi.
  pose proof (at_range small t l1 e l2 R) as (B1 & B2). pose proof (at_count l1 e l2) as C. fold n in B1, B2, C. fold ib in B1, B2.
  assert (N : zlen (l1 ++ e' :: l2) = n) by (unfold n; zl).
  assert (I : ib = 4 * n + zlen (datas l1)) by reflexivity.
  assert (W : size (l1 ++ e' :: l2) = ib + zlen (e_data e') + zlen (datas l2)) by (unfold size; rewrite N, datas_app, datas_cons; zl).
  assert (P : pb_tagfld t1 (zlen l1 + 1) = rg + 4 * (zlen l1 + 1)) by (unfold pb_tagfld, rg, sizeof_TAGFLD; now rewrite Erg).
  pose proof (rep_ok _ _ _ R) as F. apply Forall_app in F as [F1 F2]. apply Forall_cons_iff in F2 as [Fe F2].
  pose proof (zlen_nonneg (e_data e)). pose proof (zlen_nonneg (e_data e')). pose proof (zlen_nonneg (datas l2)). pose proof (zlen_nonneg l1). pose proof (zlen_nonneg l2).
  destruct (delta_loop_spec l2 t1 (zlen l1 + 1) (ib + zlen (e_data e)) delta) as (m' & E & Hm' & E3 & S'); try assumption; try (unfold delta; lia).
  { rewrite P. exact A3. }
  rewrite P in E3, S'. exists m'. split; [exact E|]. split; [|split; [reflexivity|split; [reflexivity|]]].
  - split; cbn [tf_m state_of m_rgtagfld CTaggedColumns CbTaggedColumns]; fold rg.
    + exact Hm'.
    + apply Forall_app. split; [exact F1|]. now apply Forall_cons.
    + reflexivity.
    + reflexivity.
    + exact Fit.
    + rewrite N, entries_app, holds_app, zlen_entries. fold (ib_of n l1). fold ib. split.
      * eapply holds_same_outside; [exact A1|exact S'|]. rewrite zlen_entries. zl.
      * cbn [entries]. rewrite app_assoc, holds_app. split.
        -- eapply holds_same_outside; [exact A2|exact S'|]. rewrite zlen_app, !zlen_le16. lia.
        -- rewrite zlen_app, !zlen_le16. replace (ib + zlen (e_data e')) with (ib + zlen (e_data e) + delta) by (unfold delta; lia).
           replace (rg + 4 * zlen l1 + (2 + 2)) with (rg + 4 * (zlen l1 + 1)) by lia. exact E3.
    + rewrite N. pose proof (zlen_nonneg (datas l1)). rewrite datas_app, datas_cons, !holds_app. split; [|split].
      * eapply holds_same_outside; [exact D1|exact S'|]. lia.
      * replace (rg + 4 * n + zlen (datas l1)) with (rg + ib) by lia. eapply holds_same_outside; [exact D2|exact S'|]. lia.
      * replace (rg + 4 * n + zlen (datas l1) + zlen (e_data e')) with (rg + ib + zlen (e_data e')) by lia. eapply holds_same_outside; [exact D3|exact S'|]. lia.
  - cbn [tf_m state_of]. fold rg. eapply same_outside_trans; [exact S|]. eapply same_outside_weaken; [exact S'|lia..].
Qed.

Lemma last_or_not l1 (e : ENTRY) l2 : (zlen l1 <? zlen (l1 ++ e :: l2) - 1) = match l2 with [] => false | _ => true end.
Proof. destruct l2; [apply Z.ltb_ge|apply Z.ltb_lt]; zl. Qed.

Lemma size_at l1 e l2 : size (l1 ++ e :: l2) = ib_of (zlen (l1 ++ e :: l2)) l1 + zlen (e_data e) + zlen (datas l2).
Proof. unfold size, ib_of. rewrite datas_app, datas_cons, (zlen_app (datas l1)), (zlen_app (e_data e)). lia. Qed.

(** [ResizeTagfld]: the data keep their bytes as far as there is room; bytes that
    are added hold whatever was there. *)
Lemma ResizeTagfld_spec t l1 e l2 delta : rep small t (l1 ++ e :: l2) -> 0 <= zlen (e_data e) + delta -> size (l1 ++ e :: l2) + delta <= maskIb small ->
  exists junk, zlen junk = Z.max 0 delta /\
    moved (Z.max (size (l1 ++ e :: l2)) (size (l1 ++ e :: l2) + delta)) t (ResizeTagfld small t (zlen l1) delta)
      (l1 ++ set_data e (firstn (Z.to_nat (zlen (e_data e) + delta)) (e_data e ++ junk)) :: l2).
Proof.
  intros R K Fit. pose proof (at_range small t l1 e l2 R) as (B1 & B2). pose proof (at_count l1 e l2) as C.
  pose proof (at_entries small t l1 e l2 R) as (A1 & A2). pose proof (at_datas small t l1 e l2 R) as (D1 & D2 & D3).
  pose proof (maskIb_range small) as M. pose proof (size_at l1 e l2) as W. pose proof (at_entry_ok small t l1 e l2 R) as He.
  set (n := zlen (l1 ++ e :: l2)) in *. set (ib := ib_of n l1) in *. set (rg := m_rgtagfld t) in *.
  assert (I : ib = 4 * n + zlen (datas l1)) by reflexivity.
  pose proof (zlen_nonneg (e_data e)) as Ze. pose proof (zlen_nonneg (datas l2)) as Z2. pose proof (zlen_nonneg (datas l1)) as Z1. pose proof (zlen_nonneg l1). pose proof (zlen_nonneg l2).
  set (m1 := match l2 with [] => tf_m t | _ => memmove (tf_m t) (rg + ib + zlen (e_data e) + delta) (rg + ib + zlen (e_data e)) (zlen (datas l2)) end).
  assert (Hm1 : mem_ok m1) by (unfold m1; destruct l2; [apply R|apply memmove_ok, R]).
  set (hi := Z.max (size (l1 ++ e :: l2)) (size (l1 ++ e :: l2) + delta)).
  assert (S1 : same_outside (rg + ib + Z.min (zlen (e_data e)) (zlen (e_data e) + delta)) (rg + hi) (tf_m t) m1).
  { unfold m1. destruct l2; [apply same_outside_refl|]. apply memmove_outside; unfold hi; lia. }
  exists (load_bytes m1 (rg + ib + zlen (e_data e)) (Z.max 0 delta)). set (junk := load_bytes m1 _ _). split; [apply zlen_load_bytes; lia|].
  set (nd := firstn (Z.to_nat (zlen (e_data e) + delta)) (e_data e ++ junk)).
  assert (Lj : zlen junk = Z.max 0 delta) by (apply zlen_load_bytes; lia).
  assert (Ln : zlen nd = zlen (e_data e) + delta) by (unfold nd, zlen in *; rewrite length_firstn, length_app; lia).
  assert (Hnd : holds m1 (rg + ib) nd).
  { unfold nd. destruct (Z.le_gt_cases 0 delta).
    - rewrite firstn_all2 by (unfold zlen in *; rewrite length_app; lia). rewrite holds_app. split; [|apply holds_load_bytes].
      eapply holds_same_outside; [exact D2|exact S1|lia].
    - assert (J : junk = []) by (apply length_zero_iff_nil; unfold zlen in Lj; lia). rewrite J, app_nil_r.
      eapply holds_same_outside; [apply holds_firstn, D2|exact S1|]. unfold zlen. rewrite length_firstn. unfold zlen in *. lia. }
  assert (H2 : holds m1 (rg + ib + zlen nd) (datas l2)).
  { rewrite Ln. unfold m1. destruct l2; [apply holds_nil|]. rewrite Z.add_assoc. apply holds_memmove; [exact D3|reflexivity]. }
  assert (E1 : ResizeTagfld small t (zlen l1) delta = delta_loop small (length l2) (Tagfields m1 rg (size (l1 ++ e :: l2) + delta) n (dataWorkBuf_Cb t)) (zlen l1 + 1) delta).
  { unfold ResizeTagfld. replace (s16 delta) with delta by (symmetry; apply s16_small; lia).
    replace (zlen l1 <? CTaggedColumns t - 1) with (match l2 with [] => false | _ => true end) by (now rewrite (rep_c _ _ _ R), last_or_not).
    unfold m1. destruct l2 as [|e2 l2]; unfold with_size, with_mem; cbn [tf_m m_rgtagfld CbTaggedColumns CTaggedColumns dataWorkBuf_Cb]; rewrite ?(rep_c _ _ _ R), ?(rep_cb _ _ _ R), u32_small by lia; fold n.
    - replace (Z.to_nat (n - (zlen l1 + 1))) with 0%nat by zl. reflexivity.
    - unfold PbData. rewrite (next_Ib small t l1 e e2 l2 R). fold n ib rg. replace (Z.to_nat (n - (zlen l1 + 1))) with (length (e2 :: l2)) by (unfold zlen in *; lia).
      replace (size (l1 ++ e :: e2 :: l2) - (ib + zlen (e_data e))) with (zlen (datas (e2 :: l2))) by lia. now rewrite Z.add_assoc. }
  set (t1 := Tagfields m1 _ _ _ _) in E1.
  assert (Fit' : size (l1 ++ set_data e nd :: l2) = size (l1 ++ e :: l2) + delta) by (rewrite !size_app, !size_cons; cbn [set_data e_data]; lia).
  destruct (finish_resize t l1 e l2 t1 (set_data e nd) hi R) as (m' & E2 & Mv); fold n ib rg; cbn [t1 tf_m m_rgtagfld set_data e_data e_fid].
  - exact Hm1.
  - destruct He as (a & b & c). split; [exact a|]. split; [now apply (holds_bytes_ok m1 (rg + ib))|exact c].
  - reflexivity.
  - eapply holds_same_outside; [exact A1|exact S1|]. rewrite zlen_entries. lia.
  - change (e_word (set_data e nd)) with (e_word e). cbn [entries] in A2. rewrite app_assoc, holds_app in A2. destruct A2 as [A2 _].
    eapply holds_same_outside; [exact A2|exact S1|]. rewrite zlen_app, !zlen_le16. lia.
  - cbn [entries] in A2. rewrite app_assoc, holds_app, zlen_app, !zlen_le16 in A2. destruct A2 as [_ A3].
    replace (rg + 4 * (zlen l1 + 1)) with (rg + 4 * zlen l1 + (2 + 2)) by lia. eapply holds_same_outside; [exact A3|exact S1|]. rewrite zlen_entries. lia.
  - eapply holds_same_outside; [exact D1|exact S1|]. lia.
  - exact Hnd.
  - exact H2.
  - fold nd. lia.
  - eapply same_outside_weaken; [exact S1|lia..].
  - unfold hi. lia.
  - cbn [set_data e_data] in E2. replace (zlen nd - zlen (e_data e)) with delta in E2 by lia. rewrite E1, E2. unfold t1, with_mem. cbn [m_rgtagfld CbTaggedColumns CTaggedColumns dataWorkBuf_Cb].
    unfold state_of in Mv. rewrite Fit' in Mv. replace (zlen (l1 ++ set_data e nd :: l2)) with n in Mv by (unfold n; zl). exact Mv.
Qed.

(** ** Deleting *)

(** A state put together from two parts of the array. *)
Lemma rep_join t m l1 l2 : mem_ok m -> Forall (entry_ok small) l1 -> Forall (entry_ok small) l2 -> size (l1 ++ l2) <= maskIb small ->
  let n := zlen (l1 ++ l2) in let rg := m_rgtagfld t in
  holds m rg (entries (4 * n) l1) -> holds m (rg + 4 * zlen l1) (entries (4 * n + zlen (datas l1)) l2) ->
  holds m (rg + 4 * n) (datas l1) -> holds m (rg + 4 * n + zlen (datas l1)) (datas l2) -> rep small (state_of t m (l1 ++ l2)) (l1 ++ l2).
Proof.
  intros Hm F1 F2 Fit n rg A1 A2 D1 D2. split; cbn [state_of tf_m m_rgtagfld CTaggedColumns CbTaggedColumns]; fold n rg; try assumption; try reflexivity.
  - now apply Forall_app.
  - rewrite entries_app, holds_app, zlen_entries. now split.
  - rewrite datas_app, holds_app. now split.
Qed.

(** What [DeleteEntryAndData] leaves of an array of entries of [k] bytes. *)
Lemma DeleteEntryAndData_spec m p k a b d c pbMax : mem_ok m -> 0 <= k -> holds m (p + k) (a ++ b ++ d ++ c) -> pbMax = p + k + zlen a + zlen b + zlen d + zlen c ->
  let m' := DeleteEntryAndData m p k (if 0 <? zlen d then p + k + zlen a + zlen b else 0) (zlen d) pbMax in
  mem_ok m' /\ holds m' p (a ++ b ++ c) /\ same_outside p pbMax m m'.
Proof.
  intros Hm Hk H -> m'. assert (D1 : same_outside p (p + k + zlen a + zlen b + zlen d + zlen c) m (memmove m p (p + k) (zlen a + zlen b + zlen d + zlen c))) by (apply memmove_outside; zl).
  assert (H1 : holds (memmove m p (p + k) (zlen a + zlen b + zlen d + zlen c)) p (a ++ b ++ d ++ c)) by (apply holds_memmove; [exact H|zl]).
  unfold m', DeleteEntryAndData. replace (p + k + zlen a + zlen b + zlen d + zlen c - (p + k)) with (zlen a + zlen b + zlen d + zlen c) by lia.
  set (m1 := memmove m p (p + k) _) in *. assert (Hm1 : mem_ok m1) by (apply memmove_ok, Hm).
  destruct (Z.eqb_spec (zlen d) 0) as [Ed|Ed].
  - assert (d = []) as -> by (apply length_zero_iff_nil; unfold zlen in Ed; lia). now split.
  - rewrite (proj2 (Z.ltb_lt 0 (zlen d))) by zl. split; [apply memmove_ok, Hm1|].
    replace (p + k + zlen a + zlen b - k) with (p + zlen a + zlen b) by lia. replace (p + k + zlen a + zlen b + zlen d - k) with (p + zlen a + zlen b + zlen d) by lia.
    replace (p + k + zlen a + zlen b + zlen d + zlen c - k - (p + zlen a + zlen b + zlen d)) with (zlen c) by lia.
    rewrite !holds_app in H1. rewrite !holds_app. destruct H1 as (X1 & X2 & X3 & X4). split; [split; [|split]|].
    + apply holds_memmove_frame; [exact X1|zl].
    + apply holds_memmove_frame; [exact X2|zl].
    + now apply holds_memmove.
    + eapply same_outside_trans; [exact D1|]. apply memmove_outside; zl.
Qed.

(** [DeleteTagfld]: the entry is gone. *)
Lemma DeleteTagfld_spec t l1 e l2 : rep small t (l1 ++ e :: l2) -> moved (size (l1 ++ e :: l2)) t (DeleteTagfld small t (zlen l1)) (l1 ++ l2).
Proof.
  intros R. pose proof (at_range small t l1 e l2 R) as (B1 & B2). pose proof (at_count l1 e l2) as C.
  pose proof (at_entries small t l1 e l2 R) as (A1 & A2). pose proof (rep_datas _ _ _ R) as D.
  pose proof (maskIb_range small) as M. pose proof (size_at l1 e l2) as W. pose proof (at_entry_ok small t l1 e l2 R) as He.
  pose proof (rep_ok _ _ _ R) as F. apply Forall_app in F as [F1 F2]. apply Forall_cons_iff in F2 as [_ F2]. pose proof (rep_fit _ _ _ R) as Fit.
  set (n := zlen (l1 ++ e :: l2)) in *. set (ib := ib_of n l1) in *. set (rg := m_rgtagfld t) in *.
  assert (I : ib = 4 * n + zlen (datas l1)) by reflexivity. set (hi := size (l1 ++ e :: l2)) in *.
  pose proof (zlen_nonneg (e_data e)) as Ze. pose proof (zlen_nonneg (datas l2)) as Z2. pose proof (zlen_nonneg (datas l1)) as Z1. pose proof (zlen_nonneg l1) as Y1. pose proof (zlen_nonneg l2) as Y2.
  assert (Al : holds (tf_m t) (rg + 4 * zlen l1 + 4) (entries (ib + zlen (e_data e)) l2 ++ datas l1 ++ e_data e ++ datas l2)).
  { cbn [entries] in A2. rewrite app_assoc, holds_app, zlen_app, !zlen_le16 in A2. rewrite holds_app, zlen_entries. split; [apply A2|].
    replace (rg + 4 * zlen l1 + 4 + 4 * zlen l2) with (rg + 4 * n) by lia. now rewrite datas_app, datas_cons in D. }
  apply (DeleteEntryAndData_spec _ _ _ _ _ _ _ (rg + hi)) in Al; [|apply R|lia|rewrite zlen_entries; lia].
  rewrite zlen_entries in Al. replace (rg + 4 * zlen l1 + 4 + 4 * zlen l2 + zlen (datas l1)) with (rg + ib) in Al by lia.
  unfold DeleteTagfld, PbMax. rewrite (at_CbData small t l1 e l2 R), (at_PbData small t l1 e l2 R), (rep_cb _ _ _ R), (rep_c _ _ _ R).
  change (pb_tagfld t (zlen l1)) with (rg + 4 * zlen l1). unfold sizeof_TAGFLD. fold n ib rg hi.
  set (m1 := DeleteEntryAndData _ _ _ _ _ _) in *. destruct Al as (Hm1 & H1 & S1). rewrite !holds_app, zlen_entries in H1. destruct H1 as (A3 & D1 & D2).
  unfold with_size, with_mem. cbn [tf_m m_rgtagfld CTaggedColumns dataWorkBuf_Cb].
  rewrite (u32_small (hi - (4 + zlen (e_data e)))) by lia. rewrite (s16_small (4 + zlen (e_data e))), s16_small by lia.
  fold rg. set (t1 := Tagfields m1 rg (hi - (4 + zlen (e_data e))) (n - 1) (dataWorkBuf_Cb t)).
  assert (A1' : holds m1 rg (entries (4 * n) l1)) by (eapply holds_same_outside; [exact A1|exact S1|rewrite zlen_entries; lia]).
  destruct (delta_loop_spec l1 t1 0 (4 * n) (Z.opp 4)) as (m2 & E2 & Hm2 & A4 & S2); try assumption; try lia.
  { unfold pb_tagfld, sizeof_TAGFLD. cbn [t1 m_rgtagfld tf_m]. now rewrite Z.mul_0_r, Z.add_0_r. }
  unfold pb_tagfld, sizeof_TAGFLD in A4, S2. cbn [t1 m_rgtagfld tf_m] in A4, S2. rewrite Z.mul_0_r, Z.add_0_r in A4, S2.
  rewrite length_zlen, E2. set (t2 := with_mem t1 m2). cbn [t2 t1 with_mem CTaggedColumns]. replace (Z.to_nat (n - 1 - zlen l1)) with (length l2) by (unfold zlen in *; lia).
  destruct (delta_loop_spec l2 t2 (zlen l1) (ib + zlen (e_data e)) (- (4 + zlen (e_data e)))) as (m3 & E3 & Hm3 & A5 & S3); try assumption; try lia.
  { change (holds m2 (rg + 4 * zlen l1) (entries (ib + zlen (e_data e)) l2)). eapply holds_same_outside; [exact A3|exact S2|rewrite zlen_entries; lia]. }
  change (holds m3 (rg + 4 * zlen l1) (entries (ib + zlen (e_data e) + - (4 + zlen (e_data e))) l2)) in A5.
  change (same_outside (rg + 4 * zlen l1) (rg + 4 * zlen l1 + 4 * zlen l2) m2 m3) in S3.
  rewrite E3. assert (N : zlen (l1 ++ l2) = n - 1) by zl. assert (Sz : size (l1 ++ l2) = hi - (4 + zlen (e_data e))) by (unfold hi; rewrite !size_app, size_cons; lia).
  replace (with_mem t2 m3) with (state_of t m3 (l1 ++ l2)) by (unfold state_of, t2, t1, with_mem; cbn [m_rgtagfld CbTaggedColumns CTaggedColumns dataWorkBuf_Cb]; now rewrite N, Sz).
  assert (S23 : same_outside rg (rg + 4 * (n - 1)) m1 m3).
  { eapply same_outside_trans; eapply same_outside_weaken; [exact S2|..|exact S3|idtac|idtac]; lia. }
  split; [|split; [reflexivity|split; [reflexivity|]]].
  - apply rep_join; try assumption; rewrite ?Sz, ?N; fold rg; [lia|..].
    + replace (4 * (n - 1)) with (4 * n + Z.opp 4) by lia. eapply holds_same_outside; [exact A4|exact S3|rewrite zlen_entries; lia].
    + replace (4 * (n - 1) + zlen (datas l1)) with (ib + zlen (e_data e) + - (4 + zlen (e_data e))) by lia. exact A5.
    + replace (rg + 4 * (n - 1)) with (rg + 4 * zlen l1 + 4 * zlen l2) by lia. eapply holds_same_outside; [exact D1|exact S23|lia].
    + replace (rg + 4 * (n - 1) + zlen (datas l1)) with (rg + 4 * zlen l1 + 4 * zlen l2 + zlen (datas l1)) by lia. eapply holds_same_outside; [exact D2|exact S23|lia].
  - cbn [state_of tf_m]. fold rg. eapply same_outside_trans; eapply same_outside_weaken; [exact S1|..|exact S23|idtac|idtac]; lia.
Qed.

(** ** Inserting *)

Lemma rep_parts t l1 l2 : rep small t (l1 ++ l2) -> let n := zlen (l1 ++ l2) in let rg := m_rgtagfld t in
  holds (tf_m t) rg (entries (4 * n) l1) /\ holds (tf_m t) (rg + 4 * zlen l1) (entries (4 * n + zlen (datas l1)) l2) /\
  holds (tf_m t) (rg + 4 * n) (datas l1) /\ holds (tf_m t) (rg + 4 * n + zlen (datas l1)) (datas l2).
Proof.
  intros R n rg. pose proof (rep_entries _ _ _ R) as A. pose proof (rep_datas _ _ _ R) as D. fold n rg in A, D.
  rewrite entries_app, holds_app, zlen_entries in A. rewrite datas_app, holds_app in D. tauto.
Qed.

Lemma make_room_spec t l1 l2 k : rep small t (l1 ++ l2) -> 0 <= k -> size (l1 ++ l2) + 4 + k <= maskIb small ->
  let n := zlen (l1 ++ l2) in let rg := m_rgtagfld t in
  exists m1, make_room small t (zlen l1) k = (with_mem t m1, 4 * (n + 1) + zlen (datas l1)) /\ mem_ok m1 /\
    holds m1 rg (entries (4 * n) l1) /\ holds m1 (rg + 4 * (zlen l1 + 1)) (entries (4 * n + zlen (datas l1)) l2) /\
    holds m1 (rg + 4 * (n + 1)) (datas l1) /\ holds m1 (rg + 4 * (n + 1) + zlen (datas l1) + k) (datas l2) /\
    same_outside rg (rg + size (l1 ++ l2) + 4 + k) (tf_m t) m1.
Proof.
  intros R Hk Fit n rg. destruct (rep_parts t l1 l2 R) as (A1 & A2 & D1 & D2). fold n rg in A1, A2, D1, D2. pose proof (rep_mem _ _ _ R) as Hm.
  assert (W : size (l1 ++ l2) = 4 * n + zlen (datas l1) + zlen (datas l2)) by (unfold size; fold n; rewrite datas_app; zl).
  assert (N : n = zlen l1 + zlen l2) by (unfold n; zl). pose proof (zlen_nonneg l1) as Y1. pose proof (zlen_nonneg l2) as Y2. pose proof (zlen_nonneg (datas l1)) as Z1. pose proof (zlen_nonneg (datas l2)) as Z2.
  destruct l2 as [|e l2].
  - assert (El : (zlen l1 <? CTaggedColumns t) = false) by (rewrite (rep_c _ _ _ R); apply Z.ltb_ge; zl). unfold make_room. rewrite El, (rep_c _ _ _ R). fold n. rewrite (@zlen_nil ENTRY) in N.
    destruct l1 as [|e1 l1].
    + exists (tf_m t). split; [destruct t; reflexivity|]. repeat (split; [first [exact Hm|apply holds_nil]|]). apply same_outside_refl.
    + rewrite (proj2 (Z.ltb_lt 0 n)) by zl.
      assert (Ei : IbStartOfTaggedData small t = 4 * n) by (unfold IbStartOfTaggedData; change 0 with (@zlen ENTRY []); rewrite (at_Ib small t [] e1 (l1 ++ []) R); unfold ib_of; rewrite datas_nil, zlen_nil; fold n; apply Z.add_0_r).
      rewrite Ei, (rep_cb _ _ _ R), W. unfold sizeof_TAGFLD. eexists. split; [f_equal; rewrite datas_nil, zlen_nil; lia|]. rewrite datas_nil, zlen_nil in *.
      replace (4 * n + zlen (datas (e1 :: l1)) + 0 - 4 * n) with (zlen (datas (e1 :: l1))) by lia. fold rg. split; [apply memmove_ok, Hm|]. split; [|split; [|split; [|split]]].
      * apply holds_memmove_frame; [exact A1|]. rewrite zlen_entries. lia.
      * apply holds_nil.
      * replace (rg + 4 * (n + 1)) with (rg + 4 * n + 4) by lia. now apply holds_memmove.
      * apply holds_nil.
      * apply memmove_outside; lia.
  - assert (El : (zlen l1 <? CTaggedColumns t) = true) by (rewrite (rep_c _ _ _ R); apply Z.ltb_lt; zl). unfold make_room. rewrite El.
    rewrite (at_PbData small t l1 e l2 R), (at_Ib small t l1 e l2 R). unfold PbMax. rewrite (rep_cb _ _ _ R), W. fold n rg. unfold ib_of, sizeof_TAGFLD, with_mem, pb_tagfld, sizeof_TAGFLD.
    cbn [tf_m m_rgtagfld CbTaggedColumns CTaggedColumns dataWorkBuf_Cb]. fold rg.
    replace (rg + (4 * n + zlen (datas l1) + zlen (datas (e :: l2))) - (rg + (4 * n + zlen (datas l1)))) with (zlen (datas (e :: l2))) by lia.
    set (m1 := memmove (tf_m t) _ _ _). eexists. split; [f_equal; lia|].
    assert (Hm1 : mem_ok m1) by (apply memmove_ok, Hm). split; [apply memmove_ok, Hm1|].
    assert (S1 : same_outside (rg + 4 * n + zlen (datas l1) + 4 + k) (rg + size (l1 ++ e :: l2) + 4 + k) (tf_m t) m1) by (apply memmove_outside; lia).
    assert (A1' : holds m1 rg (entries (4 * n) l1)) by (eapply holds_same_outside; [exact A1|exact S1|rewrite zlen_entries; lia]).
    assert (AD : holds m1 (rg + 4 * zlen l1) (entries (4 * n + zlen (datas l1)) (e :: l2) ++ datas l1)).
    { rewrite holds_app, zlen_entries. replace (rg + 4 * zlen l1 + 4 * zlen (e :: l2)) with (rg + 4 * n) by lia. split.
      - eapply holds_same_outside; [exact A2|exact S1|rewrite zlen_entries; lia].
      - eapply holds_same_outside; [exact D1|exact S1|lia]. }
    replace (4 * n + zlen (datas l1) - zlen l1 * 4) with (4 * zlen (e :: l2) + zlen (datas l1)) by lia.
    assert (AD' : holds (memmove m1 (rg + 4 * zlen l1 + 4) (rg + 4 * zlen l1) (4 * zlen (e :: l2) + zlen (datas l1))) (rg + 4 * zlen l1 + 4) (entries (4 * n + zlen (datas l1)) (e :: l2) ++ datas l1))
      by (apply holds_memmove; [exact AD|rewrite zlen_app, zlen_entries; lia]).
    rewrite holds_app, zlen_entries in AD'. destruct AD' as [X1 X2]. split; [|split; [|split; [|split]]].
    + apply holds_memmove_frame; [exact A1'|rewrite zlen_entries; lia].
    + replace (rg + 4 * (zlen l1 + 1)) with (rg + 4 * zlen l1 + 4) by lia. exact X1.
    + replace (rg + 4 * (n + 1)) with (rg + 4 * zlen l1 + 4 + 4 * zlen (e :: l2)) by lia. exact X2.
    + apply holds_memmove_frame; [|lia]. replace (rg + 4 * (n + 1) + zlen (datas l1) + k) with (rg + (4 * n + zlen (datas l1)) + 4 + k) by lia.
      apply holds_memmove; [|reflexivity]. replace (rg + (4 * n + zlen (datas l1))) with (rg + 4 * n + zlen (datas l1)) by lia. exact D2.
    + eapply same_outside_trans; [eapply same_outside_weaken; [exact S1|lia..]|]. apply memmove_outside; lia.
Qed.

(** [insert_data] writes the header byte and the data. *)
Lemma insert_data_spec t p (ext : bool) pd b : mem_ok (tf_m t) -> 0 <= b < 256 -> match pd with Some d => bytes_ok d | None => True end ->
  let bytes := (if ext then [b] else []) ++ match pd with Some d => d | None => [] end in
  exists m', insert_data t p ext (zlen bytes) pd b = with_mem t m' /\ mem_ok m' /\ holds m' p bytes /\ same_outside p (p + zlen bytes) (tf_m t) m'.
Proof.
  intros Hm Hb Hd bytes. unfold insert_data. destruct (Z.ltb_spec 0 (zlen bytes)) as [L|L].
  2:{ exists (tf_m t). split; [now destruct t|]. split; [exact Hm|]. split; [|apply same_outside_refl]. assert (bytes = []) as -> by (apply length_zero_iff_nil; unfold zlen in L; lia). apply holds_nil. }
  assert (Hm1 : mem_ok (store8 (tf_m t) p b)) by (apply store8_ok, Hm). unfold bytes in *. destruct ext.
  - rewrite zlen_app, zlen_cons, zlen_nil in *. unfold set_header, sizeof_TAGFLD_HEADER. destruct pd as [d|].
    + destruct (Z.ltb_spec 1 (1 + 0 + zlen d)) as [L1|L1].
      * exists (store_bytes (store8 (tf_m t) p b) (p + 1) d). split; [reflexivity|]. split; [now apply store_bytes_ok|]. rewrite holds_app. split.
        -- split; [apply holds_store_bytes_frame; [now apply holds_store8|rewrite zlen_cons, zlen_nil; lia]|]. apply holds_store_bytes. exact Hd.
        -- eapply same_outside_trans; [apply store8_outside|apply store_bytes_outside]; lia.
      * exists (store8 (tf_m t) p b). split; [reflexivity|]. split; [exact Hm1|]. assert (d = []) as -> by (apply length_zero_iff_nil; unfold zlen in L1; lia).
        split; [now apply holds_store8|]. apply store8_outside; rewrite ?zlen_nil; lia.
    + rewrite ?zlen_nil in *. exists (store8 (tf_m t) p b). split; [reflexivity|]. split; [exact Hm1|]. split; [now apply holds_store8|]. apply store8_outside; lia.
  - cbn [app] in *. rewrite (proj2 (Z.ltb_lt _ _)) by exact L. destruct pd as [d|].
    + exists (store_bytes (tf_m t) p d). split; [reflexivity|]. split; [now apply store_bytes_ok|]. split; [apply holds_store_bytes; exact Hd|]. apply store_bytes_outside; lia.
    + unfold zlen in L; cbn in L; lia.
Qed.

Lemma TAGFLD_HEADER_new_range c s n k e : 0 <= TAGFLD_HEADER_new small c s n k e < 256.
Proof. unfold TAGFLD_HEADER_new. destruct (FRECLongValue c), s, n, k, e, small; vm_compute; split; discriminate || reflexivity. Qed.

Lemma InsertTagfld_spec t l1 e l2 w pd c sep comp enc : rep small t (l1 ++ l2) -> entry_ok small e -> size (l1 ++ e :: l2) <= maskIb small ->
  match pd with Some d => bytes_ok d | None => True end ->
  (forall ib, 0 <= ib <= maskIb small -> SetIb small w ib = e_word e + ib) ->
  FExtendedInfo small (Tagfld (e_fid e) w) = negb small || e_ext e ->
  e_data e = (if negb small || e_ext e then [TAGFLD_HEADER_new small c sep (fbit w fNullSmallPage) comp enc] else []) ++ match pd with Some d => d | None => [] end ->
  moved (size (l1 ++ e :: l2)) t (InsertTagfld small t (zlen l1) (Tagfld (e_fid e) w) pd c sep comp enc) (l1 ++ e :: l2).
Proof.
  intros R He Fit Hpd HSet HExt Hdata. pose proof (rep_ok _ _ _ R) as F. apply Forall_app in F as [F1 F2]. pose proof (maskIb_range small) as M.
  assert (Sz : size (l1 ++ e :: l2) = size (l1 ++ l2) + 4 + zlen (e_data e)) by (rewrite !size_app, size_cons; lia).
  pose proof (zlen_nonneg (e_data e)) as Ze. pose proof (zlen_nonneg l1) as Y1. pose proof (zlen_nonneg l2) as Y2. pose proof (zlen_nonneg (datas l1)) as Z1. pose proof (zlen_nonneg (datas l2)) as Z2.
  destruct (make_room_spec t l1 l2 (zlen (e_data e)) R) as (m1 & E1 & Hm1 & A1 & A2 & D1 & D2 & S1); [lia|lia|].
  set (n := zlen (l1 ++ l2)) in *. set (rg := m_rgtagfld t) in *. set (ib := 4 * (n + 1) + zlen (datas l1)) in *.
  assert (W : size (l1 ++ l2) = 4 * n + zlen (datas l1) + zlen (datas l2)) by (unfold size; fold n; rewrite datas_app; zl).
  assert (N : n = zlen l1 + zlen l2) by (unfold n; zl). assert (N' : zlen (l1 ++ e :: l2) = n + 1) by zl.
  assert (Ek : match pd with Some d => Cb d | None => 0 end + (if FExtendedInfo small (Tagfld (e_fid e) w) then sizeof_TAGFLD_HEADER else 0) = zlen (e_data e)).
  { rewrite HExt, Hdata, zlen_app. unfold sizeof_TAGFLD_HEADER. destruct pd, (negb small || e_ext e); unfold Cb, zlen; cbn [length]; lia. }
  assert (Eib : ib = 4 * (n + 1) + zlen (datas l1)) by reflexivity.
  assert (Bib : 0 <= ib <= maskIb small) by lia.
  unfold InsertTagfld. rewrite Ek, E1. cbn [fst snd Fid m_ib]. rewrite (u16_small ib), (HSet ib Bib), word_Ib, word_FExtendedInfo by (assumption || lia).
  unfold with_size, with_mem. cbn [tf_m m_rgtagfld CbTaggedColumns CTaggedColumns dataWorkBuf_Cb]. rewrite (rep_cb _ _ _ R), (rep_c _ _ _ R), u32_small by (unfold sizeof_TAGFLD; lia). fold n rg.
  set (t1 := Tagfields m1 rg _ _ _).
  destruct (insert_data_spec t1 (rg + ib) (negb small || e_ext e) pd (TAGFLD_HEADER_new small c sep (fbit w fNullSmallPage) comp enc)) as (m2 & E2 & Hm2 & De & S2); [exact Hm1|apply TAGFLD_HEADER_new_range|exact Hpd|].
  rewrite <- Hdata in E2, De, S2. rewrite E2. cbn [t1 tf_m with_mem m_rgtagfld CTaggedColumns] in *.
  change (pb_tagfld (with_mem t1 m2) (zlen l1)) with (rg + 4 * zlen l1).
  set (m3 := store16 (store16 m2 (rg + 4 * zlen l1) (e_fid e)) (rg + 4 * zlen l1 + 2) (e_word e + ib)).
  assert (Hm3 : mem_ok m3) by (unfold m3; auto using store16_ok).
  assert (S3 : same_outside (rg + 4 * zlen l1) (rg + 4 * (zlen l1 + 1)) m2 m3) by (eapply same_outside_trans; apply store16_outside; lia).
  assert (En : holds m3 (rg + 4 * zlen l1) (le16 (e_fid e) ++ le16 (e_word e + ib))).
  { rewrite holds_app, zlen_le16. split; [|apply holds_store16]. apply holds_store16_frame; [apply holds_store16|rewrite zlen_le16; lia]. }
  assert (S23 : forall a l, holds m1 a l -> (a + zlen l <= rg + 4 * zlen l1 \/ rg + 4 * (zlen l1 + 1) <= a) -> (a + zlen l <= rg + ib \/ rg + ib + zlen (e_data e) <= a) -> holds m3 a l).
  { intros a l H X Y. eapply holds_same_outside; [eapply holds_same_outside; [exact H|exact S2|lia]|exact S3|lia]. }
  set (t3 := Tagfields m3 rg _ _ _).
  destruct (delta_loop_spec l1 t3 0 (4 * n) 4) as (m4 & E4 & Hm4 & A4 & S4); try assumption; try lia.
  { unfold pb_tagfld, sizeof_TAGFLD. cbn [t3 m_rgtagfld tf_m]. rewrite Z.mul_0_r, Z.add_0_r. apply S23; [exact A1|rewrite zlen_entries; lia|rewrite zlen_entries; lia]. }
  unfold pb_tagfld, sizeof_TAGFLD in A4, S4. cbn [t3 m_rgtagfld tf_m] in A4, S4. rewrite Z.mul_0_r, Z.add_0_r in A4, S4.
  rewrite length_zlen. change sizeof_TAGFLD with 4. rewrite E4. rewrite (s16_small (4 + zlen (e_data e))) by lia.
  change (CTaggedColumns (with_mem t3 m4)) with (n + 1). replace (Z.to_nat (n + 1 - (zlen l1 + 1))) with (length l2) by (unfold zlen in *; lia).
  set (t4 := with_mem t3 m4).
  destruct (delta_loop_spec l2 t4 (zlen l1 + 1) (4 * n + zlen (datas l1)) (4 + zlen (e_data e))) as (m5 & E5 & Hm5 & A5 & S5); try assumption; try lia.
  { change (holds m4 (rg + 4 * (zlen l1 + 1)) (entries (4 * n + zlen (datas l1)) l2)). eapply holds_same_outside; [|exact S4|lia]. apply S23; [exact A2|rewrite zlen_entries; lia|rewrite zlen_entries; lia]. }
  change (holds m5 (rg + 4 * (zlen l1 + 1)) (entries (4 * n + zlen (datas l1) + (4 + zlen (e_data e))) l2)) in A5.
  change (same_outside (rg + 4 * (zlen l1 + 1)) (rg + 4 * (zlen l1 + 1) + 4 * zlen l2) m4 m5) in S5.
  rewrite E5. replace (with_mem t4 m5) with (state_of t m5 (l1 ++ e :: l2)) by (unfold state_of; rewrite N', Sz, <- Z.add_assoc; reflexivity).
  split; [|split; [reflexivity|split; [reflexivity|]]].
  - apply rep_join; try assumption; [now apply Forall_cons|..]; rewrite ?N'; fold rg.
    + replace (4 * (n + 1)) with (4 * n + 4) by lia. eapply holds_same_outside; [exact A4|exact S5|rewrite zlen_entries; lia].
    + fold ib. cbn [entries]. rewrite app_assoc, holds_app, zlen_app, !zlen_le16. split.
      * eapply holds_same_outside; [eapply holds_same_outside; [exact En|exact S4|lia]|exact S5|rewrite zlen_app, !zlen_le16; lia].
      * replace (ib + zlen (e_data e)) with (4 * n + zlen (datas l1) + (4 + zlen (e_data e))) by lia. replace (rg + 4 * zlen l1 + (2 + 2)) with (rg + 4 * (zlen l1 + 1)) by lia. exact A5.
    + eapply holds_same_outside; [eapply holds_same_outside; [apply S23; [exact D1|lia|lia]|exact S4|lia]|exact S5|lia].
    + rewrite datas_cons, holds_app. replace (rg + 4 * (n + 1) + zlen (datas l1)) with (rg + ib) by lia. split.
      * eapply holds_same_outside; [eapply holds_same_outside; [eapply holds_same_outside; [exact De|exact S3|lia]|exact S4|lia]|exact S5|lia].
      * replace (rg + 4 * (n + 1) + zlen (datas l1) + zlen (e_data e)) with (rg + ib + zlen (e_data e)) in D2 by lia.
        eapply holds_same_outside; [eapply holds_same_outside; [apply S23; [exact D2|lia|lia]|exact S4|lia]|exact S5|lia].
  - cbn [state_of tf_m]. fold rg. rewrite Sz. eapply same_outside_trans; [eapply same_outside_weaken; [exact S1|lia..]|].
    eapply same_outside_trans; [eapply same_outside_weaken; [exact S2|lia..]|]. eapply same_outside_trans; [eapply same_outside_weaken; [exact S3|lia..]|].
    eapply same_outside_trans; eapply same_outside_weaken; [exact S4|..|exact S5|idtac|idtac]; lia.
Qed.
End Ops.
