(* ===== verification/TagFldMulti.v ===== *)
(** * Tagged columns: MULTIVALUES

    A column with several values is a header byte, an array of offsets and the
    data of the values, each with a flag that it is separated from the record.
    The operations of MULTIVALUES as updates of the list of values. *)

From Stdlib Require Import ZArith List Lia Bool.
From S2P Require Import Prelude Mem Norm TagFld TagFldView TagFldOps.
Import ListNotations.

(** A value: whether it is separated, and its bytes. *)
Definition INST : Type := bool * list Z.

Definition isep (i : INST) : bool := fst i.
Definition idata (i : INST) : list Z := snd i.
Definition idatas (l : list INST) : list Z := concat (map idata l).

Definition offset_word (s : bool) (o : Z) : Z := flag s 0x8000 + o.

Fixpoint offsets (o : Z) (l : list INST) : list Z :=
  match l with
  | [] => []
  | i :: l => le16 (offset_word (isep i) o) ++ offsets (o + zlen (idata i)) l
  end.

(** The array and the data, without the header byte. *)
Definition mv_bytes (l : list INST) : list Z := offsets (2 * zlen l) l ++ idatas l.
Definition mv_size (l : list INST) : Z := 2 * zlen l + zlen (idatas l).

Lemma zlen_offsets l : forall o, zlen (offsets o l) = 2 * zlen l.
Proof. induction l as [|i l IH]; intros o; [reflexivity|]. cbn [offsets]. rewrite zlen_app, zlen_le16, IH, zlen_cons. lia. Qed.
Lemma zlen_mv_bytes l : zlen (mv_bytes l) = mv_size l.
Proof. unfold mv_bytes, mv_size. now rewrite zlen_app, zlen_offsets. Qed.
Lemma idatas_nil : idatas [] = [].
Proof. reflexivity. Qed.
Lemma idatas_cons i l : idatas (i :: l) = idata i ++ idatas l.
Proof. reflexivity. Qed.
Lemma idatas_app l1 l2 : idatas (l1 ++ l2) = idatas l1 ++ idatas l2.
Proof. unfold idatas. now rewrite map_app, concat_app. Qed.
Lemma offsets_app l1 : forall o l2, offsets o (l1 ++ l2) = offsets o l1 ++ offsets (o + zlen (idatas l1)) l2.
Proof.
  induction l1 as [|i l1 IH]; intros o l2; cbn [offsets app].
  - now rewrite Z.add_0_r.
  - rewrite IH, idatas_cons, zlen_app, <- !app_assoc, Z.add_assoc. reflexivity.
Qed.
Lemma mv_size_app l1 l2 : mv_size (l1 ++ l2) = mv_size l1 + mv_size l2.
Proof. unfold mv_size. rewrite idatas_app, !zlen_app. lia. Qed.
Lemma mv_size_cons i l : mv_size (i :: l) = 2 + zlen (idata i) + mv_size l.
Proof. unfold mv_size. rewrite idatas_cons, zlen_app, zlen_cons. lia. Qed.
Lemma mv_size_nonneg l : 0 <= mv_size l.
Proof. unfold mv_size. pose proof (zlen_nonneg l). pose proof (zlen_nonneg (idatas l)). lia. Qed.

(** ** One offset *)

Lemma offset_word_range s o : 0 <= o < 32768 -> 0 <= offset_word s o < 65536.
Proof. unfold offset_word. destruct s; cbn [flag]; lia. Qed.

Lemma offset_word_high s o : offset_word s o = flag s 1 * 2 ^ 15 + o.
Proof. unfold offset_word. now destruct s. Qed.

Lemma offset_word_Ib s o : 0 <= o < 32768 -> Z.land (offset_word s o) mv_maskIb = o.
Proof. intros H. rewrite offset_word_high. change mv_maskIb with (Z.ones 15). apply land_low; lia. Qed.

Lemma offset_word_flag s o : 0 <= o < 32768 -> Z.land (offset_word s o) mv_maskFlags = flag s 0x8000.
Proof. intros H. rewrite offset_word_high. change mv_maskFlags with (1 * 2 ^ 15). rewrite land_high by lia. now destruct s. Qed.

Lemma offset_word_sep s o : 0 <= o < 32768 -> fbit (offset_word s o) fSeparatedInstance = s.
Proof. intros H. unfold fbit. change fSeparatedInstance with mv_maskFlags. rewrite offset_word_flag by exact H. now destruct s. Qed.

Lemma offset_word_SetIb s o o' : 0 <= o < 32768 -> 0 <= o' < 32768 ->
  Z.lor (Z.land (offset_word s o) mv_maskFlags) (Z.land o' mv_maskIb) = offset_word s o'.
Proof.
  intros H H'. rewrite offset_word_flag by exact H. change mv_maskIb with (Z.ones 15). rewrite Z.land_ones, Z.mod_small by lia. rewrite offset_word_high.
  replace (flag s 0x8000) with (flag s 1 * 2 ^ 15) by (now destruct s). symmetry. apply disjoint_add; lia.
Qed.

Lemma offset_word_set s o : 0 <= o < 32768 -> Z.lor (offset_word s o) fSeparatedInstance = offset_word true o.
Proof.
  intros H. rewrite !offset_word_high, !disjoint_add by lia. rewrite <- Z.lor_assoc, (Z.lor_comm o), Z.lor_assoc. f_equal. now destruct s.
Qed.

Lemma offset_word_reset s o : 0 <= o < 32768 -> Z.ldiff (offset_word s o) fSeparatedInstance = offset_word false o.
Proof.
  intros H. assert (D : Z.land o fSeparatedInstance = 0).
  { change o with (0 * 2 ^ 15 + o). change fSeparatedInstance with (1 * 2 ^ 15). rewrite land_high by lia. reflexivity. }
  assert (E : Z.ldiff o fSeparatedInstance = o).
  { pose proof (Z.lor_ldiff_and o fSeparatedInstance) as X. now rewrite D, Z.lor_0_r in X. }
  rewrite !offset_word_high, !disjoint_add by lia. rewrite !Z.ldiff_land, Z.land_lor_distr_l, <- !Z.ldiff_land, E. now destruct s.
Qed.

(** ** The values in memory *)

Record mvrep (m : mem) (mv : MULTIVALUES) (l : list INST) : Prop := {
  mvr_mem : mem_ok m;
  mvr_c : CMultiValues mv = zlen l;
  mvr_cb : CbMultiValues mv = mv_size l;
  mvr_fit : mv_size l < 32768;
  mvr_bytes : holds m (mv_rgmvoffs mv) (mv_bytes l)
}.

Lemma mv_parts m mv l1 l2 : mvrep m mv (l1 ++ l2) -> let n := zlen (l1 ++ l2) in let rg := mv_rgmvoffs mv in
  holds m rg (offsets (2 * n) l1) /\ holds m (rg + 2 * zlen l1) (offsets (2 * n + zlen (idatas l1)) l2) /\
  holds m (rg + 2 * n) (idatas l1) /\ holds m (rg + 2 * n + zlen (idatas l1)) (idatas l2).
Proof.
  intros R n rg. pose proof (mvr_bytes _ _ _ R) as H. fold rg in H. unfold mv_bytes in H. fold n in H.
  rewrite holds_app, zlen_offsets, offsets_app, holds_app, zlen_offsets, idatas_app, holds_app in H. fold n in H. tauto.
Qed.

(** The data of value [i] behind those of [l1]. *)
Definition mib (n : Z) (l1 : list INST) : Z := 2 * n + zlen (idatas l1).

Section At.
Variables (m : mem) (mv : MULTIVALUES) (l1 : list INST) (i : INST) (l2 : list INST).
Hypothesis R : mvrep m mv (l1 ++ i :: l2).
Let n := zlen (l1 ++ i :: l2).

Lemma mv_size_at : mv_size (l1 ++ i :: l2) = mib n l1 + zlen (idata i) + zlen (idatas l2).
Proof. unfold mv_size, mib. fold n. rewrite idatas_app, idatas_cons, (zlen_app (idatas l1)), (zlen_app (idata i)). lia. Qed.

Lemma mv_at_range : 0 <= mib n l1 /\ mib n l1 + zlen (idata i) + zlen (idatas l2) < 32768.
Proof. pose proof (mvr_fit _ _ _ R) as F. rewrite mv_size_at in F. fold n in F. unfold mib in *. pose proof (zlen_nonneg (idatas l1)). pose proof (zlen_nonneg (l1 ++ i :: l2)) as N. fold n in N. lia. Qed.

Lemma mv_at_word : load16 m (mv_pmvoffs mv (zlen l1)) = offset_word (isep i) (mib n l1).
Proof.
  destruct (mv_parts m mv l1 (i :: l2) R) as (_ & H & _). pose proof mv_at_range. pose proof (zlen_nonneg (idata i)). pose proof (zlen_nonneg (idatas l2)).
  cbn [offsets] in H. rewrite holds_app in H. destruct H as [H _]. fold n in H. fold (mib n l1) in H. unfold mv_pmvoffs, sizeof_MVOFFSET. rewrite (holds_le16 _ _ _ H). apply u16_small, offset_word_range. lia.
Qed.

Lemma mv_at_Ib : mv_Ib m mv (zlen l1) = mib n l1.
Proof. unfold mv_Ib. rewrite mv_at_word. pose proof mv_at_range. pose proof (zlen_nonneg (idata i)). pose proof (zlen_nonneg (idatas l2)). apply offset_word_Ib. lia. Qed.

Lemma mv_at_sep : mv_FSeparatedInstance m mv (zlen l1) = isep i.
Proof. unfold mv_FSeparatedInstance. rewrite mv_at_word. pose proof mv_at_range. pose proof (zlen_nonneg (idata i)). pose proof (zlen_nonneg (idatas l2)). apply offset_word_sep. lia. Qed.

Lemma mv_at_PbData : mv_PbData m mv (zlen l1) = mv_rgmvoffs mv + mib n l1.
Proof. unfold mv_PbData. now rewrite mv_at_Ib. Qed.

Lemma mv_at_data : holds m (mv_rgmvoffs mv + mib n l1) (idata i).
Proof. destruct (mv_parts m mv l1 (i :: l2) R) as (_ & _ & _ & H). rewrite idatas_cons, holds_app in H. unfold mib, n. rewrite Z.add_assoc. apply H. Qed.
End At.

Lemma mv_next_Ib m mv l1 i i' l2 : mvrep m mv (l1 ++ i :: i' :: l2) -> mv_Ib m mv (zlen l1 + 1) = mib (zlen (l1 ++ i :: i' :: l2)) l1 + zlen (idata i).
Proof.
  intros R. assert (E : l1 ++ i :: i' :: l2 = (l1 ++ [i]) ++ i' :: l2) by (now rewrite <- app_assoc). rewrite E in R.
  replace (zlen l1 + 1) with (zlen (l1 ++ [i])) by (rewrite zlen_app, zlen_cons, zlen_nil; lia). rewrite (mv_at_Ib _ _ _ _ _ R), E.
  unfold mib. rewrite idatas_app, idatas_cons, idatas_nil, app_nil_r, (zlen_app (idatas l1)). lia.
Qed.

Lemma mv_last_or_not l1 (i : INST) l2 : (zlen l1 <? zlen (l1 ++ i :: l2) - 1) = match l2 with [] => false | _ => true end.
Proof. destruct l2; [apply Z.ltb_ge|apply Z.ltb_lt]; zl. Qed.

Lemma mv_next m mv l1 i l2 : mvrep m mv (l1 ++ i :: l2) ->
  (if zlen l1 <? CMultiValues mv - 1 then mv_Ib m mv (zlen l1 + 1) else CbMultiValues mv) = mib (zlen (l1 ++ i :: l2)) l1 + zlen (idata i).
Proof.
  intros R. rewrite (mvr_c _ _ _ R), mv_last_or_not. destruct l2 as [|i' l2].
  - rewrite (mvr_cb _ _ _ R), mv_size_at, idatas_nil, zlen_nil. lia.
  - now apply mv_next_Ib.
Qed.

Lemma mv_at_CbData m mv l1 i l2 : mvrep m mv (l1 ++ i :: l2) -> mv_CbData m mv (zlen l1) = zlen (idata i).
Proof.
  intros R. unfold mv_CbData. rewrite (mv_next m mv l1 i l2 R), (mv_at_Ib m mv l1 i l2 R). pose proof (mv_at_range m mv l1 i l2 R).
  pose proof (zlen_nonneg (idata i)). pose proof (zlen_nonneg (idatas l2)). rewrite u32_small; lia.
Qed.

(** [MULTIVALUES::MULTIVALUES] finds the number of values from the first offset. *)
Lemma MULTIVALUES_new_spec m p b l : mem_ok m -> 1 < zlen l -> mv_size l < 32767 -> holds m p (b :: mv_bytes l) ->
  MULTIVALUES_new m p (1 + mv_size l) = Multivalues p (mv_size l) (zlen l) /\ mvrep m (Multivalues p (mv_size l) (zlen l)) l.
Proof.
  intros Hm Hl Fit H. rewrite holds_cons in H. destruct H as [_ H]. pose proof (mv_size_nonneg l).
  assert (R : mvrep m (Multivalues p (mv_size l) (zlen l)) l) by (split; try assumption; try reflexivity; lia). split; [|exact R].
  unfold MULTIVALUES_new, sizeof_TAGFLD_HEADER. replace (1 + mv_size l - 1) with (mv_size l) by lia. rewrite u32_small by lia. cbn [CbMultiValues]. f_equal.
  destruct l as [|i l]; [rewrite zlen_nil in Hl; lia|]. change (mv_Ib m (Multivalues p (mv_size (i :: l)) 0) 0) with (mv_Ib m (Multivalues p (mv_size (i :: l)) (zlen (i :: l))) (zlen (@nil INST))).
  rewrite (mv_at_Ib m _ [] i l R). unfold mib, sizeof_MVOFFSET. cbn [app]. rewrite idatas_nil, zlen_nil, Z.add_0_r, Z.mul_comm. apply Z.div_mul. lia.
Qed.

(** ** Operations *)

Lemma mv_delta_loop_spec l : forall m mv i o d, mem_ok m -> 0 <= o -> o + zlen (idatas l) < 32768 -> 0 <= o + d -> o + d + zlen (idatas l) < 32768 ->
  holds m (mv_pmvoffs mv i) (offsets o l) ->
  let m' := mv_delta_loop (length l) m mv i d in
  mem_ok m' /\ holds m' (mv_pmvoffs mv i) (offsets (o + d) l) /\ same_outside (mv_pmvoffs mv i) (mv_pmvoffs mv i + 2 * zlen l) m m'.
Proof.
  induction l as [|x l IH]; intros m mv i o d Hm Ho Ho2 Hd Hd2 H.
  - cbn [length mv_delta_loop]. split; [exact Hm|]. split; [apply holds_nil|apply same_outside_refl].
  - rewrite idatas_cons, zlen_app in *. pose proof (zlen_nonneg (idata x)) as Zx. pose proof (zlen_nonneg (idatas l)) as Zl. pose proof (zlen_nonneg l) as Yl.
    cbn [offsets] in H |- *. rewrite holds_app, zlen_le16 in H. destruct H as [H1 H2]. cbn [length mv_delta_loop].
    assert (E : mv_DeltaIb m mv i d = store16 m (mv_pmvoffs mv i) (offset_word (isep x) (o + d))).
    { unfold mv_DeltaIb, mv_SetIb, mv_Ib. rewrite (holds_le16 _ _ _ H1), u16_small by (apply offset_word_range; lia).
      rewrite offset_word_Ib by lia. rewrite u16_small by lia. now rewrite offset_word_SetIb by lia. }
    rewrite E. assert (P : mv_pmvoffs mv (i + 1) = mv_pmvoffs mv i + 2) by (unfold mv_pmvoffs, sizeof_MVOFFSET; lia).
    destruct (IH (store16 m (mv_pmvoffs mv i) (offset_word (isep x) (o + d))) mv (i + 1) (o + zlen (idata x)) d) as (Hm' & H' & S'); try lia.
    { now apply store16_ok. }
    { rewrite P. apply holds_store16_frame; [exact H2|lia]. }
    rewrite P in H', S'. split; [exact Hm'|]. split.
    + rewrite holds_app, zlen_le16. split.
      * eapply holds_same_outside; [apply holds_store16|exact S'|rewrite zlen_le16; lia].
      * replace (o + d + zlen (idata x)) with (o + zlen (idata x) + d) by lia. exact H'.
    + rewrite zlen_cons. eapply same_outside_trans; [apply store16_outside|eapply same_outside_weaken; [exact S'|..]]; lia.
Qed.

(** [AddInstance] puts a value behind the others. *)
Lemma AddInstance_spec m mv l s d : mvrep m mv l -> 0 < zlen l -> mv_size l + 2 + zlen d < 32768 -> bytes_ok d ->
  let m' := fst (AddInstance m mv d s) in
  mem_ok m' /\ holds m' (mv_rgmvoffs mv) (mv_bytes (l ++ [(s, d)])) /\ same_outside (mv_rgmvoffs mv) (mv_rgmvoffs mv + mv_size l + 2 + zlen d) m m'.
Proof.
  intros R Hl Fit Hd. pose proof (mvr_mem _ _ _ R) as Hm. set (rg := mv_rgmvoffs mv). set (n := zlen l) in *.
  assert (W : mv_size l = 2 * n + zlen (idatas l)) by reflexivity. pose proof (zlen_nonneg (idatas l)) as Zl. pose proof (zlen_nonneg d) as Zd.
  assert (I0 : mv_PbStartOfMVData m mv = rg + 2 * n).
  { unfold mv_PbStartOfMVData. fold rg. destruct l as [|i l']; [unfold n, zlen in Hl; cbn in Hl; lia|].
    change (mv_Ib m mv 0) with (mv_Ib m mv (zlen (@nil INST))). rewrite (mv_at_Ib m mv [] i l' R). unfold mib. cbn [app]. rewrite idatas_nil, zlen_nil. unfold n. lia. }
  pose proof (mvr_bytes _ _ _ R) as H. fold rg in H. unfold mv_bytes in H. fold n in H. rewrite holds_app, zlen_offsets in H. fold n in H. destruct H as [A D].
  unfold AddInstance. rewrite I0, (mvr_c _ _ _ R), (mvr_cb _ _ _ R). unfold mv_PbMax, sizeof_MVOFFSET. rewrite (mvr_cb _ _ _ R). fold rg n. cbn [fst].
  replace (rg + mv_size l - (rg + 2 * n)) with (zlen (idatas l)) by lia.
  set (m1 := memmove m (rg + 2 * n + 2) (rg + 2 * n) (zlen (idatas l))). assert (Hm1 : mem_ok m1) by (apply memmove_ok, Hm).
  assert (D1 : holds m1 (rg + 2 * n + 2) (idatas l)) by (now apply holds_memmove).
  assert (A1 : holds m1 rg (offsets (2 * n) l)) by (apply holds_memmove_frame; [exact A|rewrite zlen_offsets; fold n; lia]).
  assert (S1 : same_outside (rg + 2 * n) (rg + mv_size l + 2) m m1) by (apply memmove_outside; lia).
  assert (P0 : mv_pmvoffs mv 0 = rg) by (unfold mv_pmvoffs; fold rg; lia).
  destruct (mv_delta_loop_spec l m1 mv 0 (2 * n) 2) as (Hm2 & A2 & S2); [assumption|lia..|rewrite P0; exact A1|]. rewrite P0 in A2, S2. fold n in S2.
  replace (Z.to_nat n) with (length l) by (symmetry; apply length_zlen). set (m2 := mv_delta_loop (length l) m1 mv 0 2) in *.
  rewrite (u16_small (2 + mv_size l)) by lia. change (mv_pmvoffs mv n) with (rg + 2 * n) in *.
  assert (Pn : mv_pmvoffs mv n = rg + 2 * n) by reflexivity.
  set (m3 := store16 m2 (rg + 2 * n) (2 + mv_size l)). assert (Hm3 : mem_ok m3) by (apply store16_ok, Hm2).
  set (m4 := if s then mv_SetFSeparatedInstance m3 mv n else m3).
  assert (X4 : mem_ok m4 /\ holds m4 (rg + 2 * n) (le16 (offset_word s (2 + mv_size l))) /\ same_outside (rg + 2 * n) (rg + 2 * n + 2) m2 m4).
  { unfold m4. destruct s.
    - unfold mv_SetFSeparatedInstance. rewrite Pn. unfold m3 at 2 4 6. rewrite (holds_le16 _ _ _ (holds_store16 m2 (rg + 2 * n) (2 + mv_size l))), u16_small by lia.
      change (2 + mv_size l) with (offset_word false (2 + mv_size l)) at 1 2 3. rewrite offset_word_set by lia. split; [now apply store16_ok|]. split; [apply holds_store16|].
      eapply same_outside_trans; apply store16_outside; lia.
    - split; [exact Hm3|]. split; [apply holds_store16|]. apply store16_outside; lia. }
  destruct X4 as (Hm4 & A4 & S4).
  assert (E5 : (if s then store_bytes (mv_SetFSeparatedInstance m3 mv n) (rg + mv_size l + 2) d else RECCopyData m3 (rg + mv_size l + 2) d) = store_bytes m4 (rg + mv_size l + 2) d)
    by (unfold m4; now destruct s).
  rewrite E5. split; [now apply store_bytes_ok|]. split.
  - unfold mv_bytes. rewrite zlen_app, zlen_cons, zlen_nil. fold n. rewrite offsets_app, idatas_app, <- app_assoc, !holds_app, !zlen_offsets. fold n.
    cbn [offsets idatas map concat isep idata fst snd]. rewrite !app_nil_r. change (zlen [(s, d)]) with 1.
    replace (2 * (n + (1 + 0)) + zlen (idatas l)) with (2 + mv_size l) by lia. replace (2 * (n + (1 + 0))) with (2 * n + 2) by lia.
    replace (rg + 2 * n + 2 * 1) with (rg + 2 * n + 2) by lia. split; [|split; [|split]].
    + apply holds_store_bytes_frame; [|rewrite zlen_offsets; fold n; lia]. eapply holds_same_outside; [exact A2|exact S4|rewrite zlen_offsets; fold n; lia].
    + apply holds_store_bytes_frame; [exact A4|rewrite zlen_le16; lia].
    + apply holds_store_bytes_frame; [|lia]. eapply holds_same_outside; [|exact S4|lia]. eapply holds_same_outside; [exact D1|exact S2|lia].
    + replace (rg + 2 * n + 2 + zlen (idatas l)) with (rg + mv_size l + 2) by lia. now apply holds_store_bytes.
  - eapply same_outside_trans; [eapply same_outside_weaken; [exact S1|lia..]|]. eapply same_outside_trans; [eapply same_outside_weaken; [exact S2|lia..]|].
    eapply same_outside_trans; [eapply same_outside_weaken; [exact S4|lia..]|]. apply store_bytes_outside; lia.
Qed.

(** The header byte after a change of the first value. *)
Definition first_header (l1 : list INST) (f : Z -> Z) (b : Z) : Z := match l1 with [] => f b | _ => b end.

Lemma first_header_eqb l1 f b : (if 0 =? zlen l1 then f b else b) = first_header l1 f b.
Proof. destruct l1; [reflexivity|]. rewrite (proj2 (Z.eqb_neq _ _)) by zl. reflexivity. Qed.

Lemma store_header m p (l1 : list INST) f : mem_ok m -> (forall b, 0 <= b < 256 -> 0 <= f b < 256) ->
  let m' := if 0 =? zlen l1 then store8 m p (f (load8 m p)) else m in
  mem_ok m' /\ m' p = first_header l1 f (m p) /\ same_outside p (p + 1) m m'.
Proof.
  intros Hm Hf. rewrite <- first_header_eqb. destruct (0 =? zlen l1); cbn zeta.
  - split; [now apply store8_ok|]. split; [|apply store8_outside; lia]. rewrite store8_at, Z.eqb_refl. apply Z.mod_small, Hf, Hm.
  - split; [exact Hm|]. split; [reflexivity|apply same_outside_refl].
Qed.

Lemma Reset_range f b : 0 <= f -> 0 <= b < 256 -> 0 <= TAGFLD_HEADER.Reset_ f b < 256.
Proof.
  intros Hf Hb. unfold TAGFLD_HEADER.Reset_. split; [apply Z.ldiff_nonneg; lia|].
  assert (Z.ldiff b f <= b); [|lia]. pose proof (Z.lor_ldiff_and b f) as E. assert (D : Z.land (Z.ldiff b f) (Z.land b f) = 0).
  { apply Z.bits_inj'. intros n Hn. rewrite !Z.land_spec, Z.ldiff_spec, Z.bits_0. destruct (Z.testbit b n), (Z.testbit f n); reflexivity. }
  pose proof (Z.add_lor_land (Z.ldiff b f) (Z.land b f)) as A. rewrite E, D in A. pose proof (proj2 (Z.land_nonneg b f) (or_intror Hf)). lia.
Qed.

Lemma Set_range f b : 0 <= f < 256 -> 0 <= b < 256 -> 0 <= TAGFLD_HEADER.Set_ f b < 256.
Proof.
  intros Hf Hb. unfold TAGFLD_HEADER.Set_. split; [apply Z.lor_nonneg; lia|]. change 256 with (2 ^ 8) in *.
  destruct (Z.eq_dec (Z.lor b f) 0) as [->|N]; [reflexivity|]. apply Z.log2_lt_pow2; [pose proof (proj2 (Z.lor_nonneg b f)); lia|].
  rewrite Z.log2_lor by lia. apply Z.max_lub_lt; (destruct (Z.eq_dec b 0) as [->|]; [reflexivity|]) || idtac.
  - apply Z.log2_lt_pow2; lia.
  - destruct (Z.eq_dec f 0) as [->|]; [reflexivity|]. apply Z.log2_lt_pow2; lia.
Qed.

Lemma Assign_range (v : bool) f b : 0 <= f < 256 -> 0 <= b < 256 -> 0 <= TAGFLD_HEADER.Assign_ v f b < 256.
Proof. intros Hf Hb. destruct v; [now apply Set_range|now apply Reset_range]. Qed.

(** [RemoveInstance] takes a value out. *)
Lemma RemoveInstance_spec m mv l1 i l2 : mvrep m mv (l1 ++ i :: l2) ->
  let r := RemoveInstance m mv (zlen l1 + 1) in let p := mv_pheader mv in
  mem_ok (fst r) /\ holds (fst r) p (first_header l1 (TAGFLD_HEADER.Reset_ TAGFLD_HEADER.fCompressed) (m p) :: mv_bytes (l1 ++ l2)) /\
  mv_pheader (snd r) = p /\ CbMultiValues (snd r) = mv_size (l1 ++ l2) /\ same_outside p (p + 1 + mv_size (l1 ++ i :: l2)) m (fst r).
Proof.
  intros R r p. pose proof (mvr_mem _ _ _ R) as Hm. pose proof (mvr_fit _ _ _ R) as Fit. pose proof (mv_parts m mv l1 (i :: l2) R) as (A1 & A2 & D1 & D2).
  pose proof (mv_size_at l1 i l2) as W. set (n := zlen (l1 ++ i :: l2)) in *. set (rg := mv_rgmvoffs mv) in *. assert (Rg : rg = p + 1) by reflexivity.
  assert (N : n = zlen l1 + 1 + zlen l2) by (unfold n; zl). pose proof (zlen_nonneg l1) as Y1. pose proof (zlen_nonneg l2) as Y2.
  pose proof (zlen_nonneg (idatas l1)) as Z1. pose proof (zlen_nonneg (idata i)) as Zi. pose proof (zlen_nonneg (idatas l2)) as Z2. unfold mib in W.
  assert (Al : holds m (rg + 2 * zlen l1 + 2) (offsets (2 * n + zlen (idatas l1) + zlen (idata i)) l2 ++ idatas l1 ++ idata i ++ idatas l2)).
  { cbn [offsets] in A2. rewrite holds_app, zlen_le16 in A2. rewrite !holds_app, zlen_offsets. split; [apply A2|].
    replace (rg + 2 * zlen l1 + 2 + 2 * zlen l2) with (rg + 2 * n) by lia. rewrite idatas_cons, holds_app in D2. split; [exact D1|exact D2]. }
  apply (DeleteEntryAndData_spec _ _ _ _ _ _ _ (rg + mv_size (l1 ++ i :: l2))) in Al; [|exact Hm|lia|rewrite zlen_offsets; lia].
  rewrite zlen_offsets in Al. replace (rg + 2 * zlen l1 + 2 + 2 * zlen l2 + zlen (idatas l1)) with (rg + (2 * n + zlen (idatas l1))) in Al by lia.
  subst r. unfold RemoveInstance. replace (zlen l1 + 1 - 1) with (zlen l1) by lia. unfold mv_PbMax. rewrite (mv_at_CbData m mv l1 i l2 R), (mv_at_PbData m mv l1 i l2 R), (mvr_cb _ _ _ R), (mvr_c _ _ _ R).
  cbn [CMultiValues]. unfold mib. fold n rg. change (mv_pmvoffs mv (zlen l1)) with (rg + 2 * zlen l1). unfold sizeof_MVOFFSET.
  set (m1 := DeleteEntryAndData _ _ _ _ _ _) in *. destruct Al as (Hm1 & H1 & S1). rewrite !holds_app, zlen_offsets in H1. destruct H1 as (A3 & D3 & D4).
  set (mv' := Multivalues _ _ _). rewrite (s16_small (2 + zlen (idata i))), s16_small by lia. replace (n - 1 - zlen l1) with (zlen l2) by lia. rewrite !length_zlen.
  assert (P0 : forall k, mv_pmvoffs mv' k = rg + 2 * k) by reflexivity.
  destruct (mv_delta_loop_spec l1 m1 mv' 0 (2 * n) (Z.opp 2)) as (Hm2 & A4 & S2); [assumption|lia..| |]; rewrite P0, ?Z.mul_0_r, ?Z.add_0_r in *.
  { eapply holds_same_outside; [exact A1|exact S1|rewrite zlen_offsets; lia]. }
  set (m2 := mv_delta_loop (length l1) m1 mv' 0 (Z.opp 2)) in *.
  destruct (mv_delta_loop_spec l2 m2 mv' (zlen l1) (2 * n + zlen (idatas l1) + zlen (idata i)) (- (2 + zlen (idata i)))) as (Hm3 & A5 & S3); [assumption|lia..| |]; rewrite P0 in *.
  { eapply holds_same_outside; [exact A3|exact S2|rewrite zlen_offsets; lia]. }
  set (m3 := mv_delta_loop (length l2) m2 mv' (zlen l1) _) in *. change (mv_pheader mv') with p.
  destruct (store_header m3 p l1 (TAGFLD_HEADER.Reset_ TAGFLD_HEADER.fCompressed) Hm3) as (Hm4 & E4 & S4); [intros b Hb; now apply Reset_range|].
  set (m4 := if 0 =? zlen l1 then _ else m3) in *. cbn [fst snd]. assert (Nn : zlen (l1 ++ l2) = n - 1) by zl. assert (Sz : mv_size (l1 ++ l2) = mv_size (l1 ++ i :: l2) - (2 + zlen (idata i))) by (rewrite !mv_size_app, mv_size_cons; lia).
  assert (S23 : same_outside rg (rg + 2 * (n - 1)) m1 m3).
  { eapply same_outside_trans; eapply same_outside_weaken; [exact S2|..|exact S3|idtac|idtac]; lia. }
  assert (S13 : same_outside (p + 1) (p + 1 + mv_size (l1 ++ i :: l2)) m m3).
  { eapply same_outside_trans; eapply same_outside_weaken; [exact S1|..|exact S23|idtac|idtac]; lia. }
  split; [exact Hm4|]. split; [|split; [reflexivity|split]].
  - rewrite holds_cons. split; [rewrite E4; f_equal; apply S13; lia|]. rewrite <- Rg. unfold mv_bytes. rewrite Nn, offsets_app, idatas_app, !holds_app, !zlen_app, !zlen_offsets.
    split; [split|split].
    + replace (2 * (n - 1)) with (2 * n + Z.opp 2) by lia. eapply holds_same_outside; [eapply holds_same_outside; [exact A4|exact S3|]|exact S4|]; rewrite zlen_offsets; lia.
    + replace (2 * (n - 1) + zlen (idatas l1)) with (2 * n + zlen (idatas l1) + zlen (idata i) + - (2 + zlen (idata i))) by lia. eapply holds_same_outside; [exact A5|exact S4|rewrite zlen_offsets; lia].
    + replace (rg + (2 * zlen l1 + 2 * zlen l2)) with (rg + 2 * zlen l1 + 2 * zlen l2) by lia. eapply holds_same_outside; [eapply holds_same_outside; [exact D3|exact S23|]|exact S4|]; lia.
    + replace (rg + (2 * zlen l1 + 2 * zlen l2) + zlen (idatas l1)) with (rg + 2 * zlen l1 + 2 * zlen l2 + zlen (idatas l1)) by lia. eapply holds_same_outside; [eapply holds_same_outside; [exact D4|exact S23|]|exact S4|]; lia.
  - rewrite Sz. apply u32_small. pose proof (mv_size_nonneg (l1 ++ l2)). lia.
  - eapply same_outside_trans; eapply same_outside_weaken; [exact S13|..|exact S4|idtac|idtac]; pose proof (mv_size_nonneg (l1 ++ i :: l2)); lia.
Qed.

(** The flag of one offset. *)
Lemma write_sep m a s s' o : mem_ok m -> 0 <= o < 32768 -> holds m a (le16 (offset_word s o)) ->
  let m' := store16 m a (if s' : bool then Z.lor (load16 m a) fSeparatedInstance else Z.ldiff (load16 m a) fSeparatedInstance) in
  mem_ok m' /\ holds m' a (le16 (offset_word s' o)) /\ same_outside a (a + 2) m m'.
Proof.
  intros Hm Ho H. cbn zeta. rewrite (holds_le16 _ _ _ H), u16_small by now apply offset_word_range.
  split; [now apply store16_ok|]. split; [|apply store16_outside; lia]. destruct s'; rewrite ?offset_word_set, ?offset_word_reset by exact Ho; apply holds_store16.
Qed.

(** [UpdateInstance] replaces a value. *)
Lemma MULTIVALUES_UpdateInstance_spec m mv l1 i l2 s c d : mvrep m mv (l1 ++ i :: l2) -> bytes_ok d -> mv_size (l1 ++ (s, d) :: l2) < 32768 ->
  let r := MULTIVALUES_UpdateInstance m mv (zlen l1 + 1) d s c in let p := mv_pheader mv in
  mem_ok (fst r) /\ holds (fst r) p (first_header l1 (TAGFLD_HEADER.Assign_ c TAGFLD_HEADER.fCompressed) (m p) :: mv_bytes (l1 ++ (s, d) :: l2)) /\
  same_outside p (p + 1 + Z.max (mv_size (l1 ++ i :: l2)) (mv_size (l1 ++ (s, d) :: l2))) m (fst r).
Proof.
  intros R Hd Fit' r p. pose proof (mvr_mem _ _ _ R) as Hm. pose proof (mvr_fit _ _ _ R) as Fit. pose proof (mv_parts m mv l1 (i :: l2) R) as (A1 & A2 & D1 & D2).
  pose proof (mv_size_at l1 i l2) as W. set (n := zlen (l1 ++ i :: l2)) in *. set (rg := mv_rgmvoffs mv) in *. assert (Rg : rg = p + 1) by reflexivity.
  assert (N : n = zlen l1 + 1 + zlen l2) by (unfold n; zl). assert (Nn : zlen (l1 ++ (s, d) :: l2) = n) by (unfold n; zl). pose proof (zlen_nonneg l1) as Y1. pose proof (zlen_nonneg l2) as Y2.
  pose proof (zlen_nonneg (idatas l1)) as Z1. pose proof (zlen_nonneg (idata i)) as Zi. pose proof (zlen_nonneg (idatas l2)) as Z2. pose proof (zlen_nonneg d) as Zd.
  assert (W' : mv_size (l1 ++ (s, d) :: l2) = mib n l1 + zlen d + zlen (idatas l2)) by (rewrite mv_size_app, mv_size_cons; cbn [idata snd]; unfold mv_size, mib; lia).
  assert (I : mib n l1 = 2 * n + zlen (idatas l1)) by reflexivity. set (ib := mib n l1) in *. set (hi := Z.max _ _).
  assert (Hhi : hi = ib + zlen (idatas l2) + Z.max (zlen (idata i)) (zlen d)) by lia.
  cbn [offsets] in A2. rewrite holds_app, zlen_le16 in A2. destruct A2 as [A2 A3]. rewrite idatas_cons, holds_app in D2. destruct D2 as [D2 D3].
  subst r. unfold MULTIVALUES_UpdateInstance. replace (zlen l1 + 1 - 1) with (zlen l1) by lia. unfold mv_PbMax. rewrite (mv_at_CbData m mv l1 i l2 R), (mv_at_PbData m mv l1 i l2 R), (mvr_cb _ _ _ R), (mvr_c _ _ _ R).
  fold n rg ib. rewrite Cb_zlen, (s32_small (zlen d - zlen (idata i))), s16_small by lia. replace (n - (zlen l1 + 1)) with (zlen l2) by lia. rewrite length_zlen.
  replace (rg + mv_size (l1 ++ i :: l2) - (rg + ib + zlen (idata i))) with (zlen (idatas l2)) by lia.
  set (m1 := memmove m (rg + ib + zlen d) (rg + ib + zlen (idata i)) (zlen (idatas l2))). assert (Hm1 : mem_ok m1) by (apply memmove_ok, Hm).
  assert (S1 : same_outside (rg + ib + zlen d) (rg + hi) m m1) by (apply memmove_outside; lia).
  assert (P1 : mv_pmvoffs mv (zlen l1 + 1) = rg + 2 * zlen l1 + 2) by (unfold mv_pmvoffs, sizeof_MVOFFSET; fold rg; lia).
  set (m2 := if zlen d - zlen (idata i) =? 0 then m else mv_delta_loop (length l2) m1 mv (zlen l1 + 1) (zlen d - zlen (idata i))).
  assert (X2 : mem_ok m2 /\ holds m2 (rg + 2 * zlen l1 + 2) (offsets (ib + zlen d) l2) /\ holds m2 (rg + ib + zlen d) (idatas l2) /\
    (forall a k, holds m a k -> a + zlen k <= rg + 2 * zlen l1 + 2 \/ (rg + 2 * n <= a /\ a + zlen k <= rg + ib) -> holds m2 a k) /\ same_outside rg (rg + hi) m m2).
  { unfold m2. destruct (Z.eqb_spec (zlen d - zlen (idata i)) 0) as [E|E].
    - replace (zlen d) with (zlen (idata i)) by lia. split; [exact Hm|]. split; [exact A3|]. split; [|split; [now auto|apply same_outside_refl]].
      unfold ib, mib. rewrite Z.add_assoc. exact D3.
    - destruct (mv_delta_loop_spec l2 m1 mv (zlen l1 + 1) (ib + zlen (idata i)) (zlen d - zlen (idata i))) as (Hm2 & A4 & S2); [assumption|lia..| |]; rewrite P1 in *.
      { eapply holds_same_outside; [exact A3|exact S1|rewrite zlen_offsets; lia]. }
      split; [exact Hm2|]. split; [replace (ib + zlen d) with (ib + zlen (idata i) + (zlen d - zlen (idata i))) by lia; exact A4|]. split; [|split].
      + eapply holds_same_outside; [|exact S2|lia]. apply holds_memmove; [|reflexivity]. unfold ib, mib. rewrite Z.add_assoc. exact D3.
      + intros a k H K. eapply holds_same_outside; [eapply holds_same_outside; [exact H|exact S1|lia]|exact S2|lia].
      + eapply same_outside_trans; eapply same_outside_weaken; [exact S1|..|exact S2|idtac|idtac]; lia. }
  destruct X2 as (Hm2 & A4 & D4 & Fr & S2).
  destruct (store_header m2 p l1 (TAGFLD_HEADER.Assign_ c TAGFLD_HEADER.fCompressed) Hm2) as (Hm3 & E3 & S3); [intros b Hb; now apply Assign_range|]. fold p.
  set (m3 := if 0 =? zlen l1 then _ else m2) in *. cbn [fst].
  destruct (write_sep m3 (rg + 2 * zlen l1) (isep i) s ib Hm3) as (Hm4 & A5 & S4); [lia| |].
  { eapply holds_same_outside; [apply Fr; [exact A2|rewrite zlen_le16; lia]|exact S3|rewrite zlen_le16; lia]. }
  set (m4 := store16 m3 (rg + 2 * zlen l1) _) in *.
  replace (if s then store_bytes (mv_SetFSeparatedInstance m3 mv (zlen l1)) (rg + ib) d else RECCopyData (mv_ResetFSeparatedInstance m3 mv (zlen l1)) (rg + ib) d)
    with (store_bytes m4 (rg + ib) d) by (unfold m4; now destruct s).
  pose proof (store_bytes_outside m4 (rg + ib) d (rg + ib) (rg + ib + zlen d) ltac:(lia) ltac:(lia)) as S5. set (m5 := store_bytes m4 (rg + ib) d) in *.
  assert (K : forall a k, holds m2 a k -> p + 1 <= a -> (a + zlen k <= rg + 2 * zlen l1 \/ rg + 2 * zlen l1 + 2 <= a) -> (a + zlen k <= rg + ib \/ rg + ib + zlen d <= a) -> holds m5 a k).
  { intros a k H X Y Z. eapply holds_same_outside; [eapply holds_same_outside; [eapply holds_same_outside; [exact H|exact S3|lia]|exact S4|lia]|exact S5|lia]. }
  split; [now apply store_bytes_ok|]. split.
  - rewrite holds_cons. split.
    + rewrite S5, S4 by lia. rewrite E3. f_equal. apply S2. lia.
    + rewrite <- Rg. unfold mv_bytes. rewrite Nn, offsets_app, idatas_app, idatas_cons, !holds_app, !zlen_offsets. fold (mib n l1). fold ib. cbn [offsets isep idata fst snd]. rewrite holds_app, zlen_le16, zlen_app, zlen_offsets, zlen_app, zlen_le16, zlen_offsets.
      split; [split; [|split]|split; [|split]].
      * apply K; [apply Fr; [exact A1|]|..]; rewrite ?zlen_offsets; lia.
      * eapply holds_same_outside; [exact A5|exact S5|rewrite zlen_le16; lia].
      * apply K; [exact A4|..]; rewrite ?zlen_offsets; lia.
      * replace (rg + (2 * zlen l1 + (2 + 2 * zlen l2))) with (rg + 2 * n) by lia. apply K; [apply Fr; [exact D1|]|..]; lia.
      * replace (rg + (2 * zlen l1 + (2 + 2 * zlen l2)) + zlen (idatas l1)) with (rg + ib) by lia. now apply holds_store_bytes.
      * replace (rg + (2 * zlen l1 + (2 + 2 * zlen l2)) + zlen (idatas l1) + zlen d) with (rg + ib + zlen d) by lia. apply K; [exact D4|..]; lia.
  - eapply same_outside_trans; [eapply same_outside_weaken; [exact S2|lia..]|]. eapply same_outside_trans; [eapply same_outside_weaken; [exact S3|lia..]|].
    eapply same_outside_trans; [eapply same_outside_weaken; [exact S4|lia..]|]. eapply same_outside_weaken; [exact S5|lia..].
Qed.

(** * Tagged columns: operations on one column

    The update of the data of a column that makes room first or gives it back
    afterwards, and the conversions between the formats of a column: one value,
    TWOVALUES, MULTIVALUES. *)

Section Conv.
Variable small : bool.

Lemma moved_rep hi t t' l : moved small hi t t' l -> rep small t' l.
Proof. now intros [R _]. Qed.
Lemma moved_rg hi t t' l : moved small hi t t' l -> m_rgtagfld t' = m_rgtagfld t.
Proof. now intros (_ & E & _). Qed.

Lemma size_set_data l1 e l2 d : size (l1 ++ set_data e d :: l2) = size (l1 ++ e :: l2) + (zlen d - zlen (e_data e)).
Proof. rewrite !size_app, !size_cons. cbn [set_data e_data]. lia. Qed.
Lemma zlen_set_data l1 e l2 d : zlen (l1 ++ set_data e d :: l2) = zlen (l1 ++ e :: l2).
Proof. zl. Qed.
Lemma zlen_set_entry l1 (e e' : ENTRY) l2 : zlen (l1 ++ e' :: l2) = zlen (l1 ++ e :: l2).
Proof. zl. Qed.
Lemma firstn_zlen {A} (a b : list A) : firstn (Z.to_nat (zlen a)) (a ++ b) = a.
Proof. rewrite length_zlen, firstn_app, Nat.sub_diag, firstn_all. apply app_nil_r. Qed.

(** Data written by [f] over the old data of an entry, which has been given room
    if it grows, and is cut if it shrinks. *)
Lemma update_resize t l1 e l2 d f : rep small t (l1 ++ e :: l2) -> size (l1 ++ set_data e d :: l2) <= maskIb small ->
  let p := m_rgtagfld t + ib_of (zlen (l1 ++ e :: l2)) l1 in let delta := zlen d - zlen (e_data e) in
  (forall m1, mem_ok m1 -> holds m1 p (e_data e) -> mem_ok (f m1) /\ holds (f m1) p d /\ same_outside p (p + Z.max (zlen (e_data e)) (zlen d)) m1 (f m1)) ->
  let t1 := if 0 <? delta then ResizeTagfld small t (zlen l1) delta else t in
  let t2 := with_mem t1 (f (tf_m t1)) in
  let t3 := if delta <? 0 then ResizeTagfld small t2 (zlen l1) delta else t2 in
  moved small (Z.max (size (l1 ++ e :: l2)) (size (l1 ++ set_data e d :: l2))) t t3 (l1 ++ set_data e d :: l2).
Proof.
  intros R Fit p delta Hf. rewrite size_set_data in Fit |- *. fold delta in Fit |- *. pose proof (zlen_nonneg d) as Zd. pose proof (zlen_nonneg (e_data e)) as Ze.
  destruct (at_datas small t l1 e l2 R) as (_ & D & _). fold p in D. destruct (Z.ltb_spec 0 delta) as [G|G]; cbn zeta.
  - rewrite (proj2 (Z.ltb_ge delta 0)) by lia. destruct (ResizeTagfld_spec small t l1 e l2 delta R) as (j & Lj & Mv); [lia|lia|]. rewrite firstn_all2 in Mv by (unfold zlen in *; rewrite length_app; lia).
    set (t1 := ResizeTagfld small t (zlen l1) delta) in *. pose proof (moved_rep _ _ _ _ Mv) as R1. pose proof (at_datas small t1 l1 _ l2 R1) as (_ & D1 & _).
    rewrite zlen_set_data, (moved_rg _ _ _ _ Mv) in D1. fold p in D1. cbn [set_data e_data] in D1. rewrite holds_app in D1.
    destruct (Hf (tf_m t1)) as (Hm2 & H2 & S2); [apply R1|apply D1|]. rewrite Z.max_r in S2 by lia.
    pose proof (rewrite_data small t1 l1 (set_data e (e_data e ++ j)) l2 (f (tf_m t1)) d p R1 Hm2) as Mv2. cbn [set_data e_data] in Mv2. rewrite zlen_set_entry with (e := e), (moved_rg _ _ _ _ Mv) in Mv2.
    eapply moved_trans; [eapply moved_weaken; [exact Mv|lia]|]. eapply moved_weaken; [apply Mv2; [rewrite zlen_app; lia|reflexivity|exact S2|exact H2]|].
    change (set_data e (e_data e ++ j)) with (set_data e (e_data e ++ j)). rewrite size_set_data, zlen_app. lia.
  - destruct (Hf (tf_m t)) as (Hm2 & H2 & S2); [apply R|exact D|]. rewrite Z.max_l in S2 by lia.
    set (x := load_bytes (f (tf_m t)) (p + zlen d) (- delta)). assert (Lx : zlen x = - delta) by (apply zlen_load_bytes; lia).
    assert (Mv : moved small (size (l1 ++ e :: l2)) t (with_mem t (f (tf_m t))) (l1 ++ set_data e (d ++ x) :: l2)).
    { apply (rewrite_data small t l1 e l2 _ _ p); [exact R|exact Hm2|rewrite zlen_app; lia|reflexivity|..].
      - eapply same_outside_weaken; [exact S2|lia|rewrite zlen_app; lia].
      - rewrite holds_app. split; [exact H2|apply holds_load_bytes]. }
    destruct (Z.ltb_spec delta 0) as [L|L].
    + destruct (ResizeTagfld_spec small _ l1 (set_data e (d ++ x)) l2 delta (moved_rep _ _ _ _ Mv)) as (j & Lj & Mv2); cbn [set_data e_data] in *; rewrite ?size_set_data, ?zlen_app in *; [lia|lia|].
      replace (zlen d + zlen x + delta) with (zlen d) in Mv2 by lia. rewrite <- app_assoc, firstn_zlen in Mv2.
      eapply moved_trans; [eapply moved_weaken; [exact Mv|lia]|eapply moved_weaken; [exact Mv2|lia]].
    + assert (x = []) as E by (apply length_zero_iff_nil; unfold zlen in Lx; lia). rewrite E, app_nil_r in Mv. eapply moved_weaken; [exact Mv|lia].
Qed.

(** ** TWOVALUES *)

Definition tv_bytes (b : Z) (d1 d2 : list Z) : list Z := b :: zlen d1 :: d1 ++ d2.

Lemma zlen_tv_bytes b d1 d2 : zlen (tv_bytes b d1 d2) = 2 + zlen d1 + zlen d2.
Proof. unfold tv_bytes. rewrite !zlen_cons. zl. Qed.

Lemma holds_tv m p b d1 d2 : holds m p (tv_bytes b d1 d2) <-> m p = b /\ m (p + 1) = zlen d1 /\ holds m (p + 2) d1 /\ holds m (p + 2 + zlen d1) d2.
Proof. unfold tv_bytes. rewrite !holds_cons, holds_app. now replace (p + 1 + 1) with (p + 2) by lia. Qed.

Lemma TWOVALUES_new_spec m p b d1 d2 : holds m p (tv_bytes b d1 d2) -> zlen d2 < 256 ->
  TWOVALUES_new m p (2 + zlen d1 + zlen d2) = Twovalues p (zlen d1) (zlen d2).
Proof.
  intros H H2. apply holds_tv in H as (_ & H & _). unfold TWOVALUES_new. change (load8 m (p + 1)) with (m (p + 1)). rewrite H. f_equal.
  unfold sizeof_TAGFLD_HEADER, sizeof_TVLENGTH. replace (2 + zlen d1 + zlen d2 - (1 + 1 + zlen d1)) with (zlen d2) by lia. pose proof (zlen_nonneg d2). unfold u8. apply Z.mod_small. lia.
Qed.

Lemma TWOVALUES_UpdateInstance_1 m p b d1 d2 d : mem_ok m -> holds m p (tv_bytes b d1 d2) -> bytes_ok d -> zlen d < 256 ->
  let m' := TWOVALUES_UpdateInstance m (Twovalues p (zlen d1) (zlen d2)) 1 d in
  mem_ok m' /\ holds m' p (tv_bytes b d d2) /\ same_outside p (p + Z.max (zlen (tv_bytes b d1 d2)) (zlen (tv_bytes b d d2))) m m'.
Proof.
  intros Hm H Hd Ld m'. rewrite !zlen_tv_bytes. apply holds_tv in H as (Hb & Hl & H1 & H2). rewrite holds_tv. subst m'. cbn [TWOVALUES_UpdateInstance tv_PbData tv_PcbFirstValue tv_pheader CbFirstValue CbSecondValue].
  unfold TWOVALUES_UpdateInstance, tv_PbData, tv_PcbFirstValue, sizeof_TAGFLD_HEADER, sizeof_TVLENGTH. cbn [Z.eqb Pos.eqb tv_pheader CbFirstValue CbSecondValue]. rewrite Cb_zlen. replace (p + 1 + 1) with (p + 2) by lia.
  pose proof (zlen_nonneg d) as Zd. pose proof (zlen_nonneg d1) as Z1. pose proof (zlen_nonneg d2) as Z2. set (m1 := memmove m (p + 2 + zlen d) (p + 2 + zlen d1) (zlen d2)).
  assert (Hm1 : mem_ok m1) by (apply memmove_ok, Hm). set (m2 := RECCopyData m1 (p + 2) d). assert (Hm2 : mem_ok m2) by (now apply store_bytes_ok).
  assert (S1 : same_outside (p + 2 + zlen d) (p + 2 + zlen d + zlen d2) m m1) by (apply memmove_outside; lia).
  assert (S2 : same_outside (p + 2) (p + 2 + zlen d) m1 m2) by (apply store_bytes_outside; lia).
  set (m3 := store8 m2 (p + 1) (u8 (zlen d))). assert (S3 : same_outside (p + 1) (p + 2) m2 m3) by (apply store8_outside; lia).
  split; [apply store8_ok, Hm2|]. split; [split; [|split; [|split]]|].
  - rewrite S3, S2, S1 by lia. exact Hb.
  - unfold m3, u8. rewrite store8_at, Z.eqb_refl. rewrite !Z.mod_small; [reflexivity|lia|rewrite Z.mod_small; lia].
  - eapply holds_same_outside; [apply holds_store_bytes, Hd|exact S3|lia].
  - eapply holds_same_outside; [eapply holds_same_outside; [apply holds_memmove; [exact H2|reflexivity]|exact S2|lia]|exact S3|lia].
  - eapply same_outside_trans; [eapply same_outside_weaken; [exact S1|lia..]|]. eapply same_outside_trans; [eapply same_outside_weaken; [exact S2|lia..]|]. eapply same_outside_weaken; [exact S3|lia..].
Qed.

Lemma TWOVALUES_UpdateInstance_2 m p b d1 d2 d : mem_ok m -> holds m p (tv_bytes b d1 d2) -> bytes_ok d ->
  let m' := TWOVALUES_UpdateInstance m (Twovalues p (zlen d1) (zlen d2)) 2 d in
  mem_ok m' /\ holds m' p (tv_bytes b d1 d) /\ same_outside p (p + Z.max (zlen (tv_bytes b d1 d2)) (zlen (tv_bytes b d1 d))) m m'.
Proof.
  intros Hm H Hd m'. rewrite !zlen_tv_bytes. apply holds_tv in H as (Hb & Hl & H1 & H2). rewrite holds_tv. subst m'.
  unfold TWOVALUES_UpdateInstance, tv_PbData, sizeof_TAGFLD_HEADER, sizeof_TVLENGTH. cbn [Z.eqb Pos.eqb tv_pheader CbFirstValue CbSecondValue]. replace (p + 1 + 1) with (p + 2) by lia.
  pose proof (zlen_nonneg d) as Zd. pose proof (zlen_nonneg d1) as Z1. pose proof (zlen_nonneg d2) as Z2. set (m2 := RECCopyData m (p + 2 + zlen d1) d).
  assert (S2 : same_outside (p + 2 + zlen d1) (p + 2 + zlen d1 + zlen d) m m2) by (apply store_bytes_outside; lia).
  split; [now apply store_bytes_ok|]. split; [split; [|split; [|split]]|].
  - rewrite S2 by lia. exact Hb.
  - rewrite S2 by lia. exact Hl.
  - eapply holds_same_outside; [exact H1|exact S2|lia].
  - now apply holds_store_bytes.
  - eapply same_outside_weaken; [exact S2|lia..].
Qed.

Lemma ConvertTwoValuesToMultiValues_spec t p b d1 d2 d : mem_ok (tf_m t) -> holds (tf_m t) p (tv_bytes b d1 d2) -> bytes_ok d -> zlen d1 < 256 -> zlen d2 < 256 ->
  let l := [(false, d1); (false, d2); (false, d)] in
  exists m', ConvertTwoValuesToMultiValues t (Twovalues p (zlen d1) (zlen d2)) d = with_mem t m' /\
    mem_ok m' /\ holds m' p (TAGFLD_HEADER.Reset_ TAGFLD_HEADER.fTwoValues b :: mv_bytes l) /\ same_outside p (p + 1 + mv_size l) (tf_m t) m'.
Proof.
  intros Hm H Hd L1 L2 l. eexists. split; [reflexivity|]. apply holds_tv in H as (Hb & Hl & H1 & H2).
  unfold tv_PbData, tv_PcbFirstValue, sizeof_TAGFLD_HEADER, sizeof_TVLENGTH, sizeof_MVOFFSET. cbn [tv_pheader CbFirstValue CbSecondValue].
  pose proof (zlen_nonneg d) as Zd. pose proof (zlen_nonneg d1) as Z1. pose proof (zlen_nonneg d2) as Z2. change (3 * 2) with 6. rewrite (u16_small (6 + zlen d1)), (u16_small (6 + zlen d1 + zlen d2)) by lia.
  assert (Sz : mv_size l = 6 + zlen d1 + zlen d2 + zlen d) by (unfold mv_size; change (zlen l) with 3; change (idatas l) with (d1 ++ d2 ++ d ++ []); rewrite app_nil_r, !zlen_app; lia).
  set (m1 := memmove (tf_m t) _ _ _). assert (Hm1 : mem_ok m1) by (apply memmove_ok, Hm).
  assert (S1 : same_outside (p + 7) (p + 7 + zlen d1 + zlen d2) (tf_m t) m1) by (apply memmove_outside; lia).
  assert (D : holds m1 (p + 7) (d1 ++ d2)).
  { unfold m1. replace (p + 1 + 1 + 6 - 1) with (p + 7) by lia. replace (p + 1 + 1) with (p + 2) by lia. apply holds_memmove; [now rewrite holds_app|zl]. }
  set (m2 := store16 m1 (p + 1) 6). set (m3 := store16 m2 (p + 1 + 2) (6 + zlen d1)). set (m4 := store16 m3 (p + 1 + 4) (6 + zlen d1 + zlen d2)).
  assert (Hm4 : mem_ok m4) by (unfold m4, m3, m2; auto using store16_ok).
  assert (S4 : same_outside (p + 1) (p + 7) m1 m4) by (eapply same_outside_trans; [|eapply same_outside_trans]; apply store16_outside; lia).
  assert (O : holds m4 (p + 1) (offsets 6 l)).
  { unfold l. cbn [offsets isep idata fst snd]. rewrite !holds_app, !zlen_le16. change (offset_word false) with (fun o => 0 + o). cbn beta. rewrite !Z.add_0_l. split; [|split; [|split]].
    - unfold m4, m3. apply holds_store16_frame; [apply holds_store16_frame; [apply holds_store16|]|]; rewrite zlen_le16; lia.
    - unfold m4. apply holds_store16_frame; [apply holds_store16|rewrite zlen_le16; lia].
    - unfold m4. replace (p + 1 + 2 + 2) with (p + 1 + 4) by lia. apply holds_store16.
    - apply holds_nil. }
  set (m5 := RECCopyData m4 (p + 1 + (6 + zlen d1 + zlen d2)) d). assert (Hm5 : mem_ok m5) by (now apply store_bytes_ok).
  assert (S5 : same_outside (p + 7 + zlen d1 + zlen d2) (p + 1 + mv_size l) m4 m5) by (apply store_bytes_outside; lia).
  set (m6 := store8 m5 p _). assert (S6 : same_outside p (p + 1) m5 m6) by (apply store8_outside; lia).
  split; [apply store8_ok, Hm5|]. split.
  - rewrite holds_cons. split.
    + unfold m6. rewrite store8_at, Z.eqb_refl. change (load8 m5 p) with (m5 p). rewrite S5, S4, S1 by lia. rewrite Hb. apply Z.mod_small, Reset_range; [unfold TAGFLD_HEADER.fTwoValues; lia|]. rewrite <- Hb. apply Hm.
    + unfold mv_bytes. change (2 * zlen l) with 6. rewrite holds_app, zlen_offsets. change (2 * zlen l) with 6. split.
      * eapply holds_same_outside; [eapply holds_same_outside; [exact O|exact S5|]|exact S6|]; rewrite zlen_offsets; change (2 * zlen l) with 6; lia.
      * change (idatas l) with (d1 ++ d2 ++ d ++ []). rewrite app_nil_r, app_assoc, holds_app, zlen_app. replace (p + 1 + 6) with (p + 7) by lia. split.
        -- eapply holds_same_outside; [eapply holds_same_outside; [eapply holds_same_outside; [exact D|exact S4|]|exact S5|]|exact S6|]; rewrite zlen_app; lia.
        -- eapply holds_same_outside; [|exact S6|lia]. replace (p + 7 + (zlen d1 + zlen d2)) with (p + 1 + (6 + zlen d1 + zlen d2)) by lia. apply holds_store_bytes, Hd.
  - eapply same_outside_trans; [eapply same_outside_weaken; [exact S1|lia..]|]. eapply same_outside_trans; [eapply same_outside_weaken; [exact S4|lia..]|].
    eapply same_outside_trans; [eapply same_outside_weaken; [exact S5|lia..]|]. eapply same_outside_weaken; [exact S6|lia..].
Qed.

(** ** Conversions to more values *)

(** [update_resize] where the data grow. *)
Lemma update_grow t l1 e l2 d f : rep small t (l1 ++ e :: l2) -> size (l1 ++ set_data e d :: l2) <= maskIb small ->
  let p := m_rgtagfld t + ib_of (zlen (l1 ++ e :: l2)) l1 in let delta := zlen d - zlen (e_data e) in 0 < delta ->
  (forall m1, mem_ok m1 -> holds m1 p (e_data e) -> mem_ok (f m1) /\ holds (f m1) p d /\ same_outside p (p + zlen d) m1 (f m1)) ->
  let t1 := ResizeTagfld small t (zlen l1) delta in
  moved small (size (l1 ++ set_data e d :: l2)) t (with_mem t1 (f (tf_m t1))) (l1 ++ set_data e d :: l2).
Proof.
  intros R Fit p delta G Hf. pose proof (update_resize t l1 e l2 d f R Fit) as U. cbn zeta in U. fold p delta in U.
  rewrite (proj2 (Z.ltb_lt 0 delta) G), (proj2 (Z.ltb_ge delta 0)) in U by lia. rewrite !Z.max_r in U by (first [rewrite size_set_data; fold delta; lia|lia]). apply U, Hf.
Qed.

Definition two_header (c : JET_COLTYP) : Z :=
  TAGFLD_HEADER.Set_ TAGFLD_HEADER.fTwoValues (TAGFLD_HEADER.Set_ TAGFLD_HEADER.fMultiValues (TAGFLD_HEADER_new small c false false false false)).

Lemma two_header_range c : 0 <= two_header c < 256.
Proof. unfold two_header. apply Set_range; [unfold TAGFLD_HEADER.fTwoValues; lia|]. apply Set_range; [unfold TAGFLD_HEADER.fMultiValues; lia|]. apply TAGFLD_HEADER_new_range. Qed.

Lemma ConvertToTwoValues_spec t l1 e l2 d c : rep small t (l1 ++ e :: l2) -> bytes_ok d -> zlen (e_data e) < 256 ->
  let d' := tv_bytes (two_header c) (e_data e) d in size (l1 ++ set_data e d' :: l2) <= maskIb small ->
  moved small (size (l1 ++ set_data e d' :: l2)) t (ConvertToTwoValues small t (zlen l1) d c) (l1 ++ set_data e d' :: l2).
Proof.
  intros R Hd L d' Fit. pose proof (zlen_nonneg d) as Zd. pose proof (zlen_nonneg (e_data e)) as Ze.
  assert (Ld : zlen d' = 2 + zlen (e_data e) + zlen d) by apply zlen_tv_bytes.
  unfold ConvertToTwoValues. rewrite (at_PbData small t l1 e l2 R), (at_CbData small t l1 e l2 R). set (p := m_rgtagfld t + _).
  unfold sizeof_TAGFLD_HEADER, sizeof_TVLENGTH. rewrite Cb_zlen. replace (1 + 1 + zlen d) with (zlen d' - zlen (e_data e)) by lia. fold (two_header c).
  apply (update_grow t l1 e l2 d' (fun m => RECCopyData (store8 (store8 (memmove m (p + 1 + 1) p (zlen (e_data e))) p (two_header c)) (p + 1) (u8 (zlen (e_data e)))) (p + 1 + 1 + zlen (e_data e)) d) R Fit); [lia|].
  fold p. intros m Hm H. set (m1 := memmove _ _ _ _). set (m2 := store8 m1 p _). set (m3 := store8 m2 (p + 1) _). set (m4 := RECCopyData _ _ _).
  assert (Hm1 : mem_ok m1) by (apply memmove_ok, Hm). assert (Hm3 : mem_ok m3) by (unfold m3, m2; auto using store8_ok).
  assert (S1 : same_outside (p + 2) (p + 2 + zlen (e_data e)) m m1) by (apply memmove_outside; lia).
  assert (S3 : same_outside p (p + 2) m1 m3) by (eapply same_outside_trans; apply store8_outside; lia).
  assert (S4 : same_outside (p + 2 + zlen (e_data e)) (p + zlen d') m3 m4) by (apply store_bytes_outside; lia).
  split; [now apply store_bytes_ok|]. split.
  - apply holds_tv. split; [|split; [|split]].
    + rewrite S4 by lia. unfold m3, m2. rewrite !store8_at, (proj2 (Z.eqb_neq p (p + 1))), Z.eqb_refl by lia. apply Z.mod_small, two_header_range.
    + rewrite S4 by lia. unfold m3. rewrite store8_at, Z.eqb_refl. unfold u8. rewrite Z.mod_mod by lia. apply Z.mod_small. lia.
    + eapply holds_same_outside; [eapply holds_same_outside; [|exact S3|lia]|exact S4|lia]. replace (p + 2) with (p + 1 + 1) by lia. apply holds_memmove; [exact H|reflexivity].
    + replace (p + 2) with (p + 1 + 1) by lia. apply holds_store_bytes, Hd.
  - eapply same_outside_trans; [eapply same_outside_weaken; [exact S1|lia..]|]. eapply same_outside_trans; [eapply same_outside_weaken; [exact S3|lia..]|]. eapply same_outside_weaken; [exact S4|lia..].
Qed.

(** Setting the header byte of a column. *)
Lemma set_header_spec t l1 e l2 b b' d : rep small t (l1 ++ e :: l2) -> e_data e = b :: d -> 0 <= b' < 256 ->
  moved small (size (l1 ++ e :: l2)) t (set_header t (m_rgtagfld t + ib_of (zlen (l1 ++ e :: l2)) l1) b') (l1 ++ set_data e (b' :: d) :: l2).
Proof.
  intros R E Hb. pose proof (at_datas small t l1 e l2 R) as (_ & D & _). rewrite E, holds_cons in D. pose proof (zlen_nonneg d) as Zd.
  apply (rewrite_data small t l1 e l2 _ _ (m_rgtagfld t + ib_of (zlen (l1 ++ e :: l2)) l1)); [exact R|apply store8_ok, R|rewrite E; zl|reflexivity|..].
  - apply store8_outside; zl.
  - rewrite holds_cons. split; [rewrite store8_at, Z.eqb_refl; now apply Z.mod_small|]. apply holds_store8_frame; [apply D|lia].
Qed.

Lemma zlen_cons_data (b : Z) d : zlen (b :: d) = 1 + zlen d.
Proof. apply zlen_cons. Qed.

Lemma ConvertToMultiValues_spec t l1 e l2 d sep b d0 : rep small t (l1 ++ e :: l2) -> bytes_ok d -> e_data e = b :: d0 ->
  let b' := TAGFLD_HEADER.Set_ TAGFLD_HEADER.fMultiValues (TAGFLD_HEADER.Reset_ TAGFLD_HEADER.fSeparated b) in
  let d' := b' :: mv_bytes [(TAGFLD_HEADER.FSeparated b, d0); (sep, d)] in size (l1 ++ set_data e d' :: l2) <= maskIb small ->
  moved small (size (l1 ++ set_data e d' :: l2)) t (ConvertToMultiValues small t (zlen l1) d sep) (l1 ++ set_data e d' :: l2).
Proof.
  intros R Hd E b' d' Fit. pose proof (zlen_nonneg d) as Zd. pose proof (zlen_nonneg d0) as Z0. pose proof (maskIb_range small) as M.
  assert (Ld : zlen d' = 5 + zlen d0 + zlen d) by (unfold d'; rewrite zlen_cons, zlen_mv_bytes; unfold mv_size; change (idatas _) with (d0 ++ d ++ []); rewrite app_nil_r, zlen_app; change (zlen [(TAGFLD_HEADER.FSeparated b, d0); (sep, d)]) with 2; lia).
  pose proof (at_datas small t l1 e l2 R) as (_ & D & _). pose proof (holds_bytes_ok _ _ _ (rep_mem _ _ _ R) D) as Be. rewrite E in Be. apply Forall_cons_iff in Be as [Hb _].
  assert (Hb' : 0 <= b' < 256) by (apply Set_range; [unfold TAGFLD_HEADER.fMultiValues; lia|apply Reset_range; [unfold TAGFLD_HEADER.fSeparated; lia|exact Hb]]).
  unfold ConvertToMultiValues. rewrite (at_PbData small t l1 e l2 R), (at_CbData small t l1 e l2 R), (at_header small t l1 e l2 R b d0 E). set (p := m_rgtagfld t + _). fold b'.
  pose proof (set_header_spec t l1 e l2 b b' d0 R E Hb') as Mv. fold p in Mv. set (t0 := set_header t p b') in *. rewrite E in *.
  unfold sizeof_TAGFLD_HEADER, sizeof_MVOFFSET. rewrite zlen_cons_data. change (2 * 2) with 4. replace (1 + zlen d0 - 1) with (zlen d0) by lia.
  pose proof (moved_rep _ _ _ _ Mv) as R0. set (e0 := set_data e (b' :: d0)) in *. assert (L0 : zlen (e_data e0) = 1 + zlen d0) by apply zlen_cons.
  replace (4 + Cb d) with (zlen d' - zlen (e_data e0)) by (change (Cb d) with (zlen d); lia).
  pose proof (size_set_data l1 e l2 d') as Sz. rewrite E in Sz.
  rewrite (u16_small (4 + zlen d0)) by (pose proof (size_nonneg (l1 ++ e :: l2)); pose proof (size_at l1 e l2) as W; rewrite E, zlen_cons_data in W; rewrite zlen_cons_data in Sz; unfold ib_of in W; pose_zlen; lia).
  eapply moved_trans; [eapply moved_weaken; [exact Mv|rewrite Sz, zlen_cons_data; lia]|]. change (set_data e d') with (set_data e0 d').
  pose proof (update_grow t0 l1 e0 l2 d' (fun m =>
    let m := memmove m (p + 1 + 4) (p + 1) (zlen d0) in
    let m := store_bytes (store16 (store16 m (p + 1) 4) (p + 1 + 2) (4 + zlen d0)) (p + 1 + (4 + zlen d0)) d in
    let m := if TAGFLD_HEADER.FSeparated b then store16 m (p + 1) (Z.lor (load16 m (p + 1)) fSeparatedInstance) else m in
    if sep then store16 m (p + 1 + 2) (Z.lor (load16 m (p + 1 + 2)) fSeparatedInstance) else m) R0) as U.
  cbn zeta in U. rewrite (moved_rg _ _ _ _ Mv), zlen_set_entry with (e := e) in U. fold p in U. apply U; clear U; [exact Fit|lia|].
  intros m Hm H. cbn [e0 set_data e_data] in H. rewrite holds_cons in H. destruct H as [H0 H1].
  set (m1 := memmove _ _ _ _). assert (Hm1 : mem_ok m1) by (apply memmove_ok, Hm). assert (S1 : same_outside (p + 5) (p + 5 + zlen d0) m m1) by (apply memmove_outside; lia).
  set (m2 := store16 (store16 m1 _ _) _ _). assert (Hm2 : mem_ok m2) by (unfold m2; auto using store16_ok). assert (S2 : same_outside (p + 1) (p + 5) m1 m2) by (eapply same_outside_trans; apply store16_outside; lia).
  set (m3 := store_bytes m2 _ d). assert (Hm3 : mem_ok m3) by (now apply store_bytes_ok). assert (S3 : same_outside (p + 5 + zlen d0) (p + zlen d') m2 m3) by (apply store_bytes_outside; lia).
  assert (O0 : holds m3 (p + 1) (le16 (offset_word false 4))) by (apply holds_store_bytes_frame; [apply holds_store16_frame; [apply holds_store16|]|]; rewrite zlen_le16; lia).
  assert (O1 : holds m3 (p + 1 + 2) (le16 (offset_word false (4 + zlen d0)))) by (apply holds_store_bytes_frame; [apply holds_store16|rewrite zlen_le16; lia]).
  assert (W : zlen d' <= maskIb small) by (pose proof (size_at l1 (set_data e d') l2) as X; cbn [set_data e_data] in X; unfold ib_of in X; pose_zlen; lia).
  assert (X : forall (s : bool) o m a, mem_ok m -> 0 <= o < 32768 -> holds m a (le16 (offset_word false o)) ->
    let m' := if s then store16 m a (Z.lor (load16 m a) fSeparatedInstance) else m in mem_ok m' /\ holds m' a (le16 (offset_word s o)) /\ same_outside a (a + 2) m m').
  { intros s o m' a Hm' Ho Ha. destruct s; [exact (write_sep m' a false true o Hm' Ho Ha)|]. split; [exact Hm'|]. split; [exact Ha|apply same_outside_refl]. }
  destruct (X (TAGFLD_HEADER.FSeparated b) 4 m3 (p + 1) Hm3) as (Hm4 & A0 & S4); [lia|exact O0|]. set (m4 := if TAGFLD_HEADER.FSeparated b then _ else m3) in *.
  destruct (X sep (4 + zlen d0) m4 (p + 1 + 2) Hm4) as (Hm5 & A1 & S5); [lia|eapply holds_same_outside; [exact O1|exact S4|rewrite zlen_le16; lia]|]. set (m5 := if sep then _ else m4) in *.
  assert (S45 : same_outside (p + 1) (p + 5) m3 m5) by (eapply same_outside_trans; eapply same_outside_weaken; [exact S4|..|exact S5|idtac|idtac]; lia).
  split; [exact Hm5|]. split.
  - unfold d'. rewrite holds_cons. split; [rewrite S45, S3, S2, S1 by lia; exact H0|]. unfold mv_bytes. set (l := [(TAGFLD_HEADER.FSeparated b, d0); (sep, d)]).
    rewrite holds_app, zlen_offsets. change (2 * zlen l) with 4. change (idatas l) with (d0 ++ d ++ []). rewrite app_nil_r. unfold l. cbn [offsets isep idata fst snd]. rewrite !holds_app, !zlen_le16. split; [split; [|split]|split].
    + eapply holds_same_outside; [exact A0|exact S5|rewrite zlen_le16; lia].
    + exact A1.
    + apply holds_nil.
    + eapply holds_same_outside; [|exact S45|lia]. eapply holds_same_outside; [|exact S3|lia]. eapply holds_same_outside; [|exact S2|lia]. apply holds_memmove; [exact H1|reflexivity].
    + replace (p + 1 + 4 + zlen d0) with (p + 1 + (4 + zlen d0)) by lia. eapply holds_same_outside; [apply holds_store_bytes, Hd|exact S45|lia].
  - eapply same_outside_trans; [eapply same_outside_weaken; [exact S1|lia..]|]. eapply same_outside_trans; [eapply same_outside_weaken; [exact S2|lia..]|].
    eapply same_outside_trans; [eapply same_outside_weaken; [exact S3|lia..]|]. eapply same_outside_weaken; [exact S45|lia..].
Qed.

(** ** Flags *)

Lemma at_ib_range t l1 e l2 : rep small t (l1 ++ e :: l2) -> 0 <= ib_of (zlen (l1 ++ e :: l2)) l1 <= maskIb small.
Proof. intros R. pose proof (at_range small t l1 e l2 R). pose_zlen. lia. Qed.

Lemma entry_ok_flags (e : ENTRY) (x nl : bool) : small = true -> entry_ok small e -> entry_ok small (set_flags e x nl).
Proof. intros S (a & b & _). split; [exact a|]. split; [exact b|]. now rewrite S. Qed.

Lemma ResetFExtendedInfo_spec t l1 e l2 : small = true -> rep small t (l1 ++ e :: l2) ->
  moved small (size (l1 ++ e :: l2)) t (ResetFExtendedInfo small t (zlen l1)) (l1 ++ set_flags e false (e_null e) :: l2).
Proof.
  intros S R. unfold ResetFExtendedInfo. rewrite (at_tagfld small t l1 e l2 R). cbn [m_ib]. pose proof (at_entry_ok small t l1 e l2 R) as He.
  rewrite (word_set_ext small e _ false S He (at_ib_range t l1 e l2 R)). apply rewrite_flags; [exact R|now apply entry_ok_flags|reflexivity..].
Qed.

Lemma SetFExtendedInfo_spec t l1 e l2 : small = true -> rep small t (l1 ++ e :: l2) ->
  moved small (size (l1 ++ e :: l2)) t (SetFExtendedInfo small t (zlen l1)) (l1 ++ set_flags e true (e_null e) :: l2).
Proof.
  intros S R. unfold SetFExtendedInfo. rewrite (at_tagfld small t l1 e l2 R). cbn [m_ib]. pose proof (at_entry_ok small t l1 e l2 R) as He.
  rewrite (word_set_ext small e _ true S He (at_ib_range t l1 e l2 R)). apply rewrite_flags; [exact R|now apply entry_ok_flags|reflexivity..].
Qed.

(** The entry when it becomes null, or not null. *)
Definition null_entry (nl : bool) (e : ENTRY) : ENTRY :=
  if small then set_flags e (e_ext e) nl
  else match e_data e with h :: d => set_data e (TAGFLD_HEADER.Assign_ nl TAGFLD_HEADER.fNull h :: d) | [] => e end.

Lemma set_null_spec t l1 e l2 (nl : bool) : rep small t (l1 ++ e :: l2) -> (small = false -> e_data e <> []) ->
  moved small (size (l1 ++ e :: l2)) t (if nl then SetFNull small t (zlen l1) else ResetFNull small t (zlen l1)) (l1 ++ null_entry nl e :: l2).
Proof.
  intros R N. pose proof (at_entry_ok small t l1 e l2 R) as He. unfold SetFNull, ResetFNull, null_entry. destruct (bool_dec small true) as [S|S].
  - rewrite S. rewrite (at_tagfld small t l1 e l2 R). cbn [m_ib].
    replace (if nl then set_m_ib t (zlen l1) (Z.lor (e_word e + ib_of (zlen (l1 ++ e :: l2)) l1) fNullSmallPage) else set_m_ib t (zlen l1) (Z.ldiff (e_word e + ib_of (zlen (l1 ++ e :: l2)) l1) fNullSmallPage))
      with (set_m_ib t (zlen l1) (if nl then Z.lor (e_word e + ib_of (zlen (l1 ++ e :: l2)) l1) fNullSmallPage else Z.ldiff (e_word e + ib_of (zlen (l1 ++ e :: l2)) l1) fNullSmallPage)) by (now destruct nl).
    rewrite (word_set_null small e _ nl S He (at_ib_range t l1 e l2 R)), <- S. apply rewrite_flags; [exact R|now apply entry_ok_flags|reflexivity..].
  - apply not_true_is_false in S. rewrite S. specialize (N S). destruct (e_data e) as [|h d] eqn:E; [contradiction|].
    pose proof (at_datas small t l1 e l2 R) as (_ & D & _). pose proof (holds_bytes_ok _ _ _ (rep_mem _ _ _ R) D) as Be. rewrite E in Be. apply Forall_cons_iff in Be as [Hb _].
    pose proof (set_header_spec t l1 e l2 h (TAGFLD_HEADER.Assign_ nl TAGFLD_HEADER.fNull h) d R E) as U. rewrite <- S. rewrite (at_PbData small t l1 e l2 R), (at_header small t l1 e l2 R h d E).
    unfold TAGFLD_HEADER.Assign_ in *. destruct nl; apply U; [apply Set_range|apply Reset_range]; unfold TAGFLD_HEADER.fNull; lia || exact Hb.
Qed.

(** ** Giving room back *)

Lemma at_PbData_next t l1 e e' l2 : rep small t (l1 ++ e :: e' :: l2) ->
  PbData small t (zlen l1 + 1) = m_rgtagfld t + ib_of (zlen (l1 ++ e :: e' :: l2)) l1 + zlen (e_data e).
Proof. intros R. unfold PbData. rewrite (next_Ib small t l1 e e' l2 R). lia. Qed.

(** The end of [CbDeleteMultiValue]: the columns behind move up. *)
Definition close_gap (t : TAGFIELDS) (itagfld pb cbShrink : Z) : TAGFIELDS :=
  let t :=
    if itagfld <? CTaggedColumns t - 1 then
      let pbDataNextColumn := PbData small t (itagfld + 1) in with_mem t (memmove (tf_m t) pb pbDataNextColumn (PbMax t - pbDataNextColumn))
    else t in
  let t := with_size t (u32 (CbTaggedColumns t - cbShrink)) (CTaggedColumns t) in
  delta_loop small (Z.to_nat (CTaggedColumns t - (itagfld + 1))) t (itagfld + 1) (s16 (- s16 cbShrink)).

Lemma close_gap_spec t l1 e l2 d x : rep small t (l1 ++ e :: l2) -> e_data e = d ++ x ->
  moved small (size (l1 ++ e :: l2)) t (close_gap t (zlen l1) (m_rgtagfld t + ib_of (zlen (l1 ++ e :: l2)) l1 + zlen d) (zlen x)) (l1 ++ set_data e d :: l2).
Proof.
  intros R E. pose proof (zlen_nonneg x) as Zx. pose proof (zlen_nonneg d) as Zd. pose proof (size_at l1 e l2) as W. pose proof (rep_fit _ _ _ R) as Fit. pose proof (maskIb_range small) as M.
  pose proof (at_range small t l1 e l2 R) as (B1 & B2). assert (Le : zlen (e_data e) = zlen d + zlen x) by (rewrite E; apply zlen_app).
  destruct (ResizeTagfld_spec small t l1 e l2 (- zlen x) R) as (j & Lj & Mv); [lia|lia|]. assert (J : j = []) by (apply length_zero_iff_nil; unfold zlen in Lj, Zx; lia).
  rewrite J, app_nil_r in Mv. replace (zlen (e_data e) + - zlen x) with (zlen d) in Mv by lia. rewrite E, firstn_zlen, Z.max_l in Mv by lia.
  replace (close_gap _ _ _ _) with (ResizeTagfld small t (zlen l1) (- zlen x)); [exact Mv|]. pose proof (zlen_nonneg (datas l2)).
  unfold ResizeTagfld, close_gap. rewrite (s16_small (zlen x)), !s16_small by lia. rewrite Z.add_opp_r.
  replace (zlen l1 <? CTaggedColumns t - 1) with (match l2 with [] => false | _ => true end) by (now rewrite (rep_c _ _ _ R), last_or_not).
  destruct l2 as [|e2 l2]; [reflexivity|]. unfold PbMax. rewrite (at_PbData_next t l1 e e2 l2 R), (next_Ib small t l1 e e2 l2 R), Le, ?Z.add_opp_r. set (ib := ib_of _ l1).
  replace (m_rgtagfld t + ib + (zlen d + zlen x) - zlen x) with (m_rgtagfld t + ib + zlen d) by lia.
  replace (m_rgtagfld t + CbTaggedColumns t - (m_rgtagfld t + ib + (zlen d + zlen x))) with (CbTaggedColumns t - (ib + (zlen d + zlen x))) by lia. reflexivity.
Qed.

(** A part of the data of an entry moved up. *)
Lemma pull_spec t l1 e l2 a1 a2 d c : rep small t (l1 ++ e :: l2) -> e_data e = a1 ++ a2 ++ d ++ c ->
  let p := m_rgtagfld t + ib_of (zlen (l1 ++ e :: l2)) l1 in
  exists x, zlen x = zlen a2 + zlen c /\
    moved small (size (l1 ++ e :: l2)) t (with_mem t (memmove (tf_m t) (p + zlen a1) (p + zlen a1 + zlen a2) (zlen d))) (l1 ++ set_data e ((a1 ++ d) ++ x) :: l2).
Proof.
  intros R E p. pose proof (at_datas small t l1 e l2 R) as (_ & D & _). fold p in D. rewrite E, !holds_app in D. destruct D as (D1 & D2 & D3 & D4). pose_zlen.
  set (m' := memmove _ _ _ _). assert (S : same_outside (p + zlen a1) (p + zlen a1 + zlen d) (tf_m t) m') by (apply memmove_outside; lia).
  set (x := load_bytes m' (p + zlen a1 + zlen d) (zlen a2 + zlen c)). assert (Lx : zlen x = zlen a2 + zlen c) by (apply zlen_load_bytes; lia).
  exists x. split; [exact Lx|]. apply (rewrite_data small t l1 e l2 _ _ p); [exact R|apply memmove_ok, R|rewrite E, !zlen_app, Lx; lia|reflexivity|..].
  - eapply same_outside_weaken; [exact S|lia|rewrite !zlen_app; lia].
  - rewrite !holds_app, zlen_app. split; [split|].
    + eapply holds_same_outside; [exact D1|exact S|lia].
    + apply holds_memmove; [exact D3|reflexivity].
    + rewrite Z.add_assoc. apply holds_load_bytes.
Qed.

(** ** Taking a value out *)

Definition mv_removed (e : ENTRY) (b : Z) (i1 rest : list INST) : ENTRY :=
  match rest with
  | [j] =>
      let b1 := TAGFLD_HEADER.Reset_ TAGFLD_HEADER.fMultiValues b in
      if FNeedExtendedInfo small b1
      then set_data e (TAGFLD_HEADER.Assign_ (isep j) TAGFLD_HEADER.fSeparated (first_header i1 (TAGFLD_HEADER.Reset_ TAGFLD_HEADER.fCompressed) b1) :: idata j)
      else set_data (set_flags e false (e_null e)) (idata j)
  | _ => set_data e (first_header i1 (TAGFLD_HEADER.Reset_ TAGFLD_HEADER.fCompressed) b :: mv_bytes rest)
  end.

Lemma at_mv t l1 e l2 b l : rep small t (l1 ++ e :: l2) -> e_data e = b :: mv_bytes l -> 1 < zlen l ->
  let p := m_rgtagfld t + ib_of (zlen (l1 ++ e :: l2)) l1 in
  MULTIVALUES_new (tf_m t) (PbData small t (zlen l1)) (CbData small t (zlen l1)) = Multivalues p (mv_size l) (zlen l) /\
  mvrep (tf_m t) (Multivalues p (mv_size l) (zlen l)) l /\ holds (tf_m t) p (b :: mv_bytes l).
Proof.
  intros R E N p. rewrite (at_PbData small t l1 e l2 R), (at_CbData small t l1 e l2 R), E, zlen_cons, zlen_mv_bytes. pose proof (at_datas small t l1 e l2 R) as (_ & D & _). fold p in D |- *. rewrite E in D.
  pose proof (at_range small t l1 e l2 R) as (B1 & B2). rewrite E, zlen_cons, zlen_mv_bytes in B2. pose proof (maskIb_range small). pose_zlen.
  destruct (MULTIVALUES_new_spec (tf_m t) p b l) as [X Y]; [apply R|exact N|lia|exact D|]. auto.
Qed.

(** What is left of a column of three values or more. *)
Lemma delete_many t l1 e l2 b i1 i i2 : rep small t (l1 ++ e :: l2) -> e_data e = b :: mv_bytes (i1 ++ i :: i2) -> 2 < zlen (i1 ++ i :: i2) ->
  let e' := set_data e (first_header i1 (TAGFLD_HEADER.Reset_ TAGFLD_HEADER.fCompressed) b :: mv_bytes (i1 ++ i2)) in
  let r := CbDeleteMultiValue small t (zlen l1) (zlen i1 + 1) in
  moved small (size (l1 ++ e :: l2)) t (fst r) (l1 ++ e' :: l2) /\ snd r = zlen (e_data e) - zlen (e_data e').
Proof.
  intros R E N e' r. subst r. pose proof (at_mv t l1 e l2 b _ R E) as (X & MV & H); [lia|]. set (p := m_rgtagfld t + _) in *. set (mv := Multivalues p _ _) in *.
  unfold CbDeleteMultiValue. rewrite X. cbn [mv CMultiValues]. assert (C : zlen (i1 ++ i :: i2) = zlen i1 + 1 + zlen i2) by zl. pose proof (zlen_nonneg i1) as Y1. pose proof (zlen_nonneg i2) as Y2.
  rewrite (proj2 (Z.ltb_lt 0 (zlen i1 + 1))), (proj2 (Z.leb_le (zlen i1 + 1) _)), (proj2 (Z.ltb_lt 2 _)) by lia. cbn [andb]. fold mv.
  destruct (RemoveInstance_spec (tf_m t) mv i1 i i2 MV) as (Hm & H' & _ & Cb' & S). destruct (RemoveInstance (tf_m t) mv (zlen i1 + 1)) as [m' mv'] eqn:Er. cbn [fst snd mv mv_pheader] in Hm, H', Cb', S.
  assert (Hb : tf_m t p = b) by (rewrite holds_cons in H; apply H). rewrite Hb in H'. set (d := first_header i1 (TAGFLD_HEADER.Reset_ TAGFLD_HEADER.fCompressed) b :: mv_bytes (i1 ++ i2)) in *.
  assert (Ld : zlen d = 1 + mv_size (i1 ++ i2)) by (unfold d; now rewrite zlen_cons, zlen_mv_bytes).
  assert (Le : zlen (e_data e) = 1 + mv_size (i1 ++ i :: i2)) by (rewrite E, zlen_cons, zlen_mv_bytes; reflexivity).
  assert (Sz : mv_size (i1 ++ i :: i2) = mv_size (i1 ++ i2) + 2 + zlen (idata i)) by (rewrite !mv_size_app, mv_size_cons; lia). pose proof (zlen_nonneg (idata i)).
  set (x := load_bytes m' (p + zlen d) (2 + zlen (idata i))). assert (Lx : zlen x = 2 + zlen (idata i)) by (apply zlen_load_bytes; lia).
  assert (Mv : moved small (size (l1 ++ e :: l2)) t (with_mem t m') (l1 ++ set_data e (d ++ x) :: l2)).
  { apply (rewrite_data small t l1 e l2 _ _ p); [exact R|exact Hm|rewrite zlen_app; lia|reflexivity|..].
    - eapply same_outside_weaken; [exact S|lia|rewrite zlen_app; lia].
    - rewrite holds_app. split; [exact H'|apply holds_load_bytes]. }
  pose proof (moved_rep _ _ _ _ Mv) as R1. change (tf_m (with_mem t m')) with m' in *. rewrite (at_CbData small _ l1 _ l2 R1). cbn [set_data e_data mv mv_pheader]. unfold sizeof_TAGFLD_HEADER. rewrite Cb', <- Ld, zlen_app.
  replace (zlen d + zlen x - zlen d) with (zlen x) by lia. pose proof (at_range small t l1 e l2 R) as (B1 & B2). pose proof (maskIb_range small). pose proof (zlen_nonneg (datas l2)). pose proof (mv_size_nonneg (i1 ++ i2)). rewrite (u32_small (zlen x)) by lia.
  cbn [fst snd]. split; [|cbn [e' set_data e_data]; lia]. pose proof (close_gap_spec (with_mem t m') l1 (set_data e (d ++ x)) l2 d x R1 eq_refl) as G.
  rewrite zlen_set_entry with (e := e) in G. eapply moved_trans; [exact Mv|]. eapply moved_weaken; [exact G|]. rewrite size_set_data, zlen_app. lia.
Qed.

(** Changes of the header byte, one after the other. *)
Lemma moved_header hi t t' l1 e l2 b d : moved small hi t t' (l1 ++ set_data e (b :: d) :: l2) ->
  header t' (m_rgtagfld t + ib_of (zlen (l1 ++ e :: l2)) l1) = b.
Proof.
  intros Mv. pose proof (at_header small t' l1 _ l2 (moved_rep _ _ _ _ Mv) b d eq_refl) as H. now rewrite (moved_rg _ _ _ _ Mv), zlen_set_entry with (e := e) in H.
Qed.

Lemma moved_byte hi t t' l1 e l2 b d : moved small hi t t' (l1 ++ set_data e (b :: d) :: l2) -> 0 <= b < 256.
Proof.
  intros Mv. pose proof (rep_ok _ _ _ (moved_rep _ _ _ _ Mv)) as F. apply Forall_app in F as [_ F]. apply Forall_cons_iff in F as [(_ & Be & _) _]. cbn [set_data e_data] in Be. now apply Forall_cons_iff in Be as [Hb _].
Qed.

Lemma set_header_again t t' l1 e l2 b b' d : moved small (size (l1 ++ e :: l2)) t t' (l1 ++ set_data e (b :: d) :: l2) -> zlen (e_data e) = 1 + zlen d -> 0 <= b' < 256 ->
  moved small (size (l1 ++ e :: l2)) t (set_header t' (m_rgtagfld t + ib_of (zlen (l1 ++ e :: l2)) l1) b') (l1 ++ set_data e (b' :: d) :: l2).
Proof.
  intros Mv L Hb. pose proof (set_header_spec t' l1 (set_data e (b :: d)) l2 b b' d (moved_rep _ _ _ _ Mv) eq_refl Hb) as U.
  rewrite (moved_rg _ _ _ _ Mv), zlen_set_entry with (e := e) in U. eapply moved_trans; [exact Mv|]. eapply moved_weaken; [exact U|]. rewrite size_set_data, zlen_cons. lia.
Qed.

Lemma delete_one_of_two t l1 e l2 b i1 j1 j j2 : rep small t (l1 ++ e :: l2) -> e_data e = b :: mv_bytes (j1 ++ j :: j2) -> zlen (j1 ++ j :: j2) = 2 ->
  zlen i1 + 1 = 2 - zlen j1 ->
  let e' := mv_removed e b i1 [j] in let r := CbDeleteMultiValue small t (zlen l1) (zlen i1 + 1) in
  moved small (size (l1 ++ e :: l2)) t (fst r) (l1 ++ e' :: l2) /\ snd r = zlen (e_data e) - zlen (e_data e').
Proof.
  intros R E N I e' r. subst r. pose proof (at_mv t l1 e l2 b _ R E) as (X & MV & H); [lia|]. set (p := m_rgtagfld t + _) in *. set (mv := Multivalues p _ _) in *.
  pose proof (zlen_nonneg i1) as Y1. pose proof (zlen_nonneg j1) as Y2. pose proof (zlen_nonneg (idata j)) as Zj. set (l := j1 ++ j :: j2) in *.
  assert (E2 : e_data e = [b] ++ (offsets (2 * zlen l) l ++ idatas j1) ++ idata j ++ idatas j2).
  { rewrite E. unfold mv_bytes. cbn [app]. rewrite <- app_assoc. f_equal. f_equal. unfold l. now rewrite idatas_app, idatas_cons. }
  assert (La : zlen (offsets (2 * zlen l) l ++ idatas j1) = mib (zlen l) j1) by (rewrite zlen_app, zlen_offsets; reflexivity).
  assert (Le : zlen (e_data e) = 1 + mv_size l) by (rewrite E, zlen_cons, zlen_mv_bytes; reflexivity).
  pose proof (mv_size_at j1 j j2) as Sz. cbv zeta in Sz. fold l in Sz. pose proof (zlen_nonneg (idatas j2)) as Zj2. pose proof (zlen_nonneg (idatas j1)) as Zj1. assert (I2 : mib (zlen l) j1 = 4 + zlen (idatas j1)) by (unfold mib; lia).
  pose proof (at_range small t l1 e l2 R) as (B1 & B2). pose proof (maskIb_range small) as M. pose proof (zlen_nonneg (datas l2)) as Z2.
  assert (Hb : 0 <= b < 256) by (pose proof (at_entry_ok small t l1 e l2 R) as (_ & Be & _); rewrite E in Be; now apply Forall_cons_iff in Be as [Hb _]).
  set (b1 := TAGFLD_HEADER.Reset_ TAGFLD_HEADER.fMultiValues b). assert (Hb1 : 0 <= b1 < 256) by (apply Reset_range; [unfold TAGFLD_HEADER.fMultiValues; lia|exact Hb]).
  assert (Hh : header t p = b) by (apply (at_header small t l1 e l2 R b (mv_bytes l) E)).
  unfold CbDeleteMultiValue. rewrite X. cbn [mv CMultiValues mv_pheader]. fold mv. rewrite N.
  rewrite (proj2 (Z.ltb_lt 0 (zlen i1 + 1))), (proj2 (Z.leb_le (zlen i1 + 1) _)), (proj2 (Z.ltb_ge 2 2)) by lia. cbn [andb].
  replace (2 - (zlen i1 + 1)) with (zlen j1) by lia. rewrite (mv_at_sep _ _ j1 j j2 MV), (mv_at_PbData _ _ j1 j j2 MV), (mv_at_CbData _ _ j1 j j2 MV). fold l. change (mv_rgmvoffs mv) with (p + 1).
  rewrite Hh. fold b1. pose proof (set_header_spec t l1 e l2 b b1 (mv_bytes l) R E Hb1) as Mv1. fold p in Mv1. set (t1 := set_header t p b1) in *.
  assert (Ll : zlen (e_data e) = 1 + zlen (mv_bytes l)) by (rewrite zlen_mv_bytes; exact Le).
  pose proof (moved_header _ _ _ _ _ _ _ _ Mv1) as Hh1. fold p in Hh1. rewrite Hh1. unfold mv_removed in e'. fold b1 in e'. unfold sizeof_TAGFLD_HEADER. destruct (FNeedExtendedInfo small b1) eqn:Ne.
  - set (b2 := first_header i1 (TAGFLD_HEADER.Reset_ TAGFLD_HEADER.fCompressed) b1) in *. assert (Hb2 : 0 <= b2 < 256) by (unfold b2; destruct i1; [apply Reset_range; [unfold TAGFLD_HEADER.fCompressed; lia|exact Hb1]|exact Hb1]).
    set (t2 := if 1 =? zlen i1 + 1 then _ else t1). assert (Mv2 : moved small (size (l1 ++ e :: l2)) t t2 (l1 ++ set_data e (b2 :: mv_bytes l) :: l2)).
    { unfold t2, b2 in *. destruct i1 as [|i0 i1]; [change (1 =? zlen (@nil INST) + 1) with true; apply (set_header_again t t1 l1 e l2 b1); assumption|]. rewrite (proj2 (Z.eqb_neq _ _)) by zl. exact Mv1. }
    pose proof (moved_header _ _ _ _ _ _ _ _ Mv2) as Hh2. fold p in Hh2. rewrite Hh2. set (b3 := TAGFLD_HEADER.Assign_ (isep j) TAGFLD_HEADER.fSeparated b2) in *.
    assert (Hb3 : 0 <= b3 < 256) by (apply Assign_range; [unfold TAGFLD_HEADER.fSeparated; lia|exact Hb2]).
    pose proof (set_header_again t t2 l1 e l2 b2 b3 (mv_bytes l) Mv2 Ll Hb3) as Mv3. fold p in Mv3. set (t3 := set_header t2 p b3) in *.
    destruct (pull_spec t3 l1 (set_data e (b3 :: mv_bytes l)) l2 [b3] (offsets (2 * zlen l) l ++ idatas j1) (idata j) (idatas j2) (moved_rep _ _ _ _ Mv3)) as (x & Lx & Mv4).
    { cbn [set_data e_data app]. f_equal. rewrite E in E2. now injection E2. }
    rewrite (moved_rg _ _ _ _ Mv3), zlen_set_entry with (e := e), La in Mv4. fold p in Mv4. change (zlen [b3]) with 1 in Mv4. cbn [app] in Mv4.
    set (t4 := with_mem t3 _) in *. pose proof (moved_rep _ _ _ _ Mv4) as R4. rewrite (at_CbData small t4 l1 _ l2 R4). cbn [set_data e_data]. rewrite La in Lx.
    assert (Lc : zlen (b3 :: idata j ++ x) = zlen (idata j) + 1 + zlen x) by (rewrite zlen_cons, zlen_app; lia). rewrite Lc. replace (zlen (idata j) + 1 + zlen x - (zlen (idata j) + 1)) with (zlen x) by lia.
    rewrite (u32_small (zlen x)) by lia. cbn [fst snd]. split; [|subst e'; cbn [set_data e_data]; rewrite zlen_cons; lia].
    pose proof (close_gap_spec t4 l1 (set_data (set_data e (b3 :: mv_bytes l)) (b3 :: idata j ++ x)) l2 (b3 :: idata j) x R4 eq_refl) as G.
    rewrite zlen_set_entry with (e := e), (moved_rg _ _ _ _ Mv4), (moved_rg _ _ _ _ Mv3) in G. fold p in G. rewrite zlen_cons, Z.add_comm with (n := 1) in G.
    eapply moved_trans; [exact Mv3|]. eapply moved_trans; [eapply moved_weaken; [exact Mv4|]|eapply moved_weaken; [exact G|]].
    + rewrite size_set_data, zlen_cons. lia.
    + change (set_data (set_data e (b3 :: mv_bytes l)) (b3 :: idata j ++ x)) with (set_data e (b3 :: idata j ++ x)). rewrite size_set_data. lia.
  - assert (Sm : small = true) by (unfold FNeedExtendedInfo in Ne; destruct small; [reflexivity|discriminate]).
    pose proof (ResetFExtendedInfo_spec t1 l1 _ l2 Sm (moved_rep _ _ _ _ Mv1)) as Mv2. set (t2 := ResetFExtendedInfo small t1 (zlen l1)) in *.
    change (set_flags (set_data e (b1 :: mv_bytes l)) false (e_null (set_data e (b1 :: mv_bytes l)))) with (set_data (set_flags e false (e_null e)) (b1 :: mv_bytes l)) in Mv2.
    set (ef := set_flags e false (e_null e)) in *.
    destruct (pull_spec t2 l1 (set_data ef (b1 :: mv_bytes l)) l2 [] (b1 :: offsets (2 * zlen l) l ++ idatas j1) (idata j) (idatas j2) (moved_rep _ _ _ _ Mv2)) as (x & Lx & Mv4).
    { cbn [set_data e_data app]. f_equal. rewrite E in E2. now injection E2. }
    rewrite (moved_rg _ _ _ _ Mv2), (moved_rg _ _ _ _ Mv1), zlen_set_entry with (e := e), zlen_cons, La in Mv4. fold p in Mv4. change (zlen []) with 0 in Mv4. rewrite Z.add_0_r, Z.add_assoc in Mv4. cbn [app] in Mv4.
    set (t4 := with_mem t2 _) in *. pose proof (moved_rep _ _ _ _ Mv4) as R4. rewrite (at_CbData small t4 l1 _ l2 R4). cbn [set_data e_data]. rewrite zlen_cons, La in Lx.
    rewrite zlen_app. replace (zlen (idata j) + zlen x - zlen (idata j)) with (zlen x) by lia.
    rewrite (u32_small (zlen x)) by lia. cbn [fst snd]. split; [|subst e'; cbn [set_data e_data]; lia].
    pose proof (close_gap_spec t4 l1 (set_data (set_data ef (b1 :: mv_bytes l)) (idata j ++ x)) l2 (idata j) x R4 eq_refl) as G.
    rewrite zlen_set_entry with (e := e), (moved_rg _ _ _ _ Mv4), (moved_rg _ _ _ _ Mv2), (moved_rg _ _ _ _ Mv1) in G. fold p in G.
    assert (Sf : forall d, size (l1 ++ set_data ef d :: l2) = size (l1 ++ e :: l2) + (zlen d - zlen (e_data e))) by (intros d; rewrite !size_app, !size_cons; cbn [set_data e_data]; lia).
    eapply moved_trans; [exact Mv1|]. eapply moved_trans; [eapply moved_weaken; [exact Mv2|]|eapply moved_trans; [eapply moved_weaken; [exact Mv4|]|eapply moved_weaken; [exact G|]]].
    + rewrite size_set_data, zlen_cons. lia.
    + rewrite Sf, zlen_cons. lia.
    + change (set_data (set_data ef (b1 :: mv_bytes l)) (idata j ++ x)) with (set_data ef (idata j ++ x)). rewrite Sf, zlen_app. lia.
Qed.

(** The end of [CbConvertTwoValuesToSingleValue]. *)
Definition close_gap_two (t : TAGFIELDS) (itagfld pb cbShrink : Z) : TAGFIELDS :=
  let t :=
    if itagfld <? CTaggedColumns t - 1 then
      let pbDataNextColumn := PbData small t (itagfld + 1) in with_mem t (memmove (tf_m t) pb pbDataNextColumn (PbMax t - pbDataNextColumn))
    else t in
  let t := ResetFExtendedInfo small t itagfld in
  let t := delta_loop small (Z.to_nat (CTaggedColumns t - (itagfld + 1))) t (itagfld + 1) (s16 (- s16 cbShrink)) in
  with_size t (u32 (CbTaggedColumns t - cbShrink)) (CTaggedColumns t).

Lemma close_gap_two_spec t l1 e l2 d x : small = true -> rep small t (l1 ++ e :: l2) -> e_data e = d ++ x ->
  moved small (size (l1 ++ e :: l2)) t (close_gap_two t (zlen l1) (m_rgtagfld t + ib_of (zlen (l1 ++ e :: l2)) l1 + zlen d) (zlen x)) (l1 ++ set_data (set_flags e false (e_null e)) d :: l2).
Proof.
  intros Sm R E. pose proof (zlen_nonneg x) as Zx. pose proof (zlen_nonneg d) as Zd. pose proof (size_at l1 e l2) as W. pose proof (rep_fit _ _ _ R) as Fit. pose proof (maskIb_range small) as M.
  pose proof (at_range small t l1 e l2 R) as (B1 & B2). assert (Le : zlen (e_data e) = zlen d + zlen x) by (rewrite E; apply zlen_app). pose proof (zlen_nonneg (datas l2)) as Z2. pose proof (zlen_nonneg (datas l1)) as Z1.
  pose proof (at_entries small t l1 e l2 R) as (A1 & A2). pose proof (at_datas small t l1 e l2 R) as (D1 & D2 & D3). pose proof (at_entry_ok small t l1 e l2 R) as He. pose proof (at_count l1 e l2) as C.
  set (n := zlen (l1 ++ e :: l2)) in *. set (ib := ib_of n l1) in *. set (rg := m_rgtagfld t) in *. assert (I : ib = 4 * n + zlen (datas l1)) by reflexivity. pose proof (zlen_nonneg l1) as Y1. pose proof (zlen_nonneg l2) as Y2.
  set (m2 := match l2 with [] => tf_m t | _ => memmove (tf_m t) (rg + ib + zlen d) (rg + ib + zlen (e_data e)) (zlen (datas l2)) end).
  assert (Hm2 : mem_ok m2) by (unfold m2; destruct l2; [apply R|apply memmove_ok, R]).
  assert (S2 : same_outside (rg + ib + zlen d) (rg + ib + zlen (e_data e) + zlen (datas l2)) (tf_m t) m2) by (unfold m2; destruct l2; [apply same_outside_refl|apply memmove_outside; lia]).
  set (ef := set_flags e false (e_null e)). set (m3 := store16 m2 (rg + 4 * zlen l1 + 2) (e_word ef + ib)). assert (Hm3 : mem_ok m3) by (apply store16_ok, Hm2).
  assert (S3 : same_outside (rg + 4 * zlen l1 + 2) (rg + 4 * zlen l1 + 4) m2 m3) by (apply store16_outside; lia).
  cbn [entries] in A2. rewrite app_assoc, holds_app, zlen_app, !zlen_le16 in A2. destruct A2 as [A2 A3]. rewrite holds_app, zlen_le16 in A2. destruct A2 as [A2 A2'].
  set (t3 := with_mem t m3).
  assert (E3 : close_gap_two t (zlen l1) (rg + ib + zlen d) (zlen x) = (let t' := delta_loop small (length l2) t3 (zlen l1 + 1) (zlen d - zlen (e_data e)) in with_size t' (u32 (CbTaggedColumns t' - zlen x)) (CTaggedColumns t'))).
  { unfold close_gap_two. replace (zlen l1 <? CTaggedColumns t - 1) with (match l2 with [] => false | _ => true end) by (now rewrite (rep_c _ _ _ R), last_or_not).
    assert (X : (if match l2 with [] => false | _ => true end then with_mem t (memmove (tf_m t) (rg + ib + zlen d) (PbData small t (zlen l1 + 1)) (PbMax t - PbData small t (zlen l1 + 1))) else t) = with_mem t m2).
    { unfold m2. destruct l2 as [|e2 l2]; [now destruct t|]. rewrite (at_PbData_next t l1 e e2 l2 R). unfold PbMax. rewrite (rep_cb _ _ _ R). fold n ib rg. do 2 f_equal. lia. }
    cbn zeta. rewrite X. assert (Y : ResetFExtendedInfo small (with_mem t m2) (zlen l1) = t3).
    { unfold ResetFExtendedInfo, set_m_ib, Ptagfld, pb_tagfld, with_mem, sizeof_TAGFLD. cbn [m_ib tf_m m_rgtagfld CbTaggedColumns CTaggedColumns dataWorkBuf_Cb]. fold rg.
      assert (L : load16 m2 (rg + 4 * zlen l1 + 2) = e_word e + ib).
      { erewrite holds_le16; [apply u16_small; now apply (e_word_range small); [|lia]|]. eapply holds_same_outside; [exact A2'|exact S2|rewrite zlen_le16; lia]. }
      rewrite L, (word_set_ext small e ib false Sm He) by lia. reflexivity. }
    rewrite Y. rewrite (s16_small (zlen x)), s16_small by lia. replace (zlen d - zlen (e_data e)) with (- zlen x) by lia.
    change (CTaggedColumns t3) with (CTaggedColumns t). rewrite (rep_c _ _ _ R). fold n. replace (Z.to_nat (n - (zlen l1 + 1))) with (length l2) by (unfold zlen in *; lia). reflexivity. }
  rewrite E3. pose proof (size_set_data l1 ef l2 d) as Sz. assert (Sf : size (l1 ++ ef :: l2) = size (l1 ++ e :: l2)) by (rewrite !size_app, !size_cons; reflexivity).
  assert (Xe : zlen (e_data ef) = zlen (e_data e)) by reflexivity.
  destruct (finish_resize small t l1 e l2 t3 (set_data ef d) (size (l1 ++ e :: l2)) R) as (m' & E4 & Mv); fold n ib rg; cbn [t3 with_mem tf_m m_rgtagfld set_data e_data e_fid].
  - exact Hm3.
  - destruct He as (a & bb & c). split; [exact a|]. split; [|now rewrite Sm]. cbn [set_data e_data]. rewrite E in bb. now apply Forall_app in bb as [bb _].
  - reflexivity.
  - eapply holds_same_outside; [eapply holds_same_outside; [exact A1|exact S2|]|exact S3|]; rewrite zlen_entries; lia.
  - rewrite holds_app, zlen_le16. split.
    + eapply holds_same_outside; [eapply holds_same_outside; [exact A2|exact S2|]|exact S3|]; rewrite zlen_le16; lia.
    + change (e_word (set_data ef d)) with (e_word ef). apply holds_store16.
  - replace (rg + 4 * (zlen l1 + 1)) with (rg + 4 * zlen l1 + (2 + 2)) by lia. eapply holds_same_outside; [eapply holds_same_outside; [exact A3|exact S2|]|exact S3|]; rewrite zlen_entries; lia.
  - eapply holds_same_outside; [eapply holds_same_outside; [exact D1|exact S2|]|exact S3|]; lia.
  - rewrite E, holds_app in D2. eapply holds_same_outside; [eapply holds_same_outside; [apply D2|exact S2|]|exact S3|]; lia.
  - eapply holds_same_outside; [|exact S3|lia]. unfold m2. destruct l2; [apply holds_nil|]. apply holds_memmove; [exact D3|reflexivity].
  - lia.
  - eapply same_outside_trans; eapply same_outside_weaken; [exact S2|..|exact S3|idtac|idtac]; lia.
  - lia.
  - cbn [set_data e_data] in E4. cbn zeta. rewrite E4. change (CbTaggedColumns (with_mem t3 m')) with (CbTaggedColumns t). change (CTaggedColumns (with_mem t3 m')) with (CTaggedColumns t). rewrite (rep_cb _ _ _ R), (rep_c _ _ _ R), u32_small by lia. fold n.
    unfold state_of in Mv. replace (zlen (l1 ++ set_data ef d :: l2)) with n in Mv by (unfold n; zl). replace (size (l1 ++ set_data ef d :: l2)) with (size (l1 ++ e :: l2) - zlen x) in Mv by lia. exact Mv.
Qed.

Lemma CbConvertTwoValuesToSingleValue_spec t l1 e l2 b d1 d2 (first : bool) : small = true -> rep small t (l1 ++ e :: l2) -> e_data e = tv_bytes b d1 d2 -> zlen d2 < 256 ->
  let e' := set_data (set_flags e false (e_null e)) (if first then d2 else d1) in
  let r := CbConvertTwoValuesToSingleValue small t (zlen l1) (if first then 1 else 2) in
  moved small (size (l1 ++ e :: l2)) t (fst r) (l1 ++ e' :: l2) /\ snd r = zlen (e_data e) - zlen (e_data e').
Proof.
  intros Sm R E L2 e' r. subst r. set (dr := if first then d2 else d1) in *. set (a2 := if first then [b; zlen d1] ++ d1 else [b; zlen d1]). set (c := if first then [] else d2).
  assert (E2 : e_data e = [] ++ a2 ++ dr ++ c) by (rewrite E; unfold a2, dr, c, tv_bytes; destruct first; cbn [app]; rewrite ?app_nil_r; reflexivity).
  pose proof (at_datas small t l1 e l2 R) as (_ & D & _). pose proof (at_range small t l1 e l2 R) as (B1 & B2). pose proof (maskIb_range small) as M. set (p := m_rgtagfld t + _) in *. rewrite E in D.
  destruct (pull_spec t l1 e l2 [] a2 dr c R E2) as (x & Lx & Mv). fold p in Mv. change (zlen []) with 0 in Mv. rewrite Z.add_0_r in Mv. cbn [app] in Mv.
  assert (La : zlen a2 = 2 + (if first then zlen d1 else 0)) by (unfold a2; destruct first; cbn [app]; rewrite ?zlen_cons, ?zlen_nil; lia).
  assert (Le : zlen (e_data e) = zlen a2 + zlen dr + zlen c) by (rewrite E2; cbn [app]; rewrite !zlen_app; lia).
  pose proof (zlen_nonneg (datas l2)) as Z2. pose proof (zlen_nonneg dr) as Zr. pose proof (zlen_nonneg x) as Zx.
  assert (Er : CbConvertTwoValuesToSingleValue small t (zlen l1) (if first then 1 else 2) =
    (close_gap_two (with_mem t (memmove (tf_m t) p (p + zlen a2) (zlen dr))) (zlen l1) (p + zlen dr) (zlen x), zlen x)).
  { unfold CbConvertTwoValuesToSingleValue. replace ((1 =? (if first then 1 else 2)) || (2 =? (if first then 1 else 2))) with true by (now destruct first).
    rewrite (at_PbData small t l1 e l2 R), (at_CbData small t l1 e l2 R). fold p.
    assert (Et : zlen (e_data e) = 2 + zlen d1 + zlen d2) by (rewrite E; apply zlen_tv_bytes).
    rewrite Et, (TWOVALUES_new_spec _ _ _ _ _ D L2). unfold tv_PbData. cbn [tv_pheader CbFirstValue CbSecondValue]. unfold sizeof_TAGFLD_HEADER, sizeof_TVLENGTH.
    assert (Ep : (if 1 =? (if first then 1 else 2) then (p + 1 + 1 + zlen d1, zlen d2) else (p + 1 + 1, zlen d1)) = (p + zlen a2, zlen dr)).
    { rewrite La. unfold dr. destruct first; cbn [Z.eqb Pos.eqb]; f_equal; lia. }
    rewrite Ep, <- Et. replace (zlen (e_data e) - zlen dr) with (zlen x) by lia. rewrite (u32_small (zlen x)) by lia. reflexivity. }
  rewrite Er. cbn [fst snd]. split; [|subst e'; cbn [set_data e_data]; lia].
  pose proof (close_gap_two_spec _ l1 _ l2 dr x Sm (moved_rep _ _ _ _ Mv) eq_refl) as G. rewrite (moved_rg _ _ _ _ Mv), zlen_set_entry with (e := e) in G. fold p in G.
  eapply moved_trans; [exact Mv|]. eapply moved_weaken; [exact G|]. rewrite size_set_data, zlen_app. lia.
Qed.

(** ** Replacing the value of a column of one value *)

(** The column has a header byte. *)
Lemma replace_with_header t l1 e l2 b d0 d c sep comp enc : rep small t (l1 ++ e :: l2) -> e_data e = b :: d0 -> negb small || e_ext e = true -> e_null (null_entry false e) = e_null e -> bytes_ok d -> zlen d = zlen d0 ->
  let b1 := if small then b else TAGFLD_HEADER.Reset_ TAGFLD_HEADER.fNull b in
  let b' := TAGFLD_HEADER.Assign_ sep TAGFLD_HEADER.fSeparated (TAGFLD_HEADER.Assign_ enc TAGFLD_HEADER.fEncrypted (TAGFLD_HEADER.Assign_ comp TAGFLD_HEADER.fCompressed b1)) in
  moved small (size (l1 ++ e :: l2)) t (ReplaceTagfldData small t (zlen l1) d c sep comp enc) (l1 ++ set_data e (b' :: d) :: l2).
Proof.
  intros R E X Nn Hd L b1 b'. pose proof (set_null_spec t l1 e l2 false R ltac:(intros; rewrite E; discriminate)) as Mv0. cbn [negb] in Mv0.
  assert (En : null_entry false e = set_data e (b1 :: d0)).
  { unfold null_entry in *. rewrite E in *. unfold b1. destruct small; [|reflexivity]. cbn [set_flags e_null] in Nn. unfold set_flags, set_data. rewrite <- E, Nn. reflexivity. }
  rewrite En in Mv0. set (t0 := ResetFNull small t (zlen l1)) in *. pose proof (moved_byte _ _ _ _ _ _ _ _ Mv0) as Hb1.
  unfold ReplaceTagfldData. rewrite (at_Pheader small t l1 e l2 R), X, (at_PbData small t l1 e l2 R). fold t0. set (p := m_rgtagfld t + _).
  pose proof (moved_header _ _ _ _ _ _ _ _ Mv0) as Hh. fold p in Hh. rewrite Hh. fold b'.
  assert (Hb' : 0 <= b' < 256) by (repeat apply Assign_range; unfold TAGFLD_HEADER.fSeparated, TAGFLD_HEADER.fEncrypted, TAGFLD_HEADER.fCompressed; lia).
  assert (Le : zlen (e_data e) = 1 + zlen d0) by (rewrite E; apply zlen_cons).
  pose proof (set_header_again t t0 l1 e l2 b1 b' d0 Mv0 Le Hb') as Mv1. fold p in Mv1. set (t1 := set_header t0 p b') in *. unfold sizeof_TAGFLD_HEADER.
  pose proof (rewrite_data small t1 l1 _ l2 (RECCopyData (tf_m t1) (p + 1) d) (b' :: d) p (moved_rep _ _ _ _ Mv1)) as U. cbn [set_data e_data] in U.
  rewrite zlen_set_entry with (e := e), (moved_rg _ _ _ _ Mv1) in U. fold p in U. pose proof (zlen_nonneg d) as Zd.
  assert (Sz : size (l1 ++ set_data e (b' :: d0) :: l2) = size (l1 ++ e :: l2)) by (rewrite size_set_data, zlen_cons; lia). rewrite Sz in U.
  eapply moved_trans; [exact Mv1|]. apply U; clear U.
  - apply store_bytes_ok, (moved_rep _ _ _ _ Mv1).
  - rewrite !zlen_cons. lia.
  - reflexivity.
  - apply store_bytes_outside; [lia|rewrite zlen_cons; lia].
  - rewrite holds_cons. split; [|apply holds_store_bytes, Hd]. pose proof (moved_header _ _ _ _ _ _ _ _ Mv1) as Hh1. fold p in Hh1.
    pose proof (store_bytes_outside (tf_m t1) (p + 1) d (p + 1) (p + 1 + zlen d) ltac:(lia) ltac:(lia)) as S. unfold RECCopyData. rewrite S by lia. exact Hh1.
Qed.

(** The column has none, and does not need one. *)
Lemma replace_plain t l1 e l2 d c sep comp enc : small = true -> rep small t (l1 ++ e :: l2) -> e_ext e = false -> FRECLongValue c = false -> bytes_ok d -> zlen d = zlen (e_data e) ->
  moved small (size (l1 ++ e :: l2)) t (ReplaceTagfldData small t (zlen l1) d c sep comp enc) (l1 ++ set_data (set_flags e false false) d :: l2).
Proof.
  intros Sm R X Lg Hd L. pose proof (set_null_spec t l1 e l2 false R ltac:(rewrite Sm; discriminate)) as Mv0. unfold null_entry in Mv0. rewrite Sm in Mv0. rewrite <- Sm, X in Mv0. set (ef := set_flags e false false) in *.
  set (t0 := ResetFNull small t (zlen l1)) in *. unfold ReplaceTagfldData. rewrite (at_Pheader small t l1 e l2 R), X, Sm. cbn [negb orb]. rewrite <- Sm, (at_PbData small t l1 e l2 R). fold t0. rewrite Lg. set (p := m_rgtagfld t + _).
  assert (Sf : size (l1 ++ ef :: l2) = size (l1 ++ e :: l2)) by (rewrite !size_app, !size_cons; reflexivity).
  eapply moved_trans; [exact Mv0|]. rewrite <- Sf. apply (rewrite_data small t0 l1 ef l2 _ _ p (moved_rep _ _ _ _ Mv0)).
  - apply store_bytes_ok, (moved_rep _ _ _ _ Mv0).
  - exact L.
  - rewrite (moved_rg _ _ _ _ Mv0), zlen_set_entry with (e := e). reflexivity.
  - apply store_bytes_outside; lia.
  - apply holds_store_bytes, Hd.
Qed.

(** The column has none, and gets one. *)
Lemma replace_new_header t l1 e l2 d c sep comp enc : small = true -> rep small t (l1 ++ e :: l2) -> e_ext e = false -> FRECLongValue c = true -> bytes_ok d -> 1 + zlen d = zlen (e_data e) ->
  moved small (size (l1 ++ e :: l2)) t (ReplaceTagfldData small t (zlen l1) d c sep comp enc) (l1 ++ set_data (set_flags e true false) (TAGFLD_HEADER_new small c sep false comp enc :: d) :: l2).
Proof.
  intros Sm R X Lg Hd L. pose proof (set_null_spec t l1 e l2 false R ltac:(rewrite Sm; discriminate)) as Mv0. unfold null_entry in Mv0. rewrite Sm in Mv0. rewrite <- Sm, X in Mv0. set (ef := set_flags e false false) in *.
  set (t0 := ResetFNull small t (zlen l1)) in *. unfold ReplaceTagfldData. rewrite (at_Pheader small t l1 e l2 R), X, Sm. cbn [negb orb]. rewrite <- Sm, (at_PbData small t l1 e l2 R). fold t0. rewrite Lg. set (p := m_rgtagfld t + _).
  assert (Sf : size (l1 ++ ef :: l2) = size (l1 ++ e :: l2)) by (rewrite !size_app, !size_cons; reflexivity).
  destruct (e_data e) as [|b d0] eqn:E; [zl|]. rewrite zlen_cons in L. set (b' := TAGFLD_HEADER_new small c sep false comp enc).
  pose proof (set_header_spec t0 l1 ef l2 b b' d0 (moved_rep _ _ _ _ Mv0) E (TAGFLD_HEADER_new_range small _ _ _ _ _)) as Mv1. rewrite (moved_rg _ _ _ _ Mv0), zlen_set_entry with (e := e) in Mv1. fold p in Mv1. set (t1 := set_header t0 p b') in *.
  pose proof (SetFExtendedInfo_spec t1 l1 _ l2 Sm (moved_rep _ _ _ _ Mv1)) as Mv2. set (t2 := SetFExtendedInfo small t1 (zlen l1)) in *. set (e2 := set_flags (set_data ef (b' :: d0)) true _) in *.
  assert (S2 : size (l1 ++ e2 :: l2) = size (l1 ++ e :: l2)) by (rewrite !size_app, !size_cons; cbn [e2 set_flags set_data e_data]; rewrite E, !zlen_cons; lia).
  assert (S1 : size (l1 ++ set_data ef (b' :: d0) :: l2) = size (l1 ++ e :: l2)) by (rewrite !size_app, !size_cons; cbn [set_data e_data]; rewrite E, !zlen_cons; lia).
  eapply moved_trans; [exact Mv0|]. eapply moved_trans; [eapply moved_weaken; [exact Mv1|lia]|]. eapply moved_trans; [eapply moved_weaken; [exact Mv2|lia]|].
  pose proof (moved_rg _ _ _ _ Mv0) as G0. pose proof (moved_rg _ _ _ _ Mv1) as G1. pose proof (moved_rg _ _ _ _ Mv2) as G2.
  replace (set_data (set_flags e small false) (b' :: d)) with (set_data e2 (b' :: d)) by (rewrite Sm; reflexivity). unfold sizeof_TAGFLD_HEADER. rewrite <- S2. pose proof (zlen_nonneg d) as Zd.
  assert (Ep : p = m_rgtagfld t2 + ib_of (zlen (l1 ++ e2 :: l2)) l1) by (rewrite G2, G1, G0, zlen_set_entry with (e := e); reflexivity).
  apply (rewrite_data small t2 l1 e2 l2 _ _ p (moved_rep _ _ _ _ Mv2)).
  - apply store_bytes_ok, (moved_rep _ _ _ _ Mv2).
  - cbn [e2 set_flags set_data e_data]. rewrite !zlen_cons. lia.
  - exact Ep.
  - apply store_bytes_outside; [lia|rewrite zlen_cons; lia].
  - rewrite holds_cons. split; [|apply holds_store_bytes, Hd].
    pose proof (at_header small t2 l1 e2 l2 (moved_rep _ _ _ _ Mv2) b' d0 eq_refl) as Hh. rewrite <- Ep in Hh.
    pose proof (store_bytes_outside (tf_m t2) (p + 1) d (p + 1) (p + 1 + zlen d) ltac:(lia) ltac:(lia)) as S. unfold RECCopyData. rewrite S by lia. exact Hh.
Qed.
End Conv.
