(* ===== verification/TagFldSearch.v ===== *)
(** * Tagged columns: the search

    The three versions of the comparison of two entries order them by one key,
    derived columns first, and the binary search finds the first entry that is
    not before the key. *)

From Stdlib Require Import ZArith List Lia Bool.
From Stdlib Require Import ZArith List Lia Bool Sorting.Sorted.
From S2P Require Import Prelude Mem Norm TagFld TagFldView TagFldOps TagFldMulti.
Import ListNotations.

(** The key of an entry. *)
Definition column_key (fid : Z) (derived : bool) : Z := (if derived then 0 else 65536) + fid.
Definition tagfld_key (f : TAGFLD) : Z := column_key (Fid f) (FDerived f).

Definition words (f : TAGFLD) : Prop := 0 <= Fid f < 65536 /\ 0 <= m_ib f < 65536.

Lemma CmpTagfldSlow_key f1 f2 : words f1 -> words f2 -> CmpTagfldSlow f1 f2 = (tagfld_key f1 <? tagfld_key f2).
Proof.
  intros [H1 _] [H2 _]. unfold CmpTagfldSlow, tagfld_key, column_key. destruct (FDerived f1), (FDerived f2); symmetry.
  - destruct (Z.ltb_spec (Fid f1) (Fid f2)); [apply Z.ltb_lt|apply Z.ltb_ge]; lia.
  - apply Z.ltb_lt. lia.
  - apply Z.ltb_ge. lia.
  - destruct (Z.ltb_spec (Fid f1) (Fid f2)); [apply Z.ltb_lt|apply Z.ltb_ge]; lia.
Qed.

(** The flag and the rest of the second word. *)
Lemma m_ib_split f : words f -> exists lo, 0 <= lo < 2 ^ 15 /\ m_ib f = flag (FDerived f) 1 * 2 ^ 15 + lo.
Proof.
  intros [_ H]. exists (m_ib f mod 2 ^ 15). split; [apply Z.mod_pos_bound; lia|].
  assert (E : m_ib f = (m_ib f / 2 ^ 15) * 2 ^ 15 + m_ib f mod 2 ^ 15) by (pose proof (Z.div_mod (m_ib f) (2 ^ 15)); lia).
  assert (B : 0 <= m_ib f / 2 ^ 15 < 2) by (split; [apply Z.div_pos; lia|apply Z.div_lt_upper_bound; lia]). pose proof (Z.mod_pos_bound (m_ib f) (2 ^ 15) ltac:(lia)) as M.
  assert (D : FDerived f = (m_ib f / 2 ^ 15 =? 1)).
  { unfold FDerived, fbit, fDerived. rewrite E at 1. change 0x8000 with (1 * 2 ^ 15). rewrite land_high by lia. destruct (Z.eq_dec (m_ib f / 2 ^ 15) 0) as [->|N]; [reflexivity|]. now replace (m_ib f / 2 ^ 15) with 1 by lia. }
  rewrite D. destruct (Z.eqb_spec (m_ib f / 2 ^ 15) 1) as [X|X]; cbn [flag]; lia.
Qed.

Definition key1 (f : TAGFLD) : Z := (if FDerived f then 0x7fff0000 else 0xffff0000) + Fid f.
Definition key2 (f : TAGFLD) : Z := (if FDerived f then 0 else 2 ^ 31) + Fid f.

Lemma CmpTagfld1_dw f : words f -> u32 (Z.lor (Z.shiftl (Z.lnot (Z.land (m_ib f) fDerived)) 16) (Fid f)) = key1 f.
Proof.
  intros W. destruct (m_ib_split f W) as (lo & L & E). rewrite E. unfold fDerived. change 0x8000 with (1 * 2 ^ 15). rewrite land_high by lia. rewrite Z.shiftl_mul_pow2, <- disjoint_add by (try apply W; lia).
  destruct W as [W _]. unfold key1, u32. destruct (FDerived f); cbn [flag].
  - change (Z.lnot (Z.land (1 * 2 ^ 15) (1 * 2 ^ 15)) * 2 ^ 16 + Fid f) with (- 2147549184 + Fid f). zlia.
  - change (Z.lnot (Z.land (0 * 2 ^ 15) (1 * 2 ^ 15)) * 2 ^ 16 + Fid f) with (- 65536 + Fid f). zlia.
Qed.

Lemma CmpTagfld2_dw f : words f ->
  let dwFlipDerived := u32 (Z.shiftl fDerived 16) in let dwMask := Z.lor dwFlipDerived (Z.shiftl 1 16 - 1) in
  Z.lxor dwFlipDerived (Z.land dwMask (Fid f + 65536 * m_ib f)) = key2 f.
Proof.
  intros W. destruct (m_ib_split f W) as (lo & L & E). rewrite E. destruct W as [W _]. cbn zeta. change (u32 (Z.shiftl fDerived 16)) with (1 * 2 ^ 31). change (Z.shiftl 1 16 - 1) with (Z.ones 16).
  set (h := flag (FDerived f) 1). replace (Fid f + 65536 * (h * 2 ^ 15 + lo)) with (h * 2 ^ 31 + (lo * 2 ^ 16 + Fid f)) by lia.
  rewrite Z.land_lor_distr_l, (Z.land_comm (1 * 2 ^ 31)), land_high by lia. rewrite (Z.land_comm (Z.ones 16)).
  replace (h * 2 ^ 31 + (lo * 2 ^ 16 + Fid f)) with ((h * 2 ^ 15 + lo) * 2 ^ 16 + Fid f) by lia. rewrite land_low by lia. unfold key2, h. destruct (FDerived f); cbn [flag].
  - change (Z.land (1 * 2 ^ 31) (1 * 2 ^ 31)) with (1 * 2 ^ 31). apply Z.bits_inj'. intros n Hn. rewrite Z.lxor_spec, Z.lor_spec, Z.add_0_l.
    destruct (Z.eq_dec n 31) as [->|N].
    + rewrite (testbit_small (Fid f) 16) by lia. reflexivity.
    + replace (Z.testbit (1 * 2 ^ 31) n) with false by (symmetry; rewrite Z.mul_1_l; apply Z.pow2_bits_false; lia). reflexivity.
  - change (Z.land (0 * 2 ^ 31) (1 * 2 ^ 31)) with 0. rewrite Z.lor_0_l. change (2 ^ 31 + Fid f) with (1 * 2 ^ 31 + Fid f). rewrite disjoint_add by lia.
    apply Z.bits_inj'. intros n Hn. rewrite Z.lxor_spec, Z.lor_spec. destruct (Z.lt_ge_cases n 16).
    + rewrite Z.mul_1_l, Z.pow2_bits_false by lia. now destruct (Z.testbit (Fid f) n).
    + rewrite (testbit_small (Fid f) 16) by lia. now destruct (Z.testbit (1 * 2 ^ 31) n).
Qed.

Lemma ltb_shift (d1 d2 : bool) x y a b : 0 <= x < 65536 -> 0 <= y < 65536 -> a + 65536 <= b ->
  ((if d1 then a else b) + x <? (if d2 then a else b) + y) = (column_key x d1 <? column_key y d2).
Proof. intros Hx Hy Hab. unfold column_key. destruct d1, d2; apply eq_true_iff_eq; rewrite !Z.ltb_lt; lia. Qed.

Lemma CmpTagfld1_key f1 f2 : words f1 -> words f2 -> CmpTagfld1 f1 f2 = (tagfld_key f1 <? tagfld_key f2).
Proof. intros W1 W2. unfold CmpTagfld1. rewrite !CmpTagfld1_dw by assumption. unfold key1. apply ltb_shift; [apply W1|apply W2|lia]. Qed.

Lemma CmpTagfld2_key f1 f2 : words f1 -> words f2 -> CmpTagfld2 f1 f2 = (tagfld_key f1 <? tagfld_key f2).
Proof.
  intros W1 W2. pose proof (CmpTagfld2_dw f1 W1) as E1. pose proof (CmpTagfld2_dw f2 W2) as E2. cbn zeta in E1, E2. unfold CmpTagfld2. cbn zeta. rewrite E1, E2.
  unfold key2. apply ltb_shift; [apply W1|apply W2|lia].
Qed.

Lemma FIsLessThan_key f fid derived : words f -> 0 <= fid < 65536 -> FIsLessThan f fid derived = (tagfld_key f <? column_key fid derived).
Proof.
  intros [W _] H. unfold FIsLessThan, tagfld_key, column_key. apply eq_true_iff_eq. destruct (FDerived f), derived; cbn [negb andb orb]; rewrite ?Z.ltb_lt; split; intros X; try lia; discriminate.
Qed.

Lemma FIsGreaterThan_key f fid derived : words f -> 0 <= fid < 65536 -> FIsGreaterThan f fid derived = (column_key fid derived <? tagfld_key f).
Proof.
  intros [W _] H. unfold FIsGreaterThan, tagfld_key, column_key. apply eq_true_iff_eq. destruct (FDerived f), derived; cbn [negb andb orb]; rewrite ?Z.ltb_lt; split; intros X; try lia; discriminate.
Qed.

Lemma FIsEqual_key f fid derived : words f -> 0 <= fid < 65536 -> FIsEqual f fid derived = (tagfld_key f =? column_key fid derived).
Proof.
  intros [W _] H. unfold FIsEqual, tagfld_key, column_key. apply eq_true_iff_eq. rewrite andb_true_iff, !Z.eqb_eq. destruct (FDerived f), derived; cbn [negb andb orb]; lia.
Qed.

(** ** The binary search *)

Lemma lower_bound_spec t f fuel : forall i n b, 0 <= n -> n <= Z.of_nat fuel -> i <= b <= i + n ->
  (forall j, i <= j < i + n -> CmpTagfld2 (Ptagfld t j) f = (j <? b)) -> lower_bound fuel t f i n = b.
Proof.
  induction fuel as [|fuel IH]; intros i n b Hn Hf Hb HP; cbn [lower_bound]; [lia|].
  destruct (Z.ltb_spec 0 n) as [L|L]; [|lia]. assert (Hh : 0 <= n / 2 < n) by (split; [apply Z.div_pos; lia|apply Z.div_lt; lia]).
  rewrite HP by lia. destruct (Z.ltb_spec (i + n / 2) b) as [M|M]; apply IH; try lia; intros j Hj; apply HP; lia.
Qed.

Section Search.
Variable small : bool.

Definition entry_key (e : ENTRY) : Z := column_key (e_fid e) (e_derived e).

Lemma TAGFLD_new_key fid d : tagfld_key (TAGFLD_new fid d) = column_key fid d.
Proof. unfold tagfld_key, TAGFLD_new. destruct d; reflexivity. Qed.
Lemma TAGFLD_new_words fid d : 0 <= fid < 65536 -> words (TAGFLD_new fid d).
Proof. intros H. unfold words, TAGFLD_new. cbn [Fid m_ib]. split; [exact H|]. destruct d; (split; [discriminate|reflexivity]). Qed.

Lemma at_words t l1 e l2 : rep small t (l1 ++ e :: l2) -> words (Ptagfld t (zlen l1)) /\ tagfld_key (Ptagfld t (zlen l1)) = entry_key e.
Proof.
  intros R. rewrite (at_tagfld small t l1 e l2 R). pose proof (at_entry_ok small t l1 e l2 R) as He. pose proof (at_range small t l1 e l2 R) as B. pose_zlen. set (ib := ib_of _ _) in *. split.
  - split; cbn [Fid m_ib]; [apply He|apply (e_word_range small); [exact He|lia]].
  - unfold tagfld_key, entry_key. cbn [Fid]. f_equal. apply (word_FDerived small); [exact He|lia].
Qed.

(** The entries before the key are those of [l1]. *)
Lemma ItagfldFind_spec t l1 l2 fid d : rep small t (l1 ++ l2) -> 0 <= fid < 65536 ->
  Forall (fun e => entry_key e < column_key fid d) l1 -> Forall (fun e => column_key fid d <= entry_key e) l2 -> ItagfldFind t (TAGFLD_new fid d) = zlen l1.
Proof.
  intros R Hf F1 F2. unfold ItagfldFind. rewrite (rep_c _ _ _ R). pose proof (zlen_nonneg l1). pose proof (zlen_nonneg l2).
  apply lower_bound_spec; [apply zlen_nonneg|lia|zl|]. intros j Hj. rewrite Z.add_0_l in Hj.
  assert (X : exists k1 e k2, l1 ++ l2 = k1 ++ e :: k2 /\ zlen k1 = j).
  { assert (K : (Z.to_nat j < length (l1 ++ l2))%nat) by (unfold zlen in *; lia). destruct (nth_error (l1 ++ l2) (Z.to_nat j)) as [e|] eqn:E; [|apply nth_error_None in E; lia].
    apply nth_error_split in E as (k1 & k2 & E1 & E2). exists k1, e, k2. split; [exact E1|]. unfold zlen. lia. }
  destruct X as (k1 & e & k2 & E & K). rewrite E in R. pose proof (at_words t k1 e k2 R) as [W Kk]. rewrite <- K.
  rewrite CmpTagfld2_key, Kk, TAGFLD_new_key by (first [exact W|now apply TAGFLD_new_words]).
  assert (N : nth_error (l1 ++ l2) (length k1) = Some e) by (rewrite E, nth_error_app2, Nat.sub_diag by lia; reflexivity).
  destruct (Z.ltb_spec (zlen k1) (zlen l1)) as [L|L].
  - apply Z.ltb_lt. rewrite nth_error_app1 in N by (unfold zlen in L; lia). apply nth_error_In in N. rewrite Forall_forall in F1. now apply F1.
  - apply Z.ltb_ge. rewrite nth_error_app2 in N by (unfold zlen in L; lia). apply nth_error_In in N. rewrite Forall_forall in F2. now apply F2.
Qed.
End Search.

(** * Tagged columns: the values of the columns

    What the tagged part of a record stands for: a sorted list of columns, each
    null or with one value or more.  How a column is written, on small and on
    large pages, and what the accessors read of it. *)

(** ** The header byte *)

Definition hdr (lg cm sp mu tw nl en : bool) : Z :=
  flag lg 0x01 + flag cm 0x02 + flag sp 0x04 + flag mu 0x08 + flag tw 0x10 + flag nl 0x20 + flag en 0x40.

Ltac bools := repeat match goal with b : bool |- _ => destruct b end.


Lemma hdr_range (lg cm sp mu tw nl en : bool) : 0 <= hdr lg cm sp mu tw nl en < 128.
Proof. unfold hdr. bools; cbn [flag]; lia. Qed.
Lemma hdr_FLongValue (lg cm sp mu tw nl en : bool) : TAGFLD_HEADER.FLongValue (hdr lg cm sp mu tw nl en) = lg. Proof. bools; reflexivity. Qed.
Lemma hdr_FCompressed (lg cm sp mu tw nl en : bool) : TAGFLD_HEADER.FCompressed (hdr lg cm sp mu tw nl en) = cm. Proof. bools; reflexivity. Qed.
Lemma hdr_FSeparated (lg cm sp mu tw nl en : bool) : TAGFLD_HEADER.FSeparated (hdr lg cm sp mu tw nl en) = sp. Proof. bools; reflexivity. Qed.
Lemma hdr_FMultiValues (lg cm sp mu tw nl en : bool) : TAGFLD_HEADER.FMultiValues (hdr lg cm sp mu tw nl en) = mu. Proof. bools; reflexivity. Qed.
Lemma hdr_FTwoValues (lg cm sp mu tw nl en : bool) : TAGFLD_HEADER.FTwoValues (hdr lg cm sp mu tw nl en) = tw. Proof. bools; reflexivity. Qed.
Lemma hdr_FNull (lg cm sp mu tw nl en : bool) : TAGFLD_HEADER.FNull (hdr lg cm sp mu tw nl en) = nl. Proof. bools; reflexivity. Qed.
Lemma hdr_Assign_Compressed (lg cm sp mu tw nl en v : bool) : TAGFLD_HEADER.Assign_ v TAGFLD_HEADER.fCompressed (hdr lg cm sp mu tw nl en) = hdr lg v sp mu tw nl en. Proof. bools; reflexivity. Qed.
Lemma hdr_Assign_Separated (lg cm sp mu tw nl en v : bool) : TAGFLD_HEADER.Assign_ v TAGFLD_HEADER.fSeparated (hdr lg cm sp mu tw nl en) = hdr lg cm v mu tw nl en. Proof. bools; reflexivity. Qed.
Lemma hdr_Assign_Encrypted (lg cm sp mu tw nl en v : bool) : TAGFLD_HEADER.Assign_ v TAGFLD_HEADER.fEncrypted (hdr lg cm sp mu tw nl en) = hdr lg cm sp mu tw nl v. Proof. bools; reflexivity. Qed.
Lemma hdr_Assign_Null (lg cm sp mu tw nl en v : bool) : TAGFLD_HEADER.Assign_ v TAGFLD_HEADER.fNull (hdr lg cm sp mu tw nl en) = hdr lg cm sp mu tw v en. Proof. bools; reflexivity. Qed.
Lemma hdr_Reset_Compressed (lg cm sp mu tw nl en : bool) : TAGFLD_HEADER.Reset_ TAGFLD_HEADER.fCompressed (hdr lg cm sp mu tw nl en) = hdr lg false sp mu tw nl en. Proof. bools; reflexivity. Qed.
Lemma hdr_Reset_Separated (lg cm sp mu tw nl en : bool) : TAGFLD_HEADER.Reset_ TAGFLD_HEADER.fSeparated (hdr lg cm sp mu tw nl en) = hdr lg cm false mu tw nl en. Proof. bools; reflexivity. Qed.
Lemma hdr_Reset_MultiValues (lg cm sp mu tw nl en : bool) : TAGFLD_HEADER.Reset_ TAGFLD_HEADER.fMultiValues (hdr lg cm sp mu tw nl en) = hdr lg cm sp false tw nl en. Proof. bools; reflexivity. Qed.
Lemma hdr_Reset_TwoValues (lg cm sp mu tw nl en : bool) : TAGFLD_HEADER.Reset_ TAGFLD_HEADER.fTwoValues (hdr lg cm sp mu tw nl en) = hdr lg cm sp mu false nl en. Proof. bools; reflexivity. Qed.
Lemma hdr_Reset_Null (lg cm sp mu tw nl en : bool) : TAGFLD_HEADER.Reset_ TAGFLD_HEADER.fNull (hdr lg cm sp mu tw nl en) = hdr lg cm sp mu tw false en. Proof. bools; reflexivity. Qed.
Lemma hdr_Set_MultiValues (lg cm sp mu tw nl en : bool) : TAGFLD_HEADER.Set_ TAGFLD_HEADER.fMultiValues (hdr lg cm sp mu tw nl en) = hdr lg cm sp true tw nl en. Proof. bools; reflexivity. Qed.
Lemma hdr_Set_TwoValues (lg cm sp mu tw nl en : bool) : TAGFLD_HEADER.Set_ TAGFLD_HEADER.fTwoValues (hdr lg cm sp mu tw nl en) = hdr lg cm sp mu true nl en. Proof. bools; reflexivity. Qed.
Lemma hdr_Set_Null (lg cm sp mu tw nl en : bool) : TAGFLD_HEADER.Set_ TAGFLD_HEADER.fNull (hdr lg cm sp mu tw nl en) = hdr lg cm sp mu tw true en. Proof. bools; reflexivity. Qed.
Lemma hdr_zero (lg cm sp mu tw nl en : bool) : (hdr lg cm sp mu tw nl en =? 0) = negb (lg || cm || sp || mu || tw || nl || en). Proof. bools; reflexivity. Qed.

Create Rewrite HintDb hdr.
#[export] Hint Rewrite hdr_FLongValue hdr_FCompressed hdr_FSeparated hdr_FMultiValues hdr_FTwoValues hdr_FNull hdr_Assign_Compressed hdr_Assign_Separated hdr_Assign_Encrypted
  hdr_Assign_Null hdr_Reset_Compressed hdr_Reset_Separated hdr_Reset_MultiValues hdr_Reset_TwoValues hdr_Reset_Null hdr_Set_MultiValues hdr_Set_TwoValues hdr_Set_Null : hdr.

Lemma TAGFLD_HEADER_new_hdr small c s n k e : TAGFLD_HEADER_new small c s n k e = hdr (FRECLongValue c) k s false false (n && negb small) e.
Proof. unfold TAGFLD_HEADER_new. destruct (FRECLongValue c); bools; reflexivity. Qed.

(** ** Values *)

(** A column: null, or with one value or more.  The flags say whether the type
    of the column is a long one, whether the first value is compressed, whether
    it is encrypted, and whether two values are in the format of TWOVALUES. *)
Record VALUE := Value { v_long : bool; v_compressed : bool; v_encrypted : bool; v_two : bool; v_insts : list INST }.

Definition v_header (v : VALUE) (sp mu tw nl : bool) : Z := hdr (v_long v) (v_compressed v) sp mu tw nl (v_encrypted v).

Record COLUMN := Column { c_fid : Z; c_derived : bool; c_val : VALUE }.

Definition set_val (c : COLUMN) (v : VALUE) : COLUMN := Column (c_fid c) (c_derived c) v.
Definition col_key (c : COLUMN) : Z := column_key (c_fid c) (c_derived c).

Section Cols.
Variable small : bool.

(** On small pages, whether the column has a header byte. *)
Definition v_ext (v : VALUE) : bool := match v_insts v with [] => false | [_] => v_long v | _ => true end.
Definition v_null (v : VALUE) : bool := match v_insts v with [] => true | _ => false end.

Definition v_data (v : VALUE) : list Z :=
  match v_insts v with
  | [] => if small then [] else [v_header v false false false true]
  | [i] => if small && negb (v_long v) then idata i else v_header v (isep i) false false false :: idata i
  | i :: j :: _ =>
      if v_two v then tv_bytes (v_header v false true true false) (idata i) (idata j)
      else v_header v false true false false :: mv_bytes (v_insts v)
  end.

Definition entry_of (c : COLUMN) : ENTRY :=
  Entry (c_fid c) (c_derived c) (small && v_ext (c_val c)) (small && v_null (c_val c)) (v_data (c_val c)).

Record val_ok (v : VALUE) : Prop := {
  vo_bytes : Forall (fun i => bytes_ok (idata i)) (v_insts v);
  vo_short : v_long v = false -> v_compressed v = false /\ v_encrypted v = false /\ Forall (fun i => isep i = false /\ zlen (idata i) <= JET_cbColumnMost) (v_insts v);
  vo_two : v_two v = true -> small = true /\ v_long v = false /\ zlen (v_insts v) = 2
}.

Definition col_ok (c : COLUMN) : Prop := FTagged (c_fid c) = true /\ val_ok (c_val c).

(** The columns of the record. *)
Record cols (t : TAGFIELDS) (cs : list COLUMN) : Prop := {
  cols_rep : rep small t (map entry_of cs);
  cols_ok : Forall col_ok cs;
  cols_sorted : StronglySorted (fun c d => col_key c < col_key d) cs
}.

Lemma FTagged_range fid : FTagged fid = true -> 256 <= fid < 65536.
Proof. unfold FTagged. rewrite andb_true_iff, !Z.leb_le. lia. Qed.

Lemma entry_key_of c : entry_key (entry_of c) = col_key c.
Proof. reflexivity. Qed.

(** The place of a key in the list: its column, or where it would be. *)
Lemma cols_split cs k : StronglySorted (fun c d => col_key c < col_key d) cs ->
  (exists l1 c l2, cs = l1 ++ c :: l2 /\ col_key c = k /\ Forall (fun c => col_key c < k) l1 /\ Forall (fun c => k < col_key c) l2) \/
  (exists l1 l2, cs = l1 ++ l2 /\ Forall (fun c => col_key c < k) l1 /\ Forall (fun c => k < col_key c) l2).
Proof.
  induction cs as [|c cs IH]; intros S; [right; now exists [], []|]. apply StronglySorted_inv in S as [S F]. destruct (Z.lt_trichotomy (col_key c) k) as [L|[L|L]].
  - destruct (IH S) as [(l1 & d & l2 & -> & E & F1 & F2)|(l1 & l2 & -> & F1 & F2)].
    + left. exists (c :: l1), d, l2. repeat split; try assumption. now constructor.
    + right. exists (c :: l1), l2. repeat split; try assumption. now constructor.
  - left. exists [], c, cs. repeat split; try assumption; [constructor|]. now rewrite <- L.
  - right. exists [], (c :: cs). repeat split; [constructor|]. constructor; [exact L|]. eapply Forall_impl; [|exact F]. cbn. lia.
Qed.

(** ** What the accessors read *)

Lemma v_header_range v sp mu tw nl : 0 <= v_header v sp mu tw nl < 256.
Proof. pose proof (hdr_range (v_long v) (v_compressed v) sp mu tw nl (v_encrypted v)). unfold v_header. lia. Qed.

Lemma v_data_large v : small = false -> v_data v <> [].
Proof. intros S. unfold v_data, tv_bytes. rewrite S. destruct (v_insts v) as [|i [|j r]]; [discriminate..|]. destruct (v_two v); discriminate. Qed.

Section At.
Variables (t : TAGFIELDS) (l1 : list ENTRY) (c : COLUMN) (l2 : list ENTRY).
Hypothesis R : rep small t (l1 ++ entry_of c :: l2).
Hypothesis V : val_ok (c_val c).
Let v := c_val c.

(** The address of the data. *)
Definition at_pb : Z := m_rgtagfld t + ib_of (zlen (l1 ++ entry_of c :: l2)) l1.

Lemma at_holds : holds (tf_m t) at_pb (v_data v).
Proof. apply (at_datas small t l1 (entry_of c) l2 R). Qed.

Lemma at_FNull : FNull small t (zlen l1) = v_null v.
Proof.
  unfold FNull. pose proof (at_entry_ok small t l1 (entry_of c) l2 R) as He. rewrite (at_tagfld small t l1 _ l2 R), (at_PbData small t l1 _ l2 R). fold at_pb.
  destruct (bool_dec small true) as [S|S].
  - rewrite S at 1. cbn [m_ib]. rewrite (word_null small _ _ S He) by (apply (at_ib_range small t l1 _ l2 R)). cbn [entry_of e_null]. now rewrite S.
  - apply not_true_is_false in S. rewrite S at 1. pose proof at_holds as H. unfold v_data in H. rewrite S in H. unfold v_null, header. change (load8 (tf_m t) at_pb) with (tf_m t at_pb). fold v in H |- *.
    destruct (v_insts v) as [|i [|j r]]; cbn [andb] in H.
    + rewrite holds_cons in H. destruct H as [-> _]. apply hdr_FNull.
    + rewrite holds_cons in H. destruct H as [-> _]. apply hdr_FNull.
    + destruct (v_two v); [apply holds_tv in H|rewrite holds_cons in H]; destruct H as [-> _]; apply hdr_FNull.
Qed.

(** The header byte of the column, if it has one. *)
Definition v_head : option Z :=
  match v_insts v with
  | [] => if small then None else Some (v_header v false false false true)
  | [i] => if small && negb (v_long v) then None else Some (v_header v (isep i) false false false)
  | _ => Some (v_header v false true (v_two v) false)
  end.

Lemma at_head : match v_head with Some b => Pheader small t (zlen l1) = Some at_pb /\ header t at_pb = b | None => Pheader small t (zlen l1) = None end.
Proof.
  rewrite (at_Pheader small t l1 _ l2 R). fold at_pb. cbn [entry_of e_ext]. fold v. pose proof at_holds as H. unfold v_head, v_ext, v_data in *. unfold header. change (load8 (tf_m t) at_pb) with (tf_m t at_pb).
  destruct (v_insts v) as [|i [|j r]].
  - destruct small; cbn [negb orb andb]; [reflexivity|]. rewrite holds_cons in H. tauto.
  - destruct small, (v_long v); cbn [negb orb andb] in *; try reflexivity; rewrite holds_cons in H; tauto.
  - assert (X : (if negb small || small && true then Some at_pb else None) = Some at_pb) by (now destruct small). rewrite X. split; [reflexivity|].
    destruct (v_two v); [apply holds_tv in H|rewrite holds_cons in H]; apply H.
Qed.

(** The test that the column has several values. *)
Definition at_multi : option Z := match Pheader small t (zlen l1) with Some p => if TAGFLD_HEADER.FMultiValues (header t p) then Some p else None | None => None end.

Lemma at_multi_spec : at_multi = match v_insts v with _ :: _ :: _ => Some at_pb | _ => None end.
Proof.
  unfold at_multi. pose proof at_head as H. unfold v_head in H. destruct (v_insts v) as [|i [|j r]].
  - destruct small; [now rewrite H|]. destruct H as [-> ->]. unfold v_header. now rewrite hdr_FMultiValues.
  - destruct (small && negb (v_long v)); [now rewrite H|]. destruct H as [-> ->]. unfold v_header. now rewrite hdr_FMultiValues.
  - destruct H as [-> ->]. unfold v_header. now rewrite hdr_FMultiValues.
Qed.

Lemma at_two i j r : v_insts v = i :: j :: r -> TAGFLD_HEADER.FTwoValues (header t at_pb) = v_two v.
Proof. intros E. pose proof at_head as H. unfold v_head in H. rewrite E in H. destruct H as [_ ->]. apply hdr_FTwoValues. Qed.

Lemma at_TWOVALUES i j r : v_insts v = i :: j :: r -> v_two v = true ->
  TWOVALUES_new (tf_m t) (PbData small t (zlen l1)) (CbData small t (zlen l1)) = Twovalues at_pb (zlen (idata i)) (zlen (idata j)) /\ r = [] /\
  holds (tf_m t) at_pb (tv_bytes (v_header v false true true false) (idata i) (idata j)) /\ zlen (idata i) < 256 /\ zlen (idata j) < 256.
Proof.
  intros E T. destruct (vo_two _ V T) as (S & Lg & N). fold v in E, T, N, Lg. rewrite E in N. assert (r = []) as -> by (destruct r; [reflexivity|zl]).
  destruct (vo_short _ V Lg) as (_ & _ & F). fold v in F. rewrite E in F. apply Forall_cons_iff in F as [[_ Li] F]. apply Forall_cons_iff in F as [[_ Lj] _]. unfold JET_cbColumnMost in *.
  pose proof at_holds as H. unfold v_data in H. rewrite E, T in H. rewrite (at_PbData small t l1 _ l2 R), (at_CbData small t l1 _ l2 R). fold at_pb.
  cbn [entry_of e_data]. fold v. unfold v_data. rewrite E, T, zlen_tv_bytes. split; [|repeat split; try exact H; lia]. apply (TWOVALUES_new_spec _ _ _ _ _ H). lia.
Qed.

Lemma at_MULTIVALUES i j r : v_insts v = i :: j :: r -> v_two v = false -> let l := v_insts v in
  MULTIVALUES_new (tf_m t) (PbData small t (zlen l1)) (CbData small t (zlen l1)) = Multivalues at_pb (mv_size l) (zlen l) /\
  mvrep (tf_m t) (Multivalues at_pb (mv_size l) (zlen l)) l /\ holds (tf_m t) at_pb (v_header v false true false false :: mv_bytes l).
Proof.
  intros E T l. apply (at_mv small t l1 (entry_of c) l2 (v_header v false true false false) l R); [|unfold l; rewrite E, !zlen_cons; pose proof (zlen_nonneg r); lia].
  cbn [entry_of e_data]. fold v. unfold v_data, l. now rewrite E, T.
Qed.
End At.
End Cols.
