(* ===== verification/TagFldSpec.v ===== *)
(** * Tagged columns: what setting and retrieving promise

    Setting a column, or taking a value away, as an update of the sorted list of
    columns; retrieving a value as a lookup in it. *)

From Stdlib Require Import ZArith List Lia Bool Sorting.Sorted.
From S2P Require Import Prelude Mem Norm TagFld TagFldView TagFldOps TagFldMulti TagFldSearch.
Import ListNotations.

(** ** Lists of values *)

Definition set_inst (l : list INST) (k : nat) (x : INST) : list INST := firstn k l ++ x :: skipn (S k) l.
Definition remove_inst (l : list INST) (k : nat) : list INST := firstn k l ++ skipn (S k) l.

Definition inst_index (itag : Z) : nat := Z.to_nat (itag - 1).

(** Whether there is a value with this number. *)
Definition has_inst (l : list INST) (itag : Z) : bool := (1 <=? itag) && (itag <=? zlen l).

Lemma set_inst_app l1 i l2 x : set_inst (l1 ++ i :: l2) (length l1) x = l1 ++ x :: l2.
Proof.
  unfold set_inst. rewrite firstn_app, firstn_all, Nat.sub_diag, app_nil_r. f_equal. f_equal. rewrite skipn_app, skipn_all2 by lia.
  now replace (S (length l1) - length l1)%nat with 1%nat by lia.
Qed.

Lemma remove_inst_app l1 i l2 : remove_inst (l1 ++ i :: l2) (length l1) = l1 ++ l2.
Proof.
  unfold remove_inst. rewrite firstn_app, firstn_all, Nat.sub_diag, app_nil_r. f_equal. rewrite skipn_app, skipn_all2 by lia.
  now replace (S (length l1) - length l1)%nat with 1%nat by lia.
Qed.

Lemma inst_split l itag : has_inst l itag = true -> exists l1 i l2, l = l1 ++ i :: l2 /\ inst_index itag = length l1 /\ itag = zlen l1 + 1.
Proof.
  unfold has_inst. rewrite andb_true_iff, !Z.leb_le. intros H. destruct (nth_error l (inst_index itag)) as [i|] eqn:E.
  - apply nth_error_split in E as (l1 & l2 & -> & L). exists l1, i, l2. split; [reflexivity|]. split; [now symmetry|]. unfold zlen, inst_index in *. lia.
  - apply nth_error_None in E. unfold zlen, inst_index in *. lia.
Qed.

(** ** The list of columns *)

Fixpoint lookup_col (cs : list COLUMN) (fid : Z) (derived : bool) : option VALUE :=
  match cs with
  | [] => None
  | c :: cs => if col_key c =? column_key fid derived then Some (c_val c) else lookup_col cs fid derived
  end.

(** The column gets the value, or is removed. *)
Fixpoint put_col (cs : list COLUMN) (fid : Z) (derived : bool) (o : option VALUE) : list COLUMN :=
  match cs with
  | [] => match o with Some v => [Column fid derived v] | None => [] end
  | c :: cs' =>
      if col_key c =? column_key fid derived then match o with Some v => set_val c v :: cs' | None => cs' end
      else if column_key fid derived <? col_key c then match o with Some v => Column fid derived v :: cs | None => cs end
      else c :: put_col cs' fid derived o
  end.

Lemma lookup_present l1 c l2 fid derived : Forall (fun c => col_key c < column_key fid derived) l1 -> col_key c = column_key fid derived ->
  lookup_col (l1 ++ c :: l2) fid derived = Some (c_val c).
Proof.
  intros F E. induction F as [|d l1 L F IH]; cbn [app lookup_col]; [now rewrite E, Z.eqb_refl|]. now rewrite (proj2 (Z.eqb_neq _ _)) by lia.
Qed.

Lemma lookup_absent l1 l2 fid derived : Forall (fun c => col_key c < column_key fid derived) l1 -> Forall (fun c => column_key fid derived < col_key c) l2 ->
  lookup_col (l1 ++ l2) fid derived = None.
Proof.
  intros F1 F2. assert (F : Forall (fun c => col_key c <> column_key fid derived) (l1 ++ l2)).
  { apply Forall_app. split; [eapply Forall_impl; [|exact F1]|eapply Forall_impl; [|exact F2]]; cbn; lia. }
  induction F as [|d l L F IH]; cbn [lookup_col]; [reflexivity|]. now rewrite (proj2 (Z.eqb_neq _ _)).
Qed.

Lemma put_present l1 c l2 fid derived o : Forall (fun c => col_key c < column_key fid derived) l1 -> col_key c = column_key fid derived ->
  put_col (l1 ++ c :: l2) fid derived o = l1 ++ match o with Some v => set_val c v :: l2 | None => l2 end.
Proof.
  intros F E. induction F as [|d l1 L F IH]; cbn [app put_col]; [now rewrite E, Z.eqb_refl|].
  rewrite (proj2 (Z.eqb_neq _ _)), (proj2 (Z.ltb_ge _ _)) by lia. now rewrite IH.
Qed.

Lemma put_absent l1 l2 fid derived o : Forall (fun c => col_key c < column_key fid derived) l1 -> Forall (fun c => column_key fid derived < col_key c) l2 ->
  put_col (l1 ++ l2) fid derived o = l1 ++ match o with Some v => Column fid derived v :: l2 | None => l2 end.
Proof.
  intros F1 F2. induction F1 as [|d l1 L F IH]; cbn [app].
  - destruct F2 as [|d l2 L F]; cbn [put_col]; [reflexivity|]. rewrite (proj2 (Z.eqb_neq _ _)), (proj2 (Z.ltb_lt _ _)) by lia. now destruct o.
  - cbn [put_col]. rewrite (proj2 (Z.eqb_neq _ _)), (proj2 (Z.ltb_ge _ _)) by lia. now rewrite IH.
Qed.

Section Spec.
Context `{Loc : NormLocale}.
Variable small : bool.

(** ** Setting *)

(** A value for a column that exists; [None]: a value that is not the first
    cannot be compressed. *)
Definition set_value (c : JET_COLTYP) (itag : Z) (d : list Z) (sep comp enc : bool) (v : VALUE) : option VALUE :=
  match v_insts v with
  | [] => Some (Value (FRECLongValue c) comp enc false [(sep, d)])
  | [i] =>
      if itag =? 1 then Some (Value (FRECLongValue c) comp enc false [(sep, d)])
      else if comp then None
      else Some (Value (v_long v) (v_compressed v) (v_encrypted v) (small && negb (v_long v)) [i; (sep, d)])
  | l =>
      if negb (itag =? 1) && comp then None
      else if has_inst l itag
      then Some (Value (v_long v) (if itag =? 1 then comp else v_compressed v) (v_encrypted v) (v_two v) (set_inst l (inst_index itag) (sep, d)))
      else Some (Value (v_long v) (v_compressed v) (v_encrypted v) false (l ++ [(sep, d)]))
  end.

(** Taking a value away; [None]: the column is removed. *)
Definition clear_value (default revert : bool) (itag : Z) (v : VALUE) : option VALUE :=
  match v_insts v with
  | [] => if revert then None else Some v
  | [i] =>
      if itag =? 1 then if default && negb revert then Some (Value (v_long v) (v_compressed v) (v_encrypted v) false []) else None
      else Some v
  | l =>
      if has_inst l itag
      then Some (Value (v_long v) (if itag =? 1 then false else v_compressed v) (v_encrypted v) false (remove_inst l (inst_index itag)))
      else Some v
  end.

(** The bytes a new value is compared with: those of the values; but of a column
    with one value and a header byte, that byte and those of the value. *)
Definition unique_view (v : VALUE) : list (list Z) :=
  match v_insts v with
  | [i] => [if small && negb (v_long v) then idata i else v_header v (isep i) false false false :: idata i]
  | l => map idata l
  end.

(** The first error of the comparison with the values but number [itag];
    [imv] is the number of the first one. *)
Fixpoint unique_error (pfield : option FIELD) (d : list Z) (truncated : bool) (itag imv : Z) (l : list (list Z)) : Z :=
  match l with
  | [] => JET_errSuccess
  | x :: l =>
      let err := if itag =? imv then JET_errSuccess else ErrRECICheckUnique pfield d x truncated in
      if err <? 0 then err else unique_error pfield d truncated itag (imv + 1) l
  end.

Definition check_unique (pfield : FIELD) (itag grbit : Z) (d : list Z) (v : VALUE) : Z :=
  if fbit grbit (Z.lor JET_bitSetUniqueMultiValues JET_bitSetUniqueNormalizedMultiValues) && negb (FRECLongValue (coltyp pfield)) && negb (v_null v) then
    if fbit grbit JET_bitSetUniqueNormalizedMultiValues then
      let '(err, norm, truncated) := ErrFLDNormalizeTaggedData (coltyp pfield) (cp pfield) d false in
      if err <? 0 then err else unique_error (Some pfield) norm truncated itag 1 (unique_view v)
    else unique_error None d false itag 1 (unique_view v)
  else JET_errSuccess.

(** The new value of the column, or an error. *)
Definition new_value (pfield : FIELD) (itag : Z) (data : option (list Z)) (grbit : Z) (old : option VALUE) : Z + option VALUE :=
  let sep := fbit grbit grbitSetColumnSeparated in
  let comp := fbit grbit grbitSetColumnCompressed in
  let enc := fbit grbit grbitSetColumnEncrypted in
  let default := FFIELDDefault (ffield pfield) in
  let revert := fbit grbit JET_bitSetRevertToDefaultValue in
  match old, data with
  | None, None => inr (if default && (itag =? 1) && negb revert then Some (Value (FRECLongValue (coltyp pfield)) comp enc false []) else None)
  | None, Some d => inr (Some (Value (FRECLongValue (coltyp pfield)) comp enc false [(sep, d)]))
  | Some v, Some d =>
      let err := check_unique pfield itag grbit d v in
      if err <? 0 then inl err
      else match set_value (coltyp pfield) itag d sep comp enc v with Some v' => inr (Some v') | None => inl errRECCompressionNotPossible end
  | Some v, None => inr (clear_value default revert itag v)
  end.

(** [cbOther]: the size of the record but for its tagged columns. *)
Definition set_column (cbRecordMost cbOther : Z) (cs : list COLUMN) (pfield : FIELD) (fid itag : Z) (data : option (list Z)) (grbit : Z) : Z * list COLUMN :=
  let derived := fbit grbit grbitSetColumnUseDerivedBit in
  match new_value pfield itag data grbit (lookup_col cs fid derived) with
  | inl err => (err, cs)
  | inr o =>
      let cs' := put_col cs fid derived o in
      if cbRecordMost <? cbOther + size (map (entry_of small) cs') then (JET_errRecordTooBig, cs) else (JET_errSuccess, cs')
  end.

(** What the callers promise: the column is a tagged one, its type is the one
    its values were set with, and only long columns are separated, compressed
    or encrypted, or longer than 255 bytes. *)
Record set_ok (cs : list COLUMN) (pfield : FIELD) (fid itag : Z) (data : option (list Z)) (grbit : Z) : Prop := {
  so_fid : FTagged fid = true;
  so_type : forall v, lookup_col cs fid (fbit grbit grbitSetColumnUseDerivedBit) = Some v -> v_long v = FRECLongValue (coltyp pfield);
  so_itag : 0 <= itag;
  so_data : forall d, data = Some d -> bytes_ok d /\ zlen d < 2 ^ 30;
  so_null : data = None -> fbit grbit grbitSetColumnSeparated = false;
  so_short : FRECLongValue (coltyp pfield) = false ->
    fbit grbit grbitSetColumnSeparated = false /\ fbit grbit grbitSetColumnCompressed = false /\ fbit grbit grbitSetColumnEncrypted = false /\
    (forall d, data = Some d -> zlen d <= JET_cbColumnMost)
}.

(** ** Retrieving *)

(** The warning that goes with a value. *)
Definition value_warning (v : VALUE) (itag : Z) (i : INST) : Z :=
  if v_long v then if isep i then wrnRECSeparatedLV else if v_compressed v && (itag =? 1) then wrnRECCompressed else wrnRECIntrinsicLV else JET_errSuccess.

Inductive FOUND := Found (err : Z) (d : list Z) | NotFound (r : Z * RETRIEVED).

(** What is returned for a column without a value in the record. *)
Definition default_value (df : DEFAULTS) (itag grbit : Z) : Z * RETRIEVED :=
  if negb (fbit grbit JET_bitRetrieveIgnoreDefault) && (itag =? 1) && FTableHasNonEscrowDefault df then
    if FFIELDUserDefinedDefault (df_ffield df) then (wrnRECUserDefinedDefault, Nullified)
    else if FFIELDDefault (df_ffield df) then (fst (df_value df), DefaultValue (snd (df_value df)))
    else (JET_wrnColumnNull, Nullified)
  else (JET_wrnColumnNull, Nullified).

Definition retrieve_column (cs : list COLUMN) (df : DEFAULTS) (fid : Z) (derived : bool) (itag grbit : Z) : FOUND :=
  match lookup_col cs fid derived with
  | None => NotFound (default_value df itag grbit)
  | Some v => match nth_error (v_insts v) (inst_index itag) with Some i => Found (value_warning v itag i) (idata i) | None => NotFound (JET_wrnColumnNull, Nullified) end
  end.

Definition column_instances (cs : list COLUMN) (ff fid : Z) (derived : bool) : Z :=
  match lookup_col cs fid derived with None => if FFIELDDefault ff then 1 else 0 | Some v => zlen (v_insts v) end.
End Spec.
