(* ===== verification/TagFldSet.v ===== *)
(** * Tagged columns: setting a column

    Each branch of ErrSetColumn, as an update of one column of the list. *)

From Stdlib Require Import ZArith List Lia Bool Sorting.Sorted.
From S2P Require Import Prelude Mem Norm TagFld TagFldView TagFldOps TagFldMulti TagFldSearch TagFldSpec.
Import ListNotations.

Section Set_.
Context `{Loc : NormLocale}.
Variable small : bool.

(** ** The size of the record follows that of its tagged columns *)

Definition updated (hi : Z) (t t' : TAGFIELDS) (l' : list ENTRY) : Prop :=
  rep small t' l' /\ m_rgtagfld t' = m_rgtagfld t /\ dataWorkBuf_Cb t' = dataWorkBuf_Cb t + (size l' - CbTaggedColumns t) /\
  same_outside (m_rgtagfld t) (m_rgtagfld t + hi) (tf_m t) (tf_m t').

Lemma moved_DeltaCb hi hi' t t1 l' delta : moved small hi t t1 l' -> hi <= hi' -> delta = size l' - CbTaggedColumns t -> updated hi' t (DeltaCb t1 delta) l'.
Proof.
  intros (R & E & W & S) L ->. split; [|split; [exact E|split]].
  - destruct R. split; assumption.
  - cbn [DeltaCb dataWorkBuf_Cb]. now rewrite W.
  - cbn [DeltaCb tf_m]. eapply same_outside_weaken; [exact S|lia..].
Qed.

Lemma same_updated t l : rep small t l -> updated (size l) t t l.
Proof. intros R. split; [exact R|]. split; [reflexivity|]. split; [rewrite (rep_cb _ _ _ R); lia|apply same_outside_refl]. Qed.

Lemma size_entry l1 e e' l2 : size (l1 ++ e' :: l2) = size (l1 ++ e :: l2) + (zlen (e_data e') - zlen (e_data e)).
Proof. rewrite !size_app, !size_cons. lia. Qed.

(** The record is not larger than allowed, nor than offsets can say. *)
Definition room (cbRecordMost : Z) (t : TAGFIELDS) : Prop := CbTaggedColumns t <= dataWorkBuf_Cb t <= cbRecordMost /\ cbRecordMost <= maskIb small.

(** The test of the size of the record, and what it says where it passes. *)
Lemma too_big_test most t l delta : rep small t l -> room most t -> - size l <= delta < 2 ^ 31 ->
  (most <? u32 (dataWorkBuf_Cb t + delta)) = (most <? dataWorkBuf_Cb t + delta) /\ (dataWorkBuf_Cb t + delta <= most -> size l + delta <= maskIb small).
Proof.
  intros R [W1 W2] D. rewrite (rep_cb _ _ _ R) in W1. pose proof (maskIb_range small). pose proof (size_nonneg l). rewrite u32_small by lia. split; [reflexivity|lia].
Qed.

Section One.
Variables (most : Z) (t : TAGFIELDS) (l1 : list ENTRY) (c : COLUMN) (l2 : list ENTRY).
Hypothesis R : rep small t (l1 ++ entry_of small c :: l2).
Hypothesis V : val_ok small (c_val c).
Hypothesis W : room most t.
Let v := c_val c.
Let e := entry_of small c.
Let l := l1 ++ e :: l2.

Definition with_value (v' : VALUE) : list ENTRY := l1 ++ entry_of small (set_val c v') :: l2.

(** How much the record grows. *)
Definition grow (v' : VALUE) : Z := zlen (v_data small v') - zlen (v_data small v).

Lemma size_with_value v' : size (with_value v') = size l + grow v'.
Proof. apply size_entry. Qed.

Lemma grow_low v' : - size l <= grow v'.
Proof.
  unfold grow. pose proof (zlen_nonneg (v_data small v')). pose proof (size_at l1 e l2) as X. unfold l. rewrite X. cbn [e entry_of e_data]. fold v. unfold ib_of. pose_zlen. lia.
Qed.

(** The outcome of an update that makes the value [v']. *)
Definition outcome (v' : VALUE) (r : Z * TAGFIELDS) : Prop :=
  if most <? dataWorkBuf_Cb t + grow v' then r = (JET_errRecordTooBig, t)
  else fst r = JET_errSuccess /\ updated (Z.max (size l) (size (with_value v'))) t (snd r) (with_value v').

Lemma outcome_intro v' t1 delta : grow v' = delta -> delta < 2 ^ 31 ->
  (size (with_value v') <= maskIb small -> moved small (Z.max (size l) (size (with_value v'))) t t1 (with_value v')) ->
  outcome v' (if most <? u32 (dataWorkBuf_Cb t + delta) then (JET_errRecordTooBig, t) else (JET_errSuccess, DeltaCb t1 delta)).
Proof.
  intros <- D H. unfold outcome. pose proof (grow_low v') as G. destruct (too_big_test most t l (grow v') R W ltac:(lia)) as [-> X].
  destruct (Z.ltb_spec most (dataWorkBuf_Cb t + grow v')) as [L|L]; [reflexivity|]. split; [reflexivity|]. rewrite <- size_with_value in X.
  apply (moved_DeltaCb _ _ _ _ _ _ (H (X L))); [lia|]. rewrite size_with_value, (rep_cb _ _ _ R). fold e l. lia.
Qed.

Lemma zlen_single_data v' i : v_insts v' = [i] -> zlen (v_data small v') = zlen (idata i) + (if small && negb (v_long v') then 0 else 1).
Proof. intros E. unfold v_data. rewrite E. destruct (small && negb (v_long v')); [lia|]. rewrite zlen_cons. lia. Qed.

(** ** A column of one value, or null, is given a first value *)

Lemma set_data_same (x : ENTRY) : set_data x (e_data x) = x.
Proof. now destruct x. Qed.

(** The data of the column cut or extended to the size they need. *)
Lemma resized t0 e0 db : rep small t0 (l1 ++ e0 :: l2) -> 0 <= zlen (e_data e0) + db -> size (l1 ++ e0 :: l2) + db <= maskIb small ->
  exists nd, zlen nd = zlen (e_data e0) + db /\ (forall b r, e_data e0 = b :: r -> 1 <= zlen (e_data e0) + db -> exists r', nd = b :: r') /\
    moved small (Z.max (size (l1 ++ e0 :: l2)) (size (l1 ++ e0 :: l2) + db)) t0 (if db =? 0 then t0 else ResizeTagfld small t0 (zlen l1) db) (l1 ++ set_data e0 nd :: l2).
Proof.
  intros R0 K Fit. destruct (Z.eqb_spec db 0) as [->|N].
  - exists (e_data e0). split; [lia|]. split; [intros b r ->; now exists r|]. rewrite set_data_same. apply moved_refl, R0.
  - destruct (ResizeTagfld_spec small t0 l1 e0 l2 db R0 K Fit) as (j & Lj & Mv). eexists. split; [|split; [|exact Mv]].
    + unfold zlen in *. rewrite length_firstn, length_app. lia.
    + intros b r E L. rewrite E in *. destruct (Z.to_nat (zlen (b :: r) + db)) as [|k] eqn:Ek; [lia|]. cbn [app firstn]. eauto.
Qed.

Lemma null_entry_data (e0 : ENTRY) : zlen (e_data (null_entry small false e0)) = zlen (e_data e0).
Proof. unfold null_entry. destruct small; [reflexivity|]. destruct (e_data e0) as [|h r] eqn:E; [now rewrite E|]. cbn [set_data e_data]. now rewrite !zlen_cons. Qed.

Lemma set_single_state d c0 sep comp enc : v_insts v = [] \/ (exists i, v_insts v = [i]) -> v_long v = FRECLongValue c0 ->
  let v' := Value (FRECLongValue c0) comp enc false [(sep, d)] in
  bytes_ok d -> val_ok small v' -> size (with_value v') <= maskIb small ->
  let t0 := ResetFNull small t (zlen l1) in let t1 := if grow v' =? 0 then t0 else ResizeTagfld small t0 (zlen l1) (grow v') in
  moved small (Z.max (size l) (size (with_value v'))) t (ReplaceTagfldData small t1 (zlen l1) d c0 sep comp enc) (with_value v').
Proof.
  intros One Lg v' Hd Hv' Fit t0 t1. pose proof (set_null_spec small t l1 e l2 false R (v_data_large small v)) as Mv0. change (moved small (size l) t t0 (l1 ++ null_entry small false e :: l2)) in Mv0.
  set (e0 := null_entry small false e) in *. assert (L0 : zlen (e_data e0) = zlen (v_data small v)) by apply null_entry_data. rewrite size_with_value in Fit |- *.
  assert (S0 : size (l1 ++ e0 :: l2) = size l) by (unfold l; rewrite (size_entry l1 e e0 l2), L0; change (e_data e) with (v_data small v); lia).
  pose proof (zlen_single_data v' (sep, d) eq_refl) as Lv. change (idata (sep, d)) with d in Lv. change (v_long v') with (FRECLongValue c0) in Lv. pose proof (zlen_nonneg d) as Zd. pose proof (zlen_nonneg (v_data small v')) as Zv'. pose proof (zlen_nonneg (v_data small v)) as Zv.
  destruct (resized t0 e0 (grow v') (moved_rep _ _ _ _ _ Mv0)) as (nd & Ln & Hh & Mv1); [unfold grow; lia|lia|]. fold t1 in Mv1. assert (Ln' : zlen nd = zlen (v_data small v')) by (unfold grow in Ln; lia). rewrite S0 in Mv1.
  pose proof (size_set_data l1 e0 l2 nd) as S1. rewrite S0 in S1. pose proof (moved_rep _ _ _ _ _ Mv1) as R1. set (e1 := set_data e0 nd) in *. unfold grow in *.
  assert (Fin : forall x hi, moved small hi t1 (ReplaceTagfldData small t1 (zlen l1) d c0 sep comp enc) (l1 ++ x :: l2) -> hi <= size l + (zlen (v_data small v') - zlen (v_data small v)) -> x = entry_of small (set_val c v') ->
    moved small (Z.max (size l) (size l + (zlen (v_data small v') - zlen (v_data small v)))) t (ReplaceTagfldData small t1 (zlen l1) d c0 sep comp enc) (with_value v')).
  { intros x hi H Hhi ->. eapply moved_trans; [eapply moved_weaken; [exact Mv0|lia]|]. eapply moved_trans; [exact Mv1|]. eapply moved_weaken; [exact H|lia]. }
  assert (Eext : e_ext e1 = e_ext e) by (unfold e1, e0, null_entry; destruct small; [reflexivity|]; now destruct (e_data e)).
  assert (Enull : e_null e1 = false) by (unfold e1, e0, null_entry; cbn [set_data e_null]; destruct small; [reflexivity|]; now destruct (e_data e)).
  assert (Ent : forall x dd nl, set_data (set_flags e1 x nl) dd = Entry (c_fid c) (c_derived c) x nl dd) by (intros x dd nl; unfold e1, e0, null_entry; destruct small; [reflexivity|]; now destruct (e_data e)).
  destruct (negb small || e_ext e) eqn:X.
  - assert (Hb : exists sp nl, e_data e = v_header v sp false false nl :: tl (e_data e)).
    { change (e_data e) with (v_data small v). unfold v_data. change (e_ext e) with (small && v_ext v) in X. unfold v_ext in X. destruct One as [E|[i E]]; rewrite E in *.
      - destruct small; [discriminate X|]. exists false, true. reflexivity.
      - exists (isep i), false. destruct small, (v_long v); try discriminate X; reflexivity. }
    destruct Hb as (sp & nl & Hb). set (b1 := if small then v_header v sp false false nl else v_header v sp false false false).
    assert (Hb0 : e_data e0 = b1 :: tl (e_data e)).
    { unfold e0, null_entry, b1. destruct small; [exact Hb|]. rewrite Hb. cbn [set_data e_data tl]. unfold v_header. now rewrite hdr_Assign_Null. }
    assert (Nl : small = true -> nl = false).
    { intros S. change (e_ext e) with (small && v_ext v) in X. change (e_data e) with (v_data small v) in Hb. unfold v_data, v_ext in *. rewrite S in *. destruct One as [E|[i E]]; rewrite E in *; [discriminate X|]. destruct (v_long v); [|discriminate X].
      injection Hb as Hb. pose proof (f_equal TAGFLD_HEADER.FNull Hb) as Y. unfold v_header in Y. now rewrite !hdr_FNull in Y. }
    assert (B1 : b1 = v_header v sp false false false) by (unfold b1; destruct (bool_dec small true) as [S|S]; [rewrite (Nl S); now destruct small|apply not_true_is_false in S; now rewrite S]).
    assert (Lh : zlen (v_data small v') = 1 + zlen d).
    { rewrite Lv. destruct small, (FRECLongValue c0); cbn [andb negb]; try lia. change (e_ext e) with (true && v_ext v) in X. unfold v_ext in X. destruct One as [E|[i E]]; rewrite E in X; [|rewrite Lg in X]; discriminate X. }
    destruct (Hh b1 _ Hb0 ltac:(lia)) as (r' & En). rewrite En, zlen_cons in Ln'.
    eapply Fin; [apply (replace_with_header small t1 l1 e1 l2 b1 r' d c0 sep comp enc R1 En)| |].
    + now rewrite Eext.
    + rewrite Enull. unfold null_entry. destruct small; [reflexivity|]. change (e_data e1) with nd. rewrite En. exact Enull.
    + exact Hd.
    + lia.
    + rewrite S1. lia.
    + replace (set_data e1) with (fun dd => set_data (set_flags e1 (e_ext e1) (e_null e1)) dd) by (destruct e1; reflexivity). cbn beta. rewrite Ent, Eext, Enull. unfold entry_of. cbn [set_val c_fid c_derived c_val].
      assert (F1 : e_ext e = small && v_ext v').
      { change (e_ext e) with (small && v_ext v). unfold v_ext. cbn [v' v_insts v_long]. destruct One as [E|[i E]]; rewrite E; [|now rewrite Lg]. change (e_ext e) with (small && v_ext v) in X. unfold v_ext in X. rewrite E in X. destruct small; [discriminate X|reflexivity]. }
      rewrite F1. replace (small && v_null v') with false by (now destruct small). f_equal. unfold v_data. cbn [v' v_insts v_long idata snd isep fst].
      replace (small && negb (FRECLongValue c0)) with false by (destruct small, (FRECLongValue c0); cbn [andb negb] in *; try reflexivity; lia).
      f_equal. replace (if small then b1 else TAGFLD_HEADER.Reset_ TAGFLD_HEADER.fNull b1) with b1 by (rewrite B1; unfold v_header; rewrite hdr_Reset_Null; now destruct small).
      rewrite B1. unfold v_header. rewrite hdr_Assign_Compressed, hdr_Assign_Encrypted, hdr_Assign_Separated, Lg. reflexivity.
  - apply orb_false_iff in X as [Sm X]. apply negb_false_iff in Sm. destruct (FRECLongValue c0) eqn:Ec.
    + eapply Fin; [apply (replace_new_header small t1 l1 e1 l2 d c0 sep comp enc Sm R1)| |].
      * now rewrite Eext.
      * exact Ec.
      * exact Hd.
      * cbn [e1 set_data e_data]. rewrite Ln', Lv, Sm. cbn [andb negb]. lia.
      * rewrite S1. lia.
      * rewrite Ent, TAGFLD_HEADER_new_hdr, Ec, Sm. unfold entry_of, v_data. cbn [set_val c_fid c_derived c_val v' v_insts v_long idata snd isep fst]. reflexivity.
    + eapply Fin; [apply (replace_plain small t1 l1 e1 l2 d c0 sep comp enc Sm R1)| |].
      * now rewrite Eext.
      * exact Ec.
      * exact Hd.
      * cbn [e1 set_data e_data]. rewrite Ln', Lv, Sm. cbn [andb negb]. lia.
      * rewrite S1. lia.
      * rewrite Ent, Sm. unfold entry_of, v_data. cbn [set_val c_fid c_derived c_val v' v_insts v_long idata snd]. reflexivity.
Qed.

Lemma set_single_value_spec pfield d grbit : v_insts v = [] \/ (exists i, v_insts v = [i]) -> v_long v = FRECLongValue (coltyp pfield) ->
  let v' := Value (FRECLongValue (coltyp pfield)) (fbit grbit grbitSetColumnCompressed) (fbit grbit grbitSetColumnEncrypted) false [(fbit grbit grbitSetColumnSeparated, d)] in
  bytes_ok d -> zlen d < 2 ^ 30 -> val_ok small v' -> outcome v' (set_single_value small most t (zlen l1) pfield d grbit).
Proof.
  intros One Lg v' Hd Ld Hv'. unfold set_single_value. fold (cbTagHeaderDefault small). rewrite (at_CbData small t l1 e l2 R). change (e_data e) with (v_data small v). rewrite Cb_zlen.
  pose proof (zlen_nonneg d) as Zd. pose proof (zlen_nonneg (v_data small v)) as Zv. pose proof (at_range small t l1 e l2 R) as (B1 & B2). change (e_data e) with (v_data small v) in B2. pose proof (maskIb_range small) as M. pose proof (zlen_nonneg (datas l2)) as Z2.
  rewrite s32_small by (unfold cbTagHeaderDefault, sizeof_TAGFLD_HEADER; destruct small; lia).
  assert (Eg : (if small && FRECLongValue (coltyp pfield) then zlen d + cbTagHeaderDefault small - zlen (v_data small v) + sizeof_TAGFLD_HEADER else zlen d + cbTagHeaderDefault small - zlen (v_data small v)) = grow v').
  { unfold grow. rewrite (zlen_single_data v' (fbit grbit grbitSetColumnSeparated, d) eq_refl). cbn [v' v_long idata snd]. unfold cbTagHeaderDefault, sizeof_TAGFLD_HEADER. destruct small, (FRECLongValue (coltyp pfield)); cbn [andb negb]; lia. }
  rewrite Eg. set (sep := fbit grbit grbitSetColumnSeparated) in *. set (comp := fbit grbit grbitSetColumnCompressed) in *. set (enc := fbit grbit grbitSetColumnEncrypted) in *.
  assert (Gd : grow v' < 2 ^ 31) by (unfold grow; rewrite (zlen_single_data v' (sep, d) eq_refl); cbn [idata snd]; destruct (small && negb (v_long v')); lia).
  apply outcome_intro; [reflexivity|exact Gd|]. intros Fit. now apply set_single_state.
Qed.
(** ** A column of one value is given a second one *)

Lemma entry_same_word (x y : ENTRY) : e_fid x = e_fid y -> e_derived x = e_derived y -> e_ext x = e_ext y -> e_null x = e_null y -> e_data x = e_data y -> x = y.
Proof. destruct x, y. cbn. now intros -> -> -> -> ->. Qed.

Lemma set_second_value_spec pfield d grbit i : v_insts v = [i] -> v_long v = FRECLongValue (coltyp pfield) ->
  let v' := Value (v_long v) (v_compressed v) (v_encrypted v) (small && negb (v_long v)) [i; (fbit grbit grbitSetColumnSeparated, d)] in
  bytes_ok d -> zlen d < 2 ^ 30 -> val_ok small v' ->
  let r := set_second_value small most t (zlen l1) (Pheader small t (zlen l1)) pfield d grbit in
  if fbit grbit grbitSetColumnCompressed then r = (errRECCompressionNotPossible, t) else outcome v' r.
Proof.
  intros One Lg v' Hd Ld Hv' r. subst r. unfold set_second_value. destruct (fbit grbit grbitSetColumnCompressed); [reflexivity|]. set (sep := fbit grbit grbitSetColumnSeparated) in *.
  rewrite (at_Pheader small t l1 e l2 R). rewrite !Cb_zlen. pose proof (zlen_nonneg d) as Zd. pose proof (zlen_single_data v i One) as Lv.
  assert (Ext : negb small || e_ext e = negb (small && negb (v_long v))) by (change (e_ext e) with (small && v_ext v); unfold v_ext; rewrite One; destruct small, (v_long v); reflexivity).
  rewrite Ext. destruct (small && negb (v_long v)) eqn:X; cbn [negb].
  - apply andb_true_iff in X as [Sm Lf]. apply negb_true_iff in Lf. destruct (vo_short _ _ V Lf) as (Cf & Ef & F). fold v in Cf, Ef, F. rewrite One in F. apply Forall_cons_iff in F as [[Sf Li] _]. unfold JET_cbColumnMost in Li.
    assert (Dv : v_data small v = idata i) by (unfold v_data; rewrite One, Sm, Lf; reflexivity).
    assert (Dv' : v_data small v' = tv_bytes (two_header small (coltyp pfield)) (idata i) d).
    { unfold v_data. cbn [v' v_insts v_two]. unfold v_header, two_header. cbn [v' v_long v_compressed v_encrypted]. rewrite TAGFLD_HEADER_new_hdr, hdr_Set_MultiValues, hdr_Set_TwoValues, Cf, Ef, <- Lg, Lf. reflexivity. }
    apply outcome_intro.
    + unfold grow. rewrite Dv, Dv', zlen_tv_bytes. unfold sizeof_TAGFLD_HEADER, sizeof_TVLENGTH. lia.
    + unfold sizeof_TAGFLD_HEADER, sizeof_TVLENGTH. lia.
    + intros Fit. assert (Ed : e_data e = idata i) by exact Dv. assert (Es : size (l1 ++ set_data e (v_data small v') :: l2) = size (with_value v')) by (unfold with_value; rewrite !size_app, !size_cons; reflexivity).
      pose proof (ConvertToTwoValues_spec small t l1 e l2 d (coltyp pfield) R Hd) as Mv. cbn zeta in Mv. rewrite Ed, <- Dv' in Mv. specialize (Mv ltac:(lia) ltac:(lia)). rewrite Es in Mv.
      eapply moved_trans; [eapply moved_weaken; [exact Mv|lia]|]. pose proof (SetFExtendedInfo_spec small _ l1 _ l2 Sm (moved_rep _ _ _ _ _ Mv)) as Mv2. rewrite Es in Mv2.
      replace (set_flags (set_data e (v_data small v')) true (e_null (set_data e (v_data small v')))) with (entry_of small (set_val c v')) in Mv2; [eapply moved_weaken; [exact Mv2|lia]|].
      apply entry_same_word; try reflexivity; cbn [entry_of set_val set_flags set_data e_ext e_null c_val e]; [now rewrite Sm|]. fold v. unfold v_null. rewrite One. cbn [v' v_insts]. reflexivity.
  - assert (Dv : v_data small v = v_header v (isep i) false false false :: idata i) by (unfold v_data; rewrite One, X; reflexivity).
    assert (Dv' : v_data small v' = v_header v false true false false :: mv_bytes [i; (sep, d)]) by (unfold v_data; cbn [v' v_insts v_two]; reflexivity).
    assert (Lv' : zlen (v_data small v') = zlen (v_data small v) + (4 + zlen d)).
    { rewrite Dv, Dv', !zlen_cons, zlen_mv_bytes, !mv_size_cons. change (idata (sep, d)) with d. change (mv_size []) with 0. lia. }
    apply outcome_intro.
    + unfold grow. unfold sizeof_MVOFFSET. lia.
    + unfold sizeof_MVOFFSET. lia.
    + intros Fit. pose proof (ConvertToMultiValues_spec small t l1 e l2 d sep _ _ R Hd Dv) as Mv. cbn zeta in Mv.
      assert (E1 : TAGFLD_HEADER.Set_ TAGFLD_HEADER.fMultiValues (TAGFLD_HEADER.Reset_ TAGFLD_HEADER.fSeparated (v_header v (isep i) false false false)) :: mv_bytes [(TAGFLD_HEADER.FSeparated (v_header v (isep i) false false false), idata i); (sep, d)] = v_data small v').
      { rewrite Dv'. unfold v_header. rewrite hdr_Reset_Separated, hdr_Set_MultiValues, hdr_FSeparated. destruct i; reflexivity. }
      rewrite E1 in Mv. assert (Ee : set_data e (v_data small v') = entry_of small (set_val c v')).
      { apply entry_same_word; try reflexivity; cbn [entry_of set_val set_data e_ext e_null c_val e]; fold v; unfold v_ext, v_null; rewrite One; cbn [v' v_insts]; [|reflexivity]. destruct small, (v_long v); try discriminate X; reflexivity. }
      rewrite Ee in Mv. eapply moved_weaken; [exact (Mv Fit)|]. fold (with_value v'). lia.
Qed.

(** ** A column of several values *)

Lemma mvrep_of m p b k : mem_ok m -> holds m p (b :: mv_bytes k) -> mv_size k < 32768 -> mvrep m (Multivalues p (mv_size k) (zlen k)) k /\ m p = b.
Proof. intros Hm H F. rewrite holds_cons in H. destruct H as [Hb H]. split; [|exact Hb]. now split. Qed.

(** An update that writes the data of the value [v'] over those of [v]. *)
Lemma outcome_update v' f delta : v_ext v' = v_ext v -> v_null v' = v_null v -> delta = grow v' -> delta < 2 ^ 31 ->
  (size (with_value v') <= maskIb small -> forall m1, mem_ok m1 -> holds m1 (at_pb small t l1 c l2) (v_data small v) ->
    mem_ok (f m1) /\ holds (f m1) (at_pb small t l1 c l2) (v_data small v') /\
    same_outside (at_pb small t l1 c l2) (at_pb small t l1 c l2 + Z.max (zlen (v_data small v)) (zlen (v_data small v'))) m1 (f m1)) ->
  outcome v' (if most <? u32 (dataWorkBuf_Cb t + delta) then (JET_errRecordTooBig, t)
              else (JET_errSuccess, DeltaCb (let t1 := if 0 <? delta then ResizeTagfld small t (zlen l1) delta else t in
                                             let t2 := with_mem t1 (f (tf_m t1)) in if delta <? 0 then ResizeTagfld small t2 (zlen l1) delta else t2) delta)).
Proof.
  intros E1 E2 -> D H. apply outcome_intro; [reflexivity|exact D|]. intros Fit.
  assert (Ee : set_data e (v_data small v') = entry_of small (set_val c v')).
  { apply entry_same_word; try reflexivity; cbn [entry_of set_val set_data e_ext e_null c_val e]; fold v; [now rewrite E1|now rewrite E2]. }
  pose proof (update_resize small t l1 e l2 (v_data small v') f R) as U. rewrite Ee in U. apply U; [exact Fit|]. exact (H Fit).
Qed.

Lemma fit_data v' : size (with_value v') <= maskIb small -> zlen (v_data small v') <= maskIb small.
Proof.
  intros Fit. pose proof (size_at l1 (entry_of small (set_val c v')) l2) as X. fold (with_value v') in X. cbn [entry_of set_val e_data c_val] in X. unfold ib_of in X. pose_zlen. lia.
Qed.

Lemma has_inst_neg k itag : 0 <= itag -> ((0 =? itag) || (zlen k <? itag)) = negb (has_inst k itag).
Proof. intros H. unfold has_inst. apply eq_true_iff_eq. rewrite orb_true_iff, negb_true_iff, andb_false_iff, Z.eqb_eq, Z.ltb_lt, !Z.leb_gt. lia. Qed.

Section Several.
Variables (i j : INST) (r : list INST) (pfield : FIELD) (itag : Z) (d : list Z) (grbit : Z).
Hypothesis E : v_insts v = i :: j :: r.
Hypothesis Hi : 0 <= itag.
Hypothesis Hd : bytes_ok d.
Hypothesis Ld : zlen d < 2 ^ 30.
Let sep := fbit grbit grbitSetColumnSeparated.
Let comp := fbit grbit grbitSetColumnCompressed.
Let p := at_pb small t l1 c l2.

Lemma set_two_values_spec : v_two v = true -> sep = false -> comp = false -> zlen d <= JET_cbColumnMost ->
  let v' := if has_inst (v_insts v) itag then Value (v_long v) (if itag =? 1 then comp else v_compressed v) (v_encrypted v) (v_two v) (set_inst (v_insts v) (inst_index itag) (sep, d))
            else Value (v_long v) (v_compressed v) (v_encrypted v) false (v_insts v ++ [(sep, d)]) in
  outcome v' (set_multi_value small most t (zlen l1) p itag d grbit).
Proof.
  intros T Sf Cf Lc v'. unfold JET_cbColumnMost in Lc. unfold set_multi_value. destruct (at_TWOVALUES small t l1 c l2 R V i j r E T) as (Et & Er & H0 & Li & Lj). fold p in H0, Et. fold v in H0.
  pose proof (at_two small t l1 c l2 R i j r E) as Tw. fold p in Tw. unfold p. fold p. rewrite Tw. fold v. rewrite T. rewrite Et. cbn [CbFirstValue CbSecondValue].
  destruct (vo_two _ _ V T) as (Sm & Lf & _). destruct (vo_short _ _ V Lf) as (Cv & _ & F). fold v in Cv, Lf, F. rewrite E in F. apply Forall_cons_iff in F as [[Si _] F]. apply Forall_cons_iff in F as [[Sj _] _].
  rewrite Er in E. unfold v'. rewrite E, Sf, Cf, T, Cv. clear v'. pose proof (zlen_nonneg d) as Zd. pose proof (zlen_nonneg (idata i)) as Zi. pose proof (zlen_nonneg (idata j)) as Zj.
  assert (Dv : v_data small v = tv_bytes (v_header v false true true false) (idata i) (idata j)) by (unfold v_data; now rewrite E, T).
  destruct (Z.eq_dec itag 1) as [->|N1]; [|destruct (Z.eq_dec itag 2) as [->|N2]].
  - change (has_inst [i; j] 1) with true. cbn [Z.eqb Pos.eqb orb set_inst inst_index firstn skipn app Z.to_nat Z.sub Z.add Z.opp Z.pos_sub Pos.pred_double].
    set (v' := Value (v_long v) false (v_encrypted v) true [(false, d); j]).
    assert (Dv' : v_data small v' = tv_bytes (v_header v false true true false) d (idata j)) by (unfold v_data; cbn [v' v_insts v_two]; unfold v_header; cbn [v' v_long v_compressed v_encrypted]; now rewrite Cv).
    change (set_inst [i; j] (inst_index 1) (false, d)) with [(false, d); j]. fold v'.
    apply (outcome_update v' (fun m => TWOVALUES_UpdateInstance m (Twovalues p (zlen (idata i)) (zlen (idata j))) 1 d)).
    + unfold v_ext. rewrite E. reflexivity.
    + unfold v_null. rewrite E. reflexivity.
    + unfold grow. rewrite Dv, Dv', !zlen_tv_bytes. rewrite Cb_zlen. lia.
    + rewrite Cb_zlen. lia.
    + intros _ m1 Hm1 H1. rewrite Dv in H1. rewrite Dv, Dv'. apply TWOVALUES_UpdateInstance_1; [exact Hm1|exact H1|exact Hd|lia].
  - change (has_inst [i; j] 2) with true. change (set_inst [i; j] (inst_index 2) (false, d)) with [i; (false, d)]. cbn [Z.eqb Pos.eqb orb].
    set (v' := Value (v_long v) false (v_encrypted v) true [i; (false, d)]).
    assert (Dv' : v_data small v' = tv_bytes (v_header v false true true false) (idata i) d) by (unfold v_data; cbn [v' v_insts v_two]; unfold v_header; cbn [v' v_long v_compressed v_encrypted]; now rewrite Cv).
    apply (outcome_update v' (fun m => TWOVALUES_UpdateInstance m (Twovalues p (zlen (idata i)) (zlen (idata j))) 2 d)).
    + unfold v_ext. rewrite E. reflexivity.
    + unfold v_null. rewrite E. reflexivity.
    + unfold grow. rewrite Dv, Dv', !zlen_tv_bytes. rewrite Cb_zlen. lia.
    + rewrite Cb_zlen. lia.
    + intros _ m1 Hm1 H1. rewrite Dv in H1. rewrite Dv, Dv'. apply TWOVALUES_UpdateInstance_2; [exact Hm1|exact H1|exact Hd].
  - assert (Hn : has_inst [i; j] itag = false) by (unfold has_inst; change (zlen [i; j]) with 2; apply andb_false_iff; rewrite !Z.leb_gt; lia). rewrite Hn.
    rewrite (proj2 (Z.eqb_neq 1 itag)), (proj2 (Z.eqb_neq 2 itag)) by lia. cbn [orb]. change ([i; j] ++ [(false, d)]) with [i; j; (false, d)].
    assert (Ii : i = (false, idata i)) by (rewrite (surjective_pairing i) at 1; unfold isep in Si; now rewrite Si). assert (Ij : j = (false, idata j)) by (rewrite (surjective_pairing j) at 1; unfold isep in Sj; now rewrite Sj).
    set (v' := Value (v_long v) false (v_encrypted v) false [i; j; (false, d)]).
    assert (Dv' : v_data small v' = v_header v false true false false :: mv_bytes [(false, idata i); (false, idata j); (false, d)]) by (unfold v_data; cbn [v' v_insts v_two]; unfold v_header; cbn [v' v_long v_compressed v_encrypted]; rewrite Cv, <- Ii, <- Ij; reflexivity).
    assert (Lv' : zlen (v_data small v') = 7 + zlen (idata i) + zlen (idata j) + zlen d) by (rewrite Dv', zlen_cons, zlen_mv_bytes, !mv_size_cons; cbn [idata snd]; change (mv_size []) with 0; unfold idata; lia).
    apply outcome_intro.
    + unfold grow. rewrite Lv', Dv, zlen_tv_bytes. change (Cb d) with (zlen d). unfold sizeof_MVOFFSET, sizeof_TVLENGTH. lia.
    + rewrite Cb_zlen. unfold sizeof_MVOFFSET, sizeof_TVLENGTH. lia.
    + intros Fit. assert (Eg : Cb d + (3 * sizeof_MVOFFSET - sizeof_TVLENGTH) = zlen (v_data small v') - zlen (e_data e)).
      { change (e_data e) with (v_data small v). rewrite Lv', Dv, zlen_tv_bytes. change (Cb d) with (zlen d). unfold sizeof_MVOFFSET, sizeof_TVLENGTH. lia. }
      rewrite Eg. assert (Ee : set_data e (v_data small v') = entry_of small (set_val c v')).
      { apply entry_same_word; try reflexivity; cbn [entry_of set_val set_data e_ext e_null c_val e]; fold v; unfold v_ext, v_null; rewrite E; reflexivity. }
      set (f := fun m => tf_m (ConvertTwoValuesToMultiValues (with_mem t m) (Twovalues p (zlen (idata i)) (zlen (idata j))) d)).
      pose proof (update_grow small t l1 e l2 (v_data small v') f R) as U. cbn zeta in U. rewrite Ee in U. fold (with_value v') in U. eapply moved_weaken; [apply U; [exact Fit|rewrite <- Eg; change (Cb d) with (zlen d); unfold sizeof_MVOFFSET, sizeof_TVLENGTH; lia|]|lia].
      intros m1 Hm1 H1. change (e_data e) with (v_data small v) in H1. rewrite Dv in H1.
      destruct (ConvertTwoValuesToMultiValues_spec (with_mem t m1) (at_pb small t l1 c l2) _ (idata i) (idata j) d Hm1 H1 Hd Li Lj) as (m' & Em & Hm' & H' & S').
      unfold f. fold p in Em. rewrite Em. cbn [with_mem tf_m]. cbn [with_mem tf_m] in S'. unfold v_header in H'. rewrite hdr_Reset_TwoValues in H'. fold (v_header v false true false false) in H'. rewrite <- Dv' in H'.
      split; [exact Hm'|]. split; [exact H'|]. replace (zlen (v_data small v')) with (1 + mv_size [(false, idata i); (false, idata j); (false, d)]) by (rewrite Dv', zlen_cons, zlen_mv_bytes; reflexivity). rewrite Z.add_assoc. exact S'.
Qed.

Lemma set_several_values_spec : v_two v = false -> (v_long v = false -> sep = false /\ comp = false) ->
  let rr := set_multi_value small most t (zlen l1) p itag d grbit in
  if negb (itag =? 1) && comp then rr = (errRECCompressionNotPossible, t)
  else outcome (if has_inst (v_insts v) itag then Value (v_long v) (if itag =? 1 then comp else v_compressed v) (v_encrypted v) (v_two v) (set_inst (v_insts v) (inst_index itag) (sep, d))
                else Value (v_long v) (v_compressed v) (v_encrypted v) false (v_insts v ++ [(sep, d)])) rr.
Proof.
  intros T Hs rr. subst rr. unfold set_multi_value. destruct (at_MULTIVALUES small t l1 c l2 R i j r E T) as (Et & MV & H0). fold v p in Et, MV, H0. fold v in Et, MV, H0. set (k := v_insts v) in *.
  pose proof (at_two small t l1 c l2 R i j r E) as Tw. fold p v in Tw. rewrite Tw, T, Et. cbn [CMultiValues]. rewrite (Z.eqb_sym 1 itag). fold comp sep. destruct (negb (itag =? 1) && comp) eqn:Nc; [reflexivity|].
  rewrite has_inst_neg by exact Hi. pose proof (zlen_nonneg d) as Zd. pose proof (maskIb_range small) as M. set (mv := Multivalues p (mv_size k) (zlen k)) in *. set (b := v_header v false true false false) in *.
  assert (Nk : 1 < zlen k) by (rewrite E, !zlen_cons; pose proof (zlen_nonneg r); lia).
  assert (Dk : forall v0, 1 < zlen (v_insts v0) -> v_two v0 = false -> v_data small v0 = v_header v0 false true false false :: mv_bytes (v_insts v0)).
  { intros v0 N0 T0. unfold v_data. destruct (v_insts v0) as [|i0 [|j0 r0]]; [rewrite zlen_nil in N0; lia|rewrite zlen_cons, zlen_nil in N0; lia|]. now rewrite T0. }
  assert (Xk : forall v0, 1 < zlen (v_insts v0) -> v_ext v0 = v_ext v /\ v_null v0 = v_null v).
  { intros v0 N0. unfold v_ext, v_null. fold k. destruct k as [|i1 [|j1 r1]]; [rewrite zlen_nil in Nk; lia|rewrite zlen_cons, zlen_nil in Nk; lia|].
    destruct (v_insts v0) as [|i0 [|j0 r0]]; [rewrite zlen_nil in N0; lia|rewrite zlen_cons, zlen_nil in N0; lia|]. now split. }
  assert (Dv : v_data small v = b :: mv_bytes k) by (apply Dk; assumption). pose proof (mvr_fit _ _ _ MV) as Fk.
  destruct (has_inst k itag) eqn:Hn; cbn [negb].
  - destruct (inst_split k itag Hn) as (k1 & x & k2 & Ek & Ei & Et2). rewrite Ei. set (v' := Value _ _ _ _ _). assert (Ik : v_insts v' = k1 ++ (sep, d) :: k2) by (cbn [v' v_insts]; rewrite Ek; apply set_inst_app).
    assert (Lk : zlen (k1 ++ (sep, d) :: k2) = zlen k) by (rewrite Ek; zl). assert (Nv' : 1 < zlen (v_insts v')) by (rewrite Ik, Lk; exact Nk). destruct (Xk v' Nv') as [X1 X2].
    rewrite Et2. replace (zlen k1 + 1 - 1) with (zlen k1) by lia. rewrite Ek in MV. rewrite (mv_at_CbData (tf_m t) mv k1 x k2 MV). rewrite Cb_zlen. rewrite <- Ek in MV.
    assert (Sx : mv_size (k1 ++ (sep, d) :: k2) = mv_size k + (zlen d - zlen (idata x))) by (rewrite Ek, !mv_size_app, !mv_size_cons; cbn [idata snd]; unfold idata; lia).
    assert (Dv' : v_data small v' = v_header v' false true false false :: mv_bytes (k1 ++ (sep, d) :: k2)) by (rewrite (Dk v' Nv' eq_refl), Ik; reflexivity).
    pose proof (mv_size_nonneg k1) as Zk1. assert (Kx : zlen (idata x) <= mv_size k) by (rewrite Ek, mv_size_app, mv_size_cons; pose proof (mv_size_nonneg k2); lia).
    pose proof (zlen_nonneg (idata x)) as Zx. rewrite s32_small by lia. rewrite <- Et2.
    apply (outcome_update v' (fun m => fst (MULTIVALUES_UpdateInstance m mv itag d sep comp)) _ X1 X2).
    + unfold grow. rewrite Dv, Dv', !zlen_cons, !zlen_mv_bytes. lia.
    + lia.
    + intros Fit m1 Hm1 H1. fold p in H1 |- *. rewrite Dv in H1. destruct (mvrep_of m1 p b k Hm1 H1 Fk) as [MV1 Hb]. fold mv in MV1. rewrite Ek in MV1.
      pose proof (fit_data v' Fit) as Fd. rewrite Dv', zlen_cons, zlen_mv_bytes in Fd.
      destruct (MULTIVALUES_UpdateInstance_spec m1 mv k1 x k2 sep comp d MV1 Hd ltac:(lia)) as (Hm2 & H2 & S2). rewrite <- Et2 in Hm2, H2, S2. change (mv_pheader mv) with p in H2, S2. rewrite Hb in H2.
      split; [exact Hm2|]. split.
      * rewrite Dv'. replace (v_header v' false true false false) with (first_header k1 (TAGFLD_HEADER.Assign_ comp TAGFLD_HEADER.fCompressed) b); [exact H2|].
        unfold b, v_header. cbn [v' v_long v_compressed v_encrypted]. destruct k1 as [|k0 k1]; cbn [first_header].
        -- rewrite hdr_Assign_Compressed, Et2. reflexivity.
        -- rewrite (proj2 (Z.eqb_neq itag 1)) by zl. reflexivity.
      * rewrite Dv, Dv', !zlen_cons, !zlen_mv_bytes, Ek. eapply same_outside_weaken; [exact S2|lia|lia].
  - set (v' := Value _ _ _ _ _). assert (Nv' : 1 < zlen (v_insts v')) by (cbn [v' v_insts]; unfold zlen in *; rewrite length_app; unfold INST in *; lia). destruct (Xk v' Nv') as [X1 X2].
    assert (Sx : mv_size (k ++ [(sep, d)]) = mv_size k + (2 + zlen d)) by (rewrite mv_size_app, mv_size_cons; change (mv_size []) with 0; change (idata (sep, d)) with d; lia).
    assert (Dv' : v_data small v' = b :: mv_bytes (k ++ [(sep, d)])) by (rewrite (Dk v' Nv' eq_refl); reflexivity).
    pose proof (outcome_update v' (fun m => fst (AddInstance m mv d sep)) (Cb d + sizeof_MVOFFSET) X1 X2) as U. rewrite (proj2 (Z.ltb_lt 0 (Cb d + sizeof_MVOFFSET))), (proj2 (Z.ltb_ge (Cb d + sizeof_MVOFFSET) 0)) in U by (rewrite Cb_zlen; unfold sizeof_MVOFFSET; lia).
    apply U; clear U.
    + unfold grow. rewrite Dv, Dv', !zlen_cons, !zlen_mv_bytes, Cb_zlen. unfold sizeof_MVOFFSET. lia.
    + rewrite Cb_zlen. unfold sizeof_MVOFFSET. lia.
    + intros Fit m1 Hm1 H1. fold p in H1 |- *. rewrite Dv in H1. destruct (mvrep_of m1 p b k Hm1 H1 Fk) as [MV1 Hb]. fold mv in MV1.
      pose proof (fit_data v' Fit) as Fd. rewrite Dv', zlen_cons, zlen_mv_bytes in Fd.
      destruct (AddInstance_spec m1 mv k sep d MV1 ltac:(lia) ltac:(lia) Hd) as (Hm2 & H2 & S2). change (mv_rgmvoffs mv) with (p + 1) in H2, S2.
      split; [exact Hm2|]. split.
      * rewrite Dv', holds_cons. split; [rewrite S2 by lia; exact Hb|exact H2].
      * rewrite Dv, Dv', !zlen_cons, !zlen_mv_bytes. eapply same_outside_weaken; [exact S2|lia|lia].
Qed.
End Several.

(** ** A value is taken away *)

Lemma with_value_same : with_value v = l.
Proof. unfold with_value, l, e, v. now destruct c. Qed.

Lemma updated_moved v' t1 k : moved small (size l) t t1 (with_value v') -> k = zlen (v_data small v) - zlen (v_data small v') -> updated (size l) t (DeltaCb t1 (- k)) (with_value v').
Proof. intros Mv ->. apply (moved_DeltaCb _ _ _ _ _ _ Mv); [lia|]. rewrite size_with_value, (rep_cb _ _ _ R). unfold grow. fold e l. lia. Qed.

Lemma updated_same : updated (size l) t (DeltaCb t (- 0)) (with_value v).
Proof. apply updated_moved; [|lia]. rewrite with_value_same. apply moved_refl, R. Qed.

Section SeveralNull.
Variables (i j : INST) (r : list INST) (pfield : FIELD) (itag grbit : Z).
Hypothesis E : v_insts v = i :: j :: r.
Hypothesis Hi : 0 <= itag.
Let p := at_pb small t l1 c l2.

Definition removed_value : VALUE := Value (v_long v) (if itag =? 1 then false else v_compressed v) (v_encrypted v) false (remove_inst (v_insts v) (inst_index itag)).

Lemma null_two_values : v_two v = true -> has_inst (v_insts v) itag = true ->
  let q := CbConvertTwoValuesToSingleValue small t (zlen l1) itag in updated (size l) t (DeltaCb (fst q) (- snd q)) (with_value removed_value).
Proof.
  intros T Hn q. destruct (at_TWOVALUES small t l1 c l2 R V i j r E T) as (_ & Er & _ & _ & Lj). destruct (vo_two _ _ V T) as (Sm & Lf & _). destruct (vo_short _ _ V Lf) as (Cv & _ & _). fold v in Cv, Lf.
  assert (Dv : v_data small v = tv_bytes (v_header v false true true false) (idata i) (idata j)) by (unfold v_data; now rewrite E, T).
  set (first := itag =? 1). assert (It : itag = if first then 1 else 2).
  { unfold has_inst in Hn. rewrite E, Er in Hn. change (zlen [i; j]) with 2 in Hn. rewrite andb_true_iff, !Z.leb_le in Hn. unfold first. destruct (Z.eqb_spec itag 1); lia. }
  destruct (CbConvertTwoValuesToSingleValue_spec small t l1 e l2 _ (idata i) (idata j) first Sm R Dv Lj) as [Mv Eq]. rewrite <- It in Mv, Eq. fold q in Mv, Eq.
  assert (Dv' : v_data small removed_value = if first then idata j else idata i).
  { unfold v_data, removed_value. cbn [v_insts v_long]. rewrite E, Er, It. destruct first; [change (remove_inst [i; j] (inst_index 1)) with [j]|change (remove_inst [i; j] (inst_index 2)) with [i]]; cbn beta iota; rewrite Sm, Lf; reflexivity. }
  apply updated_moved.
  - unfold with_value. replace (entry_of small (set_val c removed_value)) with (set_data (set_flags e false (e_null e)) (if first then idata j else idata i)); [exact Mv|].
    apply entry_same_word; try reflexivity; cbn [entry_of set_val set_data set_flags e_ext e_null e_data c_val e]; [|fold v|now symmetry].
    + unfold v_ext, removed_value. cbn [v_insts v_long]. rewrite E, Er, It. destruct first; [change (remove_inst [i; j] (inst_index 1)) with [j]|change (remove_inst [i; j] (inst_index 2)) with [i]]; cbn beta iota; rewrite Lf; now destruct small.
    + unfold v_null, removed_value. cbn [v_insts]. rewrite E, Er, It. destruct first; reflexivity.
  - rewrite Eq. change (e_data e) with (v_data small v). cbn [set_data e_data]. now rewrite Dv'.
Qed.

Lemma null_several_values : v_two v = false -> has_inst (v_insts v) itag = true ->
  let q := CbDeleteMultiValue small t (zlen l1) itag in updated (size l) t (DeltaCb (fst q) (- snd q)) (with_value removed_value).
Proof.
  intros T Hn q. assert (Dv : v_data small v = v_header v false true false false :: mv_bytes (v_insts v)) by (unfold v_data; now rewrite E, T).
  destruct (inst_split _ itag Hn) as (k1 & x & k2 & Ek & Ei & Et). assert (Rm : remove_inst (v_insts v) (inst_index itag) = k1 ++ k2) by (rewrite Ei, Ek; apply remove_inst_app).
  assert (Nk : zlen (v_insts v) = 2 + zlen r) by (rewrite E, !zlen_cons; lia). pose proof (zlen_nonneg r) as Zr. set (b := v_header v false true false false) in *.
  assert (F1 : forall g bb, first_header k1 g bb = if itag =? 1 then g bb else bb) by (intros g bb; rewrite Et; destruct k1 as [|k0 k1]; [reflexivity|]; cbn [first_header]; now rewrite (proj2 (Z.eqb_neq _ 1)) by zl).
  destruct (Z.eq_dec (zlen r) 0) as [Er|Er].
  - assert (X : exists y j1 j2, k1 ++ k2 = [y] /\ v_insts v = j1 ++ y :: j2 /\ zlen k1 + 1 = 2 - zlen j1).
    { rewrite Ek in Nk. destruct k1 as [|y k1].
      - destruct k2 as [|y [|z k2]]; [exfalso; revert Nk; cbn [app]; repeat rewrite ?zlen_cons, ?zlen_app, ?zlen_nil; pose_zlen; lia| |exfalso; revert Nk; cbn [app]; repeat rewrite ?zlen_cons, ?zlen_app, ?zlen_nil; pose_zlen; lia]. exists y, [x], []. cbn [app] in *. split; [reflexivity|]. split; [exact Ek|zl].
      - destruct k1; [|exfalso; revert Nk; cbn [app]; repeat rewrite ?zlen_cons, ?zlen_app, ?zlen_nil; pose_zlen; lia]. destruct k2; [|exfalso; revert Nk; cbn [app]; repeat rewrite ?zlen_cons, ?zlen_app, ?zlen_nil; pose_zlen; lia]. exists y, [], [x]. cbn [app] in *. split; [reflexivity|]. split; [exact Ek|zl]. }
    destruct X as (y & j1 & j2 & Ey & Ej & Lj). rewrite Ej in Dv.
    destruct (delete_one_of_two small t l1 e l2 b k1 j1 y j2 R Dv) as [Mv Eq]; [rewrite <- Ej; lia|exact Lj|]. rewrite <- Et in Mv, Eq. fold q in Mv, Eq.
    assert (Eb : b = hdr (v_long v) (v_compressed v) false true false false (v_encrypted v)) by reflexivity.
    assert (Ir : v_insts removed_value = [y]) by (unfold removed_value; cbn [v_insts]; rewrite Rm; exact Ey).
    assert (Ee : mv_removed small e b k1 [y] = entry_of small (set_val c removed_value)).
    { unfold mv_removed. rewrite Eb, hdr_Reset_MultiValues. unfold FNeedExtendedInfo. rewrite hdr_zero, !orb_false_r, negb_involutive, F1.
      assert (Xn : negb small || (v_long v || v_compressed v || v_encrypted v) = negb (small && negb (v_long v))).
      { destruct (v_long v) eqn:Lf; [destruct small; reflexivity|]. destruct (vo_short _ _ V Lf) as (Cf & Ef & _). fold v in Cf, Ef. rewrite Cf, Ef. now destruct small. }
      rewrite Xn. apply entry_same_word; destruct (small && negb (v_long v)) eqn:Sl; cbn [negb]; try reflexivity; cbn [entry_of set_val set_data set_flags e_ext e_null e_data c_val e].
      - unfold v_ext. rewrite Ir. cbn [removed_value v_long]. destruct small, (v_long v); try discriminate Sl; reflexivity.
      - unfold v_ext. rewrite Ir. fold v. rewrite E. cbn [removed_value v_long]. destruct small, (v_long v); try discriminate Sl; reflexivity.
      - unfold v_null. rewrite Ir. fold v. now rewrite E.
      - unfold v_null. rewrite Ir. fold v. now rewrite E.
      - unfold v_data. rewrite Ir. cbn [removed_value v_long]. now rewrite Sl.
      - unfold v_data. rewrite Ir. cbn [removed_value v_long]. rewrite Sl. unfold v_header. cbn [removed_value v_long v_compressed v_encrypted]. f_equal.
        destruct (itag =? 1); rewrite ?hdr_Reset_Compressed, hdr_Assign_Separated; reflexivity. }
    rewrite Ee in Mv, Eq. apply updated_moved; [exact Mv|exact Eq].
  - rewrite Ek in Dv. destruct (delete_many small t l1 e l2 b k1 x k2 R Dv) as [Mv Eq]; [rewrite <- Ek; lia|]. rewrite <- Et in Mv, Eq. fold q in Mv, Eq.
    assert (Ir : v_insts removed_value = k1 ++ k2) by exact Rm. assert (N2 : 2 <= zlen (k1 ++ k2)) by (rewrite Ek in Nk; revert Nk; zl).
    assert (Ee : set_data e (first_header k1 (TAGFLD_HEADER.Reset_ TAGFLD_HEADER.fCompressed) b :: mv_bytes (k1 ++ k2)) = entry_of small (set_val c removed_value)).
    { apply entry_same_word; try reflexivity; cbn [entry_of set_val set_data e_ext e_null e_data c_val e]; fold v; unfold v_ext, v_null, v_data; rewrite Ir, ?E; (destruct (k1 ++ k2) as [|y [|z kk]] eqn:Ey; [exfalso; revert N2; repeat rewrite ?zlen_cons, ?zlen_nil; lia|exfalso; revert N2; repeat rewrite ?zlen_cons, ?zlen_nil; lia|]); try reflexivity.
      cbn [removed_value v_two]. f_equal. rewrite F1. unfold b, v_header. cbn [removed_value v_long v_compressed v_encrypted]. destruct (itag =? 1); rewrite ?hdr_Reset_Compressed; reflexivity. }
    rewrite Ee in Mv, Eq. apply updated_moved; [exact Mv|exact Eq].
Qed.

Lemma set_to_null_several : let default := FFIELDDefault (ffield pfield) in let revert := fbit grbit JET_bitSetRevertToDefaultValue in
  exists v', clear_value default revert itag v = Some v' /\ updated (size l) t (set_to_null small t (zlen l1) (Pheader small t (zlen l1)) pfield itag grbit) (with_value v').
Proof.
  intros default revert. unfold clear_value, set_to_null. rewrite E. pose proof (at_multi_spec small t l1 c l2 R) as M. unfold at_multi in M. fold v in M. rewrite E in M. fold p in M.
  rewrite M. pose proof (at_two small t l1 c l2 R i j r E) as Tw. fold p v in Tw. rewrite Tw, <- E. destruct (has_inst (v_insts v) itag) eqn:Hn.
  - exists removed_value. split; [reflexivity|]. destruct (v_two v) eqn:T.
    + pose proof (null_two_values T Hn) as U. cbn zeta in U. destruct (CbConvertTwoValuesToSingleValue small t (zlen l1) itag). exact U.
    + pose proof (null_several_values T Hn) as U. cbn zeta in U. destruct (CbDeleteMultiValue small t (zlen l1) itag). exact U.
  - exists v. split; [reflexivity|]. destruct (v_two v) eqn:T.
    + unfold CbConvertTwoValuesToSingleValue. destruct (vo_two _ _ V T) as (_ & _ & N2). fold v in N2. unfold has_inst in Hn. rewrite N2 in Hn. apply andb_false_iff in Hn. rewrite !Z.leb_gt in Hn.
      rewrite (proj2 (Z.eqb_neq 1 itag)), (proj2 (Z.eqb_neq 2 itag)) by lia. apply updated_same.
    + unfold CbDeleteMultiValue. destruct (at_MULTIVALUES small t l1 c l2 R i j r E T) as (Et & _). fold v in Et. rewrite Et. cbn [CMultiValues]. unfold has_inst in Hn.
      replace (0 <? itag) with (1 <=? itag) by (apply eq_true_iff_eq; rewrite Z.leb_le, Z.ltb_lt; lia). rewrite Hn. apply updated_same.
Qed.
End SeveralNull.

Lemma set_to_null_single pfield itag grbit i : v_insts v = [i] -> let default := FFIELDDefault (ffield pfield) in let revert := fbit grbit JET_bitSetRevertToDefaultValue in
  let t' := set_to_null small t (zlen l1) (Pheader small t (zlen l1)) pfield itag grbit in
  match clear_value default revert itag v with Some v' => updated (size l) t t' (with_value v') | None => updated (size l) t t' (l1 ++ l2) end.
Proof.
  intros E default revert t'. subst t'. unfold clear_value, set_to_null. rewrite E. pose proof (at_multi_spec small t l1 c l2 R) as M. unfold at_multi in M. fold v in M. rewrite E in M. rewrite M. rewrite (Z.eqb_sym 1 itag). fold default revert.
  destruct (itag =? 1); [|rewrite with_value_same; apply same_updated, R]. rewrite (at_CbData small t l1 e l2 R). change (e_data e) with (v_data small v).
  pose proof (zlen_single_data v i E) as Lv. pose proof (zlen_nonneg (idata i)) as Zi. pose proof (size_at l1 e l2) as Sa. change (e_data e) with (v_data small v) in Sa. pose proof (at_range small t l1 e l2 R) as (B1 & B2). change (e_data e) with (v_data small v) in B2.
  pose proof (maskIb_range small) as Mk. pose proof (zlen_nonneg (datas l2)) as Z2. destruct (default && negb revert).
  - set (v' := Value _ _ _ _ _). assert (Lc : cbTagHeaderDefault small <= zlen (v_data small v)) by (rewrite Lv; unfold cbTagHeaderDefault, sizeof_TAGFLD_HEADER; destruct small, (v_long v); cbn [negb andb]; lia).
    assert (Lv' : zlen (v_data small v') = cbTagHeaderDefault small) by (unfold v_data, cbTagHeaderDefault; cbn [v' v_insts]; destruct small; reflexivity).
    rewrite u32_small by (unfold cbTagHeaderDefault, sizeof_TAGFLD_HEADER in *; destruct small; lia). set (diff := zlen (v_data small v) - cbTagHeaderDefault small) in *. assert (Hc : 0 <= cbTagHeaderDefault small) by (unfold cbTagHeaderDefault, sizeof_TAGFLD_HEADER; destruct small; lia).
    destruct (resized t e (- diff) R) as (nd & Ln & Hh & Mv1); [change (e_data e) with (v_data small v); lia|fold l; pose proof (rep_fit _ _ _ R) as Fr; fold e l in Fr; lia|]. change (e_data e) with (v_data small v) in Ln, Hh.
    assert (Ln2 : zlen nd = cbTagHeaderDefault small) by (unfold diff in Ln; lia).
    assert (Er : (if - diff =? 0 then t else ResizeTagfld small t (zlen l1) (- diff)) = (if 0 <? diff then ResizeTagfld small t (zlen l1) (s32 (- diff)) else t)).
    { rewrite s32_small by lia. destruct (Z.eqb_spec (- diff) 0), (Z.ltb_spec 0 diff); try lia; reflexivity. }
    rewrite Er in Mv1. set (t1 := if 0 <? diff then _ else t) in *. fold l in Mv1. rewrite Z.max_l in Mv1 by lia. set (e1 := set_data e nd) in *. pose proof (moved_rep _ _ _ _ _ Mv1) as R1.
    assert (S1 : size (l1 ++ e1 :: l2) <= size l) by (unfold l; rewrite (size_entry l1 e e1 l2); change (e_data e1) with nd; change (e_data e) with (v_data small v); lia).
    apply updated_moved; [|rewrite Lv'; reflexivity]. eapply moved_trans; [exact Mv1|]. destruct (bool_dec small true) as [Sm|Sm].
    + match goal with |- context [if small then ?a else ?b] => replace (if small then a else b) with a by (rewrite Sm; reflexivity) end. pose proof (ResetFExtendedInfo_spec small t1 l1 e1 l2 Sm R1) as Mv2. eapply moved_trans; [eapply moved_weaken; [exact Mv2|exact S1]|].
      pose proof (set_null_spec small _ l1 _ l2 true (moved_rep _ _ _ _ _ Mv2) ltac:(rewrite Sm; discriminate)) as Mv3. cbn beta iota in Mv3.
      replace (null_entry small true (set_flags e1 false (e_null e1))) with (entry_of small (set_val c v')) in Mv3; [eapply moved_weaken; [exact Mv3|]|].
      * unfold l in *. rewrite !size_app, !size_cons in *. exact S1.
      * unfold null_entry. assert (nd = []) as Nd by (apply length_zero_iff_nil; unfold cbTagHeaderDefault in Ln2; rewrite Sm in Ln2; unfold zlen in Ln2; lia).
        apply entry_same_word; rewrite Sm; try reflexivity. cbn [set_flags e_data e1 set_data]. rewrite Nd. reflexivity.
    + apply not_true_is_false in Sm. match goal with |- context [if small then ?a else ?b] => replace (if small then a else b) with b by (rewrite Sm; reflexivity) end. assert (Dv : v_data small v = v_header v (isep i) false false false :: idata i) by (unfold v_data; rewrite E, Sm; reflexivity).
      destruct (Hh _ _ Dv) as (r' & Nd); [unfold diff, cbTagHeaderDefault, sizeof_TAGFLD_HEADER; rewrite Sm; lia|]. assert (r' = []) as Nr.
      { apply length_zero_iff_nil. rewrite Nd, zlen_cons in Ln2. unfold cbTagHeaderDefault, sizeof_TAGFLD_HEADER in Ln2. rewrite Sm in Ln2. unfold zlen in Ln2. lia. }
      rewrite Nr in Nd. rewrite (at_Pheader small t l1 e l2 R). replace (negb small || e_ext e) with true by (now rewrite Sm). set (pb := m_rgtagfld t + _). unfold e1 in Mv1. rewrite Nd in Mv1.
      pose proof (moved_header small _ t t1 l1 e l2 _ _ Mv1) as Hd1. fold pb in Hd1. rewrite Hd1.
      assert (Rr : 0 <= TAGFLD_HEADER.Reset_ TAGFLD_HEADER.fSeparated (v_header v (isep i) false false false) < 256) by (apply Reset_range; [unfold TAGFLD_HEADER.fSeparated; lia|apply v_header_range]).
      pose proof (set_header_spec small t1 l1 e1 l2 _ _ [] R1 Nd Rr) as Mv2. rewrite (moved_rg _ _ _ _ _ Mv1), zlen_set_entry with (e := e) in Mv2. fold pb in Mv2.
      eapply moved_trans; [eapply moved_weaken; [exact Mv2|exact S1]|]. pose proof (set_null_spec small _ l1 _ l2 true (moved_rep _ _ _ _ _ Mv2) ltac:(discriminate)) as Mv3. cbn beta iota in Mv3.
      replace (null_entry small true (set_data e1 [TAGFLD_HEADER.Reset_ TAGFLD_HEADER.fSeparated (v_header v (isep i) false false false)])) with (entry_of small (set_val c v')) in Mv3; [eapply moved_weaken; [exact Mv3|]|].
      * unfold l in *. rewrite !size_app, !size_cons in *. change (e_data e1) with nd in S1. rewrite Nd in S1. cbn [set_data e_data]. rewrite zlen_cons in S1 |- *. exact S1.
      * unfold null_entry. rewrite Sm. cbn [set_data e_data]. unfold v_header. rewrite hdr_Reset_Separated, hdr_Assign_Null. apply entry_same_word; rewrite ?Sm; try reflexivity; cbn [e1 set_data e_ext e_null e entry_of]; now rewrite Sm.
  - pose proof (DeleteTagfld_spec small t l1 e l2 R) as Mv. apply (moved_DeltaCb _ _ _ _ _ _ Mv); [fold l; lia|]. rewrite (rep_cb _ _ _ R). fold e. rewrite !size_app, !size_cons. unfold sizeof_TAGFLD. change (e_data e) with (v_data small v). lia.
Qed.

Lemma delete_null : v_insts v = [] -> updated (size l) t (DeltaCb (DeleteTagfld small t (zlen l1)) (- sizeof_TAGFLD - cbTagHeaderDefault small)) (l1 ++ l2).
Proof.
  intros E. pose proof (DeleteTagfld_spec small t l1 e l2 R) as Mv. apply (moved_DeltaCb _ _ _ _ _ _ Mv); [fold l; lia|]. rewrite (rep_cb _ _ _ R). fold e. rewrite !size_app, !size_cons. unfold sizeof_TAGFLD. change (e_data e) with (v_data small v).
  unfold v_data, cbTagHeaderDefault, sizeof_TAGFLD_HEADER. rewrite E. destruct small; [change (zlen []) with 0|change (zlen [v_header v false false false true]) with 1]; lia.
Qed.
End One.

(** ** A new column *)

Lemma new_word (x nl derived : bool) fid d : 
  let w := Z.lor (Z.lor (if derived then 0x8000 else 0) (if x then 0x4000 else 0)) (if nl then 0x2000 else 0) in
  let e := Entry fid derived (small && x) (small && nl) d in
  0 <= fid < 65536 -> bytes_ok d -> (small = false -> x = false) ->
  entry_ok small e /\ (forall ib, 0 <= ib <= maskIb small -> SetIb small w ib = e_word e + ib) /\ FExtendedInfo small (Tagfld fid w) = negb small || e_ext e /\ fbit w fNullSmallPage = nl.
Proof.
  intros w e Hf Hd Hx. assert (He : entry_ok small e) by (split; [exact Hf|]; split; [exact Hd|]; intros ->; now split). split; [exact He|].
  assert (Ew : w = e_word e + (if negb small && nl then 0x2000 else 0)).
  { unfold w, e_word, e. cbn [e_derived e_ext e_null]. destruct (bool_dec small true) as [S|S]; [rewrite S; destruct x, nl, derived; reflexivity|]. apply not_true_is_false in S. rewrite S, (Hx S). destruct nl, derived; reflexivity. }
  split; [|split].
  - intros ib Hib. rewrite Ew. apply word_SetIb; [exact He| |exact Hib]. unfold maskIb. destruct small, nl; cbn [negb andb]; lia.
  - unfold FExtendedInfo, fbit, fExtendedInfo, w, e. cbn [m_ib e_ext]. destruct (bool_dec small true) as [S|S]; [rewrite S; destruct x, nl, derived; reflexivity|]. apply not_true_is_false in S. now rewrite S.
  - unfold w, fbit, fNullSmallPage. destruct x, nl, derived; reflexivity.
Qed.

Lemma insert_new most t l1 l2 fid (derived : bool) v w pd c0 sep : rep small t (l1 ++ l2) -> room most t -> 0 <= fid < 65536 -> val_ok small v -> v_long v = FRECLongValue c0 ->
  v_insts v = match pd with Some d => [(sep, d)] | None => [] end -> (pd = None -> sep = false) ->
  match pd with Some d => bytes_ok d | None => True end ->
  let nl := v_null v in let x := small && v_ext v in
  w = Z.lor (Z.lor (if derived then 0x8000 else 0) (if x then 0x4000 else 0)) (if nl then 0x2000 else 0) ->
  let l' := l1 ++ entry_of small (Column fid derived v) :: l2 in let k := zlen (v_data small v) in
  let r := if most <? dataWorkBuf_Cb t + sizeof_TAGFLD + k then (JET_errRecordTooBig, t)
    else (JET_errSuccess, DeltaCb (InsertTagfld small t (zlen l1) (Tagfld fid w) pd c0 sep (v_compressed v) (v_encrypted v)) (sizeof_TAGFLD + k)) in
  if most <? dataWorkBuf_Cb t + (size l' - size (l1 ++ l2)) then r = (JET_errRecordTooBig, t) else fst r = JET_errSuccess /\ updated (size l') t (snd r) l'.
Proof.
  intros R W Hf V Lg Ei Es Hpd nl x Ew l' k r. assert (Sz : size l' = size (l1 ++ l2) + (4 + k)) by (unfold l'; rewrite !size_app, size_cons; cbn [entry_of e_data c_val]; unfold k; lia).
  subst r. unfold sizeof_TAGFLD. replace (dataWorkBuf_Cb t + 4 + k) with (dataWorkBuf_Cb t + (size l' - size (l1 ++ l2))) by lia.
  destruct (Z.ltb_spec most (dataWorkBuf_Cb t + (size l' - size (l1 ++ l2)))) as [L|L]; [reflexivity|]. split; [reflexivity|]. cbn [snd].
  assert (Bd : bytes_ok (v_data small v)).
  { unfold v_data. rewrite Ei. destruct pd as [d|]; [destruct (small && negb (v_long v)); [exact Hpd|apply Forall_cons; [apply v_header_range|exact Hpd]]|]. destruct small; [constructor|apply Forall_cons; [apply v_header_range|constructor]]. }
  destruct (new_word x nl derived fid (v_data small v) Hf Bd) as (He & Hw & Hx & Hn); [unfold x; now intros ->|]. rewrite <- Ew in Hw, Hx, Hn.
  assert (Ee : Entry fid derived (small && x) (small && nl) (v_data small v) = entry_of small (Column fid derived v)) by (unfold entry_of, x; cbn [c_fid c_derived c_val]; f_equal; now destruct small).
  rewrite Ee in *. pose proof (InsertTagfld_spec small t l1 (entry_of small (Column fid derived v)) l2 w pd c0 sep (v_compressed v) (v_encrypted v) R He) as I.
  assert (Fit : size l' <= maskIb small) by (destruct W as [W1 W2]; rewrite (rep_cb _ _ _ R) in W1; lia).
  eapply moved_DeltaCb; [apply I; [exact Fit|exact Hpd|exact Hw|exact Hx|]|apply Z.le_refl|rewrite (rep_cb _ _ _ R); fold l'; lia].
  cbn [entry_of e_data e_ext c_val]. rewrite Hn, TAGFLD_HEADER_new_hdr, <- Lg. unfold v_data, v_ext, nl, v_null. rewrite Ei. destruct pd as [d|].
  - unfold v_header. cbn [isep fst idata snd]. destruct small, (v_long v); reflexivity.
  - rewrite (Es eq_refl). unfold v_header. destruct small; reflexivity.
Qed.

(** ** Unique values *)

Lemma unique_loop_spec m mv k pfield d tr itag k2 : forall k1 j, k = k1 ++ k2 -> mvrep m mv k -> j = zlen k1 ->
  mv_unique_loop (length k2) m mv j pfield d itag tr = unique_error pfield d tr itag (j + 1) (map idata k2).
Proof.
  induction k2 as [|i k2 IH]; intros k1 j Ek R Ej; [reflexivity|]. cbn [length mv_unique_loop map unique_error]. subst j. rewrite Ek in R.
  rewrite (mv_at_PbData m mv k1 i k2 R), (mv_at_CbData m mv k1 i k2 R), (holds_load _ _ _ (mv_at_data m mv k1 i k2 R)).
  replace (if negb (itag =? zlen k1 + 1) then ErrRECICheckUnique pfield d (idata i) tr else JET_errSuccess) with (if itag =? zlen k1 + 1 then JET_errSuccess else ErrRECICheckUnique pfield d (idata i) tr) by (now destruct (itag =? zlen k1 + 1)).
  set (err := if itag =? zlen k1 + 1 then _ else _). destruct (err <? 0); [reflexivity|].
  apply (IH (k1 ++ [i])); [rewrite <- app_assoc; exact Ek|rewrite <- Ek in R; exact R|zl].
Qed.
End Set_.

(** * Tagged columns: setting a column refines the update of the list

    The checks of unique values, the values that are allowed, the order of the
    columns; put together, ErrSetColumn against its specification. *)

Section Refine.
Context `{Loc : NormLocale}.
Variable small : bool.

(** ** Unique values *)

Definition negative (err : Z) : Z := if err <? 0 then err else JET_errSuccess.

Lemma negative_idem err : negative (negative err) = negative err.
Proof. unfold negative. destruct (err <? 0) eqn:E; [now rewrite E|reflexivity]. Qed.

Lemma negative_test err (X : Type) (f : Z -> X) (x : X) : (if err <? 0 then f err else x) = (if negative err <? 0 then f (negative err) else x).
Proof. unfold negative. destruct (err <? 0) eqn:E; [now rewrite E|reflexivity]. Qed.

Lemma unique_error_negative pfield d tr itag l : forall j, negative (unique_error pfield d tr itag j l) = unique_error pfield d tr itag j l.
Proof.
  induction l as [|x l IH]; intros j; cbn [unique_error]; [reflexivity|]. cbn zeta. set (err := if itag =? j then _ else _).
  destruct (err <? 0) eqn:E; [unfold negative; now rewrite E|apply IH].
Qed.

Lemma check_unique_spec t l1 c l2 pfield d tr itag : rep small t (l1 ++ entry_of small c :: l2) -> val_ok small (c_val c) -> v_null (c_val c) = false ->
  negative (ErrCheckUniqueMultiValues small t pfield d (zlen l1) itag tr) = unique_error pfield d tr itag 1 (unique_view small (c_val c)).
Proof.
  intros R V N. unfold ErrCheckUniqueMultiValues. pose proof (at_multi_spec small t l1 c l2 R) as M. unfold at_multi in M. rewrite M. set (v := c_val c) in *. unfold unique_view. destruct (v_insts v) as [|i [|j r]] eqn:E.
  - unfold v_null in N. rewrite E in N. discriminate.
  - rewrite (at_PbData small t l1 _ l2 R), (at_CbData small t l1 _ l2 R). fold (at_pb small t l1 c l2). cbn [entry_of e_data]. fold v. pose proof (at_holds small t l1 c l2 R) as H. fold v in H. rewrite (holds_load _ _ _ H).
    unfold v_data. rewrite E. cbn [unique_error]. rewrite (Z.eqb_sym 1 itag). cbn zeta. destruct (itag =? 1); cbn [negb]; reflexivity.
  - rewrite (at_two small t l1 c l2 R i j r E). fold v. destruct (v_two v) eqn:T.
    + destruct (at_TWOVALUES small t l1 c l2 R V i j r E T) as (-> & -> & H & _). apply holds_tv in H as (_ & _ & H1 & H2). unfold TWOVALUES_ErrCheckUnique, tv_PbData. cbn [tv_pheader CbFirstValue CbSecondValue].
      unfold sizeof_TAGFLD_HEADER, sizeof_TVLENGTH. replace (at_pb small t l1 c l2 + 1 + 1) with (at_pb small t l1 c l2 + 2) by lia. rewrite (holds_load _ _ _ H1), (holds_load _ _ _ H2).
      cbn [map unique_error]. rewrite (Z.eqb_sym 1 itag), (Z.eqb_sym 2 itag). cbn zeta. change (1 + 1) with 2.
      destruct (itag =? 1); cbn [negb]; [change (JET_errSuccess <? 0) with false; cbn iota|destruct (ErrRECICheckUnique pfield d (idata i) tr <? 0) eqn:N1; [unfold negative; now rewrite N1|]];
        (destruct (itag =? 2); cbn [negb]; [reflexivity|destruct (ErrRECICheckUnique pfield d (idata j) tr <? 0) eqn:N2; [unfold negative; now rewrite N2|reflexivity]]).
    + destruct (at_MULTIVALUES small t l1 c l2 R i j r E T) as (-> & MV & _). fold v in MV |- *. unfold MULTIVALUES_ErrCheckUnique. cbn [CMultiValues]. rewrite length_zlen.
      rewrite (unique_loop_spec _ _ (v_insts v) pfield d tr itag (v_insts v) [] 0 eq_refl MV eq_refl), E. apply unique_error_negative.
Qed.

(** The check ErrSetColumn makes of a value for a column that exists. *)
Definition set_check (t : TAGFIELDS) (itagfld : Z) (pfield : FIELD) (itag grbit : Z) (d : list Z) : Z :=
  if fbit grbit (Z.lor JET_bitSetUniqueMultiValues JET_bitSetUniqueNormalizedMultiValues) && negb (FRECLongValue (coltyp pfield)) && negb (FNull small t itagfld) then
    if fbit grbit JET_bitSetUniqueNormalizedMultiValues then ErrCheckUniqueNormalizedMultiValues small t pfield d itagfld itag
    else ErrCheckUniqueMultiValues small t None d itagfld itag false
  else JET_errSuccess.

Lemma set_check_spec t l1 c l2 pfield itag grbit d : rep small t (l1 ++ entry_of small c :: l2) -> val_ok small (c_val c) ->
  negative (set_check t (zlen l1) pfield itag grbit d) = negative (check_unique small pfield itag grbit d (c_val c)).
Proof.
  intros R V. unfold set_check, check_unique. rewrite (at_FNull small t l1 c l2 R). destruct (fbit grbit _ && negb (FRECLongValue (coltyp pfield))); cbn [andb]; [|reflexivity].
  destruct (v_null (c_val c)) eqn:N; cbn [negb]; [reflexivity|]. destruct (fbit grbit JET_bitSetUniqueNormalizedMultiValues).
  - unfold ErrCheckUniqueNormalizedMultiValues. destruct (ErrFLDNormalizeTaggedData (coltyp pfield) (cp pfield) d false) as [[err norm] tr]. destruct (err <? 0); [reflexivity|].
    rewrite <- (check_unique_spec t l1 c l2 (Some pfield) norm tr itag R V N). change (negative (negative (ErrCheckUniqueMultiValues small t (Some pfield) norm (zlen l1) itag tr)) = negative (negative (ErrCheckUniqueMultiValues small t (Some pfield) norm (zlen l1) itag tr))). reflexivity.
  - rewrite <- (check_unique_spec t l1 c l2 None d false itag R V N). now rewrite negative_idem.
Qed.

(** ** The values that are allowed *)

Lemma Forall_cut {A} (P : A -> Prop) l k : Forall P l -> Forall P (firstn k l) /\ Forall P (skipn k l).
Proof. intros F. rewrite <- (firstn_skipn k l) in F. now apply Forall_app in F. Qed.
Lemma Forall_set_inst (P : INST -> Prop) l k x : Forall P l -> P x -> Forall P (set_inst l k x).
Proof. intros F Hx. unfold set_inst. apply Forall_app. split; [now apply Forall_cut|]. apply Forall_cons; [exact Hx|now apply Forall_cut]. Qed.
Lemma Forall_remove_inst (P : INST -> Prop) l k : Forall P l -> Forall P (remove_inst l k).
Proof. intros F. unfold remove_inst. apply Forall_app. split; [now apply Forall_cut|now apply Forall_cut]. Qed.

Lemma zlen_set_inst l itag x : has_inst l itag = true -> zlen (set_inst l (inst_index itag) x) = zlen l.
Proof. intros H. destruct (inst_split l itag H) as (k1 & i & k2 & -> & -> & _). rewrite set_inst_app. zl. Qed.

Definition inst_ok (lg : bool) (i : INST) : Prop := bytes_ok (idata i) /\ (lg = false -> isep i = false /\ zlen (idata i) <= JET_cbColumnMost).

Lemma val_ok_iff v : val_ok small v <-> Forall (inst_ok (v_long v)) (v_insts v) /\ (v_long v = false -> v_compressed v = false /\ v_encrypted v = false) /\
  (v_two v = true -> small = true /\ v_long v = false /\ zlen (v_insts v) = 2).
Proof.
  split.
  - intros [B S T]. split; [|split; [intros L; now destruct (S L) as (? & ? & _)|exact T]]. rewrite Forall_forall in B |- *. intros i Hi. split; [now apply B|]. intros L. destruct (S L) as (_ & _ & F). rewrite Forall_forall in F. now apply F.
  - intros (F & S & T). split; [|intros L; destruct (S L) as [S1 S2]; split; [exact S1|]; split; [exact S2|]|exact T]; (eapply Forall_impl; [|exact F]); intros i [H1 H2]; [exact H1|now apply H2].
Qed.

Lemma set_value_ok c0 itag d sep comp enc v v' : val_ok small v -> v_long v = FRECLongValue c0 -> inst_ok (FRECLongValue c0) (sep, d) -> (FRECLongValue c0 = false -> comp = false /\ enc = false) ->
  set_value small c0 itag d sep comp enc v = Some v' -> val_ok small v'.
Proof.
  rewrite !val_ok_iff. intros (F & S & T) Lg Hd Hc H. unfold set_value in H. rewrite <- Lg in *. destruct (v_insts v) as [|i [|j r]] eqn:E.
  - injection H as <-. cbn [v_insts v_long v_compressed v_encrypted v_two]. split; [apply Forall_cons; [exact Hd|constructor]|]. split; [exact Hc|discriminate].
  - destruct (itag =? 1).
    + injection H as <-. cbn [v_insts v_long v_compressed v_encrypted v_two]. split; [apply Forall_cons; [exact Hd|constructor]|]. split; [exact Hc|discriminate].
    + destruct comp; [discriminate|]. injection H as <-. cbn [v_insts v_long v_compressed v_encrypted v_two]. split; [apply Forall_app with (l1 := [i]); split; [exact F|apply Forall_cons; [exact Hd|constructor]]|]. split; [exact S|].
      rewrite andb_true_iff, negb_true_iff. intros [S1 S2]. split; [exact S1|]. split; [exact S2|reflexivity].
  - destruct (negb (itag =? 1) && comp); [discriminate|]. destruct (has_inst (i :: j :: r) itag) eqn:Hn; injection H as <-; cbn [v_insts v_long v_compressed v_encrypted v_two].
    + split; [now apply Forall_set_inst|]. split; [intros L; split; [destruct (itag =? 1); [now apply Hc|now apply S]|now apply S]|]. intros X. rewrite zlen_set_inst by exact Hn. now apply T.
    + split; [change (i :: j :: r ++ [(sep, d)]) with ((i :: j :: r) ++ [(sep, d)]); apply Forall_app; split; [exact F|apply Forall_cons; [exact Hd|constructor]]|]. split; [exact S|discriminate].
Qed.

Lemma clear_value_ok default revert itag v v' : val_ok small v -> clear_value default revert itag v = Some v' -> val_ok small v'.
Proof.
  intros V H. pose proof V as V0. rewrite val_ok_iff in V0. destruct V0 as (F & S & T). unfold clear_value in H. destruct (v_insts v) as [|i [|j r]] eqn:E.
  - destruct revert; [discriminate|]. now injection H as <-.
  - destruct (itag =? 1); [|now injection H as <-]. destruct (default && negb revert); [|discriminate]. injection H as <-. apply val_ok_iff. cbn [v_insts v_long v_compressed v_encrypted v_two]. split; [constructor|]. split; [exact S|discriminate].
  - destruct (has_inst _ itag) eqn:Hn; [|now injection H as <-]. injection H as <-. apply val_ok_iff. cbn [v_insts v_long v_compressed v_encrypted v_two]. split; [now apply Forall_remove_inst|]. split; [|discriminate].
    intros L. split; [destruct (itag =? 1); [reflexivity|now apply S]|now apply S].
Qed.

(** ** The order of the columns *)

Lemma put_col_Forall (P : COLUMN -> Prop) cs fid derived o : Forall P cs -> (forall v, o = Some v -> P (Column fid derived v)) -> (forall c v, P c -> o = Some v -> col_key c = column_key fid derived -> P (set_val c v)) ->
  Forall P (put_col cs fid derived o).
Proof.
  intros F Hn Hs. induction F as [|c cs Hc F IH]; cbn [put_col].
  - destruct o; [now repeat constructor; auto|constructor].
  - destruct (Z.eqb_spec (col_key c) (column_key fid derived)).
    + destruct o; [constructor; auto|exact F].
    + destruct (_ <? _); [destruct o; repeat constructor; auto|constructor; auto].
Qed.

Lemma put_col_sorted cs fid derived o : StronglySorted (fun c d => col_key c < col_key d) cs -> StronglySorted (fun c d => col_key c < col_key d) (put_col cs fid derived o).
Proof.
  intros S. induction S as [|c cs S IH F]; cbn [put_col].
  - destruct o; repeat constructor.
  - destruct (Z.eqb_spec (col_key c) (column_key fid derived)) as [E|E]; [destruct o; [now constructor|exact S]|].
    destruct (Z.ltb_spec (column_key fid derived) (col_key c)) as [L|L].
    + destruct o as [v|]; [|now constructor]. constructor; [now constructor|]. constructor; [exact L|]. eapply Forall_impl; [|exact F]. cbn beta. intros d. change (col_key (Column fid derived v)) with (column_key fid derived). lia.
    + constructor; [exact IH|]. apply put_col_Forall; [exact F| |].
      * intros v _. change (col_key (Column fid derived v)) with (column_key fid derived). lia.
      * intros d v H _ _. exact H.
Qed.

Lemma set_val_key c v : col_key (set_val c v) = col_key c.
Proof. reflexivity. Qed.

(** ** Finding the column *)

Lemma map_split cs k1 c k2 : cs = k1 ++ c :: k2 -> map (entry_of small) cs = map (entry_of small) k1 ++ entry_of small c :: map (entry_of small) k2.
Proof. intros ->. now rewrite map_app. Qed.

Lemma Forall_keys (P : Z -> Prop) cs : Forall (fun c => P (col_key c)) cs -> Forall (fun e => P (entry_key e)) (map (entry_of small) cs).
Proof. intros F. apply Forall_map. exact F. Qed.

Definition exists_at (t : TAGFIELDS) (itagfld fid : Z) (derived : bool) : bool := (itagfld <? CTaggedColumns t) && FIsEqual (Ptagfld t itagfld) fid derived.

Lemma find_present t k1 c k2 fid derived : rep small t (map (entry_of small) (k1 ++ c :: k2)) -> 0 <= fid < 65536 -> col_key c = column_key fid derived ->
  Forall (fun c => col_key c < column_key fid derived) k1 -> Forall (fun c => column_key fid derived < col_key c) k2 ->
  ItagfldFind t (TAGFLD_new fid derived) = zlen (map (entry_of small) k1) /\ exists_at t (zlen (map (entry_of small) k1)) fid derived = true.
Proof.
  intros R Hf K F1 F2. rewrite map_app in R. cbn [map] in R. split.
  - apply (ItagfldFind_spec small t _ _ fid derived R Hf); [now apply (Forall_keys (fun k => k < column_key fid derived))|].
    apply Forall_cons; [rewrite entry_key_of; lia|]. apply (Forall_keys (fun k => column_key fid derived <= k)). eapply Forall_impl; [|exact F2]. cbn beta. lia.
  - unfold exists_at. rewrite (rep_c _ _ _ R). destruct (at_words small t _ _ _ R) as [W Wk]. rewrite (FIsEqual_key _ _ _ W Hf), Wk, entry_key_of, K, Z.eqb_refl. rewrite andb_true_r. apply Z.ltb_lt. zl.
Qed.

Lemma find_absent t k1 k2 fid derived : rep small t (map (entry_of small) (k1 ++ k2)) -> 0 <= fid < 65536 ->
  Forall (fun c => col_key c < column_key fid derived) k1 -> Forall (fun c => column_key fid derived < col_key c) k2 ->
  ItagfldFind t (TAGFLD_new fid derived) = zlen (map (entry_of small) k1) /\ exists_at t (zlen (map (entry_of small) k1)) fid derived = false.
Proof.
  intros R Hf F1 F2. rewrite map_app in R. split.
  - apply (ItagfldFind_spec small t _ _ fid derived R Hf); [now apply (Forall_keys (fun k => k < column_key fid derived))|].
    apply (Forall_keys (fun k => column_key fid derived <= k)). eapply Forall_impl; [|exact F2]. cbn beta. lia.
  - unfold exists_at. rewrite (rep_c _ _ _ R). destruct k2 as [|c k2]; cbn [map] in *.
    + rewrite app_nil_r, Z.ltb_irrefl. reflexivity.
    + destruct (at_words small t _ _ _ R) as [W Wk]. rewrite (FIsEqual_key _ _ _ W Hf), Wk, entry_key_of. apply Forall_cons_iff in F2 as [L _]. rewrite (proj2 (Z.eqb_neq _ _)) by lia. apply andb_false_r.
Qed.

(** ** The refinement *)

(** The record [t'] holds the columns [cs'], where [t] was. *)
Definition refines (most : Z) (t : TAGFIELDS) (cs' : list COLUMN) (t' : TAGFIELDS) : Prop :=
  cols small t' cs' /\ room small most t' /\ m_rgtagfld t' = m_rgtagfld t /\ dataWorkBuf_Cb t' - CbTaggedColumns t' = dataWorkBuf_Cb t - CbTaggedColumns t /\
  same_outside (m_rgtagfld t) (m_rgtagfld t + (most - (dataWorkBuf_Cb t - CbTaggedColumns t))) (tf_m t) (tf_m t').

Lemma refines_refl most t cs : cols small t cs -> room small most t -> refines most t cs t.
Proof. intros C W. split; [exact C|]. split; [exact W|]. split; [reflexivity|]. split; [reflexivity|apply same_outside_refl]. Qed.

Lemma updated_refines most t t' cs cs' hi : cols small t cs -> room small most t -> updated small hi t t' (map (entry_of small) cs') -> Forall (col_ok small) cs' ->
  StronglySorted (fun c d => col_key c < col_key d) cs' -> dataWorkBuf_Cb t + (size (map (entry_of small) cs') - size (map (entry_of small) cs)) <= most ->
  hi <= Z.max (size (map (entry_of small) cs)) (size (map (entry_of small) cs')) -> refines most t cs' t'.
Proof.
  intros C [W1 W2] (R & E & D & S) Ok So Fit Hhi. pose proof (rep_cb _ _ _ (cols_rep _ _ _ C)) as Cb0. rewrite Cb0 in *. split; [now split|]. rewrite (rep_cb _ _ _ R) in *. pose proof (size_nonneg (map (entry_of small) cs)).
  split; [split; [rewrite (rep_cb _ _ _ R); lia|exact W2]|]. split; [exact E|]. split; [lia|]. eapply same_outside_weaken; [exact S|lia|lia].
Qed.

(** What a column is set to is an update of the list. *)
Lemma put_refines most t t' cs fid derived o hi : cols small t cs -> room small most t -> updated small hi t t' (map (entry_of small) (put_col cs fid derived o)) -> FTagged fid = true -> (forall v, o = Some v -> val_ok small v) ->
  dataWorkBuf_Cb t + (size (map (entry_of small) (put_col cs fid derived o)) - size (map (entry_of small) cs)) <= most ->
  hi <= Z.max (size (map (entry_of small) cs)) (size (map (entry_of small) (put_col cs fid derived o))) -> refines most t (put_col cs fid derived o) t'.
Proof.
  intros C W U T V Fit Hhi. apply (updated_refines most t t' cs _ hi C W U); [|apply put_col_sorted, C|exact Fit|exact Hhi].
  apply put_col_Forall; [apply C| |].
  - intros v Hv. split; [exact T|now apply V].
  - intros c v [Hc _] Hv _. split; [exact Hc|now apply V].
Qed.

Section SetColumn.
Variables (most : Z) (t : TAGFIELDS) (cs : list COLUMN) (pfield : FIELD) (fid itag : Z) (data : option (list Z)) (grbit : Z).
Hypothesis C : cols small t cs.
Hypothesis W : room small most t.
Hypothesis Ok : set_ok cs pfield fid itag data grbit.
Let derived := fbit grbit grbitSetColumnUseDerivedBit.
Let other := dataWorkBuf_Cb t - CbTaggedColumns t.

(** The result [r] of the code is that of the specification. *)
Definition agrees (r : Z * TAGFIELDS) (s : Z * list COLUMN) : Prop :=
  fst r = fst s /\ (fst s = JET_errSuccess \/ snd r = t /\ snd s = cs) /\ refines most t (snd s) (snd r).

Lemma agrees_error err : agrees (err, t) (err, cs).
Proof. split; [reflexivity|]. split; [right; now split|]. now apply refines_refl. Qed.

Lemma other_size : other + size (map (entry_of small) cs) = dataWorkBuf_Cb t.
Proof. unfold other. rewrite (rep_cb _ _ _ (cols_rep _ _ _ C)). lia. Qed.

(** From the update of the entries to that of the list. *)
Lemma agrees_put r o hi : FTagged fid = true -> (forall v, o = Some v -> val_ok small v) ->
  let l := map (entry_of small) cs in let l' := map (entry_of small) (put_col cs fid derived o) in hi <= Z.max (size l) (size l') ->
  (if most <? dataWorkBuf_Cb t + (size l' - size l) then r = (JET_errRecordTooBig, t) else fst r = JET_errSuccess /\ updated small hi t (snd r) l') ->
  agrees r (if most <? other + size l' then (JET_errRecordTooBig, cs) else (JET_errSuccess, put_col cs fid derived o)).
Proof.
  intros T V l l' Hhi H. pose proof other_size as O. fold l in O. replace (dataWorkBuf_Cb t + (size l' - size l)) with (other + size l') in H by lia.
  destruct (Z.ltb_spec most (other + size l')) as [L|L]; [rewrite H; apply agrees_error|]. destruct H as [H1 H2]. split; [exact H1|]. split; [now left|]. cbn [snd fst].
  eapply put_refines; [exact C|exact W|exact H2|exact T|exact V|fold l l'; lia|exact Hhi].
Qed.

(** ** The column is not there *)

Lemma new_ext : FExtendedInfo small (TAGFLD_new fid derived) = negb small.
Proof. unfold FExtendedInfo, fExtendedInfo, TAGFLD_new. cbn [m_ib]. destruct small, derived; reflexivity. Qed.

Lemma set_absent k1 k2 : cs = k1 ++ k2 -> Forall (fun c => col_key c < column_key fid derived) k1 -> Forall (fun c => column_key fid derived < col_key c) k2 ->
  agrees (set_new_column small most t (zlen (map (entry_of small) k1)) (TAGFLD_new fid derived) pfield itag data grbit) (set_column small most other cs pfield fid itag data grbit).
Proof.
  intros Ek F1 F2. unfold set_column. fold derived. rewrite Ek at 1. rewrite (lookup_absent k1 k2 fid derived F1 F2). pose proof (FTagged_range _ (so_fid _ _ _ _ _ _ Ok)) as Hf.
  assert (P : forall o, put_col cs fid derived o = k1 ++ match o with Some v => Column fid derived v :: k2 | None => k2 end) by (intros o; rewrite Ek; now apply put_absent).
  set (v := Value (FRECLongValue (coltyp pfield)) (fbit grbit grbitSetColumnCompressed) (fbit grbit grbitSetColumnEncrypted) false (match data with Some d => [(fbit grbit grbitSetColumnSeparated, d)] | None => [] end)).
  assert (V : val_ok small v).
  { apply val_ok_iff. cbn [v v_insts v_long v_compressed v_encrypted v_two]. split; [|split; [|discriminate]].
    - destruct data as [d|]; [|constructor]. apply Forall_cons; [|constructor]. split; [now apply (so_data _ _ _ _ _ _ Ok)|]. intros Lf. destruct (so_short _ _ _ _ _ _ Ok Lf) as (Sf & _ & _ & Ld). split; [exact Sf|now apply Ld].
    - intros Lf. destruct (so_short _ _ _ _ _ _ Ok Lf) as (_ & Cf & Ef & _). now split. }
  assert (R : rep small t (map (entry_of small) k1 ++ map (entry_of small) k2)) by (rewrite <- map_app, <- Ek; apply C).
  pose proof (fun w => insert_new small most t _ _ fid derived v w data (coltyp pfield) (fbit grbit grbitSetColumnSeparated) R W ltac:(lia) V eq_refl) as I.
  specialize (fun w => I w ltac:(now destruct data) (so_null _ _ _ _ _ _ Ok) ltac:(destruct data as [d|]; [now apply (so_data _ _ _ _ _ _ Ok)|exact Logic.I])).
  assert (M : map (entry_of small) (k1 ++ Column fid derived v :: k2) = map (entry_of small) k1 ++ entry_of small (Column fid derived v) :: map (entry_of small) k2) by now rewrite map_app.
  rewrite <- M, <- map_app, <- Ek in I.
  unfold set_new_column. rewrite new_ext. destruct data as [d|] eqn:Ed; cbn [new_value].
  - destruct (so_data _ _ _ _ _ _ Ok d eq_refl) as [Hd Ld]. fold v. apply (agrees_put _ (Some v) (size (map (entry_of small) (k1 ++ Column fid derived v :: k2)))); [apply Ok|now intros v0 [= <-]|rewrite P; lia|]. rewrite P.
    assert (K : (if negb small then sizeof_TAGFLD_HEADER else 0) + Cb d + (if small && FRECLongValue (coltyp pfield) then sizeof_TAGFLD_HEADER else 0) = zlen (v_data small v)).
    { unfold v_data. cbn [v v_insts v_long idata snd]. change (Cb d) with (zlen d). unfold sizeof_TAGFLD_HEADER. destruct small, (FRECLongValue (coltyp pfield)); cbn [andb negb]; rewrite ?zlen_cons; lia. }
    assert (X : negb small && false = false) by apply andb_false_r. rewrite negb_involutive, andb_diag.
    destruct (small && FRECLongValue (coltyp pfield)) eqn:Xl; rewrite ?Z.add_0_r in K; rewrite K; apply I; unfold v_null, v_ext; cbn [v v_insts v_long TAGFLD_new m_ib]; rewrite Xl.
    + apply andb_true_iff in Xl as [-> _]. destruct derived; reflexivity.
    + destruct derived; reflexivity.
  - rewrite (Z.eqb_sym 1 itag), Z.eqb_sym. rewrite (Z.eqb_sym 1 itag). destruct (FFIELDDefault (ffield pfield) && (itag =? 1) && negb (fbit grbit JET_bitSetRevertToDefaultValue)).
    + fold v. apply (agrees_put _ (Some v) (size (map (entry_of small) (k1 ++ Column fid derived v :: k2)))); [apply Ok|now intros v0 [= <-]|rewrite P; lia|]. rewrite P.
      assert (K : (if negb small then sizeof_TAGFLD_HEADER else 0) = zlen (v_data small v)) by (unfold v_data; cbn [v v_insts]; destruct small; reflexivity).
      rewrite K. apply I. unfold v_null, v_ext. cbn [v v_insts TAGFLD_new m_ib]. destruct small, derived; reflexivity.
    + rewrite !P, <- Ek. rewrite other_size. destruct W as [W1 _]. rewrite (proj2 (Z.ltb_ge _ _)) by lia. split; [reflexivity|]. split; [now left|]. now apply refines_refl.
Qed.

(** ** The column is there *)

Section Present.
Variables (k1 k2 : list COLUMN) (c : COLUMN).
Hypothesis Ek : cs = k1 ++ c :: k2.
Hypothesis Kc : col_key c = column_key fid derived.
Hypothesis F1 : Forall (fun c => col_key c < column_key fid derived) k1.
Hypothesis F2 : Forall (fun c => column_key fid derived < col_key c) k2.
Let i := zlen (map (entry_of small) k1).
Let v := c_val c.

Lemma present_rep : rep small t (map (entry_of small) k1 ++ entry_of small c :: map (entry_of small) k2).
Proof. pose proof (cols_rep _ _ _ C) as R. now rewrite Ek, map_app in R. Qed.

Lemma present_ok : col_ok small c.
Proof. pose proof (cols_ok _ _ _ C) as F. rewrite Ek in F. apply Forall_app in F as [_ F]. now apply Forall_cons_iff in F as [F _]. Qed.

Lemma present_lookup : lookup_col cs fid derived = Some v.
Proof. rewrite Ek. now apply lookup_present. Qed.

Lemma present_long : v_long v = FRECLongValue (coltyp pfield).
Proof. apply (so_type _ _ _ _ _ _ Ok), present_lookup. Qed.

Lemma present_put o : map (entry_of small) (put_col cs fid derived o) =
  match o with Some v' => with_value small (map (entry_of small) k1) c (map (entry_of small) k2) v' | None => map (entry_of small) k1 ++ map (entry_of small) k2 end.
Proof. rewrite Ek, (put_present k1 c k2 fid derived o F1 Kc), map_app. now destruct o. Qed.

Lemma agrees_outcome r v' : val_ok small v' -> outcome small most t (map (entry_of small) k1) c (map (entry_of small) k2) v' r ->
  agrees r (let cs' := put_col cs fid derived (Some v') in if most <? other + size (map (entry_of small) cs') then (JET_errRecordTooBig, cs) else (JET_errSuccess, cs')).
Proof.
  intros V H. unfold outcome in H. apply (agrees_put r (Some v') _ (so_fid _ _ _ _ _ _ Ok) ltac:(intros v0 [= <-]; exact V) (Z.le_refl _)). rewrite present_put.
  rewrite (map_split cs k1 c k2 Ek). replace (dataWorkBuf_Cb t + (size _ - size _)) with (dataWorkBuf_Cb t + grow small c v'); [exact H|].
  rewrite size_with_value. lia.
Qed.

Lemma agrees_updated t' o : (forall v', o = Some v' -> val_ok small v') ->
  updated small (size (map (entry_of small) cs)) t t' (map (entry_of small) (put_col cs fid derived o)) -> size (map (entry_of small) (put_col cs fid derived o)) <= size (map (entry_of small) cs) ->
  agrees (JET_errSuccess, t') (let cs' := put_col cs fid derived o in if most <? other + size (map (entry_of small) cs') then (JET_errRecordTooBig, cs) else (JET_errSuccess, cs')).
Proof.
  intros V U L. apply (agrees_put _ o (size (map (entry_of small) cs)) (so_fid _ _ _ _ _ _ Ok) V); [lia|]. destruct W as [W1 _].
  rewrite (proj2 (Z.ltb_ge _ _)) by lia. now split.
Qed.

Lemma inst_ok_data d : data = Some d -> inst_ok (FRECLongValue (coltyp pfield)) (fbit grbit grbitSetColumnSeparated, d) /\ bytes_ok d /\ zlen d < 2 ^ 30.
Proof.
  intros E. destruct (so_data _ _ _ _ _ _ Ok d E) as [Hd Ld]. split; [|now split]. split; [exact Hd|]. intros Lf. destruct (so_short _ _ _ _ _ _ Ok Lf) as (Sf & _ & _ & L). split; [exact Sf|now apply L].
Qed.

(** A value for the column, behind the check of unique values. *)
Definition set_present_value (d : list Z) : Z * TAGFIELDS :=
  let pheader := Pheader small t i in
  match (match pheader with Some p => if TAGFLD_HEADER.FMultiValues (header t p) then Some p else None | None => None end) with
  | Some p => set_multi_value small most t i p itag d grbit
  | None => if (1 =? itag) || FNull small t i then set_single_value small most t i pfield d grbit else set_second_value small most t i pheader pfield d grbit
  end.

Lemma set_present_value_spec d : data = Some d ->
  agrees (set_present_value d)
    match set_value small (coltyp pfield) itag d (fbit grbit grbitSetColumnSeparated) (fbit grbit grbitSetColumnCompressed) (fbit grbit grbitSetColumnEncrypted) v with
    | Some v' => let cs' := put_col cs fid derived (Some v') in if most <? other + size (map (entry_of small) cs') then (JET_errRecordTooBig, cs) else (JET_errSuccess, cs')
    | None => (errRECCompressionNotPossible, cs)
    end.
Proof.
  intros Ed. destruct (inst_ok_data d Ed) as (Hi & Hd & Ld). pose proof present_rep as R. destruct present_ok as [_ V]. fold v in V. pose proof present_long as Lg.
  pose proof (fun v' => set_value_ok (coltyp pfield) itag d _ (fbit grbit grbitSetColumnCompressed) (fbit grbit grbitSetColumnEncrypted) v v' V Lg Hi) as Vok.
  specialize (fun v' => Vok v' ltac:(intros Lf; destruct (so_short _ _ _ _ _ _ Ok Lf) as (_ & ? & ? & _); now split)).
  unfold set_present_value. pose proof (at_multi_spec small t _ c _ R) as M. unfold at_multi in M. fold i v in M. cbn zeta. rewrite M. pose proof (at_FNull small t _ c _ R) as Nl. fold i v in Nl. rewrite Nl. unfold set_value in *. unfold v_null. destruct (v_insts v) as [|x [|y r]] eqn:E.
  - rewrite orb_true_r. apply agrees_outcome; [now apply Vok|]. apply (set_single_value_spec small most t _ c _ R V W pfield d grbit); try assumption; [left; exact E|now apply Vok].
  - rewrite orb_false_r, (Z.eqb_sym 1 itag). destruct (itag =? 1) eqn:It.
    + apply agrees_outcome; [now apply Vok|]. apply (set_single_value_spec small most t _ c _ R V W pfield d grbit); try assumption; [right; now exists x|now apply Vok].
    + pose proof (set_second_value_spec small most t _ c _ R V W pfield d grbit x E Lg Hd Ld) as S. cbn zeta in S. fold i in S. destruct (fbit grbit grbitSetColumnCompressed) eqn:Ec.
      * replace (set_second_value small most t i (Pheader small t i) pfield d grbit) with (errRECCompressionNotPossible, t) by (unfold set_second_value; now rewrite Ec). apply agrees_error.
      * apply agrees_outcome; [now apply Vok|]. apply S. now apply Vok.
  - assert (Hs : v_long v = false -> fbit grbit grbitSetColumnSeparated = false /\ fbit grbit grbitSetColumnCompressed = false /\ zlen d <= JET_cbColumnMost).
    { intros Lf. rewrite Lg in Lf. destruct (so_short _ _ _ _ _ _ Ok Lf) as (Sf & Cf & _ & L). auto. }
    pose proof (so_itag _ _ _ _ _ _ Ok) as It. rewrite <- E in *. destruct (v_two v) eqn:T.
    + destruct (vo_two _ _ V T) as (_ & Lf & _). destruct (Hs Lf) as (Sf & Cf & L). pose proof (set_two_values_spec small most t _ c _ R V W x y r itag d grbit E It Hd Ld T Sf Cf L) as S. cbn zeta in S. fold v in S.
      rewrite Cf, andb_false_r in *. rewrite T in S. destruct (has_inst (v_insts v) itag); (apply agrees_outcome; [now apply Vok|exact S]).
    + pose proof (set_several_values_spec small most t _ c _ R W x y r itag d grbit E It Hd Ld T ltac:(intros Lf; destruct (Hs Lf) as (? & ? & _); now split)) as S. cbn zeta in S. fold v i in S. rewrite T in S.
      destruct (negb (itag =? 1) && fbit grbit grbitSetColumnCompressed); [rewrite S; apply agrees_error|]. destruct (has_inst (v_insts v) itag); (apply agrees_outcome; [now apply Vok|exact S]).
Qed.

(** Taking a value away. *)
Definition set_present_null : Z * TAGFIELDS :=
  if negb (FNull small t i) then (JET_errSuccess, set_to_null small t i (Pheader small t i) pfield itag grbit)
  else if fbit grbit JET_bitSetRevertToDefaultValue then (JET_errSuccess, DeltaCb (DeleteTagfld small t i) (- sizeof_TAGFLD - cbTagHeaderDefault small))
  else (JET_errSuccess, t).

Lemma v_data_size w : zlen (v_data small w) <= 1 + mv_size (v_insts w).
Proof.
  unfold v_data. destruct (v_insts w) as [|x [|y r]].
  - destruct small; unfold zlen; cbn; lia.
  - rewrite mv_size_cons. change (mv_size []) with 0. destruct (small && negb (v_long w)); rewrite ?zlen_cons; lia.
  - destruct (v_two w); [rewrite zlen_tv_bytes, !mv_size_cons; pose proof (mv_size_nonneg r); lia|]. rewrite zlen_cons, zlen_mv_bytes. lia.
Qed.

Lemma clear_value_size default revert v' : clear_value default revert itag v = Some v' -> zlen (v_data small v') <= zlen (v_data small v).
Proof.
  intros H. unfold clear_value in H. destruct present_ok as [_ V]. fold v in V. destruct (v_insts v) as [|x [|y r]] eqn:E.
  - destruct revert; [discriminate|]. injection H as <-. lia.
  - destruct (itag =? 1); [|injection H as <-; lia]. destruct (default && negb revert); [|discriminate]. injection H as <-. rewrite (zlen_single_data small v x E). pose proof (zlen_nonneg (idata x)).
    unfold v_data. cbn [v_insts]. destruct small; [change (zlen []) with 0|match goal with |- zlen [?b] <= _ => change (zlen [b]) with 1 end; cbn [andb]]; [destruct (true && negb (v_long v))|]; lia.
  - destruct (has_inst _ itag) eqn:Hn; [|injection H as <-; lia]. injection H as <-. destruct (inst_split _ itag Hn) as (k1' & z & k2' & Ez & Ei & Et). rewrite Ei, Ez, remove_inst_app.
    set (w := Value _ _ _ _ _). pose proof (v_data_size w) as Lw. cbn [w v_insts] in Lw. destruct (v_two v) eqn:T.
    + destruct (vo_two _ _ V T) as (Sm & Lf & N). rewrite E in N. assert (Lw' : zlen (v_data small w) <= mv_size (k1' ++ k2') - 2).
      { assert (X : exists q, k1' ++ k2' = [q]). { rewrite Ez in N. destruct k1' as [|q k1']; [destruct k2' as [|q [|]]|destruct k1', k2']; cbn [app] in *; try (exists q; reflexivity); exfalso; revert N; repeat rewrite ?zlen_cons, ?zlen_app, ?zlen_nil; pose_zlen; lia. }
        destruct X as [q Eq]. rewrite Eq, mv_size_cons. change (mv_size []) with 0. rewrite (zlen_single_data small w q) by (cbn [w v_insts]; exact Eq). cbn [w v_long]. rewrite Sm, Lf. cbn [andb negb]. lia. }
      assert (Lz : mv_size (k1' ++ k2') + 2 + zlen (idata z) = mv_size (x :: y :: r)) by (rewrite Ez, !mv_size_app, mv_size_cons; lia). pose proof (zlen_nonneg (idata z)).
      unfold v_data at 2. rewrite E, T, zlen_tv_bytes. rewrite !mv_size_cons in Lz. assert (r = []) as -> by (apply length_zero_iff_nil; revert N; unfold zlen; cbn [length]; lia). change (mv_size []) with 0 in Lz. lia.
    + unfold v_data at 2. rewrite E, T, zlen_cons, zlen_mv_bytes, Ez, mv_size_app, mv_size_cons. rewrite mv_size_app in Lw. pose proof (zlen_nonneg (idata z)). lia.
Qed.

Lemma set_present_null_spec : data = None ->
  agrees set_present_null
    (let cs' := put_col cs fid derived (clear_value (FFIELDDefault (ffield pfield)) (fbit grbit JET_bitSetRevertToDefaultValue) itag v) in
     if most <? other + size (map (entry_of small) cs') then (JET_errRecordTooBig, cs) else (JET_errSuccess, cs')).
Proof.
  intros _. set (default := FFIELDDefault (ffield pfield)). set (revert := fbit grbit JET_bitSetRevertToDefaultValue).
  pose proof present_rep as R. destruct present_ok as [_ V]. fold v in V. pose proof (at_FNull small t _ c _ R) as Nl. fold i v in Nl. unfold set_present_null. rewrite Nl. fold revert. pose proof (so_itag _ _ _ _ _ _ Ok) as It.
  pose proof (map_split cs k1 c k2 Ek) as Ml. pose proof (with_value_same small t _ c _ R V) as Ws. fold v in Ws.
  assert (X : forall t' o, o = clear_value default revert itag v -> updated small (size (map (entry_of small) cs)) t t' (match o with Some v' => with_value small (map (entry_of small) k1) c (map (entry_of small) k2) v' | None => map (entry_of small) k1 ++ map (entry_of small) k2 end) ->
    agrees (JET_errSuccess, t') (let cs' := put_col cs fid derived o in if most <? other + size (map (entry_of small) cs') then (JET_errRecordTooBig, cs) else (JET_errSuccess, cs'))).
  { intros t' o Eo U. rewrite <- present_put in U. apply agrees_updated; [|exact U|].
    - intros v' Hv. rewrite Eo in Hv. exact (clear_value_ok default revert itag v v' V Hv).
    - rewrite present_put, Ml. destruct o as [v'|].
      + symmetry in Eo. apply clear_value_size in Eo. rewrite size_with_value. unfold grow. fold v. lia.
      + rewrite !size_app, size_cons. pose proof (zlen_nonneg (e_data (entry_of small c))). lia. }
  unfold v_null. destruct (v_insts v) as [|x [|y r]] eqn:E; cbn [negb].
  - destruct revert eqn:Er; apply X; unfold clear_value; rewrite ?E; try reflexivity.
    + rewrite Ml. apply delete_null; assumption.
    + rewrite Ws, Ml. apply same_updated, R.
  - apply X; [reflexivity|]. rewrite Ml. pose proof (set_to_null_single small t _ c _ R V pfield itag grbit x E) as S. cbn zeta in S. fold i v default revert in S. destruct (clear_value default revert itag v); exact S.
  - apply X; [reflexivity|]. rewrite Ml. destruct (set_to_null_several small t _ c _ R V x y r pfield itag grbit E) as (v' & Ev & U). fold v i default revert in Ev, U. rewrite Ev. exact U.
Qed.

End Present.

(** [ErrSetColumn] by whether the column is there. *)
Lemma ErrSetColumn_cases i : ItagfldFind t (TAGFLD_new fid derived) = i ->
  ErrSetColumn small most t pfield fid itag data grbit =
    if negb (exists_at t i fid derived) then set_new_column small most t i (TAGFLD_new fid derived) pfield itag data grbit
    else match data with
         | Some d => if set_check t i pfield itag grbit d <? 0 then (set_check t i pfield itag grbit d, t) else
             let pheader := Pheader small t i in
             match (match pheader with Some p => if TAGFLD_HEADER.FMultiValues (header t p) then Some p else None | None => None end) with
             | Some p => set_multi_value small most t i p itag d grbit
             | None => if (1 =? itag) || FNull small t i then set_single_value small most t i pfield d grbit else set_second_value small most t i pheader pfield d grbit
             end
         | None => if negb (FNull small t i) then (JET_errSuccess, set_to_null small t i (Pheader small t i) pfield itag grbit)
             else if fbit grbit JET_bitSetRevertToDefaultValue then (JET_errSuccess, DeltaCb (DeleteTagfld small t i) (- sizeof_TAGFLD - cbTagHeaderDefault small))
             else (JET_errSuccess, t)
         end.
Proof. intros <-. reflexivity. Qed.

Lemma negative_eq x y : negative x = negative y -> (x <? 0) = (y <? 0) /\ ((x <? 0) = true -> x = y).
Proof. unfold negative, JET_errSuccess. destruct (Z.ltb_spec x 0), (Z.ltb_spec y 0); intros E; (split; [reflexivity || (exfalso; lia)|intros X; lia || discriminate]). Qed.

Lemma ErrSetColumn_spec : agrees (ErrSetColumn small most t pfield fid itag data grbit) (set_column small most other cs pfield fid itag data grbit).
Proof.
  pose proof (FTagged_range _ (so_fid _ _ _ _ _ _ Ok)) as Hf. assert (Hf' : 0 <= fid < 65536) by lia.
  destruct (cols_split cs (column_key fid derived) (cols_sorted _ _ _ C)) as [(k1 & c & k2 & Ek & Kc & F1 & F2)|(k1 & k2 & Ek & F1 & F2)].
  - pose proof (cols_rep _ _ _ C) as R. rewrite Ek in R. destruct (find_present t k1 c k2 fid derived R Hf' Kc F1 F2) as [Ei Ex].
    pose proof (set_present_value_spec k1 k2 c Ek Kc F1) as S1. pose proof (set_present_null_spec k1 k2 c Ek Kc F1) as S2. unfold set_present_value in S1. unfold set_present_null in S2.
    rewrite (ErrSetColumn_cases _ Ei), Ex. cbn [negb]. unfold set_column. fold derived. rewrite (present_lookup k1 k2 c Ek Kc F1). unfold new_value. set (v := c_val c) in *. destruct (present_ok k1 k2 c Ek) as [_ V].
    clear Ok. destruct data as [d|].
    + destruct (negative_eq _ _ (set_check_spec t _ c _ pfield itag grbit d (present_rep k1 k2 c Ek) V)) as [N1 N2]. fold v in N1, N2. cbn zeta. rewrite <- N1.
      destruct (set_check t _ pfield itag grbit d <? 0); [rewrite (N2 eq_refl); apply agrees_error|]. specialize (S1 d eq_refl). cbn zeta in S1. destruct (set_value _ _ _ _ _ _ _ v); exact S1.
    + exact (S2 eq_refl).
  - pose proof (cols_rep _ _ _ C) as R. rewrite Ek in R. destruct (find_absent t k1 k2 fid derived R Hf' F1 F2) as [Ei Ex].
    rewrite (ErrSetColumn_cases _ Ei), Ex. cbn [negb]. now apply (set_absent k1 k2).
Qed.
End SetColumn.
End Refine.
