(* ===== verification/TagFldRead.v ===== *)
(** * Tagged columns: retrieving, and the validator

    What ErrRetrieveColumn and UlColumnInstances return, the constructor of
    TAGFIELDS on a record, and that the validator accepts the records the
    operations make. *)

From Stdlib Require Import ZArith List Lia Bool Sorting.Sorted.
From S2P Require Import Prelude Mem Norm TagFld TagFldView TagFldOps TagFldMulti TagFldSearch TagFldSpec TagFldSet.
Import ListNotations.

Section Read.
Variable small : bool.

(** The answer [r] is what was found. *)
Definition delivers (t : TAGFIELDS) (f : FOUND) (r : Z * RETRIEVED) : Prop :=
  match f with
  | Found err d => exists p, r = (err, InRecord (Data p (zlen d))) /\ load_bytes (tf_m t) p (zlen d) = d
  | NotFound r' => r = r'
  end.

Section Column.
Variables (t : TAGFIELDS) (l1 : list ENTRY) (c : COLUMN) (l2 : list ENTRY) (itag : Z).
Hypothesis R : rep small t (l1 ++ entry_of small c :: l2).
Hypothesis V : val_ok small (c_val c).
Hypothesis Hi : 1 <= itag.
Let v := c_val c.

(** What ErrRetrieveColumn does with a column that is there. *)
Definition retrieve_present : Z * RETRIEVED :=
  let itagfld := zlen l1 in
  let null := (JET_wrnColumnNull, Nullified) in
  if FNull small t itagfld then null
  else
    match (match Pheader small t itagfld with Some p => if TAGFLD_HEADER.FMultiValues (header t p) then Some p else None | None => None end) with
    | Some p =>
        if TAGFLD_HEADER.FTwoValues (header t p) then
          if itag <=? 2 then (JET_errSuccess, InRecord (TWOVALUES_RetrieveInstance (TWOVALUES_new (tf_m t) (PbData small t itagfld) (CbData small t itagfld)) itag))
          else null
        else
          let mv := MULTIVALUES_new (tf_m t) (PbData small t itagfld) (CbData small t itagfld) in
          if itag <=? CMultiValues mv then let '(err, d) := ErrRetrieveInstance (tf_m t) mv itag in (err, InRecord d) else null
    | None =>
        if 1 =? itag then
          let d := Data (PbData small t itagfld) (CbData small t itagfld) in
          match Pheader small t itagfld with
          | Some p => (TAGFLD_HEADER.ErrRetrievalResult (header t p), InRecord (Data (pv d + sizeof_TAGFLD_HEADER) (u32 (cb d - sizeof_TAGFLD_HEADER))))
          | None => (JET_errSuccess, InRecord d)
          end
        else null
    end.

Lemma inst_index_1 : itag <> 1 -> exists n, inst_index itag = S n.
Proof. intros N. exists (Z.to_nat (itag - 2)). unfold inst_index. lia. Qed.

Lemma nth_beyond (l : list INST) : zlen l < itag -> nth_error l (inst_index itag) = None.
Proof. intros H. apply nth_error_None. unfold zlen, inst_index in *. lia. Qed.

Lemma retrieve_present_spec :
  delivers t match nth_error (v_insts v) (inst_index itag) with Some i => Found (value_warning v itag i) (idata i) | None => NotFound (JET_wrnColumnNull, Nullified) end retrieve_present.
Proof.
  unfold retrieve_present. rewrite (at_FNull small t l1 c l2 R). pose proof (at_multi_spec small t l1 c l2 R) as M. unfold at_multi in M. rewrite M. fold v. unfold v_null. destruct (v_insts v) as [|i [|j r]] eqn:E.
  - destruct (inst_index itag); reflexivity.
  - rewrite (Z.eqb_sym 1 itag). destruct (Z.eqb_spec itag 1) as [->|N]; [|destruct (inst_index_1 N) as [n ->]; destruct n; reflexivity].
    change (nth_error [i] (inst_index 1)) with (Some i). cbn [delivers]. unfold value_warning.
    pose proof (at_range small t l1 _ l2 R) as (B1 & B2). pose proof (maskIb_range small) as Mk. pose proof (zlen_nonneg (datas l2)) as Z2. cbn [entry_of e_data] in B2. fold v in B2. pose proof (zlen_nonneg (v_data small v)) as Zv.
    rewrite (at_PbData small t l1 _ l2 R), (at_CbData small t l1 _ l2 R). fold (at_pb small t l1 c l2). cbn [entry_of e_data pv cb]. fold v.
    pose proof (at_holds small t l1 c l2 R) as H. fold v in H. pose proof (at_head small t l1 c l2 R) as Hd. unfold v_head in Hd. fold v in Hd. rewrite E in Hd. unfold v_data in *. rewrite E in *.
    destruct (small && negb (v_long v)) eqn:X.
    + rewrite Hd. apply andb_true_iff in X as [_ X]. apply negb_true_iff in X. rewrite X. eexists. split; [reflexivity|]. now apply holds_load.
    + destruct Hd as [-> Hb]. rewrite Hb. rewrite holds_cons in H. destruct H as [_ H]. unfold TAGFLD_HEADER.ErrRetrievalResult, v_header. rewrite hdr_FLongValue, hdr_FSeparated, hdr_FCompressed. cbn [pv cb]. rewrite andb_true_r.
      exists (at_pb small t l1 c l2 + 1). split; [|now apply holds_load]. unfold sizeof_TAGFLD_HEADER. rewrite zlen_cons. replace (1 + zlen (idata i) - 1) with (zlen (idata i)) by lia. rewrite u32_small; [reflexivity|]. pose proof (zlen_nonneg (idata i)). rewrite zlen_cons in B2. lia.
  - rewrite (at_two small t l1 c l2 R i j r E). fold v. destruct (v_two v) eqn:T.
    + destruct (at_TWOVALUES small t l1 c l2 R V i j r E T) as (-> & -> & H & _). apply holds_tv in H as (_ & _ & H1 & H2). destruct (vo_two _ _ V T) as (_ & Lf & _). fold v in Lf.
      destruct (Z.leb_spec itag 2) as [L|L]; [|rewrite nth_beyond by (change (zlen [i; j]) with 2; lia); reflexivity].
      unfold TWOVALUES_RetrieveInstance, tv_PbData. cbn [tv_pheader CbFirstValue CbSecondValue]. unfold sizeof_TAGFLD_HEADER, sizeof_TVLENGTH. replace (at_pb small t l1 c l2 + 1 + 1) with (at_pb small t l1 c l2 + 2) by lia.
      unfold value_warning. rewrite Lf. destruct (Z.eqb_spec itag 1) as [->|N]; [|assert (itag = 2) as -> by lia]; [change (nth_error [i; j] (inst_index 1)) with (Some i)|change (nth_error [i; j] (inst_index 2)) with (Some j)]; eexists; (split; [reflexivity|now apply holds_load]).
    + destruct (at_MULTIVALUES small t l1 c l2 R i j r E T) as (-> & MV & H). fold v in MV, H |- *. cbn [CMultiValues]. rewrite <- E. destruct (Z.leb_spec itag (zlen (v_insts v))) as [L|L]; [|now rewrite nth_beyond].
      assert (Hn : has_inst (v_insts v) itag = true) by (unfold has_inst; rewrite andb_true_iff, !Z.leb_le; lia). destruct (inst_split _ itag Hn) as (k1 & x & k2 & Ek & Ei & Et).
      rewrite Ei. replace (nth_error (v_insts v) (length k1)) with (Some x) by (rewrite Ek, nth_error_app2, Nat.sub_diag by lia; reflexivity). rewrite holds_cons in H. destruct H as [Hb _]. rewrite Ek in MV |- *.
      unfold ErrRetrieveInstance. replace (itag - 1) with (zlen k1) by lia. rewrite (mv_at_sep _ _ k1 x k2 MV), (mv_at_PbData _ _ k1 x k2 MV), (mv_at_CbData _ _ k1 x k2 MV).
      eexists. split; [|exact (holds_load _ _ _ (mv_at_data _ _ k1 x k2 MV))]. cbn [mv_pheader]. change (load8 (tf_m t) (at_pb small t l1 c l2)) with (tf_m t (at_pb small t l1 c l2)). rewrite Hb.
      unfold TAGFLD_HEADER.ErrMultiValueRetrievalResult, v_header, value_warning. rewrite hdr_FLongValue, hdr_FCompressed. replace (0 =? zlen k1) with (itag =? 1) by (apply eq_true_iff_eq; rewrite !Z.eqb_eq; lia). reflexivity.
Qed.
End Column.

Section Record.
Variables (t : TAGFIELDS) (cs : list COLUMN) (fid : Z) (derived : bool).
Hypothesis C : cols small t cs.
Hypothesis T : FTagged fid = true.

Lemma ErrRetrieveColumn_spec df itag grbit : 1 <= itag -> delivers t (retrieve_column cs df fid derived itag grbit) (ErrRetrieveColumn small t df fid derived itag grbit).
Proof.
  intros Hi. pose proof (FTagged_range _ T) as Hf. assert (Hf' : 0 <= fid < 65536) by lia. pose proof (cols_rep _ _ _ C) as R. unfold ErrRetrieveColumn, retrieve_column.
  destruct (cols_split cs (column_key fid derived) (cols_sorted _ _ _ C)) as [(k1 & c & k2 & Ek & Kc & F1 & F2)|(k1 & k2 & Ek & F1 & F2)]; rewrite Ek in *.
  - destruct (find_present small t k1 c k2 fid derived R Hf' Kc F1 F2) as [-> Ex]. unfold exists_at in Ex. rewrite Ex, (lookup_present k1 c k2 fid derived F1 Kc). rewrite (map_split small _ k1 c k2 eq_refl) in R.
    apply (retrieve_present_spec t _ c _ itag R); [|exact Hi]. pose proof (cols_ok _ _ _ C) as F. apply Forall_app in F as [_ F]. now apply Forall_cons_iff in F as [[_ F] _].
  - destruct (find_absent small t k1 k2 fid derived R Hf' F1 F2) as [-> Ex]. unfold exists_at in Ex. rewrite Ex, (lookup_absent k1 k2 fid derived F1 F2). unfold default_value. rewrite (Z.eqb_sym 1 itag). cbn [delivers]. reflexivity.
Qed.

Lemma UlColumnInstances_spec ff : UlColumnInstances small t ff fid derived = column_instances cs ff fid derived.
Proof.
  pose proof (FTagged_range _ T) as Hf. assert (Hf' : 0 <= fid < 65536) by lia. pose proof (cols_rep _ _ _ C) as R. unfold UlColumnInstances, column_instances.
  destruct (cols_split cs (column_key fid derived) (cols_sorted _ _ _ C)) as [(k1 & c & k2 & Ek & Kc & F1 & F2)|(k1 & k2 & Ek & F1 & F2)]; rewrite Ek in *.
  - destruct (find_present small t k1 c k2 fid derived R Hf' Kc F1 F2) as [-> Ex]. unfold exists_at in Ex. rewrite Ex, (lookup_present k1 c k2 fid derived F1 Kc). rewrite (map_split small _ k1 c k2 eq_refl) in R.
    pose proof (cols_ok _ _ _ C) as F. apply Forall_app in F as [_ F]. apply Forall_cons_iff in F as [[_ V] _].
    rewrite (at_FNull small t _ c _ R). pose proof (at_multi_spec small t _ c _ R) as M. unfold at_multi in M. rewrite M. unfold v_null. destruct (v_insts (c_val c)) as [|i [|j r]] eqn:E; [reflexivity..|].
    rewrite (at_two small t _ c _ R i j r E). destruct (v_two (c_val c)) eqn:Tw.
    + destruct (vo_two _ _ V Tw) as (_ & _ & N). now rewrite E in N.
    + destruct (at_MULTIVALUES small t _ c _ R i j r E Tw) as (-> & _). cbn [CMultiValues]. now rewrite E.
  - destruct (find_absent small t k1 k2 fid derived R Hf' F1 F2) as [-> Ex]. unfold exists_at in Ex. rewrite Ex, (lookup_absent k1 k2 fid derived F1 F2). reflexivity.
Qed.
End Record.
End Read.

(** * Tagged columns: the validator

    FValidate accepts the tagged columns of every record the operations make,
    and the constructor of TAGFIELDS finds them again in the record. *)

(** ** Identifiers of long values *)

(** Bytes as the memory they would be at address 0. *)
Definition bytes_mem (d : list Z) : mem := fun a => nth (Z.to_nat a) d 0.

(** The bytes of a separated value are those of an identifier. *)
Definition valid_lid (d : list Z) : Prop := let lid := LidOfSeparatedLV (bytes_mem d) 0 (zlen d) in lid <> lidMin /\ zlen d = LvId_Cb lid.

Lemma holds_byte m p d k : holds m p d -> 0 <= k < zlen d -> m (p + k) = bytes_mem d k.
Proof. intros H Hk. unfold bytes_mem, zlen in *. rewrite <- H by lia. f_equal. lia. Qed.

Lemma holds_lid m p d : holds m p d -> LidOfSeparatedLV m p (zlen d) = LidOfSeparatedLV (bytes_mem d) 0 (zlen d).
Proof.
  intros H. unfold LidOfSeparatedLV. destruct (Z.eqb_spec (zlen d) 8) as [E|_]; [|destruct (Z.eqb_spec (zlen d) 4) as [E|_]; [|reflexivity]];
    (assert (X : forall k, 0 <= k < zlen d -> m (p + k) = bytes_mem d (0 + k)) by (intros k Hk; apply holds_byte; assumption));
    rewrite E in X; unfold load64, load32, load16; rewrite <- ?Z.add_assoc; repeat rewrite X by lia; rewrite <- (Z.add_0_r p) at 1; repeat rewrite X by lia; reflexivity.
Qed.

Section Valid.
Variable small : bool.

Definition lids_ok (v : VALUE) : Prop := Forall (fun i => isep i = true -> valid_lid (idata i)) (v_insts v).

(** ** One column *)

Lemma mv_validate_spec m mv k b k2 : forall k1, k = k1 ++ k2 -> mvrep m mv k -> m (mv_pheader mv) = b ->
  Forall (fun i => (TAGFLD_HEADER.FLongValue b = false -> isep i = false /\ zlen (idata i) <= JET_cbColumnMost) /\ (isep i = true -> valid_lid (idata i))) k2 ->
  mv_validate_loop (length k2) m mv (zlen k1) = true.
Proof.
  induction k2 as [|i k2 IH]; intros k1 Ek R Hb F; [reflexivity|]. apply Forall_cons_iff in F as [[Hs Hl] F]. cbn [length mv_validate_loop]. rewrite Ek in R.
  rewrite (mv_at_Ib m mv k1 i k2 R), (mv_next m mv k1 i k2 R), (mv_at_sep m mv k1 i k2 R), (mv_at_PbData m mv k1 i k2 R). change (load8 m (mv_pheader mv)) with (m (mv_pheader mv)). rewrite Hb.
  set (ib := mib _ k1). replace (ib + zlen (idata i) - ib) with (zlen (idata i)) by lia. pose proof (mv_at_range m mv k1 i k2 R) as (B1 & B2). pose proof (mv_size_at k1 i k2) as Sz. cbv zeta in Sz. fold ib in B1, B2, Sz. pose proof (zlen_nonneg (idata i)). pose proof (zlen_nonneg (idatas k2)).
  rewrite (mvr_cb _ _ _ R), Sz. rewrite (proj2 (Z.ltb_ge (ib + zlen (idata i)) ib)), (proj2 (Z.ltb_ge (ib + zlen (idata i) + zlen (idatas k2)) ib)) by lia. cbn [orb].
  assert (X : negb (TAGFLD_HEADER.FLongValue b) && (JET_cbColumnMost <? zlen (idata i)) = false).
  { destruct (TAGFLD_HEADER.FLongValue b); [reflexivity|]. destruct (Hs eq_refl) as [_ L]. apply Z.ltb_ge. exact L. }
  pose proof (holds_lid _ _ _ (mv_at_data m mv k1 i k2 R)) as Ld. fold ib in Ld. rewrite X, Ld.
  assert (Y : isep i && (negb (TAGFLD_HEADER.FColumnCanBeSeparated b) || (let lid := LidOfSeparatedLV (bytes_mem (idata i)) 0 (zlen (idata i)) in (lid =? lidMin) || negb (zlen (idata i) =? LvId_Cb lid))) = false).
  { destruct (isep i) eqn:Si; [|reflexivity]. destruct (Hl eq_refl) as [N E]. cbn [andb]. change (TAGFLD_HEADER.FColumnCanBeSeparated b) with (TAGFLD_HEADER.FLongValue b).
    destruct (TAGFLD_HEADER.FLongValue b); [|destruct (Hs eq_refl); discriminate]. cbn [negb orb]. rewrite <- E, Z.eqb_refl, (proj2 (Z.eqb_neq _ _) N). reflexivity. }
  cbv zeta in Y |- *. rewrite Y. replace (zlen k1 + 1) with (zlen (k1 ++ [i])) by zl. apply IH; [now rewrite <- app_assoc|now rewrite <- Ek in R|exact Hb|exact F].
Qed.

Section Column.
Variables (t : TAGFIELDS) (l1 : list ENTRY) (c : COLUMN) (l2 : list ENTRY).
Hypothesis R : rep small t (l1 ++ entry_of small c :: l2).
Hypothesis V : val_ok small (c_val c).
Hypothesis L : lids_ok (c_val c).
Let v := c_val c.

Lemma at_next : (if zlen l1 <? CTaggedColumns t - 1 then Ib small (Ptagfld t (zlen l1 + 1)) else CbTaggedColumns t) = Ib small (Ptagfld t (zlen l1)) + zlen (v_data small v).
Proof.
  rewrite (rep_c _ _ _ R), (rep_cb _ _ _ R), last_or_not, (at_Ib small t l1 _ l2 R). change (v_data small v) with (e_data (entry_of small c)). destruct l2 as [|e2 l2'].
  - rewrite size_at, datas_nil. change (zlen []) with 0. lia.
  - now rewrite (next_Ib small t l1 _ e2 l2' R).
Qed.

Lemma at_ext : FExtendedInfo small (Ptagfld t (zlen l1)) = match v_head small c with Some _ => true | None => false end.
Proof.
  pose proof (at_head small t l1 c l2 R) as H. unfold Pheader in H. destruct (v_head small c); destruct (FExtendedInfo small _); try reflexivity; [destruct H|]; discriminate.
Qed.

Lemma at_header_byte b : v_head small c = Some b -> header t (PbData small t (zlen l1)) = b.
Proof.
  intros E. pose proof (at_head small t l1 c l2 R) as H. rewrite E in H. destruct H as [_ H]. rewrite (at_PbData small t l1 _ l2 R). exact H.
Qed.

Lemma v_header_flags w sp mu tw nl : (Z.land (v_header w sp mu tw nl) (Z.ldiff 255 TAGFLD_HEADER.maskFlags) =? 0) = true.
Proof. unfold v_header. destruct (v_long w), (v_compressed w), (v_encrypted w), sp, mu, tw, nl; reflexivity. Qed.

Lemma at_insts_ok : Forall (fun i => (v_long v = false -> isep i = false /\ zlen (idata i) <= JET_cbColumnMost) /\ (isep i = true -> valid_lid (idata i))) (v_insts v).
Proof.
  destruct (proj1 (val_ok_iff small v) V) as (F & _). pose proof L as F2. unfold lids_ok in F2. fold v in F2. rewrite Forall_forall in *. intros i Hi. split; [now apply F|now apply F2].
Qed.

Lemma valid_two i j r : v_insts v = i :: j :: r -> v_two v = true -> FIsValidTwoValues small t (zlen l1) = true.
Proof.
  intros E T. destruct (at_TWOVALUES small t l1 c l2 R V i j r E T) as (_ & -> & H & _). fold v in H. pose proof at_insts_ok as F. rewrite E in F. destruct (vo_two _ _ V T) as (_ & Lf & _). fold v in Lf.
  apply Forall_cons_iff in F as [[Fi _] F]. apply Forall_cons_iff in F as [[Fj _] _]. destruct (Fi Lf) as [_ Li]. destruct (Fj Lf) as [_ Lj]. apply holds_tv in H as (_ & Hl & _).
  unfold FIsValidTwoValues. rewrite (at_CbData small t l1 _ l2 R), (at_PbData small t l1 _ l2 R). fold (at_pb small t l1 c l2). change (load8 (tf_m t) (at_pb small t l1 c l2 + 1)) with (tf_m t (at_pb small t l1 c l2 + 1)). rewrite Hl. cbn [entry_of e_data]. fold v.
  unfold v_data. rewrite E, T, zlen_tv_bytes. unfold sizeof_TAGFLD_HEADER, sizeof_TVLENGTH, JET_cbColumnMost in *. pose proof (zlen_nonneg (idata i)). pose proof (zlen_nonneg (idata j)).
  rewrite (proj2 (Z.ltb_ge (2 + zlen (idata i) + zlen (idata j)) (1 + 1))), (proj2 (Z.ltb_ge (1 + 1 + 2 * 255) _)) by lia. cbn zeta.
  rewrite (proj2 (Z.ltb_ge (2 + zlen (idata i) + zlen (idata j) - 1 - 1) (zlen (idata i)))), (proj2 (Z.ltb_ge 255 _)) by lia. reflexivity.
Qed.

Lemma valid_several i j r : v_insts v = i :: j :: r -> v_two v = false -> FIsValidMultiValues small t (zlen l1) = true.
Proof.
  intros E T. destruct (at_MULTIVALUES small t l1 c l2 R i j r E T) as (Em & MV & H). fold v in Em, MV, H. unfold FIsValidMultiValues. rewrite Em. cbn [CMultiValues].
  rewrite (at_CbData small t l1 _ l2 R), (at_PbData small t l1 _ l2 R). fold (at_pb small t l1 c l2). set (p := at_pb small t l1 c l2) in *. cbn [entry_of e_data]. fold v.
  assert (Dv : zlen (v_data small v) = 1 + mv_size (v_insts v)) by (unfold v_data; rewrite E, T, zlen_cons, zlen_mv_bytes; reflexivity). rewrite Dv.
  assert (Nk : zlen (v_insts v) = 2 + zlen r) by (rewrite E, !zlen_cons; lia). pose proof (zlen_nonneg r) as Zr. pose proof (zlen_nonneg (idatas (v_insts v))) as Zd. assert (Sz : mv_size (v_insts v) = 2 * zlen (v_insts v) + zlen (idatas (v_insts v))) by reflexivity.
  unfold sizeof_TAGFLD_HEADER, sizeof_MVOFFSET. rewrite (proj2 (Z.ltb_ge (1 + mv_size (v_insts v)) (1 + 2 * 2))) by lia.
  assert (I0 : Z.land (load16 (tf_m t) (p + 1)) mv_maskIb = 2 * zlen (v_insts v)).
  { pose proof MV as MV2. rewrite E in MV2 at 3. pose proof (mv_at_Ib _ _ [] i (j :: r) MV2) as X. cbn [app] in X. rewrite <- E in X. unfold mv_Ib, mv_pmvoffs, mv_rgmvoffs, mib in X. cbn [mv_pheader] in X. rewrite idatas_nil in X. change (zlen []) with 0 in X. rewrite Z.mul_0_r, !Z.add_0_r in X. exact X. }
  rewrite I0. rewrite (proj2 (Z.ltb_ge (2 * zlen (v_insts v)) (2 * 2))), (proj2 (Z.ltb_ge (1 + mv_size (v_insts v) - 1) _)) by lia. rewrite (Z.mul_comm 2 (zlen (v_insts v))), Z.mod_mul by lia. cbn [orb negb Z.eqb]. rewrite length_zlen. rewrite holds_cons in H. destruct H as [Hb _].
  apply (mv_validate_spec (tf_m t) _ (v_insts v) _ (v_insts v) [] eq_refl MV Hb). unfold v_header. rewrite hdr_FLongValue. apply at_insts_ok.
Qed.

Lemma validate_header_spec : validate_header small t (zlen l1) (Ib small (Ptagfld t (zlen l1)) + zlen (v_data small v)) = true.
Proof.
  unfold validate_header. set (ib := Ib small (Ptagfld t (zlen l1))). replace (ib + zlen (v_data small v) - ib) with (zlen (v_data small v)) by lia. rewrite at_ext.
  pose proof at_header_byte as Hb. pose proof at_insts_ok as F. pose proof (at_holds small t l1 c l2 R) as D. fold v in D. unfold v_head in *. fold v in Hb |- *. destruct (v_insts v) as [|i [|j r]] eqn:E.
  - unfold v_data. rewrite E. destruct small eqn:Sm; [reflexivity|]. rewrite (Hb _ eq_refl), v_header_flags. unfold v_header. rewrite hdr_FLongValue, hdr_FMultiValues, hdr_FTwoValues, hdr_FSeparated, andb_false_r. reflexivity.
  - apply Forall_cons_iff in F as [[Fi Li] _]. destruct (small && negb (v_long v)) eqn:X.
    + apply andb_true_iff in X as [Sm Lf]. apply negb_true_iff in Lf. destruct (Fi Lf) as [_ Lc]. rewrite (zlen_single_data small v i E), Sm, Lf. cbn [andb negb]. apply negb_true_iff, Z.ltb_ge. lia.
    + assert (Dv : exists b, v_data small v = b :: idata i) by (unfold v_data; rewrite E, X; eauto). destruct Dv as [b0 Dv]. rewrite (Hb _ eq_refl), v_header_flags. unfold v_header. rewrite hdr_FLongValue, hdr_FMultiValues, hdr_FTwoValues, hdr_FSeparated. cbn [negb andb]. rewrite andb_true_r, (andb_comm (negb (v_long v))), X.
      destruct (isep i) eqn:Si; [|reflexivity]. change (TAGFLD_HEADER.FColumnCanBeSeparated _) with (TAGFLD_HEADER.FLongValue (hdr (v_long v) (v_compressed v) true false false false (v_encrypted v))). rewrite hdr_FLongValue.
      destruct (v_long v) eqn:Lg; [|destruct (Fi eq_refl); discriminate]. cbn [negb]. rewrite Dv in D |- *. rewrite holds_cons in D. destruct D as [_ D]. unfold sizeof_TAGFLD_HEADER. rewrite zlen_cons. replace (1 + zlen (idata i) - 1) with (zlen (idata i)) by lia.
      rewrite (at_PbData small t l1 _ l2 R). fold (at_pb small t l1 c l2). rewrite (holds_lid _ _ _ D). destruct (Li eq_refl) as [Nl El]. rewrite <- El, Z.eqb_refl, (proj2 (Z.eqb_neq _ _) Nl). reflexivity.
  - rewrite (Hb _ eq_refl), v_header_flags. unfold v_header. rewrite hdr_FLongValue, hdr_FMultiValues, hdr_FTwoValues, hdr_FSeparated. cbn [negb]. rewrite andb_false_r. cbn [andb]. destruct (v_two v) eqn:T.
    + destruct (vo_two _ _ V T) as (_ & Lf & _). fold v in Lf. rewrite Lf. now apply (valid_two i j r).
    + now apply (valid_several i j r).
Qed.

Lemma null_test : FNull small t (zlen l1) && ((FExtendedInfo small (Ptagfld t (zlen l1)) && small) || negb (Ib small (Ptagfld t (zlen l1)) + zlen (v_data small v) =? Ib small (Ptagfld t (zlen l1)) + cbTagHeaderDefault small)) = false.
Proof.
  rewrite (at_FNull small t l1 c l2 R), at_ext. unfold v_null, v_head, v_data. fold v. destruct (v_insts v) as [|i [|j r]]; [|reflexivity..]. unfold cbTagHeaderDefault.
  destruct small; cbn [andb orb]; [change (zlen []) with 0|match goal with |- context [zlen [?b]] => change (zlen [b]) with 1 end; unfold sizeof_TAGFLD_HEADER]; now rewrite Z.eqb_refl.
Qed.
End Column.

(** ** All columns *)

Lemma validate_loop_spec t cs k2 : forall k1 saw prev, cs = k1 ++ k2 -> cols small t cs -> Forall (fun c => lids_ok (c_val c)) k2 ->
  Forall (fun c => column_key prev (negb saw) < col_key c) k2 -> 0 <= prev < 65536 ->
  validate_loop small (length k2) t (zlen k1) saw prev = true.
Proof.
  induction k2 as [|c k2 IH]; intros k1 saw prev Ek C Lk Fk Hp; [reflexivity|]. apply Forall_cons_iff in Lk as [Lc Lk]. apply Forall_cons_iff in Fk as [Kc Fk].
  pose proof (cols_rep _ _ _ C) as R. rewrite (map_split small cs k1 c k2 Ek) in R. pose proof (cols_ok _ _ _ C) as Ok. rewrite Ek in Ok. apply Forall_app in Ok as [_ Ok]. apply Forall_cons_iff in Ok as [[Tc Vc] _]. pose proof (FTagged_range _ Tc) as Hf.
  assert (Zk : zlen k1 = zlen (map (entry_of small) k1)) by (unfold zlen; now rewrite length_map). cbn [length validate_loop]. rewrite Zk.
  pose proof (at_next t _ c _ R) as En. pose proof (null_test t _ c _ R Vc) as Nt. pose proof (validate_header_spec t _ c _ R Vc Lc) as Vh. rewrite En. set (i := zlen (map (entry_of small) k1)) in *. set (ib := Ib small (Ptagfld t i)) in *.
  assert (Hfid : Fid (Ptagfld t i) = c_fid c) by (unfold i; rewrite (at_tagfld small t _ _ _ R); reflexivity). destruct (at_words small t _ _ _ R) as [_ Wk]. fold i in Wk.
  assert (Hd : FDerived (Ptagfld t i) = c_derived c).
  { unfold i. rewrite (at_tagfld small t _ _ _ R). pose proof (at_ib_range small t _ _ _ R) as Bi. apply (word_FDerived small _ _ _ (at_entry_ok small t _ _ _ R) Bi). }
  rewrite Hfid, Hd, Tc. cbn [negb]. unfold column_key in Kc. unfold col_key, column_key in Kc.
  assert (X1 : c_derived c && (saw || (c_fid c <=? prev)) = false).
  { destruct (c_derived c); [|reflexivity]. destruct saw; cbn [negb orb andb] in *; [lia|]. apply Z.leb_gt. lia. }
  assert (X2 : negb (c_derived c) && saw && (c_fid c <=? prev) = false).
  { destruct (c_derived c), saw; cbn [negb andb] in *; try reflexivity. apply Z.leb_gt. lia. }
  rewrite X1, X2, (proj2 (Z.ltb_ge (ib + zlen (v_data small (c_val c))) ib)) by (pose proof (zlen_nonneg (v_data small (c_val c))); lia). rewrite Nt, Vh. cbn [negb].
  rewrite <- Zk. replace (zlen k1 + 1) with (zlen (k1 ++ [c])) by zl. apply IH; [now rewrite <- app_assoc|exact C|exact Lk| |lia].
  pose proof (cols_sorted _ _ _ C) as S. rewrite Ek in S. assert (Ck : Forall (fun d => col_key c < col_key d) k2).
  { clear - S. induction k1 as [|d k1 IHk]; cbn [app] in S; apply StronglySorted_inv in S as [S F]; [exact F|now apply IHk]. }
  eapply Forall_impl; [|exact Ck]. cbn beta. intros d H. assert (Y : column_key (c_fid c) (negb (saw || negb (c_derived c))) <= col_key c).
  { unfold col_key, column_key. destruct saw, (c_derived c); cbn [orb negb] in *; lia. }
  lia.
Qed.

Lemma FValidate_spec t cs : cols small t cs -> Forall (fun c => lids_ok (c_val c)) cs -> FValidate small t = true.
Proof.
  intros C L. unfold FValidate. pose proof (rep_c _ _ _ (cols_rep _ _ _ C)) as Ec. rewrite Ec, length_zlen, length_map. apply (validate_loop_spec t cs cs [] false 0 eq_refl C L); [|lia].
  pose proof (cols_ok _ _ _ C) as F. eapply Forall_impl; [|exact F]. intros c [T _]. pose proof (FTagged_range _ T). unfold col_key, column_key. cbn [negb]. destruct (c_derived c); lia.
Qed.

(** ** The record *)

Lemma TAGFIELDS_new_spec t cs prec : cols small t cs -> PbTaggedData (tf_m t) prec = m_rgtagfld t -> dataWorkBuf_Cb t = m_rgtagfld t - prec + CbTaggedColumns t -> TAGFIELDS_new small (tf_m t) (Data prec (dataWorkBuf_Cb t)) = t.
Proof.
  intros C Hp Hw. pose proof (cols_rep _ _ _ C) as R. pose proof (maskIb_range small) as M. pose proof (rep_fit _ _ _ R) as Fit. pose proof (size_nonneg (map (entry_of small) cs)) as Zs. unfold TAGFIELDS_new. cbn [pv cb]. rewrite Hp.
  replace (prec + dataWorkBuf_Cb t - m_rgtagfld t) with (CbTaggedColumns t) by lia. rewrite u32_small by (rewrite (rep_cb _ _ _ R); lia). cbn [CbTaggedColumns].
  replace (if CbTaggedColumns t =? 0 then 0 else _) with (CTaggedColumns t); [now destruct t|]. rewrite (rep_cb _ _ _ R), (rep_c _ _ _ R). destruct cs as [|c cs]; cbn [map].
  - reflexivity.
  - rewrite (proj2 (Z.eqb_neq _ 0)) by (rewrite size_cons; pose proof (size_nonneg (map (entry_of small) cs)); pose proof (zlen_nonneg (e_data (entry_of small c))); lia).
    change (Ptagfld _ 0) with (Ptagfld t (zlen (@nil ENTRY))). rewrite (at_Ib small t [] (entry_of small c) (map (entry_of small) cs) R). unfold ib_of, sizeof_TAGFLD. cbn [app]. rewrite datas_nil. change (zlen []) with 0. rewrite Z.add_0_r, Z.mul_comm. symmetry. apply Z.div_mul. lia.
Qed.

Lemma FIsValidTagfields_spec cbMax t cs prec : cols small t cs -> Forall (fun c => lids_ok (c_val c)) cs -> PbTaggedData (tf_m t) prec = m_rgtagfld t ->
  dataWorkBuf_Cb t = m_rgtagfld t - prec + CbTaggedColumns t -> prec + cbRecordMin <= m_rgtagfld t -> dataWorkBuf_Cb t <= cbMax ->
  FIsValidTagfields small cbMax (tf_m t) (Data prec (dataWorkBuf_Cb t)) = true.
Proof.
  intros C L Hp Hw Hm Hx. pose proof (cols_rep _ _ _ C) as R. pose proof (rep_cb _ _ _ R) as Ecb. pose proof (size_nonneg (map (entry_of small) cs)) as Zs. unfold FIsValidTagfields. cbn [pv cb]. rewrite Hp. unfold cbRecordMin in *.
  rewrite (proj2 (Z.ltb_ge (dataWorkBuf_Cb t) 4)), (proj2 (Z.ltb_ge cbMax _)) by lia. cbn [orb]. rewrite (proj2 (Z.ltb_ge (m_rgtagfld t) (prec + 4))), (proj2 (Z.ltb_ge (prec + dataWorkBuf_Cb t) _)) by lia. cbn [orb].
  replace (prec + dataWorkBuf_Cb t - m_rgtagfld t) with (CbTaggedColumns t) by lia. rewrite (TAGFIELDS_new_spec t cs prec C Hp Hw), (FValidate_spec t cs C L).
  match goal with |- (if ?x then false else true) = true => replace x with false; [reflexivity|symmetry] end. destruct cs as [|c cs]; cbn [map] in *.
  - rewrite Ecb. reflexivity.
  - assert (I0 : Z.land (load16 (tf_m t) (m_rgtagfld t + 2)) (maskIb small) = 4 * zlen (entry_of small c :: map (entry_of small) cs)).
    { pose proof (at_Ib small t [] (entry_of small c) (map (entry_of small) cs) R) as X. unfold Ib, Ptagfld, pb_tagfld, ib_of in X. cbn [m_ib app] in X. rewrite datas_nil in X. change (zlen []) with 0 in X. rewrite Z.mul_0_r, !Z.add_0_r in X. exact X. }
    rewrite I0, Ecb. set (n := zlen (entry_of small c :: map (entry_of small) cs)). assert (Nn : 1 <= n) by (unfold n; rewrite zlen_cons; pose proof (zlen_nonneg (map (entry_of small) cs)); lia).
    assert (Sn : 4 * n <= size (entry_of small c :: map (entry_of small) cs)) by (unfold size; fold n; pose proof (zlen_nonneg (datas (entry_of small c :: map (entry_of small) cs))); lia).
    unfold sizeof_TAGFLD. rewrite (Z.mul_comm 4 n), Z.mod_mul, (proj2 (Z.ltb_ge (n * 4) 4)), (proj2 (Z.ltb_ge _ (n * 4))) by lia. apply andb_false_r.
Qed.
End Valid.
