(* ===== verification/TagFldTheorems.v ===== *)
(** * Tagged columns: theorems

    Setting columns refines the update of a sorted list of columns; what was set
    is read back; the validator accepts the record; the search and the check of
    unique values against their specifications. *)

From Stdlib Require Import ZArith List Lia Bool Sorting.Sorted.
From S2P Require Import Prelude Mem Norm NormTheorems TagFld TagFldView TagFldOps TagFldMulti TagFldSearch TagFldSpec TagFldSet TagFldRead.
Import ListNotations.

(** ** Sequences of calls *)

Record CALL := Call { k_field : FIELD; k_fid : Z; k_itag : Z; k_data : option (list Z); k_grbit : Z }.

Section Calls.
Context `{Loc : NormLocale}.
Variable small : bool.

Fixpoint run_calls (most : Z) (t : TAGFIELDS) (ks : list CALL) : list Z * TAGFIELDS :=
  match ks with
  | [] => ([], t)
  | k :: ks =>
      let '(err, t) := ErrSetColumn small most t (k_field k) (k_fid k) (k_itag k) (k_data k) (k_grbit k) in
      let '(errs, t) := run_calls most t ks in (err :: errs, t)
  end.

Fixpoint spec_calls (most other : Z) (cs : list COLUMN) (ks : list CALL) : list Z * list COLUMN :=
  match ks with
  | [] => ([], cs)
  | k :: ks =>
      let '(err, cs) := set_column small most other cs (k_field k) (k_fid k) (k_itag k) (k_data k) (k_grbit k) in
      let '(errs, cs) := spec_calls most other cs ks in (err :: errs, cs)
  end.

(** Each call is one the callers may make. *)
Fixpoint calls_ok (most other : Z) (cs : list COLUMN) (ks : list CALL) : Prop :=
  match ks with
  | [] => True
  | k :: ks => set_ok cs (k_field k) (k_fid k) (k_itag k) (k_data k) (k_grbit k) /\
      calls_ok most other (snd (set_column small most other cs (k_field k) (k_fid k) (k_itag k) (k_data k) (k_grbit k))) ks
  end.

Lemma columns_refine_trans most t t1 t2 cs1 cs2 : refines small most t cs1 t1 -> refines small most t1 cs2 t2 -> refines small most t cs2 t2.
Proof.
  intros (_ & _ & E1 & O1 & S1) (C & W & E2 & O2 & S2). split; [exact C|]. split; [exact W|]. split; [congruence|]. split; [congruence|]. rewrite E1, O1 in S2. eapply same_outside_trans; eassumption.
Qed.

Lemma run_calls_spec most ks : forall t cs, cols small t cs -> room small most t -> let other := dataWorkBuf_Cb t - CbTaggedColumns t in calls_ok most other cs ks ->
  fst (run_calls most t ks) = fst (spec_calls most other cs ks) /\ refines small most t (snd (spec_calls most other cs ks)) (snd (run_calls most t ks)).
Proof.
  induction ks as [|k ks IH]; intros t cs C W other H; [split; [reflexivity|now apply refines_refl]|]. destruct H as [H1 H2]. cbn [run_calls spec_calls].
  destruct (ErrSetColumn_spec small most t cs (k_field k) (k_fid k) (k_itag k) (k_data k) (k_grbit k) C W H1) as (E & _ & F). fold other in E, F. pose proof F as (C1 & W1 & _ & O1 & _).
  destruct (ErrSetColumn _ _ _ _ _ _ _ _) as [err t1]. destruct (set_column _ _ _ _ _ _ _ _ _) as [err' cs1]. cbn [fst snd] in *. subst err'.
  fold other in O1. specialize (IH t1 cs1 C1 W1). cbn zeta in IH. rewrite O1 in IH. destruct (IH H2) as [E2 F2]. destruct (run_calls most t1 ks) as [errs t2]. destruct (spec_calls most other cs1 ks) as [errs' cs2]. cbn [fst snd] in *.
  split; [now rewrite E2|]. eapply columns_refine_trans; eassumption.
Qed.
End Calls.

(** C4: any sequence of calls of ErrSetColumn on a record behaves like the same
    updates of the sorted list of its columns, on small and on large pages: the
    same results, errors included, and a record that holds the columns of the
    list, within the maximum size; on an error it is unchanged, and nothing is
    written before the tagged columns or behind the record. *)
Theorem set_columns_refine_list (Loc : NormLocale) small most t cs ks :
  cols small t cs -> room small most t -> calls_ok small most (dataWorkBuf_Cb t - CbTaggedColumns t) cs ks ->
  let r := run_calls small most t ks in let s := spec_calls small most (dataWorkBuf_Cb t - CbTaggedColumns t) cs ks in
  fst r = fst s /\ refines small most t (snd s) (snd r).
Proof. intros C W H. now apply run_calls_spec. Qed.

(** A record without tagged columns. *)
Definition empty_record (start cbOther : Z) : TAGFIELDS := Tagfields (fun _ => 0) start 0 0 cbOther.

Lemma empty_cols small start cbOther : cols small (empty_record start cbOther) [].
Proof.
  split; [|constructor|constructor]. split; try reflexivity; [now intros a|constructor|cbn; destruct small; discriminate|apply holds_nil|apply holds_nil].
Qed.

Definition text_field : FIELD := Field coltypText 255 0 0 1252.
Definition long_field : FIELD := Field coltypLongBinary 0 ffieldDefault 0 0.

(** The conditions of a call, evaluated. *)
Ltac call_ok := split;
  [reflexivity
  |intros v0 E0; vm_compute in E0; (discriminate E0 || (injection E0 as <-; reflexivity))
  |discriminate
  |intros d0 E0; vm_compute in E0; (discriminate E0 || (injection E0 as <-; split; [unfold bytes_ok; repeat (apply Forall_cons; [lia|]); apply Forall_nil|reflexivity]))
  |intros E0; vm_compute in E0; (discriminate E0 || reflexivity)
  |intros E0; vm_compute in E0; (discriminate E0 || (clear E0; split; [reflexivity|split; [reflexivity|split; [reflexivity|
     intros d0 E0; vm_compute in E0; (discriminate E0 || (injection E0 as <-; discriminate))]]]))].

Definition sample_calls : list CALL :=
  [Call text_field 300 1 (Some [65; 66]) 0; Call text_field 300 0 (Some [67]) 0; Call long_field 299 1 (Some [1; 2; 3]) grbitSetColumnCompressed;
   Call text_field 300 3 (Some [68; 69]) 0; Call text_field 300 1 None 0; Call long_field 299 1 None 0; Call text_field 300 9 (Some [70; 71; 72; 73; 74; 75; 76; 77]) 0].

(** Seven calls in a record of 35 bytes: the last one does not fit. *)
Lemma set_columns_refine_list_witness :
  let r := run_calls (Loc := loc_bytes) true 35 (empty_record 100 10) sample_calls in
  fst r = [0; 0; 0; 0; 0; 0; JET_errRecordTooBig] /\
  refines true 35 (empty_record 100 10) [Column 299 false (Value true true false false []); Column 300 false (Value false false false false [(false, [67]); (false, [68; 69])])] (snd r).
Proof.
  intros r. destruct (set_columns_refine_list loc_bytes true 35 (empty_record 100 10) [] sample_calls (empty_cols true 100 10)) as [E F].
  - split; [cbn; lia|cbn; lia].
  - repeat (split; [call_ok|]); exact I.
  - split; [etransitivity; [exact E|vm_compute; reflexivity]|]. vm_compute snd in F at 1. exact F.
Defined.

(** ** Retrieving *)

(** C15: ErrRetrieveColumn returns exactly the bytes of the value with the number
    asked for, in the record, with the warning that says whether they are
    separated, compressed or neither; for a null column, or a number the column
    does not have, the warning for a null; and the default value for a column
    that is not in the record.  UlColumnInstances counts the values of the column:
    none for a null, one for a column that is not in the record and has a default. *)
Theorem ErrRetrieveColumn_returns_the_value small t cs df fid derived itag grbit ff :
  cols small t cs -> FTagged fid = true -> 1 <= itag ->
  delivers t (retrieve_column cs df fid derived itag grbit) (ErrRetrieveColumn small t df fid derived itag grbit) /\
  UlColumnInstances small t ff fid derived = column_instances cs ff fid derived.
Proof. intros C T Hi. split; [now apply ErrRetrieveColumn_spec|now apply UlColumnInstances_spec]. Qed.

(** The record the first six calls make, and what it holds. *)
Definition sample_record (small : bool) : TAGFIELDS := snd (run_calls (Loc := loc_bytes) small 40 (empty_record 100 10) (firstn 4 sample_calls)).
Definition sample_columns (small : bool) : list COLUMN :=
  [Column 299 false (Value true true false false [(false, [1; 2; 3])]); Column 300 false (Value false false false false [(false, [65; 66]); (false, [67]); (false, [68; 69])])].

Lemma sample_refines small : refines small 40 (empty_record 100 10) (sample_columns small) (sample_record small).
Proof.
  destruct (run_calls_spec (Loc := loc_bytes) small 40 (firstn 4 sample_calls) (empty_record 100 10) [] (empty_cols small 100 10)) as [_ F].
  - split; [cbn; lia|destruct small; cbn; lia].
  - destruct small; repeat (split; [call_ok|]); exact I.
  - unfold sample_columns. destruct small; vm_compute snd in F at 1; exact F.
Qed.

Definition no_defaults : DEFAULTS := Defaults false 0 (0, []).

(** The third value of a column, on a large page. *)
Lemma ErrRetrieveColumn_returns_the_value_witness :
  (exists p, ErrRetrieveColumn false (sample_record false) no_defaults 300 false 3 0 = (JET_errSuccess, InRecord (Data p 2)) /\ load_bytes (tf_m (sample_record false)) p 2 = [68; 69]) /\
  UlColumnInstances false (sample_record false) 0 300 false = 3.
Proof. exact (ErrRetrieveColumn_returns_the_value false (sample_record false) (sample_columns false) no_defaults 300 false 3 0 0 (proj1 (sample_refines false)) eq_refl ltac:(lia)). Defined.

(** The number under which a value that is set can be retrieved. *)
Definition written_itag (old : option VALUE) (itag : Z) : Z :=
  match old with Some v => if has_inst (v_insts v) itag then itag else zlen (v_insts v) + 1 | None => 1 end.

Lemma lookup_put_same cs fid derived v : StronglySorted (fun c d => col_key c < col_key d) cs -> lookup_col (put_col cs fid derived (Some v)) fid derived = Some v.
Proof.
  intros S. destruct (cols_split cs (column_key fid derived) S) as [(k1 & c & k2 & -> & K & F1 & F2)|(k1 & k2 & -> & F1 & F2)].
  - rewrite (put_present k1 c k2 fid derived (Some v) F1 K). now rewrite (lookup_present k1 (set_val c v) k2 fid derived F1 K).
  - rewrite (put_absent k1 k2 fid derived (Some v) F1 F2). now rewrite (lookup_present k1 (Column fid derived v) k2 fid derived F1 eq_refl).
Qed.

Lemma lookup_put_other cs fid derived o fid' derived' : column_key fid' derived' <> column_key fid derived -> lookup_col (put_col cs fid derived o) fid' derived' = lookup_col cs fid' derived'.
Proof.
  intros N. induction cs as [|c cs IH]; cbn [put_col].
  - destruct o; cbn [lookup_col]; [|reflexivity]. change (col_key (Column fid derived v)) with (column_key fid derived). now rewrite (proj2 (Z.eqb_neq _ _)) by congruence.
  - destruct (Z.eqb_spec (col_key c) (column_key fid derived)) as [E|E].
    + destruct o; cbn [lookup_col]; rewrite ?set_val_key, (proj2 (Z.eqb_neq (col_key c) _)) by congruence; reflexivity.
    + destruct (_ <? _); [|cbn [lookup_col]; now rewrite IH]. destruct o; [|reflexivity]. cbn [lookup_col]. change (col_key (Column fid derived v)) with (column_key fid derived). now rewrite (proj2 (Z.eqb_neq (column_key fid derived) _)) by congruence.
Qed.

Lemma nth_set_inst l itag x : has_inst l itag = true -> nth_error (set_inst l (inst_index itag) x) (inst_index itag) = Some x.
Proof. intros H. destruct (inst_split l itag H) as (k1 & i & k2 & -> & -> & _). rewrite set_inst_app, nth_error_app2, Nat.sub_diag by lia. reflexivity. Qed.

Lemma nth_append (l : list INST) x : nth_error (l ++ [x]) (inst_index (zlen l + 1)) = Some x.
Proof. unfold inst_index. replace (zlen l + 1 - 1) with (zlen l) by lia. rewrite length_zlen, nth_error_app2, Nat.sub_diag by lia. reflexivity. Qed.

Lemma set_value_written small c0 itag d sep comp enc v v' : set_value small c0 itag d sep comp enc v = Some v' -> nth_error (v_insts v') (inst_index (written_itag (Some v) itag)) = Some (sep, d).
Proof.
  unfold set_value, written_itag. destruct (v_insts v) as [|i [|j r]] eqn:E; intros H.
  - injection H as <-. replace (has_inst [] itag) with false by (unfold has_inst; change (zlen []) with 0; destruct (Z.leb_spec 1 itag), (Z.leb_spec itag 0); lia || reflexivity). reflexivity.
  - unfold has_inst. change (zlen [i]) with 1. destruct (Z.eqb_spec itag 1) as [->|N]; [injection H as <-; reflexivity|].
    replace ((1 <=? itag) && (itag <=? 1)) with false by (destruct (Z.leb_spec 1 itag), (Z.leb_spec itag 1); lia || reflexivity). destruct comp; [discriminate|]. injection H as <-. reflexivity.
  - destruct (negb (itag =? 1) && comp); [discriminate|]. destruct (has_inst (i :: j :: r) itag) eqn:Hn; injection H as <-; cbn [v_insts]; [now apply nth_set_inst|].
    change (i :: j :: r ++ [(sep, d)]) with ((i :: j :: r) ++ [(sep, d)]). apply nth_append.
Qed.

(** C18: after ErrSetColumn has set a value with success, ErrRetrieveColumn
    returns its bytes under the number it was written with (the next free one
    where the column does not have that number), and what it returns for every
    other column is what the record held for it before. *)
Theorem set_value_reads_back (Loc : NormLocale) small most t cs pfield fid itag d grbit :
  cols small t cs -> room small most t -> set_ok cs pfield fid itag (Some d) grbit ->
  let derived := fbit grbit grbitSetColumnUseDerivedBit in
  let r := ErrSetColumn small most t pfield fid itag (Some d) grbit in
  fst r = JET_errSuccess ->
  (forall df g, exists warning, delivers (snd r) (Found warning d) (ErrRetrieveColumn small (snd r) df fid derived (written_itag (lookup_col cs fid derived) itag) g)) /\
  (forall df g fid' derived' itag', FTagged fid' = true -> 1 <= itag' -> column_key fid' derived' <> column_key fid derived ->
     delivers (snd r) (retrieve_column cs df fid' derived' itag' g) (ErrRetrieveColumn small (snd r) df fid' derived' itag' g)).
Proof.
  intros C W Ok derived r Hr. destruct (ErrSetColumn_spec small most t cs pfield fid itag (Some d) grbit C W Ok) as (E & _ & (C' & _)). fold r in E, C'. rewrite Hr in E.
  set (other := dataWorkBuf_Cb t - CbTaggedColumns t) in *. unfold set_column in E, C'. fold derived in E, C'.
  destruct (new_value small pfield itag (Some d) grbit (lookup_col cs fid derived)) as [err|o] eqn:Nv.
  { unfold new_value in Nv. destruct (lookup_col cs fid derived) as [v|]; [|discriminate]. cbn zeta in Nv. destruct (check_unique small pfield itag grbit d v <? 0) eqn:Cu.
    - injection Nv as Nv. subst err. cbn [fst] in E. rewrite <- E in Cu. discriminate.
    - destruct (set_value _ _ _ _ _ _ _ v); [discriminate|]. injection Nv as <-. discriminate. }
  destruct (most <? other + size (map (entry_of small) (put_col cs fid derived o))); [discriminate|]. cbn [snd] in C'.
  assert (X : exists v', o = Some v' /\ nth_error (v_insts v') (inst_index (written_itag (lookup_col cs fid derived) itag)) = Some (fbit grbit grbitSetColumnSeparated, d)).
  { unfold new_value in Nv. destruct (lookup_col cs fid derived) as [v|]; [|injection Nv as <-; eexists; split; reflexivity]. cbn zeta in Nv. destruct (_ <? 0); [discriminate|].
    destruct (set_value _ _ _ _ _ _ _ v) as [v'|] eqn:Sv; [|discriminate]. injection Nv as <-. exists v'. split; [reflexivity|]. exact (set_value_written _ _ _ _ _ _ _ _ _ Sv). }
  destruct X as (v' & -> & Hn). split.
  - intros df g. assert (Hi : 1 <= written_itag (lookup_col cs fid derived) itag).
    { unfold written_itag. destruct (lookup_col cs fid derived) as [v|]; [|lia]. unfold has_inst. pose proof (zlen_nonneg (v_insts v)). destruct (Z.leb_spec 1 itag); cbn [andb]; [destruct (itag <=? _)|]; lia. }
    pose proof (ErrRetrieveColumn_spec small (snd r) _ fid derived C' (so_fid _ _ _ _ _ _ Ok) df _ g Hi) as D. unfold retrieve_column in D. rewrite (lookup_put_same cs fid derived v' (cols_sorted _ _ _ C)), Hn in D. eexists. exact D.
  - intros df g fid' derived' itag' T' Hi' N. pose proof (ErrRetrieveColumn_spec small (snd r) _ fid' derived' C' T' df itag' g Hi') as D. unfold retrieve_column in *. now rewrite (lookup_put_other cs fid derived (Some v') fid' derived' N) in D.
Qed.

(** A fourth value of the text column of a small page; the long column stays. *)
Lemma set_value_reads_back_witness : let r := ErrSetColumn (Loc := loc_bytes) true 40 (sample_record true) text_field 300 0 (Some [88]) 0 in
  (exists w p, ErrRetrieveColumn true (snd r) no_defaults 300 false 4 0 = (w, InRecord (Data p 1)) /\ load_bytes (tf_m (snd r)) p 1 = [88]) /\
  (exists p, ErrRetrieveColumn true (snd r) no_defaults 299 false 1 0 = (wrnRECCompressed, InRecord (Data p 3)) /\ load_bytes (tf_m (snd r)) p 3 = [1; 2; 3]).
Proof.
  intros r. destruct (sample_refines true) as (C & W & _).
  destruct (set_value_reads_back loc_bytes true 40 (sample_record true) (sample_columns true) text_field 300 0 [88] 0 C W ltac:(call_ok)) as [A B]; [vm_compute; reflexivity|]. split.
  - destruct (A no_defaults 0) as [w H]. exists w. exact H.
  - exact (B no_defaults 0 299 false 1 eq_refl ltac:(lia) ltac:(discriminate)).
Defined.

(** ** Searching *)

(** C31: the two branch-free comparisons of TAGFLD entries, on the complemented
    flag and on the masked 32-bit word, order any two entries as the readable
    one does: derived columns first, then by column identifier.  So do the
    comparisons of an entry with the identifier and the origin of the other,
    FIsLessThan, FIsGreaterThan and FIsEqual: of two entries one comes before the
    other or they have the same column. *)
Theorem tagfld_comparisons_agree f1 f2 : words f1 -> words f2 ->
  CmpTagfld1 f1 f2 = CmpTagfldSlow f1 f2 /\ CmpTagfld2 f1 f2 = CmpTagfldSlow f1 f2 /\
  FIsLessThan f1 (Fid f2) (FDerived f2) = CmpTagfldSlow f1 f2 /\ FIsGreaterThan f1 (Fid f2) (FDerived f2) = CmpTagfldSlow f2 f1 /\
  FIsEqual f1 (Fid f2) (FDerived f2) = negb (CmpTagfldSlow f1 f2) && negb (CmpTagfldSlow f2 f1).
Proof.
  intros W1 W2. rewrite CmpTagfld1_key, CmpTagfld2_key, !CmpTagfldSlow_key, FIsLessThan_key, FIsGreaterThan_key, FIsEqual_key by (assumption || apply W2). fold (tagfld_key f2). repeat split.
  destruct (Z.ltb_spec (tagfld_key f1) (tagfld_key f2)), (Z.ltb_spec (tagfld_key f2) (tagfld_key f1)), (Z.eqb_spec (tagfld_key f1) (tagfld_key f2)); cbn; lia || reflexivity.
Qed.

(** A derived column with flags and an offset comes before one that is not. *)
Lemma tagfld_comparisons_agree_witness :
  CmpTagfld1 (Tagfld 400 0xA00C) (Tagfld 300 0x2008) = true /\ CmpTagfld2 (Tagfld 400 0xA00C) (Tagfld 300 0x2008) = true /\
  FIsLessThan (Tagfld 400 0xA00C) 300 false = true /\ FIsGreaterThan (Tagfld 400 0xA00C) 300 false = false.
Proof.
  destruct (tagfld_comparisons_agree (Tagfld 400 0xA00C) (Tagfld 300 0x2008)) as (E1 & E2 & E3 & E4 & _); [split; cbn; lia|split; cbn; lia|].
  cbn [Fid] in E3, E4. change (FDerived (Tagfld 300 0x2008)) with false in E3, E4. rewrite E1, E2, E3, E4. repeat split; reflexivity.
Defined.

Lemma length_filter_split cs (p : COLUMN -> bool) k1 k2 : cs = k1 ++ k2 -> Forall (fun c => p c = true) k1 -> Forall (fun c => p c = false) k2 -> zlen (filter p cs) = zlen k1.
Proof.
  intros -> F1 F2. rewrite filter_app. replace (filter p k1) with k1; [replace (filter p k2) with (@nil COLUMN); [now rewrite app_nil_r|]|].
  - induction F2 as [|c k H F IH]; [reflexivity|]. cbn [filter]. now rewrite H.
  - induction F1 as [|c k H F IH]; [reflexivity|]. cbn [filter]. rewrite H. now f_equal.
Qed.

(** The binary search for a column ends at the number of columns that come
    before it, so at the column where the record has it and else at the place
    where it has to be inserted. *)
Theorem ItagfldFind_counts_columns_before small t cs fid derived :
  cols small t cs -> FTagged fid = true ->
  ItagfldFind t (TAGFLD_new fid derived) = zlen (filter (fun c => col_key c <? column_key fid derived) cs) /\
  exists_at t (ItagfldFind t (TAGFLD_new fid derived)) fid derived = match lookup_col cs fid derived with Some _ => true | None => false end.
Proof.
  intros C T. pose proof (FTagged_range _ T) as Hf. assert (Hf' : 0 <= fid < 65536) by lia. pose proof (cols_rep _ _ _ C) as R.
  assert (Zm : forall k, zlen (map (entry_of small) k) = zlen k) by (intros k; unfold zlen; now rewrite length_map).
  destruct (cols_split cs (column_key fid derived) (cols_sorted _ _ _ C)) as [(k1 & c & k2 & Ek & Kc & F1 & F2)|(k1 & k2 & Ek & F1 & F2)]; rewrite Ek in R.
  - destruct (find_present small t k1 c k2 fid derived R Hf' Kc F1 F2) as [-> Ex]. rewrite Ex. rewrite Ek at 2. rewrite (lookup_present k1 c k2 fid derived F1 Kc). split; [|reflexivity].
    rewrite Zm. symmetry. apply (length_filter_split _ _ k1 (c :: k2) Ek); [eapply Forall_impl; [|exact F1]; intros d; cbn beta; now rewrite Z.ltb_lt|].
    apply Forall_cons; [apply Z.ltb_ge; lia|]. eapply Forall_impl; [|exact F2]. intros d. cbn beta. rewrite Z.ltb_ge. lia.
  - destruct (find_absent small t k1 k2 fid derived R Hf' F1 F2) as [-> Ex]. rewrite Ex. rewrite Ek at 2. rewrite (lookup_absent k1 k2 fid derived F1 F2). split; [|reflexivity].
    rewrite Zm. symmetry. apply (length_filter_split _ _ k1 k2 Ek); [eapply Forall_impl; [|exact F1]; intros d; cbn beta; now rewrite Z.ltb_lt|].
    eapply Forall_impl; [|exact F2]. intros d. cbn beta. rewrite Z.ltb_ge. lia.
Qed.

(** Column 300 is the second one, and a derived one would be the first. *)
Lemma ItagfldFind_counts_columns_before_witness :
  ItagfldFind (sample_record true) (TAGFLD_new 300 false) = 1 /\ ItagfldFind (sample_record true) (TAGFLD_new 300 true) = 0.
Proof.
  destruct (sample_refines true) as (C & _). split.
  - exact (proj1 (ItagfldFind_counts_columns_before true _ _ 300 false C eq_refl)).
  - exact (proj1 (ItagfldFind_counts_columns_before true _ _ 300 true C eq_refl)).
Defined.

(** ** The record *)

(** The constructor of TAGFIELDS finds the tagged columns in a record that
    holds them: from the address and the size of the record, the end of its
    variable columns and the first offset it computes the state the operations
    left. *)
Theorem TAGFIELDS_new_reads_back small t cs prec :
  cols small t cs -> PbTaggedData (tf_m t) prec = m_rgtagfld t -> dataWorkBuf_Cb t = m_rgtagfld t - prec + CbTaggedColumns t ->
  TAGFIELDS_new small (tf_m t) (Data prec (dataWorkBuf_Cb t)) = t.
Proof. apply TAGFIELDS_new_spec. Qed.

(** A record with a header of 4 bytes, no fixed and no variable columns, at the
    address 90; the tagged columns are at 94. *)
Definition bare_record : mem := store16 (store8 (fun _ => 0) 91 127) 92 4.
Definition bare_tagfields : TAGFIELDS := Tagfields bare_record 94 0 0 4.

Lemma bare_cols : cols true bare_tagfields [].
Proof.
  split; [|constructor|constructor]. split; try reflexivity; [|constructor|cbn; discriminate|apply holds_nil|apply holds_nil].
  unfold bare_tagfields, bare_record. cbn [tf_m]. apply store16_ok, store8_ok. now intros a.
Qed.

Definition record_calls : list CALL :=
  [Call text_field 300 1 (Some [65; 66]) 0; Call text_field 300 0 (Some [67]) 0; Call long_field 299 1 (Some [17; 0; 0; 0]) grbitSetColumnSeparated].
Definition made_record : TAGFIELDS := snd (run_calls (Loc := loc_bytes) true 40 bare_tagfields record_calls).
Definition made_columns : list COLUMN :=
  [Column 299 false (Value true false false false [(true, [17; 0; 0; 0])]); Column 300 false (Value false false false true [(false, [65; 66]); (false, [67])])].

Lemma made_refines : refines true 40 bare_tagfields made_columns made_record.
Proof.
  destruct (run_calls_spec (Loc := loc_bytes) true 40 record_calls bare_tagfields [] bare_cols) as [_ F].
  - split; [cbn; lia|cbn; lia].
  - repeat (split; [call_ok|]); exact I.
  - vm_compute snd in F at 1. exact F.
Qed.

Lemma TAGFIELDS_new_reads_back_witness : CTaggedColumns (TAGFIELDS_new true (tf_m made_record) (Data 90 (dataWorkBuf_Cb made_record))) = 2.
Proof.
  rewrite (TAGFIELDS_new_reads_back true made_record made_columns 90 (proj1 made_refines)); [vm_compute; reflexivity..].
Defined.

(** C32: the validator of records accepts the tagged columns of every record that
    holds columns in order with values of their types, on small and on large
    pages, if separated values are identifiers of long values: what the
    operations write is never taken for a corruption. *)
Theorem FIsValidTagfields_accepts_columns small cbRecordMostCHECK t cs prec :
  cols small t cs -> Forall (fun c => lids_ok (c_val c)) cs -> PbTaggedData (tf_m t) prec = m_rgtagfld t ->
  dataWorkBuf_Cb t = m_rgtagfld t - prec + CbTaggedColumns t -> prec + cbRecordMin <= m_rgtagfld t -> dataWorkBuf_Cb t <= cbRecordMostCHECK ->
  FIsValidTagfields small cbRecordMostCHECK (tf_m t) (Data prec (dataWorkBuf_Cb t)) = true.
Proof. apply FIsValidTagfields_spec. Qed.

(** A separated long value and a column of two values. *)
Lemma FIsValidTagfields_accepts_columns_witness : FIsValidTagfields true 40 (tf_m made_record) (Data 90 (dataWorkBuf_Cb made_record)) = true.
Proof.
  apply (FIsValidTagfields_accepts_columns true 40 made_record made_columns 90 (proj1 made_refines)); [|vm_compute; reflexivity|vm_compute; reflexivity|vm_compute; discriminate|vm_compute; discriminate].
  unfold made_columns, lids_ok. repeat (apply Forall_cons; [repeat (apply Forall_cons; [intros X; (discriminate X || (split; [vm_compute; discriminate|vm_compute; reflexivity]))|]); apply Forall_nil|]). apply Forall_nil.
Defined.

(** ** Unique values *)

Lemma fbit_lor g a b : fbit g (Z.lor a b) = fbit g a || fbit g b.
Proof.
  unfold fbit. rewrite Z.land_lor_distr_r. apply eq_true_iff_eq. rewrite orb_true_iff, !negb_true_iff, !Z.eqb_neq, Z.lor_eq_0_iff. destruct (Z.eq_dec (Z.land g a) 0), (Z.eq_dec (Z.land g b) 0); tauto.
Qed.

Lemma FDataEqual_spec d1 d2 : FDataEqual d1 d2 = true <-> d1 = d2.
Proof.
  unfold FDataEqual, Cb. rewrite andb_true_iff, Z.eqb_eq. split.
  - revert d2. induction d1 as [|x d1 IH]; intros [|y d2] [L F]; cbn [length combine forallb fst snd] in *; try lia; [reflexivity|]. apply andb_true_iff in F as [E F]. apply Z.eqb_eq in E. f_equal; [exact E|]. apply IH. split; [lia|exact F].
  - intros <-. split; [reflexivity|]. induction d1 as [|x d1 IH]; [reflexivity|]. cbn [combine forallb fst snd]. now rewrite Z.eqb_refl.
Qed.

Lemma unique_error_None (Loc : NormLocale) d tr itag l : forall j, unique_error None d tr itag j l = JET_errSuccess \/ unique_error None d tr itag j l = JET_errMultiValuedDuplicate.
Proof.
  induction l as [|x l IH]; intros j; [now left|]. cbn [unique_error ErrRECICheckUnique]. destruct (itag =? j); [apply IH|]. destruct (FDataEqual d x); [now right|apply IH].
Qed.

Lemma unique_error_duplicate (Loc : NormLocale) d tr itag l : forall j,
  unique_error None d tr itag j l = JET_errMultiValuedDuplicate <-> exists k x, nth_error l k = Some x /\ j + Z.of_nat k <> itag /\ x = d.
Proof.
  induction l as [|x l IH]; intros j.
  - split; [discriminate|]. intros ([|k] & x & H & _); discriminate.
  - assert (Sh : (exists k y, nth_error l k = Some y /\ j + 1 + Z.of_nat k <> itag /\ y = d) -> exists k y, nth_error (x :: l) k = Some y /\ j + Z.of_nat k <> itag /\ y = d).
    { intros (k & y & H & N & E). exists (S k), y. split; [exact H|]. split; [lia|exact E]. }
    cbn [unique_error ErrRECICheckUnique]. cbn zeta. destruct (Z.eqb_spec itag j) as [->|N]; [|destruct (FDataEqual d x) eqn:E].
    + change (JET_errSuccess <? 0) with false. cbn iota. rewrite IH. split; [exact Sh|]. intros ([|k] & y & H & N & Ey); [lia|]. exists k, y. split; [exact H|]. split; [lia|exact Ey].
    + split; [intros _|reflexivity]. exists O, x. split; [reflexivity|]. split; [lia|]. symmetry. now apply FDataEqual_spec.
    + change (JET_errSuccess <? 0) with false. cbn iota. rewrite IH. split; [exact Sh|]. intros ([|k] & y & H & N2 & Ey).
      * injection H as <-. subst x. rewrite (proj2 (FDataEqual_spec d d) eq_refl) in E. discriminate.
      * exists k, y. split; [exact H|]. split; [lia|exact Ey].
Qed.

(** With JET_bitSetUniqueMultiValues, ErrSetColumn refuses a value for a
    short column with the error for a duplicate exactly when another value of
    the column has the same bytes; on large pages, if the column has two values
    or more. *)
Theorem unique_values_check_is_exact (Loc : NormLocale) small most t cs pfield fid itag d grbit v :
  cols small t cs -> room small most t -> set_ok cs pfield fid itag (Some d) grbit ->
  lookup_col cs fid (fbit grbit grbitSetColumnUseDerivedBit) = Some v -> FRECLongValue (coltyp pfield) = false ->
  fbit grbit JET_bitSetUniqueMultiValues = true -> fbit grbit JET_bitSetUniqueNormalizedMultiValues = false -> small = true \/ 2 <= zlen (v_insts v) ->
  fst (ErrSetColumn small most t pfield fid itag (Some d) grbit) = JET_errMultiValuedDuplicate <->
  exists k i, nth_error (v_insts v) k = Some i /\ 1 + Z.of_nat k <> itag /\ idata i = d.
Proof.
  intros C W Ok Lk Lf U1 U2 Sm. destruct (ErrSetColumn_spec small most t cs pfield fid itag (Some d) grbit C W Ok) as (E & _). rewrite E. clear E.
  pose proof (so_type _ _ _ _ _ _ Ok v Lk) as Lg. rewrite Lf in Lg. destruct (so_short _ _ _ _ _ _ Ok Lf) as (_ & Cf & _). unfold set_column. rewrite Lk. cbn [new_value].
  assert (Ch : check_unique small pfield itag grbit d v = unique_error None d false itag 1 (map idata (v_insts v))).
  { unfold check_unique. rewrite fbit_lor, U1, U2, Lf. cbn [orb andb negb]. unfold v_null, unique_view. destruct (v_insts v) as [|i [|j r]]; [reflexivity| |reflexivity].
    cbn [negb]. destruct Sm as [->|Sm]; [rewrite Lg; reflexivity|change (zlen [i]) with 1 in Sm; lia]. }
  rewrite Ch, Cf. transitivity (unique_error None d false itag 1 (map idata (v_insts v)) = JET_errMultiValuedDuplicate).
  - destruct (unique_error_None Loc d false itag (map idata (v_insts v)) 1) as [->| ->]; [|split; reflexivity]. change (JET_errSuccess <? 0) with false. cbn iota.
    destruct (set_value small (coltyp pfield) itag d _ false _ v); [destruct (most <? _)|]; split; discriminate.
  - rewrite unique_error_duplicate. split; intros (k & x & H & N & Ex).
    + rewrite nth_error_map in H. destruct (nth_error (v_insts v) k) as [i|] eqn:Ni; [|discriminate]. injection H as <-. now exists k, i.
    + exists k, (idata x). split; [now rewrite nth_error_map, H|]. split; [exact N|exact Ex].
Qed.

(** The third value of a small column, once more. *)
Lemma unique_values_check_is_exact_witness :
  fst (ErrSetColumn (Loc := loc_bytes) true 40 (sample_record true) text_field 300 0 (Some [68; 69]) JET_bitSetUniqueMultiValues) = JET_errMultiValuedDuplicate.
Proof.
  destruct (sample_refines true) as (C & W & _).
  apply (unique_values_check_is_exact loc_bytes true 40 (sample_record true) (sample_columns true) text_field 300 0 [68; 69] JET_bitSetUniqueMultiValues
    (Value false false false false [(false, [65; 66]); (false, [67]); (false, [68; 69])]) C W ltac:(call_ok) eq_refl eq_refl eq_refl eq_refl (or_introl eq_refl)).
  exists 2%nat, (false, [68; 69]). split; [reflexivity|]. split; [discriminate|reflexivity].
Defined.

(** On large pages the check misses a duplicate of the only value of a
    column: it is compared together with the header byte in front of it, and the
    column ends with the same value twice. *)
Theorem large_page_accepts_duplicate (Loc : NormLocale) most t cs pfield fid itag grbit v s d :
  cols false t cs -> room false most t -> set_ok cs pfield fid itag (Some d) grbit ->
  lookup_col cs fid (fbit grbit grbitSetColumnUseDerivedBit) = Some v -> v_insts v = [(s, d)] -> FRECLongValue (coltyp pfield) = false ->
  fbit grbit JET_bitSetUniqueMultiValues = true -> fbit grbit JET_bitSetUniqueNormalizedMultiValues = false -> itag <> 1 -> dataWorkBuf_Cb t + 4 + zlen d <= most ->
  let r := ErrSetColumn false most t pfield fid itag (Some d) grbit in
  fst r = JET_errSuccess /\ column_instances cs 0 fid (fbit grbit grbitSetColumnUseDerivedBit) = 1 /\
  exists cs', cols false (snd r) cs' /\ exists v', lookup_col cs' fid (fbit grbit grbitSetColumnUseDerivedBit) = Some v' /\ map idata (v_insts v') = [d; d].
Proof.
  intros C W Ok Lk Iv Lf U1 U2 Ni Fit r. destruct (ErrSetColumn_spec false most t cs pfield fid itag (Some d) grbit C W Ok) as (E & _ & (C' & _)). fold r in E, C'.
  pose proof (so_type _ _ _ _ _ _ Ok v Lk) as Lg. rewrite Lf in Lg. destruct (so_short _ _ _ _ _ _ Ok Lf) as (_ & Cf & _). pose proof (cols_sorted _ _ _ C) as Sd. set (derived := fbit grbit grbitSetColumnUseDerivedBit) in *.
  unfold set_column in E, C'. fold derived in E, C'. rewrite Lk in E, C'. cbn [new_value] in E, C'.
  assert (Ch : check_unique false pfield itag grbit d v = JET_errSuccess).
  { unfold check_unique. rewrite fbit_lor, U1, U2, Lf. cbn [orb andb negb]. unfold v_null, unique_view. rewrite Iv. cbn [negb andb]. cbn [unique_error ErrRECICheckUnique]. rewrite (proj2 (Z.eqb_neq itag 1) Ni).
    assert (N : FDataEqual d (v_header v (isep (s, d)) false false false :: idata (s, d)) = false).
    { apply not_true_is_false. rewrite FDataEqual_spec. intros X. apply (f_equal (@zlen Z)) in X. rewrite zlen_cons in X. change (idata (s, d)) with d in X. lia. }
    rewrite N. reflexivity. }
  rewrite Ch in E, C'. change (JET_errSuccess <? 0) with false in E, C'. unfold set_value in E, C'. rewrite Iv, (proj2 (Z.eqb_neq itag 1) Ni), Cf in E, C'. cbn [andb] in E, C'.
  set (v' := Value _ _ _ _ _) in E, C'.
  assert (Sz : size (map (entry_of false) (put_col cs fid derived (Some v'))) = size (map (entry_of false) cs) + (4 + zlen d)).
  { destruct (cols_split cs (column_key fid derived) Sd) as [(k1 & c & k2 & -> & K & F1 & F2)|(k1 & k2 & Ek & F1 & F2)].
    - rewrite (lookup_present k1 c k2 fid derived F1 K) in Lk. injection Lk as Lk. rewrite (put_present k1 c k2 fid derived (Some v') F1 K), !map_app. cbn [map]. rewrite (size_entry _ (entry_of false c)). cbn [entry_of e_data set_val c_val]. rewrite Lk.
      unfold v_data. rewrite Iv. cbn [v' v_insts v_two andb negb]. rewrite !zlen_cons, zlen_mv_bytes, !mv_size_cons. change (mv_size []) with 0. unfold idata. cbn [snd]. lia.
    - rewrite Ek, (lookup_absent k1 k2 fid derived F1 F2) in Lk. discriminate. }
  rewrite Sz in E, C'. assert (T : (most <? dataWorkBuf_Cb t - CbTaggedColumns t + (size (map (entry_of false) cs) + (4 + zlen d))) = false) by (rewrite (rep_cb _ _ _ (cols_rep _ _ _ C)); apply Z.ltb_ge; lia).
  rewrite T in E, C'. split; [exact E|]. split; [unfold column_instances; rewrite Lk, Iv; reflexivity|]. exists (put_col cs fid derived (Some v')). split; [exact C'|]. exists v'. split; [now apply lookup_put_same|]. reflexivity.
Qed.

Definition one_value_record : TAGFIELDS := snd (run_calls (Loc := loc_bytes) false 40 (empty_record 100 10) (firstn 1 sample_calls)).

Lemma one_value_refines : refines false 40 (empty_record 100 10) [Column 300 false (Value false false false false [(false, [65; 66])])] one_value_record.
Proof.
  destruct (run_calls_spec (Loc := loc_bytes) false 40 (firstn 1 sample_calls) (empty_record 100 10) [] (empty_cols false 100 10)) as [_ F].
  - split; [cbn; lia|cbn; lia].
  - repeat (split; [call_ok|]); exact I.
  - vm_compute snd in F at 1. exact F.
Qed.

(** "AB" is added to a column that holds "AB". *)
Lemma large_page_accepts_duplicate_witness :
  fst (ErrSetColumn (Loc := loc_bytes) false 40 one_value_record text_field 300 0 (Some [65; 66]) JET_bitSetUniqueMultiValues) = JET_errSuccess.
Proof.
  destruct one_value_refines as (C & W & _).
  exact (proj1 (large_page_accepts_duplicate loc_bytes 40 one_value_record _ text_field 300 0 JET_bitSetUniqueMultiValues (Value false false false false [(false, [65; 66])]) false [65; 66]
    C W ltac:(call_ok) eq_refl eq_refl eq_refl eq_refl eq_refl ltac:(discriminate) ltac:(vm_compute; discriminate))).
Defined.

(** ** What the validator does not see *)

(** A large-page record whose only column has no byte, not even the header byte
    every column has there: the validator reads the byte behind the record for
    it and accepts the record, and ErrRetrieveColumn
    returns data whose size is -1 as an unsigned number. *)
Definition headless_record : mem := store16 (store16 bare_record 94 300) 96 4.

Theorem headless_column_is_accepted :
  FIsValidTagfields false 100 headless_record (Data 90 8) = true /\
  ErrRetrieveColumn false (TAGFIELDS_new false headless_record (Data 90 8)) no_defaults 300 false 1 0 = (JET_errSuccess, InRecord (Data 99 (u32 (-1)))).
Proof. split; vm_compute; reflexivity. Qed.
