(* ===== verification/Rec.v ===== *)
(** * Records (src/dev/ese/src/inc/rec.hxx, src/dev/ese/src/ese/fldmod.cxx, fldext.cxx)

    A record is a header, the data of its fixed columns at offsets that the
    schema gives, a bitmap of null flags, the end offsets of its variable
    columns, their data, and the tagged columns.  It holds the fixed and the
    variable columns up to the last one that was set; a column behind that has
    its default value, which is in the default record of the table.  The record
    is a part of a buffer in memory; setting a column moves what is behind it. *)

From Stdlib Require Import ZArith List Lia Bool.
From S2P Require Import Prelude Mem Norm TagFld.
Import ListNotations.

Definition JET_errNullInvalid : Z := -1504.
Definition JET_errAutoIncrementNotSet : Z := -1625.
Definition JET_errSetAutoIncrementTooHigh : Z := -1624.
Definition JET_errInvalidParameter : Z := -1003.
Definition JET_errInvalidBufferSize : Z := -1047.
Definition JET_errDatabaseCorrupted : Z := -1206.
Definition JET_errColumnNotFound : Z := -1507.
Definition JET_errColumnTooBig : Z := -1506.
Definition JET_errColumnDoesNotFit : Z := -1503.
Definition JET_wrnColumnMaxTruncated : Z := 1512.

Definition ffieldNotNull : Z := 0x0001.
Definition ffieldAutoincrement : Z := 0x0004.
Definition ffieldVersioned : Z := 0x10000.
Definition ffieldDeleted : Z := 0x20000.

Definition FFIELDNotNull (ff : Z) : bool := fbit ff ffieldNotNull.
Definition FFIELDAutoincrement (ff : Z) : bool := fbit ff ffieldAutoincrement.
Definition FFIELDCommittedDelete (ff : Z) : bool := fbit ff ffieldDeleted && negb (fbit ff ffieldVersioned).

Definition chRECFill : Z := 42.
Definition chRECFixedColAndKeyFill : Z := 32.
Definition wchRECFixedColAndKeyFill : Z := 32.

(** ** Column identifiers *)

Definition fidFixedLeast : Z := 1.
Definition fidFixedNone : Z := 0.
Definition fidFixedMost : Z := 127.
Definition fidVarLeast : Z := 128.
Definition fidVarNone : Z := 127.
Definition fidVarMost : Z := 255.
Definition fidTaggedLeast : Z := 256.

Definition FFixed (fid : Z) : bool := (fidFixedLeast <=? fid) && (fid <=? fidFixedMost).
Definition FVar (fid : Z) : bool := Z.lxor fid fidVarLeast <? fidVarLeast.
Definition FVarLeast (fid : Z) : bool := fid =? fidVarLeast.

(** [IndexOf] and [CountOf] for the two types. *)
Definition IndexOfFixed (fid : Z) : Z := fid - fidFixedLeast.
Definition CountOfFixed (fid : Z) : Z := fid - fidFixedLeast + 1.
Definition IndexOfVar (fid : Z) : Z := fid - fidVarLeast.
Definition CountOfVar (fid : Z) : Z := fid - fidVarLeast + 1.

(** The bits that tell which columns an update changed. *)
Definition IbHash (fid : Z) : Z :=
  if FFixed fid then (fid - fidFixedLeast) mod 32 / 8
  else if FVar fid then ((fid - fidVarLeast) mod 32 + 32) / 8
  else ((fid - fidTaggedLeast) mod 192 + 64) / 8.

Definition IbitHash (fid : Z) : Z :=
  if FFixed fid then Z.shiftl 1 ((fid - fidFixedLeast) mod 8)
  else if FVar fid then Z.shiftl 1 ((fid - fidVarLeast) mod 8)
  else Z.shiftl 1 ((fid - fidTaggedLeast) mod 8).

(** ** Null flags *)

Definition FixedNullBit (ifid : Z) : Z := Z.shiftl 1 (ifid mod 8).
Definition FFixedNullBit (m : mem) (pbitNullity ifid : Z) : bool := fbit (load8 m pbitNullity) (FixedNullBit ifid).
Definition SetFixedNullBit (m : mem) (pbitNullity ifid : Z) : mem :=
  store8 m pbitNullity (Z.lor (load8 m pbitNullity) (FixedNullBit ifid)).
Definition ResetFixedNullBit (m : mem) (pbitNullity ifid : Z) : mem :=
  store8 m pbitNullity (Z.ldiff (load8 m pbitNullity) (FixedNullBit ifid)).

Definition FVarNullBit (ibVarOffs : Z) : bool := fbit ibVarOffs 0x8000.
Definition SetVarNullBit (ibVarOffs : Z) : Z := Z.lor ibVarOffs 0x8000.
Definition ResetVarNullBit (ibVarOffs : Z) : Z := Z.land ibVarOffs 0x7fff.

(** ** The header of a record

    The accessors of the variable part are with the tagged columns, which
    follow it. *)

Definition FidFixedLastInRec (m : mem) (prec : Z) : Z := load8 m prec.
Definition SetFidFixedLastInRec (m : mem) (prec fid : Z) : mem := store8 m prec (u8 fid).
Definition SetFidVarLastInRec (m : mem) (prec fid : Z) : mem := store8 m (prec + 1) (u8 fid).
Definition SetIbEndOfFixedData (m : mem) (prec ib : Z) : mem := store16 m (prec + 2) ib.

Definition CFixedColumns (m : mem) (prec : Z) : Z := CountOfFixed (FidFixedLastInRec m prec).
Definition CbFixedNullBitMap (m : mem) (prec : Z) : Z := (CFixedColumns m prec + 7) / 8.
Definition PbFixedNullBitMap (m : mem) (prec : Z) : Z := prec + IbEndOfFixedData m prec - CbFixedNullBitMap m prec.
Definition PibVarOffsets (m : mem) (prec : Z) : Z := prec + IbEndOfFixedData m prec.

Definition IbVarOffsetStart (m : mem) (prec fidVar : Z) : Z :=
  if FVarLeast fidVar then 0 else IbVarOffset (load16 m (PibVarOffsets m prec + 2 * (IndexOfVar fidVar - 1))).

(** An empty record ([SetMinimumRecord]). *)
Definition SetMinimumRecord (m : mem) (data : DATA) : mem * DATA :=
  let m := store8 (store8 m (pv data) fidFixedNone) (pv data + 1) fidVarNone in
  (store16 m (pv data + 2) cbRecordMin, Data (pv data) cbRecordMin).

(** ** The largest record *)

Definition FIsSmallPage (cbPage : Z) : bool := cbPage <=? 1024 * 8.
Definition CbPageHeader (cbPage : Z) : Z := if FIsSmallPage cbPage then 40 else 80.
Definition CbPageDataMax (cbPage : Z) : Z := cbPage - CbPageHeader cbPage - 4 * 1 - 4.
Definition CbNDNodeMost (cbPage : Z) : Z := CbPageDataMax cbPage.
Definition cbKeyCount : Z := 2.
Definition JET_cbKeyMostMin : Z := 255.
Definition sizeof_DBK : Z := 4.

Definition CbRecordMost (cbPage cbKeyMost : Z) : Z :=
  if FIsSmallPage cbPage then CbNDNodeMost cbPage - cbKeyCount - Z.max JET_cbKeyMostMin (cbKeyCount + cbKeyMost)
  else CbNDNodeMost cbPage - cbKeyCount - cbKeyCount - cbKeyMost.

Definition CbRecordMostCHECK (cbPage : Z) : Z := CbRecordMost cbPage sizeof_DBK.

(** ** The table and the cursor *)

(** What is used of a TDB: the ranges of its columns, their definitions
    ([PfieldFixed] and so on, of a template column that of the template table),
    whether the type of a column is [JET_coltypNil], the end of the fixed
    columns, the default record, which is a buffer of its own, and the state of
    the column that counts records. *)
Record TDB := Tdb {
  FidFixedFirst : Z; FidFixedLast : Z; FidVarFirst : Z; FidVarLast : Z; FidTaggedFirst : Z; FidTaggedLast : Z;
  PfieldFixed : Z -> FIELD; PfieldVar : Z -> FIELD; PfieldTagged : Z -> FIELD;
  FColtypNil : Z -> bool;
  IbEndFixedColumns : Z;
  PdataDefaultRecord : option (mem * DATA);
  F8BytesAutoInc : bool; QwAutoincrement : Z }.

Definition IbOffsetOfNextColumn (ptdb : TDB) (fid : Z) : Z :=
  if FidFixedLast ptdb =? fid then IbEndFixedColumns ptdb else ibRecordOffset (PfieldFixed ptdb (fid + 1)).

(** What is used of a cursor: memory with its work buffer, the bits of the
    columns that were set, whether the column that counts records must be set,
    and the sizes of a page and of a key of its index. *)
Record FUCB := Fucb { f_m : mem; dataWorkBuf : DATA; rgbitSet : mem; fAnyColumnSet : bool; FFUCBMustSetAutoIncPrepared : bool; cbPage : Z; CbKeyMost : Z }.

Definition with_record (f : FUCB) (m : mem) (cb : Z) : FUCB :=
  Fucb m (Data (pv (dataWorkBuf f)) cb) (rgbitSet f) (fAnyColumnSet f) (FFUCBMustSetAutoIncPrepared f) (cbPage f) (CbKeyMost f).

Definition FUCBSetColumnSet (f : FUCB) (fid : Z) : FUCB :=
  Fucb (f_m f) (dataWorkBuf f) (store8 (rgbitSet f) (IbHash fid) (Z.lor (load8 (rgbitSet f) (IbHash fid)) (IbitHash fid))) true
    (FFUCBMustSetAutoIncPrepared f) (cbPage f) (CbKeyMost f).

Definition FFUCBColumnSet (f : FUCB) (fid : Z) : bool := fbit (load8 (rgbitSet f) (IbHash fid)) (IbitHash fid).

Definition f_cbRecordMost (f : FUCB) : Z := CbRecordMost (cbPage f) (CbKeyMost f).

(** The size of a record that is too small or too large for any record. *)
Definition bad_size (f : FUCB) (cbRec : Z) : bool := (cbRec <? cbRecordMin) || (CbRecordMostCHECK (cbPage f) <? cbRec).

(** ** Setting a fixed column *)

(** Sets the null bits of the new columns that share a byte with old ones:
    [n] columns from [fidT] on, until the next byte. *)
Fixpoint null_bits_loop (n : nat) (m : mem) (pbBits prgbitNullity fidT : Z) : mem :=
  match n with
  | O => m
  | S n =>
      let ifid := IndexOfFixed fidT in
      if pbBits + ifid / 8 =? prgbitNullity
      then null_bits_loop n (SetFixedNullBit m prgbitNullity ifid) pbBits prgbitNullity (fidT + 1)
      else m
  end.

Definition set_new_null_bits (m : mem) (pbBits pbBitsEnd fidFixedLastInRec fid : Z) : mem :=
  let '(m, prgbitNullity) :=
    if FFixed fidFixedLastInRec then
      let prgbitNullity := pbBits + IndexOfFixed fidFixedLastInRec / 8 in
      (null_bits_loop (Z.to_nat (fid - fidFixedLastInRec)) m pbBits prgbitNullity (fidFixedLastInRec + 1), prgbitNullity + 1)
    else (m, pbBits) in
  memset m prgbitNullity 0xff (pbBitsEnd - prgbitNullity).

(** A default value that counts: the column has one and is not deleted. *)
Definition FHasDefault (pfield : FIELD) : bool := FFIELDDefault (ffield pfield) && negb (FFIELDCommittedDelete (ffield pfield)).

(** Resets the null bits of [n] columns from [fidT] on that have a default
    value; also returns the last of them. *)
Fixpoint burst_fixed_loop (n : nat) (ptdb : TDB) (m : mem) (pbBits fidT fidLastDefaultToBurst : Z) : mem * Z :=
  match n with
  | O => (m, fidLastDefaultToBurst)
  | S n =>
      if FHasDefault (PfieldFixed ptdb fidT) then
        let ifid := IndexOfFixed fidT in
        burst_fixed_loop n ptdb (ResetFixedNullBit m (pbBits + ifid / 8) ifid) pbBits (fidT + 1) fidT
      else burst_fixed_loop n ptdb m pbBits (fidT + 1) fidLastDefaultToBurst
  end.

Definition burst_fixed_defaults (ptdb : TDB) (m : mem) (pbRec pbBits ibOldFixEnd fidFixedLastInRec fid : Z) : mem :=
  match PdataDefaultRecord ptdb with
  | None => m
  | Some (md, dataDefault) =>
      let fidLastDefaultToBurst := FidFixedLastInRec md (pv dataDefault) in
      if fidFixedLastInRec <? fidLastDefaultToBurst then
        let '(m, fidLastDefaultToBurst) :=
          burst_fixed_loop (Z.to_nat (Z.min fid fidLastDefaultToBurst - fidFixedLastInRec)) ptdb m pbBits (fidFixedLastInRec + 1) fidLastDefaultToBurst in
        if fidLastDefaultToBurst <=? fid then
          store_bytes m (pbRec + ibOldFixEnd) (load_bytes md (pv dataDefault + ibOldFixEnd) (IbOffsetOfNextColumn ptdb fidLastDefaultToBurst - ibOldFixEnd))
        else m
      else m
  end.

(** Makes room for the columns up to [fid]. *)
Definition extend_fixed (ptdb : TDB) (f : FUCB) (fid : Z) : Z * FUCB :=
  let m := f_m f in
  let pbRec := pv (dataWorkBuf f) in
  let cbRec := cb (dataWorkBuf f) in
  let pfield := PfieldFixed ptdb fid in
  let fidFixedLastInRec := FidFixedLastInRec m pbRec in
  let ibOldFixEnd := u16 (PbFixedNullBitMap m pbRec - pbRec) in
  let ibOldBitMapEnd := IbEndOfFixedData m pbRec in
  let cbOldBitMap := ibOldBitMapEnd - ibOldFixEnd in
  let ibNewFixEnd := u16 (ibRecordOffset pfield + cbMaxLen pfield) in
  let cbNewBitMap := (CountOfFixed fid + 7) / 8 in
  let ibNewBitMapEnd := u16 (ibNewFixEnd + cbNewBitMap) in
  let cbShift := ibNewBitMapEnd - ibOldBitMapEnd in
  if f_cbRecordMost f <? cbRec + cbShift then (JET_errRecordTooBig, f)
  else
    let m := memmove m (pbRec + ibNewBitMapEnd) (pbRec + ibOldBitMapEnd) (cbRec - ibOldBitMapEnd) in
    let m := memset m (pbRec + ibOldBitMapEnd) chRECFill cbShift in
    let m := SetIbEndOfFixedData m pbRec ibNewBitMapEnd in
    let m := memmove m (pbRec + ibNewFixEnd) (pbRec + ibOldFixEnd) cbOldBitMap in
    let m := memset m (pbRec + ibOldFixEnd) chRECFill (ibNewFixEnd - ibOldFixEnd) in
    let m := set_new_null_bits m (pbRec + ibNewFixEnd) (pbRec + ibNewBitMapEnd) fidFixedLastInRec fid in
    let f := with_record f m (cbRec + cbShift) in
    if match PdataDefaultRecord ptdb with Some (_, d) => bad_size f (cb d) | None => false end then (JET_errDatabaseCorrupted, f)
    else
      let m := burst_fixed_defaults ptdb m pbRec (pbRec + ibNewFixEnd) ibOldFixEnd fidFixedLastInRec fid in
      (JET_errSuccess, with_record f (SetFidFixedLastInRec m pbRec fid) (cbRec + cbShift)).

(** [RECTextColumnPadding] of [cbData] bytes, the first [cbDataField] of which are data. *)
Fixpoint text_padding_loop (n : nat) (m : mem) (pbData ibDataFill : Z) : mem :=
  match n with
  | O => m
  | S n => text_padding_loop n (store8 m (pbData + ibDataFill) (wchRECFixedColAndKeyFill / (if ibDataFill mod 2 =? 0 then 1 else 256) mod 256)) pbData (ibDataFill + 1)
  end.

Definition RECTextColumnPadding (m : mem) (pbData cbData cbDataField cp : Z) : mem :=
  if usUniCodePage =? cp then text_padding_loop (Z.to_nat (cbData - cbDataField)) m pbData cbDataField
  else memset m (pbData + cbDataField) chRECFixedColAndKeyFill (cbData - cbDataField).

(** Data shorter than the column: an error for numbers, padded otherwise. *)
Definition pad_fixed (m : mem) (pbColumn : Z) (pfield : FIELD) (d : list Z) : Z * mem :=
  if Cb d =? cbMaxLen pfield then (JET_errSuccess, m)
  else
    match coltyp pfield with
    | coltypBit | coltypUnsignedByte | coltypShort | coltypUnsignedShort | coltypLong | coltypUnsignedLong | coltypLongLong | coltypUnsignedLongLong
    | coltypCurrency | coltypIEEESingle | coltypIEEEDouble | coltypDateTime | coltypGUID => (JET_errInvalidBufferSize, m)
    | coltypBinary =>
        if cbMaxLen pfield <? Cb d then (JET_errInvalidBufferSize, m)
        else (JET_errSuccess, memset m (pbColumn + Cb d) 0 (cbMaxLen pfield - Cb d))
    | _ =>
        if cbMaxLen pfield <? Cb d then (JET_errInvalidBufferSize, m)
        else (JET_errSuccess, RECTextColumnPadding m pbColumn (cbMaxLen pfield) (Cb d) (cp pfield))
    end.

(** A number the caller sets in the column that counts records. *)
Definition check_autoinc (ptdb : TDB) (f : FUCB) (pfield : FIELD) (d : list Z) : Z :=
  if FFIELDAutoincrement (ffield pfield) && FFUCBMustSetAutoIncPrepared f then
    let at_data a := nth (Z.to_nat a) d 0 in
    let qwDataValue := if F8BytesAutoInc ptdb then load64 at_data 0 else load32 at_data 0 in
    if qwDataValue =? 0 then JET_errInvalidParameter
    else if QwAutoincrement ptdb <=? qwDataValue then JET_errSetAutoIncrementTooHigh
    else JET_errSuccess
  else JET_errSuccess.

(** The value of a column that is in the record: [None] is null. *)
Definition store_fixed (ptdb : TDB) (f : FUCB) (fid : Z) (pfield : FIELD) (d : option (list Z)) : Z * FUCB :=
  let m := f_m f in
  let pbRec := pv (dataWorkBuf f) in
  let cbRec := cb (dataWorkBuf f) in
  let ifid := IndexOfFixed fid in
  let prgbitNullity := PbFixedNullBitMap m pbRec + ifid / 8 in
  match d with
  | None => (JET_errSuccess, with_record f (SetFixedNullBit m prgbitNullity ifid) cbRec)
  | Some d =>
      let pbColumn := pbRec + ibRecordOffset pfield in
      let '(err, m) := pad_fixed m pbColumn pfield d in
      if negb (err =? JET_errSuccess) then (err, with_record f m cbRec)
      else
        let err := check_autoinc ptdb f pfield d in
        if negb (err =? JET_errSuccess) then (err, with_record f m cbRec)
        else
          let m := ResetFixedNullBit m prgbitNullity ifid in
          let m :=
            match coltyp pfield with
            | coltypBit => store8 m pbColumn (if hd 0 d =? 0 then 0x00 else 0xff)
            | _ => RECCopyData m pbColumn d
            end in
          (JET_errSuccess, with_record f m cbRec)
  end.

(** [None] and data of no bytes stand for null. *)
Definition ErrRECISetFixedColumn (ptdb : TDB) (f : FUCB) (fid : Z) (pdataField : option (list Z)) : Z * FUCB :=
  let pfield := PfieldFixed ptdb fid in
  let data := match pdataField with Some d => if Cb d =? 0 then None else Some d | None => None end in
  let fNull := match data with None => true | Some _ => false end in
  if bad_size f (cb (dataWorkBuf f)) then (JET_errDatabaseCorrupted, f)
  else if (FidFixedLast ptdb <? fid) || (fid <? FidFixedFirst ptdb) then (JET_errColumnNotFound, f)
  else if FColtypNil ptdb fid then (JET_errColumnNotFound, f)
  else if fNull && FFIELDNotNull (ffield pfield) then (JET_errNullInvalid, f)
  else if fNull && (FFIELDAutoincrement (ffield pfield) && negb (FFIELDDefault (ffield pfield))) then (JET_errAutoIncrementNotSet, f)
  else
    let f := FUCBSetColumnSet f fid in
    let '(err, f) :=
      if FidFixedLastInRec (f_m f) (pv (dataWorkBuf f)) <? fid then extend_fixed ptdb f fid else (JET_errSuccess, f) in
    if negb (err =? JET_errSuccess) then (err, f) else store_fixed ptdb f fid pfield data.

(** ** Setting a variable column *)

(** The bytes the default values of [n] columns from [fidT] on take, and the
    last column that has one. *)
Fixpoint burst_size_loop (n : nat) (ptdb : TDB) (md : mem) (pibDefaultVarOffs fidT cbBurstDefaults fidLastDefault : Z) : Z * Z :=
  match n with
  | O => (cbBurstDefaults, fidLastDefault)
  | S n =>
      if FHasDefault (PfieldVar ptdb fidT) then
        let ifid := IndexOfVar fidT in
        let ibVarOffset := if FVarLeast fidT then 0 else IbVarOffset (load16 md (pibDefaultVarOffs + 2 * (ifid - 1))) in
        burst_size_loop n ptdb md pibDefaultVarOffs (fidT + 1)
          (u32 (cbBurstDefaults + (IbVarOffset (load16 md (pibDefaultVarOffs + 2 * ifid)) - ibVarOffset))) fidT
      else burst_size_loop n ptdb md pibDefaultVarOffs (fidT + 1) cbBurstDefaults fidLastDefault
  end.

(** The second result is [*pfidLastDefault]; where the code leaves that as it
    was, the first result is not positive and it is not used. *)
Definition CbBurstVarDefaults (ptdb : TDB) (f : FUCB) (fidVarLastInRec fidSet : Z) : Z * Z :=
  match PdataDefaultRecord ptdb with
  | None => (0, fidVarNone)
  | Some (md, d) =>
      if bad_size f (cb d) then (u32 JET_errDatabaseCorrupted, fidVarNone)
      else
        let fidLastDefault := FidVarLastInRec md (pv d) in
        if fidVarLastInRec <? fidLastDefault
        then burst_size_loop (Z.to_nat (fidSet - (fidVarLastInRec + 1))) ptdb md (PibVarOffsets md (pv d)) (fidVarLastInRec + 1) 0 fidLastDefault
        else (0, fidLastDefault)
  end.

(** [*pib = w] and [*pib = *pib + delta] for [n] offsets from [pib] on. *)
Fixpoint fill_offsets (n : nat) (m : mem) (pib w : Z) : mem :=
  match n with
  | O => m
  | S n => fill_offsets n (store16 m pib w) (pib + 2) w
  end.

Fixpoint shift_offsets (n : nat) (m : mem) (pib delta : Z) : mem :=
  match n with
  | O => m
  | S n => shift_offsets n (store16 m pib (u16 (load16 m pib + delta))) (pib + 2) delta
  end.

(** Copies the default value of the column [fidT]. *)
Definition burst_var_one (ptdb : TDB) (m md : mem) (pbVarData pbVarDataDefault fidT pib pibDefault : Z) : mem :=
  if FHasDefault (PfieldVar ptdb fidT) then
    if FVarLeast fidT then
      let cb := IbVarOffset (load16 md pibDefault) in
      store_bytes (store16 m pib cb) pbVarData (load_bytes md pbVarDataDefault cb)
    else
      let cb := u16 (IbVarOffset (load16 md pibDefault) - IbVarOffset (load16 md (pibDefault - 2))) in
      let ib := u16 (IbVarOffset (load16 m (pib - 2)) + cb) in
      let m := store16 m pib ib in
      store_bytes m (pbVarData + IbVarOffset (load16 m (pib - 2))) (load_bytes md (pbVarDataDefault + IbVarOffset (load16 md (pibDefault - 2))) cb)
  else if negb (FVarLeast fidT) then
    let m := store16 m pib (IbVarOffset (load16 m (pib - 2))) in
    store16 m pib (SetVarNullBit (load16 m pib))
  else m.

(** Copies the default values of [n] columns from [fidT] on. *)
Fixpoint burst_var_loop (n : nat) (ptdb : TDB) (m md : mem) (pbVarData pbVarDataDefault fidT pib pibDefault : Z) : mem :=
  match n with
  | O => m
  | S n => burst_var_loop n ptdb (burst_var_one ptdb m md pbVarData pbVarDataDefault fidT pib pibDefault) md pbVarData pbVarDataDefault (fidT + 1) (pib + 2) (pibDefault + 2)
  end.

(** The default values of the columns up to [fidLastDefault]; the offsets of
    the columns behind are moved. *)
Definition burst_var_defaults (ptdb : TDB) (m : mem) (pbRec cbRec pibVarOffs ibTagFields fidVarLastInRec fidLastDefault fid cbBurstDefaults : Z) : mem :=
  match PdataDefaultRecord ptdb with
  | None => m
  | Some (md, d) =>
      let pbVarData := PbVarData m pbRec in
      let pbVarDataDefault := PbVarData md (pv d) in
      let pibDefaultVarOffs := PibVarOffsets md (pv d) in
      let cbTaggedData := u32 (cbRec - u32 (pbVarData + IbVarOffset ibTagFields - pbRec)) in
      let m := memmove m (pbVarData + IbVarOffset ibTagFields + cbBurstDefaults) (pbVarData + IbVarOffset ibTagFields) cbTaggedData in
      let n := fidLastDefault - fidVarLastInRec in
      let m := burst_var_loop (Z.to_nat n) ptdb m md pbVarData pbVarDataDefault (fidVarLastInRec + 1)
                 (pibVarOffs + 2 * CountOfVar fidVarLastInRec) (pibDefaultVarOffs + 2 * CountOfVar fidVarLastInRec) in
      shift_offsets (Z.to_nat (fid - Z.max fidLastDefault fidVarLastInRec)) m (pibVarOffs + 2 * (CountOfVar fidVarLastInRec + Z.max 0 n)) cbBurstDefaults
  end.

(** Makes room for the columns up to [fid]. *)
Definition extend_var (ptdb : TDB) (f : FUCB) (fid cbCopy : Z) : Z * FUCB :=
  let m := f_m f in
  let pbRec := pv (dataWorkBuf f) in
  let cbRec := cb (dataWorkBuf f) in
  let fidVarLastInRec := FidVarLastInRec m pbRec in
  let cbNeed := (fid - fidVarLastInRec) * 2 in
  let '(cbBurst, fidLastDefault) := CbBurstVarDefaults ptdb f fidVarLastInRec fid in
  let cbBurstDefaults := s32 cbBurst in
  if f_cbRecordMost f <? cbRec + cbNeed + cbBurstDefaults + cbCopy then (JET_errRecordTooBig, f)
  else
    let pibVarOffs := PibVarOffsets m pbRec in
    let pbVarOffsEnd := PbVarData m pbRec in
    let m := memmove m (pbVarOffsEnd + cbNeed) pbVarOffsEnd (pbRec + cbRec - pbVarOffsEnd) in
    let m := memset m pbVarOffsEnd chRECFill cbNeed in
    let ibTagFields := SetVarNullBit (IbEndOfVarData m pbRec) in
    let pibLast := pibVarOffs + 2 * IndexOfVar fid in
    let m := fill_offsets (Z.to_nat ((pibLast - pbVarOffsEnd) / 2 + 1)) m pbVarOffsEnd ibTagFields in
    let m := SetFidVarLastInRec m pbRec fid in
    let cbRec := cbRec + cbNeed in
    let m := if 0 <? cbBurstDefaults
             then burst_var_defaults ptdb m pbRec cbRec pibVarOffs ibTagFields fidVarLastInRec fidLastDefault fid cbBurstDefaults else m in
    (JET_errSuccess, with_record f m (cbRec + cbBurstDefaults)).

(** The value of a column that is in the record: [cbCopy] bytes of [pdataField]. *)
Definition store_var (f : FUCB) (fid cbCopy : Z) (pdataField : option (list Z)) : Z * FUCB :=
  let m := f_m f in
  let pbRec := pv (dataWorkBuf f) in
  let cbRec := cb (dataWorkBuf f) in
  let pibVarOffs := PibVarOffsets m pbRec in
  let pib := pibVarOffs + 2 * IndexOfVar fid in
  let ibStartOfColumn := if FVarLeast fid then 0 else IbVarOffset (load16 m (pib - 2)) in
  let ibEndOfColumn := IbVarOffset (load16 m pib) in
  let dbFieldData := cbCopy - (ibEndOfColumn - ibStartOfColumn) in
  if negb (dbFieldData =? 0) && (f_cbRecordMost f <? cbRec + dbFieldData) then (JET_errRecordTooBig, f)
  else
    let '(m, cbRec) :=
      if dbFieldData =? 0 then (m, cbRec)
      else
        let pbVarData := PbVarData m pbRec in
        let m := memmove m (pbVarData + ibEndOfColumn + dbFieldData) (pbVarData + ibEndOfColumn) (cbRec - (pbVarData + ibEndOfColumn - pbRec)) in
        let pibLast := pibVarOffs + 2 * IndexOfVar (FidVarLastInRec m pbRec) in
        (shift_offsets (Z.to_nat ((pibLast - pib) / 2 + 1)) m pib dbFieldData, cbRec + dbFieldData) in
    let m :=
      match pdataField with
      | Some d => if 0 <? cbCopy then store_bytes m (PbVarData m pbRec + ibStartOfColumn) (firstn (Z.to_nat cbCopy) d) else m
      | None => m
      end in
    let m := store16 m pib (match pdataField with None => SetVarNullBit (load16 m pib) | Some _ => ResetVarNullBit (load16 m pib) end) in
    (JET_errSuccess, with_record f m cbRec).

(** [None] is null; a value of no bytes is not.  Data that are too long are cut. *)
Definition ErrRECISetVarColumn (ptdb : TDB) (f : FUCB) (fid : Z) (pdataField : option (list Z)) : Z * FUCB :=
  let pfield := PfieldVar ptdb fid in
  if bad_size f (cb (dataWorkBuf f)) then (JET_errDatabaseCorrupted, f)
  else if (FidVarLast ptdb <? fid) || (fid <? FidVarFirst ptdb) then (JET_errColumnNotFound, f)
  else if FColtypNil ptdb fid then (JET_errColumnNotFound, f)
  else
    let f := FUCBSetColumnSet f fid in
    match pdataField with
    | None =>
        if FFIELDNotNull (ffield pfield) then (JET_errNullInvalid, f)
        else
          let '(err, f) :=
            if FidVarLastInRec (f_m f) (pv (dataWorkBuf f)) <? fid then extend_var ptdb f fid 0 else (JET_errSuccess, f) in
          if negb (err =? JET_errSuccess) then (err, f) else store_var f fid 0 None
    | Some d =>
        let '(cbCopy, wrn) := if cbMaxLen pfield <? Cb d then (cbMaxLen pfield, JET_wrnColumnMaxTruncated) else (Cb d, JET_errSuccess) in
        let '(err, f) :=
          if FidVarLastInRec (f_m f) (pv (dataWorkBuf f)) <? fid then extend_var ptdb f fid cbCopy else (JET_errSuccess, f) in
        if negb (err =? JET_errSuccess) then (err, f)
        else let '(err, f) := store_var f fid cbCopy (Some d) in (if err =? JET_errSuccess then wrn else err, f)
    end.

(** ** Setting a tagged column *)

Definition BlockSizeAes256 : Z := 16.
Definition CbOSEncryptAes256SizeNeeded (cbDataLen : Z) : Z :=
  let cbDataLen := u32 (cbDataLen + 4) in
  u32 (cbDataLen + (BlockSizeAes256 - cbDataLen mod BlockSizeAes256) + (1 + BlockSizeAes256)).

Definition CbLVIntrinsicTableMost (f : FUCB) : Z := u32 (f_cbRecordMost f - 4 - sizeof_TAGFLD - sizeof_TAGFLD_HEADER).

(** The size of a value of the type, if it has one. *)
Definition cb_of_type (c : JET_COLTYP) : option Z :=
  match c with
  | coltypBit | coltypUnsignedByte => Some 1
  | coltypShort | coltypUnsignedShort => Some 2
  | coltypLong | coltypUnsignedLong | coltypIEEESingle => Some 4
  | coltypLongLong | coltypUnsignedLongLong | coltypCurrency | coltypIEEEDouble | coltypDateTime => Some 8
  | coltypGUID => Some 16
  | _ => None
  end.

Section Rec.
Context `{Loc : NormLocale}.

Definition ErrRECISetTaggedColumn (ptdb : TDB) (f : FUCB) (fid itagSequence : Z) (pdataToSet : option (list Z)) (fUseDerivedBit : bool) (grbit : Z) : Z * FUCB :=
  let pfield := PfieldTagged ptdb fid in
  let cbData := match pdataToSet with Some d => Cb d | None => 0 end in
  let fNull := match pdataToSet with None => true | Some _ => false end in
  if (FidTaggedLast ptdb <? fid) || (fid <? FidTaggedFirst ptdb) then (JET_errColumnNotFound, f)
  else if FColtypNil ptdb fid then (JET_errColumnNotFound, f)
  else if fNull && FFIELDNotNull (ffield pfield) then (JET_errNullInvalid, f)
  else
    let f := FUCBSetColumnSet f fid in
    let cbMaxLenPhysical := if fbit grbit grbitSetColumnEncrypted then CbOSEncryptAes256SizeNeeded (cbMaxLen pfield) else cbMaxLen pfield in
    if (0 <? cbMaxLen pfield) && negb fNull && (cbMaxLenPhysical <? cbData) then (JET_errColumnTooBig, f)
    else if (0 <? cbData) && match cb_of_type (coltyp pfield) with Some n => negb (cbData =? n) | None => false end then (JET_errInvalidBufferSize, f)
    else if negb fNull && (CbLVIntrinsicTableMost f <? cbData) then (JET_errColumnDoesNotFit, f)
    else
      let small := FIsSmallPage (cbPage f) in
      let '(errT, t) := ErrSetColumn small (f_cbRecordMost f) (TAGFIELDS_new small (f_m f) (dataWorkBuf f)) pfield fid itagSequence pdataToSet
                          (Z.lor grbit (if fUseDerivedBit then grbitSetColumnUseDerivedBit else 0)) in
      (errT, with_record f (tf_m t) (dataWorkBuf_Cb t)).

(** [ptdb] is that of the table the column belongs to, the template table for
    a template column, and [fUseDerivedBit] what [FRECUseDerivedBit] says. *)
Definition ErrRECSetColumn (ptdb : TDB) (f : FUCB) (fid itagSequence : Z) (pdataField : option (list Z)) (fUseDerivedBit : bool) (grbit : Z) : Z * FUCB :=
  if FTagged fid then ErrRECISetTaggedColumn ptdb f fid itagSequence pdataField fUseDerivedBit grbit
  else if FFixed fid then ErrRECISetFixedColumn ptdb f fid pdataField
  else ErrRECISetVarColumn ptdb f fid pdataField.

(** ** Reading columns *)

(** [*pdataField]: data in the record, in the default record, or nothing. *)
Inductive COLDATA := InRec (d : DATA) | InDefaultRec (d : DATA) | NoData.

Definition of_default (r : Z * COLDATA) : Z * COLDATA :=
  (fst r, match snd r with InRec d => InDefaultRec d | x => x end).

(** The default value is read by the same function from the default record;
    without [fuel] the recursion has not ended.  [cbMost] is the size of the
    largest record, [CbRecordMostWithGlobalPageSize]. *)
Fixpoint ErrRECIRetrieveFixedColumn (fuel : nat) (cbMost : Z) (ptdb : TDB) (m : mem) (dataRec : DATA) (fid : Z) : option (Z * COLDATA) :=
  match fuel with
  | O => None
  | S fuel =>
      let prec := pv dataRec in
      let pfield := PfieldFixed ptdb fid in
      if (cb dataRec <? cbRecordMin) || (cbMost <? cb dataRec) then Some (JET_errDatabaseCorrupted, NoData)
      else if FidFixedLastInRec m prec <? fid then
        if FFIELDDefault (ffield pfield) then
          match PdataDefaultRecord ptdb with
          | Some (md, d) => match ErrRECIRetrieveFixedColumn fuel cbMost ptdb md d fid with Some r => Some (of_default r) | None => None end
          | None => None
          end
        else Some (JET_wrnColumnNull, NoData)
      else if FFixedNullBit m (PbFixedNullBitMap m prec + IndexOfFixed fid / 8) (IndexOfFixed fid) then Some (JET_wrnColumnNull, NoData)
      else Some (JET_errSuccess, InRec (Data (prec + ibRecordOffset pfield) (cbMaxLen pfield)))
  end.

Fixpoint ErrRECIRetrieveVarColumn (fuel : nat) (cbMost : Z) (ptdb : TDB) (m : mem) (dataRec : DATA) (fid : Z) : option (Z * COLDATA) :=
  match fuel with
  | O => None
  | S fuel =>
      let prec := pv dataRec in
      if (cb dataRec <? cbRecordMin) || (cbMost <? cb dataRec) then Some (JET_errDatabaseCorrupted, NoData)
      else if FidVarLastInRec m prec <? fid then
        if FFIELDDefault (ffield (PfieldVar ptdb fid)) then
          match PdataDefaultRecord ptdb with
          | Some (md, d) => match ErrRECIRetrieveVarColumn fuel cbMost ptdb md d fid with Some r => Some (of_default r) | None => None end
          | None => None
          end
        else Some (JET_wrnColumnNull, NoData)
      else
        let ibVarOffs := load16 m (PibVarOffsets m prec + 2 * IndexOfVar fid) in
        let ibStartOfColumn := IbVarOffsetStart m prec fid in
        if FVarNullBit ibVarOffs then Some (JET_wrnColumnNull, NoData)
        else
          let cbField := u32 (IbVarOffset ibVarOffs - ibStartOfColumn) in
          Some (JET_errSuccess, InRec (if cbField =? 0 then Data 0 0 else Data (PbVarData m prec + ibStartOfColumn) cbField))
  end.

(** Whether a column is in the record, and null. *)
Definition ErrRECIFixedColumnInRecord (m : mem) (dataRec : DATA) (fid : Z) : Z :=
  let prec := pv dataRec in
  if FidFixedLastInRec m prec <? fid then JET_errColumnNotFound
  else if FFixedNullBit m (PbFixedNullBitMap m prec + IndexOfFixed fid / 8) (IndexOfFixed fid) then JET_wrnColumnNull else JET_errSuccess.

Definition ErrRECIVarColumnInRecord (m : mem) (dataRec : DATA) (fid : Z) : Z :=
  let prec := pv dataRec in
  if FidVarLastInRec m prec <? fid then JET_errColumnNotFound
  else if FVarNullBit (load16 m (PibVarOffsets m prec + 2 * IndexOfVar fid)) then JET_wrnColumnNull else JET_errSuccess.

(** [UseDerived] is [fUseDerivedBit], and [df] the table's default values. *)
Definition ErrRECIRetrieveTaggedColumn (cbPage : Z) (m : mem) (dataRec : DATA) (df : DEFAULTS) (fid itagSequence grbit : Z) (fUseDerivedBit : bool) : Z * RETRIEVED :=
  if (cb dataRec <? cbRecordMin) || (CbRecordMostCHECK cbPage <? cb dataRec) then (JET_errDatabaseCorrupted, Nullified)
  else ErrRetrieveColumn (FIsSmallPage cbPage) (TAGFIELDS_new (FIsSmallPage cbPage) m dataRec) df fid fUseDerivedBit itagSequence grbit.
End Rec.
