(* ===== verification/RecView.v ===== *)
(** * Records: what a record in memory stores

    The columns of a record as lists of values, the predicate that memory holds
    such a record, and what the accessors and the readers of columns return. *)

From Stdlib Require Import ZArith List Lia Bool.
From S2P Require Import Prelude Mem Norm TagFld TagFldView TagFldOps Rec.
Import ListNotations.

(** ** Columns as values *)

(** The fixed and variable columns the record contains, from the first on
    ([None]: null), and the bytes of its tagged columns. *)
Record RECORD := Rcd { r_fixed : list (option (list Z)); r_var : list (option (list Z)); r_tag : list Z }.

Definition znth (l : list (option (list Z))) (i : Z) : option (list Z) := nth (Z.to_nat i) l None.
Definition vbytes (o : option (list Z)) : list Z := match o with Some v => v | None => [] end.
Definition is_null (o : option (list Z)) : bool := match o with Some _ => false | None => true end.

(** The end offsets of variable columns behind [o], and their data. *)
Fixpoint var_words (o : Z) (l : list (option (list Z))) : list Z :=
  match l with
  | [] => []
  | x :: l => let e := o + zlen (vbytes x) in le16 (e + (if is_null x then 32768 else 0)) ++ var_words e l
  end.

Definition var_data (l : list (option (list Z))) : list Z := concat (map vbytes l).

Definition nfixed (r : RECORD) : Z := zlen (r_fixed r).
Definition nvar (r : RECORD) : Z := zlen (r_var r).

Lemma zlen_var_words l : forall o, zlen (var_words o l) = 2 * zlen l.
Proof. induction l as [|x l IH]; intros o; [reflexivity|]. cbn [var_words]. rewrite zlen_app, zlen_le16, IH, zlen_cons. lia. Qed.
Lemma var_data_app l1 l2 : var_data (l1 ++ l2) = var_data l1 ++ var_data l2.
Proof. unfold var_data. now rewrite map_app, concat_app. Qed.
Lemma var_data_cons x l : var_data (x :: l) = vbytes x ++ var_data l.
Proof. reflexivity. Qed.
Lemma var_words_app l1 : forall o l2, var_words o (l1 ++ l2) = var_words o l1 ++ var_words (o + zlen (var_data l1)) l2.
Proof.
  induction l1 as [|x l1 IH]; intros o l2; cbn [var_words app]; [now rewrite Z.add_0_r|]. rewrite IH, var_data_cons, zlen_app, <- app_assoc, Z.add_assoc. reflexivity.
Qed.

Lemma znth_app1 l1 l2 i : 0 <= i < zlen l1 -> znth (l1 ++ l2) i = znth l1 i.
Proof. intros H. unfold znth. apply app_nth1. unfold zlen in H. lia. Qed.
Lemma znth_app2 l1 l2 i : zlen l1 <= i -> znth (l1 ++ l2) i = znth l2 (i - zlen l1).
Proof. intros H. unfold znth, zlen in *. rewrite app_nth2 by lia. f_equal. lia. Qed.
Lemma znth_split l i : 0 <= i < zlen l -> exists l1 l2, l = l1 ++ znth l i :: l2 /\ zlen l1 = i.
Proof.
  intros H. unfold zlen in H. destruct (nth_split l None (n := Z.to_nat i)) as (l1 & l2 & E & L); [lia|]. exists l1, l2. split; [exact E|]. unfold zlen. lia.
Qed.

(** ** Offsets with a null bit *)

Definition var_word (e : Z) (x : option (list Z)) : Z := e + (if is_null x then 32768 else 0).

Lemma var_word_range e x : 0 <= e < 32768 -> 0 <= var_word e x < 65536.
Proof. unfold var_word. destruct (is_null x); lia. Qed.

Lemma IbVarOffset_word e x : 0 <= e < 32768 -> IbVarOffset (var_word e x) = e.
Proof. intros H. unfold IbVarOffset, var_word. change 0x7fff with (Z.ones 15). rewrite Z.land_ones by lia. change (2 ^ 15) with 32768. destruct (is_null x); zlia. Qed.

Lemma FVarNullBit_word e x : 0 <= e < 32768 -> FVarNullBit (var_word e x) = is_null x.
Proof.
  intros H. unfold FVarNullBit, fbit, var_word. pose proof (land_high (if is_null x then 1 else 0) e 15 1 ltac:(lia) H) as L. change (1 * 2 ^ 15) with 0x8000 in L.
  replace (e + _) with ((if is_null x then 1 else 0) * 2 ^ 15 + e) by (change (2 ^ 15) with 32768; destruct (is_null x); lia). rewrite L. destruct (is_null x); reflexivity.
Qed.

Lemma SetVarNullBit_word e x : 0 <= e < 32768 -> SetVarNullBit (var_word e x) = var_word e None.
Proof.
  intros H. unfold SetVarNullBit, var_word. cbn [is_null]. pose proof (disjoint_add 1 e 15 ltac:(lia) H) as D. change (1 * 2 ^ 15) with 32768 in D.
  destruct (is_null x); [|rewrite Z.add_0_r, Z.lor_comm; change 0x8000 with 32768; lia]. rewrite (Z.add_comm e), D. change 0x8000 with 32768. rewrite Z.lor_comm, Z.lor_assoc, Z.lor_diag. reflexivity.
Qed.

Lemma ResetVarNullBit_word e x v : 0 <= e < 32768 -> ResetVarNullBit (var_word e x) = var_word e (Some v).
Proof. intros H. change (ResetVarNullBit (var_word e x)) with (IbVarOffset (var_word e x)). rewrite IbVarOffset_word by exact H. unfold var_word. cbn [is_null]. lia. Qed.

(** The offset of one column. *)
Lemma word_at m a o l1 x l2 : holds m a (var_words o (l1 ++ x :: l2)) -> 0 <= o + zlen (var_data l1) + zlen (vbytes x) < 32768 ->
  load16 m (a + 2 * zlen l1) = var_word (o + zlen (var_data l1) + zlen (vbytes x)) x.
Proof.
  intros H L. rewrite var_words_app, holds_app, zlen_var_words in H. destruct H as [_ H]. cbn [var_words] in H. rewrite holds_app in H. destruct H as [H _].
  rewrite (holds_le16 _ _ _ H). apply u16_small. now apply var_word_range.
Qed.

(** The offset of the end of the columns [l1]: that of the last of them. *)
Lemma word_before m a l1 l2 : holds m a (var_words 0 (l1 ++ l2)) -> zlen (var_data l1) < 32768 -> 0 < zlen l1 ->
  IbVarOffset (load16 m (a + 2 * (zlen l1 - 1))) = zlen (var_data l1).
Proof.
  intros H L P. destruct (exists_last (l := l1)) as (k & x & ->); [intros ->; now cbn in P|]. rewrite <- app_assoc in H. rewrite zlen_app, zlen_cons, zlen_nil.
  rewrite var_data_app, zlen_app in *. cbn [app] in H. change (var_data [x]) with (vbytes x ++ []) in *. rewrite app_nil_r in *. pose proof (zlen_nonneg (var_data k)). pose proof (zlen_nonneg (vbytes x)).
  replace (zlen k + (1 + 0) - 1) with (zlen k) by lia. rewrite (word_at m a 0 k x l2 H) by lia. rewrite IbVarOffset_word by lia. lia.
Qed.

(** ** The schema *)

Section View.
Variable ptdb : TDB.

(** Where the data of the fixed columns up to [fid] end. *)
Definition off (fid : Z) : Z := IbOffsetOfNextColumn ptdb fid.

Definition fixed_end (nf : Z) : Z := off nf + (nf + 7) / 8.
Definition rec_size (r : RECORD) : Z := fixed_end (nfixed r) + 2 * nvar r + zlen (var_data (r_var r)) + zlen (r_tag r).

Record schema_ok : Prop := {
  sc_fixed : 1 <= FidFixedFirst ptdb /\ 0 <= FidFixedLast ptdb <= fidFixedMost;
  sc_start : off 0 = cbRecordMin;
  sc_column : forall fid, 1 <= fid <= FidFixedLast ptdb -> 0 <= cbMaxLen (PfieldFixed ptdb fid) /\ ibRecordOffset (PfieldFixed ptdb fid) + cbMaxLen (PfieldFixed ptdb fid) <= off fid;
  sc_live : forall fid, 1 <= fid <= FidFixedLast ptdb -> FColtypNil ptdb fid = false -> ibRecordOffset (PfieldFixed ptdb fid) + cbMaxLen (PfieldFixed ptdb fid) = off fid;
  sc_type : forall fid, 1 <= fid <= FidFixedLast ptdb -> FColtypNil ptdb fid = false -> match cb_of_type (coltyp (PfieldFixed ptdb fid)) with Some n => cbMaxLen (PfieldFixed ptdb fid) = n | None => FFIELDAutoincrement (ffield (PfieldFixed ptdb fid)) = false end;
  sc_end : off (FidFixedLast ptdb) <= 32700;
  sc_var : fidVarLeast <= FidVarFirst ptdb /\ FidVarLast ptdb <= fidVarMost;
  sc_var_len : forall fid, FidVarFirst ptdb <= fid <= FidVarLast ptdb -> 0 <= cbMaxLen (PfieldVar ptdb fid) < 32768
}.

Record record_ok (r : RECORD) : Prop := {
  ro_fixed : nfixed r <= FidFixedLast ptdb;
  ro_var : nvar r <= 128;
  ro_size : rec_size r < 32768
}.

(** ** A record in memory *)

Definition column_at (m : mem) (pb pbBits fid : Z) (o : option (list Z)) : Prop :=
  Z.testbit (m (pbBits + (fid - 1) / 8)) ((fid - 1) mod 8) = is_null o /\
  match o with
  | Some v => holds m (pb + ibRecordOffset (PfieldFixed ptdb fid)) v /\ zlen v = cbMaxLen (PfieldFixed ptdb fid)
  | None => True
  end.

Definition columns_at (m : mem) (pb pbBits : Z) (l : list (option (list Z))) : Prop :=
  forall fid, 1 <= fid <= zlen l -> column_at m pb pbBits fid (znth l (fid - 1)).

Record holds_record (m : mem) (pb : Z) (r : RECORD) : Prop := {
  hr_mem : mem_ok m;
  hr_nfixed : m pb = nfixed r;
  hr_nvar : m (pb + 1) = fidVarNone + nvar r;
  hr_end : load16 m (pb + 2) = fixed_end (nfixed r);
  hr_columns : columns_at m pb (pb + off (nfixed r)) (r_fixed r);
  hr_words : holds m (pb + fixed_end (nfixed r)) (var_words 0 (r_var r));
  hr_data : holds m (pb + fixed_end (nfixed r) + 2 * nvar r) (var_data (r_var r));
  hr_tag : holds m (pb + fixed_end (nfixed r) + 2 * nvar r + zlen (var_data (r_var r))) (r_tag r)
}.

Section Schema.
Hypothesis S : schema_ok.

Lemma off_prev fid : 1 <= fid <= FidFixedLast ptdb -> ibRecordOffset (PfieldFixed ptdb fid) = off (fid - 1).
Proof. intros H. unfold off, IbOffsetOfNextColumn. rewrite (proj2 (Z.eqb_neq _ _)) by lia. now replace (fid - 1 + 1) with fid by lia. Qed.

Lemma off_step fid : 1 <= fid <= FidFixedLast ptdb -> off (fid - 1) <= off fid.
Proof. intros H. pose proof (off_prev fid H). pose proof (sc_column S fid H). lia. Qed.

Lemma off_le i j : 0 <= i <= j -> j <= FidFixedLast ptdb -> off i <= off j.
Proof.
  intros [Hi Hij] Hj. revert Hj. pattern j. apply Zlt_lower_bound_ind with (z := i); [|exact Hij]. clear j Hij. intros j IH Hij Hj.
  destruct (Z.eq_dec i j) as [->|N]; [lia|]. pose proof (off_step j ltac:(lia)). specialize (IH (j - 1) ltac:(lia) ltac:(lia)). lia.
Qed.

Lemma off_range fid : 0 <= fid <= FidFixedLast ptdb -> 4 <= off fid <= 32700.
Proof.
  intros H. pose proof (sc_start S) as E. unfold cbRecordMin in E. pose proof (sc_end S). pose proof (off_le 0 fid ltac:(lia) ltac:(lia)). pose proof (off_le fid (FidFixedLast ptdb) ltac:(lia) ltac:(lia)). lia.
Qed.

Lemma column_range fid nf : 1 <= fid <= nf -> nf <= FidFixedLast ptdb ->
  4 <= ibRecordOffset (PfieldFixed ptdb fid) /\ 0 <= cbMaxLen (PfieldFixed ptdb fid) /\ ibRecordOffset (PfieldFixed ptdb fid) + cbMaxLen (PfieldFixed ptdb fid) <= off nf.
Proof.
  intros H L. rewrite (off_prev fid) by lia. pose proof (off_range (fid - 1) ltac:(lia)). pose proof (sc_column S fid ltac:(lia)) as [C1 C2]. rewrite (off_prev fid) in C2 by lia. pose proof (off_le fid nf ltac:(lia) L). lia.
Qed.

(** Columns do not overlap. *)
Lemma column_apart fid fid' : 1 <= fid < fid' -> fid' <= FidFixedLast ptdb -> ibRecordOffset (PfieldFixed ptdb fid) + cbMaxLen (PfieldFixed ptdb fid) <= ibRecordOffset (PfieldFixed ptdb fid').
Proof. intros H L. rewrite (off_prev fid') by lia. pose proof (sc_column S fid ltac:(lia)) as [_ C]. pose proof (off_le fid (fid' - 1) ltac:(lia) ltac:(lia)). lia. Qed.

(** A part of memory that is not touched keeps its column. *)
Lemma column_at_frame m m' pb pbBits pbBits' fid o nf : 1 <= fid <= nf -> nf <= FidFixedLast ptdb -> column_at m pb pbBits fid o ->
  mem_eq_on (pb + ibRecordOffset (PfieldFixed ptdb fid)) (pb + ibRecordOffset (PfieldFixed ptdb fid) + cbMaxLen (PfieldFixed ptdb fid)) m m' ->
  Z.testbit (m' (pbBits' + (fid - 1) / 8)) ((fid - 1) mod 8) = Z.testbit (m (pbBits + (fid - 1) / 8)) ((fid - 1) mod 8) ->
  column_at m' pb pbBits' fid o.
Proof.
  intros H L [B V] E Eb. split; [now rewrite Eb|]. destruct o as [v|]; [|exact I]. destruct V as [V Ln]. split; [|exact Ln]. apply (holds_ext m); [exact V|]. intros x Hx. apply E. lia.
Qed.

(** ** What the accessors return *)

Section At.
Variables (m : mem) (pb : Z) (r : RECORD).
Hypothesis O : record_ok r.
Hypothesis R : holds_record m pb r.

Lemma nfixed_range : 0 <= nfixed r <= 127 /\ nfixed r <= FidFixedLast ptdb.
Proof. pose proof (ro_fixed _ O). pose proof (sc_fixed S) as [_ X]. unfold fidFixedMost in X. pose proof (zlen_nonneg (r_fixed r)). unfold nfixed in *. lia. Qed.

Lemma nvar_range : 0 <= nvar r <= 128.
Proof. pose proof (ro_var _ O). pose proof (zlen_nonneg (r_var r)). unfold nvar in *. lia. Qed.

Lemma fixed_end_range : 4 <= off (nfixed r) /\ off (nfixed r) <= fixed_end (nfixed r) <= 32716.
Proof. pose proof nfixed_range. pose proof (off_range (nfixed r) ltac:(lia)). unfold fixed_end. zlia. Qed.

Lemma parts_range : 0 <= zlen (var_data (r_var r)) /\ 0 <= zlen (r_tag r) /\ rec_size r < 32768.
Proof. pose proof (ro_size _ O). pose proof (zlen_nonneg (var_data (r_var r))). pose proof (zlen_nonneg (r_tag r)). lia. Qed.

Lemma at_FidFixedLastInRec : FidFixedLastInRec m pb = nfixed r.
Proof. apply R. Qed.
Lemma at_FidVarLastInRec : FidVarLastInRec m pb = fidVarNone + nvar r.
Proof. apply R. Qed.
Lemma at_IbEndOfFixedData : IbEndOfFixedData m pb = fixed_end (nfixed r).
Proof. apply R. Qed.
Lemma at_PbFixedNullBitMap : PbFixedNullBitMap m pb = pb + off (nfixed r).
Proof. unfold PbFixedNullBitMap, CbFixedNullBitMap, CFixedColumns, CountOfFixed, fidFixedLeast. rewrite at_FidFixedLastInRec, at_IbEndOfFixedData. unfold fixed_end. replace (nfixed r - 1 + 1) with (nfixed r) by lia. lia. Qed.
Lemma at_PibVarOffsets : PibVarOffsets m pb = pb + fixed_end (nfixed r).
Proof. unfold PibVarOffsets. now rewrite at_IbEndOfFixedData. Qed.
Lemma at_CVarColumns : CVarColumns m pb = nvar r.
Proof. unfold CVarColumns. rewrite at_FidVarLastInRec. unfold fidVarNone. lia. Qed.
Lemma at_PbVarData : PbVarData m pb = pb + fixed_end (nfixed r) + 2 * nvar r.
Proof. unfold PbVarData. rewrite at_IbEndOfFixedData, at_CVarColumns. pose proof fixed_end_range. pose proof nvar_range. rewrite u16_small; lia. Qed.

Lemma at_IbEndOfVarData : IbEndOfVarData m pb = zlen (var_data (r_var r)).
Proof.
  unfold IbEndOfVarData. rewrite at_FidVarLastInRec. unfold fidVarNone. pose proof parts_range as (P1 & P2 & P3). unfold rec_size in P3. pose proof fixed_end_range. pose proof nvar_range as V. unfold nvar in V, P3 |- *.
  destruct (Z.eqb_spec (127 + zlen (r_var r)) 127) as [E|N].
  - destruct (r_var r) as [|x l]; [reflexivity|]. rewrite zlen_cons in E. pose proof (zlen_nonneg l). lia.
  - rewrite at_IbEndOfFixedData. replace (127 + zlen (r_var r) - 128) with (zlen (r_var r) - 1) by lia. apply (word_before m _ (r_var r) []); [rewrite app_nil_r; apply R|lia|lia].
Qed.

Lemma at_PbTaggedData : PbTaggedData m pb = pb + fixed_end (nfixed r) + 2 * nvar r + zlen (var_data (r_var r)).
Proof. unfold PbTaggedData. now rewrite at_PbVarData, at_IbEndOfVarData. Qed.

(** One variable column. *)
Lemma var_split fid : fidVarLeast <= fid <= fidVarNone + nvar r -> exists l1 l2, r_var r = l1 ++ znth (r_var r) (fid - 128) :: l2 /\ zlen l1 = fid - 128 /\
  zlen (var_data l1) + zlen (vbytes (znth (r_var r) (fid - 128))) + zlen (var_data l2) = zlen (var_data (r_var r)).
Proof.
  intros H. unfold fidVarLeast, fidVarNone, nvar in H. destruct (znth_split (r_var r) (fid - 128)) as (l1 & l2 & E & L); [lia|]. exists l1, l2. split; [exact E|]. split; [exact L|].
  transitivity (zlen (var_data (l1 ++ znth (r_var r) (fid - 128) :: l2))); [|now rewrite <- E]. rewrite var_data_app, var_data_cons, !zlen_app. lia.
Qed.

Lemma data_range : 0 <= zlen (var_data (r_var r)) < 32768.
Proof. pose proof parts_range as (P1 & P2 & P3). unfold rec_size in P3. pose proof fixed_end_range. pose proof nvar_range. lia. Qed.
End At.
End Schema.
End View.

(** * Records: reading columns

    The default record, the value of a column in a record, and that the readers
    of fixed and variable columns return it. *)

Section Read.
Variable ptdb : TDB.
Hypothesis S : schema_ok ptdb.

(** The default record holds [rd], which is empty if there is none. *)
Definition default_rec (cbMost : Z) (rd : RECORD) : Prop :=
  match PdataDefaultRecord ptdb with
  | None => rd = Rcd [] [] []
  | Some (md, d) => holds_record ptdb md (pv d) rd /\ record_ok ptdb rd /\ cb d = rec_size ptdb rd /\ cb d <= cbMost
  end.

(** Every column that has a default value has it in the default record; the
    default value of a variable column is not empty. *)
Record defaults_ok (cbMost : Z) (rd : RECORD) : Prop := {
  do_rec : default_rec cbMost rd;
  do_fixed : forall fid, 1 <= fid <= FidFixedLast ptdb -> FHasDefault (PfieldFixed ptdb fid) = true -> fid <= nfixed rd /\ is_null (znth (r_fixed rd) (fid - 1)) = false;
  do_var : forall fid, fidVarLeast <= fid <= FidVarLast ptdb -> FHasDefault (PfieldVar ptdb fid) = true -> fid <= fidVarNone + nvar rd /\ vbytes (znth (r_var rd) (fid - 128)) <> []
}.

(** The value of a column a record does not contain. *)
Definition default_fixed (rd : RECORD) (fid : Z) : option (list Z) := if FHasDefault (PfieldFixed ptdb fid) then znth (r_fixed rd) (fid - 1) else None.
Definition default_var (rd : RECORD) (fid : Z) : option (list Z) := if FHasDefault (PfieldVar ptdb fid) then znth (r_var rd) (fid - 128) else None.

(** The value of any column. *)
Definition fixed_value (rd r : RECORD) (fid : Z) : option (list Z) := if fid <=? nfixed r then znth (r_fixed r) (fid - 1) else default_fixed rd fid.
Definition var_value (rd r : RECORD) (fid : Z) : option (list Z) := if fid <=? fidVarNone + nvar r then znth (r_var r) (fid - 128) else default_var rd fid.

(** The bytes a reader returned a reference to. *)
Definition data_of (m : mem) (c : COLDATA) : option (list Z) :=
  match c with
  | InRec d => Some (load_bytes m (pv d) (cb d))
  | InDefaultRec d => match PdataDefaultRecord ptdb with Some (md, _) => Some (load_bytes md (pv d) (cb d)) | None => None end
  | NoData => None
  end.

Definition returns (m : mem) (o : option (list Z)) (r : option (Z * COLDATA)) : Prop :=
  match o with
  | None => r = Some (JET_wrnColumnNull, NoData)
  | Some v => exists c, r = Some (JET_errSuccess, c) /\ data_of m c = Some v
  end.

(** ** Columns the record contains *)

Lemma fbit_bit w i : 0 <= i -> fbit w (Z.shiftl 1 i) = Z.testbit w i.
Proof.
  intros H. unfold fbit. rewrite Z.shiftl_1_l. destruct (Z.testbit w i) eqn:E.
  - apply negb_true_iff, Z.eqb_neq. intros X. apply (f_equal (fun x => Z.testbit x i)) in X. rewrite Z.land_spec, E, Z.pow2_bits_true, Z.bits_0 in X by exact H. discriminate.
  - apply negb_false_iff, Z.eqb_eq. apply Z.bits_inj'. intros n Hn. rewrite Z.land_spec, Z.bits_0. destruct (Z.eq_dec n i) as [->|N]; [now rewrite E|]. rewrite Z.pow2_bits_false by lia. apply andb_false_r.
Qed.

Section Present.
Variables (m : mem) (d : DATA) (r : RECORD) (cbMost : Z) (n : nat).
Hypothesis O : record_ok ptdb r.
Hypothesis R : holds_record ptdb m (pv d) r.
Hypothesis Hcb : cb d = rec_size ptdb r.
Hypothesis Fit : cb d <= cbMost.

Lemma size_test : (cb d <? cbRecordMin) || (cbMost <? cb d) = false.
Proof.
  pose proof (fixed_end_range ptdb S r O). pose proof (nvar_range ptdb r O). pose proof (parts_range ptdb r O). unfold rec_size in Hcb. unfold cbRecordMin.
  rewrite (proj2 (Z.ltb_ge _ _)), (proj2 (Z.ltb_ge _ _)) by lia. reflexivity.
Qed.

Lemma null_bit_at fid : 1 <= fid <= nfixed r ->
  FFixedNullBit m (PbFixedNullBitMap m (pv d) + IndexOfFixed fid / 8) (IndexOfFixed fid) = is_null (znth (r_fixed r) (fid - 1)).
Proof.
  intros H. rewrite (at_PbFixedNullBitMap _ _ _ _ R). unfold FFixedNullBit, FixedNullBit, load8, IndexOfFixed, fidFixedLeast.
  rewrite fbit_bit by zlia. apply (hr_columns _ _ _ _ R fid H).
Qed.

Lemma fixed_in_record fid : 1 <= fid <= nfixed r ->
  ErrRECIRetrieveFixedColumn (Datatypes.S n) cbMost ptdb m d fid =
    Some (match znth (r_fixed r) (fid - 1) with
          | None => (JET_wrnColumnNull, NoData)
          | Some _ => (JET_errSuccess, InRec (Data (pv d + ibRecordOffset (PfieldFixed ptdb fid)) (cbMaxLen (PfieldFixed ptdb fid)))) end).
Proof.
  intros H. cbn [ErrRECIRetrieveFixedColumn]. rewrite size_test, (at_FidFixedLastInRec _ _ _ _ R), (proj2 (Z.ltb_ge _ _)), null_bit_at by lia.
  destruct (znth (r_fixed r) (fid - 1)); reflexivity.
Qed.

Lemma var_in_record fid : fidVarLeast <= fid <= fidVarNone + nvar r ->
  exists c, ErrRECIRetrieveVarColumn (Datatypes.S n) cbMost ptdb m d fid = Some (if is_null (znth (r_var r) (fid - 128)) then JET_wrnColumnNull else JET_errSuccess, c) /\
  match znth (r_var r) (fid - 128) with None => c = NoData | Some v => exists a, c = InRec a /\ load_bytes m (pv a) (cb a) = v end.
Proof.
  intros H. cbn [ErrRECIRetrieveVarColumn]. rewrite size_test, (at_FidVarLastInRec _ _ _ _ R), (proj2 (Z.ltb_ge _ fid)) by lia.
  destruct (var_split r fid H) as (l1 & l2 & E & L & Z0). pose proof (hr_words _ _ _ _ R) as W. pose proof (data_range ptdb S r O) as Dr. set (x := znth (r_var r) (fid - 128)) in *.
  pose proof (zlen_nonneg (var_data l1)). pose proof (zlen_nonneg (vbytes x)). pose proof (zlen_nonneg (var_data l2)). rewrite E in W.
  assert (E1 : load16 m (PibVarOffsets m (pv d) + 2 * IndexOfVar fid) = var_word (zlen (var_data l1) + zlen (vbytes x)) x).
  { rewrite (at_PibVarOffsets _ _ _ _ R). unfold IndexOfVar, fidVarLeast. rewrite <- L. rewrite (word_at m _ 0 l1 x l2 W) by lia. reflexivity. }
  assert (E2 : IbVarOffsetStart m (pv d) fid = zlen (var_data l1)).
  { unfold IbVarOffsetStart, FVarLeast, fidVarLeast in *. rewrite (at_PibVarOffsets _ _ _ _ R). destruct (Z.eqb_spec fid 128) as [->|N].
    - destruct l1 as [|y l1]; [reflexivity|]. rewrite zlen_cons in L. pose proof (zlen_nonneg l1). lia.
    - unfold IndexOfVar, fidVarLeast. rewrite <- L. apply (word_before m _ l1 (x :: l2) W); lia. }
  rewrite E1, E2, FVarNullBit_word, IbVarOffset_word by lia. destruct (is_null x) eqn:Nx.
  - exists NoData. split; [reflexivity|]. destruct x; [discriminate|reflexivity].
  - destruct x as [v|]; [|discriminate]. cbn [vbytes] in *. rewrite u32_small by lia. replace (zlen (var_data l1) + zlen v - zlen (var_data l1)) with (zlen v) by lia.
    eexists. split; [reflexivity|]. eexists. split; [reflexivity|]. destruct (Z.eqb_spec (zlen v) 0) as [Z|N].
    + destruct v; [reflexivity|]. rewrite zlen_cons in Z. pose proof (zlen_nonneg v). lia.
    + cbn [pv cb]. apply holds_load. rewrite (at_PbVarData _ S _ _ _ O R). pose proof (hr_data _ _ _ _ R) as D. rewrite E, var_data_app, var_data_cons, !holds_app in D. apply D.
Qed.
End Present.

(** ** Any column *)

Section Any.
Variables (m : mem) (d : DATA) (r rd : RECORD) (cbMost : Z) (n : nat).
Hypothesis O : record_ok ptdb r.
Hypothesis R : holds_record ptdb m (pv d) r.
Hypothesis Hcb : cb d = rec_size ptdb r.
Hypothesis Fit : cb d <= cbMost.
Hypothesis D : defaults_ok cbMost rd.

Lemma column_load fid v : 1 <= fid <= nfixed r -> znth (r_fixed r) (fid - 1) = Some v ->
  load_bytes m (pv d + ibRecordOffset (PfieldFixed ptdb fid)) (cbMaxLen (PfieldFixed ptdb fid)) = v.
Proof. intros H E. pose proof (hr_columns _ _ _ _ R fid H) as [_ C]. rewrite E in C. destruct C as [C <-]. now apply holds_load. Qed.
End Any.

Lemma ErrRECIRetrieveFixedColumn_spec m d r rd cbMost n fid : record_ok ptdb r -> holds_record ptdb m (pv d) r -> cb d = rec_size ptdb r -> cb d <= cbMost -> defaults_ok cbMost rd ->
  1 <= fid <= FidFixedLast ptdb -> FFIELDCommittedDelete (ffield (PfieldFixed ptdb fid)) = false ->
  returns m (fixed_value rd r fid) (ErrRECIRetrieveFixedColumn (Datatypes.S (Datatypes.S n)) cbMost ptdb m d fid).
Proof.
  intros O R Hcb Fit D Hf Hd. unfold fixed_value. destruct (Z.leb_spec fid (nfixed r)) as [L|L].
  - rewrite (fixed_in_record m d r cbMost _ O R Hcb Fit fid) by lia. destruct (znth (r_fixed r) (fid - 1)) as [v|] eqn:E; [|reflexivity].
    eexists. split; [reflexivity|]. cbn [data_of pv cb]. f_equal. now apply (column_load m d r R fid v ltac:(lia)).
  - remember (Datatypes.S n) as k eqn:Ek. cbn [ErrRECIRetrieveFixedColumn]. subst k. rewrite (size_test d r cbMost O Hcb Fit), (at_FidFixedLastInRec _ _ _ _ R), (proj2 (Z.ltb_lt _ _)) by lia.
    unfold default_fixed, FHasDefault. rewrite Hd, andb_true_r. destruct (FFIELDDefault (ffield (PfieldFixed ptdb fid))) eqn:Fd; [|reflexivity].
    destruct (do_fixed _ _ D fid Hf) as [L1 N1]; [unfold FHasDefault; now rewrite Fd, Hd|]. pose proof (do_rec _ _ D) as Dr. unfold default_rec in Dr. unfold returns, data_of.
    destruct (PdataDefaultRecord ptdb) as [[md dd]|]; [|rewrite Dr in L1; cbn in L1; lia]. destruct Dr as (Rd & Od & Cd & Fd').
    rewrite (fixed_in_record md dd rd cbMost n Od Rd Cd Fd' fid) by lia. destruct (znth (r_fixed rd) (fid - 1)) as [v|] eqn:E; [|discriminate]. eexists. split; [reflexivity|]. cbn [fst snd pv cb]. f_equal.
    now apply (column_load md dd rd Rd fid v ltac:(lia)).
Qed.

Lemma ErrRECIRetrieveVarColumn_spec m d r rd cbMost n fid : record_ok ptdb r -> holds_record ptdb m (pv d) r -> cb d = rec_size ptdb r -> cb d <= cbMost -> defaults_ok cbMost rd ->
  fidVarLeast <= fid <= FidVarLast ptdb -> FFIELDCommittedDelete (ffield (PfieldVar ptdb fid)) = false ->
  returns m (var_value rd r fid) (ErrRECIRetrieveVarColumn (Datatypes.S (Datatypes.S n)) cbMost ptdb m d fid).
Proof.
  intros O R Hcb Fit D Hf Hd. unfold var_value. destruct (Z.leb_spec fid (fidVarNone + nvar r)) as [L|L].
  - destruct (var_in_record m d r cbMost (Datatypes.S n) O R Hcb Fit fid ltac:(lia)) as (c & E & V). rewrite E. destruct (znth (r_var r) (fid - 128)) as [v|]; [|now subst c].
    destruct V as (a & -> & V). eexists. split; [reflexivity|]. cbn [data_of]. now rewrite V.
  - remember (Datatypes.S n) as k eqn:Ek. cbn [ErrRECIRetrieveVarColumn]. subst k. rewrite (size_test d r cbMost O Hcb Fit), (at_FidVarLastInRec _ _ _ _ R), (proj2 (Z.ltb_lt _ _)) by lia.
    unfold default_var, FHasDefault. rewrite Hd, andb_true_r. destruct (FFIELDDefault (ffield (PfieldVar ptdb fid))) eqn:Fd; [|reflexivity].
    destruct (do_var _ _ D fid Hf) as [L1 N1]; [unfold FHasDefault; now rewrite Fd, Hd|]. pose proof (do_rec _ _ D) as Dr. unfold default_rec in Dr. unfold returns, data_of.
    destruct (PdataDefaultRecord ptdb) as [[md dd]|]; [|rewrite Dr in L1; cbn in L1; unfold fidVarLeast, fidVarNone in *; lia]. destruct Dr as (Rd & Od & Cd & Fd').
    destruct (var_in_record md dd rd cbMost n Od Rd Cd Fd' fid ltac:(lia)) as (c & E & V). rewrite E. destruct (znth (r_var rd) (fid - 128)) as [v|]; [|now destruct N1].
    destruct V as (a & -> & V). eexists. split; [reflexivity|]. cbn [fst snd]. now rewrite V.
Qed.

(** Whether a column is in the record. *)
Lemma ErrRECIFixedColumnInRecord_spec m d r fid : record_ok ptdb r -> holds_record ptdb m (pv d) r -> 1 <= fid ->
  ErrRECIFixedColumnInRecord m d fid = if nfixed r <? fid then JET_errColumnNotFound else if is_null (znth (r_fixed r) (fid - 1)) then JET_wrnColumnNull else JET_errSuccess.
Proof.
  intros O R Hf. unfold ErrRECIFixedColumnInRecord. rewrite (at_FidFixedLastInRec _ _ _ _ R). destruct (Z.ltb_spec (nfixed r) fid); [reflexivity|]. now rewrite (null_bit_at m d r R fid) by lia.
Qed.

Lemma ErrRECIVarColumnInRecord_spec m d r fid : record_ok ptdb r -> holds_record ptdb m (pv d) r -> fidVarLeast <= fid ->
  ErrRECIVarColumnInRecord m d fid = if fidVarNone + nvar r <? fid then JET_errColumnNotFound else if is_null (znth (r_var r) (fid - 128)) then JET_wrnColumnNull else JET_errSuccess.
Proof.
  intros O R Hf. unfold ErrRECIVarColumnInRecord. rewrite (at_FidVarLastInRec _ _ _ _ R). destruct (Z.ltb_spec (fidVarNone + nvar r) fid); [reflexivity|].
  destruct (var_split r fid ltac:(lia)) as (l1 & l2 & E & L & Z0). pose proof (hr_words _ _ _ _ R) as W. pose proof (data_range ptdb S r O) as Dr. set (x := znth (r_var r) (fid - 128)) in *.
  pose proof (zlen_nonneg (var_data l1)). pose proof (zlen_nonneg (vbytes x)). pose proof (zlen_nonneg (var_data l2)). rewrite E in W.
  rewrite (at_PibVarOffsets _ _ _ _ R). unfold IndexOfVar, fidVarLeast. rewrite <- L, (word_at m _ 0 l1 x l2 W), FVarNullBit_word by lia. reflexivity.
Qed.
End Read.
