(* ===== verification/RecFixed.v ===== *)
(** * Records: setting a fixed column

    What the loops over the null bitmap do, how a record is extended to contain
    more fixed columns, and how a value is stored in one. *)

From Stdlib Require Import ZArith List Lia Bool.
From Stdlib Require Import ZArith List Lia Bool FunctionalExtensionality.
From S2P Require Import Prelude Mem Norm TagFld TagFldView TagFldOps Rec RecView.
Import ListNotations.

(** ** Bits *)

Definition bit_at (m : mem) (pbBits i : Z) : bool := Z.testbit (m (pbBits + i / 8)) (i mod 8).

Lemma testbit_byte x b : 0 <= b < 8 -> Z.testbit (x mod 256) b = Z.testbit x b.
Proof. intros H. change 256 with (2 ^ 8). apply Z.mod_pow2_bits_low. lia. Qed.

Lemma testbit_bit k b : 0 <= k -> Z.testbit (Z.shiftl 1 k) b = (k =? b).
Proof. intros H. rewrite Z.shiftl_1_l. destruct (Z.eqb_spec k b) as [->|N]; [now apply Z.pow2_bits_true|apply Z.pow2_bits_false; lia]. Qed.

Lemma SetFixedNullBit_bit m p ifid b : 0 <= b < 8 -> Z.testbit (SetFixedNullBit m p ifid p) b = Z.testbit (m p) b || (ifid mod 8 =? b).
Proof.
  intros H. unfold SetFixedNullBit, FixedNullBit, load8. rewrite store8_at, Z.eqb_refl, testbit_byte, Z.lor_spec by exact H. f_equal. apply testbit_bit. zlia.
Qed.

Lemma ResetFixedNullBit_bit m p ifid b : 0 <= b < 8 -> Z.testbit (ResetFixedNullBit m p ifid p) b = Z.testbit (m p) b && negb (ifid mod 8 =? b).
Proof.
  intros H. unfold ResetFixedNullBit, FixedNullBit, load8. rewrite store8_at, Z.eqb_refl, testbit_byte, Z.ldiff_spec by exact H. f_equal. f_equal. apply testbit_bit. zlia.
Qed.

Lemma SetFixedNullBit_frame m p ifid x : x <> p -> SetFixedNullBit m p ifid x = m x.
Proof. intros H. unfold SetFixedNullBit. rewrite store8_at. destruct (Z.eqb_spec x p); [contradiction|reflexivity]. Qed.
Lemma ResetFixedNullBit_frame m p ifid x : x <> p -> ResetFixedNullBit m p ifid x = m x.
Proof. intros H. unfold ResetFixedNullBit. rewrite store8_at. destruct (Z.eqb_spec x p); [contradiction|reflexivity]. Qed.

(** The bit of column [i] after the bit of column [k] was changed. *)
Lemma bit_at_set m pbBits i k : 0 <= i -> 0 <= k -> bit_at (SetFixedNullBit m (pbBits + k / 8) k) pbBits i = bit_at m pbBits i || (k =? i).
Proof.
  intros Hi Hk. unfold bit_at. destruct (Z.eq_dec (i / 8) (k / 8)) as [E|N].
  - rewrite E, SetFixedNullBit_bit by zlia. f_equal. destruct (Z.eqb_spec (k mod 8) (i mod 8)), (Z.eqb_spec k i); try reflexivity; zlia.
  - rewrite SetFixedNullBit_frame by lia. destruct (Z.eqb_spec k i) as [->|]; [lia|now rewrite orb_false_r].
Qed.

Lemma bit_at_reset m pbBits i k : 0 <= i -> 0 <= k -> bit_at (ResetFixedNullBit m (pbBits + k / 8) k) pbBits i = bit_at m pbBits i && negb (k =? i).
Proof.
  intros Hi Hk. unfold bit_at. destruct (Z.eq_dec (i / 8) (k / 8)) as [E|N].
  - rewrite E, ResetFixedNullBit_bit by zlia. f_equal. f_equal. destruct (Z.eqb_spec (k mod 8) (i mod 8)), (Z.eqb_spec k i); try reflexivity; zlia.
  - rewrite ResetFixedNullBit_frame by lia. destruct (Z.eqb_spec k i) as [->|]; [lia|now rewrite andb_true_r].
Qed.

Lemma SetFixedNullBit_ok m p ifid : mem_ok m -> mem_ok (SetFixedNullBit m p ifid).
Proof. intros H. now apply store8_ok. Qed.
Lemma ResetFixedNullBit_ok m p ifid : mem_ok m -> mem_ok (ResetFixedNullBit m p ifid).
Proof. intros H. now apply store8_ok. Qed.

Lemma u8_small x : 0 <= x < 256 -> u8 x = x.
Proof. apply Z.mod_small. Qed.

(** ** New null bits *)

Lemma null_bits_loop_spec n : forall m pbBits q k, 0 <= k -> q <= k / 8 ->
  let m' := null_bits_loop n m pbBits (pbBits + q) (k + 1) in
  (mem_ok m -> mem_ok m') /\ (forall x, x <> pbBits + q -> m' x = m x) /\
  (forall i, 0 <= i -> i / 8 = q -> bit_at m' pbBits i = bit_at m pbBits i || (k <=? i) && (i <? k + Z.of_nat n)).
Proof.
  induction n as [|n IH]; intros m pbBits q k Hk Hq m'.
  - split; [easy|]. split; [easy|]. intros i Hi Ei. destruct (Z.leb_spec k i), (Z.ltb_spec i (k + Z.of_nat 0)); try lia; cbn [andb]; now rewrite orb_false_r.
  - subst m'. cbn [null_bits_loop]. unfold IndexOfFixed, fidFixedLeast. replace (k + 1 - 1) with k by lia. destruct (Z.eqb_spec (pbBits + k / 8) (pbBits + q)) as [E|N].
    + assert (Eq : q = k / 8) by lia. subst q. destruct (IH (SetFixedNullBit m (pbBits + k / 8) k) pbBits (k / 8) (k + 1) ltac:(lia) ltac:(zlia)) as (I1 & I2 & I3). split; [|split].
      * intros Hm. apply I1. now apply SetFixedNullBit_ok.
      * intros x Hx. rewrite I2, SetFixedNullBit_frame by exact Hx. reflexivity.
      * intros i Hi Ei. rewrite I3, bit_at_set by assumption. destruct (Z.eqb_spec k i), (Z.leb_spec (k + 1) i), (Z.leb_spec k i), (Z.ltb_spec i (k + 1 + Z.of_nat n)), (Z.ltb_spec i (k + Z.of_nat (S n))); try lia; cbn [andb orb]; rewrite ?orb_true_r, ?orb_false_r; reflexivity.
    + split; [easy|]. split; [easy|]. intros i Hi Ei. destruct (Z.leb_spec k i); [|now rewrite orb_false_r]. pose proof (Z.div_le_mono k i 8 ltac:(lia) ltac:(lia)). lia.
Qed.

Lemma memset_bit m p n x b : p <= x < p + n -> 0 <= b < 8 -> Z.testbit (memset m p 0xff n x) b = true.
Proof. intros H Hb. rewrite memset_in by exact H. change (0xff mod 256) with (Z.ones 8). apply Z.ones_spec_low. lia. Qed.

Lemma set_new_null_bits_spec m pbBits last fid : mem_ok m -> 0 <= last <= fid -> fid <= 127 ->
  let m' := set_new_null_bits m pbBits (pbBits + (fid + 7) / 8) last fid in
  mem_ok m' /\ same_outside pbBits (pbBits + (fid + 7) / 8) m m' /\
  (forall i, 0 <= i < fid -> bit_at m' pbBits i = (last <=? i) || bit_at m pbBits i).
Proof.
  intros Hm Hl Hf m'. subst m'. unfold set_new_null_bits, FFixed, fidFixedLeast, fidFixedMost. destruct (Z.leb_spec 1 last) as [L|L]; cbn [andb].
  - rewrite (proj2 (Z.leb_le last 127)) by lia. unfold IndexOfFixed, fidFixedLeast.
    destruct (null_bits_loop_spec (Z.to_nat (fid - last)) m pbBits ((last - 1) / 8) last ltac:(lia) ltac:(zlia)) as (I1 & I2 & I3).
    set (m1 := null_bits_loop _ _ _ _ _) in *. set (p := pbBits + (last - 1) / 8 + 1). split; [apply memset_ok, I1, Hm|]. split.
    + intros x Hx. rewrite memset_frame by (unfold p; zlia). apply I2. zlia.
    + intros i Hi. unfold bit_at at 1. destruct (Z.eq_dec (i / 8) ((last - 1) / 8)) as [E|N].
      * rewrite memset_frame by (unfold p; lia). change (Z.testbit (m1 (pbBits + i / 8)) (i mod 8)) with (bit_at m1 pbBits i). rewrite I3 by (lia || exact E).
        destruct (Z.leb_spec last i), (Z.ltb_spec i (last + Z.of_nat (Z.to_nat (fid - last)))); try lia; cbn [andb orb]; rewrite ?orb_true_r, ?orb_false_r; reflexivity.
      * destruct (Z.leb_spec last i) as [Li|Li]; cbn [orb].
        -- apply memset_bit; unfold p; zlia.
        -- rewrite memset_frame by (unfold p; zlia). rewrite I2 by lia. reflexivity.
  - assert (last = 0) as -> by lia. split; [now apply memset_ok|]. split.
    + intros x Hx. apply memset_frame. lia.
    + intros i Hi. rewrite (proj2 (Z.leb_le 0 i)) by lia. cbn [orb]. unfold bit_at. apply memset_bit; zlia.
Qed.

(** ** Bursting default values *)

Section Fixed.
Variable ptdb : TDB.
Hypothesis S : schema_ok ptdb.

Lemma burst_fixed_loop_spec n : forall m pbBits k last, 0 <= k -> mem_ok m ->
  let m' := fst (burst_fixed_loop n ptdb m pbBits (k + 1) last) in let last' := snd (burst_fixed_loop n ptdb m pbBits (k + 1) last) in
  mem_ok m' /\ same_outside pbBits (pbBits + (k + Z.of_nat n + 7) / 8) m m' /\
  (forall i, 0 <= i -> bit_at m' pbBits i = bit_at m pbBits i && negb ((k <=? i) && (i <? k + Z.of_nat n) && FHasDefault (PfieldFixed ptdb (i + 1)))) /\
  ((last' = last /\ forall fid, k < fid <= k + Z.of_nat n -> FHasDefault (PfieldFixed ptdb fid) = false) \/
   (k < last' <= k + Z.of_nat n /\ forall fid, last' < fid <= k + Z.of_nat n -> FHasDefault (PfieldFixed ptdb fid) = false)).
Proof.
  induction n as [|n IH]; intros m pbBits k last Hk Hm m' last'; subst m' last'.
  - cbn [burst_fixed_loop fst snd]. split; [exact Hm|]. split; [apply same_outside_refl|]. split; [|left; split; [reflexivity|lia]].
    intros i Hi. destruct (Z.leb_spec k i), (Z.ltb_spec i (k + Z.of_nat 0)); try lia; cbn [andb negb]; now rewrite andb_true_r.
  - cbn [burst_fixed_loop]. unfold IndexOfFixed, fidFixedLeast. replace (k + 1 - 1) with k by lia. destruct (FHasDefault (PfieldFixed ptdb (k + 1))) eqn:Fd.
    + destruct (IH (ResetFixedNullBit m (pbBits + k / 8) k) pbBits (k + 1) (k + 1) ltac:(lia) ltac:(now apply ResetFixedNullBit_ok)) as (I1 & I2 & I3 & I4).
      set (b := burst_fixed_loop _ _ _ _ _ _) in *. split; [exact I1|]. split; [|split].
      * intros x Hx. rewrite I2, ResetFixedNullBit_frame by zlia. reflexivity.
      * intros i Hi. rewrite I3, bit_at_reset by lia. destruct (Z.eqb_spec k i) as [<-|N].
        -- rewrite Fd, Z.leb_refl, (proj2 (Z.ltb_lt k (k + Z.of_nat (Datatypes.S n)))) by lia. cbn [negb andb]. now rewrite !andb_false_r.
        -- cbn [negb]. rewrite andb_true_r. destruct (Z.leb_spec (k + 1) i), (Z.leb_spec k i), (Z.ltb_spec i (k + 1 + Z.of_nat n)), (Z.ltb_spec i (k + Z.of_nat (Datatypes.S n))); try lia; reflexivity.
      * right. destruct I4 as [[E F]|[L F]]; [rewrite E; split; [lia|intros fid Hfid; apply F; lia]|split; [lia|intros fid Hfid; apply F; lia]].
    + destruct (IH m pbBits (k + 1) last ltac:(lia) Hm) as (I1 & I2 & I3 & I4). set (b := burst_fixed_loop _ _ _ _ _ _) in *. split; [exact I1|]. split; [|split].
      * intros x Hx. apply I2. zlia.
      * intros i Hi. rewrite I3 by exact Hi. destruct (Z.eq_dec i k) as [->|N].
        -- rewrite Fd, (proj2 (Z.leb_gt (k + 1) k)) by lia. cbn [andb negb]. rewrite andb_false_r. reflexivity.
        -- destruct (Z.leb_spec (k + 1) i), (Z.leb_spec k i), (Z.ltb_spec i (k + 1 + Z.of_nat n)), (Z.ltb_spec i (k + Z.of_nat (Datatypes.S n))); try lia; reflexivity.
      * destruct I4 as [[E F]|[L F]]; [left; split; [exact E|]|right; split; [lia|intros fid Hfid; apply F; lia]].
        intros fid Hfid. destruct (Z.eq_dec fid (k + 1)) as [->|N]; [exact Fd|apply F; lia].
Qed.

(** What is copied from another memory. *)
Lemma copy_in m md d s n x : mem_ok md -> d <= x < d + n -> store_bytes m d (load_bytes md s n) x = md (s + (x - d)).
Proof.
  intros Hm H. rewrite store_bytes_in by (rewrite length_load_bytes; lia). rewrite nth_load_bytes by lia. replace (Z.of_nat (Z.to_nat (x - d))) with (x - d) by lia. apply Z.mod_small, Hm.
Qed.
Lemma copy_frame m md d s n x : x < d \/ d + n <= x -> store_bytes m d (load_bytes md s n) x = m x.
Proof. intros H. apply store_bytes_frame. rewrite length_load_bytes. lia. Qed.

Lemma default_flagged rd fid : default_fixed ptdb rd fid <> None -> FHasDefault (PfieldFixed ptdb fid) = true.
Proof. unfold default_fixed. now destruct (FHasDefault (PfieldFixed ptdb fid)). Qed.

Section Burst.
Variables (rd : RECORD) (cbMost : Z).
Hypothesis D : defaults_ok ptdb cbMost rd.

Lemma default_not_null fid : 1 <= fid <= FidFixedLast ptdb -> is_null (default_fixed ptdb rd fid) = negb (FHasDefault (PfieldFixed ptdb fid)).
Proof. intros H. unfold default_fixed. destruct (FHasDefault (PfieldFixed ptdb fid)) eqn:E; [|reflexivity]. now apply (do_fixed _ _ _ D fid). Qed.

Lemma burst_fixed_defaults_spec m pb pbBits last fid : mem_ok m -> 0 <= last < fid -> fid <= FidFixedLast ptdb -> pb + off ptdb fid <= pbBits ->
  let m' := burst_fixed_defaults ptdb m pb pbBits (off ptdb last) last fid in
  mem_ok m' /\
  (forall x, (x < pb + off ptdb last \/ pb + off ptdb fid <= x) -> (x < pbBits \/ pbBits + (fid + 7) / 8 <= x) -> m' x = m x) /\
  (forall i, 0 <= i < fid -> bit_at m' pbBits i = bit_at m pbBits i && negb ((last <=? i) && negb (is_null (default_fixed ptdb rd (i + 1))))) /\
  (forall k v, last < k <= fid -> default_fixed ptdb rd k = Some v -> holds m' (pb + ibRecordOffset (PfieldFixed ptdb k)) v /\ zlen v = cbMaxLen (PfieldFixed ptdb k)).
Proof.
  intros Hm Hl Hf Hb. pose proof (do_rec _ _ _ D) as Dr. pose proof (off_le ptdb S last fid ltac:(lia) Hf) as Lo. unfold burst_fixed_defaults. unfold default_rec in Dr.
  assert (Abs : forall k, last < k <= fid -> nfixed rd < k -> default_fixed ptdb rd k = None).
  { intros k Hk Hn. destruct (default_fixed ptdb rd k) eqn:E; [|reflexivity]. destruct (do_fixed _ _ _ D k ltac:(lia)) as [L _]; [apply (default_flagged rd); congruence|lia]. }
  assert (None_ : nfixed rd <= last -> forall m', m' = m -> mem_ok m' /\
    (forall x, (x < pb + off ptdb last \/ pb + off ptdb fid <= x) -> (x < pbBits \/ pbBits + (fid + 7) / 8 <= x) -> m' x = m x) /\
    (forall i, 0 <= i < fid -> bit_at m' pbBits i = bit_at m pbBits i && negb ((last <=? i) && negb (is_null (default_fixed ptdb rd (i + 1))))) /\
    (forall k v, last < k <= fid -> default_fixed ptdb rd k = Some v -> holds m' (pb + ibRecordOffset (PfieldFixed ptdb k)) v /\ zlen v = cbMaxLen (PfieldFixed ptdb k))).
  { intros L m' ->. split; [exact Hm|]. split; [easy|]. split.
    - intros i Hi. destruct (Z.leb_spec last i); [rewrite Abs by lia|]; cbn [is_null negb andb]; now rewrite andb_true_r.
    - intros k v Hk E. rewrite Abs in E by lia. discriminate. }
  destruct (PdataDefaultRecord ptdb) as [[md dd]|]; [|now apply None_; [rewrite Dr; cbn; lia|]]. destruct Dr as (Rd & Od & _ & _). rewrite (at_FidFixedLastInRec _ _ _ _ Rd).
  destruct (Z.ltb_spec last (nfixed rd)) as [L|L]; [|now apply None_]. clear None_ Abs. pose proof (ro_fixed _ _ Od) as Fd.
  set (n := Z.to_nat (Z.min fid (nfixed rd) - last)). destruct (burst_fixed_loop_spec n m pbBits last (nfixed rd) ltac:(lia) Hm) as (I1 & I2 & I3 & I4).
  destruct (burst_fixed_loop n ptdb m pbBits (last + 1) (nfixed rd)) as [m1 last']. cbn [fst snd] in *.
  assert (Hn : last + Z.of_nat n = Z.min fid (nfixed rd)) by lia. rewrite Hn in *.
  assert (Bits : forall i, 0 <= i < fid -> bit_at m1 pbBits i = bit_at m pbBits i && negb ((last <=? i) && negb (is_null (default_fixed ptdb rd (i + 1))))).
  { intros i Hi. rewrite I3, default_not_null, negb_involutive by lia. f_equal. f_equal. destruct (Z.leb_spec last i); [|reflexivity]. cbn [andb]. destruct (Z.ltb_spec i (Z.min fid (nfixed rd))); [reflexivity|]. cbn [andb].
    destruct (FHasDefault (PfieldFixed ptdb (i + 1))) eqn:E; [|reflexivity]. destruct (do_fixed _ _ _ D (i + 1) ltac:(lia) E). lia. }
  assert (Last : forall k, last < k <= fid -> default_fixed ptdb rd k <> None -> k <= last' <= fid).
  { intros k Hk E. pose proof (default_flagged rd k E) as Ed. destruct (do_fixed _ _ _ D k ltac:(lia) Ed) as [Lk _]. destruct I4 as [[-> F]|[L' F]]; [rewrite F in Ed by lia; discriminate|].
    split; [|lia]. destruct (Z.le_gt_cases k last') as [Y|N]; [exact Y|]. rewrite F in Ed by lia. discriminate. }
  destruct (Z.leb_spec last' fid) as [L2|L2].
  - assert (Ll : last <= last') by (destruct I4 as [[-> _]|[X _]]; lia). assert (Lf : last' <= FidFixedLast ptdb) by lia.
    pose proof (off_le ptdb S last last' ltac:(lia) ltac:(lia)) as Lo1. pose proof (off_le ptdb S last' fid ltac:(lia) ltac:(lia)) as Lo2. change (IbOffsetOfNextColumn ptdb last') with (off ptdb last').
    split; [now apply store_bytes_ok|]. split; [|split].
    + intros x H1 H2. rewrite copy_frame by lia. apply I2. zlia.
    + intros i Hi. unfold bit_at. rewrite copy_frame by zlia. now apply Bits.
    + intros k v Hk E. destruct (Last k Hk) as [K1 K2]; [congruence|]. pose proof (default_flagged rd k ltac:(congruence)) as Ed. unfold default_fixed in E. rewrite Ed in E.
      destruct (do_fixed _ _ _ D k ltac:(lia) Ed) as [Lk _]. pose proof (hr_columns _ _ _ _ Rd k ltac:(unfold nfixed in *; lia)) as [_ C]. rewrite E in C. destruct C as [C Lv]. split; [|exact Lv].
      pose proof (column_range ptdb S k last' ltac:(lia) Lf) as (R1 & R2 & R3). rewrite (off_prev ptdb k ltac:(lia)) in *. pose proof (off_le ptdb S last (k - 1) ltac:(lia) ltac:(lia)).
      intros i Hi. assert (Hi' : Z.of_nat i < zlen v) by (unfold zlen; lia). rewrite copy_in by (lia || apply Rd). rewrite <- (C i Hi). f_equal. lia.
  - assert (E : forall k v, last < k <= fid -> default_fixed ptdb rd k = Some v -> False) by (intros k v Hk E; destruct (Last k Hk); [congruence|lia]).
    split; [exact I1|]. split; [|split]; [|exact Bits|intros k v Hk Ek; destruct (E k v Hk Ek)]. intros x _ H2. apply I2. zlia.
Qed.

(** ** Extending the record *)

(** The values of [n] columns behind [last]. *)
Definition new_fixed (last n : Z) : list (option (list Z)) := map (fun i => default_fixed ptdb rd (last + 1 + Z.of_nat i)) (seq 0 (Z.to_nat n)).

Lemma zlen_new_fixed last n : 0 <= n -> zlen (new_fixed last n) = n.
Proof. intros H. unfold zlen, new_fixed. rewrite length_map, length_seq. lia. Qed.

Lemma znth_new_fixed last n i : 0 <= i < n -> znth (new_fixed last n) i = default_fixed ptdb rd (last + 1 + i).
Proof.
  intros H. unfold znth, new_fixed. rewrite (nth_indep _ None ((fun i => default_fixed ptdb rd (last + 1 + Z.of_nat i)) 0%nat)) by (rewrite length_map, length_seq; lia).
  rewrite (map_nth (fun i => default_fixed ptdb rd (last + 1 + Z.of_nat i))), seq_nth by lia. f_equal. lia.
Qed.

(** The part of the record behind the fixed columns. *)
Definition r_tail (r : RECORD) : list Z := var_words 0 (r_var r) ++ var_data (r_var r) ++ r_tag r.

Lemma zlen_r_tail r : zlen (r_tail r) = rec_size ptdb r - fixed_end ptdb (nfixed r).
Proof. unfold r_tail, rec_size, nvar. rewrite !zlen_app, zlen_var_words. lia. Qed.

Lemma tail_holds m pb r : holds_record ptdb m pb r -> holds m (pb + fixed_end ptdb (nfixed r)) (r_tail r).
Proof. intros [_ _ _ _ _ W Dt T]. unfold r_tail. rewrite !holds_app, zlen_var_words. unfold nvar in *. repeat split; assumption. Qed.

Lemma record_of_tail m pb r : mem_ok m -> m pb = nfixed r -> m (pb + 1) = fidVarNone + nvar r -> load16 m (pb + 2) = fixed_end ptdb (nfixed r) ->
  columns_at ptdb m pb (pb + off ptdb (nfixed r)) (r_fixed r) -> holds m (pb + fixed_end ptdb (nfixed r)) (r_tail r) -> holds_record ptdb m pb r.
Proof. intros Hm H1 H2 H3 H4 H5. unfold r_tail in H5. rewrite !holds_app, zlen_var_words in H5. destruct H5 as (W & Dt & T). unfold nvar in *. constructor; assumption. Qed.

Definition extended_fixed (r : RECORD) (fid : Z) : RECORD := Rcd (r_fixed r ++ new_fixed (nfixed r) (fid - nfixed r)) (r_var r) (r_tag r).

Lemma nfixed_extended r fid : nfixed r <= fid -> nfixed (extended_fixed r fid) = fid.
Proof. intros H. unfold extended_fixed, nfixed in *. cbn [r_fixed]. rewrite zlen_app, zlen_new_fixed; lia. Qed.

Lemma rec_size_extended r fid : nfixed r <= fid -> rec_size ptdb (extended_fixed r fid) = rec_size ptdb r + (fixed_end ptdb fid - fixed_end ptdb (nfixed r)).
Proof. intros H. unfold rec_size. rewrite nfixed_extended by exact H. unfold nvar, extended_fixed. cbn [r_var r_tag]. lia. Qed.

Section Extend.
Variables (m : mem) (pb : Z) (r : RECORD) (fid : Z).
Hypothesis O : record_ok ptdb r.
Hypothesis R : holds_record ptdb m pb r.
Hypothesis Hfid : nfixed r < fid <= FidFixedLast ptdb.

Let A := off ptdb (nfixed r).
Let B := fixed_end ptdb (nfixed r).
Let A' := off ptdb fid.
Let B' := fixed_end ptdb fid.
Let L := rec_size ptdb r.

(** The moves and fills, but for the null bits. *)
Definition moved_fixed : mem :=
  let m := memmove m (pb + B') (pb + B) (L - B) in
  let m := memset m (pb + B) chRECFill (B' - B) in
  let m := SetIbEndOfFixedData m pb B' in
  let m := memmove m (pb + A') (pb + A) (B - A) in
  memset m (pb + A) chRECFill (A' - A).

Lemma extend_ranges : 4 <= A /\ A <= B /\ A <= A' /\ B <= B' /\ B - A <= B' - A' /\ B <= L < 32768 /\ B' <= 32716 /\ B = A + (nfixed r + 7) / 8 /\ B' = A' + (fid + 7) / 8.
Proof.
  pose proof (nfixed_range ptdb S r O) as N. pose proof (fixed_end_range ptdb S r O) as E. pose proof (parts_range ptdb r O) as P. pose proof (off_le ptdb S (nfixed r) fid ltac:(lia) ltac:(lia)) as Lo.
  pose proof (off_range ptdb S fid ltac:(lia)) as Ro. pose proof (zlen_r_tail r) as Zt. pose proof (zlen_nonneg (r_tail r)) as Zn. pose proof (sc_fixed _ S) as [_ Sf]. unfold fidFixedMost in Sf.
  assert (Q : (nfixed r + 7) / 8 <= (fid + 7) / 8 <= 16) by (split; [apply Z.div_le_mono; lia|change 16 with (135 / 8); apply Z.div_le_mono; lia]).
  unfold A, B, A', B', L, fixed_end in *. lia.
Qed.

Lemma moved_fixed_spec : mem_ok moved_fixed /\ moved_fixed pb = nfixed r /\ moved_fixed (pb + 1) = fidVarNone + nvar r /\ load16 moved_fixed (pb + 2) = B' /\
  (forall x, 4 <= x < A -> moved_fixed (pb + x) = m (pb + x)) /\ (forall x, 0 <= x < B - A -> moved_fixed (pb + A' + x) = m (pb + A + x)) /\
  holds moved_fixed (pb + B') (r_tail r) /\ same_outside pb (pb + L + (B' - B)) m moved_fixed.
Proof.
  pose proof extend_ranges as (R1 & R2 & R3 & R4 & R5 & R6 & R7 & R8 & R9). pose proof (zlen_r_tail r) as Zt. fold L B in Zt. pose proof R as [Hm H1 H2 _ _ _ _ _]. pose proof (tail_holds m pb r R) as T. fold B in T. unfold moved_fixed, SetIbEndOfFixedData.
  set (m1 := memmove m (pb + B') (pb + B) (L - B)). set (m2 := memset m1 (pb + B) chRECFill (B' - B)). set (m3 := store16 m2 (pb + 2) B'). set (m4 := memmove m3 (pb + A') (pb + A) (B - A)).
  assert (F3 : forall x, x < B -> (x < 2 \/ 4 <= x) -> m3 (pb + x) = m (pb + x)).
  { intros x Hx Hx'. unfold m3, m2, m1. rewrite store16_frame, memset_frame, memmove_frame by lia. reflexivity. }
  assert (F4 : forall x, x < A' -> m4 (pb + x) = m3 (pb + x)) by (intros x Hx; unfold m4; apply memmove_frame; lia).
  assert (F5 : forall x, x < A \/ A' <= x -> memset m4 (pb + A) chRECFill (A' - A) (pb + x) = m4 (pb + x)) by (intros x Hx; apply memset_frame; lia).
  split; [unfold m4, m3, m2, m1; apply memset_ok, memmove_ok, store16_ok, memset_ok, memmove_ok, Hm|].
  split; [rewrite <- (Z.add_0_r pb) at 2; rewrite F5, F4, F3, Z.add_0_r by lia; exact H1|]. split; [rewrite F5, F4, F3 by lia; exact H2|]. split; [|split; [|split; [|split]]].
  - rewrite (load16_ext _ m3); [unfold m3; rewrite load16_store16_eq; apply u16_small; lia|]. intros x Hx. replace x with (pb + (x - pb)) by lia. rewrite F5, F4 by lia. reflexivity.
  - intros x Hx. rewrite F5, F4, F3 by lia. reflexivity.
  - intros x Hx. rewrite <- !Z.add_assoc, F5 by lia. unfold m4. rewrite memmove_in by lia. replace (pb + A + (pb + (A' + x) - (pb + A'))) with (pb + (A + x)) by lia. rewrite F3 by lia. reflexivity.
  - intros i Hi. assert (Hi' : Z.of_nat i < zlen (r_tail r)) by (unfold zlen; lia). rewrite memset_frame by lia. unfold m4. rewrite memmove_frame by lia. unfold m3. rewrite store16_frame by lia. unfold m2. rewrite memset_frame by lia.
    unfold m1. rewrite memmove_in by lia. rewrite <- (T i Hi). f_equal. lia.
  - intros x Hx. rewrite memset_frame by lia. unfold m4. rewrite memmove_frame by lia. unfold m3. rewrite store16_frame by lia. unfold m2. rewrite memset_frame by lia. unfold m1. apply memmove_frame. lia.
Qed.

(** With the null bits, the default values and the new last column. *)
Definition extended_mem : mem :=
  let m := set_new_null_bits moved_fixed (pb + A') (pb + B') (nfixed r) fid in
  SetFidFixedLastInRec (burst_fixed_defaults ptdb m pb (pb + A') A (nfixed r) fid) pb fid.

Lemma extended_mem_spec : holds_record ptdb extended_mem pb (extended_fixed r fid) /\ same_outside pb (pb + L + (B' - B)) m extended_mem.
Proof.
  pose proof extend_ranges as (R1 & R2 & R3 & R4 & R5 & R6 & R7 & R8 & R9). destruct moved_fixed_spec as (Hm & H1 & H2 & H3 & H4 & H5 & H6 & H7).
  pose proof (nfixed_range ptdb S r O) as Nf. pose proof (sc_fixed _ S) as [_ Sf]. unfold fidFixedMost in Sf. pose proof (zlen_r_tail r) as Zt. fold L B in Zt.
  unfold extended_mem. replace (pb + B') with (pb + A' + (fid + 7) / 8) by lia. destruct (set_new_null_bits_spec moved_fixed (pb + A') (nfixed r) fid Hm ltac:(lia) ltac:(lia)) as (G1 & G2 & G3). set (mb := set_new_null_bits _ _ _ _ _) in *.
  destruct (burst_fixed_defaults_spec mb pb (pb + A') (nfixed r) fid G1 ltac:(lia) ltac:(lia) ltac:(unfold A'; lia)) as (K1 & K2 & K3 & K4). fold A A' in K2. fold A in K1, K3, K4.
  set (md := burst_fixed_defaults _ _ _ _ _ _ _) in *. unfold SetFidFixedLastInRec. rewrite u8_small by lia.
  assert (Fr : forall x, x < A \/ B' <= x -> x <> 0 -> store8 md pb fid (pb + x) = moved_fixed (pb + x)).
  { intros x Hx Hx0. rewrite store8_at, (proj2 (Z.eqb_neq _ _)) by lia. rewrite K2 by lia. apply G2. lia. }
  assert (Fm : forall x, 0 < x -> store8 md pb fid (pb + x) = md (pb + x)) by (intros x Hx; rewrite store8_at, (proj2 (Z.eqb_neq _ _)) by lia; reflexivity).
  split.
  - apply record_of_tail; rewrite ?nfixed_extended by lia.
    + now apply store8_ok.
    + rewrite store8_at, Z.eqb_refl. apply Z.mod_small. lia.
    + rewrite Fr by lia. exact H2.
    + transitivity (load16 moved_fixed (pb + 2)); [|exact H3]. apply load16_ext. intros x Hx. replace x with (pb + (x - pb)) by lia. rewrite Fr by lia. reflexivity.
    + intros k Hk. unfold extended_fixed in *. cbn [r_fixed] in *. rewrite zlen_app, zlen_new_fixed in Hk by lia. fold (nfixed r) in Hk. fold A'.
      assert (Bit : Z.testbit (store8 md pb fid (pb + A' + (k - 1) / 8)) ((k - 1) mod 8) = bit_at md (pb + A') (k - 1)) by (rewrite <- Z.add_assoc, Fm by zlia; rewrite Z.add_assoc; reflexivity).
      rewrite K3, G3 in Bit by lia. replace (k - 1 + 1) with k in Bit by lia. destruct (Z.le_gt_cases k (nfixed r)) as [Lk|Lk].
      * rewrite znth_app1 by (unfold nfixed in *; lia). pose proof (hr_columns _ _ _ _ R k ltac:(unfold nfixed in *; lia)) as C. pose proof (column_range ptdb S k (nfixed r) ltac:(lia) ltac:(lia)) as Cr. fold A in C, Cr.
        apply (column_at_frame ptdb m _ pb (pb + A) (pb + A') k _ (nfixed r) ltac:(lia) ltac:(lia) C).
        -- intros x Hx. replace x with (pb + (x - pb)) by lia. rewrite Fr, H4 by lia. reflexivity.
        -- rewrite Bit. rewrite (proj2 (Z.leb_gt (nfixed r) (k - 1))) by lia. cbn [orb andb negb]. rewrite andb_true_r. unfold bit_at. rewrite H5 by zlia. reflexivity.
      * rewrite znth_app2, znth_new_fixed by (unfold nfixed in *; lia). replace (nfixed r + 1 + (k - 1 - zlen (r_fixed r))) with k by (unfold nfixed; lia). split.
        -- rewrite Bit, (proj2 (Z.leb_le (nfixed r) (k - 1))) by lia. cbn [orb andb negb]. apply negb_involutive.
        -- destruct (default_fixed ptdb rd k) as [v|] eqn:E; [|exact I]. destruct (K4 k v ltac:(lia) E) as [K5 K6]. split; [|exact K6]. pose proof (column_range ptdb S k fid ltac:(lia) ltac:(lia)) as Cr.
           apply (holds_ext md); [exact K5|]. intros x Hx. replace x with (pb + (x - pb)) by lia. rewrite Fm by lia. reflexivity.
    + unfold r_tail, extended_fixed. cbn [r_var r_tag]. fold (r_tail r) B'. apply (holds_ext moved_fixed); [exact H6|]. intros x Hx. replace x with (pb + (x - pb)) by lia. rewrite Fr by lia. reflexivity.
  - intros x Hx. rewrite store8_at, (proj2 (Z.eqb_neq _ _)) by lia. rewrite K2, G2 by lia. now apply H7.
Qed.
End Extend.
End Burst.
End Fixed.

(** * Records: the value stored in a fixed column

    The state of a cursor whose work buffer holds a record, the bytes a value
    has in a fixed column, and what [extend_fixed] and [store_fixed] do. *)

(** ** Replacing one column *)

Definition zset (l : list (option (list Z))) (i : Z) (x : option (list Z)) : list (option (list Z)) :=
  firstn (Z.to_nat i) l ++ x :: skipn (Datatypes.S (Z.to_nat i)) l.

Lemma zset_app l1 y l2 i x : zlen l1 = i -> zset (l1 ++ y :: l2) i x = l1 ++ x :: l2.
Proof.
  intros <-. unfold zset, zlen. rewrite Nat2Z.id, firstn_app, Nat.sub_diag, firstn_all, app_nil_r. f_equal. f_equal.
  rewrite skipn_app, skipn_all2 by lia. replace (Datatypes.S (length l1) - length l1)%nat with 1%nat by lia. reflexivity.
Qed.

Lemma zlen_zset l i x : 0 <= i < zlen l -> zlen (zset l i x) = zlen l.
Proof. intros H. destruct (znth_split l i H) as (l1 & l2 & E & L). rewrite E, zset_app by exact L. rewrite !zlen_app, !zlen_cons. reflexivity. Qed.

Lemma znth_zset l i x j : 0 <= i < zlen l -> 0 <= j -> znth (zset l i x) j = if j =? i then x else znth l j.
Proof.
  intros H Hj. destruct (znth_split l i H) as (l1 & l2 & E & L). rewrite E at 1. rewrite zset_app by exact L. destruct (Z.eqb_spec j i) as [->|N].
  - rewrite znth_app2 by lia. replace (i - zlen l1) with 0 by lia. reflexivity.
  - rewrite E at 1. destruct (Z.lt_ge_cases j i).
    + now rewrite !znth_app1 by lia.
    + rewrite !znth_app2 by lia. unfold znth. replace (Z.to_nat (j - zlen l1)) with (Datatypes.S (Z.to_nat (j - zlen l1 - 1))) by lia. reflexivity.
Qed.

(** ** The bytes of a value *)

(** The byte at offset [i] that fills up a text. *)
Definition fill_byte (cp i : Z) : Z := if (usUniCodePage =? cp) && negb (i mod 2 =? 0) then 0 else 32.

Definition padding (cp n len : Z) : list Z := map (fun i => fill_byte cp (n + Z.of_nat i)) (seq 0 (Z.to_nat (len - n))).

Definition is_numeric (c : JET_COLTYP) : bool := match cb_of_type c with Some _ => true | None => false end.

(** The error, or what the column contains afterwards: a bit is stored as one
    byte of zeros or ones. *)
Definition fixed_image (pfield : FIELD) (d : list Z) : Z * list Z :=
  if zlen d =? cbMaxLen pfield then (JET_errSuccess, match coltyp pfield with coltypBit => [if hd 0 d =? 0 then 0x00 else 0xff] | _ => d end)
  else if is_numeric (coltyp pfield) || (cbMaxLen pfield <? zlen d) then (JET_errInvalidBufferSize, [])
  else (JET_errSuccess, d ++ match coltyp pfield with coltypBinary => repeat 0 (Z.to_nat (cbMaxLen pfield - zlen d)) | _ => padding (cp pfield) (zlen d) (cbMaxLen pfield) end).

Lemma zlen_padding c n len : n <= len -> zlen (padding c n len) = len - n.
Proof. intros H. unfold zlen, padding. rewrite length_map, length_seq. lia. Qed.

Lemma nth_padding c n len i : (i < Z.to_nat (len - n))%nat -> nth i (padding c n len) 0 = fill_byte c (n + Z.of_nat i).
Proof.
  intros H. unfold padding. rewrite (nth_indep _ 0 ((fun i => fill_byte c (n + Z.of_nat i)) 0%nat)) by (rewrite length_map, length_seq; lia).
  rewrite (map_nth (fun i => fill_byte c (n + Z.of_nat i))), seq_nth by lia. reflexivity.
Qed.

Lemma text_padding_loop_spec n : forall m pb i, mem_ok m ->
  let m' := text_padding_loop n m pb i in
  mem_ok m' /\ same_outside (pb + i) (pb + i + Z.of_nat n) m m' /\ (forall k, i <= k < i + Z.of_nat n -> m' (pb + k) = fill_byte usUniCodePage k).
Proof.
  induction n as [|n IH]; intros m pb i Hm m'; subst m'; cbn [text_padding_loop]; [split; [exact Hm|split; [easy|lia]]|].
  set (b := wchRECFixedColAndKeyFill / _ mod 256). assert (Eb : b mod 256 = fill_byte usUniCodePage i).
  { unfold b, fill_byte. rewrite Z.eqb_refl. destruct (i mod 2 =? 0); reflexivity. }
  destruct (IH (store8 m (pb + i) b) pb (i + 1) ltac:(now apply store8_ok)) as (I1 & I2 & I3). split; [exact I1|]. split.
  - intros x Hx. rewrite I2 by lia. rewrite store8_at, (proj2 (Z.eqb_neq x (pb + i))) by lia. reflexivity.
  - intros k Hk. destruct (Z.eq_dec k i) as [->|N]; [|apply I3; lia]. rewrite I2 by lia. rewrite store8_at, Z.eqb_refl. exact Eb.
Qed.

Lemma RECTextColumnPadding_spec m pb len n c : mem_ok m -> n <= len ->
  let m' := RECTextColumnPadding m pb len n c in
  mem_ok m' /\ same_outside (pb + n) (pb + len) m m' /\ holds m' (pb + n) (padding c n len).
Proof.
  intros Hm Hn m'. subst m'. unfold RECTextColumnPadding. destruct (Z.eqb_spec usUniCodePage c) as [<-|N].
  - destruct (text_padding_loop_spec (Z.to_nat (len - n)) m pb n Hm) as (I1 & I2 & I3). split; [exact I1|]. split; [eapply same_outside_weaken; [exact I2|lia..]|].
    intros i Hi. pose proof (zlen_padding usUniCodePage n len Hn) as Z. unfold zlen in Z. rewrite nth_padding by lia. rewrite <- Z.add_assoc. apply I3. lia.
  - split; [now apply memset_ok|]. split; [intros x Hx; apply memset_frame; lia|]. intros i Hi. pose proof (zlen_padding c n len Hn) as Z. unfold zlen in Z.
    rewrite nth_padding, memset_in by lia. unfold fill_byte. now rewrite (proj2 (Z.eqb_neq usUniCodePage c) N).
Qed.

Lemma memset_zeros m p n : 0 <= n -> holds (memset m p 0 n) p (repeat 0 (Z.to_nat n)).
Proof. intros H i Hi. rewrite repeat_length in Hi. rewrite memset_in by lia. now rewrite nth_repeat. Qed.

Lemma zlen_repeat {A} (x : A) n : zlen (repeat x n) = Z.of_nat n.
Proof. unfold zlen. now rewrite repeat_length. Qed.

(** What is written behind the data of a column that is too short. *)
Lemma pad_fixed_spec m p pfield d : mem_ok m ->
  exists m', pad_fixed m p pfield d = (fst (fixed_image pfield d), m') /\ mem_ok m' /\ same_outside p (p + cbMaxLen pfield) m m' /\
  (fst (fixed_image pfield d) <> JET_errSuccess -> m' = m) /\ (is_numeric (coltyp pfield) = true -> m' = m) /\
  (fst (fixed_image pfield d) = JET_errSuccess -> coltyp pfield <> coltypBit -> exists l, snd (fixed_image pfield d) = d ++ l /\ holds m' (p + zlen d) l).
Proof.
  intros Hm. unfold pad_fixed, fixed_image, is_numeric. change (Cb d) with (zlen d). pose proof (zlen_nonneg d) as Zd. destruct (Z.eqb_spec (zlen d) (cbMaxLen pfield)) as [E|N].
  - exists m. cbn [fst snd]. do 3 (split; [easy|]). do 2 (split; [easy|]). intros _ Nb. exists []. split; [rewrite app_nil_r; destruct (coltyp pfield); congruence|apply holds_nil].
  - assert (Err : exists m', (JET_errInvalidBufferSize, m) = (fst (JET_errInvalidBufferSize, @nil Z), m') /\ mem_ok m' /\ same_outside p (p + cbMaxLen pfield) m m' /\
      (fst (JET_errInvalidBufferSize, @nil Z) <> JET_errSuccess -> m' = m) /\ (true = true -> m' = m) /\
      (fst (JET_errInvalidBufferSize, @nil Z) = JET_errSuccess -> coltyp pfield <> coltypBit -> exists l, snd (JET_errInvalidBufferSize, @nil Z) = d ++ l /\ holds m' (p + zlen d) l))
      by (exists m; do 5 (split; [easy|]); easy).
    assert (Text : cb_of_type (coltyp pfield) = None -> zlen d <= cbMaxLen pfield -> exists m',
      (JET_errSuccess, RECTextColumnPadding m p (cbMaxLen pfield) (zlen d) (cp pfield)) = (JET_errSuccess, m') /\ mem_ok m' /\ same_outside p (p + cbMaxLen pfield) m m' /\
      (JET_errSuccess <> JET_errSuccess -> m' = m) /\ (false = true -> m' = m) /\
      (JET_errSuccess = JET_errSuccess -> coltyp pfield <> coltypBit -> exists l, d ++ padding (cp pfield) (zlen d) (cbMaxLen pfield) = d ++ l /\ holds m' (p + zlen d) l)).
    { intros _ L. destruct (RECTextColumnPadding_spec m p (cbMaxLen pfield) (zlen d) (cp pfield) Hm L) as (I1 & I2 & I3). eexists. split; [reflexivity|]. split; [exact I1|].
      split; [eapply same_outside_weaken; [exact I2|lia..]|]. do 2 (split; [easy|]). intros _ _. eexists. split; [reflexivity|exact I3]. }
    destruct (coltyp pfield); cbn [cb_of_type orb] in *; try exact Err; destruct (Z.ltb_spec (cbMaxLen pfield) (zlen d)); cbn [fst snd];
      try (exists m; do 5 (split; [easy|]); easy); try (now apply Text).
    exists (memset m (p + zlen d) 0 (cbMaxLen pfield - zlen d)). split; [reflexivity|]. split; [now apply memset_ok|]. split; [intros x Hx; apply memset_frame; lia|].
    do 2 (split; [easy|]). intros _ _. eexists. split; [reflexivity|]. apply memset_zeros. lia.
Qed.

Lemma zlen_fixed_image pfield d : fst (fixed_image pfield d) = JET_errSuccess -> (coltyp pfield = coltypBit -> cbMaxLen pfield = 1) -> zlen (snd (fixed_image pfield d)) = cbMaxLen pfield.
Proof.
  intros H Hb. unfold fixed_image in *. destruct (Z.eqb_spec (zlen d) (cbMaxLen pfield)) as [E|N]; [destruct (coltyp pfield); cbn [snd]; try exact E; now rewrite Hb|].
  destruct (is_numeric (coltyp pfield) || (cbMaxLen pfield <? zlen d)) eqn:T; [discriminate|]. apply orb_false_iff in T as [_ T]. apply Z.ltb_ge in T. cbn [snd].
  rewrite zlen_app. destruct (coltyp pfield); rewrite ?zlen_repeat, ?zlen_padding by exact T; lia.
Qed.

(** ** The cursor *)

Section Store.
Variable ptdb : TDB.
Hypothesis S : schema_ok ptdb.

(** The work buffer holds [r], which fits. *)
Record cursor_at (f : FUCB) (r : RECORD) : Prop := {
  ca_holds : holds_record ptdb (f_m f) (pv (dataWorkBuf f)) r;
  ca_cb : cb (dataWorkBuf f) = rec_size ptdb r;
  ca_ok : record_ok ptdb r;
  ca_fits : rec_size ptdb r <= f_cbRecordMost f
}.

(** The sizes of pages and keys make for records of less than 32 KB. *)
Definition cursor_fits (f : FUCB) : Prop :=
  f_cbRecordMost f < 32768 /\ f_cbRecordMost f <= CbRecordMostCHECK (cbPage f) /\ f_cbRecordMost f <= maskIb (FIsSmallPage (cbPage f)).

Lemma cursor_fits_page f : cbPage f <= 32768 -> sizeof_DBK <= CbKeyMost f -> cursor_fits f.
Proof.
  unfold cursor_fits, f_cbRecordMost, CbRecordMostCHECK, CbRecordMost, CbNDNodeMost, CbPageDataMax, CbPageHeader, FIsSmallPage, maskIb, sizeof_DBK, cbKeyCount, JET_cbKeyMostMin. intros H K.
  destruct (Z.leb_spec (cbPage f) (1024 * 8)); lia.
Qed.

(** Only the record changed, and nothing outside the work buffer. *)
Definition moves (f f' : FUCB) : Prop :=
  f' = with_record f (f_m f') (cb (dataWorkBuf f')) /\ same_outside (pv (dataWorkBuf f)) (pv (dataWorkBuf f) + f_cbRecordMost f) (f_m f) (f_m f').

Lemma with_record_id f : with_record f (f_m f) (cb (dataWorkBuf f)) = f.
Proof. now destruct f as [? [] ?]. Qed.

Lemma moves_refl f : moves f f.
Proof. split; [now rewrite with_record_id|apply same_outside_refl]. Qed.

Lemma moves_trans f1 f2 f3 : moves f1 f2 -> moves f2 f3 -> moves f1 f3.
Proof.
  intros [E1 S1] [E2 S2]. rewrite E1 in E2, S2. split; [exact E2|]. exact (same_outside_trans _ _ _ _ _ S1 S2).
Qed.

Lemma moves_with f m cb : same_outside (pv (dataWorkBuf f)) (pv (dataWorkBuf f) + f_cbRecordMost f) (f_m f) m -> moves f (with_record f m cb).
Proof. intros H. split; [reflexivity|exact H]. Qed.

Lemma moves_fits f f' : moves f f' -> cursor_fits f -> cursor_fits f'.
Proof. intros [-> _] H. exact H. Qed.

Lemma cursor_with f m r : holds_record ptdb m (pv (dataWorkBuf f)) r -> record_ok ptdb r -> rec_size ptdb r <= f_cbRecordMost f -> cursor_at (with_record f m (rec_size ptdb r)) r.
Proof. intros H1 H2 H3. now constructor. Qed.

Lemma cursor_set_bit f fid r : cursor_at f r -> cursor_at (FUCBSetColumnSet f fid) r.
Proof. intros [H1 H2 H3 H4]. now constructor. Qed.

Lemma rec_size_min r : record_ok ptdb r -> cbRecordMin <= rec_size ptdb r.
Proof. intros O. pose proof (fixed_end_range ptdb S r O). pose proof (nvar_range ptdb r O). pose proof (parts_range ptdb r O). unfold rec_size, cbRecordMin in *. lia. Qed.

Lemma bad_size_record f r : cursor_fits f -> record_ok ptdb r -> rec_size ptdb r <= CbRecordMostCHECK (cbPage f) -> bad_size f (rec_size ptdb r) = false.
Proof. intros [_ F] O L. pose proof (rec_size_min r O). unfold bad_size. apply orb_false_iff. split; apply Z.ltb_ge; lia. Qed.

Lemma bad_size_cursor f r : cursor_fits f -> cursor_at f r -> bad_size f (cb (dataWorkBuf f)) = false.
Proof. intros F C. rewrite (ca_cb _ _ C). apply bad_size_record; [exact F|apply C|]. pose proof (ca_fits _ _ C). destruct F. lia. Qed.

(** ** Extending *)

Lemma extend_fixed_spec f rd r fid : cursor_fits f -> cursor_at f r -> defaults_ok ptdb (CbRecordMostCHECK (cbPage f)) rd ->
  nfixed r < fid <= FidFixedLast ptdb -> FColtypNil ptdb fid = false ->
  extend_fixed ptdb f fid = (if f_cbRecordMost f <? rec_size ptdb (extended_fixed ptdb rd r fid) then JET_errRecordTooBig else JET_errSuccess, snd (extend_fixed ptdb f fid)) /\
  if f_cbRecordMost f <? rec_size ptdb (extended_fixed ptdb rd r fid) then snd (extend_fixed ptdb f fid) = f
  else moves f (snd (extend_fixed ptdb f fid)) /\ cursor_at (snd (extend_fixed ptdb f fid)) (extended_fixed ptdb rd r fid).
Proof.
  intros F C D Hf Hn. pose proof (ca_holds _ _ C) as R. pose proof (ca_ok _ _ C) as O. pose proof (nfixed_range ptdb S r O) as Nf. pose proof (extend_ranges ptdb S r fid O Hf) as X. pose proof (off_range ptdb S fid ltac:(lia)) as Ro.
  destruct (extended_mem_spec ptdb S rd _ D (f_m f) (pv (dataWorkBuf f)) r fid O R Hf) as [M1 M2]. pose proof (rec_size_extended ptdb rd r fid ltac:(lia)) as Rs. cbv zeta in X.
  unfold extend_fixed. rewrite (at_FidFixedLastInRec _ _ _ _ R), (at_PbFixedNullBitMap _ _ _ _ R), (at_IbEndOfFixedData _ _ _ _ R), (ca_cb _ _ C).
  replace (pv (dataWorkBuf f) + off ptdb (nfixed r) - pv (dataWorkBuf f)) with (off ptdb (nfixed r)) by lia. rewrite (sc_live _ S fid ltac:(lia) Hn), (u16_small (off ptdb (nfixed r))), (u16_small (off ptdb fid)) by lia.
  unfold CountOfFixed, fidFixedLeast. replace (fid - 1 + 1 + 7) with (fid + 7) by lia. change (off ptdb fid + (fid + 7) / 8) with (fixed_end ptdb fid). rewrite (u16_small (fixed_end ptdb fid)) by lia.
  rewrite <- Rs. destruct (Z.ltb_spec (f_cbRecordMost f) (rec_size ptdb (extended_fixed ptdb rd r fid))) as [T|T]; [split; reflexivity|].
  assert (B : forall md d, PdataDefaultRecord ptdb = Some (md, d) -> bad_size f (cb d) = false).
  { intros md d E. pose proof (do_rec _ _ _ D) as Dr. unfold default_rec in Dr. rewrite E in Dr. destruct Dr as (_ & Od & Ed & Ld). rewrite Ed in *. now apply bad_size_record. }
  assert (Out : forall m', same_outside (pv (dataWorkBuf f)) (pv (dataWorkBuf f) + rec_size ptdb r + (fixed_end ptdb fid - fixed_end ptdb (nfixed r))) (f_m f) m' ->
    same_outside (pv (dataWorkBuf f)) (pv (dataWorkBuf f) + f_cbRecordMost f) (f_m f) m') by (intros m' H; eapply same_outside_weaken; [exact H|lia..]).
  assert (Oe : record_ok ptdb (extended_fixed ptdb rd r fid)).
  { constructor; [rewrite nfixed_extended by lia; lia|apply O|destruct F; lia]. }
  destruct (PdataDefaultRecord ptdb) as [[md d]|] eqn:E; [match goal with |- context [bad_size ?g (cb d)] => change (bad_size g (cb d)) with (bad_size f (cb d)) end; rewrite (B md d eq_refl)|];
    (split; [reflexivity|split; [apply (moves_with f), Out, M2|apply (cursor_with f); assumption]]).
Qed.

(** ** Storing a value *)

Definition with_fixed (r : RECORD) (fid : Z) (x : option (list Z)) : RECORD := Rcd (zset (r_fixed r) (fid - 1) x) (r_var r) (r_tag r).

Lemma nfixed_with r fid x : 1 <= fid <= nfixed r -> nfixed (with_fixed r fid x) = nfixed r.
Proof. intros H. unfold with_fixed, nfixed in *. cbn [r_fixed]. apply zlen_zset. lia. Qed.

Lemma rec_size_with r fid x : 1 <= fid <= nfixed r -> rec_size ptdb (with_fixed r fid x) = rec_size ptdb r.
Proof. intros H. unfold rec_size. now rewrite nfixed_with. Qed.

Lemma record_ok_with r fid x : 1 <= fid <= nfixed r -> record_ok ptdb r -> record_ok ptdb (with_fixed r fid x).
Proof. intros H [O1 O2 O3]. constructor; [now rewrite nfixed_with|exact O2|now rewrite rec_size_with]. Qed.

(** A memory in which only one column and its null bit changed. *)
Lemma with_fixed_holds m m' pb r fid x : record_ok ptdb r -> holds_record ptdb m pb r -> 1 <= fid <= nfixed r -> mem_ok m' ->
  (forall a, a < pb + ibRecordOffset (PfieldFixed ptdb fid) \/ pb + ibRecordOffset (PfieldFixed ptdb fid) + cbMaxLen (PfieldFixed ptdb fid) <= a ->
    a <> pb + off ptdb (nfixed r) + (fid - 1) / 8 -> m' a = m a) ->
  (forall i, 0 <= i < nfixed r -> bit_at m' (pb + off ptdb (nfixed r)) i = if fid - 1 =? i then is_null x else bit_at m (pb + off ptdb (nfixed r)) i) ->
  match x with Some v => holds m' (pb + ibRecordOffset (PfieldFixed ptdb fid)) v /\ zlen v = cbMaxLen (PfieldFixed ptdb fid) | None => True end ->
  holds_record ptdb m' pb (with_fixed r fid x).
Proof.
  intros O R H Hm Fr Bt V. pose proof (nfixed_range ptdb S r O) as Nf. pose proof (column_range ptdb S fid (nfixed r) ltac:(lia) ltac:(lia)) as (C1 & C2 & C3). pose proof (fixed_end_range ptdb S r O) as E.
  assert (Q : 0 <= (fid - 1) / 8 < (nfixed r + 7) / 8) by zlia. assert (Eb : fixed_end ptdb (nfixed r) = off ptdb (nfixed r) + (nfixed r + 7) / 8) by reflexivity.
  assert (Fr' : forall a, pb <= a < pb + 4 \/ pb + fixed_end ptdb (nfixed r) <= a -> m' a = m a) by (intros a Ha; apply Fr; lia).
  apply record_of_tail; rewrite ?nfixed_with by exact H.
  - exact Hm.
  - rewrite Fr' by lia. apply R.
  - rewrite Fr' by lia. apply R.
  - rewrite <- (hr_end _ _ _ _ R). symmetry. apply load16_ext. intros a Ha. symmetry. apply Fr'. lia.
  - intros k Hk. unfold with_fixed in *. cbn [r_fixed] in *. rewrite zlen_zset in Hk by (unfold nfixed in H; lia). fold (nfixed r) in Hk. rewrite znth_zset by (unfold nfixed in H; lia).
    specialize (Bt (k - 1) ltac:(lia)). destruct (Z.eqb_spec (k - 1) (fid - 1)) as [Ek|N].
    + replace k with fid in * by lia. rewrite Z.eqb_refl in Bt. split; [exact Bt|exact V].
    + rewrite (proj2 (Z.eqb_neq (fid - 1) (k - 1))) in Bt by lia. pose proof (column_range ptdb S k (nfixed r) ltac:(lia) ltac:(lia)) as (K1 & K2 & K3).
      apply (column_at_frame ptdb m _ pb (pb + off ptdb (nfixed r)) _ k _ (nfixed r) ltac:(lia) ltac:(lia) (hr_columns _ _ _ _ R k Hk)); [|exact Bt].
      intros a Ha. symmetry. apply Fr; [|lia]. destruct (Z.lt_ge_cases k fid); [pose proof (column_apart ptdb S k fid ltac:(lia) ltac:(lia))|pose proof (column_apart ptdb S fid k ltac:(lia) ltac:(lia))]; lia.
  - change (r_tail (with_fixed r fid x)) with (r_tail r). apply (holds_ext m); [now apply tail_holds|]. intros a Ha. symmetry. apply Fr'. lia.
Qed.

(** The error of a value, if any. *)
Definition fixed_error (f : FUCB) (fid : Z) (d : list Z) : Z :=
  let e := fst (fixed_image (PfieldFixed ptdb fid) d) in if e =? JET_errSuccess then check_autoinc ptdb f (PfieldFixed ptdb fid) d else e.

Lemma check_autoinc_off f pfield d : FFIELDAutoincrement (ffield pfield) = false -> check_autoinc ptdb f pfield d = JET_errSuccess.
Proof. intros H. unfold check_autoinc. now rewrite H. Qed.

Section One.
Variables (f : FUCB) (r : RECORD) (fid : Z).
Hypothesis C : cursor_at f r.
Hypothesis Hf : 1 <= fid <= nfixed r.
Hypothesis Hn : FColtypNil ptdb fid = false.

Lemma column_in_buffer : let p := pv (dataWorkBuf f) in 0 <= cbMaxLen (PfieldFixed ptdb fid) /\
  p + 4 <= p + ibRecordOffset (PfieldFixed ptdb fid) /\ p + ibRecordOffset (PfieldFixed ptdb fid) + cbMaxLen (PfieldFixed ptdb fid) <= p + off ptdb (nfixed r) /\
  p + off ptdb (nfixed r) <= p + off ptdb (nfixed r) + (fid - 1) / 8 < p + f_cbRecordMost f.
Proof.
  pose proof (ca_ok _ _ C) as O. pose proof (nfixed_range ptdb S r O). pose proof (column_range ptdb S fid (nfixed r) ltac:(lia) ltac:(lia)). pose proof (parts_range ptdb r O). pose proof (nvar_range ptdb r O). pose proof (ca_fits _ _ C) as L.
  unfold rec_size, fixed_end in L. assert (0 <= (fid - 1) / 8 < (nfixed r + 7) / 8) by zlia. cbv zeta. lia.
Qed.

Lemma store_fixed_null : moves f (snd (store_fixed ptdb f fid (PfieldFixed ptdb fid) None)) /\
  cursor_at (snd (store_fixed ptdb f fid (PfieldFixed ptdb fid) None)) (with_fixed r fid None).
Proof.
  pose proof (ca_holds _ _ C) as R. pose proof (ca_ok _ _ C) as O. pose proof column_in_buffer as B. cbv zeta in B. cbn [store_fixed snd]. rewrite (at_PbFixedNullBitMap _ _ _ _ R), (ca_cb _ _ C), <- (rec_size_with r fid None Hf). unfold IndexOfFixed, fidFixedLeast.
  split; [apply moves_with; intros a Ha; apply SetFixedNullBit_frame; lia|]. apply cursor_with; [|now apply record_ok_with|rewrite rec_size_with by exact Hf; apply C].
  apply (with_fixed_holds (f_m f)); try assumption; [apply SetFixedNullBit_ok, R|intros a _ Ha; apply SetFixedNullBit_frame; lia| |exact I].
  intros i Hi. rewrite bit_at_set by lia. cbn [is_null]. destruct (fid - 1 =? i); [apply orb_true_r|apply orb_false_r].
Qed.

Lemma store_fixed_spec d : bytes_ok d ->
  store_fixed ptdb f fid (PfieldFixed ptdb fid) (Some d) = (fixed_error f fid d, snd (store_fixed ptdb f fid (PfieldFixed ptdb fid) (Some d))) /\
  if fixed_error f fid d =? JET_errSuccess
  then moves f (snd (store_fixed ptdb f fid (PfieldFixed ptdb fid) (Some d))) /\
       cursor_at (snd (store_fixed ptdb f fid (PfieldFixed ptdb fid) (Some d))) (with_fixed r fid (Some (snd (fixed_image (PfieldFixed ptdb fid) d))))
  else snd (store_fixed ptdb f fid (PfieldFixed ptdb fid) (Some d)) = f.
Proof.
  intros Hd. pose proof (ca_holds _ _ C) as R. pose proof (ca_ok _ _ C) as O. pose proof column_in_buffer as B. cbv zeta in B. pose proof (nfixed_range ptdb S r O) as Nf. pose proof (sc_type _ S fid ltac:(lia) Hn) as Ty.
  cbn [store_fixed]. set (pf := PfieldFixed ptdb fid) in *. set (pc := pv (dataWorkBuf f) + ibRecordOffset pf) in *.
  destruct (pad_fixed_spec (f_m f) pc pf d (hr_mem _ _ _ _ R)) as (m1 & -> & P1 & P2 & P3 & P4 & P5). unfold fixed_error. fold pf. destruct (Z.eqb_spec (fst (fixed_image pf d)) JET_errSuccess) as [E0|E0]; cbn [negb].
  2:{ cbn [snd]. split; [reflexivity|]. rewrite (proj2 (Z.eqb_neq _ _) E0), P3, with_record_id by exact E0. reflexivity. }
  destruct (Z.eqb_spec (check_autoinc ptdb f pf d) JET_errSuccess) as [E1|E1]; cbn [negb].
  2:{ cbn [snd]. split; [reflexivity|]. rewrite P4, with_record_id; [reflexivity|]. unfold is_numeric. destruct (cb_of_type (coltyp pf)); [reflexivity|]. now rewrite check_autoinc_off in E1. }
  rewrite E1. cbn [snd]. split; [reflexivity|]. rewrite (at_PbFixedNullBitMap _ _ _ _ R), (ca_cb _ _ C), <- (rec_size_with r fid (Some (snd (fixed_image pf d))) Hf). unfold IndexOfFixed, fidFixedLeast.
  assert (Zi : zlen (snd (fixed_image pf d)) = cbMaxLen pf) by (apply zlen_fixed_image; [exact E0|intros Ec; rewrite Ec in Ty; exact Ty]).
  set (pbit := pv (dataWorkBuf f) + off ptdb (nfixed r)) in *. set (m2 := ResetFixedNullBit m1 (pbit + (fid - 1) / 8) (fid - 1)).
  assert (X : exists l, match coltyp pf with coltypBit => store8 m2 pc (if hd 0 d =? 0 then 0 else 255) | _ => RECCopyData m2 pc d end = store_bytes m2 pc l /\ zlen l <= cbMaxLen pf /\ holds (store_bytes m2 pc l) pc (snd (fixed_image pf d))).
  { destruct (coltyp pf) eqn:Ec; try (exists d; split; [reflexivity|]; destruct (P5 E0) as (l & El & Hl); [congruence|]; split; [rewrite <- Zi, El, zlen_app; pose proof (zlen_nonneg l); lia|]; rewrite El, holds_app; split; [now apply holds_store_bytes|];
      apply (holds_ext m1); [exact Hl|]; rewrite El, zlen_app in Zi; intros a Ha; rewrite store_bytes_frame by (unfold zlen in *; lia); unfold m2; rewrite ResetFixedNullBit_frame by lia; reflexivity).
    cbn [cb_of_type] in Ty. pose proof E0 as E2. unfold fixed_image in E2 |- *. rewrite Ec in *. destruct (zlen d =? cbMaxLen pf); [|discriminate]. cbn [snd]. set (b := if hd 0 d =? 0 then 0 else 255).
    assert (Eb : store8 m2 pc b = store_bytes m2 pc [b]).
    { apply functional_extensionality. intros a. rewrite store8_at. destruct (Z.eqb_spec a pc) as [->|N]; [|now rewrite store_bytes_frame by (cbn; lia)]. rewrite store_bytes_in by (cbn; lia). now rewrite Z.sub_diag. }
    exists [b]. split; [exact Eb|]. split; [rewrite zlen_cons, zlen_nil; lia|]. rewrite <- Eb. apply holds_store8. unfold b. destruct (hd 0 d =? 0); lia. }
  destruct X as (l & -> & Ll & Hl).
  assert (Fr : forall a, a < pc \/ pc + cbMaxLen pf <= a -> a <> pbit + (fid - 1) / 8 -> store_bytes m2 pc l a = f_m f a).
  { intros a Ha Hb. rewrite store_bytes_frame by (unfold zlen in Ll; lia). unfold m2. rewrite ResetFixedNullBit_frame by lia. apply P2. lia. }
  split; [apply moves_with; intros a Ha; apply Fr; lia|]. apply cursor_with; [|now apply record_ok_with|rewrite rec_size_with by exact Hf; apply C].
  apply (with_fixed_holds (f_m f)); try assumption; [now apply store_bytes_ok, ResetFixedNullBit_ok| |split; assumption].
  intros i Hi. assert (0 <= i / 8) by zlia. unfold bit_at at 1. rewrite store_bytes_frame by (unfold zlen in Ll; fold pbit; lia). fold pbit. change (Z.testbit (m2 (pbit + i / 8)) (i mod 8)) with (bit_at m2 pbit i). unfold m2. rewrite bit_at_reset by lia. unfold bit_at. rewrite P2 by lia.
  cbn [is_null]. destruct (fid - 1 =? i); [apply andb_false_r|apply andb_true_r].
Qed.
End One.
End Store.
