(* ===== verification/RecVar.v ===== *)
(** * Records: setting a variable column

    The loops over the offsets of variable columns, how a record is extended to
    contain more of them, and how a value replaces another. *)

From Stdlib Require Import ZArith List Lia Bool.
From S2P Require Import Prelude Mem Norm TagFld TagFldView TagFldOps Rec RecView RecFixed.
Import ListNotations.

(** ** Offsets in memory *)

Lemma skipn_nth {A} (l : list A) d : forall s, (s < length l)%nat -> skipn s l = nth s l d :: skipn (Datatypes.S s) l.
Proof. induction l as [|x l IH]; intros [|s] H; cbn [length] in H; try lia; [reflexivity|]. cbn [skipn nth]. apply IH. lia. Qed.

Lemma load16_holds m a w : mem_ok m -> load16 m a = w -> holds m a (le16 w).
Proof. intros Hm <-. apply holds_le16_iff; [exact Hm|now apply load16_range|reflexivity]. Qed.

Lemma var_words_nulls n : forall o, var_words o (repeat None n) = concat (repeat (le16 (var_word o None)) n).
Proof. induction n as [|n IH]; intros o; [reflexivity|]. cbn [repeat var_words concat vbytes]. change (zlen (@nil Z)) with 0. rewrite Z.add_0_r, IH. reflexivity. Qed.

Lemma var_data_nulls n : var_data (repeat None n) = [].
Proof. induction n as [|n IH]; [reflexivity|]. cbn [repeat]. now rewrite var_data_cons, IH. Qed.

Lemma fill_offsets_spec n : forall m pib w, mem_ok m ->
  let m' := fill_offsets n m pib w in
  mem_ok m' /\ same_outside pib (pib + 2 * Z.of_nat n) m m' /\ holds m' pib (concat (repeat (le16 w) n)).
Proof.
  induction n as [|n IH]; intros m pib w Hm m'; subst m'; cbn [fill_offsets]; [split; [exact Hm|split; [apply same_outside_refl|apply holds_nil]]|].
  destruct (IH (store16 m pib w) (pib + 2) w ltac:(now apply store16_ok)) as (I1 & I2 & I3). split; [exact I1|]. split.
  - intros a Ha. rewrite I2, store16_frame by lia. reflexivity.
  - cbn [repeat concat]. rewrite holds_app. split; [|exact I3]. eapply holds_same_outside; [apply holds_store16|exact I2|]. rewrite zlen_le16. lia.
Qed.

(** Offsets are moved by [delta]; null bits stay. *)
Lemma shift_word e x delta : 0 <= e < 32768 -> 0 <= e + delta < 32768 -> u16 (var_word e x + delta) = var_word (e + delta) x.
Proof. intros H1 H2. pose proof (var_word_range (e + delta) x H2). unfold var_word in *. rewrite u16_small by lia. lia. Qed.

Lemma shift_offsets_spec l : forall m a o delta, mem_ok m -> holds m a (var_words o l) -> 0 <= o -> 0 <= o + delta -> o + zlen (var_data l) < 32768 -> o + delta + zlen (var_data l) < 32768 ->
  let m' := shift_offsets (length l) m a delta in
  mem_ok m' /\ same_outside a (a + 2 * zlen l) m m' /\ holds m' a (var_words (o + delta) l).
Proof.
  induction l as [|x l IH]; intros m a o delta Hm H L1 L2 L3 L4 m'; subst m'; cbn [length shift_offsets]; [split; [exact Hm|split; [apply same_outside_refl|apply holds_nil]]|].
  cbn [var_words] in *. rewrite var_data_cons, zlen_app in *. pose proof (zlen_nonneg (vbytes x)). pose proof (zlen_nonneg (var_data l)). rewrite holds_app, zlen_le16 in H. destruct H as [Hx Hl].
  assert (Ew : load16 m a = var_word (o + zlen (vbytes x)) x) by (rewrite (holds_le16 _ _ _ Hx); apply u16_small, var_word_range; lia).
  rewrite Ew, shift_word by lia. set (m1 := store16 _ _ _).
  destruct (IH m1 (a + 2) (o + zlen (vbytes x)) delta ltac:(now apply store16_ok)) as (I1 & I2 & I3); try lia; [apply holds_store16_frame; [exact Hl|lia]|].
  rewrite zlen_cons. split; [exact I1|]. split.
  - intros y Hy. pose proof (zlen_nonneg l). rewrite I2 by lia. apply store16_frame. lia.
  - replace (o + delta + zlen (vbytes x)) with (o + zlen (vbytes x) + delta) by lia. rewrite holds_app, zlen_le16. split; [|exact I3].
    eapply holds_same_outside; [apply holds_store16|exact I2|]. rewrite zlen_le16. lia.
Qed.

(** ** The variable part of a record *)

Definition var_at (m : mem) (a D : Z) (l : list (option (list Z))) : Prop := holds m a (var_words 0 l) /\ holds m D (var_data l).

Lemma var_at_snoc m m' a D l x : var_at m a D l -> mem_eq_on a (a + 2 * zlen l) m m' -> mem_eq_on D (D + zlen (var_data l)) m m' ->
  holds m' (a + 2 * zlen l) (le16 (var_word (zlen (var_data l) + zlen (vbytes x)) x)) -> holds m' (D + zlen (var_data l)) (vbytes x) -> var_at m' a D (l ++ [x]).
Proof.
  intros [W V] E1 E2 Hw Hv. unfold var_at. rewrite var_words_app, var_data_app, !holds_app, zlen_var_words. cbn [var_words]. rewrite var_data_cons. cbn [var_data concat map]. rewrite !app_nil_r.
  split; split; [eapply holds_ext; [exact W|now rewrite zlen_var_words]|exact Hw|eapply holds_ext; eassumption|exact Hv].
Qed.

Section Var.
Variable ptdb : TDB.
Hypothesis S : schema_ok ptdb.

(** Only the variable columns and what follows them changed. *)
Lemma with_var_holds m m' pb r lv lt : record_ok ptdb r -> holds_record ptdb m pb r -> mem_ok m' ->
  (forall a, pb <= a < pb + fixed_end ptdb (nfixed r) -> a <> pb + 1 -> m' a = m a) -> m' (pb + 1) = fidVarNone + zlen lv ->
  var_at m' (pb + fixed_end ptdb (nfixed r)) (pb + fixed_end ptdb (nfixed r) + 2 * zlen lv) lv ->
  holds m' (pb + fixed_end ptdb (nfixed r) + 2 * zlen lv + zlen (var_data lv)) lt -> holds_record ptdb m' pb (Rcd (r_fixed r) lv lt).
Proof.
  intros O R Hm Fr H1 [H2 H3] H4. pose proof (nfixed_range ptdb S r O) as Nf. pose proof (fixed_end_range ptdb S r O) as E. assert (Eb : fixed_end ptdb (nfixed r) = off ptdb (nfixed r) + (nfixed r + 7) / 8) by reflexivity.
  constructor; cbn [r_var r_tag]; unfold nfixed, nvar; cbn [r_fixed r_var]; fold (nfixed r); try assumption.
  - rewrite Fr by lia. apply R.
  - rewrite <- (hr_end _ _ _ _ R). symmetry. apply load16_ext. intros a Ha. symmetry. apply Fr; lia.
  - intros k Hk. fold (nfixed r) in Hk. pose proof (column_range ptdb S k (nfixed r) ltac:(lia) ltac:(lia)) as (K1 & K2 & K3).
    apply (column_at_frame ptdb m _ pb (pb + off ptdb (nfixed r)) _ k _ (nfixed r) ltac:(lia) ltac:(lia) (hr_columns _ _ _ _ R k Hk)).
    + intros a Ha. symmetry. apply Fr; lia.
    + rewrite Fr by zlia. reflexivity.
Qed.

Lemma var_at_record m pb r : holds_record ptdb m pb r -> var_at m (pb + fixed_end ptdb (nfixed r)) (pb + fixed_end ptdb (nfixed r) + 2 * nvar r) (r_var r).
Proof. intros R. split; apply R. Qed.

Section Burst.
Variables (rd : RECORD) (cbMost : Z).
Hypothesis D : defaults_ok ptdb cbMost rd.

(** The default values of [n] columns from the [s]-th on. *)
Definition new_var (s n : nat) : list (option (list Z)) := map (fun i => default_var ptdb rd (fidVarLeast + Z.of_nat i)) (seq s n).

Lemma zlen_new_var s n : zlen (new_var s n) = Z.of_nat n.
Proof. unfold zlen, new_var. now rewrite length_map, length_seq. Qed.

Lemma new_var_app s n1 n2 : new_var s (n1 + n2) = new_var s n1 ++ new_var (s + n1) n2.
Proof. unfold new_var. now rewrite seq_app, map_app. Qed.

Lemma new_var_nulls s n : (forall i, (s <= i < s + n)%nat -> FHasDefault (PfieldVar ptdb (fidVarLeast + Z.of_nat i)) = false) -> new_var s n = repeat None n.
Proof.
  revert s. induction n as [|n IH]; intros s H; [reflexivity|]. cbn [new_var seq map repeat]. unfold new_var in IH. rewrite IH by (intros i Hi; apply H; lia). unfold default_var. rewrite H by lia. reflexivity.
Qed.

Lemma nth_new_var s n i : (i < n)%nat -> nth i (new_var s n) None = default_var ptdb rd (fidVarLeast + Z.of_nat (s + i)).
Proof.
  intros H. unfold new_var. rewrite (nth_indep _ None ((fun i => default_var ptdb rd (fidVarLeast + Z.of_nat i)) 0%nat)) by (rewrite length_map, length_seq; lia).
  now rewrite (map_nth (fun i => default_var ptdb rd (fidVarLeast + Z.of_nat i))), seq_nth.
Qed.

Lemma zlen_new_data n : forall s, zlen (var_data (new_var s n)) <= zlen (var_data (skipn s (r_var rd))).
Proof.
  induction n as [|n IH]; intros s; [apply zlen_nonneg|]. change (new_var s (Datatypes.S n)) with (default_var ptdb rd (fidVarLeast + Z.of_nat s) :: new_var (Datatypes.S s) n). rewrite var_data_cons, zlen_app. specialize (IH (Datatypes.S s)).
  assert (E : zlen (vbytes (default_var ptdb rd (fidVarLeast + Z.of_nat s))) <= zlen (vbytes (nth s (r_var rd) None))).
  { unfold default_var, znth, fidVarLeast. replace (Z.to_nat (128 + Z.of_nat s - 128)) with s by lia. destruct (FHasDefault _); [lia|apply zlen_nonneg]. }
  destruct (Nat.lt_ge_cases s (length (r_var rd))) as [L|L].
  - rewrite (skipn_nth _ None s L), var_data_cons, zlen_app. lia.
  - rewrite skipn_all2 in IH |- * by lia. rewrite nth_overflow in E by lia. cbn [vbytes] in E. change (zlen (@nil Z)) with 0 in *. change (zlen (var_data [])) with 0 in *. lia.
Qed.

Lemma new_data_range s n : 0 <= zlen (var_data (new_var s n)) <= zlen (var_data (r_var rd)).
Proof.
  split; [apply zlen_nonneg|]. etransitivity; [apply zlen_new_data|]. rewrite <- (firstn_skipn s (r_var rd)) at 2. rewrite var_data_app, zlen_app. pose proof (zlen_nonneg (var_data (firstn s (r_var rd)))). lia.
Qed.

(** ** The default record *)

Section DefaultRecord.
Variables (md : mem) (d : DATA).
Hypothesis Hd : PdataDefaultRecord ptdb = Some (md, d).

Lemma default_holds : holds_record ptdb md (pv d) rd /\ record_ok ptdb rd.
Proof. pose proof (do_rec _ _ _ D) as R. unfold default_rec in R. rewrite Hd in R. split; apply R. Qed.

(** The offsets around the default value of a variable column, and the value. *)
Lemma default_offsets s : fidVarLeast + Z.of_nat s <= FidVarLast ptdb -> FHasDefault (PfieldVar ptdb (fidVarLeast + Z.of_nat s)) = true ->
  exists v ib, default_var ptdb rd (fidVarLeast + Z.of_nat s) = Some v /\ v <> [] /\ 0 <= ib /\ ib + zlen v < 32768 /\
    IbVarOffset (load16 md (PibVarOffsets md (pv d) + 2 * Z.of_nat s)) = ib + zlen v /\
    (if FVarLeast (fidVarLeast + Z.of_nat s) then 0 else IbVarOffset (load16 md (PibVarOffsets md (pv d) + 2 * (Z.of_nat s - 1)))) = ib /\
    holds md (PbVarData md (pv d) + ib) v.
Proof.
  intros Hf Hh. destruct default_holds as [R O]. destruct (do_var _ _ _ D (fidVarLeast + Z.of_nat s)) as [L N]; [unfold fidVarLeast in *; lia|exact Hh|]. unfold default_var. rewrite Hh.
  destruct (var_split rd (fidVarLeast + Z.of_nat s)) as (l1 & l2 & E & Ll & Z0); [unfold fidVarLeast in *; lia|]. pose proof (hr_words _ _ _ _ R) as W. pose proof (data_range ptdb S rd O) as Dr. pose proof (hr_data _ _ _ _ R) as V.
  set (x := znth (r_var rd) (fidVarLeast + Z.of_nat s - 128)) in *. destruct x as [v|]; [|now destruct N]. cbn [vbytes] in *. pose proof (zlen_nonneg (var_data l1)). pose proof (zlen_nonneg v). pose proof (zlen_nonneg (var_data l2)). rewrite E in W, V.
  assert (Es : zlen l1 = Z.of_nat s) by (unfold fidVarLeast in Ll; lia). exists v, (zlen (var_data l1)). rewrite (at_PibVarOffsets _ _ _ _ R), (at_PbVarData _ S _ _ _ O R). rewrite <- Es.
  split; [reflexivity|]. split; [exact N|]. split; [lia|]. split; [lia|]. split; [|split].
  - rewrite (word_at md _ 0 l1 (Some v) l2 W) by (cbn [vbytes]; lia). rewrite IbVarOffset_word; cbn [vbytes]; lia.
  - unfold FVarLeast. destruct (Z.eqb_spec (fidVarLeast + zlen l1) fidVarLeast) as [E1|E1].
    + destruct l1 as [|y l1]; [reflexivity|]. rewrite zlen_cons in E1. pose proof (zlen_nonneg l1). lia.
    + apply (word_before md _ l1 (Some v :: l2) W); [lia|]. pose proof (zlen_nonneg l1). lia.
  - rewrite var_data_app, var_data_cons, !holds_app in V. apply V.
Qed.

Lemma burst_size_loop_spec n : forall s cb0 last0, fidVarLeast + Z.of_nat (s + n) <= FidVarLast ptdb + 1 -> 0 <= cb0 -> cb0 + zlen (var_data (new_var s n)) < 4294967296 ->
  let r := burst_size_loop n ptdb md (PibVarOffsets md (pv d)) (fidVarLeast + Z.of_nat s) cb0 last0 in
  fst r = cb0 + zlen (var_data (new_var s n)) /\
  ((fst r = cb0 /\ snd r = last0 /\ new_var s n = repeat None n) \/
   (cb0 < fst r /\ exists k, (k < n)%nat /\ snd r = fidVarLeast + Z.of_nat (s + k) /\ new_var s n = new_var s (k + 1) ++ repeat None (n - k - 1))).
Proof.
  induction n as [|n IH]; intros s cb0 last0 Hf L1 L2 r; subst r; cbn [burst_size_loop].
  - cbn [fst snd]. change (zlen (var_data (new_var s 0))) with 0. split; [lia|]. left. repeat split; reflexivity.
  - change (new_var s (Datatypes.S n)) with (default_var ptdb rd (fidVarLeast + Z.of_nat s) :: new_var (Datatypes.S s) n) in *. rewrite var_data_cons, zlen_app in *.
    replace (fidVarLeast + Z.of_nat s + 1) with (fidVarLeast + Z.of_nat (Datatypes.S s)) by lia. pose proof (new_data_range (Datatypes.S s) n) as Nr.
    destruct (FHasDefault (PfieldVar ptdb (fidVarLeast + Z.of_nat s))) eqn:Hh.
    + destruct (default_offsets s) as (v & ib & Ev & Nv & I1 & I2 & I3 & I4 & _); [unfold fidVarLeast in *; lia|exact Hh|]. rewrite Ev in *. cbn [vbytes] in *.
      unfold IndexOfVar. replace (fidVarLeast + Z.of_nat s - fidVarLeast) with (Z.of_nat s) by lia. rewrite I3, I4. replace (ib + zlen v - ib) with (zlen v) by lia.
      assert (0 < zlen v) by (destruct v; [now destruct Nv|rewrite zlen_cons; pose proof (zlen_nonneg v); lia]). rewrite u32_small by lia.
      destruct (IH (Datatypes.S s) (cb0 + zlen v) (fidVarLeast + Z.of_nat s)) as [J1 J2]; try lia. split; [lia|]. right. split; [lia|]. destruct J2 as [(J3 & J4 & J5)|(J3 & k & K1 & K2 & K3)].
      * exists 0%nat. split; [lia|]. split; [rewrite J4; f_equal; lia|]. rewrite J5. change (new_var s (0 + 1)) with [default_var ptdb rd (fidVarLeast + Z.of_nat s)]. rewrite Ev. cbn [app]. f_equal. f_equal. lia.
      * exists (Datatypes.S k). split; [lia|]. split; [rewrite K2; lia|]. rewrite K3. change (new_var s (Datatypes.S k + 1)) with (default_var ptdb rd (fidVarLeast + Z.of_nat s) :: new_var (Datatypes.S s) (k + 1)). rewrite Ev. reflexivity.
    + assert (En : default_var ptdb rd (fidVarLeast + Z.of_nat s) = None) by (unfold default_var; now rewrite Hh). rewrite En in *. cbn [vbytes] in *. change (zlen (@nil Z)) with 0 in *.
      destruct (IH (Datatypes.S s) cb0 last0) as [J1 J2]; try lia. split; [lia|]. destruct J2 as [(J3 & J4 & J5)|(J3 & k & K1 & K2 & K3)]; [left|right].
      * split; [exact J3|]. split; [exact J4|]. rewrite J5. reflexivity.
      * split; [exact J3|]. exists (Datatypes.S k). split; [lia|]. split; [rewrite K2; lia|]. rewrite K3. change (new_var s (Datatypes.S k + 1)) with (default_var ptdb rd (fidVarLeast + Z.of_nat s) :: new_var (Datatypes.S s) (k + 1)). rewrite En. reflexivity.
Qed.

(** One default value is appended to the columns [l]. *)
Lemma burst_var_one_spec m a Da l x : mem_ok m -> var_at m a Da l -> fidVarLeast + zlen l <= FidVarLast ptdb -> a + 2 * zlen l + 2 <= Da ->
  x = default_var ptdb rd (fidVarLeast + zlen l) -> zlen (var_data l) + zlen (vbytes x) < 32768 -> (l = [] -> holds m a (le16 (var_word 0 None))) ->
  let m' := burst_var_one ptdb m md Da (PbVarData md (pv d)) (fidVarLeast + zlen l) (a + 2 * zlen l) (PibVarOffsets md (pv d) + 2 * zlen l) in
  mem_ok m' /\ var_at m' a Da (l ++ [x]) /\
  (forall y, (y < a + 2 * zlen l \/ a + 2 * zlen l + 2 <= y) -> (y < Da + zlen (var_data l) \/ Da + zlen (var_data l) + zlen (vbytes x) <= y) -> m' y = m y).
Proof.
  intros Hm V Hf La Ex Hl H0. set (o := zlen (var_data l)). pose proof (zlen_nonneg (var_data l)) as Zo. fold o in Zo, Hl. pose proof (zlen_nonneg (vbytes x)) as Zx. pose proof (zlen_nonneg l) as Zl.
  assert (Prev : forall m1, mem_eq_on a (a + 2 * zlen l) m m1 -> l <> [] -> IbVarOffset (load16 m1 (a + 2 * zlen l - 2)) = o).
  { intros m1 E N. destruct l as [|y l']; [contradiction|]. pose proof (zlen_nonneg l'). rewrite zlen_cons in *. replace (a + 2 * (1 + zlen l') - 2) with (a + 2 * (zlen (y :: l') - 1)) by (rewrite zlen_cons; lia).
    apply (word_before m1 a (y :: l') []); [rewrite app_nil_r; eapply holds_ext; [apply V|rewrite zlen_var_words, zlen_cons; exact E]|fold o; lia|rewrite zlen_cons; lia]. }
  assert (Least : FVarLeast (fidVarLeast + zlen l) = match l with [] => true | _ => false end).
  { unfold FVarLeast. destruct l as [|y l']; [reflexivity|]. apply Z.eqb_neq. rewrite zlen_cons in *. pose proof (zlen_nonneg l'). lia. }
  (* a default value: the offset, then the data *)
  assert (Some_ : forall v, x = Some v -> let m' := store_bytes (store16 m (a + 2 * zlen l) (o + zlen v)) (Da + o) v in bytes_ok v -> mem_ok m' /\ var_at m' a Da (l ++ [x]) /\
    (forall y, (y < a + 2 * zlen l \/ a + 2 * zlen l + 2 <= y) -> (y < Da + o \/ Da + o + zlen (vbytes x) <= y) -> m' y = m y)).
  { intros v -> m' Bv. cbn [vbytes] in *. subst m'. split; [apply store_bytes_ok, store16_ok, Hm|]. split.
    - apply (var_at_snoc m); fold o; [exact V|intros y Hy; rewrite store_bytes_frame, store16_frame by lia; reflexivity|intros y Hy; rewrite store_bytes_frame, store16_frame by lia; reflexivity| |now apply holds_store_bytes].
      eapply holds_store_bytes_frame; [|rewrite zlen_le16; lia]. cbn [vbytes]. unfold var_word. cbn [is_null]. rewrite Z.add_0_r. apply holds_store16.
    - intros y H1 H2. rewrite store_bytes_frame, store16_frame by (unfold zlen in *; lia). reflexivity. }
  cbv zeta. unfold burst_var_one. rewrite Least. destruct (FHasDefault (PfieldVar ptdb (fidVarLeast + zlen l))) eqn:Hh.
  - destruct (default_offsets (length l)) as (v & ib & Ev & Nv & I1 & I2 & I3 & I4 & I5); [exact Hf|exact Hh|]. fold (zlen l) in *. rewrite Ev in Ex. subst x. cbn [vbytes] in *.
    assert (Bv : bytes_ok v) by (eapply holds_bytes_ok; [apply (hr_mem _ _ _ _ (proj1 default_holds))|exact I5]). specialize (Some_ v eq_refl Bv). rewrite I3. rewrite Least in I4.
    destruct l as [|y l'] eqn:El.
    + change (zlen []) with 0 in *. subst ib. rewrite !Z.add_0_r in *. rewrite Z.add_0_l, (holds_load _ _ _ I5). cbn [Z.mul] in *. rewrite ?Z.add_0_r in *. unfold o, var_data in *. cbn [map concat] in *. change (zlen []) with 0 in *. rewrite Z.add_0_l, ?Z.add_0_r in *. exact Some_.
    + rewrite <- El in *. assert (Nl : l <> []) by (rewrite El; discriminate). replace (PibVarOffsets md (pv d) + 2 * zlen l - 2) with (PibVarOffsets md (pv d) + 2 * (zlen l - 1)) by lia. rewrite I4.
      replace (ib + zlen v - ib) with (zlen v) by lia. rewrite (u16_small (zlen v)) by lia. rewrite (Prev m) by easy. rewrite u16_small by lia.
      rewrite Prev; [|intros y' Hy; symmetry; apply store16_frame; lia|exact Nl]. rewrite (holds_load _ _ _ I5). exact Some_.
  - assert (x = None) as -> by (rewrite Ex; unfold default_var; now rewrite Hh). cbn [vbytes] in *. change (zlen (@nil Z)) with 0 in *. destruct l as [|y l'] eqn:El; cbn [negb].
    + split; [exact Hm|]. split; [|easy]. apply (var_at_snoc m); [exact V|easy|easy| |apply holds_nil]. change (zlen (@nil (option (list Z)))) with 0. rewrite Z.add_0_r. exact (H0 eq_refl).
    + rewrite <- El in *. assert (Nl : l <> []) by (rewrite El; discriminate). rewrite (Prev m) by easy. rewrite load16_store16_eq, u16_small by lia.
      assert (Ew : SetVarNullBit o = var_word (o + 0) None). { rewrite Z.add_0_r, <- (SetVarNullBit_word o (Some [])) by lia. unfold var_word. cbn [is_null]. now rewrite Z.add_0_r. } rewrite Ew.
      split; [now apply store16_ok, store16_ok|]. split; [|intros y' H1 H2; rewrite !store16_frame by lia; reflexivity].
      apply (var_at_snoc m); fold o; [exact V|intros y' Hy; rewrite !store16_frame by lia; reflexivity|intros y' Hy; rewrite !store16_frame by lia; reflexivity| |apply holds_nil].
      replace (zlen (var_data l) + zlen (vbytes None)) with (o + 0) by (unfold o; rewrite El; reflexivity). apply holds_store16.
Qed.

Lemma burst_var_loop_spec n : forall m a Da l, mem_ok m -> var_at m a Da l -> fidVarLeast + zlen l + Z.of_nat n <= FidVarLast ptdb + 1 -> a + 2 * (zlen l + Z.of_nat n) <= Da ->
  zlen (var_data l) + zlen (var_data (new_var (length l) n)) < 32768 -> (l = [] -> holds m a (le16 (var_word 0 None))) ->
  let m' := burst_var_loop n ptdb m md Da (PbVarData md (pv d)) (fidVarLeast + zlen l) (a + 2 * zlen l) (PibVarOffsets md (pv d) + 2 * zlen l) in
  mem_ok m' /\ var_at m' a Da (l ++ new_var (length l) n) /\
  (forall x, (x < a + 2 * zlen l \/ a + 2 * (zlen l + Z.of_nat n) <= x) -> (x < Da + zlen (var_data l) \/ Da + zlen (var_data l) + zlen (var_data (new_var (length l) n)) <= x) -> m' x = m x).
Proof.
  induction n as [|n IH]; intros m a Da l Hm V Hf La Hl H0; cbn [burst_var_loop]; cbv zeta; [split; [exact Hm|split; [rewrite app_nil_r; exact V|easy]]|].
  change (new_var (length l) (Datatypes.S n)) with (default_var ptdb rd (fidVarLeast + zlen l) :: new_var (Datatypes.S (length l)) n) in *. rewrite var_data_cons, zlen_app in *. set (x := default_var ptdb rd (fidVarLeast + zlen l)) in *.
  pose proof (new_data_range (Datatypes.S (length l)) n) as Nr. pose proof (zlen_nonneg (vbytes x)). pose proof (zlen_nonneg l).
  destruct (burst_var_one_spec m a Da l x Hm V ltac:(lia) ltac:(lia) eq_refl ltac:(lia) H0) as (J1 & J2 & J3). set (m1 := burst_var_one _ _ _ _ _ _ _ _) in *.
  assert (Ll : length (l ++ [x]) = Datatypes.S (length l)) by (rewrite length_app; cbn; lia). assert (Zl : zlen (l ++ [x]) = zlen l + 1) by (rewrite zlen_app; reflexivity).
  assert (Vd : zlen (var_data (l ++ [x])) = zlen (var_data l) + zlen (vbytes x)) by (rewrite var_data_app, zlen_app; change (var_data [x]) with (vbytes x ++ []); now rewrite app_nil_r).
  specialize (IH m1 a Da (l ++ [x]) J1 J2). rewrite Ll, Zl, Vd in IH. destruct IH as (K1 & K2 & K3); try lia; [intros E; destruct l; discriminate|].
  replace (fidVarLeast + zlen l + 1) with (fidVarLeast + (zlen l + 1)) by lia. replace (a + 2 * zlen l + 2) with (a + 2 * (zlen l + 1)) by lia. replace (PibVarOffsets md (pv d) + 2 * zlen l + 2) with (PibVarOffsets md (pv d) + 2 * (zlen l + 1)) by lia.
  split; [exact K1|]. split; [rewrite <- app_assoc in K2; exact K2|]. intros y Y1 Y2. rewrite K3 by lia. apply J3; lia.
Qed.
End DefaultRecord.

(** ** Extending the record *)

(** Some accessors need only the header, one needs the offsets too. *)
Lemma header_accessors m m' pb r : record_ok ptdb r -> holds_record ptdb m pb r -> mem_eq_on pb (pb + 4) m m' ->
  IbEndOfFixedData m' pb = fixed_end ptdb (nfixed r) /\ PbVarData m' pb = pb + fixed_end ptdb (nfixed r) + 2 * nvar r /\ FidVarLastInRec m' pb = fidVarNone + nvar r.
Proof.
  intros O R E. assert (E1 : FidVarLastInRec m' pb = FidVarLastInRec m pb) by (symmetry; apply E; lia). assert (E2 : IbEndOfFixedData m' pb = IbEndOfFixedData m pb) by (symmetry; apply load16_ext; intros x Hx; apply E; lia).
  rewrite <- (at_PbVarData _ S _ _ _ O R), <- (at_FidVarLastInRec _ _ _ _ R), <- (at_IbEndOfFixedData _ _ _ _ R). unfold PbVarData, CVarColumns. now rewrite E1, E2.
Qed.

Lemma frame_accessors m m' pb r : record_ok ptdb r -> holds_record ptdb m pb r -> mem_eq_on pb (pb + fixed_end ptdb (nfixed r) + 2 * nvar r) m m' -> IbEndOfVarData m' pb = zlen (var_data (r_var r)).
Proof.
  intros O R E. pose proof (fixed_end_range ptdb S r O) as Fe. pose proof (nvar_range ptdb r O) as Nr. destruct (header_accessors m m' pb r O R) as (E1 & _ & E2); [intros x Hx; apply E; lia|].
  rewrite <- (at_IbEndOfVarData _ S _ _ _ O R). unfold IbEndOfVarData. rewrite E1, E2, (at_FidVarLastInRec _ _ _ _ R), (at_IbEndOfFixedData _ _ _ _ R). destruct (Z.eqb_spec (fidVarNone + nvar r) 127) as [|N]; [reflexivity|].
  f_equal. symmetry. apply load16_ext. intros x Hx. apply E. unfold fidVarNone in *. lia.
Qed.

(** The number of columns between the last of the record and [fid]. *)
Definition between (r : RECORD) (fid : Z) : nat := Z.to_nat (fid - (fidVarNone + nvar r) - 1).

Definition burst (r : RECORD) (fid : Z) : list (option (list Z)) := new_var (length (r_var r)) (between r fid).

Definition extended_var (r : RECORD) (fid : Z) : RECORD := Rcd (r_fixed r) (r_var r ++ burst r fid ++ [None]) (r_tag r).

Lemma default_var_absent fid : fidVarLeast <= fid <= FidVarLast ptdb -> fidVarNone + nvar rd < fid -> FHasDefault (PfieldVar ptdb fid) = false.
Proof. intros H L. destruct (FHasDefault (PfieldVar ptdb fid)) eqn:E; [|reflexivity]. destruct (do_var _ _ _ D fid H E). lia. Qed.

Section Extend.
Variables (f : FUCB) (r : RECORD) (fid : Z).
Hypothesis F : cursor_fits f.
Hypothesis C : cursor_at ptdb f r.
Hypothesis Most : cbMost = CbRecordMostCHECK (cbPage f).
Hypothesis Hf : fidVarNone + nvar r < fid <= FidVarLast ptdb.

Let k' : nat := between r fid.

Lemma nvar_extended : nvar (extended_var r fid) = fid - fidVarNone.
Proof. unfold extended_var, burst, nvar in *. cbn [r_var]. rewrite !zlen_app, zlen_new_var. unfold between, nvar. change (zlen [None]) with 1. lia. Qed.

Lemma data_extended : zlen (var_data (r_var (extended_var r fid))) = zlen (var_data (r_var r)) + zlen (var_data (burst r fid)).
Proof. unfold extended_var. cbn [r_var]. rewrite !var_data_app, !zlen_app. change (zlen (var_data [None])) with 0. lia. Qed.

Lemma rec_size_extended_var : rec_size ptdb (extended_var r fid) = rec_size ptdb r + 2 * (fid - (fidVarNone + nvar r)) + zlen (var_data (burst r fid)).
Proof. unfold rec_size. rewrite nvar_extended, data_extended. unfold extended_var, nfixed. cbn [r_fixed r_tag]. lia. Qed.

Lemma CbBurstVarDefaults_spec : let b := CbBurstVarDefaults ptdb f (fidVarNone + nvar r) fid in
  fst b = zlen (var_data (burst r fid)) /\
  ((fst b = 0 /\ burst r fid = repeat None k') \/
   (0 < fst b /\ exists md d k, PdataDefaultRecord ptdb = Some (md, d) /\ (k < k')%nat /\ snd b = fidVarLeast + Z.of_nat (length (r_var r) + k) /\
      burst r fid = new_var (length (r_var r)) (k + 1) ++ repeat None (k' - k - 1))).
Proof.
  pose proof (sc_var _ S) as [_ Sv]. unfold fidVarMost in Sv. pose proof (nvar_range ptdb r (ca_ok _ _ _ C)) as Nr. assert (Nl : nvar r = Z.of_nat (length (r_var r))) by reflexivity.
  assert (Zero : nvar rd <= nvar r -> burst r fid = repeat None k').
  { intros L. apply new_var_nulls. intros i Hi. apply default_var_absent; unfold k', between, fidVarLeast, fidVarNone in *; lia. }
  unfold CbBurstVarDefaults. pose proof (do_rec _ _ _ D) as Dr. unfold default_rec in Dr. destruct (PdataDefaultRecord ptdb) as [[md d]|] eqn:Ed; cbn [fst snd].
  2:{ rewrite Zero, var_data_nulls by (rewrite Dr; apply Nr). split; [reflexivity|]. left. split; reflexivity. }
  destruct Dr as (Rd & Od & Cd & Ld). rewrite Cd in *. rewrite bad_size_record by (assumption || lia). rewrite (at_FidVarLastInRec _ _ _ _ Rd). destruct (Z.ltb_spec (fidVarNone + nvar r) (fidVarNone + nvar rd)) as [L|L]; cbn [fst snd].
  2:{ rewrite Zero, var_data_nulls by lia. split; [reflexivity|]. left. split; reflexivity. }
  replace (fidVarNone + nvar r + 1) with (fidVarLeast + Z.of_nat (length (r_var r))) by (unfold fidVarNone, fidVarLeast; lia).
  replace (Z.to_nat (fid - (fidVarLeast + Z.of_nat (length (r_var r))))) with k' by (unfold k', between, fidVarNone, fidVarLeast; lia).
  pose proof (new_data_range (length (r_var r)) k') as Nd. pose proof (data_range ptdb S rd Od) as Dd.
  destruct (burst_size_loop_spec md d Ed k' (length (r_var r)) 0 (fidVarNone + nvar rd)) as [J1 J2]; [unfold k', between, fidVarNone, fidVarLeast in *; lia|lia|lia|].
  split; [exact J1|]. destruct J2 as [(J3 & _ & J5)|(J3 & k & K1 & K2 & K3)]; [left; split; assumption|]. right. split; [exact J3|]. exists md, d, k. repeat split; assumption.
Qed.

(** Room for the new columns, which are null. *)
Definition opened (m : mem) (pb : Z) : mem :=
  let P := pb + fixed_end ptdb (nfixed r) + 2 * nvar r in
  let k := fid - (fidVarNone + nvar r) in
  let m := memmove m (P + 2 * k) P (pb + rec_size ptdb r - P) in
  let m := memset m P chRECFill (2 * k) in
  let m := fill_offsets (Z.to_nat k) m P (var_word (zlen (var_data (r_var r))) None) in
  SetFidVarLastInRec m pb fid.

Definition nulled : RECORD := Rcd (r_fixed r) (r_var r ++ repeat None (Datatypes.S k')) (r_tag r).

Lemma nvar_nulled : nvar nulled = nvar r + (fid - (fidVarNone + nvar r)).
Proof. unfold nulled, nvar in *. cbn [r_var]. rewrite zlen_app, zlen_repeat. unfold k', between, nvar. lia. Qed.

Lemma data_nulled : var_data (r_var nulled) = var_data (r_var r).
Proof. unfold nulled. cbn [r_var]. now rewrite var_data_app, var_data_nulls, app_nil_r. Qed.

Lemma rec_size_nulled : rec_size ptdb nulled = rec_size ptdb r + 2 * (fid - (fidVarNone + nvar r)).
Proof. unfold rec_size. rewrite nvar_nulled, data_nulled. unfold nfixed. cbn [nulled r_fixed r_tag]. lia. Qed.

Lemma opened_spec m pb : holds_record ptdb m pb r -> holds_record ptdb (opened m pb) pb nulled /\ same_outside pb (pb + rec_size ptdb nulled) m (opened m pb).
Proof.
  intros R. pose proof (ca_ok _ _ _ C) as O. pose proof (sc_var _ S) as [_ Sv]. unfold fidVarMost in Sv. pose proof (nvar_range ptdb r O) as Nr. pose proof (fixed_end_range ptdb S r O) as E. pose proof (parts_range ptdb r O) as P.
  rewrite rec_size_nulled. set (k := fid - (fidVarNone + nvar r)). assert (Kp : 0 < k) by (unfold k; lia). assert (Rs : rec_size ptdb r = fixed_end ptdb (nfixed r) + 2 * nvar r + zlen (var_data (r_var r)) + zlen (r_tag r)) by reflexivity.
  unfold opened. fold k. set (Q := pb + fixed_end ptdb (nfixed r) + 2 * nvar r). set (m1 := memmove _ _ _ _). set (m2 := memset _ _ _ _).
  assert (H2 : mem_ok m2) by (apply memset_ok, memmove_ok, R). destruct (fill_offsets_spec (Z.to_nat k) m2 Q (var_word (zlen (var_data (r_var r))) None) H2) as (I1 & I2 & I3). set (m3 := fill_offsets _ _ _ _) in *.
  rewrite Z2Nat.id in I2 by lia. unfold SetFidVarLastInRec. rewrite u8_small by (unfold fidVarNone in *; lia).
  assert (Fr : forall a, a < Q -> m3 a = m a) by (intros a Ha; rewrite I2 by lia; unfold m2; rewrite memset_frame by lia; unfold m1; apply memmove_frame; lia).
  assert (Up : forall a, Q + 2 * k <= a < pb + rec_size ptdb r + 2 * k -> m3 a = m (a - 2 * k)).
  { intros a Ha. rewrite I2 by lia. unfold m2. rewrite memset_frame by lia. unfold m1. rewrite memmove_in by lia. f_equal. lia. }
  assert (Up' : forall l a, holds m a l -> Q <= a -> a + zlen l <= pb + rec_size ptdb r -> holds m3 (a + 2 * k) l).
  { intros l a Hl L1 L2 i Hi. rewrite Up by (unfold zlen in L2; lia). rewrite <- Hl by exact Hi. f_equal. lia. }
  assert (Nn : zlen (r_var r ++ repeat None (Datatypes.S k')) = nvar r + k) by (change (nvar nulled = nvar r + k); apply nvar_nulled).
  split.
  - apply (with_var_holds m); try assumption; rewrite ?Nn.
    + now apply store8_ok.
    + intros a Ha Hb. rewrite store8_at, (proj2 (Z.eqb_neq a (pb + 1)) Hb). apply Fr. unfold Q. lia.
    + rewrite store8_at, Z.eqb_refl, Z.mod_small by (unfold fidVarNone in *; lia). unfold k. lia.
    + split.
      * rewrite var_words_app, holds_app, zlen_var_words. split; apply holds_store8_frame; rewrite ?zlen_var_words, ?Z.add_0_l; [|lia| |fold (nvar r); lia].
        -- apply (holds_ext m); [apply R|]. intros a Ha. rewrite zlen_var_words in Ha. symmetry. apply Fr. unfold Q, nvar. lia.
        -- rewrite var_words_nulls. replace (Datatypes.S k') with (Z.to_nat k) by (unfold k', between, k; lia). exact I3.
      * fold nulled. rewrite var_data_app, var_data_nulls, app_nil_r. apply holds_store8_frame; [|lia]. replace (pb + fixed_end ptdb (nfixed r) + 2 * (nvar r + k)) with (Q + 2 * k) by (unfold Q; lia). apply Up'; [apply R|lia|unfold Q; lia].
    + rewrite var_data_app, var_data_nulls, app_nil_r. apply holds_store8_frame; [|lia]. replace (pb + fixed_end ptdb (nfixed r) + 2 * (nvar r + k) + zlen (var_data (r_var r))) with (Q + zlen (var_data (r_var r)) + 2 * k) by (unfold Q; lia). apply Up'; [apply R|lia|unfold Q; lia].
  - intros a Ha. rewrite store8_at, (proj2 (Z.eqb_neq a (pb + 1))) by lia. rewrite I2 by lia. unfold m2. rewrite memset_frame by lia. unfold m1. apply memmove_frame. lia.
Qed.

(** The default values between the last column and [fid]. *)
Lemma burst_var_defaults_spec m pb md d k : holds_record ptdb m pb nulled -> PdataDefaultRecord ptdb = Some (md, d) -> (k < k')%nat ->
  burst r fid = new_var (length (r_var r)) (k + 1) ++ repeat None (k' - k - 1) -> rec_size ptdb (extended_var r fid) < 32768 ->
  let m' := burst_var_defaults ptdb m pb (rec_size ptdb nulled) (pb + fixed_end ptdb (nfixed r)) (var_word (zlen (var_data (r_var r))) None) (fidVarNone + nvar r)
              (fidVarLeast + Z.of_nat (length (r_var r) + k)) fid (zlen (var_data (burst r fid))) in
  holds_record ptdb m' pb (extended_var r fid) /\ same_outside pb (pb + rec_size ptdb (extended_var r fid)) m m'.
Proof.
  intros R Ed Hk Eb Hs. pose proof (sc_var _ S) as [_ Sv]. unfold fidVarMost in Sv. pose proof (ca_ok _ _ _ C) as O. pose proof (nvar_range ptdb r O) as Nr. pose proof (fixed_end_range ptdb S r O) as E. pose proof (parts_range ptdb r O) as P.
  pose proof rec_size_extended_var as Re. pose proof rec_size_nulled as Rn. assert (Rs : rec_size ptdb r = fixed_end ptdb (nfixed r) + 2 * nvar r + zlen (var_data (r_var r)) + zlen (r_tag r)) by reflexivity.
  set (cbB := zlen (var_data (burst r fid))) in *. assert (Zb : 0 <= cbB) by apply zlen_nonneg. set (kk := fid - (fidVarNone + nvar r)) in *. set (dl := zlen (var_data (r_var r))) in *.
  assert (On : record_ok ptdb nulled) by (constructor; [apply O|rewrite nvar_nulled; unfold kk, fidVarNone in *; lia|lia]).
  assert (Ek : Z.of_nat k' = kk - 1) by (unfold k', between, kk; lia). assert (El : Z.of_nat (length (r_var r)) = nvar r) by reflexivity.
  unfold burst_var_defaults. rewrite Ed, (at_PbVarData _ S _ _ _ On R), nvar_nulled. change (nfixed nulled) with (nfixed r). fold kk. set (a := pb + fixed_end ptdb (nfixed r)). set (Da := a + 2 * (nvar r + kk)).
  rewrite IbVarOffset_word by lia. rewrite Rn. replace (u32 (Da + dl - pb)) with (Da + dl - pb) by (symmetry; apply u32_small; unfold Da, a; lia).
  replace (u32 (rec_size ptdb r + 2 * kk - (Da + dl - pb))) with (zlen (r_tag r)) by (rewrite u32_small; unfold Da, a; lia).
  set (m1 := memmove m _ _ _). pose proof (var_at_record _ _ _ R) as [W V]. rewrite nvar_nulled in V. change (nfixed nulled) with (nfixed r) in W, V. fold kk a in W, V. fold Da in V. pose proof (hr_tag _ _ _ _ R) as T.
  rewrite nvar_nulled, data_nulled in T. change (nfixed nulled) with (nfixed r) in T. change (r_tag nulled) with (r_tag r) in T. fold kk a dl in T. fold Da in T. rewrite data_nulled in V.
  cbn [nulled r_var] in W. rewrite var_words_app, holds_app, zlen_var_words, Z.add_0_l in W. fold dl in W. destruct W as [W1 W2]. fold (nvar r) in W2.
  assert (Fr1 : forall x, x < Da + dl + cbB \/ Da + dl + cbB + zlen (r_tag r) <= x -> m1 x = m x) by (intros x Hx; apply memmove_frame; lia).
  assert (T1 : holds m1 (Da + dl + cbB) (r_tag r)) by (apply holds_memmove; [exact T|reflexivity]).
  (* the copied values *)
  set (nv := new_var (length (r_var r)) (k + 1)) in *. assert (Znv : zlen (var_data nv) = cbB) by (unfold cbB; rewrite Eb, var_data_app, var_data_nulls, app_nil_r; reflexivity).
  assert (W2' : holds m1 (a + 2 * nvar r) (var_words dl (repeat None (Datatypes.S k')))) by (apply (holds_ext m); [exact W2|]; rewrite zlen_var_words, zlen_repeat; intros x Hx; symmetry; apply Fr1; unfold Da; lia).
  destruct (burst_var_loop_spec md d Ed (k + 1) m1 a Da (r_var r)) as (J1 & [J2 J3] & J4).
  { apply memmove_ok, R. }
  { split; [apply (holds_ext m); [exact W1|]|apply (holds_ext m); [exact V|]]; intros x Hx; rewrite ?zlen_var_words in Hx; symmetry; apply Fr1; fold dl in Hx; fold (nvar r) in Hx; unfold Da in *; lia. }
  { fold (nvar r). unfold kk, fidVarNone, fidVarLeast in *. lia. }
  { fold (nvar r). unfold Da. lia. }
  { fold nv dl. lia. }
  { intros En. unfold nvar, dl in W2'. rewrite En in W2'. change (zlen (@nil (option (list Z)))) with 0 in W2'. change (zlen (var_data [])) with 0 in W2'. rewrite Z.add_0_r in W2'. rewrite var_words_nulls in W2'. cbn [repeat concat] in W2'. rewrite holds_app in W2'. apply W2'. }
  fold (nvar r) nv dl in J1, J2, J3, J4. unfold CountOfVar. replace (Z.to_nat (fidVarLeast + Z.of_nat (length (r_var r) + k) - (fidVarNone + nvar r))) with (k + 1)%nat by (unfold fidVarNone, fidVarLeast; lia).
  replace (fidVarNone + nvar r - fidVarLeast + 1) with (nvar r) by (unfold fidVarNone, fidVarLeast; lia). replace (fidVarNone + nvar r + 1) with (fidVarLeast + nvar r) by (unfold fidVarNone, fidVarLeast; lia).
  set (m2 := burst_var_loop _ _ _ _ _ _ _ _ _) in *. replace (nvar r + Z.max 0 (fidVarLeast + Z.of_nat (length (r_var r) + k) - (fidVarNone + nvar r))) with (nvar r + Z.of_nat (k + 1)) by (unfold fidVarNone, fidVarLeast; lia).
  (* the offsets behind *)
  replace (Z.to_nat (fid - Z.max (fidVarLeast + Z.of_nat (length (r_var r) + k)) (fidVarNone + nvar r))) with (length (repeat (@None (list Z)) (k' - k))) by (rewrite repeat_length; unfold kk, fidVarNone, fidVarLeast in *; lia).
  assert (W3 : holds m2 (a + 2 * (nvar r + Z.of_nat (k + 1))) (var_words dl (repeat None (k' - k)))).
  { replace (Datatypes.S k') with ((k + 1) + (k' - k))%nat in W2' by lia. rewrite repeat_app, var_words_app, holds_app, zlen_var_words, zlen_repeat, var_data_nulls in W2'. destruct W2' as [_ W2']. change (zlen []) with 0 in W2'. rewrite Z.add_0_r in W2'.
    apply (holds_ext m1); [replace (a + 2 * (nvar r + Z.of_nat (k + 1))) with (a + 2 * nvar r + 2 * Z.of_nat (k + 1)) by lia; exact W2'|]. rewrite zlen_var_words, zlen_repeat. intros x Hx. symmetry. apply J4; unfold Da; lia. }
  destruct (shift_offsets_spec (repeat None (k' - k)) m2 _ dl cbB J1 W3) as (L1 & L2 & L3); try (rewrite ?var_data_nulls; change (zlen (@nil Z)) with 0; lia). set (m3 := shift_offsets _ _ _ _) in *. rewrite zlen_repeat in L2.
  assert (Ev : r_var (extended_var r fid) = (r_var r ++ nv) ++ repeat None (k' - k)).
  { unfold extended_var. cbn [r_var]. rewrite Eb, <- !app_assoc. f_equal. f_equal. change [None] with (repeat (@None (list Z)) 1). rewrite <- repeat_app. f_equal. lia. }
  assert (Zv : zlen (r_var (extended_var r fid)) = nvar r + kk) by (change (nvar (extended_var r fid) = nvar r + kk); rewrite nvar_extended; unfold kk; lia).
  assert (Vv : zlen (var_data (r_var r ++ nv)) = dl + cbB) by (rewrite var_data_app, zlen_app; fold dl; lia).
  assert (Zn : zlen (r_var r ++ nv) = nvar r + Z.of_nat (k + 1)) by (rewrite zlen_app; unfold nv; rewrite zlen_new_var; reflexivity).
  split.
  - change (extended_var r fid) with (Rcd (r_fixed nulled) (r_var (extended_var r fid)) (r_tag nulled)). apply (with_var_holds m); try assumption; change (nfixed nulled) with (nfixed r); fold a; rewrite ?Zv; fold Da.
    + intros x Hx _. rewrite L2, J4 by (unfold Da; lia). apply Fr1. unfold Da. lia.
    + rewrite L2, J4, Fr1 by (unfold Da; lia). rewrite (hr_nvar _ _ _ _ R), nvar_nulled. reflexivity.
    + rewrite Ev. unfold var_at. rewrite var_words_app, (var_data_app (r_var r ++ nv)), !holds_app, zlen_var_words, Z.add_0_l, var_data_nulls, Vv, Zn. repeat split.
      * apply (holds_same_outside _ _ _ _ _ _ J2 L2). rewrite zlen_var_words, Zn. lia.
      * exact L3.
      * apply (holds_same_outside _ _ _ _ _ _ J3 L2). unfold Da. lia.
      * apply holds_nil.
    + rewrite Ev, var_data_app, var_data_nulls, app_nil_r, Vv. change (r_tag nulled) with (r_tag r). rewrite Z.add_assoc.
      apply (holds_ext m1); [exact T1|]. intros x Hx. rewrite L2, J4 by (unfold Da in *; lia). reflexivity.
  - intros x Hx. rewrite L2, J4, Fr1 by (unfold Da, a in *; lia). reflexivity.
Qed.

Lemma extended_nulled : burst r fid = repeat None k' -> extended_var r fid = nulled.
Proof. intros E. unfold extended_var, nulled. rewrite E. replace (Datatypes.S k') with (k' + 1)%nat by lia. now rewrite repeat_app. Qed.

Lemma extended_var_ok : rec_size ptdb (extended_var r fid) < 32768 -> record_ok ptdb (extended_var r fid).
Proof. pose proof (sc_var _ S) as [_ Sv]. unfold fidVarMost in Sv. constructor; [apply (ca_ok _ _ _ C)|rewrite nvar_extended; unfold fidVarNone; lia|assumption]. Qed.

Lemma extend_var_spec cbCopy : 0 <= cbCopy ->
  extend_var ptdb f fid cbCopy = (if f_cbRecordMost f <? rec_size ptdb (extended_var r fid) + cbCopy then JET_errRecordTooBig else JET_errSuccess, snd (extend_var ptdb f fid cbCopy)) /\
  if f_cbRecordMost f <? rec_size ptdb (extended_var r fid) + cbCopy then snd (extend_var ptdb f fid cbCopy) = f
  else moves f (snd (extend_var ptdb f fid cbCopy)) /\ cursor_at ptdb (snd (extend_var ptdb f fid cbCopy)) (extended_var r fid).
Proof.
  intros Hc. pose proof (ca_holds _ _ _ C) as R. pose proof (ca_ok _ _ _ C) as O. pose proof CbBurstVarDefaults_spec as [B1 B2]. pose proof rec_size_extended_var as Re. pose proof rec_size_nulled as Rn. pose proof F as [F1 _].
  pose proof (zlen_nonneg (var_data (burst r fid))) as Zb. pose proof (data_range ptdb S r O) as Dr. pose proof (nvar_range ptdb r O) as Nr. pose proof (fixed_end_range ptdb S r O) as Fe. destruct (opened_spec (f_m f) (pv (dataWorkBuf f)) R) as [P1 P2].
  unfold extend_var. rewrite (at_FidVarLastInRec _ _ _ _ R), (ca_cb _ _ _ C), (at_PibVarOffsets _ _ _ _ R), (at_PbVarData _ S _ _ _ O R).
  destruct (CbBurstVarDefaults ptdb f (fidVarNone + nvar r) fid) as [cbB lastDef]. cbn [fst snd] in B1, B2.
  assert (Es : s32 cbB = cbB).
  { pose proof (do_rec _ _ _ D) as Dq. unfold default_rec in Dq. apply s32_small. rewrite B1. pose proof (new_data_range (length (r_var r)) (between r fid)) as Nd. fold (burst r fid) in Nd.
    assert (zlen (var_data (r_var rd)) < 32768) by (destruct (PdataDefaultRecord ptdb) as [[md d]|]; [now apply (data_range ptdb S rd)|rewrite Dq; reflexivity]). lia. }
  rewrite Es. replace (rec_size ptdb r + (fid - (fidVarNone + nvar r)) * 2 + cbB + cbCopy) with (rec_size ptdb (extended_var r fid) + cbCopy) by lia.
  destruct (Z.ltb_spec (f_cbRecordMost f) (rec_size ptdb (extended_var r fid) + cbCopy)) as [T|T]; [split; reflexivity|]. cbn [snd]. split; [reflexivity|].
  set (pb := pv (dataWorkBuf f)) in *. set (Q := pb + fixed_end ptdb (nfixed r) + 2 * nvar r) in *. rewrite (Z.mul_comm _ 2). set (m1 := memset (memmove _ _ _ _) _ _ _).
  assert (E1 : mem_eq_on pb Q (f_m f) m1) by (intros x Hx; unfold m1; rewrite memset_frame, memmove_frame by lia; reflexivity).
  rewrite (frame_accessors _ m1 _ _ O R E1).
  assert (Ew : SetVarNullBit (zlen (var_data (r_var r))) = var_word (zlen (var_data (r_var r))) None).
  { rewrite <- (SetVarNullBit_word _ (Some [])) by lia. unfold var_word. cbn [is_null]. now rewrite Z.add_0_r. }
  rewrite Ew. unfold IndexOfVar. replace ((pb + fixed_end ptdb (nfixed r) + 2 * (fid - fidVarLeast) - Q) / 2 + 1) with (fid - (fidVarNone + nvar r)) by (unfold Q, fidVarNone, fidVarLeast; zlia).
  change (SetFidVarLastInRec _ pb fid) with (opened (f_m f) pb). rewrite <- Rn.
  assert (Out : forall m', same_outside pb (pb + rec_size ptdb (extended_var r fid)) (opened (f_m f) pb) m' -> same_outside pb (pb + f_cbRecordMost f) (f_m f) m').
  { intros m' H. apply (same_outside_trans _ _ _ (opened (f_m f) pb)); eapply same_outside_weaken; try eassumption; lia. }
  destruct B2 as [(B3 & B4)|(B3 & md & d & k & K1 & K2 & K3 & K4)].
  - rewrite B3, Z.ltb_irrefl, Z.add_0_r, <- (extended_nulled B4). split; [apply moves_with, Out, same_outside_refl|]. apply cursor_with; [rewrite (extended_nulled B4); exact P1|apply extended_var_ok; lia|lia].
  - rewrite (proj2 (Z.ltb_lt 0 cbB) B3). rewrite K3, B1. destruct (burst_var_defaults_spec (opened (f_m f) pb) pb md d k P1 K1 K2 K4 ltac:(lia)) as [Q1 Q2].
    replace (rec_size ptdb nulled + zlen (var_data (burst r fid))) with (rec_size ptdb (extended_var r fid)) by lia.
    split; [apply moves_with, Out, Q2|]. apply cursor_with; [exact Q1|apply extended_var_ok; lia|lia].
Qed.
End Extend.
End Burst.

(** ** Storing a value *)

Definition with_var (r : RECORD) (fid : Z) (y : option (list Z)) : RECORD := Rcd (r_fixed r) (zset (r_var r) (fid - 128) y) (r_tag r).

Section One.
Variables (f : FUCB) (r : RECORD) (fid : Z) (y : option (list Z)).
Variables (l1 l2 : list (option (list Z))) (x : option (list Z)).
Hypothesis F : cursor_fits f.
Hypothesis C : cursor_at ptdb f r.
Hypothesis Er : r_var r = l1 ++ x :: l2.
Hypothesis Hf : zlen l1 = fid - 128.

Lemma var_with : r_var (with_var r fid y) = l1 ++ y :: l2.
Proof. unfold with_var. cbn [r_var]. rewrite Er. now apply zset_app. Qed.

Lemma nvar_with : nvar (with_var r fid y) = nvar r.
Proof. unfold nvar. rewrite var_with, Er, !zlen_app, !zlen_cons. reflexivity. Qed.

Lemma data_split : zlen (var_data (r_var r)) = zlen (var_data l1) + zlen (vbytes x) + zlen (var_data l2).
Proof. rewrite Er, var_data_app, var_data_cons, !zlen_app. lia. Qed.

Lemma rec_size_with_var : rec_size ptdb (with_var r fid y) = rec_size ptdb r + (zlen (vbytes y) - zlen (vbytes x)).
Proof. unfold rec_size. rewrite nvar_with, data_split, var_with, var_data_app, var_data_cons, !zlen_app. change (nfixed (with_var r fid y)) with (nfixed r). change (r_tag (with_var r fid y)) with (r_tag r). lia. Qed.

Lemma record_ok_with_var : rec_size ptdb (with_var r fid y) < 32768 -> record_ok ptdb (with_var r fid y).
Proof. intros H. constructor; [apply C|rewrite nvar_with; apply C|exact H]. Qed.

Let pb := pv (dataWorkBuf f).
Let a := pb + fixed_end ptdb (nfixed r).
Let P := a + 2 * nvar r.
Let o := zlen (var_data l1).
Let delta := zlen (vbytes y) - zlen (vbytes x).

Lemma one_ranges : 0 <= o /\ 0 <= zlen (vbytes x) /\ 0 <= zlen (vbytes y) /\ 0 <= zlen (var_data l2) /\ o + zlen (vbytes x) + zlen (var_data l2) + zlen (r_tag r) <= rec_size ptdb r - (P - pb) /\ rec_size ptdb r < 32768 /\
  0 <= zlen l2 /\ nvar r = zlen l1 + 1 + zlen l2 /\ 4 <= a - pb /\ 0 <= zlen l1 /\ 0 <= zlen (r_tag r) /\ P - pb + o + zlen (vbytes x) + zlen (var_data l2) + zlen (r_tag r) = rec_size ptdb r.
Proof.
  pose proof (ca_ok _ _ _ C) as O. pose proof (fixed_end_range ptdb S r O). pose proof (parts_range ptdb r O). pose proof data_split. unfold rec_size in *. pose proof (zlen_nonneg (var_data l1)). pose proof (zlen_nonneg (vbytes x)). pose proof (zlen_nonneg (vbytes y)).
  pose proof (zlen_nonneg (var_data l2)). pose proof (zlen_nonneg l2). pose proof (zlen_nonneg l1). assert (nvar r = zlen l1 + 1 + zlen l2) by (unfold nvar; rewrite Er, zlen_app, zlen_cons; lia). unfold P, a, o. lia.
Qed.

(** What is behind the value was moved, and the offsets from [fid] on. *)
Definition resized (m : mem) : mem :=
  if delta =? 0 then m
  else shift_offsets (length (x :: l2)) (memmove m (P + (o + zlen (vbytes x)) + delta) (P + (o + zlen (vbytes x))) (rec_size ptdb r - (P + (o + zlen (vbytes x)) - pb))) (a + 2 * zlen l1) delta.

Lemma resized_spec m : holds_record ptdb m pb r -> rec_size ptdb r + delta < 32768 ->
  mem_ok (resized m) /\ same_outside pb (pb + Z.max (rec_size ptdb r) (rec_size ptdb r + delta)) m (resized m) /\ mem_eq_on pb (a + 2 * zlen l1) m (resized m) /\
  mem_eq_on P (P + o) m (resized m) /\ load16 (resized m) (a + 2 * zlen l1) = var_word (o + zlen (vbytes y)) x /\ holds (resized m) (a + 2 * (zlen l1 + 1)) (var_words (o + zlen (vbytes y)) l2) /\
  holds (resized m) (P + o + zlen (vbytes y)) (var_data l2 ++ r_tag r).
Proof.
  intros R Hs. pose proof one_ranges as (R1 & R2 & R3 & R4 & R5 & R6 & R7 & R8 & R9 & R10 & R11 & R12). assert (Ey : o + zlen (vbytes y) = o + zlen (vbytes x) + delta) by (unfold delta; lia).
  pose proof (hr_words _ _ _ _ R) as W. fold a in W. rewrite Er, var_words_app, holds_app, zlen_var_words, Z.add_0_l in W. fold o in W. destruct W as [_ W].
  pose proof (hr_data _ _ _ _ R) as V. fold a P in V. rewrite Er, var_data_app, var_data_cons, !holds_app in V. fold o in V. destruct V as (_ & _ & V). pose proof (hr_tag _ _ _ _ R) as T. fold a P in T. rewrite data_split in T. fold o in T.
  assert (VT : holds m (P + (o + zlen (vbytes x))) (var_data l2 ++ r_tag r)) by (rewrite holds_app; split; [rewrite Z.add_assoc; exact V|]; replace (P + (o + zlen (vbytes x)) + zlen (var_data l2)) with (P + (o + zlen (vbytes x) + zlen (var_data l2))) by lia; exact T).
  unfold resized. destruct (Z.eqb_spec delta 0) as [E0|N0].
  - split; [apply R|]. split; [apply same_outside_refl|]. split; [easy|]. split; [easy|]. rewrite Ey, E0, Z.add_0_r. cbn [var_words] in W. rewrite holds_app, zlen_le16 in W. destruct W as [W1 W2].
    split; [rewrite (holds_le16 _ _ _ W1); apply u16_small, var_word_range; lia|]. split; [replace (a + 2 * (zlen l1 + 1)) with (a + 2 * zlen l1 + 2) by lia; exact W2|]. replace (P + o + zlen (vbytes y)) with (P + (o + zlen (vbytes x))) by lia. exact VT.
  - set (m1 := memmove m _ _ _). assert (Fr : forall z, z < P + o \/ pb + rec_size ptdb r + delta <= z -> m1 z = m z) by (intros z Hz; apply memmove_frame; unfold delta in *; lia).
    assert (Fl : forall z, z < P + (o + zlen (vbytes x)) + delta -> m1 z = m z) by (intros z Hz; apply memmove_frame; lia).
    assert (W1 : holds m1 (a + 2 * zlen l1) (var_words o (x :: l2))) by (apply (holds_ext m); [exact W|]; rewrite zlen_var_words, zlen_cons; intros z Hz; symmetry; apply Fl; unfold P, delta in *; lia).
    cbn [var_words] in W1. rewrite holds_app, zlen_le16 in W1. destruct W1 as [W1 W2]. cbn [length shift_offsets].
    replace (load16 m1 (a + 2 * zlen l1)) with (var_word (o + zlen (vbytes x)) x) by (rewrite (holds_le16 _ _ _ W1); symmetry; apply u16_small, var_word_range; lia). rewrite shift_word, <- Ey by lia. set (m2 := store16 m1 _ _).
    destruct (shift_offsets_spec l2 m2 (a + 2 * zlen l1 + 2) (o + zlen (vbytes x)) delta) as (J1 & J2 & J3); [now apply store16_ok, memmove_ok, R|apply holds_store16_frame; [exact W2|lia]|lia..|]. rewrite <- Ey in J3.
    set (m3 := shift_offsets _ _ _ _) in *. assert (F2 : forall z, z < a + 2 * zlen l1 \/ a + 2 * zlen l1 + 2 <= z -> m2 z = m1 z) by (intros z Hz; now apply store16_frame).
    assert (F3 : forall z, z < a + 2 * zlen l1 \/ P <= z -> m3 z = m1 z) by (intros z Hz; rewrite J2 by (unfold P in *; lia); apply F2; unfold P in *; lia).
    split; [exact J1|]. split; [intros z Hz; rewrite F3 by (unfold P in *; lia); apply Fr; lia|]. split; [intros z Hz; rewrite F3, Fl by (unfold P, delta in *; lia); reflexivity|].
    split; [intros z Hz; rewrite F3, Fl by (unfold P, delta in *; lia); reflexivity|]. split; [|split].
    + transitivity (load16 m2 (a + 2 * zlen l1)); [apply load16_ext; intros z Hz; apply J2; lia|]. unfold m2. rewrite load16_store16_eq. apply u16_small, var_word_range. lia.
    + replace (a + 2 * (zlen l1 + 1)) with (a + 2 * zlen l1 + 2) by lia. exact J3.
    + replace (P + o + zlen (vbytes y)) with (P + (o + zlen (vbytes x)) + delta) by lia. apply (holds_ext m1); [apply holds_memmove; [exact VT|rewrite zlen_app; unfold P in *; lia]|]. intros z Hz. symmetry. apply F3. lia.
Qed.

Section Value.
Variables (cbCopy : Z) (pdata : option (list Z)).
Hypothesis Hy : y = match pdata with Some d => Some (firstn (Z.to_nat cbCopy) d) | None => None end.
Hypothesis Hc : cbCopy = zlen (vbytes y).
Hypothesis By : bytes_ok (vbytes y).

Lemma null_word e : 0 <= e < 32768 -> (match pdata with None => SetVarNullBit (var_word e x) | Some _ => ResetVarNullBit (var_word e x) end) = var_word e y.
Proof. intros H. rewrite Hy. destruct pdata; [now rewrite (ResetVarNullBit_word e x [])|now rewrite SetVarNullBit_word]. Qed.

(** The data and the null bit. *)
Definition stored (m : mem) : mem :=
  let m := match pdata with Some d => if 0 <? cbCopy then store_bytes m (P + o) (firstn (Z.to_nat cbCopy) d) else m | None => m end in
  store16 m (a + 2 * zlen l1) (match pdata with None => SetVarNullBit (load16 m (a + 2 * zlen l1)) | Some _ => ResetVarNullBit (load16 m (a + 2 * zlen l1)) end).

Lemma stored_data m : exists m1, mem_ok m -> mem_ok m1 /\ match pdata with Some d => if 0 <? cbCopy then store_bytes m (P + o) (firstn (Z.to_nat cbCopy) d) else m | None => m end = m1 /\
  (forall z, z < P + o \/ P + o + zlen (vbytes y) <= z -> m1 z = m z) /\ holds m1 (P + o) (vbytes y).
Proof.
  eexists. intros Hm. split; [|split; [reflexivity|]]; destruct pdata as [d|]; rewrite ?Hy in *; cbn [vbytes] in *; try exact Hm; try (split; [easy|apply holds_nil]).
  - destruct (0 <? cbCopy); [now apply store_bytes_ok|exact Hm].
  - destruct (Z.ltb_spec 0 cbCopy) as [L|L].
    + split; [intros z Hz; apply store_bytes_frame; unfold zlen in Hz; lia|now apply holds_store_bytes].
    + split; [easy|]. pose proof (zlen_nonneg (firstn (Z.to_nat cbCopy) d)). destruct (firstn (Z.to_nat cbCopy) d); [apply holds_nil|rewrite zlen_cons in *; pose proof (zlen_nonneg l); lia].
Qed.

Lemma stored_value_spec m : holds_record ptdb m pb r -> rec_size ptdb r + delta < 32768 ->
  holds_record ptdb (stored (resized m)) pb (with_var r fid y) /\ same_outside pb (pb + Z.max (rec_size ptdb r) (rec_size ptdb r + delta)) m (stored (resized m)).
Proof.
  intros R Hs. pose proof one_ranges as (R1 & R2 & R3 & R4 & R5 & R6 & R7 & R8 & R9 & R10 & R11 & R12). destruct (resized_spec m R Hs) as (I1 & I2 & I3 & I4 & I5 & I6 & I7). set (mr := resized m) in *. pose proof (ca_ok _ _ _ C) as O.
  unfold stored. destruct (stored_data mr) as [m1 X]. destruct (X I1) as (J1 & -> & J2 & J3). clear X. assert (Ey : o + zlen (vbytes y) = o + zlen (vbytes x) + delta) by (unfold delta; lia).
  replace (load16 m1 (a + 2 * zlen l1)) with (var_word (o + zlen (vbytes y)) x) by (rewrite <- I5; apply load16_ext; intros z Hz; symmetry; apply J2; unfold P; lia). rewrite null_word by lia. set (m2 := store16 _ _ _).
  assert (F2 : forall z, z < a + 2 * zlen l1 \/ a + 2 * zlen l1 + 2 <= z -> m2 z = m1 z) by (intros z Hz; now apply store16_frame).
  assert (F3 : forall z, z < a + 2 * zlen l1 -> m2 z = mr z) by (intros z Hz; rewrite F2, J2 by (unfold P in *; lia); reflexivity).
  assert (Lw : zlen (l1 ++ y :: l2) = nvar r) by (rewrite zlen_app, zlen_cons; lia). pose proof (hr_words _ _ _ _ R) as W. fold a in W. rewrite Er, var_words_app, holds_app in W. destruct W as [W _].
  pose proof (hr_data _ _ _ _ R) as V. fold a P in V. rewrite Er, var_data_app, holds_app in V. destruct V as [V _]. rewrite holds_app in I7. destruct I7 as [I7 I8].
  split.
  - unfold with_var. rewrite Er, (zset_app l1 x l2 _ y Hf). apply (with_var_holds m); try assumption; fold a; rewrite ?Lw; fold P.
    + now apply store16_ok.
    + intros z Hz _. rewrite F3 by (unfold a in *; lia). symmetry. apply I3. unfold a in *. lia.
    + rewrite F3 by lia. rewrite <- I3 by lia. apply R.
    + unfold var_at. rewrite var_words_app, var_data_app, var_data_cons, !holds_app, zlen_var_words, Z.add_0_l. cbn [var_words]. fold o. rewrite holds_app, zlen_le16. repeat split.
      * apply (holds_ext m); [exact W|]. rewrite zlen_var_words. intros z Hz. rewrite F3 by lia. apply I3. lia.
      * apply holds_store16.
      * apply (holds_ext mr); [replace (a + 2 * zlen l1 + 2) with (a + 2 * (zlen l1 + 1)) by lia; exact I6|]. rewrite zlen_var_words. intros z Hz. rewrite F2, J2 by (unfold P in *; lia). reflexivity.
      * apply (holds_ext m); [exact V|]. fold o. intros z Hz. rewrite F2, J2 by (unfold P in *; lia). now apply I4.
      * apply (holds_ext m1); [exact J3|]. intros z Hz. symmetry. apply F2. unfold P in *. lia.
      * apply (holds_ext mr); [exact I7|]. intros z Hz. rewrite F2, J2 by (unfold P in *; lia). reflexivity.
    + rewrite var_data_app, var_data_cons, !zlen_app. fold o. rewrite !Z.add_assoc. apply (holds_ext mr); [exact I8|]. intros z Hz. rewrite F2, J2 by (unfold P in *; lia). reflexivity.
  - intros z Hz. rewrite F2, J2 by (unfold P, a, delta in *; lia). now apply I2.
Qed.

Lemma store_var_spec :
  store_var f fid cbCopy pdata = (if f_cbRecordMost f <? rec_size ptdb (with_var r fid y) then JET_errRecordTooBig else JET_errSuccess, snd (store_var f fid cbCopy pdata)) /\
  if f_cbRecordMost f <? rec_size ptdb (with_var r fid y) then snd (store_var f fid cbCopy pdata) = f
  else moves f (snd (store_var f fid cbCopy pdata)) /\ cursor_at ptdb (snd (store_var f fid cbCopy pdata)) (with_var r fid y).
Proof.
  pose proof one_ranges as (R1 & R2 & R3 & R4 & R5 & R6 & R7 & R8 & R9 & R10 & R11 & R12). pose proof (ca_holds _ _ _ C) as R. pose proof (ca_ok _ _ _ C) as O. pose proof (ca_fits _ _ _ C) as Fit. pose proof F as [F1 _]. pose proof rec_size_with_var as Rw. fold delta in Rw.
  unfold store_var. rewrite (at_PibVarOffsets _ _ _ _ R), (ca_cb _ _ _ C). fold pb a. unfold IndexOfVar, fidVarLeast. rewrite <- Hf. pose proof (hr_words _ _ _ _ R) as W. fold pb a in W. rewrite Er in W.
  replace (if FVarLeast fid then 0 else IbVarOffset (load16 (f_m f) (a + 2 * zlen l1 - 2))) with o.
  2:{ unfold FVarLeast, fidVarLeast. destruct (Z.eqb_spec fid 128) as [E|N].
    - unfold o. destruct l1 as [|z l']; [reflexivity|]. rewrite zlen_cons in Hf. pose proof (zlen_nonneg l'). lia.
    - replace (a + 2 * zlen l1 - 2) with (a + 2 * (zlen l1 - 1)) by lia. symmetry. apply (word_before (f_m f) a l1 (x :: l2) W); fold o; lia. }
  rewrite (word_at (f_m f) a 0 l1 x l2 W), Z.add_0_l by (fold o; lia). fold o. rewrite IbVarOffset_word by lia. replace (cbCopy - (o + zlen (vbytes x) - o)) with delta by (unfold delta; lia).
  rewrite <- Rw. replace (negb (delta =? 0) && (f_cbRecordMost f <? rec_size ptdb (with_var r fid y))) with (f_cbRecordMost f <? rec_size ptdb (with_var r fid y)) by (destruct (Z.eqb_spec delta 0); [apply Z.ltb_ge; lia|reflexivity]).
  destruct (Z.ltb_spec (f_cbRecordMost f) (rec_size ptdb (with_var r fid y))) as [T|T]; [split; reflexivity|].
  destruct (stored_value_spec (f_m f) R ltac:(lia)) as [Q1 Q2]. fold pb in Q1.
  assert (Er' : (if delta =? 0 then (f_m f, rec_size ptdb r)
                 else (shift_offsets (Z.to_nat ((a + 2 * (FidVarLastInRec (memmove (f_m f) (PbVarData (f_m f) pb + (o + zlen (vbytes x)) + delta) (PbVarData (f_m f) pb + (o + zlen (vbytes x)))
                         (rec_size ptdb r - (PbVarData (f_m f) pb + (o + zlen (vbytes x)) - pb))) pb - 128) - (a + 2 * zlen l1)) / 2 + 1))
                       (memmove (f_m f) (PbVarData (f_m f) pb + (o + zlen (vbytes x)) + delta) (PbVarData (f_m f) pb + (o + zlen (vbytes x))) (rec_size ptdb r - (PbVarData (f_m f) pb + (o + zlen (vbytes x)) - pb)))
                       (a + 2 * zlen l1) delta, rec_size ptdb (with_var r fid y))) = (resized (f_m f), rec_size ptdb (with_var r fid y))).
  { assert (EP : PbVarData (f_m f) pb = P) by exact (at_PbVarData _ S _ _ _ O R). unfold resized. rewrite Rw, EP. destruct (Z.eqb_spec delta 0) as [E0|N0]; [now rewrite E0, Z.add_0_r|].
    destruct (header_accessors (f_m f) (memmove (f_m f) (P + (o + zlen (vbytes x)) + delta) (P + (o + zlen (vbytes x))) (rec_size ptdb r - (P + (o + zlen (vbytes x)) - pb))) pb r O R) as (_ & _ & ->);
      [intros z Hz; symmetry; apply memmove_frame; unfold P, delta in *; lia|].
    repeat f_equal. replace (a + 2 * (fidVarNone + nvar r - 128) - (a + 2 * zlen l1)) with (zlen l2 * 2) by (unfold fidVarNone; lia). rewrite Z.div_mul by lia. unfold zlen. cbn [length]. lia. }
  rewrite Er'. cbn [snd]. split; [reflexivity|]. destruct (resized_spec (f_m f) R ltac:(lia)) as (_ & _ & I3 & _).
  destruct (header_accessors (f_m f) (resized (f_m f)) pb r O R) as (_ & -> & _); [intros z Hz; apply I3; lia|]. fold pb a P. fold (stored (resized (f_m f))).
  split; [apply moves_with; fold pb; eapply same_outside_weaken; [exact Q2|lia..]|]. apply cursor_with; [exact Q1|apply record_ok_with_var; lia|lia].
Qed.
End Value.
End One.
End Var.
