(* ===== verification/RecSpec.v ===== *)
(** * Records: what setting a column promises

    Setting a fixed, a variable or a tagged column as an update of the lists of
    values of a record, and that the functions on memory do this. *)

From Stdlib Require Import ZArith List Lia Bool Sorting.Sorted.
From S2P Require Import Prelude Mem Norm TagFld TagFldView TagFldOps TagFldMulti TagFldSearch TagFldSpec TagFldSet TagFldRead Rec RecView RecFixed RecVar.
Import ListNotations.

Lemma bytes_ok_firstn n d : bytes_ok d -> bytes_ok (firstn n d).
Proof. intros H. rewrite <- (firstn_skipn n d) in H. now apply Forall_app in H. Qed.

(** The error, whether the column is marked as set, and the record. *)
Record OUTCOME := Outcome { oc_err : Z; oc_set : bool; oc_rec : RECORD }.

Section Spec.
Variable ptdb : TDB.
Variable rd : RECORD.
(** The cursor, for what no update changes: the largest record and whether a
    column that counts records must be set. *)
Variable f0 : FUCB.

(** [None] and data of no bytes stand for null. *)
Definition fixed_data (pdata : option (list Z)) : option (list Z) :=
  match pdata with Some d => if Cb d =? 0 then None else Some d | None => None end.

Definition fixed_refused (fid : Z) (data : option (list Z)) : Z :=
  let ff := ffield (PfieldFixed ptdb fid) in
  if (FidFixedLast ptdb <? fid) || (fid <? FidFixedFirst ptdb) || FColtypNil ptdb fid then JET_errColumnNotFound
  else if is_null data && FFIELDNotNull ff then JET_errNullInvalid
  else if is_null data && (FFIELDAutoincrement ff && negb (FFIELDDefault ff)) then JET_errAutoIncrementNotSet
  else JET_errSuccess.

(** The columns up to [fid] get their default values. *)
Definition opened_fixed (r : RECORD) (fid : Z) : RECORD := if nfixed r <? fid then extended_fixed ptdb rd r fid else r.

Definition set_fixed (r : RECORD) (fid : Z) (pdata : option (list Z)) : OUTCOME :=
  let data := fixed_data pdata in
  let err := fixed_refused fid data in
  if negb (err =? JET_errSuccess) then Outcome err false r
  else
    let r1 := opened_fixed r fid in
    if f_cbRecordMost f0 <? rec_size ptdb r1 then Outcome JET_errRecordTooBig true r
    else
      match data with
      | None => Outcome JET_errSuccess true (with_fixed r1 fid None)
      | Some d =>
          let err := fixed_error ptdb f0 fid d in
          if err =? JET_errSuccess then Outcome err true (with_fixed r1 fid (Some (snd (fixed_image (PfieldFixed ptdb fid) d)))) else Outcome err true r1
      end.

(** The value that is stored: data that are too long are cut. *)
Definition var_data_cut (fid : Z) (pdata : option (list Z)) : option (list Z) :=
  match pdata with Some d => Some (firstn (Z.to_nat (Z.min (Cb d) (cbMaxLen (PfieldVar ptdb fid)))) d) | None => None end.

Definition var_warning (fid : Z) (pdata : option (list Z)) : Z :=
  match pdata with Some d => if cbMaxLen (PfieldVar ptdb fid) <? Cb d then JET_wrnColumnMaxTruncated else JET_errSuccess | None => JET_errSuccess end.

Definition opened_var (r : RECORD) (fid : Z) : RECORD := if fidVarNone + nvar r <? fid then extended_var ptdb rd r fid else r.

Definition set_var (r : RECORD) (fid : Z) (pdata : option (list Z)) : OUTCOME :=
  if (FidVarLast ptdb <? fid) || (fid <? FidVarFirst ptdb) || FColtypNil ptdb fid then Outcome JET_errColumnNotFound false r
  else if is_null pdata && FFIELDNotNull (ffield (PfieldVar ptdb fid)) then Outcome JET_errNullInvalid true r
  else
    let r1 := with_var (opened_var r fid) fid (var_data_cut fid pdata) in
    if f_cbRecordMost f0 <? rec_size ptdb r1 then Outcome JET_errRecordTooBig true r else Outcome (var_warning fid pdata) true r1.

(** ** The functions on memory *)

Section Refine.
Hypothesis S : schema_ok ptdb.

Definition same_limits (f : FUCB) : Prop :=
  f_cbRecordMost f = f_cbRecordMost f0 /\ FFUCBMustSetAutoIncPrepared f = FFUCBMustSetAutoIncPrepared f0.

Definition implements (f : FUCB) (fid : Z) (res : Z * FUCB) (oc : OUTCOME) : Prop :=
  fst res = oc_err oc /\ moves (if oc_set oc then FUCBSetColumnSet f fid else f) (snd res) /\ cursor_at ptdb (snd res) (oc_rec oc).

Lemma fixed_error_same f fid d : same_limits f -> fixed_error ptdb f fid d = fixed_error ptdb f0 fid d.
Proof. intros [_ E]. unfold fixed_error, check_autoinc. now rewrite E. Qed.

Section Ops.
Variables (f : FUCB) (r : RECORD) (fid : Z) (pdata : option (list Z)).
Hypothesis L : same_limits f.
Hypothesis F : cursor_fits f.
Hypothesis C : cursor_at ptdb f r.
Hypothesis D : defaults_ok ptdb (CbRecordMostCHECK (cbPage f)) rd.
Hypothesis Hd : forall d, pdata = Some d -> bytes_ok d.

Let f1 := FUCBSetColumnSet f fid.

Lemma fixed_data_bytes d : fixed_data pdata = Some d -> bytes_ok d.
Proof. unfold fixed_data. destruct pdata as [d'|]; [|discriminate]. destruct (Cb d' =? 0); [discriminate|]. intros [= <-]. now apply Hd. Qed.

(** Making room, and what is then stored. *)
Lemma opened_fixed_spec : 1 <= fid <= FidFixedLast ptdb -> FColtypNil ptdb fid = false ->
  exists f2, (if FidFixedLastInRec (f_m f1) (pv (dataWorkBuf f1)) <? fid then extend_fixed ptdb f1 fid else (JET_errSuccess, f1)) =
    (if f_cbRecordMost f0 <? rec_size ptdb (opened_fixed r fid) then JET_errRecordTooBig else JET_errSuccess, f2) /\ moves f1 f2 /\
  (if f_cbRecordMost f0 <? rec_size ptdb (opened_fixed r fid) then cursor_at ptdb f2 r else cursor_at ptdb f2 (opened_fixed r fid)) /\ fid <= nfixed (opened_fixed r fid).
Proof.
  intros H1 H2. pose proof (cursor_set_bit ptdb f fid r C) as C1. fold f1 in C1. rewrite (at_FidFixedLastInRec _ _ _ _ (ca_holds _ _ _ C1)). unfold opened_fixed. pose proof (nfixed_range ptdb S r (ca_ok _ _ _ C)) as Nf. destruct L as [<- _].
  destruct (Z.ltb_spec (nfixed r) fid) as [Lf|Lf].
  - destruct (extend_fixed_spec ptdb S f1 rd r fid F C1 D ltac:(lia) H2) as [E X]. change (f_cbRecordMost f1) with (f_cbRecordMost f) in *. exists (snd (extend_fixed ptdb f1 fid)). split; [exact E|]. rewrite nfixed_extended by lia.
    destruct (f_cbRecordMost f <? _); [rewrite X; split; [apply moves_refl|split; [exact C1|lia]]|]. split; [apply X|]. split; [apply X|lia].
  - exists f1. pose proof (ca_fits _ _ _ C). rewrite (proj2 (Z.ltb_ge (f_cbRecordMost f) (rec_size ptdb r))) by lia. split; [reflexivity|]. split; [apply moves_refl|]. split; [exact C1|lia].
Qed.

Lemma ErrRECISetFixedColumn_spec : implements f fid (ErrRECISetFixedColumn ptdb f fid pdata) (set_fixed r fid pdata).
Proof.
  unfold ErrRECISetFixedColumn, set_fixed, fixed_refused. rewrite (bad_size_cursor ptdb S f r F C). fold (fixed_data pdata). pose proof fixed_data_bytes as Bd.
  destruct ((FidFixedLast ptdb <? fid) || (fid <? FidFixedFirst ptdb)) eqn:T1; cbn [orb]; [split; [reflexivity|split; [apply moves_refl|exact C]]|].
  destruct (FColtypNil ptdb fid) eqn:T2; [split; [reflexivity|split; [apply moves_refl|exact C]]|]. fold (is_null (fixed_data pdata)).
  destruct (is_null (fixed_data pdata) && FFIELDNotNull _); [split; [reflexivity|split; [apply moves_refl|exact C]]|].
  destruct (is_null (fixed_data pdata) && (_ && _)); [split; [reflexivity|split; [apply moves_refl|exact C]]|]. change (negb (JET_errSuccess =? JET_errSuccess)) with false. cbv iota.
  apply orb_false_iff in T1 as [T1 T3]. apply Z.ltb_ge in T1, T3. pose proof (sc_fixed _ S) as [Sf _]. destruct (opened_fixed_spec ltac:(lia) T2) as (f2 & E & M & C2 & Hf). fold f1. rewrite E. clear E.
  destruct (f_cbRecordMost f0 <? rec_size ptdb (opened_fixed r fid)); [split; [reflexivity|split; [exact M|exact C2]]|]. change (negb (JET_errSuccess =? JET_errSuccess)) with false. cbv iota.
  destruct (fixed_data pdata) as [d|].
  - destruct (store_fixed_spec ptdb S f2 (opened_fixed r fid) fid C2 ltac:(lia) T2 d (Bd d eq_refl)) as [Es Xs].
    assert (Ef : fixed_error ptdb f2 fid d = fixed_error ptdb f0 fid d) by (apply fixed_error_same; destruct M as [-> _]; exact L). rewrite Ef in *.
    destruct (Z.eqb_spec (fixed_error ptdb f0 fid d) JET_errSuccess) as [E0|E0]; (split; [rewrite Es; reflexivity|]).
    + split; [exact (moves_trans _ _ _ M (proj1 Xs))|apply Xs].
    + rewrite Xs. split; [exact M|exact C2].
  - destruct (store_fixed_null ptdb S f2 (opened_fixed r fid) fid C2 ltac:(lia)) as [X1 X2]. split; [reflexivity|]. split; [exact (moves_trans _ _ _ M X1)|exact X2].
Qed.

Lemma opened_var_spec cbCopy : 0 <= cbCopy -> fidVarLeast <= fid <= FidVarLast ptdb ->
  exists f2 e, (if FidVarLastInRec (f_m f1) (pv (dataWorkBuf f1)) <? fid then extend_var ptdb f1 fid cbCopy else (JET_errSuccess, f1)) = (e, f2) /\ moves f1 f2 /\
  fid <= fidVarNone + nvar (opened_var r fid) /\
  (e = JET_errRecordTooBig /\ f_cbRecordMost f0 < rec_size ptdb (opened_var r fid) + cbCopy /\ znth (r_var (opened_var r fid)) (fid - 128) = None /\ cursor_at ptdb f2 r \/
   e = JET_errSuccess /\ cursor_at ptdb f2 (opened_var r fid) /\
     (opened_var r fid = r \/ rec_size ptdb (opened_var r fid) + cbCopy <= f_cbRecordMost f0 /\ znth (r_var (opened_var r fid)) (fid - 128) = None)).
Proof.
  intros Hc H. pose proof (cursor_set_bit ptdb f fid r C) as C1. fold f1 in C1. rewrite (at_FidVarLastInRec _ _ _ _ (ca_holds _ _ _ C1)). unfold opened_var. destruct L as [<- _].
  destruct (Z.ltb_spec (fidVarNone + nvar r) fid) as [Lf|Lf].
  - destruct (extend_var_spec ptdb S rd _ D f1 r fid F C1 eq_refl ltac:(lia) cbCopy Hc) as [E X]. change (f_cbRecordMost f1) with (f_cbRecordMost f) in *. rewrite E. clear E.
    rewrite (nvar_extended ptdb rd r fid) by lia. exists (snd (extend_var ptdb f1 fid cbCopy)). eexists. split; [reflexivity|].
    assert (Nn : znth (r_var (extended_var ptdb rd r fid)) (fid - 128) = None).
    { unfold extended_var, burst, znth. cbn [r_var]. rewrite app_assoc, app_nth2; [|rewrite length_app; unfold new_var; rewrite length_map, length_seq; unfold between, nvar, zlen, fidVarNone in *; lia].
      destruct (Z.to_nat (fid - 128) - _)%nat as [|n]; [reflexivity|destruct n; reflexivity]. }
    destruct (Z.ltb_spec (f_cbRecordMost f) (rec_size ptdb (extended_var ptdb rd r fid) + cbCopy)) as [T|T].
    + rewrite X. split; [apply moves_refl|]. split; [lia|]. left. split; [reflexivity|]. split; [lia|]. split; [exact Nn|exact C1].
    + split; [apply X|]. split; [lia|]. right. split; [reflexivity|]. split; [apply X|]. right. split; [exact T|exact Nn].
  - exists f1. eexists. split; [reflexivity|]. split; [apply moves_refl|]. split; [exact Lf|]. right. split; [reflexivity|]. split; [exact C1|]. now left.
Qed.

(** Making room for the value and storing it. *)
Lemma set_var_value y cbCopy : fidVarLeast <= fid <= FidVarLast ptdb -> y = match pdata with Some d => Some (firstn (Z.to_nat cbCopy) d) | None => None end -> cbCopy = zlen (vbytes y) ->
  let r1 := with_var (opened_var r fid) fid y in
  exists f2 e f3 e3, (if FidVarLastInRec (f_m f1) (pv (dataWorkBuf f1)) <? fid then extend_var ptdb f1 fid cbCopy else (JET_errSuccess, f1)) = (e, f2) /\
  (if negb (e =? JET_errSuccess) then (e, f2) else store_var f2 fid cbCopy pdata) = (e3, f3) /\ moves f1 f3 /\
  (if f_cbRecordMost f0 <? rec_size ptdb r1 then e3 = JET_errRecordTooBig /\ cursor_at ptdb f3 r else e3 = JET_errSuccess /\ e = JET_errSuccess /\ cursor_at ptdb f3 r1).
Proof.
  intros H Hy Hc r1. pose proof (zlen_nonneg (vbytes y)) as Zy. destruct (opened_var_spec cbCopy ltac:(lia) H) as (f2 & e & E & M & Hn & X). exists f2, e. rewrite E.
  assert (By : bytes_ok (vbytes y)). { rewrite Hy. destruct pdata as [d|]; [|constructor]. cbn [vbytes]. apply bytes_ok_firstn, (Hd d eq_refl). }
  destruct (var_split (opened_var r fid) fid ltac:(unfold fidVarLeast in *; lia)) as (l1 & l2 & Er & Hl & _). set (x := znth (r_var (opened_var r fid)) (fid - 128)) in *.
  destruct X as [(-> & X1 & X2 & X3)|(-> & X1 & X2)]; cbn [negb].
  - exists f2, JET_errRecordTooBig. split; [reflexivity|]. split; [reflexivity|]. split; [exact M|]. unfold r1. assert (Rw : rec_size ptdb (with_var (opened_var r fid) fid y) = rec_size ptdb (opened_var r fid) + (zlen (vbytes y) - zlen (vbytes x))) by exact (rec_size_with_var ptdb _ fid y l1 l2 x Er Hl).
    rewrite Rw, X2, (proj2 (Z.ltb_lt (f_cbRecordMost f0) (rec_size ptdb (opened_var r fid) + (zlen (vbytes y) - zlen (vbytes None))))) by (change (zlen (vbytes None)) with 0; lia). split; [reflexivity|exact X3].
  - assert (F2 : cursor_fits f2) by (apply (moves_fits f1); [exact M|exact F]). assert (E2 : f_cbRecordMost f2 = f_cbRecordMost f0) by (destruct M as [-> _]; apply L).
    destruct (store_var_spec ptdb S f2 (opened_var r fid) fid y l1 l2 x F2 X1 Er Hl cbCopy pdata Hy Hc By) as [Es Xs]. fold r1 in Es, Xs. rewrite E2 in Es, Xs. change (JET_errSuccess =? JET_errSuccess) with true. cbn [negb]. rewrite Es.
    exists (snd (store_var f2 fid cbCopy pdata)). eexists. split; [reflexivity|]. split; [reflexivity|]. destruct (Z.ltb_spec (f_cbRecordMost f0) (rec_size ptdb r1)) as [T|T].
    + rewrite Xs. split; [exact M|]. split; [reflexivity|]. destruct X2 as [X2|[X2 X3]]; [rewrite X2 in X1; exact X1|]. exfalso. unfold r1 in T.
      assert (Rw : rec_size ptdb (with_var (opened_var r fid) fid y) = rec_size ptdb (opened_var r fid) + (zlen (vbytes y) - zlen (vbytes x))) by exact (rec_size_with_var ptdb _ fid y l1 l2 x Er Hl).
      pose proof (zlen_nonneg (vbytes x)). lia.
    + split; [exact (moves_trans _ _ _ M (proj1 Xs))|]. split; [reflexivity|]. split; [reflexivity|]. apply Xs.
Qed.

Lemma ErrRECISetVarColumn_spec : implements f fid (ErrRECISetVarColumn ptdb f fid pdata) (set_var r fid pdata).
Proof.
  unfold ErrRECISetVarColumn, set_var. rewrite (bad_size_cursor ptdb S f r F C).
  destruct ((FidVarLast ptdb <? fid) || (fid <? FidVarFirst ptdb)) eqn:T1; cbn [orb]; [split; [reflexivity|split; [apply moves_refl|exact C]]|].
  destruct (FColtypNil ptdb fid) eqn:T2; [split; [reflexivity|split; [apply moves_refl|exact C]]|].
  apply orb_false_iff in T1 as [T1 T3]. apply Z.ltb_ge in T1, T3. pose proof (sc_var _ S) as [Sv _]. pose proof (sc_var_len _ S fid ltac:(lia)) as Sl. unfold var_data_cut, var_warning. fold f1.
  assert (Dec : (exists d, pdata = Some d) \/ pdata = None) by (destruct pdata; eauto). destruct Dec as [[d Ep]|Ep]; rewrite Ep; cbn [is_null andb].
  - pose proof (zlen_nonneg d) as Zd. change (Cb d) with (zlen d). set (c := Z.min (zlen d) (cbMaxLen (PfieldVar ptdb fid))).
    replace (if cbMaxLen (PfieldVar ptdb fid) <? zlen d then (cbMaxLen (PfieldVar ptdb fid), JET_wrnColumnMaxTruncated) else (zlen d, JET_errSuccess))
      with (c, if cbMaxLen (PfieldVar ptdb fid) <? zlen d then JET_wrnColumnMaxTruncated else JET_errSuccess) by (unfold c; destruct (Z.ltb_spec (cbMaxLen (PfieldVar ptdb fid)) (zlen d)); f_equal; lia).
    destruct (set_var_value (Some (firstn (Z.to_nat c) d)) c ltac:(lia)) as (f2 & e & f3 & e3 & E1 & E2 & M & X); [now rewrite Ep|cbn [vbytes]; unfold zlen in *; rewrite length_firstn; lia|].
    rewrite Ep in E2. rewrite E1. destruct (f_cbRecordMost f0 <? _).
    + destruct X as [-> X]. destruct (e =? JET_errSuccess) eqn:Ee; cbn [negb] in *; [rewrite E2; split; [reflexivity|split; [exact M|exact X]]|]. injection E2 as -> ->. split; [reflexivity|]. split; [exact M|exact X].
    + destruct X as (-> & -> & X). change (JET_errSuccess =? JET_errSuccess) with true in *. cbn [negb] in *. rewrite E2. split; [reflexivity|split; [exact M|exact X]].
  - destruct (FFIELDNotNull _); [split; [reflexivity|split; [apply moves_refl|now apply cursor_set_bit]]|].
    destruct (set_var_value None 0 ltac:(lia)) as (f2 & e & f3 & e3 & E1 & E2 & M & X); [now rewrite Ep|reflexivity|]. rewrite Ep in E2. rewrite E1, E2. destruct (f_cbRecordMost f0 <? _); (split; [apply X|split; [exact M|apply X]]).
Qed.
End Ops.
End Refine.
End Spec.

(** * Records: all columns

    A record as the values of its fixed and variable columns and its tagged
    columns; what setting any column promises, and that [ErrRECSetColumn] does
    it. *)

(** The columns, and the bits of those that were set. *)
Record ROW := Row { w_fixed : list (option (list Z)); w_var : list (option (list Z)); w_cols : list COLUMN; w_set : mem; w_any : bool }.

(** The bytes of the tagged columns. *)
Definition tag_bytes (small : bool) (cs : list COLUMN) : list Z :=
  let l := map (entry_of small) cs in entries (4 * zlen l) l ++ datas l.

Definition record_of (small : bool) (w : ROW) : RECORD := Rcd (w_fixed w) (w_var w) (tag_bytes small (w_cols w)).

Definition touch (w : ROW) (fid : Z) : ROW :=
  Row (w_fixed w) (w_var w) (w_cols w) (store8 (w_set w) (IbHash fid) (Z.lor (load8 (w_set w) (IbHash fid)) (IbitHash fid))) true.

(** The row after an update of its fixed or variable columns, or of its tagged ones. *)
Definition after (w : ROW) (fid : Z) (oc : OUTCOME) : Z * ROW :=
  let w := if oc_set oc then touch w fid else w in (oc_err oc, Row (r_fixed (oc_rec oc)) (r_var (oc_rec oc)) (w_cols w) (w_set w) (w_any w)).

Definition with_cols (w : ROW) (cs : list COLUMN) : ROW := Row (w_fixed w) (w_var w) cs (w_set w) (w_any w).

Lemma zlen_tag_bytes small cs : zlen (tag_bytes small cs) = size (map (entry_of small) cs).
Proof. unfold tag_bytes, size. cbv zeta. now rewrite zlen_app, zlen_entries. Qed.

Lemma entries_of_ok small cs : Forall (col_ok small) cs -> bytes_ok (datas (map (entry_of small) cs)) -> Forall (entry_ok small) (map (entry_of small) cs).
Proof.
  induction 1 as [|c cs [Hc _] F IH]; intros B; [constructor|]. cbn [map] in *. rewrite datas_cons in B. apply Forall_app in B as [B1 B2]. constructor; [|now apply IH].
  pose proof (FTagged_range _ Hc). split; [cbn [entry_of e_fid]; lia|]. split; [exact B1|]. intros ->. split; reflexivity.
Qed.

Lemma data_eta d : d = Data (pv d) (cb d).
Proof. now destruct d. Qed.

Section Row.
Context `{Loc : NormLocale}.
Variable ptdb : TDB.
Variable rd : RECORD.
Variable f0 : FUCB.
Let small : bool := FIsSmallPage (cbPage f0).

Definition tagged_grbit (derived : bool) (grbit : Z) : Z := Z.lor grbit (if derived then grbitSetColumnUseDerivedBit else 0).

(** The error of a value that no update looks at the record for; 0 if there is none. *)
Definition tagged_refused (fid : Z) (pdata : option (list Z)) (grbit : Z) : Z :=
  let pfield := PfieldTagged ptdb fid in
  let n := zlen (vbytes pdata) in
  if (0 <? cbMaxLen pfield) && negb (is_null pdata) && ((if fbit grbit grbitSetColumnEncrypted then CbOSEncryptAes256SizeNeeded (cbMaxLen pfield) else cbMaxLen pfield) <? n) then JET_errColumnTooBig
  else if (0 <? n) && match cb_of_type (coltyp pfield) with Some k => negb (n =? k) | None => false end then JET_errInvalidBufferSize
  else if negb (is_null pdata) && (CbLVIntrinsicTableMost f0 <? n) then JET_errColumnDoesNotFit
  else JET_errSuccess.

Definition tag_start (w : ROW) : Z := rec_size ptdb (record_of small w) - size (map (entry_of small) (w_cols w)).

Definition set_tagged (w : ROW) (fid itag : Z) (pdata : option (list Z)) (derived : bool) (grbit : Z) : Z * ROW :=
  if (FidTaggedLast ptdb <? fid) || (fid <? FidTaggedFirst ptdb) || FColtypNil ptdb fid then (JET_errColumnNotFound, w)
  else if is_null pdata && FFIELDNotNull (ffield (PfieldTagged ptdb fid)) then (JET_errNullInvalid, w)
  else
    let w := touch w fid in
    let err := tagged_refused fid pdata grbit in
    if negb (err =? JET_errSuccess) then (err, w)
    else
      let '(err, cs) := set_column small (f_cbRecordMost f0) (tag_start w) (w_cols w) (PfieldTagged ptdb fid) fid itag pdata (tagged_grbit derived grbit) in
      (err, with_cols w cs).

Definition set_any (w : ROW) (fid itag : Z) (pdata : option (list Z)) (derived : bool) (grbit : Z) : Z * ROW :=
  if FTagged fid then set_tagged w fid itag pdata derived grbit
  else after w fid (if FFixed fid then set_fixed ptdb rd f0 (record_of small w) fid pdata else set_var ptdb rd f0 (record_of small w) fid pdata).

(** ** The cursor *)

Record cursor_row (f : FUCB) (w : ROW) : Prop := {
  cr_at : cursor_at ptdb f (record_of small w);
  cr_ok : Forall (col_ok small) (w_cols w);
  cr_sorted : StronglySorted (fun c d => col_key c < col_key d) (w_cols w);
  cr_set : rgbitSet f = w_set w /\ fAnyColumnSet f = w_any w
}.

(** What does not change: the limits, and memory outside the work buffer. *)
Definition stays (f f' : FUCB) : Prop :=
  pv (dataWorkBuf f') = pv (dataWorkBuf f) /\ cbPage f' = cbPage f /\ CbKeyMost f' = CbKeyMost f /\ FFUCBMustSetAutoIncPrepared f' = FFUCBMustSetAutoIncPrepared f /\
  same_outside (pv (dataWorkBuf f)) (pv (dataWorkBuf f) + f_cbRecordMost f) (f_m f) (f_m f').

Lemma stays_refl f : stays f f.
Proof. do 4 (split; [reflexivity|]). apply same_outside_refl. Qed.

Lemma stays_trans f1 f2 f3 : stays f1 f2 -> stays f2 f3 -> stays f1 f3.
Proof.
  intros (A1 & A2 & A3 & A4 & A5) (B1 & B2 & B3 & B4 & B5). do 4 (split; [congruence|]). unfold f_cbRecordMost in *. rewrite A1, A2, A3 in B5. exact (same_outside_trans _ _ _ _ _ A5 B5).
Qed.

Lemma moves_stays f fid (b : bool) f' : moves (if b then FUCBSetColumnSet f fid else f) f' -> stays f f'.
Proof. intros [E X]. rewrite E. destruct b; do 4 (split; [reflexivity|]); exact X. Qed.

Lemma stays_fits f f' : stays f f' -> cursor_fits f -> cursor_fits f'.
Proof. intros (_ & A2 & A3 & _). unfold cursor_fits, f_cbRecordMost, CbRecordMostCHECK. now rewrite A2, A3. Qed.

Section Refine.
Hypothesis S : schema_ok ptdb.

(** ** Tagged columns *)

Section Tagged.
Variables (f : FUCB) (w : ROW).
Hypothesis Ep : cbPage f = cbPage f0.
Hypothesis F : cursor_fits f.
Hypothesis C : cursor_row f w.

Let r := record_of small w.
Let pb := pv (dataWorkBuf f).
Let rg := pb + fixed_end ptdb (nfixed r) + 2 * nvar r + zlen (var_data (r_var r)).

Definition row_tagfields : TAGFIELDS := Tagfields (f_m f) rg (size (map (entry_of small) (w_cols w))) (zlen (w_cols w)) (cb (dataWorkBuf f)).

Lemma rg_size : rg + size (map (entry_of small) (w_cols w)) = pb + rec_size ptdb r.
Proof. unfold rec_size, rg. change (r_tag r) with (tag_bytes small (w_cols w)). rewrite zlen_tag_bytes. lia. Qed.

Lemma rg_range : pb + 4 <= rg.
Proof. pose proof (ca_ok _ _ _ (cr_at _ _ C)) as O. fold r in O. pose proof (fixed_end_range ptdb S r O). pose proof (nvar_range ptdb r O). pose proof (zlen_nonneg (var_data (r_var r))). unfold rg. lia. Qed.

Lemma row_fits : rec_size ptdb r <= f_cbRecordMost f <= maskIb small.
Proof. split; [apply (ca_fits _ _ _ (cr_at _ _ C))|]. unfold small. rewrite <- Ep. apply F. Qed.

Lemma row_cols : cols small row_tagfields (w_cols w) /\ room small (f_cbRecordMost f) row_tagfields.
Proof.
  pose proof (cr_at _ _ C) as A. pose proof (ca_holds _ _ _ A) as R. pose proof rg_size as Sz. pose proof rg_range as Rr. pose proof row_fits as Ft. pose proof (hr_tag _ _ _ _ R) as T. change (r_tag (record_of small w)) with (tag_bytes small (w_cols w)) in T. fold r in T. fold pb rg in T.
  unfold tag_bytes in T. cbv zeta in T. rewrite holds_app, zlen_entries in T. split.
  - split; [|apply C|apply C]. split; cbn [row_tagfields tf_m CTaggedColumns CbTaggedColumns m_rgtagfld].
    + apply R.
    + apply entries_of_ok; [apply C|]. eapply holds_bytes_ok; [apply R|apply T].
    + unfold zlen. now rewrite length_map.
    + reflexivity.
    + lia.
    + apply T.
    + apply T.
  - unfold room. cbn [row_tagfields CbTaggedColumns dataWorkBuf_Cb]. rewrite (ca_cb _ _ _ A). fold r. split; [lia|apply Ft].
Qed.

Lemma row_TAGFIELDS_new : TAGFIELDS_new small (f_m f) (dataWorkBuf f) = row_tagfields.
Proof.
  destruct row_cols as [Cc _]. pose proof (cr_at _ _ C) as A. pose proof rg_size as Sz. pose proof (TAGFIELDS_new_spec small row_tagfields (w_cols w) pb Cc) as X. cbn [row_tagfields tf_m m_rgtagfld dataWorkBuf_Cb CbTaggedColumns] in X.
  etransitivity; [|apply X]; [f_equal; exact (data_eta _)| |rewrite (ca_cb _ _ _ A); fold r; lia]. exact (at_PbTaggedData _ S _ _ _ (ca_ok _ _ _ A) (ca_holds _ _ _ A)).
Qed.

(** The record after an update of its tagged columns. *)
Lemma row_refined t' cs' : refines small (f_cbRecordMost f) row_tagfields cs' t' ->
  moves f (with_record f (tf_m t') (dataWorkBuf_Cb t')) /\ cursor_row (with_record f (tf_m t') (dataWorkBuf_Cb t')) (with_cols w cs').
Proof.
  intros (Cc & [W1 W2] & E1 & E2 & So). cbn [row_tagfields m_rgtagfld dataWorkBuf_Cb CbTaggedColumns tf_m] in W1, W2, E1, E2, So. pose proof (cr_at _ _ C) as A. pose proof (ca_holds _ _ _ A) as R. fold r in R. fold pb in R. pose proof (ca_ok _ _ _ A) as O. fold r in O.
  pose proof rg_size as Sz. pose proof rg_range as Rr. rewrite (ca_cb _ _ _ A) in E2, So. fold r in E2, So. pose proof (cols_rep _ _ _ Cc) as Rp. pose proof (rep_cb _ _ _ Rp) as Cb'.
  assert (Rs : rec_size ptdb (record_of small (with_cols w cs')) = dataWorkBuf_Cb t').
  { unfold rec_size in *. change (nfixed (record_of small (with_cols w cs'))) with (nfixed r). change (nvar (record_of small (with_cols w cs'))) with (nvar r). change (r_var (record_of small (with_cols w cs'))) with (r_var r).
    change (r_tag (record_of small (with_cols w cs'))) with (tag_bytes small cs'). rewrite zlen_tag_bytes. unfold rg in Sz. lia. }
  replace (rg + (f_cbRecordMost f - (rec_size ptdb r - size (map (entry_of small) (w_cols w))))) with (pb + f_cbRecordMost f) in So by lia.
  split; [apply moves_with; fold pb; eapply same_outside_weaken; [exact So|lia..]|]. split; [|apply Cc|apply Cc|apply C]. rewrite <- Rs. destruct F as (F1 & _). apply cursor_with; [|constructor; [apply O|apply O|lia]|lia].
  assert (Fr : forall a, a < rg -> tf_m t' a = f_m f a) by (intros a Ha; apply So; lia).
  change (record_of small (with_cols w cs')) with (Rcd (r_fixed r) (r_var r) (tag_bytes small cs')). pose proof (zlen_nonneg (var_data (r_var r))) as Zd. pose proof (nvar_range ptdb r O) as Nr. pose proof (fixed_end_range ptdb S r O) as Fe. fold (nvar r).
  apply (with_var_holds ptdb S (f_m f)); try assumption; fold pb (nvar r); fold rg.
  - apply Rp.
  - intros a Ha _. apply Fr. unfold rg. lia.
  - rewrite Fr by lia. apply R.
  - destruct (var_at_record ptdb _ _ _ R) as [V1 V2]. split; [apply (holds_ext (f_m f)); [exact V1|]; rewrite zlen_var_words|apply (holds_ext (f_m f)); [exact V2|]]; intros a Ha; symmetry; apply Fr; unfold rg, nvar in *; lia.
  - unfold tag_bytes. cbv zeta. rewrite holds_app, zlen_entries, <- E1. split; apply Rp.
Qed.

Lemma touch_row fid : cursor_row (FUCBSetColumnSet f fid) (touch w fid).
Proof.
  destruct C as [A K1 K2 [K3 K4]]. split; [now apply cursor_set_bit|exact K1|exact K2|]. split; [|reflexivity]. cbn [FUCBSetColumnSet rgbitSet touch w_set]. now rewrite K3.
Qed.
End Tagged.

(** ** Setting a column *)

Definition same_cursor (f : FUCB) : Prop :=
  cbPage f = cbPage f0 /\ CbKeyMost f = CbKeyMost f0 /\ FFUCBMustSetAutoIncPrepared f = FFUCBMustSetAutoIncPrepared f0.

Lemma same_cursor_most f : same_cursor f -> f_cbRecordMost f = f_cbRecordMost f0.
Proof. intros (E1 & E2 & _). unfold f_cbRecordMost. now rewrite E1, E2. Qed.

Lemma same_cursor_stays f f' : same_cursor f -> stays f f' -> same_cursor f'.
Proof. intros (A1 & A2 & A3) (_ & B1 & B2 & B3 & _). repeat split; congruence. Qed.

(** The result is the one of the specification, and the cursor has its row. *)
Definition does (f : FUCB) (res : Z * FUCB) (spec : Z * ROW) : Prop := fst res = fst spec /\ stays f (snd res) /\ cursor_row (snd res) (snd spec).

(** What the callers promise of a value. *)
Record call_ok (w : ROW) (fid itag : Z) (pdata : option (list Z)) (derived : bool) (grbit : Z) : Prop := {
  co_bytes : forall d, pdata = Some d -> bytes_ok d;
  co_tagged : FTagged fid = true -> set_ok (w_cols w) (PfieldTagged ptdb fid) fid itag pdata (tagged_grbit derived grbit)
}.

Section Ops.
Variables (f : FUCB) (w : ROW) (fid itag : Z) (pdata : option (list Z)) (derived : bool) (grbit : Z).
Hypothesis E0 : same_cursor f.
Hypothesis F : cursor_fits f.
Hypothesis C : cursor_row f w.
Hypothesis D : defaults_ok ptdb (CbRecordMostCHECK (cbPage f)) rd.
Hypothesis K : call_ok w fid itag pdata derived grbit.

Lemma set_tagged_spec : FTagged fid = true -> does f (ErrRECISetTaggedColumn ptdb f fid itag pdata derived grbit) (set_tagged w fid itag pdata derived grbit).
Proof.
  intros Hf. pose proof (co_tagged _ _ _ _ _ _ K Hf) as Ok. pose proof (same_cursor_most f E0) as Em. pose proof E0 as (Ep & _). unfold ErrRECISetTaggedColumn, set_tagged.
  destruct ((FidTaggedLast ptdb <? fid) || (fid <? FidTaggedFirst ptdb)); cbn [orb]; [split; [reflexivity|split; [apply stays_refl|exact C]]|].
  destruct (FColtypNil ptdb fid); [split; [reflexivity|split; [apply stays_refl|exact C]]|]. fold (is_null pdata). destruct (is_null pdata && _); [split; [reflexivity|split; [apply stays_refl|exact C]]|].
  replace (match pdata with Some d => Cb d | None => 0 end) with (zlen (vbytes pdata)) by now destruct pdata. pose proof (touch_row f w C fid) as C1. set (f1 := FUCBSetColumnSet f fid) in *. assert (St : stays f f1) by apply (moves_stays f fid true), moves_refl.
  unfold tagged_refused. change (CbLVIntrinsicTableMost f1) with (u32 (f_cbRecordMost f - 4 - sizeof_TAGFLD - sizeof_TAGFLD_HEADER)). rewrite Em. fold (CbLVIntrinsicTableMost f0).
  destruct ((0 <? cbMaxLen _) && negb (is_null pdata) && _); [split; [reflexivity|split; [exact St|exact C1]]|].
  destruct ((0 <? zlen (vbytes pdata)) && _); [split; [reflexivity|split; [exact St|exact C1]]|].
  destruct (negb (is_null pdata) && _); [split; [reflexivity|split; [exact St|exact C1]]|]. change (negb (JET_errSuccess =? JET_errSuccess)) with false. cbv iota.
  assert (F1 : cursor_fits f1) by exact F. destruct (row_cols f1 _ Ep F1 C1) as [Cc Rm]. pose proof (row_TAGFIELDS_new f1 _ Ep F1 C1) as En. unfold small in En. rewrite <- Ep in En. change (cbPage f) with (cbPage f1) in En. rewrite En. clear En.
  change (cbPage f1) with (cbPage f). rewrite Ep. fold small. change (f_cbRecordMost f1) with (f_cbRecordMost f). rewrite <- Em. fold (tagged_grbit derived grbit).
  pose proof (ErrSetColumn_spec small (f_cbRecordMost f) _ _ (PfieldTagged ptdb fid) fid itag pdata (tagged_grbit derived grbit) Cc Rm Ok) as (A1 & _ & A3).
  replace (dataWorkBuf_Cb (row_tagfields f1 (touch w fid)) - CbTaggedColumns (row_tagfields f1 (touch w fid))) with (tag_start (touch w fid)) in A1, A3 by (unfold tag_start; cbn [row_tagfields dataWorkBuf_Cb CbTaggedColumns]; rewrite (ca_cb _ _ _ (cr_at _ _ C1)); reflexivity).
  destruct (ErrSetColumn small _ _ _ _ _ _ _) as [errT t]. destruct (set_column small _ _ _ _ _ _ _ _) as [err cs]. cbn [fst snd] in A1, A3. destruct (row_refined f1 _ F1 C1 t cs A3) as [B1 B2].
  split; [exact A1|]. split; [exact (moves_stays f fid true _ B1)|exact B2].
Qed.

Lemma after_spec res oc : implements ptdb f fid res oc -> r_tag (oc_rec oc) = tag_bytes small (w_cols w) -> does f res (after w fid oc).
Proof.
  intros (A1 & A2 & A3) T. split; [exact A1|]. split; [exact (moves_stays f fid _ _ A2)|]. destruct C as [_ K1 K2 [K3 K4]]. destruct oc as [e b r']. cbn [oc_err oc_set oc_rec after snd] in *.
  split; cbn [w_cols]; [|destruct b; exact K1|destruct b; exact K2|].
  - unfold record_of. cbn [w_fixed w_var w_cols]. replace (w_cols (if b then touch w fid else w)) with (w_cols w) by now destruct b. rewrite <- T. now destruct r'.
  - destruct A2 as [-> _]. destruct b; cbn [touch w_set w_any FUCBSetColumnSet with_record rgbitSet fAnyColumnSet]; [now rewrite K3|now split].
Qed.

Lemma set_fixed_tag r : r_tag (oc_rec (set_fixed ptdb rd f0 r fid pdata)) = r_tag r.
Proof.
  unfold set_fixed. destruct (negb _); [reflexivity|]. destruct (_ <? _); [reflexivity|]. assert (E : r_tag (opened_fixed ptdb rd r fid) = r_tag r) by (unfold opened_fixed; now destruct (_ <? _)).
  destruct (fixed_data pdata); [|exact E]. destruct (_ =? _); exact E.
Qed.

Lemma set_var_tag r : r_tag (oc_rec (set_var ptdb rd f0 r fid pdata)) = r_tag r.
Proof.
  unfold set_var. destruct (_ || _); [reflexivity|]. destruct (_ && _); [reflexivity|]. destruct (_ <? _); [reflexivity|]. cbn [oc_rec with_var r_tag]. unfold opened_var. now destruct (_ <? _).
Qed.

Lemma ErrRECSetColumn_spec : does f (ErrRECSetColumn ptdb f fid itag pdata derived grbit) (set_any w fid itag pdata derived grbit).
Proof.
  unfold ErrRECSetColumn, set_any. destruct (FTagged fid) eqn:T; [now apply set_tagged_spec|]. pose proof (co_bytes _ _ _ _ _ _ K) as B. assert (L : same_limits f0 f) by (split; [now apply same_cursor_most|apply E0]). destruct (FFixed fid).
  - apply after_spec; [|apply set_fixed_tag]. exact (ErrRECISetFixedColumn_spec ptdb rd f0 S f _ fid pdata L F (cr_at _ _ C) D B).
  - apply after_spec; [|apply set_var_tag]. exact (ErrRECISetVarColumn_spec ptdb rd f0 S f _ fid pdata L F (cr_at _ _ C) D B).
Qed.
End Ops.
End Refine.
End Row.
