(* ===== verification/RecTheorems.v ===== *)
(** * Records: theorems

    Sequences of updates refine updates of a row of values; every column reads
    as the row says, the ones that take their default value included; an update
    changes one column and an error none. *)

From Stdlib Require Import ZArith List Lia Bool Sorting.Sorted.
From S2P Require Import Prelude Mem Norm NormTheorems TagFld TagFldView TagFldOps TagFldMulti TagFldSearch TagFldSpec TagFldSet TagFldRead TagFldTheorems.
From S2P Require Import Rec RecView RecFixed RecVar RecSpec.
Import ListNotations.

(** ** What an update changes *)

Section Values.
Variable ptdb : TDB.
Hypothesis S : schema_ok ptdb.
Variable rd : RECORD.

Lemma fixed_value_same r r' k : r_fixed r' = r_fixed r -> fixed_value ptdb rd r' k = fixed_value ptdb rd r k.
Proof. intros E. unfold fixed_value, nfixed. now rewrite E. Qed.

Lemma var_value_same r r' k : r_var r' = r_var r -> var_value ptdb rd r' k = var_value ptdb rd r k.
Proof. intros E. unfold var_value, nvar. now rewrite E. Qed.

Lemma fixed_value_with r fid x k : 1 <= fid <= nfixed r -> 1 <= k -> fixed_value ptdb rd (with_fixed r fid x) k = if k =? fid then x else fixed_value ptdb rd r k.
Proof.
  intros H Hk. unfold fixed_value. rewrite nfixed_with by exact H. unfold with_fixed. cbn [r_fixed]. rewrite znth_zset by (unfold nfixed in H; lia).
  destruct (Z.leb_spec k (nfixed r)), (Z.eqb_spec k fid), (Z.eqb_spec (k - 1) (fid - 1)); try reflexivity; lia.
Qed.

(** Extending a record is not seen by a reader. *)
Lemma fixed_value_opened r fid k : 1 <= k -> fixed_value ptdb rd (opened_fixed ptdb rd r fid) k = fixed_value ptdb rd r k.
Proof.
  intros Hk. unfold opened_fixed. destruct (Z.ltb_spec (nfixed r) fid) as [L|L]; [|reflexivity]. unfold fixed_value. rewrite nfixed_extended by lia. unfold extended_fixed. cbn [r_fixed].
  destruct (Z.leb_spec k (nfixed r)), (Z.leb_spec k fid); try lia; [apply znth_app1; unfold nfixed in *; lia| |reflexivity].
  rewrite znth_app2, znth_new_fixed by (unfold nfixed in *; lia). f_equal. unfold nfixed. lia.
Qed.

Lemma var_value_opened r fid k : fid <= FidVarLast ptdb -> fidVarLeast <= k -> k <> fid -> var_value ptdb rd (opened_var ptdb rd r fid) k = var_value ptdb rd r k.
Proof.
  intros Hf Hk Hn. unfold opened_var. destruct (Z.ltb_spec (fidVarNone + nvar r) fid) as [L|L]; [|reflexivity]. unfold var_value. rewrite nvar_extended by lia. unfold extended_var. cbn [r_var].
  assert (Nl : nvar r = Z.of_nat (length (r_var r))) by reflexivity. assert (Zl : zlen (r_var r) = nvar r) by reflexivity. unfold fidVarNone, fidVarLeast in *.
  destruct (Z.leb_spec k (127 + nvar r)), (Z.leb_spec k (127 + (fid - 127))); try lia; [apply znth_app1; lia| |reflexivity]. rewrite znth_app2, Zl by lia. unfold burst, between, fidVarNone.
  rewrite znth_app1 by (rewrite zlen_new_var; lia). unfold znth. rewrite nth_new_var by lia. f_equal. unfold fidVarLeast. lia.
Qed.

Lemma var_value_with r fid y k : fidVarLeast <= fid <= fidVarNone + nvar r -> fidVarLeast <= k -> var_value ptdb rd (with_var r fid y) k = if k =? fid then y else var_value ptdb rd r k.
Proof.
  intros H Hk. unfold var_value. unfold fidVarLeast, fidVarNone in *. assert (Zn : nvar (with_var r fid y) = nvar r) by (unfold nvar, with_var; cbn [r_var]; apply zlen_zset; unfold nvar in H; lia). rewrite Zn.
  unfold with_var. cbn [r_var]. rewrite znth_zset by (unfold nvar in H; lia). destruct (Z.leb_spec k (127 + nvar r)), (Z.eqb_spec k fid), (Z.eqb_spec (k - 128) (fid - 128)); try reflexivity; lia.
Qed.

Lemma opened_var_covers r fid : fid <= FidVarLast ptdb -> fid <= fidVarNone + nvar (opened_var ptdb rd r fid).
Proof. intros Hf. unfold opened_var. destruct (Z.ltb_spec (fidVarNone + nvar r) fid) as [L|L]; [rewrite nvar_extended by lia; lia|exact L]. Qed.

Lemma opened_fixed_covers r fid : fid <= nfixed (opened_fixed ptdb rd r fid).
Proof. unfold opened_fixed. destruct (Z.ltb_spec (nfixed r) fid) as [L|L]; [rewrite nfixed_extended by lia; lia|exact L]. Qed.

(** The value a fixed column gets. *)
Definition stored_fixed (fid : Z) (pdata : option (list Z)) : option (list Z) :=
  match fixed_data pdata with Some d => Some (snd (fixed_image (PfieldFixed ptdb fid) d)) | None => None end.

Lemma set_fixed_changes f0 r fid pdata k : 1 <= k -> let oc := set_fixed ptdb rd f0 r fid pdata in
  r_var (oc_rec oc) = r_var r /\ fixed_value ptdb rd (oc_rec oc) k = if (k =? fid) && (oc_err oc =? JET_errSuccess) then stored_fixed fid pdata else fixed_value ptdb rd r k.
Proof.
  intros Hk oc. subst oc. assert (V : r_var (opened_fixed ptdb rd r fid) = r_var r) by (unfold opened_fixed; now destruct (_ <? _)). unfold set_fixed, stored_fixed.
  destruct (Z.eqb_spec (fixed_refused ptdb fid (fixed_data pdata)) JET_errSuccess) as [E|E]; cbn [negb].
  2:{ cbn [oc_rec oc_err]. rewrite (proj2 (Z.eqb_neq _ _) E), andb_false_r. now split. }
  assert (Hf : 1 <= fid). { unfold fixed_refused in E. pose proof (sc_fixed _ S) as [Sf _]. destruct (Z.ltb_spec (FidFixedLast ptdb) fid), (Z.ltb_spec fid (FidFixedFirst ptdb)); cbn [orb] in E; try discriminate; lia. }
  pose proof (opened_fixed_covers r fid) as Cv. destruct (_ <? _); [cbn [oc_rec oc_err]; change (JET_errRecordTooBig =? JET_errSuccess) with false; rewrite andb_false_r; now split|].
  destruct (fixed_data pdata) as [d|]; [destruct (Z.eqb_spec (fixed_error ptdb f0 fid d) JET_errSuccess) as [E1|E1]|]; cbn [oc_rec oc_err].
  - rewrite E1, Z.eqb_refl, andb_true_r. split; [exact V|]. rewrite fixed_value_with by lia. destruct (k =? fid); [reflexivity|now apply fixed_value_opened].
  - rewrite (proj2 (Z.eqb_neq _ _) E1), andb_false_r. split; [exact V|now apply fixed_value_opened].
  - rewrite Z.eqb_refl, andb_true_r. split; [exact V|]. rewrite fixed_value_with by lia. destruct (k =? fid); [reflexivity|now apply fixed_value_opened].
Qed.

Lemma set_var_changes f0 r fid pdata k : fidVarLeast <= k -> let oc := set_var ptdb rd f0 r fid pdata in
  r_fixed (oc_rec oc) = r_fixed r /\ var_value ptdb rd (oc_rec oc) k = if (k =? fid) && (0 <=? oc_err oc) then var_data_cut ptdb fid pdata else var_value ptdb rd r k.
Proof.
  intros Hk oc. subst oc. assert (V : r_fixed (opened_var ptdb rd r fid) = r_fixed r) by (unfold opened_var; now destruct (_ <? _)). unfold set_var.
  destruct (Z.ltb_spec (FidVarLast ptdb) fid), (Z.ltb_spec fid (FidVarFirst ptdb)); cbn [orb]; try (cbn [oc_rec oc_err]; rewrite andb_false_r; now split).
  destruct (FColtypNil ptdb fid); [cbn [oc_rec oc_err]; rewrite andb_false_r; now split|]. destruct (is_null pdata && _); [cbn [oc_rec oc_err]; rewrite andb_false_r; now split|].
  destruct (_ <? _); [cbn [oc_rec oc_err]; rewrite andb_false_r; now split|]. cbn [oc_rec oc_err]. replace (0 <=? var_warning ptdb fid pdata) with true by (unfold var_warning; destruct pdata; [destruct (_ <? _)|]; reflexivity). rewrite andb_true_r.
  split; [exact V|]. pose proof (sc_var _ S) as [Sv _]. pose proof (opened_var_covers r fid ltac:(lia)). rewrite var_value_with by lia. destruct (Z.eqb_spec k fid) as [|N]; [reflexivity|apply var_value_opened; lia].
Qed.
End Values.

(** ** Sequences of updates *)

Record SETCALL := SetCall { s_fid : Z; s_itag : Z; s_data : option (list Z); s_derived : bool; s_grbit : Z }.

Section Sets.
Context `{Loc : NormLocale}.
Variable ptdb : TDB.

Fixpoint run_sets (f : FUCB) (ks : list SETCALL) : list Z * FUCB :=
  match ks with
  | [] => ([], f)
  | k :: ks =>
      let '(err, f) := ErrRECSetColumn ptdb f (s_fid k) (s_itag k) (s_data k) (s_derived k) (s_grbit k) in
      let '(errs, f) := run_sets f ks in (err :: errs, f)
  end.

Fixpoint spec_sets (rd : RECORD) (f0 : FUCB) (w : ROW) (ks : list SETCALL) : list Z * ROW :=
  match ks with
  | [] => ([], w)
  | k :: ks =>
      let '(err, w) := set_any ptdb rd f0 w (s_fid k) (s_itag k) (s_data k) (s_derived k) (s_grbit k) in
      let '(errs, w) := spec_sets rd f0 w ks in (err :: errs, w)
  end.

(** Each call is one the callers may make. *)
Fixpoint sets_ok (rd : RECORD) (f0 : FUCB) (w : ROW) (ks : list SETCALL) : Prop :=
  match ks with
  | [] => True
  | k :: ks => call_ok ptdb w (s_fid k) (s_itag k) (s_data k) (s_derived k) (s_grbit k) /\
      sets_ok rd f0 (snd (set_any ptdb rd f0 w (s_fid k) (s_itag k) (s_data k) (s_derived k) (s_grbit k))) ks
  end.

Lemma run_sets_spec rd f0 ks : schema_ok ptdb -> forall f w, same_cursor f0 f -> cursor_fits f -> cursor_row ptdb f0 f w -> defaults_ok ptdb (CbRecordMostCHECK (cbPage f)) rd -> sets_ok rd f0 w ks ->
  fst (run_sets f ks) = fst (spec_sets rd f0 w ks) /\ stays f (snd (run_sets f ks)) /\ cursor_row ptdb f0 (snd (run_sets f ks)) (snd (spec_sets rd f0 w ks)).
Proof.
  intros S. induction ks as [|k ks IH]; intros f w E F C D H; [split; [reflexivity|split; [apply stays_refl|exact C]]|]. destruct H as [H1 H2]. cbn [run_sets spec_sets].
  destruct (ErrRECSetColumn_spec ptdb rd f0 S f w (s_fid k) (s_itag k) (s_data k) (s_derived k) (s_grbit k) E F C D H1) as (A1 & A2 & A3).
  destruct (ErrRECSetColumn _ _ _ _ _ _ _) as [err f1]. destruct (set_any _ _ _ _ _ _ _ _ _) as [err' w1]. cbn [fst snd] in *. subst err'. pose proof A2 as (_ & Ep & _).
  destruct (IH f1 w1 (same_cursor_stays _ _ _ E A2) (stays_fits _ _ A2 F) A3 ltac:(now rewrite Ep) H2) as (B1 & B2 & B3). destruct (run_sets f1 ks) as [errs f2]. destruct (spec_sets rd f0 w1 ks) as [errs' w2]. cbn [fst snd] in *.
  split; [cbn [fst]; now rewrite B1|]. split; [exact (stays_trans _ _ _ A2 B2)|exact B3].
Qed.

Lemma same_cursor_refl f : same_cursor f f.
Proof. repeat split. Qed.

(** What the readers return for a cursor that has a row. *)
Lemma row_fixed_read rd f w fid : schema_ok ptdb -> cursor_fits f -> defaults_ok ptdb (CbRecordMostCHECK (cbPage f)) rd -> cursor_row ptdb f f w ->
  1 <= fid <= FidFixedLast ptdb -> FFIELDCommittedDelete (ffield (PfieldFixed ptdb fid)) = false ->
  returns ptdb (f_m f) (fixed_value ptdb rd (record_of (FIsSmallPage (cbPage f)) w) fid) (ErrRECIRetrieveFixedColumn 2 (CbRecordMostCHECK (cbPage f)) ptdb (f_m f) (dataWorkBuf f) fid).
Proof.
  intros S F D C H1 H2. pose proof (cr_at _ _ _ _ C) as A. pose proof (ca_fits _ _ _ A). destruct F as (_ & F2 & _). apply ErrRECIRetrieveFixedColumn_spec; try assumption; try apply A. rewrite (ca_cb _ _ _ A). lia.
Qed.

Lemma row_var_read rd f w fid : schema_ok ptdb -> cursor_fits f -> defaults_ok ptdb (CbRecordMostCHECK (cbPage f)) rd -> cursor_row ptdb f f w ->
  fidVarLeast <= fid <= FidVarLast ptdb -> FFIELDCommittedDelete (ffield (PfieldVar ptdb fid)) = false ->
  returns ptdb (f_m f) (var_value ptdb rd (record_of (FIsSmallPage (cbPage f)) w) fid) (ErrRECIRetrieveVarColumn 2 (CbRecordMostCHECK (cbPage f)) ptdb (f_m f) (dataWorkBuf f) fid).
Proof.
  intros S F D C H1 H2. pose proof (cr_at _ _ _ _ C) as A. pose proof (ca_fits _ _ _ A). destruct F as (_ & F2 & _). apply ErrRECIRetrieveVarColumn_spec; try assumption; try apply A. rewrite (ca_cb _ _ _ A). lia.
Qed.

Lemma row_tagged_read f w df fid itag grbit derived : schema_ok ptdb -> cursor_fits f -> cursor_row ptdb f f w -> FTagged fid = true -> 1 <= itag ->
  delivers (TAGFIELDS_new (FIsSmallPage (cbPage f)) (f_m f) (dataWorkBuf f)) (retrieve_column (w_cols w) df fid derived itag grbit)
    (ErrRECIRetrieveTaggedColumn (cbPage f) (f_m f) (dataWorkBuf f) df fid itag grbit derived).
Proof.
  intros S F C T Hi. pose proof (cr_at _ _ _ _ C) as A. unfold ErrRECIRetrieveTaggedColumn. pose proof (bad_size_cursor ptdb S f _ F A) as B. unfold bad_size in B. rewrite B.
  rewrite (row_TAGFIELDS_new ptdb f S f w eq_refl F C). apply ErrRetrieveColumn_spec; [|exact T|exact Hi]. exact (proj1 (row_cols ptdb f S f w eq_refl F C)).
Qed.

(** The other cursor of the specification does not matter. *)
Lemma cursor_row_same f0 f w : cbPage f = cbPage f0 -> cursor_row ptdb f0 f w -> cursor_row ptdb f f w.
Proof. intros E [A B C D]. rewrite <- E in *. now split. Qed.
End Sets.

(** C2: any sequence of updates of columns by ErrRECSetColumn - fixed, variable
    and tagged ones, of any values, to null, in any order - is the same sequence
    of updates of the lists of values of the row: the same error codes and
    warnings, and a work buffer that holds the resulting record in the format of
    its header, offsets and null bits, within the largest size. Columns that are
    skipped get their default values. Nothing outside the work buffer is
    written, and the bits of the columns that were set are those of the row. *)
Theorem record_updates_refine_rows (Loc : NormLocale) ptdb rd f w ks :
  schema_ok ptdb -> cursor_fits f -> defaults_ok ptdb (CbRecordMostCHECK (cbPage f)) rd -> cursor_row ptdb f f w -> sets_ok ptdb rd f w ks ->
  let r := run_sets ptdb f ks in let s := spec_sets ptdb rd f w ks in
  fst r = fst s /\ stays f (snd r) /\ cursor_row ptdb f (snd r) (snd s).
Proof. intros S F D C H. exact (run_sets_spec ptdb rd f ks S f w (same_cursor_refl f) F C D H). Qed.

(** C16: the readers of columns return what the row of the record says: for a
    fixed or variable column its value, null with the warning for it, or for a
    column the record does not contain the default value, from the default
    record; the recursion into the default record ends. For a tagged column the
    value with the number asked for, or what is returned instead. *)
Theorem record_columns_are_read (Loc : NormLocale) ptdb rd f w :
  schema_ok ptdb -> cursor_fits f -> defaults_ok ptdb (CbRecordMostCHECK (cbPage f)) rd -> cursor_row ptdb f f w ->
  let r := record_of (FIsSmallPage (cbPage f)) w in
  (forall fid, 1 <= fid <= FidFixedLast ptdb -> FFIELDCommittedDelete (ffield (PfieldFixed ptdb fid)) = false ->
     returns ptdb (f_m f) (fixed_value ptdb rd r fid) (ErrRECIRetrieveFixedColumn 2 (CbRecordMostCHECK (cbPage f)) ptdb (f_m f) (dataWorkBuf f) fid)) /\
  (forall fid, fidVarLeast <= fid <= FidVarLast ptdb -> FFIELDCommittedDelete (ffield (PfieldVar ptdb fid)) = false ->
     returns ptdb (f_m f) (var_value ptdb rd r fid) (ErrRECIRetrieveVarColumn 2 (CbRecordMostCHECK (cbPage f)) ptdb (f_m f) (dataWorkBuf f) fid)) /\
  (forall df fid itag grbit derived, FTagged fid = true -> 1 <= itag ->
     delivers (TAGFIELDS_new (FIsSmallPage (cbPage f)) (f_m f) (dataWorkBuf f)) (retrieve_column (w_cols w) df fid derived itag grbit)
       (ErrRECIRetrieveTaggedColumn (cbPage f) (f_m f) (dataWorkBuf f) df fid itag grbit derived)).
Proof.
  intros S F D C r. split; [|split]; intros.
  - now apply row_fixed_read.
  - now apply row_var_read.
  - now apply (row_tagged_read ptdb f w).
Qed.

(** ** One update *)

Section OneSet.
Context `{Loc : NormLocale}.
Variables (ptdb : TDB) (rd : RECORD) (f0 : FUCB) (w : ROW) (fid itag : Z) (pdata : option (list Z)) (derived : bool) (grbit : Z).
Hypothesis S : schema_ok ptdb.
Abbreviation small := (FIsSmallPage (cbPage f0)).
Abbreviation res := (set_any ptdb rd f0 w fid itag pdata derived grbit).

Lemma column_key_apart k dk l dl : FTagged k = true -> FTagged l = true -> k <> l -> column_key k dk <> column_key l dl.
Proof. intros Hk Hl N. pose proof (FTagged_range _ Hk). pose proof (FTagged_range _ Hl). unfold column_key. destruct dk, dl; lia. Qed.

Lemma set_any_tagged : FTagged fid = true ->
  w_fixed (snd res) = w_fixed w /\ w_var (snd res) = w_var w /\ (w_cols (snd res) = w_cols w \/ fst res = JET_errSuccess /\ exists d o, w_cols (snd res) = put_col (w_cols w) fid d o).
Proof.
  intros T. unfold set_any, set_tagged. rewrite T. destruct (_ || _); [now repeat split; left|]. destruct (_ && _); [now repeat split; left|]. destruct (negb _); [now repeat split; left|].
  unfold set_column. destruct (new_value _ _ _ _ _ _) as [err|o]; [now repeat split; left|]. destruct (_ <? _); [now repeat split; left|]. split; [reflexivity|]. split; [reflexivity|]. right. split; [reflexivity|]. now eexists _, _.
Qed.

Lemma FFixed_range : FFixed fid = true -> 1 <= fid <= 127.
Proof. unfold FFixed, fidFixedLeast, fidFixedMost. rewrite andb_true_iff, !Z.leb_le. lia. Qed.

(** The values of all columns after the update. *)
Lemma set_any_fixed k : 1 <= k -> k <> fid \/ fst res < 0 -> fixed_value ptdb rd (record_of small (snd res)) k = fixed_value ptdb rd (record_of small w) k.
Proof.
  intros Hk H. unfold set_any in *. destruct (FTagged fid) eqn:T; [apply fixed_value_same; pose proof (set_any_tagged T) as X; unfold set_any in X; rewrite T in X; apply X|].
  destruct (FFixed fid) eqn:Ff; cbn [after fst snd oc_err oc_rec] in *.
  - pose proof (set_fixed_changes ptdb S rd f0 (record_of small w) fid pdata k Hk) as [_ X]. match goal with |- fixed_value _ _ ?x _ = _ => rewrite (fixed_value_same ptdb rd (oc_rec (set_fixed ptdb rd f0 (record_of small w) fid pdata)) x k eq_refl) end; rewrite X. destruct (Z.eqb_spec k fid) as [E|N]; [|reflexivity]. cbn [andb].
    destruct (Z.eqb_spec (oc_err (set_fixed ptdb rd f0 (record_of small w) fid pdata)) JET_errSuccess) as [E1|E1]; [|reflexivity]. destruct H as [H|H]; [contradiction|]. unfold JET_errSuccess in E1. lia.
  - pose proof (set_var_changes ptdb S rd f0 (record_of small w) fid pdata 128 ltac:(unfold fidVarLeast; lia)) as [X _]. apply fixed_value_same. exact X.
Qed.

Lemma set_any_var k : fidVarLeast <= k -> k <> fid \/ fst res < 0 -> var_value ptdb rd (record_of small (snd res)) k = var_value ptdb rd (record_of small w) k.
Proof.
  intros Hk H. unfold set_any in *. destruct (FTagged fid) eqn:T; [apply var_value_same; pose proof (set_any_tagged T) as X; unfold set_any in X; rewrite T in X; apply X|].
  destruct (FFixed fid) eqn:Ff; cbn [after fst snd oc_err oc_rec] in *.
  - pose proof (set_fixed_changes ptdb S rd f0 (record_of small w) fid pdata 1 ltac:(lia)) as [X _]. apply var_value_same. exact X.
  - pose proof (set_var_changes ptdb S rd f0 (record_of small w) fid pdata k Hk) as [_ X]. match goal with |- var_value _ _ ?x _ = _ => rewrite (var_value_same ptdb rd (oc_rec (set_var ptdb rd f0 (record_of small w) fid pdata)) x k eq_refl) end; rewrite X. destruct (Z.eqb_spec k fid) as [E|N]; [|reflexivity]. cbn [andb].
    destruct (Z.leb_spec 0 (oc_err (set_var ptdb rd f0 (record_of small w) fid pdata))) as [E1|E1]; [|reflexivity]. destruct H as [H|H]; [contradiction|lia].
Qed.

Lemma set_any_cols df k itag' grbit' derived' : FTagged k = true -> k <> fid \/ fst res < 0 -> retrieve_column (w_cols (snd res)) df k derived' itag' grbit' = retrieve_column (w_cols w) df k derived' itag' grbit'.
Proof.
  intros Tk H. destruct (FTagged fid) eqn:T.
  - destruct (set_any_tagged T) as (_ & _ & [->|(E & d & o & ->)]); [reflexivity|]. destruct H as [H|H]; [|unfold JET_errSuccess in E; lia]. unfold retrieve_column. rewrite (lookup_put_other (w_cols w) fid d o k derived'); [reflexivity|now apply column_key_apart].
  - unfold set_any. rewrite T. unfold after. cbn [snd w_cols]. destruct (FFixed fid); destruct (oc_set _); reflexivity.
Qed.

(** The value the column itself gets. *)
Lemma set_any_stored : FTagged fid = false -> 0 <= fst res ->
  if FFixed fid then fixed_value ptdb rd (record_of small (snd res)) fid = stored_fixed ptdb fid pdata \/ fst res <> JET_errSuccess
  else fidVarLeast <= fid -> var_value ptdb rd (record_of small (snd res)) fid = var_data_cut ptdb fid pdata.
Proof.
  intros T Hr. unfold set_any in *. rewrite T in *. destruct (FFixed fid) eqn:Ff; cbn [after fst snd] in *.
  - pose proof (FFixed_range Ff). pose proof (set_fixed_changes ptdb S rd f0 (record_of small w) fid pdata fid ltac:(lia)) as [_ X].
    destruct (Z.eqb_spec (oc_err (set_fixed ptdb rd f0 (record_of small w) fid pdata)) JET_errSuccess) as [E|E]; [left|now right]. match goal with |- fixed_value _ _ ?x _ = _ => rewrite (fixed_value_same ptdb rd (oc_rec (set_fixed ptdb rd f0 (record_of small w) fid pdata)) x fid eq_refl) end; rewrite X, Z.eqb_refl; reflexivity.
  - intros Hv. pose proof (set_var_changes ptdb S rd f0 (record_of small w) fid pdata fid Hv) as [_ X]. match goal with |- var_value _ _ ?x _ = _ => rewrite (var_value_same ptdb rd (oc_rec (set_var ptdb rd f0 (record_of small w) fid pdata)) x fid eq_refl) end; rewrite X, Z.eqb_refl, (proj2 (Z.leb_le _ _) Hr). reflexivity.
Qed.
End OneSet.

(** The bit of a column is set with it. *)
Lemma IbitHash_byte fid : 1 <= IbitHash fid < 256.
Proof.
  assert (B : forall x, 1 <= Z.shiftl 1 (x mod 8) < 256).
  { intros x. rewrite Z.shiftl_1_l. pose proof (Z.mod_pos_bound x 8 ltac:(lia)) as H. pose proof (Z.pow_le_mono_r 2 (x mod 8) 7 ltac:(lia) ltac:(lia)) as L. change (2 ^ 7) with 128 in L. pose proof (Z.pow_pos_nonneg 2 (x mod 8) ltac:(lia) ltac:(lia)). lia. }
  unfold IbitHash. destruct (FFixed fid); [apply B|]. destruct (FVar fid); apply B.
Qed.

Lemma FUCBSetColumnSet_sets f fid : FFUCBColumnSet (FUCBSetColumnSet f fid) fid = true.
Proof.
  assert (P : exists k, 0 <= k < 8 /\ IbitHash fid = Z.shiftl 1 k).
  { unfold IbitHash. destruct (FFixed fid); [|destruct (FVar fid)]; eexists; (split; [|reflexivity]); apply Z.mod_pos_bound; lia. }
  destruct P as (k & Hk & E). unfold FFUCBColumnSet, FUCBSetColumnSet. cbn [rgbitSet]. unfold load8. rewrite store8_at, Z.eqb_refl, E, fbit_bit, testbit_byte, Z.lor_spec, testbit_bit, Z.eqb_refl by lia. apply orb_true_r.
Qed.

(** C8: an update of a column by ErrRECSetColumn changes what is read of no other
    column, and if it fails of none at all, whatever error it ends with and
    however far the record was extended before: for every other column - for
    every column if the result is an error - the readers return from the work
    buffer the value the record had before. *)
Theorem set_column_keeps_the_others (Loc : NormLocale) ptdb rd f w fid itag pdata derived grbit :
  schema_ok ptdb -> cursor_fits f -> defaults_ok ptdb (CbRecordMostCHECK (cbPage f)) rd -> cursor_row ptdb f f w -> call_ok ptdb w fid itag pdata derived grbit ->
  let r := ErrRECSetColumn ptdb f fid itag pdata derived grbit in
  let before := record_of (FIsSmallPage (cbPage f)) w in
  (forall k, 1 <= k <= FidFixedLast ptdb -> k <> fid \/ fst r < 0 -> FFIELDCommittedDelete (ffield (PfieldFixed ptdb k)) = false ->
     returns ptdb (f_m (snd r)) (fixed_value ptdb rd before k) (ErrRECIRetrieveFixedColumn 2 (CbRecordMostCHECK (cbPage f)) ptdb (f_m (snd r)) (dataWorkBuf (snd r)) k)) /\
  (forall k, fidVarLeast <= k <= FidVarLast ptdb -> k <> fid \/ fst r < 0 -> FFIELDCommittedDelete (ffield (PfieldVar ptdb k)) = false ->
     returns ptdb (f_m (snd r)) (var_value ptdb rd before k) (ErrRECIRetrieveVarColumn 2 (CbRecordMostCHECK (cbPage f)) ptdb (f_m (snd r)) (dataWorkBuf (snd r)) k)) /\
  (forall df k itag' grbit' derived', FTagged k = true -> k <> fid \/ fst r < 0 -> 1 <= itag' ->
     delivers (TAGFIELDS_new (FIsSmallPage (cbPage f)) (f_m (snd r)) (dataWorkBuf (snd r))) (retrieve_column (w_cols w) df k derived' itag' grbit')
       (ErrRECIRetrieveTaggedColumn (cbPage f) (f_m (snd r)) (dataWorkBuf (snd r)) df k itag' grbit' derived')).
Proof.
  intros S F D C K r before. destruct (ErrRECSetColumn_spec ptdb rd f S f w fid itag pdata derived grbit (same_cursor_refl f) F C D K) as (E & St & C'). fold r in E, St, C'. pose proof St as (_ & Ep & _).
  pose proof (stays_fits _ _ St F) as F'. pose proof (cursor_row_same ptdb f (snd r) _ Ep C') as C1. rewrite E. unfold before. split; [|split].
  - intros k Hk H Hd. rewrite <- (set_any_fixed ptdb rd f w fid itag pdata derived grbit S k ltac:(lia) H), <- Ep. rewrite <- Ep in D. now apply row_fixed_read.
  - intros k Hk H Hd. rewrite <- (set_any_var ptdb rd f w fid itag pdata derived grbit S k ltac:(lia) H), <- Ep. rewrite <- Ep in D. now apply row_var_read.
  - intros df k itag' grbit' derived' T H Hi. rewrite <- (set_any_cols ptdb rd f w fid itag pdata derived grbit df k itag' grbit' derived' T H), <- Ep. now apply (row_tagged_read ptdb (snd r)).
Qed.

(** C17: a value that ErrRECSetColumn stores in a fixed or variable column is read
    back: of a fixed column the bytes of its type, a bit as one byte and a text
    or binary value padded to the length of the column, of a variable column the
    bytes as far as they fit into its maximum length, with the warning for a
    value that was cut; a null as null. The column is then marked as set. *)
Theorem set_column_reads_back (Loc : NormLocale) ptdb rd f w fid itag pdata derived grbit :
  schema_ok ptdb -> cursor_fits f -> defaults_ok ptdb (CbRecordMostCHECK (cbPage f)) rd -> cursor_row ptdb f f w -> call_ok ptdb w fid itag pdata derived grbit ->
  let r := ErrRECSetColumn ptdb f fid itag pdata derived grbit in
  (1 <= fid <= FidFixedLast ptdb -> FFIELDCommittedDelete (ffield (PfieldFixed ptdb fid)) = false -> fst r = JET_errSuccess ->
     returns ptdb (f_m (snd r)) (stored_fixed ptdb fid pdata) (ErrRECIRetrieveFixedColumn 2 (CbRecordMostCHECK (cbPage f)) ptdb (f_m (snd r)) (dataWorkBuf (snd r)) fid) /\ FFUCBColumnSet (snd r) fid = true) /\
  (fidVarLeast <= fid <= FidVarLast ptdb -> FFIELDCommittedDelete (ffield (PfieldVar ptdb fid)) = false -> 0 <= fst r ->
     returns ptdb (f_m (snd r)) (var_data_cut ptdb fid pdata) (ErrRECIRetrieveVarColumn 2 (CbRecordMostCHECK (cbPage f)) ptdb (f_m (snd r)) (dataWorkBuf (snd r)) fid) /\ FFUCBColumnSet (snd r) fid = true /\ fst r = var_warning ptdb fid pdata).
Proof.
  intros S F D C K r. destruct (ErrRECSetColumn_spec ptdb rd f S f w fid itag pdata derived grbit (same_cursor_refl f) F C D K) as (E & St & C'). fold r in E, St, C'. pose proof St as (_ & Ep & _).
  pose proof (stays_fits _ _ St F) as F'. pose proof (cursor_row_same ptdb f (snd r) _ Ep C') as C1. pose proof (sc_fixed _ S) as [_ Sf]. pose proof (sc_var _ S) as [_ Sv]. unfold fidFixedMost, fidVarMost, fidVarLeast in *.
  pose proof (set_any_stored ptdb rd f w fid itag pdata derived grbit S) as X. rewrite E.
  assert (Bit : FTagged fid = false -> oc_set (if FFixed fid then set_fixed ptdb rd f (record_of (FIsSmallPage (cbPage f)) w) fid pdata else set_var ptdb rd f (record_of (FIsSmallPage (cbPage f)) w) fid pdata) = true -> FFUCBColumnSet (snd r) fid = true).
  { intros T B. destruct (cr_set _ _ _ _ C1) as [B1 _]. destruct (cr_set _ _ _ _ C) as [B2 _]. unfold FFUCBColumnSet. rewrite B1. unfold set_any. rewrite T. unfold after. cbn [snd w_set]. rewrite B. cbn [touch w_set]. rewrite <- B2. apply (FUCBSetColumnSet_sets f fid). }
  split.
  - intros H1 H2 H3. assert (T : FTagged fid = false) by (unfold FTagged; apply andb_false_iff; left; apply Z.leb_gt; lia). assert (Ff : FFixed fid = true) by (unfold FFixed, fidFixedLeast, fidFixedMost; rewrite andb_true_iff, !Z.leb_le; lia).
    specialize (X T ltac:(rewrite H3; reflexivity || lia)). rewrite Ff in *. destruct X as [X|X]; [|now destruct X]. split.
    + rewrite <- X, <- Ep. rewrite <- Ep in D. now apply row_fixed_read.
    + apply Bit; [exact T|]. unfold set_any in H3. rewrite T, Ff in H3. cbn [after fst] in H3. unfold set_fixed in *. destruct (Z.eqb_spec (fixed_refused ptdb fid (fixed_data pdata)) JET_errSuccess) as [E1|E1]; cbn [negb] in *; [|cbn [oc_err] in H3; contradiction].
      destruct (_ <? _); [reflexivity|]. destruct (fixed_data pdata); [destruct (_ =? _)|]; reflexivity.
  - intros H1 H2 H3. assert (T : FTagged fid = false) by (unfold FTagged; apply andb_false_iff; left; apply Z.leb_gt; lia). assert (Ff : FFixed fid = false) by (unfold FFixed, fidFixedLeast, fidFixedMost; apply andb_false_iff; right; apply Z.leb_gt; lia).
    specialize (X T H3). rewrite Ff in *. specialize (X ltac:(unfold fidVarLeast; lia)). split; [rewrite <- X, <- Ep; rewrite <- Ep in D; now apply row_var_read|]. unfold set_any in *. rewrite T, Ff in *. cbn [after fst] in *. unfold set_var in *.
    destruct (_ || _); [cbn [oc_err] in H3; discriminate || (exfalso; now apply H3)|]. destruct (is_null pdata && _); [cbn [oc_err] in H3; exfalso; now apply H3|]. destruct (_ <? _); [cbn [oc_err] in H3; exfalso; now apply H3|].
    split; [now apply Bit|reflexivity].
Qed.

(** ** An example *)

Lemma load_holds m a l : load_bytes m a (zlen l) = l -> holds m a l.
Proof. intros E. rewrite <- E. apply holds_load_bytes. Qed.

(** An empty record. *)
Lemma SetMinimumRecord_holds ptdb m d : schema_ok ptdb -> mem_ok m -> holds_record ptdb (fst (SetMinimumRecord m d)) (pv d) (Rcd [] [] []).
Proof.
  intros S Hm. unfold SetMinimumRecord, cbRecordMin. cbn [fst]. set (m1 := store8 (store8 m (pv d) fidFixedNone) (pv d + 1) fidVarNone).
  assert (Fr : forall x, x < pv d + 2 -> store16 m1 (pv d + 2) 4 x = m1 x) by (intros x Hx; apply store16_frame; lia).
  constructor; unfold nfixed, nvar; cbn [r_fixed r_var r_tag]; change (zlen (@nil (option (list Z)))) with 0.
  - now apply store16_ok, store8_ok, store8_ok.
  - rewrite Fr by lia. unfold m1. rewrite !store8_at, (proj2 (Z.eqb_neq (pv d) (pv d + 1))), Z.eqb_refl by lia. reflexivity.
  - rewrite Fr by lia. unfold m1. now rewrite store8_at, Z.eqb_refl.
  - rewrite load16_store16_eq. unfold fixed_end. rewrite (sc_start _ S). reflexivity.
  - intros k Hk. change (zlen (@nil (option (list Z)))) with 0 in Hk. lia.
  - apply holds_nil.
  - apply holds_nil.
  - apply holds_nil.
Qed.

(** A table: a number with a default value, a text of at most 3 bytes and a bit;
    three variable columns, the first one with a default value; one tagged column. *)
Definition sample_fixed (fid : Z) : FIELD :=
  if fid =? 1 then Field coltypLong 4 ffieldDefault 4 0 else if fid =? 2 then Field coltypText 3 0 8 1252 else Field coltypBit 1 0 11 0.
Definition sample_var (fid : Z) : FIELD := if fid =? 128 then Field coltypText 10 ffieldDefault 0 1252 else Field coltypBinary 4 0 0 0.

(** The default record. *)
Definition sample_default_row : RECORD := Rcd [Some [7; 0; 0; 0]] [Some [65; 66]] [].
Definition sample_default_mem : mem := store_bytes (fun _ => 0) 1000 [1; 128; 9; 0; 7; 0; 0; 0; 0; 2; 0; 65; 66].

Definition sample_table : TDB :=
  Tdb 1 3 128 130 256 256 sample_fixed sample_var (fun _ => text_field) (fun _ => false) 12 (Some (sample_default_mem, Data 1000 13)) false 0.

Definition sample_cursor : FUCB :=
  let '(m, d) := SetMinimumRecord (fun _ => 0) (Data 100 0) in Fucb m d (fun _ => 0) false false 4096 255.
Definition sample_row : ROW := Row [] [] [] (fun _ => 0) false.

Lemma fid_cases_3 (P : Z -> Prop) : P 1 -> P 2 -> P 3 -> forall fid, 1 <= fid <= 3 -> P fid.
Proof. intros H1 H2 H3 fid H. destruct (Z.eq_dec fid 1) as [->|]; [exact H1|]. destruct (Z.eq_dec fid 2) as [->|]; [exact H2|]. assert (fid = 3) as -> by lia. exact H3. Qed.

Lemma sample_schema : schema_ok sample_table.
Proof.
  constructor.
  - cbn. unfold fidFixedMost. lia.
  - reflexivity.
  - cbn [sample_table FidFixedLast]. apply fid_cases_3; vm_compute; split; discriminate.
  - cbn [sample_table FidFixedLast]. apply (fid_cases_3 (fun fid => FColtypNil sample_table fid = false -> _)); reflexivity.
  - cbn [sample_table FidFixedLast]. apply (fid_cases_3 (fun fid => FColtypNil sample_table fid = false -> _)); reflexivity.
  - vm_compute. discriminate.
  - cbn. unfold fidVarLeast, fidVarMost. lia.
  - intros fid _. cbn [sample_table PfieldVar]. unfold sample_var. destruct (fid =? 128); cbn; lia.
Qed.

Lemma sample_default_holds : holds_record sample_table sample_default_mem 1000 sample_default_row.
Proof.
  constructor; try (apply load_holds; reflexivity); try reflexivity.
  - apply store_bytes_ok. intros a. lia.
  - intros k Hk. cbn in Hk. assert (k = 1) as -> by lia. split; [reflexivity|]. split; [apply load_holds; reflexivity|reflexivity].
Qed.

Lemma sample_defaults : defaults_ok sample_table (CbRecordMostCHECK 4096) sample_default_row.
Proof.
  constructor.
  - split; [exact sample_default_holds|]. split; [constructor; vm_compute; (discriminate || reflexivity)|]. split; [reflexivity|vm_compute; discriminate].
  - cbn [sample_table FidFixedLast]. apply (fid_cases_3 (fun fid => FHasDefault (PfieldFixed sample_table fid) = true -> _)); intros E; try discriminate E. split; [vm_compute; discriminate|reflexivity].
  - intros fid _. unfold FHasDefault. cbn [sample_table PfieldVar]. unfold sample_var. destruct (Z.eqb_spec fid 128) as [->|N]; [|discriminate]. intros _. split; [vm_compute; discriminate|discriminate].
Qed.

Lemma sample_fits : cursor_fits sample_cursor.
Proof. apply cursor_fits_page; vm_compute; discriminate. Qed.

Lemma sample_at : cursor_row sample_table sample_cursor sample_cursor sample_row.
Proof.
  split; [|constructor|constructor|split; reflexivity]. constructor.
  - apply (SetMinimumRecord_holds sample_table (fun _ => 0) (Data 100 0) sample_schema). intros a. lia.
  - reflexivity.
  - constructor; vm_compute; (discriminate || reflexivity).
  - vm_compute. discriminate.
Qed.

(** The text, a variable column behind the default values, a tagged column, and
    two values of a wrong length, the second one after the record was extended. *)
Definition sample_sets : list SETCALL :=
  [SetCall 2 1 (Some [88; 89]) false 0; SetCall 130 1 (Some [1; 2; 3; 4; 5]) false 0; SetCall 256 1 (Some [90]) false 0; SetCall 1 1 (Some [5; 6]) false 0;
   SetCall 3 1 (Some [1; 1]) false 0; SetCall 129 1 None false 0; SetCall 131 1 None false 0].

(** The conditions of a value, evaluated. *)
Ltac set_call_ok := constructor;
  [intros v0 E0; vm_compute in E0; (discriminate E0 || (injection E0 as <-; unfold bytes_ok; repeat (apply Forall_cons; [lia|]); apply Forall_nil))
  |intros E0; (discriminate E0 || (clear E0; call_ok))].

Definition sample_record_row : list (option (list Z)) * list (option (list Z)) * list COLUMN :=
  ([Some [7; 0; 0; 0]; Some [88; 89; 32]; None], [Some [65; 66]; None; Some [1; 2; 3; 4]], [Column 256 false (Value false false false false [(false, [90])])]).

Lemma record_updates_refine_rows_witness :
  let r := run_sets (Loc := loc_bytes) sample_table sample_cursor sample_sets in
  fst r = [0; JET_wrnColumnMaxTruncated; 0; JET_errInvalidBufferSize; JET_errInvalidBufferSize; 0; JET_errColumnNotFound] /\
  (exists w, cursor_row sample_table sample_cursor (snd r) w /\ (w_fixed w, w_var w, w_cols w) = sample_record_row) /\ cb (dataWorkBuf (snd r)) = 30.
Proof.
  intros r. destruct (record_updates_refine_rows loc_bytes sample_table sample_default_row sample_cursor sample_row sample_sets sample_schema sample_fits sample_defaults sample_at) as (E & _ & C).
  - repeat (split; [set_call_ok|]); exact I.
  - fold r in E, C. split; [etransitivity; [exact E|vm_compute; reflexivity]|]. split; [|vm_compute; reflexivity]. eexists. split; [exact C|]. vm_compute. reflexivity.
Defined.

Definition sample_after : FUCB := snd (run_sets (Loc := loc_bytes) sample_table sample_cursor sample_sets).
Definition sample_after_row : ROW := snd (spec_sets (Loc := loc_bytes) sample_table sample_default_row sample_cursor sample_row sample_sets).

Lemma sample_after_at : cursor_row sample_table sample_after sample_after sample_after_row.
Proof.
  destruct (run_sets_spec (Loc := loc_bytes) sample_table sample_default_row sample_cursor sample_sets sample_schema sample_cursor sample_row (same_cursor_refl _) sample_fits sample_at sample_defaults) as (_ & (_ & E & _) & C).
  - repeat (split; [set_call_ok|]); exact I.
  - exact (cursor_row_same sample_table sample_cursor _ _ E C).
Qed.

(** The default value of the number, which is now in the record, the cut value
    and the tagged column. *)
Lemma record_columns_are_read_witness :
  returns sample_table (f_m sample_after) (Some [7; 0; 0; 0]) (ErrRECIRetrieveFixedColumn 2 (CbRecordMostCHECK 4096) sample_table (f_m sample_after) (dataWorkBuf sample_after) 1) /\
  returns sample_table (f_m sample_after) (Some [1; 2; 3; 4]) (ErrRECIRetrieveVarColumn 2 (CbRecordMostCHECK 4096) sample_table (f_m sample_after) (dataWorkBuf sample_after) 130) /\
  exists p, ErrRECIRetrieveTaggedColumn 4096 (f_m sample_after) (dataWorkBuf sample_after) no_defaults 256 1 0 false = (JET_errSuccess, InRecord (Data p 1)) /\ load_bytes (f_m sample_after) p 1 = [90].
Proof.
  destruct (record_columns_are_read loc_bytes sample_table sample_default_row sample_after sample_after_row sample_schema) as (A & B & C).
  - apply cursor_fits_page; vm_compute; discriminate.
  - exact sample_defaults.
  - exact sample_after_at.
  - assert (Ep : cbPage sample_after = 4096) by (vm_compute; reflexivity). rewrite Ep in A, B, C.
    assert (Ea : fixed_value sample_table sample_default_row (record_of (FIsSmallPage 4096) sample_after_row) 1 = Some [7; 0; 0; 0]) by (vm_compute; reflexivity).
    assert (Eb : var_value sample_table sample_default_row (record_of (FIsSmallPage 4096) sample_after_row) 130 = Some [1; 2; 3; 4]) by (vm_compute; reflexivity).
    assert (Ec : retrieve_column (w_cols sample_after_row) no_defaults 256 false 1 0 = Found JET_errSuccess [90]) by (vm_compute; reflexivity).
    split; [rewrite <- Ea; apply A; [vm_compute; split; discriminate|reflexivity]|]. split; [rewrite <- Eb; apply B; [vm_compute; split; discriminate|reflexivity]|].
    pose proof (C no_defaults 256 1 0 false eq_refl ltac:(lia)) as C1. rewrite Ec in C1. exact C1.
Defined.

(** The bit gets a value of a wrong length: the empty record is extended over the
    columns before it, and all columns read as before. *)
Lemma set_column_keeps_the_others_witness :
  let r := ErrRECSetColumn (Loc := loc_bytes) sample_table sample_cursor 3 1 (Some [1; 1]) false 0 in
  fst r = JET_errInvalidBufferSize /\ cb (dataWorkBuf (snd r)) = 13 /\
  returns sample_table (f_m (snd r)) (Some [7; 0; 0; 0]) (ErrRECIRetrieveFixedColumn 2 (CbRecordMostCHECK 4096) sample_table (f_m (snd r)) (dataWorkBuf (snd r)) 1) /\
  returns sample_table (f_m (snd r)) None (ErrRECIRetrieveFixedColumn 2 (CbRecordMostCHECK 4096) sample_table (f_m (snd r)) (dataWorkBuf (snd r)) 3) /\
  returns sample_table (f_m (snd r)) (Some [65; 66]) (ErrRECIRetrieveVarColumn 2 (CbRecordMostCHECK 4096) sample_table (f_m (snd r)) (dataWorkBuf (snd r)) 128).
Proof.
  intros r. destruct (set_column_keeps_the_others loc_bytes sample_table sample_default_row sample_cursor sample_row 3 1 (Some [1; 1]) false 0 sample_schema sample_fits sample_defaults sample_at ltac:(set_call_ok)) as (A & B & _).
  split; [vm_compute; reflexivity|]. split; [vm_compute; reflexivity|]. split; [|split].
  - apply (A 1); [vm_compute; split; discriminate|left; discriminate|reflexivity].
  - apply (A 3); [vm_compute; split; discriminate|right; vm_compute; reflexivity|reflexivity].
  - apply (B 128); [vm_compute; split; discriminate|left; discriminate|reflexivity].
Defined.

(** A padded text and a cut binary value. *)
Lemma set_column_reads_back_witness :
  let r := ErrRECSetColumn (Loc := loc_bytes) sample_table sample_cursor 2 1 (Some [88; 89]) false 0 in
  let r' := ErrRECSetColumn (Loc := loc_bytes) sample_table sample_cursor 130 1 (Some [1; 2; 3; 4; 5]) false 0 in
  (returns sample_table (f_m (snd r)) (Some [88; 89; 32]) (ErrRECIRetrieveFixedColumn 2 (CbRecordMostCHECK 4096) sample_table (f_m (snd r)) (dataWorkBuf (snd r)) 2) /\ FFUCBColumnSet (snd r) 2 = true) /\
  (returns sample_table (f_m (snd r')) (Some [1; 2; 3; 4]) (ErrRECIRetrieveVarColumn 2 (CbRecordMostCHECK 4096) sample_table (f_m (snd r')) (dataWorkBuf (snd r')) 130) /\ FFUCBColumnSet (snd r') 130 = true /\ fst r' = JET_wrnColumnMaxTruncated).
Proof.
  intros r r'. split.
  - destruct (set_column_reads_back loc_bytes sample_table sample_default_row sample_cursor sample_row 2 1 (Some [88; 89]) false 0 sample_schema sample_fits sample_defaults sample_at ltac:(set_call_ok)) as [A _].
    apply A; [vm_compute; split; discriminate|reflexivity|vm_compute; reflexivity].
  - destruct (set_column_reads_back loc_bytes sample_table sample_default_row sample_cursor sample_row 130 1 (Some [1; 2; 3; 4; 5]) false 0 sample_schema sample_fits sample_defaults sample_at ltac:(set_call_ok)) as [_ A].
    apply A; [vm_compute; split; discriminate|reflexivity|vm_compute; discriminate].
Defined.

(** ** A default record of a wrong size *)

Definition broken_table : TDB :=
  Tdb 1 3 128 130 256 256 sample_fixed sample_var (fun _ => text_field) (fun _ => false) 12 (Some (sample_default_mem, Data 1000 2)) false 0.

(** With a default record of a size no record has, setting a variable column
    of a record of 1400 bytes succeeds and makes the record 1200 bytes shorter:
    CbBurstVarDefaults returns the error code for a corrupted database as the
    number of bytes to add. On the way of a fixed column the check is an error,
    but the record was moved by then: the end of its fixed columns is that of
    two columns, the number of its last fixed column is still that of none. *)
Theorem broken_default_record_shrinks_the_record (Loc : NormLocale) :
  let f := Fucb (f_m sample_cursor) (Data 100 1400) (fun _ => 0) false false 4096 255 in
  let r := ErrRECSetColumn broken_table f 130 1 (Some []) false 0 in
  fst r = JET_errSuccess /\ cb (dataWorkBuf (snd r)) = 1400 + 2 * 3 - 1206 /\
  let r2 := ErrRECSetColumn broken_table f 2 1 (Some [88; 89]) false 0 in
  fst r2 = JET_errDatabaseCorrupted /\ IbEndOfFixedData (f_m (snd r2)) 100 = 12 /\ FidFixedLastInRec (f_m (snd r2)) 100 = fidFixedNone.
Proof. vm_compute. repeat split. Qed.
