(* ===== verification/RbTree.v ===== *)
(** * Collections: the invasive red-black tree

    InvasiveRedBlackTree of published/inc/collection.hxx: a left-leaning
    red-black tree whose nodes are fields of the objects it holds, so that the
    tree allocates nothing and works by overwriting pointers and colours of
    nodes that the caller owns.  The store that the nodes live in is a finite map
    of addresses; every operation is a computation on that store.  The queue of
    metered disk reads (osdisk.cxx) is such a tree. *)

From stdpp Require Import base gmap list.
From Stdlib Require Import ZArith Lia Bool.
From S2P Require Import Prelude.

(** ** The keys

    What a KEY class must implement, and what the tree relies on. *)
Class KEYOPS (KEY : Type) := {
  key_default : KEY;
  key_eq : KEY -> KEY -> bool;
  key_lt : KEY -> KEY -> bool;
  key_gt : KEY -> KEY -> bool }.

Class KeyOrder (KEY : Type) `{KEYOPS KEY} : Prop := {
  key_eq_spec a b : key_eq a b = true <-> a = b;
  key_gt_lt a b : key_gt a b = key_lt b a;
  key_lt_irrefl a : key_lt a a = false;
  key_lt_trans a b c : key_lt a b = true -> key_lt b c = true -> key_lt a c = true;
  key_lt_total a b : key_lt a b = false -> a <> b -> key_lt b a = true }.

(** The place of a disk read: a file and an offset in it. *)
Record IFILEIBOFFSET := mkIFILEIBOFFSET { iFile : Z; ibOffset : Z }.

Definition IFILEIBOFFSET_eq (a rhs : IFILEIBOFFSET) : bool := (iFile a =? iFile rhs) && (ibOffset a =? ibOffset rhs).
Definition IFILEIBOFFSET_lt (a rhs : IFILEIBOFFSET) : bool :=
  if negb (iFile a =? iFile rhs) then iFile a <? iFile rhs else ibOffset a <? ibOffset rhs.
Definition IFILEIBOFFSET_gt (a rhs : IFILEIBOFFSET) : bool :=
  if negb (iFile a =? iFile rhs) then iFile a >? iFile rhs else ibOffset a >? ibOffset rhs.

#[export] Instance IFILEIBOFFSET_KEYOPS : KEYOPS IFILEIBOFFSET := {|
  key_default := mkIFILEIBOFFSET 0 0;
  key_eq := IFILEIBOFFSET_eq; key_lt := IFILEIBOFFSET_lt; key_gt := IFILEIBOFFSET_gt |}.

#[export] Instance IFILEIBOFFSET_KeyOrder : KeyOrder IFILEIBOFFSET.
Proof.
  split.
  - intros [f i] [f' i']. cbn. unfold IFILEIBOFFSET_eq. cbn. rewrite andb_true_iff, !Z.eqb_eq. split; [intros [-> ->]; reflexivity|intros [= -> ->]; auto].
  - intros [f i] [f' i']. cbn. unfold IFILEIBOFFSET_gt, IFILEIBOFFSET_lt. cbn. rewrite (Z.eqb_sym f' f). destruct (f =? f'); cbn [negb]; apply Z.gtb_ltb.
  - intros [f i]. cbn. unfold IFILEIBOFFSET_lt. cbn. rewrite Z.eqb_refl. apply Z.ltb_irrefl.
  - intros [f i] [f' i'] [f2 i2]. cbn. unfold IFILEIBOFFSET_lt. cbn.
    destruct (Z.eqb_spec f f'), (Z.eqb_spec f' f2), (Z.eqb_spec f f2); cbn [negb]; rewrite ?Z.ltb_lt; lia.
  - intros [f i] [f' i']. cbn. unfold IFILEIBOFFSET_lt. cbn. rewrite (Z.eqb_sym f' f).
    destruct (Z.eqb_spec f f') as [->|N]; cbn [negb]; rewrite ?Z.ltb_ge, ?Z.ltb_lt; [|lia]. intros L D. assert (i <> i') by (intros ->; now apply D). lia.
Qed.

(** ** The store *)

Inductive RedBlackTreeColor := Red | Black.

(** A pointer to a node is its address; [NULL] is no node. *)
Definition NULL : Z := 0.

(** [InvasiveContext] *)
Record Node (KEY : Type) := mkNode {
  m_key : KEY;
  m_color : RedBlackTreeColor;
  m_pnodeLeft : Z;
  m_pnodeRight : Z }.
Arguments mkNode {KEY}.
Arguments m_key {KEY}.
Arguments m_color {KEY}.
Arguments m_pnodeLeft {KEY}.
Arguments m_pnodeRight {KEY}.

Abbreviation Heap KEY := (gmap Z (Node KEY)).

(** Ways in which a computation does not return. *)
Inductive STOP := AccessViolation | AssertFailed | OutOfFuel.

Inductive RESULT (KEY A : Type) := Ret (a : A) (h : Heap KEY) | Stop (why : STOP).
Arguments Ret {KEY A}.
Arguments Stop {KEY A}.

Definition M (KEY A : Type) : Type := Heap KEY -> RESULT KEY A.

#[export] Instance M_ret KEY : MRet (M KEY) := fun A a h => Ret a h.
#[export] Instance M_bind KEY : MBind (M KEY) := fun A B f m h => match m h with Ret a h' => f a h' | Stop w => Stop w end.

Definition stop {KEY A} (why : STOP) : M KEY A := fun _ => Stop why.

(** [&&] of C++: the second operand is evaluated only if the first holds. *)
Definition andM {KEY} (a b : M KEY bool) : M KEY bool := x ← a; if x : bool then b else mret false.

(** Reading and writing a node. *)
Definition load {KEY} (p : Z) : M KEY (Node KEY) :=
  fun h => if p =? NULL then Stop AccessViolation else match h !! p with Some n => Ret n h | None => Stop AccessViolation end.
Definition store {KEY} (p : Z) (n : Node KEY) : M KEY unit :=
  fun h => if p =? NULL then Stop AccessViolation else match h !! p with Some _ => Ret tt (<[p := n]> h) | None => Stop AccessViolation end.

(** A tree is its root pointer. *)
Record InvasiveRedBlackTree := mkInvasiveRedBlackTree { m_pnodeRoot : Z }.

(** API Error Codes *)
Inductive ERR := errSuccess | errOutOfMemory | errEntryNotFound | errDuplicateEntry.

Definition ERR_value (e : ERR) : Z := match e with errSuccess => 0 | errOutOfMemory => -20 | errEntryNotFound => -21 | errDuplicateEntry => -22 end.

#[export] Instance RedBlackTreeColor_eq_dec : EqDecision RedBlackTreeColor.
Proof. solve_decision. Defined.
#[export] Instance ERR_eq_dec : EqDecision ERR.
Proof. solve_decision. Defined.

Definition is_red (c : RedBlackTreeColor) : bool := match c with Red => true | Black => false end.
Definition ERR_eqb (a b : ERR) : bool := bool_decide (a = b).

Section Tree.
Context {KEY : Type} `{KEYOPS KEY}.

(** Whether the assertions are compiled (a DEBUG build). *)
Variable DEBUG : bool.

(** The offset of the context in the objects of the tree. *)
Variable OffsetOfILE : Z.

Abbreviation M := (M KEY).

(** ** Nodes *)

Definition Key (p : Z) : M KEY := n ← load p; mret (m_key n).
Definition Color (p : Z) : M RedBlackTreeColor := n ← load p; mret (m_color n).
Definition PnodeLeft (p : Z) : M Z := n ← load p; mret (m_pnodeLeft n).
Definition PnodeRight (p : Z) : M Z := n ← load p; mret (m_pnodeRight n).

Definition SetColor (p : Z) (colorNew : RedBlackTreeColor) : M unit :=
  n ← load p; store p (mkNode (m_key n) colorNew (m_pnodeLeft n) (m_pnodeRight n)).
Definition FlipColor (p : Z) : M unit :=
  n ← load p; store p (mkNode (m_key n) (if is_red (m_color n) then Black else Red) (m_pnodeLeft n) (m_pnodeRight n)).
Definition SetLeft (p pnodeleftNew : Z) : M unit :=
  n ← load p; store p (mkNode (m_key n) (m_color n) pnodeleftNew (m_pnodeRight n)).
Definition SetRight (p pnoderightNew : Z) : M unit :=
  n ← load p; store p (mkNode (m_key n) (m_color n) (m_pnodeLeft n) pnoderightNew).

(** [COLLAssert]: compiled in a DEBUG build only. *)
Definition COLLAssert (cond : M bool) : M unit :=
  if DEBUG then b ← cond; if b : bool then mret tt else stop AssertFailed else mret tt.

Definition FIsNonNullAndRed (p : Z) : M bool := if p =? NULL then mret false else c ← Color p; mret (is_red c).

(** [InvasiveContext::AssertValid] *)
Definition Node_AssertValid (this : Z) : M unit :=
  pl ← PnodeLeft this; pr ← PnodeRight this;
  (if negb (pl =? NULL) then
     COLLAssert (kl ← Key pl; k ← Key this; mret (key_lt kl k));; COLLAssert (mret (negb (this =? pl)))
   else mret tt);;
  (if negb (pr =? NULL) then
     COLLAssert (kr ← Key pr; k ← Key this; mret (key_gt kr k));; COLLAssert (mret (negb (this =? pr)))
   else mret tt);;
  (if negb (pl =? NULL) && negb (pr =? NULL) then
     COLLAssert (c ← Color this; cl ← Color pl; cr ← Color pr; mret (negb (is_red c) || negb (is_red cl) || negb (is_red cr)))
   else mret tt);;
  if negb (pr =? NULL) then
    cr ← Color pr;
    if is_red cr then COLLAssert (mret (negb (pl =? NULL)));; COLLAssert (cl ← Color pl; mret (is_red cl)) else mret tt
  else mret tt.

Definition InitNode_ (key : KEY) (pnode : Z) : M unit := _ ← load pnode; store pnode (mkNode key Red NULL NULL).

(** The destructor of a node clears it in a DEBUG build. *)
Definition ScrubNode_ (pnode : Z) : M unit :=
  if DEBUG then _ ← load pnode; store pnode (mkNode key_default Red NULL NULL) else mret tt.

(** Objects and the contexts in them. *)
Definition CObjectToNode (pObject : Z) : Z := u64 (pObject + OffsetOfILE).
Definition NodeToCObject (pnode : Z) : Z := u64 (pnode - OffsetOfILE).

(** ** Rotations and colours *)

Definition RotateLeft_ (pnode : Z) : M Z :=
  COLLAssert (mret (negb (pnode =? NULL)));; COLLAssert (r ← PnodeRight pnode; mret (negb (r =? NULL)));;
  pnodeNewTop ← PnodeRight pnode;
  l ← PnodeLeft pnodeNewTop; SetRight pnode l;;
  SetLeft pnodeNewTop pnode;;
  l ← PnodeLeft pnodeNewTop; c ← Color l; SetColor pnodeNewTop c;;
  l ← PnodeLeft pnodeNewTop; SetColor l Red;;
  mret pnodeNewTop.

Definition RotateRight_ (pnode : Z) : M Z :=
  COLLAssert (mret (negb (pnode =? NULL)));; COLLAssert (l ← PnodeLeft pnode; mret (negb (l =? NULL)));;
  pnodeNewTop ← PnodeLeft pnode;
  r ← PnodeRight pnodeNewTop; SetLeft pnode r;;
  SetRight pnodeNewTop pnode;;
  r ← PnodeRight pnodeNewTop; c ← Color r; SetColor pnodeNewTop c;;
  r ← PnodeRight pnodeNewTop; SetColor r Red;;
  mret pnodeNewTop.

Definition FlipColors_ (pnode : Z) : M unit :=
  COLLAssert (mret (negb (pnode =? NULL)));;
  FlipColor pnode;;
  l ← PnodeLeft pnode; (if negb (l =? NULL) then FlipColor l else mret tt);;
  r ← PnodeRight pnode; if negb (r =? NULL) then FlipColor r else mret tt.

Definition Fixup_ (pnode : Z) : M Z :=
  COLLAssert (mret (negb (pnode =? NULL)));;
  r ← PnodeRight pnode; fRight ← FIsNonNullAndRed r;
  pnodeT ← (if fRight : bool then RotateLeft_ pnode else mret pnode);
  l ← PnodeLeft pnodeT; fLeft ← andM (FIsNonNullAndRed l) (ll ← PnodeLeft l; FIsNonNullAndRed ll);
  pnodeT ← (if fLeft : bool then COLLAssert (r ← PnodeRight pnodeT; f ← FIsNonNullAndRed r; mret (negb f));; RotateRight_ pnodeT else mret pnodeT);
  l ← PnodeLeft pnodeT; fBoth ← andM (FIsNonNullAndRed l) (r ← PnodeRight pnodeT; FIsNonNullAndRed r);
  (if fBoth : bool then FlipColors_ pnodeT else mret tt);;
  COLLAssert (mret (negb (pnodeT =? NULL)));;
  mret pnodeT.

Definition MoveRedRight_ (pnode : Z) : M Z :=
  COLLAssert (mret (negb (pnode =? NULL)));;
  FlipColors_ pnode;;
  COLLAssert (l ← PnodeLeft pnode; mret (negb (l =? NULL)));;
  l ← PnodeLeft pnode; ll ← PnodeLeft l; f ← FIsNonNullAndRed ll;
  pnodeT ← (if f : bool then pnodeT ← RotateRight_ pnode; FlipColors_ pnodeT;; mret pnodeT else mret pnode);
  COLLAssert (mret (negb (pnodeT =? NULL)));;
  mret pnodeT.

Definition MoveRedLeft_ (pnode : Z) : M Z :=
  COLLAssert (mret (negb (pnode =? NULL)));;
  FlipColors_ pnode;;
  COLLAssert (r ← PnodeRight pnode; mret (negb (r =? NULL)));;
  r ← PnodeRight pnode; rl ← PnodeLeft r; f ← FIsNonNullAndRed rl;
  pnodeT ← (if f : bool then
      r ← PnodeRight pnode; r' ← RotateRight_ r; SetRight pnode r';;
      pnodeT ← RotateLeft_ pnode; FlipColors_ pnodeT;; mret pnodeT
    else mret pnode);
  COLLAssert (mret (negb (pnodeT =? NULL)));;
  mret pnodeT.

(** ** Searching *)

(** Each turn of a search loop goes one level down; [fuel] bounds the levels. *)
Fixpoint Find_ (fuel : nat) (pnodeT : Z) (key : KEY) : M Z :=
  match fuel with O => stop OutOfFuel | S fuel =>
    if pnodeT =? NULL then mret pnodeT else
    k ← Key pnodeT;
    if key_eq key k then mret pnodeT
    else if key_lt key k then l ← PnodeLeft pnodeT; Find_ fuel l key
    else COLLAssert (mret (key_gt key k));; r ← PnodeRight pnodeT; Find_ fuel r key
  end.

Fixpoint PnodeMin_loop (fuel : nat) (pnodeT : Z) : M Z :=
  match fuel with O => stop OutOfFuel | S fuel =>
    l ← PnodeLeft pnodeT; if negb (l =? NULL) then PnodeMin_loop fuel l else mret pnodeT
  end.

Definition PnodeMin_ (fuel : nat) (pnode : Z) : M Z := COLLAssert (mret (negb (pnode =? NULL)));; PnodeMin_loop fuel pnode.

Fixpoint FindNearest_loop (fuel : nat) (pnodeT : Z) (key : KEY) : M Z :=
  match fuel with O => stop OutOfFuel | S fuel =>
    k ← Key pnodeT;
    if key_eq key k then mret pnodeT
    else if key_lt key k then l ← PnodeLeft pnodeT; if l =? NULL then mret pnodeT else FindNearest_loop fuel l key
    else COLLAssert (mret (key_gt key k));; r ← PnodeRight pnodeT; if r =? NULL then mret pnodeT else FindNearest_loop fuel r key
  end.

Fixpoint FindGE_loop (fuel : nat) (pnodeCurrent pnodeMatch : Z) (key : KEY) : M (Z * Z) :=
  match fuel with O => stop OutOfFuel | S fuel =>
    if pnodeCurrent =? NULL then mret (pnodeCurrent, pnodeMatch) else
    k ← Key pnodeCurrent;
    if key_eq key k then mret (pnodeCurrent, pnodeCurrent)
    else if key_lt key k then l ← PnodeLeft pnodeCurrent; FindGE_loop fuel l pnodeCurrent key
    else r ← PnodeRight pnodeCurrent; FindGE_loop fuel r pnodeMatch key
  end.

Definition FContainsKey_ (fuel : nat) (rbt : InvasiveRedBlackTree) (key : KEY) : M bool :=
  p ← Find_ fuel (m_pnodeRoot rbt) key; mret (negb (p =? NULL)).

Definition FEmpty (rbt : InvasiveRedBlackTree) : bool := m_pnodeRoot rbt =? NULL.

(** The error and what [*ppObject] gets. *)
Definition ErrFind (fuel : nat) (rbt : InvasiveRedBlackTree) (key : KEY) : M (ERR * Z) :=
  pnode ← Find_ fuel (m_pnodeRoot rbt) key;
  mret (if pnode =? NULL then (errEntryNotFound, NULL) else (errSuccess, NodeToCObject pnode)).

(** The error and, where they are written, [*pkeyFound] and [*ppObjectFound]. *)
Definition ErrFindNearest (fuel : nat) (rbt : InvasiveRedBlackTree) (key : KEY) : M (ERR * option (KEY * Z)) :=
  if m_pnodeRoot rbt =? NULL then mret (errEntryNotFound, None) else
  pnodeT ← FindNearest_loop fuel (m_pnodeRoot rbt) key;
  COLLAssert (mret (negb (pnodeT =? NULL)));;
  k ← Key pnodeT; mret (errSuccess, Some (k, NodeToCObject pnodeT)).

Definition ErrFindGreaterThanOrEqual (fuel : nat) (rbt : InvasiveRedBlackTree) (key : KEY) : M (ERR * option (KEY * Z)) :=
  '(pnodeCurrent, pnodeMatch) ← FindGE_loop fuel (m_pnodeRoot rbt) NULL key;
  COLLAssert (if pnodeCurrent =? NULL then mret true else k ← Key pnodeCurrent; mret (key_eq key k));;
  if pnodeMatch =? NULL then mret (errEntryNotFound, None) else
  k ← Key pnodeMatch;
  mret (errSuccess, Some (k, NodeToCObject pnodeMatch)).

(** The readers of the tree's shape that callers use directly. *)
Definition PnodeRoot (rbt : InvasiveRedBlackTree) : Z := NodeToCObject (m_pnodeRoot rbt).
Definition FindNode (fuel : nat) (rbt : InvasiveRedBlackTree) (key : KEY) : M Z :=
  p ← Find_ fuel (m_pnodeRoot rbt) key; mret (NodeToCObject p).

(** ** Insertion *)

(** The error and what [*ppnodeRoot] becomes. *)
Fixpoint ErrInsert_ (fuel : nat) (key : KEY) (pnodeNew : Z) (pnodeRoot : Z) : M (ERR * Z) :=
  match fuel with O => stop OutOfFuel | S fuel =>
    if pnodeRoot =? NULL then InitNode_ key pnodeNew;; mret (errSuccess, pnodeNew) else
    k ← Key pnodeRoot;
    err ← (if key_eq key k then mret errDuplicateEntry
           else if key_lt key k then
             l ← PnodeLeft pnodeRoot; '(err, pnodeT) ← ErrInsert_ fuel key pnodeNew l; SetLeft pnodeRoot pnodeT;; mret err
           else
             COLLAssert (k ← Key pnodeRoot; mret (key_gt key k));;
             r ← PnodeRight pnodeRoot; '(err, pnodeT) ← ErrInsert_ fuel key pnodeNew r; SetRight pnodeRoot pnodeT;; mret err);
    pnodeRoot ← Fixup_ pnodeRoot;
    Node_AssertValid pnodeRoot;;
    mret (err, pnodeRoot)
  end.

Definition ErrInsert (fuel : nat) (rbt : InvasiveRedBlackTree) (key : KEY) (pObject : Z) : M (ERR * InvasiveRedBlackTree) :=
  let pnode := CObjectToNode pObject in
  '(err, root) ← ErrInsert_ fuel key pnode (m_pnodeRoot rbt);
  let rbt := mkInvasiveRedBlackTree root in
  COLLAssert (mret (ERR_eqb errSuccess err || ERR_eqb errOutOfMemory err || ERR_eqb errDuplicateEntry err));;
  (if ERR_eqb errSuccess err || ERR_eqb errDuplicateEntry err then
     COLLAssert (mret (negb (FEmpty rbt)));; COLLAssert (FContainsKey_ fuel rbt key)
   else mret tt);;
  mret (err, rbt).

(** ** Deletion *)

Fixpoint RemoveMinNode_ (fuel : nat) (pnode : Z) : M Z :=
  match fuel with O => stop OutOfFuel | S fuel =>
    l ← PnodeLeft pnode;
    if l =? NULL then COLLAssert (r ← PnodeRight pnode; mret (r =? NULL));; mret NULL else
    f ← andM (b ← FIsNonNullAndRed l; mret (negb b)) (ll ← PnodeLeft l; b ← FIsNonNullAndRed ll; mret (negb b));
    pnodeT ← (if f : bool then MoveRedLeft_ pnode else mret pnode);
    l ← PnodeLeft pnodeT; l' ← RemoveMinNode_ fuel l; SetLeft pnodeT l';;
    Fixup_ pnodeT
  end.

(** The new top of the subtree and [*ppnodeDeleted]. *)
Fixpoint Delete_ (fuel : nat) (pnode : Z) (key : KEY) : M (Z * Z) :=
  match fuel with O => stop OutOfFuel | S fuel =>
    COLLAssert (mret (negb (pnode =? NULL)));;
    k ← Key pnode;
    res ← (if key_lt key k then
        COLLAssert (l ← PnodeLeft pnode; mret (negb (l =? NULL)));;
        l ← PnodeLeft pnode;
        f ← andM (b ← FIsNonNullAndRed l; mret (negb b)) (ll ← PnodeLeft l; b ← FIsNonNullAndRed ll; mret (negb b));
        pnodeT ← (if f : bool then MoveRedLeft_ pnode else mret pnode);
        l ← PnodeLeft pnodeT; '(l', pnodeDeleted) ← Delete_ fuel l key; SetLeft pnodeT l';;
        mret (Some pnodeT, pnodeDeleted)
      else
        l ← PnodeLeft pnode; fl ← FIsNonNullAndRed l;
        pnodeT ← (if fl : bool then RotateRight_ pnode else mret pnode);
        k ← Key pnodeT;
        fThis ← andM (mret (key_eq key k)) (r ← PnodeRight pnodeT; mret (r =? NULL));
        if fThis : bool then
          COLLAssert (l ← PnodeLeft pnodeT; mret (l =? NULL));; COLLAssert (c ← Color pnodeT; mret (is_red c));;
          ScrubNode_ pnodeT;; mret (None, pnodeT)
        else
          r ← PnodeRight pnodeT;
          f ← andM (b ← FIsNonNullAndRed r; mret (negb b)) (rl ← PnodeLeft r; b ← FIsNonNullAndRed rl; mret (negb b));
          pnodeT ← (if f : bool then MoveRedRight_ pnodeT else mret pnodeT);
          k ← Key pnodeT;
          if key_eq key k then
            let pnodeDelete := pnodeT in
            r ← PnodeRight pnodeT; pnodeMin ← PnodeMin_ fuel r;
            r ← PnodeRight pnodeT; pnodeRight ← RemoveMinNode_ fuel r;
            let pnodeT := pnodeMin in
            l ← PnodeLeft pnodeDelete; SetLeft pnodeT l;;
            SetRight pnodeT pnodeRight;;
            c ← Color pnodeDelete; SetColor pnodeT c;;
            ScrubNode_ pnodeDelete;; mret (Some pnodeT, pnodeDelete)
          else
            r ← PnodeRight pnodeT; '(r', pnodeDeleted) ← Delete_ fuel r key; SetRight pnodeT r';;
            mret (Some pnodeT, pnodeDeleted));
    match res with
    | (None, pnodeDeleted) => mret (NULL, pnodeDeleted)
    | (Some pnodeT, pnodeDeleted) =>
      COLLAssert (mret (negb (pnodeDeleted =? NULL)));;
      pnodeT ← Fixup_ pnodeT; mret (pnodeT, pnodeDeleted)
    end
  end.

(** The error, what a [ppObject] that is given gets, and the tree. *)
Definition ErrDelete (fuel : nat) (rbt : InvasiveRedBlackTree) (key : KEY) : M (ERR * option Z * InvasiveRedBlackTree) :=
  f ← FContainsKey_ fuel rbt key;
  res ← (if negb f then mret (errEntryNotFound, None, rbt) else
      COLLAssert (mret (negb (FEmpty rbt)));;
      '(root, pnodeDeleted) ← Delete_ fuel (m_pnodeRoot rbt) key;
      mret (errSuccess, Some (NodeToCObject pnodeDeleted), mkInvasiveRedBlackTree root));
  let '(err, pobj, rbt) := res in
  COLLAssert (mret (ERR_eqb errSuccess err || ERR_eqb errEntryNotFound err));;
  COLLAssert (f ← FContainsKey_ fuel rbt key; mret (negb f));;
  mret (err, pobj, rbt).

(** ** Emptying, moving and merging trees *)

Fixpoint MakeEmpty_ (fuel : nat) (pnode : Z) : M unit :=
  match fuel with O => stop OutOfFuel | S fuel =>
    if negb (pnode =? NULL) then
      l ← PnodeLeft pnode; MakeEmpty_ fuel l;; r ← PnodeRight pnode; MakeEmpty_ fuel r;; ScrubNode_ pnode
    else mret tt
  end.

Definition MakeEmpty (fuel : nat) (rbt : InvasiveRedBlackTree) : M InvasiveRedBlackTree :=
  MakeEmpty_ fuel (m_pnodeRoot rbt);;
  let rbt := mkInvasiveRedBlackTree NULL in COLLAssert (mret (FEmpty rbt));; mret rbt.

(** The destructor. *)
Definition Destroy (fuel : nat) (rbt : InvasiveRedBlackTree) : M unit := COLLAssert (mret (FEmpty rbt));; _ ← MakeEmpty fuel rbt; mret tt.

Fixpoint AssertValid_ (fuel : nat) (pnode : Z) : M unit :=
  match fuel with O => stop OutOfFuel | S fuel =>
    if negb (pnode =? NULL) then
      Node_AssertValid pnode;;
      l ← PnodeLeft pnode; (if negb (l =? NULL) then AssertValid_ fuel l else mret tt);;
      r ← PnodeRight pnode; if negb (r =? NULL) then AssertValid_ fuel r else mret tt
    else mret tt
  end.

(** Both trees, the target first; they are different objects. *)
Definition Move (rbt prbtSrc : InvasiveRedBlackTree) : M (InvasiveRedBlackTree * InvasiveRedBlackTree) :=
  COLLAssert (mret (FEmpty rbt));;
  if negb (FEmpty rbt) then COLLAssert (mret false);; mret (rbt, prbtSrc) else
  let rbt := mkInvasiveRedBlackTree (m_pnodeRoot prbtSrc) in
  let prbtSrc := mkInvasiveRedBlackTree NULL in
  COLLAssert (mret (FEmpty prbtSrc));; mret (rbt, prbtSrc).

(** One turn moves the root node of the source; [turns] bounds the nodes. *)
Fixpoint Merge_loop (fuel turns : nat) (rbt prbtSrc rbtLeftOvers : InvasiveRedBlackTree) : M (InvasiveRedBlackTree * InvasiveRedBlackTree * InvasiveRedBlackTree) :=
  match turns with O => stop OutOfFuel | S turns =>
    let pnodeMove := m_pnodeRoot prbtSrc in
    if pnodeMove =? NULL then mret (rbt, prbtSrc, rbtLeftOvers) else
    keyMove ← Key pnodeMove;
    '(errDel, _, prbtSrc) ← ErrDelete fuel prbtSrc keyMove;
    COLLAssert (mret (ERR_eqb errDel errSuccess));;
    COLLAssert (l ← PnodeLeft pnodeMove; mret (l =? NULL));;
    COLLAssert (r ← PnodeRight pnodeMove; mret (r =? NULL));;
    '(errMove, rbt) ← ErrInsert fuel rbt keyMove (NodeToCObject pnodeMove);
    if negb (ERR_eqb errMove errSuccess) then
      COLLAssert (mret (ERR_eqb errMove errDuplicateEntry));;
      '(errLeftOver, rbtLeftOvers) ← ErrInsert fuel rbtLeftOvers keyMove (NodeToCObject pnodeMove);
      COLLAssert (mret (ERR_eqb errLeftOver errSuccess));;
      Merge_loop fuel turns rbt prbtSrc rbtLeftOvers
    else Merge_loop fuel turns rbt prbtSrc rbtLeftOvers
  end.

(** The error, the target and the source. *)
Definition ErrMerge (fuel turns : nat) (rbt prbtSrc : InvasiveRedBlackTree) : M (ERR * InvasiveRedBlackTree * InvasiveRedBlackTree) :=
  let rbtLeftOvers := mkInvasiveRedBlackTree NULL in
  '(rbt, prbtSrc) ← (if FEmpty rbt then Move rbt prbtSrc else mret (rbt, prbtSrc));
  '(rbt, prbtSrc, rbtLeftOvers) ← Merge_loop fuel turns rbt prbtSrc rbtLeftOvers;
  COLLAssert (mret (FEmpty prbtSrc));;
  if negb (FEmpty rbtLeftOvers) then
    '(prbtSrc, rbtLeftOvers) ← Move prbtSrc rbtLeftOvers;
    COLLAssert (mret (FEmpty rbtLeftOvers));;
    Destroy fuel rbtLeftOvers;; mret (errDuplicateEntry, rbt, prbtSrc)
  else Destroy fuel rbtLeftOvers;; mret (errSuccess, rbt, prbtSrc).

End Tree.
