(* ===== verification/RbShape.v ===== *)
(** * The red-black tree as a value

    The shape a tree of nodes has, with the address of every node; what each
    operation of RbTree makes of the shape ([None] where an assertion would
    fail or a pointer that is [NULL] would be followed); the ordered list of a
    tree's entries. *)

From stdpp Require Import base gmap list sorting.
From Stdlib Require Import ZArith Lia Bool.
From S2P Require Import Prelude RbTree.

Inductive tree (KEY : Type) := Leaf | T (c : RedBlackTreeColor) (l : tree KEY) (p : Z) (k : KEY) (r : tree KEY).
Arguments Leaf {KEY}.
Arguments T {KEY}.

Section Shape.
Context {KEY : Type} `{KEYOPS KEY}.
Abbreviation tree := (tree KEY).

(** ** Shapes *)

Definition ptr (t : tree) : Z := match t with Leaf => NULL | T _ _ p _ _ => p end.
Definition red (t : tree) : bool := match t with T Red _ _ _ _ => true | _ => false end.
Definition left (t : tree) : tree := match t with Leaf => Leaf | T _ l _ _ _ => l end.
Definition right (t : tree) : tree := match t with Leaf => Leaf | T _ _ _ _ r => r end.
Definition is_leaf (t : tree) : bool := match t with Leaf => true | _ => false end.

Definition neg (c : RedBlackTreeColor) : RedBlackTreeColor := if is_red c then Black else Red.
Definition flip (t : tree) : tree := match t with Leaf => Leaf | T c l p k r => T (neg c) l p k r end.

(** The keys and addresses of a tree, in order. *)
Fixpoint entries (t : tree) : list (KEY * Z) :=
  match t with Leaf => [] | T _ l p k r => entries l ++ (k, p) :: entries r end.

Fixpoint depth (t : tree) : nat := match t with Leaf => O | T _ l _ _ r => S (Nat.max (depth l) (depth r)) end.

(** ** Operations on shapes *)

Definition guard (b : bool) {A} (x : option A) : option A := if b then x else None.

Definition rotl (t : tree) : option tree :=
  match t with T c l p k (T _ rl q k2 rr) => Some (T c (T Red l p k rl) q k2 rr) | _ => None end.
Definition rotr (t : tree) : option tree :=
  match t with T c (T _ ll q k2 lr) p k r => Some (T c ll q k2 (T Red lr p k r)) | _ => None end.

Definition flips (t : tree) : tree := match t with Leaf => Leaf | T c l p k r => T (neg c) (flip l) p k (flip r) end.

Definition fixup (t : tree) : option tree :=
  guard (negb (is_leaf t)) (
  let? t := if red (right t) then rotl t else Some t in
  let? t := if red (left t) && red (left (left t)) then guard (negb (red (right t))) (rotr t) else Some t in
  Some (if red (left t) && red (right t) then flips t else t)).

Definition move_red_right (t : tree) : option tree :=
  let t := flips t in
  guard (negb (is_leaf (left t))) (if red (left (left t)) then let? t := rotr t in Some (flips t) else Some t).

Definition move_red_left (t : tree) : option tree :=
  match flips t with
  | Leaf => None
  | T c l p k r => guard (negb (is_leaf r)) (
      if red (left r) then let? r' := rotr r in let? t := rotl (T c l p k r') in Some (flips t) else Some (T c l p k r))
  end.

(** What [Node_AssertValid] checks, apart from the addresses. *)
Definition valid_node (t : tree) : bool :=
  match t with
  | Leaf => false
  | T c l _ k r =>
    match l with Leaf => true | T _ _ _ kl _ => key_lt kl k end &&
    match r with Leaf => true | T _ _ _ kr _ => key_gt kr k end &&
    negb (is_red c && red l && red r) && (negb (red r) || red l)
  end.

Fixpoint find (t : tree) (key : KEY) : tree :=
  match t with Leaf => Leaf | T c l p k r => if key_eq key k then t else if key_lt key k then find l key else find r key end.

Fixpoint nearest (t : tree) (key : KEY) : tree :=
  match t with Leaf => Leaf | T c l p k r =>
    if key_eq key k then t
    else if key_lt key k then if is_leaf l then t else nearest l key
    else if is_leaf r then t else nearest r key
  end.

Fixpoint find_ge (t best : tree) (key : KEY) : tree :=
  match t with Leaf => best | T c l p k r =>
    if key_eq key k then t else if key_lt key k then find_ge l t key else find_ge r best key end.

(** The step into a subtree, before the node is fixed. *)
Definition ins_below (rec : tree -> option (ERR * tree)) (key : KEY) (t : tree) : option (ERR * tree) :=
  match t with
  | Leaf => None
  | T c l p k r =>
    if key_eq key k then Some (errDuplicateEntry, t)
    else if key_lt key k then let? (err, l') := rec l in Some (err, T c l' p k r)
    else guard (key_gt key k) (let? (err, r') := rec r in Some (err, T c l p k r'))
  end.

Fixpoint ins (key : KEY) (q : Z) (t : tree) : option (ERR * tree) :=
  match t with
  | Leaf => Some (errSuccess, T Red Leaf q key Leaf)
  | T _ _ _ _ _ =>
    let? (err, t) := ins_below (ins key q) key t in
    let? t := fixup t in guard (valid_node t) (Some (err, t))
  end.

Definition wants_red_left (t : tree) : bool := negb (red (left t)) && negb (red (left (left t))).
Definition wants_red_right (t : tree) : bool := negb (red (right t)) && negb (red (left (right t))).

Fixpoint min_entry (fuel : nat) (t : tree) : option (KEY * Z) :=
  match fuel, t with
  | S fuel, T _ l p k _ => if is_leaf l then Some (k, p) else min_entry fuel l
  | _, _ => None
  end.

Fixpoint remove_min (fuel : nat) (t : tree) : option tree :=
  match fuel, t with
  | S fuel, T _ l _ _ r =>
    if is_leaf l then guard (is_leaf r) (Some Leaf) else
    let? t := if wants_red_left t then move_red_left t else Some t in
    match t with Leaf => None | T c l p k r => let? l' := remove_min fuel l in fixup (T c l' p k r) end
  | _, _ => None
  end.

(** The tree that is left and the address of the node taken out. *)
Fixpoint del (fuel : nat) (t : tree) (key : KEY) : option (tree * Z) :=
  match fuel, t with
  | S fuel, T _ l _ k r =>
    if key_lt key k then
      guard (negb (is_leaf l)) (
      let? t := if wants_red_left t then move_red_left t else Some t in
      match t with Leaf => None | T c l p k r => let? (l', a) := del fuel l key in let? t := fixup (T c l' p k r) in Some (t, a) end)
    else
      let? t := if red l then rotr t else Some t in
      match t with Leaf => None | T c l p k r =>
        if key_eq key k && is_leaf r then guard (is_leaf l && is_red c) (Some (Leaf, p)) else
        guard (negb (is_leaf r)) (
        let? t := if wants_red_right t then move_red_right t else Some t in
        match t with Leaf => None | T c l p k r =>
          if key_eq key k then
            let? (kmin, pmin) := min_entry fuel r in
            let? r' := remove_min fuel r in
            let? t := fixup (T c l pmin kmin r') in Some (t, p)
          else let? (r', a) := del fuel r key in let? t := fixup (T c l p k r') in Some (t, a)
        end)
      end
  | _, _ => None
  end.

(** ** The ordered map of a tree *)

Definition elt (a b : KEY * Z) : Prop := key_lt a.1 b.1 = true.
Definition ordered (l : list (KEY * Z)) : Prop := StronglySorted elt l.

Fixpoint linsert (key : KEY) (q : Z) (l : list (KEY * Z)) : list (KEY * Z) :=
  match l with [] => [(key, q)] | e :: r => if key_lt key e.1 then (key, q) :: l else e :: linsert key q r end.

Definition ldelete (key : KEY) (l : list (KEY * Z)) : list (KEY * Z) := List.filter (fun e => negb (key_eq key e.1)) l.
Definition lfind (key : KEY) (l : list (KEY * Z)) : option (KEY * Z) := List.find (fun e => key_eq key e.1) l.
Definition lfind_ge (key : KEY) (l : list (KEY * Z)) : option (KEY * Z) := List.find (fun e => negb (key_lt e.1 key)) l.

End Shape.

(** * The red-black tree: order and balance

    Every operation keeps the entries in order and the tree balanced, makes the
    change of the list of entries that its name says, and meets no assertion that
    fails.  The colour of a root is free in a left-leaning tree; here it follows
    the parity of the height, which is why a root without children is red. *)

Section Props.
Context {KEY : Type} `{KeyOrder KEY}.
Abbreviation tree := (tree KEY).
Implicit Types (t : tree) (key k : KEY) (l : list (KEY * Z)).

(** ** Keys *)

Lemma key_eq_refl k : key_eq k k = true.
Proof. now apply key_eq_spec. Qed.
Lemma key_eq_false a b : key_eq a b = false <-> a <> b.
Proof. rewrite <- not_true_iff_false, key_eq_spec. reflexivity. Qed.
Lemma key_lt_asym a b : key_lt a b = true -> key_lt b a = false.
Proof. intros L. apply not_true_iff_false. intros L'. pose proof (key_lt_trans _ _ _ L L') as C. now rewrite key_lt_irrefl in C. Qed.
Lemma key_lt_neq a b : key_lt a b = true -> key_eq a b = false.
Proof. intros L. apply key_eq_false. intros ->. now rewrite key_lt_irrefl in L. Qed.
Lemma key_lt_neq' a b : key_lt a b = true -> key_eq b a = false.
Proof. intros L. apply key_eq_false. intros ->. now rewrite key_lt_irrefl in L. Qed.

(** The three ways to compare two keys. *)
Lemma key_cases a b : (key_lt a b = true /\ key_eq a b = false) \/ (a = b) \/ (key_lt b a = true /\ key_lt a b = false /\ key_eq a b = false).
Proof.
  destruct (key_lt a b) eqn:L; [left; split; [reflexivity|now apply key_lt_neq]|]. destruct (key_eq a b) eqn:E; [right; left; now apply key_eq_spec|].
  right; right. apply key_eq_false in E. repeat split. now apply key_lt_total.
Qed.

(** ** Ordered lists *)

Lemma ordered_app l1 e l2 : ordered (l1 ++ e :: l2) <-> ordered l1 /\ ordered l2 /\ Forall (fun x => elt x e) l1 /\ Forall (elt e) l2.
Proof.
  unfold ordered. rewrite StronglySorted_app, StronglySorted_cons, !Forall_forall. split.
  - intros (A & S1 & Fe & S2). split; [exact S1|]. split; [exact S2|]. split; [|exact Fe]. intros x Hx. apply A; [exact Hx|left].
  - intros (S1 & S2 & F1 & F2). split; [|tauto]. intros x y Hx Hy. apply elem_of_cons in Hy as [->|Hy]; [now apply F1|]. unfold elt in *. eapply key_lt_trans; [apply F1; exact Hx|now apply F2].
Qed.

Lemma ordered_nodup (l : list (KEY * Z)) : ordered l -> NoDup (map fst l).
Proof.
  induction l as [|e l IH]; intros O; cbn [map]; [constructor|]. apply StronglySorted_cons in O as [F O]. constructor; [|now apply IH].
  intros I. apply list_elem_of_fmap_1 in I as (y & E & Hy). rewrite Forall_forall in F. specialize (F _ Hy). unfold elt in F. rewrite E, key_lt_irrefl in F. discriminate.
Qed.

Definition above (key : KEY) (l : list (KEY * Z)) : Prop := Forall (fun e => key_lt key e.1 = true) l.
Definition below (key : KEY) (l : list (KEY * Z)) : Prop := Forall (fun e => key_lt e.1 key = true) l.

Lemma above_trans key k l : key_lt key k = true -> above k l -> above key l.
Proof. intros L F. apply (Forall_impl _ _ _ F). intros e. now apply key_lt_trans. Qed.
Lemma below_trans key k l : key_lt k key = true -> below k l -> below key l.
Proof. intros L F. apply (Forall_impl _ _ _ F). intros e He. now apply key_lt_trans with k. Qed.

Lemma ldelete_app key (a b : list (KEY * Z)) : ldelete key (a ++ b) = ldelete key a ++ ldelete key b.
Proof. apply List.filter_app. Qed.
Lemma ldelete_above key l : above key l -> ldelete key l = l.
Proof. induction 1 as [|e l L F IH]; [reflexivity|]. unfold ldelete in *. cbn. now rewrite (key_lt_neq _ _ L), IH. Qed.
Lemma ldelete_below key l : below key l -> ldelete key l = l.
Proof. induction 1 as [|e l L F IH]; [reflexivity|]. unfold ldelete in *. cbn. now rewrite (key_lt_neq' _ _ L), IH. Qed.

Lemma lfind_above key l : above key l -> lfind key l = None.
Proof. induction 1 as [|e l L F IH]; [reflexivity|]. unfold lfind in *. cbn. now rewrite (key_lt_neq _ _ L). Qed.
Lemma lfind_below key l (r : list (KEY * Z)) : below key l -> lfind key (l ++ r) = lfind key r.
Proof. induction 1 as [|e l L F IH]; [reflexivity|]. unfold lfind in *. cbn. now rewrite (key_lt_neq' _ _ L). Qed.
Lemma lfind_left key l (r : list (KEY * Z)) : above key r -> lfind key (l ++ r) = lfind key l.
Proof. intros A. induction l as [|e l IH]; cbn; [now apply lfind_above|]. destruct (key_eq key e.1); [reflexivity|exact IH]. Qed.

Lemma linsert_left key q l (r : list (KEY * Z)) : above key r -> linsert key q (l ++ r) = linsert key q l ++ r.
Proof. intros A. induction l as [|e l IH]; cbn. - destruct r as [|e r]; [reflexivity|]. cbn. inversion A as [|? ? L ?]; subst. now rewrite L. - destruct (key_lt key e.1); [reflexivity|]. now rewrite IH. Qed.
Lemma linsert_right key q l (r : list (KEY * Z)) : below key l -> linsert key q (l ++ r) = l ++ linsert key q r.
Proof. induction 1 as [|e l L F IH]; [reflexivity|]. cbn. rewrite (key_lt_asym _ _ L). now rewrite IH. Qed.

Lemma lfind_Some key l e : lfind key l = Some e -> e ∈ l /\ e.1 = key.
Proof. intros F. apply List.find_some in F as [I E]. split; [now apply list_elem_of_In|]. symmetry. now apply key_eq_spec. Qed.
Lemma lfind_elem key l : (exists q, (key, q) ∈ l) -> is_Some (lfind key l).
Proof. intros [q I]. destruct (lfind key l) eqn:F; [eauto|]. apply list_elem_of_In in I. pose proof (List.find_none _ _ F _ I) as N. cbn in N. now rewrite key_eq_refl in N. Qed.
Lemma lfind_mem l k q : ordered l -> (k, q) ∈ l -> lfind k l = Some (k, q).
Proof.
  intros O I. apply list_elem_of_split in I as (a & b & ->). apply ordered_app in O as (_ & _ & B & _). rewrite lfind_below by exact B. cbn. now rewrite key_eq_refl.
Qed.

Lemma ordered_linsert key q l : ordered l -> lfind key l = None -> ordered (linsert key q l).
Proof.
  induction l as [|e l IH]; intros O N; cbn; [repeat constructor|]. cbn in N. destruct (key_eq key e.1) eqn:E; [discriminate|]. apply StronglySorted_cons in O as [F O].
  destruct (key_cases key e.1) as [[L _]|[->|(L & L' & _)]]; [|now rewrite key_eq_refl in E|].
  - rewrite L. apply StronglySorted_cons. split; [|apply StronglySorted_cons; auto]. constructor; [exact L|]. apply (Forall_impl _ _ _ F). intros x. unfold elt. cbn. now apply key_lt_trans.
  - rewrite L'. apply StronglySorted_cons. split; [|now apply IH]. clear -F L. induction l as [|x l IH]; cbn; [constructor; [exact L|constructor]|]. inversion F; subst. destruct (key_lt key x.1); repeat constructor; auto.
Qed.

Lemma ordered_ldelete key l : ordered l -> ordered (ldelete key l).
Proof.
  induction 1 as [|e l O IH F]; cbn; [constructor|]. destruct (negb (key_eq key e.1)); [|exact IH]. apply StronglySorted_cons. split; [|exact IH].
  rewrite Forall_forall in *. intros x Hx. apply F. apply list_elem_of_In in Hx. apply List.filter_In in Hx as [I _]. now apply list_elem_of_In.
Qed.

(** Where a node's key stands among the entries of a tree. *)
Definition tree_ordered t : Prop := ordered (entries t).

Lemma ordered_T c (l : tree) p k (r : tree) : tree_ordered (T c l p k r) <-> tree_ordered l /\ tree_ordered r /\ below k (entries l) /\ above k (entries r).
Proof. unfold tree_ordered. cbn [entries]. rewrite ordered_app. reflexivity. Qed.

(** ** Entries are kept *)

Lemma guard_Some {A} b (x : option A) y : guard b x = Some y -> b = true /\ x = Some y.
Proof. destruct b; cbn; [auto|discriminate]. Qed.

Lemma entries_flip t : entries (flip t) = entries t.
Proof. now destruct t. Qed.
Lemma entries_flips t : entries (flips t) = entries t.
Proof. destruct t; cbn; [reflexivity|]. now rewrite !entries_flip. Qed.
Lemma entries_rotl t t' : rotl t = Some t' -> entries t' = entries t.
Proof. destruct t as [|c l p k [|c2 rl q k2 rr]]; try discriminate. intros [= <-]. cbn. now rewrite <- app_assoc. Qed.
Lemma entries_rotr t t' : rotr t = Some t' -> entries t' = entries t.
Proof. destruct t as [|c [|c2 ll q k2 lr] p k r]; try discriminate. intros [= <-]. cbn. now rewrite <- app_assoc. Qed.


Lemma entries_fixup t t' : fixup t = Some t' -> entries t' = entries t.
Proof.
  unfold fixup. intros F. apply guard_Some in F as [_ F].
  destruct (if red (right t) then rotl t else Some t) as [t1|] eqn:E1; [|discriminate]. assert (X1 : entries t1 = entries t) by (destruct (red (right t)); [now apply entries_rotl|now injection E1 as ->]).
  destruct (if red (left t1) && red (left (left t1)) then guard (negb (red (right t1))) (rotr t1) else Some t1) as [t2|] eqn:E2; [|discriminate].
  assert (X2 : entries t2 = entries t1) by (destruct (red (left t1) && red (left (left t1))); [apply guard_Some in E2 as [_ E2]; now apply entries_rotr|now injection E2 as ->]).
  injection F as <-. destruct (red (left t2) && red (right t2)); rewrite ?entries_flips; congruence.
Qed.

Lemma entries_move_red_right t t' : move_red_right t = Some t' -> entries t' = entries t.
Proof.
  unfold move_red_right. intros F. apply guard_Some in F as [_ F]. destruct (red (left (left (flips t)))); [|injection F as <-; apply entries_flips].
  destruct (rotr (flips t)) as [t1|] eqn:E; [|discriminate]. injection F as <-. rewrite entries_flips, (entries_rotr _ _ E). apply entries_flips.
Qed.

Lemma entries_move_red_left t t' : move_red_left t = Some t' -> entries t' = entries t.
Proof.
  unfold move_red_left. intros F. rewrite <- (entries_flips t). destruct (flips t) as [|c l p k r]; [discriminate|]. apply guard_Some in F as [_ F]. destruct (red (left r)); [|now injection F as <-].
  destruct (rotr r) as [r'|] eqn:E; [|discriminate]. destruct (rotl (T c l p k r')) as [t1|] eqn:E2; [|discriminate]. injection F as <-. rewrite entries_flips, (entries_rotl _ _ E2). cbn. now rewrite (entries_rotr _ _ E).
Qed.

(** ** What each operation does to the entries *)

Definition root_entry t : option (KEY * Z) := match t with Leaf => None | T _ _ p k _ => Some (k, p) end.

Lemma find_spec t key : tree_ordered t -> root_entry (find t key) = lfind key (entries t).
Proof.
  induction t as [|c l IHl p k r IHr]; intros O; [reflexivity|]. apply ordered_T in O as (Ol & Or & B & A). cbn [find entries].
  destruct (key_cases key k) as [[L E]|[->|(L & L' & E)]].
  - rewrite L, E, IHl by exact Ol. symmetry. apply lfind_left. constructor; [exact L|now apply above_trans with k].
  - rewrite key_eq_refl, lfind_below by exact B. unfold lfind. cbn. now rewrite key_eq_refl.
  - rewrite L', E, IHr by exact Or. rewrite lfind_below by now apply below_trans with k. unfold lfind. cbn. now rewrite E.
Qed.

Definition ins_result (key : KEY) (q : Z) (l : list (KEY * Z)) : ERR * list (KEY * Z) :=
  match lfind key l with Some _ => (errDuplicateEntry, l) | None => (errSuccess, linsert key q l) end.

Lemma ordered_ins_result key q l : ordered l -> ordered (ins_result key q l).2.
Proof. intros O. unfold ins_result. destruct (lfind key l) eqn:N; cbn; [exact O|now apply ordered_linsert]. Qed.

Lemma ins_below_entries (rec : tree -> option (ERR * tree)) c (l : tree) p k (r : tree) key q err t1 : tree_ordered (T c l p k r) ->
  (forall err (l' : tree), rec l = Some (err, l') -> (err, entries l') = ins_result key q (entries l)) ->
  (forall err (r' : tree), rec r = Some (err, r') -> (err, entries r') = ins_result key q (entries r)) ->
  ins_below rec key (T c l p k r) = Some (err, t1) -> (err, entries t1) = ins_result key q (entries (T c l p k r)).
Proof.
  intros O IHl IHr E1. apply ordered_T in O as (Ol & Or & B & A). unfold ins_below in E1. unfold ins_result in *. cbn [entries]. destruct (key_cases key k) as [[L N]|[->|(L & L' & N)]].
  - rewrite N, L in E1. destruct (rec l) as [[err2 l']|]; [|discriminate]. injection E1 as <- <-. specialize (IHl _ _ eq_refl).
    assert (Ab : above key ((k, p) :: entries r)) by (constructor; [exact L|now apply above_trans with k]). rewrite lfind_left, linsert_left by exact Ab. cbn [entries].
    destruct (lfind key (entries l)); injection IHl as -> ->; reflexivity.
  - rewrite key_eq_refl in E1. injection E1 as <- <-. rewrite lfind_below by exact B. unfold lfind. cbn. now rewrite key_eq_refl.
  - rewrite N, L' in E1. apply guard_Some in E1 as [_ E1]. destruct (rec r) as [[err2 r']|]; [|discriminate]. injection E1 as <- <-. specialize (IHr _ _ eq_refl).
    assert (Bl : below key (entries l)) by now apply below_trans with k. rewrite lfind_below, linsert_right by exact Bl. cbn [entries linsert fst]. rewrite L'.
    assert (X : lfind key ((k, p) :: entries r) = lfind key (entries r)) by (unfold lfind; cbn; now rewrite N). rewrite X. destruct (lfind key (entries r)); injection IHr as -> ->; reflexivity.
Qed.

Lemma ins_entries t key q err t' : tree_ordered t -> ins key q t = Some (err, t') -> (err, entries t') = ins_result key q (entries t).
Proof.
  revert err t'. induction t as [|c l IHl p k r IHr]; intros err t' O E; [now injection E as <- <-|]. cbn [ins] in E. pose proof O as O'. apply ordered_T in O' as (Ol & Or & _).
  destruct (ins_below (ins key q) key (T c l p k r)) as [[err1 t1]|] eqn:E1; [|discriminate]. destruct (fixup t1) as [t2|] eqn:E2; [|discriminate]. apply guard_Some in E as [_ E]. injection E as <- <-.
  rewrite (entries_fixup _ _ E2). eapply ins_below_entries; [exact O| | |exact E1]; auto.
Qed.

Lemma min_entry_spec fuel t e : min_entry fuel t = Some e -> exists l, entries t = e :: l.
Proof.
  revert t. induction fuel as [|fuel IH]; intros [|c l p k r] E; try discriminate. cbn [min_entry] in E. destruct l as [|lc ll lp lk lr]; cbn [is_leaf] in E.
  - injection E as <-. now exists (entries r).
  - apply IH in E as [x X]. cbn [entries] in *. rewrite X. eauto.
Qed.

Lemma remove_min_spec fuel t t' : remove_min fuel t = Some t' -> exists e, entries t = e :: entries t'.
Proof.
  revert t t'. induction fuel as [|fuel IH]; intros [|c l p k r] t' E; try discriminate. cbn [remove_min] in E. destruct (is_leaf l) eqn:L.
  - apply guard_Some in E as [R E]. injection E as <-. destruct l, r; try discriminate. now exists (k, p).
  - destruct (if wants_red_left (T c l p k r) then move_red_left (T c l p k r) else Some (T c l p k r)) as [t1|] eqn:E1; [|discriminate].
    assert (X : entries t1 = entries (T c l p k r)) by (destruct (wants_red_left _); [now apply entries_move_red_left|now injection E1 as <-]).
    rewrite <- X. clear X E1. destruct t1 as [|c1 l1 p1 k1 r1]; [discriminate|]. destruct (remove_min fuel l1) as [l1'|] eqn:E2; [|discriminate]. apply IH in E2 as [e E2]. exists e. rewrite (entries_fixup _ _ E). cbn [entries]. now rewrite E2.
Qed.

(** A key in one part of an ordered tree. *)
Lemma in_left c (l : tree) p k (r : tree) key a : tree_ordered (T c l p k r) -> lfind key (entries l) = Some (key, a) ->
  lfind key (entries (T c l p k r)) = Some (key, a) /\ ldelete key (entries (T c l p k r)) = ldelete key (entries l) ++ (k, p) :: entries r.
Proof.
  intros O F. apply ordered_T in O as (Ol & Or & B & A). cbn [entries]. pose proof (lfind_Some _ _ _ F) as [I _]. unfold below in B. rewrite Forall_forall in B. specialize (B _ I). cbn in B.
  assert (Ab : above key ((k, p) :: entries r)) by (constructor; [exact B|now apply above_trans with k]). rewrite lfind_left, ldelete_app, (ldelete_above _ ((k, p) :: entries r)) by exact Ab. auto.
Qed.

Lemma in_here c (l : tree) p k (r : tree) : tree_ordered (T c l p k r) ->
  lfind k (entries (T c l p k r)) = Some (k, p) /\ ldelete k (entries (T c l p k r)) = entries l ++ entries r.
Proof.
  intros O. apply ordered_T in O as (Ol & Or & B & A). cbn [entries]. rewrite lfind_below, ldelete_app, (ldelete_below _ _ B) by exact B. unfold lfind, ldelete at 1. cbn. rewrite key_eq_refl. cbn.
  split; [reflexivity|]. f_equal. now apply ldelete_above.
Qed.

Lemma in_right c (l : tree) p k (r : tree) key a : tree_ordered (T c l p k r) -> lfind key (entries r) = Some (key, a) ->
  lfind key (entries (T c l p k r)) = Some (key, a) /\ ldelete key (entries (T c l p k r)) = entries l ++ (k, p) :: ldelete key (entries r).
Proof.
  intros O F. apply ordered_T in O as (Ol & Or & B & A). cbn [entries]. pose proof (lfind_Some _ _ _ F) as [I _]. unfold above in A. rewrite Forall_forall in A. specialize (A _ I). cbn in A.
  assert (Bl : below key (entries l)) by now apply below_trans with k. rewrite lfind_below, ldelete_app, (ldelete_below _ _ Bl) by exact Bl. unfold lfind, ldelete at 1. cbn. rewrite (key_lt_neq' _ _ A). auto.
Qed.

Lemma del_entries fuel t key t' a : tree_ordered t -> del fuel t key = Some (t', a) -> lfind key (entries t) = Some (key, a) /\ entries t' = ldelete key (entries t).
Proof.
  revert t t' a. induction fuel as [|fuel IH]; intros [|c l p k r] t' a O E; try discriminate. cbn [del] in E. destruct (key_lt key k).
  - apply guard_Some in E as [_ E]. destruct (if wants_red_left (T c l p k r) then move_red_left (T c l p k r) else Some (T c l p k r)) as [t1|] eqn:E1; [|discriminate].
    assert (X : entries t1 = entries (T c l p k r)) by (destruct (wants_red_left _); [now apply entries_move_red_left|now injection E1 as <-]).
    unfold tree_ordered in O. rewrite <- X in *. clear X E1. fold (tree_ordered t1) in O. destruct t1 as [|c1 l1 p1 k1 r1]; [discriminate|]. destruct (del fuel l1 key) as [[l1' a1]|] eqn:E2; [|discriminate].
    destruct (fixup (T c1 l1' p1 k1 r1)) as [t2|] eqn:E3; [|discriminate]. injection E as <- <-. pose proof (proj1 (ordered_T _ _ _ _ _) O) as (Ol & _). apply IH in E2 as [E2 E4]; [|exact Ol].
    rewrite (entries_fixup _ _ E3). destruct (in_left _ _ _ _ _ _ _ O E2) as [-> ->]. cbn [entries]. now rewrite E4.
  - destruct (if red l then rotr (T c l p k r) else Some (T c l p k r)) as [t1|] eqn:E1; [|discriminate].
    assert (X : entries t1 = entries (T c l p k r)) by (destruct (red l); [now apply entries_rotr|now injection E1 as <-]).
    unfold tree_ordered in O. rewrite <- X in *. clear X E1. fold (tree_ordered t1) in O. clear c l p k r. destruct t1 as [|c l p k r]; [discriminate|]. destruct (key_eq key k && is_leaf r) eqn:E0.
    { apply andb_true_iff in E0 as [K R]. apply key_eq_spec in K as ->. destruct r; [|discriminate]. apply guard_Some in E as [G E]. apply andb_true_iff in G as [G _]. destruct l; [|discriminate]. injection E as <- <-. cbn. rewrite key_eq_refl. auto. }
    apply guard_Some in E as [_ E]. clear E0. destruct (if wants_red_right (T c l p k r) then move_red_right (T c l p k r) else Some (T c l p k r)) as [t2|] eqn:E1; [|discriminate].
    assert (X : entries t2 = entries (T c l p k r)) by (destruct (wants_red_right _); [now apply entries_move_red_right|now injection E1 as <-]).
    unfold tree_ordered in O. rewrite <- X in *. clear X E1. fold (tree_ordered t2) in O. clear c l p k r. destruct t2 as [|c l p k r]; [discriminate|]. destruct (key_eq key k) eqn:K.
    + apply key_eq_spec in K as ->. destruct (min_entry fuel r) as [[kmin pmin]|] eqn:E2; [|discriminate]. destruct (remove_min fuel r) as [r'|] eqn:E3; [|discriminate].
      destruct (fixup (T c l pmin kmin r')) as [t3|] eqn:E4; [|discriminate]. injection E as <- <-. rewrite (entries_fixup _ _ E4). destruct (in_here _ _ _ _ _ O) as [-> ->]. split; [reflexivity|]. cbn [entries].
      apply min_entry_spec in E2 as [x E2]. apply remove_min_spec in E3 as [e E3]. rewrite E3 in *. now injection E2 as -> _.
    + destruct (del fuel r key) as [[r' a1]|] eqn:E2; [|discriminate]. destruct (fixup (T c l p k r')) as [t3|] eqn:E3; [|discriminate]. injection E as <- <-. pose proof (proj1 (ordered_T _ _ _ _ _) O) as (_ & Or & _). apply IH in E2 as [E2 E4]; [|exact Or].
      rewrite (entries_fixup _ _ E3). destruct (in_right _ _ _ _ _ _ _ O E2) as [-> ->]. cbn [entries]. now rewrite E4.
Qed.

End Props.
