(* ===== verification/RbBalance.v ===== *)
(** * The red-black tree: balance

    Paths of a tree have the same number of black nodes, a right child is black
    and so are the children of a red node.  The colour of the root of the tree is
    free in the code; it follows the parity of the height.  On such trees no
    operation fails. *)

From stdpp Require Import base gmap list sorting.
From Stdlib Require Import ZArith Lia Bool.
From S2P Require Import Prelude RbTree RbShape.

Section Balance.
Context {KEY : Type} `{KeyOrder KEY}.
Abbreviation tree := (tree KEY).
Implicit Types (l r t : tree) (k key : KEY).

(** Subtrees with [n] black nodes on each path. *)
Fixpoint bal (t : tree) (n : nat) : Prop :=
  match t with
  | Leaf => n = O
  | T Red l _ _ r => bal l n /\ bal r n /\ red l = false /\ red r = false
  | T Black l _ _ r => match n with O => False | S m => bal l m /\ bal r m /\ red r = false end
  end.

(** The parts below a node, whose own colour is free. *)
Definition parts (l r : tree) (n : nat) : Prop := bal l n /\ bal r n /\ red r = false.

(** A tree whose root's colour follows the height. *)
Definition parity (n : nat) : RedBlackTreeColor := if Nat.even n then Red else Black.
Definition top (t : tree) : Prop := match t with Leaf => True | T c l _ _ r => exists n, parts l r n /\ c = parity n end.

Lemma neg_neg c : neg (neg c) = c.
Proof. now destruct c. Qed.
Lemma parity_S n : parity (S n) = neg (parity n).
Proof. unfold parity. rewrite Nat.even_succ, <- Nat.negb_even. now destruct (Nat.even n). Qed.
Lemma neg_parity_S n : neg (parity (S n)) = parity n.
Proof. rewrite parity_S. apply neg_neg. Qed.

Lemma bal_black t n : bal t (S n) -> red t = false -> exists l p k r, t = T Black l p k r /\ parts l r n.
Proof. destruct t as [|[] l p k r]; cbn; [discriminate|discriminate|]. intros B _. exists l, p, k, r. auto. Qed.
Lemma bal_red t n : bal t n -> red t = true -> exists l p k r, t = T Red l p k r /\ bal l n /\ bal r n /\ red l = false /\ red r = false.
Proof. destruct t as [|[] l p k r]; cbn; try discriminate. intros B _. exists l, p, k, r. tauto. Qed.
Lemma bal_0 t : bal t O -> red t = false -> t = Leaf.
Proof. destruct t as [|[] l p k r]; cbn; [auto|discriminate|tauto]. Qed.

(** [flip] changes the count by one. *)
Lemma bal_flip_red t n : bal t n -> red t = true -> bal (flip t) (S n) /\ red (flip t) = false.
Proof. destruct t as [|[] l p k r]; cbn; try discriminate. tauto. Qed.

(** ** Fixing a node *)

(** Both children are in order but may be red. *)
Lemma fixup_still c l p k r : red r = false -> red l && red (left l) = false -> fixup (T c l p k r) = Some (T c l p k r).
Proof. intros R L. unfold fixup. cbn [guard negb is_leaf right left]. rewrite R. cbn [left right]. rewrite L. cbn [left right]. now rewrite R, andb_false_r. Qed.

Lemma fixup_lean c l p k rl q k2 rr : red l = false -> red rr = false ->
  fixup (T c l p k (T Red rl q k2 rr)) = Some (T c (T Red l p k rl) q k2 rr).
Proof. intros L R. unfold fixup. cbn. rewrite L. cbn. now rewrite R. Qed.

Lemma fixup_both c l p k r : red l = true -> red (left l) = false -> red r = true -> red (right r) = false ->
  fixup (T c l p k r) = Some (T (neg c) (flip l) p k (flip r)).
Proof.
  intros L L' R R'. destruct r as [|[] rl q k2 rr]; try discriminate. destruct l as [|[] ll lp lk lr]; try discriminate. cbn in L', R'. unfold fixup. cbn. rewrite R'. cbn. reflexivity.
Qed.

Lemma fixup_red_red c a p k b q k2 d : red a = true -> red d = false ->
  fixup (T c (T Red a p k b) q k2 d) = Some (T (neg c) (flip a) p k (T Black b q k2 d)).
Proof. intros A D. unfold fixup. cbn. rewrite D. cbn. rewrite A. cbn. rewrite ?D. cbn. rewrite A. reflexivity. Qed.

(** What fixing a node with balanced children gives. *)
Lemma fixup_bal c l p k r n : bal l n -> bal r n -> exists c' l' p' k' r', fixup (T c l p k r) = Some (T c' l' p' k' r') /\
  ((c' = c /\ parts l' r' n /\ (red r = false -> l' = l)) \/ (c' = neg c /\ parts l' r' (S n) /\ red l' = false /\ red l = true /\ red r = true)).
Proof.
  intros Bl Br. destruct (red r) eqn:R.
  - destruct (bal_red _ _ Br R) as (rl & q & k2 & rr & -> & B1 & B2 & R1 & R2). destruct (red l) eqn:L.
    + destruct (bal_red _ _ Bl L) as (ll & lp & lk & lr & -> & B3 & B4 & R3 & R4). rewrite fixup_both by (cbn; auto). do 5 eexists. split; [reflexivity|]. right. split; [reflexivity|]. unfold parts. cbn. tauto.
    + rewrite fixup_lean by auto. do 5 eexists. split; [reflexivity|]. left. split; [reflexivity|]. unfold parts. cbn. split; [tauto|discriminate].
  - assert (E : red l && red (left l) = false) by (destruct l as [|[] ll lp lk lr]; cbn in *; tauto). rewrite fixup_still by auto. do 5 eexists. split; [reflexivity|]. left. unfold parts. tauto.
Qed.

(** ** The check of a node *)

Lemma root_key_in t k p c l r : t = T c l p k r -> (k, p) ∈ entries t.
Proof. intros ->. cbn. apply elem_of_app. right. left. Qed.

Lemma valid_node_parts c l p k r n : tree_ordered (T c l p k r) -> parts l r n -> valid_node (T c l p k r) = true.
Proof.
  intros O (Bl & Br & R). apply ordered_T in O as (_ & _ & B & A). cbn. rewrite R, andb_false_r. cbn. rewrite andb_true_r.
  unfold above, below in *. rewrite Forall_forall in A, B. apply andb_true_iff. split; [apply andb_true_iff; split|reflexivity].
  - destruct l as [|c2 ll lp lk lr]; [reflexivity|]. apply (B (lk, lp)). cbn. apply elem_of_app. right. left.
  - destruct r as [|c2 rl rp rk rr]; [reflexivity|]. rewrite key_gt_lt. apply (A (rk, rp)). cbn. apply elem_of_app. right. left.
Qed.

(** ** Insertion *)

(** A red node whose left child may be red too. *)
Definition semi (t : tree) (n : nat) : Prop := exists l p k r, t = T Red l p k r /\ parts l r n.

Definition ins_ok (key : KEY) (q : Z) (t : tree) : Prop :=
  forall n, bal t n -> tree_ordered t -> exists err t', ins key q t = Some (err, t') /\ (if red t then semi t' n else bal t' n).

(** The node after its left or right subtree was changed. *)
Lemma fixup_ins_left c l' p k r n : (bal l' n \/ semi l' n) -> bal r n -> red r = false -> exists c' l2 p' k' r', fixup (T c l' p k r) = Some (T c' l2 p' k' r') /\
  ((c' = c /\ parts l2 r' n /\ (bal l' n -> l2 = l')) \/ (c' = neg c /\ parts l2 r' (S n) /\ red l2 = false /\ ~ bal l' n)).
Proof.
  intros [B|(a & lp & lk & b & -> & Ba & Bb & Rb)] Br R.
  - destruct (fixup_bal c l' p k r n B Br) as (c' & l2 & p' & k' & r' & E & [(-> & P & X)|(_ & _ & _ & _ & X)]); [|congruence]. do 5 eexists. split; [exact E|]. left. auto.
  - destruct (red a) eqn:Ra.
    + rewrite fixup_red_red by auto. do 5 eexists. split; [reflexivity|]. right. destruct (bal_flip_red a n Ba Ra) as [Fa Fb]. unfold parts. split; [reflexivity|]. split; [split; [exact Fa|split; [cbn; auto|reflexivity]]|]. split; [exact Fb|]. cbn. rewrite Ra. intros (_ & _ & X & _). discriminate.
    + rewrite fixup_still by (cbn; auto). do 5 eexists. split; [reflexivity|]. left. split; [reflexivity|]. split; [|reflexivity]. unfold parts. cbn. tauto.
Qed.

Lemma fixup_ins_right c l p k r' n : bal l n -> bal r' n -> exists c' l2 p' k' r2, fixup (T c l p k r') = Some (T c' l2 p' k' r2) /\
  ((c' = c /\ parts l2 r2 n) \/ (c' = neg c /\ parts l2 r2 (S n) /\ red l2 = false /\ red l = true)).
Proof. intros Bl Br. destruct (fixup_bal c l p k r' n Bl Br) as (c' & l2 & p' & k' & r2 & E & X). do 5 eexists. split; [exact E|]. tauto. Qed.

(** At a node whose colour is free. *)
Lemma ins_node c l p k r n key q : ins_ok key q l -> ins_ok key q r -> tree_ordered (T c l p k r) -> parts l r n -> exists err c' l' p' k' r', ins key q (T c l p k r) = Some (err, T c' l' p' k' r') /\
  ((c' = c /\ parts l' r' n) \/ (c' = neg c /\ parts l' r' (S n) /\ red l' = false /\ red l = true)).
Proof.
  intros Il Ir O (Bl & Br & R). pose proof O as O'. apply ordered_T in O' as (Ol & Or & _).
  assert (Main : exists err t1 c' l' p' k' r', ins_below (ins key q) key (T c l p k r) = Some (err, t1) /\ fixup t1 = Some (T c' l' p' k' r') /\
      ((c' = c /\ parts l' r' n) \/ (c' = neg c /\ parts l' r' (S n) /\ red l' = false /\ red l = true))).
  { unfold ins_below. destruct (key_cases key k) as [[L E]|[->|(L & L' & E)]].
    - rewrite E, L. destruct (Il n Bl Ol) as (err & l' & -> & X). assert (X' : bal l' n \/ semi l' n) by (destruct (red l); auto). destruct (fixup_ins_left c l' p k r n X' Br R) as (c' & l2 & p' & k' & r' & F & Y).
      exists err. do 6 eexists. split; [reflexivity|]. split; [exact F|]. destruct Y as [Y|(Y1 & Y2 & Y3 & Y4)]; [tauto|]. right. destruct (red l); tauto.
    - rewrite key_eq_refl. destruct (fixup_ins_right c l p k r n Bl Br) as (c' & l2 & p' & k' & r' & F & Y). do 7 eexists. split; [reflexivity|]. split; [exact F|]. tauto.
    - rewrite E, L', key_gt_lt, L. cbn [guard]. destruct (Ir n Br Or) as (err & r' & -> & X). rewrite R in X. destruct (fixup_ins_right c l p k r' n Bl X) as (c' & l2 & p' & k' & r2 & F & Y). exists err. do 6 eexists. split; [reflexivity|]. split; [exact F|]. tauto. }
  destruct Main as (err & t1 & c' & l' & p' & k' & r' & E1 & F & Y).
  assert (O2 : tree_ordered (T c' l' p' k' r')).
  { unfold tree_ordered. rewrite (entries_fixup _ _ F). pose proof (ordered_ins_result key q _ O) as X. rewrite <- (ins_below_entries (ins key q) c l p k r key q err t1 O) in X; [exact X| | |exact E1]; intros; now apply ins_entries. }
  exists err, c', l', p', k', r'. split; [|exact Y]. cbn [ins]. rewrite E1, F. assert (Q : parts l' r' n \/ parts l' r' (S n)) by tauto. destruct Q as [Q|Q]; now rewrite (valid_node_parts _ _ _ _ _ _ O2 Q).
Qed.

Lemma ins_balanced key q t : ins_ok key q t.
Proof.
  induction t as [|c l IHl p k r IHr]; intros n B O.
  - cbn in B. subst n. do 2 eexists. split; [reflexivity|]. cbn. auto.
  - destruct c; cbn [red].
    + destruct B as (Bl & Br & Rl & Rr). destruct (ins_node Red l p k r n key q IHl IHr O (conj Bl (conj Br Rr))) as (err & c' & l' & p' & k' & r' & E & [[-> P]|(_ & _ & _ & X)]); [|congruence]. exists err. eexists. split; [exact E|]. unfold semi. eauto 8.
    + destruct n as [|n]; [contradiction|]. destruct (ins_node Black l p k r n key q IHl IHr O B) as (err & c' & l' & p' & k' & r' & E & [[-> P]|(-> & (P1 & P2 & P3) & X & _)]); exists err; eexists; (split; [exact E|]); cbn; [exact P|tauto].
Qed.

(** Insertion at the root. *)
Lemma ins_top key q t : top t -> tree_ordered t -> exists err t', ins key q t = Some (err, t') /\ top t'.
Proof.
  intros P O. destruct t as [|c l p k r]; [do 2 eexists; split; [reflexivity|]; exists 0%nat; unfold parts; cbn; auto|]. destruct P as (n & P & ->).
  destruct (ins_node (parity n) l p k r n key q (ins_balanced key q l) (ins_balanced key q r) O P) as (err & c' & l' & p' & k' & r' & E & [[-> P']|(-> & P' & _)]); exists err; eexists; (split; [exact E|]); cbn; [eauto|]. exists (S n). rewrite parity_S. auto.
Qed.

End Balance.

(** * The red-black tree: deletion keeps the balance

    A deletion goes down with a red node at hand, at the node itself, at its left
    child or, after a rotation, at its right child; the colour of the node where
    it starts is free. *)

Section Delete.
Context {KEY : Type} `{KeyOrder KEY}.
Abbreviation tree := (tree KEY).
Implicit Types (l r t : tree) (k key : KEY).

Definition size t : nat := length (entries t).

Lemma size_T c l p k r : size (T c l p k r) = S (size l + size r).
Proof. unfold size. cbn. rewrite length_app. cbn. lia. Qed.

(** ** What a deletion leaves *)

(** The node kept its colour. *)
Definition same (c : RedBlackTreeColor) (t : tree) (n : nat) : Prop := exists l p k r, t = T c l p k r /\ parts l r n.

(** The node gave its colour to one below. *)
Definition down (c : RedBlackTreeColor) (t : tree) (n : nat) : Prop :=
  (t = Leaf /\ n = O) \/ (exists l p k r, t = T c l p k r /\ parts l r n /\ red l = false) \/
  (exists m l p k r, n = S m /\ t = T (neg c) l p k r /\ parts l r m).

(** A black node with a red left child, with a red right child. *)
Definition three (t : tree) (n : nat) : Prop := exists l p k r, t = T Black l p k r /\ parts l r n /\ red l = true.
Definition leaning (key : KEY) (t : tree) (n : nat) : Prop :=
  exists l p k r, t = T Black l p k r /\ bal l n /\ bal r n /\ red l = false /\ red r = true /\ key_lt key k = false.

Lemma down_red t n : down Red t n -> bal t n.
Proof. intros [[-> ->]|[(l & p & k & r & -> & (B1 & B2 & R) & L)|(m & l & p & k & r & -> & -> & B1 & B2 & R)]]; cbn; auto. Qed.
Lemma same_black t n : same Black t n -> bal t (S n) /\ red t = false.
Proof. intros (l & p & k & r & -> & P). auto. Qed.

(** Fixing the node on the way back. *)
Lemma finish_same c l p k r n : bal l n -> bal r n -> (red l = false \/ red r = false) -> exists t', fixup (T c l p k r) = Some t' /\ same c t' n.
Proof.
  intros Bl Br R. destruct (fixup_bal c l p k r n Bl Br) as (c' & l' & p' & k' & r' & E & [(-> & P & _)|(_ & _ & _ & L & R')]); [|destruct R; congruence].
  eexists. split; [exact E|]. unfold same. eauto 8.
Qed.

Lemma finish_still c l p k r n : bal l n -> bal r n -> red l = false -> red r = false -> exists t', fixup (T c l p k r) = Some t' /\ down c t' n.
Proof. intros Bl Br L R. rewrite fixup_still by (try rewrite L; auto). eexists. split; [reflexivity|]. right. left. unfold parts. eauto 10. Qed.

Lemma finish_down c l p k r n : bal l n -> bal r n -> exists t', fixup (T (neg c) l p k r) = Some t' /\ down c t' (S n).
Proof.
  intros Bl Br. destruct (fixup_bal (neg c) l p k r n Bl Br) as (c' & l' & p' & k' & r' & E & [(-> & P & _)|(-> & P & L & _)]); eexists; (split; [exact E|]); right; [right|left; rewrite neg_neg]; eauto 12.
Qed.

(** ** Going down *)

Lemma go_left c l p k r n : bal l n -> bal r n -> red l = false -> red r = false -> is_leaf l = false ->
  exists m c1 l1 p1 k1 r1, (if wants_red_left (T c l p k r) then move_red_left (T c l p k r) else Some (T c l p k r)) = Some (T c1 l1 p1 k1 r1) /\
    n = S m /\ (exists x, entries l1 = entries l ++ x) /\
    ((c1 = c /\ three l1 m /\ bal r1 (S m) /\ red r1 = false) \/ (c1 = neg c /\ bal l1 m /\ red l1 = true /\ bal r1 m /\ red r1 = true)).
Proof.
  intros Bl Br Rl Rr Nl. destruct n as [|m]; [apply bal_0 in Bl; [subst; discriminate|exact Rl]|]. exists m.
  destruct (bal_black _ _ Bl Rl) as (ll & lp & lk & lr & -> & Pl). destruct (bal_black _ _ Br Rr) as (rl & rp & rk & rr & -> & B1 & B2 & R1).
  unfold wants_red_left. cbn [left red negb andb]. destruct (red ll) eqn:Rll; cbn [negb].
  - do 5 eexists. split; [reflexivity|]. split; [reflexivity|]. split; [exists []; now rewrite app_nil_r|]. left. split; [reflexivity|]. split; [unfold three; eauto 8|]. auto.
  - destruct Pl as (B3 & B4 & R2). unfold move_red_left. cbn [flips flip is_leaf negb guard left]. destruct (red rl) eqn:Rrl.
    + destruct rl as [|[] a ap ak b]; try discriminate. destruct B1 as (Ba & Bb & Ra & Rb). cbn. do 5 eexists. split; [reflexivity|]. split; [reflexivity|]. rewrite !neg_neg. split; [exists ((k, p) :: entries a); reflexivity|].
      left. split; [reflexivity|]. split; [|cbn; tauto]. do 4 eexists. split; [reflexivity|]. unfold parts. cbn in *. tauto.
    + do 5 eexists. split; [reflexivity|]. split; [reflexivity|]. split; [exists []; now rewrite app_nil_r|]. right. cbn. auto 10.
Qed.

Lemma go_right c l p k r n key : bal l n -> bal r n -> red l = false -> red r = false -> is_leaf r = false -> key_lt key k = false ->
  exists m c1 l1 p1 k1 r1, (if wants_red_right (T c l p k r) then move_red_right (T c l p k r) else Some (T c l p k r)) = Some (T c1 l1 p1 k1 r1) /\
    n = S m /\ ((k1 = k /\ ((c1 = c /\ three r1 m /\ bal l1 (S m) /\ red l1 = false) \/ (c1 = neg c /\ bal l1 m /\ bal r1 m /\ red r1 = true))) \/
                ((k1, p1) ∈ entries l /\ c1 = c /\ leaning key r1 m /\ bal l1 (S m) /\ red l1 = false)).
Proof.
  intros Bl Br Rl Rr Nr Hk. destruct n as [|m]; [apply bal_0 in Br; [subst; discriminate|exact Rr]|]. exists m.
  destruct (bal_black _ _ Bl Rl) as (ll & lp & lk & lr & -> & B1 & B2 & R1). destruct (bal_black _ _ Br Rr) as (rl & rp & rk & rr & -> & Pr).
  unfold wants_red_right. cbn [left right red negb andb]. destruct (red rl) eqn:Rrl; cbn [negb].
  - do 5 eexists. split; [reflexivity|]. split; [reflexivity|]. left. split; [reflexivity|]. left. split; [reflexivity|]. split; [unfold three; eauto 8|]. cbn. auto.
  - destruct Pr as (B3 & B4 & R2). unfold move_red_right. cbn [flips flip is_leaf negb guard left]. destruct (red ll) eqn:Rll.
    + cbn. destruct ll as [|[] a ap ak b]; try discriminate. do 5 eexists. split; [reflexivity|]. split; [reflexivity|]. right. rewrite neg_neg. split; [apply elem_of_app; right; left|]. split; [reflexivity|].
      split; [do 4 eexists; split; [reflexivity|]; cbn; auto 10|]. cbn in *. tauto.
    + do 5 eexists. split; [reflexivity|]. split; [reflexivity|]. left. split; [reflexivity|]. right. cbn. auto 10.
Qed.

(** ** The smallest entry *)

Lemma min_entry_total fuel t : is_leaf t = false -> (size t <= fuel)%nat -> is_Some (min_entry fuel t).
Proof.
  revert t. induction fuel as [|fuel IH]; intros [|c l p k r] L F; try discriminate; rewrite size_T in F; [lia|]. cbn [min_entry]. destruct (is_leaf l) eqn:E; [eauto|]. apply IH; [exact E|lia].
Qed.

Definition remove_min_ok (fuel : nat) : Prop := forall c l p k r n, (size (T c l p k r) <= fuel)%nat -> bal l n -> bal r n -> red r = false ->
  exists t', remove_min fuel (T c l p k r) = Some t' /\ (if red l then same c t' n else down c t' n).

Lemma remove_min_red fuel t n : remove_min_ok fuel -> (size t <= fuel)%nat -> bal t n -> red t = true -> exists t', remove_min fuel t = Some t' /\ bal t' n.
Proof. intros IH F B R. destruct (bal_red _ _ B R) as (l & p & k & r & -> & Bl & Br & Rl & Rr). destruct (IH Red l p k r n F Bl Br Rr) as (t' & E & X). rewrite Rl in X. eauto using down_red. Qed.
Lemma remove_min_three fuel t n : remove_min_ok fuel -> (size t <= fuel)%nat -> three t n -> exists t', remove_min fuel t = Some t' /\ bal t' (S n) /\ red t' = false.
Proof. intros IH F (l & p & k & r & -> & (Bl & Br & Rr) & Rl). destruct (IH Black l p k r n F Bl Br Rr) as (t' & E & X). rewrite Rl in X. eauto using same_black. Qed.

Lemma remove_min_balanced fuel : remove_min_ok fuel.
Proof.
  induction fuel as [|fuel IH]; intros c l p k r n F Bl Br Rr; [rewrite size_T in F; lia|]. cbn [remove_min]. destruct (is_leaf l) eqn:Ll.
  - destruct l; [|discriminate]. cbn in Bl. subst n. apply bal_0 in Br; [subst|exact Rr]. cbn. eexists. split; [reflexivity|]. now left.
  - destruct (red l) eqn:Rl.
    + unfold wants_red_left. cbn [left]. rewrite Rl. cbn [negb andb]. rewrite size_T in F. destruct (remove_min_red fuel l n IH ltac:(lia) Bl Rl) as (l' & -> & B'). apply finish_same; auto.
    + destruct (go_left c l p k r n Bl Br Rl Rr Ll) as (m & c1 & l1 & p1 & k1 & r1 & E & -> & _ & X). rewrite E.
      assert (F1 : (size l1 <= fuel)%nat).
      { assert (Y : size (T c1 l1 p1 k1 r1) = size (T c l p k r)) by (unfold size; destruct (wants_red_left _); [now rewrite (entries_move_red_left _ _ E)|now injection E as <- <- <- <- <-]). rewrite size_T in Y. lia. }
      destruct X as [(-> & X1 & X2 & X3)|(-> & X1 & X2 & X3 & X4)].
      * destruct (remove_min_three fuel l1 m IH F1 X1) as (l' & -> & B' & R'). now apply finish_still.
      * destruct (remove_min_red fuel l1 m IH F1 X1 X2) as (l' & -> & B'). now apply finish_down.
Qed.

(** ** Where the key is *)

Definition present key t : Prop := is_Some (lfind key (entries t)).

Lemma present_left c l p k r key : tree_ordered (T c l p k r) -> present key (T c l p k r) -> key_lt key k = true -> present key l.
Proof. intros O P L. apply ordered_T in O as (_ & _ & _ & A). unfold present in *. cbn [entries] in P. rewrite lfind_left in P; [exact P|]. constructor; [exact L|now apply above_trans with k]. Qed.

Lemma present_right c l p k r key : tree_ordered (T c l p k r) -> present key (T c l p k r) -> key_lt key k = false -> key_eq key k = false -> present key r.
Proof.
  intros O P L N. apply ordered_T in O as (_ & _ & B & _). unfold present in *. cbn [entries] in P. destruct (key_cases key k) as [[L' _]|[->|(L' & _)]]; [congruence|now rewrite key_eq_refl in N|].
  rewrite lfind_below in P by now apply below_trans with k. unfold lfind in P. cbn in P. now rewrite N in P.
Qed.

Lemma present_prefix key l t x : present key l -> entries t = entries l ++ x -> present key t.
Proof. intros [e F] E. unfold present. rewrite E. clear E. unfold lfind in *. induction (entries l) as [|y z IH]; [discriminate|]. cbn in *. destruct (key_eq key y.1); [eauto|now apply IH]. Qed.

Lemma present_not_leaf key t : present key t -> is_leaf t = false.
Proof. intros [e F]. destruct t; [discriminate|reflexivity]. Qed.

Lemma not_lt_trans key k k1 : key_lt key k = false -> key_lt k1 k = true -> key_lt key k1 = false /\ key_eq key k1 = false.
Proof.
  intros N L. destruct (key_cases key k) as [[L' _]|[->|(L' & _)]]; [congruence|split; [now apply key_lt_asym|now apply key_lt_neq']|].
  pose proof (key_lt_trans _ _ _ L L') as L2. split; [now apply key_lt_asym|now apply key_lt_neq'].
Qed.

(** ** Deletion *)

Definition del_node_ok (fuel : nat) : Prop := forall c l p k r n key, (size (T c l p k r) <= fuel)%nat -> tree_ordered (T c l p k r) -> present key (T c l p k r) ->
  bal l n -> bal r n ->
  (red r = false -> (n = O -> red l = false -> c = Red) -> exists t' a, del fuel (T c l p k r) key = Some (t', a) /\ (if red l then same c t' n else down c t' n)) /\
  (red l = false -> red r = true -> key_lt key k = false -> exists t' a, del fuel (T c l p k r) key = Some (t', a) /\ same c t' n).

Lemma del_red fuel t n key : del_node_ok fuel -> (size t <= fuel)%nat -> tree_ordered t -> present key t -> bal t n -> red t = true -> exists t' a, del fuel t key = Some (t', a) /\ bal t' n.
Proof.
  intros IH F O P B R. destruct (bal_red _ _ B R) as (l & p & k & r & -> & Bl & Br & Rl & Rr). destruct (IH Red l p k r n key F O P Bl Br) as [D _]. destruct (D Rr ltac:(auto)) as (t' & a & E & X). rewrite Rl in X. eauto using down_red.
Qed.

Lemma del_three fuel t n key : del_node_ok fuel -> (size t <= fuel)%nat -> tree_ordered t -> present key t -> three t n -> exists t' a, del fuel t key = Some (t', a) /\ bal t' (S n) /\ red t' = false.
Proof.
  intros IH F O P (l & p & k & r & -> & (Bl & Br & Rr) & Rl). destruct (IH Black l p k r n key F O P Bl Br) as [D _]. destruct (D Rr ltac:(congruence)) as (t' & a & E & X). rewrite Rl in X. eauto using same_black.
Qed.

Lemma del_leaning fuel t n key : del_node_ok fuel -> (size t <= fuel)%nat -> tree_ordered t -> present key t -> leaning key t n -> exists t' a, del fuel t key = Some (t', a) /\ bal t' (S n) /\ red t' = false.
Proof.
  intros IH F O P (l & p & k & r & -> & Bl & Br & Rl & Rr & L). destruct (IH Black l p k r n key F O P Bl Br) as [_ D]. destruct (D Rl Rr L) as (t' & a & E & X). eauto using same_black.
Qed.

(** The part of a deletion after the node has been prepared for going right or
    taking itself out. *)
Definition del_right (fuel : nat) (t : tree) key : option (tree * Z) :=
  match t with Leaf => None | T c l p k r =>
    if key_eq key k then
      let? (kmin, pmin) := min_entry fuel r in
      let? y := remove_min fuel r in
      let? x := fixup (T c l pmin kmin y) in Some (x, p)
    else let? (y, a) := del fuel r key in let? x := fixup (T c l p k y) in Some (x, a)
  end.

(** The right subtree as [del_right] leaves it. *)
Lemma del_right_spec fuel c l p k r key (Q : tree -> Prop) (R : tree -> Prop) : (size r <= fuel)%nat -> is_leaf r = false ->
  (exists r', remove_min fuel r = Some r' /\ Q r') -> (key_eq key k = false -> exists r' a, del fuel r key = Some (r', a) /\ Q r') ->
  (forall p' k' r', Q r' -> exists t', fixup (T c l p' k' r') = Some t' /\ R t') -> exists t' a, del_right fuel (T c l p k r) key = Some (t', a) /\ R t'.
Proof.
  intros F N (r1 & E1 & Q1) D Fx. cbn [del_right]. destruct (key_eq key k) eqn:K.
  - destruct (min_entry_total fuel r N F) as [[km pm] E]. rewrite E, E1. destruct (Fx pm km r1 Q1) as (t' & -> & X). eauto.
  - destruct (D eq_refl) as (r' & a & -> & Q'). destruct (Fx p k r' Q') as (t' & -> & X). eauto.
Qed.

Lemma size_entries (t t' : tree) : entries t' = entries t -> size t' = size t.
Proof. unfold size. now intros ->. Qed.

(** The right-hand side of a node whose right child is red. *)
Lemma del_right_red fuel c l p k r n key : del_node_ok fuel -> (size r <= fuel)%nat -> tree_ordered (T c l p k r) -> present key (T c l p k r) -> key_lt key k = false ->
  bal l n -> red l = false -> bal r n -> red r = true -> exists t' a, del_right fuel (T c l p k r) key = Some (t', a) /\ same c t' n.
Proof.
  intros IH F O P L Bl Rl Br Rr. pose proof (proj1 (ordered_T _ _ _ _ _) O) as (_ & Or & _). apply del_right_spec with (Q := fun r' => bal r' n); [exact F|destruct r; [discriminate|reflexivity]| | |].
  - apply remove_min_red; [apply remove_min_balanced|exact F|exact Br|exact Rr].
  - intros N. apply del_red; eauto using present_right.
  - intros p' k' r' B'. apply finish_same; auto.
Qed.

Lemma del_unfold_right fuel c l p k r key : key_lt key k = false -> red l = false -> key_eq key k && is_leaf r = false -> is_leaf r = false ->
  del (S fuel) (T c l p k r) key = let? x := if wants_red_right (T c l p k r) then move_red_right (T c l p k r) else Some (T c l p k r) in del_right fuel x key.
Proof. intros L R E N. cbn [del]. rewrite L, R, E, N. reflexivity. Qed.

Lemma del_balanced fuel : del_node_ok fuel.
Proof.
  induction fuel as [|fuel IH]; intros c l p k r n key F O P Bl Br; [rewrite size_T in F; lia|]. pose proof O as O'. apply ordered_T in O' as (Ol & Or & Blw & Abv). pose proof F as F'. rewrite size_T in F'. destruct (key_lt key k) eqn:L.
  - split; [|discriminate]. intros Rr Hc. pose proof (present_left _ _ _ _ _ _ O P L) as Pl. pose proof (present_not_leaf _ _ Pl) as Nl. cbn [del]. rewrite L, Nl. cbn [negb guard]. destruct (red l) eqn:Rl.
    + unfold wants_red_left at 1. cbn [left]. rewrite Rl. cbn [negb andb]. destruct (del_red fuel l n key IH ltac:(lia) Ol Pl Bl Rl) as (l' & a & -> & B'). destruct (finish_same c l' p k r n B' Br ltac:(auto)) as (t' & -> & X). eauto.
    + destruct (go_left c l p k r n Bl Br Rl Rr Nl) as (m & c1 & l1 & p1 & k1 & r1 & E & -> & [x Ex] & X). rewrite E.
      assert (Y : entries (T c1 l1 p1 k1 r1) = entries (T c l p k r)) by (destruct (wants_red_left _); [now rewrite (entries_move_red_left _ _ E)|now injection E as <- <- <- <- <-]).
      assert (F1 : (size l1 <= fuel)%nat) by (apply size_entries in Y; rewrite !size_T in Y; lia). assert (O1 : tree_ordered l1) by (unfold tree_ordered in O; rewrite <- Y in O; now apply (ordered_T c1) in O). pose proof (present_prefix _ _ _ _ Pl Ex) as P1.
      destruct X as [(-> & X1 & X2 & X3)|(-> & X1 & X2 & X3 & X4)].
      * destruct (del_three fuel l1 m key IH F1 O1 P1 X1) as (l' & a & -> & B' & R'). destruct (finish_still c l' p1 k1 r1 _ B' X2 R' X3) as (t' & -> & Z). eauto.
      * destruct (del_red fuel l1 m key IH F1 O1 P1 X1 X2) as (l' & a & -> & B'). destruct (finish_down c l' p1 k1 r1 m B' X3) as (t' & -> & Z). eauto.
  - assert (Case3 : red l = false -> red r = true -> exists t' a, del (S fuel) (T c l p k r) key = Some (t', a) /\ same c t' n).
    { intros Rl Rr. assert (Nr : is_leaf r = false) by (destruct r; [discriminate|reflexivity]). rewrite del_unfold_right by (rewrite ?Nr, ?andb_false_r; auto). unfold wants_red_right. cbn [right]. rewrite Rr. cbn [negb andb]. apply del_right_red; auto; lia. }
    split; [|intros; now apply Case3]. intros Rr Hc. destruct (red l) eqn:Rl.
    + destruct (bal_red _ _ Bl Rl) as (ll & lp & lk & lr & -> & B1 & B2 & R1 & R2). assert (Lk : key_lt lk k = true) by (unfold below in Blw; rewrite Forall_forall in Blw; apply (Blw (lk, lp)); cbn; apply elem_of_app; right; left).
      destruct (not_lt_trans _ _ _ L Lk) as [L1 N1]. pose proof (entries_rotr (T c (T Red ll lp lk lr) p k r) _ eq_refl) as Y. unfold tree_ordered, present in O, P. rewrite <- Y in O, P. fold (tree_ordered (T c ll lp lk (T Red lr p k r))) in O.
      cbn [del]. rewrite L. cbn [red rotr]. rewrite N1. cbn [andb is_leaf negb guard]. unfold wants_red_right. cbn [right red negb andb]. change (exists t' a, del_right fuel (T c ll lp lk (T Red lr p k r)) key = Some (t', a) /\ same c t' n).
      apply del_right_red; auto; [rewrite !size_T in *; lia|cbn; auto].
    + destruct (key_eq key k && is_leaf r) eqn:E0.
      * apply andb_true_iff in E0 as [K Lr]. destruct r; [|discriminate]. cbn in Br. subst n. apply bal_0 in Bl; [subst l|exact Rl]. rewrite (Hc eq_refl eq_refl). cbn [del]. rewrite L. cbn. rewrite K. cbn. do 2 eexists. split; [reflexivity|]. now left.
      * assert (Nr : is_leaf r = false). { destruct (key_eq key k) eqn:K; [exact E0|]. eapply present_not_leaf, present_right; eauto. }
        rewrite del_unfold_right by auto. destruct (go_right c l p k r n key Bl Br Rl Rr Nr L) as (m & c1 & l1 & p1 & k1 & r1 & E & -> & X). rewrite E.
        assert (Y : entries (T c1 l1 p1 k1 r1) = entries (T c l p k r)) by (destruct (wants_red_right _); [now rewrite (entries_move_red_right _ _ E)|now injection E as <- <- <- <- <-]).
        assert (F1 : (size r1 <= fuel)%nat) by (apply size_entries in Y; rewrite !size_T in Y; lia). unfold tree_ordered in O. unfold present in P. rewrite <- Y in O, P. fold (tree_ordered (T c1 l1 p1 k1 r1)) in O. fold (present key (T c1 l1 p1 k1 r1)) in P. pose proof O as O1. apply ordered_T in O1 as (_ & O1 & _).
        destruct X as [(-> & [(-> & X1 & X2 & X3)|(-> & X2 & X3 & X4)])|(I & -> & X1 & X2 & X3)].
        -- apply del_right_spec with (Q := fun r' => bal r' (S m) /\ red r' = false); [exact F1|destruct X1 as (? & ? & ? & ? & -> & _); reflexivity| | |].
           ++ apply remove_min_three; [apply remove_min_balanced|exact F1|exact X1].
           ++ intros N. apply del_three; eauto using present_right.
           ++ intros p' k' r' [B' R']. now apply finish_still.
        -- apply del_right_spec with (Q := fun r' => bal r' m); [exact F1|destruct r1; [discriminate|reflexivity]| | |].
           ++ apply remove_min_red; [apply remove_min_balanced|exact F1|exact X3|exact X4].
           ++ intros N. apply del_red; eauto using present_right.
           ++ intros p' k' r' B'. now apply finish_down.
        -- assert (Lk : key_lt k1 k = true) by (unfold below in Blw; rewrite Forall_forall in Blw; apply (Blw _ I)). destruct (not_lt_trans _ _ _ L Lk) as [L1 N1]. cbn [del_right]. rewrite N1.
           destruct (del_leaning fuel r1 m key IH F1 O1 (present_right _ _ _ _ _ _ O P L1 N1) X1) as (r' & a & -> & B' & R'). destruct (finish_still c l1 p1 k1 r' _ X2 B' X3 R') as (t' & -> & Z). eauto.
Qed.

(** Deletion at the root. *)
Lemma del_top fuel t key : top t -> tree_ordered t -> present key t -> (size t <= fuel)%nat -> exists t' a, del fuel t key = Some (t', a) /\ top t'.
Proof.
  intros Tp O P F. destruct t as [|c l p k r]; [destruct P; discriminate|]. destruct Tp as (n & (Bl & Br & Rr) & ->). destruct (del_balanced fuel (parity n) l p k r n key F O P Bl Br) as [D _].
  destruct (D Rr) as (t' & a & E & X); [intros -> _; reflexivity|]. exists t', a. split; [exact E|]. destruct (red l).
  - destruct X as (l' & p' & k' & r' & -> & P'). cbn. eauto.
  - destruct X as [[-> _]|[(l' & p' & k' & r' & -> & P' & _)|(m & l' & p' & k' & r' & -> & -> & P')]]; cbn; [trivial|eauto|]. exists m. now rewrite neg_parity_S.
Qed.

End Delete.

(** * The red-black tree: searches

    What the three searches find in an ordered tree, and how deep a balanced tree
    is: at most twice the binary logarithm of its number of entries plus one. *)

Section Search.
Context {KEY : Type} `{KeyOrder KEY}.
Abbreviation tree := (tree KEY).
Implicit Types (l r t : tree) (k key : KEY).

(** ** The smallest entry that is not smaller *)

Lemma lfind_ge_app key (a b : list (KEY * Z)) : lfind_ge key (a ++ b) = match lfind_ge key a with Some e => Some e | None => lfind_ge key b end.
Proof. unfold lfind_ge. induction a as [|e a IH]; [reflexivity|]. cbn. destruct (negb (key_lt e.1 key)); [reflexivity|exact IH]. Qed.

Lemma lfind_ge_below key a : below key a -> lfind_ge key a = None.
Proof. unfold lfind_ge. induction 1 as [|e a L F IH]; [reflexivity|]. cbn. now rewrite L. Qed.

Lemma find_ge_spec t best key : tree_ordered t -> root_entry (find_ge t best key) = match lfind_ge key (entries t) with Some e => Some e | None => root_entry best end.
Proof.
  revert best. induction t as [|c l IHl p k r IHr]; intros best O; [reflexivity|]. apply ordered_T in O as (Ol & Or & B & A). cbn [find_ge entries]. rewrite lfind_ge_app.
  destruct (key_cases key k) as [[L E]|[->|(L & L' & E)]].
  - rewrite L, E, IHl by exact Ol. destruct (lfind_ge key (entries l)); [reflexivity|]. unfold lfind_ge. cbn. now rewrite (key_lt_asym _ _ L).
  - rewrite key_eq_refl, lfind_ge_below by exact B. unfold lfind_ge. cbn. now rewrite key_lt_irrefl.
  - rewrite L', E, IHr, (lfind_ge_below key (entries l)) by (auto; now apply below_trans with k). unfold lfind_ge. cbn. now rewrite L.
Qed.

(** ** An entry next to a key *)

(** No entry lies between the key and [e]; the key itself counts. *)
Definition next_to (key : KEY) (e : KEY * Z) (es : list (KEY * Z)) : Prop :=
  e ∈ es /\ Forall (fun x => ~ (key_lt x.1 key = false /\ key_lt x.1 e.1 = true) /\ ~ (key_lt key x.1 = false /\ key_lt e.1 x.1 = true)) es.

Lemma next_to_left key e (a b : list (KEY * Z)) : next_to key e a -> above key b -> (forall x, x ∈ b -> key_lt x.1 e.1 = false) -> next_to key e (a ++ b).
Proof.
  intros [I F] A N. split; [apply elem_of_app; now left|]. apply Forall_app. split; [exact F|]. unfold above in A. rewrite Forall_forall in *. intros x Hx. specialize (N x Hx). rewrite (A x Hx), N. split; intros [U V]; discriminate.
Qed.

Lemma next_to_right key e (a b : list (KEY * Z)) : next_to key e b -> below key a -> (forall x, x ∈ a -> key_lt e.1 x.1 = false) -> next_to key e (a ++ b).
Proof.
  intros [I F] A N. split; [apply elem_of_app; now right|]. apply Forall_app. split; [|exact F]. unfold below in A. rewrite Forall_forall in *. intros x Hx. specialize (N x Hx). rewrite (A x Hx), N. split; intros [U V]; discriminate.
Qed.

Lemma nearest_spec t key : tree_ordered t -> is_leaf t = false -> exists e, root_entry (nearest t key) = Some e /\ next_to key e (entries t).
Proof.
  induction t as [|c l IHl p k r IHr]; intros O N; [discriminate|]. apply ordered_T in O as (Ol & Or & B & A). cbn [nearest entries]. unfold above, below in A, B.
  destruct (key_cases key k) as [[L E]|[->|(L & L' & E)]].
  - rewrite L, E. assert (Ab : above key ((k, p) :: entries r)) by (constructor; [exact L|now apply above_trans with k]). destruct (is_leaf l) eqn:Nl.
    + destruct l; [|discriminate]. exists (k, p). split; [reflexivity|]. cbn. split; [left|]. unfold above in Ab. rewrite Forall_forall in *. intros x Hx. rewrite (Ab x Hx). split; intros [U V]; [|discriminate]. apply elem_of_cons in Hx as [->|Hx]; cbn in V; [now rewrite key_lt_irrefl in V|]. rewrite (key_lt_asym _ _ (A x Hx)) in V. discriminate.
    + destruct (IHl Ol eq_refl) as (e & -> & Ne). exists e. split; [reflexivity|]. apply next_to_left; [exact Ne|exact Ab|]. destruct Ne as [I _]. rewrite Forall_forall in B. pose proof (B _ I) as Be. intros x Hx. apply elem_of_cons in Hx as [->|Hx]; apply key_lt_asym; [exact Be|]. rewrite Forall_forall in A. now apply key_lt_trans with k; [|apply A].
  - rewrite key_eq_refl. exists (k, p). split; [reflexivity|]. split; [apply elem_of_app; right; left|]. rewrite Forall_forall in *. intros x Hx. cbn. split; intros [U V]; congruence.
  - rewrite L', E. assert (Bl : below key (entries l)) by now apply below_trans with k. destruct (is_leaf r) eqn:Nr.
    + destruct r; [|discriminate]. exists (k, p). split; [reflexivity|]. cbn. split; [apply elem_of_app; right; left|]. unfold below in Bl. rewrite Forall_forall in *. intros x Hx. apply elem_of_app in Hx as [Hx|Hx].
      * cbn. rewrite (Bl x Hx), (key_lt_asym _ _ (B x Hx)). split; intros [U V]; discriminate.
      * apply elem_of_cons in Hx as [->|Hx]; [|now apply elem_of_nil in Hx]. cbn. rewrite key_lt_irrefl. split; intros [U V]; discriminate.
    + destruct (IHr Or eq_refl) as (e & -> & Ne). exists e. split; [reflexivity|]. replace (entries l ++ (k, p) :: entries r) with ((entries l ++ [(k, p)]) ++ entries r) by now rewrite <- app_assoc. apply next_to_right; [exact Ne| |].
      * apply Forall_app. split; [exact Bl|]. constructor; [exact L|constructor].
      * destruct Ne as [I _]. rewrite Forall_forall in A. pose proof (A _ I) as Ae. intros x Hx. apply elem_of_app in Hx as [Hx|Hx]; apply key_lt_asym; [rewrite Forall_forall in B; apply key_lt_trans with k; [now apply B|exact Ae]|]. apply elem_of_cons in Hx as [->|Hx]; [exact Ae|now apply elem_of_nil in Hx].
Qed.

(** ** Depth *)

Lemma bal_depth t n : bal t n -> (depth t <= 2 * n + (if red t then 1 else 0))%nat /\ (2 ^ n <= S (size t))%nat.
Proof.
  revert n. induction t as [|c l IHl p k r IHr]; intros n B; [cbn in B; subst; cbn; lia|]. rewrite size_T. destruct c; cbn [bal red depth] in *.
  - destruct B as (Bl & Br & Rl & Rr). apply IHl in Bl as [? ?]. apply IHr in Br as [? ?]. rewrite Rl in *. rewrite Rr in *. lia.
  - destruct n as [|n]; [contradiction|]. destruct B as (Bl & Br & Rr). apply IHl in Bl as [? ?]. apply IHr in Br as [? ?]. rewrite Rr in *. rewrite Nat.pow_succ_r'. destruct (red l); lia.
Qed.

Lemma top_depth t : top t -> (depth t <= 2 * Nat.log2 (S (size t)))%nat.
Proof.
  destruct t as [|c l p k r]; cbn [top depth]; [lia|]. intros (n & (Bl & Br & Rr) & _). rewrite size_T. apply bal_depth in Bl as [? ?]. apply bal_depth in Br as [? ?]. rewrite Rr in *.
  assert (n + 1 <= Nat.log2 (S (S (size l + size r))))%nat. { apply Nat.log2_le_pow2; [lia|]. rewrite Nat.add_1_r, Nat.pow_succ_r'. lia. } destruct (red l); lia.
Qed.

Lemma depth_size t : (depth t <= size t)%nat.
Proof. induction t; [cbn; lia|]. rewrite size_T. cbn [depth]. lia. Qed.

End Search.
