(* ===== verification/RbHeap.v ===== *)
(** * The red-black tree in the store

    A shape stands in the store when every node holds the key, the colour and
    the addresses that the shape has there, and no two nodes share an address.
    The operations of RbTree on such a store do to it what the operations of
    RbShape do to the shape, and write nothing else. *)

From stdpp Require Import base gmap list sorting.
From Stdlib Require Import ZArith Lia Bool.
From S2P Require Import Prelude RbTree RbShape RbBalance.

Section Heap.
Context {KEY : Type} `{KeyOrder KEY}.
Abbreviation tree := (tree KEY).
Variable DEBUG : bool.

(** ** Computations *)

(** [m] returns from [h], writes only at the addresses [S], and leaves [Q]. *)
Definition runs {A} (m : M KEY A) (h : Heap KEY) (S : list Z) (Q : A -> Heap KEY -> Prop) : Prop :=
  exists a h', m h = Ret a h' /\ (forall x, x ∉ S -> h' !! x = h !! x) /\ Q a h'.

Lemma runs_ret {A} (a : A) h S (Q : A -> Heap KEY -> Prop) : Q a h -> runs (mret a) h S Q.
Proof. intros X. exists a, h. auto. Qed.

Lemma runs_bind {A B} (m : M KEY A) (f : A -> M KEY B) h S (P : A -> Heap KEY -> Prop) (Q : B -> Heap KEY -> Prop) : runs m h S P ->
  (forall a h', (forall x, x ∉ S -> h' !! x = h !! x) -> P a h' -> runs (f a) h' S Q) -> runs (m ≫= f) h S Q.
Proof.
  intros (a & h1 & E & F & X) K. destruct (K a h1 F X) as (b & h2 & E2 & F2 & Y). exists b, h2. split; [unfold mbind, M_bind; now rewrite E|]. split; [|exact Y]. intros x Hx. rewrite F2, F; auto.
Qed.

Lemma runs_call {A B} (m : M KEY A) (f : A -> M KEY B) h (S S' : list Z) (P : A -> Heap KEY -> Prop) (Q : B -> Heap KEY -> Prop) : runs m h S' P -> (forall x, x ∈ S' -> x ∈ S) ->
  (forall a h', (forall x, x ∉ S' -> h' !! x = h !! x) -> P a h' -> runs (f a) h' S Q) -> runs (m ≫= f) h S Q.
Proof.
  intros (a & h1 & E & F & X) I K. destruct (K a h1 F X) as (b & h2 & E2 & F2 & Y). exists b, h2. split; [unfold mbind, M_bind; now rewrite E|]. split; [|exact Y]. intros x Hx. rewrite F2, F; auto.
Qed.

Lemma runs_mono {A} (m : M KEY A) h (S S' : list Z) (P Q : A -> Heap KEY -> Prop) : runs m h S P -> (forall x, x ∈ S -> x ∈ S') -> (forall a h', P a h' -> Q a h') -> runs m h S' Q.
Proof. intros (a & h' & E & F & X) I W. exists a, h'. split; [exact E|]. split; [|now apply W]. intros x Hx. apply F. intros Hx'. now apply Hx, I. Qed.

(** A computation that only reads. *)
Definition reads {A} (m : M KEY A) (h : Heap KEY) (a : A) : Prop := m h = Ret a h.

Lemma reads_ret {A} (a : A) h : reads (mret a) h a.
Proof. reflexivity. Qed.
Lemma reads_bind {A B} (m : M KEY A) (f : A -> M KEY B) h a b : reads m h a -> reads (f a) h b -> reads (m ≫= f) h b.
Proof. unfold reads, mbind, M_bind. now intros -> . Qed.
Lemma runs_reads {A B} (m : M KEY A) (f : A -> M KEY B) h a S Q : reads m h a -> runs (f a) h S Q -> runs (m ≫= f) h S Q.
Proof. intros R (b & h' & E & X). exists b, h'. split; [unfold mbind, M_bind; now rewrite R|exact X]. Qed.
Lemma runs_assoc {A B C} (m : M KEY A) (f : A -> M KEY B) (g : B -> M KEY C) h S Q : runs (m ≫= (fun a => f a ≫= g)) h S Q -> runs ((m ≫= f) ≫= g) h S Q.
Proof. intros (c & h' & E & X). exists c, h'. split; [|exact X]. revert E. unfold mbind, M_bind. destruct (m h); auto. Qed.
Lemma runs_tail {A} (m : M KEY A) h S Q : runs (m ≫= mret) h S Q -> runs m h S Q.
Proof. intros (c & h' & E & X). exists c, h'. split; [|exact X]. revert E. unfold mbind, M_bind. destruct (m h); auto. Qed.

Lemma runs_assert {B} (cond : M KEY bool) (f : unit -> M KEY B) h S Q : (DEBUG = true -> reads cond h true) -> runs (f tt) h S Q -> runs (COLLAssert DEBUG cond ≫= f) h S Q.
Proof.
  intros R. apply runs_reads. unfold COLLAssert. destruct DEBUG; [|reflexivity]. apply reads_bind with true; [auto|reflexivity].
Qed.

Lemma reads_load p n h : p <> NULL -> h !! p = Some n -> reads (load p) h n.
Proof. intros N E. unfold reads, load. apply Z.eqb_neq in N. now rewrite N, E. Qed.

Lemma runs_store {B} p n n' (f : unit -> M KEY B) h S Q : p <> NULL -> h !! p = Some n -> p ∈ S -> runs (f tt) (<[p := n']> h) S Q -> runs (store p n' ≫= f) h S Q.
Proof.
  intros N E I (b & h' & E2 & F & X). exists b, h'. split; [unfold mbind, M_bind, store; apply Z.eqb_neq in N; now rewrite N, E|]. split; [|exact X].
  intros x Hx. rewrite F by exact Hx. apply lookup_insert_ne. congruence.
Qed.

(** ** A shape in the store *)

Definition addrs (t : tree) : list Z := map snd (entries t).

Fixpoint rep (h : Heap KEY) (t : tree) : Prop :=
  match t with
  | Leaf => True
  | T c l p k r => p <> NULL /\ h !! p = Some (mkNode k c (ptr l) (ptr r)) /\ rep h l /\ rep h r
  end.

Definition own (h : Heap KEY) (t : tree) : Prop := rep h t /\ NoDup (addrs t).

Lemma addrs_T c l p k r : addrs (T c l p k r) = addrs l ++ p :: addrs r.
Proof. unfold addrs. cbn [entries]. now rewrite map_app. Qed.

Lemma own_T h c l p k r : own h (T c l p k r) <-> p <> NULL /\ h !! p = Some (mkNode k c (ptr l) (ptr r)) /\ own h l /\ own h r /\ (p ∉ addrs l) /\ (p ∉ addrs r) /\ (forall x, x ∈ addrs l -> x ∉ addrs r).
Proof.
  unfold own. rewrite addrs_T, NoDup_app, NoDup_cons. cbn [rep]. split.
  - intros ((N & E & Rl & Rr) & Dl & D & Np & Dr). repeat split; auto. + intros I. apply (D p I). left. + intros x I I'. apply (D x I). now right.
  - intros (N & E & (Rl & Dl) & (Rr & Dr) & N1 & N2 & D). repeat split; auto. intros x I I'. apply elem_of_cons in I' as [->|I']; [auto|now apply (D x)].
Qed.

Lemma elem_addrs_T c l p k r x : x ∈ addrs (T c l p k r) <-> x ∈ addrs l \/ x = p \/ x ∈ addrs r.
Proof. rewrite addrs_T, elem_of_app, elem_of_cons. reflexivity. Qed.

Lemma rep_frame h h' t : rep h t -> (forall x, x ∈ addrs t -> h' !! x = h !! x) -> rep h' t.
Proof.
  induction t as [|c l IHl p k r IHr]; [auto|]. intros (N & E & Rl & Rr) F. split; [exact N|]. rewrite F, E by (apply elem_addrs_T; auto).
  split; [reflexivity|]. split; [apply IHl|apply IHr]; auto; intros x Hx; apply F, elem_addrs_T; auto.
Qed.

Lemma own_frame h h' t : own h t -> (forall x, x ∈ addrs t -> h' !! x = h !! x) -> own h' t.
Proof. intros [R D] F. split; [now apply rep_frame with h|exact D]. Qed.

Lemma own_insert h p n t : own h t -> p ∉ addrs t -> own (<[p := n]> h) t.
Proof. intros O N. apply own_frame with h; [exact O|]. intros x Hx. apply lookup_insert_ne. congruence. Qed.

Lemma own_entries h t t' : rep h t' -> entries t' = entries t -> NoDup (addrs t) -> own h t'.
Proof. intros R E D. split; [exact R|]. unfold addrs in *. now rewrite E. Qed.

Lemma own_Leaf h : own h Leaf.
Proof. split; [exact I|constructor]. Qed.

Lemma own_ptr_not_null h t : own h t -> is_leaf t = false -> ptr t <> NULL.
Proof. destruct t; [discriminate|]. intros O _. apply own_T in O. tauto. Qed.

Lemma own_ptr_eqb h t : own h t -> (ptr t =? NULL) = is_leaf t.
Proof. destruct t; [reflexivity|]. intros O. apply own_T in O as (N & _). now apply Z.eqb_neq. Qed.

Lemma addrs_not_null h t x : rep h t -> x ∈ addrs t -> x <> NULL /\ is_Some (h !! x).
Proof. induction t as [|c l IHl p k r IHr]; [intros _ I; now apply elem_of_nil in I|]. intros (N & E & Rl & Rr) I. apply elem_addrs_T in I as [I|[->|I]]; eauto. Qed.

(** ** Reading nodes *)

Lemma reads_Key h c l p k r : own h (T c l p k r) -> reads (Key p) h k.
Proof. intros O. apply own_T in O as (N & E & _). eapply reads_bind; [eapply reads_load; eassumption|reflexivity]. Qed.
Lemma reads_Color h c l p k r : own h (T c l p k r) -> reads (Color p) h c.
Proof. intros O. apply own_T in O as (N & E & _). eapply reads_bind; [eapply reads_load; eassumption|reflexivity]. Qed.
Lemma reads_left h t : own h t -> is_leaf t = false -> reads (PnodeLeft (ptr t)) h (ptr (left t)).
Proof. destruct t; [discriminate|]. intros O _. apply own_T in O as (N & E & _). eapply reads_bind; [eapply reads_load; eassumption|reflexivity]. Qed.
Lemma reads_right h t : own h t -> is_leaf t = false -> reads (PnodeRight (ptr t)) h (ptr (right t)).
Proof. destruct t; [discriminate|]. intros O _. apply own_T in O as (N & E & _). eapply reads_bind; [eapply reads_load; eassumption|reflexivity]. Qed.
Lemma reads_red h t : own h t -> reads (FIsNonNullAndRed (ptr t)) h (red t).
Proof.
  intros O. unfold FIsNonNullAndRed. rewrite (own_ptr_eqb _ _ O). destruct t as [|c l p k r]; cbn [is_leaf]; [apply reads_ret|].
  eapply reads_bind; [eapply reads_Color; exact O|]. now destruct c.
Qed.

Lemma own_left h t : own h t -> own h (left t).
Proof. destruct t; [auto|]. intros O. apply own_T in O. tauto. Qed.
Lemma own_right h t : own h t -> own h (right t).
Proof. destruct t; [auto|]. intros O. apply own_T in O. tauto. Qed.

Lemma red_not_leaf (t : tree) : red t = true -> is_leaf t = false.
Proof. now destruct t. Qed.

Lemma reads_andM h a b x y : reads a h x -> (x = true -> reads b h y) -> reads (andM (KEY := KEY) a b) h (x && y).
Proof. intros A B. unfold andM. eapply reads_bind; [exact A|]. destruct x; [now apply B|apply reads_ret]. Qed.

End Heap.

(** * The red-black tree: rotations, colours and fixing in the store *)

(** Looks an address up in a store with known writes. *)
Ltac known := repeat (first [rewrite lookup_insert_eq | rewrite lookup_insert_ne by congruence]); first [reflexivity|eassumption].

Section Refine.
Context {KEY : Type} `{KeyOrder KEY}.
Abbreviation tree := (tree KEY).
Variable DEBUG : bool.
Abbreviation M := (M KEY).
Implicit Types (h : Heap KEY) (l r t : tree).

(** ** Writing fields *)

Lemma runs_Color {B} p n (f : _ -> M B) h S Q : p <> NULL -> h !! p = Some n -> runs (f (m_color n)) h S Q -> runs (Color p ≫= f) h S Q.
Proof. intros N E. apply runs_reads. eapply reads_bind; [eapply reads_load; eassumption|reflexivity]. Qed.
Lemma runs_PnodeLeft {B} p n (f : _ -> M B) h S Q : p <> NULL -> h !! p = Some n -> runs (f (m_pnodeLeft n)) h S Q -> runs (PnodeLeft p ≫= f) h S Q.
Proof. intros N E. apply runs_reads. eapply reads_bind; [eapply reads_load; eassumption|reflexivity]. Qed.
Lemma runs_PnodeRight {B} p n (f : _ -> M B) h S Q : p <> NULL -> h !! p = Some n -> runs (f (m_pnodeRight n)) h S Q -> runs (PnodeRight p ≫= f) h S Q.
Proof. intros N E. apply runs_reads. eapply reads_bind; [eapply reads_load; eassumption|reflexivity]. Qed.

Lemma runs_update {B} p n (g : Node KEY -> Node KEY) (f : unit -> M B) h S Q : p <> NULL -> h !! p = Some n -> p ∈ S -> runs (f tt) (<[p := g n]> h) S Q ->
  runs ((n ← load p; store p (g n)) ≫= f) h S Q.
Proof. intros N E I R. apply runs_assoc. eapply runs_reads; [eapply reads_load; eassumption|]. eapply runs_store; eassumption. Qed.

Lemma runs_SetColor {B} p n c (f : unit -> M B) h S Q : p <> NULL -> h !! p = Some n -> p ∈ S ->
  runs (f tt) (<[p := mkNode (m_key n) c (m_pnodeLeft n) (m_pnodeRight n)]> h) S Q -> runs (SetColor p c ≫= f) h S Q.
Proof. apply (runs_update p n (fun n => mkNode (m_key n) c (m_pnodeLeft n) (m_pnodeRight n))). Qed.
Lemma runs_FlipColor {B} p n (f : unit -> M B) h S Q : p <> NULL -> h !! p = Some n -> p ∈ S ->
  runs (f tt) (<[p := mkNode (m_key n) (neg (m_color n)) (m_pnodeLeft n) (m_pnodeRight n)]> h) S Q -> runs (FlipColor p ≫= f) h S Q.
Proof. apply (runs_update p n (fun n => mkNode (m_key n) (neg (m_color n)) (m_pnodeLeft n) (m_pnodeRight n))). Qed.
Lemma runs_SetLeft {B} p n q (f : unit -> M B) h S Q : p <> NULL -> h !! p = Some n -> p ∈ S ->
  runs (f tt) (<[p := mkNode (m_key n) (m_color n) q (m_pnodeRight n)]> h) S Q -> runs (SetLeft p q ≫= f) h S Q.
Proof. apply (runs_update p n (fun n => mkNode (m_key n) (m_color n) q (m_pnodeRight n))). Qed.
Lemma runs_SetRight {B} p n q (f : unit -> M B) h S Q : p <> NULL -> h !! p = Some n -> p ∈ S ->
  runs (f tt) (<[p := mkNode (m_key n) (m_color n) (m_pnodeLeft n) q]> h) S Q -> runs (SetRight p q ≫= f) h S Q.
Proof. apply (runs_update p n (fun n => mkNode (m_key n) (m_color n) (m_pnodeLeft n) q)). Qed.

Lemma runs_not_null {B} p (f : unit -> M B) h S Q : p <> NULL -> runs (f tt) h S Q -> runs (COLLAssert DEBUG (mret (negb (p =? NULL))) ≫= f) h S Q.
Proof. intros N. apply runs_assert. intros _. apply Z.eqb_neq in N. rewrite N. apply reads_ret. Qed.

(** ** Rotations *)

Ltac hstep :=
  lazymatch goal with
  | |- runs (Color _ ≫= _) _ _ _ => eapply runs_Color; [congruence|known|]
  | |- runs (PnodeLeft _ ≫= _) _ _ _ => eapply runs_PnodeLeft; [congruence|known|]
  | |- runs (PnodeRight _ ≫= _) _ _ _ => eapply runs_PnodeRight; [congruence|known|]
  | |- runs (SetColor _ _ ≫= _) _ _ _ => eapply runs_SetColor; [congruence|known|set_solver|]
  | |- runs (FlipColor _ ≫= _) _ _ _ => eapply runs_FlipColor; [congruence|known|set_solver|]
  | |- runs (SetLeft _ _ ≫= _) _ _ _ => eapply runs_SetLeft; [congruence|known|set_solver|]
  | |- runs (SetRight _ _ ≫= _) _ _ _ => eapply runs_SetRight; [congruence|known|set_solver|]
  | |- runs (COLLAssert _ (mret (negb (_ =? NULL))) ≫= _) _ _ _ => apply runs_not_null; [congruence|]
  | |- runs (mret _) _ _ _ => apply runs_ret
  end; cbn [m_key m_color m_pnodeLeft m_pnodeRight].

(** Two nodes of a tree and the three subtrees below them. *)
Lemma two_nodes h c c2 a p k b q k2 d t : own h t -> (t = T c a p k (T c2 b q k2 d) \/ t = T c2 (T c a p k b) q k2 d) ->
  p <> NULL /\ q <> NULL /\ p <> q /\ rep h a /\ rep h b /\ rep h d /\ ((p ∉ addrs a) /\ (p ∉ addrs b) /\ (p ∉ addrs d)) /\ ((q ∉ addrs a) /\ (q ∉ addrs b) /\ (q ∉ addrs d)) /\ p ∈ addrs t /\ q ∈ addrs t.
Proof.
  intros O [-> | ->]; rewrite !elem_addrs_T; apply own_T in O as (N & _ & O1 & O2 & N1 & N2 & D).
  - apply own_T in O2 as (N' & _ & O2 & O3 & N3 & N4 & D'). rewrite elem_addrs_T in N2. destruct O1, O2, O3. repeat split; auto; try tauto. intros I. apply D in I. rewrite elem_addrs_T in I. tauto.
  - apply own_T in O1 as (N' & _ & O1 & O3 & N3 & N4 & D'). rewrite elem_addrs_T in N1. destruct O1, O2, O3. repeat split; auto; try tauto; try (intros ->; tauto). intros I. refine (D p _ I). rewrite elem_addrs_T. auto.
Qed.

Lemma rep_insert h p n t : rep h t -> p ∉ addrs t -> rep (<[p := n]> h) t.
Proof. intros R N. apply rep_frame with h; [exact R|]. intros x Hx. apply lookup_insert_ne. congruence. Qed.

Ltac frames := repeat (apply rep_insert; [|assumption]); assumption.

Lemma RotateLeft_runs h t t' : own h t -> rotl t = Some t' -> runs (RotateLeft_ DEBUG (ptr t)) h (addrs t) (fun q h' => q = ptr t' /\ own h' t').
Proof.
  intros O E. pose proof (entries_rotl _ _ E) as En. destruct t as [|c l p k [|c2 rl q k2 rr]]; try discriminate. injection E as <-. pose proof O as O'. apply own_T in O as (_ & E & _ & Or & _). apply own_T in Or as (_ & Eq & _).
  destruct (two_nodes h c c2 l p k rl q k2 rr _ O' ltac:(auto)) as (N & Nq & Npq & R1 & R2 & R3 & (P1 & P2 & P3) & (Q1 & Q2 & Q3) & Sp & Sq).
  cbn [ptr] in E |- *. unfold RotateLeft_. hstep. apply runs_assert. { intros _. eapply reads_bind; [apply (reads_right h _ O' eq_refl)|]. cbn [right ptr]. apply Z.eqb_neq in Nq. rewrite Nq. apply reads_ret. }
  do 10 hstep. split; [reflexivity|]. apply own_entries with (2 := En); [|apply O']. cbn [rep ptr]. split; [exact Nq|]. split; [known|]. split; [|frames]. split; [exact N|]. split; [known|]. split; frames.
Qed.

Lemma RotateRight_runs h t t' : own h t -> rotr t = Some t' -> runs (RotateRight_ DEBUG (ptr t)) h (addrs t) (fun q h' => q = ptr t' /\ own h' t').
Proof.
  intros O E. pose proof (entries_rotr _ _ E) as En. destruct t as [|c2 [|c l p k r] q k2 d]; try discriminate. injection E as <-. pose proof O as O'. apply own_T in O as (_ & Eq & Ol & _). apply own_T in Ol as (_ & E & _).
  destruct (two_nodes h c c2 l p k r q k2 d _ O' ltac:(auto)) as (N & Nq & Npq & R1 & R2 & R3 & (P1 & P2 & P3) & (Q1 & Q2 & Q3) & Sp & Sq).
  cbn [ptr] in Eq |- *. unfold RotateRight_. hstep. apply runs_assert. { intros _. eapply reads_bind; [apply (reads_left h _ O' eq_refl)|]. cbn [left ptr]. apply Z.eqb_neq in N. rewrite N. apply reads_ret. }
  do 10 hstep. split; [reflexivity|]. apply own_entries with (2 := En); [|apply O']. cbn [rep ptr]. split; [exact N|]. split; [known|]. split; [frames|]. split; [exact Nq|]. split; [known|]. split; frames.
Qed.

(** ** Colours *)

Lemma rep_flip h c l p k r : rep h (T c l p k r) -> NoDup (addrs (T c l p k r)) -> rep (<[p := mkNode k (neg c) (ptr l) (ptr r)]> h) (T (neg c) l p k r).
Proof. intros R D. pose proof (conj R D : own _ _) as O. apply own_T in O as (N & E & [Rl _] & [Rr _] & N1 & N2 & _). cbn [rep]. split; [exact N|]. split; [known|]. split; frames. Qed.

Lemma ptr_flip t : ptr (flip t) = ptr t.
Proof. now destruct t. Qed.

(** The tail of [FlipColors_] at a child. *)
Lemma flip_child_runs {B} h t (f : unit -> M B) S Q : own h t -> (forall x, x ∈ addrs t -> x ∈ S) ->
  (forall h', (forall x, x ∉ addrs t -> h' !! x = h !! x) -> own h' (flip t) -> runs (f tt) h' S Q) -> runs ((if negb (ptr t =? NULL) then FlipColor (ptr t) else mret tt) ≫= f) h S Q.
Proof.
  intros O I K. rewrite (own_ptr_eqb _ _ O). destruct t as [|c l p k r]; cbn [is_leaf negb].
  - apply (runs_reads _ _ h tt); [apply reads_ret|]. now apply K.
  - pose proof O as (R & D). apply own_T in O as (N & E & _). cbn [ptr]. eapply runs_FlipColor; [exact N|exact E|apply I, elem_addrs_T; auto|]. cbn [m_key m_color m_pnodeLeft m_pnodeRight]. apply K.
    + intros x Hx. apply lookup_insert_ne. intros ->. apply Hx, elem_addrs_T. auto.
    + split; [now apply rep_flip|]. unfold addrs in *. now rewrite entries_flip.
Qed.

Lemma FlipColors_runs {B} h t (f : unit -> M B) S Q : own h t -> is_leaf t = false -> (forall x, x ∈ addrs t -> x ∈ S) ->
  (forall h', (forall x, x ∉ addrs t -> h' !! x = h !! x) -> own h' (flips t) -> runs (f tt) h' S Q) -> runs (FlipColors_ DEBUG (ptr t) ≫= f) h S Q.
Proof.
  intros O Nl I K. destruct t as [|c l p k r]; [discriminate|]. pose proof O as O'. apply own_T in O as (N & E & Ol & Or & N1 & N2 & D). cbn [ptr]. unfold FlipColors_. apply runs_assoc. hstep. apply runs_assoc.
  assert (Ip : p ∈ S) by (apply I, elem_addrs_T; auto). eapply runs_FlipColor; [exact N|exact E|exact Ip|]. cbn [m_key m_color m_pnodeLeft m_pnodeRight]. set (h1 := <[p := _]> h). assert (E1 : h1 !! p = Some (mkNode k (neg c) (ptr l) (ptr r))) by apply lookup_insert_eq.
  assert (Ol1 : own h1 l) by now apply own_insert. assert (Or1 : own h1 r) by now apply own_insert.
  apply runs_assoc. eapply runs_PnodeLeft; [exact N|exact E1|]. cbn [m_pnodeLeft]. apply runs_assoc. apply flip_child_runs; [exact Ol1|intros x Hx; apply I, elem_addrs_T; auto|]. intros h2 F2 Ol2.
  apply runs_assoc. eapply runs_PnodeRight; [exact N|rewrite F2; [exact E1|exact N1]|]. cbn [m_pnodeRight]. assert (Or2 : own h2 r) by (apply own_frame with h1; [exact Or1|]; intros x Hx; apply F2; intros Hx'; now apply (D x)).
  apply flip_child_runs; [exact Or2|intros x Hx; apply I, elem_addrs_T; auto|]. intros h3 F3 Or3. apply K.
  - intros x Hx. rewrite elem_addrs_T in Hx. rewrite F3, F2 by tauto. unfold h1. apply lookup_insert_ne. intros ->. tauto.
  - cbn [flips]. apply own_T. unfold addrs in *. rewrite !entries_flip, !ptr_flip. fold (addrs l). fold (addrs r). split; [exact N|]. split; [rewrite F3, F2 by assumption; exact E1|].
    split; [|tauto]. apply own_frame with h2; [exact Ol2|]. unfold addrs. rewrite entries_flip. fold (addrs l). intros x Hx. apply F3. now apply D.
Qed.

(** ** Fixing and preparing *)

Lemma addrs_eq t t' : entries t' = entries t -> addrs t' = addrs t.
Proof. unfold addrs. now intros ->. Qed.

Lemma runs_tree_bind {B} (m : M Z) (f : Z -> M B) h t t1 S Q : runs m h (addrs t) (fun q h' => q = ptr t1 /\ own h' t1) -> (forall x, x ∈ addrs t -> x ∈ S) ->
  (forall h', (forall x, x ∉ addrs t -> h' !! x = h !! x) -> own h' t1 -> runs (f (ptr t1)) h' S Q) -> runs (m ≫= f) h S Q.
Proof.
  intros (a & h1 & E & F & -> & O) I K. destruct (K h1 F O) as (b & h2 & E2 & F2 & X). exists b, h2. split; [unfold mbind, M_bind; now rewrite E|]. split; [|exact X]. intros x Hx. rewrite F2 by exact Hx. apply F. auto.
Qed.

Lemma reads_red_red h t : own h t -> reads (andM (FIsNonNullAndRed (ptr t)) (ll ← PnodeLeft (ptr t); FIsNonNullAndRed ll)) h (red t && red (left t)).
Proof. intros O. apply reads_andM; [now apply reads_red|]. intros R. eapply reads_bind; [apply reads_left; [exact O|now apply red_not_leaf]|]. now apply reads_red, own_left. Qed.

Lemma reads_both h t t2 : own h t -> own h t2 -> forall m, (red t = true -> reads m h (ptr t2)) -> reads (andM (FIsNonNullAndRed (ptr t)) (r ← m; FIsNonNullAndRed r)) h (red t && red t2).
Proof. intros O O2 m R. apply reads_andM; [now apply reads_red|]. intros X. eapply reads_bind; [now apply R|]. now apply reads_red. Qed.

(** [!red( p ) && !red( p->left )], where [p] is a node. *)
Lemma reads_wants h t : own h t -> is_leaf t = false ->
  reads (andM (b ← FIsNonNullAndRed (ptr t); mret (negb b)) (ll ← PnodeLeft (ptr t); b ← FIsNonNullAndRed ll; mret (negb b))) h (negb (red t) && negb (red (left t))).
Proof.
  intros O N. apply reads_andM; [eapply reads_bind; [now apply reads_red|apply reads_ret]|]. intros _. eapply reads_bind; [now apply reads_left|]. eapply reads_bind; [now apply reads_red, own_left|apply reads_ret].
Qed.

Lemma rot_not_leaf t t' : rotl t = Some t' \/ rotr t = Some t' -> is_leaf t' = false.
Proof. destruct t as [|c [|] p k [|]]; cbn; intros [E | E]; try discriminate; now injection E as <-. Qed.

Lemma Fixup_runs h t t' : own h t -> fixup t = Some t' -> runs (Fixup_ DEBUG (ptr t)) h (addrs t) (fun q h' => q = ptr t' /\ own h' t').
Proof.
  intros O E. unfold fixup in E. apply guard_Some in E as [Nl E]. apply negb_true_iff in Nl. pose proof (own_ptr_not_null _ _ O Nl) as N.
  unfold Fixup_. apply runs_not_null; [exact N|]. eapply runs_reads; [now apply reads_right|]. eapply runs_reads; [now apply reads_red, own_right|].
  destruct (if red (right t) then rotl t else Some t) as [t1|] eqn:E1; [|discriminate].
  assert (X1 : is_leaf t1 = false /\ entries t1 = entries t) by (destruct (red (right t)); [split; [apply (rot_not_leaf t); auto|now apply entries_rotl]|injection E1 as <-; auto]). destruct X1 as [N1 En1].
  apply (runs_tree_bind _ _ h t t1); [|auto|].
  { destruct (red (right t)); [now apply RotateLeft_runs|]. injection E1 as <-. now apply runs_ret. }
  intros h1 _ O1. rewrite <- (addrs_eq _ _ En1). clear h t O E1 Nl N En1. eapply runs_reads; [now apply reads_left|]. eapply runs_reads; [now apply reads_red_red, own_left|].
  destruct (if red (left t1) && red (left (left t1)) then guard (negb (red (right t1))) (rotr t1) else Some t1) as [t2|] eqn:E2; [|discriminate].
  assert (X2 : is_leaf t2 = false /\ entries t2 = entries t1) by (destruct (red (left t1) && red (left (left t1))); [apply guard_Some in E2 as [_ E2]; split; [apply (rot_not_leaf t1); auto|now apply entries_rotr]|injection E2 as <-; auto]). destruct X2 as [N2 En2].
  apply (runs_tree_bind _ _ h1 t1 t2); [|auto|].
  { destruct (red (left t1) && red (left (left t1))); [|injection E2 as <-; now apply runs_ret]. apply guard_Some in E2 as [R E2]. apply runs_assert; [|now apply RotateRight_runs].
    intros _. eapply reads_bind; [now apply reads_right|]. eapply reads_bind; [now apply reads_red, own_right|]. rewrite R. apply reads_ret. }
  intros h2 _ O2. rewrite <- (addrs_eq _ _ En2). clear h1 t1 O1 E2 N1 En2. eapply runs_reads; [now apply reads_left|]. eapply runs_reads; [apply (reads_both h2 (left t2) (right t2) (own_left _ _ O2) (own_right _ _ O2)); intros _; now apply reads_right|].
  injection E as <-. destruct (red (left t2) && red (right t2)).
  - apply FlipColors_runs; [exact O2|exact N2|auto|]. intros h3 _ O3. assert (P : ptr t2 = ptr (flips t2)) by now destruct t2. rewrite P. apply runs_not_null; [apply (own_ptr_not_null h3); [exact O3|now destruct t2]|]. now apply runs_ret.
  - apply (runs_reads _ _ h2 tt); [apply reads_ret|]. apply runs_not_null; [now apply (own_ptr_not_null h2)|]. now apply runs_ret.
Qed.

Lemma ptr_flips t : ptr (flips t) = ptr t.
Proof. now destruct t. Qed.
Lemma leaf_flips t : is_leaf (flips t) = is_leaf t.
Proof. now destruct t. Qed.

Lemma MoveRedRight_runs h t t' : own h t -> is_leaf t = false -> move_red_right t = Some t' -> runs (MoveRedRight_ DEBUG (ptr t)) h (addrs t) (fun q h' => q = ptr t' /\ own h' t').
Proof.
  intros O Nl E. unfold move_red_right in E. apply guard_Some in E as [Nf E]. apply negb_true_iff in Nf. unfold MoveRedRight_. apply runs_not_null; [now apply (own_ptr_not_null h)|].
  apply FlipColors_runs; [exact O|exact Nl|auto|]. intros h1 _ O1. rewrite <- ptr_flips. rewrite <- (addrs_eq t (flips t)) by apply entries_flips. rewrite <- leaf_flips in Nl. revert Nf E O1 Nl. generalize (flips t). clear t O. intros t Nf E O Nl.
  apply runs_assert. { intros _. eapply reads_bind; [now apply reads_left|]. rewrite (own_ptr_eqb h1) by now apply own_left. rewrite Nf. apply reads_ret. }
  eapply runs_reads; [now apply reads_left|]. eapply runs_reads; [apply reads_left; [now apply own_left|exact Nf]|]. eapply runs_reads; [now apply reads_red, own_left, own_left|].
  apply (runs_tree_bind _ _ h1 t t'); [|auto|].
  - destruct (red (left (left t))); [|injection E as <-; now apply runs_ret]. destruct (rotr t) as [t1|] eqn:E1; [|discriminate]. injection E as <-. apply (runs_tree_bind _ _ h1 t t1); [now apply RotateRight_runs|auto|]. intros h2 _ O2.
    rewrite <- (addrs_eq t t1) by now apply entries_rotr. apply FlipColors_runs; [exact O2|apply (rot_not_leaf t); auto|auto|]. intros h3 _ O3. apply runs_ret. now rewrite ptr_flips.
  - intros h2 _ O2. assert (N' : is_leaf t' = false). { destruct (red (left (left t))); [|now injection E as <-]. destruct (rotr t) as [t1|] eqn:E1; [|discriminate]. injection E as <-. rewrite leaf_flips. apply (rot_not_leaf t). auto. }
    apply runs_not_null; [now apply (own_ptr_not_null h2)|]. now apply runs_ret.
Qed.

(** ** Replacing a subtree *)

(** After a computation on the left subtree, which may have brought in the
    addresses [Z], its result is hung below the node. *)
Lemma own_set_left h h1 c l p k r l' (Z : list _) : own h (T c l p k r) -> (forall x, x ∉ Z ++ addrs l -> h1 !! x = h !! x) -> own h1 l' ->
  (forall x, x ∈ addrs l' -> x ∈ Z ++ addrs l) -> (forall x, x ∈ Z -> x ∉ addrs (T c l p k r)) ->
  h1 !! p = Some (mkNode k c (ptr l) (ptr r)) /\ own (<[p := mkNode k c (ptr l') (ptr r)]> h1) (T c l' p k r).
Proof.
  intros O F O1 I D. apply own_T in O as (N & E & Ol & Or & N1 & N2 & Di). assert (Pz : p ∉ Z ++ addrs l) by (rewrite elem_of_app; intros [X|X]; [apply (D p X), elem_addrs_T; auto|auto]). split; [now rewrite F|].
  assert (Rz : forall x, x ∈ addrs r -> x ∉ Z ++ addrs l) by (intros x Hx; rewrite elem_of_app; intros [X|X]; [apply (D x X), elem_addrs_T; auto|now apply (Di x)]).
  assert (Or1 : own h1 r) by (apply own_frame with h; [exact Or|]; intros x Hx; now apply F, Rz). apply own_T. split; [exact N|]. split; [apply lookup_insert_eq|]. split; [apply own_insert; [exact O1|auto]|]. split; [now apply own_insert|].
  split; [auto|]. split; [exact N2|]. intros x Hx Hx'. now apply (Rz x Hx'), I.
Qed.

Lemma own_set_right h h1 c l p k r r' (Z : list _) : own h (T c l p k r) -> (forall x, x ∉ Z ++ addrs r -> h1 !! x = h !! x) -> own h1 r' ->
  (forall x, x ∈ addrs r' -> x ∈ Z ++ addrs r) -> (forall x, x ∈ Z -> x ∉ addrs (T c l p k r)) ->
  h1 !! p = Some (mkNode k c (ptr l) (ptr r)) /\ own (<[p := mkNode k c (ptr l) (ptr r')]> h1) (T c l p k r').
Proof.
  intros O F O1 I D. apply own_T in O as (N & E & Ol & Or & N1 & N2 & Di). assert (Pz : p ∉ Z ++ addrs r) by (rewrite elem_of_app; intros [X|X]; [apply (D p X), elem_addrs_T; auto|auto]). split; [now rewrite F|].
  assert (Lz : forall x, x ∈ addrs l -> x ∉ Z ++ addrs r) by (intros x Hx; rewrite elem_of_app; intros [X|X]; [apply (D x X), elem_addrs_T; auto|now apply (Di x)]).
  assert (Ol1 : own h1 l) by (apply own_frame with h; [exact Ol|]; intros x Hx; now apply F, Lz). apply own_T. split; [exact N|]. split; [apply lookup_insert_eq|]. split; [now apply own_insert|]. split; [apply own_insert; [exact O1|auto]|].
  split; [exact N1|]. split; [auto|]. intros x Hx Hx'. now apply (Lz x Hx), I.
Qed.

Lemma MoveRedLeft_runs h t t' : own h t -> is_leaf t = false -> move_red_left t = Some t' -> runs (MoveRedLeft_ DEBUG (ptr t)) h (addrs t) (fun q h' => q = ptr t' /\ own h' t').
Proof.
  intros O Nl E. unfold move_red_left in E. unfold MoveRedLeft_. apply runs_not_null; [now apply (own_ptr_not_null h)|].
  apply FlipColors_runs; [exact O|exact Nl|auto|]. intros h1 _ O1. rewrite <- ptr_flips. rewrite <- (addrs_eq t (flips t)) by apply entries_flips. rewrite <- leaf_flips in Nl. revert E O1 Nl. generalize (flips t). clear t O h. intros t E O Nl.
  destruct t as [|c l p k r]; [discriminate|]. clear Nl. apply guard_Some in E as [Nr E]. apply negb_true_iff in Nr. pose proof (own_right _ _ O) as Or. cbn [right] in Or. pose proof (reads_right h1 _ O eq_refl) as RR. cbn [right] in RR.
  apply runs_assert. { intros _. eapply reads_bind; [exact RR|]. rewrite (own_ptr_eqb h1) by exact Or. rewrite Nr. apply reads_ret. }
  eapply runs_reads; [exact RR|]. eapply runs_reads; [now apply reads_left|]. eapply runs_reads; [now apply reads_red, own_left|].
  apply (runs_tree_bind _ _ h1 (T c l p k r) t'); [|auto|].
  - destruct (red (left r)); [|injection E as <-; now apply runs_ret]. destruct (rotr r) as [r'|] eqn:E1; [|discriminate]. destruct (rotl (T c l p k r')) as [t1|] eqn:E2; [|discriminate]. injection E as <-.
    eapply runs_reads; [exact RR|]. apply (runs_tree_bind _ _ h1 r r'); [now apply RotateRight_runs|intros x Hx; apply elem_addrs_T; auto|]. intros h2 F2 O2. pose proof (entries_rotr _ _ E1) as En1.
    destruct (own_set_right h1 h2 c l p k r r' [] O F2 O2) as [E3 O3]; [rewrite (addrs_eq _ _ En1); auto|intros x Hx; now apply elem_of_nil in Hx|]. apply own_T in O as (N & _).
    eapply runs_SetRight; [exact N|exact E3|apply elem_addrs_T; auto|]. cbn [m_key m_color m_pnodeLeft]. assert (Ad : addrs (T c l p k r') = addrs (T c l p k r)) by (apply addrs_eq; cbn; now rewrite En1). rewrite <- Ad. change (ptr (T c l p k r)) with (ptr (T c l p k r')).
    apply (runs_tree_bind _ _ _ (T c l p k r') t1); [now apply RotateLeft_runs|auto|]. intros h4 _ O4. rewrite <- (addrs_eq _ t1) by now apply entries_rotl. apply FlipColors_runs; [exact O4|apply (rot_not_leaf (T c l p k r')); auto|auto|]. intros h5 _ O5. apply runs_ret. now rewrite ptr_flips.
  - intros h2 _ O2. assert (N' : is_leaf t' = false). { destruct (red (left r)); [|now injection E as <-]. destruct (rotr r) as [r'|] eqn:E1; [|discriminate]. destruct (rotl (T c l p k r')) as [t1|] eqn:E2; [|discriminate]. injection E as <-. rewrite leaf_flips. apply (rot_not_leaf (T c l p k r')). auto. }
    apply runs_not_null; [now apply (own_ptr_not_null h2)|]. now apply runs_ret.
Qed.

End Refine.
