(* ===== verification/RbOps.v ===== *)
(** * The red-black tree: searches, insertion and deletion in the store *)

From stdpp Require Import base gmap list sorting.
From Stdlib Require Import ZArith Lia Bool.
From S2P Require Import Prelude RbTree RbShape RbBalance RbHeap.

Section Ops.
Context {KEY : Type} `{KeyOrder KEY}.
Abbreviation tree := (tree KEY).
Variable DEBUG : bool.
Abbreviation M := (M KEY).
Implicit Types (h : Heap KEY) (l r t : tree) (key k : KEY).

Lemma reads_assert (cond : M bool) h : (DEBUG = true -> reads cond h true) -> reads (COLLAssert DEBUG cond) h tt.
Proof. intros R. unfold COLLAssert. destruct DEBUG; [|apply reads_ret]. eapply reads_bind; [now apply R|apply reads_ret]. Qed.

(** ** Searches *)

Lemma own_find h t key : own h t -> own h (find t key).
Proof. induction t as [|c l IHl p k r IHr]; [auto|]. intros O. cbn [find]. destruct (key_eq key k); [exact O|]. apply own_T in O as (_ & _ & Ol & Or & _). destruct (key_lt key k); auto. Qed.
Lemma own_nearest h t key : own h t -> own h (nearest t key).
Proof.
  induction t as [|c l IHl p k r IHr]; [auto|]. intros O. cbn [nearest]. pose proof O as O'. apply own_T in O' as (_ & _ & Ol & Or & _). destruct (key_eq key k); [exact O|]. destruct (key_lt key k); [destruct (is_leaf l)|destruct (is_leaf r)]; auto.
Qed.
Lemma own_find_ge h t best key : own h t -> own h best -> own h (find_ge t best key).
Proof.
  revert best. induction t as [|c l IHl p k r IHr]; [auto|]. intros best O Ob. cbn [find_ge]. pose proof O as O'. apply own_T in O' as (_ & _ & Ol & Or & _). destruct (key_eq key k); [exact O|]. destruct (key_lt key k); auto.
Qed.

Lemma key_gt_of a b : key_eq a b = false -> key_lt a b = false -> key_gt a b = true.
Proof. intros E L. rewrite key_gt_lt. destruct (key_cases a b) as [[L' _]|[->|(L' & _)]]; [congruence|now rewrite key_eq_refl in E|exact L']. Qed.

Lemma Find_reads h t key fuel : own h t -> (depth t < fuel)%nat -> reads (Find_ DEBUG fuel (ptr t) key) h (ptr (find t key)).
Proof.
  revert fuel. induction t as [|c l IHl p k r IHr]; intros [|fuel] O F; [lia| |cbn in F; lia|]; [apply reads_ret|]. pose proof O as O'. apply own_T in O' as (N & _ & Ol & Or & _). cbn [Find_ ptr find depth] in *. apply Z.eqb_neq in N. rewrite N.
  eapply reads_bind; [eapply reads_Key; exact O|]. destruct (key_eq key k) eqn:E; [apply reads_ret|]. destruct (key_lt key k) eqn:L.
  - eapply reads_bind; [apply (reads_left _ _ O eq_refl)|]. apply IHl; [exact Ol|lia].
  - eapply reads_bind; [apply reads_assert; intros _; rewrite key_gt_of by auto; apply reads_ret|]. eapply reads_bind; [apply (reads_right _ _ O eq_refl)|]. apply IHr; [exact Or|lia].
Qed.

Lemma FindNearest_reads h t key fuel : own h t -> is_leaf t = false -> (depth t <= fuel)%nat -> reads (FindNearest_loop DEBUG fuel (ptr t) key) h (ptr (nearest t key)).
Proof.
  revert fuel. induction t as [|c l IHl p k r IHr]; intros [|fuel] O N F; [discriminate|discriminate|cbn in F; lia|]. pose proof O as O'. apply own_T in O' as (_ & _ & Ol & Or & _). cbn [FindNearest_loop ptr nearest depth] in *.
  eapply reads_bind; [eapply reads_Key; exact O|]. destruct (key_eq key k) eqn:E; [apply reads_ret|]. destruct (key_lt key k) eqn:L.
  - eapply reads_bind; [apply (reads_left _ _ O eq_refl)|]. cbn [left]. rewrite (own_ptr_eqb _ _ Ol). destruct (is_leaf l) eqn:Nl; [apply reads_ret|]. apply IHl; [exact Ol|reflexivity|lia].
  - eapply reads_bind; [apply reads_assert; intros _; rewrite key_gt_of by auto; apply reads_ret|]. eapply reads_bind; [apply (reads_right _ _ O eq_refl)|]. cbn [right]. rewrite (own_ptr_eqb _ _ Or). destruct (is_leaf r) eqn:Nr; [apply reads_ret|]. apply IHr; [exact Or|reflexivity|lia].
Qed.

(** Where [FindGE_loop] stops: at the key or below the tree. *)
Lemma FindGE_reads h t best key fuel : own h t -> (depth t < fuel)%nat -> exists cur, own h cur /\ (cur = Leaf \/ exists c l p r, cur = T c l p key r) /\
  reads (FindGE_loop fuel (ptr t) (ptr best) key) h (ptr cur, ptr (find_ge t best key)).
Proof.
  revert fuel best. induction t as [|c l IHl p k r IHr]; intros [|fuel] best O F; [lia| |cbn in F; lia|].
  - exists Leaf. split; [exact O|]. split; [auto|apply reads_ret].
  - pose proof O as O'. apply own_T in O' as (N & _ & Ol & Or & _). cbn [depth] in F. assert (E1 : exists cur, own h cur /\ (cur = Leaf \/ exists c l p r, cur = T c l p key r) /\
      reads (k0 ← Key p; if key_eq key k0 then mret (p, p) else if key_lt key k0 then l0 ← PnodeLeft p; FindGE_loop fuel l0 p key else r0 ← PnodeRight p; FindGE_loop fuel r0 (ptr best) key) h (ptr cur, ptr (find_ge (T c l p k r) best key))).
    { cbn [find_ge]. destruct (key_eq key k) eqn:E; [|destruct (key_lt key k) eqn:L].
      - apply key_eq_spec in E as ->. exists (T c l p k r). split; [exact O|]. split; [right; eauto|]. eapply reads_bind; [eapply reads_Key; exact O|]. rewrite key_eq_refl. apply reads_ret.
      - destruct (IHl fuel (T c l p k r) Ol ltac:(lia)) as (cur & Oc & X & R). exists cur. split; [exact Oc|]. split; [exact X|]. eapply reads_bind; [eapply reads_Key; exact O|]. rewrite E, L. eapply reads_bind; [apply (reads_left _ _ O eq_refl)|]. exact R.
      - destruct (IHr fuel best Or ltac:(lia)) as (cur & Oc & X & R). exists cur. split; [exact Oc|]. split; [exact X|]. eapply reads_bind; [eapply reads_Key; exact O|]. rewrite E, L. eapply reads_bind; [apply (reads_right _ _ O eq_refl)|]. exact R. }
    cbn [FindGE_loop ptr]. apply Z.eqb_neq in N. rewrite N. exact E1.
Qed.

Lemma PnodeMin_reads h t fuel k p : own h t -> min_entry fuel t = Some (k, p) -> reads (PnodeMin_ DEBUG fuel (ptr t)) h p.
Proof.
  intros O E. assert (N : is_leaf t = false) by (destruct fuel, t; try discriminate; reflexivity). unfold PnodeMin_. eapply reads_bind; [apply reads_assert; intros _; rewrite (own_ptr_eqb _ _ O), N; apply reads_ret|].
  clear N. revert t O E. induction fuel as [|fuel IH]; intros [|c l q k2 r] O E; try discriminate. cbn [min_entry PnodeMin_loop ptr] in *. eapply reads_bind; [apply (reads_left _ _ O eq_refl)|]. cbn [left]. apply own_left in O as Ol. cbn [left] in Ol. rewrite (own_ptr_eqb _ _ Ol).
  destruct (is_leaf l) eqn:L; cbn [negb]; [injection E as -> ->; apply reads_ret|now apply IH].
Qed.

(** ** The check of a node *)

Lemma ptr_in_addrs t : is_leaf t = false -> ptr t ∈ addrs t.
Proof. destruct t; [discriminate|]. intros _. apply elem_addrs_T. auto. Qed.

Lemma Node_AssertValid_reads h t : own h t -> valid_node t = true -> reads (Node_AssertValid DEBUG (ptr t)) h tt.
Proof.
  intros O V. destruct t as [|c l p k r]; [discriminate|]. cbn [valid_node] in V. apply andb_true_iff in V as [V V4]. apply andb_true_iff in V as [V V3]. apply andb_true_iff in V as [V1 V2]. cbn [ptr].
  pose proof O as O'. apply own_T in O' as (N & _ & Ol & Or & N1 & N2 & _). unfold Node_AssertValid. eapply reads_bind; [apply (reads_left _ _ O eq_refl)|]. eapply reads_bind; [apply (reads_right _ _ O eq_refl)|]. cbn [left right]. rewrite (own_ptr_eqb _ _ Ol), (own_ptr_eqb _ _ Or).
  eapply reads_bind. { destruct l as [|c2 ll q k2 lr]; cbn [is_leaf negb]; [apply reads_ret|]. eapply reads_bind; [apply reads_assert; intros _; eapply reads_bind; [eapply reads_Key; exact Ol|]; eapply reads_bind; [eapply reads_Key; exact O|]; rewrite V1; apply reads_ret|].
    apply reads_assert. intros _. assert (E : (p =? q) = false) by (apply Z.eqb_neq; intros ->; apply N1, elem_addrs_T; auto). cbn [ptr]. rewrite E. apply reads_ret. }
  eapply reads_bind. { destruct r as [|c2 rl q k2 rr]; cbn [is_leaf negb]; [apply reads_ret|]. eapply reads_bind; [apply reads_assert; intros _; eapply reads_bind; [eapply reads_Key; exact Or|]; eapply reads_bind; [eapply reads_Key; exact O|]; rewrite V2; apply reads_ret|].
    apply reads_assert. intros _. assert (E : (p =? q) = false) by (apply Z.eqb_neq; intros ->; apply N2, elem_addrs_T; auto). cbn [ptr]. rewrite E. apply reads_ret. }
  eapply reads_bind. { destruct l as [|cl ll lp lk lr], r as [|cr rl rp rk rr]; cbn [is_leaf negb andb]; try apply reads_ret. apply reads_assert. intros _. eapply reads_bind; [eapply reads_Color; exact O|]. eapply reads_bind; [eapply reads_Color; exact Ol|]. eapply reads_bind; [eapply reads_Color; exact Or|].
    destruct c, cl, cr; try discriminate; apply reads_ret. }
  destruct r as [|cr rl rp rk rr]; cbn [is_leaf negb]; [apply reads_ret|]. eapply reads_bind; [eapply reads_Color; exact Or|]. destruct cr; cbn [is_red]; [|apply reads_ret]. destruct l as [|[] ll lp lk lr]; try discriminate.
  eapply reads_bind; [apply reads_assert; intros _; apply reads_ret|]. apply reads_assert. intros _. eapply reads_bind; [eapply reads_Color; exact Ol|apply reads_ret].
Qed.

(** ** Insertion *)

(** What an insertion adds. *)
Definition added (err : ERR) (q : Z) : list Z := match err with errSuccess => [q] | _ => [] end.

Lemma added_in err q x : x ∈ added err q -> x = q.
Proof. destruct err; cbn; intros I; try (now apply elem_of_nil in I). apply elem_of_cons in I as [I|I]; [exact I|now apply elem_of_nil in I]. Qed.

Lemma ins_addrs key q t err t' : ins key q t = Some (err, t') -> (err = errSuccess \/ err = errDuplicateEntry) /\ (forall x, x ∈ addrs t' <-> x ∈ added err q ++ addrs t) /\ is_leaf t' = false.
Proof.
  revert err t'. induction t as [|c l IHl p k r IHr]; intros err t' E; [injection E as <- <-; split; [auto|]; split; [|reflexivity]; cbn; reflexivity|].
  cbn [ins] in E. destruct (ins_below (ins key q) key (T c l p k r)) as [[err1 t1]|] eqn:E1; [|discriminate]. destruct (fixup t1) as [t2|] eqn:E2; [|discriminate]. apply guard_Some in E as [V E]. injection E as <- <-. rewrite (addrs_eq _ _ (entries_fixup _ _ E2)).
  assert (X : (err1 = errSuccess \/ err1 = errDuplicateEntry) /\ forall x, x ∈ addrs t1 <-> x ∈ added err1 q ++ addrs (T c l p k r)).
  { unfold ins_below in E1. destruct (key_eq key k); [injection E1 as <- <-; split; [auto|reflexivity]|]. destruct (key_lt key k).
    - destruct (ins key q l) as [[err2 l']|]; [|discriminate]. injection E1 as <- <-. destruct (IHl _ _ eq_refl) as (A & B & _). split; [exact A|]. intros x. rewrite elem_of_app, !elem_addrs_T, B, elem_of_app. tauto.
    - apply guard_Some in E1 as [_ E1]. destruct (ins key q r) as [[err2 r']|]; [|discriminate]. injection E1 as <- <-. destruct (IHr _ _ eq_refl) as (A & B & _). split; [exact A|]. intros x. rewrite elem_of_app, !elem_addrs_T, B, elem_of_app. tauto. }
  destruct X as [X1 X2]. split; [exact X1|]. split; [exact X2|]. now destruct t2.
Qed.

Lemma insert_leaf_runs h key q : q <> NULL -> is_Some (h !! q) -> runs (InitNode_ key q;; mret (errSuccess, q)) h [q] (fun res h' => res = (errSuccess, q) /\ own h' (T Red Leaf q key Leaf)).
Proof.
  intros N [n E]. unfold InitNode_. apply runs_assoc. eapply runs_reads; [eapply reads_load; eassumption|]. eapply runs_store; [exact N|exact E|left|]. apply runs_ret. split; [reflexivity|].
  apply own_T. split; [exact N|]. split; [apply lookup_insert_eq|]. split; [apply own_Leaf|]. split; [apply own_Leaf|]. split; [apply not_elem_of_nil|]. split; [apply not_elem_of_nil|]. intros x _. apply not_elem_of_nil.
Qed.

Lemma ErrInsert_runs fuel key q : q <> NULL -> forall t h err t', own h t -> q ∉ addrs t -> is_Some (h !! q) -> ins key q t = Some (err, t') -> (depth t < fuel)%nat ->
  runs (ErrInsert_ DEBUG fuel key q (ptr t)) h (added err q ++ addrs t) (fun res h' => res = (err, ptr t') /\ own h' t').
Proof.
  intros Nq. induction fuel as [|fuel IH]; intros t h err t' O Iq Eq E F; [lia|]. destruct t as [|c l p k r].
  - injection E as <- <-. cbn [ErrInsert_ ptr added app]. change (NULL =? NULL) with true. cbn iota. now apply insert_leaf_runs.
  - pose proof O as O'. apply own_T in O' as (N & _ & Ol & Or & N1 & N2 & D). cbn [depth] in F. cbn [ErrInsert_ ptr]. apply Z.eqb_neq in N as N'. rewrite N'. eapply runs_reads; [eapply reads_Key; exact O|].
    cbn [ins] in E. destruct (ins_below (ins key q) key (T c l p k r)) as [[err1 t1]|] eqn:E1; [|discriminate]. destruct (fixup t1) as [t2|] eqn:E2; [|discriminate]. apply guard_Some in E as [V E]. injection E as <- <-. rewrite elem_addrs_T in Iq.
    assert (Dz : forall x, x ∈ added err1 q -> x ∉ addrs (T c l p k r)) by (intros x Hx; rewrite (added_in _ _ _ Hx), elem_addrs_T; tauto).
    eapply runs_bind with (P := fun e h' => e = err1 /\ own h' t1 /\ ptr t1 = p /\ forall x, x ∈ addrs t1 -> x ∈ added err1 q ++ addrs (T c l p k r)).
    + unfold ins_below in E1. destruct (key_eq key k) eqn:K; [injection E1 as <- <-; apply runs_ret; auto|]. destruct (key_lt key k) eqn:L.
      * destruct (ins key q l) as [[err2 l']|] eqn:El; [|discriminate]. injection E1 as -> <-. destruct (ins_addrs _ _ _ _ _ El) as (_ & A & _). eapply runs_reads; [apply (reads_left _ _ O eq_refl)|]. cbn [left].
        eapply runs_call; [apply (IH l h err1 l' Ol); [tauto|exact Eq|exact El|lia]|intros x Hx; rewrite elem_of_app in *; rewrite elem_addrs_T; tauto|]. intros a h1 F1 [-> O1]. cbn [fst snd].
        destruct (own_set_left h h1 c l p k r l' (added err1 q) O F1 O1) as [E3 O3]; [intros x Hx; now apply A|exact Dz|]. eapply runs_SetLeft; [exact N|exact E3|rewrite elem_of_app, elem_addrs_T; auto|]. apply runs_ret. split; [reflexivity|]. split; [exact O3|]. split; [reflexivity|].
        intros x. rewrite elem_of_app, !elem_addrs_T, A, elem_of_app. tauto.
      * apply guard_Some in E1 as [G E1]. destruct (ins key q r) as [[err2 r']|] eqn:Er; [|discriminate]. injection E1 as -> <-. destruct (ins_addrs _ _ _ _ _ Er) as (_ & A & _).
        apply runs_assert; [intros _; eapply reads_bind; [eapply reads_Key; exact O|]; rewrite G; apply reads_ret|]. eapply runs_reads; [apply (reads_right _ _ O eq_refl)|]. cbn [right].
        eapply runs_call; [apply (IH r h err1 r' Or); [tauto|exact Eq|exact Er|lia]|intros x Hx; rewrite elem_of_app in *; rewrite elem_addrs_T; tauto|]. intros a h1 F1 [-> O1]. cbn [fst snd].
        destruct (own_set_right h h1 c l p k r r' (added err1 q) O F1 O1) as [E3 O3]; [intros x Hx; now apply A|exact Dz|]. eapply runs_SetRight; [exact N|exact E3|rewrite elem_of_app, elem_addrs_T; auto|]. apply runs_ret. split; [reflexivity|]. split; [exact O3|]. split; [reflexivity|].
        intros x. rewrite elem_of_app, !elem_addrs_T, A, elem_of_app. tauto.
    + intros e h1 _ (-> & O1 & <- & I). eapply runs_call; [apply Fixup_runs; [exact O1|exact E2]|exact I|]. intros a h2 _ [-> O2]. eapply runs_reads; [now apply Node_AssertValid_reads|]. apply runs_ret. auto.
Qed.

End Ops.

(** * The red-black tree: deletion in the store *)

Section Erase.
Context {KEY : Type} `{KeyOrder KEY}.
Abbreviation tree := (tree KEY).
Variable DEBUG : bool.
Abbreviation M := (M KEY).
Implicit Types (h : Heap KEY) (l r t : tree) (key k : KEY).

Lemma own_nodup h t : own h t -> NoDup (addrs t).
Proof. now intros []. Qed.

(** Preparing a node for going left. *)
Lemma prepare_left_runs {B} (f : Z -> M B) h t t1 S Q : own h t -> is_leaf (left t) = false -> (if wants_red_left t then move_red_left t else Some t) = Some t1 -> (forall x, x ∈ addrs t -> x ∈ S) ->
  (forall h', own h' t1 -> runs (f (ptr t1)) h' S Q) ->
  runs (g ← andM (b ← FIsNonNullAndRed (ptr (left t)); mret (negb b)) (ll ← PnodeLeft (ptr (left t)); b ← FIsNonNullAndRed ll; mret (negb b));
        (if g : bool then MoveRedLeft_ DEBUG (ptr t) else mret (ptr t)) ≫= f) h S Q.
Proof.
  intros O N E I K. eapply runs_reads; [apply reads_wants; [now apply own_left|exact N]|]. fold (wants_red_left t). apply (runs_tree_bind _ _ h t t1); [|exact I|auto].
  destruct (wants_red_left t); [|injection E as <-; now apply runs_ret]. apply MoveRedLeft_runs; [exact O|destruct t; [discriminate|reflexivity]|exact E].
Qed.

Lemma prepare_right_runs {B} (f : Z -> M B) h t t1 S Q : own h t -> is_leaf (right t) = false -> (if wants_red_right t then move_red_right t else Some t) = Some t1 -> (forall x, x ∈ addrs t -> x ∈ S) ->
  (forall h', own h' t1 -> runs (f (ptr t1)) h' S Q) ->
  runs (g ← andM (b ← FIsNonNullAndRed (ptr (right t)); mret (negb b)) (rl ← PnodeLeft (ptr (right t)); b ← FIsNonNullAndRed rl; mret (negb b));
        (if g : bool then MoveRedRight_ DEBUG (ptr t) else mret (ptr t)) ≫= f) h S Q.
Proof.
  intros O N E I K. eapply runs_reads; [apply reads_wants; [now apply own_right|exact N]|]. fold (wants_red_right t). apply (runs_tree_bind _ _ h t t1); [|exact I|auto].
  destruct (wants_red_right t); [|injection E as <-; now apply runs_ret]. apply MoveRedRight_runs; [exact O|destruct t; [discriminate|reflexivity]|exact E].
Qed.

Lemma entries_prepared_left t t1 : (if wants_red_left t then move_red_left t else Some t) = Some t1 -> entries t1 = entries t.
Proof. destruct (wants_red_left t); [apply entries_move_red_left|now intros [= ->]]. Qed.
Lemma entries_prepared_right t t1 : (if wants_red_right t then move_red_right t else Some t) = Some t1 -> entries t1 = entries t.
Proof. destruct (wants_red_right t); [apply entries_move_red_right|now intros [= ->]]. Qed.

(** ** Taking the smallest node out *)

Lemma RemoveMin_runs fuel t h t' : own h t -> remove_min fuel t = Some t' ->
  runs (RemoveMinNode_ DEBUG fuel (ptr t)) h (addrs t) (fun q h' => q = ptr t' /\ own h' t' /\ forall e, entries t = e :: entries t' -> exists n, h' !! e.2 = Some n /\ m_key n = e.1).
Proof.
  revert t h t'. induction fuel as [|fuel IH]; intros [|c l p k r] h t' O E; try discriminate. cbn [remove_min RemoveMinNode_ ptr] in *. eapply runs_reads; [apply (reads_left _ _ O eq_refl)|]. cbn [left].
  pose proof O as O'. apply own_T in O' as (N & Ep & Ol & Or & _). rewrite (own_ptr_eqb _ _ Ol). destruct (is_leaf l) eqn:Nl.
  - apply guard_Some in E as [Nr E]. injection E as <-. apply runs_assert; [intros _; eapply reads_bind; [apply (reads_right _ _ O eq_refl)|]; cbn [right]; rewrite (own_ptr_eqb _ _ Or), Nr; apply reads_ret|].
    apply runs_ret. split; [reflexivity|]. split; [apply own_Leaf|]. destruct l; [|discriminate]. intros e X. cbn in X. injection X as <- _. cbn. eauto.
  - destruct (if wants_red_left (T c l p k r) then move_red_left (T c l p k r) else Some (T c l p k r)) as [t1|] eqn:E1; [|discriminate]. destruct t1 as [|c1 l1 p1 k1 r1]; [discriminate|].
    destruct (remove_min fuel l1) as [l1'|] eqn:E2; [|discriminate]. pose proof (entries_prepared_left _ _ E1) as En. pose proof (addrs_eq _ _ En) as Ad.
    apply (prepare_left_runs _ h (T c l p k r) (T c1 l1 p1 k1 r1)); [exact O|exact Nl|exact E1|auto|]. intros h1 O1. rewrite <- Ad. destruct (remove_min_spec _ _ _ E2) as [e Ee].
    eapply runs_reads; [apply (reads_left _ _ O1 eq_refl)|]. cbn [left]. pose proof O1 as O1'. apply own_T in O1' as (N1 & _ & Ol1 & _ & X1 & X2 & D1).
    eapply runs_call; [apply (IH l1 h1 l1' Ol1 E2)|intros x Hx; apply elem_addrs_T; auto|]. intros a h2 F2 (-> & O2 & K). destruct (K e Ee) as (n & En2 & Kn).
    assert (Sub : forall x, x ∈ addrs l1' -> x ∈ addrs l1) by (intros x Hx; unfold addrs in *; rewrite Ee; cbn; now right).
    destruct (own_set_left h1 h2 c1 l1 p1 k1 r1 l1' [] O1 F2 O2) as [E3 O3]; [exact Sub|intros x Hx; now apply elem_of_nil in Hx|].
    eapply runs_SetLeft; [exact N1|exact E3|apply elem_addrs_T; auto|]. cbn [m_key m_color m_pnodeRight ptr]. eapply runs_tail. eapply runs_call; [apply (Fixup_runs DEBUG _ (T c1 l1' p1 k1 r1) t' O3 E)|intros x; rewrite !elem_addrs_T; intros [Hx|Hx]; auto|].
    intros a h4 F4 [-> O4]. apply runs_ret. split; [reflexivity|]. split; [exact O4|]. intros e' Ee'.
    assert (e' = e). { rewrite <- En in Ee'. cbn [entries] in Ee'. rewrite Ee in Ee'. now injection Ee' as <- _. } subst e'. exists n. split; [|exact Kn].
    assert (I1 : e.2 ∈ addrs l1) by (unfold addrs; rewrite Ee; left). assert (e.2 <> p1) by (intros X; now rewrite X in I1). rewrite F4, lookup_insert_ne; [exact En2|congruence|]. rewrite elem_addrs_T.
    pose proof (own_nodup _ _ Ol1) as Dl. unfold addrs in Dl. rewrite Ee in Dl. cbn in Dl. apply NoDup_cons in Dl as [Dl _]. specialize (D1 _ I1). unfold addrs in *. tauto.
Qed.

(** ** Deletion *)

(** The node that was taken out: it is still there and, in a DEBUG build, cleared. *)
Definition scrubbed h (a : Z) : Prop := exists n, h !! a = Some n /\ (DEBUG = true -> m_pnodeLeft n = NULL /\ m_pnodeRight n = NULL).

Lemma scrubbed_frame h h' a : scrubbed h a -> h' !! a = h !! a -> scrubbed h' a.
Proof. intros (n & E & X) F. exists n. now rewrite F. Qed.

Lemma ldelete_split key a (es : list (KEY * Z)) : ordered es -> lfind key es = Some (key, a) -> exists x y, es = x ++ (key, a) :: y /\ ldelete key es = x ++ y.
Proof.
  intros O F. destruct (lfind_Some _ _ _ F) as [I _]. apply list_elem_of_split in I as (x & y & ->). exists x, y. split; [reflexivity|]. apply ordered_app in O as (_ & _ & B & A). rewrite ldelete_app, (ldelete_below key x) by exact B. f_equal.
  unfold ldelete. cbn. rewrite key_eq_refl. cbn. now apply ldelete_above.
Qed.

(** The addresses after a deletion. *)
Lemma del_addrs fuel t key t' a : tree_ordered t -> NoDup (addrs t) -> del fuel t key = Some (t', a) ->
  a ∈ addrs t /\ (a ∉ addrs t') /\ (forall x, x ∈ addrs t' -> x ∈ addrs t) /\ (forall x, x ∈ addrs t -> x = a \/ x ∈ addrs t').
Proof.
  intros O D E. destruct (del_entries _ _ _ _ _ O E) as [F En]. destruct (ldelete_split key a _ O F) as (x & y & E1 & E2). unfold addrs in *. rewrite En, E2. rewrite E1 in D |- *. rewrite !map_app in *. cbn [map snd] in *. apply NoDup_app in D as (_ & D1 & D2). apply NoDup_cons in D2 as [D2 _].
  split; [apply elem_of_app; right; left|]. split; [rewrite elem_of_app; intros [I|I]; [apply (D1 a I); left|auto]|]. split; intros z; rewrite !elem_of_app, elem_of_cons; tauto.
Qed.

(** What the part of [Delete_] before the last [Fixup_] leaves. *)
Definition deleted (t' : tree) (a : Z) (S : list Z) (res : option Z * Z) (h' : Heap KEY) : Prop :=
  res.2 = a /\ scrubbed h' a /\
  match res.1 with
  | None => t' = Leaf
  | Some q => exists t3, q = ptr t3 /\ own h' t3 /\ is_leaf t3 = false /\ fixup t3 = Some t' /\ (a ∉ addrs t3) /\ (forall x, x ∈ addrs t3 -> x ∈ S)
  end.

(** What [Delete_] leaves. *)
Definition erased (t' : tree) (a : Z) (res : Z * Z) (h' : Heap KEY) : Prop := res = (ptr t', a) /\ own h' t' /\ scrubbed h' a.

Lemma hang_left_runs fuel h c l p k r key l' a t' : own h (T c l p k r) -> tree_ordered l -> del fuel l key = Some (l', a) -> fixup (T c l' p k r) = Some t' ->
  runs (Delete_ DEBUG fuel (ptr l) key) h (addrs l) (erased l' a) ->
  runs (l ← PnodeLeft p; '(l', d) ← Delete_ DEBUG fuel l key; SetLeft p l';; mret (Some p, d)) h (addrs (T c l p k r)) (deleted t' a (addrs (T c l p k r))).
Proof.
  intros O Ord E Fx R. pose proof O as O'. apply own_T in O' as (N & _ & Ol & Or & N1 & N2 & D). destruct (del_addrs _ _ _ _ _ Ord (own_nodup _ _ Ol) E) as (A1 & A2 & A3 & _).
  eapply runs_reads; [apply (reads_left _ _ O eq_refl)|]. cbn [left]. eapply runs_call; [exact R|intros x Hx; apply elem_addrs_T; auto|]. intros res h1 F1 (-> & O1 & Sc).
  destruct (own_set_left h h1 c l p k r l' [] O F1 O1) as [E3 O3]; [exact A3|intros x Hx; now apply elem_of_nil in Hx|]. eapply runs_SetLeft; [exact N|exact E3|apply elem_addrs_T; auto|]. cbn [m_key m_color m_pnodeRight]. apply runs_ret. assert (a <> p) by (intros ->; auto).
  split; [reflexivity|]. split; [apply (scrubbed_frame h1); [exact Sc|apply lookup_insert_ne; congruence]|]. cbn [fst]. exists (T c l' p k r). split; [reflexivity|]. split; [exact O3|]. split; [reflexivity|]. split; [exact Fx|]. rewrite elem_addrs_T. specialize (D _ A1). split; [tauto|].
  intros x. rewrite !elem_addrs_T. intros [X|X]; auto.
Qed.

Lemma hang_right_runs fuel h c l p k r key r' a t' : own h (T c l p k r) -> tree_ordered r -> del fuel r key = Some (r', a) -> fixup (T c l p k r') = Some t' ->
  runs (Delete_ DEBUG fuel (ptr r) key) h (addrs r) (erased r' a) ->
  runs (r ← PnodeRight p; '(r', d) ← Delete_ DEBUG fuel r key; SetRight p r';; mret (Some p, d)) h (addrs (T c l p k r)) (deleted t' a (addrs (T c l p k r))).
Proof.
  intros O Ord E Fx R. pose proof O as O'. apply own_T in O' as (N & _ & Ol & Or & N1 & N2 & D). destruct (del_addrs _ _ _ _ _ Ord (own_nodup _ _ Or) E) as (A1 & A2 & A3 & _).
  eapply runs_reads; [apply (reads_right _ _ O eq_refl)|]. cbn [right]. eapply runs_call; [exact R|intros x Hx; apply elem_addrs_T; auto|]. intros res h1 F1 (-> & O1 & Sc).
  destruct (own_set_right h h1 c l p k r r' [] O F1 O1) as [E3 O3]; [exact A3|intros x Hx; now apply elem_of_nil in Hx|]. eapply runs_SetRight; [exact N|exact E3|apply elem_addrs_T; auto|]. cbn [m_key m_color m_pnodeLeft]. apply runs_ret. assert (a <> p) by (intros ->; auto).
  split; [reflexivity|]. split; [apply (scrubbed_frame h1); [exact Sc|apply lookup_insert_ne; congruence]|]. cbn [fst]. exists (T c l p k r'). split; [reflexivity|]. split; [exact O3|]. split; [reflexivity|]. split; [exact Fx|]. rewrite elem_addrs_T.
  split; [|intros x; rewrite !elem_addrs_T; intros [X|[X|X]]; auto]. intros [X|[X|X]]; [now apply (D a X)|auto|auto].
Qed.

Lemma runs_ScrubNode {B} p n (f : unit -> M B) h S Q : p <> NULL -> h !! p = Some n -> p ∈ S ->
  (forall h', (forall x, x <> p -> h' !! x = h !! x) -> scrubbed h' p -> runs (f tt) h' S Q) -> runs (ScrubNode_ DEBUG p ≫= f) h S Q.
Proof.
  intros N E I K. unfold ScrubNode_, scrubbed in *. destruct DEBUG.
  - apply runs_assoc. eapply runs_reads; [eapply reads_load; eassumption|]. eapply runs_store; [exact N|exact E|exact I|]. apply K; [intros x Hx; apply lookup_insert_ne; congruence|]. eexists. split; [apply lookup_insert_eq|auto].
  - apply (runs_reads _ _ h tt); [apply reads_ret|]. apply K; [auto|]. exists n. split; [exact E|discriminate].
Qed.

Lemma swap_min_runs fuel h c l p k r kmin pmin r' t' : own h (T c l p k r) -> min_entry fuel r = Some (kmin, pmin) -> remove_min fuel r = Some r' -> fixup (T c l pmin kmin r') = Some t' ->
  runs (r ← PnodeRight p; pnodeMin ← PnodeMin_ DEBUG fuel r; r ← PnodeRight p; pnodeRight ← RemoveMinNode_ DEBUG fuel r;
        l ← PnodeLeft p; SetLeft pnodeMin l;; SetRight pnodeMin pnodeRight;; c ← Color p; SetColor pnodeMin c;;
        ScrubNode_ DEBUG p;; mret (Some pnodeMin, p)) h (addrs (T c l p k r)) (deleted t' p (addrs (T c l p k r))).
Proof.
  intros O E1 E2 Fx. pose proof O as O'. apply own_T in O' as (N & Ep & Ol & Or & N1 & N2 & D). destruct (min_entry_spec _ _ _ E1) as [x Ex]. destruct (remove_min_spec _ _ _ E2) as [e Ee].
  assert (X : e = (kmin, pmin)) by (rewrite Ee in Ex; now injection Ex as ->). subst e. clear x Ex. assert (Im : pmin ∈ addrs r) by (unfold addrs; rewrite Ee; left). destruct (addrs_not_null _ _ _ (proj1 Or) Im) as [Nm _].
  assert (Nmp : pmin <> p) by congruence. assert (Sm : pmin ∈ addrs (T c l p k r)) by (apply elem_addrs_T; auto). assert (Sp : p ∈ addrs (T c l p k r)) by (apply elem_addrs_T; auto).
  pose proof (own_nodup _ _ Or) as Dr. unfold addrs in Dr. rewrite Ee in Dr. cbn in Dr. apply NoDup_cons in Dr as [Dr _]. fold (addrs r') in Dr. assert (Sub : forall x, x ∈ addrs r' -> x ∈ addrs r) by (intros x Hx; unfold addrs in *; rewrite Ee; now right).
  eapply runs_reads; [apply (reads_right _ _ O eq_refl)|]. eapply runs_reads; [now apply (PnodeMin_reads DEBUG _ _ _ kmin pmin)|]. eapply runs_reads; [apply (reads_right _ _ O eq_refl)|]. cbn [right].
  eapply runs_call; [apply (RemoveMin_runs fuel r h r' Or E2)|intros x Hx; apply elem_addrs_T; auto|]. intros a h1 F1 (-> & O1 & K). destruct (K _ Ee) as (n & En & Kn). cbn in En, Kn. clear K.
  assert (Ep1 : h1 !! p = Some (mkNode k c (ptr l) (ptr r))) by (rewrite F1; auto). assert (Ol1 : own h1 l) by (apply own_frame with h; [exact Ol|]; intros x Hx; now apply F1, D).
  eapply runs_PnodeLeft; [exact N|exact Ep1|]. eapply runs_SetLeft; [exact Nm|exact En|exact Sm|]. eapply runs_SetRight; [exact Nm|known|exact Sm|]. eapply runs_Color; [exact N|known|]. eapply runs_SetColor; [exact Nm|known|exact Sm|]. cbn [m_key m_color m_pnodeLeft m_pnodeRight]. rewrite Kn.
  eapply runs_ScrubNode; [exact N|known|exact Sp|]. intros h5 F5 Sc. apply runs_ret. split; [reflexivity|]. split; [exact Sc|]. cbn [fst].
  assert (Dl : pmin ∉ addrs l) by (intros I; now apply (D pmin I)). assert (Fr : forall t, own h1 t -> (p ∉ addrs t) -> (pmin ∉ addrs t) -> own h5 t) by (intros t Ot Np Nm'; apply own_frame with h1; [exact Ot|]; intros x Hx; rewrite F5 by congruence; repeat rewrite lookup_insert_ne by congruence; reflexivity).
  exists (T c l pmin kmin r'). split; [reflexivity|]. split; [|split; [reflexivity|]; split; [exact Fx|]; split; [rewrite elem_addrs_T; intros [I|[I|I]]; auto|intros x; rewrite !elem_addrs_T; intros [I|[->|I]]; auto]].
  apply own_T. split; [exact Nm|]. split; [rewrite F5 by exact Nmp; known|]. split; [apply Fr; auto|]. split; [apply Fr; auto|]. split; [exact Dl|]. split; [exact Dr|]. intros x Hx Hx'. now apply (D x Hx), Sub.
Qed.

Lemma delete_finish_runs h h0 t t' a res : own h0 t -> a ∈ addrs t -> (a ∉ addrs t') -> deleted t' a (addrs t) res h ->
  runs (match res with
        | (None, pnodeDeleted) => mret (NULL, pnodeDeleted)
        | (Some pnodeT, pnodeDeleted) => COLLAssert DEBUG (mret (negb (pnodeDeleted =? NULL)));; pnodeT ← Fixup_ DEBUG pnodeT; mret (pnodeT, pnodeDeleted)
        end) h (addrs t) (erased t' a).
Proof.
  intros O I Na (E & Sc & X). destruct res as [[q|] d]; cbn in E, X; subst d.
  - destruct X as (t3 & -> & O3 & N3 & Fx & Na3 & Sub). destruct (addrs_not_null _ _ _ (proj1 O) I) as [Nn _]. apply runs_not_null; [exact Nn|]. eapply runs_call; [apply (Fixup_runs DEBUG h t3 t' O3 Fx)|exact Sub|]. intros q h2 F2 [-> O2]. apply runs_ret.
    split; [reflexivity|]. split; [exact O2|]. apply (scrubbed_frame h); [exact Sc|now apply F2].
  - subst t'. apply runs_ret. split; [reflexivity|]. split; [apply own_Leaf|exact Sc].
Qed.

Lemma Delete_runs fuel key t h t' a : own h t -> tree_ordered t -> del fuel t key = Some (t', a) -> runs (Delete_ DEBUG fuel (ptr t) key) h (addrs t) (erased t' a).
Proof.
  revert t h t' a. induction fuel as [|fuel IH]; intros t h t' a O Ord E; [discriminate|]. destruct (del_addrs _ _ _ _ _ Ord (own_nodup _ _ O) E) as (A1 & A2 & _). destruct t as [|c l p k r]; [discriminate|]. cbn [del] in E. cbn [Delete_ ptr].
  pose proof O as O'. apply own_T in O' as (N & Ep & Ol & Or & N1 & N2 & D). apply runs_not_null; [exact N|]. eapply runs_reads; [eapply reads_Key; exact O|]. eapply runs_bind; [|intros res h1 _ X; exact (delete_finish_runs h1 h (T c l p k r) t' a res O A1 A2 X)]. clear A1 A2. destruct (key_lt key k) eqn:L.
  - apply guard_Some in E as [Nl E]. apply negb_true_iff in Nl. destruct (if wants_red_left (T c l p k r) then move_red_left (T c l p k r) else Some (T c l p k r)) as [t1|] eqn:E1; [|discriminate]. destruct t1 as [|c1 l1 p1 k1 r1]; [discriminate|].
    destruct (del fuel l1 key) as [[l1' a1]|] eqn:E2; [|discriminate]. destruct (fixup (T c1 l1' p1 k1 r1)) as [t2|] eqn:E3; [|discriminate]. injection E as <- <-. pose proof (entries_prepared_left _ _ E1) as En.
    assert (Ord1 : tree_ordered l1) by (unfold tree_ordered in Ord; rewrite <- En in Ord; now apply (ordered_T c1) in Ord).
    apply runs_assert; [intros _; eapply reads_bind; [apply (reads_left _ _ O eq_refl)|]; cbn [left]; rewrite (own_ptr_eqb _ _ Ol), Nl; apply reads_ret|]. eapply runs_reads; [apply (reads_left _ _ O eq_refl)|].
    apply (prepare_left_runs _ h (T c l p k r) (T c1 l1 p1 k1 r1)); [exact O|exact Nl|exact E1|auto|]. intros h1 O1. rewrite <- (addrs_eq _ _ En). cbn [ptr]. apply (hang_left_runs fuel h1 c1 l1 p1 k1 r1 key l1'); auto. apply IH; auto. now apply (own_left _ _ O1).
  - destruct (if red l then rotr (T c l p k r) else Some (T c l p k r)) as [t1|] eqn:E1; [|discriminate]. destruct t1 as [|c1 l1 p1 k1 r1]; [discriminate|]. assert (En : entries (T c1 l1 p1 k1 r1) = entries (T c l p k r)) by (destruct (red l); [now apply entries_rotr|now injection E1 as -> -> -> -> ->]).
    eapply runs_reads; [apply (reads_left _ _ O eq_refl)|]. eapply runs_reads; [apply (reads_red _ _ Ol)|]. apply (runs_tree_bind _ _ h (T c l p k r) (T c1 l1 p1 k1 r1)); [destruct (red l); [apply (RotateRight_runs DEBUG h (T c l p k r)); auto|injection E1 as -> -> -> -> ->; now apply runs_ret]|auto|].
    intros h1 _ O1. rewrite <- (addrs_eq _ _ En). unfold tree_ordered in Ord. rewrite <- En in Ord. fold (tree_ordered (T c1 l1 p1 k1 r1)) in Ord. clear - IH H0 O1 Ord E. rename c1 into c, l1 into l, p1 into p, k1 into k, r1 into r, h1 into h, O1 into O. cbn [ptr].
    pose proof O as O'. apply own_T in O' as (N & Ep & Ol & Or & N1 & N2 & D). eapply runs_reads; [eapply reads_Key; exact O|]. eapply runs_reads. { apply reads_andM; [apply reads_ret|]. intros _. eapply reads_bind; [apply (reads_right _ _ O eq_refl)|]. cbn [right]. rewrite (own_ptr_eqb _ _ Or). apply reads_ret. }
    destruct (key_eq key k && is_leaf r).
    + apply guard_Some in E as [G E]. injection E as <- <-. apply andb_true_iff in G as [Gl Gc]. apply runs_assert; [intros _; eapply reads_bind; [apply (reads_left _ _ O eq_refl)|]; cbn [left]; rewrite (own_ptr_eqb _ _ Ol), Gl; apply reads_ret|].
      apply runs_assert; [intros _; eapply reads_bind; [eapply reads_Color; exact O|]; rewrite Gc; apply reads_ret|]. eapply runs_ScrubNode; [exact N|exact Ep|apply elem_addrs_T; auto|]. intros h5 _ Sc. apply runs_ret. split; [reflexivity|]. split; [exact Sc|reflexivity].
    + apply guard_Some in E as [Nr E]. apply negb_true_iff in Nr. destruct (if wants_red_right (T c l p k r) then move_red_right (T c l p k r) else Some (T c l p k r)) as [t2|] eqn:E2; [|discriminate]. destruct t2 as [|c2 l2 p2 k2 r2]; [discriminate|]. pose proof (entries_prepared_right _ _ E2) as En.
      eapply runs_reads; [apply (reads_right _ _ O eq_refl)|]. apply (prepare_right_runs _ h (T c l p k r) (T c2 l2 p2 k2 r2)); [exact O|exact Nr|exact E2|auto|]. intros h2 O2. rewrite <- (addrs_eq _ _ En). unfold tree_ordered in Ord. rewrite <- En in Ord. fold (tree_ordered (T c2 l2 p2 k2 r2)) in Ord. cbn [ptr].
      eapply runs_reads; [eapply reads_Key; exact O2|]. destruct (key_eq key k2).
      * destruct (min_entry fuel r2) as [[kmin pmin]|] eqn:E3; [|discriminate]. destruct (remove_min fuel r2) as [r2'|] eqn:E4; [|discriminate]. destruct (fixup (T c2 l2 pmin kmin r2')) as [t3|] eqn:E5; [|discriminate]. injection E as <- <-. cbn zeta. now apply (swap_min_runs fuel h2 c2 l2 p2 k2 r2 kmin pmin r2').
      * destruct (del fuel r2 key) as [[r2' a1]|] eqn:E3; [|discriminate]. destruct (fixup (T c2 l2 p2 k2 r2')) as [t3|] eqn:E5; [|discriminate]. injection E as <- <-. pose proof (proj1 (ordered_T _ _ _ _ _) Ord) as (_ & Or2 & _). apply (hang_right_runs fuel h2 c2 l2 p2 k2 r2 key r2'); auto. apply IH; auto. now apply (own_right _ _ O2).
Qed.

End Erase.
