(* ===== verification/RbMap.v ===== *)
(** * The red-black tree as an ordered map

    A tree in the store holds an ordered list of keys and nodes.  Each operation
    of the interface, from such a store, returns what the list says, changes the
    list as its name says and writes only at the nodes of the tree and the node
    that comes in.  No assertion fails, in a DEBUG build or not. *)

From stdpp Require Import base gmap list sorting.
From Stdlib Require Import ZArith Lia Bool.
From S2P Require Import Prelude RbTree RbShape RbBalance RbHeap RbOps.

Section Map.
Context {KEY : Type} `{KeyOrder KEY}.
Abbreviation tree := (tree KEY).
Variable DEBUG : bool.
Variable OffsetOfILE : Z.
Abbreviation M := (M KEY).
Implicit Types (h : Heap KEY) (key k : KEY) (es : list (KEY * Z)) (rbt : InvasiveRedBlackTree).

(** ** The map of a tree *)

Definition is_address (a : Z) : Prop := 0 < a < 18446744073709551616.

Definition is_map h rbt es : Prop :=
  exists t, m_pnodeRoot rbt = ptr t /\ own h t /\ top t /\ tree_ordered t /\ entries t = es /\ Forall (fun e => is_address e.2) es.

Lemma is_map_empty h : is_map h (mkInvasiveRedBlackTree NULL) [].
Proof. exists Leaf. split; [reflexivity|]. split; [apply own_Leaf|]. split; [exact I|]. split; [constructor|]. split; [reflexivity|constructor]. Qed.

Lemma is_map_ordered h rbt es : is_map h rbt es -> ordered es.
Proof. intros (t & _ & _ & _ & O & <- & _). exact O. Qed.

Lemma is_map_frame h h' rbt es : is_map h rbt es -> (forall x, x ∈ map snd es -> h' !! x = h !! x) -> is_map h' rbt es.
Proof. intros (t & E & O & T & Or & <- & A) F. exists t. split; [exact E|]. split; [now apply own_frame with h|]. auto. Qed.

Lemma is_map_nodup h rbt es : is_map h rbt es -> NoDup (map snd es).
Proof. intros (t & _ & O & _ & _ & <- & _). now apply own_nodup in O. Qed.

Lemma is_map_FEmpty h rbt es : is_map h rbt es -> FEmpty rbt = bool_decide (es = []).
Proof.
  intros (t & E & O & _ & _ & <- & _). unfold FEmpty. rewrite E, (own_ptr_eqb _ _ O). destruct t as [|c l p k r]; [reflexivity|]. cbn. symmetry. apply bool_decide_eq_false_2. intros X. destruct (app_cons_not_nil _ _ _ (eq_sym X)).
Qed.

(** Objects and nodes. *)
Lemma node_of_object a : is_address a -> CObjectToNode OffsetOfILE (NodeToCObject OffsetOfILE a) = a.
Proof.
  intros A. unfold is_address in A. unfold CObjectToNode, NodeToCObject, u64. rewrite Z.add_mod_idemp_l by lia. replace (a - OffsetOfILE + OffsetOfILE) with a by lia. apply Z.mod_small. lia.
Qed.

Lemma object_of_node o : 0 <= o < 18446744073709551616 -> NodeToCObject OffsetOfILE (CObjectToNode OffsetOfILE o) = o.
Proof. intros A. unfold CObjectToNode, NodeToCObject, u64. rewrite Zminus_mod_idemp_l. replace (o + OffsetOfILE - OffsetOfILE) with o by lia. apply Z.mod_small. lia. Qed.

(** ** Searches *)

(** Turns of a search in a tree of [n] nodes. *)
Definition turns (n : nat) : nat := S (2 * Nat.log2 (S n)).

Lemma depth_turns (t : tree) : top t -> (depth t < turns (length (entries t)))%nat.
Proof. intros T. apply top_depth in T. unfold turns, size in *. lia. Qed.

Lemma root_entry_ptr (t : tree) : (ptr t = match root_entry t with Some e => e.2 | None => NULL end).
Proof. now destruct t. Qed.
Lemma root_entry_leaf (t : tree) : is_leaf t = match root_entry t with Some _ => false | None => true end.
Proof. now destruct t. Qed.

Lemma Find_map h rbt es key fuel : is_map h rbt es -> (turns (length es) <= fuel)%nat -> reads (Find_ DEBUG fuel (m_pnodeRoot rbt) key) h (match lfind key es with Some e => e.2 | None => NULL end).
Proof.
  intros (t & E & O & T & Or & <- & _) F. rewrite E. pose proof (depth_turns _ T). pose proof (Find_reads DEBUG h t key fuel O ltac:(lia)) as R. rewrite (root_entry_ptr (find t key)), (find_spec _ _ Or) in R. exact R.
Qed.

Lemma address_not_null h rbt es e : is_map h rbt es -> e ∈ es -> (e.2 =? NULL) = false.
Proof. intros (_ & _ & _ & _ & _ & _ & A) I. rewrite Forall_forall in A. specialize (A e I). apply Z.eqb_neq. unfold NULL, is_address in *. lia. Qed.

Lemma lfind_elem_of key es e : lfind key es = Some e -> e ∈ es.
Proof. intros F. now apply lfind_Some in F. Qed.

Lemma FContainsKey_map h rbt es key fuel : is_map h rbt es -> (turns (length es) <= fuel)%nat -> reads (FContainsKey_ DEBUG fuel rbt key) h (match lfind key es with Some _ => true | None => false end).
Proof.
  intros R F. unfold FContainsKey_. eapply reads_bind; [now apply (Find_map h rbt es)|]. destruct (lfind key es) as [e|] eqn:L; [|apply reads_ret]. rewrite (address_not_null h rbt es e R) by now apply lfind_elem_of in L. apply reads_ret.
Qed.

Definition found es key : ERR * Z := match lfind key es with Some e => (errSuccess, NodeToCObject OffsetOfILE e.2) | None => (errEntryNotFound, NULL) end.

Lemma ErrFind_map h rbt es key fuel : is_map h rbt es -> (turns (length es) <= fuel)%nat -> reads (ErrFind DEBUG OffsetOfILE fuel rbt key) h (found es key).
Proof.
  intros R F. unfold ErrFind, found. eapply reads_bind; [now apply (Find_map h rbt es)|]. destruct (lfind key es) as [e|] eqn:L; [|apply reads_ret]. rewrite (address_not_null h rbt es e R) by now apply lfind_elem_of in L. apply reads_ret.
Qed.

Lemma FindNode_map h rbt es key fuel : is_map h rbt es -> (turns (length es) <= fuel)%nat -> reads (FindNode DEBUG OffsetOfILE fuel rbt key) h (NodeToCObject OffsetOfILE (match lfind key es with Some e => e.2 | None => NULL end)).
Proof. intros R F. unfold FindNode. eapply reads_bind; [now apply (Find_map h rbt es)|]. apply reads_ret. Qed.

Definition found_entry (e : KEY * Z) : ERR * option (KEY * Z) := (errSuccess, Some (e.1, NodeToCObject OffsetOfILE e.2)).

Lemma reads_root_key h (t : tree) e : own h t -> root_entry t = Some e -> reads (Key (ptr t)) h e.1 /\ ptr t = e.2.
Proof. intros O E. destruct t as [|c l p k r]; [discriminate|]. injection E as <-. split; [eapply reads_Key; exact O|reflexivity]. Qed.

Lemma ErrFindNearest_map h rbt es key fuel : is_map h rbt es -> (turns (length es) <= fuel)%nat ->
  (es = [] /\ reads (ErrFindNearest DEBUG OffsetOfILE fuel rbt key) h (errEntryNotFound, None)) \/
  (exists e, next_to key e es /\ reads (ErrFindNearest DEBUG OffsetOfILE fuel rbt key) h (found_entry e)).
Proof.
  intros (t & E & O & T & Or & <- & A) F. unfold ErrFindNearest. rewrite E, (own_ptr_eqb _ _ O). destruct (is_leaf t) eqn:L; [left; destruct t; [split; [reflexivity|apply reads_ret]|discriminate]|]. right.
  destruct (nearest_spec t key Or L) as (e & Er & Ne). exists e. split; [exact Ne|]. pose proof (depth_turns _ T). eapply reads_bind; [apply (FindNearest_reads DEBUG h t key fuel O L); lia|]. pose proof (own_nearest h t key O) as On. destruct (reads_root_key _ _ _ On Er) as [Rk Ep].
  eapply reads_bind. { apply reads_assert. intros _. rewrite (own_ptr_eqb _ _ On), root_entry_leaf, Er. apply reads_ret. } eapply reads_bind; [exact Rk|]. rewrite Ep. apply reads_ret.
Qed.

Lemma ErrFindGreaterThanOrEqual_map h rbt es key fuel : is_map h rbt es -> (turns (length es) <= fuel)%nat ->
  reads (ErrFindGreaterThanOrEqual DEBUG OffsetOfILE fuel rbt key) h (match lfind_ge key es with Some e => found_entry e | None => (errEntryNotFound, None) end).
Proof.
  intros (t & E & O & T & Or & <- & A) F. unfold ErrFindGreaterThanOrEqual. rewrite E. pose proof (depth_turns _ T). destruct (FindGE_reads h t Leaf key fuel O ltac:(lia)) as (cur & Oc & X & R).
  eapply reads_bind; [exact R|]. cbn iota beta. pose proof (find_ge_spec t Leaf key Or) as S. pose proof (own_find_ge h t Leaf key O (own_Leaf h)) as Og.
  eapply reads_bind. { apply reads_assert. intros _. rewrite (own_ptr_eqb _ _ Oc). destruct X as [->|(c & l & p & r & ->)]; [apply reads_ret|]. eapply reads_bind; [eapply reads_Key; exact Oc|]. rewrite key_eq_refl. apply reads_ret. }
  rewrite (own_ptr_eqb _ _ Og), root_entry_leaf, S. cbn [root_entry]. destruct (lfind_ge key (entries t)) as [e|] eqn:L; [|apply reads_ret]. destruct (reads_root_key _ _ _ Og S) as [Rk Ep]. eapply reads_bind; [exact Rk|]. rewrite Ep. apply reads_ret.
Qed.

(** ** Insertion *)

Lemma lfind_linsert key q es : ordered es -> lfind key es = None -> lfind key (linsert key q es) = Some (key, q).
Proof.
  intros O N. assert (O' := ordered_linsert key q es O N). apply lfind_mem; [exact O'|]. clear. induction es as [|e es IH]; cbn; [left|]. destruct (key_lt key e.1); [left|]. now right.
Qed.

Lemma ins_result_contains key q es : ordered es -> exists e, lfind key (ins_result key q es).2 = Some e.
Proof. intros O. unfold ins_result. destruct (lfind key es) eqn:L; cbn [snd]; [eauto|]. rewrite lfind_linsert; eauto. Qed.

Lemma linsert_elem key q es e : e ∈ linsert key q es <-> e = (key, q) \/ e ∈ es.
Proof. induction es as [|x es IH]; cbn; [rewrite elem_of_cons, elem_of_nil; tauto|]. destruct (key_lt key x.1); rewrite !elem_of_cons; [reflexivity|]. rewrite IH. tauto. Qed.

Lemma ErrInsert_map h rbt es key o fuel : is_map h rbt es -> let q := CObjectToNode OffsetOfILE o in is_address q -> is_Some (h !! q) -> q ∉ map snd es -> (turns (S (length es)) <= fuel)%nat ->
  runs (ErrInsert DEBUG OffsetOfILE fuel rbt key o) h (added (ins_result key q es).1 q ++ map snd es)
    (fun res h' => res.1 = (ins_result key q es).1 /\ is_map h' res.2 (ins_result key q es).2).
Proof.
  intros R q Aq Iq Nq F. pose proof R as (t & E & O & T & Or & En & A). unfold ErrInsert. fold q. rewrite E. destruct (ins_top key q t T Or) as (err & t' & Ei & T'). pose proof (ins_entries _ _ _ _ _ Or Ei) as X. rewrite En in X.
  assert (Fd : (depth t < fuel)%nat). { pose proof (depth_turns _ T) as D. rewrite En in D. unfold turns in *. pose proof (Nat.log2_le_mono (S (length es)) (S (S (length es))) ltac:(lia)). lia. }
  destruct (ins_addrs _ _ _ _ _ Ei) as (Ce & Ad & Nl). rewrite <- X. cbn [fst snd]. eapply runs_call; [apply (ErrInsert_runs DEBUG fuel key q) with (t := t)|..].
  - intros Z0. unfold is_address in Aq. rewrite Z0 in Aq. unfold NULL in Aq. lia.
  - exact O.
  - unfold addrs. now rewrite En.
  - exact Iq.
  - exact Ei.
  - exact Fd.
  - unfold addrs. now rewrite En.
  - intros res h1 _ [-> O1].
    assert (Ord' : ordered (entries t')) by (rewrite (f_equal snd X : entries t' = _); apply ordered_ins_result; rewrite <- En; exact Or).
    assert (R1 : is_map h1 (mkInvasiveRedBlackTree (ptr t')) (entries t')).
    { exists t'. split; [reflexivity|]. split; [exact O1|]. split; [exact T'|]. split; [exact Ord'|]. split; [reflexivity|]. rewrite (f_equal snd X : entries t' = _). unfold ins_result. destruct (lfind key es); cbn [snd]; [exact A|].
      rewrite Forall_forall in *. intros e Ie. apply linsert_elem in Ie as [->|Ie]; auto. }
    assert (Len : (length (entries t') <= S (length es))%nat). { rewrite (f_equal snd X : entries t' = _). unfold ins_result. destruct (lfind key es); cbn [snd]; [lia|]. clear. induction es as [|e es IH]; cbn; [lia|]. destruct (key_lt key e.1); cbn; lia. }
    cbn iota beta. apply runs_assert; [intros _; destruct Ce as [-> | ->]; apply reads_ret|].
    assert (Ok : ERR_eqb errSuccess err || ERR_eqb errDuplicateEntry err = true) by (destruct Ce as [-> | ->]; reflexivity). rewrite Ok. apply runs_assoc. apply runs_assert.
    { intros _. unfold FEmpty. cbn [m_pnodeRoot]. rewrite (own_ptr_eqb _ _ O1), Nl. apply reads_ret. }
    apply runs_assert. { intros _. assert (Ft : (turns (length (entries t')) <= fuel)%nat) by (unfold turns in *; pose proof (Nat.log2_le_mono (S (length (entries t'))) (S (S (length es))) ltac:(lia)); lia).
      pose proof (FContainsKey_map h1 _ _ key fuel R1 Ft) as C. destruct (ins_result_contains key q es) as [e Ee]; [rewrite <- En; exact Or|]. rewrite (f_equal snd X : entries t' = _), Ee in C. exact C. }
    apply runs_ret. cbn [fst snd]. split; [reflexivity|exact R1].
Qed.

(** ** Deletion *)

Lemma lfind_ldelete key es : lfind key (ldelete key es) = None.
Proof. induction es as [|e es IH]; [reflexivity|]. unfold ldelete, lfind in *. cbn. destruct (key_eq key e.1) eqn:E; cbn; [exact IH|]. now rewrite E. Qed.

Lemma ldelete_elem key es e : e ∈ ldelete key es <-> e ∈ es /\ key_eq key e.1 = false.
Proof. unfold ldelete. rewrite !list_elem_of_In, List.filter_In, negb_true_iff. reflexivity. Qed.

Definition delete_result key es : ERR * option Z * list (KEY * Z) :=
  match lfind key es with Some e => (errSuccess, Some (NodeToCObject OffsetOfILE e.2), ldelete key es) | None => (errEntryNotFound, None, es) end.

Lemma ErrDelete_map h rbt es key fuel : is_map h rbt es -> (turns (length es) <= fuel)%nat -> (length es <= fuel)%nat ->
  runs (ErrDelete DEBUG OffsetOfILE fuel rbt key) h (match lfind key es with Some _ => map snd es | None => [] end)
    (fun res h' => res.1 = (delete_result key es).1 /\ is_map h' res.2 (delete_result key es).2 /\ forall e, lfind key es = Some e -> scrubbed DEBUG h' e.2).
Proof.
  intros R F1 F2. pose proof R as (t & E & O & T & Or & En & A). unfold ErrDelete, delete_result. eapply runs_reads; [now apply (FContainsKey_map h rbt es)|]. destruct (lfind key es) as [e|] eqn:L; cbn [negb].
  - destruct (lfind_Some _ _ _ L) as [Ie Ke]. assert (Pr : present key t) by (unfold present; rewrite En, L; eauto). destruct (del_top fuel t key T Or Pr) as (t' & a & Ed & T'); [unfold size; rewrite En; lia|]. destruct (del_entries _ _ _ _ _ Or Ed) as [Fa En']. rewrite En, L in Fa. injection Fa as ->. rewrite En in En'.
    apply runs_assoc. apply runs_assert. { intros _. rewrite (is_map_FEmpty h rbt es R). rewrite bool_decide_eq_false_2; [apply reads_ret|]. intros ->. discriminate. }
    apply runs_assoc. rewrite E. eapply runs_call; [apply (Delete_runs DEBUG fuel key t h t' a O Or Ed)|unfold addrs; now rewrite En|]. intros res h1 _ (-> & O1 & Sc). cbn iota beta. apply (runs_reads _ _ h1 (errSuccess, Some (NodeToCObject OffsetOfILE a), mkInvasiveRedBlackTree (ptr t'))); [apply reads_ret|]. cbn iota beta.
    assert (R1 : is_map h1 (mkInvasiveRedBlackTree (ptr t')) (ldelete key es)).
    { exists t'. split; [reflexivity|]. split; [exact O1|]. split; [exact T'|]. split; [unfold tree_ordered; rewrite En'; apply ordered_ldelete; rewrite <- En; exact Or|]. split; [exact En'|]. rewrite Forall_forall in *. intros x Ix. apply ldelete_elem in Ix as [Ix _]. auto. }
    assert (Ft : (turns (length (ldelete key es)) <= fuel)%nat) by (assert (length (ldelete key es) <= length es)%nat by apply List.filter_length_le; unfold turns in *; pose proof (Nat.log2_le_mono (S (length (ldelete key es))) (S (length es)) ltac:(lia)); lia).
    apply runs_assert; [intros _; apply reads_ret|]. apply runs_assert. { intros _. eapply reads_bind; [now apply (FContainsKey_map h1 _ (ldelete key es))|]. rewrite lfind_ldelete. apply reads_ret. }
    apply runs_ret. cbn [fst snd]. split; [reflexivity|]. split; [exact R1|]. intros e [= <-]. exact Sc.
  - apply (runs_reads _ _ h (errEntryNotFound, None, rbt)); [apply reads_ret|]. cbn iota beta. apply runs_assert; [intros _; apply reads_ret|]. apply runs_assert. { intros _. eapply reads_bind; [now apply (FContainsKey_map h rbt es)|]. rewrite L. apply reads_ret. }
    apply runs_ret. cbn [fst snd]. split; [reflexivity|]. split; [exact R|]. discriminate.
Qed.

End Map.

(** * The red-black tree: merging two trees

    [ErrMerge] moves every node of the source whose key the target does not have;
    the others are what the source is left with. *)

Section Merge.
Context {KEY : Type} `{KeyOrder KEY}.
Abbreviation tree := (tree KEY).
Variable DEBUG : bool.
Variable OffsetOfILE : Z.
Abbreviation M := (M KEY).
Implicit Types (h : Heap KEY) (key k : KEY) (es : list (KEY * Z)) (rbt : InvasiveRedBlackTree).

(** ** Keys and addresses of a map *)

Definition has_key key es : Prop := exists e, e ∈ es /\ e.1 = key.
Definition apart es es' : Prop := forall x, x ∈ map snd es -> x ∉ map snd es'.

Lemma lfind_None key es : lfind key es = None <-> ~ has_key key es.
Proof.
  unfold lfind, has_key. split.
  - intros N (e & I & <-). apply list_elem_of_In in I. pose proof (List.find_none _ _ N e I) as X. cbn in X. now rewrite key_eq_refl in X.
  - intros N. destruct (List.find _ es) as [e|] eqn:F; [|reflexivity]. destruct N. apply List.find_some in F as [I E]. exists e. split; [now apply list_elem_of_In|]. symmetry. now apply key_eq_spec.
Qed.

Lemma has_key_dec key es : has_key key es \/ ~ has_key key es.
Proof. rewrite <- lfind_None. destruct (lfind key es) as [e|] eqn:F; [left|now right]. apply lfind_Some in F. now exists e. Qed.

Lemma elem_snd (e : KEY * Z) es : e ∈ es -> e.2 ∈ map snd es.
Proof. intros I. apply list_elem_of_In in I. apply list_elem_of_In, in_map_iff. eauto. Qed.
Lemma elem_snd_inv x es : x ∈ map snd es -> exists e, e ∈ es /\ e.2 = x.
Proof. intros I. apply list_elem_of_In, in_map_iff in I as (e & E & I). exists e. split; [now apply list_elem_of_In|exact E]. Qed.

Lemma same_key (e e' : KEY * Z) es : ordered es -> e ∈ es -> e' ∈ es -> e.1 = e'.1 -> e = e'.
Proof.
  intros O I I' E. destruct e as [k a], e' as [k' a']. cbn in E. subst k'. pose proof (lfind_mem _ _ _ O I) as F. pose proof (lfind_mem _ _ _ O I') as F'. congruence.
Qed.

(** Lists in order with the same elements are the same. *)
Lemma ordered_unique es es' : ordered es -> ordered es' -> (forall e, e ∈ es <-> e ∈ es') -> es = es'.
Proof.
  intros O O' E. apply (StronglySorted_unique_strong elt); [|exact O|exact O'|].
  - intros a b _ _ L L'. unfold elt in *. rewrite (key_lt_asym _ _ L) in L'. discriminate.
  - apply NoDup_Permutation; [| |exact E].
    + apply ordered_nodup in O. now apply NoDup_fmap_1 in O.
    + apply ordered_nodup in O'. now apply NoDup_fmap_1 in O'.
Qed.

Lemma ldelete_snd key es x : x ∈ map snd (ldelete key es) -> x ∈ map snd es.
Proof. intros I. apply elem_snd_inv in I as (e & I & <-). apply ldelete_elem in I as [I _]. now apply elem_snd. Qed.
Lemma linsert_snd key q es x : x ∈ map snd (linsert key q es) <-> x = q \/ x ∈ map snd es.
Proof.
  split.
  - intros I. apply elem_snd_inv in I as (e & I & <-). apply linsert_elem in I as [->|I]; [now left|right; now apply elem_snd].
  - intros [-> | I]; [apply (elem_snd (key, q)), linsert_elem; auto|]. apply elem_snd_inv in I as (e & I & <-). apply elem_snd, linsert_elem. auto.
Qed.
Lemma linsert_length key q es : length (linsert key q es) = S (length es).
Proof. induction es as [|e es IH]; [reflexivity|]. cbn. destruct (key_lt key e.1); cbn; [reflexivity|]. now rewrite IH. Qed.

Lemma ldelete_length key a es : ordered es -> lfind key es = Some (key, a) -> length es = S (length (ldelete key es)).
Proof. intros O F. destruct (ldelete_split _ _ _ O F) as (x & y & -> & ->). rewrite !length_app. cbn. lia. Qed.

(** ** The loop *)

(** The maps of target, left-overs and source, at different nodes. *)
Definition three_maps h rbt lo src es1 es3 es2 : Prop :=
  is_map h rbt es1 /\ is_map h lo es3 /\ is_map h src es2 /\ apart es1 es2 /\ apart es3 es2 /\ apart es1 es3 /\
  (forall e, e ∈ es3 -> ~ has_key e.1 es2).

(** The root of the source and its key. *)
Lemma source_root h src es2 : is_map h src es2 -> es2 <> [] -> exists k, (m_pnodeRoot src =? NULL) = false /\ reads (Key (m_pnodeRoot src)) h k /\ lfind k es2 = Some (k, m_pnodeRoot src) /\ is_address (m_pnodeRoot src).
Proof.
  intros (t & E & O & _ & Or & <- & A) N. destruct t as [|c l p k r]; [contradiction|]. rewrite E. cbn [ptr]. exists k. assert (I : (k, p) ∈ entries (T c l p k r)) by (cbn; apply elem_of_app; right; left).
  split; [exact (own_ptr_eqb h _ O)|]. split; [eapply reads_Key; exact O|]. split; [now apply lfind_mem|]. rewrite Forall_forall in A. exact (A _ I).
Qed.

Lemma reads_scrubbed h a : a <> NULL -> scrubbed DEBUG h a -> (DEBUG = true -> reads (l ← PnodeLeft a; mret (l =? NULL)) h true) /\ (DEBUG = true -> reads (r ← PnodeRight a; mret (r =? NULL)) h true).
Proof.
  intros N (n & E & X). split; intros D; destruct (X D) as [L R]; (eapply reads_bind; [eapply reads_bind; [eapply reads_load; eassumption|apply reads_ret]|]); rewrite ?L, ?R; apply reads_ret.
Qed.

Definition enough (fuel : nat) es1 es2 es3 : Prop := (turns (length es1 + length es2 + length es3) <= fuel)%nat /\ (length es2 <= fuel)%nat.

Lemma turns_mono a b : (a <= b)%nat -> (turns a <= turns b)%nat.
Proof. intros L. unfold turns. pose proof (Nat.log2_le_mono (S a) (S b) ltac:(lia)). lia. Qed.

Definition merged es1 es2 (m : list (KEY * Z)) : Prop := forall e, e ∈ m <-> e ∈ es1 \/ (e ∈ es2 /\ ~ has_key e.1 es1).
Definition left_over es1 es2 es3 (m : list (KEY * Z)) : Prop := forall e, e ∈ m <-> e ∈ es3 \/ (e ∈ es2 /\ has_key e.1 es1).

(** What one turn makes of the lists. *)
Lemma merged_step_new k a es1 es2 m : ordered es2 -> lfind k es2 = Some (k, a) -> lfind k es1 = None -> merged (linsert k a es1) (ldelete k es2) m -> merged es1 es2 m.
Proof.
  intros O F N X e. rewrite (X e), linsert_elem, ldelete_elem. destruct (lfind_Some _ _ _ F) as [I _]. apply lfind_None in N. assert (K : has_key e.1 (linsert k a es1) <-> e.1 = k \/ has_key e.1 es1).
  { unfold has_key. split; [intros (x & Ix & Ex); apply linsert_elem in Ix as [->|Ix]; [left; now rewrite <- Ex|right; eauto]|intros [Ex|(x & Ix & Ex)]; [exists (k, a)|exists x]; rewrite linsert_elem; auto]. }
  rewrite K, key_eq_false. split.
  - intros [[->|I1]|((I2 & _) & Nk)]; [right; auto|left; exact I1|right]. tauto.
  - intros [I1|[I2 Nk]]; [auto|]. destruct (key_cases k e.1) as [[_ D]|[D|(_ & _ & D)]]; try (apply key_eq_false in D; right; split; [auto|]; intros [Q|Q]; [congruence|auto]).
    left. left. apply (same_key _ _ _ O I2 I). now rewrite <- D.
Qed.

Lemma merged_step_old k a es1 es2 m : ordered es2 -> lfind k es2 = Some (k, a) -> has_key k es1 -> merged es1 (ldelete k es2) m -> merged es1 es2 m.
Proof.
  intros O F N X e. rewrite (X e), ldelete_elem, key_eq_false. split; [intros [I1|((I2 & _) & Nk)]; auto|]. intros [I1|[I2 Nk]]; [auto|]. right. split; [split; [exact I2|]|exact Nk]. intros ->. contradiction.
Qed.

Lemma left_step_new k a es1 es2 es3 m : lfind k es1 = None -> left_over (linsert k a es1) (ldelete k es2) es3 m -> left_over es1 es2 es3 m.
Proof.
  intros N X e. rewrite (X e), ldelete_elem, key_eq_false. apply lfind_None in N. split; intros [I3|[I2 K]]; auto; right.
  - destruct I2 as [I2 D]. split; [exact I2|]. destruct K as (x & Ix & Ex). apply linsert_elem in Ix as [->|Ix]; [cbn in Ex; congruence|]. now exists x.
  - destruct K as (x & Ix & Ex). split; [split; [exact I2|]|exists x; rewrite linsert_elem; auto]. intros ->. apply N. now exists x.
Qed.

Lemma left_step_old k a es1 es2 es3 m : ordered es2 -> lfind k es2 = Some (k, a) -> has_key k es1 -> left_over es1 (ldelete k es2) (linsert k a es3) m -> left_over es1 es2 es3 m.
Proof.
  intros O F K X e. rewrite (X e), linsert_elem, ldelete_elem, key_eq_false. destruct (lfind_Some _ _ _ F) as [I _]. split.
  - intros [[->|I3]|((I2 & _) & K')]; auto.
  - intros [I3|[I2 K']]; [auto|]. destruct (key_cases k e.1) as [[_ D]|[D|(_ & _ & D)]]; try (apply key_eq_false in D; right; split; [split; [exact I2|congruence]|exact K']). left. left. apply (same_key _ _ _ O I2 I). now rewrite <- D.
Qed.

(** What the loop leaves. *)
Definition loop_done es1 es2 es3 (res : InvasiveRedBlackTree * InvasiveRedBlackTree * InvasiveRedBlackTree) h' : Prop :=
  m_pnodeRoot res.1.2 = NULL /\ exists m1 m3, is_map h' res.1.1 m1 /\ is_map h' res.2 m3 /\ merged es1 es2 m1 /\ left_over es1 es2 es3 m3.

Lemma apart_ldelete es k es2 : apart es es2 -> apart es (ldelete k es2).
Proof. intros A x I I2. apply (A x I). now apply ldelete_snd in I2. Qed.
Lemma apart_linsert es k a es2 : apart es es2 -> (a ∉ map snd es2) -> apart (linsert k a es) es2.
Proof. intros A N x I. apply linsert_snd in I as [->|I]; auto. Qed.
Lemma deleted_address k a es2 : NoDup (map snd es2) -> ordered es2 -> lfind k es2 = Some (k, a) -> a ∉ map snd (ldelete k es2).
Proof.
  intros D O F. destruct (ldelete_split _ _ _ O F) as (x & y & -> & ->). rewrite !map_app in *. cbn [map snd] in D. apply NoDup_app in D as (_ & D1 & D2). apply NoDup_cons in D2 as [D2 _]. rewrite elem_of_app. intros [I|I]; [apply (D1 a I); left|auto].
Qed.

Lemma Merge_loop_runs fuel n : forall h rbt lo src es1 es3 es2, three_maps h rbt lo src es1 es3 es2 -> enough fuel es1 es2 es3 -> (length es2 < n)%nat ->
  runs (Merge_loop DEBUG OffsetOfILE fuel n rbt src lo) h (map snd es1 ++ map snd es2 ++ map snd es3) (loop_done es1 es2 es3).
Proof.
  induction n as [|n IH]; intros h rbt lo src es1 es3 es2 (R1 & R3 & R2 & A12 & A32 & A13 & K32) [F1 F2] L; [lia|]. cbn [Merge_loop]. destruct es2 as [|e2 es2'].
  - assert (E : m_pnodeRoot src = NULL) by (pose proof (is_map_FEmpty h src [] R2) as X; unfold FEmpty in X; now apply Z.eqb_eq in X). rewrite E. change (NULL =? NULL) with true. cbn iota. apply runs_ret. split; [exact E|]. exists es1, es3.
    split; [exact R1|]. split; [exact R3|]. split; intros e; rewrite elem_of_nil; tauto.
  - remember (e2 :: es2') as es2 eqn:Q. destruct (source_root h src es2 R2) as (k & Nn & Rk & Fk & Ad); [subst; discriminate|]. clear e2 es2' Q. set (a := m_pnodeRoot src) in *. rewrite Nn. apply Z.eqb_neq in Nn.
    pose proof (is_map_ordered _ _ _ R2) as O2. pose proof (lfind_elem_of _ _ _ Fk) as I2. pose proof (ldelete_length _ _ _ O2 Fk) as Ln. pose proof (is_map_nodup _ _ _ R2) as D2.
    assert (Ia : a ∈ map snd es2) by exact (elem_snd _ _ I2). eapply runs_reads; [exact Rk|].
    eapply runs_call; [apply (ErrDelete_map DEBUG OffsetOfILE h src es2 k fuel R2); [etransitivity; [apply turns_mono|exact F1]; lia|exact F2]|rewrite Fk; intros x; rewrite !elem_of_app; auto|].
    rewrite Fk. intros [[err obj] src1] h1 Fr1 (Er & R2' & Sc). unfold delete_result in Er, R2'. rewrite Fk in Er, R2'. cbn in Er. injection Er as -> ->. cbn [snd] in R2'. specialize (Sc _ eq_refl). cbn [snd] in Sc.
    assert (R1' : is_map h1 rbt es1) by (apply (is_map_frame h); [exact R1|]; intros x Hx; now apply Fr1, A12). assert (R3' : is_map h1 lo es3) by (apply (is_map_frame h); [exact R3|]; intros x Hx; now apply Fr1, A32).
    cbn iota beta. apply runs_assert; [intros _; apply reads_ret|]. destruct (reads_scrubbed _ _ Nn Sc) as [Sl Sr]. apply runs_assert; [exact Sl|]. apply runs_assert; [exact Sr|].
    assert (Na1 : a ∉ map snd es1) by (intros I; now apply (A12 a I)). assert (Na3 : a ∉ map snd es3) by (intros I; now apply (A32 a I)). pose proof (deleted_address _ _ _ D2 O2 Fk) as Na2.
    pose proof (node_of_object OffsetOfILE a Ad) as Eq. assert (Is : is_Some (h1 !! a)) by (destruct Sc as (x & Ex & _); eauto).
    pose proof (ErrInsert_map DEBUG OffsetOfILE h1 rbt es1 k (NodeToCObject OffsetOfILE a) fuel R1') as Ins. cbv zeta in Ins. rewrite Eq in Ins. specialize (Ins Ad Is Na1 ltac:(etransitivity; [apply turns_mono|exact F1]; lia)).
    destruct (has_key_dec k es1) as [Hk|Hk].
    + assert (Fk1 : exists e, lfind k es1 = Some e) by (destruct (lfind k es1) eqn:X; [eauto|]; now apply lfind_None in X). destruct Fk1 as [e1 Fk1]. assert (Res : ins_result k a es1 = (errDuplicateEntry, es1)) by (unfold ins_result; now rewrite Fk1). rewrite Res in Ins. cbn [fst snd added app] in Ins.
      eapply runs_call; [exact Ins|intros x; rewrite !elem_of_app; auto|]. intros [err rbt2] h2 Fr2 [Er R1'']. cbn in Er, R1''. subst err. change (negb (ERR_eqb errDuplicateEntry errSuccess)) with true. cbn iota beta.
      apply runs_assert; [intros _; apply reads_ret|]. assert (R3'' : is_map h2 lo es3) by (apply (is_map_frame h1); [exact R3'|]; intros x Hx; apply Fr2; intros Hx'; now apply (A13 x)).
      assert (R2'' : is_map h2 src1 (ldelete k es2)) by (apply (is_map_frame h1); [exact R2'|]; intros x Hx; apply Fr2; intros Hx'; apply (A12 x Hx'); now apply ldelete_snd in Hx).
      assert (N3 : lfind k es3 = None) by (apply lfind_None; intros (x & Ix & Ex); apply (K32 x Ix); exists (k, a); auto). assert (Is2 : is_Some (h2 !! a)) by (rewrite Fr2; auto).
      pose proof (ErrInsert_map DEBUG OffsetOfILE h2 lo es3 k (NodeToCObject OffsetOfILE a) fuel R3'') as Ins2. cbv zeta in Ins2. rewrite Eq in Ins2. specialize (Ins2 Ad Is2 Na3 ltac:(etransitivity; [apply turns_mono|exact F1]; lia)).
      assert (Res2 : ins_result k a es3 = (errSuccess, linsert k a es3)) by (unfold ins_result; now rewrite N3). rewrite Res2 in Ins2. cbn [fst snd added app] in Ins2.
      eapply runs_call; [exact Ins2|intros x; rewrite elem_of_cons, !elem_of_app; intros [->|X]; auto|]. intros [err lo2] h3 Fr3 [Er R3x]. cbn in Er, R3x. subst err. cbn iota beta. apply runs_assert; [intros _; apply reads_ret|].
      eapply runs_mono; [apply (IH h3 rbt2 lo2 src1 es1 (linsert k a es3) (ldelete k es2))|..].
      * assert (Fr3' : forall x, x <> a -> x ∉ map snd es3 -> h3 !! x = h2 !! x) by (intros x X1 X2; apply Fr3; rewrite elem_of_cons; tauto).
        split; [apply (is_map_frame h2); [exact R1''|]; intros x Hx; apply Fr3'; [congruence|now apply A13]|]. split; [exact R3x|].
        split; [apply (is_map_frame h2); [exact R2''|]; intros x Hx; apply Fr3'; [congruence|]; intros Hx'; apply (A32 x Hx'); now apply ldelete_snd in Hx|].
        split; [now apply apart_ldelete|]. split; [apply apart_linsert; [now apply apart_ldelete|exact Na2]|]. split; [intros x Hx Hx'; apply linsert_snd in Hx' as [->|Hx']; [auto|now apply (A13 x)]|].
        intros e Ie (x & Ix & Ex). apply ldelete_elem in Ix as [Ix Dx]. apply key_eq_false in Dx. apply linsert_elem in Ie as [->|Ie]; [cbn in Ex; congruence|]. apply (K32 e Ie). now exists x.
      * unfold enough in *. rewrite linsert_length. split; [etransitivity; [apply turns_mono|exact F1]; lia|lia].
      * lia.
      * intros x. rewrite !elem_of_app, linsert_snd. intros [X|[X|[->|X]]]; auto. right. left. now apply ldelete_snd in X.
      * intros res h' (E & m1 & m3 & X1 & X3 & X & Y). split; [exact E|]. exists m1, m3. split; [exact X1|]. split; [exact X3|]. split; [now apply (merged_step_old k a)|now apply (left_step_old k a)].
    + apply lfind_None in Hk. assert (Res : ins_result k a es1 = (errSuccess, linsert k a es1)) by (unfold ins_result; now rewrite Hk). rewrite Res in Ins. cbn [fst snd added app] in Ins.
      eapply runs_call; [exact Ins|intros x; rewrite elem_of_cons, !elem_of_app; intros [->|X]; auto|]. intros [err rbt2] h2 Fr2 [Er R1'']. cbn in Er, R1''. subst err. change (negb (ERR_eqb errSuccess errSuccess)) with false. cbn iota beta.
      assert (Fr2' : forall x, x <> a -> x ∉ map snd es1 -> h2 !! x = h1 !! x) by (intros x X1 X2; apply Fr2; rewrite elem_of_cons; tauto).
      eapply runs_mono; [apply (IH h2 rbt2 lo src1 (linsert k a es1) es3 (ldelete k es2))|..].
      * split; [exact R1''|]. split; [apply (is_map_frame h1); [exact R3'|]; intros x Hx; apply Fr2'; [congruence|]; intros Hx'; now apply (A13 x)|].
        split; [apply (is_map_frame h1); [exact R2'|]; intros x Hx; apply Fr2'; [congruence|]; intros Hx'; apply (A12 x Hx'); now apply ldelete_snd in Hx|].
        split; [apply apart_linsert; [now apply apart_ldelete|exact Na2]|]. split; [now apply apart_ldelete|]. split; [now apply apart_linsert|].
        intros e Ie (x & Ix & Ex). apply ldelete_elem in Ix as [Ix _]. apply (K32 e Ie). now exists x.
      * unfold enough in *. rewrite linsert_length. split; [etransitivity; [apply turns_mono|exact F1]; lia|lia].
      * lia.
      * intros x. rewrite !elem_of_app, linsert_snd. intros [[->|X]|[X|X]]; auto. right. left. now apply ldelete_snd in X.
      * intros res h' (E & m1 & m3 & X1 & X3 & X & Y). split; [exact E|]. exists m1, m3. split; [exact X1|]. split; [exact X3|]. split; [now apply (merged_step_new k a)|now apply (left_step_new k a)].
Qed.

End Merge.
