(* ===== verification/RbTheorems.v ===== *)
(** * The red-black tree: theorems

    Sequences of calls of the interface refine calls on an ordered map; searches
    take a logarithmic number of turns; a merge moves what fits. *)

From stdpp Require Import base gmap list sorting.
From Stdlib Require Import ZArith Lia Bool.
From S2P Require Import Prelude RbTree RbShape RbBalance RbHeap RbOps RbMap.

Section Calls.
Context {KEY : Type} `{KeyOrder KEY}.
Variable DEBUG : bool.
Variable OffsetOfILE : Z.
Abbreviation M := (M KEY).
Implicit Types (h : Heap KEY) (key k : KEY) (es : list (KEY * Z)) (rbt : InvasiveRedBlackTree).

(** ** Calls of the interface *)

Inductive CALL := CallFind (key : KEY) | CallFindNearest (key : KEY) | CallFindGreaterThanOrEqual (key : KEY) | CallInsert (key : KEY) (pObject : Z) | CallDelete (key : KEY).

(** What a call returns: an error and an object, an entry, nothing more, or the
    object that was taken out. *)
Inductive OUTCOME := AnObject (err : ERR) (pObject : Z) | AnEntry (err : ERR) (entry : option (KEY * Z)) | AnError (err : ERR) | TakenOut (err : ERR) (pObject : option Z).

Definition do_call (fuel : nat) rbt (c : CALL) : M (OUTCOME * InvasiveRedBlackTree) :=
  match c with
  | CallFind key => '(err, o) ← ErrFind DEBUG OffsetOfILE fuel rbt key; mret (AnObject err o, rbt)
  | CallFindNearest key => '(err, e) ← ErrFindNearest DEBUG OffsetOfILE fuel rbt key; mret (AnEntry err e, rbt)
  | CallFindGreaterThanOrEqual key => '(err, e) ← ErrFindGreaterThanOrEqual DEBUG OffsetOfILE fuel rbt key; mret (AnEntry err e, rbt)
  | CallInsert key o => '(err, rbt) ← ErrInsert DEBUG OffsetOfILE fuel rbt key o; mret (AnError err, rbt)
  | CallDelete key => '(err, o, rbt) ← ErrDelete DEBUG OffsetOfILE fuel rbt key; mret (TakenOut err o, rbt)
  end.

Fixpoint do_calls (fuel : nat) rbt (cs : list CALL) : M (list OUTCOME * InvasiveRedBlackTree) :=
  match cs with
  | [] => mret ([], rbt)
  | c :: cs => '(x, rbt) ← do_call fuel rbt c; '(xs, rbt) ← do_calls fuel rbt cs; mret (x :: xs, rbt)
  end.

(** ** The ordered map of objects *)

Inductive call_spec : list (KEY * Z) -> CALL -> OUTCOME -> list (KEY * Z) -> Prop :=
| spec_find es key e : lfind key es = Some e -> call_spec es (CallFind key) (AnObject errSuccess e.2) es
| spec_find_none es key : lfind key es = None -> call_spec es (CallFind key) (AnObject errEntryNotFound NULL) es
| spec_nearest es key e : next_to key e es -> call_spec es (CallFindNearest key) (AnEntry errSuccess (Some e)) es
| spec_nearest_none key : call_spec [] (CallFindNearest key) (AnEntry errEntryNotFound None) []
| spec_ge es key e : lfind_ge key es = Some e -> call_spec es (CallFindGreaterThanOrEqual key) (AnEntry errSuccess (Some e)) es
| spec_ge_none es key : lfind_ge key es = None -> call_spec es (CallFindGreaterThanOrEqual key) (AnEntry errEntryNotFound None) es
| spec_insert es key o : lfind key es = None -> call_spec es (CallInsert key o) (AnError errSuccess) (linsert key o es)
| spec_insert_dup es key o : lfind key es <> None -> call_spec es (CallInsert key o) (AnError errDuplicateEntry) es
| spec_delete es key e : lfind key es = Some e -> call_spec es (CallDelete key) (TakenOut errSuccess (Some e.2)) (ldelete key es)
| spec_delete_none es key : lfind key es = None -> call_spec es (CallDelete key) (TakenOut errEntryNotFound None) es.

Inductive calls_spec : list (KEY * Z) -> list CALL -> list OUTCOME -> list (KEY * Z) -> Prop :=
| specs_nil es : calls_spec es [] [] es
| specs_cons es c x es1 cs xs es2 : call_spec es c x es1 -> calls_spec es1 cs xs es2 -> calls_spec es (c :: cs) (x :: xs) es2.

(** The objects of the caller: their contexts lie in the store. *)
Definition object_ok h (o : Z) : Prop := 0 <= o < 18446744073709551616 /\ is_address (CObjectToNode OffsetOfILE o) /\ is_Some (h !! CObjectToNode OffsetOfILE o).

(** An object goes in only while it is not in the tree. *)
Definition call_ok (objects : list Z) es (c : CALL) : Prop := match c with CallInsert _ o => o ∈ objects /\ (o ∉ map snd es) | _ => True end.

Fixpoint calls_ok (objects : list Z) es (cs : list CALL) : Prop :=
  match cs with
  | [] => True
  | c :: cs => call_ok objects es c /\ forall x es1, call_spec es c x es1 -> calls_ok objects es1 cs
  end.

Definition node_entry (e : KEY * Z) : KEY * Z := (e.1, CObjectToNode OffsetOfILE e.2).
Abbreviation nodes := (map node_entry).

(** ** Lists of objects and lists of nodes *)

Lemma lfind_nodes key es : lfind key (nodes es) = option_map node_entry (lfind key es).
Proof. unfold lfind. induction es as [|e es IH]; [reflexivity|]. cbn. destruct (key_eq key e.1); [reflexivity|exact IH]. Qed.
Lemma lfind_ge_nodes key es : lfind_ge key (nodes es) = option_map node_entry (lfind_ge key es).
Proof. unfold lfind_ge. induction es as [|e es IH]; [reflexivity|]. cbn. destruct (negb (key_lt e.1 key)); [reflexivity|exact IH]. Qed.
Lemma linsert_nodes key o es : linsert key (CObjectToNode OffsetOfILE o) (nodes es) = nodes (linsert key o es).
Proof. induction es as [|e es IH]; [reflexivity|]. cbn. destruct (key_lt key e.1); [reflexivity|]. cbn. now rewrite IH. Qed.
Lemma ldelete_nodes key es : ldelete key (nodes es) = nodes (ldelete key es).
Proof. unfold ldelete. induction es as [|e es IH]; [reflexivity|]. cbn. destruct (negb (key_eq key e.1)); cbn; now rewrite IH. Qed.
Lemma next_to_nodes key es e : next_to key e (nodes es) -> exists e', e = node_entry e' /\ next_to key e' es.
Proof.
  intros [I F]. apply list_elem_of_In, in_map_iff in I as (e' & <- & I). exists e'. split; [reflexivity|]. split; [now apply list_elem_of_In|]. rewrite Forall_forall in *. intros x Ix. apply (F (node_entry x)). apply list_elem_of_In, in_map, list_elem_of_In, Ix.
Qed.

Definition store_ok h (objects : list Z) es : Prop := Forall (object_ok h) objects /\ forall x, x ∈ map snd es -> x ∈ objects.

Lemma object_back h objects es e : store_ok h objects es -> e ∈ es -> NodeToCObject OffsetOfILE (node_entry e).2 = e.2.
Proof. intros [F I] Ie. apply object_of_node. rewrite Forall_forall in F. apply (F e.2), I, elem_snd, Ie. Qed.

Lemma nodes_snd_inv x es : x ∈ map snd (nodes es) -> exists e, e ∈ es /\ x = CObjectToNode OffsetOfILE e.2.
Proof. intros I. apply elem_snd_inv in I as (n & I & <-). apply list_elem_of_In, in_map_iff in I as (e & <- & I). exists e. split; [now apply list_elem_of_In|reflexivity]. Qed.

Lemma not_in_nodes h objects es o : store_ok h objects es -> o ∈ objects -> o ∉ map snd es -> CObjectToNode OffsetOfILE o ∉ map snd (nodes es).
Proof.
  intros [F I] Io No N. apply nodes_snd_inv in N as (e & Ie & E). rewrite Forall_forall in F. apply No. replace o with e.2; [now apply elem_snd|]. rewrite <- (object_of_node OffsetOfILE o) by now apply F. rewrite E. symmetry. apply object_of_node. apply (F e.2), I, elem_snd, Ie.
Qed.

(** Addresses that stay in the store. *)
Lemma map_in_store h rbt es x : is_map h rbt es -> x ∈ map snd es -> is_Some (h !! x).
Proof. intros (t & _ & [R _] & _ & _ & <- & _) I. apply (addrs_not_null _ _ _ R I). Qed.

Lemma store_ok_step h h' objects es es' : store_ok h objects es -> (forall x, x ∈ map snd es' -> x ∈ objects) ->
  (forall o, o ∈ objects -> is_Some (h' !! CObjectToNode OffsetOfILE o)) -> store_ok h' objects es'.
Proof. intros [F _] I S. split; [|exact I]. rewrite Forall_forall in *. intros o Io. destruct (F o Io) as (A & B & _). split; [exact A|]. split; [exact B|]. now apply S. Qed.

(** ** One call *)

Lemma read_step {A} (m : M A) h a (f : A -> OUTCOME) rbt F objects es c : reads m h a -> is_map h rbt (nodes es) -> store_ok h objects es -> call_spec es c (f a) es ->
  runs (x ← m; mret (f x, rbt)) h F (fun res h' => exists es', call_spec es c res.1 es' /\ is_map h' res.2 (nodes es') /\ store_ok h' objects es' /\ (length es' <= S (length es))%nat).
Proof. intros R Rm So Sp. eapply runs_reads; [exact R|]. apply runs_ret. exists es. cbn [fst snd]. auto. Qed.

Lemma call_runs fuel h rbt objects es c : is_map h rbt (nodes es) -> store_ok h objects es -> call_ok objects es c -> (turns (S (length es)) <= fuel)%nat -> (length es <= fuel)%nat ->
  runs (do_call fuel rbt c) h (map (CObjectToNode OffsetOfILE) objects) (fun res h' => exists es', call_spec es c res.1 es' /\ is_map h' res.2 (nodes es') /\ store_ok h' objects es' /\ (length es' <= S (length es))%nat).
Proof.
  intros R So C F F2. pose proof (length_map node_entry es) as Ln. assert (F1 : (turns (length (nodes es)) <= fuel)%nat) by (rewrite Ln; etransitivity; [apply turns_mono|exact F]; lia).
  assert (Sub : forall x, x ∈ map snd (nodes es) -> x ∈ map (CObjectToNode OffsetOfILE) objects) by (intros x I; apply nodes_snd_inv in I as (e & Ie & ->); apply list_elem_of_In, in_map, list_elem_of_In, So, elem_snd, Ie).
  destruct c as [key|key|key|key o|key]; cbn [do_call].
  - pose proof (ErrFind_map DEBUG OffsetOfILE h rbt (nodes es) key fuel R F1) as X. eapply runs_reads; [exact X|]. unfold found. rewrite lfind_nodes. destruct (lfind key es) as [e|] eqn:L; cbn [option_map]; apply runs_ret; exists es; cbn [fst snd]; (split; [|auto]).
    + rewrite (object_back h objects es e So) by now apply lfind_elem_of in L. now apply spec_find with (key := key).
    + now apply spec_find_none.
  - destruct (ErrFindNearest_map DEBUG OffsetOfILE h rbt (nodes es) key fuel R F1) as [[E X]|(e & Ne & X)]; (eapply runs_reads; [exact X|]); cbn iota beta; apply runs_ret; exists es; cbn [fst snd]; (split; [|auto]).
    + destruct es; [constructor|discriminate].
    + unfold found_entry. cbn iota beta. apply next_to_nodes in Ne as (e' & -> & Ne). rewrite (object_back h objects es e' So (proj1 Ne)). destruct e'. now constructor.
  - pose proof (ErrFindGreaterThanOrEqual_map DEBUG OffsetOfILE h rbt (nodes es) key fuel R F1) as X. eapply runs_reads; [exact X|]. rewrite lfind_ge_nodes. destruct (lfind_ge key es) as [e|] eqn:L; cbn [option_map]; unfold found_entry; cbn iota beta; apply runs_ret; exists es; cbn [fst snd]; (split; [|auto]).
    + rewrite (object_back h objects es e So); [destruct e; now constructor|]. apply List.find_some in L as [L _]. now apply list_elem_of_In.
    + now constructor.
  - destruct C as [Io No]. destruct So as [Fo Sub']. pose proof Fo as Fo'. rewrite Forall_forall in Fo'. destruct (Fo' o Io) as (Ro & Ao & Is). pose proof (not_in_nodes h objects es o (conj Fo Sub') Io No) as Nn.
    eapply runs_call; [apply (ErrInsert_map DEBUG OffsetOfILE h rbt (nodes es) key o fuel R Ao Is Nn); now rewrite Ln|..].
    { intros x Hx. apply elem_of_app in Hx as [Hx|Hx]; [|auto]. rewrite (added_in _ _ _ Hx). apply list_elem_of_In, in_map, list_elem_of_In, Io. }
    intros [err rbt1] h1 Fr [Er R1]. cbn in Er, R1. subst err. cbn iota beta. apply runs_ret. cbn [fst snd]. unfold ins_result in *. rewrite lfind_nodes in *. destruct (lfind key es) as [e|] eqn:L; cbn [option_map fst snd] in *.
    + exists es. split; [now apply spec_insert_dup; rewrite L|]. split; [exact R1|]. split; [|lia]. apply (store_ok_step h h1 objects es es (conj Fo Sub') Sub'). intros o' Io'. destruct (decide (CObjectToNode OffsetOfILE o' ∈ map snd (nodes es))) as [I|N]; [now apply (map_in_store h1 rbt1 (nodes es))|]. rewrite Fr by exact N. now apply Fo'.
    + rewrite linsert_nodes in R1. exists (linsert key o es). split; [now constructor|]. split; [exact R1|]. split; [|rewrite linsert_length; lia]. assert (Sub2 : forall x, x ∈ map snd (linsert key o es) -> x ∈ objects) by (intros x Hx; apply linsert_snd in Hx as [->|Hx]; auto).
      apply (store_ok_step h h1 objects es _ (conj Fo Sub') Sub2). intros o' Io'. destruct (decide (CObjectToNode OffsetOfILE o' ∈ map snd (nodes (linsert key o es)))) as [I|N]; [now apply (map_in_store h1 rbt1 (nodes (linsert key o es)))|].
      rewrite Fr; [now apply Fo'|]. rewrite <- linsert_nodes, linsert_snd in N. cbn [added]. rewrite elem_of_app, elem_of_cons, elem_of_nil. tauto.
  - pose proof (ErrDelete_map DEBUG OffsetOfILE h rbt (nodes es) key fuel R F1 ltac:(lia)) as X. unfold delete_result in X. rewrite lfind_nodes in X. destruct So as [Fo Sub']. pose proof Fo as Fo'. rewrite Forall_forall in Fo'. destruct (lfind key es) as [e|] eqn:L; cbn [option_map fst snd] in X.
    + eapply runs_call; [exact X|exact Sub|]. intros [[err po] rbt1] h1 Fr (Er & R1 & Sc). cbn in Er, R1. injection Er as -> ->. cbn iota beta. apply runs_ret. cbn [fst snd]. rewrite ldelete_nodes in R1. exists (ldelete key es). pose proof (lfind_elem_of _ _ _ L) as Ie.
      split; [change (CObjectToNode OffsetOfILE e.2) with (node_entry e).2; rewrite (object_back h objects es e (conj Fo Sub') Ie); now constructor|]. split; [exact R1|]. split; [|unfold ldelete; pose proof (List.filter_length_le (fun e0 => negb (key_eq key e0.1)) es); lia].
      assert (Sub2 : forall x, x ∈ map snd (ldelete key es) -> x ∈ objects) by (intros x Hx; apply Sub'; now apply ldelete_snd in Hx). apply (store_ok_step h h1 objects es _ (conj Fo Sub') Sub2). intros o' Io'.
      destruct (decide (CObjectToNode OffsetOfILE o' ∈ map snd (nodes es))) as [I|N]; [|rewrite Fr by exact N; now apply Fo']. apply nodes_snd_inv in I as (e' & Ie' & Eo). rewrite Eo. destruct (key_eq key e'.1) eqn:K.
      * apply key_eq_spec in K. destruct (lfind_Some _ _ _ L) as [_ Ke]. pose proof (is_map_ordered _ _ _ R) as On. assert (Ee : node_entry e' = node_entry e) by (apply (same_key _ _ _ On); [apply list_elem_of_In, in_map, list_elem_of_In, Ie'|apply list_elem_of_In, in_map, list_elem_of_In, Ie|cbn; congruence]).
        destruct (Sc (node_entry e) eq_refl) as (n & En & _). change (CObjectToNode OffsetOfILE e'.2) with (node_entry e').2. rewrite Ee. eauto.
      * apply (map_in_store h1 rbt1 (nodes (ldelete key es)) _ R1). apply (elem_snd (node_entry e')), list_elem_of_In, in_map, list_elem_of_In, ldelete_elem. auto.
    + eapply runs_call; [exact X|intros x Hx; now apply elem_of_nil in Hx|]. intros [[err po] rbt1] h1 Fr (Er & R1 & Sc). cbn in Er, R1. injection Er as -> ->. cbn iota beta. apply runs_ret. cbn [fst snd]. exists es. split; [now constructor|]. split; [exact R1|]. split; [|lia].
      apply (store_ok_step h h1 objects es es (conj Fo Sub') Sub'). intros o' Io'. rewrite Fr by apply not_elem_of_nil. now apply Fo'.
Qed.

(** ** Sequences of calls *)

Lemma turns_linear n : (turns (S n) <= 2 * n + 3)%nat.
Proof. unfold turns. pose proof (Nat.log2_lt_lin (S (S n)) ltac:(lia)). lia. Qed.

Lemma calls_runs fuel objects cs : forall h rbt es, is_map h rbt (nodes es) -> store_ok h objects es -> calls_ok objects es cs -> (2 * (length es + length cs) + 3 <= fuel)%nat ->
  runs (do_calls fuel rbt cs) h (map (CObjectToNode OffsetOfILE) objects) (fun res h' => exists es', calls_spec es cs res.1 es' /\ is_map h' res.2 (nodes es')).
Proof.
  induction cs as [|c cs IH]; intros h rbt es R So C F; cbn [do_calls length] in *.
  - apply runs_ret. exists es. split; [constructor|exact R].
  - destruct C as [C Cs]. pose proof (turns_linear (length es)). eapply runs_bind; [apply (call_runs fuel h rbt objects es c R So C); lia|]. intros [x rbt1] h1 _ (es1 & Sp & R1 & So1 & L1). cbn [fst snd] in *. cbn iota beta.
    eapply runs_bind; [apply (IH h1 rbt1 es1 R1 So1 (Cs x es1 Sp)); lia|]. intros [xs rbt2] h2 _ (es2 & Sp2 & R2). cbn [fst snd] in *. cbn iota beta. apply runs_ret. exists es2. split; [now apply specs_cons with es1|exact R2].
Qed.

(** ** The nearest entry to a key that no key is smaller than *)

Lemma next_to_first key e es : ordered es -> next_to key e es -> (forall x, x ∈ es -> key_lt x.1 key = false) -> head es = Some e.
Proof.
  intros O [I F] N. destruct es as [|x es]; [now apply elem_of_nil in I|]. cbn. f_equal. apply elem_of_cons in I as [->|I]; [reflexivity|]. apply StronglySorted_cons in O as [Fx _]. rewrite Forall_forall in Fx, F. pose proof (Fx e I) as L. unfold elt in L.
  destruct (F x ltac:(left)) as [X _]. destruct X. split; [apply N; left|exact L].
Qed.

(** ** Merging *)

Lemma Destroy_reads fuel h : reads (Destroy DEBUG (S fuel) (mkInvasiveRedBlackTree NULL)) h tt.
Proof. unfold Destroy, MakeEmpty, COLLAssert. destruct DEBUG; reflexivity. Qed.

Lemma three_maps_start h rbt src es1 es2 : is_map h rbt es1 -> is_map h src es2 -> apart es1 es2 -> three_maps h rbt (mkInvasiveRedBlackTree NULL) src es1 [] es2.
Proof. intros R1 R2 A. split; [exact R1|]. split; [apply is_map_empty|]. split; [exact R2|]. split; [exact A|]. split; [intros x I; now apply elem_of_nil in I|]. split; [intros x _; apply not_elem_of_nil|]. intros e I. now apply elem_of_nil in I. Qed.

(** The state in which the loop starts: an empty target takes the whole source. *)
Lemma merge_start h rbt src es1 es2 : is_map h rbt es1 -> is_map h src es2 -> apart es1 es2 -> exists rbt' src' es1' es2',
  reads (if FEmpty rbt then Move DEBUG rbt src else mret (rbt, src)) h (rbt', src') /\ three_maps h rbt' (mkInvasiveRedBlackTree NULL) src' es1' [] es2' /\ (length es1' + length es2' = length es1 + length es2)%nat /\ (length es2' <= length es2)%nat /\
  (forall x, x ∈ map snd es1' \/ x ∈ map snd es2' -> x ∈ map snd es1 \/ x ∈ map snd es2) /\ (forall m, merged es1' es2' m -> merged es1 es2 m) /\ (forall m, left_over es1' es2' [] m -> left_over es1 es2 [] m).
Proof.
  intros R1 R2 A. rewrite (is_map_FEmpty h rbt es1 R1). destruct es1 as [|e1 es1].
  - rewrite bool_decide_eq_true_2 by reflexivity. exists (mkInvasiveRedBlackTree (m_pnodeRoot src)), (mkInvasiveRedBlackTree NULL), es2, []. split.
    { unfold Move. rewrite (is_map_FEmpty h rbt [] R1). unfold COLLAssert. destruct DEBUG; reflexivity. }
    split; [apply three_maps_start; [destruct src; exact R2|apply is_map_empty|intros x _; apply not_elem_of_nil]|]. cbn [length]. split; [lia|]. split; [lia|]. split; [intros x [I|I]; [auto|now apply elem_of_nil in I]|].
    assert (K : forall k, ~ has_key k (@nil (KEY * Z))) by (intros k (x & I & _); now apply elem_of_nil in I). split; intros m X e; rewrite (X e), !elem_of_nil; [|specialize (K e.1); tauto]. specialize (K e.1). tauto.
  - rewrite bool_decide_eq_false_2 by discriminate. exists rbt, src, (e1 :: es1), es2. split; [apply reads_ret|]. split; [now apply three_maps_start|]. auto 10.
Qed.

End Calls.

(** ** Properties *)

(** C5: a sequence of calls of a red-black tree ([ErrInsert], [ErrDelete],
    [ErrFind], [ErrFindNearest], [ErrFindGreaterThanOrEqual]) that starts with an
    empty tree returns, object by object and error by error, what the same calls
    on an ordered list of keys and objects return; the tree that it leaves is
    balanced and holds exactly that list.  Every call returns, no assertion of a
    DEBUG build fails (the red leaf that [Delete_] expects, the colours that
    [AssertValid] checks), no pointer that is [NULL] is followed, and no memory
    outside the contexts of the objects is written. *)
Theorem rbt_calls_refine_map (KEY : Type) `{KeyOrder KEY} (DEBUG : bool) (OffsetOfILE : Z) (h : Heap KEY) (objects : list Z) (cs : list CALL) (fuel : nat) :
  Forall (object_ok OffsetOfILE h) objects -> calls_ok objects [] cs -> (2 * length cs + 3 <= fuel)%nat ->
  exists xs rbt h' es, do_calls DEBUG OffsetOfILE fuel (mkInvasiveRedBlackTree NULL) cs h = Ret (xs, rbt) h' /\
    calls_spec [] cs xs es /\ is_map h' rbt (map (node_entry OffsetOfILE) es) /\
    (forall x, x ∉ map (CObjectToNode OffsetOfILE) objects -> h' !! x = h !! x).
Proof.
  intros F C L. destruct (calls_runs DEBUG OffsetOfILE fuel objects cs h (mkInvasiveRedBlackTree NULL) []) as ([xs rbt] & h' & E & Fr & es & Sp & R).
  - apply is_map_empty.
  - split; [exact F|]. intros x I. now apply elem_of_nil in I.
  - exact C.
  - exact L.
  - exists xs, rbt, h', es. auto.
Qed.

(** C25: each search of a tree with [n] nodes ends after at most [2 log2 (n + 1) + 1]
    turns, reads only, and is exact: [ErrFind] finds the key's object or reports
    that there is none; [ErrFindGreaterThanOrEqual] finds the first entry that is
    not smaller; [ErrFindNearest] finds an entry with no other between it and the
    key, the first entry of all when no key is smaller than the one asked for,
    which is how the queue of metered disk reads takes its next request. *)
Theorem searches_take_logarithmic_turns (KEY : Type) `{KeyOrder KEY} (DEBUG : bool) (OffsetOfILE : Z) (h : Heap KEY) (rbt : InvasiveRedBlackTree) (es : list (KEY * Z)) (key : KEY) (fuel : nat) :
  is_map h rbt es -> (2 * Nat.log2 (length es + 1) + 1 <= fuel)%nat ->
  ErrFind DEBUG OffsetOfILE fuel rbt key h = Ret (match lfind key es with Some e => (errSuccess, NodeToCObject OffsetOfILE e.2) | None => (errEntryNotFound, NULL) end) h /\
  ErrFindGreaterThanOrEqual DEBUG OffsetOfILE fuel rbt key h = Ret (match lfind_ge key es with Some e => (errSuccess, Some (e.1, NodeToCObject OffsetOfILE e.2)) | None => (errEntryNotFound, None) end) h /\
  ((es = [] /\ ErrFindNearest DEBUG OffsetOfILE fuel rbt key h = Ret (errEntryNotFound, None) h) \/
   exists e, next_to key e es /\ ErrFindNearest DEBUG OffsetOfILE fuel rbt key h = Ret (errSuccess, Some (e.1, NodeToCObject OffsetOfILE e.2)) h /\
     ((forall x, x ∈ es -> key_lt x.1 key = false) -> head es = Some e)).
Proof.
  intros R F. assert (F' : (turns (length es) <= fuel)%nat) by (unfold turns; replace (S (length es)) with (length es + 1)%nat by lia; lia).
  split; [exact (ErrFind_map DEBUG OffsetOfILE h rbt es key fuel R F')|]. split; [exact (ErrFindGreaterThanOrEqual_map DEBUG OffsetOfILE h rbt es key fuel R F')|].
  destruct (ErrFindNearest_map DEBUG OffsetOfILE h rbt es key fuel R F') as [X|(e & N & X)]; [left; exact X|right]. exists e. split; [exact N|]. split; [exact X|]. intros A. apply (next_to_first key e es); [now apply is_map_ordered in R|exact N|exact A].
Qed.

(** C14: [ErrMerge] of two trees of different nodes returns; the target then holds
    its own entries and those of the source whose keys it did not have, the source
    the others, and the error is [errDuplicateEntry] exactly when there are such.
    No entry is lost, none is in both trees, and both are balanced. *)
Theorem ErrMerge_moves_what_fits (KEY : Type) `{KeyOrder KEY} (DEBUG : bool) (OffsetOfILE : Z) (h : Heap KEY) (rbt prbtSrc : InvasiveRedBlackTree) (es1 es2 : list (KEY * Z)) (fuel : nat) :
  is_map h rbt es1 -> is_map h prbtSrc es2 -> apart es1 es2 -> (2 * (length es1 + length es2) + 3 <= fuel)%nat ->
  exists err rbt' prbtSrc' h' m1 m2, ErrMerge DEBUG OffsetOfILE fuel fuel rbt prbtSrc h = Ret (err, rbt', prbtSrc') h' /\
    is_map h' rbt' m1 /\ is_map h' prbtSrc' m2 /\
    (forall e, e ∈ m1 <-> e ∈ es1 \/ (e ∈ es2 /\ ~ has_key e.1 es1)) /\
    (forall e, e ∈ m2 <-> e ∈ es2 /\ has_key e.1 es1) /\
    err = (if bool_decide (m2 = []) then errSuccess else errDuplicateEntry) /\
    (forall x, x ∉ map snd es1 ++ map snd es2 -> h' !! x = h !! x).
Proof.
  intros R1 R2 A F. destruct (merge_start DEBUG h rbt prbtSrc es1 es2 R1 R2 A) as (rbt1 & src1 & es1' & es2' & E1 & T3 & Ln & L2 & Sub & M1 & M2).
  assert (En : enough fuel es1' es2' []).
  { split; cbn [length]; [|lia]. rewrite Nat.add_0_r, Ln. pose proof (turns_linear (length es1 + length es2)) as X. pose proof (turns_mono (length es1 + length es2) (S (length es1 + length es2)) ltac:(lia)). lia. }
  destruct (Merge_loop_runs DEBUG OffsetOfILE fuel fuel h rbt1 (mkInvasiveRedBlackTree NULL) src1 es1' [] es2' T3 En ltac:(lia)) as ([[rbt2 src2] lo] & h2 & E2 & Fr & Es & m1 & m3 & X1 & X3 & Y1 & Y3). cbn [fst snd] in *.
  pose proof (is_map_FEmpty h2 lo m3 X3) as Fe. specialize (M1 m1 Y1). specialize (M2 m3 Y3).
  exists (if bool_decide (m3 = []) then errSuccess else errDuplicateEntry), rbt2, (if bool_decide (m3 = []) then src2 else lo), h2, m1, m3. split; [|split; [exact X1|split; [|split; [exact M1|split; [intros e; rewrite (M2 e), elem_of_nil; tauto|split; [reflexivity|]]]]]].
  - unfold ErrMerge. unfold mbind at 1, M_bind at 1. rewrite E1. cbn iota beta. unfold mbind at 1, M_bind at 1. rewrite E2. cbn iota beta. unfold COLLAssert, FEmpty in *. cbn [m_pnodeRoot] in *. rewrite Es. destruct fuel as [|fuel]; [lia|]. unfold mbind at 1, M_bind at 1. unfold mret at 1, M_ret at 1. rewrite Fe. destruct (decide (m3 = [])) as [E|E].
    + rewrite !bool_decide_eq_true_2 by exact E. cbn [negb]. unfold mbind at 1, M_bind at 1. pose proof (Destroy_reads DEBUG fuel h2) as D. destruct lo as [p]. cbn [m_pnodeRoot] in Fe. rewrite bool_decide_eq_true_2 in Fe by exact E. apply Z.eqb_eq in Fe. subst p. unfold reads in D. destruct DEBUG; cbn; reflexivity.
    + rewrite !bool_decide_eq_false_2 by exact E. cbn [negb]. destruct src2 as [p], lo as [q]. cbn [m_pnodeRoot] in Es. subst p. destruct DEBUG; cbn; reflexivity.
  - destruct (decide (m3 = [])) as [E|E]; [rewrite bool_decide_eq_true_2 by exact E|rewrite bool_decide_eq_false_2 by exact E; exact X3]. subst m3. destruct src2 as [p]. cbn [m_pnodeRoot] in Es. subst p. apply is_map_empty.
  - intros x Hx. apply Fr. rewrite !elem_of_app in *. cbn [map]. rewrite elem_of_nil. intros [I|[I|I]]; [|..|exact I]; apply Hx, Sub; auto.
Qed.

(** ** Concrete trees *)

Module Witness.

(** Reads of the file 1, by offset; three requests whose contexts are at offset 16. *)
Definition at_offset (ib : Z) : IFILEIBOFFSET := mkIFILEIBOFFSET 1 ib.
Definition context (ib : Z) (c : RedBlackTreeColor) (l r : Z) : Node IFILEIBOFFSET := mkNode (at_offset ib) c l r.

Definition fresh_store : Heap IFILEIBOFFSET := <[1016 := context 0 Black 7 7]> (<[2016 := context 0 Black 7 7]> (<[3016 := context 0 Black 7 7]> ∅)).

(** The shapes of a tree of two requests and of a tree of one. *)
Definition two : tree IFILEIBOFFSET := T Red (T Red Leaf 1016 (at_offset 10) Leaf) 2016 (at_offset 20) Leaf.
Definition one (ib : Z) : tree IFILEIBOFFSET := T Red Leaf 3016 (at_offset ib) Leaf.
Definition store_of_both (ib : Z) : Heap IFILEIBOFFSET := <[1016 := context 10 Red 0 0]> (<[2016 := context 20 Red 1016 0]> (<[3016 := context ib Red 0 0]> ∅)).

Lemma two_map ib : is_map (store_of_both ib) (mkInvasiveRedBlackTree 2016) (entries two).
Proof.
  exists two. split; [reflexivity|]. split; [split|]; [| |split; [|split; [|split]]].
  - cbn. repeat split; discriminate.
  - apply NoDup_cons. split; [compute_done|apply NoDup_singleton].
  - exists 0%nat. split; [|reflexivity]. repeat split.
  - repeat constructor.
  - reflexivity.
  - repeat constructor; cbn; lia.
Qed.

Lemma one_map ib : is_map (store_of_both ib) (mkInvasiveRedBlackTree 3016) (entries (one ib)).
Proof.
  exists (one ib). split; [reflexivity|]. split; [split|]; [| |split; [|split; [|split]]].
  - cbn. repeat split; discriminate.
  - apply NoDup_singleton.
  - exists 0%nat. split; [|reflexivity]. repeat split.
  - repeat constructor.
  - reflexivity.
  - repeat constructor; cbn; lia.
Qed.

Lemma apart_both ib : apart (entries two) (entries (one ib)).
Proof. intros x I J. apply elem_of_cons in J as [->|J]; [|now apply elem_of_nil in J]. revert I. cbn. rewrite !elem_of_cons, elem_of_nil. intros [X|[X|[]]]; discriminate. Qed.

Definition calls : list (@CALL IFILEIBOFFSET) :=
  [CallInsert (at_offset 20) 2000; CallInsert (at_offset 10) 1000; CallInsert (at_offset 10) 3000; CallFindNearest (at_offset 0); CallDelete (at_offset 20)].

Lemma fresh_objects : Forall (object_ok 16 fresh_store) [1000; 2000; 3000].
Proof. unfold object_ok, is_address. repeat constructor; vm_compute; try discriminate; eauto. Qed.

Ltac next_call := split; [first [exact I|split; [compute_done|compute_done]]|intros ? ? Sp; inversion Sp; subst; clear Sp; try discriminate; try contradiction].

Lemma calls_are_ok : calls_ok [1000; 2000; 3000] [] calls.
Proof. unfold calls. do 3 next_call; do 2 next_call; exact I. Qed.

End Witness.
Import Witness.

Lemma rbt_calls_refine_map_witness : exists xs rbt h' es, do_calls true 16 13 (mkInvasiveRedBlackTree NULL) calls fresh_store = Ret (xs, rbt) h' /\
    calls_spec [] calls xs es /\ is_map h' rbt (map (node_entry 16) es) /\
    (forall x, x ∉ map (CObjectToNode 16) [1000; 2000; 3000] -> h' !! x = fresh_store !! x).
Proof. apply (rbt_calls_refine_map IFILEIBOFFSET true 16 fresh_store [1000; 2000; 3000] calls 13 fresh_objects calls_are_ok). cbn. lia. Defined.

Lemma searches_take_logarithmic_turns_witness :
  ErrFind true 16 3 (mkInvasiveRedBlackTree 2016) (at_offset 15) (store_of_both 5) = Ret (errEntryNotFound, NULL) (store_of_both 5) /\
  ErrFindGreaterThanOrEqual true 16 3 (mkInvasiveRedBlackTree 2016) (at_offset 15) (store_of_both 5) = Ret (errSuccess, Some (at_offset 20, 2000)) (store_of_both 5).
Proof.
  destruct (searches_take_logarithmic_turns IFILEIBOFFSET true 16 (store_of_both 5) (mkInvasiveRedBlackTree 2016) (entries two) (at_offset 15) 3 (two_map 5)) as (E1 & E2 & _); [vm_compute; lia|]. split; [exact E1|exact E2].
Defined.

Lemma ErrMerge_moves_what_fits_witness : exists err rbt' prbtSrc' h' m1 m2, ErrMerge true 16 9 9 (mkInvasiveRedBlackTree 2016) (mkInvasiveRedBlackTree 3016) (store_of_both 10) = Ret (err, rbt', prbtSrc') h' /\
    is_map h' rbt' m1 /\ is_map h' prbtSrc' m2 /\
    (forall e, e ∈ m1 <-> e ∈ entries two \/ (e ∈ entries (one 10) /\ ~ has_key e.1 (entries two))) /\
    (forall e, e ∈ m2 <-> e ∈ entries (one 10) /\ has_key e.1 (entries two)) /\
    err = (if bool_decide (m2 = []) then errSuccess else errDuplicateEntry) /\
    (forall x, x ∉ map snd (entries two) ++ map snd (entries (one 10)) -> h' !! x = store_of_both 10 !! x).
Proof. apply (ErrMerge_moves_what_fits IFILEIBOFFSET true 16 (store_of_both 10) (mkInvasiveRedBlackTree 2016) (mkInvasiveRedBlackTree 3016) (entries two) (entries (one 10)) 9 (two_map 10) (one_map 10) (apart_both 10)). cbn. lia. Defined.

(** A merge of these trees: the key is there already, so the request stays. *)
Example merge_leaves_the_duplicate : match ErrMerge true 16 9 9 (mkInvasiveRedBlackTree 2016) (mkInvasiveRedBlackTree 3016) (store_of_both 10) with
  | Ret (err, rbt, src) _ => err = errDuplicateEntry /\ m_pnodeRoot rbt = 2016 /\ m_pnodeRoot src = 3016 | Stop _ => False end.
Proof. vm_compute. auto. Qed.

(** ** Two surprises *)

(** The entry found need not be the nearest in distance: 19 is one step from 20
    and nine from 10, but the search ends at 10, next to it on the other side. *)
Lemma nearest_is_only_next_to : ErrFindNearest true 16 3 (mkInvasiveRedBlackTree 2016) (at_offset 19) (store_of_both 5) = Ret (errSuccess, Some (at_offset 10, 1000)) (store_of_both 5).
Proof. reflexivity. Qed.

(** [FindNode] of a key that is absent returns a pointer that is not [NULL]
    unless the context is at the start of the objects. *)
Lemma missing_node_is_not_null (KEY : Type) `{KeyOrder KEY} DEBUG OffsetOfILE (h : Heap KEY) rbt es key fuel : is_map h rbt es -> (turns (length es) <= fuel)%nat -> lfind key es = None -> 0 < OffsetOfILE < 18446744073709551616 ->
  exists p, FindNode DEBUG OffsetOfILE fuel rbt key h = Ret p h /\ p <> NULL.
Proof.
  intros R F N B. pose proof (FindNode_map DEBUG OffsetOfILE h rbt es key fuel R F) as X. rewrite N in X. eexists. split; [exact X|]. unfold NodeToCObject, NULL, u64. rewrite Z.sub_0_l, Z_mod_nz_opp_full; [rewrite Z.mod_small by lia; lia|rewrite Z.mod_small by lia; lia].
Qed.
