(* ===== verification/Table.v ===== *)
(** * Collections: arrays and tables

    CArray and CTable of published/inc/collection.hxx.  An array is a block of
    entries of which the first [m_centry] count; a table keeps an array in the
    order of its keys, sorts it when entries are loaded and searches it, one way
    when it is small and another when it is large.  [None] is an access through
    [NULL], or that a loop did not end within its fuel. *)

From stdpp Require Import base list.
From Stdlib Require Import ZArith Lia Bool.
From S2P Require Import Prelude.

(** ** Arrays *)

Definition SIZE_MAX : Z := 18446744073709551615.

Record CArray (CEntry : Type) := mkCArray {
  m_centry : Z;
  m_centryMax : Z;
  m_rgentry : list CEntry;
  m_entryDefault : CEntry;
  m_fEntryDefault : bool;
  m_centryGrowth : Z }.
Arguments mkCArray {CEntry}.
Arguments m_centry {CEntry}.
Arguments m_centryMax {CEntry}.
Arguments m_rgentry {CEntry}.
Arguments m_entryDefault {CEntry}.
Arguments m_fEntryDefault {CEntry}.
Arguments m_centryGrowth {CEntry}.

(** [CArray::ERR] and [CTable::ERR] *)
Inductive CArray_ERR := Array_errSuccess | Array_errOutOfMemory | Array_errInvalidData.
Inductive CTable_ERR := Table_errSuccess | Table_errInvalidParameter | Table_errOutOfMemory | Table_errKeyChange.

(** Reading and writing the block at an index. *)
Definition zget {A} (l : list A) (i : Z) : option A := if i <? 0 then None else l !! Z.to_nat i.
Definition zset {A} (l : list A) (i : Z) (x : A) : list A := <[Z.to_nat i := x]> l.

Section Array.
Context {CEntry : Type}.

(** [CEntry()], and whether [new( std::nothrow ) CEntry[ n ]] succeeds. *)
Variable entry0 : CEntry.
Variable new_ok : Z -> bool.

Abbreviation CArray := (CArray CEntry).

Definition SetCapacityGrowth (a : CArray) (centryGrowth : Z) : CArray :=
  mkCArray (m_centry a) (m_centryMax a) (m_rgentry a) (m_entryDefault a) (m_fEntryDefault a) (if centryGrowth =? 0 then 1 else centryGrowth).

(** The two constructors. *)
Definition new_array : CArray := mkCArray 0 0 [] entry0 false 1.
Definition new_array_growth (centryGrowth : Z) : CArray := SetCapacityGrowth (mkCArray 0 0 [] entry0 false 0) centryGrowth.

Definition Size (a : CArray) : Z := m_centry a.
Definition Capacity (a : CArray) : Z := m_centryMax a.

(** The index stands for the pointer [m_rgentry + ientry]. *)
Definition PEntry (a : CArray) (ientry : Z) : option Z := if ientry <? m_centry a then Some ientry else None.
Definition Entry (a : CArray) (ientry : Z) : option CEntry := let? p := PEntry a ientry in zget (m_rgentry a) p.

(** [new CEntry[ n ]] with the entries that are copied into it. *)
Definition new_block (n : Z) (copied : list CEntry) : list CEntry := copied ++ replicate (Z.to_nat n - length copied) entry0.

Definition ErrSetCapacity (a : CArray) (centryMax : Z) : CArray_ERR * CArray :=
  if negb (m_centryMax a =? centryMax) then
    if negb (centryMax =? 0) then
      if negb (new_ok centryMax) then (Array_errOutOfMemory, a) else
      let centry := if m_centry a >? centryMax then centryMax else m_centry a in
      (Array_errSuccess, mkCArray centry centryMax (new_block centryMax (take (Z.to_nat centry) (m_rgentry a))) (m_entryDefault a) (m_fEntryDefault a) (m_centryGrowth a))
    else (Array_errSuccess, mkCArray 0 0 [] (m_entryDefault a) (m_fEntryDefault a) (m_centryGrowth a))
  else (Array_errSuccess, a).

(** The capacity that [ErrSetSize] asks for. *)
Definition grown_capacity (centryMax centryGrowth centry : Z) : Z :=
  let centryT := u64 (centryMax + (u64 (centry - centryMax - 1) / centryGrowth) * centryGrowth) in
  if centryT <=? SIZE_MAX - centryGrowth then u64 (centryT + centryGrowth) else centry.

(** [m_rgentry[ i ] = m_entryDefault] for the new entries. *)
Definition fill_default (a : CArray) (centry : Z) : list CEntry :=
  take (Z.to_nat (m_centry a)) (m_rgentry a) ++ replicate (Z.to_nat (centry - m_centry a)) (m_entryDefault a) ++ drop (Z.to_nat centry) (m_rgentry a).

Definition set_size (a : CArray) (centry : Z) : CArray :=
  mkCArray centry (m_centryMax a) (if m_fEntryDefault a && (centry >? m_centry a) then fill_default a centry else m_rgentry a) (m_entryDefault a) (m_fEntryDefault a) (m_centryGrowth a).

Definition ErrSetSize (a : CArray) (centry : Z) : CArray_ERR * CArray :=
  if m_centryMax a <? centry then
    match ErrSetCapacity a (grown_capacity (m_centryMax a) (m_centryGrowth a) centry) with
    | (Array_errSuccess, a) => (Array_errSuccess, set_size a centry)
    | r => r
    end
  else (Array_errSuccess, set_size a centry).

Definition SetEntryDefault (a : CArray) (entry : CEntry) : CArray :=
  mkCArray (m_centry a) (m_centryMax a) (m_rgentry a) entry true (m_centryGrowth a).

(** Writing through a pointer to an entry. *)
Definition SetEntry (a : CArray) (pentry : option Z) (entry : CEntry) : option CArray :=
  let? i := pentry in
  if (0 <=? i) && (i <? Z.of_nat (length (m_rgentry a))) then Some (mkCArray (m_centry a) (m_centryMax a) (zset (m_rgentry a) i entry) (m_entryDefault a) (m_fEntryDefault a) (m_centryGrowth a)) else None.

Definition ErrSetEntry (a : CArray) (ientry : Z) (entry : CEntry) : option (CArray_ERR * CArray) :=
  let centryReq := u64 (ientry + 1) in
  let '(err, a) := if m_centry a <? centryReq then ErrSetSize a centryReq else (Array_errSuccess, a) in
  match err with
  | Array_errSuccess => let? a := SetEntry a (PEntry a ientry) entry in Some (Array_errSuccess, a)
  | _ => Some (err, a)
  end.

(** [cbData / sizeof( CEntry )] entries given as bytes; [cbRest] bytes are over. *)
Definition ErrLoadEntries (a : CArray) (rgData : list CEntry) (cbRest : Z) : CArray_ERR * CArray :=
  if negb (cbRest =? 0) then (Array_errInvalidData, a) else
  match ErrSetCapacity a (u64 (Z.of_nat (length rgData) + m_centry a)) with
  | (Array_errSuccess, a) =>
      (Array_errSuccess, mkCArray (m_centry a) (m_centryMax a) (take (Z.to_nat (m_centry a)) (m_rgentry a) ++ rgData ++ drop (Z.to_nat (m_centry a) + length rgData) (m_rgentry a))
                           (m_entryDefault a) (m_fEntryDefault a) (m_centryGrowth a))
  | r => r
  end.

Definition Array_ErrClone (a array : CArray) : CArray_ERR * CArray :=
  if negb (m_centryMax array =? 0) && negb (new_ok (m_centryMax array)) then (Array_errOutOfMemory, a) else
  (Array_errSuccess, mkCArray (m_centry array) (m_centryMax array) (new_block (m_centryMax array) (take (Z.to_nat (m_centry array)) (m_rgentry array)))
                       (m_entryDefault array) (m_fEntryDefault array) (m_centryGrowth array)).

(** A search from the front; the index or [SIZE_MAX]. *)
Fixpoint linear_loop (l : list CEntry) (i : Z) (pentrySearch : CEntry) (pfnCompare : CEntry -> CEntry -> Z) : Z :=
  match l with [] => SIZE_MAX | x :: l => if pfnCompare pentrySearch x =? 0 then i else linear_loop l (i + 1) pentrySearch pfnCompare end.
Definition SearchLinear (a : CArray) (pentrySearch : CEntry) (pfnCompare : CEntry -> CEntry -> Z) : Z :=
  linear_loop (take (Z.to_nat (m_centry a)) (m_rgentry a)) 0 pentrySearch pfnCompare.

End Array.

(** ** Tables *)

(** What the user of a table implements: the comparison of an entry with an
    entry and with a key, a number below, equal to or above zero. *)
Class KEYENTRY (CKey CEntry : Type) := {
  CmpEntry : CEntry -> CEntry -> Z;
  CmpKey : CEntry -> CKey -> Z }.

(** What the searches rely on, for the entries and the keys a table is used with. *)
Class KeyEntryLaws (CKey CEntry : Type) `{KEYENTRY CKey CEntry} (good : CEntry -> Prop) (good_key : CKey -> Prop) : Prop := {
  CmpEntry_anti a b : good a -> good b -> CmpEntry a b > 0 <-> CmpEntry b a < 0;
  CmpEntry_trans a b c : good a -> good b -> good c -> CmpEntry a b <= 0 -> CmpEntry b c <= 0 -> CmpEntry a c <= 0;
  CmpKey_lt a b k : good a -> good b -> good_key k -> CmpEntry a b <= 0 -> CmpKey b k < 0 -> CmpKey a k < 0;
  CmpKey_le a b k : good a -> good b -> good_key k -> CmpEntry a b <= 0 -> CmpKey b k <= 0 -> CmpKey a k <= 0 }.

Inductive PfnSearch := LinearSearch | BinarySearch.

Record CTable (CEntry : Type) := mkCTable { m_arrayKeyEntry : CArray CEntry; m_pfnSearch : PfnSearch }.
Arguments mkCTable {CEntry}.
Arguments m_arrayKeyEntry {CEntry}.
Arguments m_pfnSearch {CEntry}.

Section Table.
Context {CKey CEntry : Type} `{KEYENTRY CKey CEntry}.
Variable entry0 : CEntry.
Variable new_ok : Z -> bool.

Abbreviation CArray := (CArray CEntry).
Abbreviation CTable := (CTable CEntry).
Abbreviation Cmp := (CmpEntry (CKey := CKey)).

Definition new_table : CTable := mkCTable (new_array entry0) LinearSearch.

Definition _SetEntry (a : CArray) (ikeyentry : Z) (keyentry : CEntry) : option CArray := SetEntry a (PEntry a ikeyentry) keyentry.

Definition _SwapEntry (a : CArray) (ikeyentry1 ikeyentry2 : Z) : option CArray :=
  let? keyentryT := Entry a ikeyentry1 in
  let? e2 := Entry a ikeyentry2 in
  let? a := _SetEntry a ikeyentry1 e2 in
  _SetEntry a ikeyentry2 keyentryT.

(** *** Sorting *)

(** [while ( ikeyentryFirst-- >= ikeyentryMinIn + 1 && ... )]: the index goes down
    by one at every test, below the segment (or round to [SIZE_MAX]) at the last. *)
Fixpoint insert_loop (fuel : nat) (a : CArray) (ikeyentryMinIn ikeyentryFirst : Z) (keyentryKey : CEntry) : option (CArray * Z) :=
  match fuel with O => None | S fuel =>
    let i := u64 (ikeyentryFirst - 1) in
    if u64 (ikeyentryMinIn + 1) <=? ikeyentryFirst then
      let? e := Entry a i in
      if Cmp e keyentryKey >? 0 then
        let? a := _SetEntry a (u64 (i + 1)) e in insert_loop fuel a ikeyentryMinIn i keyentryKey
      else Some (a, i)
    else Some (a, i)
  end.

Fixpoint insertion_loop (inner fuel : nat) (a : CArray) (ikeyentryMinIn ikeyentryMaxIn ikeyentryFirst ikeyentryLast : Z) : option CArray :=
  match fuel with O => None | S fuel =>
    if ikeyentryLast <? ikeyentryMaxIn then
      let? eFirst := Entry a ikeyentryFirst in
      let? eLast := Entry a ikeyentryLast in
      let? a :=
        (if Cmp eFirst eLast >? 0 then
           let? a := _SetEntry a ikeyentryLast eFirst in
           let? (a, first) := insert_loop inner a ikeyentryMinIn ikeyentryFirst eLast in
           _SetEntry a (u64 (first + 1)) eLast
         else Some a) in
      insertion_loop inner fuel a ikeyentryMinIn ikeyentryMaxIn ikeyentryLast (u64 (ikeyentryLast + 1))
    else Some a
  end.

Definition _InsertionSort (fuel : nat) (a : CArray) (ikeyentryMinIn ikeyentryMaxIn : Z) : option CArray :=
  insertion_loop fuel fuel a ikeyentryMinIn ikeyentryMaxIn ikeyentryMinIn (u64 (ikeyentryMinIn + 1)).

(** Advance past all entries <= the divisor. *)
Fixpoint advance_first (fuel : nat) (a : CArray) (ikeyentryMin ikeyentryFirst ikeyentryLast : Z) : option Z :=
  match fuel with O => None | S fuel =>
    if ikeyentryFirst <=? ikeyentryLast then
      let? e := Entry a ikeyentryFirst in let? d := Entry a ikeyentryMin in
      if Cmp e d <=? 0 then advance_first fuel a ikeyentryMin (u64 (ikeyentryFirst + 1)) ikeyentryLast else Some ikeyentryFirst
    else Some ikeyentryFirst
  end.

(** Advance past all entries > the divisor. *)
Fixpoint advance_last (fuel : nat) (a : CArray) (ikeyentryMin ikeyentryFirst ikeyentryLast : Z) : option Z :=
  match fuel with O => None | S fuel =>
    if ikeyentryFirst <=? ikeyentryLast then
      let? e := Entry a ikeyentryLast in let? d := Entry a ikeyentryMin in
      if Cmp e d >? 0 then advance_last fuel a ikeyentryMin ikeyentryFirst (u64 (ikeyentryLast - 1)) else Some ikeyentryLast
    else Some ikeyentryLast
  end.

(** The [do ... while] that splits a partition; [fuel] bounds each of its loops. *)
Fixpoint partition_loop (fuel : nat) (a : CArray) (ikeyentryMin ikeyentryFirst ikeyentryLast : Z) : option (CArray * Z * Z) :=
  match fuel with O => None | S fuel =>
    let? ikeyentryFirst := advance_first (S fuel) a ikeyentryMin ikeyentryFirst ikeyentryLast in
    let? ikeyentryLast := advance_last (S fuel) a ikeyentryMin ikeyentryFirst ikeyentryLast in
    let? (a, ikeyentryFirst, ikeyentryLast) :=
      (if ikeyentryFirst <? ikeyentryLast then
         let? a := _SwapEntry a ikeyentryFirst ikeyentryLast in Some (a, u64 (ikeyentryFirst + 1), u64 (ikeyentryLast - 1))
       else Some (a, ikeyentryFirst, ikeyentryLast)) in
    if ikeyentryFirst <=? ikeyentryLast then partition_loop fuel a ikeyentryMin ikeyentryFirst ikeyentryLast
    else Some (a, ikeyentryFirst, ikeyentryLast)
  end.

(** [if ( Cmp( i, j ) > 0 ) swap]. *)
Definition order_two (a : CArray) (i j : Z) : option CArray :=
  let? e := Entry a i in let? f := Entry a j in if Cmp e f >? 0 then _SwapEntry a i j else Some a.

(** Sorts the first, middle and last entries, splits the partition around its
    first entry, and puts that entry at the end of the <= partition. *)
Definition split_partition (fuel : nat) (a : CArray) (ikeyentryMin ikeyentryMax : Z) : option (CArray * Z * Z) :=
  let ikeyentryFirst := ikeyentryMin in
  let ikeyentryMid := u64 (ikeyentryMin + u64 (ikeyentryMax - ikeyentryMin) / 2) in
  let ikeyentryLast := u64 (ikeyentryMax - 1) in
  let? a := order_two a ikeyentryFirst ikeyentryMid in
  let? a := order_two a ikeyentryFirst ikeyentryLast in
  let? a := order_two a ikeyentryMid ikeyentryLast in
  let? (a, ikeyentryFirst, ikeyentryLast) := partition_loop fuel a ikeyentryMin ikeyentryFirst ikeyentryLast in
  let? a := _SwapEntry a ikeyentryMin ikeyentryLast in
  Some (a, ikeyentryFirst, ikeyentryLast).

(** The limits of the smaller and of the larger sub-partition. *)
Definition sub_partitions (ikeyentryMin ikeyentryMax ikeyentryFirst ikeyentryLast : Z) : (Z * Z) * (Z * Z) :=
  if u64 (ikeyentryMax - ikeyentryFirst) =? 0 then ((ikeyentryLast, ikeyentryMax), (ikeyentryMin, ikeyentryLast))
  else if u64 (ikeyentryMax - ikeyentryFirst) >? u64 (ikeyentryFirst - ikeyentryMin) then ((ikeyentryMin, ikeyentryFirst), (ikeyentryFirst, ikeyentryMax))
  else ((ikeyentryFirst, ikeyentryMax), (ikeyentryMin, ikeyentryFirst)).

Definition ckeyentryMin : Z := 32.
Definition cpartMax : nat := 16.

(** The loop over partitions with its stack [rgpart], the top first; a full stack
    makes the routine call itself. *)
Fixpoint quick_loop (fuel : nat) (a : CArray) (rgpart : list (Z * Z)) (ikeyentryMin ikeyentryMax : Z) : option CArray :=
  match fuel with O => None | S fuel =>
    if u64 (ikeyentryMax - ikeyentryMin) <? ckeyentryMin then
      let? a := _InsertionSort (Z.to_nat ckeyentryMin) a ikeyentryMin ikeyentryMax in
      match rgpart with
      | [] => Some a
      | (lo, hi) :: rgpart => quick_loop fuel a rgpart lo hi
      end
    else
      let? (a, ikeyentryFirst, ikeyentryLast) := split_partition (Z.to_nat (m_centry a) + 1) a ikeyentryMin ikeyentryMax in
      let '((smallMin, smallMax), (largeMin, largeMax)) := sub_partitions ikeyentryMin ikeyentryMax ikeyentryFirst ikeyentryLast in
      if (length rgpart <? cpartMax)%nat then quick_loop fuel a ((largeMin, largeMax) :: rgpart) smallMin smallMax
      else let? a := quick_loop fuel a [] largeMin largeMax in quick_loop fuel a rgpart smallMin smallMax
  end.

Definition _QuickSort (fuel : nat) (a : CArray) (ikeyentryMinIn ikeyentryMaxIn : Z) : option CArray := quick_loop fuel a [] ikeyentryMinIn ikeyentryMaxIn.

(** *** Searching *)

(** The entries before the place that a search returns. *)
Definition passes (e : CEntry) (key : CKey) (fHigh : bool) : bool := let cmp := CmpKey e key in (cmp <? 0) || ((cmp =? 0) && fHigh).

Fixpoint linear_search_loop (fuel : nat) (a : CArray) (ikeyentry : Z) (key : CKey) (fHigh : bool) : option Z :=
  match fuel with O => None | S fuel =>
    if ikeyentry <? Size a then
      let? e := Entry a ikeyentry in
      if passes e key fHigh then linear_search_loop fuel a (u64 (ikeyentry + 1)) key fHigh else Some ikeyentry
    else Some ikeyentry
  end.

Definition _LinearSearch (fuel : nat) (a : CArray) (key : CKey) (fHigh : bool) : option Z := linear_search_loop fuel a 0 key fHigh.

Fixpoint binary_search_loop (fuel : nat) (a : CArray) (ikeyentryMin ikeyentryMax : Z) (key : CKey) (fHigh : bool) : option Z :=
  match fuel with O => None | S fuel =>
    if ikeyentryMin <? ikeyentryMax then
      let ikeyentryMid := u64 (ikeyentryMin + u64 (ikeyentryMax - ikeyentryMin) / 2) in
      let? e := Entry a ikeyentryMid in
      if passes e key fHigh then binary_search_loop fuel a (u64 (ikeyentryMid + 1)) ikeyentryMax key fHigh
      else binary_search_loop fuel a ikeyentryMin ikeyentryMid key fHigh
    else Some ikeyentryMax
  end.

Definition _BinarySearch (fuel : nat) (a : CArray) (key : CKey) (fHigh : bool) : option Z := binary_search_loop fuel a 0 (Size a) key fHigh.

Definition search (fuel : nat) (t : CTable) (key : CKey) (fHigh : bool) : option Z :=
  match m_pfnSearch t with LinearSearch => _LinearSearch fuel (m_arrayKeyEntry t) key fHigh | BinarySearch => _BinarySearch fuel (m_arrayKeyEntry t) key fHigh end.

Definition Table_Size (t : CTable) : Z := Size (m_arrayKeyEntry t).

(** The seeks return a pointer to an entry, here its index, or [NULL], here the
    inner [None]. *)
Definition Table_PEntry (t : CTable) (ientry : Z) : option Z := PEntry (m_arrayKeyEntry t) ientry.

Definition SeekLT (fuel : nat) (t : CTable) (key : CKey) : option (option Z) :=
  let? ikeyentry := search fuel t key false in
  let? f := (if ikeyentry <? Table_Size t then let? e := Entry (m_arrayKeyEntry t) ikeyentry in Some (CmpKey e key <? 0) else Some false) in
  Some (if f then Table_PEntry t ikeyentry else Table_PEntry t (u64 (ikeyentry - 1))).

Definition SeekLE (fuel : nat) (t : CTable) (key : CKey) : option (option Z) :=
  let? ikeyentry := search fuel t key false in
  let? f := (if ikeyentry <? Table_Size t then let? e := Entry (m_arrayKeyEntry t) ikeyentry in Some (CmpKey e key <=? 0) else Some false) in
  Some (if f then Table_PEntry t ikeyentry else Table_PEntry t (u64 (ikeyentry - 1))).

Definition SeekEQ (fuel : nat) (t : CTable) (key : CKey) : option (option Z) :=
  let? ikeyentry := search fuel t key false in
  let? f := (if ikeyentry <? Table_Size t then let? e := Entry (m_arrayKeyEntry t) ikeyentry in Some (CmpKey e key =? 0) else Some false) in
  Some (if f then Table_PEntry t ikeyentry else None).

Definition SeekHI (fuel : nat) (t : CTable) (key : CKey) : option (option Z) :=
  let? ikeyentry := search fuel t key true in
  let? f := (if ikeyentry >? 0 then let? e := Entry (m_arrayKeyEntry t) (u64 (ikeyentry - 1)) in Some (CmpKey e key =? 0) else Some false) in
  Some (if f then Table_PEntry t (u64 (ikeyentry - 1)) else None).

Definition SeekGE (fuel : nat) (t : CTable) (key : CKey) : option (option Z) :=
  let? ikeyentry := search fuel t key true in
  let? f := (if ikeyentry >? 0 then let? e := Entry (m_arrayKeyEntry t) (u64 (ikeyentry - 1)) in Some (CmpKey e key =? 0) else Some false) in
  Some (if f then Table_PEntry t (u64 (ikeyentry - 1)) else Table_PEntry t ikeyentry).

Definition SeekGT (fuel : nat) (t : CTable) (key : CKey) : option (option Z) :=
  let? ikeyentry := search fuel t key true in Some (Table_PEntry t ikeyentry).

(** *** Loading *)

(** [for ( n = Size(), log2n = 0; n; n = n / 2, log2n++ );] *)
Fixpoint log2_loop (fuel : nat) (n log2n : Z) : option Z :=
  match fuel with O => None | S fuel => if n =? 0 then Some log2n else log2_loop fuel (n / 2) (log2n + 1) end.

Definition _ConfigureSearch (fuel : nat) (t : CTable) (fInOrder : bool) : option CTable :=
  let a := m_arrayKeyEntry t in
  let? log2n := log2_loop 65 (Size a) 0 in
  if 2 * log2n <? Size a then
    let? a := if negb fInOrder then _QuickSort fuel a 0 (Size a) else Some a in Some (mkCTable a BinarySearch)
  else
    let? a := if negb fInOrder then _InsertionSort fuel a 0 (Size a) else Some a in Some (mkCTable a LinearSearch).

Fixpoint load_loop (a : CArray) (ientry : Z) (rgentry : list CEntry) : option CArray :=
  match rgentry with
  | [] => Some a
  | e :: rgentry => let? (_, a) := ErrSetEntry entry0 new_ok a ientry e in load_loop a (u64 (ientry + 1)) rgentry
  end.

Definition ErrLoad (fuel : nat) (t : CTable) (rgentry : list CEntry) : option (CTable_ERR * CTable) :=
  let ientryMin := Table_Size t in
  match ErrSetSize entry0 new_ok (m_arrayKeyEntry t) (u64 (Table_Size t + Z.of_nat (length rgentry))) with
  | (Array_errSuccess, a) =>
      let? a := load_loop a ientryMin rgentry in
      let? t := _ConfigureSearch fuel (mkCTable a (m_pfnSearch t)) false in Some (Table_errSuccess, t)
  | (_, a) => Some (Table_errOutOfMemory, mkCTable a (m_pfnSearch t))
  end.

Definition Table_ErrClone (t table : CTable) : CTable_ERR * CTable :=
  match Array_ErrClone entry0 new_ok (m_arrayKeyEntry t) (m_arrayKeyEntry table) with
  | (Array_errSuccess, a) => (Table_errSuccess, mkCTable a (m_pfnSearch table))
  | (_, a) => (Table_errOutOfMemory, mkCTable a (m_pfnSearch t))
  end.

Definition ErrCloneArray (fuel : nat) (t : CTable) (array : CArray) : option (CTable_ERR * CTable) :=
  match Array_ErrClone entry0 new_ok (m_arrayKeyEntry t) array with
  | (Array_errSuccess, a) => let? t := _ConfigureSearch fuel (mkCTable a (m_pfnSearch t)) false in Some (Table_errSuccess, t)
  | (_, a) => Some (Table_errOutOfMemory, mkCTable a (m_pfnSearch t))
  end.

Definition ErrUpdateEntry (t : CTable) (pentry : option Z) (entry : CEntry) : option (CTable_ERR * CTable) :=
  let? i := pentry in
  let? e := zget (m_rgentry (m_arrayKeyEntry t)) i in
  if Cmp e entry =? 0 then let? a := SetEntry (m_arrayKeyEntry t) pentry entry in Some (Table_errSuccess, mkCTable a (m_pfnSearch t))
  else Some (Table_errKeyChange, t).

Definition Clear (t : CTable) : CTable := mkCTable (snd (ErrSetCapacity entry0 new_ok (m_arrayKeyEntry t) 0)) (m_pfnSearch t).

End Table.

(** ** The tables of the program *)

(** The pages that cursors refer to, by their addresses (bf/bf.hxx, bf.cxx). *)
Record CPagePointer := mkCPagePointer { DwPage : Z; PgNo : Z }.

Definition CPagePointer_Cmp_key (e : CPagePointer) (dw : Z) : Z := s32 (u64 (DwPage e - dw)).
Definition CPagePointer_Cmp (e keyentry : CPagePointer) : Z := CPagePointer_Cmp_key e (DwPage keyentry).

Definition CReferencedPages : KEYENTRY Z CPagePointer := {| CmpEntry := CPagePointer_Cmp; CmpKey := CPagePointer_Cmp_key |}.

(** The contexts of the threads, by the numbers of the threads (os/trace.cxx). *)
Record COSThreadInfo := mkCOSThreadInfo { m_tid : Z; m_ptc : Z }.

Definition COSThreadInfo_Cmp_key (e : COSThreadInfo) (tid : Z) : Z := s32 (u32 (m_tid e - tid)).
Definition COSThreadInfo_Cmp (e keyentry : COSThreadInfo) : Z := COSThreadInfo_Cmp_key e (m_tid keyentry).

Definition COSThreadTable : KEYENTRY Z COSThreadInfo := {| CmpEntry := COSThreadInfo_Cmp; CmpKey := COSThreadInfo_Cmp_key |}.
