(* ===== verification/TableProps.v ===== *)
(** * Tables: what sorting and searching do

    Entries that change places keep the list a permutation and leave everything
    outside a segment; the sorts put a segment in order; the searches find the
    first place that the entries before do not pass. *)

From stdpp Require Import base list.
From Stdlib Require Import ZArith Lia Bool.
From S2P Require Import Prelude Table.

(** ** Lists by integer index *)

Section Lists.
Context {A : Type}.
Implicit Types (l : list A) (i j : Z) (x y : A).

Lemma zget_Some l i x : zget l i = Some x <-> 0 <= i /\ l !! Z.to_nat i = Some x.
Proof. unfold zget. destruct (Z.ltb_spec i 0); split; intros E; [discriminate|lia|auto|tauto]. Qed.

Lemma zget_lt l i x : zget l i = Some x -> 0 <= i < Z.of_nat (length l).
Proof. intros E. apply zget_Some in E as [P E]. apply lookup_lt_Some in E. lia. Qed.

Lemma zget_in l i : 0 <= i < Z.of_nat (length l) -> exists x, zget l i = Some x.
Proof. intros B. destruct (lookup_lt_is_Some_2 l (Z.to_nat i)) as [x E]; [lia|]. exists x. now apply zget_Some. Qed.

Lemma zlength_zset l i x : length (zset l i x) = length l.
Proof. apply length_insert. Qed.

Lemma zget_zset_eq l i x : 0 <= i < Z.of_nat (length l) -> zget (zset l i x) i = Some x.
Proof. intros B. apply zget_Some. split; [lia|]. apply list_lookup_insert_eq. lia. Qed.

Lemma zget_zset_ne l i j x : i <> j -> 0 <= i -> zget (zset l i x) j = zget l j.
Proof. intros N P. unfold zget. destruct (Z.ltb_spec j 0); [reflexivity|]. apply list_lookup_insert_ne. lia. Qed.

Lemma zset_id l i x : zget l i = Some x -> zset l i x = l.
Proof. intros E. apply zget_Some in E as [_ E]. now apply list_insert_id. Qed.

(** Two entries that change places. *)
Lemma zswap_perm l i j x y : zget l i = Some x -> zget l j = Some y -> zset (zset l i y) j x ≡ₚ l.
Proof. intros E F. apply zget_Some in E as [P E]. apply zget_Some in F as [Q F]. now apply Permutation_insert_swap. Qed.

Lemma zset_zset l i x y : zset (zset l i x) i y = zset l i y.
Proof. unfold zset. apply list_insert_insert_eq. Qed.

Lemma zset_comm l i j x y : i <> j -> 0 <= i -> 0 <= j -> zset (zset l i x) j y = zset (zset l j y) i x.
Proof. intros N P Q. unfold zset. apply list_insert_insert_ne. lia. Qed.

(** Changes inside a segment. *)
Definition within (lo hi : Z) (l l' : list A) : Prop := l' ≡ₚ l /\ forall i, i < lo \/ hi <= i -> zget l' i = zget l i.

Lemma within_refl lo hi l : within lo hi l l.
Proof. split; [reflexivity|auto]. Qed.
Lemma within_trans lo hi l l1 l2 : within lo hi l l1 -> within lo hi l1 l2 -> within lo hi l l2.
Proof. intros [P F] [P2 F2]. split; [now rewrite P2|]. intros i B. now rewrite F2, F. Qed.
Lemma within_mono lo hi lo' hi' l l' : lo <= lo' -> hi' <= hi -> within lo' hi' l l' -> within lo hi l l'.
Proof. intros L L2 [P F]. split; [exact P|]. intros i B. apply F. lia. Qed.
Lemma within_length lo hi l l' : within lo hi l l' -> length l' = length l.
Proof. intros [P _]. now apply Permutation_length. Qed.

Lemma list_eq_take (n : nat) l l' : length l = length l' -> (forall k, (k < n)%nat -> l !! k = l' !! k) -> take n l = take n l'.
Proof. intros _ E. apply list_eq. intros k. destruct (decide (k < n)%nat) as [B|B]; [rewrite !lookup_take_lt by exact B; now apply E|rewrite !lookup_take_ge by lia; reflexivity]. Qed.
Lemma list_eq_drop (n : nat) l l' : (forall k, (n <= k)%nat -> l !! k = l' !! k) -> drop n l = drop n l'.
Proof. intros E. apply list_eq. intros k. rewrite !lookup_drop. apply E. lia. Qed.

(** An entry of the segment was in the segment before. *)
Lemma within_elem lo hi l l' i x : 0 <= lo -> within lo hi l l' -> lo <= i < hi -> zget l' i = Some x -> exists j, lo <= j < hi /\ zget l j = Some x.
Proof.
  intros P [Pm F] B E. pose proof (Permutation_length Pm) as Ln. set (a := Z.to_nat lo). set (b := Z.to_nat (hi - lo)).
  assert (T : take a l' = take a l). { apply list_eq_take; [exact Ln|]. intros k K. specialize (F (Z.of_nat k) ltac:(lia)). unfold zget in F. destruct (Z.ltb_spec (Z.of_nat k) 0); [lia|]. now rewrite Nat2Z.id in F. }
  assert (D : drop (a + b) l' = drop (a + b) l). { apply list_eq_drop. intros k K. specialize (F (Z.of_nat k) ltac:(lia)). unfold zget in F. destruct (Z.ltb_spec (Z.of_nat k) 0); [lia|]. now rewrite Nat2Z.id in F. }
  assert (S : forall m : list A, m = take a m ++ take b (drop a m) ++ drop (a + b) m) by (intros m; now rewrite <- drop_drop, take_drop, take_drop).
  rewrite (S l), (S l'), T, D in Pm. apply Permutation_app_inv_l in Pm. apply Permutation_app_inv_r in Pm.
  apply zget_Some in E as [Pi E]. assert (I : x ∈ take b (drop a l')). { apply list_elem_of_lookup. exists (Z.to_nat i - a)%nat. rewrite lookup_take_lt, lookup_drop by lia. rewrite <- E. f_equal. lia. }
  rewrite Pm in I. apply list_elem_of_lookup in I as [k I]. assert (K : (k < b)%nat). { destruct (decide (k < b)%nat) as [K|K]; [exact K|]. rewrite lookup_take_ge in I by lia. discriminate. }
  rewrite lookup_take_lt, lookup_drop in I by exact K. exists (Z.of_nat (a + k)). split; [lia|]. apply zget_Some. split; [lia|]. now rewrite Nat2Z.id.
Qed.

End Lists.

(** ** Arrays *)

Section Array.
Context {CEntry : Type}.
Implicit Types (l : list CEntry).

Definition with_rg (a : CArray CEntry) l : CArray CEntry := mkCArray (m_centry a) (m_centryMax a) l (m_entryDefault a) (m_fEntryDefault a) (m_centryGrowth a).

Lemma with_rg_id a : with_rg a (m_rgentry a) = a.
Proof. now destruct a. Qed.

(** The counted entries are in the block, which holds what its capacity says. *)
Definition array_ok (a : CArray CEntry) : Prop :=
  0 <= m_centry a <= m_centryMax a /\ Z.of_nat (length (m_rgentry a)) = m_centryMax a /\ m_centryMax a <= SIZE_MAX /\ 1 <= m_centryGrowth a <= SIZE_MAX.

Definition entries (a : CArray CEntry) : list CEntry := take (Z.to_nat (m_centry a)) (m_rgentry a).

Lemma entries_length a : array_ok a -> Z.of_nat (length (entries a)) = m_centry a.
Proof. intros (B & L & _). unfold entries. rewrite length_take. lia. Qed.

Lemma zget_entries a i : i < m_centry a -> zget (entries a) i = zget (m_rgentry a) i.
Proof. intros B. unfold zget, entries. destruct (Z.ltb_spec i 0); [reflexivity|]. apply lookup_take_lt. lia. Qed.

(** *** What the operations on arrays keep *)

Variable entry0 : CEntry.
Variable new_ok : Z -> bool.

Lemma new_block_length n l : Z.of_nat (length l) <= n -> Z.of_nat (length (new_block entry0 n l)) = n.
Proof. intros B. unfold new_block. rewrite length_app, length_replicate. lia. Qed.

Lemma new_block_take n l : take (length l) (new_block entry0 n l) = l.
Proof. unfold new_block. rewrite take_app_le by lia. apply take_ge. lia. Qed.

Lemma grown_capacity_spec m g c : 0 <= m < c -> c <= SIZE_MAX -> 1 <= g <= SIZE_MAX -> c <= grown_capacity m g c <= SIZE_MAX.
Proof.
  unfold SIZE_MAX, grown_capacity. intros B C G. rewrite (u64_small (c - m - 1)) by lia.
  pose proof (Z.mul_div_le (c - m - 1) g ltac:(lia)) as Dl. pose proof (Z.mul_succ_div_gt (c - m - 1) g ltac:(lia)) as Dg. rewrite Z.mul_comm in Dl.
  pose proof (Z.div_pos (c - m - 1) g ltac:(lia) ltac:(lia)) as Dp. rewrite Z.mul_succ_r in Dg. pose proof (Z.mul_nonneg_nonneg ((c - m - 1) / g) g ltac:(lia) ltac:(lia)) as Dq.
  rewrite (Z.mul_comm g) in Dg. set (q := (c - m - 1) / g * g) in *. clearbody q. rewrite (u64_small (m + q)) by lia. unfold SIZE_MAX. destruct (Z.leb_spec (m + q) (18446744073709551615 - g)); [rewrite u64_small by lia; lia|lia].
Qed.

(** Setting the capacity keeps the entries that fit, or leaves all as it was. *)
Lemma ErrSetCapacity_spec a c : array_ok a -> 0 <= c <= SIZE_MAX ->
  (exists a', ErrSetCapacity entry0 new_ok a c = (Array_errSuccess, a') /\ array_ok a' /\ m_centryMax a' = c /\ m_centry a' = Z.min (m_centry a) c /\ entries a' = take (Z.to_nat c) (entries a) /\
     m_entryDefault a' = m_entryDefault a /\ m_fEntryDefault a' = m_fEntryDefault a) \/
  (ErrSetCapacity entry0 new_ok a c = (Array_errOutOfMemory, a) /\ new_ok c = false /\ c <> m_centryMax a /\ c <> 0).
Proof.
  intros (B & L & M & G) C. unfold ErrSetCapacity. destruct (Z.eqb_spec (m_centryMax a) c) as [E|E]; cbn [negb].
  - left. exists a. split; [reflexivity|]. split; [repeat split; lia|]. split; [exact E|]. split; [lia|]. split; [|auto]. unfold entries. rewrite take_take. f_equal. lia.
  - destruct (Z.eqb_spec c 0) as [->|N]; cbn [negb].
    + left. eexists. split; [reflexivity|]. split; [repeat split; cbn; unfold SIZE_MAX in *; lia|]. cbn. split; [reflexivity|]. split; [lia|]. split; [reflexivity|auto].
    + destruct (new_ok c) eqn:K; cbn [negb]; [|right; auto]. left. eexists. split; [reflexivity|]. set (m := if m_centry a >? c then c else m_centry a). assert (Em : m = Z.min (m_centry a) c) by (unfold m; destruct (Z.gtb_spec (m_centry a) c); lia). clearbody m.
      assert (Lt : Z.of_nat (length (take (Z.to_nat m) (m_rgentry a))) = m) by (rewrite length_take; lia).
      split; [repeat split; cbn; rewrite ?new_block_length by lia; lia|]. cbn. split; [reflexivity|]. split; [exact Em|]. split; [|auto]. unfold entries. cbn. rewrite take_take. replace (Z.to_nat c `min` Z.to_nat (m_centry a))%nat with (Z.to_nat m) by lia.
      etransitivity; [|apply (new_block_take c)]. f_equal. lia.
Qed.

Lemma set_size_spec a c : array_ok a -> m_centry a <= c <= m_centryMax a -> array_ok (set_size a c) /\ m_centry (set_size a c) = c /\ take (Z.to_nat (m_centry a)) (m_rgentry (set_size a c)) = entries a.
Proof.
  intros (B & L & M & G) C. unfold set_size. cbn. destruct (m_fEntryDefault a && (c >? m_centry a)).
  - unfold fill_default. split; [repeat split; cbn; rewrite ?length_app, ?length_take, ?length_replicate, ?length_drop; lia|]. split; [reflexivity|]. rewrite take_app_le by (rewrite length_take; lia). rewrite take_take. unfold entries. f_equal. lia.
  - split; [repeat split; cbn; lia|]. auto.
Qed.

(** Growing an array keeps its entries, or leaves all as it was. *)
Lemma ErrSetSize_spec a c : array_ok a -> m_centry a <= c <= SIZE_MAX ->
  (exists a', ErrSetSize entry0 new_ok a c = (Array_errSuccess, a') /\ array_ok a' /\ m_centry a' = c /\ take (Z.to_nat (m_centry a)) (m_rgentry a') = entries a) \/
  (ErrSetSize entry0 new_ok a c = (Array_errOutOfMemory, a) /\ m_centryMax a < c /\ new_ok (grown_capacity (m_centryMax a) (m_centryGrowth a) c) = false).
Proof.
  intros Ok C. pose proof Ok as (B & L & M & G). unfold ErrSetSize. destruct (Z.ltb_spec (m_centryMax a) c) as [K|K].
  - pose proof (grown_capacity_spec (m_centryMax a) (m_centryGrowth a) c ltac:(lia) ltac:(lia) G) as Bg.
    destruct (ErrSetCapacity_spec a (grown_capacity (m_centryMax a) (m_centryGrowth a) c) Ok ltac:(lia)) as [(a' & -> & Ok' & Em & Ec & Ee & _) | (-> & Nk & _)]; [left|right; auto].
    assert (Es : entries a' = entries a) by (rewrite Ee; apply take_ge; pose proof (entries_length a Ok); lia).
    destruct (set_size_spec a' c Ok' ltac:(lia)) as (Ok2 & E2 & T2). eexists. split; [reflexivity|]. split; [exact Ok2|]. split; [exact E2|]. rewrite <- Es, <- T2. f_equal. lia.
  - left. destruct (set_size_spec a c Ok ltac:(lia)) as (Ok2 & E2 & T2). eexists. split; [reflexivity|auto].
Qed.

End Array.

(** ** Sorting *)

Section Sort.
Context {CKey CEntry : Type} `{KEYENTRY CKey CEntry} {good : CEntry -> Prop} {good_key : CKey -> Prop} `{!KeyEntryLaws CKey CEntry good good_key}.
Abbreviation Cmp := (CmpEntry (CKey := CKey)).
Implicit Types (l : list CEntry) (x y e : CEntry).

Lemma Cmp_refl x : good x -> Cmp x x = 0.
Proof. intros G. pose proof (CmpEntry_anti x x G G). lia. Qed.
Lemma Cmp_gt x y : good x -> good y -> Cmp x y > 0 -> Cmp y x <= 0.
Proof. intros Gx Gy G. apply CmpEntry_anti in G; [lia|assumption..]. Qed.

Variable a : CArray CEntry.
Abbreviation n := (m_centry a).
Hypothesis Hn : 0 <= n < 9223372036854775808.

(** The block holds the counted entries, all of them good. *)
Definition fits l : Prop := n <= Z.of_nat (length l) /\ forall i x, zget l i = Some x -> i < n -> good x.

Lemma fits_len l : fits l -> n <= Z.of_nat (length l).
Proof. now intros [F _]. Qed.
Lemma fits_good l i x : fits l -> zget l i = Some x -> i < n -> good x.
Proof. intros [_ G]. apply G. Qed.

Lemma Entry_get l i : 0 <= i < n -> Entry (with_rg a l) i = zget l i.
Proof. intros B. unfold Entry, PEntry. cbn. assert (E : (i <? n) = true) by (apply Z.ltb_lt; lia). now rewrite E. Qed.

Lemma entry_at l i : fits l -> 0 <= i < n -> exists x, zget l i = Some x.
Proof. intros F B. apply zget_in. pose proof (fits_len l F). lia. Qed.

Lemma set_get' l i e : n <= Z.of_nat (length l) -> 0 <= i < n -> _SetEntry (with_rg a l) i e = Some (with_rg a (zset l i e)).
Proof.
  intros F B. unfold _SetEntry, SetEntry, PEntry. cbn. assert (E : (i <? n) = true) by (apply Z.ltb_lt; lia). rewrite E. cbn.
  assert (E2 : (0 <=? i) && (i <? Z.of_nat (length l)) = true) by (apply andb_true_iff; split; [apply Z.leb_le|apply Z.ltb_lt]; lia). now rewrite E2.
Qed.

Lemma set_get l i e : fits l -> 0 <= i < n -> _SetEntry (with_rg a l) i e = Some (with_rg a (zset l i e)).
Proof. intros F. now apply set_get', fits_len. Qed.

(** [good] for an entry that is in a list that [fits]. *)
Ltac isgood F := eapply (fits_good _ _ _ F); [eassumption|lia].

Lemma fits_zset l i x : fits l -> 0 <= i < n -> good x -> fits (zset l i x).
Proof.
  intros F I G. split; [rewrite zlength_zset; now apply fits_len|]. intros j y E J. destruct (Z.eq_dec i j) as [->|N]; [rewrite zget_zset_eq in E by (pose proof (fits_len l F); lia); congruence|].
  rewrite zget_zset_ne in E by lia. now apply (fits_good l j).
Qed.
Lemma fits_within lo hi l l' : fits l -> 0 <= lo -> hi <= n -> within lo hi l l' -> fits l'.
Proof.
  intros F L B W. split; [rewrite (within_length _ _ _ _ W); now apply fits_len|]. intros i x E I. destruct (decide (lo <= i < hi)) as [J|J].
  - destruct (within_elem lo hi l l' i x L W J E) as (j & Bj & Ej). apply (fits_good l j); [exact F|exact Ej|lia].
  - destruct W as [_ Fr]. rewrite Fr in E by lia. now apply (fits_good l i).
Qed.

Lemma swap_get l i j x y : fits l -> 0 <= i < n -> 0 <= j < n -> zget l i = Some x -> zget l j = Some y -> _SwapEntry (with_rg a l) i j = Some (with_rg a (zset (zset l i y) j x)).
Proof. intros F Bi Bj E1 E2. unfold _SwapEntry. rewrite !Entry_get, E1, E2 by assumption. rewrite set_get by assumption. apply set_get; [apply fits_zset; [exact F|exact Bi|isgood F]|exact Bj]. Qed.

Lemma swap_within lo hi l i j x y : fits l -> lo <= i < hi -> lo <= j < hi -> 0 <= lo -> zget l i = Some x -> zget l j = Some y -> within lo hi l (zset (zset l i y) j x).
Proof. intros F Bi Bj P E1 E2. split; [now apply zswap_perm|]. intros k B. rewrite !zget_zset_ne by lia. reflexivity. Qed.

(** *** Insertion sort *)

Definition sorted_in (lo hi : Z) l : Prop := forall i j x y, lo <= i -> i < j -> j < hi -> zget l i = Some x -> zget l j = Some y -> Cmp x y <= 0.

(** What the inner loop leaves: the entries above the key moved up by one, the
    hole at [g]. *)
Lemma insert_loop_spec fuel l lo f key : fits l -> 0 <= lo <= f -> f < n -> (Z.to_nat (f - lo) < fuel)%nat ->
  exists l' g, insert_loop (CKey := CKey) fuel (with_rg a l) lo f key = Some (with_rg a l', u64 (g - 1)) /\ lo <= g <= f /\ length l' = length l /\ zset l' g key ≡ₚ zset l f key /\
    (forall i, i < g \/ f < i -> zget l' i = zget l i) /\ (forall i, g < i <= f -> zget l' i = zget l (i - 1) /\ forall x, zget l (i - 1) = Some x -> Cmp x key > 0) /\
    (g = lo \/ forall x, zget l (g - 1) = Some x -> Cmp x key <= 0).
Proof.
  revert l f. induction fuel as [|fuel IH]; intros l f F L Bf Fu; [lia|]. cbn [insert_loop]. rewrite (u64_small (lo + 1)) by lia.
  assert (Stop : (f = lo \/ forall x, zget l (f - 1) = Some x -> Cmp x key <= 0) -> exists l' g, Some (with_rg a l, u64 (f - 1)) = Some (with_rg a l', u64 (g - 1)) /\ lo <= g <= f /\ length l' = length l /\ zset l' g key ≡ₚ zset l f key /\
    (forall i, i < g \/ f < i -> zget l' i = zget l i) /\ (forall i, g < i <= f -> zget l' i = zget l (i - 1) /\ forall x, zget l (i - 1) = Some x -> Cmp x key > 0) /\ (g = lo \/ forall x, zget l (g - 1) = Some x -> Cmp x key <= 0)).
  { intros X. exists l, f. split; [reflexivity|]. split; [lia|]. split; [reflexivity|]. split; [reflexivity|]. split; [auto|]. split; [intros i B; lia|exact X]. }
  destruct (Z.leb_spec (lo + 1) f) as [G|G]; [|apply Stop; left; lia]. rewrite (u64_small (f - 1)) in * by lia. rewrite Entry_get by lia. destruct (entry_at l (f - 1) F ltac:(lia)) as [x Ex]. rewrite Ex.
  destruct (Z.gtb_spec (Cmp x key) 0) as [C|C]; [|apply Stop; right; intros y Ey; rewrite Ex in Ey; injection Ey as <-; exact C]. clear Stop. rewrite (u64_small (f - 1 + 1)) by lia. replace (f - 1 + 1) with f by lia. rewrite set_get by (auto; lia).
  destruct (IH (zset l f x) (f - 1) ltac:(apply fits_zset; [exact F|lia|isgood F]) ltac:(lia) ltac:(lia) ltac:(lia)) as (l' & g & -> & Bg & Ln & Pm & Out & Mid & Bot). exists l', g. split; [reflexivity|]. split; [lia|]. rewrite zlength_zset in Ln. split; [exact Ln|].
  pose proof (fits_len l F). split; [|split; [|split]].
  - rewrite Pm. rewrite <- (zswap_perm (zset l f key) f (f - 1) key x); [|apply zget_zset_eq; lia|rewrite zget_zset_ne by lia; exact Ex]. now rewrite zset_zset.
  - intros i B. rewrite Out by lia. apply zget_zset_ne; lia.
  - intros i B. destruct (Z.eq_dec i f) as [->|N].
    + rewrite Out by lia. rewrite zget_zset_eq by lia. split; [now rewrite Ex|]. intros y Ey. rewrite Ex in Ey. injection Ey as <-. lia.
    + destruct (Mid i ltac:(lia)) as [M1 M2]. rewrite !zget_zset_ne in * by lia. split; [exact M1|exact M2].
  - destruct Bot as [E|Bot]; [now left|right]. intros y Ey. apply Bot. rewrite zget_zset_ne by lia. exact Ey.
Qed.

(** One turn of the outer loop. *)
Lemma insert_one inner l lo k x key : fits l -> 0 <= lo <= k -> k + 1 < n -> (Z.to_nat (k - lo) < inner)%nat -> zget l k = Some x -> zget l (k + 1) = Some key -> Cmp x key > 0 -> sorted_in lo (k + 1) l ->
  exists l', (let? b := _SetEntry (with_rg a l) (k + 1) x in let? (b, first) := insert_loop (CKey := CKey) inner b lo k key in _SetEntry b (u64 (first + 1)) key) = Some (with_rg a l') /\ within lo (k + 2) l l' /\ sorted_in lo (k + 2) l'.
Proof.
  intros F L B Fu Ex Ek C S. rewrite set_get by (auto; lia). pose proof (fits_len l F). assert (Fx : fits (zset l (k + 1) x)) by (apply fits_zset; [exact F|lia|isgood F]). destruct (insert_loop_spec inner (zset l (k + 1) x) lo k key Fx L ltac:(lia) Fu) as (l' & g & -> & Bg & Ln & Pm & Out & Mid & Bot).
  rewrite zlength_zset in Ln. replace (u64 (u64 (g - 1) + 1)) with g by (unfold u64; rewrite Z.add_mod_idemp_l by lia; replace (g - 1 + 1) with g by lia; rewrite Z.mod_small; lia).
  rewrite set_get' by lia. exists (zset l' g key). split; [reflexivity|].
  assert (At : forall i, zget (zset l' g key) i = if i <? g then zget l i else if i =? g then Some key else if i <=? k + 1 then zget l (i - 1) else zget l i).
  { intros i. destruct (Z.ltb_spec i g) as [I|I]; [rewrite zget_zset_ne, Out, zget_zset_ne by lia; reflexivity|]. destruct (Z.eqb_spec i g) as [->|N]; [apply zget_zset_eq; lia|]. rewrite zget_zset_ne by lia.
    destruct (Z.leb_spec i (k + 1)) as [J|J]; [|rewrite Out, zget_zset_ne by lia; reflexivity]. destruct (Z.eq_dec i (k + 1)) as [->|N2].
    - rewrite Out, zget_zset_eq by lia. replace (k + 1 - 1) with k by lia. now rewrite Ex.
    - destruct (Mid i ltac:(lia)) as [M _]. rewrite M. apply zget_zset_ne; lia. }
  assert (High : forall i y, g < i <= k + 1 -> zget l (i - 1) = Some y -> Cmp y key > 0).
  { intros i y I Ey. destruct (Z.eq_dec i (k + 1)) as [->|N]; [replace (k + 1 - 1) with k in Ey by lia; congruence|]. apply (Mid i); [lia|]. rewrite zget_zset_ne by lia. exact Ey. }
  assert (Low : forall i y, lo <= i < g -> zget l i = Some y -> Cmp y key <= 0).
  { intros i y I Ey. destruct Bot as [->|Bot]; [lia|]. destruct (zget_in l (g - 1) ltac:(lia)) as [z Ez]. specialize (Bot z ltac:(rewrite zget_zset_ne by lia; exact Ez)). destruct (Z.eq_dec i (g - 1)) as [->|N]; [congruence|].
    apply CmpEntry_trans with z; [isgood F|isgood F|isgood F| |exact Bot]. apply (S i (g - 1)); auto; lia. }
  split; [split|].
  - rewrite Pm. rewrite (zset_comm l (k + 1) k) by lia. apply zswap_perm; assumption.
  - intros i I. rewrite At. destruct (Z.ltb_spec i g), (Z.eqb_spec i g), (Z.leb_spec i (k + 1)); try reflexivity; lia.
  - intros i j y z Bi Bij Bj Ey Ez. rewrite At in Ey, Ez. destruct (Z.ltb_spec i g) as [I|I].
    + destruct (Z.ltb_spec j g) as [J|J]; [apply (S i j); auto; lia|]. destruct (Z.eqb_spec j g) as [->|N]; [injection Ez as <-; now apply (Low i)|]. destruct (Z.leb_spec j (k + 1)); [|lia]. apply (S i (j - 1)); auto; lia.
    + destruct (Z.ltb_spec j g); [lia|]. destruct (Z.eqb_spec j g); [lia|]. destruct (Z.leb_spec j (k + 1)); [|lia]. destruct (Z.eqb_spec i g) as [->|N]; [injection Ey as <-; apply Cmp_gt; [isgood F|isgood F|now apply (High j)]|].
      destruct (Z.leb_spec i (k + 1)); [|lia]. apply (S (i - 1) (j - 1)); auto; lia.
Qed.

Lemma insertion_loop_spec inner fuel l lo hi k : fits l -> 0 <= lo <= k -> k <= n -> hi <= n -> (Z.to_nat (hi - lo) <= inner)%nat -> (Z.to_nat (hi - k) < fuel)%nat -> sorted_in lo (k + 1) l ->
  exists l', insertion_loop (CKey := CKey) inner fuel (with_rg a l) lo hi k (u64 (k + 1)) = Some (with_rg a l') /\ (k + 1 <= hi -> within lo hi l l') /\ (hi < k + 1 -> l' = l) /\ sorted_in lo hi l'.
Proof.
  revert l k. induction fuel as [|fuel IH]; intros l k F L Bk Bh Fi Fu S; [lia|]. cbn [insertion_loop]. destruct (Z_lt_le_dec (k + 1) hi) as [G|G].
  - rewrite (u64_small (k + 1)) by lia. destruct (Z.ltb_spec (k + 1) hi) as [_|?]; [|lia]. rewrite !Entry_get by lia. destruct (entry_at l k F ltac:(lia)) as [x Ex]. destruct (entry_at l (k + 1) F ltac:(lia)) as [y Ey]. rewrite Ex, Ey.
    assert (Step : exists l1, (if Cmp x y >? 0 then let? b := _SetEntry (with_rg a l) (k + 1) x in let? (b, first) := insert_loop (CKey := CKey) inner b lo k y in _SetEntry b (u64 (first + 1)) y else Some (with_rg a l)) = Some (with_rg a l1) /\ within lo hi l l1 /\ sorted_in lo (k + 2) l1).
    { destruct (Z.gtb_spec (Cmp x y) 0) as [C|C].
      - destruct (insert_one inner l lo k x y F L ltac:(lia) ltac:(lia) Ex Ey ltac:(lia) S) as (l1 & E & W & S1). exists l1. split; [exact E|]. split; [apply within_mono with (3 := W); lia|exact S1].
      - exists l. split; [reflexivity|]. split; [apply within_refl|]. intros i j u v Bi Bij Bj Eu Ev. destruct (Z.eq_dec j (k + 1)) as [->|N]; [|apply (S i j); auto; lia]. rewrite Ey in Ev. injection Ev as <-.
        destruct (Z.eq_dec i k) as [->|N]; [congruence|]. apply CmpEntry_trans with x; [isgood F|isgood F|isgood F| |exact C]. apply (S i k); auto; lia. }
    destruct Step as (l1 & -> & W & S1). destruct (IH l1 (k + 1) (fits_within lo hi _ _ F ltac:(lia) ltac:(lia) W) ltac:(lia) ltac:(lia) Bh Fi ltac:(lia) ltac:(now replace (k + 1 + 1) with (k + 2) by lia)) as (l' & E & W2 & W3 & S2). exists l'. split; [exact E|]. split; [|split; [lia|exact S2]].
    intros _. destruct (Z_lt_le_dec hi (k + 1 + 1)) as [J|J]; [rewrite (W3 J); exact W|]. now apply within_trans with l1; [exact W|apply W2].
  - assert (E : (u64 (k + 1) <? hi) = false) by (apply Z.ltb_ge; rewrite u64_small; lia).
    rewrite E. exists l. split; [reflexivity|]. split; [intros _; apply within_refl|]. split; [auto|]. intros i j u v Bi Bij Bj. apply S; lia.
Qed.

Lemma InsertionSort_spec fuel l lo hi : fits l -> 0 <= lo <= hi -> hi <= n -> (Z.to_nat (hi - lo) < fuel)%nat ->
  exists l', _InsertionSort (CKey := CKey) fuel (with_rg a l) lo hi = Some (with_rg a l') /\ within lo hi l l' /\ sorted_in lo hi l'.
Proof.
  intros F L B Fu. unfold _InsertionSort. destruct (insertion_loop_spec fuel fuel l lo hi lo F ltac:(lia) ltac:(lia) B ltac:(lia) Fu) as (l' & E & W & W0 & S); [intros i j x y; lia|].
  exists l'. split; [exact E|]. split; [|exact S]. destruct (Z_lt_le_dec hi (lo + 1)) as [J|J]; [rewrite (W0 J); apply within_refl|now apply W].
Qed.

(** *** Quicksort *)

Lemma order_two_spec l lo hi i j : fits l -> 0 <= lo -> hi <= n -> lo <= i < hi -> lo <= j < hi -> exists l', order_two (CKey := CKey) (with_rg a l) i j = Some (with_rg a l') /\ within lo hi l l'.
Proof.
  intros F L B Bi Bj. unfold order_two. rewrite !Entry_get by lia. destruct (entry_at l i F ltac:(lia)) as [x Ex]. destruct (entry_at l j F ltac:(lia)) as [y Ey]. rewrite Ex, Ey. destruct (Cmp x y >? 0).
  - rewrite (swap_get l i j x y) by (auto; lia). eexists. split; [reflexivity|]. now apply swap_within.
  - exists l. split; [reflexivity|apply within_refl].
Qed.

Lemma advance_first_spec fuel l lo first last d : fits l -> 0 <= lo < n -> lo <= first -> last < n -> first <= last + 1 -> 0 <= last + 1 -> zget l lo = Some d -> (Z.to_nat (last + 1 - first) < fuel)%nat ->
  exists first', advance_first (CKey := CKey) fuel (with_rg a l) lo first last = Some first' /\ first <= first' <= last + 1 /\
    (forall i x, first <= i < first' -> zget l i = Some x -> Cmp x d <= 0) /\ (first' <= last -> forall x, zget l first' = Some x -> Cmp x d > 0).
Proof.
  revert first. induction fuel as [|fuel IH]; intros first F L Bf Bl Fl Lp Ed Fu; [lia|]. cbn [advance_first]. destruct (Z.leb_spec first last) as [G|G].
  - rewrite !Entry_get by lia. destruct (entry_at l first F ltac:(lia)) as [x Ex]. rewrite Ex, Ed. destruct (Z.leb_spec (Cmp x d) 0) as [C|C].
    + rewrite u64_small by lia. destruct (IH (first + 1) F L ltac:(lia) Bl ltac:(lia) Lp Ed ltac:(lia)) as (f' & -> & B & X & Y). exists f'. split; [reflexivity|]. split; [lia|]. split; [|exact Y]. intros i u Bi Eu. destruct (Z.eq_dec i first) as [->|N]; [congruence|]. apply (X i); [lia|exact Eu].
    + exists first. split; [reflexivity|]. split; [lia|]. split; [intros i u Bi; lia|]. intros _ u Eu. rewrite Ex in Eu. injection Eu as <-. lia.
  - exists first. split; [reflexivity|]. split; [lia|]. split; [intros i u Bi; lia|lia].
Qed.

Lemma advance_last_spec fuel l lo first last d : fits l -> 0 <= lo < n -> lo < first -> last < n -> first <= last + 1 -> zget l lo = Some d -> (Z.to_nat (last + 1 - first) < fuel)%nat ->
  exists last', advance_last (CKey := CKey) fuel (with_rg a l) lo first last = Some last' /\ first - 1 <= last' <= last /\
    (forall i x, last' < i <= last -> zget l i = Some x -> Cmp x d > 0) /\ (first <= last' -> forall x, zget l last' = Some x -> Cmp x d <= 0).
Proof.
  revert last. induction fuel as [|fuel IH]; intros last F L Bf Bl Fl Ed Fu; [lia|]. cbn [advance_last]. destruct (Z.leb_spec first last) as [G|G].
  - rewrite !Entry_get by lia. destruct (entry_at l last F ltac:(lia)) as [x Ex]. rewrite Ex, Ed. destruct (Z.gtb_spec (Cmp x d) 0) as [C|C].
    + rewrite u64_small by lia. destruct (IH (last - 1) F L Bf ltac:(lia) ltac:(lia) Ed ltac:(lia)) as (f' & -> & B & X & Y). exists f'. split; [reflexivity|]. split; [lia|]. split; [|exact Y]. intros i u Bi Eu. destruct (Z.eq_dec i last) as [->|N]; [rewrite Ex in Eu; injection Eu as <-; lia|]. apply (X i); [lia|exact Eu].
    + exists last. split; [reflexivity|]. split; [lia|]. split; [intros i u Bi; lia|]. intros _ u Eu. rewrite Ex in Eu. injection Eu as <-. exact C.
  - exists last. split; [reflexivity|]. split; [lia|]. split; [intros i u Bi; lia|lia].
Qed.

(** The partition around [d], the first entry of the segment. *)
Definition parted (lo hi first last : Z) (d : CEntry) l : Prop :=
  (forall i x, lo <= i < first -> zget l i = Some x -> Cmp x d <= 0) /\ (forall i x, last < i < hi -> zget l i = Some x -> Cmp x d > 0).

Lemma partition_loop_spec fuel l lo hi first last d : fits l -> 0 <= lo -> hi <= n -> lo <= first -> lo <= last < hi -> first <= last -> zget l lo = Some d -> parted lo hi first last d l -> (Z.to_nat (last + 1 - first) < fuel)%nat ->
  exists l' first', partition_loop (CKey := CKey) fuel (with_rg a l) lo first last = Some (with_rg a l', first', first' - 1) /\ within lo hi l l' /\ lo < first' <= last + 1 /\ zget l' lo = Some d /\ parted lo hi first' (first' - 1) d l'.
Proof.
  revert l first last. induction fuel as [|fuel IH]; intros l first last F P Bh Bf Bl Le Ed [Lo Hi] Fu; [lia|]. cbn [partition_loop].
  destruct (advance_first_spec (S fuel) l lo first last d F ltac:(lia) Bf ltac:(lia) ltac:(lia) ltac:(lia) Ed Fu) as (f1 & -> & B1 & X1 & Y1).
  assert (Nf : lo < f1). { destruct (Z_lt_le_dec lo f1) as [G|G]; [exact G|]. assert (f1 = lo) by lia. subst f1. specialize (Y1 ltac:(lia) d Ed). rewrite Cmp_refl in Y1 by (isgood F). lia. }
  destruct (advance_last_spec (S fuel) l lo f1 last d F ltac:(lia) Nf ltac:(lia) ltac:(lia) Ed ltac:(lia)) as (l1 & -> & B2 & X2 & Y2).
  assert (Low : forall i x, lo <= i < f1 -> zget l i = Some x -> Cmp x d <= 0) by (intros i x Bi Ex; destruct (Z_lt_le_dec i first); [apply (Lo i)|apply (X1 i)]; first [lia|exact Ex]).
  assert (High : forall i x, l1 < i < hi -> zget l i = Some x -> Cmp x d > 0) by (intros i x Bi Ex; destruct (Z_le_gt_dec i last); [apply (X2 i)|apply (Hi i)]; first [lia|exact Ex]).
  destruct (Z.ltb_spec f1 l1) as [G|G].
  - destruct (entry_at l f1 F ltac:(lia)) as [x Ex]. destruct (entry_at l l1 F ltac:(lia)) as [y Ey]. rewrite (swap_get l f1 l1 x y) by (auto; lia). rewrite !u64_small by lia. set (l2 := zset (zset l f1 y) l1 x).
    assert (W : within lo hi l l2) by (apply swap_within; auto; lia). pose proof (Y1 ltac:(lia) x Ex) as Cx. pose proof (Y2 ltac:(lia) y Ey) as Cy. pose proof (fits_len l F).
    assert (At : forall i, i <> f1 -> i <> l1 -> zget l2 i = zget l i) by (intros i N1 N2; unfold l2; rewrite !zget_zset_ne by lia; reflexivity).
    assert (Ef : zget l2 f1 = Some y) by (unfold l2; rewrite zget_zset_ne, zget_zset_eq by lia; reflexivity). assert (El : zget l2 l1 = Some x) by (unfold l2; apply zget_zset_eq; rewrite zlength_zset; lia).
    assert (Pt : parted lo hi (f1 + 1) (l1 - 1) d l2).
    { split; intros i z Bi Ez; [destruct (Z.eq_dec i f1) as [->|N]; [congruence|]; rewrite At in Ez by lia; apply (Low i); [lia|exact Ez]|]. destruct (Z.eq_dec i l1) as [->|N]; [congruence|]. rewrite At in Ez by lia. apply (High i); [lia|exact Ez]. }
    assert (Ed2 : zget l2 lo = Some d) by (rewrite At by lia; exact Ed). destruct (Z.leb_spec (f1 + 1) (l1 - 1)) as [J|J].
    + destruct (IH l2 (f1 + 1) (l1 - 1) (fits_within lo hi _ _ F ltac:(lia) ltac:(lia) W) P Bh ltac:(lia) ltac:(lia) J Ed2 Pt ltac:(lia)) as (l' & f' & E & W2 & B & E3 & P3). exists l', f'. split; [exact E|]. split; [now apply within_trans with l2|]. split; [lia|]. split; [exact E3|exact P3].
    + exists l2, (f1 + 1). replace (l1 - 1) with (f1 + 1 - 1) in * by lia. split; [reflexivity|]. split; [exact W|]. split; [lia|]. split; [exact Ed2|exact Pt].
  - assert (Ne : f1 <> l1). { intros ->. destruct (entry_at l l1 F ltac:(lia)) as [x Ex]. pose proof (Y1 ltac:(lia) x Ex). pose proof (Y2 ltac:(lia) x Ex). lia. }
    destruct (Z.leb_spec f1 l1) as [J|J]; [lia|]. exists l, f1. replace l1 with (f1 - 1) in * by lia. split; [reflexivity|]. split; [apply within_refl|]. split; [lia|]. split; [exact Ed|split; [exact Low|exact High]].
Qed.

(** The entries of [lo, cut) at most [d], the last of them [d] itself; those of
    [cut, hi) above [d]. *)
Definition cut_at (lo hi cut : Z) l : Prop := lo < cut <= hi /\ exists d, zget l (cut - 1) = Some d /\ parted lo hi cut (cut - 1) d l.

Lemma split_partition_spec l lo hi : fits l -> 0 <= lo < hi -> hi <= n ->
  exists l' cut, split_partition (CKey := CKey) (Z.to_nat n + 1) (with_rg a l) lo hi = Some (with_rg a l', cut, cut - 1) /\ within lo hi l l' /\ cut_at lo hi cut l'.
Proof.
  intros F B Bh. unfold split_partition. rewrite !(u64_small (hi - _)) by lia. pose proof (Z.div_lt_upper_bound (hi - lo) 2 (hi - lo) ltac:(lia) ltac:(lia)) as U. pose proof (Z.div_pos (hi - lo) 2 ltac:(lia) ltac:(lia)) as U0.
  rewrite u64_small by lia. set (mid := lo + (hi - lo) / 2) in *. assert (Bm : lo <= mid < hi) by lia. clearbody mid.
  destruct (order_two_spec l lo hi lo mid F ltac:(lia) Bh ltac:(lia) Bm) as (l1 & -> & W1). pose proof (fits_within lo hi _ _ F ltac:(lia) ltac:(lia) W1) as F1.
  destruct (order_two_spec l1 lo hi lo (hi - 1) F1 ltac:(lia) Bh ltac:(lia) ltac:(lia)) as (l2 & -> & W2). pose proof (fits_within lo hi _ _ F1 ltac:(lia) ltac:(lia) W2) as F2.
  destruct (order_two_spec l2 lo hi mid (hi - 1) F2 ltac:(lia) Bh Bm ltac:(lia)) as (l3 & -> & W3). pose proof (fits_within lo hi _ _ F2 ltac:(lia) ltac:(lia) W3) as F3.
  destruct (entry_at l3 lo F3 ltac:(lia)) as [d Ed].
  destruct (partition_loop_spec (Z.to_nat n + 1) l3 lo hi lo (hi - 1) d F3) as (l4 & cut & -> & W4 & Bc & Ed4 & Lo & Hi); [lia|lia|lia|lia|lia|exact Ed|split; intros i x Bi; lia|lia|].
  pose proof (fits_within lo hi _ _ F3 ltac:(lia) ltac:(lia) W4) as F4. destruct (entry_at l4 (cut - 1) F4 ltac:(lia)) as [y Ey]. rewrite (swap_get l4 lo (cut - 1) d y) by (auto; lia).
  assert (W5 : within lo hi l4 (zset (zset l4 lo y) (cut - 1) d)) by (apply swap_within; auto; lia). eexists _, cut. split; [reflexivity|].
  split; [now apply within_trans with l4; [apply within_trans with l3; [apply within_trans with l2; [apply within_trans with l1|]|]|]|].
  pose proof (fits_len l4 F4). split; [lia|]. exists d. split; [apply zget_zset_eq; rewrite zlength_zset; lia|]. split; intros i x Bi Ex.
  - destruct (Z.eq_dec i (cut - 1)) as [->|N1]; [rewrite zget_zset_eq in Ex by (rewrite zlength_zset; lia); injection Ex as <-; rewrite Cmp_refl; [lia|isgood F3]|]. rewrite zget_zset_ne in Ex by lia.
    destruct (Z.eq_dec i lo) as [->|N2]; [rewrite zget_zset_eq in Ex by lia; injection Ex as <-; apply (Lo (cut - 1)); [lia|exact Ey]|]. rewrite zget_zset_ne in Ex by lia. apply (Lo i); [lia|exact Ex].
  - rewrite !zget_zset_ne in Ex by lia. apply (Hi i); [lia|exact Ex].
Qed.

(** Segments sorted one after another. *)
Fixpoint sorts (segs : list (Z * Z)) l l' : Prop :=
  match segs with [] => l' = l | (lo, hi) :: segs => exists l1, within lo hi l l1 /\ sorted_in lo hi l1 /\ sorts segs l1 l' end.

Lemma sorts_app s1 s2 l l' : sorts (s1 ++ s2) l l' <-> exists l1, sorts s1 l l1 /\ sorts s2 l1 l'.
Proof.
  revert l. induction s1 as [|[lo hi] s1 IH]; intros l; cbn.
  - split; [intros E; exists l; auto|now intros (? & -> & E)].
  - split.
    + intros (l1 & W & S & R). apply IH in R as (l2 & R1 & R2). exists l2. split; [exists l1; auto|exact R2].
    + intros (l2 & (l1 & W & S & R1) & R2). exists l1. split; [exact W|]. split; [exact S|]. apply IH. exists l2. auto.
Qed.

(** What holds of every entry of a segment holds after it changed inside. *)
Lemma within_all lo hi l l' (P : CEntry -> Prop) : 0 <= lo -> within lo hi l l' -> (forall i x, lo <= i < hi -> zget l i = Some x -> P x) -> forall i x, lo <= i < hi -> zget l' i = Some x -> P x.
Proof. intros L W A i x B E. destruct (within_elem lo hi l l' i x L W B E) as (j & Bj & Ej). now apply (A j). Qed.

(** Both sides of a cut sorted, in whichever order, the segment is. *)
Lemma sorted_join lo hi m d l : fits l -> good d -> 0 <= lo <= m -> m <= hi -> hi <= n -> sorted_in lo m l -> sorted_in m hi l -> (forall i x, lo <= i < m -> zget l i = Some x -> Cmp x d <= 0) -> (forall i x, m <= i < hi -> zget l i = Some x -> Cmp d x <= 0) -> sorted_in lo hi l.
Proof.
  intros F Gd B B2 Bn S1 S2 A1 A2 i j x y Bi Bij Bj Ex Ey. destruct (Z_lt_le_dec j m) as [J|J]; [apply (S1 i j); auto|]. destruct (Z_le_gt_dec m i) as [I|I]; [apply (S2 i j); auto|].
  apply CmpEntry_trans with d; [isgood F|exact Gd|isgood F|apply (A1 i)|apply (A2 j)]; auto; lia.
Qed.

Lemma sorted_in_frame lo hi lo' hi' l l' : hi <= lo' \/ hi' <= lo -> within lo' hi' l l' -> sorted_in lo hi l -> sorted_in lo hi l'.
Proof. intros D [_ F] S i j x y Bi Bij Bj Ex Ey. rewrite F in Ex, Ey by lia. apply (S i j); auto. Qed.

(** Sorting both sides of a cut sorts the segment. *)
Lemma sorts_two lo hi m d l l' : fits l -> good d -> hi <= n -> 0 <= lo <= m -> m <= hi -> (forall i x, lo <= i < m -> zget l i = Some x -> Cmp x d <= 0) -> (forall i x, m <= i < hi -> zget l i = Some x -> Cmp d x <= 0) ->
  sorts [(lo, m); (m, hi)] l l' \/ sorts [(m, hi); (lo, m)] l l' -> within lo hi l l' /\ sorted_in lo hi l'.
Proof.
  intros F Gd Bn B1 B2 A1 A2 R. assert (G : exists lo1 hi1 lo2 hi2 l1, within lo1 hi1 l l1 /\ within lo2 hi2 l1 l' /\ (True /\ lo1 = m /\ hi1 = hi /\ lo2 = lo /\ hi2 = m \/ True /\ lo1 = lo /\ hi1 = m /\ lo2 = m /\ hi2 = hi) /\ sorted_in lo1 hi1 l1 /\ sorted_in lo2 hi2 l').
  { destruct R as [R|R]; cbn in R; destruct R as (l1 & W1 & S1 & l2 & W2 & S2 & ->); eexists _, _, _, _, l1; (split; [exact W1|]); (split; [exact W2|]); (split; [|split; [exact S1|exact S2]]); auto 10. }
  destruct G as (lo1 & hi1 & lo2 & hi2 & l1 & W1 & W2 & C & S1 & S2).
  assert (W : within lo hi l l') by (apply within_trans with l1; [apply within_mono with (3 := W1)|apply within_mono with (3 := W2)]; lia).
  assert (Wa : forall i x, lo <= i < m -> zget l' i = Some x -> Cmp x d <= 0).
  { destruct C as [(_ & -> & -> & -> & ->) | (_ & -> & -> & -> & ->)].
    - apply (within_all lo m l1); [lia|exact W2|]. intros i x Bi Ex. destruct W1 as [_ Fr]. rewrite Fr in Ex by lia. now apply (A1 i).
    - intros i x Bi Ex. destruct W2 as [_ Fr]. rewrite Fr in Ex by lia. revert i x Bi Ex. apply (within_all lo m l); [lia|exact W1|exact A1]. }
  assert (Wb : forall i x, m <= i < hi -> zget l' i = Some x -> Cmp d x <= 0).
  { destruct C as [(_ & -> & -> & -> & ->) | (_ & -> & -> & -> & ->)].
    - intros i x Bi Ex. destruct W2 as [_ Fr]. rewrite Fr in Ex by lia. revert i x Bi Ex. apply (within_all m hi l); [lia|exact W1|exact A2].
    - apply (within_all m hi l1); [lia|exact W2|]. intros i x Bi Ex. destruct W1 as [_ Fr]. rewrite Fr in Ex by lia. now apply (A2 i). }
  split; [exact W|]. apply (sorted_join lo hi m d); [now apply (fits_within lo hi l)|exact Gd|lia|lia|exact Bn| | |exact Wa|exact Wb]; destruct C as [(_ & -> & -> & -> & ->) | (_ & -> & -> & -> & ->)];
    first [exact S2|eapply sorted_in_frame; [|exact W2|exact S1]; lia].
Qed.

(** The sub-partitions: the one that is sorted first, and the other. *)
Lemma sub_partitions_spec lo hi cut l l1 : fits l -> 0 <= lo -> hi <= n -> cut_at lo hi cut l -> 2 <= hi - lo ->
  exists (s1 s2 e1 e2 : Z), sub_partitions lo hi cut (cut - 1) = ((s1, e1), (s2, e2)) /\ lo <= s1 < e1 /\ e1 <= hi /\ lo <= s2 < e2 /\ e2 <= hi /\ (e1 - s1) + (e2 - s2) = hi - lo /\
    (sorts [(s1, e1); (s2, e2)] l l1 \/ sorts [(s2, e2); (s1, e1)] l l1 -> within lo hi l l1 /\ sorted_in lo hi l1).
Proof.
  intros F L Bh [B (d & Ed & Lo & Hi)] Len. assert (Gd : good d) by (isgood F). unfold sub_partitions. rewrite !u64_small by lia.
  assert (Hi' : forall i x, cut <= i < hi -> zget l i = Some x -> Cmp d x <= 0) by (intros i x Bi Ex; apply Cmp_gt; [isgood F|exact Gd|]; apply (Hi i); [lia|exact Ex]).
  destruct (Z.eqb_spec (hi - cut) 0) as [E|E].
  - eexists _, _, _, _. split; [reflexivity|]. do 5 (split; [lia|]). intros R. apply (sorts_two lo hi (cut - 1) d l l1); [exact F|exact Gd|exact Bh|lia|lia| | |tauto].
    + intros i x Bi. apply (Lo i). lia.
    + intros i x Bi Ex. assert (i = cut - 1) by lia. subst i. rewrite Ed in Ex. injection Ex as <-. rewrite Cmp_refl by exact Gd. lia.
  - destruct (_ >? _); eexists _, _, _, _; (split; [reflexivity|]); do 5 (split; [lia|]); intros R; apply (sorts_two lo hi cut d l l1); first [lia|assumption|tauto].
Qed.

(** The turns that a segment takes. *)
Definition turns (seg : Z * Z) : Z := Z.max 1 (2 * (seg.2 - seg.1) - 1).
Fixpoint all_turns (segs : list (Z * Z)) : Z := match segs with [] => 0 | s :: segs => turns s + all_turns segs end.
Definition seg_ok (seg : Z * Z) : Prop := 0 <= seg.1 <= seg.2 /\ seg.2 <= n.

Lemma all_turns_pos segs : 0 <= all_turns segs.
Proof. induction segs as [|s segs IH]; cbn [all_turns]; unfold turns; lia. Qed.

Lemma all_turns_cons lo hi segs : all_turns ((lo, hi) :: segs) = Z.max 1 (2 * (hi - lo) - 1) + all_turns segs.
Proof. reflexivity. Qed.

Lemma quick_loop_spec fuel l rg lo hi : fits l -> Forall seg_ok ((lo, hi) :: rg) -> (Z.to_nat (all_turns ((lo, hi) :: rg)) <= fuel)%nat ->
  exists l', quick_loop (CKey := CKey) fuel (with_rg a l) rg lo hi = Some (with_rg a l') /\ fits l' /\ sorts ((lo, hi) :: rg) l l'.
Proof.
  revert l rg lo hi. induction fuel as [|fuel IH]; intros l rg lo hi F Ok Fu; rewrite all_turns_cons in Fu; pose proof (all_turns_pos rg) as Tp; [lia|].
  inversion Ok as [|? ? [Ok1 Ok2] OkR]; subst. cbn in Ok1, Ok2. cbn [quick_loop]. rewrite (u64_small (hi - lo)) by lia. unfold ckeyentryMin. destruct (Z.ltb_spec (hi - lo) 32) as [G|G].
  - destruct (InsertionSort_spec (Z.to_nat 32) l lo hi F ltac:(lia) Ok2 ltac:(lia)) as (l1 & -> & W & S). pose proof (fits_within lo hi _ _ F ltac:(lia) ltac:(lia) W) as F1. destruct rg as [|[lo2 hi2] rg].
    + exists l1. split; [reflexivity|]. split; [exact F1|]. exists l1. split; [exact W|]. split; [exact S|reflexivity].
    + destruct (IH l1 rg lo2 hi2 F1 OkR) as (l' & -> & F2 & R); [lia|]. exists l'. split; [reflexivity|]. split; [exact F2|]. exists l1. split; [exact W|]. split; [exact S|exact R].
  - destruct (split_partition_spec l lo hi F ltac:(lia) Ok2) as (l1 & cut & E & W & Cut). cbn [m_centry with_rg]. rewrite E. pose proof (fits_within lo hi _ _ F ltac:(lia) ltac:(lia) W) as F1.
    destruct (sub_partitions_spec lo hi cut l1 l1 F1 ltac:(lia) Ok2 Cut ltac:(lia)) as (s1 & s2 & e1 & e2 & Es & B1 & B2 & B3 & B4 & Sum & _). rewrite Es.
    assert (Join : forall l', sorts ((s1, e1) :: (s2, e2) :: rg) l1 l' \/ sorts ((s2, e2) :: (s1, e1) :: rg) l1 l' -> sorts ((lo, hi) :: rg) l l').
    { intros l' R. assert (R' : exists l2, (sorts [(s1, e1); (s2, e2)] l1 l2 \/ sorts [(s2, e2); (s1, e1)] l1 l2) /\ sorts rg l2 l') by (destruct R as [R|R]; apply (sorts_app [_; _]) in R as (l2 & R1 & R2); eauto).
      destruct R' as (l2 & R1 & R2). destruct (sub_partitions_spec lo hi cut l1 l2 F1 ltac:(lia) Ok2 Cut ltac:(lia)) as (s1' & s2' & e1' & e2' & Es' & _ & _ & _ & _ & _ & J). rewrite Es in Es'. injection Es' as <- <- <- <-. destruct (J R1) as [W2 S2].
      exists l2. split; [now apply within_trans with l1|auto]. }
    destruct (length rg <? cpartMax)%nat.
    + destruct (IH l1 ((s2, e2) :: rg) s1 e1 F1) as (l' & -> & F2 & R); [repeat constructor; cbn; auto; lia|rewrite !all_turns_cons; lia|]. exists l'. auto.
    + destruct (IH l1 [] s2 e2 F1) as (l2 & -> & F2 & R2); [repeat constructor; cbn; auto; lia|cbn; unfold turns; cbn; lia|].
      destruct (IH l2 rg s1 e1 F2) as (l' & -> & F3 & R3); [repeat constructor; cbn; auto; lia|rewrite !all_turns_cons; lia|]. exists l'. split; [reflexivity|]. split; [exact F3|]. apply Join. right. apply (sorts_app [_] (_ :: _)). eauto.
Qed.

Lemma QuickSort_spec fuel l hi : fits l -> 0 <= hi <= n -> (Z.to_nat (2 * hi) < fuel)%nat -> exists l', _QuickSort (CKey := CKey) fuel (with_rg a l) 0 hi = Some (with_rg a l') /\ within 0 hi l l' /\ sorted_in 0 hi l'.
Proof.
  intros F B Fu. unfold _QuickSort. destruct (quick_loop_spec fuel l [] 0 hi F) as (l' & -> & _ & l1 & W & S & ->); [repeat constructor; cbn; lia|rewrite all_turns_cons; cbn [all_turns]; lia|]. exists l1. auto.
Qed.

End Sort.

(** ** Searching *)

Section Search.
Context {CKey CEntry : Type} `{KEYENTRY CKey CEntry} (good : CEntry -> Prop) {good_key : CKey -> Prop} `{!KeyEntryLaws CKey CEntry good good_key}.
Implicit Types (a : CArray CEntry) (key : CKey) (fHigh : bool).

(** The counted entries are in the order of their keys; their number is one that
    a process can hold. *)
Definition sorted_array a : Prop := array_ok a /\ m_centry a < 9223372036854775808 /\ (forall i e, zget (m_rgentry a) i = Some e -> i < m_centry a -> good e) /\ sorted_in (CKey := CKey) 0 (m_centry a) (m_rgentry a).

(** The entries before [g] pass and the others do not. *)
Definition boundary a key fHigh (g : Z) : Prop :=
  0 <= g <= m_centry a /\ (forall i e, 0 <= i < g -> zget (m_rgentry a) i = Some e -> passes e key fHigh = true) /\ (forall i e, g <= i < m_centry a -> zget (m_rgentry a) i = Some e -> passes e key fHigh = false).

Lemma array_entry a i : array_ok a -> 0 <= i < m_centry a -> exists e, zget (m_rgentry a) i = Some e /\ Entry a i = Some e.
Proof.
  intros (B & L & _) I. destruct (zget_in (m_rgentry a) i ltac:(lia)) as [e E]. exists e. split; [exact E|]. unfold Entry, PEntry. replace (i <? m_centry a) with true by (symmetry; apply Z.ltb_lt; lia). exact E.
Qed.

Lemma passes_down x y key fHigh : good x -> good y -> good_key key -> CmpEntry (CKey := CKey) x y <= 0 -> passes y key fHigh = true -> passes x key fHigh = true.
Proof.
  unfold passes. intros Gx Gy Gk L P. apply orb_true_iff in P as [P|P].
  - apply Z.ltb_lt in P. pose proof (CmpKey_lt x y key Gx Gy Gk L P). apply orb_true_iff. left. now apply Z.ltb_lt.
  - apply andb_true_iff in P as [P ->]. apply Z.eqb_eq in P. pose proof (CmpKey_le x y key Gx Gy Gk L ltac:(lia)). rewrite andb_true_r. apply orb_true_iff. destruct (Z.eq_dec (CmpKey x key) 0) as [E|N]; [right; now apply Z.eqb_eq|left; apply Z.ltb_lt; lia].
Qed.

Lemma boundary_unique a key fHigh g g' : array_ok a -> boundary a key fHigh g -> boundary a key fHigh g' -> g = g'.
Proof.
  intros Ok (B & P & Q) (B' & P' & Q'). destruct (Z.lt_total g g') as [L|[E|L]]; [|exact E|]; exfalso.
  - destruct (array_entry a g Ok ltac:(lia)) as (e & E & _). pose proof (P' g e ltac:(lia) E). pose proof (Q g e ltac:(lia) E). congruence.
  - destruct (array_entry a g' Ok ltac:(lia)) as (e & E & _). pose proof (P g' e ltac:(lia) E). pose proof (Q' g' e ltac:(lia) E). congruence.
Qed.

Lemma linear_search_loop_spec fuel a i key fHigh : sorted_array a -> good_key key -> 0 <= i <= m_centry a -> (forall j e, 0 <= j < i -> zget (m_rgentry a) j = Some e -> passes e key fHigh = true) -> (Z.to_nat (m_centry a - i) < fuel)%nat ->
  exists g, linear_search_loop fuel a i key fHigh = Some g /\ boundary a key fHigh g.
Proof.
  intros (Ok & Sm & Gd & S) Gk. revert i. induction fuel as [|fuel IH]; intros i B P Fu; [lia|]. cbn [linear_search_loop]. unfold Size. destruct (Z.ltb_spec i (m_centry a)) as [L|L].
  - destruct (array_entry a i Ok ltac:(lia)) as (e & E & ->). destruct (passes e key fHigh) eqn:Pe.
    + rewrite u64_small by lia. apply IH; [lia| |lia]. intros j e' J Ej. destruct (Z.eq_dec j i) as [->|N]; [congruence|]. apply (P j); [lia|exact Ej].
    + exists i. split; [reflexivity|]. split; [lia|]. split; [exact P|]. intros j e' J Ej. destruct (passes e' key fHigh) eqn:Pj; [|reflexivity]. destruct (Z.eq_dec j i) as [->|N]; [congruence|].
      rewrite (passes_down e e' key fHigh) in Pe; [discriminate|eapply Gd; [eassumption|lia]|eapply Gd; [eassumption|lia]|exact Gk| |exact Pj]. apply (S i j); auto; lia.
  - exists i. split; [reflexivity|]. split; [lia|]. split; [exact P|]. intros j e' J. lia.
Qed.

Lemma binary_search_loop_spec fuel a lo hi key fHigh : sorted_array a -> good_key key -> 0 <= lo <= hi -> hi <= m_centry a -> (forall j e, 0 <= j < lo -> zget (m_rgentry a) j = Some e -> passes e key fHigh = true) ->
  (forall j e, hi <= j < m_centry a -> zget (m_rgentry a) j = Some e -> passes e key fHigh = false) -> hi - lo < 2 ^ Z.of_nat fuel ->
  exists g, binary_search_loop (S fuel) a lo hi key fHigh = Some g /\ boundary a key fHigh g.
Proof.
  intros (Ok & Sm & Gd & So) Gk. revert lo hi. induction fuel as [|fuel IH]; intros lo hi B Bh P Q Fu.
  - change (2 ^ Z.of_nat 0) with 1 in Fu. assert (hi = lo) by lia. subst hi. exists lo. cbn [binary_search_loop]. rewrite Z.ltb_irrefl. split; [reflexivity|]. split; [lia|auto].
  - assert (Pw : 2 ^ Z.of_nat (S fuel) = 2 * 2 ^ Z.of_nat fuel) by (rewrite Nat2Z.inj_succ; apply Z.pow_succ_r; lia). rewrite Pw in Fu. remember (S fuel) as f. cbn [binary_search_loop]. destruct (Z.ltb_spec lo hi) as [L|L].
    + rewrite (u64_small (hi - lo)) by lia. pose proof (Z.div_mod (hi - lo) 2 ltac:(lia)) as D. pose proof (Z.mod_pos_bound (hi - lo) 2 ltac:(lia)) as M. set (q := (hi - lo) / 2) in *. clearbody q. rewrite (u64_small (lo + q)) by lia.
      destruct (array_entry a (lo + q) Ok ltac:(lia)) as (e & E & ->). subst f. destruct (passes e key fHigh) eqn:Pe.
      * rewrite u64_small by lia. apply IH; [lia|lia| |exact Q|lia]. intros j e' J Ej. destruct (Z.eq_dec j (lo + q)) as [->|N]; [congruence|]. apply (passes_down e' e); [eapply Gd; [eassumption|lia]|eapply Gd; [eassumption|lia]|exact Gk| |exact Pe]. apply (So j (lo + q)); auto; lia.
      * apply IH; [lia|lia|exact P| |lia]. intros j e' J Ej. destruct (passes e' key fHigh) eqn:Pj; [|reflexivity]. destruct (Z.eq_dec j (lo + q)) as [->|N]; [congruence|].
        rewrite (passes_down e e' key fHigh) in Pe; [discriminate|eapply Gd; [eassumption|lia]|eapply Gd; [eassumption|lia]|exact Gk| |exact Pj]. apply (So (lo + q) j); auto; lia.
    + assert (hi = lo) by lia. subst hi. exists lo. split; [reflexivity|]. split; [lia|auto].
Qed.

(** Either search ends at the boundary. *)
Definition search_fuel (f : PfnSearch) (n : Z) (fuel : nat) : Prop := match f with LinearSearch => (Z.to_nat n < fuel)%nat | BinarySearch => (Z.to_nat (Z.log2_up (n + 1)) < fuel)%nat end.

Lemma search_spec fuel (t : CTable CEntry) key fHigh : sorted_array (m_arrayKeyEntry t) -> good_key key -> search_fuel (m_pfnSearch t) (m_centry (m_arrayKeyEntry t)) fuel ->
  exists g, search fuel t key fHigh = Some g /\ boundary (m_arrayKeyEntry t) key fHigh g.
Proof.
  intros Ok Gk Fu. unfold search. pose proof Ok as ((B & _) & _). destruct (m_pfnSearch t); cbn [search_fuel] in Fu.
  - apply linear_search_loop_spec; [exact Ok|exact Gk|lia|intros; lia|lia].
  - unfold _BinarySearch, Size. destruct fuel as [|fuel]; [lia|]. apply binary_search_loop_spec; [exact Ok|exact Gk|lia|lia|intros; lia|intros; lia|]. set (n := m_centry (m_arrayKeyEntry t)) in *.
    apply Z.lt_le_trans with (n + 1); [lia|]. destruct (Z.eq_dec n 0) as [->|N]; [pose proof (Z.pow_pos_nonneg 2 (Z.of_nat fuel)); lia|].
    etransitivity; [apply (proj2 (Z.log2_up_spec (n + 1) ltac:(lia)))|]. apply Z.pow_le_mono_r; lia.
Qed.

End Search.
