(* ===== verification/TableTheorems.v ===== *)
(** * Tables: loading and seeking

    What a table promises to its users: after a load its entries are those it
    had and those it was given, in order; each seek finds the entry that its name
    says; and what loading an array leaves out. *)

From stdpp Require Import base list.
From Stdlib Require Import ZArith Lia Bool.
From S2P Require Import Prelude Table TableProps.

(** ** Seeking *)

Section Seek.
Context {CKey CEntry : Type} `{KEYENTRY CKey CEntry} {good : CEntry -> Prop} {good_key : CKey -> Prop} `{!KeyEntryLaws CKey CEntry good good_key}.
Implicit Types (a : CArray CEntry) (t : CTable CEntry) (key : CKey) (p : CEntry -> Prop) (r : option Z).

(** [r] is the index of the first, or of the last, entry with [p]; [None]: there is none. *)
Definition none_where p a (lo hi : Z) : Prop := forall i e, lo <= i < hi -> zget (m_rgentry a) i = Some e -> ~ p e.
Definition at_where p a (i : Z) : Prop := 0 <= i < m_centry a /\ exists e, zget (m_rgentry a) i = Some e /\ p e.
Definition first_where p a r : Prop := match r with Some i => at_where p a i /\ none_where p a 0 i | None => none_where p a 0 (m_centry a) end.
Definition last_where p a r : Prop := match r with Some i => at_where p a i /\ none_where p a (i + 1) (m_centry a) | None => none_where p a 0 (m_centry a) end.

(** The entries below, equal to and above a key. *)
Definition below key : CEntry -> Prop := fun e => CmpKey e key < 0.
Definition equal key : CEntry -> Prop := fun e => CmpKey e key = 0.
Definition above key : CEntry -> Prop := fun e => CmpKey e key > 0.

Lemma passes_low (e : CEntry) key : passes e key false = true <-> CmpKey e key < 0.
Proof. unfold passes. rewrite andb_false_r, orb_false_r. apply Z.ltb_lt. Qed.
Lemma passes_high (e : CEntry) key : passes e key true = true <-> CmpKey e key <= 0.
Proof. unfold passes. rewrite andb_true_r, orb_true_iff, Z.ltb_lt, Z.eqb_eq. lia. Qed.

(** The boundaries as comparisons. *)
Lemma boundary_low a key g : boundary a key false g -> 0 <= g <= m_centry a /\ none_where (fun e => CmpKey e key >= 0) a 0 g /\ none_where (below key) a g (m_centry a).
Proof.
  intros (B & P & Q). split; [exact B|]. split; intros i e I E X.
  - specialize (P i e I E). apply passes_low in P. lia.
  - specialize (Q i e I E). apply not_true_iff_false in Q. apply Q. now apply passes_low.
Qed.
Lemma boundary_high a key g : boundary a key true g -> 0 <= g <= m_centry a /\ none_where (above key) a 0 g /\ none_where (fun e => CmpKey e key <= 0) a g (m_centry a).
Proof.
  intros (B & P & Q). split; [exact B|]. split; intros i e I E X.
  - specialize (P i e I E). apply passes_high in P. unfold above in X. lia.
  - specialize (Q i e I E). apply not_true_iff_false in Q. apply Q. now apply passes_high.
Qed.

Lemma none_where_split p a lo mid hi : none_where p a lo mid -> none_where p a mid hi -> none_where p a lo hi.
Proof. intros A B i e I. destruct (Z_lt_le_dec i mid); [apply (A i)|apply (B i)]; lia. Qed.
Lemma none_where_impl p q a lo hi : (forall e, q e -> p e) -> none_where p a lo hi -> none_where q a lo hi.
Proof. intros I N i e B E Q. now apply (N i e B E), I. Qed.

Lemma PEntry_of t i : Table_PEntry t i = if i <? m_centry (m_arrayKeyEntry t) then Some i else None.
Proof. reflexivity. Qed.

(** The pointer to the entry before an index; before the first there is [NULL]. *)
Lemma PEntry_before t g : array_ok (m_arrayKeyEntry t) -> 0 <= g <= m_centry (m_arrayKeyEntry t) -> Table_PEntry t (u64 (g - 1)) = if 0 <? g then Some (g - 1) else None.
Proof.
  intros (B & L & M & _) G. unfold SIZE_MAX in M. rewrite PEntry_of. destruct (Z.ltb_spec 0 g) as [P|P].
  - rewrite u64_small by lia. destruct (Z.ltb_spec (g - 1) (m_centry (m_arrayKeyEntry t))); [reflexivity|lia].
  - assert (g = 0) by lia. subst g. change (u64 (0 - 1)) with 18446744073709551615. destruct (Z.ltb_spec 18446744073709551615 (m_centry (m_arrayKeyEntry t))); [lia|reflexivity].
Qed.

(** What a seek asks of the entry at an index. *)
Lemma probe t i (f : CEntry -> bool) : array_ok (m_arrayKeyEntry t) -> 0 <= i ->
  exists b, (if i <? Table_Size t then let? e := Entry (m_arrayKeyEntry t) i in Some (f e) else Some false) = Some b /\
    (b = true -> i < m_centry (m_arrayKeyEntry t) /\ exists e, zget (m_rgentry (m_arrayKeyEntry t)) i = Some e /\ f e = true) /\
    (b = false -> forall e, i < m_centry (m_arrayKeyEntry t) -> zget (m_rgentry (m_arrayKeyEntry t)) i = Some e -> f e = false).
Proof.
  intros Ok P. unfold Table_Size, Size. destruct (Z.ltb_spec i (m_centry (m_arrayKeyEntry t))) as [L|L].
  - destruct (array_entry _ i Ok ltac:(lia)) as (e & E & ->). exists (f e). split; [reflexivity|]. split; [intros Fe; split; [exact L|exists e; auto]|]. intros Fe e' _ E'. congruence.
  - exists false. split; [reflexivity|]. split; [discriminate|]. intros _ e E. lia.
Qed.

Section OneTable.
Variables (t : CTable CEntry) (key : CKey) (fuel : nat).
Abbreviation a := (m_arrayKeyEntry t).
Abbreviation n := (m_centry a).
Hypothesis Sorted : sorted_array (CKey := CKey) good a.
Hypothesis Gk : good_key key.
Hypothesis Fuel : search_fuel (m_pfnSearch t) n fuel.

Local Lemma Ok : array_ok a.
Proof. apply Sorted. Qed.

Local Lemma entry_in i : 0 <= i < n -> exists e, zget (m_rgentry a) i = Some e.
Proof. intros I. destruct (array_entry a i Ok I) as (e & E & _). now exists e. Qed.

Lemma none_after i e : 0 <= i -> zget (m_rgentry a) i = Some e -> above key e -> none_where (fun e => CmpKey e key <= 0) a i n.
Proof.
  intros I E A j e' J Ej L. destruct (Z.eq_dec j i) as [->|N]; [unfold above in A; replace e' with e in L by congruence; lia|]. destruct Sorted as (_ & _ & Gd & So).
  pose proof (CmpKey_le e e' key ltac:(eapply Gd; [eassumption|lia]) ltac:(eapply Gd; [eassumption|lia]) Gk (So i j e e' ltac:(lia) ltac:(lia) ltac:(lia) E Ej) L). unfold above in A. lia.
Qed.

Lemma none_before i e : i < n -> zget (m_rgentry a) i = Some e -> below key e -> none_where (fun e => CmpKey e key >= 0) a 0 (i + 1).
Proof.
  intros I E B j e' J Ej G. destruct (Z.eq_dec j i) as [->|N]; [unfold below in B; replace e' with e in G by congruence; lia|]. destruct Sorted as (_ & _ & Gd & So).
  pose proof (CmpKey_lt e' e key ltac:(eapply Gd; [eassumption|lia]) ltac:(eapply Gd; [eassumption|lia]) Gk (So j i e' e ltac:(lia) ltac:(lia) ltac:(lia) Ej E) B). lia.
Qed.

(** The entry before the low boundary is the last below the key. *)
Lemma last_below g : boundary a key false g -> last_where (below key) a (Table_PEntry t (u64 (g - 1))).
Proof.
  intros G. destruct (boundary_low a key g G) as (B & Lo & Hi). rewrite (PEntry_before t g Ok B). destruct (Z.ltb_spec 0 g) as [P|P].
  - destruct (entry_in (g - 1) ltac:(lia)) as [e E]. split; [split; [lia|]|].
    + exists e. split; [exact E|]. unfold below. pose proof (Lo (g - 1) e ltac:(lia) E) as X. cbn beta in X. lia.
    + replace (g - 1 + 1) with g by lia. exact Hi.
  - assert (g = 0) by lia. subst g. exact Hi.
Qed.

(** The entry at the high boundary is the first above the key. *)
Lemma first_above g : boundary a key true g -> first_where (above key) a (Table_PEntry t g).
Proof.
  intros G. destruct (boundary_high a key g G) as (B & Lo & Hi). rewrite PEntry_of. destruct (Z.ltb_spec g n) as [P|P].
  - destruct (entry_in g ltac:(lia)) as [e E]. split; [split; [lia|]|exact Lo]. exists e. split; [exact E|]. unfold above. pose proof (Hi g e ltac:(lia) E) as X. cbn beta in X. lia.
  - assert (g = n) by lia. now subst g.
Qed.

(** If the entry at the low boundary is equal to the key it is the first such, else
    there is none. *)
Lemma at_low g : boundary a key false g -> (forall e, g < n -> zget (m_rgentry a) g = Some e -> equal key e -> first_where (equal key) a (Some g)) /\
  ((forall e, g < n -> zget (m_rgentry a) g = Some e -> ~ equal key e) -> none_where (equal key) a 0 n).
Proof.
  intros G. destruct (boundary_low a key g G) as (B & Lo & Hi). split.
  - intros e L E Eq. split; [split; [lia|now exists e]|]. apply none_where_impl with (2 := Lo). unfold equal. lia.
  - intros Ne. apply none_where_split with g; [apply none_where_impl with (2 := Lo); unfold equal; lia|]. destruct (Z_lt_le_dec g n) as [L|L]; [|intros i e I; lia]. destruct (entry_in g ltac:(lia)) as [e E].
    pose proof (Hi g e ltac:(lia) E) as X. pose proof (Ne e L E) as Y. unfold below, equal in X, Y. apply none_where_impl with (p := fun e => CmpKey e key <= 0); [unfold equal; lia|]. apply (none_after g e); [lia|exact E|unfold above; lia].
Qed.

(** The same before the high boundary. *)
Lemma at_high g : boundary a key true g -> (forall e, 0 < g -> zget (m_rgentry a) (g - 1) = Some e -> equal key e -> last_where (equal key) a (Some (g - 1))) /\
  ((forall e, 0 < g -> zget (m_rgentry a) (g - 1) = Some e -> ~ equal key e) -> none_where (equal key) a 0 n).
Proof.
  intros G. destruct (boundary_high a key g G) as (B & Lo & Hi). split.
  - intros e L E Eq. split; [split; [lia|now exists e]|]. replace (g - 1 + 1) with g by lia. apply none_where_impl with (2 := Hi). unfold equal. lia.
  - intros Ne. apply none_where_split with g; [|apply none_where_impl with (2 := Hi); unfold equal; lia]. destruct (Z_lt_le_dec 0 g) as [L|L]; [|intros i e I; lia]. destruct (entry_in (g - 1) ltac:(lia)) as [e E].
    pose proof (Lo (g - 1) e ltac:(lia) E) as X. pose proof (Ne e L E) as Y. unfold above, equal in X, Y. apply none_where_impl with (p := fun e => CmpKey e key >= 0); [unfold equal; lia|]. replace g with (g - 1 + 1) by lia. apply (none_before (g - 1) e); [lia|exact E|unfold below; lia].
Qed.

Lemma SeekLT_last : exists r, SeekLT fuel t key = Some r /\ last_where (below key) a r.
Proof.
  destruct (search_spec good fuel t key false Sorted Gk Fuel) as (g & E & G). unfold SeekLT. rewrite E. destruct (probe t g (fun e => CmpKey e key <? 0) Ok) as (b & -> & T & F); [apply G|].
  eexists. split; [reflexivity|]. destruct b; [|now apply last_below]. destruct (T eq_refl) as (L & e & Ee & X). apply Z.ltb_lt in X. destruct (boundary_low a key g G) as (B & _ & Hi). now destruct (Hi g e ltac:(lia) Ee).
Qed.

Lemma SeekLE_finds : exists r, SeekLE fuel t key = Some r /\ (r <> None /\ first_where (equal key) a r \/ none_where (equal key) a 0 n /\ last_where (below key) a r).
Proof.
  destruct (search_spec good fuel t key false Sorted Gk Fuel) as (g & E & G). unfold SeekLE. rewrite E. destruct (probe t g (fun e => CmpKey e key <=? 0) Ok) as (b & -> & T & F); [apply G|].
  eexists. split; [reflexivity|]. destruct (boundary_low a key g G) as (B & _ & Hi). destruct (at_low g G) as [A1 A2]. destruct b.
  - destruct (T eq_refl) as (L & e & Ee & X). apply Z.leb_le in X. left. rewrite PEntry_of. replace (g <? n) with true by (symmetry; now apply Z.ltb_lt). split; [discriminate|]. apply (A1 e L Ee). pose proof (Hi g e ltac:(lia) Ee). unfold equal, below in *. lia.
  - right. split; [|now apply last_below]. apply A2. intros e L Ee Eq. specialize (F eq_refl e L Ee). apply Z.leb_gt in F. unfold equal in Eq. lia.
Qed.

Lemma SeekEQ_first : exists r, SeekEQ fuel t key = Some r /\ first_where (equal key) a r.
Proof.
  destruct (search_spec good fuel t key false Sorted Gk Fuel) as (g & E & G). unfold SeekEQ. rewrite E. destruct (probe t g (fun e => CmpKey e key =? 0) Ok) as (b & -> & T & F); [apply G|].
  eexists. split; [reflexivity|]. destruct (at_low g G) as [A1 A2]. destruct b.
  - destruct (T eq_refl) as (L & e & Ee & X). apply Z.eqb_eq in X. rewrite PEntry_of. replace (g <? n) with true by (symmetry; now apply Z.ltb_lt). now apply (A1 e).
  - apply A2. intros e L Ee Eq. specialize (F eq_refl e L Ee). now apply Z.eqb_neq in F.
Qed.

(** What the seeks from above ask of the entry before the boundary. *)
Lemma probe_before g (f : CEntry -> bool) : 0 <= g <= n ->
  exists b, (if g >? 0 then let? e := Entry a (u64 (g - 1)) in Some (f e) else Some false) = Some b /\
    (b = true -> 0 < g /\ exists e, zget (m_rgentry a) (g - 1) = Some e /\ f e = true) /\ (b = false -> forall e, 0 < g -> zget (m_rgentry a) (g - 1) = Some e -> f e = false).
Proof.
  intros B. destruct Sorted as (_ & Sm & _). destruct (Z.gtb_spec g 0) as [L|L].
  - rewrite u64_small by lia. destruct (array_entry a (g - 1) Ok ltac:(lia)) as (e & E & ->). exists (f e). split; [reflexivity|]. split; [intros X; split; [lia|exists e; auto]|]. intros X e' _ E'. congruence.
  - exists false. split; [reflexivity|]. split; [discriminate|]. intros _ e P. lia.
Qed.

Lemma before_high g : 0 < g <= n -> Table_PEntry t (u64 (g - 1)) = Some (g - 1).
Proof. intros B. rewrite (PEntry_before t g Ok) by lia. now replace (0 <? g) with true by (symmetry; apply Z.ltb_lt; lia). Qed.

Lemma SeekHI_last : exists r, SeekHI fuel t key = Some r /\ last_where (equal key) a r.
Proof.
  destruct (search_spec good fuel t key true Sorted Gk Fuel) as (g & E & G). unfold SeekHI. rewrite E. pose proof G as (B & _). destruct (probe_before g (fun e => CmpKey e key =? 0) B) as (b & -> & T & F).
  eexists. split; [reflexivity|]. destruct (at_high g G) as [A1 A2]. destruct b.
  - destruct (T eq_refl) as (L & e & Ee & X). apply Z.eqb_eq in X. rewrite before_high by lia. now apply (A1 e).
  - apply A2. intros e L Ee Eq. specialize (F eq_refl e L Ee). now apply Z.eqb_neq in F.
Qed.

Lemma SeekGE_finds : exists r, SeekGE fuel t key = Some r /\ (r <> None /\ last_where (equal key) a r \/ none_where (equal key) a 0 n /\ first_where (above key) a r).
Proof.
  destruct (search_spec good fuel t key true Sorted Gk Fuel) as (g & E & G). unfold SeekGE. rewrite E. pose proof G as (B & _). destruct (probe_before g (fun e => CmpKey e key =? 0) B) as (b & -> & T & F).
  eexists. split; [reflexivity|]. destruct (at_high g G) as [A1 A2]. destruct b.
  - left. destruct (T eq_refl) as (L & e & Ee & X). apply Z.eqb_eq in X. rewrite before_high by lia. split; [discriminate|]. now apply (A1 e).
  - right. split; [|now apply first_above]. apply A2. intros e L Ee Eq. specialize (F eq_refl e L Ee). now apply Z.eqb_neq in F.
Qed.

Lemma SeekGT_first : exists r, SeekGT fuel t key = Some r /\ first_where (above key) a r.
Proof. destruct (search_spec good fuel t key true Sorted Gk Fuel) as (g & E & G). unfold SeekGT. rewrite E. eexists. split; [reflexivity|now apply first_above]. Qed.

End OneTable.
End Seek.

(** ** Loading *)

Section Load.
Context {CKey CEntry : Type} `{KEYENTRY CKey CEntry} {good : CEntry -> Prop} {good_key : CKey -> Prop} `{!KeyEntryLaws CKey CEntry good good_key}.
Implicit Types (a : CArray CEntry) (t : CTable CEntry).
Variable entry0 : CEntry.
Variable new_ok : Z -> bool.

(** Entries written one after another, where there is room for them. *)
Lemma load_loop_spec a es i : array_ok a -> 0 <= i -> i + Z.of_nat (length es) <= m_centry a ->
  exists a', load_loop entry0 new_ok a i es = Some a' /\ array_ok a' /\ m_centry a' = m_centry a /\ m_rgentry a' = take (Z.to_nat i) (m_rgentry a) ++ es ++ drop (Z.to_nat i + length es) (m_rgentry a).
Proof.
  revert a i. induction es as [|e es IH]; intros a i Ok P B.
  - exists a. split; [reflexivity|]. split; [exact Ok|]. split; [reflexivity|]. cbn. now rewrite Nat.add_0_r, take_drop.
  - cbn [length] in B. pose proof Ok as (C & L & M & G). unfold SIZE_MAX in *. cbn [load_loop]. unfold ErrSetEntry. rewrite !(u64_small (i + 1)) by lia. replace (m_centry a <? i + 1) with false by (symmetry; apply Z.ltb_ge; lia).
    unfold PEntry. replace (i <? m_centry a) with true by (symmetry; apply Z.ltb_lt; lia). unfold SetEntry.
    replace ((0 <=? i) && (i <? Z.of_nat (length (m_rgentry a)))) with true by (symmetry; apply andb_true_iff; split; [apply Z.leb_le|apply Z.ltb_lt]; lia).
    match goal with |- context [load_loop _ _ ?b _ _] => set (a1 := b) end. destruct (IH a1 (i + 1)) as (a' & -> & Ok' & Ec & Er); [|lia|cbn; lia|].
    + repeat split; cbn; rewrite ?zlength_zset; unfold SIZE_MAX; lia.
    + exists a'. split; [reflexivity|]. split; [exact Ok'|]. split; [exact Ec|]. rewrite Er. cbn [m_rgentry a1 length]. unfold zset. replace (Z.to_nat (i + 1)) with (S (Z.to_nat i)) by lia.
      rewrite (take_S_r _ _ e) by (apply list_lookup_insert_eq; lia). rewrite take_insert_ge by lia. rewrite drop_insert_lt by lia. rewrite <- app_assoc. cbn. do 4 f_equal. lia.
Qed.

Lemma log2_loop_total fuel n k : 0 <= n < 2 ^ Z.of_nat fuel -> exists r, log2_loop (S fuel) n k = Some r.
Proof.
  revert n k. induction fuel as [|fuel IH]; intros n k B.
  - assert (n = 0) by (change (2 ^ Z.of_nat 0) with 1 in B; lia). subst n. now exists k.
  - rewrite Nat2Z.inj_succ, Z.pow_succ_r in B by lia. remember (S fuel) as f. cbn [log2_loop]. destruct (n =? 0); [now exists k|]. subst f. apply IH. split; [apply Z.div_pos; lia|]. apply Z.div_lt_upper_bound; lia.
Qed.

(** Choosing the search puts the entries in order, by whichever sort. *)
Lemma ConfigureSearch_spec fuel t : array_ok (m_arrayKeyEntry t) -> m_centry (m_arrayKeyEntry t) < 9223372036854775808 -> (forall e, e ∈ entries (m_arrayKeyEntry t) -> good e) -> (Z.to_nat (2 * m_centry (m_arrayKeyEntry t)) < fuel)%nat ->
  exists t', _ConfigureSearch (CKey := CKey) fuel t false = Some t' /\ sorted_array (CKey := CKey) good (m_arrayKeyEntry t') /\ entries (m_arrayKeyEntry t') ≡ₚ entries (m_arrayKeyEntry t).
Proof.
  intros Ok Sm Gd Fu. set (a := m_arrayKeyEntry t) in *. pose proof Ok as (C & L & M & G). unfold _ConfigureSearch. fold a. unfold Size. cbn [negb].
  destruct (log2_loop_total 64 (m_centry a) 0) as [k Ek]; [change (2 ^ Z.of_nat 64) with 18446744073709551616; lia|]. rewrite Ek.
  assert (Gd' : forall i e, zget (m_rgentry a) i = Some e -> i < m_centry a -> good e).
  { intros i e E I. apply Gd. apply list_elem_of_lookup. exists (Z.to_nat i). rewrite <- zget_entries in E by exact I. now apply zget_Some in E as [_ E]. }
  assert (F : fits (good := good) a (m_rgentry a)) by (split; [lia|exact Gd']).
  assert (Done : forall l', within 0 (m_centry a) (m_rgentry a) l' -> sorted_in (CKey := CKey) 0 (m_centry a) l' -> sorted_array (CKey := CKey) good (with_rg a l') /\ entries (with_rg a l') ≡ₚ entries a).
  { intros l' W S. pose proof (within_length _ _ _ _ W) as Ln. split.
    - split; [repeat split; cbn; lia|]. split; [exact Sm|]. split; [|exact S]. intros i e E I. assert (F' : fits (good := good) a l') by (apply (fits_within a 0 (m_centry a) (m_rgentry a)); [exact F|lia|lia|exact W]). now apply (fits_good (good := good) a l' i).
    - destruct W as [Pm Fr]. unfold entries. cbn [m_centry m_rgentry with_rg]. assert (D : drop (Z.to_nat (m_centry a)) l' = drop (Z.to_nat (m_centry a)) (m_rgentry a)).
      { apply list_eq_drop. intros j J. specialize (Fr (Z.of_nat j) ltac:(lia)). unfold zget in Fr. destruct (Z.ltb_spec (Z.of_nat j) 0); [lia|]. now rewrite Nat2Z.id in Fr. }
      rewrite <- (take_drop (Z.to_nat (m_centry a)) l'), <- (take_drop (Z.to_nat (m_centry a)) (m_rgentry a)), D in Pm. now apply Permutation_app_inv_r in Pm. }
  destruct (2 * k <? m_centry a).
  - destruct (QuickSort_spec a ltac:(lia) fuel (m_rgentry a) (m_centry a) F ltac:(lia) Fu) as (l' & E & W & S). rewrite with_rg_id in E. rewrite E. eexists. split; [reflexivity|]. now apply Done.
  - destruct (InsertionSort_spec a ltac:(lia) fuel (m_rgentry a) 0 (m_centry a) F ltac:(lia) ltac:(lia) ltac:(lia)) as (l' & E & W & S). rewrite with_rg_id in E. rewrite E. eexists. split; [reflexivity|]. now apply Done.
Qed.

Abbreviation sorted_table := (fun t => sorted_array (CKey := CKey) good (m_arrayKeyEntry t)).

Lemma sorted_entries_good t e : sorted_table t -> e ∈ entries (m_arrayKeyEntry t) -> good e.
Proof.
  intros (Ok & _ & Gd & _) I. apply list_elem_of_lookup in I as [k I]. pose proof (lookup_lt_Some _ _ _ I) as L. pose proof (entries_length _ Ok) as El. apply (Gd (Z.of_nat k)); [|lia].
  rewrite <- zget_entries by lia. apply zget_Some. split; [lia|]. now rewrite Nat2Z.id.
Qed.

(** A load either ends with the entries there were and those given, in order, or
    finds no memory and changes nothing. *)
Lemma ErrLoad_spec fuel t es : sorted_table t -> (forall e, e ∈ es -> good e) -> Table_Size t + Z.of_nat (length es) < 9223372036854775808 -> (Z.to_nat (2 * (Table_Size t + Z.of_nat (length es))) < fuel)%nat ->
  (exists t', ErrLoad (CKey := CKey) entry0 new_ok fuel t es = Some (Table_errSuccess, t') /\ sorted_table t' /\ entries (m_arrayKeyEntry t') ≡ₚ entries (m_arrayKeyEntry t) ++ es) \/
  (ErrLoad (CKey := CKey) entry0 new_ok fuel t es = Some (Table_errOutOfMemory, t) /\ exists c, new_ok c = false).
Proof.
  intros So Ge Sm Fu. pose proof So as (Ok & _ & _ & _). unfold Table_Size, Size in *. set (a := m_arrayKeyEntry t) in *. pose proof Ok as (B & _). unfold ErrLoad, Table_Size, Size. fold a. rewrite u64_small by lia.
  destruct (ErrSetSize_spec entry0 new_ok a (m_centry a + Z.of_nat (length es)) Ok) as [(a1 & -> & Ok1 & E1 & T1) | (-> & _ & N)]; [unfold SIZE_MAX; lia| |right; split; [now destruct t|eauto]].
  left. destruct (load_loop_spec a1 es (m_centry a) Ok1 ltac:(lia) ltac:(lia)) as (a2 & -> & Ok2 & E2 & R2).
  assert (En : entries a2 = entries a ++ es). { unfold entries at 1. rewrite E2, E1, R2, T1, app_assoc. apply take_app_length'. rewrite length_app. pose proof (entries_length a Ok). lia. }
  destruct (ConfigureSearch_spec fuel (mkCTable a2 (m_pfnSearch t)) Ok2) as (t' & -> & So' & Pm); [cbn; lia|cbn; rewrite En; intros e I; apply elem_of_app in I as [I|I]; [now apply (sorted_entries_good t)|now apply Ge]|cbn; lia|].
  exists t'. split; [reflexivity|]. split; [exact So'|]. cbn in Pm. now rewrite Pm, En.
Qed.

Lemma Array_ErrClone_spec a b : array_ok b -> (exists a', Array_ErrClone entry0 new_ok a b = (Array_errSuccess, a') /\ array_ok a' /\ m_centry a' = m_centry b /\ entries a' = entries b) \/ (Array_ErrClone entry0 new_ok a b = (Array_errOutOfMemory, a) /\ exists c, new_ok c = false).
Proof.
  intros Ok. pose proof Ok as (C & L & M & G). unfold Array_ErrClone. destruct (_ && _) eqn:E; [right; split; [reflexivity|]; apply andb_true_iff in E as [_ E]; apply negb_true_iff in E; eauto|]. left.
  assert (Lt : Z.of_nat (length (entries b)) = m_centry b) by now apply entries_length. unfold entries in Lt. eexists. split; [reflexivity|]. split; [repeat split; cbn; rewrite ?new_block_length by lia; lia|]. split; [reflexivity|].
  unfold entries at 1. cbn. etransitivity; [|apply (new_block_take entry0 (m_centryMax b))]. f_equal. unfold entries. lia.
Qed.

Lemma ErrCloneArray_spec fuel t b : array_ok b -> m_centry b < 9223372036854775808 -> (forall e, e ∈ entries b -> good e) -> (Z.to_nat (2 * m_centry b) < fuel)%nat ->
  (exists t', ErrCloneArray (CKey := CKey) entry0 new_ok fuel t b = Some (Table_errSuccess, t') /\ sorted_table t' /\ entries (m_arrayKeyEntry t') ≡ₚ entries b) \/ (ErrCloneArray (CKey := CKey) entry0 new_ok fuel t b = Some (Table_errOutOfMemory, t) /\ exists c, new_ok c = false).
Proof.
  intros Ok Sm Ge Fu. unfold ErrCloneArray. destruct (Array_ErrClone_spec (m_arrayKeyEntry t) b Ok) as [(a' & -> & Ok' & E' & En) | (-> & N)]; [|right; split; [now destruct t|exact N]]. left.
  destruct (ConfigureSearch_spec fuel (mkCTable a' (m_pfnSearch t)) Ok') as (t' & -> & So' & Pm); [cbn; lia|cbn; now rewrite En|cbn; lia|]. exists t'. split; [reflexivity|]. split; [exact So'|]. cbn in Pm. now rewrite Pm, En.
Qed.

(** An entry may be replaced by one with the same key, and the order stays. *)
Lemma ErrUpdateEntry_spec t i e old : sorted_table t -> good e -> 0 <= i < Table_Size t -> zget (entries (m_arrayKeyEntry t)) i = Some old ->
  if CmpEntry (CKey := CKey) old e =? 0
  then exists t', ErrUpdateEntry (CKey := CKey) t (Some i) e = Some (Table_errSuccess, t') /\ sorted_table t' /\ entries (m_arrayKeyEntry t') = zset (entries (m_arrayKeyEntry t)) i e
  else ErrUpdateEntry (CKey := CKey) t (Some i) e = Some (Table_errKeyChange, t).
Proof.
  intros So Ge I Eo. unfold Table_Size, Size in I. pose proof So as (Ok & Sm & Gd & Sr). set (a := m_arrayKeyEntry t) in *. pose proof Ok as (C & L & M & G). rewrite zget_entries in Eo by lia. unfold ErrUpdateEntry. fold a. rewrite Eo. destruct (Z.eqb_spec (CmpEntry (CKey := CKey) old e) 0) as [Eq|Ne]; [|reflexivity].
  unfold SetEntry. replace ((0 <=? i) && (i <? Z.of_nat (length (m_rgentry a)))) with true by (symmetry; apply andb_true_iff; split; [apply Z.leb_le|apply Z.ltb_lt]; lia). eexists. split; [reflexivity|].
  assert (Go : good old) by (apply (Gd i); [exact Eo|lia]). assert (Eq' : CmpEntry (CKey := CKey) e old <= 0) by (pose proof (CmpEntry_anti e old Ge Go); lia).
  split; [|unfold entries; cbn; unfold zset; apply take_insert_lt; lia]. split; [repeat split; cbn; rewrite ?zlength_zset; lia|]. split; [exact Sm|]. cbn.
  assert (At : forall j x, zget (zset (m_rgentry a) i e) j = Some x -> (j = i /\ x = e) \/ (j <> i /\ zget (m_rgentry a) j = Some x)).
  { intros j x E. destruct (Z.eq_dec i j) as [->|N]; [left; rewrite zget_zset_eq in E by lia; split; [reflexivity|congruence]|right; rewrite zget_zset_ne in E by lia; auto]. }
  split.
  - intros j x E J. apply At in E as [[-> ->] | [_ E]]; [exact Ge|now apply (Gd j)].
  - intros j k x y Bj Bjk Bk Ex Ey. pose proof (CmpEntry_trans (CKey := CKey)) as Tr. apply At in Ex as [[-> ->] | [Nj Ex]]; apply At in Ey as [[-> ->] | [Nk Ey]]; [lia| | |apply (Sr j k); auto].
    + apply (Tr e old y); [exact Ge|exact Go|apply (Gd k); [exact Ey|lia]|exact Eq'|apply (Sr i k); auto].
    + apply (Tr x old e); [apply (Gd j); [exact Ex|lia]|exact Go|exact Ge|apply (Sr j i); auto|lia].
Qed.

Lemma Clear_spec t : sorted_table t -> sorted_table (Clear entry0 new_ok t) /\ entries (m_arrayKeyEntry (Clear entry0 new_ok t)) = [].
Proof.
  intros (Ok & Sm & Gd & Sr). unfold Clear. cbn [m_arrayKeyEntry]. destruct (ErrSetCapacity_spec entry0 new_ok (m_arrayKeyEntry t) 0 Ok ltac:(unfold SIZE_MAX; lia)) as [(a' & -> & Ok' & E1 & E2 & E3 & _) | (_ & _ & _ & N)]; [|lia].
  cbn [snd]. pose proof Ok as (C & _). split; [|exact E3]. split; [exact Ok'|]. split; [lia|]. split; intros i; [intros e E I|intros j x y]; try lia. apply zget_lt in E. lia.
Qed.

End Load.

(** ** Sequences of calls *)

Section Calls.
Context {CKey CEntry : Type} `{KEYENTRY CKey CEntry} {good : CEntry -> Prop} {good_key : CKey -> Prop} `{!KeyEntryLaws CKey CEntry good good_key}.
Implicit Types (t : CTable CEntry) (es : list CEntry).
Variable entry0 : CEntry.
Variable new_ok : Z -> bool.

Inductive call :=
  | Load (rgentry : list CEntry)
  | CloneArray (array : CArray CEntry)
  | UpdateEntry (ientry : Z) (entry : CEntry)
  | ClearTable.

Definition run_call (fuel : nat) t (c : call) : option (CTable_ERR * CTable CEntry) :=
  match c with
  | Load rgentry => ErrLoad (CKey := CKey) entry0 new_ok fuel t rgentry
  | CloneArray array => ErrCloneArray (CKey := CKey) entry0 new_ok fuel t array
  | UpdateEntry ientry entry => ErrUpdateEntry (CKey := CKey) t (Some ientry) entry
  | ClearTable => Some (Table_errSuccess, Clear entry0 new_ok t)
  end.

Fixpoint run_calls (fuel : nat) t (cs : list call) : option (list CTable_ERR * CTable CEntry) :=
  match cs with
  | [] => Some ([], t)
  | c :: cs => let? (r, t) := run_call fuel t c in let? (rs, t) := run_calls fuel t cs in Some (r :: rs, t)
  end.

(** What a caller sees of a table: its entries as a list in which the order of
    entries with equal keys is not told. *)
Definition in_order es : Prop := forall i j x y, (i < j)%nat -> es !! i = Some x -> es !! j = Some y -> CmpEntry (CKey := CKey) x y <= 0.
Definition sorted_from es es' : Prop := es' ≡ₚ es /\ in_order es'.
Definition no_memory : Prop := exists c, new_ok c = false.

Definition call_spec es (c : call) (r : CTable_ERR) es' : Prop :=
  match c with
  | Load rgentry => (r = Table_errSuccess /\ sorted_from (es ++ rgentry) es') \/ (r = Table_errOutOfMemory /\ es' = es /\ no_memory)
  | CloneArray array => (r = Table_errSuccess /\ sorted_from (entries array) es') \/ (r = Table_errOutOfMemory /\ es' = es /\ no_memory)
  | UpdateEntry i e => exists old, zget es i = Some old /\ if CmpEntry (CKey := CKey) old e =? 0 then r = Table_errSuccess /\ es' = zset es i e else r = Table_errKeyChange /\ es' = es
  | ClearTable => r = Table_errSuccess /\ es' = []
  end.

Fixpoint calls_spec es (cs : list call) (rs : list CTable_ERR) es' : Prop :=
  match cs, rs with
  | [], [] => es' = es
  | c :: cs, r :: rs => exists es1, call_spec es c r es1 /\ calls_spec es1 cs rs es'
  | _, _ => False
  end.

(** What a caller must keep to: good entries, entries that exist, and no more of
    them than [fuel] and memory are for. *)
Definition few (fuel : nat) (n : Z) : Prop := n < 9223372036854775808 /\ (Z.to_nat (2 * n) < fuel)%nat.
Definition legal_call (fuel : nat) es (c : call) : Prop :=
  match c with
  | Load rgentry => (forall e, e ∈ rgentry -> good e) /\ few fuel (Z.of_nat (length (es ++ rgentry)))
  | CloneArray array => array_ok array /\ (forall e, e ∈ entries array -> good e) /\ few fuel (m_centry array)
  | UpdateEntry i e => good e /\ 0 <= i < Z.of_nat (length es)
  | ClearTable => True
  end.
Fixpoint legal_calls (fuel : nat) es (cs : list call) : Prop :=
  match cs with [] => True | c :: cs => legal_call fuel es c /\ forall r es', call_spec es c r es' -> legal_calls fuel es' cs end.

Lemma sorted_array_in_order (a : CArray CEntry) : sorted_array (CKey := CKey) good a -> in_order (entries a).
Proof.
  intros (Ok & _ & _ & So) i j x y L Ex Ey. pose proof (lookup_lt_Some _ _ _ Ey) as B. pose proof (entries_length a Ok) as El.
  apply (So (Z.of_nat i) (Z.of_nat j)); try lia; rewrite <- zget_entries by lia; apply zget_Some; rewrite Nat2Z.id; (split; [lia|assumption]).
Qed.

Lemma run_call_refines fuel t c : sorted_array (CKey := CKey) good (m_arrayKeyEntry t) -> legal_call fuel (entries (m_arrayKeyEntry t)) c ->
  exists r t', run_call fuel t c = Some (r, t') /\ sorted_array (CKey := CKey) good (m_arrayKeyEntry t') /\ call_spec (entries (m_arrayKeyEntry t)) c r (entries (m_arrayKeyEntry t')).
Proof.
  intros So Le. pose proof So as (Ok & _). pose proof (entries_length _ Ok) as El. destruct c as [es|b|i e|]; cbn [legal_call run_call call_spec] in *.
  - destruct Le as (Ge & Sm & Fu). rewrite length_app, Nat2Z.inj_add, El in Sm, Fu. destruct (ErrLoad_spec entry0 new_ok fuel t es So Ge Sm Fu) as [(t' & -> & So' & Pm) | (-> & N)].
    + exists Table_errSuccess, t'. split; [reflexivity|]. split; [exact So'|]. left. split; [reflexivity|]. split; [exact Pm|now apply sorted_array_in_order].
    + exists Table_errOutOfMemory, t. split; [reflexivity|]. split; [exact So|]. right. split; [reflexivity|split; [reflexivity|exact N]].
  - destruct Le as (Okb & Ge & Sm & Fu). destruct (ErrCloneArray_spec entry0 new_ok fuel t b Okb Sm Ge Fu) as [(t' & -> & So' & Pm) | (-> & N)].
    + exists Table_errSuccess, t'. split; [reflexivity|]. split; [exact So'|]. left. split; [reflexivity|]. split; [exact Pm|now apply sorted_array_in_order].
    + exists Table_errOutOfMemory, t. split; [reflexivity|]. split; [exact So|]. right. split; [reflexivity|split; [reflexivity|exact N]].
  - destruct Le as (Ge & I). destruct (zget_in (entries (m_arrayKeyEntry t)) i I) as [old Eo]. pose proof (ErrUpdateEntry_spec t i e old So Ge ltac:(unfold Table_Size, Size; lia) Eo) as U. destruct (CmpEntry old e =? 0) eqn:C.
    + destruct U as (t' & -> & So' & En). exists Table_errSuccess, t'. split; [reflexivity|]. split; [exact So'|]. exists old. rewrite C. auto.
    + rewrite U. exists Table_errKeyChange, t. split; [reflexivity|]. split; [exact So|]. exists old. rewrite C. auto.
  - destruct (Clear_spec entry0 new_ok t So) as [So' En]. eexists _, _. split; [reflexivity|]. auto.
Qed.

(** C20: Any sequence of loads, copies of arrays, updates and clearings that keeps to
    the rules returns, its results are those of the same calls on a list of entries,
    and the entries of the table are in the order of their keys after each of them;
    only a load or a copy that the allocator refuses fails, and then it changes nothing. *)
Theorem table_calls_refine_sorted_lists fuel t cs : sorted_array (CKey := CKey) good (m_arrayKeyEntry t) -> legal_calls fuel (entries (m_arrayKeyEntry t)) cs ->
  exists rs t', run_calls fuel t cs = Some (rs, t') /\ sorted_array (CKey := CKey) good (m_arrayKeyEntry t') /\ calls_spec (entries (m_arrayKeyEntry t)) cs rs (entries (m_arrayKeyEntry t')).
Proof.
  revert t. induction cs as [|c cs IH]; intros t So Le.
  - exists [], t. split; [reflexivity|]. split; [exact So|reflexivity].
  - destruct Le as [L1 L2]. destruct (run_call_refines fuel t c So L1) as (r & t1 & E1 & So1 & Sp). destruct (IH t1 So1 (L2 _ _ Sp)) as (rs & t' & E2 & So' & Sp').
    exists (r :: rs), t'. cbn [run_calls]. rewrite E1, E2. split; [reflexivity|]. split; [exact So'|]. exists (entries (m_arrayKeyEntry t1)). auto.
Qed.

(** C24: In a table whose entries are in order each seek returns what its name says,
    whether the table is searched from the front or by halves, and the halving ends
    after at most log2(n + 1) + 1 turns: SeekLT the last entry below the key, SeekGT
    the first above it, SeekEQ and SeekHI the first and the last equal to it, SeekLE
    and SeekGE those, or the last below and the first above where none is equal: the
    neighbours of the key, and not the entries at the ends of the table that the
    comment above the functions promises ([SeekLE_is_not_the_lowest]). *)
Theorem seeks_find_the_entries fuel t key : sorted_array (CKey := CKey) good (m_arrayKeyEntry t) -> good_key key -> search_fuel (m_pfnSearch t) (Table_Size t) fuel ->
  let a := m_arrayKeyEntry t in let no_equal := none_where (equal key) a 0 (Table_Size t) in
  (exists r, SeekLT fuel t key = Some r /\ last_where (below key) a r) /\ (exists r, SeekGT fuel t key = Some r /\ first_where (above key) a r) /\
  (exists r, SeekEQ fuel t key = Some r /\ first_where (equal key) a r) /\ (exists r, SeekHI fuel t key = Some r /\ last_where (equal key) a r) /\
  (exists r, SeekLE fuel t key = Some r /\ (r <> None /\ first_where (equal key) a r \/ no_equal /\ last_where (below key) a r)) /\
  (exists r, SeekGE fuel t key = Some r /\ (r <> None /\ last_where (equal key) a r \/ no_equal /\ first_where (above key) a r)).
Proof.
  intros So Gk Fu. split; [now apply SeekLT_last|]. split; [now apply SeekGT_first|]. split; [now apply SeekEQ_first|]. split; [now apply SeekHI_last|]. split; [now apply SeekLE_finds|now apply SeekGE_finds].
Qed.

End Calls.

(** ** The tables of the program *)

(** Both compare by a difference that is cut to 32 bits, which orders addresses, or
    thread numbers, that lie within 2 GB of each other. *)
Definition window (lo : Z) (x : Z) : Prop := lo <= x < lo + 2147483648.

Lemma s32_u64_close x : -2147483648 <= x < 2147483648 -> s32 (u64 x) = x.
Proof. intros B. unfold s32, u32, u64. destruct (Z.ltb_spec ((x mod 18446744073709551616) mod 4294967296) 2147483648) as [L|L]; Z.div_mod_to_equations; lia. Qed.
Lemma s32_u32_close x : -2147483648 <= x < 2147483648 -> s32 (u32 x) = x.
Proof. intros B. unfold s32, u32. destruct (Z.ltb_spec ((x mod 4294967296) mod 4294967296) 2147483648) as [L|L]; Z.div_mod_to_equations; lia. Qed.

#[export] Instance CReferencedPages_laws (lo : Z) : @KeyEntryLaws Z CPagePointer CReferencedPages (fun e => window lo (DwPage e)) (window lo).
Proof.
  split; cbn; unfold CPagePointer_Cmp, CPagePointer_Cmp_key, window; intros; repeat match goal with H : context [s32 (u64 ?x)] |- _ => rewrite (s32_u64_close x) in H by lia end; rewrite ?s32_u64_close by lia; lia.
Qed.

#[export] Instance COSThreadTable_laws (lo : Z) : @KeyEntryLaws Z COSThreadInfo COSThreadTable (fun e => window lo (m_tid e)) (window lo).
Proof.
  split; cbn; unfold COSThreadInfo_Cmp, COSThreadInfo_Cmp_key, window; intros; repeat match goal with H : context [s32 (u32 ?x)] |- _ => rewrite (s32_u32_close x) in H by lia end; rewrite ?s32_u32_close by lia; lia.
Qed.

(** Pages farther apart are lost and mistaken: of three pages the last is not found
    in the table that holds it, and a page 4 GB above the first is found though the
    table does not hold it. *)
Definition referenced (pages : list Z) : CTable CPagePointer :=
  match ErrCloneArray (H := CReferencedPages) (mkCPagePointer 0 0) (fun _ => true) 100 (new_table (mkCPagePointer 0 0))
          (mkCArray (Z.of_nat (length pages)) (Z.of_nat (length pages)) (map (fun dw => mkCPagePointer dw 0) pages) (mkCPagePointer 0 0) false 1) with
  | Some (_, t) => t
  | None => new_table (mkCPagePointer 0 0)
  end.

Lemma referenced_page_is_lost : let t := referenced [139637976727552; 139639587340288; 139641197953024] in
  map DwPage (entries (m_arrayKeyEntry t)) = [139637976727552; 139639587340288; 139641197953024] /\ SeekEQ (H := CReferencedPages) 100 t 139641197953024 = Some None /\ SeekEQ (H := CReferencedPages) 100 t (139637976727552 + 4294967296) = Some (Some 0).
Proof. vm_compute. repeat split; reflexivity. Qed.

(** Entries that are loaded into an array are not counted: the array keeps its size,
    and with it whatever reads the array entry by entry sees none of them. *)
Lemma loaded_entries_are_not_counted {CEntry : Type} (entry0 : CEntry) new_ok a rgData cbRest : array_ok a -> Z.of_nat (length rgData) + Size a <= SIZE_MAX -> Size (snd (ErrLoadEntries entry0 new_ok a rgData cbRest)) = Size a.
Proof.
  intros Ok B. pose proof Ok as (C & _). unfold ErrLoadEntries, Size, SIZE_MAX in *. destruct (negb (cbRest =? 0)); [reflexivity|]. rewrite u64_small by lia.
  destruct (ErrSetCapacity_spec entry0 new_ok a (Z.of_nat (length rgData) + m_centry a) Ok) as [(a' & -> & _ & _ & E & _) | (-> & _)]; [unfold SIZE_MAX; lia|cbn; lia|reflexivity].
Qed.

(** ** Witnesses *)

Definition three_pages : list CPagePointer := [mkCPagePointer 30 1; mkCPagePointer 10 2; mkCPagePointer 20 3].

(** Three pages are loaded, the second of them in the order gets a page number, and
    all are removed. *)
Lemma table_calls_refine_sorted_lists_witness :
  exists rs t', run_calls (H := CReferencedPages) (mkCPagePointer 0 0) (fun _ => true) 100 (new_table (mkCPagePointer 0 0)) [Load three_pages; UpdateEntry 1 (mkCPagePointer 20 7); ClearTable] = Some (rs, t') /\
    sorted_array (H := CReferencedPages) (fun e => window 0 (DwPage e)) (m_arrayKeyEntry t') /\ calls_spec (H := CReferencedPages) (fun _ => true) [] [Load three_pages; UpdateEntry 1 (mkCPagePointer 20 7); ClearTable] rs (entries (m_arrayKeyEntry t')).
Proof.
  apply (table_calls_refine_sorted_lists (H := CReferencedPages) (KeyEntryLaws0 := CReferencedPages_laws 0) (mkCPagePointer 0 0) (fun _ => true) 100 (new_table (mkCPagePointer 0 0)) [Load three_pages; UpdateEntry 1 (mkCPagePointer 20 7); ClearTable]).
  - split; [repeat split; cbn; unfold SIZE_MAX; lia|]. split; [cbn; lia|]. cbn. split; [intros i e E I; apply zget_lt in E; cbn in E; exfalso; lia|]. intros i j x y B L M. exfalso. lia.
  - cbn [legal_calls legal_call]. split; [split; [intros e I; repeat (apply elem_of_cons in I as [-> | I]; [cbn; unfold window; lia|]); now apply elem_of_nil in I|split; [vm_compute; reflexivity|apply Nat.ltb_lt; vm_compute; reflexivity]]|].
    intros r es' [(_ & Pm & _) | (_ & _ & c & N)]; [|discriminate]. apply Permutation_length in Pm. split; [split; [cbn; unfold window; lia|rewrite Pm; vm_compute; split; [discriminate|reflexivity]]|]. intros r2 es2 _. auto.
Defined.

Definition two_pages : CTable CPagePointer := mkCTable (mkCArray 2 2 [mkCPagePointer 10 1; mkCPagePointer 20 2] (mkCPagePointer 0 0) false 1) BinarySearch.

Definition pages_in_order : CTable CPagePointer := mkCTable (mkCArray 3 3 [mkCPagePointer 10 1; mkCPagePointer 20 2; mkCPagePointer 30 3] (mkCPagePointer 0 0) false 1) BinarySearch.

(** The comment says that SeekLE lands on the matching entry closest to the low end
    and SeekGE on the one closest to the high end.  For the key 25 those are the
    first and the last entry; the code returns the neighbours of the key. *)
Lemma SeekLE_is_not_the_lowest :
  SeekLE (H := CReferencedPages) 4 pages_in_order 25 = Some (Some 1) /\ below (H := CReferencedPages) 25 (mkCPagePointer 10 1) /\
  SeekGE (H := CReferencedPages) 4 pages_in_order 15 = Some (Some 1) /\ above (H := CReferencedPages) 15 (mkCPagePointer 30 3).
Proof. vm_compute. repeat split; reflexivity. Qed.

Lemma seeks_find_the_entries_witness : let t := two_pages in let a := m_arrayKeyEntry t in
  SeekLT (H := CReferencedPages) 3 t 20 = Some (Some 0) /\ exists r, SeekLT (H := CReferencedPages) 3 t 20 = Some r /\ last_where (below (H := CReferencedPages) 20) a r.
Proof.
  split; [vm_compute; reflexivity|]. apply (seeks_find_the_entries (H := CReferencedPages) (KeyEntryLaws0 := CReferencedPages_laws 0) 3 two_pages 20).
  - split; [repeat split; cbn; unfold SIZE_MAX; lia|]. split; [cbn; lia|]. cbn [m_rgentry m_centry m_arrayKeyEntry two_pages]. split.
    + intros i e E L. pose proof (zget_lt _ _ _ E) as B. cbn in B. assert (C : i = 0 \/ i = 1) by lia. destruct C as [-> | ->]; injection E as <-; cbn; unfold window; lia.
    + intros i j x y B L M Ex Ey. assert (i = 0) by lia. assert (j = 1) by lia. subst. injection Ex as <-. injection Ey as <-. vm_compute. discriminate.
  - unfold window. lia.
  - vm_compute. lia.
Defined.
