(* ===== verification/PageCheck.v ===== *)
(** * The integrity check of a page

    [CPAGE::ErrCheckPage] of cpage.cxx, which runs on every page that is read or
    written: the header, each line and its node, a map of the bytes in use that
    shows lines that overlap, and the account of the space of the page. *)

From Stdlib Require Import ZArith List Lia Bool.
From S2P Require Import Prelude Bits Mem Checksum PageChecksum Page PageRead Key Node.
Import ListNotations.

(** ** Flags of a page *)

Definition fPageRepair : Z := 0x0010.
Definition fPageIndex : Z := 0x0040.
Definition fPageLongValue : Z := 0x0080.
Definition fPageNewChecksumFormat : Z := 0x2000.
Definition maskFlushType : Z := 0x18000.

Definition has_flag (p : CPAGE) (f : Z) : bool := negb (fFlags p .& f =? 0).
Definition FEmptyPage (p : CPAGE) : bool := has_flag p fPageEmpty.
Definition FPreInitPage (p : CPAGE) : bool := has_flag p fPagePreInit.
Definition FNewRecordFormat (p : CPAGE) : bool := has_flag p fPageNewRecordFormat.
Definition FRepairedPage (p : CPAGE) : bool := has_flag p fPageRepair.
Definition FIndexPage (p : CPAGE) : bool := has_flag p fPageIndex.
Definition FPrimaryPage (p : CPAGE) : bool := negb (FIndexPage p) && negb (FPreInitPage p).
Definition FLongValuePage (p : CPAGE) : bool := has_flag p fPageLongValue.

(** ** Results *)

Inductive CheckPageMode := OnErrorReturnError | OnErrorFireWall | OnErrorEnforce.

Definition CheckBasics : Z := 0.
Definition CheckTagsNonOverlapping : Z := 1.
Definition CheckLineBoundedByTag : Z := 2.
Definition CheckLinesInOrder : Z := 4.
Definition CheckDefault : Z := CheckTagsNonOverlapping .| CheckLineBoundedByTag.
Definition CheckAll : Z := CheckTagsNonOverlapping .| CheckLineBoundedByTag .| CheckLinesInOrder.

(** What is reported, under the names that the events have. *)
Inductive Corruption :=
  | CbFreeTooLarge | CbUncommittedFreeTooLarge | ibMicFreeTooLarge | itagMicFreeTooLarge
  | EmptyAndPreInitFlagsNotSet | TagArrayWalkingOntoPghdr | TagArrayTooBigToLeaveDataRoom
  | PageEmptyAndPagePreInitFlagsBothSet | PreInitPageFlagSetWithInvalidFlags
  | CorruptFlagsMixedIndexPrimary | CorruptFlagsMixedIndexLv | RepairedPage
  | ZeroLengthIline | TagInFreeSpace | TagBeyondEndOfPage | GetLineGotNullPtr
  | LineEntirelyBelowDataSection | LineStartsBelowDataSection | LineEntirelyAboveDataSection
  | LineEndsAboveDataSection | GetLineFailed
  | TagcbPrefixTooLarge | TagcbSuffixTooLarge | TagZeroLengthKey | TagcbDataTooLarge | TagCbDataZero
  | TagDataTooLarge | LinesOutOfOrder | TagsOverlap | SpaceSizeMismatch.

(** The first corruption ends the check; [Stuck] is an access outside an
    allocation or through a pointer that points nowhere. *)
Inductive verdict (A : Type) := Ok (a : A) | Bad (c : Corruption) | Stuck.
Arguments Ok {A}.
Arguments Bad {A}.
Arguments Stuck {A}.

Notation "'let!' x := a 'in' b" := (match a with Ok x => b | Bad c => Bad c | Stuck => Stuck end)
  (at level 10, x pattern, a at level 100, b at level 200).

Definition bad_if (b : bool) (c : Corruption) : verdict unit := if b then Bad c else Ok tt.

(** [ErrCaptureCorruptedPageInfo] of a build for release; [None]: the process ends. *)
Definition ErrCaptureCorruptedPageInfo (mode : CheckPageMode) : option Z :=
  match mode with OnErrorEnforce => None | _ => Some JET_errDatabaseCorrupted end.

(** ** The header *)

Definition ITagMicFree (p : CPAGE) : Z := itagState p .& ITAG_MIC_FREE_MASK.

Definition preinit_flags_bad (p : CPAGE) : bool :=
  negb (m_itagMicFree p =? 0) || negb (FNewRecordFormat p)
  || negb (fFlags p .& Z.lnot fPagePreInit .& Z.lnot fPageNewRecordFormat .& Z.lnot fPageNewChecksumFormat .& Z.lnot maskFlushType =? 0)
  || negb (pgnoPrev p =? 0) || negb (pgnoNext p =? 0).

Definition cbMinLine : Z := 4.

Definition check_header (g_fRepair : bool) (p : CPAGE) : verdict unit :=
  let! _ := bad_if (CbBufferData p <? cbFree p) CbFreeTooLarge in
  let! _ := bad_if (CbPageFree p <? cbUncommittedFree p) CbUncommittedFreeTooLarge in
  let! _ := bad_if (CbBufferData p <? ibMicFree p) ibMicFreeTooLarge in
  let! _ := bad_if (u64 (CbBufferData p) / sizeof_TAG <=? m_itagMicFree p) itagMicFreeTooLarge in
  let! _ := bad_if ((m_itagMicFree p =? 0) && negb (FEmptyPage p) && negb (FPreInitPage p)) EmptyAndPreInitFlagsNotSet in
  let ctags := m_itagMicFree p in
  let! _ := bad_if (PbDataEnd_ p <=? PbDataStart_ p + 1) TagArrayWalkingOntoPghdr in
  let! _ := bad_if ((0 <? ctags) && (PbDataEnd_ p - PbDataStart_ p - (ctags - 1) * cbMinLine <? 0)) TagArrayTooBigToLeaveDataRoom in
  let! _ := bad_if (FEmptyPage p && FPreInitPage p) PageEmptyAndPagePreInitFlagsBothSet in
  let! _ := bad_if (FPreInitPage p && preinit_flags_bad p) PreInitPageFlagSetWithInvalidFlags in
  let! _ := bad_if (FIndexPage p && FPrimaryPage p) CorruptFlagsMixedIndexPrimary in
  let! _ := bad_if (FLongValuePage p && FIndexPage p) CorruptFlagsMixedIndexLv in
  bad_if (FRepairedPage p && negb g_fRepair) RepairedPage.

(** ** The map of bytes in use *)

(** [rgdw]: one bit for each byte of the data; [cdw] words were allocated. *)
Record byte_map := ByteMap { cdw : Z; words : Z -> Z }.

Definition new_byte_map (p : CPAGE) : byte_map := ByteMap ((CbBufferData p + 31) / 32) (fun _ => 0).

(** [dwOverlaps |= *pdw & set; *pdw |= set;] *)
Definition mark_word (rg : byte_map) (idw set dwOverlaps : Z) : verdict (byte_map * Z) :=
  if (0 <=? idw) && (idw <? cdw rg)
  then let w := words rg idw in Ok (ByteMap (cdw rg) (fun i => if i =? idw then w .| set else words rg i), dwOverlaps .| (w .& set))
  else Stuck.

(** [ULONG bit = (BYTE)( 1 << ( iBit & 31 ) ); ULONG set = bit; set -= 1; set = ~set;] *)
Definition bit_of (iBit : Z) : Z := u8 (Z.shiftl 1 (iBit .& 31)).
Definition set_from (iBit : Z) : Z := u32 (Z.lnot (u32 (bit_of iBit - 1))).

(** The words that a line fills to their ends. *)
Fixpoint mark_full (fuel : nat) (rg : byte_map) (dwOverlaps ib cb : Z) : verdict (byte_map * Z * Z * Z) :=
  match fuel with
  | O => Stuck
  | S fuel =>
      if 32 - (ib .& 31) <=? cb then
        let! (rg, dwOverlaps) := mark_word rg (ib / 32) (set_from ib) dwOverlaps in
        let cbitRightSkip := ib .& 31 in
        mark_full fuel rg dwOverlaps (u16 (ib + (32 - cbitRightSkip))) (u16 (cb - (32 - cbitRightSkip)))
      else Ok (rg, dwOverlaps, ib, cb)
  end.

(** Then a word that it ends in. *)
Definition mark_line (rg : byte_map) (dwOverlaps ib cb : Z) : verdict (byte_map * Z) :=
  let! (rg, dwOverlaps, ib, cb) := mark_full (S (Z.to_nat cb)) rg dwOverlaps ib cb in
  if cb =? 0 then Ok (rg, dwOverlaps)
  else
    let cbitLeftSkip := u16 (32 - cb - (ib .& 31)) in
    let set := Z.shiftr (u32 (Z.shiftl (set_from ib) cbitLeftSkip)) cbitLeftSkip in
    mark_word rg (ib / 32) set dwOverlaps.

(** ** A line and its node *)

Definition FOnData (p : CPAGE) (pb cb : Z) : bool :=
  (PbDataStart_ p <=? pb) && (pb <? PbDataEnd_ p) && (PbDataStart_ p <=? pb + cb - 1) && (pb + cb - 1 <=? PbDataEnd_ p).

(** Where the tag says the line is.  The last three are errors in builds with
    [DEBUG] only. *)
Definition check_line (DEBUG : bool) (p : CPAGE) (itag cb : Z) : verdict unit :=
  let '(line, errGetLine) := if itag <? m_ctagReserved p then ErrGetPtrReservedTag p itag else ErrGetPtr p (itag - m_ctagReserved p) in
  match ln_pv line with
  | PvNull => Bad GetLineGotNullPtr
  | PvBogus => Stuck
  | PvPage pb =>
      let pbLineLastByte := pb + cb - 1 in
      let! _ := bad_if (pbLineLastByte <? PbDataStart_ p) LineEntirelyBelowDataSection in
      let! _ := bad_if (pb <? PbDataStart_ p) LineStartsBelowDataSection in
      let! _ := bad_if (DEBUG && (PbDataEnd_ p <? pb)) LineEntirelyAboveDataSection in
      let! _ := bad_if (DEBUG && (PbDataEnd_ p <? pbLineLastByte)) LineEndsAboveDataSection in
      bad_if (DEBUG && ((errGetLine <? JET_errSuccess) || negb (FOnData p pb (ln_cb line)))) GetLineFailed
  end.

Definition cbPrefixMax (p : CPAGE) : Z := if FSpaceTree p || (objidFDP p =? 0) then 0 else TAG_Cb p (PtagFromItag_ p 0).

(** The node of a line; the result is its key. *)
Definition check_node (g_fRepair : bool) (grbitExtensiveCheck : Z) (p : CPAGE) (itag cb : Z) (keyLast : KEY) : verdict KEY :=
  match ErrNDIGetKeydataflags p (itag - m_ctagReserved p) with
  | None => Stuck
  | Some (kdf, errGetKdf) =>
      let cbPrefix := dCb (prefix (kdf_key kdf)) in
      let cbSuffix := dCb (suffix (kdf_key kdf)) in
      let cbData := dCb (kdf_data kdf) in
      let! _ := bad_if (FNDCompressed kdf && ((cbPrefixMax p <? cbPrefix) || (cbPrefix <? 0))) TagcbPrefixTooLarge in
      let! _ := bad_if ((cb <? cbSuffix) || (cbSuffix <? 0)) TagcbSuffixTooLarge in
      let! _ := bad_if ((cbPrefix =? 0) && (cbSuffix =? 0) && (FLeafPage p || (itag <? ITagMicFree p - 1)) && negb g_fRepair) TagZeroLengthKey in
      let! _ := bad_if ((cb <? cbData) || (cbData <? 0)) TagcbDataTooLarge in
      let! _ := bad_if (cbData =? 0) TagCbDataZero in
      let cbInternalNode := (if FNDCompressed kdf then 2 else 0) + 2 + cbSuffix + cbData in
      let! _ := bad_if ((cb <? cbInternalNode) || (cbInternalNode <? 0)) TagDataTooLarge in
      let! _ := bad_if (errGetKdf <? JET_errSuccess) TagDataTooLarge in
      if negb (grbitExtensiveCheck .& CheckLinesInOrder =? 0) then
        let! _ := bad_if ((m_ctagReserved p <? itag) && (FLeafPage p || (itag <? m_itagMicFree p - 1)) && (CmpKey (pv p) (kdf_key kdf) keyLast <? 0)) LinesOutOfOrder in
        Ok (kdf_key kdf)
      else Ok keyLast
  end.

(** What the loop over the tags carries: the bytes of the lines, the map (if there
    was memory for it), whether a byte was used twice, and the last key. *)
Record check_state := CheckState { cbTotal : Z; rgdw : option byte_map; dwOverlaps : Z; keyLast : KEY }.

Definition check_extensive (DEBUG g_fRepair : bool) (grbitExtensiveCheck : Z) (p : CPAGE) (itag ib cb : Z) (s : check_state) : verdict check_state :=
  let! _ := bad_if ((cbBuffer p <=? ib) || (cbBuffer p <=? cb) || (cbBuffer p <=? ib + cb)) TagBeyondEndOfPage in
  let! _ := check_line DEBUG p itag cb in
  let! key :=
    (if negb (grbitExtensiveCheck .& CheckLineBoundedByTag =? 0) && negb (FSpaceTree p) && (m_ctagReserved p <=? itag)
     then check_node g_fRepair grbitExtensiveCheck p itag cb (keyLast s) else Ok (keyLast s)) in
  match rgdw s with
  | None => Ok (CheckState (cbTotal s) None (dwOverlaps s) key)
  | Some rg => let! (rg, overlaps) := mark_line rg (dwOverlaps s) ib cb in Ok (CheckState (cbTotal s) (Some rg) overlaps key)
  end.

Definition check_tag (DEBUG g_fRepair : bool) (grbitExtensiveCheck : Z) (p : CPAGE) (itag : Z) (s : check_state) : verdict check_state :=
  let ib := TAG_Ib p (PtagFromItag_ p itag) in
  let cb := TAG_Cb p (PtagFromItag_ p itag) in
  let s := CheckState (s32 (cbTotal s + cb)) (rgdw s) (dwOverlaps s) (keyLast s) in
  if cb =? 0 then if itag <? m_ctagReserved p then Ok s else Bad ZeroLengthIline
  else
    let! _ := bad_if (ibMicFree p <? ib + cb) TagInFreeSpace in
    if negb (grbitExtensiveCheck =? 0) then check_extensive DEBUG g_fRepair grbitExtensiveCheck p itag ib cb s else Ok s.

Fixpoint check_tags (n : nat) (DEBUG g_fRepair : bool) (grbitExtensiveCheck : Z) (p : CPAGE) (itag : Z) (s : check_state) : verdict check_state :=
  match n with
  | O => Ok s
  | S n => let! s := check_tag DEBUG g_fRepair grbitExtensiveCheck p itag s in check_tags n DEBUG g_fRepair grbitExtensiveCheck p (itag + 1) s
  end.

(** ** The check *)

(** [new_ok]: whether there was memory for the map. *)
Definition check_page (DEBUG g_fRepair new_ok : bool) (grbitExtensiveCheck : Z) (p : CPAGE) : verdict unit :=
  let! _ := check_header g_fRepair p in
  let rgdw := if negb (grbitExtensiveCheck .& CheckTagsNonOverlapping =? 0) && new_ok then Some (new_byte_map p) else None in
  let! s := check_tags (Z.to_nat (m_itagMicFree p)) DEBUG g_fRepair grbitExtensiveCheck p 0 (CheckState 0 rgdw 0 KEY_Nullify) in
  let! _ := bad_if (negb (dwOverlaps s =? 0)) TagsOverlap in
  let cbAccountedFor := s32 (cbTotal s + cbFree p + CbTagArray_ p) in
  bad_if (negb (cbAccountedFor =? CbBufferData p)) SpaceSizeMismatch.

Definition ErrCheckPage (DEBUG g_fRepair new_ok : bool) (mode : CheckPageMode) (grbitExtensiveCheck : Z) (p : CPAGE) : option Z :=
  match check_page DEBUG g_fRepair new_ok grbitExtensiveCheck p with
  | Ok _ => Some JET_errSuccess
  | Bad _ => ErrCaptureCorruptedPageInfo mode
  | Stuck => None
  end.
