(* ===== verification/PageCheckProps.v ===== *)
(** * The integrity check of a page: what it accepts and what it sees

    The map of bytes in use as a set of bytes; the lines that the check takes for
    overlapping; every page of nodes is accepted; what an accepted page has. *)

From Stdlib Require Import ZArith List Lia Bool Permutation.
From S2P Require Import Prelude Bits Mem Checksum PageChecksum Page PageLayout PageTags PageRead Key KeyProps Node NodeView NodeOps NodeTheorems PageCheck.
Import ListNotations.

(** ** The map of bytes *)

(** The bytes of a line that the map shows: none of the word that the line begins
    in if it begins at the ninth or a later byte of it. *)
Definition seen (ib cb x : Z) : bool := (ib <=? x) && (x <? ib + cb) && ((ib mod 32 <? 8) || (ib / 32 <? x / 32)).

Definition marked (rg : byte_map) (x : Z) : bool := Z.testbit (words rg (x / 32)) (x mod 32).
Definition map_ok (rg : byte_map) : Prop := forall i, 0 <= words rg i < 2 ^ 32.

Lemma land_31 x : x .& 31 = x mod 32.
Proof. change 31 with (Z.ones 5). rewrite Z.land_ones by lia. reflexivity. Qed.

Lemma small_range (P : Z -> bool) n : forallb P (map Z.of_nat (seq 0 n)) = true -> forall k, 0 <= k < Z.of_nat n -> P k = true.
Proof. intros F k B. rewrite forallb_forall in F. apply F. apply in_map_iff. exists (Z.to_nat k). split; [lia|]. apply in_seq. lia. Qed.

(** The bits of [set_from]: all from the bit on, or none. *)
Lemma set_from_bits ib k : 0 <= k < 32 -> Z.testbit (set_from ib) k = (ib mod 32 <? 8) && (ib mod 32 <=? k).
Proof.
  intros B. unfold set_from, bit_of. rewrite land_31. pose proof (Z.mod_pos_bound ib 32 ltac:(lia)) as R. set (r := ib mod 32) in *. clearbody r.
  assert (H : forall r, 0 <= r < 32 -> forallb (fun k => Bool.eqb (Z.testbit (u32 (Z.lnot (u32 (u8 (Z.shiftl 1 r) - 1)))) k) ((r <? 8) && (r <=? k))) (map Z.of_nat (seq 0 32)) = true).
  { apply (small_range (fun r => forallb _ _) 32). vm_compute. reflexivity. }
  specialize (H r R). apply Bool.eqb_true_iff. now apply (small_range _ 32 H).
Qed.

Lemma set_from_range ib : 0 <= set_from ib < 2 ^ 32.
Proof. unfold set_from, u32. apply Z.mod_pos_bound. lia. Qed.

Lemma high_bits x n k : 0 <= x < 2 ^ n -> n <= k -> Z.testbit x k = false.
Proof. intros B K. destruct (Z.eq_dec x 0) as [->|N]; [apply Z.bits_0|]. apply Z.bits_above_log2; [lia|]. apply Z.lt_le_trans with n; [|exact K]. apply Z.log2_lt_pow2; lia. Qed.

Lemma range_bits x n : 0 <= n -> 0 <= x -> (forall k, n <= k -> Z.testbit x k = false) -> x < 2 ^ n.
Proof.
  intros N P H. destruct (Z.eq_dec x 0) as [->|Q]; [apply Z.pow_pos_nonneg; lia|]. apply Z.log2_lt_pow2; [lia|]. destruct (Z_lt_le_dec (Z.log2 x) n) as [L|L]; [exact L|].
  specialize (H _ L). rewrite Z.bit_log2 in H by lia. discriminate.
Qed.

Lemma zero_bits x : 0 <= x < 2 ^ 32 -> (x = 0 <-> forall k, 0 <= k < 32 -> Z.testbit x k = false).
Proof.
  intros B. split; [intros -> k _; apply Z.bits_0|]. intros H. apply Z.bits_inj'. intros k K. rewrite Z.bits_0. destruct (Z_lt_le_dec k 32) as [L|L]; [apply H; lia|now apply (high_bits x 32)].
Qed.

(** One word of the map. *)
Lemma mark_word_spec rg idw set ov : map_ok rg -> 0 <= idw < cdw rg -> 0 <= set < 2 ^ 32 -> 0 <= ov ->
  exists rg' ov', mark_word rg idw set ov = Ok (rg', ov') /\ cdw rg' = cdw rg /\ map_ok rg' /\ 0 <= ov' /\
    (forall x, marked rg' x = marked rg x || ((x / 32 =? idw) && Z.testbit set (x mod 32))) /\
    (ov' = 0 <-> ov = 0 /\ forall x, x / 32 = idw -> Z.testbit set (x mod 32) = true -> marked rg x = false).
Proof.
  intros Ok I Rs Ro. unfold mark_word. destruct (Z.leb_spec 0 idw); [|lia]. destruct (Z.ltb_spec idw (cdw rg)); [|lia]. cbn [andb]. eexists _, _. split; [reflexivity|].
  pose proof (Ok idw) as Rw. split; [reflexivity|]. split; [|split; [|split]].
  - intros i. cbn [words]. destruct (i =? idw); [apply lor_range; [exact Rw|exact Rs]|apply Ok].
  - apply Z.lor_nonneg. split; [exact Ro|]. apply Z.land_nonneg. left. apply Rw.
  - intros x. unfold marked. cbn [words]. destruct (Z.eqb_spec (x / 32) idw) as [->|N]; cbn [andb]; [apply Z.lor_spec|now rewrite orb_false_r].
  - rewrite Z.lor_eq_0_iff. apply and_iff_compat_l. rewrite zero_bits.
    + split.
      * intros Hz x Ex Hs. pose proof (Z.mod_pos_bound x 32 ltac:(lia)) as R. specialize (Hz _ R). rewrite Z.land_spec, Hs, andb_true_r in Hz. unfold marked. now rewrite Ex.
      * intros Hx k K. rewrite Z.land_spec. destruct (Z.testbit set k) eqn:Es; [|apply andb_false_r]. rewrite andb_true_r. specialize (Hx (32 * idw + k)).
        assert (E1 : (32 * idw + k) / 32 = idw) by (symmetry; apply (Z.div_unique _ 32 idw k); lia). assert (E2 : (32 * idw + k) mod 32 = k) by (symmetry; apply (Z.mod_unique _ 32 idw k); lia). unfold marked in Hx. rewrite E1, E2 in Hx. now apply Hx.
    + split; [apply Z.land_nonneg; left; apply Rw|]. apply range_bits; [lia|apply Z.land_nonneg; left; apply Rw|]. intros k K. rewrite Z.land_spec, (high_bits (words rg idw) 32) by (assumption || lia). reflexivity.
Qed.

(** What marking a range promises. *)
Definition marks (rg : byte_map) (ov : Z) (f : Z -> bool) (r : verdict (byte_map * Z)) : Prop :=
  exists rg' ov', r = Ok (rg', ov') /\ cdw rg' = cdw rg /\ map_ok rg' /\ 0 <= ov' /\ (forall x, marked rg' x = marked rg x || f x) /\
    (ov' = 0 <-> ov = 0 /\ forall x, f x = true -> marked rg x = false).

Lemma marks_word rg ov idw set f : map_ok rg -> 0 <= idw < cdw rg -> 0 <= set < 2 ^ 32 -> 0 <= ov -> (forall x, f x = (x / 32 =? idw) && Z.testbit set (x mod 32)) ->
  marks rg ov f (mark_word rg idw set ov).
Proof.
  intros K I Rs Ro E. destruct (mark_word_spec rg idw set ov K I Rs Ro) as (rg' & ov' & -> & C & K' & Ro' & B & Z0). exists rg', ov'. split; [reflexivity|]. split; [exact C|]. split; [exact K'|]. split; [exact Ro'|]. split.
  - intros x. now rewrite B, E.
  - rewrite Z0. apply and_iff_compat_l. split; intros H x; [|intros Ex Ht]; [rewrite E; intros T; apply andb_true_iff in T as [T1 T2]; apply Z.eqb_eq in T1; now apply H|]. apply H. rewrite E, Ht, andb_true_r. now apply Z.eqb_eq.
Qed.

(** One range after another. *)
Lemma marks_then rg ov f g h r k : marks rg ov f r -> (forall rg' ov', map_ok rg' -> cdw rg' = cdw rg -> 0 <= ov' -> marks rg' ov' g (k rg' ov')) -> (forall x, h x = f x || g x) -> (forall x, f x = true -> g x = true -> False) ->
  marks rg ov h (let! (rg', ov') := r in k rg' ov').
Proof.
  intros (rg1 & ov1 & -> & C1 & K1 & R1 & B1 & Z1) Hk E D. destruct (Hk rg1 ov1 K1 C1 R1) as (rg2 & ov2 & -> & C2 & K2 & R2 & B2 & Z2). exists rg2, ov2. split; [reflexivity|]. split; [congruence|]. split; [exact K2|]. split; [exact R2|]. split.
  - intros x. now rewrite B2, B1, E, orb_assoc.
  - rewrite Z2, Z1. split.
    + intros [[H1 H2] H3]. split; [exact H1|]. intros x Hx. rewrite E in Hx. apply orb_true_iff in Hx as [Hx|Hx]; [now apply H2|]. specialize (H3 x Hx). rewrite B1 in H3. now apply orb_false_iff in H3.
    + intros [H1 H2]. split; [split; [exact H1|]|]; intros x Hx; [apply H2; now rewrite E, Hx|]. rewrite B1. apply orb_false_iff. split; [apply H2; now rewrite E, Hx, orb_true_r|]. destruct (f x) eqn:F; [destruct (D x F Hx)|reflexivity].
Qed.

(** The last word of a line. *)
Lemma left_skip set s k : 0 <= set < 2 ^ 32 -> 0 <= s < 32 -> 0 <= k < 32 -> Z.testbit (Z.shiftr (u32 (Z.shiftl set s)) s) k = Z.testbit set k && (k <? 32 - s).
Proof.
  intros B S K. rewrite Z.shiftr_spec by lia. unfold u32. change 4294967296 with (2 ^ 32). destruct (Z.ltb_spec k (32 - s)) as [L|L].
  - rewrite Z.mod_pow2_bits_low, Z.shiftl_spec by lia. rewrite andb_true_r. f_equal. lia.
  - rewrite Z.mod_pow2_bits_high by lia. now rewrite andb_false_r.
Qed.

Definition mark_tail (rg : byte_map) (ov ib cb : Z) : verdict (byte_map * Z) :=
  if cb =? 0 then Ok (rg, ov)
  else let s := u16 (32 - cb - (ib .& 31)) in mark_word rg (ib / 32) (Z.shiftr (u32 (Z.shiftl (set_from ib) s)) s) ov.

Lemma mark_line_alt rg ov ib cb : mark_line rg ov ib cb = (let! (rg, ov, ib, cb) := mark_full (S (Z.to_nat cb)) rg ov ib cb in mark_tail rg ov ib cb).
Proof. reflexivity. Qed.

Ltac bools := repeat match goal with
  | H : _ && _ = true |- _ => apply andb_true_iff in H; destruct H
  | H : (_ <? _) = true |- _ => apply Z.ltb_lt in H
  | H : (_ <=? _) = true |- _ => apply Z.leb_le in H
  | H : (_ =? _) = true |- _ => apply Z.eqb_eq in H
  end.

Lemma mark_tail_marks rg ov ib cb : map_ok rg -> 0 <= ov -> 0 <= ib -> 0 <= cb < 32 - ib mod 32 -> ib + cb <= 32 * cdw rg -> marks rg ov (seen ib cb) (mark_tail rg ov ib cb).
Proof.
  intros K Ro P B F. unfold mark_tail. pose proof (Z.mod_pos_bound ib 32 ltac:(lia)) as R. pose proof (Z.div_mod ib 32 ltac:(lia)) as D. destruct (Z.eqb_spec cb 0) as [->|N].
  - exists rg, ov. split; [reflexivity|]. assert (E : forall x, seen ib 0 x = false) by (intros x; unfold seen; destruct (Z.leb_spec ib x), (Z.ltb_spec x (ib + 0)); cbn; try reflexivity; lia).
    split; [reflexivity|]. split; [exact K|]. split; [exact Ro|]. split; [intros x; now rewrite E, orb_false_r|]. split; [intros H; split; [exact H|]; intros x; rewrite E; discriminate|tauto].
  - rewrite land_31. unfold u16. rewrite (Z.mod_small (32 - cb - ib mod 32)) by lia. apply marks_word; [exact K|zlia| |exact Ro|].
    + pose proof (set_from_range ib) as [S0 S1]. split; [apply Z.shiftr_nonneg; unfold u32; apply Z.mod_pos_bound; lia|]. apply range_bits; [lia|apply Z.shiftr_nonneg; unfold u32; apply Z.mod_pos_bound; lia|].
      intros k Hk. rewrite Z.shiftr_spec by lia. apply (high_bits _ 32); [unfold u32; apply Z.mod_pos_bound; lia|lia].
    + intros x. pose proof (Z.mod_pos_bound x 32 ltac:(lia)) as Rx. pose proof (Z.div_mod x 32 ltac:(lia)) as Dx. rewrite left_skip, set_from_bits by (apply set_from_range || lia). unfold seen.
      apply eq_true_iff_eq. rewrite !andb_true_iff, orb_true_iff, !Z.leb_le, !Z.ltb_lt, Z.eqb_eq. set (q := ib / 32) in *. set (r := ib mod 32) in *. set (qx := x / 32) in *. set (rx := x mod 32) in *. clearbody q r qx rx. lia.
Qed.

Lemma mark_full_marks fuel rg ov ib cb : map_ok rg -> 0 <= ov -> 0 <= ib -> 0 <= cb -> ib + cb < 65536 -> ib + cb <= 32 * cdw rg -> (Z.to_nat cb < fuel)%nat ->
  marks rg ov (seen ib cb) (let! (rg, ov, ib, cb) := mark_full fuel rg ov ib cb in mark_tail rg ov ib cb).
Proof.
  revert rg ov ib cb. induction fuel as [|fuel IH]; intros rg ov ib cb K Ro P Pc S F Fu; [lia|]. cbn [mark_full]. rewrite land_31. pose proof (Z.mod_pos_bound ib 32 ltac:(lia)) as R. pose proof (Z.div_mod ib 32 ltac:(lia)) as D.
  destruct (Z.leb_spec (32 - ib mod 32) cb) as [L|L]; [|apply mark_tail_marks; auto; lia]. set (w := 32 - ib mod 32) in *. unfold u16. rewrite (Z.mod_small (ib + w)), (Z.mod_small (cb - w)) by lia.
  assert (Q : (ib + w) mod 32 = 0 /\ (ib + w) / 32 = ib / 32 + 1) by (unfold w; split; [symmetry; apply (Z.mod_unique _ 32 (ib / 32 + 1)); lia|symmetry; apply (Z.div_unique _ 32 _ 0); lia]). destruct Q as [Q1 Q2].
  assert (M : marks rg ov (seen ib w) (mark_word rg (ib / 32) (set_from ib) ov)).
  { apply marks_word; [exact K|lia|apply set_from_range|exact Ro|]. intros x. pose proof (Z.mod_pos_bound x 32 ltac:(lia)) as Rx. pose proof (Z.div_mod x 32 ltac:(lia)) as Dx. rewrite set_from_bits by lia. unfold seen, w.
    apply eq_true_iff_eq. rewrite !andb_true_iff, orb_true_iff, !Z.leb_le, !Z.ltb_lt, Z.eqb_eq. set (q := ib / 32) in *. set (r := ib mod 32) in *. set (qx := x / 32) in *. set (rx := x mod 32) in *. clearbody q r qx rx. lia. }
  destruct (mark_word rg (ib / 32) (set_from ib) ov) as [[rg1 ov1]|c|] eqn:Em; [|destruct M as (? & ? & E & _); discriminate..].
  apply (marks_then rg ov (seen ib w) (seen (ib + w) (cb - w)) (seen ib cb) (Ok (rg1, ov1)) (fun rg ov => let! (rg, ov, ib, cb) := mark_full fuel rg ov (ib + w) (cb - w) in mark_tail rg ov ib cb)); [exact M| | |].
  - intros rg' ov' K' C' R'. apply IH; auto; [lia|lia|lia|rewrite C'; lia|lia].
  - intros x. pose proof (Z.mod_pos_bound x 32 ltac:(lia)) as Rx. pose proof (Z.div_mod x 32 ltac:(lia)) as Dx. unfold seen. rewrite Q1, Q2. apply eq_true_iff_eq. rewrite ?orb_true_iff, ?andb_true_iff, ?orb_true_iff, !Z.leb_le, !Z.ltb_lt.
    set (q := ib / 32) in *. set (r := ib mod 32) in *. set (qx := x / 32) in *. set (rx := x mod 32) in *. clearbody q r qx rx. unfold w in *. lia.
  - intros x. unfold seen. rewrite !andb_true_iff, !Z.leb_le, !Z.ltb_lt. lia.
Qed.

Lemma mark_line_marks rg ov ib cb : map_ok rg -> 0 <= ov -> 0 <= ib -> 0 <= cb -> ib + cb < 65536 -> ib + cb <= 32 * cdw rg -> marks rg ov (seen ib cb) (mark_line rg ov ib cb).
Proof. intros. rewrite mark_line_alt. apply mark_full_marks; auto; lia. Qed.

(** ** What a tag that passes has *)

Lemma bind_Ok {A B} (o : verdict A) (k : A -> verdict B) b : (match o with Ok a => k a | Bad c => Bad c | Stuck => Stuck end) = Ok b -> exists a, o = Ok a /\ k a = Ok b.
Proof. destruct o as [a|c|]; [|discriminate..]. intros E. now exists a. Qed.

Lemma bad_if_Ok b c u : bad_if b c = Ok u -> b = false.
Proof. unfold bad_if. now destruct b. Qed.

(** The next check of a sequence that passed. *)
Ltac passed H := let E := fresh "E" in apply bind_Ok in H as ([] & E & H); apply bad_if_Ok in E.

Section Tags.
Variables (DEBUG g_fRepair : bool) (grbit : Z) (p : CPAGE).
Abbreviation ib k := (TAG_Ib p (PtagFromItag_ p k)).
Abbreviation cb k := (TAG_Cb p (PtagFromItag_ p k)).
Abbreviation resv := (m_ctagReserved p).

Definition fBounded : bool := negb (grbit .& CheckLineBoundedByTag =? 0) && negb (FSpaceTree p).
Definition fInOrder : bool := fBounded && negb (grbit .& CheckLinesInOrder =? 0).

(** Only reserved lines are empty, and every line ends before the free space. *)
Definition line_fits (k : Z) : Prop := (cb k = 0 /\ k < resv) \/ (0 < cb k /\ ib k + cb k <= ibMicFree p).

(** The node of a line: it is read without an error, its parts lie in the line, its
    prefix in the external header, and it has data and, unless it is the last of a
    page that is no leaf, a key. *)
Definition node_fits (k : Z) (kdf : KEYDATAFLAGS) : Prop :=
  (exists err, ErrNDIGetKeydataflags p (k - resv) = Some (kdf, err) /\ JET_errSuccess <= err) /\
  0 <= dCb (suffix (kdf_key kdf)) /\ 0 < dCb (kdf_data kdf) /\ (if FNDCompressed kdf then 2 else 0) + 2 + dCb (suffix (kdf_key kdf)) + dCb (kdf_data kdf) <= cb k /\
  (FNDCompressed kdf = true -> 0 <= dCb (prefix (kdf_key kdf)) <= cbPrefixMax p) /\
  (g_fRepair = false -> FLeafPage p = true \/ k < ITagMicFree p - 1 -> dCb (prefix (kdf_key kdf)) <> 0 \/ dCb (suffix (kdf_key kdf)) <> 0).

(** The keys of two lines that follow each other. *)
Definition not_below (k : Z) (key keyBefore : KEY) : Prop := resv < k -> FLeafPage p = true \/ k < m_itagMicFree p - 1 -> 0 <= CmpKey (pv p) key keyBefore.

Lemma check_node_Ok k keyLast key : check_node g_fRepair grbit p k (cb k) keyLast = Ok key ->
  exists kdf, node_fits k kdf /\ if negb (grbit .& CheckLinesInOrder =? 0) then key = kdf_key kdf /\ not_below k key keyLast else key = keyLast.
Proof.
  unfold check_node. destruct (ErrNDIGetKeydataflags p (k - resv)) as [[kdf err]|] eqn:Ek; [|discriminate]. intros H. do 7 passed H. exists kdf.
  apply orb_false_iff in E0 as [_ E0]. apply Z.ltb_ge in E0. apply orb_false_iff in E2 as [_ E2]. apply Z.ltb_ge in E2. apply Z.eqb_neq in E3. apply orb_false_iff in E4 as [E4 _]. apply Z.ltb_ge in E4. apply Z.ltb_ge in E5. split.
  - split; [exists err; auto|]. split; [exact E0|]. split; [lia|]. split; [exact E4|]. split.
    + intros C. rewrite C in E. cbn in E. apply orb_false_iff in E as [P1 P2]. apply Z.ltb_ge in P1, P2. lia.
    + intros R L. rewrite R in E1. cbn in E1. rewrite andb_true_r in E1. assert (T : FLeafPage p || (k <? ITagMicFree p - 1) = true) by (apply orb_true_iff; destruct L as [L|L]; [now left|right; now apply Z.ltb_lt]). rewrite T, andb_true_r in E1.
      apply andb_false_iff in E1 as [N|N]; apply Z.eqb_neq in N; [now left|now right].
  - destruct (negb (grbit .& CheckLinesInOrder =? 0)).
    + passed H. injection H as <-. split; [reflexivity|]. intros Rk L. replace (resv <? k) with true in E6 by (symmetry; now apply Z.ltb_lt). assert (T : FLeafPage p || (k <? m_itagMicFree p - 1) = true) by (apply orb_true_iff; destruct L as [L|L]; [now left|right; now apply Z.ltb_lt]).
      rewrite T in E6. cbn in E6. now apply Z.ltb_ge in E6.
    + now injection H as <-.
Qed.

(** One step of the map. *)
Definition map_step (k : Z) (s s' : check_state) : Prop :=
  match rgdw s with
  | None => rgdw s' = None /\ dwOverlaps s' = dwOverlaps s
  | Some rg => if (cb k =? 0) || (grbit =? 0) then rgdw s' = Some rg /\ dwOverlaps s' = dwOverlaps s
               else exists rg', mark_line rg (dwOverlaps s) (ib k) (cb k) = Ok (rg', dwOverlaps s') /\ rgdw s' = Some rg'
  end.

Lemma check_tag_Ok k s s' : check_tag DEBUG g_fRepair grbit p k s = Ok s' ->
  cbTotal s' = s32 (cbTotal s + cb k) /\ line_fits k /\ map_step k s s' /\
  (fBounded = true -> resv <= k -> exists kdf, node_fits k kdf /\ if fInOrder then keyLast s' = kdf_key kdf /\ not_below k (kdf_key kdf) (keyLast s) else True).
Proof.
  unfold check_tag. pose proof (TAG_Cb_range p (PtagFromItag_ p k)) as R. unfold map_step. destruct (Z.eqb_spec (cb k) 0) as [Z0|N].
  - destruct (Z.ltb_spec k resv) as [L|L]; [|discriminate]. intros H. injection H as <-. cbn. split; [reflexivity|]. split; [now left|]. split; [destruct (rgdw s); auto|]. intros _ Q. lia.
  - intros H. passed H. apply Z.ltb_ge in E. destruct (Z.eqb_spec grbit 0) as [G|G]; cbn [negb] in H.
    + injection H as <-. cbn. split; [reflexivity|]. split; [right; lia|]. split; [destruct (rgdw s); auto|]. unfold fBounded. rewrite G. discriminate.
    + unfold check_extensive in H. cbn [cbTotal rgdw dwOverlaps keyLast] in H. passed H. apply bind_Ok in H as ([] & _ & H). apply bind_Ok in H as (key & Hk & H).
      assert (Kt : cbTotal s' = s32 (cbTotal s + cb k) /\ keyLast s' = key /\ match rgdw s with None => rgdw s' = None /\ dwOverlaps s' = dwOverlaps s | Some rg => exists rg', mark_line rg (dwOverlaps s) (ib k) (cb k) = Ok (rg', dwOverlaps s') /\ rgdw s' = Some rg' end).
      { destruct (rgdw s) as [rg|]; [apply bind_Ok in H as ([rg' ov'] & Hm & H); injection H as <-; cbn; split; [reflexivity|]; split; [reflexivity|]; exists rg'; auto|injection H as <-; auto]. }
      destruct Kt as (K1 & K2 & K3). split; [exact K1|]. split; [right; lia|]. split; [exact K3|]. intros Fb Rk. unfold fInOrder. rewrite Fb. unfold fBounded in Fb. rewrite Fb in Hk. replace (resv <=? k) with true in Hk by (symmetry; now apply Z.leb_le). cbn [andb] in Hk.
      destruct (check_node_Ok k (keyLast s) key Hk) as (kdf & Nf & Ko). exists kdf. split; [exact Nf|]. cbn [andb]. destruct (negb (grbit .& CheckLinesInOrder =? 0)); [|exact I]. destruct Ko as [-> Ko]. auto.
Qed.

(** ** All tags *)

Hypothesis Mok : mem_ok (pv p).

Definition seen_by (k x : Z) : bool := seen (ib k) (cb k) x.
Definition tags_seen (k0 n x : Z) : Prop := exists k, k0 <= k < k0 + n /\ seen_by k x = true.
Definition seen_once (k0 n : Z) : Prop := forall k k' x, k0 <= k < k' -> k' < k0 + n -> seen_by k x = true -> seen_by k' x = false.

Definition map_state (s : check_state) (rg : byte_map) : Prop := rgdw s = Some rg /\ map_ok rg /\ ibMicFree p <= 32 * cdw rg /\ 0 <= dwOverlaps s.

Lemma seen_by_empty k x : cb k = 0 -> seen_by k x = false.
Proof. intros E. unfold seen_by, seen. rewrite E. destruct (Z.leb_spec (ib k) x), (Z.ltb_spec x (ib k + 0)); cbn; try reflexivity; lia. Qed.

Lemma mark_tag_marks k rg ov : line_fits k -> map_ok rg -> ibMicFree p <= 32 * cdw rg -> 0 <= ov -> marks rg ov (seen_by k) (if cb k =? 0 then Ok (rg, ov) else mark_line rg ov (ib k) (cb k)).
Proof.
  intros L K F Ro. pose proof (TAG_Ib_range p (PtagFromItag_ p k)) as I. pose proof (load16_range (pv p) Mok 32) as U. fold (ibMicFree p) in U. destruct L as [[E _] | [P E]].
  - rewrite E. exists rg, ov. split; [reflexivity|]. split; [reflexivity|]. split; [exact K|]. split; [exact Ro|]. split; [intros x; now rewrite seen_by_empty, orb_false_r|].
    split; [intros H; split; [exact H|]; intros x; rewrite seen_by_empty by exact E; discriminate|tauto].
  - destruct (Z.eqb_spec (cb k) 0); [lia|]. apply mark_line_marks; auto; lia.
Qed.

Lemma map_step_spec k s s' rg : grbit <> 0 -> line_fits k -> map_state s rg -> map_step k s s' ->
  exists rg', map_state s' rg' /\ (forall x, marked rg' x = marked rg x || seen_by k x) /\ (dwOverlaps s' = 0 <-> dwOverlaps s = 0 /\ forall x, seen_by k x = true -> marked rg x = false).
Proof.
  intros G L (Er & K & F & Ro) M. unfold map_step in M. rewrite Er in M. destruct (mark_tag_marks k rg (dwOverlaps s) L K F Ro) as (rg' & ov' & E & C & K' & Ro' & B & Zo).
  destruct (Z.eqb_spec grbit 0); [contradiction|]. rewrite orb_false_r in M. exists rg'. destruct (cb k =? 0).
  - injection E as <- <-. destruct M as [M1 M2]. rewrite M2. split; [|split; [exact B|exact Zo]]. split; [exact M1|]. rewrite M2. auto.
  - destruct M as (rg2 & M1 & M2). rewrite E in M1. injection M1 as E1 E2. subst rg2 ov'. split; [|split; [exact B|exact Zo]]. split; [exact M2|]. rewrite C. auto.
Qed.

Definition key_at (k : Z) : KEY := match ErrNDIGetKeydataflags p (k - resv) with Some (kdf, _) => kdf_key kdf | None => KEY_Nullify end.

Lemma node_fits_key k kdf : node_fits k kdf -> key_at k = kdf_key kdf.
Proof. intros ((err & E & _) & _). unfold key_at. now rewrite E. Qed.

Fixpoint cb_sum (k0 : Z) (n : nat) : Z := match n with O => 0 | S n => cb k0 + cb_sum (k0 + 1) n end.

Lemma cb_sum_range k0 n : 0 <= cb_sum k0 n <= 65535 * Z.of_nat n.
Proof. revert k0. induction n as [|n IH]; intros k0; [cbn; lia|]. cbn [cb_sum]. pose proof (TAG_Cb_range p (PtagFromItag_ p k0)). pose proof (IH (k0 + 1)). lia. Qed.

Lemma check_tags_Ok n k0 s s' : check_tags n DEBUG g_fRepair grbit p k0 s = Ok s' -> 0 <= cbTotal s -> cbTotal s + 65535 * Z.of_nat n < 2147483648 ->
  cbTotal s' = cbTotal s + cb_sum k0 n /\ (forall k, k0 <= k < k0 + Z.of_nat n -> line_fits k) /\
  (fBounded = true -> forall k, k0 <= k < k0 + Z.of_nat n -> resv <= k -> (exists kdf, node_fits k kdf) /\ (fInOrder = true -> not_below k (key_at k) (if k =? k0 then keyLast s else key_at (k - 1)))) /\
  (grbit <> 0 -> forall rg, map_state s rg -> exists rg', map_state s' rg' /\ (forall x, marked rg' x = true <-> marked rg x = true \/ tags_seen k0 (Z.of_nat n) x) /\
     (dwOverlaps s' = 0 <-> dwOverlaps s = 0 /\ (forall x, tags_seen k0 (Z.of_nat n) x -> marked rg x = false) /\ seen_once k0 (Z.of_nat n))).
Proof.
  revert k0 s. induction n as [|n IH]; intros k0 s H P B.
  - injection H as <-. cbn. split; [lia|]. split; [intros; lia|]. split; [intros; lia|]. intros _ rg M. exists rg. split; [exact M|]. split; [intros x; split; [auto|intros [X|(k & K & _)]; [exact X|lia]]|].
    split; [intros Z0; split; [exact Z0|]; split; [intros x (k & K & _); lia|intros k k' x K K'; lia]|tauto].
  - cbn [check_tags] in H. apply bind_Ok in H as (s1 & H1 & H). destruct (check_tag_Ok k0 s s1 H1) as (T1 & L1 & M1 & N1). pose proof (TAG_Cb_range p (PtagFromItag_ p k0)) as Rc.
    rewrite s32_small in T1 by lia. destruct (IH (k0 + 1) s1 H ltac:(lia) ltac:(lia)) as (T & L & N & M). clear IH. replace (k0 + 1 + Z.of_nat n) with (k0 + Z.of_nat (S n)) in * by lia. split; [cbn [cb_sum]; lia|]. split; [|split].
    + intros k K. destruct (Z.eq_dec k k0) as [->|Nk]; [exact L1|apply L; lia].
    + intros Fb k K Rk. destruct (Z.eq_dec k k0) as [->|Nk].
      * rewrite Z.eqb_refl. destruct (N1 Fb Rk) as (kdf & Nf & Ko). split; [now exists kdf|]. intros Fo. rewrite Fo in Ko. rewrite (node_fits_key k0 kdf Nf). apply Ko.
      * destruct (N Fb k ltac:(lia) Rk) as [Nf Ko]. split; [exact Nf|]. intros Fo. specialize (Ko Fo). destruct (Z.eqb_spec k k0); [contradiction|]. destruct (Z.eqb_spec k (k0 + 1)) as [->|_]; [|exact Ko].
        intros Rk2. replace (k0 + 1 - 1) with k0 by lia. destruct (N1 Fb ltac:(lia)) as (kdf & Nf1 & Ko1). rewrite Fo in Ko1. destruct Ko1 as [Ek _]. rewrite (node_fits_key k0 kdf Nf1), <- Ek. now apply Ko.
    + intros G rg Ms. destruct (map_step_spec k0 s s1 rg G L1 Ms M1) as (rg1 & Ms1 & B1 & Z1). destruct (M G rg1 Ms1) as (rg' & Ms' & B' & Z'). exists rg'. split; [exact Ms'|]. split.
      * intros x. rewrite B', B1, orb_true_iff. split; [intros [[X|X]|(k & K & X)]; [now left|right; exists k0; split; [lia|exact X]|right; exists k; split; [lia|exact X]]|].
        intros [X|(k & K & X)]; [auto|]. destruct (Z.eq_dec k k0) as [->|Nk]; [auto|]. right. exists k. split; [lia|exact X].
      * rewrite Z', Z1. split.
        -- intros ((A1 & A2) & A3 & A4). split; [exact A1|]. split.
           ++ intros x (k & K & X). destruct (Z.eq_dec k k0) as [->|Nk]; [now apply A2|]. specialize (A3 x ltac:(exists k; split; [lia|exact X])). rewrite B1 in A3. now apply orb_false_iff in A3.
           ++ intros k k' x K K' X. destruct (Z.eq_dec k k0) as [->|Nk]; [|apply (A4 k k' x); auto; lia]. destruct (seen_by k' x) eqn:X'; [|reflexivity]. specialize (A3 x ltac:(exists k'; split; [lia|exact X'])). rewrite B1, X, orb_true_r in A3. discriminate.
        -- intros (A1 & A2 & A3). split; [split; [exact A1|]|split].
           ++ intros x X. apply A2. exists k0. split; [lia|exact X].
           ++ intros x (k & K & X). rewrite B1. apply orb_false_iff. split; [apply A2; exists k; split; [lia|exact X]|]. destruct (seen_by k0 x) eqn:X0; [|reflexivity]. rewrite (A3 k0 k x ltac:(lia) ltac:(lia) X0) in X. discriminate.
           ++ intros k k' x K K'. apply A3; lia.
Qed.

End Tags.

(** ** Pages of nodes pass *)

(** What the header of a page in use has, besides what the layout of its lines
    demands. *)
Record coherent (g_fRepair : bool) (p : CPAGE) : Prop := {
  co_uncommitted : cbUncommittedFree p <= cbFree p;
  co_preinit : FPreInitPage p = false;
  co_kind : FLongValuePage p && FIndexPage p = false;
  co_repaired : FRepairedPage p && negb g_fRepair = false;
  co_objid : objidFDP p <> 0;
  co_data : 4 <= CbBufferData p - CbTagArray_ p;
  co_lines : 4 * (m_itagMicFree p - 1) < CbBufferData p - CbTagArray_ p }.

(** The keys of a page: none is empty and they are in order, up to the last of a
    page that is no leaf. *)
Definition keyed (p : CPAGE) (i : Z) : Prop := FLeafPage p = true \/ i < Clines p - 1.
Definition node_key (p : CPAGE) (i : Z) : list Z := nd_key (nth (Z.to_nat i) (nodes p) node_nil).
Definition keys_present (p : CPAGE) : Prop := forall i, 0 <= i < Clines p -> keyed p i -> node_key p i <> [].
Definition keys_in_order (p : CPAGE) : Prop := forall i, 0 < i < Clines p -> keyed p i -> lex (node_key p (i - 1)) (node_key p i) <= 0.

Section Accept.
Variables (DEBUG g_fRepair : bool) (grbit : Z) (p : CPAGE).
Abbreviation ib k := (TAG_Ib p (PtagFromItag_ p k)).
Abbreviation cb k := (TAG_Cb p (PtagFromItag_ p k)).
Abbreviation resv := (m_ctagReserved p).
Hypothesis Np : node_page p.
Hypothesis Co : coherent g_fRepair p.
Hypothesis Kp : g_fRepair = true \/ keys_present p.
Hypothesis Ko : grbit .& CheckLinesInOrder <> 0 -> keys_in_order p.
Hypothesis Deb : DEBUG = false \/ forall k, 0 <= k < resv -> cb k <> 1.

Local Lemma Inv : page_inv p.
Proof. apply Np. Qed.

Lemma header_passes : check_header g_fRepair p = Ok tt.
Proof.
  pose proof Inv as I. destruct Co as [C1 C2 C3 C4 C5 C6 C7]. pose proof (room p I) as R. pose proof (ibMicFree_range p I) as U. pose proof (cbFree_range p I) as V. pose proof (cbFree_eq p I) as Fe. pose proof (cb_total_nonneg (lines p)) as T. pose proof (header_size p) as Hs.
  pose proof (inv_tags p I) as G. pose proof (inv_size p I) as Sz. pose proof (inv_buf p I) as Bf. unfold check_header, CbBufferData, CbTagArray_, sizeof_TAG in *.
  assert (F1 : (cbBuffer p - CbPageHeader p <? cbFree p) = false) by (apply Z.ltb_ge; lia). rewrite F1. clear F1.
  assert (F2 : (CbPageFree p <? cbUncommittedFree p) = false). { apply Z.ltb_ge. unfold CbPageFree. rewrite (CbAdjust_0 p I), Z.add_0_r. unfold u16. rewrite Z.mod_small by lia. exact C1. }
  rewrite F2. assert (F3 : (cbBuffer p - CbPageHeader p <? ibMicFree p) = false) by (apply Z.ltb_ge; lia). rewrite F3.
  assert (F4 : (u64 (cbBuffer p - CbPageHeader p) / 4 <=? m_itagMicFree p) = false). { apply Z.leb_gt. rewrite u64_small by lia. apply Z.lt_le_trans with (m_itagMicFree p + 1); [lia|]. apply Z.div_le_lower_bound; lia. }
  rewrite F4. assert (F5 : (m_itagMicFree p =? 0) = false) by (apply Z.eqb_neq; lia). rewrite F5. unfold bad_if. cbn [andb].
  assert (F6 : (PbDataEnd_ p <=? PbDataStart_ p + 1) = false) by (apply Z.leb_gt; rewrite PbDataStart_eq; unfold PbDataEnd_, CbTagArray_, sizeof_TAG; lia). rewrite F6.
  assert (F7 : (PbDataEnd_ p - PbDataStart_ p - (m_itagMicFree p - 1) * cbMinLine <? 0) = false) by (apply Z.ltb_ge; rewrite PbDataStart_eq; unfold PbDataEnd_, CbTagArray_, sizeof_TAG, cbMinLine; lia). rewrite F7, andb_false_r.
  rewrite C2, andb_false_r. cbn [andb]. unfold FPrimaryPage. rewrite andb_assoc, andb_negb_r. cbn [andb]. rewrite C3, C4. reflexivity.
Qed.

Lemma tag_fits k : 0 <= k < m_itagMicFree p -> line_fits p k.
Proof.
  intros K. pose proof (TAG_Cb_range p (PtagFromItag_ p k)) as R. unfold line_fits. destruct (Z_lt_le_dec k resv) as [L|L].
  - destruct (line_below p Inv k K) as [E|[_ E]]; [left; auto|]. destruct (Z.eq_dec (cb k) 0); [left; auto|right; lia].
  - right. pose proof (node_page_ok p (k - resv) Np ltac:(unfold Clines; lia)) as Hok. replace (k - resv + resv) with k in Hok by lia. destruct (line_sizes p k (prefix_bytes p) Hok) as (S1 & S2 & S3 & _). destruct (line_below p Inv k K) as [E|[_ E]]; lia.
Qed.

Lemma line_cb_node k : resv <= k < m_itagMicFree p -> 2 <= cb k.
Proof.
  intros K. pose proof (node_page_ok p (k - resv) Np ltac:(unfold Clines; lia)) as Hok. replace (k - resv + resv) with k in Hok by lia. destruct (line_sizes p k (prefix_bytes p) Hok) as (S1 & S2 & S3 & _). lia.
Qed.

(** The accessor finds every line that is not empty. *)
Lemma Checked_pv k : 0 <= k < m_itagMicFree p -> cb k <> 0 -> ln_pv (fst (GetPtr_Checked p k)) = PvPage (PbFromIb_ p (ib k)) /\ ln_cb (fst (GetPtr_Checked p k)) = cb k.
Proof.
  intros K N. pose proof (ptag_range p Inv k K) as T. pose proof (ibMicFree_range p Inv) as U. pose proof (header_size p). unfold GetPtr_Checked. cbv zeta. rewrite !PbDataStart_eq. destruct (Z.ltb_spec (PtagFromItag_ p k) (CbPageHeader p)); [lia|]. unfold sizeof_TAG. destruct (Z.ltb_spec (cbBuffer p) (PtagFromItag_ p k + 4 - 1)); [lia|]. cbn [orb].
  destruct (Z.eqb_spec (cb k) 0); [contradiction|]. destruct (_ || _); cbn; auto.
Qed.

Lemma check_line_passes k : 0 <= k < m_itagMicFree p -> cb k <> 0 -> check_line DEBUG p k (cb k) = Ok tt.
Proof.
  intros K N. pose proof (TAG_Cb_range p (PtagFromItag_ p k)) as R. pose proof (TAG_Ib_range p (PtagFromItag_ p k)) as Ri. pose proof (room p Inv) as Rm. pose proof (ibMicFree_range p Inv) as U. destruct (tag_fits k K) as [[E _]|[_ Fit]]; [contradiction|].
  assert (G : exists err, (if k <? resv then ErrGetPtrReservedTag p k else ErrGetPtr p (k - resv)) = (fst (GetPtr_Checked p k), err) /\ (2 <= cb k -> err = JET_errSuccess)).
  { exists (snd (GetPtr_Checked p k)). unfold ErrGetPtrReservedTag, ErrGetPtr. replace (k - resv + resv) with k by lia. split; [destruct (k <? resv); apply surjective_pairing|]. intros C2. now rewrite (Checked_complete p k Inv K C2). }
  destruct G as (err & Ge & Ee). unfold check_line. rewrite Ge. destruct (Checked_pv k K N) as [-> ->]. unfold bad_if, FOnData. rewrite !PbDataStart_eq. unfold PbDataEnd_, CbTagArray_, sizeof_TAG, PbFromIb_.
  replace (CbPageHeader p + ib k + cb k - 1 <? CbPageHeader p) with false by (symmetry; apply Z.ltb_ge; lia). replace (CbPageHeader p + ib k <? CbPageHeader p) with false by (symmetry; apply Z.ltb_ge; lia).
  replace (cbBuffer p - m_itagMicFree p * 4 - 1 <? CbPageHeader p + ib k) with false by (symmetry; apply Z.ltb_ge; lia). replace (cbBuffer p - m_itagMicFree p * 4 - 1 <? CbPageHeader p + ib k + cb k - 1) with false by (symmetry; apply Z.ltb_ge; lia). rewrite !andb_false_r.
  destruct Deb as [-> | D]; [reflexivity|]. assert (C2 : 2 <= cb k). { destruct (Z_lt_le_dec k resv) as [L|L]; [specialize (D k ltac:(lia)); lia|apply line_cb_node; lia]. }
  rewrite (Ee C2). change (JET_errSuccess <? JET_errSuccess) with false. cbn [orb].
  replace (CbPageHeader p <=? CbPageHeader p + ib k) with true by (symmetry; apply Z.leb_le; lia). replace (CbPageHeader p + ib k <? cbBuffer p - m_itagMicFree p * 4 - 1) with true by (symmetry; apply Z.ltb_lt; lia).
  replace (CbPageHeader p <=? CbPageHeader p + ib k + cb k - 1) with true by (symmetry; apply Z.leb_le; lia). replace (CbPageHeader p + ib k + cb k - 1 <=? cbBuffer p - m_itagMicFree p * 4 - 1) with true by (symmetry; apply Z.leb_le; lia). cbn. now rewrite andb_false_r.
Qed.

(** What the node check has as the last key when it comes to a line. *)
Definition key_before (k : Z) (key : KEY) : Prop := resv < k -> key = kdf_key (read_kdf p (k - 1 - resv)).

Lemma ITagMicFree_eq : ITagMicFree p = m_itagMicFree p.
Proof. pose proof (inv_state p Inv) as S. unfold ITagMicFree. rewrite <- S at 2. reflexivity. Qed.

Lemma check_node_passes k key : FSpaceTree p = false -> resv <= k < m_itagMicFree p -> (negb (grbit .& CheckLinesInOrder =? 0) = true -> key_before k key) ->
  exists key', check_node g_fRepair grbit p k (cb k) key = Ok key' /\ (negb (grbit .& CheckLinesInOrder =? 0) = true -> key_before (k + 1) key').
Proof.
  intros Sp K Kb. assert (I : 0 <= k - resv < Clines p) by (unfold Clines; lia). pose proof (node_page_ok p (k - resv) Np I) as Hok. replace (k - resv + resv) with k in Hok by lia.
  destruct (line_sizes p k (prefix_bytes p) Hok) as (S1 & S2 & S3 & S4 & S5 & S6). pose proof (TAG_Cb_range p (PtagFromItag_ p k)) as R. unfold check_node. rewrite (checked_form p (k - resv) Np I).
  set (kdf := read_kdf p (k - resv)). assert (Ekdf : kdf = read_kdf p (k - resv)) by reflexivity. unfold read_kdf in Ekdf. replace (k - resv + resv) with k in Ekdf by lia.
  pose proof (compressed_header p (k - resv) Np I) as Hc. replace (k - resv + resv) with k in Hc by lia. cbn [content fst tag_line line_at l_flags] in Hc. set (c := content (tag_line p k)) in *. set (h := if compressed (TAG_FFlags p (PtagFromItag_ p k)) then 2 else 0) in *. set (cbS := word13 (suffix_part c)) in *.
  assert (Ecomp : FNDCompressed kdf = compressed (TAG_FFlags p (PtagFromItag_ p k))) by (rewrite Ekdf; reflexivity). assert (Esuf : dCb (suffix (kdf_key kdf)) = cbS) by (rewrite Ekdf; reflexivity). assert (Edat : dCb (kdf_data kdf) = cb k - h - 2 - cbS) by (rewrite Ekdf; reflexivity).
  assert (Ehd : (if FNDCompressed kdf then 2 else 0) = h) by now rewrite Ecomp.
  assert (Epre : FNDCompressed kdf = true -> dCb (prefix (kdf_key kdf)) = cb_prefix c /\ 0 <= cb_prefix c <= cbPrefixMax p).
  { rewrite Ecomp. intros E. destruct (Hc E) as (H1 & H2 & H3). rewrite Ekdf. cbn [kdf_key prefix]. rewrite E. destruct H1 as [H1|H1]; [|congruence]. split; [unfold prefix_ref; now rewrite H1|].
    unfold cbPrefixMax. rewrite Sp. destruct (Z.eqb_spec (objidFDP p) 0) as [E0|_]; [destruct Co; contradiction|]. cbn [orb]. lia. }
  pose proof (read_kdf_node p (k - resv) Np I) as Rn. fold kdf in Rn. pose proof (length_key_bytes (pv p) _ (rn_key_ok _ _ _ Rn)) as Lk. rewrite (rn_key _ _ _ Rn) in Lk. fold (node_key p (k - resv)) in Lk. unfold KEY_Cb in Lk.
  assert (B1 : FNDCompressed kdf && ((cbPrefixMax p <? dCb (prefix (kdf_key kdf))) || (dCb (prefix (kdf_key kdf)) <? 0)) = false).
  { destruct (FNDCompressed kdf); [|reflexivity]. destruct (Epre eq_refl) as [-> P]. cbn [andb]. apply orb_false_iff. split; apply Z.ltb_ge; lia. }
  assert (B2 : (cb k <? dCb (suffix (kdf_key kdf))) || (dCb (suffix (kdf_key kdf)) <? 0) = false) by (rewrite Esuf; apply orb_false_iff; split; apply Z.ltb_ge; lia).
  assert (B3 : (dCb (prefix (kdf_key kdf)) =? 0) && (dCb (suffix (kdf_key kdf)) =? 0) && (FLeafPage p || (k <? ITagMicFree p - 1)) && negb g_fRepair = false).
  { destruct Kp as [-> | Kpr]; [apply andb_false_r|]. destruct (FLeafPage p || (k <? ITagMicFree p - 1)) eqn:El; [|now rewrite andb_false_r]. rewrite andb_true_r. apply andb_false_iff. left. apply not_true_iff_false. intros Ez. apply andb_true_iff in Ez as [Z1 Z2]. apply Z.eqb_eq in Z1, Z2.
    assert (Ky : keyed p (k - resv)) by (unfold keyed, Clines; apply orb_true_iff in El as [El|El]; [now left|right; apply Z.ltb_lt in El; rewrite ITagMicFree_eq in El; lia]). apply (Kpr (k - resv) I Ky). apply length_zero_iff_nil. lia. }
  assert (B4 : (cb k <? dCb (kdf_data kdf)) || (dCb (kdf_data kdf) <? 0) = false) by (rewrite Edat; apply orb_false_iff; split; apply Z.ltb_ge; lia).
  assert (B5 : (dCb (kdf_data kdf) =? 0) = false) by (apply Z.eqb_neq; lia).
  assert (B6 : (cb k <? (if FNDCompressed kdf then 2 else 0) + 2 + dCb (suffix (kdf_key kdf)) + dCb (kdf_data kdf)) || ((if FNDCompressed kdf then 2 else 0) + 2 + dCb (suffix (kdf_key kdf)) + dCb (kdf_data kdf) <? 0) = false) by (rewrite Ehd, Esuf, Edat; apply orb_false_iff; split; apply Z.ltb_ge; lia).
  rewrite B1, B2, B3, B4, B5, B6. cbn [bad_if]. change (JET_errSuccess <? JET_errSuccess) with false. cbn [bad_if].
  destruct (negb (grbit .& CheckLinesInOrder =? 0)) eqn:Eo; [|exists key; split; [reflexivity|discriminate]]. exists (kdf_key kdf). split; [|intros _ _; unfold kdf; do 3 f_equal; lia].
  assert (B7 : (resv <? k) && (FLeafPage p || (k <? m_itagMicFree p - 1)) && (CmpKey (pv p) (kdf_key kdf) key <? 0) = false).
  { apply not_true_iff_false. intros E. apply andb_true_iff in E as [E E3]. apply andb_true_iff in E as [E1 E2]. apply Z.ltb_lt in E1, E3. rewrite (Kb eq_refl E1) in E3.
    assert (Ky : keyed p (k - resv)) by (unfold keyed, Clines; apply orb_true_iff in E2 as [E2|E2]; [now left|right; apply Z.ltb_lt in E2; lia]).
    assert (Eo' : grbit .& CheckLinesInOrder <> 0) by (intros X; rewrite X in Eo; discriminate). pose proof (Ko Eo' (k - resv) ltac:(lia) Ky) as L. pose proof (read_kdf_node p (k - 1 - resv) Np ltac:(unfold Clines; lia)) as Rp.
    pose proof (CmpKey_spec (pv p) _ _ (rn_key_ok _ _ _ Rn) (rn_key_ok _ _ _ Rp)) as Cs. rewrite (rn_key _ _ _ Rn), (rn_key _ _ _ Rp) in Cs. unfold node_key in L. replace (k - resv - 1) with (k - 1 - resv) in L by lia. rewrite lex_sym in L. lia. }
  now rewrite B7.
Qed.

(** ** All the tags of a page of nodes *)

Definition passing (k : Z) (s : check_state) : Prop :=
  cbTotal s = cb_sum p 0 (Z.to_nat k) /\ dwOverlaps s = 0 /\ (negb (grbit .& CheckLinesInOrder =? 0) && negb (FSpaceTree p) && negb (grbit .& CheckLineBoundedByTag =? 0) = true -> key_before k (keyLast s)) /\
  match rgdw s with None => True | Some rg => map_ok rg /\ ibMicFree p <= 32 * cdw rg /\ forall x, marked rg x = true -> exists k', 0 <= k' < k /\ seen_by p k' x = true end.

Lemma cb_sum_S k0 n : cb_sum p k0 (S n) = cb_sum p k0 n + cb (k0 + Z.of_nat n).
Proof.
  revert k0. induction n as [|n IH]; intros k0.
  - cbn [cb_sum]. replace (k0 + Z.of_nat 0) with k0 by lia. lia.
  - change (cb_sum p k0 (S (S n))) with (cb k0 + cb_sum p (k0 + 1) (S n)). rewrite IH. cbn [cb_sum]. replace (k0 + 1 + Z.of_nat n) with (k0 + Z.of_nat (S n)) by lia. lia.
Qed.

Lemma seen_in_line k x : seen_by p k x = true -> ib k <= x < ib k + cb k.
Proof. unfold seen_by, seen. rewrite !andb_true_iff, Z.leb_le, Z.ltb_lt. lia. Qed.

(** Lines of a well-formed page are apart, so no byte is seen twice. *)
Lemma seen_apart k k' x : 0 <= k' < k -> k < m_itagMicFree p -> seen_by p k' x = true -> seen_by p k x = false.
Proof.
  intros K L S'. destruct (seen_by p k x) eqn:S; [|reflexivity]. apply seen_in_line in S, S'. pose proof (lines_apart p Inv k' k ltac:(lia) ltac:(lia) ltac:(lia)) as A. cbn in A. lia.
Qed.

Lemma check_tag_passes k s : 0 <= k < m_itagMicFree p -> passing k s -> exists s', check_tag DEBUG g_fRepair grbit p k s = Ok s' /\ passing (k + 1) s'.
Proof.
  intros K (P1 & P2 & P3 & P4). pose proof (TAG_Cb_range p (PtagFromItag_ p k)) as R. pose proof (TAG_Ib_range p (PtagFromItag_ p k)) as Ri. pose proof (room p Inv) as Rm. pose proof (ibMicFree_range p Inv) as U. pose proof (inv_tags p Inv) as G. unfold ITAG_MIC_FREE_MASK in G.
  pose proof (cb_sum_range p 0 (Z.to_nat k)) as Sr. pose proof (header_size p) as Hs. pose proof (tag_fits k K) as Fit. unfold check_tag.
  assert (Et : s32 (cbTotal s + cb k) = cb_sum p 0 (Z.to_nat (k + 1))). { replace (Z.to_nat (k + 1)) with (S (Z.to_nat k)) by lia. rewrite cb_sum_S, P1. replace (0 + Z.of_nat (Z.to_nat k)) with k by lia. rewrite s32_small by lia. reflexivity. }
  rewrite Et. set (order := negb (grbit .& CheckLinesInOrder =? 0) && negb (FSpaceTree p) && negb (grbit .& CheckLineBoundedByTag =? 0)) in *.
  assert (Wk : match rgdw s with None => True | Some rg => map_ok rg /\ ibMicFree p <= 32 * cdw rg /\ forall x, marked rg x = true -> exists k', 0 <= k' < k + 1 /\ seen_by p k' x = true end).
  { destruct (rgdw s) as [rg|]; [|exact I]. destruct P4 as (Q1 & Q2 & Q3). split; [exact Q1|]. split; [exact Q2|]. intros x X. destruct (Q3 x X) as (k' & K' & Sx). exists k'. split; [lia|exact Sx]. }
  destruct (Z.eqb_spec (cb k) 0) as [E0|N0].
  - destruct Fit as [[_ L]|[F _]]; [|lia]. replace (k <? resv) with true by (symmetry; now apply Z.ltb_lt). eexists. split; [reflexivity|]. split; [reflexivity|]. split; [exact P2|]. split; [intros _ L2; lia|exact Wk].
  - destruct Fit as [[E0 _]|[_ F]]; [contradiction|]. replace (ibMicFree p <? ib k + cb k) with false by (symmetry; apply Z.ltb_ge; lia). cbn [bad_if]. destruct (Z.eqb_spec grbit 0) as [G0|G0]; cbn [negb].
    + eexists. split; [reflexivity|]. split; [reflexivity|]. split; [exact P2|]. split; [intros Eo; unfold order in Eo; rewrite G0 in Eo; discriminate|exact Wk].
    + unfold check_extensive. cbn [cbTotal rgdw dwOverlaps keyLast].
      replace ((cbBuffer p <=? ib k) || (cbBuffer p <=? cb k) || (cbBuffer p <=? ib k + cb k)) with false by (symmetry; rewrite !orb_false_iff; repeat split; apply Z.leb_gt; lia). cbn [bad_if]. rewrite check_line_passes by assumption.
      assert (Key : exists key, (if negb (grbit .& CheckLineBoundedByTag =? 0) && negb (FSpaceTree p) && (resv <=? k) then check_node g_fRepair grbit p k (cb k) (keyLast s) else Ok (keyLast s)) = Ok key /\ (order = true -> key_before (k + 1) key)).
      { destruct (negb (grbit .& CheckLineBoundedByTag =? 0) && negb (FSpaceTree p) && (resv <=? k)) eqn:Ec.
        - apply andb_true_iff in Ec as [Ec E3]. apply andb_true_iff in Ec as [E1 E2]. apply Z.leb_le in E3. destruct (check_node_passes k (keyLast s) (proj1 (negb_true_iff _) E2) ltac:(lia)) as (key & E & Kb); [intros Eo; apply P3; unfold order; now rewrite Eo, E1, E2|].
          exists key. split; [exact E|]. intros Eo. apply Kb. unfold order in Eo. apply andb_true_iff in Eo as [Eo _]. now apply andb_true_iff in Eo as [Eo _].
        - exists (keyLast s). split; [reflexivity|]. intros Eo L2. exfalso. unfold order in Eo. apply andb_true_iff in Eo as [Eo E1]. apply andb_true_iff in Eo as [_ E2]. rewrite E1, E2 in Ec. cbn in Ec. apply Z.leb_gt in Ec. lia. }
      destruct Key as (key & -> & Kb). destruct (rgdw s) as [rg|]; [|eexists; split; [reflexivity|]; split; [reflexivity|]; split; [exact P2|]; split; [exact Kb|exact I]].
      destruct P4 as (Q1 & Q2 & Q3). destruct (mark_tag_marks p (inv_mem p Inv) k rg (dwOverlaps s) (or_intror (conj (proj1 (conj (ltac:(lia) : 0 < cb k) I)) F)) Q1 Q2 ltac:(lia)) as (rg' & ov' & Em & C' & K' & Ro' & B' & Z').
      destruct (Z.eqb_spec (cb k) 0); [contradiction|]. rewrite Em. eexists. split; [reflexivity|]. split; [reflexivity|]. split; [|split; [exact Kb|]].
      * cbn. apply Z'. split; [exact P2|]. intros x X. apply not_true_iff_false. intros Y. destruct (Q3 x Y) as (k' & Hk' & S'). rewrite (seen_apart k k' x Hk' ltac:(lia) S') in X. discriminate.
      * cbn. split; [exact K'|]. split; [now rewrite C'|]. intros x X. rewrite B' in X. apply orb_true_iff in X as [X|X]; [destruct (Q3 x X) as (k' & Hk' & S'); exists k'; split; [lia|exact S']|exists k; split; [lia|exact X]].
Qed.

Lemma check_tags_pass n k s : Z.of_nat n = m_itagMicFree p - k -> 0 <= k -> passing k s -> exists s', check_tags n DEBUG g_fRepair grbit p k s = Ok s' /\ passing (m_itagMicFree p) s'.
Proof.
  revert k s. induction n as [|n IH]; intros k s E P Ps.
  - exists s. split; [reflexivity|]. now replace (m_itagMicFree p) with k by lia.
  - destruct (check_tag_passes k s ltac:(lia) Ps) as (s1 & E1 & P1). cbn [check_tags]. rewrite E1. apply IH; [lia|lia|exact P1].
Qed.

Lemma cb_sum_lines n k : cb_sum p (Z.of_nat k) n = cb_total (map (fun i => line_at p (PtagFromItag_ p (Z.of_nat i))) (seq k n)).
Proof. revert k. induction n as [|n IH]; intros k; [reflexivity|]. cbn [cb_sum seq map]. match goal with |- _ = cb_total (?x :: ?l) => change (cb_total (x :: l)) with (l_cb x + cb_total l) end. rewrite l_cb_line_at, <- (IH (S k)). do 2 f_equal. lia. Qed.

Lemma new_map_room : ibMicFree p <= 32 * cdw (new_byte_map p).
Proof.
  change (cdw (new_byte_map p)) with ((CbBufferData p + 31) / 32). pose proof (room p Inv) as R. pose proof (inv_tags p Inv) as G. assert (B : ibMicFree p <= CbBufferData p) by (unfold CbBufferData; lia). zlia.
Qed.

Lemma page_passes new_ok : check_page DEBUG g_fRepair new_ok grbit p = Ok tt.
Proof.
  unfold check_page. rewrite header_passes. set (m0 := if _ && new_ok then _ else None). pose proof (inv_tags p Inv) as G. unfold ITAG_MIC_FREE_MASK in G.
  destruct (check_tags_pass (Z.to_nat (m_itagMicFree p)) 0 (CheckState 0 m0 0 KEY_Nullify)) as (s & -> & P1 & P2 & _); [lia|lia| |].
  - split; [reflexivity|]. split; [reflexivity|]. split; [intros _ L; pose proof (inv_resv p Inv); lia|]. cbn. unfold m0. destruct (_ && new_ok); [|exact I]. split; [intros i; cbn; lia|]. split; [apply new_map_room|]. intros x. unfold marked. cbn. rewrite Z.bits_0. discriminate.
  - rewrite P2, P1. cbn [Z.eqb negb bad_if]. pose proof (cb_sum_range p 0 (Z.to_nat (m_itagMicFree p))) as Sr. pose proof (cb_sum_lines (Z.to_nat (m_itagMicFree p)) 0) as El. change (Z.of_nat 0) with 0 in El. fold (lines p) in El. rewrite El in *.
    pose proof (cbFree_eq p Inv) as Fe. pose proof (cbFree_range p Inv) as Fr. pose proof (inv_size p Inv). pose proof (inv_buf p Inv). pose proof (header_size p). unfold CbTagArray_, CbBufferData, sizeof_TAG. rewrite s32_small by lia.
    replace (cb_total (lines p) + cbFree p + m_itagMicFree p * 4 =? cbBuffer p - CbPageHeader p) with true by (symmetry; apply Z.eqb_eq; lia). reflexivity.
Qed.

End Accept.

(** ** The theorems *)

Definition tag_count_ok (p : CPAGE) : Prop := 0 <= m_itagMicFree p <= ITAG_MIC_FREE_MASK.

(** What the loop over the tags starts with. *)
Definition start_state (new_ok : bool) (grbit : Z) (p : CPAGE) : check_state :=
  CheckState 0 (if negb (grbit .& CheckTagsNonOverlapping =? 0) && new_ok then Some (new_byte_map p) else None) 0 KEY_Nullify.

Lemma header_Ok g_fRepair p : check_header g_fRepair p = Ok tt -> cbFree p <= CbBufferData p /\ ibMicFree p <= CbBufferData p.
Proof. intros H. unfold check_header in H. passed H. passed H. passed H. apply Z.ltb_ge in E, E1. auto. Qed.

Lemma map_fits p : ibMicFree p <= CbBufferData p -> ibMicFree p <= 32 * cdw (new_byte_map p).
Proof. intros B. change (cdw (new_byte_map p)) with ((CbBufferData p + 31) / 32). zlia. Qed.

Lemma start_map new_ok grbit p : grbit .& CheckTagsNonOverlapping <> 0 -> new_ok = true -> ibMicFree p <= CbBufferData p ->
  map_state p (start_state new_ok grbit p) (new_byte_map p) /\ forall x, marked (new_byte_map p) x = false.
Proof.
  intros G -> B. unfold map_state, start_state. cbn [rgdw dwOverlaps]. destruct (Z.eqb_spec (grbit .& CheckTagsNonOverlapping) 0); [contradiction|]. cbn [negb andb]. split.
  - split; [reflexivity|]. split; [intros i; cbn; lia|]. split; [now apply map_fits|lia].
  - intros x. unfold marked. cbn. apply Z.bits_0.
Qed.

Lemma grbit_nonzero grbit f : grbit .& f <> 0 -> grbit <> 0.
Proof. intros N ->. now apply N. Qed.

(** Only the last but one test reports an overlap. *)
Definition silent {A} (o : verdict A) : Prop := o <> Bad TagsOverlap.

Lemma silent_bind {A B} (o : verdict A) (k : A -> verdict B) : silent o -> (forall a, silent (k a)) -> silent (match o with Ok a => k a | Bad c => Bad c | Stuck => Stuck end).
Proof. unfold silent. intros S K. destruct o as [a|c|]; [apply K| |discriminate]. intros E. injection E as ->. now apply S. Qed.
Lemma silent_bad_if b c : c <> TagsOverlap -> silent (bad_if b c).
Proof. unfold silent, bad_if. intros N. destruct b; [congruence|discriminate]. Qed.

Ltac silence := repeat first [apply silent_bind; [|intros ?] | apply silent_bad_if; discriminate | discriminate | match goal with |- silent (if ?b then _ else _) => destruct b | |- silent (match ?x with _ => _ end) => destruct x end].

Lemma mark_line_silent rg ov ib cb : silent (mark_line rg ov ib cb).
Proof.
  assert (W : forall rg i set ov, silent (mark_word rg i set ov)) by (intros; unfold mark_word; silence).
  rewrite mark_line_alt. apply silent_bind.
  - generalize (S (Z.to_nat cb)) as fuel. intros fuel. revert rg ov ib cb. induction fuel as [|fuel IH]; intros rg ov ib cb; cbn [mark_full]; [discriminate|]. destruct (_ <=? _); [|discriminate]. apply silent_bind; [apply W|]. intros [rg' ov']. apply IH.
  - intros [[[rg' ov'] ib'] cb']. unfold mark_tail. destruct (cb' =? 0); [discriminate|apply W].
Qed.

#[local] Opaque mark_line.
Lemma check_tag_silent DEBUG g_fRepair grbit p k s : silent (check_tag DEBUG g_fRepair grbit p k s).
Proof.
  unfold check_tag, check_extensive, check_line, check_node. repeat first [apply mark_line_silent | progress silence].
Qed.

#[local] Transparent mark_line.
Lemma check_tags_silent n DEBUG g_fRepair grbit p k s : silent (check_tags n DEBUG g_fRepair grbit p k s).
Proof. revert k s. induction n as [|n IH]; intros k s; cbn [check_tags]; [discriminate|]. apply silent_bind; [apply check_tag_silent|intros s'; apply IH]. Qed.

(** The check ends with success or an overlap only after its last tag. *)
Lemma check_page_split DEBUG g_fRepair new_ok grbit p r : r = Ok tt \/ r = Bad TagsOverlap -> check_page DEBUG g_fRepair new_ok grbit p = r ->
  exists s, check_header g_fRepair p = Ok tt /\ check_tags (Z.to_nat (m_itagMicFree p)) DEBUG g_fRepair grbit p 0 (start_state new_ok grbit p) = Ok s /\
    (dwOverlaps s <> 0 <-> r = Bad TagsOverlap) /\ (r = Ok tt -> s32 (cbTotal s + cbFree p + CbTagArray_ p) = CbBufferData p).
Proof.
  intros C H. unfold check_page in H. fold (start_state new_ok grbit p) in H. assert (Sh : silent (check_header g_fRepair p)) by (unfold check_header; silence).
  destruct (check_header g_fRepair p) as [[]|c|]; [|destruct C as [-> | ->]; [discriminate|destruct (Sh H)]|destruct C as [-> | ->]; discriminate].
  pose proof (check_tags_silent (Z.to_nat (m_itagMicFree p)) DEBUG g_fRepair grbit p 0 (start_state new_ok grbit p)) as St. unfold start_state in *.
  destruct (check_tags _ _ _ _ _ _ _) as [s|c|]; [|destruct C as [-> | ->]; [discriminate|injection H as ->; destruct (St eq_refl)]|destruct C as [-> | ->]; discriminate].
  exists s. split; [reflexivity|]. split; [reflexivity|]. unfold bad_if in H. destruct (Z.eqb_spec (dwOverlaps s) 0) as [E|N]; cbn [negb] in H.
  - destruct (Z.eqb_spec (s32 (cbTotal s + cbFree p + CbTagArray_ p)) (CbBufferData p)) as [E2|N2]; cbn [negb] in H.
    + subst r. split; [split; [contradiction|discriminate]|auto].
    + destruct C as [-> | ->]; discriminate.
  - subst r. split; [tauto|discriminate].
Qed.

Section Theorems.
Variables (DEBUG g_fRepair new_ok : bool) (grbit : Z) (p : CPAGE).
Abbreviation ib k := (TAG_Ib p (PtagFromItag_ p k)).
Abbreviation cb k := (TAG_Cb p (PtagFromItag_ p k)).
Abbreviation n := (m_itagMicFree p).

(** A line contains a byte; the map does not show it. *)
Definition on_line (k x : Z) : Prop := ib k <= x < ib k + cb k.
Definition unseen (k x : Z) : Prop := 8 <= ib k mod 32 /\ x / 32 = ib k / 32.

Lemma seen_by_iff k x : 0 <= ib k -> seen_by p k x = true <-> on_line k x /\ ~ unseen k x.
Proof.
  intros P. unfold seen_by, seen, on_line, unseen. rewrite !andb_true_iff, orb_true_iff, Z.leb_le, !Z.ltb_lt. pose proof (Z.mod_pos_bound x 32 ltac:(lia)) as Rx. pose proof (Z.div_mod x 32 ltac:(lia)) as Dx.
  pose proof (Z.mod_pos_bound (ib k) 32 ltac:(lia)) as R. pose proof (Z.div_mod (ib k) 32 ltac:(lia)) as D. lia.
Qed.

Hypothesis Mok : mem_ok (pv p).
Hypothesis Tags : tag_count_ok p.

Lemma tags_result s : check_tags (Z.to_nat n) DEBUG g_fRepair grbit p 0 (start_state new_ok grbit p) = Ok s -> ibMicFree p <= CbBufferData p ->
  cbTotal s = cb_total (lines p) /\ (forall k, 0 <= k < n -> line_fits p k) /\
  (fBounded grbit p = true -> forall k, 0 <= k < n -> m_ctagReserved p <= k -> (exists kdf, node_fits g_fRepair p k kdf) /\ (fInOrder grbit p = true -> 0 < k -> not_below p k (key_at p k) (key_at p (k - 1)))) /\
  (grbit .& CheckTagsNonOverlapping <> 0 -> new_ok = true -> (dwOverlaps s = 0 <-> seen_once p 0 n)).
Proof.
  intros H B. unfold tag_count_ok, ITAG_MIC_FREE_MASK in Tags. destruct (check_tags_Ok DEBUG g_fRepair grbit p Mok (Z.to_nat n) 0 (start_state new_ok grbit p) s H) as (T & L & N & M); [cbn [cbTotal start_state]; lia|cbn [cbTotal start_state]; lia|]. rewrite Z2Nat.id in * by lia. replace (0 + n) with n in * by lia.
  split; [|split; [exact L|split]].
  - rewrite T. cbn [cbTotal start_state]. pose proof (cb_sum_lines p (Z.to_nat n) 0) as El. change (Z.of_nat 0) with 0 in El. fold (lines p) in El. rewrite El. reflexivity.
  - intros Fb k K Rk. destruct (N Fb k K Rk) as [Nf Ko]. split; [exact Nf|]. intros Fo P. specialize (Ko Fo). destruct (Z.eqb_spec k 0); [lia|exact Ko].
  - intros G Nk. destruct (start_map new_ok grbit p G Nk B) as [Ms Em]. destruct (M (grbit_nonzero _ _ G) _ Ms) as (rg' & _ & _ & Zs). rewrite Zs. split; [tauto|]. intros So. split; [reflexivity|]. split; [intros x _; apply Em|exact So].
Qed.

(** C12: A page that the check accepts is in order: all its space is accounted for, each
    line ends before the free space and only reserved lines are empty; with the
    bounds of nodes checked each node is read without an error and lies in its line,
    and its prefix in the external header; with their order checked no key is below
    the one before. *)
Theorem accepted_pages_are_consistent : ErrCheckPage DEBUG g_fRepair new_ok OnErrorReturnError grbit p = Some JET_errSuccess ->
  cb_total (lines p) + cbFree p + CbTagArray_ p = CbBufferData p /\ ibMicFree p <= CbBufferData p /\ (forall k, 0 <= k < n -> line_fits p k) /\
  (fBounded grbit p = true -> forall k, 0 <= k < n -> m_ctagReserved p <= k -> exists kdf, node_fits g_fRepair p k kdf) /\
  (fInOrder grbit p = true -> forall k, 0 < k < n -> m_ctagReserved p <= k -> not_below p k (key_at p k) (key_at p (k - 1))).
Proof.
  intros H. unfold ErrCheckPage in H. destruct (check_page DEBUG g_fRepair new_ok grbit p) as [[]|c|] eqn:E; [|discriminate..]. clear H.
  destruct (check_page_split DEBUG g_fRepair new_ok grbit p (Ok tt) (or_introl eq_refl) E) as (s & Hh & Ht & _ & Ha). destruct (header_Ok _ _ Hh) as [B1 B2]. destruct (tags_result s Ht B2) as (T & L & N & _).
  unfold tag_count_ok, ITAG_MIC_FREE_MASK in Tags. pose proof (load16_range (pv p) Mok 28) as F. fold (cbFree p) in F. specialize (Ha eq_refl). pose proof (cb_sum_range p 0 (Z.to_nat n)) as Sr. pose proof (cb_sum_lines p (Z.to_nat n) 0) as El. change (Z.of_nat 0) with 0 in El. fold (lines p) in El.
  unfold CbTagArray_, sizeof_TAG in *. rewrite T, s32_small in Ha by lia. split; [exact Ha|]. split; [exact B2|]. split; [exact L|]. split.
  - intros Fb k K Rk. now apply (N Fb k K Rk).
  - intros Fo k K Rk. pose proof Fo as Fo'. unfold fInOrder in Fo'. apply andb_true_iff in Fo' as [Fb _]. apply (N Fb k ltac:(lia) Rk); [exact Fo|lia].
Qed.

(** Whether two lines share a byte that the map shows can be decided. *)
Definition zrange (m : Z) : list Z := map Z.of_nat (seq 0 (Z.to_nat m)).

Lemma in_zrange m x : In x (zrange m) <-> 0 <= x < m.
Proof. unfold zrange. rewrite in_map_iff. split; [intros (j & <- & J); apply in_seq in J; lia|intros B; exists (Z.to_nat x); split; [lia|apply in_seq; lia]]. Qed.

Lemma seen_once_dec : seen_once p 0 n \/ exists k k' x, 0 <= k < k' /\ k' < n /\ seen_by p k x = true /\ seen_by p k' x = true.
Proof.
  set (test := existsb (fun k => existsb (fun k' => existsb (fun x => (k <? k') && seen_by p k x && seen_by p k' x) (zrange 131072)) (zrange n)) (zrange n)). destruct test eqn:T; [right|left].
  - apply existsb_exists in T as (k & Hk & T). apply existsb_exists in T as (k' & Hk' & T). apply existsb_exists in T as (x & _ & T). apply in_zrange in Hk, Hk'. apply andb_true_iff in T as [T T3]. apply andb_true_iff in T as [T1 T2]. apply Z.ltb_lt in T1. exists k, k', x. repeat split; auto; lia.
  - intros k k' x K K' S1. destruct (seen_by p k' x) eqn:S2; [|reflexivity]. exfalso. rewrite <- not_true_iff_false in T. apply T. apply existsb_exists. exists k. split; [apply in_zrange; lia|]. apply existsb_exists. exists k'. split; [apply in_zrange; lia|]. apply existsb_exists. exists x. split.
    + apply in_zrange. apply seen_in_line in S1. pose proof (TAG_Ib_range p (PtagFromItag_ p k)) as I. pose proof (mask_bound (m_fSmallFormat p)). pose proof (TAG_Cb_range p (PtagFromItag_ p k)). lia.
    + rewrite S1, S2, andb_true_r, andb_true_r. apply Z.ltb_lt. lia.
Qed.

(** C22: With a map of the bytes the check reports an overlap only if two lines share a
    byte, and accepts a page only if no two lines share a byte but one of those that
    the map does not show: those in the word that a line begins in, when it begins
    at the ninth byte of the word or later. *)
Theorem overlap_check_is_exact : grbit .& CheckTagsNonOverlapping <> 0 -> new_ok = true ->
  (check_page DEBUG g_fRepair new_ok grbit p = Bad TagsOverlap -> exists k k' x, 0 <= k < k' /\ k' < n /\ on_line k x /\ on_line k' x) /\
  (check_page DEBUG g_fRepair new_ok grbit p = Ok tt -> forall k k' x, 0 <= k < k' -> k' < n -> on_line k x -> on_line k' x -> unseen k x \/ unseen k' x).
Proof.
  intros G Nk. assert (Once : forall r, r = Ok tt \/ r = Bad TagsOverlap -> check_page DEBUG g_fRepair new_ok grbit p = r -> (r = Bad TagsOverlap <-> ~ seen_once p 0 n)).
  { intros r C E. destruct (check_page_split DEBUG g_fRepair new_ok grbit p r C E) as (s & Hh & Ht & Ho & _). destruct (header_Ok _ _ Hh) as [_ B2]. destruct (tags_result s Ht B2) as (_ & _ & _ & Z0). specialize (Z0 G Nk). rewrite <- Ho. now rewrite Z0. }
  split; intros E.
  - destruct seen_once_dec as [So|(k & k' & x & K & K' & S1 & S2)]; [destruct (proj1 (Once _ (or_intror eq_refl) E) eq_refl So)|]. exists k, k', x. apply seen_in_line in S1, S2. unfold on_line. auto.
  - assert (So : seen_once p 0 n). { destruct seen_once_dec as [So|X]; [exact So|]. exfalso. assert (N : Ok tt = Bad TagsOverlap); [|discriminate]. apply (Once (Ok tt) (or_introl eq_refl) E). intros So. destruct X as (k & k' & x & K & K' & S1 & S2). rewrite (So k k' x K ltac:(lia) S1) in S2. discriminate. }
    intros k k' x K K' I1 I2. pose proof (TAG_Ib_range p (PtagFromItag_ p k)) as R1. pose proof (TAG_Ib_range p (PtagFromItag_ p k')) as R2. assert (D : forall j, {unseen j x} + {~ unseen j x}) by (intros j; unfold unseen; destruct (Z_le_dec 8 (ib j mod 32)), (Z.eq_dec (x / 32) (ib j / 32)); [left|right|right|right]; tauto).
    destruct (D k) as [U|U]; [now left|]. destruct (D k') as [U'|U']; [now right|]. exfalso. assert (S1 : seen_by p k x = true) by (apply seen_by_iff; [lia|auto]). assert (S2 : seen_by p k' x = true) by (apply seen_by_iff; [lia|auto]).
    rewrite (So k k' x K ltac:(lia) S1) in S2. discriminate.
Qed.

End Theorems.

(** C21: Every page of nodes whose header is coherent passes the check in every mode and
    at every extent, with and without memory for the map: keys need be there unless a
    repair runs, and in order if the order is checked; with [DEBUG] no reserved line
    may be one byte long. *)
Theorem node_pages_pass_the_check DEBUG g_fRepair new_ok mode grbit p : node_page p -> coherent g_fRepair p -> g_fRepair = true \/ keys_present p -> (grbit .& CheckLinesInOrder <> 0 -> keys_in_order p) ->
  DEBUG = false \/ (forall k, 0 <= k < m_ctagReserved p -> TAG_Cb p (PtagFromItag_ p k) <> 1) ->
  ErrCheckPage DEBUG g_fRepair new_ok mode grbit p = Some JET_errSuccess.
Proof. intros Np Co Kp Ko Deb. unfold ErrCheckPage. now rewrite page_passes. Qed.

(** ** The check ends on any bytes *)

Lemma silent_stuck {A B} (o : verdict A) (k : A -> verdict B) : o <> Stuck -> (forall a, o = Ok a -> k a <> Stuck) -> (match o with Ok a => k a | Bad c => Bad c | Stuck => Stuck end) <> Stuck.
Proof. destruct o as [a|c|]; intros N K; [now apply K|discriminate|now contradiction N]. Qed.

Lemma bad_if_runs b c : bad_if b c <> Stuck.
Proof. unfold bad_if. now destruct b. Qed.

Section Runs.
Variables (DEBUG g_fRepair : bool) (grbit : Z) (p : CPAGE).
Hypothesis Mok : mem_ok (pv p).
Abbreviation cb k := (TAG_Cb p (PtagFromItag_ p k)).

Lemma Checked_not_bogus itag : cb itag <> 0 -> ln_pv (fst (GetPtr_Checked p itag)) <> PvBogus.
Proof.
  intros N. unfold GetPtr_Checked. cbv zeta. destruct (_ || _); [discriminate|]. destruct (Z.eqb_spec (cb itag) 0); [contradiction|]. destruct (_ || _); discriminate.
Qed.

Lemma accessor k : (if k <? m_ctagReserved p then ErrGetPtrReservedTag p k else ErrGetPtr p (k - m_ctagReserved p)) = GetPtr_Checked p k.
Proof. unfold ErrGetPtrReservedTag, ErrGetPtr. replace (k - m_ctagReserved p + m_ctagReserved p) with k by lia. now destruct (k <? m_ctagReserved p). Qed.

Lemma check_line_runs k : cb k <> 0 -> check_line DEBUG p k (cb k) <> Stuck.
Proof.
  intros N. unfold check_line. rewrite accessor. pose proof (Checked_not_bogus k N) as B. destruct (GetPtr_Checked p k) as [line err]. cbn [fst] in B. destruct (ln_pv line) as [| |pb]; [discriminate|contradiction|]. repeat (apply silent_stuck; [apply bad_if_runs|intros [] _]). apply bad_if_runs.
Qed.

Lemma check_line_pv k u : check_line DEBUG p k (cb k) = Ok u -> exists pb, ln_pv (fst (GetPtr_Checked p k)) = PvPage pb.
Proof. unfold check_line. rewrite accessor. destruct (GetPtr_Checked p k) as [line err]. cbn [fst]. destruct (ln_pv line) as [| |pb]; [discriminate|discriminate|]. intros _. now exists pb. Qed.

Lemma kdf_exists k pb : ln_pv (fst (GetPtr_Checked p k)) = PvPage pb -> exists r, ErrNDIGetKeydataflags p (k - m_ctagReserved p) = Some r.
Proof.
  intros E. unfold ErrNDIGetKeydataflags, NDIGetKeydataflags_Checked, ErrGetPtr. replace (k - m_ctagReserved p + m_ctagReserved p) with k by lia. destruct (GetPtr_Checked p k) as [line err]. cbn [fst] in E. destruct (_ && _); [now eexists|].
  unfold NDILineToKeydataflags. rewrite E. cbv zeta. destruct (FNDCompressed _); [|now eexists]. destruct (ErrGetPtrExternalHeader p) as [lh eh]. destruct (ln_pv lh), (eh <? JET_errSuccess); now eexists.
Qed.

Lemma check_node_runs k key pb : ln_pv (fst (GetPtr_Checked p k)) = PvPage pb -> check_node g_fRepair grbit p k (cb k) key <> Stuck.
Proof.
  intros E. unfold check_node. destruct (kdf_exists k pb E) as [[kdf err] ->]. repeat (apply silent_stuck; [apply bad_if_runs|intros [] _]). destruct (negb _); [|discriminate]. apply silent_stuck; [apply bad_if_runs|discriminate].
Qed.

(** The map, if there is one, has room for the lines. *)
Definition roomy (s : check_state) : Prop := match rgdw s with None => True | Some rg => map_ok rg /\ ibMicFree p <= 32 * cdw rg /\ 0 <= dwOverlaps s end.

Lemma check_tag_runs k s : roomy s -> check_tag DEBUG g_fRepair grbit p k s <> Stuck.
Proof.
  intros Ro. pose proof (TAG_Cb_range p (PtagFromItag_ p k)) as R. pose proof (TAG_Ib_range p (PtagFromItag_ p k)) as Ri. pose proof (load16_range (pv p) Mok 32) as U. fold (ibMicFree p) in U. unfold check_tag. destruct (Z.eqb_spec (cb k) 0) as [Z0|N]; [now destruct (k <? _)|].
  apply silent_stuck; [apply bad_if_runs|]. intros [] E. apply bad_if_Ok in E. apply Z.ltb_ge in E. destruct (negb (grbit =? 0)); [|discriminate]. unfold check_extensive. cbn [cbTotal rgdw dwOverlaps keyLast]. apply silent_stuck; [apply bad_if_runs|intros [] _].
  apply silent_stuck; [now apply check_line_runs|]. intros u El. destruct (check_line_pv k u El) as [pb Ep]. apply silent_stuck; [destruct (_ && _); [now apply (check_node_runs k _ pb)|discriminate]|]. intros key _.
  unfold roomy in Ro. destruct (rgdw s) as [rg|]; [|discriminate]. destruct Ro as (K & F & Rv). destruct (mark_line_marks rg (dwOverlaps s) (TAG_Ib p (PtagFromItag_ p k)) (cb k) K Rv ltac:(lia) ltac:(lia) ltac:(lia) ltac:(lia)) as (rg' & ov' & -> & _). discriminate.
Qed.

Lemma check_tag_roomy k s s' : roomy s -> check_tag DEBUG g_fRepair grbit p k s = Ok s' -> roomy s'.
Proof.
  intros Ro H. destruct (check_tag_Ok DEBUG g_fRepair grbit p k s s' H) as (_ & L & M & _). unfold roomy, map_step in *. destruct (rgdw s) as [rg|] eqn:Er; [|destruct M as [-> _]; exact I]. destruct Ro as (K & F & Rv).
  destruct (Z.eq_dec grbit 0) as [G|G].
  - rewrite G, orb_true_r in M. destruct M as [-> ->]. auto.
  - destruct (map_step_spec grbit p Mok k s s' rg G L) as (rg' & (-> & K' & F' & R') & _); [split; [exact Er|auto]|unfold map_step; now rewrite Er|auto].
Qed.

Lemma check_tags_run m k s : roomy s -> check_tags m DEBUG g_fRepair grbit p k s <> Stuck.
Proof.
  revert k s. induction m as [|m IH]; intros k s Ro; cbn [check_tags]; [discriminate|]. apply silent_stuck; [now apply check_tag_runs|]. intros s' E. apply IH. now apply (check_tag_roomy k s).
Qed.

End Runs.

(** C23: Whatever bytes the buffer holds, the check follows no pointer to nowhere, marks
    no byte outside its map, and ends with success or with the error for a corrupt
    database. *)
Theorem check_ends_on_any_bytes DEBUG g_fRepair new_ok grbit p : mem_ok (pv p) ->
  ErrCheckPage DEBUG g_fRepair new_ok OnErrorReturnError grbit p = Some JET_errSuccess \/ ErrCheckPage DEBUG g_fRepair new_ok OnErrorReturnError grbit p = Some JET_errDatabaseCorrupted.
Proof.
  intros Mok. unfold ErrCheckPage. assert (N : check_page DEBUG g_fRepair new_ok grbit p <> Stuck).
  { unfold check_page. fold (start_state new_ok grbit p). apply silent_stuck; [unfold check_header; repeat (apply silent_stuck; [apply bad_if_runs|intros [] _]); apply bad_if_runs|]. intros [] H. apply header_Ok in H as [_ B].
    apply silent_stuck; [|intros s _; apply silent_stuck; [apply bad_if_runs|intros [] _; apply bad_if_runs]]. apply check_tags_run; [exact Mok|]. unfold roomy, start_state. cbn [rgdw dwOverlaps]. destruct (_ && new_ok); [|exact I]. split; [intros i; cbn; lia|]. split; [now apply map_fits|lia]. }
  destruct (check_page DEBUG g_fRepair new_ok grbit p); [now left|now right|contradiction].
Qed.

(** ** Witnesses *)

(** The leaf page of four nodes; its header, its keys and their order. *)
Lemma filled_coherent : coherent false filled.
Proof. split; vm_compute; congruence. Qed.

Lemma filled_counts : Clines filled = 4 /\ m_ctagReserved filled = 1 /\ m_itagMicFree filled = 5.
Proof. vm_compute. auto. Qed.

Lemma filled_keys (P : list Z -> Prop) : Forall P (map nd_key (nodes filled)) -> forall i, 0 <= i < Clines filled -> P (node_key filled i).
Proof.
  intros F i B. unfold node_key. rewrite (proj1 filled_counts) in B. rewrite (proj2 filled_nodes) in *. rewrite Forall_forall in F. apply F, in_map, nth_In. cbn [length]. lia.
Qed.

Lemma filled_keys_present : keys_present filled.
Proof. intros i B _. apply (filled_keys (fun k => k <> [])); [|exact B]. rewrite (proj2 filled_nodes). repeat constructor; discriminate. Qed.

Lemma filled_keys_in_order : keys_in_order filled.
Proof.
  intros i B _. rewrite (proj1 filled_counts) in B. unfold node_key. rewrite (proj2 filled_nodes). assert (C : i = 1 \/ i = 2 \/ i = 3) by lia. destruct C as [-> | [-> | ->]]; vm_compute; discriminate.
Qed.

Lemma filled_reserved k : 0 <= k < m_ctagReserved filled -> TAG_Cb filled (PtagFromItag_ filled k) <> 1.
Proof. rewrite (proj1 (proj2 filled_counts)). intros B. replace k with 0 by lia. vm_compute. discriminate. Qed.

Lemma filled_mem_ok : mem_ok (pv filled).
Proof. apply (proj1 filled_nodes). Qed.

Lemma filled_tags : tag_count_ok filled.
Proof. vm_compute. split; discriminate. Qed.

(** The same page, the tag of the second node now at the first node's bytes: both
    lines begin at the eleventh byte of a word. *)
Definition overlapped : CPAGE := with_pv filled (store16 (pv filled) (PtagFromItag_ filled 2 + 2) (load16 (pv filled) (PtagFromItag_ filled 1 + 2))).

(** The same, both lines moved to the begin of a word; the data are zeroes. *)
Definition overlapped_seen : CPAGE :=
  let at4 := fun p k => with_pv p (store16 (pv p) (PtagFromItag_ p k + 2) (load16 (pv p) (PtagFromItag_ p 3 + 2))) in at4 (at4 filled 1) 2.

Lemma overlapped_mem_ok : mem_ok (pv overlapped).
Proof. apply store16_ok. exact filled_mem_ok. Qed.

(** The first word of the lines is not in the map, and two lines of the same bytes are
    accepted. *)
Lemma overlapping_lines_are_accepted : ErrCheckPage true false true OnErrorReturnError CheckAll overlapped = Some JET_errSuccess /\ on_line overlapped 1 12 /\ on_line overlapped 2 12.
Proof. vm_compute. repeat split; congruence. Qed.

Lemma overlapping_lines_are_reported : check_page true false true CheckTagsNonOverlapping overlapped_seen = Bad TagsOverlap.
Proof. vm_compute. reflexivity. Qed.

Lemma node_pages_pass_the_check_witness : ErrCheckPage true false true OnErrorEnforce CheckAll filled = Some JET_errSuccess.
Proof.
  apply node_pages_pass_the_check; [apply filled_nodes|exact filled_coherent|right; exact filled_keys_present|intros _; exact filled_keys_in_order|right; exact filled_reserved].
Defined.

Lemma accepted_pages_are_consistent_witness : cb_total (lines filled) + cbFree filled + CbTagArray_ filled = CbBufferData filled /\ exists kdf, node_fits false filled 2 kdf.
Proof.
  destruct (accepted_pages_are_consistent false false true CheckAll filled filled_mem_ok filled_tags ltac:(vm_compute; reflexivity)) as (A & _ & _ & N & _). split; [exact A|]. apply N; [reflexivity|vm_compute; split; congruence|vm_compute; congruence].
Defined.

Lemma overlap_check_is_exact_witness : (exists k k' x, 0 <= k < k' /\ k' < m_itagMicFree overlapped_seen /\ on_line overlapped_seen k x /\ on_line overlapped_seen k' x) /\ (unseen overlapped 1 12 \/ unseen overlapped 2 12).
Proof.
  split.
  - apply (overlap_check_is_exact true false true CheckTagsNonOverlapping overlapped_seen); [unfold overlapped_seen; cbv zeta; do 2 apply store16_ok; exact filled_mem_ok|vm_compute; split; discriminate|vm_compute; discriminate|reflexivity|vm_compute; reflexivity].
  - apply (overlap_check_is_exact true false true CheckAll overlapped); [exact overlapped_mem_ok|vm_compute; split; discriminate|vm_compute; discriminate|reflexivity|vm_compute; reflexivity|lia|vm_compute; reflexivity|vm_compute; split; congruence|vm_compute; split; congruence].
Defined.

Lemma check_ends_on_any_bytes_witness : ErrCheckPage true false true OnErrorReturnError CheckAll overlapped_seen = Some JET_errSuccess \/ ErrCheckPage true false true OnErrorReturnError CheckAll overlapped_seen = Some JET_errDatabaseCorrupted.
Proof. apply check_ends_on_any_bytes. unfold overlapped_seen. cbv zeta. do 2 apply store16_ok. exact filled_mem_ok. Defined.
